(* ===== verification/_CoqProject ===== *)
-Q . S2P
Prelude.v
Errors.v
Xdr.v
LinkedList.v
RpcCalls.v
NfsProto.v
NfsNodes.v
NfsHooks.v
NfsInv.v
NfsCreate.v
NfsData.v
NfsStack.v
StrTo.v
NfsMount.v
RingBuffer.v
VnidPool.v
SList.v
Dpc.v
Inet.v
Sort.v
Heapsort.v
Merge.v
MergeAreas.v
MergeSearch.v
MergeRuns.v
MergePasses.v
MergeSetup.v
MergeNatural.v
MergeSort.v
Radix.v
RadixKeys.v
RadixBins.v
RadixDeal.v
RadixMerge.v
RadixSort.v
Random.v
FatTime.v
Fat.v
FatTable.v
FatEntry.v
FatMap.v
FatAlloc.v
FatFree.v
FatFill.v
FatFile.v
FatChain.v
FatExtend.v
FatSpec.v
CacheHash.v
CacheState.v
CacheIo.v
CacheFlush.v
BlockCache.v
CacheInv.v
CacheServe.v
CacheMiss.v
CacheFill.v
CacheStage.v
CacheSettle.v
CacheRun.v
CacheStore.v
CacheLarge.v
CachePointer.v
CacheSync.v
CacheSpec.v
CacheInit.v
Benaphore.v
WebQuery.v
WebParse.v
WebParseProofs.v
WebFs.v
WebTree.v
WebView.v
WebRun.v
WebServe.v
WebList.v
WebSpec.v
WebSearch.v
WebAttr.v
WebFind.v
