(* ===== verification/Prelude.v ===== *)
(** * A verification library for Kintsugi OS

    The repository is a fork of Haiku.  Most of it is C++ or vendored; this
    library models C code that is the system's own: a network file system, the
    block cache under the file systems that run in user land, a file system whose
    folders are searches of the web, the allocation table of the FAT driver, the
    kernel's deferred procedure calls and text conversions, and the C library's
    sorting and random numbers.  Paths below are relative to
    the root of the repository.

    ** The program and the files

    The NFS client, src/add-ons/kernel/file_systems/nfs/, is five layers, each
    proved against the one below through an interface:

    - [Xdr]: XDROutPacket.c and XDRInPacket.c.  A packet is its buffer, its
      allocated length and its cursor; growth goes by [realloc] as in the
      source.  Writing past an array, reading past one and null pointers are the
      outcome [Bad].
    - [LinkedList], [RpcCalls]: RPCPendingCalls.c and [postoffice_func],
      [send_rpc_call] of nfs_add_on.c.  The state [rpc] holds the kernel's
      semaphores, the heap of pending calls, the semaphore pool, the transaction
      counter and a network, which is a parameter ([net], with what [sendto] and
      [recvfrom] answer).  The answers that arrive while the caller waits are
      handled by turns of the postoffice thread between its steps.
    - [NfsProto]: the volume [fs_nspace], replies, attributes, error codes and
      the remote procedures ([nfs_lookup], [nfs_getattr], [nfs_mount],
      [get_remote_address], [nfs_truncate_file]).  They are proved against the
      class [Transport]; [NfsStack] shows that the RPC layer is an instance.
    - [NfsNodes]: the list of nodes of a volume under its semaphore
      ([insert_node], [remove_node], [handle_from_vnid], [fs_read_vnode],
      [fs_remove_vnode]).
    - [NfsHooks]: the hooks the VFS calls, one definition each, over the class
      [Vfs] (vnodes, notifications, the clock).  [NfsInv] proves the invariant
      of all of them, [NfsData] what reading and writing do to a file,
      [NfsCreate] what happens when the server reuses an inode number.
    - [NfsMount]: settings, the mount string, the socket, mounting and
      unmounting, over the class [Kernel] (sockets, threads, semaphores).

    The block cache, src/add-ons/kernel/file_systems/userlandfs/server/beos/
    fs_cache.c with fs_cache_priv.h, serves file systems written for BeOS:

    - [CacheHash]: the hash table from (device, block number) to entries.
    - [CacheState]: one record [state] for the structure [bc], the other static
      variables and the devices; entries in a heap, with the links of the two
      LRU lists; the list operations and the pool of I/O vectors.
    - [CacheIo]: device transfers, whole or short or failing as the script [io] of
      the state says, and [beos_read_phys_blocks], [beos_write_phys_blocks].
    - [CacheFlush]: [flush_cache_ent] and [flush_ents], sorting with [qsort] of
      [Sort]; what writing back does on working devices.
    - [BlockCache]: the entry points, and [cache_block_io] cut into its parts
      ([io_large], [io_hit], [io_miss] and the loops of the latter).
    - [CacheInv]: the abstract view of a state (entries without links, two lists,
      a finite map) and the invariant [inv] between operations; [CacheServe],
      [CacheMiss], [CacheFill], [CacheStage], [CacheSettle] and [CacheRun] take
      [cache_block_io] through it step by step, [CacheLarge] does so for requests
      that bypass the cache, [CachePointer] for blocks held by a caller and
      [CacheSync] for flushing.
    - [CacheStore], [CacheSpec], [CacheInit]: the abstract store of blocks, the
      refinement for sequences of operations, and set-up.

    The search file system, src/add-ons/kernel/file_systems/websearchfs/, shows a
    tree of folders; opening a query makes a folder of what a search engine
    answers:

    - [RingBuffer], [VnidPool], [SList]: ringbuff.c, vnidpool.c, lists.c and
      lists2.c, the data structures.
    - [Benaphore]: the locks of lock.h (and of userlandfs), a step relation over
      threads that enter and leave.
    - [WebQuery]: query.c, [urlify_string] of string_utils.c and the part of
      [websearchfs_open_query] that takes the text out of a query; also the writer of
      such queries, [GetByNamePredicate] of src/kits/tracker/FindPanel.cpp with the
      nodes of src/kits/storage/QueryPredicate.cpp, for ASCII texts.
    - [WebParse]: parse_duckduckgo_html.c and [unentitify_string]; proofs in
      [WebParseProofs].
    - [WebFs]: websearchfs.c from mounting to removing folders.  The state
      [web_ns] is the volume with a heap of nodes (linked in three kinds of
      lists), a heap of cookies, the pool of ids and the lock; the kernel's
      clock, vnodes and node monitor are the class [WebKernel].
    - [WebTree]: the tree the volume promises, with its requests and answers;
      [WebView] relates the heap to it, [WebRun], [WebServe] and [WebList] take
      the hooks through it one by one, [WebSpec] puts them together.
    - [WebSearch]: the attribute and query hooks, duckduckgo_request.cpp and
      settings.c; the page a server answers is the class [WebNet].  [WebAttr] and
      [WebFind] have what they do to a volume.

    The FAT driver, src/add-ons/kernel/file_systems/fat/, keeps the clusters of
    files in a table of 12, 16 or 28-bit entries, of which the volume has copies:

    - [Fat]: bsd/fs/msdosfs/msdosfs_fat.c.  [geometry] has the fields of [struct
      msdosfsmount] that mounting sets, the state [msdosfsmount] the others with
      the bytes of the volume.  [bread], [bdwrite] and [bwrite] of
      bsd/kern/vfs_bio.c read and write these bytes; the answers of the block
      cache are a list of error numbers in the state.
    - [FatTable]: the entry of a cluster as a function of the bytes, and the
      blocks it lies in; [FatEntry] has [updatefats], [fatentry] and [fatchain]
      on it.
    - [FatMap]: the map of used clusters and the free runs found in it; [FatAlloc]
      has the invariant [fat_inv] and allocation, [FatFree] freeing, [FatFill]
      mounting and the clean bit.
    - [FatFile]: [pcbmap], [extendfile] and the cache of a file's clusters;
      [FatChain] has the chain of a file, [FatExtend] the loop that appends.
    - [FatSpec]: the theorems.
    - [FatTime]: bsd/kern/subr_fattime.c, the time stamps of the entries.

    The other components stand alone:

    - [Dpc]: src/add-ons/kernel/generic/dpc/dpc.c as a step relation over its
      callers, its thread and its deletion.
    - [StrTo]: strtol.c, strtoll.c, strtoul.c, strtoull.c of
      src/system/kernel/lib/.  [NfsMount] uses it for the mount string.
    - [Inet]: inet_addr.c and inet_ntop.c of src/system/kernel/util/.
    - [Sort], [Heapsort]: qsort.c, bsearch.c and heapsort.c of
      src/system/libroot/posix/stdlib/, on arrays of elements.
    - [Merge]: merge.c there, on bytes, since it keeps pointers between the bytes
      of elements.  [MergeAreas] has elements and pointers in bytes,
      [MergeSearch] the searches, [MergeRuns] merging two runs, [MergePasses] the
      passes, [MergeSetup] and [MergeNatural] the first runs, [MergeSort] the
      theorem.
    - [Radix]: radixsort.c there, with both functions, the explicit stack and the
      static histogram.  [RadixKeys] has the order of strings and the insertion
      sort, [RadixBins] the histogram and the piles, [RadixDeal] one turn of each
      function, [RadixMerge] and [RadixSort] the theorems.
    - [Random]: random.c there, with its static variables as pointers into a
      memory of words.

    [Errors] has the error codes and flags of the headers; this file has the
    integers, the monads, byte arrays and the shared lemmas.

    ** Conventions

    A w-bit integer is a [Z], wrapped by [u32], [s32], [u64], ... where the
    source converts.  [long], [size_t] and [off_t] have 64 bits, [int] 32.  Code
    that may fault has type [outcome] ([Ok], [Bad fault], [Hang]); stateful code
    is [M S A], explicit state passing over [outcome].  A function that returns
    [status_t] and results has type [M S (Z + A)]: [inl e] is the error returned,
    [inr a] is [B_OK].  [malloc] asks the class [Allocator], so that failures
    are modelled; theorems on the normal behaviour assume [alloc_plenty].
    Memory the source leaves uninitialised is a parameter [uninit].

    Loops that are not structural take fuel and answer [Hang] without it.  List
    walks have one unit per node of the heap and one more ([walk_fuel]), the
    loop of a reply one per byte of the reply; the theorems on [fs_read],
    [fs_write], [create_socket] and the deferred calls state how much is
    enough and prove that the loop ends.  In the block cache a request of [n]
    blocks has [n] turns, a walk along a list one unit per cached block, and
    [beos_flush_device] as many looks at entries as the caller gives: [m * (m +
    1)] are enough for [m] cached blocks.  The loops of merge sort have a turn for
    every byte of the array.  Radix sort has three turns and two for every byte of
    the strings, its loops over piles 256 and over elements one for each.  The
    loops of the FAT driver are bounded by the number of clusters, and extending a
    file by the number of clusters asked for.

    ** What the theorems show

    - Data formats: packets round-trip ([Xdr]); replies, attributes and statuses
      are decoded as the RFCs say, with the limits stated ([NfsProto]); mount
      strings and addresses round-trip ([NfsMount], [Inet]); numbers are
      converted exactly, as a grammar of numbers has them, for every string and base
      ([StrTo]); IPv6 addresses get
      the text with the longest run of zeros abbreviated ([Inet]).
    - Protocol: a remote call sends the message it should and returns the answer
      to it and to nothing else, leaving pool and list as they were
      ([RpcCalls]); the same lookup theorem holds over this transport
      ([NfsStack]).
    - State: the node list refines a finite map ([NfsNodes]) and stays well
      formed under any sequence of hooks, with the semaphore free unless
      [fs_read_vnode] failed ([NfsInv]); the ring buffer refines a
      queue and the lists refine lists ([RingBuffer], [SList]); deferred calls
      run once each and in order under every interleaving, and deletion drains
      the queue ([Dpc]); the locks exclude and lose no wake-up under every
      interleaving ([Benaphore]).
    - The search file system: a mounted volume answers any sequence of requests
      as the tree does, errors and notifications included ([WebSpec]); a search
      gives one entry for every link of the page, in order, with its attributes
      ([WebFind]); attributes are listed and read exactly ([WebAttr]); the text of
      a search, without stars, survives the query Tracker writes it into, less a
      space at its beginning, and the URL it is sent with ([WebQuery]), and the parser is safe for every page and reads pages of links
      back ([WebParseProofs]).  The hooks run one at a time, memory does not run
      out, at most 1247 nodes were made since mounting (the pool reads past its
      bitmap after that) and names are shorter than their array.  A search
      starts on a volume without open queries; the theorem on trees has no
      queries in it.
    - The block cache: callers see a plain store of blocks under any sequence of
      reads, writes, block pointers and flushes ([CacheSpec]); flushing a device
      ends and leaves every unlocked block on the disk ([CacheSync]); set-up
      gives such a cache ([CacheInit]); the hash table refines a finite map
      ([CacheHash]) and transfers in chunks are transparent even when the device
      fails ([CacheIo]).  The refinement is for one thread, allocations that
      succeed and devices that do not fail; at most 2^27 cached blocks, block
      numbers below 2^31 (the comparison function truncates), block sizes from
      512 (read-ahead panics below) to 2^24, requests below 2^32 bytes, and room
      for 65 entries nobody has locked.  The error paths are in the definitions.
    - Data: reading delivers and writing stores exactly the bytes asked for
      in files below 2 GB ([NfsData]).  The five sorts sort, merge sort and [sradixsort] are
      stable, quick and merge sort are safe for any comparison function, and the
      binary search finds ([Sort], [Heapsort], [MergeSort], [RadixSort]); radix
      sort is for fewer than 2^31 strings of fewer than 2^31 bytes.  The random
      number generators refine their recurrences over any sequence of seeds and
      states, [setstate] on the array in use included, which goes back to an older
      position ([Random]).
    - The FAT driver: reading and setting an entry is exact in the table and in
      its copies, allocation makes a chain of the longest free run that is
      needed, freeing ends for every table, damaged ones included, and the map
      of used clusters fits the table from mounting on; files map to their
      clusters whichever slots of their cache are filled, as long as these agree with
      the file, and grow by clusters that were free ([FatSpec]).  The block cache does not fail in these theorems, and a
      table of twelve-bit entries has blocks of a multiple of three sectors, as
      mounting sets them for sectors of 512 bytes.  Time stamps are the dates
      of the calendar from 1980 to 2107 and read back the same until 2106
      ([FatTime]).
    - Defects, each proved on the same definitions: a lock kept on an error path
      ([NfsNodes]), a freed node published ([NfsCreate]), an unchecked length
      from the network ([NfsProto]), a read past a mount string ([NfsMount]), a
      bitmap too small by four and macros that use the wrong bit ([VnidPool]), a
      queue freed under a caller ([Dpc]), a search that gives up ([SList]), dates
      that overflow ([FatTime]), a table written past its buffer, a map made of
      the wrong block and a long file that is silently not extended
      ([FatSpec]).

    ** What is not modelled

    The C++ kernel, kits, servers and applications; vendored code; hardware
    access.  Inside the modelled files: debugging output, [free] of blocks whose
    address is not used again, the hooks that only free a cookie or answer
    [B_OK].  Of websearchfs: the tables of attrs.c, which are arguments of the
    hooks, and the connection to the server.  Of the FAT driver: its
    directories and names, truncating a file, and the C++ hooks.  Of the block
    cache: its debugging commands, the disabled
    sanity checks and [last_cache_access], which only disabled code
    reads. *)

From stdpp Require Export base list numbers gmap strings.
From Stdlib Require Export ZArith Lia.

#[global] Open Scope Z_scope.

(** * Machine integers

    A w-bit integer is the [Z] of its value; the C conversions are written
    out at the places where the source performs them. *)

Definition uwrap (w x : Z) : Z := x mod 2 ^ w.
Definition swrap (w x : Z) : Z := (x + 2 ^ (w - 1)) mod 2 ^ w - 2 ^ (w - 1).

Definition u8 : Z → Z := uwrap 8.
Definition u16 : Z → Z := uwrap 16.
Definition u32 : Z → Z := uwrap 32.
Definition u64 : Z → Z := uwrap 64.
Definition s16 : Z → Z := swrap 16.
Definition s32 : Z → Z := swrap 32.
Definition s64 : Z → Z := swrap 64.

Definition is_u8 (x : Z) : Prop := 0 ≤ x < 2 ^ 8.
Definition is_u32 (x : Z) : Prop := 0 ≤ x < 2 ^ 32.
Definition is_s32 (x : Z) : Prop := - 2 ^ 31 ≤ x < 2 ^ 31.
Definition is_u64 (x : Z) : Prop := 0 ≤ x < 2 ^ 64.
Definition is_s64 (x : Z) : Prop := - 2 ^ 63 ≤ x < 2 ^ 63.

(** * Outcomes of C code

    [Ok] is a normal return; [Bad] is behaviour the C standard leaves undefined
    or a kernel fault (the run stops being meaningful there); [Hang] is an
    exhausted loop bound. *)

Inductive fault : Set :=
  | OutOfBounds
  | NullDeref
  | UseAfterFree
  | DivByZero
  | Deadlock
  | AssertFailed.

Inductive outcome (A : Type) : Type :=
  | Ok (a : A)
  | Bad (f : fault)
  | Hang.
Arguments Ok {A} a.
Arguments Bad {A} f.
Arguments Hang {A}.

#[global] Instance fault_eq_dec : EqDecision fault.
Proof. solve_decision. Defined.

(** Pure computations that may fault. *)
#[global] Instance outcome_ret : MRet outcome := λ A a, Ok a.
#[global] Instance outcome_bind : MBind outcome := λ A B k m,
  match m with Ok a => k a | Bad f => Bad f | Hang => Hang end.

(** Stateful computations that may fault: explicit state passing. *)
Definition M (S A : Type) : Type := S → outcome (A * S).

#[global] Instance M_ret {S} : MRet (M S) := λ A a s, Ok (a, s).
#[global] Instance M_bind {S} : MBind (M S) := λ A B k m s,
  match m s with
  | Ok (a, s') => k a s'
  | Bad f => Bad f
  | Hang => Hang
  end.

Definition getS {S} : M S S := λ s, Ok (s, s).
Definition putS {S} (s : S) : M S unit := λ _, Ok (tt, s).
Definition modifyS {S} (f : S → S) : M S unit := λ s, Ok (tt, f s).
Definition failM {S A} (f : fault) : M S A := λ _, Bad f.
Definition hangM {S A} : M S A := λ _, Hang.
Definition liftO {S A} (o : outcome A) : M S A := λ s,
  match o with Ok a => Ok (a, s) | Bad f => Bad f | Hang => Hang end.

Section Monad.
Context {S : Type}.

Lemma bind_Ok {A B} (m : M S A) (k : A → M S B) s a s' :
  m s = Ok (a, s') → (m ≫= k) s = k a s'.
Proof. intros H. unfold mbind, M_bind. by rewrite H. Qed.

Lemma bind_Bad {A B} (m : M S A) (k : A → M S B) s f :
  m s = Bad f → (m ≫= k) s = Bad f.
Proof. intros H. unfold mbind, M_bind. by rewrite H. Qed.

Lemma bind_inv {A B} (m : M S A) (k : A → M S B) s r :
  (m ≫= k) s = Ok r → ∃ a s', m s = Ok (a, s') ∧ k a s' = Ok r.
Proof.
  unfold mbind, M_bind. destruct (m s) as [[a s']| |]; naive_solver.
Qed.

Lemma bind_getS {B} (k : S → M S B) s : (getS ≫= k) s = k s s.
Proof. done. Qed.

Lemma bind_putS {B} (k : unit → M S B) s s' : (putS s' ≫= k) s = k tt s'.
Proof. done. Qed.

Lemma bind_modifyS {B} f (k : unit → M S B) s : (modifyS f ≫= k) s = k tt (f s).
Proof. done. Qed.

Lemma bind_ret {A B} (a : A) (k : A → M S B) s : ((mret a : M S A) ≫= k) s = k a s.
Proof. done. Qed.

Lemma bind_assoc {A B C} (m : M S A) (f : A → M S B) (g : B → M S C) s :
  ((m ≫= f) ≫= g) s = (m ≫= λ a, f a ≫= g) s.
Proof. unfold mbind, M_bind. by destruct (m s) as [[]| |]. Qed.

Lemma bind_liftO {A B} (a : A) (k : A → M S B) s : (liftO (Ok a) ≫= k) s = k a s.
Proof. done. Qed.

Lemma bind_ext {A B} (m1 m2 : M S A) (k1 k2 : A → M S B) s :
  m1 s = m2 s → (∀ a s, k1 a s = k2 a s) → (m1 ≫= k1) s = (m2 ≫= k2) s.
Proof. intros Hm Hk. unfold mbind, M_bind. rewrite Hm. by destruct (m2 s) as [[]| |]. Qed.

Lemma ret_run {A} (a : A) (s : S) : (mret a : M S A) s = Ok (a, s).
Proof. done. Qed.
End Monad.

(** Runs the administrative steps of a monadic computation in the goal. *)
Ltac mrun :=
  repeat first
    [ rewrite bind_assoc
    | rewrite bind_getS
    | rewrite bind_putS
    | rewrite bind_modifyS
    | rewrite bind_ret
    | rewrite bind_liftO
    | rewrite ret_run
    | progress cbv beta iota zeta ].

(** [mstep H]: the next step of the goal is the one [H] evaluates. *)
Ltac mstep H := erewrite bind_Ok by (eapply H || exact H); mrun.

(** * Total correctness of a run

    [runs m s Q]: [m] returns from [s], without a fault, a panic or a wait, and
    what it returns satisfies [Q]. *)
Definition runs {S A} (m : M S A) (s : S) (Q : A → S → Prop) : Prop :=
  ∃ a s', m s = Ok (a, s') ∧ Q a s'.

Section Runs.
Context {S A B : Type}.
Implicit Types (m : M S A) (s : S).

Lemma runs_ret (a : A) s (Q : A → S → Prop) : Q a s → runs (mret a) s Q.
Proof. intros HQ. by exists a, s. Qed.

Lemma runs_bind m (k : A → M S B) s (Q : B → S → Prop) :
  runs m s (λ a s', runs (k a) s' Q) → runs (m ≫= k) s Q.
Proof.
  intros (a & s' & E & b & s'' & E' & HQ). exists b, s''. by rewrite (bind_Ok _ _ _ _ _ E).
Qed.

Lemma runs_mono m s (Q Q' : A → S → Prop) :
  runs m s Q → (∀ a s', Q a s' → Q' a s') → runs m s Q'.
Proof. intros (a & s' & E & HQ) Himp. exists a, s'. auto. Qed.

Lemma runs_getS s (Q : S → S → Prop) : Q s s → runs getS s Q.
Proof. intros HQ. by exists s, s. Qed.

Lemma runs_modifyS f s (Q : unit → S → Prop) : Q tt (f s) → runs (modifyS f) s Q.
Proof. intros HQ. by exists tt, (f s). Qed.

Lemma runs_eq m s a s' (Q : A → S → Prop) : m s = Ok (a, s') → Q a s' → runs m s Q.
Proof. intros. by exists a, s'. Qed.

Lemma runs_liftO (o : outcome A) a s (Q : A → S → Prop) : o = Ok a → Q a s → runs (liftO o) s Q.
Proof. intros -> HQ. by exists a, s. Qed.
End Runs.

(** * Allocation

    [malloc]/[realloc] may fail.  A state type that contains an allocator says
    what the next allocation answers, and which states never run out. *)

Class Allocator (S : Type) := {
  alloc_next : S → bool * S;
  alloc_plenty : S → Prop;
  alloc_next_plenty s : alloc_plenty s → alloc_next s = (true, s)
}.

Definition malloc {S} `{Allocator S} : M S bool := λ s, Ok (alloc_next s).

Lemma malloc_plenty {S} `{Allocator S} s :
  alloc_plenty s → malloc s = Ok (true, s).
Proof. intros Hp. unfold malloc. by rewrite alloc_next_plenty. Qed.

#[global] Program Instance unit_allocator : Allocator unit :=
  {| alloc_next := λ s, (true, s); alloc_plenty := λ _, True |}.
Next Obligation. done. Qed.

(** * Lemmas on machine integers *)

Create HintDb cint.
Create Rewrite HintDb cint.

Ltac div_mod_lia := Z.div_mod_to_equations; lia.

Lemma uwrap_range w x : 0 ≤ w → 0 ≤ uwrap w x < 2 ^ w.
Proof. intros Hw. apply Z.mod_pos_bound, Z.pow_pos_nonneg; lia. Qed.

Lemma uwrap_id w x : 0 ≤ x < 2 ^ w → uwrap w x = x.
Proof. apply Z.mod_small. Qed.

Lemma swrap_range w x : 0 < w → - 2 ^ (w - 1) ≤ swrap w x < 2 ^ (w - 1).
Proof.
  intros Hw. unfold swrap.
  assert (2 ^ w = 2 * 2 ^ (w - 1)) as E.
  { rewrite <- Z.pow_succ_r by lia. f_equal; lia. }
  pose proof (Z.mod_pos_bound (x + 2 ^ (w - 1)) (2 ^ w)) as Hb.
  pose proof (Z.pow_pos_nonneg 2 (w - 1)). lia.
Qed.

Lemma swrap_id w x : 0 < w → - 2 ^ (w - 1) ≤ x < 2 ^ (w - 1) → swrap w x = x.
Proof.
  intros Hw Hx. unfold swrap.
  assert (2 ^ w = 2 * 2 ^ (w - 1)) as E.
  { rewrite <- Z.pow_succ_r by lia. f_equal; lia. }
  rewrite Z.mod_small; lia.
Qed.

Lemma swrap_uwrap w x : 0 < w → swrap w (uwrap w x) = swrap w x.
Proof. intros Hw. unfold swrap, uwrap. by rewrite Zplus_mod_idemp_l. Qed.

Lemma uwrap_swrap w x : 0 < w → uwrap w (swrap w x) = uwrap w x.
Proof.
  intros Hw. unfold swrap, uwrap. rewrite Zminus_mod_idemp_l. f_equal. lia.
Qed.

Lemma s32_id x : is_s32 x → s32 x = x.
Proof. intros H. by apply swrap_id. Qed.

Lemma s32_range x : is_s32 (s32 x).
Proof. by apply (swrap_range 32). Qed.

Lemma u32_id x : is_u32 x → u32 x = x.
Proof. apply uwrap_id. Qed.

Lemma u32_range x : is_u32 (u32 x).
Proof. by apply (uwrap_range 32). Qed.

Lemma u64_id x : 0 ≤ x < 2 ^ 64 → u64 x = x.
Proof. apply uwrap_id. Qed.

Lemma u64_range x : 0 ≤ u64 x < 2 ^ 64.
Proof. by apply (uwrap_range 64). Qed.

Lemma s32_u32 x : s32 (u32 x) = s32 x.
Proof. by apply swrap_uwrap. Qed.

Lemma u32_s32 x : u32 (s32 x) = u32 x.
Proof. by apply uwrap_swrap. Qed.

#[export] Hint Resolve s32_range u32_range u64_range : cint.
#[export] Hint Rewrite s32_u32 u32_s32 : cint.

(** * Bytes *)

Definition bytes_ok (l : list Z) : Prop := Forall is_u8 l.

(** The four bytes of a 32-bit quantity in network order, and back. *)
Definition be32_enc (x : Z) : list Z :=
  [ u8 (Z.shiftr x 24); u8 (Z.shiftr x 16); u8 (Z.shiftr x 8); u8 x ].

Definition be32_dec (l : list Z) : Z :=
  match l with
  | [a; b; c; d] => a * 2 ^ 24 + b * 2 ^ 16 + c * 2 ^ 8 + d
  | _ => 0
  end.

Lemma be32_dec_enc x : be32_dec (be32_enc x) = u32 x.
Proof.
  unfold be32_dec, be32_enc, u8, u32, uwrap.
  rewrite !Z.shiftr_div_pow2 by lia. change (2 ^ 24) with 16777216.
  change (2 ^ 16) with 65536. change (2 ^ 8) with 256.
  change (2 ^ 32) with 4294967296. div_mod_lia.
Qed.

Lemma be32_enc_dec a b c d :
  is_u8 a → is_u8 b → is_u8 c → is_u8 d →
  be32_enc (be32_dec [a; b; c; d]) = [a; b; c; d].
Proof.
  unfold is_u8, be32_dec, be32_enc, u8, uwrap. intros.
  rewrite !Z.shiftr_div_pow2 by lia.
  change (2 ^ 24) with 16777216 in *. change (2 ^ 16) with 65536 in *.
  change (2 ^ 8) with 256 in *.
  repeat f_equal; div_mod_lia.
Qed.

Lemma be32_enc_add_mul x k : be32_enc (x + k * 2 ^ 32) = be32_enc x.
Proof.
  unfold be32_enc, u8, uwrap. rewrite !Z.shiftr_div_pow2 by lia.
  replace (x + k * 2 ^ 32) with (x + k * 2 ^ 8 * 2 ^ 24) at 1 by lia.
  replace (x + k * 2 ^ 32) with (x + k * 2 ^ 16 * 2 ^ 16) at 1 by lia.
  replace (x + k * 2 ^ 32) with (x + k * 2 ^ 24 * 2 ^ 8) by lia.
  rewrite !Z.div_add by lia.
  replace (k * 2 ^ 16) with (k * 2 ^ 8 * 2 ^ 8) by lia.
  replace (k * 2 ^ 24) with (k * 2 ^ 16 * 2 ^ 8) at 1 by lia.
  rewrite !Z.mod_add by lia. done.
Qed.

Lemma be32_enc_s32 x : be32_enc (s32 x) = be32_enc x.
Proof.
  unfold s32, swrap.
  rewrite Z.mod_eq by lia.
  rewrite <- (be32_enc_add_mul x (- ((x + 2 ^ (32 - 1)) / 2 ^ 32))).
  f_equal. lia.
Qed.

Lemma be32_enc_length x : length (be32_enc x) = 4%nat.
Proof. done. Qed.

Lemma be32_enc_bytes x : bytes_ok (be32_enc x).
Proof.
  unfold bytes_ok, be32_enc. repeat constructor; apply (uwrap_range 8); lia.
Qed.
#[export] Hint Resolve be32_enc_bytes : cint.

(** Fields that do not overlap: a disjunction is a sum. *)
Lemma lor_low x y n : 0 ≤ n → 0 ≤ y < 2 ^ n → Z.lor (x * 2 ^ n) y = x * 2 ^ n + y.
Proof.
  intros Hn Hy. assert (Z.land (x * 2 ^ n) y = 0) as Hland.
  { apply Z.bits_inj'. intros k Hk. rewrite Z.land_spec, Z.bits_0.
    destruct (Z.lt_ge_cases k n); [by rewrite Z.mul_pow2_bits_low by lia|].
    rewrite andb_false_iff. right. rewrite Z.testbit_false, Z.div_small; [done| |lia].
    split; [lia|]. eapply Z.lt_le_trans; [apply Hy|]. apply Z.pow_le_mono_r; lia. }
  by rewrite Z.add_nocarry_lxor, Z.lxor_lor.
Qed.

(** * Arrays of bytes, indexed by [Z] *)

Abbreviation zlen l := (Z.of_nat (length l)).

(** [slice off n l]: the [n] cells of [l] from [off]; [splice off bs l] is
    [l] with [bs] written at [off].  Both are used inside the bounds only. *)
Definition slice {A} (off n : Z) (l : list A) : list A :=
  take (Z.to_nat n) (drop (Z.to_nat off) l).

Definition splice {A} (off : Z) (bs l : list A) : list A :=
  take (Z.to_nat off) l ++ bs ++ drop (Z.to_nat off + length bs) l.

(** [memcpy] out of / into an array, with the bounds C leaves to the caller. *)
Definition load_bytes {A} (off n : Z) (l : list A) : outcome (list A) :=
  if bool_decide (0 ≤ off ∧ 0 ≤ n ∧ off + n ≤ zlen l) then Ok (slice off n l)
  else Bad OutOfBounds.

Definition store_bytes {A} (off : Z) (bs l : list A) : outcome (list A) :=
  if bool_decide (0 ≤ off ∧ off + zlen bs ≤ zlen l) then Ok (splice off bs l)
  else Bad OutOfBounds.

Section Arrays.
Context {A : Type}.
Implicit Types l bs : list A.

Lemma slice_length off n l :
  0 ≤ off → 0 ≤ n → off + n ≤ zlen l → zlen (slice off n l) = n.
Proof. intros. unfold slice. rewrite length_take, length_drop. lia. Qed.

Lemma splice_length off bs l :
  0 ≤ off → off + zlen bs ≤ zlen l → length (splice off bs l) = length l.
Proof.
  intros. unfold splice. rewrite !length_app, length_take, length_drop. lia.
Qed.

Lemma load_bytes_Ok off n l :
  0 ≤ off → 0 ≤ n → off + n ≤ zlen l → load_bytes off n l = Ok (slice off n l).
Proof. intros. unfold load_bytes. rewrite bool_decide_true by lia. done. Qed.

Lemma load_bytes_inv off n l r :
  load_bytes off n l = Ok r →
  0 ≤ off ∧ 0 ≤ n ∧ off + n ≤ zlen l ∧ r = slice off n l.
Proof. unfold load_bytes. case_bool_decide; naive_solver. Qed.

Lemma store_bytes_Ok off bs l :
  0 ≤ off → off + zlen bs ≤ zlen l →
  store_bytes off bs l = Ok (splice off bs l).
Proof. intros. unfold store_bytes. rewrite bool_decide_true by lia. done. Qed.

Lemma slice_0 n l : slice 0 n l = take (Z.to_nat n) l.
Proof. done. Qed.

Lemma slice_app_l off n l1 l2 :
  0 ≤ off → 0 ≤ n → off + n ≤ zlen l1 →
  slice off n (l1 ++ l2) = slice off n l1.
Proof.
  intros. unfold slice. rewrite drop_app_le by lia.
  rewrite take_app_le; [done|]. rewrite length_drop. lia.
Qed.

Lemma slice_app_r off n l1 l2 :
  zlen l1 ≤ off → slice off n (l1 ++ l2) = slice (off - zlen l1) n l2.
Proof.
  intros. unfold slice. rewrite drop_app_ge by lia. do 2 f_equal. lia.
Qed.

Lemma slice_middle l1 bs l2 off n :
  off = zlen l1 → n = zlen bs → slice off n (l1 ++ bs ++ l2) = bs.
Proof.
  intros -> ->. rewrite slice_app_r by lia. unfold slice.
  rewrite Z.sub_diag. simpl. rewrite Nat2Z.id, drop_0, take_app_length. done.
Qed.

Lemma slice_split off n k l :
  0 ≤ off → 0 ≤ k ≤ n → slice off n l = slice off k l ++ slice (off + k) (n - k) l.
Proof.
  intros. unfold slice. replace (Z.to_nat n) with (Z.to_nat k + Z.to_nat (n - k))%nat by lia.
  rewrite <- take_take_drop. do 2 f_equal. rewrite drop_drop. f_equal. lia.
Qed.

(** Asking for more than there is gives what there is. *)
Lemma slice_past off n k l :
  0 ≤ off → 0 ≤ k ≤ n → zlen l ≤ off + k → slice off n l = slice off k l.
Proof.
  intros. unfold slice. rewrite !take_ge; [done|rewrite length_drop; lia..].
Qed.

Lemma slice_length_le off n l : 0 ≤ n → zlen (slice off n l) ≤ n.
Proof. intros. unfold slice. rewrite length_take. lia. Qed.

Lemma take_splice off bs l :
  0 ≤ off → off + zlen bs ≤ zlen l →
  take (Z.to_nat (off + zlen bs)) (splice off bs l)
    = take (Z.to_nat off) l ++ bs.
Proof.
  intros. unfold splice. rewrite app_assoc.
  rewrite take_app_length' ; [done|].
  rewrite length_app, length_take. lia.
Qed.

(** Writing at most at the end: the result may be longer. *)
Lemma splice_end off bs l :
  0 ≤ off ≤ zlen l → zlen (splice off bs l) = Z.max (zlen l) (off + zlen bs).
Proof.
  intros. unfold splice. rewrite !length_app, length_take, length_drop. lia.
Qed.

Lemma splice_splice off bs zs l :
  0 ≤ off ≤ zlen l →
  splice (off + zlen bs) zs (splice off bs l) = splice off (bs ++ zs) l.
Proof.
  intros. unfold splice.
  rewrite (app_assoc _ bs), take_app_length' by (rewrite length_app, length_take; lia).
  rewrite drop_app_ge by (rewrite length_app, length_take; lia).
  rewrite drop_drop, <- !app_assoc. do 3 f_equal. f_equal.
  rewrite !length_app, length_take. lia.
Qed.

Lemma NoDup_take n l : NoDup l → NoDup (take n l).
Proof. intros Hl. eapply sublist_NoDup; [exact Hl|apply sublist_take]. Qed.

Lemma NoDup_drop n l : NoDup l → NoDup (drop n l).
Proof. intros Hl. eapply sublist_NoDup; [exact Hl|apply sublist_drop]. Qed.

Lemma elem_of_take_1 n l x : x ∈ take n l → x ∈ l.
Proof. intros Hx. rewrite <- (take_drop n l). apply elem_of_app. by left. Qed.

Lemma elem_of_drop_1 n l x : x ∈ drop n l → x ∈ l.
Proof. intros Hx. rewrite <- (take_drop n l). apply elem_of_app. by right. Qed.
End Arrays.

Lemma bytes_ok_app l1 l2 : bytes_ok (l1 ++ l2) ↔ bytes_ok l1 ∧ bytes_ok l2.
Proof. apply Forall_app. Qed.

(** * Finite maps from association lists *)

Lemma list_to_map_remove {A} (l1 l2 : list (Z * A)) i x :
  NoDup (l1 ++ (i, x) :: l2).*1 →
  NoDup (l1 ++ l2).*1 ∧
  (list_to_map (l1 ++ l2) : gmap Z A) = delete i (list_to_map (l1 ++ (i, x) :: l2)).
Proof.
  intros Hnd. pose proof (Permutation_middle l1 l2 (i, x)) as Hp.
  assert (NoDup ((i, x) :: l1 ++ l2).*1) as Hnd' by (by rewrite Hp).
  rewrite <- (list_to_map_proper _ _ Hnd' Hp). cbn in Hnd' |- *.
  apply NoDup_cons in Hnd' as [Hi Hnd']. split; [done|].
  rewrite delete_insert_id; [done|]. by apply not_elem_of_list_to_map_1.
Qed.

(** * C strings: the bytes before the first NUL *)

Fixpoint c_str (l : list Z) : list Z :=
  match l with
  | [] => []
  | c :: l' => if bool_decide (c = 0) then [] else c :: c_str l'
  end.

Definition no_nul (l : list Z) : Prop := Forall (λ c, c ≠ 0) l.

Lemma c_str_no_nul l r : no_nul l → c_str (l ++ 0 :: r) = l.
Proof.
  induction 1 as [|c l Hc Hl IH]; simpl; [done|].
  rewrite bool_decide_false by done. by rewrite IH.
Qed.

Lemma no_nul_c_str l : no_nul (c_str l).
Proof.
  induction l as [|c l IH]; simpl; [constructor|].
  case_bool_decide; constructor; done.
Qed.

(** [strchr(s, c)]: what precedes the character and the pointer to it. *)
Fixpoint strchr (s : list Z) (c : Z) : option (list Z * list Z) :=
  match s with
  | [] => None
  | x :: s' =>
      if x =? c then Some ([], s)
      else match strchr s' c with Some (pre, p) => Some (x :: pre, p) | None => None end
  end.

(** [strncmp(s, t, strlen(t)) == 0] *)
Fixpoint starts_with (t s : list Z) : bool :=
  match t, s with
  | [], _ => true
  | x :: t, y :: s => (x =? y) && starts_with t s
  | _ :: _, [] => false
  end.

(** The string from the first place where it begins with [t]. *)
Fixpoint strstr (s t : list Z) : option (list Z) :=
  if starts_with t s then Some s
  else match s with [] => None | _ :: s => strstr s t end.

Lemma strchr_first pre c post : c ∉ pre → strchr (pre ++ c :: post) c = Some (pre, c :: post).
Proof.
  induction pre as [|x pre IH]; intros Hc; cbn.
  - by rewrite Z.eqb_refl.
  - apply not_elem_of_cons in Hc as [Hx Hc]. rewrite (proj2 (Z.eqb_neq x c)) by done.
    by rewrite IH.
Qed.

Lemma strchr_none s c : c ∉ s → strchr s c = None.
Proof.
  induction s as [|x s IH]; intros Hc; cbn; [done|].
  apply not_elem_of_cons in Hc as [Hx Hc]. rewrite (proj2 (Z.eqb_neq x c)) by done. by rewrite IH.
Qed.

Lemma starts_with_app t s : starts_with t (t ++ s) = true.
Proof. induction t as [|x t IH]; cbn; [done|]. by rewrite Z.eqb_refl, IH. Qed.

Lemma starts_with_inv t s : starts_with t s = true → ∃ r, s = t ++ r.
Proof.
  revert s. induction t as [|x t IH]; intros s; cbn; [eauto|].
  destruct s as [|y s]; [done|]. intros [->%Z.eqb_eq [r ->]%IH]%andb_true_iff. eauto.
Qed.
