(* ===== verification/Errors.v ===== *)
(** Error codes (headers/os/support/Errors.h) and the file mode and open flag
    constants (headers/posix/sys/stat.h, fcntl.h, headers/os/storage/
    NodeMonitor.h) used by the components. *)

From S2P Require Import Prelude.

Definition INT_MIN : Z := - 2 ^ 31.

Definition B_GENERAL_ERROR_BASE : Z := INT_MIN.
Definition B_OS_ERROR_BASE : Z := B_GENERAL_ERROR_BASE + 0x1000.
Definition B_STORAGE_ERROR_BASE : Z := B_GENERAL_ERROR_BASE + 0x6000.
Definition B_POSIX_ERROR_BASE : Z := B_GENERAL_ERROR_BASE + 0x7000.
Definition B_ERRORS_END : Z := B_GENERAL_ERROR_BASE + 0xffff.

Definition B_NO_MEMORY : Z := B_GENERAL_ERROR_BASE + 0.
Definition B_IO_ERROR : Z := B_GENERAL_ERROR_BASE + 1.
Definition B_PERMISSION_DENIED : Z := B_GENERAL_ERROR_BASE + 2.
Definition B_BAD_VALUE : Z := B_GENERAL_ERROR_BASE + 5.
Definition B_TIMED_OUT : Z := B_GENERAL_ERROR_BASE + 9.
Definition B_INTERRUPTED : Z := B_GENERAL_ERROR_BASE + 10.
Definition B_CANCELED : Z := B_GENERAL_ERROR_BASE + 12.
Definition B_NOT_ALLOWED : Z := B_GENERAL_ERROR_BASE + 15.
Definition B_ERROR : Z := -1.
Definition B_OK : Z := 0.

Definition B_BAD_SEM_ID : Z := B_OS_ERROR_BASE + 0.
Definition B_BAD_ADDRESS : Z := B_OS_ERROR_BASE + 0x301.

Definition B_FILE_ERROR : Z := B_STORAGE_ERROR_BASE + 0.
Definition B_FILE_EXISTS : Z := B_STORAGE_ERROR_BASE + 2.
Definition B_ENTRY_NOT_FOUND : Z := B_STORAGE_ERROR_BASE + 3.
Definition B_NAME_TOO_LONG : Z := B_STORAGE_ERROR_BASE + 4.
Definition B_NOT_A_DIRECTORY : Z := B_STORAGE_ERROR_BASE + 5.
Definition B_DIRECTORY_NOT_EMPTY : Z := B_STORAGE_ERROR_BASE + 6.
Definition B_DEVICE_FULL : Z := B_STORAGE_ERROR_BASE + 7.
Definition B_READ_ONLY_DEVICE : Z := B_STORAGE_ERROR_BASE + 8.
Definition B_IS_A_DIRECTORY : Z := B_STORAGE_ERROR_BASE + 9.

Definition EFBIG : Z := B_POSIX_ERROR_BASE + 4.
Definition ENODEV : Z := B_POSIX_ERROR_BASE + 7.
Definition ENOSYS : Z := B_POSIX_ERROR_BASE + 9.
Definition EFPOS : Z := B_POSIX_ERROR_BASE + 14.
Definition EALREADY : Z := B_POSIX_ERROR_BASE + 37.
Definition ENXIO : Z := B_POSIX_ERROR_BASE + 11.
Definition ERANGE : Z := B_POSIX_ERROR_BASE + 17.
Definition EAFNOSUPPORT : Z := B_POSIX_ERROR_BASE + 21.
Definition EADDRINUSE : Z := B_POSIX_ERROR_BASE + 22.
Definition EHOSTUNREACH : Z := B_POSIX_ERROR_BASE + 33.
Definition ENOBUFS : Z := B_POSIX_ERROR_BASE + 35.
Definition ENOMEM : Z := B_NO_MEMORY.
Definition EACCES : Z := B_PERMISSION_DENIED.
Definition EINTR : Z := B_INTERRUPTED.
Definition EIO : Z := B_IO_ERROR.
Definition EBADF : Z := B_FILE_ERROR.
Definition EEXIST : Z := B_FILE_EXISTS.
Definition EINVAL : Z := B_BAD_VALUE.
Definition ENAMETOOLONG : Z := B_NAME_TOO_LONG.
Definition ENOENT : Z := B_ENTRY_NOT_FOUND.
Definition EPERM : Z := B_NOT_ALLOWED.
Definition ENOTDIR : Z := B_NOT_A_DIRECTORY.
Definition EISDIR : Z := B_IS_A_DIRECTORY.
Definition ENOTEMPTY : Z := B_DIRECTORY_NOT_EMPTY.
Definition ENOSPC : Z := B_DEVICE_FULL.
Definition EROFS : Z := B_READ_ONLY_DEVICE.

(** File modes (sys/stat.h). *)
Definition S_IFMT : Z := 0xf000.
Definition S_IFLNK : Z := 0xa000.
Definition S_IFREG : Z := 0x8000.
Definition S_IFDIR : Z := 0x4000.
Definition S_IUMSK : Z := 0xfff.
Definition S_ATTR_DIR : Z := 0x8000000.
Definition S_ATTR : Z := 0x10000000.
Definition S_ISREG (mode : Z) : bool := Z.land mode S_IFMT =? S_IFREG.
Definition S_ISLNK (mode : Z) : bool := Z.land mode S_IFMT =? S_IFLNK.
Definition S_ISDIR (mode : Z) : bool := Z.land mode S_IFMT =? S_IFDIR.

(** Open flags (fcntl.h) and write-stat masks (NodeMonitor.h). *)
Definition O_RDONLY : Z := 0.
Definition O_EXCL : Z := 0x0100.
Definition O_CREAT : Z := 0x0200.
Definition O_TRUNC : Z := 0x0400.
Definition O_APPEND : Z := 0x0800.
Definition B_STAT_MODE : Z := 0x0001.
Definition B_STAT_UID : Z := 0x0002.
Definition B_STAT_GID : Z := 0x0004.
Definition B_STAT_SIZE : Z := 0x0008.
Definition B_STAT_ACCESS_TIME : Z := 0x0010.
Definition B_STAT_MODIFICATION_TIME : Z := 0x0020.

(** [x & flag] used as a condition. *)
Definition has_flag (x flag : Z) : bool := negb (Z.land x flag =? 0).

(** Structures of sys/stat.h, dirent.h and fs_info.h. *)
Record stat : Type := mkStat {
  st_dev : Z;
  st_ino : Z;
  st_mode : Z;
  st_nlink : Z;
  st_uid : Z;
  st_gid : Z;
  st_size : Z;
  st_rdev : Z;
  st_blksize : Z;
  st_atime : Z;
  st_mtime : Z;
  st_ctime : Z;
  st_crtime : Z;
  st_blocks : Z
}.

Record dirent : Type := mkDirent {
  d_dev : Z; d_pdev : Z; d_ino : Z; d_pino : Z; d_reclen : Z; d_name : list Z
}.

Record fs_info : Type := mkInfo {
  i_dev : Z; i_root : Z; i_flags : Z; i_block_size : Z; i_io_size : Z;
  i_total_blocks : Z; i_free_blocks : Z; i_total_nodes : Z; i_free_nodes : Z;
  i_volume_name : list Z; i_fsh_name : list Z
}.

(** [offsetof(struct dirent, d_name)] *)
Definition DIRENT_NAME : Z := 26.
