(* ===== verification/Xdr.v ===== *)
(** The XDR packets of the NFS client (src/add-ons/kernel/file_systems/nfs/
    XDROutPacket.c, XDRInPacket.c): the growing output buffer, the unchecked
    input cursor, and their contract as an encoder and a decoder. *)

From S2P Require Import Prelude Errors.

Definition XDROUTPACKET_BUFFER_INCREMENT : Z := 512.

(** A [const void *data] argument: kernel memory, or a user address whose
    readable bytes are [Some l] ([None] when the page faults). *)
Inductive csrc : Type :=
  | KernelMem (l : list Z)
  | UserMem (r : option (list Z)).

(** A [void *buffer] destination with its capacity; [UserBuf cap] is a user
    address with [cap] writable bytes. *)
Inductive cdst : Type :=
  | KernelBuf (cap : Z)
  | UserBuf (cap : Z).

(** [user_memcpy] from user memory: all the bytes or a fault. *)
Definition user_read (r : option (list Z)) (size : Z) : option (list Z) :=
  l ← r; if bool_decide (size ≤ zlen l) then Some (take (Z.to_nat size) l) else None.

(** The bytes a copy of [size] bytes from [data] moves, when it succeeds. *)
Definition src_read (data : csrc) (size : Z) : option (list Z) :=
  match data with KernelMem l => user_read (Some l) size | UserMem r => user_read r size end.

(** [(size + 3) & ~3] on [size_t]. *)
Definition round4 (size : Z) : Z := Z.land (u64 (size + 3)) (Z.lnot 3).

Record XDROutPacket : Type := mkOut {
  fBuffer : option (list Z);   (* NULL, or the allocated bytes *)
  fSize : Z;
  fLength : Z
}.

Record XDRInPacket : Type := mkIn {
  iBuffer : option (list Z);
  fOffset : Z
}.

(** Writing through [fBuffer]: nothing is dereferenced when no byte is moved. *)
Definition poke (buf : option (list Z)) (off : Z) (bs : list Z) : outcome (option (list Z)) :=
  match buf with
  | None => if bool_decide (bs = []) then Ok None else Bad NullDeref
  | Some b => b' ← store_bytes off bs b; Ok (Some b')
  end.

Definition peek (buf : option (list Z)) (off n : Z) : outcome (list Z) :=
  match buf with
  | None => if bool_decide (n = 0) then Ok [] else Bad NullDeref
  | Some b => load_bytes off n b
  end.

Section XdrOps.
Context {S : Type} `{Allocator S}.
(** The value of byte [i] of a block fresh from [realloc]. *)
Context (uninit : Z → Z).

Definition XDROutPacketBuffer (packet : XDROutPacket) : option (list Z) := fBuffer packet.

Definition XDROutPacketLength (packet : XDROutPacket) : Z := fLength packet.

Definition XDROutPacketInit : XDROutPacket := mkOut None 0 0.

(** [while (need > fSize) fSize += 512] on [size_t]. *)
Fixpoint grow_loop (fuel : nat) (need size : Z) : outcome Z :=
  match fuel with
  | O => Hang
  | Datatypes.S fuel =>
      if need >? size
      then grow_loop fuel need (u64 (size + XDROUTPACKET_BUFFER_INCREMENT))
      else Ok size
  end.

Definition resize (buf : option (list Z)) (n : Z) : list Z :=
  let old := default [] buf in
  old ++ (uninit <$> seqZ (zlen old) (n - zlen old)).

Definition XDROutPacketGrow (packet : XDROutPacket) (size : Z) : M S XDROutPacket :=
  let need := u64 (fLength packet + size) in
  if need >? fSize packet then
    n ← liftO (grow_loop (Z.to_nat (need / XDROUTPACKET_BUFFER_INCREMENT + 2))
                 need (fSize packet));
    ok ← malloc;
    mret (mkOut (if (ok : bool) then Some (resize (fBuffer packet) n) else None)
            n (fLength packet))
  else mret packet.

Definition XDROutPacketAddInt32 (packet : XDROutPacket) (val : Z) : M S XDROutPacket :=
  packet ← XDROutPacketGrow packet 4;
  buf ← liftO (poke (fBuffer packet) (fLength packet) (be32_enc val));
  mret (mkOut buf (fSize packet) (u64 (fLength packet + 4))).

Definition XDROutPacketAddFixed (packet : XDROutPacket) (data : csrc) (size : Z)
    : M S (Z * XDROutPacket) :=
  let roundedSize := round4 size in
  packet ← XDROutPacketGrow packet roundedSize;
  src ← liftO (match data with
               | KernelMem l => bs ← load_bytes 0 size l; Ok (Some bs)
               | UserMem r => Ok (user_read r size)
               end);
  match src with
  | None => mret (B_BAD_ADDRESS, packet)
  | Some bs =>
      buf ← liftO (poke (fBuffer packet) (fLength packet) bs);
      buf ← liftO (poke buf (fLength packet + size)
                     (replicate (Z.to_nat (roundedSize - size)) 0));
      mret (B_OK, mkOut buf (fSize packet) (u64 (fLength packet + roundedSize)))
  end.

Definition XDROutPacketAddDynamic (packet : XDROutPacket) (data : csrc) (size : Z)
    : M S (Z * XDROutPacket) :=
  packet ← XDROutPacketAddInt32 packet size;
  XDROutPacketAddFixed packet data size.

(** [string] is the value of the C string, its memory is [string ++ [0]]. *)
Definition XDROutPacketAddString (packet : XDROutPacket) (string : list Z)
    : M S (Z * XDROutPacket) :=
  XDROutPacketAddDynamic packet (KernelMem (string ++ [0])) (zlen string).

Definition XDROutPacketAppend (me packet : XDROutPacket) : M S XDROutPacket :=
  me ← XDROutPacketGrow me (fLength packet);
  bs ← liftO (peek (fBuffer packet) 0 (fLength packet));
  buf ← liftO (poke (fBuffer me) (fLength me) bs);
  mret (mkOut buf (fSize me) (u64 (fLength me + fLength packet))).

Definition XDROutPacketClear (packet : XDROutPacket) : XDROutPacket :=
  mkOut (fBuffer packet) (fSize packet) 0.

Definition XDRInPacketInit : XDRInPacket := mkIn None 0.

Definition XDRInPacketSetTo (packet : XDRInPacket) (buffer : list Z) (offset : Z)
    : XDRInPacket :=
  mkIn (Some buffer) offset.

Definition XDRInPacketGetInt32 (packet : XDRInPacket) : outcome (Z * XDRInPacket) :=
  bs ← peek (iBuffer packet) (fOffset packet) 4;
  Ok (s32 (be32_dec bs), mkIn (iBuffer packet) (u64 (fOffset packet + 4))).

Definition XDRInPacketGetFixed (packet : XDRInPacket) (buffer : cdst) (len : Z)
    : outcome (Z * list Z * XDRInPacket) :=
  bs ← peek (iBuffer packet) (fOffset packet) len;
  let next := mkIn (iBuffer packet) (u64 (fOffset packet + round4 len)) in
  match buffer with
  | KernelBuf cap =>
      if bool_decide (len ≤ cap) then Ok (B_OK, bs, next) else Bad OutOfBounds
  | UserBuf cap =>
      if bool_decide (len ≤ cap) then Ok (B_OK, bs, next) else Ok (B_BAD_ADDRESS, [], packet)
  end.

Definition XDRInPacketGetDynamic (packet : XDRInPacket) (buffer : cdst)
    : outcome (Z * Z * list Z * XDRInPacket) :=
  '(v, packet) ← XDRInPacketGetInt32 packet;
  let len := u64 v in
  '(st, bs, packet) ← XDRInPacketGetFixed packet buffer len;
  Ok (st, len, bs, packet).

(** The malloc'd string, with its terminating NUL. *)
Definition XDRInPacketGetString (packet : XDRInPacket) : M S (list Z * XDRInPacket) :=
  '(size, packet) ← liftO (XDRInPacketGetInt32 packet);
  let n := s32 (size + 1) in
  if n <? 0 then failM NullDeref   (* malloc of a huge size_t answers NULL *)
  else
    ok ← malloc;
    if negb ok then failM NullDeref
    else if size <? 0 then failM OutOfBounds   (* string[-1] = 0 *)
    else
      '(_, bs, packet) ← liftO (XDRInPacketGetFixed packet (KernelBuf (size + 1)) size);
      mret (bs ++ [0], packet).
End XdrOps.

(** * The output packet refines an append-only byte string *)

(** Allocation and cursor invariant of an output packet. *)
Definition out_wf (p : XDROutPacket) : Prop :=
  0 ≤ fLength p ≤ fSize p ∧ (512 | fSize p) ∧ (4 | fLength p) ∧
  match fBuffer p with Some b => zlen b = fSize p | None => fSize p = 0 end.

(** The bytes a packet has encoded so far. *)
Definition out_contents (p : XDROutPacket) : list Z :=
  take (Z.to_nat (fLength p)) (default [] (fBuffer p)).

(** XDR opaque data: the bytes, then zeroes up to a multiple of four. *)
Definition xdr_pad (n : Z) : Z := (- n) mod 4.
Definition xdr_opaque (bs : list Z) : list Z :=
  bs ++ replicate (Z.to_nat (xdr_pad (zlen bs))) 0.

(** No packet of the client comes near this size; [size_t] does not wrap below it. *)
Definition XDR_LIMIT : Z := 2 ^ 62.

Lemma land_lnot3 y : Z.land y (Z.lnot 3) = 4 * (y / 4).
Proof.
  rewrite <- Z.ldiff_land. change 3 with (Z.ones 2).
  rewrite Z.ldiff_ones_r by lia. rewrite Z.shiftr_div_pow2, Z.shiftl_mul_pow2 by lia.
  change (2 ^ 2) with 4. lia.
Qed.

Lemma round4_eq n : 0 ≤ n < XDR_LIMIT → round4 n = n + xdr_pad n.
Proof.
  unfold XDR_LIMIT. intros Hn. unfold round4, xdr_pad. rewrite u64_id by lia.
  rewrite land_lnot3. div_mod_lia.
Qed.

Lemma xdr_pad_range n : 0 ≤ xdr_pad n < 4.
Proof. apply Z.mod_pos_bound. lia. Qed.

Lemma xdr_pad_div n : (4 | n + xdr_pad n).
Proof.
  apply Z.mod_divide; [lia|]. unfold xdr_pad. rewrite Zplus_mod_idemp_r.
  by rewrite Z.add_opp_diag_r.
Qed.

Lemma xdr_opaque_length bs : zlen (xdr_opaque bs) = zlen bs + xdr_pad (zlen bs).
Proof.
  unfold xdr_opaque. rewrite length_app, length_replicate.
  pose proof (xdr_pad_range (zlen bs)). lia.
Qed.

Lemma round4_zlen bs : zlen bs < XDR_LIMIT → round4 (zlen bs) = zlen (xdr_opaque bs).
Proof. intros. rewrite xdr_opaque_length. apply round4_eq. lia. Qed.

Lemma xdr_opaque_bytes bs : bytes_ok bs → bytes_ok (xdr_opaque bs).
Proof.
  intros Hb. apply bytes_ok_app. split; [done|].
  apply Forall_replicate. unfold is_u8; lia.
Qed.

(** [while (need > fSize) fSize += 512] stops, on the least multiple that fits. *)
Lemma grow_loop_spec fuel need size :
  0 ≤ size → (512 | size) → need < 2 ^ 63 - 512 → size < 2 ^ 63 →
  need - size < 512 * (Z.of_nat fuel - 1) → (0 < fuel)%nat →
  ∃ n, grow_loop fuel need size = Ok n ∧ need ≤ n ∧ size ≤ n ∧ (512 | n) ∧
       n < Z.max (need + 512) (size + 1).
Proof.
  revert size. induction fuel as [|fuel IH]; intros size Hs Hd Hn Hs' Hf Hp; [lia|].
  cbn [grow_loop]. rewrite Z.gtb_ltb. destruct (Z.ltb_spec size need).
  - rewrite u64_id by (unfold XDROUTPACKET_BUFFER_INCREMENT; lia).
    destruct (IH (size + XDROUTPACKET_BUFFER_INCREMENT)) as (n & E & ? & ? & ? & ?);
      unfold XDROUTPACKET_BUFFER_INCREMENT in *; try lia.
    + apply Z.divide_add_r; [done|]. by exists 1.
    + exists n. split_and!; try done; lia.
  - exists size. repeat split; auto; lia.
Qed.

(** A packet with at most [n] bytes encoded and no more slack than one increment. *)
Definition out_fits (n : Z) (p : XDROutPacket) : Prop :=
  out_wf p ∧ fLength p ≤ n ∧ fSize p < n + 512.

Lemma out_wf_init : out_wf XDROutPacketInit.
Proof. unfold out_wf; simpl. repeat split; try lia; apply Z.divide_0_r. Qed.

Lemma out_contents_init : out_contents XDROutPacketInit = [].
Proof. done. Qed.

Lemma out_contents_length p : out_wf p → zlen (out_contents p) = fLength p.
Proof.
  intros (? & _ & _ & Hb). unfold out_contents.
  rewrite length_take. destruct (fBuffer p); simpl in *; lia.
Qed.

Section OutSpec.
Context {S : Type} `{Allocator S} (uninit : Z → Z).

Lemma resize_spec buf n :
  zlen (default [] buf) ≤ n →
  zlen (resize uninit buf n) = n ∧
  ∃ r, resize uninit buf n = default [] buf ++ r.
Proof.
  intros Hn. unfold resize. split; [|eauto].
  rewrite length_app, length_fmap, length_seqZ. lia.
Qed.

(** Growing keeps the invariant and the contents and makes room. *)
Lemma XDROutPacketGrow_spec n p size s :
  alloc_plenty s → out_fits n p → 0 ≤ size → n + size < XDR_LIMIT →
  ∃ p', XDROutPacketGrow uninit p size s = Ok (p', s) ∧ out_wf p' ∧
    out_contents p' = out_contents p ∧ fLength p' = fLength p ∧
    fLength p + size ≤ fSize p' < n + size + 512.
Proof.
  intros Hs (Hwf & Hln & HSn) Hsz Hlim. unfold XDR_LIMIT in *.
  pose proof Hwf as (? & ? & ? & Hb).
  unfold XDROutPacketGrow. rewrite u64_id by lia. rewrite Z.gtb_ltb.
  destruct (Z.ltb_spec (fSize p) (fLength p + size)) as [Hlt|Hge].
  2:{ exists p. split_and!; try done; lia. }
  destruct (grow_loop_spec (Z.to_nat ((fLength p + size) / XDROUTPACKET_BUFFER_INCREMENT + 2))
              (fLength p + size) (fSize p)) as (m & En & Hn1 & Hn2 & Hn3 & Hn4);
    unfold XDROUTPACKET_BUFFER_INCREMENT in *; try lia; try done.
  { Z.div_mod_to_equations; lia. }
  { Z.div_mod_to_equations; lia. }
  destruct (resize_spec (fBuffer p) m) as [Hl [r Hr]].
  { destruct (fBuffer p); simpl in *; lia. }
  eexists. split.
  { erewrite bind_Ok by (unfold liftO; rewrite En; done).
    erewrite bind_Ok by (by apply malloc_plenty). done. }
  simpl. split_and!; try done; try lia.
  - unfold out_wf; simpl. split_and!; try done; lia.
  - unfold out_contents; simpl. rewrite Hr, take_app_le; [done|].
    destruct (fBuffer p); simpl in *; lia.
Qed.

(** Writing [bs] at the cursor of a packet that has room. *)
Lemma poke_append p bs :
  out_wf p → fLength p + zlen bs ≤ fSize p → (4 | zlen bs) → fSize p < 2 ^ 64 →
  ∃ buf, poke (fBuffer p) (fLength p) bs = Ok buf ∧
    out_wf (mkOut buf (fSize p) (u64 (fLength p + zlen bs))) ∧
    out_contents (mkOut buf (fSize p) (u64 (fLength p + zlen bs))) = out_contents p ++ bs.
Proof.
  intros (Hl & Hd & Hd4 & Hb) Hroom Hbs HSz. rewrite u64_id by lia.
  unfold out_wf, out_contents, poke. destruct (fBuffer p) as [b|] eqn:Eb; simpl in *.
  - rewrite store_bytes_Ok by lia. eexists. split; [done|]. simpl.
    rewrite splice_length, take_splice by lia.
    split_and!; auto; try lia. by apply Z.divide_add_r.
  - destruct bs as [|? ?]; [|simpl in *; lia].
    rewrite bool_decide_true by done. eexists. split; [done|]. simpl.
    rewrite Z.add_0_r, take_nil. split_and!; auto; lia.
Qed.

Lemma XDROutPacketAddInt32_spec n p v s :
  alloc_plenty s → out_fits n p → n + 4 < XDR_LIMIT →
  ∃ p', XDROutPacketAddInt32 uninit p v s = Ok (p', s) ∧ out_fits (n + 4) p' ∧
    out_contents p' = out_contents p ++ be32_enc v.
Proof.
  intros Hs Hf Hl.
  destruct (XDROutPacketGrow_spec n p 4 s) as (p1 & E1 & Hwf1 & Hc1 & Hl1 & Hr); [done..|lia|done|].
  destruct Hf as (? & ? & ?). unfold XDR_LIMIT in *.
  destruct (poke_append p1 (be32_enc v)) as (buf & Ep & Hwf2 & Hc2);
    [done|rewrite be32_enc_length; lia|by exists 1|lia|].
  eexists. split.
  { unfold XDROutPacketAddInt32. erewrite bind_Ok by exact E1.
    erewrite bind_Ok by (unfold liftO; rewrite Ep; done). done. }
  rewrite be32_enc_length in Hwf2, Hc2. change (Z.of_nat 4) with 4 in *.
  split; [|by rewrite Hc2, Hc1]. pose proof Hwf1 as (? & _).
  split; [done|]. simpl. rewrite Hl1, u64_id; lia.
Qed.

(** The [memcpy] of the data followed by the [memset] of the padding. *)
Lemma poke_poke p bs zs :
  out_wf p → fLength p + zlen bs + zlen zs ≤ fSize p →
  (b ← poke (fBuffer p) (fLength p) bs; poke b (fLength p + zlen bs) zs)
  = poke (fBuffer p) (fLength p) (bs ++ zs).
Proof.
  intros (Hl & _ & _ & Hb) Hroom. unfold poke. destruct (fBuffer p) as [b|].
  - rewrite (store_bytes_Ok _ bs) by lia. simpl.
    rewrite !store_bytes_Ok by (rewrite ?splice_length, ?length_app; lia).
    simpl. by rewrite splice_splice by lia.
  - destruct bs, zs; simpl in *; try lia. done.
Qed.

Lemma user_read_length r size bs : 0 ≤ size → user_read r size = Some bs → zlen bs = size.
Proof.
  unfold user_read. intros Hsz. destruct r as [l|]; simpl; [|done].
  case_bool_decide; [|done]. intros [= <-]. rewrite length_take. lia.
Qed.

Lemma src_read_length data size bs :
  0 ≤ size → src_read data size = Some bs → zlen bs = size.
Proof. destruct data; apply user_read_length. Qed.

Lemma XDROutPacketAddFixed_spec n p data bs size s :
  alloc_plenty s → out_fits n p → 0 ≤ size → src_read data size = Some bs →
  n + size + 4 < XDR_LIMIT →
  ∃ p', XDROutPacketAddFixed uninit p data size s = Ok ((B_OK, p'), s) ∧
    out_fits (n + zlen (xdr_opaque bs)) p' ∧
    out_contents p' = out_contents p ++ xdr_opaque bs.
Proof.
  intros Hs Hf Hsz Hsrc Hlim.
  pose proof (src_read_length data size bs Hsz Hsrc) as Hbs.
  assert (round4 size = zlen (xdr_opaque bs)) as Hr.
  { rewrite <- Hbs. apply round4_zlen. destruct Hf as ((? & _) & ? & _). lia. }
  pose proof (xdr_opaque_length bs) as Ho. pose proof (xdr_pad_range (zlen bs)) as Hp.
  destruct (XDROutPacketGrow_spec n p (zlen (xdr_opaque bs)) s)
    as (p1 & E1 & Hwf1 & Hc1 & Hl1 & Hroom); [done..|lia|lia|].
  unfold XDR_LIMIT in *. pose proof Hwf1 as (Hl1' & _). destruct Hf as (Hwf & Hln & HSn).
  pose proof (poke_append p1 (xdr_opaque bs)) as (buf & Ep & Hwf2 & Hc2);
    [done|lia|rewrite Ho; apply xdr_pad_div|lia|].
  unfold xdr_opaque in Ep at 1. rewrite <- poke_poke in Ep
    by (rewrite ?length_replicate; try done; lia).
  destruct (poke (fBuffer p1) (fLength p1) bs) as [b1| |] eqn:Ep1; [|done..].
  cbn [mbind outcome_bind] in Ep.
  eexists. split.
  { unfold XDROutPacketAddFixed. rewrite Hr. erewrite bind_Ok by exact E1.
    erewrite (bind_Ok _ _ _ (Some bs)).
    2:{ unfold liftO. destruct data as [l|r]; simpl in *; [|by rewrite Hsrc].
        unfold user_read in Hsrc. simpl in Hsrc. case_bool_decide; [|done].
        injection Hsrc as <-. by rewrite load_bytes_Ok by lia. }
    cbv beta iota.
    erewrite bind_Ok by (unfold liftO; rewrite Ep1; done).
    erewrite bind_Ok.
    2:{ unfold liftO. replace (zlen (xdr_opaque bs) - size) with (xdr_pad (zlen bs)) by lia.
        rewrite <- Hbs, Ep. done. }
    done. }
  split; [|by rewrite Hc2, Hc1]. split; [done|]. simpl. rewrite Hl1, u64_id; lia.
Qed.

(** A faulting user buffer leaves the encoded bytes as they were. *)
Lemma XDROutPacketAddFixed_fault n p r size s :
  alloc_plenty s → out_fits n p → 0 ≤ size → user_read r size = None →
  n + size + 4 < XDR_LIMIT →
  ∃ p', XDROutPacketAddFixed uninit p (UserMem r) size s = Ok ((B_BAD_ADDRESS, p'), s) ∧
    out_wf p' ∧ out_contents p' = out_contents p.
Proof.
  intros Hs Hf Hsz Hsrc Hlim. unfold XDROutPacketAddFixed.
  destruct (XDROutPacketGrow_spec n p (round4 size) s)
    as (p1 & E1 & Hwf1 & Hc1 & Hl1 & Hroom); try done.
  1, 2: destruct Hf as ((? & _) & ? & _); rewrite round4_eq by lia;
    pose proof (xdr_pad_range size); lia.
  exists p1. erewrite bind_Ok by exact E1.
  erewrite bind_Ok by (unfold liftO; rewrite Hsrc; done). done.
Qed.

Lemma XDROutPacketAddDynamic_spec n p data bs size s :
  alloc_plenty s → out_fits n p → 0 ≤ size → src_read data size = Some bs →
  n + size + 8 < XDR_LIMIT →
  ∃ p', XDROutPacketAddDynamic uninit p data size s = Ok ((B_OK, p'), s) ∧
    out_fits (n + 4 + zlen (xdr_opaque bs)) p' ∧
    out_contents p' = out_contents p ++ be32_enc size ++ xdr_opaque bs.
Proof.
  intros Hs Hf Hsz Hsrc Hlim.
  destruct (XDROutPacketAddInt32_spec n p size s) as (p1 & E1 & Hf1 & Hc1); [done..|lia|].
  destruct (XDROutPacketAddFixed_spec (n + 4) p1 data bs size s) as (p2 & E2 & Hf2 & Hc2);
    [done..|lia|].
  exists p2. split; [|split; [done|by rewrite Hc2, Hc1, app_assoc]].
  unfold XDROutPacketAddDynamic. by erewrite bind_Ok by exact E1.
Qed.

Lemma XDROutPacketAddString_spec n p str s :
  alloc_plenty s → out_fits n p → n + zlen str + 8 < XDR_LIMIT →
  ∃ p', XDROutPacketAddString uninit p str s = Ok ((B_OK, p'), s) ∧
    out_fits (n + 4 + zlen (xdr_opaque str)) p' ∧
    out_contents p' = out_contents p ++ be32_enc (zlen str) ++ xdr_opaque str.
Proof.
  intros Hs Hf Hlim.
  destruct (XDROutPacketAddDynamic_spec n p (KernelMem (str ++ [0])) str (zlen str) s)
    as (p' & E & Hf' & Hc); [done..|lia| |done|eauto].
  simpl. rewrite bool_decide_true by (rewrite length_app; lia).
  by rewrite Nat2Z.id, take_app_length.
Qed.

Lemma XDROutPacketAppend_spec n p q s :
  alloc_plenty s → out_fits n p → out_wf q → n + fLength q < XDR_LIMIT →
  ∃ p', XDROutPacketAppend uninit p q s = Ok (p', s) ∧
    out_fits (n + fLength q) p' ∧ out_contents p' = out_contents p ++ out_contents q.
Proof.
  intros Hs Hf Hq Hlim. pose proof Hq as (Hql & _ & Hq4 & Hqb).
  destruct (XDROutPacketGrow_spec n p (fLength q) s)
    as (p1 & E1 & Hwf1 & Hc1 & Hl1 & Hroom); [done..|lia|lia|].
  unfold XDR_LIMIT in *. pose proof Hwf1 as (Hl1' & _). destruct Hf as (Hwf & Hln & HSn).
  pose proof (out_contents_length q Hq) as Hqc.
  destruct (poke_append p1 (out_contents q)) as (buf & Ep & Hwf2 & Hc2);
    [done|lia|by rewrite Hqc|lia|].
  eexists. split.
  { unfold XDROutPacketAppend. erewrite bind_Ok by exact E1.
    erewrite bind_Ok.
    2:{ assert (peek (fBuffer q) 0 (fLength q) = Ok (out_contents q)) as ->; [|done].
        unfold peek, out_contents. destruct (fBuffer q) as [b|]; simpl in *.
        - by rewrite load_bytes_Ok by lia.
        - rewrite bool_decide_true by lia. by rewrite take_nil. }
    erewrite bind_Ok by (unfold liftO; rewrite Ep; done). done. }
  rewrite Hqc in Hwf2, Hc2. split; [|by rewrite Hc2, Hc1].
  split; [done|]. simpl. rewrite Hl1, u64_id; lia.
Qed.
End OutSpec.

(** * The input packet *)

(** The cursor of [p] stands before [rest], the end of the buffer [b]. *)
Definition in_at (b : list Z) (p : XDRInPacket) (rest : list Z) : Prop :=
  ∃ pre, b = pre ++ rest ∧ iBuffer p = Some b ∧ fOffset p = zlen pre ∧ zlen b < XDR_LIMIT.

Lemma in_at_SetTo p buf : zlen buf < XDR_LIMIT → in_at buf (XDRInPacketSetTo p buf 0) buf.
Proof. intros. by exists []. Qed.

Lemma in_at_end b p : in_at b p [] → fOffset p = zlen b.
Proof. intros (pre & -> & _ & -> & _). by rewrite app_nil_r. Qed.

(** Reading an item of [n] bytes that occupies the first bytes of [item ++ rest]. *)
Lemma peek_at b p n item rest :
  in_at b p (item ++ rest) → 0 ≤ n ≤ zlen item →
  peek (iBuffer p) (fOffset p) n = Ok (take (Z.to_nat n) item).
Proof.
  intros (pre & -> & -> & -> & _) Hn. simpl. rewrite load_bytes_Ok by (rewrite ?length_app; lia).
  rewrite slice_app_r, Z.sub_diag, slice_0 by lia.
  by rewrite take_app_le by lia.
Qed.

Lemma in_at_skip b p item rest :
  in_at b p (item ++ rest) →
  in_at b (mkIn (iBuffer p) (u64 (fOffset p + zlen item))) rest.
Proof.
  intros (pre & -> & E & Eo & Hl). exists (pre ++ item). simpl.
  split; [by rewrite app_assoc|]. split; [done|]. rewrite !length_app in *.
  unfold XDR_LIMIT in *. rewrite Eo, u64_id by lia. split; lia.
Qed.

Lemma XDRInPacketGetInt32_spec b p v rest :
  in_at b p (be32_enc v ++ rest) →
  ∃ p', XDRInPacketGetInt32 p = Ok (s32 v, p') ∧ in_at b p' rest.
Proof.
  intros Hat. unfold XDRInPacketGetInt32.
  rewrite (peek_at b p 4 (be32_enc v) rest) by (done || by rewrite be32_enc_length).
  cbn [mbind outcome_bind]. change (Z.to_nat 4) with (length (be32_enc v)). rewrite firstn_all.
  eexists. rewrite be32_dec_enc, s32_u32. split; [done|].
  by apply (in_at_skip b p (be32_enc v)).
Qed.

(** A reply that ends before the four bytes is read out of bounds. *)
Lemma XDRInPacketGetInt32_short b p rest :
  in_at b p rest → zlen rest < 4 → XDRInPacketGetInt32 p = Bad OutOfBounds.
Proof.
  intros (pre & -> & E & Eo & _) Hr. unfold XDRInPacketGetInt32, peek, load_bytes.
  rewrite E, Eo, bool_decide_false; [done|]. rewrite length_app. lia.
Qed.

Definition dst_cap (d : cdst) : Z := match d with KernelBuf c => c | UserBuf c => c end.

Lemma XDRInPacketGetFixed_spec b p dst bs rest :
  in_at b p (xdr_opaque bs ++ rest) → zlen bs ≤ dst_cap dst →
  ∃ p', XDRInPacketGetFixed p dst (zlen bs) = Ok (B_OK, bs, p') ∧ in_at b p' rest.
Proof.
  intros Hat Hcap. unfold XDRInPacketGetFixed.
  pose proof (xdr_pad_range (zlen bs)).
  pose proof (xdr_opaque_length bs).
  rewrite (peek_at b p (zlen bs) (xdr_opaque bs) rest) by (done || lia).
  cbn [mbind outcome_bind]. rewrite Nat2Z.id.
  replace (take (length bs) (xdr_opaque bs)) with bs by (by unfold xdr_opaque; rewrite take_app_length).
  pose proof Hat as (pre & -> & _ & _ & Hl). rewrite !length_app, !Nat2Z.inj_add in Hl.
  exists (mkIn (iBuffer p) (u64 (fOffset p + round4 (zlen bs)))).
  split; [destruct dst; simpl in *; rewrite bool_decide_true by done; done|].
  rewrite round4_zlen by lia. by apply in_at_skip.
Qed.

(** The kernel destination is not checked against the length on the wire. *)
Lemma XDRInPacketGetFixed_overflow b p cap bs rest :
  in_at b p (xdr_opaque bs ++ rest) → cap < zlen bs →
  XDRInPacketGetFixed p (KernelBuf cap) (zlen bs) = Bad OutOfBounds.
Proof.
  intros Hat Hcap. unfold XDRInPacketGetFixed.
  pose proof (xdr_pad_range (zlen bs)).
  pose proof (xdr_opaque_length bs).
  rewrite (peek_at b p (zlen bs) (xdr_opaque bs) rest) by (done || lia).
  cbn [mbind outcome_bind]. by rewrite bool_decide_false by lia.
Qed.

Lemma s32_zlen {A} (l : list A) : zlen l < 2 ^ 31 → s32 (zlen l) = zlen l.
Proof. intros. apply s32_id. unfold is_s32. lia. Qed.

Lemma XDRInPacketGetDynamic_spec b p dst bs rest :
  in_at b p (be32_enc (zlen bs) ++ xdr_opaque bs ++ rest) →
  zlen bs ≤ dst_cap dst → zlen bs < 2 ^ 31 →
  ∃ p', XDRInPacketGetDynamic p dst = Ok (B_OK, zlen bs, bs, p') ∧ in_at b p' rest.
Proof.
  intros Hat Hcap Hl. unfold XDRInPacketGetDynamic.
  destruct (XDRInPacketGetInt32_spec b _ _ _ Hat) as (p1 & E1 & Hat1).
  rewrite E1. cbn [mbind outcome_bind]. rewrite s32_zlen by done. rewrite u64_id by lia.
  destruct (XDRInPacketGetFixed_spec b p1 dst bs rest Hat1 Hcap) as (p2 & E2 & Hat2).
  rewrite E2. eauto.
Qed.

Lemma XDRInPacketGetString_spec {S} `{Allocator S} b p str rest (s : S) :
  alloc_plenty s → in_at b p (be32_enc (zlen str) ++ xdr_opaque str ++ rest) →
  zlen str < 2 ^ 31 - 1 →
  ∃ p', XDRInPacketGetString p s = Ok ((str ++ [0], p'), s) ∧ in_at b p' rest.
Proof.
  intros Hs Hat Hl. unfold XDRInPacketGetString.
  destruct (XDRInPacketGetInt32_spec b _ _ _ Hat) as (p1 & E1 & Hat1).
  destruct (XDRInPacketGetFixed_spec b p1 (KernelBuf (zlen str + 1)) str rest) as (p2 & E2 & Hat2);
    [done|simpl; lia|].
  exists p2. split; [|done].
  erewrite bind_Ok by (unfold liftO; rewrite E1; done). cbv beta iota.
  rewrite s32_zlen by lia. rewrite s32_id by (unfold is_s32; lia).
  destruct (Z.ltb_spec (zlen str + 1) 0); [lia|].
  erewrite bind_Ok by (by apply malloc_plenty). cbv beta iota delta [negb].
  destruct (Z.ltb_spec (zlen str) 0); [lia|].
  erewrite bind_Ok by (unfold liftO; rewrite E2; done). done.
Qed.

(** * Sequences of XDR items: the encoder and the decoder agree *)

(** The items the client puts on the wire, with their encoding. *)
Inductive xdr_item : Type :=
  | XInt (v : Z)
  | XFixed (bs : list Z)
  | XDynamic (bs : list Z)
  | XString (str : list Z).

(** What a reader has to know of an item: fixed lengths, buffer capacities. *)
Inductive xdr_kind : Type :=
  | KInt
  | KFixed (n : Z)
  | KDynamic (cap : Z)
  | KString.

Definition item_kind (i : xdr_item) : xdr_kind :=
  match i with
  | XInt _ => KInt
  | XFixed bs => KFixed (zlen bs)
  | XDynamic bs => KDynamic (zlen bs)
  | XString _ => KString
  end.

Definition item_enc (i : xdr_item) : list Z :=
  match i with
  | XInt v => be32_enc v
  | XFixed bs => xdr_opaque bs
  | XDynamic bs => be32_enc (zlen bs) ++ xdr_opaque bs
  | XString str => be32_enc (zlen str) ++ xdr_opaque str
  end.

Definition item_ok (i : xdr_item) : Prop :=
  match i with
  | XInt v => is_s32 v
  | XFixed bs => zlen bs < 2 ^ 31
  | XDynamic bs => zlen bs < 2 ^ 31
  | XString str => zlen str < 2 ^ 31 - 1
  end.

(** The encoder truncates integers, so any [Z] can be put. *)
Definition item_fits (i : xdr_item) : Prop :=
  match i with XInt _ => True | _ => item_ok i end.

Lemma item_ok_fits i : item_ok i → item_fits i.
Proof. by destruct i. Qed.

Lemma items_ok_fit l : Forall item_ok l → Forall item_fits l.
Proof. intros Hl. eapply Forall_impl; [exact Hl|apply item_ok_fits]. Qed.

Definition items_enc (l : list xdr_item) : list Z := l ≫= item_enc.

Section Items.
Context {S : Type} `{Allocator S} (uninit : Z → Z).

(** A sequence of [XDROutPacketAdd*] calls whose results are not looked at. *)
Definition put_item (p : XDROutPacket) (i : xdr_item) : M S XDROutPacket :=
  match i with
  | XInt v => XDROutPacketAddInt32 uninit p v
  | XFixed bs => '(_, p) ← XDROutPacketAddFixed uninit p (KernelMem bs) (zlen bs); mret p
  | XDynamic bs => '(_, p) ← XDROutPacketAddDynamic uninit p (KernelMem bs) (zlen bs); mret p
  | XString str => '(_, p) ← XDROutPacketAddString uninit p str; mret p
  end.

Fixpoint put_items (p : XDROutPacket) (l : list xdr_item) : M S XDROutPacket :=
  match l with
  | [] => mret p
  | i :: l => p ← put_item p i; put_items p l
  end.

Definition get_item (p : XDRInPacket) (k : xdr_kind) : M S (xdr_item * XDRInPacket) :=
  match k with
  | KInt => '(v, p) ← liftO (XDRInPacketGetInt32 p); mret (XInt v, p)
  | KFixed n => '(_, bs, p) ← liftO (XDRInPacketGetFixed p (KernelBuf n) n); mret (XFixed bs, p)
  | KDynamic cap =>
      '(_, _, bs, p) ← liftO (XDRInPacketGetDynamic p (KernelBuf cap)); mret (XDynamic bs, p)
  | KString => '(str, p) ← XDRInPacketGetString p; mret (XString (c_str str), p)
  end.

Fixpoint get_items (p : XDRInPacket) (ks : list xdr_kind)
    : M S (list xdr_item * XDRInPacket) :=
  match ks with
  | [] => mret ([], p)
  | k :: ks => '(i, p) ← get_item p k; '(l, p) ← get_items p ks; mret (i :: l, p)
  end.

Lemma src_read_all bs : src_read (KernelMem bs) (zlen bs) = Some bs.
Proof. simpl. rewrite bool_decide_true by lia. by rewrite Nat2Z.id, firstn_all. Qed.

Lemma put_item_spec n p i s :
  alloc_plenty s → out_fits n p → item_fits i → n + 2 ^ 32 < XDR_LIMIT →
  ∃ p', put_item p i s = Ok (p', s) ∧ out_fits (n + zlen (item_enc i)) p' ∧
    out_contents p' = out_contents p ++ item_enc i.
Proof.
  intros Hs Hf Hi Hn. destruct i as [v|bs|bs|str]; cbn [put_item item_enc item_fits item_ok] in *.
  - apply XDROutPacketAddInt32_spec; [done..|lia].
  - destruct (XDROutPacketAddFixed_spec uninit n p (KernelMem bs) bs (zlen bs) s Hs Hf) as (p' & E & ?);
      [lia|apply src_read_all|lia|]. exists p'. by erewrite bind_Ok by exact E.
  - destruct (XDROutPacketAddDynamic_spec uninit n p (KernelMem bs) bs (zlen bs) s Hs Hf) as (p' & E & Hf' & Hc);
      [lia|apply src_read_all|lia|]. exists p'. erewrite bind_Ok by exact E.
    rewrite length_app, be32_enc_length, Nat2Z.inj_add.
    change (Z.of_nat 4) with 4. rewrite Z.add_assoc. done.
  - destruct (XDROutPacketAddString_spec uninit n p str s Hs Hf) as (p' & E & Hf' & Hc);
      [lia|]. exists p'. erewrite bind_Ok by exact E.
    rewrite length_app, be32_enc_length, Nat2Z.inj_add.
    change (Z.of_nat 4) with 4. rewrite Z.add_assoc. done.
Qed.

Lemma put_items_spec l : ∀ n p s,
  alloc_plenty s → out_fits n p → Forall item_fits l →
  n + zlen (items_enc l) + 2 ^ 32 < XDR_LIMIT →
  ∃ p', put_items p l s = Ok (p', s) ∧ out_fits (n + zlen (items_enc l)) p' ∧
    out_contents p' = out_contents p ++ items_enc l.
Proof.
  induction l as [|i l IH]; intros n p s Hs Hf Hl Hn; cbn [put_items].
  - exists p. rewrite !app_nil_r. split; [done|]. split; [|done].
    unfold items_enc; simpl. by rewrite Z.add_0_r.
  - apply Forall_cons in Hl as [Hi Hl].
    unfold items_enc in *. rewrite bind_cons, length_app in *.
    destruct (put_item_spec n p i s) as (p1 & E1 & Hf1 & Hc1); [done..|lia|].
    destruct (IH (n + zlen (item_enc i)) p1 s) as (p2 & E2 & Hf2 & Hc2); [done..|lia|].
    exists p2. erewrite bind_Ok by exact E1.
    rewrite Hc2, Hc1, app_assoc, Nat2Z.inj_add, Z.add_assoc. done.
Qed.

Lemma get_item_spec b p i rest s :
  alloc_plenty s → in_at b p (item_enc i ++ rest) → item_ok i →
  (∀ str, i = XString str → no_nul str) →
  ∃ p', get_item p (item_kind i) s = Ok ((i, p'), s) ∧ in_at b p' rest.
Proof.
  intros Hs Hat Hi Hnn. destruct i as [v|bs|bs|str]; cbn [get_item item_kind item_enc item_ok] in *.
  - destruct (XDRInPacketGetInt32_spec b p v rest Hat) as (p' & E & ?). exists p'. split; [|done].
    erewrite bind_Ok by (unfold liftO; rewrite E; done). by rewrite s32_id.
  - destruct (XDRInPacketGetFixed_spec b p (KernelBuf (zlen bs)) bs rest Hat) as (p' & E & ?);
      [simpl; lia|]. exists p'. split; [|done].
    by erewrite bind_Ok by (unfold liftO; rewrite E; done).
  - rewrite <- app_assoc in Hat.
    destruct (XDRInPacketGetDynamic_spec b p (KernelBuf (zlen bs)) bs rest Hat) as (p' & E & ?);
      [simpl; lia|lia|]. exists p'. split; [|done].
    by erewrite bind_Ok by (unfold liftO; rewrite E; done).
  - rewrite <- app_assoc in Hat.
    destruct (XDRInPacketGetString_spec b p str rest s Hs Hat) as (p' & E & ?); [lia|].
    exists p'. split; [|done]. erewrite bind_Ok by exact E.
    cbv beta iota. rewrite c_str_no_nul by (by apply Hnn). done.
Qed.

Lemma get_items_spec b l : ∀ p rest s,
  alloc_plenty s → in_at b p (items_enc l ++ rest) → Forall item_ok l →
  Forall (λ i, ∀ str, i = XString str → no_nul str) l →
  ∃ p', get_items p (item_kind <$> l) s = Ok ((l, p'), s) ∧ in_at b p' rest.
Proof.
  induction l as [|i l IH]; intros p rest s Hs Hat Hl Hnn; cbn [get_items fmap list_fmap].
  - exists p. done.
  - apply Forall_cons in Hl as [Hi Hl]. apply Forall_cons in Hnn as [Hni Hnn].
    unfold items_enc in Hat. rewrite bind_cons, <- app_assoc in Hat.
    destruct (get_item_spec b p i _ s Hs Hat Hi Hni) as (p1 & E1 & Hat1).
    destruct (IH p1 rest s Hs Hat1 Hl Hnn) as (p2 & E2 & Hat2).
    exists p2. split; [|done]. erewrite bind_Ok by exact E1. cbv beta iota.
    by erewrite bind_Ok by exact E2.
Qed.

(** C5. Encoder and decoder agree: any sequence of well-formed items (32-bit
    integers, fixed and counted opaque data, strings) put into a fresh
    [XDROutPacket] leaves a well-formed packet whose bytes are the
    concatenation of the items' XDR encodings, and an [XDRInPacket] set to
    those bytes reads the same items back and stops exactly at the end. *)
Theorem xdr_roundtrip l s :
  alloc_plenty s → Forall item_ok l →
  Forall (λ i, ∀ str, i = XString str → no_nul str) l →
  zlen (items_enc l) < 2 ^ 61 →
  ∃ p p', put_items XDROutPacketInit l s = Ok (p, s) ∧ out_wf p ∧
    out_contents p = items_enc l ∧
    get_items (XDRInPacketSetTo XDRInPacketInit (out_contents p) 0) (item_kind <$> l) s
      = Ok ((l, p'), s) ∧
    fOffset p' = XDROutPacketLength p.
Proof.
  intros Hs Hl Hnn Hlen.
  destruct (put_items_spec l 0 XDROutPacketInit s) as (p & E & Hwf & Hc);
    [done| |by apply items_ok_fit| |].
  { split; [apply out_wf_init|]. simpl; lia. }
  { unfold XDR_LIMIT. lia. }
  rewrite out_contents_init in Hc. simpl in Hc.
  destruct (get_items_spec (out_contents p) l
              (XDRInPacketSetTo XDRInPacketInit (out_contents p) 0) [] s)
    as (p' & E' & Hat); [done| |done|done|].
  { rewrite app_nil_r, <- Hc. apply in_at_SetTo. rewrite Hc. unfold XDR_LIMIT. lia. }
  destruct Hwf as [Hwf _]. exists p, p'. split_and!; try done. rewrite (in_at_end _ _ Hat).
  by apply out_contents_length.
Qed.
End Items.

Lemma xdr_roundtrip_witness :
  ∃ p p', put_items (λ _, 0) XDROutPacketInit [XInt (-5); XFixed [1; 2; 3]; XString [104; 105]] tt
            = Ok (p, tt) ∧
    get_items (XDRInPacketSetTo XDRInPacketInit (out_contents p) 0) [KInt; KFixed 3; KString] tt
      = Ok (([XInt (-5); XFixed [1; 2; 3]; XString [104; 105]], p'), tt).
Proof.
  destruct (xdr_roundtrip (λ _, 0) [XInt (-5); XFixed [1; 2; 3]; XString [104; 105]] tt ltac:(exact I))
    as (p & p' & E1 & _ & _ & E2 & _).
  - repeat constructor; cbn; unfold is_s32; lia.
  - repeat constructor; intros str; try done. intros [= <-]. by repeat constructor.
  - by vm_compute.
  - exists p, p'. split; [exact E1|exact E2].
Defined.
