(* ===== verification/LinkedList.v ===== *)
(** Singly linked lists in a heap of nodes: the search loop the C components
    share ([while (current != NULL && !found) { last = current; current =
    current->next; }]), unlinking, and the chain predicate that relates a head
    pointer to the list of addresses it reaches. *)

From S2P Require Import Prelude.

(** A node type with its [next] field. *)
Class LNode (N : Type) := {
  nxt : N → option Z;
  set_nxt : option Z → N → N;
  nxt_set_nxt o n : nxt (set_nxt o n) = o
}.

Section Lists.
Context {N : Type} `{LNode N}.
Implicit Types (h : gmap Z N) (n : N) (l : list Z).

(** Dereferencing a pointer whose block is gone is a fault. *)
Definition deref h (a : Z) : outcome N :=
  match h !! a with Some n => Ok n | None => Bad UseAfterFree end.

(** The search loop; answers the predecessor and the node found. *)
Fixpoint walk (fuel : nat) h (test : Z → N → bool) (last cur : option Z)
    : outcome (option Z * option Z) :=
  match fuel with
  | O => Hang
  | S fuel =>
      match cur with
      | None => Ok (last, None)
      | Some a =>
          n ← deref h a;
          if test a n then Ok (last, Some a) else walk fuel h test (Some a) (nxt n)
      end
  end.

(** A bound on the number of nodes any acyclic chain of [h] can have. *)
Definition walk_fuel h : nat := S (size h).

(** [if (last) last->next = next; else first = next;] *)
Definition unlink h (first last next : option Z) : outcome (gmap Z N * option Z) :=
  match last with
  | Some p => n ← deref h p; Ok (<[p := set_nxt next n]> h, first)
  | None => Ok (h, next)
  end.

Inductive chain h : option Z → list Z → Prop :=
  | chain_nil : chain h None []
  | chain_cons a n l :
      h !! a = Some n → chain h (nxt n) l → chain h (Some a) (a :: l).

Lemma chain_func h o l1 l2 : chain h o l1 → chain h o l2 → l1 = l2.
Proof.
  intros H1. revert l2. induction H1 as [|a n l Ha Hc IH]; intros l2 H2;
    inversion H2; simplify_eq; [done|]. f_equal. by apply IH.
Qed.

Lemma chain_app h o l1 a l2 :
  chain h o (l1 ++ a :: l2) → chain h (Some a) (a :: l2).
Proof.
  revert o. induction l1 as [|b l1 IH]; intros o Hc; simpl in *.
  - inversion Hc; simplify_eq. econstructor; eauto.
  - inversion Hc; simplify_eq. eauto.
Qed.

Lemma chain_cell h o l a : chain h o l → a ∈ l → is_Some (h !! a).
Proof.
  induction 1 as [|b n l Hb Hc IH]; [by intros ?%elem_of_nil|].
  intros [->|?]%elem_of_cons; eauto.
Qed.

(** A chain cannot come back to a node: it would never end. *)
Lemma chain_NoDup h o l : chain h o l → NoDup l.
Proof.
  induction 1 as [|a n l Ha Hc IH]; [constructor|].
  constructor; [|done]. intros Hin. apply list_elem_of_split in Hin as (l1 & l2 & ->).
  pose proof (chain_app h _ l1 a l2 Hc) as Hs.
  assert (a :: l1 ++ a :: l2 = a :: l2) as E.
  { eapply chain_func; [|exact Hs]. econstructor; eauto. }
  apply (f_equal length) in E. simpl in E. rewrite length_app in E. simpl in E. lia.
Qed.

Lemma chain_length h o l : chain h o l → (length l ≤ size h)%nat.
Proof.
  intros Hc. pose proof (chain_NoDup _ _ _ Hc) as Hnd.
  rewrite <- size_dom, <- (size_list_to_set (C := gset Z)) by done.
  apply subseteq_size. intros a Ha%elem_of_list_to_set.
  apply elem_of_dom. by eapply chain_cell.
Qed.

Lemma chain_frame h h' o l :
  (∀ a, a ∈ l → h' !! a = h !! a) → chain h o l → chain h' o l.
Proof.
  intros Hf. induction 1 as [|a n l Ha Hc IH]; [constructor|].
  econstructor; [rewrite Hf; [done|by left]|]. apply IH. intros. apply Hf. by right.
Qed.

Lemma chain_insert_ne h o l a n : a ∉ l → chain h o l → chain (<[a := n]> h) o l.
Proof.
  intros Ha. apply chain_frame. intros b Hb. rewrite lookup_insert_ne; [done|]. by intros ->.
Qed.

Lemma chain_delete_ne h o l a : a ∉ l → chain h o l → chain (delete a h) o l.
Proof.
  intros Ha. apply chain_frame. intros b Hb. rewrite lookup_delete_ne; [done|]. by intros ->.
Qed.

(** Prepending a node that is not in the chain. *)
Lemma chain_push h o l a n :
  a ∉ l → chain h o l → nxt n = o → chain (<[a := n]> h) (Some a) (a :: l).
Proof.
  intros Ha Hc Hn. econstructor; [apply lookup_insert_eq|].
  rewrite Hn. by apply chain_insert_ne.
Qed.

(** The search loop on a chain: it answers the first node that passes the
    test, with its predecessor, and does not run out of steps. *)
Definition pred_of (last : option Z) (l1 : list Z) : option Z :=
  match list.last l1 with Some p => Some p | None => last end.

Lemma pred_of_cons last b l1 : pred_of (Some b) l1 = pred_of last (b :: l1).
Proof. unfold pred_of. rewrite last_cons. by destruct (list.last l1). Qed.

Lemma walk_found h test l1 : ∀ fuel last o a l2 n,
  chain h o (l1 ++ a :: l2) → h !! a = Some n → test a n = true →
  (∀ b m, b ∈ l1 → h !! b = Some m → test b m = false) →
  (length (l1 ++ a :: l2) < fuel)%nat →
  walk fuel h test last o = Ok (pred_of last l1, Some a).
Proof.
  induction l1 as [|b l1 IH]; intros fuel last o a l2 n Hc Ha Ht Hf Hl;
    (destruct fuel as [|fuel]; [simpl in Hl; lia|]); simpl in Hc; inversion Hc; simplify_eq;
    cbn [walk]; unfold deref.
  - rewrite Ha. cbn [mbind outcome_bind]. by rewrite Ht.
  - match goal with Hb : h !! b = Some _ |- _ =>
      rewrite Hb; cbn [mbind outcome_bind]; rewrite (Hf b _ (list_elem_of_here _ _) Hb) end.
    rewrite <- (pred_of_cons last). eapply IH; eauto.
    + intros. eapply Hf; eauto. by right.
    + simpl in Hl. lia.
Qed.

Lemma walk_none h test l : ∀ fuel last o,
  chain h o l → (∀ b m, b ∈ l → h !! b = Some m → test b m = false) →
  (length l < fuel)%nat →
  walk fuel h test last o = Ok (pred_of last l, None).
Proof.
  induction l as [|b l IH]; intros fuel last o Hc Hf Hl;
    (destruct fuel as [|fuel]; [lia|]); inversion Hc; simplify_eq; cbn [walk]; [done|].
  unfold deref. match goal with Hb : h !! b = Some _ |- _ =>
    rewrite Hb; cbn [mbind outcome_bind]; rewrite (Hf b _ (list_elem_of_here _ _) Hb) end.
  rewrite <- (pred_of_cons last). apply IH; [done| |simpl in Hl; lia].
  intros. eapply Hf; eauto. by right.
Qed.

(** Either some node of the chain passes the test, and there is a first one, or none does. *)
Lemma chain_first h test o l :
  chain h o l →
  (∃ l1 a n l2, l = l1 ++ a :: l2 ∧ h !! a = Some n ∧ test a n = true ∧
     (∀ b m, b ∈ l1 → h !! b = Some m → test b m = false)) ∨
  (∀ b m, b ∈ l → h !! b = Some m → test b m = false).
Proof.
  induction 1 as [|a n l Ha Hc IH].
  - right. intros b m []%elem_of_nil.
  - destruct (test a n) eqn:Et.
    + left. exists [], a, n, l. split_and!; try done. intros b m []%elem_of_nil.
    + destruct IH as [(l1 & b & m & l2 & -> & Hb & Hm & Hf)|Hf].
      * left. exists (a :: l1), b, m, l2. split_and!; try done.
        intros c k [->|?]%elem_of_cons ?; [naive_solver|eauto].
      * right. intros c k [->|?]%elem_of_cons ?; [naive_solver|eauto].
Qed.

(** Unlinking the node after [l1]. *)
Lemma unlink_chain h o l1 a n l2 :
  chain h o (l1 ++ a :: l2) → h !! a = Some n →
  ∃ h' o', unlink h o (pred_of None l1) (nxt n) = Ok (h', o') ∧ chain h' o' (l1 ++ l2) ∧
    h' !! a = h !! a ∧ dom h' = dom h ∧
    (∀ b m', h' !! b = Some m' → ∃ m, h !! b = Some m ∧ (m' = m ∨ m' = set_nxt (nxt n) m)) ∧
    (∀ b, b ∉ l1 → h' !! b = h !! b).
Proof.
  intros Hc Ha. pose proof (chain_NoDup _ _ _ Hc) as Hnd.
  destruct l1 as [|p l1 _] using rev_ind.
  - simpl in *. exists h, (nxt n). split; [done|]. inversion Hc; simplify_eq.
    split_and!; try done. intros b m' ?. eauto.
  - unfold pred_of. rewrite last_snoc. rewrite <- app_assoc in Hc, Hnd |- *. simpl in *.
    destruct (chain_cell _ _ _ p Hc) as [m Hp]; [set_solver|].
    simpl. unfold deref. rewrite Hp. simpl.
    apply NoDup_app in Hnd as (Hnd1 & Hdis & Hnd2).
    apply NoDup_cons in Hnd2 as [Hpn Hnd2]. apply NoDup_cons in Hnd2 as [Han Hnd2].
    assert (p ≠ a) as Hpa by set_solver.
    exists (<[p := set_nxt (nxt n) m]> h), o. split; [done|]. split_and!.
    + clear Hdis Hnd1. revert o Hc. induction l1 as [|b l1 IH]; intros o Hc; simpl in *.
      * inversion Hc as [|? ? ? Hp' Hc']; simplify_eq.
        inversion Hc' as [|? ? ? Ha' Hc'']; simplify_eq.
        econstructor; [apply lookup_insert_eq|]. rewrite nxt_set_nxt.
        apply chain_insert_ne; [set_solver|done].
      * inversion Hc as [|? ? ? Hb Hc']; simplify_eq.
        pose proof (chain_NoDup _ _ _ Hc) as Hnd'. apply NoDup_cons in Hnd' as [Hb' _].
        econstructor; [rewrite lookup_insert_ne; [exact Hb|set_solver]|]. by apply IH.
    + by rewrite lookup_insert_ne.
    + rewrite dom_insert_L. apply set_eq. intros x. rewrite elem_of_union, elem_of_singleton.
      split; [|auto]. intros [->|?]; [|done]. apply elem_of_dom. eauto.
    + intros b m' Hb. destruct (decide (b = p)) as [->|].
      * rewrite lookup_insert_eq in Hb. simplify_eq. eauto.
      * rewrite lookup_insert_ne in Hb by done. eauto.
    + intros b Hb. rewrite lookup_insert_ne; [done|]. set_solver.
Qed.
End Lists.
