(* ===== verification/RpcCalls.v ===== *)
(** Outstanding RPC calls of the NFS client (src/add-ons/kernel/file_systems/
    nfs/RPCPendingCalls.c) and the two ends that use them, [send_rpc_call] and
    the body of [postoffice_func] (nfs_add_on.c).

    [PendingCall] objects live in a heap and are shared between the list of
    pending calls, the sender and the postoffice thread.  Kernel semaphores are
    counters; the network is a parameter. *)

From S2P Require Import Prelude Errors Xdr LinkedList.

Record sockaddr_in : Type := mkAddr {
  sin_family : Z;
  sin_port : Z;       (* network order *)
  s_addr : Z          (* network order *)
}.

(** Mount parameters; [None] is a NULL string pointer. *)
Record mount_nfs_params : Type := mkParams {
  serverIP : Z;
  server : option (list Z);
  _export : option (list Z);
  p_uid : Z;
  p_gid : Z;
  hostname : option (list Z)
}.

Record PendingCall : Type := mkCall {
  pc_next : option Z;
  pc_sem : Z;
  pc_addr : sockaddr_in;
  pc_xid : Z;
  pc_buffer : option (list Z)
}.

Record SemaphorePool : Type := mkPool {
  fPool : option (list Z);
  fPoolCount : Z;
  fPoolSize : Z;
  fPoolSem : Z
}.

Record RPCPendingCalls : Type := mkCalls {
  fFirst : option Z;
  fSem : Z;
  fPools : SemaphorePool
}.

#[global] Program Instance PendingCall_node : LNode PendingCall := {|
  nxt := pc_next;
  set_nxt := λ o c, mkCall o (pc_sem c) (pc_addr c) (pc_xid c) (pc_buffer c)
|}.
Next Obligation. done. Qed.

Definition set_buffer (b : option (list Z)) (c : PendingCall) : PendingCall :=
  mkCall (pc_next c) (pc_sem c) (pc_addr c) (pc_xid c) b.

(** The transport state of one mounted volume: allocator, kernel semaphores,
    heap of [PendingCall]s, [ns->pendingCalls], [ns->xid], the network, and the
    datagrams sent so far (newest first). *)
Record rpc (net : Type) : Type := mkRpc {
  r_oom : list bool;              (* answers of the next allocations; [] = all succeed *)
  r_sems : gmap Z Z;              (* live semaphores with their counts *)
  r_next_sem : Z;
  r_heap : gmap Z PendingCall;
  r_next_call : Z;
  r_calls : RPCPendingCalls;
  r_xid : Z;
  r_net : net;
  r_sent : list (sockaddr_in * list Z)
}.
Arguments mkRpc {net}.
Arguments r_oom {net}. Arguments r_sems {net}. Arguments r_next_sem {net}.
Arguments r_heap {net}. Arguments r_next_call {net}. Arguments r_calls {net}.
Arguments r_xid {net}. Arguments r_net {net}. Arguments r_sent {net}.

#[global] Program Instance rpc_allocator {net} : Allocator (rpc net) := {|
  alloc_next := λ s,
    (match r_oom s with b :: _ => b | [] => true end,
     mkRpc (tail (r_oom s)) (r_sems s) (r_next_sem s) (r_heap s) (r_next_call s)
       (r_calls s) (r_xid s) (r_net s) (r_sent s));
  alloc_plenty := λ s, r_oom s = []
|}.
Next Obligation. intros net [[] ? ? ? ? ? ? ? ?]; simpl; congruence. Qed.

Section Setters.
Context {net : Type}.
Implicit Types s : rpc net.

Definition set_sems (f : gmap Z Z → gmap Z Z) s : rpc net :=
  mkRpc (r_oom s) (f (r_sems s)) (r_next_sem s) (r_heap s) (r_next_call s)
    (r_calls s) (r_xid s) (r_net s) (r_sent s).
Definition set_next_sem (n : Z) s : rpc net :=
  mkRpc (r_oom s) (r_sems s) n (r_heap s) (r_next_call s)
    (r_calls s) (r_xid s) (r_net s) (r_sent s).
Definition set_heap (f : gmap Z PendingCall → gmap Z PendingCall) s : rpc net :=
  mkRpc (r_oom s) (r_sems s) (r_next_sem s) (f (r_heap s)) (r_next_call s)
    (r_calls s) (r_xid s) (r_net s) (r_sent s).
Definition set_next_call (n : Z) s : rpc net :=
  mkRpc (r_oom s) (r_sems s) (r_next_sem s) (r_heap s) n
    (r_calls s) (r_xid s) (r_net s) (r_sent s).
Definition set_calls (c : RPCPendingCalls) s : rpc net :=
  mkRpc (r_oom s) (r_sems s) (r_next_sem s) (r_heap s) (r_next_call s)
    c (r_xid s) (r_net s) (r_sent s).
Definition set_pool (p : SemaphorePool) s : rpc net :=
  set_calls (mkCalls (fFirst (r_calls s)) (fSem (r_calls s)) p) s.
Definition set_first (o : option Z) s : rpc net :=
  set_calls (mkCalls o (fSem (r_calls s)) (fPools (r_calls s))) s.
Definition set_xid (x : Z) s : rpc net :=
  mkRpc (r_oom s) (r_sems s) (r_next_sem s) (r_heap s) (r_next_call s)
    (r_calls s) x (r_net s) (r_sent s).
Definition set_net (n : net) s : rpc net :=
  mkRpc (r_oom s) (r_sems s) (r_next_sem s) (r_heap s) (r_next_call s)
    (r_calls s) (r_xid s) n (r_sent s).
Definition log_sent (d : sockaddr_in * list Z) s : rpc net :=
  mkRpc (r_oom s) (r_sems s) (r_next_sem s) (r_heap s) (r_next_call s)
    (r_calls s) (r_xid s) (r_net s) (d :: r_sent s).
End Setters.

Section Ops.
Context {net : Type}.
Context (uninit : Z → Z).
(** The network: what the socket receives while the sender waits [timeout]
    microseconds after having sent a datagram to an address. *)
Context (net_wait : net → sockaddr_in → list Z → Z → list (sockaddr_in * list Z) * net).
(** Driver settings. *)
Context (conf_no_check_ip_xid : bool).
Context (conf_call_timeout conf_call_tries : Z).

Abbreviation MR := (M (rpc net)).

(** ** Kernel semaphores *)

Definition create_sem (count : Z) : MR Z :=
  s ← getS;
  let id := r_next_sem s in
  putS (set_next_sem (id + 1) (set_sems (insert id count) s));;
  mret id.

Definition delete_sem (id : Z) : MR unit := modifyS (set_sems (delete id)).

Definition release_sem (id : Z) : MR Z :=
  s ← getS;
  match r_sems s !! id with
  | None => mret B_BAD_SEM_ID
  | Some c => putS (set_sems (insert id (c + 1)) s);; mret B_OK
  end.

(** [while (acquire_sem(id) == B_INTERRUPTED);]: blocks when the count is 0. *)
Definition acquire_sem (id : Z) : MR Z :=
  s ← getS;
  match r_sems s !! id with
  | None => mret B_BAD_SEM_ID
  | Some c =>
      if c >? 0 then putS (set_sems (insert id (c - 1)) s);; mret B_OK
      else failM Deadlock
  end.

(** [acquire_sem_etc(id, 1, B_TIMEOUT, ...)] at the end of the timeout. *)
Definition acquire_sem_timed (id : Z) : MR Z :=
  s ← getS;
  match r_sems s !! id with
  | None => mret B_BAD_SEM_ID
  | Some c =>
      if c >? 0 then putS (set_sems (insert id (c - 1)) s);; mret B_OK
      else mret B_TIMED_OUT
  end.

(** ** Blocks of the PendingCall heap *)

Definition get_call (a : Z) : MR PendingCall :=
  s ← getS; liftO (deref (r_heap s) a).

Definition put_call (a : Z) (c : PendingCall) : MR unit :=
  _ ← get_call a; modifyS (set_heap (insert a c)).

Definition free_call (a : Z) : MR unit :=
  _ ← get_call a; modifyS (set_heap (delete a)).

(** ** SemaphorePool *)

Definition SemaphorePoolInit : MR unit :=
  id ← create_sem 1;
  modifyS (set_pool (mkPool None 0 0 id)).

Definition pool_get (s : rpc net) : SemaphorePool := fPools (r_calls s).

Definition SemaphorePoolDestroy : MR unit :=
  s ← getS;
  let pool := pool_get s in
  ids ← liftO (peek (fPool pool) 0 (fPoolCount pool));
  modifyS (set_sems (λ m, foldr delete m ids));;
  delete_sem (fPoolSem pool).

Definition SemaphorePoolGet : MR Z :=
  s ← getS;
  acquire_sem (fPoolSem (pool_get s));;
  s ← getS;
  let pool := pool_get s in
  if fPoolCount pool =? 0 then
    sem ← create_sem 0;
    release_sem (fPoolSem pool);;
    mret sem
  else
    ids ← liftO (peek (fPool pool) (fPoolCount pool - 1) 1);
    modifyS (set_pool (mkPool (fPool pool) (fPoolCount pool - 1) (fPoolSize pool) (fPoolSem pool)));;
    release_sem (fPoolSem pool);;
    mret (default 0 (head ids)).

Definition SemaphorePoolPut (sem : Z) : MR unit :=
  s ← getS;
  acquire_sem (fPoolSem (pool_get s));;
  s ← getS;
  let pool := pool_get s in
  pool ← (if fPoolCount pool + 1 >? fPoolSize pool then
            ok ← malloc;
            let n := fPoolSize pool + 8 in
            mret (mkPool (if (ok : bool) then Some (resize uninit (fPool pool) n) else None)
                    (fPoolCount pool) n (fPoolSem pool))
          else mret pool);
  arr ← liftO (poke (fPool pool) (fPoolCount pool) [sem]);
  modifyS (set_pool (mkPool arr (fPoolCount pool + 1) (fPoolSize pool) (fPoolSem pool)));;
  release_sem (fPoolSem pool);;
  mret tt.

(** ** RPCPendingCalls *)

Definition RPCPendingCallsInit : MR unit :=
  SemaphorePoolInit;;
  id ← create_sem 1;
  modifyS (λ s, set_calls (mkCalls None id (fPools (r_calls s))) s).

(** Frees every call still in the list, putting its semaphore back first. *)
Fixpoint destroy_loop (fuel : nat) : MR unit :=
  match fuel with
  | O => hangM
  | S fuel =>
      s ← getS;
      match fFirst (r_calls s) with
      | None => mret tt
      | Some a =>
          c ← get_call a;
          let next := pc_next c in
          SemaphorePoolPut (pc_sem c);;
          free_call a;;
          modifyS (set_first next);;
          destroy_loop fuel
      end
  end.

Definition RPCPendingCallsDestroy : MR unit :=
  s ← getS;
  delete_sem (fSem (r_calls s));;
  destroy_loop (walk_fuel (r_heap s));;
  SemaphorePoolDestroy.

Definition RPCPendingCallsAddPendingCall (xid : Z) (addr : sockaddr_in) : MR Z :=
  ok ← malloc;
  if negb ok then failM NullDeref
  else
    s ← getS;
    let call := r_next_call s in
    putS (set_next_call (call + 1) s);;
    sem ← SemaphorePoolGet;
    s ← getS;
    acquire_sem (fSem (r_calls s));;
    s ← getS;
    modifyS (set_heap (insert call (mkCall (fFirst (r_calls s)) sem addr xid None)));;
    modifyS (set_first (Some call));;
    release_sem (fSem (r_calls s));;
    mret call.

(** The condition of the search: the xid, and the sender's address and port
    unless the settings say not to check them. *)
Definition call_matches (xid : Z) (addr : sockaddr_in) (c : PendingCall) : bool :=
  (pc_xid c =? xid) &&
  (((s_addr (pc_addr c) =? s_addr addr) && (sin_port (pc_addr c) =? sin_port addr))
   || conf_no_check_ip_xid).

Definition RPCPendingCallsFindAndRemovePendingCall (xid : Z) (addr : sockaddr_in)
    : MR (option Z) :=
  s ← getS;
  acquire_sem (fSem (r_calls s));;
  s ← getS;
  '(last, found) ← liftO (walk (walk_fuel (r_heap s)) (r_heap s)
                            (λ _ c, call_matches xid addr c) None (fFirst (r_calls s)));
  match found with
  | Some a =>
      c ← get_call a;
      '(h, first) ← liftO (unlink (r_heap s) (fFirst (r_calls s)) last (pc_next c));
      modifyS (set_heap (λ _, <[a := set_nxt None c]> h));;
      modifyS (set_first first);;
      release_sem (fSem (r_calls s));;
      mret (Some a)
  | None =>
      release_sem (fSem (r_calls s));;
      mret None
  end.

(** ** The postoffice thread (nfs_add_on.c)

    One turn of its loop: [bytes] were received from [from]. *)

Definition B_UDP_MAX_SIZE : Z := 65515.

Definition postoffice_turn (from : sockaddr_in) (datagram : list Z) : MR unit :=
  let buffer := take (Z.to_nat B_UDP_MAX_SIZE) datagram in
  if bool_decide (4 ≤ zlen buffer) then
    let xid := s32 (be32_dec (take 4 buffer)) in
    call ← RPCPendingCallsFindAndRemovePendingCall xid from;
    match call with
    | Some a =>
        ok ← malloc;
        if negb ok then failM NullDeref
        else
          c ← get_call a;
          put_call a (set_buffer (Some buffer) c);;
          release_sem (pc_sem c);;
          mret tt
    | None => mret tt
    end
  else mret tt.

Fixpoint postoffice_turns (l : list (sockaddr_in * list Z)) : MR unit :=
  match l with
  | [] => mret tt
  | (from, d) :: l => postoffice_turn from d;; postoffice_turns l
  end.

(** ** send_rpc_call (nfs_add_on.c) *)

Definition RPC_VERSION : Z := 2.
Definition RPC_CALL : Z := 0.
Definition RPC_AUTH_NONE : Z := 0.
Definition RPC_AUTH_SYS : Z := 1.

(** The RPC message: header, system credentials (the mount parameters of the
    volume), null verifier, then the arguments. *)
Definition build_call (params : mount_nfs_params) (xid prog vers proc : Z)
    (packet : XDROutPacket) : MR XDROutPacket :=
  name ← match server params with
         | Some name => mret name
         | None => failM NullDeref
         end;
  let authSize := u64 (4 + 4 + round4 (zlen name) + 4 + 4 + 4) in
  rpc_call ← put_items uninit XDROutPacketInit
    [ XInt xid; XInt RPC_CALL; XInt RPC_VERSION; XInt prog; XInt vers; XInt proc;
      XInt RPC_AUTH_SYS; XInt authSize;
      XInt 0; XString name; XInt (p_uid params); XInt (p_gid params); XInt 0;
      XInt RPC_AUTH_NONE; XDynamic [] ];
  XDROutPacketAppend uninit rpc_call packet.

(** [sendto], then the wait for the call's semaphore, with the postoffice
    thread serving what arrives meanwhile. *)
Definition send_and_wait (addr : sockaddr_in) (bytes : list Z) (pending timeout : Z) : MR Z :=
  modifyS (log_sent (addr, bytes));;
  s ← getS;
  let '(arrived, n) := net_wait (r_net s) addr bytes timeout in
  putS (set_net n s);;
  postoffice_turns arrived;;
  c ← get_call pending;
  acquire_sem_timed (pc_sem c).

(** [do { ... retries--; } while (result == B_TIMED_OUT && retries >= 0);] *)
Fixpoint call_loop (fuel : nat) (addr : sockaddr_in) (bytes : list Z)
    (pending retries : Z) : MR Z :=
  match fuel with
  | O => hangM
  | S fuel =>
      result ← send_and_wait addr bytes pending
                 (if bool_decide (retries = 0) then 2 * conf_call_timeout
                  else conf_call_timeout);
      let retries := s32 (retries - 1) in
      if bool_decide (result = B_TIMED_OUT ∧ 0 ≤ retries)
      then call_loop fuel addr bytes pending retries
      else mret result
  end.

Definition send_rpc_call (params : mount_nfs_params) (addr : sockaddr_in)
    (prog vers proc : Z) (packet : XDROutPacket) : MR (option (list Z)) :=
  let retries := s32 conf_call_tries in
  s ← getS;
  let xid := r_xid s in
  putS (set_xid (s32 (xid + 1)) s);;
  rpc_call ← build_call params xid prog vers proc packet;
  pending ← RPCPendingCallsAddPendingCall xid addr;
  bytes ← liftO (peek (XDROutPacketBuffer rpc_call) 0 (XDROutPacketLength rpc_call));
  result ← call_loop (S (Z.to_nat (retries + 1))) addr bytes pending retries;
  if bool_decide (0 ≤ result) then
    c ← get_call pending;
    let buffer := pc_buffer c in
    put_call pending (set_buffer None c);;
    SemaphorePoolPut (pc_sem c);;
    free_call pending;;
    mret buffer
  else
    call ← RPCPendingCallsFindAndRemovePendingCall xid addr;
    c ← get_call pending;
    match call with
    | Some _ => SemaphorePoolPut (pc_sem c)
    | None => delete_sem (pc_sem c)
    end;;
    free_call pending;;
    mret None.
End Ops.

(** * Invariants *)

Definition pool_ids (p : SemaphorePool) : list Z :=
  take (Z.to_nat (fPoolCount p)) (default [] (fPool p)).

Definition pool_wf (p : SemaphorePool) : Prop :=
  0 ≤ fPoolCount p ≤ fPoolSize p ∧
  match fPool p with Some arr => zlen arr = fPoolSize p | None => fPoolSize p = 0 end.

(** Both mutexes are free, the pooled semaphores are distinct, live and at
    count 0, and no live semaphore is newer than the next identifier. *)
Record sems_ok (sems : gmap Z Z) (nsem fsem : Z) (p : SemaphorePool) : Prop := {
  so_pool : pool_wf p;
  so_list_lock : sems !! fsem = Some 1;
  so_pool_lock : sems !! fPoolSem p = Some 1;
  so_locks : fsem ≠ fPoolSem p;
  so_nodup : NoDup (pool_ids p);
  so_zero : ∀ m, m ∈ pool_ids p → sems !! m = Some 0;
  so_fresh : ∀ m c, sems !! m = Some c → m < nsem
}.

(** Semaphore [m] is in use by a call, outside the pool, at count [c]. *)
Definition sem_in_use (sems : gmap Z Z) (fsem : Z) (p : SemaphorePool) (m c : Z) : Prop :=
  sems !! m = Some c ∧ m ≠ fsem ∧ m ≠ fPoolSem p ∧ m ∉ pool_ids p.

(** The last slot of a non-empty pool. *)
Lemma pool_pop p :
  pool_wf p → 0 < fPoolCount p →
  ∃ m, peek (fPool p) (fPoolCount p - 1) 1 = Ok [m] ∧
    pool_ids p = pool_ids (mkPool (fPool p) (fPoolCount p - 1) (fPoolSize p) (fPoolSem p)) ++ [m].
Proof.
  intros [Hc Hb] Hpos. unfold pool_ids. destruct (fPool p) as [arr|]; simpl in *; [|lia].
  rewrite load_bytes_Ok by lia. unfold slice.
  destruct (lookup_lt_is_Some_2 arr (Z.to_nat (fPoolCount p - 1))) as [m Hm]; [lia|].
  exists m. rewrite (drop_S arr m) by done. split; [done|].
  replace (Z.to_nat (fPoolCount p)) with (S (Z.to_nat (fPoolCount p - 1))) by lia.
  by apply take_S_r.
Qed.

(** Storing into a pool that has a free slot. *)
Lemma pool_push p m :
  pool_wf p → fPoolCount p < fPoolSize p →
  ∃ arr, poke (fPool p) (fPoolCount p) [m] = Ok arr ∧
    pool_wf (mkPool arr (fPoolCount p + 1) (fPoolSize p) (fPoolSem p)) ∧
    pool_ids (mkPool arr (fPoolCount p + 1) (fPoolSize p) (fPoolSem p)) = pool_ids p ++ [m].
Proof.
  intros [Hc Hb] Hlt. unfold pool_ids, pool_wf, poke.
  destruct (fPool p) as [b|]; simpl in *; [|lia].
  rewrite store_bytes_Ok by (simpl; lia). eexists. split; [done|]. simpl.
  rewrite splice_length by (simpl; lia). split; [lia|].
  change (fPoolCount p + 1) with (fPoolCount p + zlen [m]). by rewrite take_splice by (simpl; lia).
Qed.

Lemma pool_grow u p n :
  pool_wf p → fPoolSize p ≤ n →
  pool_wf (mkPool (Some (resize u (fPool p) n)) (fPoolCount p) n (fPoolSem p)) ∧
  pool_ids (mkPool (Some (resize u (fPool p) n)) (fPoolCount p) n (fPoolSem p)) = pool_ids p.
Proof.
  intros [Hc Hb] Hn.
  destruct (resize_spec u (fPool p) n) as [Hl [r Hr]]; [destruct (fPool p); simpl in *; lia|].
  unfold pool_wf, pool_ids; simpl. split; [lia|].
  rewrite Hr, take_app_le; [done|]. destruct (fPool p); simpl in *; lia.
Qed.

Section SemSpecs.
Context {net : Type} (uninit : Z → Z).

Lemma acquire_sem_run (s : rpc net) id c :
  r_sems s !! id = Some c → 0 < c →
  acquire_sem id s = Ok (B_OK, set_sems (insert id (c - 1)) s).
Proof.
  intros E Hc. unfold acquire_sem. mrun. rewrite E.
  destruct (Z.gtb_spec c 0); [|lia]. by mrun.
Qed.

Lemma release_sem_run (s : rpc net) id c :
  r_sems s !! id = Some c → release_sem id s = Ok (B_OK, set_sems (insert id (c + 1)) s).
Proof. intros E. unfold release_sem. mrun. rewrite E. by mrun. Qed.

Lemma get_call_run (s : rpc net) a c :
  r_heap s !! a = Some c → get_call a s = Ok (c, s).
Proof. intros E. unfold get_call, deref. mrun. by rewrite E. Qed.

Lemma put_call_run (s : rpc net) a c c' :
  r_heap s !! a = Some c → put_call a c' s = Ok (tt, set_heap (insert a c') s).
Proof. intros E. unfold put_call. mstep (get_call_run s a c E). done. Qed.

Lemma free_call_run (s : rpc net) a c :
  r_heap s !! a = Some c → free_call a s = Ok (tt, set_heap (delete a) s).
Proof. intros E. unfold free_call. mstep (get_call_run s a c E). done. Qed.

(** Taking a mutex and giving it back leaves the semaphores as they were. *)
Lemma relock (sems : gmap Z Z) id : sems !! id = Some 1 → <[id := 0 + 1]> (<[id := 1 - 1]> sems) = sems.
Proof. intros. rewrite insert_insert_eq. by apply insert_id. Qed.

Lemma sems_ok_alloc sems nsem fsem p c :
  sems_ok sems nsem fsem p →
  sems_ok (<[nsem := c]> sems) (nsem + 1) fsem p ∧
  sem_in_use (<[nsem := c]> sems) fsem p nsem c.
Proof.
  intros [Hp Hl Hpl Hne Hnd Hz Hf].
  assert (sems !! nsem = None) as Hn.
  { destruct (sems !! nsem) eqn:E; [|done]. apply Hf in E. lia. }
  assert (∀ m c', sems !! m = Some c' → <[nsem := c]> sems !! m = Some c') as Hk.
  { intros m c' Hm. rewrite lookup_insert_ne; [done|]. intros ->. congruence. }
  split.
  - split; eauto. intros m c'. rewrite lookup_insert. case_decide; [lia|].
    intros Hm. apply Hf in Hm. lia.
  - split_and!; [apply lookup_insert_eq|congruence..|]. intros Hin.
    apply Hz in Hin. congruence.
Qed.

(** [SemaphorePoolGet] hands out a semaphore at count 0 that nobody else has. *)
Lemma SemaphorePoolGet_spec oom sems nsem heap nc first fsem p xid (n : net) sent :
  sems_ok sems nsem fsem p →
  ∃ m sems' nsem' p',
    SemaphorePoolGet (mkRpc oom sems nsem heap nc (mkCalls first fsem p) xid n sent)
    = Ok (m, mkRpc oom sems' nsem' heap nc (mkCalls first fsem p') xid n sent) ∧
    sems_ok sems' nsem' fsem p' ∧ sem_in_use sems' fsem p' m 0 ∧
    (pool_ids p ≠ [] → pool_ids p = pool_ids p' ++ [m] ∧ sems' = sems) ∧
    (pool_ids p = [] → p' = p ∧ m = nsem ∧ sems' = <[nsem := 0]> sems).
Proof.
  clear uninit. intros Hok. pose proof Hok as [Hp Hl Hpl Hne Hnd Hz Hf].
  unfold SemaphorePoolGet. mrun.
  erewrite bind_Ok by (apply acquire_sem_run with (c := 1); [exact Hpl|lia]). mrun.
  unfold set_sems, set_pool, set_calls, set_next_sem, pool_get. cbn [r_calls fPools r_sems r_oom r_next_sem
    r_heap r_next_call r_xid r_net r_sent fFirst fSem].
  destruct (Z.eqb_spec (fPoolCount p) 0) as [E0|E0].
  - assert (pool_ids p = []) as Hnil.
    { unfold pool_ids. rewrite E0. by rewrite take_0. }
    assert (fPoolSem p ≠ nsem) as Hx by (apply Hf in Hpl; lia).
    destruct (sems_ok_alloc sems nsem fsem p 0 Hok) as [Hok' Hu].
    unfold create_sem. mrun.
    erewrite bind_Ok by (apply release_sem_run with (c := 0); cbn;
      rewrite lookup_insert_ne by done; apply lookup_insert_eq). mrun.
    unfold set_sems; cbn. rewrite (insert_insert_ne _ nsem) by done.
    rewrite relock by (rewrite lookup_insert_ne; done).
    eexists nsem, (<[nsem := 0]> sems), (nsem + 1), p. split_and!; try done.
  - destruct (pool_pop p Hp) as (m & Em & Ei); [destruct Hp; lia|].
    rewrite Em. mrun.
    erewrite bind_Ok by (apply release_sem_run with (c := 0); cbn; apply lookup_insert_eq). mrun.
    unfold set_sems; cbn. rewrite relock by done.
    exists m, sems, nsem,
      (mkPool (fPool p) (fPoolCount p - 1) (fPoolSize p) (fPoolSem p)).
    split; [done|]. rewrite Ei in Hnd, Hz. apply NoDup_app in Hnd as (Hnd & Hd & _).
    split_and!.
    + split; cbn; try done.
      * destruct Hp. split; [cbn; lia|done].
      * intros. apply Hz. set_solver.
    + assert (sems !! m = Some 0) as Hm by (apply Hz; set_solver).
      split_and!; cbn; [done|congruence..|]. intros Hin. apply (Hd m Hin). set_solver.
    + intros _. by rewrite Ei.
    + rewrite Ei. intros Hx. by apply app_nil in Hx as [_ ?].
Qed.

(** [SemaphorePoolPut] takes a semaphore at count 0 back. *)
Lemma SemaphorePoolPut_spec sems nsem heap nc first fsem p xid (n : net) sent m :
  sems_ok sems nsem fsem p → sem_in_use sems fsem p m 0 →
  ∃ p',
    SemaphorePoolPut uninit m (mkRpc [] sems nsem heap nc (mkCalls first fsem p) xid n sent)
    = Ok (tt, mkRpc [] sems nsem heap nc (mkCalls first fsem p') xid n sent) ∧
    sems_ok sems nsem fsem p' ∧ pool_ids p' = pool_ids p ++ [m] ∧ fPoolSem p' = fPoolSem p.
Proof.
  intros [Hp Hl Hpl Hne Hnd Hz Hf] (Hm & Hm1 & Hm2 & Hm3).
  assert (∃ q, pool_wf q ∧ pool_ids q = pool_ids p ∧ fPoolSem q = fPoolSem p ∧
            fPoolCount q < fPoolSize q ∧ fPoolCount q = fPoolCount p ∧
    (if fPoolCount p + 1 >? fPoolSize p then
       ok ← malloc;
       mret (mkPool (if (ok : bool) then Some (resize uninit (fPool p) (fPoolSize p + 8)) else None)
               (fPoolCount p) (fPoolSize p + 8) (fPoolSem p))
     else mret p)
      (mkRpc [] (<[fPoolSem p := 0]> sems) nsem heap nc (mkCalls first fsem p) xid n sent)
    = Ok (q, mkRpc [] (<[fPoolSem p := 0]> sems) nsem heap nc (mkCalls first fsem p) xid n sent))
    as (q & Hq & Hqi & Hqs & Hqr & Hqc & Eq).
  { rewrite Z.gtb_ltb. destruct (Z.ltb_spec (fPoolSize p) (fPoolCount p + 1)).
    - destruct (pool_grow uninit p (fPoolSize p + 8) Hp) as [? ?]; [lia|].
      eexists. split_and!; [done..| |done|done]. cbn. destruct Hp; lia.
    - exists p. split_and!; try done; lia. }
  destruct (pool_push q m Hq Hqr) as (arr & Ea & Hwf & Hids).
  unfold SemaphorePoolPut. mrun.
  erewrite bind_Ok by (apply acquire_sem_run with (c := 1); [exact Hpl|lia]). mrun.
  unfold set_sems, set_pool, set_calls, pool_get. cbn [r_calls fPools r_sems r_oom r_next_sem
    r_heap r_next_call r_xid r_net r_sent fFirst fSem].
  mstep Eq. rewrite Ea. mrun. rewrite Hqs.
  erewrite bind_Ok by (apply release_sem_run with (c := 0); cbn; apply lookup_insert_eq). mrun.
  unfold set_sems; cbn. rewrite relock by done.
  eexists. split; [done|]. rewrite Hqs in *. split_and!; [|by rewrite Hids, Hqi|done].
  split; cbn; try done; rewrite Hids, Hqi.
  - apply NoDup_app. split_and!; [done| |apply NoDup_singleton]. set_solver.
  - intros k [?|?]%elem_of_app; [by apply Hz|]. set_solver.
Qed.
End SemSpecs.

(** What a call is, apart from its place in the list. *)
Definition call_data (c : PendingCall) : Z * sockaddr_in * Z * option (list Z) :=
  (pc_sem c, pc_addr c, pc_xid c, pc_buffer c).

Section ListSpecs.
Context {net : Type}.

Lemma RPCPendingCallsAddPendingCall_run sems nsem heap nc first fsem p xid0 (n : net) sent l xid addr :
  sems_ok sems nsem fsem p → chain heap first l → heap !! nc = None →
  ∃ m sems' nsem' p',
    RPCPendingCallsAddPendingCall xid addr
      (mkRpc [] sems nsem heap nc (mkCalls first fsem p) xid0 n sent)
    = Ok (nc, mkRpc [] sems' nsem' (<[nc := mkCall first m addr xid None]> heap) (nc + 1)
            (mkCalls (Some nc) fsem p') xid0 n sent) ∧
    sems_ok sems' nsem' fsem p' ∧ sem_in_use sems' fsem p' m 0 ∧
    chain (<[nc := mkCall first m addr xid None]> heap) (Some nc) (nc :: l).
Proof.
  intros Hok Hch Hnc. unfold RPCPendingCallsAddPendingCall.
  erewrite bind_Ok by (by apply malloc_plenty). cbv beta iota delta [negb]. mrun.
  destruct (SemaphorePoolGet_spec [] sems nsem heap (nc + 1) first fsem p xid0 n sent Hok)
    as (m & sems' & nsem' & p' & E & Hok' & Hu & _).
  mstep E.
  erewrite bind_Ok by (apply acquire_sem_run with (c := 1); [apply Hok'|lia]). mrun.
  erewrite bind_Ok by (apply release_sem_run with (c := 0); cbn; apply lookup_insert_eq). mrun.
  exists m, sems', nsem', p'. unfold set_sems, set_first, set_heap, set_calls; cbn.
  rewrite relock by apply Hok'. split_and!; try done.
  eapply chain_push; [|exact Hch|done]. intros Hin.
  destruct (chain_cell _ _ _ nc Hch Hin). congruence.
Qed.

(** The search removes the first call of the list that matches, and only it. *)
Lemma find_and_remove_run nochk sems nsem heap nc first fsem p xid0 (n : net) oom sent l xid addr :
  sems_ok sems nsem fsem p → chain heap first l →
  (∃ l1 a c l2 heap' first',
     l = l1 ++ a :: l2 ∧ heap !! a = Some c ∧ call_matches nochk xid addr c = true ∧
     (∀ b d, b ∈ l1 → heap !! b = Some d → call_matches nochk xid addr d = false) ∧
     RPCPendingCallsFindAndRemovePendingCall nochk xid addr
       (mkRpc oom sems nsem heap nc (mkCalls first fsem p) xid0 n sent)
     = Ok (Some a, mkRpc oom sems nsem heap' nc (mkCalls first' fsem p) xid0 n sent) ∧
     chain heap' first' (l1 ++ l2) ∧ heap' !! a = Some (set_nxt None c) ∧
     (∀ b, call_data <$> heap' !! b = call_data <$> heap !! b)) ∨
  ((∀ b d, b ∈ l → heap !! b = Some d → call_matches nochk xid addr d = false) ∧
   RPCPendingCallsFindAndRemovePendingCall nochk xid addr
     (mkRpc oom sems nsem heap nc (mkCalls first fsem p) xid0 n sent)
   = Ok (None, mkRpc oom sems nsem heap nc (mkCalls first fsem p) xid0 n sent)).
Proof.
  intros Hok Hch. pose proof (chain_length _ _ _ Hch) as Hlen.
  unfold RPCPendingCallsFindAndRemovePendingCall. mrun.
  erewrite bind_Ok by (apply acquire_sem_run with (c := 1); [apply Hok|lia]). mrun.
  unfold set_sems; cbn [r_calls fFirst r_heap fSem r_sems r_oom r_next_sem r_next_call r_xid r_net r_sent].
  destruct (chain_first heap (λ _ c, call_matches nochk xid addr c) first l Hch)
    as [(l1 & a & c & l2 & -> & Ha & Hm & Hf)|Hf].
  - left. destruct (unlink_chain heap first l1 a c l2 Hch Ha)
      as (h' & o' & Eu & Hch' & Ha' & Hdom & Hsame & _).
    erewrite (walk_found heap _ l1 _ _ _ a l2 c) by (done || (unfold walk_fuel; lia)). mrun.
    erewrite bind_Ok by (by apply get_call_run). mrun.
    cbn [nxt PendingCall_node] in Eu. rewrite Eu. mrun.
    erewrite bind_Ok by (apply release_sem_run with (c := 0); cbn; apply lookup_insert_eq). mrun.
    unfold set_sems, set_first, set_heap, set_calls; cbn. rewrite relock by apply Hok.
    exists l1, a, c, l2, (<[a := set_nxt None c]> h'), o'.
    pose proof (chain_NoDup _ _ _ Hch) as Hnd.
    split_and!; try done.
    + apply chain_insert_ne; [|done]. apply NoDup_app in Hnd as (? & Hd & Hnd2).
      apply NoDup_cons in Hnd2 as [? _]. specialize (Hd a). set_solver.
    + apply lookup_insert_eq.
    + intros b. destruct (decide (b = a)) as [->|Hb].
      { rewrite lookup_insert_eq, Ha. done. }
      rewrite lookup_insert_ne by done. destruct (h' !! b) as [m'|] eqn:Eb.
      * destruct (Hsame b m' Eb) as (m & -> & [-> | ->]); done.
      * assert (b ∉ dom h') as Hnb by (by apply not_elem_of_dom).
        rewrite Hdom in Hnb. by rewrite (not_elem_of_dom_1 _ _ Hnb).
  - right. split; [done|].
    erewrite (walk_none heap _ l) by (done || (unfold walk_fuel; lia)). mrun.
    erewrite bind_Ok by (apply release_sem_run with (c := 0); cbn; apply lookup_insert_eq). mrun.
    unfold set_sems; cbn. by rewrite relock by apply Hok.
Qed.
End ListSpecs.

(** * One remote call, from the outside *)

(** The AUTH_SYS (AUTH_UNIX) credential of RFC 1057: flavor and counted body,
    the body being stamp, machine name, uid, gid and no further gids. *)
Definition rpc_credential (name : list Z) (uid gid : Z) : list Z :=
  let body := be32_enc 0 ++ be32_enc (zlen name) ++ xdr_opaque name ++
              be32_enc uid ++ be32_enc gid ++ be32_enc 0 in
  be32_enc 1 ++ be32_enc (zlen body) ++ body.

(** The call message of RFC 1057 with that credential and a null verifier. *)
Definition rpc_message (params : mount_nfs_params) (xid prog vers proc : Z) (args : list Z)
    : list Z :=
  be32_enc xid ++ be32_enc 0 ++ be32_enc 2 ++ be32_enc prog ++ be32_enc vers ++
  be32_enc proc ++
  rpc_credential (default [] (server params)) (p_uid params) (p_gid params) ++
  be32_enc 0 ++ be32_enc 0 ++ args.

(** The server name is there and short enough for the size arithmetic. *)
Definition params_ok (params : mount_nfs_params) : Prop :=
  match server params with Some name => zlen name < 2 ^ 30 | None => False end.

Section Exchange.
Context {net : Type} (uninit : Z → Z).
Context (net_wait : net → sockaddr_in → list Z → Z → list (sockaddr_in * list Z) * net).
Context (nochk : bool) (call_timeout call_tries : Z).

(** The bytes the socket hands over of a datagram. *)
Definition received (d : list Z) : list Z := take (Z.to_nat B_UDP_MAX_SIZE) d.

(** A datagram is an answer to [xid] from [addr]. *)
Definition answers (xid : Z) (addr : sockaddr_in) (d : sockaddr_in * list Z) : bool :=
  bool_decide (4 ≤ zlen (received d.2)) &&
  call_matches nochk (s32 (be32_dec (take 4 (received d.2)))) d.1 (mkCall None 0 addr xid None).

Fixpoint first_answer (xid : Z) (addr : sockaddr_in) (l : list (sockaddr_in * list Z))
    : option (list Z) :=
  match l with
  | [] => None
  | d :: l => if answers xid addr d then Some (received d.2) else first_answer xid addr l
  end.

(** Reference: send and wait until an answer comes or the tries are used up;
    the result, the network afterwards, and how often the message was sent. *)
Fixpoint rpc_exchange (tries : nat) (n : net) (addr : sockaddr_in) (msg : list Z) (xid : Z)
    : option (list Z) * net * nat :=
  let timeout := match tries with O => 2 * call_timeout | S _ => call_timeout end in
  let '(arrived, n) := net_wait n addr msg timeout in
  match first_answer xid addr arrived with
  | Some r => (Some r, n, 1%nat)
  | None =>
      match tries with
      | O => (None, n, 1%nat)
      | S tries => let '(r, n, k) := rpc_exchange tries n addr msg xid in (r, n, S k)
      end
  end.

(** No call is outstanding and every lock is free. *)
Definition rpc_quiet (s : rpc net) : Prop :=
  r_oom s = [] ∧ fFirst (r_calls s) = None ∧ r_heap s = ∅ ∧
  sems_ok (r_sems s) (r_next_sem s) (fSem (r_calls s)) (fPools (r_calls s)).

Lemma build_call_spec params xid prog vers proc packet (s : rpc net) :
  r_oom s = [] → params_ok params → out_wf packet → fLength packet < 2 ^ 61 →
  ∃ p, build_call uninit params xid prog vers proc packet s = Ok (p, s) ∧ out_wf p ∧
    out_contents p = rpc_message params xid prog vers proc (out_contents packet).
Proof.
  intros Hs Hp Hwf Hlen. change (alloc_plenty s) in Hs.
  unfold build_call, rpc_message, params_ok in *.
  destruct (server params) as [name|]; [|done]. mrun. cbn [default].
  pose proof (xdr_pad_range (zlen name)). pose proof (xdr_opaque_length name) as Hx.
  rewrite round4_zlen by (unfold XDR_LIMIT; lia). rewrite u64_id by lia.
  match goal with |- context [put_items _ _ ?items] =>
    destruct (put_items_spec uninit items 0 XDROutPacketInit s) as (p & E & Hf & C) end.
  { exact Hs. }
  { split; [apply out_wf_init|simpl; lia]. }
  { repeat constructor; simpl; lia. }
  { unfold items_enc, item_enc; rewrite !bind_cons, !length_app, !be32_enc_length.
    simpl length. unfold XDR_LIMIT. lia. }
  mstep E.
  destruct (XDROutPacketAppend_spec uninit _ p packet s Hs Hf Hwf) as (p' & E' & Hf' & C').
  { unfold items_enc, item_enc; rewrite !bind_cons, !length_app, !be32_enc_length.
    simpl length. unfold XDR_LIMIT. lia. }
  exists p'. split; [exact E'|]. split; [apply Hf'|].
  rewrite C', C, out_contents_init. unfold items_enc, item_enc, rpc_credential.
  rewrite !bind_cons, !app_nil_l. rewrite !length_app, !be32_enc_length.
  rewrite <- !app_assoc. do 7 f_equal.
  unfold id. do 2 f_equal. lia.
Qed.

Lemma peek_contents p : out_wf p → peek (fBuffer p) 0 (fLength p) = Ok (out_contents p).
Proof.
  intros (? & _ & _ & Hb). unfold peek, out_contents. destruct (fBuffer p) as [b|]; simpl in *.
  - by rewrite load_bytes_Ok by lia.
  - rewrite bool_decide_true by lia. by rewrite take_nil.
Qed.

Lemma peek_contents_len p : out_wf p → zlen (out_contents p) = fLength p.
Proof. apply out_contents_length. Qed.

(** A turn of the postoffice when nothing is pending, or when the datagram is
    not an answer to the only pending call, changes nothing. *)
Lemma postoffice_turn_idle sems nsem heap nc first fsem p xid0 (n : net) sent l d :
  sems_ok sems nsem fsem p → chain heap first l →
  (4 ≤ zlen (received d.2) → ∀ b c, b ∈ l → heap !! b = Some c →
     call_matches nochk (s32 (be32_dec (take 4 (received d.2)))) d.1 c = false) →
  postoffice_turn nochk d.1 d.2 (mkRpc [] sems nsem heap nc (mkCalls first fsem p) xid0 n sent)
  = Ok (tt, mkRpc [] sems nsem heap nc (mkCalls first fsem p) xid0 n sent).
Proof.
  intros Hok Hch Hno. unfold postoffice_turn. fold (received d.2).
  case_bool_decide as H4; [|done].
  destruct (find_and_remove_run nochk sems nsem heap nc first fsem p xid0 n [] sent l
    (s32 (be32_dec (take 4 (received d.2)))) d.1 Hok Hch)
    as [(l1 & a & c & l2 & heap' & first' & -> & Ha & Hm & _)|[_ E]].
  - rewrite (Hno H4 a c) in Hm; [done|set_solver|done].
  - by mstep E.
Qed.

(** Taking the only pending call off the list. *)
Lemma find_single sems nsem nc fsem p xid0 (n : net) oom sent a m addr xid buf xid' addr' :
  sems_ok sems nsem fsem p → call_matches nochk xid' addr' (mkCall None m addr xid buf) = true →
  RPCPendingCallsFindAndRemovePendingCall nochk xid' addr'
    (mkRpc oom sems nsem {[a := mkCall None m addr xid buf]} nc (mkCalls (Some a) fsem p) xid0 n sent)
  = Ok (Some a, mkRpc oom sems nsem {[a := mkCall None m addr xid buf]} nc (mkCalls None fsem p)
                  xid0 n sent).
Proof.
  intros Hok Hm.
  assert (chain {[a := mkCall None m addr xid buf]} (Some a) [a]) as Hch.
  { eapply chain_cons; [apply lookup_singleton_eq|constructor]. }
  destruct (find_and_remove_run nochk sems nsem _ nc (Some a) fsem p xid0 n oom sent [a] xid' addr'
    Hok Hch) as [(l1 & a' & c & l2 & heap' & first' & Hl & Ha & _ & _ & E & Hch' & Ha' & Hd)|[Hno _]].
  2:{ by rewrite (Hno a _ (list_elem_of_here _ _) (lookup_singleton_eq _ _)) in Hm. }
  assert (l1 = [] ∧ a' = a ∧ l2 = []) as (-> & -> & ->)
    by (destruct l1 as [|? [|]]; simplify_eq/=; done).
  rewrite lookup_singleton_eq in Ha. injection Ha as <-. cbn [app] in Hch'.
  assert (first' = None) as -> by (inversion Hch'; done).
  assert (heap' = {[a := mkCall None m addr xid buf]}) as ->; [|done].
  apply map_eq. intros b. destruct (decide (b = a)) as [->|Hb].
  - by rewrite Ha', lookup_singleton_eq.
  - specialize (Hd b). rewrite lookup_singleton_ne in Hd |- * by done.
    by destruct (heap' !! b).
Qed.

(** A turn on the answer to the only pending call stores the datagram in the
    call, takes it off the list and releases its semaphore. *)
Lemma postoffice_turn_answer sems nsem nc fsem p xid0 (n : net) sent a m addr xid d :
  sems_ok sems nsem fsem p → sem_in_use sems fsem p m 0 → answers xid addr d = true →
  postoffice_turn nochk d.1 d.2
    (mkRpc [] sems nsem {[a := mkCall None m addr xid None]} nc (mkCalls (Some a) fsem p) xid0 n sent)
  = Ok (tt, mkRpc [] (<[m := 1]> sems) nsem {[a := mkCall None m addr xid (Some (received d.2))]} nc
              (mkCalls None fsem p) xid0 n sent).
Proof.
  intros Hok (Hm & Hm1 & Hm2 & Hm3) Hans.
  apply andb_true_iff in Hans as [H4%bool_decide_eq_true Hans].
  unfold postoffice_turn. fold (received d.2). rewrite bool_decide_true by done.
  mstep (find_single sems nsem nc fsem p xid0 n [] sent a m addr xid None
    (s32 (be32_dec (take 4 (received d.2)))) d.1 Hok Hans).
  erewrite bind_Ok by (by apply malloc_plenty). cbv beta iota delta [negb].
  erewrite bind_Ok by (apply get_call_run, lookup_singleton_eq). mrun.
  erewrite bind_Ok by (eapply put_call_run, lookup_singleton_eq). mrun.
  erewrite bind_Ok by (apply release_sem_run with (c := 0); exact Hm). mrun.
  unfold set_sems, set_heap; cbn. by rewrite insert_singleton_eq.
Qed.

Lemma answers_no_match xid addr m o (b : option (list Z)) d :
  answers xid addr d = false → 4 ≤ zlen (received d.2) →
  call_matches nochk (s32 (be32_dec (take 4 (received d.2)))) d.1 (mkCall o m addr xid b) = false.
Proof.
  unfold answers. intros Ha H4. rewrite bool_decide_true in Ha by done. exact Ha.
Qed.

Lemma turns_nothing_pending sems nsem heap nc fsem p xid0 (n : net) sent arrived :
  sems_ok sems nsem fsem p →
  postoffice_turns nochk arrived (mkRpc [] sems nsem heap nc (mkCalls None fsem p) xid0 n sent)
  = Ok (tt, mkRpc [] sems nsem heap nc (mkCalls None fsem p) xid0 n sent).
Proof.
  intros Hok. induction arrived as [|[from d] l IH]; cbn [postoffice_turns]; [done|].
  erewrite bind_Ok; [exact IH|].
  apply (postoffice_turn_idle sems nsem heap nc None fsem p xid0 n sent [] (from, d));
    [done|constructor|]. by intros ? b c []%elem_of_nil.
Qed.

(** What the postoffice makes of the datagrams that arrive during one wait. *)
Lemma turns_one_pending sems nsem nc fsem p xid0 (n : net) sent a m addr xid arrived :
  sems_ok sems nsem fsem p → sem_in_use sems fsem p m 0 →
  postoffice_turns nochk arrived
    (mkRpc [] sems nsem {[a := mkCall None m addr xid None]} nc (mkCalls (Some a) fsem p) xid0 n sent)
  = match first_answer xid addr arrived with
    | Some r => Ok (tt, mkRpc [] (<[m := 1]> sems) nsem {[a := mkCall None m addr xid (Some r)]} nc
                          (mkCalls None fsem p) xid0 n sent)
    | None => Ok (tt, mkRpc [] sems nsem {[a := mkCall None m addr xid None]} nc
                        (mkCalls (Some a) fsem p) xid0 n sent)
    end.
Proof.
  intros Hok Hu. induction arrived as [|[from d] l IH]; cbn [postoffice_turns first_answer]; [done|].
  destruct (answers xid addr (from, d)) eqn:Ea.
  - mstep (postoffice_turn_answer sems nsem nc fsem p xid0 n sent a m addr xid (from, d) Hok Hu Ea).
    apply turns_nothing_pending. destruct Hu as (Hm & Hm1 & Hm2 & Hm3).
    destruct Hok as [? ? ? ? ? Hz Hf]. split; try done.
    1, 2: by rewrite lookup_insert_ne.
    + intros k Hk. rewrite lookup_insert_ne; [by apply Hz|]. by intros ->.
    + intros k c. rewrite lookup_insert. case_decide; [intros _; subst; eauto|eauto].
  - erewrite bind_Ok; [exact IH|].
    apply (postoffice_turn_idle sems nsem _ nc (Some a) fsem p xid0 n sent [a] (from, d)); [done| |].
    + eapply chain_cons; [apply lookup_singleton_eq|constructor].
    + intros H4 b c Hb Hc. apply list_elem_of_singleton in Hb as ->.
      rewrite lookup_singleton_eq in Hc. simplify_eq. by apply answers_no_match.
Qed.

Lemma acquire_timed_run (s : rpc net) id c :
  r_sems s !! id = Some c →
  acquire_sem_timed id s =
    if decide (0 < c) then Ok (B_OK, set_sems (insert id (c - 1)) s) else Ok (B_TIMED_OUT, s).
Proof.
  intros E. unfold acquire_sem_timed. mrun. rewrite E.
  destruct (Z.gtb_spec c 0), (decide (0 < c)); try lia; by mrun.
Qed.

Lemma send_and_wait_run sems nsem nc fsem p xid0 (n : net) sent a m addr xid msg timeout :
  sems_ok sems nsem fsem p → sem_in_use sems fsem p m 0 →
  send_and_wait net_wait nochk addr msg a timeout
    (mkRpc [] sems nsem {[a := mkCall None m addr xid None]} nc (mkCalls (Some a) fsem p) xid0 n sent)
  = let '(arrived, n') := net_wait n addr msg timeout in
    match first_answer xid addr arrived with
    | Some r => Ok (B_OK, mkRpc [] sems nsem {[a := mkCall None m addr xid (Some r)]} nc
                            (mkCalls None fsem p) xid0 n' ((addr, msg) :: sent))
    | None => Ok (B_TIMED_OUT, mkRpc [] sems nsem {[a := mkCall None m addr xid None]} nc
                                 (mkCalls (Some a) fsem p) xid0 n' ((addr, msg) :: sent))
    end.
Proof.
  intros Hok Hu. unfold send_and_wait. mrun.
  unfold log_sent; cbn [r_net]. destruct (net_wait n addr msg timeout) as [arrived n'].
  mrun. unfold set_net; cbn [r_oom r_sems r_next_sem r_heap r_next_call r_calls r_xid r_sent].
  pose proof (turns_one_pending sems nsem nc fsem p xid0 n' ((addr, msg) :: sent) a m addr xid
    arrived Hok Hu) as Ht.
  destruct (first_answer xid addr arrived) as [r|]; mstep Ht;
    erewrite bind_Ok by (apply get_call_run, lookup_singleton_eq); mrun; cbn [pc_sem].
  - rewrite (acquire_timed_run _ _ 1) by apply lookup_insert_eq.
    rewrite decide_True by lia. unfold set_sems; cbn. rewrite insert_insert_eq.
    rewrite insert_id by apply Hu. done.
  - rewrite (acquire_timed_run _ _ 0) by apply Hu. by rewrite decide_False by lia.
Qed.

Lemma call_loop_run tries : ∀ fuel sems nsem nc fsem p xid0 (n : net) sent a m addr xid msg,
  sems_ok sems nsem fsem p → sem_in_use sems fsem p m 0 →
  (tries < fuel)%nat → Z.of_nat tries < 2 ^ 31 →
  call_loop net_wait nochk call_timeout fuel addr msg a (Z.of_nat tries)
    (mkRpc [] sems nsem {[a := mkCall None m addr xid None]} nc (mkCalls (Some a) fsem p) xid0 n sent)
  = let '(r, n', k) := rpc_exchange tries n addr msg xid in
    let sent' := replicate k (addr, msg) ++ sent in
    match r with
    | Some _ => Ok (B_OK, mkRpc [] sems nsem {[a := mkCall None m addr xid r]} nc
                            (mkCalls None fsem p) xid0 n' sent')
    | None => Ok (B_TIMED_OUT, mkRpc [] sems nsem {[a := mkCall None m addr xid None]} nc
                                 (mkCalls (Some a) fsem p) xid0 n' sent')
    end.
Proof.
  induction tries as [|tries IH]; intros fuel sems nsem nc fsem p xid0 n sent a m addr xid msg
    Hok Hu Hfuel Hlt; (destruct fuel as [|fuel]; [lia|]); cbn [call_loop rpc_exchange].
  - rewrite bool_decide_true by done.
    pose proof (send_and_wait_run sems nsem nc fsem p xid0 n sent a m addr xid msg
      (2 * call_timeout) Hok Hu) as Hw.
    destruct (net_wait n addr msg (2 * call_timeout)) as [arrived n'].
    destruct (first_answer xid addr arrived) as [r|]; mstep Hw;
      rewrite bool_decide_false by (intros [? Hr]; rewrite s32_id in Hr by (unfold is_s32; lia);
        unfold B_OK, B_TIMED_OUT in *; lia); done.
  - rewrite bool_decide_false by lia.
    pose proof (send_and_wait_run sems nsem nc fsem p xid0 n sent a m addr xid msg
      call_timeout Hok Hu) as Hw.
    destruct (net_wait n addr msg call_timeout) as [arrived n'].
    destruct (first_answer xid addr arrived) as [r|]; mstep Hw.
    + rewrite bool_decide_false by (intros [? _]; unfold B_OK, B_TIMED_OUT, B_GENERAL_ERROR_BASE, INT_MIN in *; lia).
      done.
    + rewrite s32_id by (unfold is_s32; lia).
      rewrite bool_decide_true by (split; [done|lia]).
      replace (Z.of_nat (S tries) - 1) with (Z.of_nat tries) by lia.
      rewrite (IH fuel sems nsem nc fsem p xid0 n' _ a m addr xid msg Hok Hu) by lia.
      destruct (rpc_exchange tries n' addr msg xid) as [[[r|] n''] k]; cbn [replicate];
        do 3 f_equal; rewrite replicate_cons_app, <- app_assoc; done.
Qed.

Lemma rpc_exchange_sends tries n addr msg xid :
  (1 ≤ (rpc_exchange tries n addr msg xid).2 ≤ S tries)%nat.
Proof.
  revert n. induction tries as [|tries IH]; intros n; cbn [rpc_exchange];
    destruct (net_wait n addr msg _) as [arrived n'], (first_answer xid addr arrived); cbn; try lia.
  specialize (IH n'). destruct (rpc_exchange tries n' addr msg xid) as [[? ?] ?]. cbn in *. lia.
Qed.

Lemma first_answer_length xid addr l b : first_answer xid addr l = Some b → zlen b ≤ B_UDP_MAX_SIZE.
Proof.
  induction l as [|d l IH]; cbn [first_answer]; [done|]. case_match; [|done].
  intros [= <-]. unfold received. rewrite length_take. unfold B_UDP_MAX_SIZE. lia.
Qed.

Lemma rpc_exchange_length tries n addr msg xid b :
  (rpc_exchange tries n addr msg xid).1.1 = Some b → zlen b ≤ B_UDP_MAX_SIZE.
Proof.
  revert n. induction tries as [|tries IH]; intros n; cbn [rpc_exchange];
    destruct (net_wait n addr msg _) as [arrived n'];
    destruct (first_answer xid addr arrived) as [r|] eqn:E; cbn; try done.
  1, 2: intros [= <-]; by eapply first_answer_length.
  specialize (IH n'). destruct (rpc_exchange tries n' addr msg xid) as [[? ?] ?]. exact IH.
Qed.

(** The call message depends on the contents of the packet only. *)
Lemma send_rpc_call_contents params addr prog vers proc p q (s : rpc net) :
  out_wf p → out_wf q → out_contents p = out_contents q →
  send_rpc_call uninit net_wait nochk call_timeout call_tries params addr prog vers proc p s
  = send_rpc_call uninit net_wait nochk call_timeout call_tries params addr prog vers proc q s.
Proof.
  intros Hp Hq Hc. assert (fLength p = fLength q) as Hl
    by (by rewrite <- !out_contents_length, Hc).
  assert (∀ me, XDROutPacketAppend (S := rpc net) uninit me p = XDROutPacketAppend uninit me q) as Ha.
  { intros me. unfold XDROutPacketAppend. rewrite !peek_contents by done. by rewrite Hc, Hl. }
  assert (∀ xid (s : rpc net), build_call uninit params xid prog vers proc p s
                 = build_call uninit params xid prog vers proc q s) as Hb.
  { intros xid s'. unfold build_call. do 2 (apply bind_ext; [done|]; intros ? ?). by rewrite Ha. }
  unfold send_rpc_call. do 2 (apply bind_ext; [done|]; intros ? ?). by apply bind_ext.
Qed.

Lemma send_rpc_call_run (s : rpc net) params addr prog vers proc packet :
  rpc_quiet s → params_ok params → out_wf packet → fLength packet < 2 ^ 61 → 0 ≤ call_tries < 2 ^ 31 - 1 →
  let msg := rpc_message params (r_xid s) prog vers proc (out_contents packet) in
  let '(r, n', k) := rpc_exchange (Z.to_nat call_tries) (r_net s) addr msg (r_xid s) in
  ∃ s', send_rpc_call uninit net_wait nochk call_timeout call_tries params addr prog vers proc packet s
          = Ok (r, s') ∧
    rpc_quiet s' ∧ r_xid s' = s32 (r_xid s + 1) ∧ r_net s' = n' ∧
    r_sent s' = replicate k (addr, msg) ++ r_sent s ∧ (1 ≤ Z.of_nat k ≤ call_tries + 1).
Proof.
  destruct s as [oom sems nsem heap nc [first fsem p] xid n sent].
  intros (Hoom & Hfirst & Hheap & Hok) Hpar Hwf Hlen Htr. cbv zeta.
  cbn [r_oom r_sems r_next_sem r_heap r_calls r_xid r_net r_sent fFirst fSem fPools] in *.
  subst oom first heap.
  destruct (build_call_spec params xid prog vers proc packet
    (mkRpc [] sems nsem ∅ nc (mkCalls None fsem p) (s32 (xid + 1)) n sent)) as (q & Eq & Hq & Cq);
    [done..|].
  destruct (RPCPendingCallsAddPendingCall_run sems nsem ∅ nc None fsem p (s32 (xid + 1)) n sent []
    xid addr) as (m & sems' & nsem' & p' & Ea & Hok' & Hu & _); [done|constructor|done|].
  rewrite insert_empty in Ea.
  pose proof (call_loop_run (Z.to_nat call_tries) (S (Z.to_nat (call_tries + 1))) sems' nsem'
    (nc + 1) fsem p' (s32 (xid + 1)) n sent nc m addr xid
    (rpc_message params xid prog vers proc (out_contents packet)) Hok' Hu) as Hl.
  rewrite Z2Nat.id in Hl by lia.
  pose proof (rpc_exchange_sends (Z.to_nat call_tries) n addr
    (rpc_message params xid prog vers proc (out_contents packet)) xid) as Hk.
  destruct (rpc_exchange (Z.to_nat call_tries) n addr
    (rpc_message params xid prog vers proc (out_contents packet)) xid) as [[r n'] k]. cbn in Hk.
  destruct (SemaphorePoolPut_spec uninit sems' nsem' ({[nc := mkCall None m addr xid None]})
    (nc + 1) None fsem p' (s32 (xid + 1)) n' (replicate k (addr, rpc_message params xid prog vers proc
      (out_contents packet)) ++ sent) m Hok' Hu) as (p'' & Ep & Hok'' & _).
  unfold send_rpc_call. rewrite (s32_id call_tries) by (unfold is_s32; lia). mrun.
  cbn [r_xid]. unfold set_xid; cbn [r_oom r_sems r_next_sem r_heap r_next_call r_calls r_net r_sent].
  mstep Eq. mstep Ea. unfold XDROutPacketBuffer, XDROutPacketLength.
  rewrite peek_contents by done. mrun. rewrite Cq.
  destruct r as [r|]; cbv iota in Hl; (erewrite bind_Ok by (apply Hl; lia)); mrun.
  - rewrite bool_decide_true by done.
    erewrite bind_Ok by (apply get_call_run, lookup_singleton_eq). mrun.
    erewrite bind_Ok by (eapply put_call_run, lookup_singleton_eq). mrun.
    unfold set_heap; cbn. rewrite insert_singleton_eq. mstep Ep.
    erewrite bind_Ok by (eapply free_call_run, lookup_singleton_eq). mrun.
    eexists. split; [reflexivity|]. split; [|split; [reflexivity|split; [reflexivity|split; [reflexivity|lia]]]].
    unfold rpc_quiet, set_heap; cbn [r_oom r_heap r_calls r_sems r_next_sem fFirst fSem fPools].
    rewrite delete_singleton_eq. auto.
  - rewrite bool_decide_false by (unfold B_TIMED_OUT, B_GENERAL_ERROR_BASE, INT_MIN; lia).
    erewrite bind_Ok by (apply find_single; [done|by unfold call_matches; cbn; rewrite !Z.eqb_refl]).
    mrun. erewrite bind_Ok by (apply get_call_run, lookup_singleton_eq). mrun.
    mstep Ep. erewrite bind_Ok by (eapply free_call_run, lookup_singleton_eq). mrun.
    eexists. split; [reflexivity|]. split; [|split; [reflexivity|split; [reflexivity|split; [reflexivity|lia]]]].
    unfold rpc_quiet, set_heap; cbn [r_oom r_heap r_calls r_sems r_next_sem fFirst fSem fPools].
    rewrite delete_singleton_eq. auto.
Qed.

(** C6. A remote call is reliable on every network.  From a state with no
    call outstanding, [send_rpc_call] always returns: it sends the RFC 1057
    call message between once and [conf_call_tries + 1] times, answers the
    first datagram that carries the call's xid and comes from the called
    address (or NULL when the tries are used up), whatever else arrives, and
    leaves no pending call, no held lock and no semaphore out of the pool
    with a count other than 0; the xid advances by one. *)
Theorem send_rpc_call_correct (s : rpc net) params addr prog vers proc packet :
  rpc_quiet s → params_ok params → out_wf packet → fLength packet < 2 ^ 61 → 0 ≤ call_tries < 2 ^ 31 - 1 →
  let msg := rpc_message params (r_xid s) prog vers proc (out_contents packet) in
  let '(r, n', k) := rpc_exchange (Z.to_nat call_tries) (r_net s) addr msg (r_xid s) in
  ∃ s', send_rpc_call uninit net_wait nochk call_timeout call_tries params addr prog vers proc packet s
          = Ok (r, s') ∧
    rpc_quiet s' ∧ r_xid s' = s32 (r_xid s + 1) ∧ r_net s' = n' ∧
    r_sent s' = replicate k (addr, msg) ++ r_sent s ∧ (1 ≤ Z.of_nat k ≤ call_tries + 1).
Proof. apply send_rpc_call_run. Qed.
End Exchange.

(** * A transport just set up *)

Definition blank_rpc {net} (n : net) : rpc net :=
  mkRpc [] ∅ 0 ∅ 0 (mkCalls None 0 (mkPool None 0 0 0)) 0 n [].

Definition fresh_rpc {net} (n : net) : rpc net :=
  mkRpc [] (<[1 := 1]> {[0 := 1]}) 2 ∅ 0 (mkCalls None 1 (mkPool None 0 0 0)) 0 n [].

(** [RPCPendingCallsInit] sets up a transport with no call outstanding. *)
Lemma RPCPendingCallsInit_quiet {net} (n : net) :
  RPCPendingCallsInit (blank_rpc n) = Ok (tt, fresh_rpc n) ∧ rpc_quiet (fresh_rpc n).
Proof.
  split; [reflexivity|]. split_and!; try done. split; try done.
  - constructor.
  - intros m []%elem_of_nil.
  - intros m c. cbn. rewrite lookup_insert. case_decide; [lia|].
    intros [<- _]%lookup_singleton_Some. lia.
Qed.

(** On a network that echoes the message, the answer is the message. *)
Lemma send_rpc_call_correct_witness :
  let addr := mkAddr 1 2049 127 in
  let params := mkParams 127 (Some [104]) (Some [47]) 10 20 (Some [104]) in
  let msg := rpc_message params 0 100003 2 0 [] in
  ∃ s', send_rpc_call (λ _, 0) (λ (n : unit) a m _, ([(a, m)], n)) false 1000 3 params addr
          100003 2 0 XDROutPacketInit (fresh_rpc tt) = Ok (Some msg, s') ∧ rpc_quiet s' ∧
    r_sent s' = [(addr, msg)].
Proof.
  intros addr params msg.
  destruct (send_rpc_call_correct (λ _, 0) (λ (n : unit) a m _, ([(a, m)], n)) false 1000 3
    (fresh_rpc tt) params addr 100003 2 0 XDROutPacketInit) as (s' & E & Hq & _ & _ & Hs & _).
  - apply RPCPendingCallsInit_quiet.
  - by vm_compute.
  - apply out_wf_init.
  - by vm_compute.
  - lia.
  - exists s'. split; [exact E|]. split; [exact Hq|exact Hs].
Defined.
