(* ===== verification/NfsProto.v ===== *)
(** Protocol layer of the NFS client (src/add-ons/kernel/file_systems/nfs/
    nfs_add_on.c): reply checking, attribute decoding, error mapping, and the
    remote procedures the file system hooks are built from.

    What the client needs from its transport is the class [Transport]; the
    instance for the datagram transport of [RpcCalls] is at the end of the
    file [NfsStack]. *)

From S2P Require Import Prelude Errors Xdr LinkedList RpcCalls.

(** * Constants (rpc.h, pmap.h, mount.h, nfs.h, nfs_add_on.h) *)

Definition RPC_MSG_DENIED : Z := 1.
Definition RPC_SUCCESS : Z := 0.
Definition RPC_PROG_MISMATCH : Z := 2.
Definition RPC_RPC_MISMATCH : Z := 0.

Definition PMAP_PORT : Z := 111.
Definition PMAP_VERSION : Z := 2.
Definition PMAP_PROGRAM : Z := 100000.
Definition PMAP_IPPROTO_UDP : Z := 17.
Definition PMAPPROC_GETPORT : Z := 3.

Definition MOUNT_VERSION : Z := 1.
Definition MOUNT_PROGRAM : Z := 100005.
Definition MOUNTPROC_MNT : Z := 1.

Definition NFS_VERSION : Z := 2.
Definition NFS_PROGRAM : Z := 100003.
Definition NFS_MAXDATA : Z := 1024.
Definition NFS_MAXPATHLEN : Z := 1024.
Definition NFS_COOKIESIZE : Z := 4.
Definition NFS_FHSIZE : Z := 32.

Definition NFSPROC_GETATTR : Z := 1.
Definition NFSPROC_SETATTR : Z := 2.
Definition NFSPROC_LOOKUP : Z := 4.
Definition NFSPROC_READLINK : Z := 5.
Definition NFSPROC_READ : Z := 6.
Definition NFSPROC_WRITE : Z := 8.
Definition NFSPROC_CREATE : Z := 9.
Definition NFSPROC_REMOVE : Z := 10.
Definition NFSPROC_RENAME : Z := 11.
Definition NFSPROC_SYMLINK : Z := 13.
Definition NFSPROC_MKDIR : Z := 14.
Definition NFSPROC_RMDIR : Z := 15.
Definition NFSPROC_READDIR : Z := 16.
Definition NFSPROC_STATFS : Z := 17.

Definition NFS_OK : Z := 0.
Definition NFSERR_PERM : Z := 1.
Definition NFSERR_NOENT : Z := 2.
Definition NFSERR_IO : Z := 5.
Definition NFSERR_NXIO : Z := 6.
Definition NFSERR_ACCES : Z := 13.
Definition NFSERR_EXIST : Z := 17.
Definition NFSERR_NODEV : Z := 19.
Definition NFSERR_NOTDIR : Z := 20.
Definition NFSERR_ISDIR : Z := 21.
Definition NFSERR_FBIG : Z := 27.
Definition NFSERR_NOSPC : Z := 28.
Definition NFSERR_ROFS : Z := 30.
Definition NFSERR_NAMETOOLONG : Z := 63.
Definition NFSERR_NOTEMPTY : Z := 66.
Definition NFSERR_STALE : Z := 70.
Definition NFSERR_DQUOT : Z := 69.
Definition NFSERR_WFLUSH : Z := 99.
Definition C_ERROR_STALE : Z := B_ERRORS_END + 1.

(** The error a caller gets for the status word of a reply. *)
Definition map_nfs_to_system_error (nfsstatus : Z) : Z :=
  if nfsstatus =? NFS_OK then B_OK
  else if nfsstatus =? NFSERR_PERM then EPERM
  else if nfsstatus =? NFSERR_NOENT then ENOENT
  else if nfsstatus =? NFSERR_IO then EIO
  else if nfsstatus =? NFSERR_NXIO then ENXIO
  else if nfsstatus =? NFSERR_ACCES then EACCES
  else if nfsstatus =? NFSERR_EXIST then EEXIST
  else if nfsstatus =? NFSERR_NODEV then ENODEV
  else if nfsstatus =? NFSERR_NOTDIR then ENOTDIR
  else if nfsstatus =? NFSERR_ISDIR then EISDIR
  else if nfsstatus =? NFSERR_FBIG then EFBIG
  else if nfsstatus =? NFSERR_NOSPC then ENOSPC
  else if nfsstatus =? NFSERR_ROFS then EROFS
  else if nfsstatus =? NFSERR_NAMETOOLONG then ENAMETOOLONG
  else if nfsstatus =? NFSERR_NOTEMPTY then ENOTEMPTY
  else if nfsstatus =? NFSERR_STALE then C_ERROR_STALE
  else B_ERROR.

(** * Data *)

(** [nfs_fhandle]: its [NFS_FHSIZE] opaque bytes. *)
Definition nfs_fhandle : Type := list Z.

Record fs_node : Type := mkNode {
  n_mode : Z;
  n_vnid : Z;
  n_fhandle : nfs_fhandle;
  n_next : option Z
}.

#[global] Program Instance fs_node_list : LNode fs_node := {|
  nxt := n_next;
  set_nxt := λ o n, mkNode (n_mode n) (n_vnid n) (n_fhandle n) o
|}.
Next Obligation. done. Qed.

(** A mounted volume.  [ns_world] is everything outside it: the transport with
    the server behind it, the VFS and the clock; [ns_sem] is the count of the
    semaphore [sem]; the [fs_node]s live in the heap [ns_nodes]. *)
Record fs_nspace (W : Type) : Type := mkNs {
  ns_world : W;
  nsid : Z;
  mountAddr : sockaddr_in;
  nfsAddr : sockaddr_in;
  rootid : Z;
  ns_sem : Z;
  ns_first : option Z;
  ns_nodes : gmap Z fs_node;
  ns_next_node : Z;
  ns_params : mount_nfs_params
}.
Arguments mkNs {W}. Arguments ns_world {W}. Arguments nsid {W}. Arguments mountAddr {W}.
Arguments nfsAddr {W}. Arguments rootid {W}. Arguments ns_sem {W}. Arguments ns_first {W}.
Arguments ns_nodes {W}. Arguments ns_next_node {W}. Arguments ns_params {W}.

(** The transport of the client: one call and its answer ([None] is NULL).  It
    promises that a call made in a quiet state returns to a quiet state. *)
Class Transport (W : Type) := {
  tr_alloc :: Allocator W;
  rpc_send : mount_nfs_params → sockaddr_in → Z → Z → Z → XDROutPacket → M W (option (list Z));
  tr_quiet : W → Prop;
  tr_quiet_plenty w : tr_quiet w → alloc_plenty w;
  rpc_send_returns params addr prog vers proc packet w :
    tr_quiet w → params_ok params → out_wf packet → fLength packet < 2 ^ 61 →
    ∃ r w', rpc_send params addr prog vers proc packet w = Ok (r, w') ∧ tr_quiet w' ∧
      (∀ b, r = Some b → zlen b ≤ B_UDP_MAX_SIZE)
}.

Section Setters.
Context {W : Type}.
Implicit Types ns : fs_nspace W.

Definition set_world (w : W) ns : fs_nspace W :=
  mkNs w (nsid ns) (mountAddr ns) (nfsAddr ns) (rootid ns) (ns_sem ns) (ns_first ns)
    (ns_nodes ns) (ns_next_node ns) (ns_params ns).
Definition set_nsid (i : Z) ns : fs_nspace W :=
  mkNs (ns_world ns) i (mountAddr ns) (nfsAddr ns) (rootid ns) (ns_sem ns) (ns_first ns)
    (ns_nodes ns) (ns_next_node ns) (ns_params ns).
Definition set_mountAddr (a : sockaddr_in) ns : fs_nspace W :=
  mkNs (ns_world ns) (nsid ns) a (nfsAddr ns) (rootid ns) (ns_sem ns) (ns_first ns)
    (ns_nodes ns) (ns_next_node ns) (ns_params ns).
Definition set_nfsAddr (a : sockaddr_in) ns : fs_nspace W :=
  mkNs (ns_world ns) (nsid ns) (mountAddr ns) a (rootid ns) (ns_sem ns) (ns_first ns)
    (ns_nodes ns) (ns_next_node ns) (ns_params ns).
Definition set_rootid (i : Z) ns : fs_nspace W :=
  mkNs (ns_world ns) (nsid ns) (mountAddr ns) (nfsAddr ns) i (ns_sem ns) (ns_first ns)
    (ns_nodes ns) (ns_next_node ns) (ns_params ns).
Definition set_ns_sem (c : Z) ns : fs_nspace W :=
  mkNs (ns_world ns) (nsid ns) (mountAddr ns) (nfsAddr ns) (rootid ns) c (ns_first ns)
    (ns_nodes ns) (ns_next_node ns) (ns_params ns).
Definition set_ns_first (o : option Z) ns : fs_nspace W :=
  mkNs (ns_world ns) (nsid ns) (mountAddr ns) (nfsAddr ns) (rootid ns) (ns_sem ns) o
    (ns_nodes ns) (ns_next_node ns) (ns_params ns).
Definition set_nodes (f : gmap Z fs_node → gmap Z fs_node) ns : fs_nspace W :=
  mkNs (ns_world ns) (nsid ns) (mountAddr ns) (nfsAddr ns) (rootid ns) (ns_sem ns)
    (ns_first ns) (f (ns_nodes ns)) (ns_next_node ns) (ns_params ns).
Definition set_next_node (i : Z) ns : fs_nspace W :=
  mkNs (ns_world ns) (nsid ns) (mountAddr ns) (nfsAddr ns) (rootid ns) (ns_sem ns)
    (ns_first ns) (ns_nodes ns) i (ns_params ns).
Definition set_params (p : mount_nfs_params) ns : fs_nspace W :=
  mkNs (ns_world ns) (nsid ns) (mountAddr ns) (nfsAddr ns) (rootid ns) (ns_sem ns)
    (ns_first ns) (ns_nodes ns) (ns_next_node ns) p.

(** An operation of the outside world. *)
Definition outside {A} (m : M W A) : M (fs_nspace W) A := λ ns,
  match m (ns_world ns) with
  | Ok (a, w) => Ok (a, set_world w ns)
  | Bad f => Bad f
  | Hang => Hang
  end.
End Setters.

#[global] Program Instance ns_allocator {W} `{Allocator W} : Allocator (fs_nspace W) := {|
  alloc_next := λ ns, let '(b, w) := alloc_next (ns_world ns) in (b, set_world w ns);
  alloc_plenty := λ ns, alloc_plenty (ns_world ns)
|}.
Next Obligation.
  intros W HA [w ? ? ? ? ? ? ? ? ?]; simpl. intros Hp. by rewrite alloc_next_plenty.
Qed.

(** * Functions that return a status

    [inr a] is a return of [B_OK] with results [a], [inl e] a return of the
    error [e]. *)

Definition try_bind {S A B E} (m : M S (E + A)) (k : A → M S (E + B)) : M S (E + B) :=
  r ← m; match r with inl e => mret (inl e) | inr a => k a end.

Declare Scope status_scope.
Delimit Scope status_scope with status.
Notation "x ←? m ; k" := (try_bind m (λ x, k))
  (at level 20, m at level 100, k at level 200, right associativity) : status_scope.
Notation "' pat ←? m ; k" := (try_bind m (λ x, match x with pat => k end))
  (at level 20, pat pattern, m at level 100, k at level 200, right associativity) : status_scope.
#[global] Open Scope status_scope.

Definition ok {S E A} (a : A) : M S (E + A) := mret (inr a).
Definition err {S E A} (e : E) : M S (E + A) := mret (inl e).

(** [if ((result = f(...)) < B_OK) return result;] *)
Definition check_status {S} (m : M S Z) : M S (Z + unit) :=
  r ← m; if r <? B_OK then err r else ok tt.

(** [return f(...);] *)
Definition return_status {S A} (m : M S Z) (a : A) : M S (Z + A) :=
  r ← m; if r =? B_OK then ok a else err r.

(** * Replies *)

(** [is_successful_reply]: walks the reply header; [body] has 400 bytes. *)
Definition is_successful_reply (reply : XDRInPacket) : outcome (bool * XDRInPacket) :=
  '(_, reply) ← XDRInPacketGetInt32 reply;
  '(_, reply) ← XDRInPacketGetInt32 reply;
  '(replyStat, reply) ← XDRInPacketGetInt32 reply;
  if replyStat =? RPC_MSG_DENIED then
    '(rejectStat, reply) ← XDRInPacketGetInt32 reply;
    if rejectStat =? RPC_RPC_MISMATCH then
      '(_, reply) ← XDRInPacketGetInt32 reply;
      '(_, reply) ← XDRInPacketGetInt32 reply;
      Ok (false, reply)
    else
      '(_, reply) ← XDRInPacketGetInt32 reply;
      Ok (false, reply)
  else
    '(_, reply) ← XDRInPacketGetInt32 reply;
    '(_, _, _, reply) ← XDRInPacketGetDynamic reply (KernelBuf 400);
    '(acceptStat, reply) ← XDRInPacketGetInt32 reply;
    if acceptStat =? RPC_PROG_MISMATCH then
      '(_, reply) ← XDRInPacketGetInt32 reply;
      '(_, reply) ← XDRInPacketGetInt32 reply;
      Ok (false, reply)
    else if acceptStat =? RPC_SUCCESS then Ok (true, reply)
    else Ok (false, reply).

(** [get_nfs_attr], with the conversions to the fields' types. *)
Definition get_nfs_attr (reply : XDRInPacket) : outcome (stat * XDRInPacket) :=
  '(_, reply) ← XDRInPacketGetInt32 reply;                (* ftype *)
  '(mode, reply) ← XDRInPacketGetInt32 reply;
  '(nlink, reply) ← XDRInPacketGetInt32 reply;
  '(uid, reply) ← XDRInPacketGetInt32 reply;
  '(gid, reply) ← XDRInPacketGetInt32 reply;
  '(size, reply) ← XDRInPacketGetInt32 reply;
  '(blksize, reply) ← XDRInPacketGetInt32 reply;
  '(rdev, reply) ← XDRInPacketGetInt32 reply;
  '(blocks, reply) ← XDRInPacketGetInt32 reply;
  '(_, reply) ← XDRInPacketGetInt32 reply;                (* fsid *)
  '(ino, reply) ← XDRInPacketGetInt32 reply;
  '(atime, reply) ← XDRInPacketGetInt32 reply;
  '(_, reply) ← XDRInPacketGetInt32 reply;                (* usecs *)
  '(mtime, reply) ← XDRInPacketGetInt32 reply;
  '(_, reply) ← XDRInPacketGetInt32 reply;                (* usecs *)
  '(ctime, reply) ← XDRInPacketGetInt32 reply;
  '(_, reply) ← XDRInPacketGetInt32 reply;                (* usecs *)
  Ok (mkStat 0 ino (u32 mode) nlink (u32 uid) (u32 gid) size rdev blksize
        atime mtime ctime mtime blocks, reply).

(** * Remote procedures *)

Section Procs.
Context {W : Type} `{Transport W} (uninit : Z → Z).
Abbreviation MN := (M (fs_nspace W)).

(** The statements every remote procedure starts with: build the call, send
    it, set the reply up and check its header.  [noreply] is what the caller
    returns when no answer came. *)
Definition call_server (noreply prog vers proc : Z) (addr : fs_nspace W → sockaddr_in)
    (call : XDROutPacket) : MN (Z + XDRInPacket) :=
  ns ← getS;
  replyBuf ← outside (rpc_send (ns_params ns) (addr ns) prog vers proc call);
  match replyBuf with
  | None => err noreply
  | Some b =>
      '(success, reply) ← liftO (is_successful_reply (XDRInPacketSetTo XDRInPacketInit b 0));
      if success : bool then ok reply else err B_ERROR
  end.

(** [status = XDRInPacketGetInt32(&reply); if (status != NFS_OK) return
    map_nfs_to_system_error(status);] *)
Definition check_nfs_status (reply : XDRInPacket) : MN (Z + XDRInPacket) :=
  '(status, reply) ← liftO (XDRInPacketGetInt32 reply);
  if status =? NFS_OK then ok reply else err (map_nfs_to_system_error status).

(** A call of an NFS procedure on the volume's server, up to its results. *)
Definition nfs_call (noreply proc : Z) (items : list xdr_item) : MN (Z + XDRInPacket) :=
  call ← put_items uninit XDROutPacketInit items;
  reply ←? call_server noreply NFS_PROGRAM NFS_VERSION proc nfsAddr call;
  check_nfs_status reply.

(** [XDRInPacketGetFixed(&reply, fhandle.opaque, NFS_FHSIZE)] and the test of its status. *)
Definition get_fhandle (reply : XDRInPacket) : MN (Z + (nfs_fhandle * XDRInPacket)) :=
  '(status, fh, reply) ← liftO (XDRInPacketGetFixed reply (KernelBuf NFS_FHSIZE) NFS_FHSIZE);
  if status =? NFS_OK then ok (fh, reply) else err (map_nfs_to_system_error status).

Definition htons (x : Z) : Z := Z.lor (Z.shiftl (Z.land x 0xff) 8) (Z.land (Z.shiftr x 8) 0xff).
Definition set_port (port : Z) (a : sockaddr_in) : sockaddr_in :=
  mkAddr (sin_family a) port (s_addr a).

(** [get_remote_address(ns, prog, vers, prot, &ns->addr)]: [get_addr] and
    [set_addr] are the address field it works on. *)
Definition get_remote_address (prog vers prot : Z)
    (get_addr : fs_nspace W → sockaddr_in) (set_addr : sockaddr_in → fs_nspace W → fs_nspace W)
    : MN (Z + unit) :=
  modifyS (λ ns, set_addr (set_port (htons PMAP_PORT) (get_addr ns)) ns);;
  call ← put_items uninit XDROutPacketInit [XInt prog; XInt vers; XInt prot; XInt 0];
  ns ← getS;
  replyBuf ← outside (rpc_send (ns_params ns) (get_addr ns) PMAP_PROGRAM PMAP_VERSION
                        PMAPPROC_GETPORT call);
  match replyBuf with
  | None => err EHOSTUNREACH
  | Some b =>
      '(success, reply) ← liftO (is_successful_reply (XDRInPacketSetTo XDRInPacketInit b 0));
      if success : bool then
        '(port, _) ← liftO (XDRInPacketGetInt32 reply);
        modifyS (λ ns, set_addr (set_port (htons (u16 port)) (get_addr ns)) ns);;
        ok tt
      else err EHOSTUNREACH
  end.

(** [nfs_mount]: asks mountd for the handle of the exported directory. *)
Definition nfs_mount (path : list Z) : MN (Z + nfs_fhandle) :=
  call ← put_items uninit XDROutPacketInit [XString path];
  reply ←? call_server EHOSTUNREACH MOUNT_PROGRAM MOUNT_VERSION MOUNTPROC_MNT mountAddr call;
  reply ←? check_nfs_status reply;
  '(fh, _) ←? get_fhandle reply;
  ok fh.

Definition nfs_lookup (dir : nfs_fhandle) (filename : list Z) : MN (Z + (nfs_fhandle * stat)) :=
  reply ←? nfs_call EHOSTUNREACH NFSPROC_LOOKUP [XFixed dir; XString filename];
  '(fh, reply) ←? get_fhandle reply;
  '(st, _) ← liftO (get_nfs_attr reply);
  ok (fh, st).

Definition nfs_getattr (fhandle : nfs_fhandle) : MN (Z + stat) :=
  reply ←? nfs_call EHOSTUNREACH NFSPROC_GETATTR [XFixed fhandle];
  '(st, _) ← liftO (get_nfs_attr reply);
  ok st.

(** [time] is the clock; [st] is only written when the caller passes it. *)
Definition nfs_truncate_file (time : M W Z) (fhandle : nfs_fhandle) (want_st : bool)
    : MN (Z + option stat) :=
  t1 ← outside time;
  t2 ← outside time;
  reply ←? nfs_call EHOSTUNREACH NFSPROC_SETATTR
             [XFixed fhandle; XInt (-1); XInt (-1); XInt (-1); XInt 0;
              XInt t1; XInt 0; XInt t2; XInt 0];
  if want_st then '(st, _) ← liftO (get_nfs_attr reply); ok (Some st) else ok None.
End Procs.

(** * What the protocol layer promises *)

(** Reply messages of RFC 1057. *)
Inductive rpc_reply : Type :=
  | Accepted (flavor : Z) (verf : list Z) (results : list Z)
  | AcceptedError (flavor : Z) (verf : list Z) (accept_stat : Z)
  | ProgMismatch (flavor : Z) (verf : list Z) (low high : Z)
  | RpcMismatch (low high : Z)
  | AuthError (why : Z).

Definition accepted_enc (xid flavor : Z) (verf : list Z) (accept_stat : Z) (rest : list Z)
    : list Z :=
  be32_enc xid ++ be32_enc 1 ++ be32_enc 0 ++ be32_enc flavor ++
  be32_enc (zlen verf) ++ xdr_opaque verf ++ be32_enc accept_stat ++ rest.

Definition reply_enc (xid : Z) (r : rpc_reply) : list Z :=
  match r with
  | Accepted fl v res => accepted_enc xid fl v 0 res
  | AcceptedError fl v e => accepted_enc xid fl v e []
  | ProgMismatch fl v low high => accepted_enc xid fl v 2 (be32_enc low ++ be32_enc high)
  | RpcMismatch low high =>
      be32_enc xid ++ be32_enc 1 ++ be32_enc 1 ++ be32_enc 0 ++ be32_enc low ++ be32_enc high
  | AuthError why => be32_enc xid ++ be32_enc 1 ++ be32_enc 1 ++ be32_enc 1 ++ be32_enc why
  end.

(** RFC 1057 limits the verifier body to 400 bytes. *)
Definition reply_ok (r : rpc_reply) : Prop :=
  match r with
  | Accepted _ v _ | ProgMismatch _ v _ _ => zlen v ≤ 400
  | AcceptedError _ v e => zlen v ≤ 400 ∧ is_s32 e ∧ e ≠ 0 ∧ e ≠ 2
  | _ => True
  end.

(** Steps a reader through the next [n] integers of the reply. *)
Ltac read_int Hat p' Hat' :=
  let E := fresh "E" in
  destruct (XDRInPacketGetInt32_spec _ _ _ _ Hat) as (p' & E & Hat');
  rewrite E; cbn [mbind outcome_bind]; clear E.

Section Replies.
(** The part of an accepted reply before the accept status. *)
Lemma is_successful_reply_accepted b p xid fl v stat rest :
  in_at b p (accepted_enc xid fl v stat rest) → zlen v ≤ 400 →
  ∃ p', in_at b p' rest ∧
    is_successful_reply p =
      if s32 stat =? RPC_PROG_MISMATCH then
        '(_, reply) ← XDRInPacketGetInt32 p';
        '(_, reply) ← XDRInPacketGetInt32 reply;
        Ok (false, reply)
      else if s32 stat =? RPC_SUCCESS then Ok (true, p')
      else Ok (false, p').
Proof.
  intros Hat Hv. unfold accepted_enc in Hat. unfold is_successful_reply.
  read_int Hat p1 H1. read_int H1 p2 H2. read_int H2 p3 H3.
  change (s32 0 =? RPC_MSG_DENIED) with false. cbv iota.
  read_int H3 p4 H4.
  destruct (XDRInPacketGetDynamic_spec b p4 (KernelBuf 400) v _ H4) as (p5 & E5 & H5);
    [done|lia|].
  rewrite E5. cbn [mbind outcome_bind].
  read_int H5 p6 H6. exists p6. by split.
Qed.

Lemma is_successful_reply_spec b p xid r :
  in_at b p (reply_enc xid r) → reply_ok r →
  ∃ p', is_successful_reply p =
          Ok (match r with Accepted _ _ _ => true | _ => false end, p') ∧
    match r with Accepted _ _ res => in_at b p' res | _ => True end.
Proof.
  intros Hat Hok. destruct r as [fl v res|fl v e|fl v low high|low high|why]; simpl in Hat, Hok.
  - destruct (is_successful_reply_accepted _ _ _ _ _ _ _ Hat Hok) as (p' & H' & E).
    exists p'. rewrite E. done.
  - destruct Hok as (Hv & He & He0 & He2).
    destruct (is_successful_reply_accepted _ _ _ _ _ _ _ Hat Hv) as (p' & H' & E).
    exists p'. split; [|done]. rewrite E, s32_id by done. unfold RPC_PROG_MISMATCH, RPC_SUCCESS.
    by rewrite (proj2 (Z.eqb_neq e 2)), (proj2 (Z.eqb_neq e 0)).
  - destruct (is_successful_reply_accepted _ _ _ _ _ _ _ Hat Hok) as (p' & H' & E).
    change (s32 2 =? RPC_PROG_MISMATCH) with true in E. cbv iota in E. rewrite E.
    read_int H' p1 H1. rewrite <- (app_nil_r (be32_enc high)) in H1. read_int H1 p2 H2. eauto.
  - unfold is_successful_reply. read_int Hat p1 H1. read_int H1 p2 H2. read_int H2 p3 H3.
    change (s32 1 =? RPC_MSG_DENIED) with true. cbv iota. read_int H3 p4 H4.
    change (s32 0 =? RPC_RPC_MISMATCH) with true. cbv iota. read_int H4 p5 H5.
    rewrite <- (app_nil_r (be32_enc high)) in H5. read_int H5 p6 H6. eauto.
  - unfold is_successful_reply. read_int Hat p1 H1. read_int H1 p2 H2. read_int H2 p3 H3.
    change (s32 1 =? RPC_MSG_DENIED) with true. cbv iota. read_int H3 p4 H4.
    change (s32 1 =? RPC_RPC_MISMATCH) with false. cbv iota.
    rewrite <- (app_nil_r (be32_enc why)) in H4. read_int H4 p5 H5. eauto.
Qed.
End Replies.

(** The attributes of RFC 1094, as the server has them. *)
Record fattr : Type := mkFattr {
  fa_type : Z; fa_mode : Z; fa_nlink : Z; fa_uid : Z; fa_gid : Z; fa_size : Z;
  fa_blocksize : Z; fa_rdev : Z; fa_blocks : Z; fa_fsid : Z; fa_fileid : Z;
  fa_atime : Z * Z; fa_mtime : Z * Z; fa_ctime : Z * Z
}.

Definition fattr_enc (a : fattr) : list Z :=
  be32_enc (fa_type a) ++ be32_enc (fa_mode a) ++ be32_enc (fa_nlink a) ++
  be32_enc (fa_uid a) ++ be32_enc (fa_gid a) ++ be32_enc (fa_size a) ++
  be32_enc (fa_blocksize a) ++ be32_enc (fa_rdev a) ++ be32_enc (fa_blocks a) ++
  be32_enc (fa_fsid a) ++ be32_enc (fa_fileid a) ++
  be32_enc (fa_atime a).1 ++ be32_enc (fa_atime a).2 ++
  be32_enc (fa_mtime a).1 ++ be32_enc (fa_mtime a).2 ++
  be32_enc (fa_ctime a).1 ++ be32_enc (fa_ctime a).2.

(** The [struct stat] a caller gets for them. *)
Definition stat_of_fattr (a : fattr) : stat :=
  mkStat 0 (s32 (fa_fileid a)) (u32 (fa_mode a)) (s32 (fa_nlink a)) (u32 (fa_uid a))
    (u32 (fa_gid a)) (s32 (fa_size a)) (s32 (fa_rdev a)) (s32 (fa_blocksize a))
    (s32 (fa_atime a).1) (s32 (fa_mtime a).1) (s32 (fa_ctime a).1) (s32 (fa_mtime a).1)
    (s32 (fa_blocks a)).

Lemma fattr_enc_length a : length (fattr_enc a) = 68%nat.
Proof. done. Qed.

Lemma get_nfs_attr_spec b p a rest :
  in_at b p (fattr_enc a ++ rest) →
  ∃ p', get_nfs_attr p = Ok (stat_of_fattr a, p') ∧ in_at b p' rest.
Proof.
  intros Hat. unfold fattr_enc in Hat. rewrite <- !app_assoc in Hat.
  unfold get_nfs_attr, stat_of_fattr.
  do 17 (let p' := fresh "p" in let H' := fresh "H" in read_int Hat p' H';
         clear Hat; rename H' into Hat).
  eexists. split; [|exact Hat]. rewrite !u32_s32. done.
Qed.

(** * Calls and their answers *)

(** What can come of a call whose results have type [R]. *)
Inductive answer (R : Type) : Type :=
  | Unreachable
  | Refused (xid : Z) (r : rpc_reply)
  | Failed (xid flavor : Z) (verf : list Z) (status : Z)
  | Done (xid flavor : Z) (verf : list Z) (res : R).
Arguments Unreachable {R}. Arguments Refused {R}. Arguments Failed {R}. Arguments Done {R}.

Definition answer_wire {R} (enc : R → list Z) (a : answer R) : option (list Z) :=
  match a with
  | Unreachable => None
  | Refused xid r => Some (reply_enc xid r)
  | Failed xid fl v status => Some (reply_enc xid (Accepted fl v (be32_enc status)))
  | Done xid fl v res => Some (reply_enc xid (Accepted fl v (be32_enc NFS_OK ++ enc res)))
  end.

(** The answer is one the protocol allows, and fits an address space. *)
Definition answer_ok {R} (enc : R → list Z) (a : answer R) : Prop :=
  (∀ b, answer_wire enc a = Some b → zlen b < XDR_LIMIT) ∧
  match a with
  | Unreachable => True
  | Refused _ r => reply_ok r ∧ match r with Accepted _ _ _ => False | _ => True end
  | Failed _ _ v status => zlen v ≤ 400 ∧ is_s32 status ∧ status ≠ NFS_OK
  | Done _ _ v _ => zlen v ≤ 400
  end.

(** The status, or the results, a caller makes of an answer. *)
Definition result_of {R A} (noreply : Z) (f : R → A) (a : answer R) : Z + A :=
  match a with
  | Unreachable => inl noreply
  | Refused _ _ => inl B_ERROR
  | Failed _ _ _ status => inl (map_nfs_to_system_error status)
  | Done _ _ _ res => inr (f res)
  end.

Lemma map_nfs_ok s : map_nfs_to_system_error s = B_OK ↔ s = NFS_OK.
Proof.
  unfold map_nfs_to_system_error.
  repeat case_match; rewrite ?Z.eqb_eq, ?Z.eqb_neq in *; split; intros; subst; done.
Qed.

Lemma map_nfs_negative s : s ≠ NFS_OK → map_nfs_to_system_error s < B_OK.
Proof.
  intros Hs. unfold map_nfs_to_system_error. rewrite (proj2 (Z.eqb_neq s NFS_OK)) by done.
  repeat case_match; done.
Qed.

Section Calls.
Context {W : Type} `{Transport W} (uninit : Z → Z).
Implicit Types ns : fs_nspace W.

(** In the world of [ns], the procedure called with the arguments [args]
    answers [a] and leaves the world [w']. *)
Definition responds {R} (enc : R → list Z) ns (addr : sockaddr_in) (prog vers proc : Z)
    (args : list Z) (a : answer R) (w' : W) : Prop :=
  ∀ p, out_wf p → out_contents p = args →
    rpc_send (ns_params ns) addr prog vers proc p (ns_world ns) = Ok (answer_wire enc a, w').

Lemma build_args ns items :
  alloc_plenty (ns_world ns) → Forall item_fits items → zlen (items_enc items) < 2 ^ 60 →
  ∃ p, put_items uninit XDROutPacketInit items ns = Ok (p, ns) ∧ out_wf p ∧
    out_contents p = items_enc items.
Proof.
  intros Hp Hi Hl.
  destruct (put_items_spec uninit items 0 XDROutPacketInit ns) as (p & E & [Hf _] & C);
    [done| |done| |].
  { split; [apply out_wf_init|simpl; lia]. }
  { unfold XDR_LIMIT. lia. }
  exists p. by rewrite C, out_contents_init.
Qed.

Lemma outside_run {A} (m : M W A) ns a w' :
  m (ns_world ns) = Ok (a, w') → outside m ns = Ok (a, set_world w' ns).
Proof. intros E. unfold outside. by rewrite E. Qed.

(** [call_server], then the status word. *)
Lemma server_status {R} (enc : R → list Z) noreply prog vers proc addr ns p a w' :
  out_wf p → responds enc ns (addr ns) prog vers proc (out_contents p) a w' → answer_ok enc a →
  match a with
  | Done xid fl v res =>
      ∃ b reply, (reply ←? call_server noreply prog vers proc addr p; check_nfs_status reply) ns
                   = Ok (inr reply, set_world w' ns) ∧ in_at b reply (enc res)
  | _ => (reply ←? call_server noreply prog vers proc addr p; check_nfs_status reply) ns
           = Ok (result_of noreply (λ _, XDRInPacketInit) a, set_world w' ns)
  end.
Proof.
  intros Hwf Hr [Hlen Hok]. unfold try_bind, call_server. specialize (Hr p Hwf eq_refl).
  apply outside_run in Hr.
  destruct a as [|xid r|xid fl v status|xid fl v res]; simpl in Hr, Hlen; mrun; mstep Hr.
  - done.
  - destruct Hok as [Hok Hna].
    destruct (is_successful_reply_spec (reply_enc xid r)
      (XDRInPacketSetTo XDRInPacketInit (reply_enc xid r) 0) xid r) as (p' & E & _);
      [apply in_at_SetTo; by apply Hlen|done|].
    rewrite E. destruct r; done.
  - destruct Hok as (Hv & Hs & Hs0).
    destruct (is_successful_reply_spec _ _ xid (Accepted fl v (be32_enc status))
      (in_at_SetTo XDRInPacketInit _ (Hlen _ eq_refl)) Hv) as (p' & E & Hat).
    rewrite E. mrun. unfold ok. mrun. unfold check_nfs_status.
    rewrite <- (app_nil_r (be32_enc status)) in Hat.
    destruct (XDRInPacketGetInt32_spec _ _ _ _ Hat) as (p2 & E2 & _).
    rewrite E2. mrun. rewrite s32_id by done. by rewrite (proj2 (Z.eqb_neq _ _)).
  - destruct (is_successful_reply_spec _ _ xid (Accepted fl v (be32_enc NFS_OK ++ enc res))
      (in_at_SetTo XDRInPacketInit _ (Hlen _ eq_refl)) Hok) as (p' & E & Hat).
    rewrite E. mrun. unfold ok. mrun. unfold check_nfs_status.
    destruct (XDRInPacketGetInt32_spec _ _ _ _ Hat) as (p2 & E2 & Hat2).
    rewrite E2. mrun. eexists _, p2. split; [reflexivity|exact Hat2].
Qed.

(** A remote procedure: build the arguments, call, check, decode with [k]. *)
Lemma nfs_call_run {R A} (enc : R → list Z) (dec : R → A) noreply proc items ns a w'
    (k : XDRInPacket → M (fs_nspace W) (Z + A)) :
  alloc_plenty (ns_world ns) → Forall item_fits items → zlen (items_enc items) < 2 ^ 60 →
  responds enc ns (nfsAddr ns) NFS_PROGRAM NFS_VERSION proc (items_enc items) a w' →
  answer_ok enc a →
  (∀ b reply xid fl v res, a = Done xid fl v res → in_at b reply (enc res) →
     k reply (set_world w' ns) = Ok (inr (dec res), set_world w' ns)) →
  (reply ←? nfs_call uninit noreply proc items; k reply) ns
    = Ok (result_of noreply dec a, set_world w' ns).
Proof.
  intros Hp Hi Hl Hr Hok Hk. unfold try_bind at 1, nfs_call.
  destruct (build_args ns items Hp Hi Hl) as (p & E & Hwf & C). mrun. mstep E.
  rewrite <- C in Hr.
  pose proof (server_status enc noreply NFS_PROGRAM NFS_VERSION proc nfsAddr ns p a w' Hwf Hr Hok) as Hs.
  destruct a as [|xid r|xid fl v status|xid fl v res].
  1, 2, 3: mstep Hs; done.
  destruct Hs as (b & reply & Hs & Hat). mstep Hs. by eapply Hk.
Qed.

(** A call that succeeds leaves the cursor before its results. *)
Lemma nfs_call_done {R} (enc : R → list Z) noreply proc items ns xid fl v res w' :
  alloc_plenty (ns_world ns) → Forall item_fits items → zlen (items_enc items) < 2 ^ 60 →
  responds enc ns (nfsAddr ns) NFS_PROGRAM NFS_VERSION proc (items_enc items)
    (Done xid fl v res) w' →
  answer_ok enc (Done xid fl v res) →
  ∃ b reply, nfs_call uninit noreply proc items ns = Ok (inr reply, set_world w' ns) ∧
    in_at b reply (enc res).
Proof.
  intros Hp Hi Hl Hr Hok. unfold nfs_call.
  destruct (build_args ns items Hp Hi Hl) as (p & E & Hwf & C). rewrite <- C in Hr.
  destruct (server_status enc noreply _ _ _ nfsAddr ns p _ w' Hwf Hr Hok) as (b & reply & Hs & Hat).
  exists b, reply. split; [|done]. mstep E. exact Hs.
Qed.

Definition fh_enc (fh : nfs_fhandle) : list Z := xdr_opaque fh.
Definition fh_ok (fh : nfs_fhandle) : Prop := zlen fh = NFS_FHSIZE.

Lemma get_fhandle_run b reply fh rest ns :
  in_at b reply (fh_enc fh ++ rest) → fh_ok fh →
  ∃ reply', get_fhandle reply ns = Ok (inr (fh, reply'), ns) ∧ in_at b reply' rest.
Proof.
  intros Hat Hfh. unfold get_fhandle, fh_ok in *.
  destruct (XDRInPacketGetFixed_spec b reply (KernelBuf NFS_FHSIZE) fh rest Hat) as (p' & E & Hat');
    [simpl; lia|].
  rewrite Hfh in E. rewrite E. mrun. by exists p'.
Qed.

(** The results of LOOKUP, CREATE and MKDIR: a handle and its attributes. *)
Definition diropres_enc (r : nfs_fhandle * fattr) : list Z := fh_enc r.1 ++ fattr_enc r.2.
Definition diropres_ok (a : answer (nfs_fhandle * fattr)) : Prop :=
  answer_ok diropres_enc a ∧
  match a with Done _ _ _ r => fh_ok r.1 | _ => True end.

Definition args_ok (items : list xdr_item) : Prop :=
  Forall item_fits items ∧ zlen (items_enc items) < 2 ^ 60.

Lemma nfs_lookup_run ns dir name a w' :
  alloc_plenty (ns_world ns) → args_ok [XFixed dir; XString name] →
  responds diropres_enc ns (nfsAddr ns) NFS_PROGRAM NFS_VERSION NFSPROC_LOOKUP
    (items_enc [XFixed dir; XString name]) a w' → diropres_ok a →
  nfs_lookup uninit dir name ns
    = Ok (result_of EHOSTUNREACH (λ r, (r.1, stat_of_fattr r.2)) a, set_world w' ns).
Proof.
  intros Hp [Hi Hl] Hr [Hok Hfh]. unfold nfs_lookup.
  apply (nfs_call_run diropres_enc); try done.
  intros b reply xid fl v [fh fa] -> Hat. cbn in Hat, Hfh |- *.
  destruct (get_fhandle_run b reply fh (fattr_enc fa) (set_world w' ns) Hat Hfh)
    as (p1 & E1 & Hat1).
  unfold try_bind. mstep E1. rewrite <- (app_nil_r (fattr_enc fa)) in Hat1.
  destruct (get_nfs_attr_spec b p1 fa [] Hat1) as (p2 & E2 & _). rewrite E2. by mrun.
Qed.

Lemma nfs_getattr_run ns fh a w' :
  alloc_plenty (ns_world ns) → args_ok [XFixed fh] →
  responds fattr_enc ns (nfsAddr ns) NFS_PROGRAM NFS_VERSION NFSPROC_GETATTR
    (items_enc [XFixed fh]) a w' → answer_ok fattr_enc a →
  nfs_getattr uninit fh ns = Ok (result_of EHOSTUNREACH stat_of_fattr a, set_world w' ns).
Proof.
  intros Hp [Hi Hl] Hr Hok. unfold nfs_getattr. apply (nfs_call_run fattr_enc); try done.
  intros b reply xid fl v fa -> Hat. rewrite <- (app_nil_r (fattr_enc fa)) in Hat.
  destruct (get_nfs_attr_spec b reply fa [] Hat) as (p2 & E2 & _). rewrite E2. by mrun.
Qed.
End Calls.

(** * Theorems *)

(** C12. Every reply of RFC 1057, its verifier within the protocol's limit of 400
    bytes, is judged right: [is_successful_reply] answers true exactly on
    accepted, successful ones, reads nothing outside the reply, and then leaves
    the cursor on the results. *)
Theorem is_successful_reply_correct xid r :
  zlen (reply_enc xid r) < XDR_LIMIT → reply_ok r →
  ∃ p', is_successful_reply (XDRInPacketSetTo XDRInPacketInit (reply_enc xid r) 0)
          = Ok (match r with Accepted _ _ _ => true | _ => false end, p') ∧
    match r with Accepted _ _ res => in_at (reply_enc xid r) p' res | _ => True end.
Proof. intros Hl Hok. apply (is_successful_reply_spec _ _ xid); [by apply in_at_SetTo|done]. Qed.

Lemma is_successful_reply_correct_witness :
  ∃ p', is_successful_reply (XDRInPacketSetTo XDRInPacketInit (reply_enc 7 (Accepted 0 [] [1; 2; 3; 4])) 0)
          = Ok (true, p') ∧ in_at (reply_enc 7 (Accepted 0 [] [1; 2; 3; 4])) p' [1; 2; 3; 4].
Proof.
  apply (is_successful_reply_correct 7 (Accepted 0 [] [1; 2; 3; 4])); vm_compute; [reflexivity|discriminate].
Defined.

(** The verifier's length is not checked: an accepted reply whose verifier
    is longer than 400 bytes makes [is_successful_reply] write past the end of
    its local [body] array, whatever else the reply holds. *)
Lemma is_successful_reply_overrun xid fl v res :
  400 < zlen v → zlen (reply_enc xid (Accepted fl v res)) < 2 ^ 31 →
  is_successful_reply (XDRInPacketSetTo XDRInPacketInit (reply_enc xid (Accepted fl v res)) 0)
    = Bad OutOfBounds.
Proof.
  intros Hv Hl. set (b := reply_enc xid (Accepted fl v res)) in *.
  pose proof (in_at_SetTo XDRInPacketInit b ltac:(unfold XDR_LIMIT; lia)) as Hat.
  change (in_at b (XDRInPacketSetTo XDRInPacketInit b 0) (accepted_enc xid fl v 0 res)) in Hat.
  unfold accepted_enc in Hat.
  unfold is_successful_reply. read_int Hat p1 H1. read_int H1 p2 H2. read_int H2 p3 H3.
  change (s32 0 =? RPC_MSG_DENIED) with false. cbv iota. read_int H3 p4 H4.
  unfold XDRInPacketGetDynamic. read_int H4 p5 H5.
  subst b. unfold reply_enc, accepted_enc in Hl. rewrite !length_app in Hl.
  assert (zlen v ≤ zlen (xdr_opaque v)) by (unfold xdr_opaque; rewrite length_app; lia).
  rewrite s32_id by (unfold is_s32; lia). rewrite u64_id by lia.
  by rewrite (XDRInPacketGetFixed_overflow _ _ 400 v _ H5 Hv).
Qed.

Lemma is_successful_reply_overrun_witness :
  is_successful_reply (XDRInPacketSetTo XDRInPacketInit (reply_enc 7 (Accepted 0 (replicate 404 0) [])) 0)
    = Bad OutOfBounds.
Proof. apply (is_successful_reply_overrun 7 0 (replicate 404 0) []); vm_compute; reflexivity. Defined.

(** C13. The attributes of a file: [get_nfs_attr] reads the seventeen words of
    an RFC 1094 [fattr] and leaves the cursor after them.  A file of less than
    2 GB gets its size; a larger one, within what the protocol can say, gets a
    negative one. *)
Theorem get_nfs_attr_decodes b p a rest :
  in_at b p (fattr_enc a ++ rest) → 0 ≤ fa_size a < 2 ^ 32 →
  ∃ st p', get_nfs_attr p = Ok (st, p') ∧ in_at b p' rest ∧ st = stat_of_fattr a ∧
    st_size st = (if fa_size a <? 2 ^ 31 then fa_size a else fa_size a - 2 ^ 32).
Proof.
  intros Hat Hs. destruct (get_nfs_attr_spec b p a rest Hat) as (p' & E & Hat').
  exists (stat_of_fattr a), p'. split_and!; [done..|]. cbn [st_size stat_of_fattr].
  destruct (Z.ltb_spec (fa_size a) (2 ^ 31)); [apply s32_id; unfold is_s32; lia|].
  unfold s32, swrap. change (32 - 1) with 31. rewrite <- (Z.mod_add _ (-1)) by lia.
  rewrite Z.mod_small by lia. lia.
Qed.

(** A three-gigabyte file. *)
Definition big_file : fattr :=
  mkFattr 1 33188 1 0 0 (3 * 2 ^ 30) 4096 0 0 0 77 (0, 0) (0, 0) (0, 0).

Lemma get_nfs_attr_decodes_witness :
  ∃ st p', get_nfs_attr (XDRInPacketSetTo XDRInPacketInit (fattr_enc big_file ++ []) 0) = Ok (st, p') ∧
    in_at (fattr_enc big_file ++ []) p' [] ∧ st = stat_of_fattr big_file ∧ st_size st = - 2 ^ 30.
Proof.
  apply (get_nfs_attr_decodes (fattr_enc big_file ++ []) _ big_file []).
  - apply in_at_SetTo. vm_compute. reflexivity.
  - vm_compute. split; [discriminate|reflexivity].
Defined.

(** Server statuses become system errors without confusion: only [NFS_OK]
    becomes [B_OK], every other status an error, and two different statuses
    share an error only when neither is known to the table ([B_ERROR]). *)
Lemma map_nfs_to_system_error_sound s t :
  (map_nfs_to_system_error s = B_OK ↔ s = NFS_OK) ∧
  map_nfs_to_system_error s ≤ B_OK ∧
  (map_nfs_to_system_error s = map_nfs_to_system_error t →
   s = t ∨ map_nfs_to_system_error s = B_ERROR).
Proof.
  split; [apply map_nfs_ok|]. split.
  { destruct (decide (s = NFS_OK)) as [->|Hs]; [done|]. by apply Z.lt_le_incl, map_nfs_negative. }
  unfold map_nfs_to_system_error.
  repeat match goal with |- context [s =? ?k] => destruct (Z.eqb_spec s k) as [->|_] end;
    [..|by right];
    repeat match goal with |- context [t =? ?k] => destruct (Z.eqb_spec t k) as [->|_] end;
    solve [by left|intros E; vm_compute in E; discriminate E].
Qed.
