(* ===== verification/NfsNodes.v ===== *)
(** The node table of a mounted NFS volume (src/add-ons/kernel/file_systems/nfs/
    nfs_add_on.c: [handle_from_vnid], [insert_node], [remove_node],
    [fs_read_vnode], [fs_remove_vnode]): a list of [fs_node]s under the
    semaphore [sem], refining a finite map from vnode ids to file handles. *)

From S2P Require Import Prelude Errors Xdr LinkedList RpcCalls NfsProto.

Section Ops.
Context {W : Type}.
Abbreviation MN := (M (fs_nspace W)).

(** [while (acquire_sem(ns->sem) == B_INTERRUPTED);] and its counterpart. *)
Definition acquire_ns : MN unit :=
  ns ← getS;
  if ns_sem ns >? 0 then putS (set_ns_sem (ns_sem ns - 1) ns) else failM Deadlock.

Definition release_ns : MN unit := modifyS (λ ns, set_ns_sem (ns_sem ns + 1) ns).

Definition get_node (a : Z) : MN fs_node := ns ← getS; liftO (deref (ns_nodes ns) a).
Definition free_node (a : Z) : MN unit := _ ← get_node a; modifyS (set_nodes (delete a)).

(** A block from [malloc(sizeof(fs_node))] with its fields written. *)
Definition new_node (mode vnid : Z) (fh : nfs_fhandle) : MN Z :=
  ns ← getS;
  let a := ns_next_node ns in
  putS (set_next_node (a + 1) (set_nodes (insert a (mkNode mode vnid fh None)) ns));;
  mret a.

(** [while (current != NULL && current->vnid != vnid) current = current->next;] *)
Definition find_node (vnid : Z) : MN (option Z * option Z) :=
  ns ← getS;
  liftO (walk (walk_fuel (ns_nodes ns)) (ns_nodes ns) (λ _ n, n_vnid n =? vnid) None (ns_first ns)).

Definition handle_from_vnid (vnid : Z) : MN nfs_fhandle :=
  acquire_ns;;
  '(_, current) ← find_node vnid;
  release_ns;;
  match current with
  | None => failM NullDeref
  | Some a => n ← get_node a; mret (n_fhandle n)
  end.

Definition insert_node (node : Z) : MN unit :=
  acquire_ns;;
  n ← get_node node;
  '(_, current) ← find_node (n_vnid n);
  match current with
  | Some _ =>
      free_node node;;
      release_ns
  | None =>
      ns ← getS;
      modifyS (set_nodes (insert node (set_nxt (ns_first ns) n)));;
      modifyS (set_ns_first (Some node));;
      release_ns
  end.

Definition remove_node (vnid : Z) : MN unit :=
  acquire_ns;;
  '(previous, current) ← find_node vnid;
  match current with
  | Some a =>
      n ← get_node a;
      ns ← getS;
      '(h, first) ← liftO (unlink (ns_nodes ns) (ns_first ns) previous (n_next n));
      modifyS (set_nodes (λ _, h));;
      modifyS (set_ns_first first);;
      free_node a
  | None => mret tt
  end;;
  release_ns.

(** [fs_read_vnode]: answers the node and its mode; [r] says that the caller
    is the file system itself. *)
Definition fs_read_vnode (vnid : Z) (r : bool) : MN (Z + (Z * Z)) :=
  (if r then mret tt else acquire_ns);;
  '(_, current) ← find_node vnid;
  match current with
  | None => err EINVAL
  | Some a =>
      n ← get_node a;
      (if r then mret tt else release_ns);;
      ok (a, n_mode n)
  end.

Definition fs_remove_vnode (node : Z) : MN Z :=
  n ← get_node node;
  remove_node (n_vnid n);;
  mret B_OK.
End Ops.

(** * The map the table stands for *)

Definition node_entry (h : gmap Z fs_node) (a : Z) : option (Z * (Z * nfs_fhandle)) :=
  (λ n, (n_vnid n, (n_mode n, n_fhandle n))) <$> h !! a.

Definition node_entries (h : gmap Z fs_node) (l : list Z) : list (Z * (Z * nfs_fhandle)) :=
  omap (node_entry h) l.

Section Refine.
Context {W : Type}.
Implicit Types ns : fs_nspace W.

(** The table of [ns] holds exactly the vnodes of [m]: the list is acyclic
    with one node per vnode id, all blocks are older than the next one, every
    handle has its full size, and nobody holds the lock. *)
Record table ns (l : list Z) (m : gmap Z (Z * nfs_fhandle)) : Prop := {
  tb_chain : chain (ns_nodes ns) (ns_first ns) l;
  tb_unique : NoDup (node_entries (ns_nodes ns) l).*1;
  tb_map : m = list_to_map (node_entries (ns_nodes ns) l);
  tb_fresh : ∀ a n, ns_nodes ns !! a = Some n → a < ns_next_node ns;
  tb_handles : ∀ a n, ns_nodes ns !! a = Some n → fh_ok (n_fhandle n);
  tb_lock : ns_sem ns = 1
}.

Lemma entries_frame (h h' : gmap Z fs_node) l :
  (∀ a, a ∈ l → node_entry h' a = node_entry h a) → node_entries h' l = node_entries h l.
Proof.
  intros Hf. induction l as [|a l IH]; [done|]. unfold node_entries in *. cbn [omap list_omap].
  rewrite Hf by (by left). rewrite IH; [done|]. intros. apply Hf. by right.
Qed.

Lemma entries_elem (h : gmap Z fs_node) l a n :
  a ∈ l → h !! a = Some n → (n_vnid n, (n_mode n, n_fhandle n)) ∈ node_entries h l.
Proof.
  intros Ha Hn. apply list_elem_of_omap. exists a. split; [done|].
  unfold node_entry. by rewrite Hn.
Qed.

Lemma entries_elem_inv (h : gmap Z fs_node) l e :
  e ∈ node_entries h l →
  ∃ a n, a ∈ l ∧ h !! a = Some n ∧ e = (n_vnid n, (n_mode n, n_fhandle n)).
Proof.
  intros (a & Ha & He)%list_elem_of_omap. unfold node_entry in He.
  destruct (h !! a) as [n|] eqn:E; [|done]. simpl in He. simplify_eq. eauto.
Qed.

Lemma table_present ns l m vnid mode fh :
  table ns l m → m !! vnid = Some (mode, fh) →
  ∃ l1 a n l2, l = l1 ++ a :: l2 ∧ ns_nodes ns !! a = Some n ∧ n_vnid n = vnid ∧
    n_mode n = mode ∧ n_fhandle n = fh ∧
    (∀ b k, b ∈ l1 → ns_nodes ns !! b = Some k → (n_vnid k =? vnid) = false).
Proof.
  intros [Hc Hu -> _ _ _] Hm.
  apply elem_of_list_to_map_2, entries_elem_inv in Hm as (a & n & Ha & Hn & [= -> -> ->]).
  destruct (chain_first _ (λ _ k, n_vnid k =? n_vnid n) _ _ Hc)
    as [(l1 & b & k & l2 & -> & Hb & Ht & Hno)|Hno].
  - exists l1, b, k, l2. apply Z.eqb_eq in Ht.
    pose proof (elem_of_list_to_map_1 (M := gmap Z) _ _ _ Hu (entries_elem _ _ a n Ha Hn)) as E1.
    pose proof (elem_of_list_to_map_1 (M := gmap Z) _ _ _ Hu
      (entries_elem _ (l1 ++ b :: l2) b k ltac:(set_solver) Hb)) as E2.
    rewrite Ht, E1 in E2. by simplify_eq.
  - specialize (Hno a n Ha Hn). simpl in Hno. by rewrite Z.eqb_refl in Hno.
Qed.

Lemma table_absent ns l m vnid :
  table ns l m → m !! vnid = None →
  ∀ b k, b ∈ l → ns_nodes ns !! b = Some k → (n_vnid k =? vnid) = false.
Proof.
  intros [Hc Hu -> _ _ _] Hm b k Hb Hk. apply Z.eqb_neq. intros <-.
  apply not_elem_of_list_to_map_2 in Hm. apply Hm.
  apply list_elem_of_fmap. eexists. split; [|by eapply entries_elem]. done.
Qed.

Lemma acquire_ns_run ns : 0 < ns_sem ns → acquire_ns ns = Ok (tt, set_ns_sem (ns_sem ns - 1) ns).
Proof. intros Hl. unfold acquire_ns. mrun. by destruct (Z.gtb_spec (ns_sem ns) 0); [|lia]. Qed.

Lemma get_node_run ns a n : ns_nodes ns !! a = Some n → get_node a ns = Ok (n, ns).
Proof. intros E. unfold get_node, deref. mrun. by rewrite E. Qed.

Lemma free_node_run ns a n :
  ns_nodes ns !! a = Some n → free_node a ns = Ok (tt, set_nodes (delete a) ns).
Proof. intros E. unfold free_node. by mstep (get_node_run ns a n E). Qed.

Lemma find_node_present ns l1 a n l2 vnid :
  chain (ns_nodes ns) (ns_first ns) (l1 ++ a :: l2) → ns_nodes ns !! a = Some n →
  n_vnid n = vnid →
  (∀ b k, b ∈ l1 → ns_nodes ns !! b = Some k → (n_vnid k =? vnid) = false) →
  find_node vnid ns = Ok ((pred_of None l1, Some a), ns).
Proof.
  intros Hc Ha Hv Hno. unfold find_node. mrun.
  rewrite (walk_found _ _ l1 _ None _ a l2 n); try done.
  - by apply Z.eqb_eq.
  - unfold walk_fuel. pose proof (chain_length _ _ _ Hc). lia.
Qed.

Lemma find_node_absent ns l vnid :
  chain (ns_nodes ns) (ns_first ns) l →
  (∀ b k, b ∈ l → ns_nodes ns !! b = Some k → (n_vnid k =? vnid) = false) →
  find_node vnid ns = Ok ((pred_of None l, None), ns).
Proof.
  intros Hc Hno. unfold find_node. mrun. rewrite (walk_none _ _ l); try done.
  unfold walk_fuel. pose proof (chain_length _ _ _ Hc). lia.
Qed.

(** Taking the lock and giving it back. *)
Lemma relock_ns ns : ns_sem ns = 1 → set_ns_sem (1 - 1 + 1) ns = ns.
Proof. destruct ns; simpl; by intros ->. Qed.

(** [insert_node] of a node whose id is not in the table adds it. *)
Lemma insert_node_new ns l m a n :
  table ns l m → ns_nodes ns !! a = Some n → a ∉ l → m !! n_vnid n = None →
  insert_node a ns
    = Ok (tt, set_ns_first (Some a) (set_nodes (insert a (set_nxt (ns_first ns) n)) ns)) ∧
  table (set_ns_first (Some a) (set_nodes (insert a (set_nxt (ns_first ns) n)) ns))
    (a :: l) (<[n_vnid n := (n_mode n, n_fhandle n)]> m).
Proof.
  intros Ht Ha Hal Hm. pose proof (table_absent _ _ _ _ Ht Hm) as Hno.
  destruct Ht as [Hc Hu Hm' Hf Hh Hl]. split.
  - unfold insert_node. mstep (acquire_ns_run ns ltac:(lia)).
    erewrite bind_Ok by (apply get_node_run; exact Ha). mrun.
    erewrite bind_Ok by (eapply find_node_absent; [exact Hc|exact Hno]). mrun.
    unfold release_ns, modifyS. rewrite Hl. destruct ns; simpl in *; by subst.
  - assert (node_entries (<[a := set_nxt (ns_first ns) n]> (ns_nodes ns)) l
            = node_entries (ns_nodes ns) l) as He.
    { apply entries_frame. intros b Hb. unfold node_entry.
      rewrite lookup_insert_ne; [done|]. by intros ->. }
    assert (node_entries (<[a := set_nxt (ns_first ns) n]> (ns_nodes ns)) (a :: l)
            = (n_vnid n, (n_mode n, n_fhandle n)) :: node_entries (ns_nodes ns) l) as He'.
    { unfold node_entries in *; cbn [omap list_omap]. rewrite He.
      unfold node_entry at 1. by rewrite lookup_insert_eq. }
    split; cbn [ns_nodes ns_first ns_next_node ns_sem set_ns_first set_nodes]; try done.
    + by eapply (chain_push _ (ns_first ns)).
    + rewrite He'. cbn. constructor; [|done].
      intros (e & E1 & (b & k & Hb & Hk & ->)%entries_elem_inv)%list_elem_of_fmap.
      specialize (Hno b k Hb Hk). apply Z.eqb_neq in Hno. by apply Hno.
    + rewrite He'. cbn. by rewrite Hm'.
    + intros b k. rewrite lookup_insert. case_decide; [intros _; subst; by eapply Hf|by apply Hf].
    + intros b k. rewrite lookup_insert. case_decide as Hd; [|by apply Hh].
      intros [= <-]. simpl. by eapply Hh.
Qed.

(** [insert_node] of a node whose id is known frees it and keeps the table. *)
Lemma insert_node_known ns l m a n e :
  table ns l m → ns_nodes ns !! a = Some n → a ∉ l → m !! n_vnid n = Some e →
  insert_node a ns = Ok (tt, set_nodes (delete a) ns) ∧ table (set_nodes (delete a) ns) l m.
Proof.
  intros Ht Ha Hal Hm. destruct e as [mode fh].
  destruct (table_present _ _ _ _ _ _ Ht Hm) as (l1 & b & k & l2 & -> & Hb & Hv & _ & _ & Hno).
  destruct Ht as [Hc Hu Hm' Hf Hh Hl]. split.
  - unfold insert_node. mstep (acquire_ns_run ns ltac:(lia)).
    erewrite bind_Ok by (apply get_node_run; exact Ha). mrun.
    erewrite bind_Ok by (eapply find_node_present; [exact Hc|exact Hb|done|done]). mrun.
    erewrite bind_Ok by (eapply free_node_run; exact Ha). mrun.
    unfold release_ns, modifyS. rewrite Hl. destruct ns; simpl in *; by subst.
  - assert (node_entries (delete a (ns_nodes ns)) (l1 ++ b :: l2)
            = node_entries (ns_nodes ns) (l1 ++ b :: l2)) as He.
    { apply entries_frame. intros c Hc'. unfold node_entry.
      rewrite lookup_delete_ne; [done|]. by intros ->. }
    split; cbn [ns_nodes ns_first ns_next_node ns_sem set_ns_first set_nodes]; rewrite ?He; try done.
    + by apply chain_delete_ne.
    + intros c k' [_ Hk]%lookup_delete_Some. by eapply Hf.
    + intros c k' [_ Hk]%lookup_delete_Some. by eapply Hh.
Qed.

Lemma unlinked_entries (h h' : gmap Z fs_node) l :
  (∀ b k', h' !! b = Some k' → ∃ k o, h !! b = Some k ∧ (k' = k ∨ k' = set_nxt o k)) →
  dom h' = dom h → node_entries h' l = node_entries h l.
Proof.
  intros Hk Hd. apply entries_frame. intros b _. unfold node_entry.
  destruct (h' !! b) as [k'|] eqn:E.
  - destruct (Hk b k' E) as (k & o & -> & [->| ->]); done.
  - apply not_elem_of_dom in E. rewrite Hd in E. apply not_elem_of_dom in E. by rewrite E.
Qed.

Lemma entries_app (h : gmap Z fs_node) l1 l2 :
  node_entries h (l1 ++ l2) = node_entries h l1 ++ node_entries h l2.
Proof. apply omap_app. Qed.

Lemma entries_split (h : gmap Z fs_node) l1 a l2 n vnid mode fh :
  h !! a = Some n → n_vnid n = vnid → n_mode n = mode → n_fhandle n = fh →
  node_entries h (l1 ++ a :: l2)
    = node_entries h l1 ++ (vnid, (mode, fh)) :: node_entries h l2.
Proof.
  intros Ha <- <- <-. rewrite entries_app. f_equal. unfold node_entries; cbn [omap list_omap].
  unfold node_entry at 1. by rewrite Ha.
Qed.

(** Every node that was not freed is in the list. *)
Definition tight ns (l : list Z) : Prop := ∀ a, is_Some (ns_nodes ns !! a) → a ∈ l.

(** [remove_node] takes the entry of its id, if any, out of the table. *)
Lemma remove_node_run ns l m vnid :
  table ns l m →
  ∃ ns' l', remove_node vnid ns = Ok (tt, ns') ∧ table ns' l' (delete vnid m) ∧ (tight ns l → tight ns' l') ∧
    ns_world ns' = ns_world ns ∧ nsid ns' = nsid ns ∧ ns_params ns' = ns_params ns ∧
    rootid ns' = rootid ns ∧ nfsAddr ns' = nfsAddr ns.
Proof.
  intros Ht. destruct (m !! vnid) as [[mode fh]|] eqn:Hm.
  - destruct (table_present _ _ _ _ _ _ Ht Hm) as (l1 & a & n & l2 & -> & Ha & Hv & Hmo & Hfh & Hno).
    destruct Ht as [Hc Hu Hm' Hf Hh Hl].
    destruct (unlink_chain _ _ _ _ _ _ Hc Ha) as (h' & o' & E & Hc' & Ha' & Hd & Hk & _).
    pose proof (chain_NoDup _ _ _ Hc) as Hnd. apply NoDup_app in Hnd as (_ & Hdis & Hnd).
    apply NoDup_cons in Hnd as [Hal2 _].
    assert (a ∉ l1 ++ l2) as Hal.
    { intros [H1|H2]%elem_of_app; [|done]. apply (Hdis a H1). by left. }
    assert (∀ b k', h' !! b = Some k' → ∃ k o, ns_nodes ns !! b = Some k ∧
      (k' = k ∨ k' = set_nxt o k)) as Hk'.
    { intros b k' Hb. destruct (Hk b k' Hb) as (k & ? & ?). eauto. }
    assert (node_entries (delete a h') (l1 ++ l2) = node_entries (ns_nodes ns) (l1 ++ l2)) as He.
    { rewrite <- (unlinked_entries _ h' (l1 ++ l2) Hk' Hd). apply entries_frame.
      intros b Hb. unfold node_entry. rewrite lookup_delete_ne; [done|]. by intros ->. }
    pose proof (list_to_map_remove (node_entries (ns_nodes ns) l1) (node_entries (ns_nodes ns) l2)
      vnid (mode, fh)) as Hrem.
    rewrite <- (entries_split _ _ _ _ n), <- entries_app in Hrem by (done || by subst).
    specialize (Hrem Hu).
    eexists (set_ns_first o' (set_nodes (λ _, delete a h') ns)), (l1 ++ l2). split.
    { unfold remove_node. mstep (acquire_ns_run ns ltac:(lia)).
      erewrite bind_Ok by (eapply find_node_present; [exact Hc|exact Ha|done|done]). mrun.
      erewrite bind_Ok by (eapply get_node_run; exact Ha). mrun.
      cbn [ns_nodes ns_first set_ns_sem]. change (n_next n) with (nxt n).
      erewrite bind_Ok by (unfold liftO; rewrite E; done). mrun.
      erewrite bind_Ok by (eapply free_node_run; cbn; rewrite Ha'; exact Ha). mrun.
      unfold release_ns, modifyS. rewrite Hl. destruct ns; simpl in *; by subst. }
    split; [|split; [|done]].
    2:{ intros Hti b [k Hb]. cbn in Hb. apply lookup_delete_Some in Hb as [Hne Hb]. destruct (Hk' b k Hb) as (k0 & _ & Hk0 & _).
        assert (b ∈ l1 ++ a :: l2) as Hin by (apply Hti; by eexists). set_solver. }
    split; cbn [ns_nodes ns_first ns_next_node ns_sem set_ns_first set_nodes];
      rewrite ?He; try done.
    + by apply chain_delete_ne.
    + apply Hrem.
    + rewrite Hm'. symmetry. apply Hrem.
    + intros c k' [_ Hck]%lookup_delete_Some. destruct (Hk' _ _ Hck) as (k & ? & ? & _). eauto.
    + intros c k' [_ Hck]%lookup_delete_Some. destruct (Hk' _ _ Hck) as (k & ? & ? & [->| ->]); cbn; eauto.
  - exists ns, l. pose proof (table_absent _ _ _ _ Ht Hm) as Hno. pose proof Ht as [Hc Hu Hm' Hf Hh Hl].
    rewrite delete_id by done. split; [|done].
    unfold remove_node. mstep (acquire_ns_run ns ltac:(lia)).
    erewrite bind_Ok by (eapply find_node_absent; [exact Hc|exact Hno]). mrun.
    unfold release_ns, modifyS. rewrite Hl. destruct ns; simpl in *; by subst.
Qed.

Lemma handle_from_vnid_run ns l m vnid :
  table ns l m →
  handle_from_vnid vnid ns =
    match m !! vnid with Some (_, fh) => Ok (fh, ns) | None => Bad NullDeref end.
Proof.
  intros Ht. pose proof Ht as [Hc Hu Hm' Hf Hh Hl]. unfold handle_from_vnid.
  mstep (acquire_ns_run ns ltac:(lia)). rewrite Hl. destruct (m !! vnid) as [[mode fh]|] eqn:Hm.
  - destruct (table_present _ _ _ _ _ _ Ht Hm) as (l1 & a & n & l2 & -> & Ha & Hv & Hmo & Hfh & Hno).
    erewrite bind_Ok by (eapply find_node_present; [exact Hc|exact Ha|done|done]). mrun.
    unfold release_ns. mrun. cbn [ns_sem set_ns_sem]. change (set_ns_sem (1 - 1 + 1)
      (set_ns_sem (1 - 1) ns)) with (set_ns_sem (1 - 1 + 1) ns). rewrite relock_ns by done.
    mstep (get_node_run ns a n Ha). by rewrite Hfh.
  - pose proof (table_absent _ _ _ _ Ht Hm) as Hno.
    erewrite bind_Ok by (eapply find_node_absent; [exact Hc|exact Hno]). done.
Qed.

Lemma fs_read_vnode_run ns l m vnid r :
  table ns l m →
  match m !! vnid with
  | Some (mode, fh) => ∃ a n, fs_read_vnode vnid r ns = Ok (inr (a, mode), ns) ∧
      a ∈ l ∧ ns_nodes ns !! a = Some n ∧ n_vnid n = vnid ∧ n_fhandle n = fh
  | None => fs_read_vnode vnid r ns = Ok (inl EINVAL, if r then ns else set_ns_sem 0 ns)
  end.
Proof.
  intros Ht. pose proof Ht as [Hc Hu Hm' Hf Hh Hl]. unfold fs_read_vnode.
  destruct (m !! vnid) as [[mode fh]|] eqn:Hm.
  - destruct (table_present _ _ _ _ _ _ Ht Hm) as (l1 & a & n & l2 & -> & Ha & Hv & Hmo & Hfh & Hno).
    exists a, n. split; [|set_solver]. destruct r.
    + mrun. erewrite bind_Ok by (eapply find_node_present; [exact Hc|exact Ha|done|done]). mrun.
      mstep (get_node_run ns a n Ha). by rewrite Hmo.
    + mstep (acquire_ns_run ns ltac:(lia)). rewrite Hl.
      erewrite bind_Ok by (eapply find_node_present; [exact Hc|exact Ha|done|done]). mrun.
      erewrite bind_Ok by (eapply get_node_run; exact Ha). mrun. unfold release_ns. mrun.
      cbn [ns_sem set_ns_sem]. change (set_ns_sem (1 - 1 + 1)
      (set_ns_sem (1 - 1) ns)) with (set_ns_sem (1 - 1 + 1) ns). rewrite relock_ns by done.
      by rewrite Hmo.
  - pose proof (table_absent _ _ _ _ Ht Hm) as Hno. destruct r.
    + mrun. by erewrite bind_Ok by (eapply find_node_absent; [exact Hc|exact Hno]).
    + mstep (acquire_ns_run ns ltac:(lia)). rewrite Hl.
      by erewrite bind_Ok by (eapply find_node_absent; [exact Hc|exact Hno]).
Qed.

Lemma table_bound ns l m a : table ns l m → a ∈ l → a < ns_next_node ns.
Proof.
  intros [Hc _ _ Hf _ _] Ha. destruct (chain_cell _ _ _ _ Hc Ha) as [n Hn]. by eapply Hf.
Qed.

(** A fresh node: the table is as before, and the node is not in it. *)
Lemma new_node_run ns l m mode vnid fh :
  table ns l m → fh_ok fh →
  ∃ ns', new_node mode vnid fh ns = Ok (ns_next_node ns, ns') ∧ table ns' l m ∧
    ns_nodes ns' !! ns_next_node ns = Some (mkNode mode vnid fh None) ∧
    (ns_next_node ns ∉ l) ∧
    ns' = set_next_node (ns_next_node ns + 1)
            (set_nodes (insert (ns_next_node ns) (mkNode mode vnid fh None)) ns).
Proof.
  intros Ht Hfh. exists (set_next_node (ns_next_node ns + 1)
    (set_nodes (insert (ns_next_node ns) (mkNode mode vnid fh None)) ns)).
  split; [reflexivity|].
  assert (ns_next_node ns ∉ l) as Hn.
  { intros Hin. pose proof (table_bound _ _ _ _ Ht Hin). lia. }
  split; [|split; [cbn; apply lookup_insert_eq|split; [done|done]]].
  destruct Ht as [Hc Hu Hm' Hf Hh Hl].
  assert (node_entries (<[ns_next_node ns := mkNode mode vnid fh None]> (ns_nodes ns)) l
          = node_entries (ns_nodes ns) l) as He.
  { apply entries_frame. intros b Hb. unfold node_entry. rewrite lookup_insert_ne; [done|].
    intros <-. done. }
  split; cbn [ns_nodes ns_first ns_next_node ns_sem set_next_node set_nodes]; rewrite ?He; try done.
  - by apply chain_insert_ne.
  - intros b k. rewrite lookup_insert. case_decide; [lia|]. intros Hb. specialize (Hf b k Hb). lia.
  - intros b k. rewrite lookup_insert. case_decide; [by intros [= <-]|eauto].
Qed.

Definition add_entry (m : gmap Z (Z * nfs_fhandle)) (vnid mode : Z) (fh : nfs_fhandle) :=
  match m !! vnid with Some _ => m | None => <[vnid := (mode, fh)]> m end.

(** The fields the table operations leave alone. *)
Definition same_volume ns ns' : Prop :=
  ns_world ns' = ns_world ns ∧ nsid ns' = nsid ns ∧ mountAddr ns' = mountAddr ns ∧
  nfsAddr ns' = nfsAddr ns ∧ rootid ns' = rootid ns ∧ ns_params ns' = ns_params ns.

(** What the hooks do with the result of a lookup. *)
Definition enter_node (mode vnid : Z) (fh : nfs_fhandle) : M (fs_nspace W) Z :=
  a ← new_node mode vnid fh; insert_node a;; mret a.

Lemma enter_node_run ns l m mode vnid fh :
  table ns l m → fh_ok fh →
  ∃ ns' l', enter_node mode vnid fh ns = Ok (ns_next_node ns, ns') ∧
    table ns' l' (add_entry m vnid mode fh) ∧ same_volume ns ns' ∧
    (is_Some (m !! vnid) → ns_nodes ns' !! (ns_next_node ns) = None) ∧ (tight ns l → tight ns' l').
Proof.
  intros Ht Hfh. unfold enter_node, add_entry.
  destruct (new_node_run ns l m mode vnid fh Ht Hfh) as (ns1 & E1 & Ht1 & Hn & Hl & Hns).
  destruct (m !! vnid) as [e|] eqn:Hm.
  - destruct (insert_node_known ns1 l m _ _ e Ht1 Hn Hl Hm) as [E2 Ht2].
    eexists _, l. split; [rewrite (bind_Ok _ _ _ _ _ E1), (bind_Ok _ _ _ _ _ E2); reflexivity|].
    split; [done|]. subst ns1. split; [done|].
    split; [intros _; cbn; apply lookup_delete_eq|]. intros Hti a Ha. apply Hti. cbn in Ha.
    rewrite lookup_delete, lookup_insert in Ha. repeat case_decide; by destruct Ha.
  - destruct (insert_node_new ns1 l m _ _ Ht1 Hn Hl Hm) as [E2 Ht2].
    eexists _, _. split; [rewrite (bind_Ok _ _ _ _ _ E1), (bind_Ok _ _ _ _ _ E2); reflexivity|].
    split; [exact Ht2|]. subst ns1. split; [done|].
    split; [by intros []|]. intros Hti a Ha. cbn in Ha. rewrite !lookup_insert in Ha. repeat case_decide; subst; [by left..|right; by apply Hti].
Qed.

(** C9. The node table refines a finite map.  In every state whose table
    holds the map [m] and whose lock is free:
    entering a new node ends and leaves the lock free and the table holding [m] with the
    id added unless it was known (then the new node is freed: no node that is not freed is
    outside of the list);
    [remove_node] does so with [m] without the id, its node freed;
    [handle_from_vnid] answers [m]'s handle and dereferences NULL exactly when the id is
    unknown;
    [fs_read_vnode] answers the node that carries the id and changes nothing; for an
    unknown id it answers EINVAL, and, when the VFS calls it ([r] is false), with the
    lock held, so that every later operation that takes the lock blocks for ever. *)
Theorem node_table_refines ns l m :
  table ns l m →
  (∀ mode vnid fh, fh_ok fh → ∃ ns' l', enter_node mode vnid fh ns = Ok (ns_next_node ns, ns') ∧
     table ns' l' (add_entry m vnid mode fh) ∧ same_volume ns ns' ∧ (tight ns l → tight ns' l')) ∧
  (∀ vnid, ∃ ns' l', remove_node vnid ns = Ok (tt, ns') ∧ table ns' l' (delete vnid m) ∧ (tight ns l → tight ns' l')) ∧
  (∀ vnid, handle_from_vnid vnid ns =
     match m !! vnid with Some (_, fh) => Ok (fh, ns) | None => Bad NullDeref end) ∧
  (∀ vnid r, match m !! vnid with
     | Some (mode, fh) => ∃ a n, fs_read_vnode vnid r ns = Ok (inr (a, mode), ns) ∧ ns_nodes ns !! a = Some n ∧
         n_vnid n = vnid ∧ n_fhandle n = fh
     | None => ∃ ns', fs_read_vnode vnid r ns = Ok (inl EINVAL, ns') ∧
         if r then ns' = ns
         else (∀ v, remove_node v ns' = Bad Deadlock) ∧ (∀ v, handle_from_vnid v ns' = Bad Deadlock) ∧
              (∀ a, insert_node a ns' = Bad Deadlock) ∧ (∀ v, fs_read_vnode v false ns' = Bad Deadlock)
     end).
Proof.
  intros Ht. split_and!.
  - intros mode vnid fh Hfh. destruct (enter_node_run ns l m mode vnid fh Ht Hfh)
      as (ns' & l' & ? & ? & ? & _ & ?).
    exists ns', l'. done.
  - intros vnid. destruct (remove_node_run ns l m vnid Ht) as (ns' & l' & ? & ? & ? & _).
    exists ns', l'. done.
  - intros vnid. by eapply handle_from_vnid_run.
  - intros vnid r. pose proof (fs_read_vnode_run ns l m vnid r Ht) as Hr. destruct (m !! vnid) as [[mode fh]|].
    + destruct Hr as (a & n & ? & _ & ? & ? & ?). exists a, n. done.
    + eexists. split; [exact Hr|]. by destruct r.
Qed.

(** [fs_read_vnode] called by the VFS for an id that is not in the table
    returns EINVAL with the volume's semaphore still held: the next
    operation on the table blocks for ever. *)
Lemma fs_read_vnode_keeps_lock ns l m vnid :
  table ns l m → m !! vnid = None →
  ∃ ns', fs_read_vnode vnid false ns = Ok (inl EINVAL, ns') ∧ ns_sem ns' = 0 ∧
    (∀ v, remove_node v ns' = Bad Deadlock) ∧ (∀ v, handle_from_vnid v ns' = Bad Deadlock) ∧
    (∀ a, insert_node a ns' = Bad Deadlock) ∧ (∀ v, fs_read_vnode v false ns' = Bad Deadlock).
Proof.
  intros Ht Hm. pose proof (fs_read_vnode_run ns l m vnid false Ht) as Hr. rewrite Hm in Hr.
  exists (set_ns_sem 0 ns). done.
Qed.
End Refine.

(** A volume with an empty table, and one with its root directory. *)
Definition no_params : mount_nfs_params := mkParams 0 (Some []) (Some []) 0 0 (Some []).
Definition empty_ns {W} (w : W) : fs_nspace W :=
  mkNs w 1 (mkAddr 1 0 0) (mkAddr 1 0 0) 0 1 None ∅ 0 no_params.

Lemma empty_table {W} (w : W) : table (empty_ns w) [] ∅.
Proof. split; cbn; try done; [constructor|constructor]. Qed.

Lemma node_table_refines_witness :
  table (empty_ns tt) [] ∅ ∧ remove_node 7 (empty_ns tt) = Ok (tt, empty_ns tt) ∧
  handle_from_vnid 7 (empty_ns tt) = Bad NullDeref.
Proof.
  split; [apply empty_table|]. split; [vm_compute; reflexivity|].
  apply (node_table_refines (empty_ns tt) [] ∅ (empty_table tt)).
Defined.

Lemma fs_read_vnode_keeps_lock_witness :
  table (empty_ns tt) [] ∅ ∧
  ∃ ns', fs_read_vnode 7 false (empty_ns tt) = Ok (inl EINVAL, ns') ∧ insert_node 0 ns' = Bad Deadlock.
Proof.
  split; [apply empty_table|].
  destruct (fs_read_vnode_keeps_lock (empty_ns tt) [] ∅ 7 (empty_table tt) eq_refl)
    as (ns' & E & _ & _ & _ & Hi & _). exists ns'. split; [exact E|apply Hi].
Defined.
