(* ===== verification/NfsHooks.v ===== *)
(** The file system hooks of the NFS client (src/add-ons/kernel/file_systems/
    nfs/nfs_add_on.c, [sNFSVnodeOps] and [sNFSVolumeOps]): directory walking and
    reading, stat, open/read/write, create, unlink, mkdir, rename, rmdir and
    symbolic links, with every guard and early return of the code.

    The kernel services the hooks call are the class [Vfs].  A hook's [fs_node]
    arguments are the addresses of the nodes the VFS keeps as [private_node].
    Loops that ask the server again ([fs_readdir], [fs_read], [fs_write]) take
    a bound on their turns; [Hang] is an exhausted bound. *)

From S2P Require Import Prelude Errors Xdr LinkedList RpcCalls NfsProto NfsNodes.

Inductive notification : Type :=
  | StatChanged (vnid mask : Z)
  | EntryCreated (dir : Z) (name : list Z) (vnid : Z)
  | EntryRemoved (dir : Z) (name : list Z) (vnid : Z)
  | EntryMoved (olddir : Z) (oldname : list Z) (newdir : Z) (newname : list Z) (vnid : Z).

(** [m] keeps [P] on every return. *)
Definition keeps {S A} (P : S → Prop) (m : M S A) : Prop :=
  ∀ s a s', P s → m s = Ok (a, s') → P s'.

(** A property of a volume that does not look at the outside world. *)
Definition local {W} (P : fs_nspace W → Prop) : Prop := ∀ w ns, P ns → P (set_world w ns).

(** The VFS and the clock.  [get_vnode] may call the file system's
    [fs_read_vnode] hook (reentrantly) and [put_vnode] its [fs_remove_vnode]
    hook; they reach the volume in no other way. *)
Class Vfs (W : Type) := {
  vfs_time : M W Z;
  vfs_notify : notification → M W Z;
  remove_vnode : Z → M W Z;
  publish_vnode : Z → Z → Z → M W Z;      (* vnode id, private node, type *)
  get_vnode : (Z → bool → M (fs_nspace W) (Z + (Z * Z))) → Z → M (fs_nspace W) Z;
  put_vnode : (Z → M (fs_nspace W) Z) → Z → M (fs_nspace W) Z;
  get_vnode_hook P hook v :
    local P → (∀ u, keeps P (hook u true)) → keeps P (get_vnode hook v);
  put_vnode_hook P hook v :
    local P → (∀ a, keeps P (hook a)) → keeps P (put_vnode hook v)
}.

Definition dot : list Z := [46].
Definition dotdot : list Z := [46; 46].
Definition UINT32_MAX : Z := 2 ^ 32 - 1.
Definition B_FILE_NAME_LENGTH : Z := 256.
Definition NFS_FS_FLAGS : Z := 0x0c.
(** "nfs://" *)
Definition nfs_prefix : list Z := [110; 102; 115; 58; 47; 47].

Record fs_file_cookie : Type := mkCookie {
  c_omode : Z; original_size : Z; c_st : stat
}.

(** [fs_readdir] while it runs: the directory cookie, [*num], [bufsize], the
    bytes really left behind [buf], and the entries written so far. *)
Record rd_state : Type := mkRd {
  rd_cookie : list Z; rd_num : Z; rd_bufsize : Z; rd_room : Z; rd_out : list dirent
}.

Inductive rd_step : Type :=
  | RdReturn (status : Z) (rd : rd_state)
  | RdNext (rd : rd_state) (reply : XDRInPacket)
  | RdEnd (rd : rd_state) (eof : Z).

(** [buf + n] for a source or a destination buffer. *)
Definition src_at (src : csrc) (n : Z) : csrc :=
  match src with
  | KernelMem l => KernelMem (drop (Z.to_nat n) l)
  | UserMem r => UserMem (drop (Z.to_nat n) <$> r)
  end.
Definition dst_at (dst : cdst) (n : Z) : cdst :=
  match dst with KernelBuf c => KernelBuf (c - n) | UserBuf c => UserBuf (c - n) end.

Section Hooks.
Context {W : Type} `{Transport W} `{Vfs W} (uninit : Z → Z).
(** Driver settings. *)
Context (conf_ls_root_parent conf_allow_dir_open : bool).
Abbreviation MN := (M (fs_nspace W)).

Definition get_vnode_ (vnid : Z) : MN Z := get_vnode fs_read_vnode vnid.
Definition put_vnode_ (vnid : Z) : MN Z := put_vnode fs_remove_vnode vnid.
Definition notify (n : notification) : MN Z := outside (vfs_notify n).
Definition time : MN Z := outside vfs_time.

(** ** Directories *)

Definition fs_walk (base : Z) (file : list Z) : MN (Z + Z) :=
  b ← get_node base;
  vnid ←? (if bool_decide (file = dot) then ok (n_vnid b)
           else
             newNode ← malloc;
             '(fh, st) ←? nfs_lookup uninit (n_fhandle b) file;
             if negb newNode then failM NullDeref
             else
               _ ← enter_node (s32 (st_mode st)) (st_ino st) fh;
               ok (st_ino st));
  _ ←? check_status (get_vnode_ vnid);
  ok vnid.

Definition fs_opendir (node : Z) : MN (Z + list Z) :=
  n ← get_node node;
  st ←? nfs_getattr uninit (n_fhandle n);
  if negb (S_ISDIR (st_mode st)) then err ENOTDIR
  else
    cookie ← malloc;
    if negb cookie then failM NullDeref else ok (replicate (Z.to_nat NFS_COOKIESIZE) 0).

(** Overwrites the cookie. *)
Definition fs_rewinddir (cookie : list Z) : list Z := replicate (Z.to_nat NFS_COOKIESIZE) 0.

(** One turn of the inner loop of [fs_readdir], after the value-follows flag
    was read as 1. *)
Definition readdir_entry (node : fs_node) (max : Z) (rd : rd_state) (reply : XDRInPacket)
    : MN rd_step :=
  '(vnid, reply) ← liftO (XDRInPacketGetInt32 reply);
  '(str, reply) ← XDRInPacketGetString reply;
  let filename := c_str str in
  '(status, newCookie, reply) ←
    liftO (XDRInPacketGetFixed reply (KernelBuf NFS_COOKIESIZE) NFS_COOKIESIZE);
  if negb (status =? NFS_OK) then mret (RdReturn (map_nfs_to_system_error status) rd)
  else
    ns ← getS;
    r ← (if conf_ls_root_parent || negb (rootid ns =? n_vnid node)
            || bool_decide (filename ≠ dotdot) then
           newNode ← malloc;
           if negb newNode then failM NullDeref
           else
             '(fh, st) ←? (r ← nfs_lookup uninit (n_fhandle node) filename;
                           match r with inl e => err (RdReturn e rd) | inr x => ok x end);
             _ ← enter_node (s32 (st_mode st)) vnid fh;
             if rd_bufsize rd <? 2 * (4 + 8) + 2 + zlen filename + 1
             then err (RdReturn B_OK rd)
             else if rd_room rd <? DIRENT_NAME + zlen filename + 1 then failM OutOfBounds
             else
               let d := mkDirent (nsid ns) (nsid ns) vnid (n_vnid node)
                          (u16 (DIRENT_NAME + zlen filename + 1)) filename in
               ok (mkRd newCookie (u32 (rd_num rd + 1)) (u64 (rd_bufsize rd - d_reclen d))
                     (rd_room rd - d_reclen d) (rd_out rd ++ [d]))
         else ok (mkRd newCookie (rd_num rd) (rd_bufsize rd) (rd_room rd) (rd_out rd)));
    match r with
    | inl ret => mret ret
    | inr rd => if rd_num rd =? max then mret (RdReturn B_OK rd) else mret (RdNext rd reply)
    end.

(** [while (XDRInPacketGetInt32(&reply) == 1) { ... } eof = XDRInPacketGetInt32(&reply);] *)
Fixpoint readdir_entries (fuel : nat) (node : fs_node) (max : Z) (rd : rd_state)
    (reply : XDRInPacket) : MN rd_step :=
  match fuel with
  | O => hangM
  | S fuel =>
      '(follows, reply) ← liftO (XDRInPacketGetInt32 reply);
      if follows =? 1 then
        step ← readdir_entry node max rd reply;
        match step with
        | RdNext rd reply => readdir_entries fuel node max rd reply
        | _ => mret step
        end
      else
        '(eof, _) ← liftO (XDRInPacketGetInt32 reply);
        mret (RdEnd rd eof)
  end.

(** An entry takes at least the four bytes of its flag. *)
Definition reply_fuel (reply : XDRInPacket) : nat := S (length (default [] (iBuffer reply))).

(** [do { ... } while (eof == 0);] *)
Fixpoint readdir_loop (fuel : nat) (node : fs_node) (count max : Z) (rd : rd_state)
    : MN (Z * rd_state) :=
  match fuel with
  | O => hangM
  | S fuel =>
      reply ← nfs_call uninit B_ERROR NFSPROC_READDIR
                [XFixed (n_fhandle node); XFixed (rd_cookie rd); XInt count];
      match reply with
      | inl e => mret (e, rd)
      | inr reply =>
          step ← readdir_entries (reply_fuel reply) node max rd reply;
          match step with
          | RdReturn status rd => mret (status, rd)
          | RdNext rd _ => mret (B_OK, rd)
          | RdEnd rd eof =>
              if eof =? 0 then readdir_loop fuel node count max rd else mret (B_OK, rd)
          end
      end
  end.

(** [buf] has [room] bytes; [max] is [*num] on entry. *)
Definition fs_readdir (fuel : nat) (node : Z) (cookie : list Z) (room bufsize max : Z)
    : MN (Z * rd_state) :=
  let count := Z.min 6000 (u32 (max * 300)) in
  n ← get_node node;
  readdir_loop fuel n count max (mkRd cookie 0 bufsize room []).

(** ** Attributes *)

Definition fs_rstat (node : Z) : MN (Z + stat) :=
  n ← get_node node;
  st ←? nfs_getattr uninit (n_fhandle n);
  ns ← getS;
  ok (mkStat (nsid ns) (st_ino st) (st_mode st) (st_nlink st) (st_uid st) (st_gid st)
        (st_size st) (st_rdev st) (st_blksize st) (st_atime st) (st_mtime st)
        (st_ctime st) (st_crtime st) (st_blocks st)).

Definition pick (mask flag v v' : Z) : Z := if has_flag mask flag then v else v'.

Definition fs_wstat (node : Z) (st : stat) (mask : Z) : MN (Z + unit) :=
  n ← get_node node;
  _ ←? nfs_call uninit EHOSTUNREACH NFSPROC_SETATTR
         [XFixed (n_fhandle n);
          XInt (pick mask B_STAT_MODE (st_mode st) UINT32_MAX);
          XInt (pick mask B_STAT_UID (st_uid st) UINT32_MAX);
          XInt (pick mask B_STAT_GID (st_gid st) UINT32_MAX);
          XInt (pick mask B_STAT_SIZE (st_size st) UINT32_MAX);
          XInt (pick mask B_STAT_ACCESS_TIME (st_atime st) (-1));
          XInt (pick mask B_STAT_ACCESS_TIME 0 UINT32_MAX);
          XInt (pick mask B_STAT_MODIFICATION_TIME (st_mtime st) (-1));
          XInt (pick mask B_STAT_MODIFICATION_TIME 0 UINT32_MAX)];
  return_status (notify (StatChanged (n_vnid n) mask)) tt.

Definition fs_rfsstat : MN (Z + fs_info) :=
  ns ← getS;
  rootHandle ← handle_from_vnid (rootid ns);
  reply ←? nfs_call uninit EHOSTUNREACH NFSPROC_STATFS [XFixed rootHandle];
  '(_, reply) ← liftO (XDRInPacketGetInt32 reply);               (* tsize *)
  '(block_size, reply) ← liftO (XDRInPacketGetInt32 reply);
  '(total_blocks, reply) ← liftO (XDRInPacketGetInt32 reply);
  '(free_blocks, reply) ← liftO (XDRInPacketGetInt32 reply);
  ns ← getS;
  match server (ns_params ns), _export (ns_params ns) with
  | Some server, Some export =>
      let name := nfs_prefix ++ server ++ export in
      if B_FILE_NAME_LENGTH <? zlen name + 1 then failM OutOfBounds
      else ok (mkInfo (nsid ns) (rootid ns) NFS_FS_FLAGS block_size 8192 total_blocks free_blocks
                 100 100 name [110; 102; 115])
  | _, _ => failM NullDeref
  end.

(** ** Files *)

(** The cookie is NULL for a directory. *)
Definition fs_open (node omode : Z) : MN (Z + option fs_file_cookie) :=
  n ← get_node node;
  st ←? nfs_getattr uninit (n_fhandle n);
  if S_ISDIR (st_mode st) then
    if conf_allow_dir_open then ok None else err EISDIR
  else
    cookie ← malloc;
    if negb cookie then failM NullDeref
    else ok (Some (mkCookie omode (st_size st) st)).

(** The loop while the length is below [max]: [dst] is [buf], [got] the bytes delivered so far,
    [len] their number as [*len] counts them. *)
Fixpoint read_loop (fuel : nat) (node : fs_node) (cookie : fs_file_cookie) (pos : Z)
    (dst : cdst) (got : list Z) (len max : Z) : MN (Z * list Z * Z * fs_file_cookie) :=
  match fuel with
  | O => hangM
  | S fuel =>
      if negb (len <? max) then mret (B_OK, got, len, cookie)
      else
        let count := Z.min NFS_MAXDATA (max - len) in
        reply ← nfs_call uninit B_ERROR NFSPROC_READ
                  [XFixed (n_fhandle node); XInt pos; XInt count; XInt 0];
        match reply with
        | inl e => mret (e, got, len, cookie)
        | inr reply =>
            '(st, reply) ← liftO (get_nfs_attr reply);
            let cookie := mkCookie (c_omode cookie) (original_size cookie) st in
            '(e, readbytes, bs, _) ← liftO (XDRInPacketGetDynamic reply dst);
            if negb (e =? B_OK) then mret (e, got, len, cookie)
            else
              let len := u64 (len + readbytes) in
              let pos := s64 (pos + readbytes) in
              if bool_decide (st_size st ≤ pos) then mret (B_OK, got ++ bs, len, cookie)
              else read_loop fuel node cookie pos (dst_at dst readbytes) (got ++ bs) len max
        end
  end.

(** Answers the status, the bytes delivered, [*len] and the cookie. *)
Definition fs_read (fuel : nat) (node : Z) (cookie : option fs_file_cookie) (pos : Z)
    (dst : cdst) (max : Z) : MN (Z * list Z * Z * option fs_file_cookie) :=
  match cookie with
  | None => mret (EISDIR, [], 0, None)
  | Some cookie =>
      n ← get_node node;
      '(e, got, len, cookie) ← read_loop fuel n cookie pos dst [] 0 max;
      mret (e, got, len, Some cookie)
  end.

(** The loop while [bytesWritten] is below the length. *)
Fixpoint write_loop (fuel : nat) (node : fs_node) (cookie : fs_file_cookie) (pos : Z)
    (src : csrc) (bytesWritten len : Z) : MN (Z * fs_file_cookie) :=
  match fuel with
  | O => hangM
  | S fuel =>
      if negb (bytesWritten <? len) then mret (B_OK, cookie)
      else
        let count := Z.min NFS_MAXDATA (len - bytesWritten) in
        call ← put_items uninit XDROutPacketInit
                 [XFixed (n_fhandle node); XInt 0; XInt (pos + bytesWritten); XInt 0];
        '(e, call) ← XDROutPacketAddDynamic uninit call (src_at src bytesWritten) count;
        if negb (e =? B_OK) then mret (e, cookie)
        else
          reply ← (reply ←? call_server B_ERROR NFS_PROGRAM NFS_VERSION NFSPROC_WRITE nfsAddr call;
                   check_nfs_status reply);
          match reply with
          | inl e => mret (e, cookie)
          | inr reply =>
              '(st, _) ← liftO (get_nfs_attr reply);
              write_loop fuel node (mkCookie (c_omode cookie) (original_size cookie) st) pos src
                (u64 (bytesWritten + count)) len
          end
  end.

Definition fs_write (fuel : nat) (node : Z) (cookie : option fs_file_cookie) (pos : Z)
    (src : csrc) (len : Z) : MN (Z * option fs_file_cookie) :=
  match cookie with
  | None => mret (EISDIR, None)
  | Some cookie =>
      let pos := if has_flag (c_omode cookie) O_APPEND
                 then s64 (pos + original_size cookie) else pos in
      n ← get_node node;
      '(e, cookie) ← write_loop fuel n cookie pos src 0 len;
      mret (e, Some cookie)
  end.

(** ** Creating and removing entries *)

(** The [sattr] of a creation: mode, no owner, the size, now. *)
Definition new_sattr (mode size t1 t2 : Z) : list xdr_item :=
  [XInt mode; XInt (-1); XInt (-1); XInt size; XInt t1; XInt 0; XInt t2; XInt 0].

(** The branch of [fs_create] on an existing entry. *)
Definition create_existing (fhandle : nfs_fhandle) (st : stat) (omode : Z)
    : MN (Z + (fs_file_cookie * Z)) :=
  newNode ← malloc;
  if negb newNode then err B_NO_MEMORY
  else
    _ ← enter_node (s32 (st_mode st)) (st_ino st) fhandle;
    _ ←? check_status (get_vnode_ (st_ino st));
    if S_ISDIR (st_mode st) then err EISDIR
    else if has_flag omode O_EXCL then err EEXIST
    else
      _ ←? (if has_flag omode O_TRUNC
            then nfs_truncate_file uninit vfs_time fhandle false else ok None);
      cookie ← malloc;
      if negb cookie then err B_NO_MEMORY
      else ok (mkCookie omode (st_size st) st, st_ino st).

(** The branch on a new one. *)
Definition create_new (dir : fs_node) (name : list Z) (omode perms : Z)
    : MN (Z + (fs_file_cookie * Z)) :=
  if negb (has_flag omode O_CREAT) then err ENOENT
  else
    t1 ← time;
    t2 ← time;
    reply ←? nfs_call uninit B_ERROR NFSPROC_CREATE
               ([XFixed (n_fhandle dir); XString name] ++
                new_sattr (Z.lor perms S_IFREG) 0 t1 t2);
    '(fhandle, reply) ←? get_fhandle reply;
    '(st, _) ← liftO (get_nfs_attr reply);
    newNode ← malloc;
    if negb newNode then err B_NO_MEMORY
    else
      newNode ← enter_node (s32 (st_mode st)) (st_ino st) fhandle;
      cookie ← malloc;
      if negb cookie then err B_NO_MEMORY
      else
        _ ←? check_status (outside (publish_vnode (st_ino st) newNode S_IFREG));
        return_status (notify (EntryCreated (n_vnid dir) name (st_ino st)))
          (mkCookie omode (st_size st) st, st_ino st).

Definition fs_create (dir : Z) (name : list Z) (omode perms : Z)
    : MN (Z + (fs_file_cookie * Z)) :=
  d ← get_node dir;
  result ← nfs_lookup uninit (n_fhandle d) name;
  match result with
  | inr (fhandle, st) => create_existing fhandle st omode
  | inl e => if negb (e =? ENOENT) then err e else create_new d name omode perms
  end.

(** [fs_unlink] and [fs_rmdir] differ in the kind of node they accept, the
    error for another kind, and the procedure they call. *)
Definition remove_entry (wrong_kind : Z → bool) (kind_error proc : Z) (dir : Z)
    (name : list Z) : MN (Z + unit) :=
  d ← get_node dir;
  '(fhandle, st) ←? nfs_lookup uninit (n_fhandle d) name;
  newNode ← malloc;
  if negb newNode then err B_NO_MEMORY
  else
    _ ← enter_node (s32 (st_mode st)) (st_ino st) fhandle;
    _ ←? check_status (get_vnode_ (st_ino st));
    if wrong_kind (st_mode st) then err kind_error
    else
      _ ←? check_status (outside (remove_vnode (st_ino st)));
      _ ←? check_status (put_vnode_ (st_ino st));
      d ← get_node dir;
      _ ←? nfs_call uninit EHOSTUNREACH proc [XFixed (n_fhandle d); XString name];
      return_status (notify (EntryRemoved (n_vnid d) name (st_ino st))) tt.

Definition fs_unlink : Z → list Z → MN (Z + unit) :=
  remove_entry (λ mode, negb (S_ISREG mode) && negb (S_ISLNK mode)) EISDIR NFSPROC_REMOVE.

Definition fs_rmdir : Z → list Z → MN (Z + unit) :=
  remove_entry (λ mode, negb (S_ISDIR mode)) ENOTDIR NFSPROC_RMDIR.

Definition fs_mkdir (dir : Z) (name : list Z) (perms : Z) : MN (Z + unit) :=
  d ← get_node dir;
  result ← nfs_lookup uninit (n_fhandle d) name;
  match result with
  | inr _ => err EEXIST
  | inl e =>
      if negb (e =? ENOENT) then err e
      else
        t1 ← time;
        t2 ← time;
        reply ←? nfs_call uninit B_ERROR NFSPROC_MKDIR
                   ([XFixed (n_fhandle d); XString name] ++
                    new_sattr (Z.lor perms S_IFDIR) (-1) t1 t2);
        '(fhandle, reply) ←? get_fhandle reply;
        '(st, _) ← liftO (get_nfs_attr reply);
        newNode ← malloc;
        if negb newNode then err B_NO_MEMORY
        else
          _ ← enter_node (s32 (st_mode st)) (st_ino st) fhandle;
          return_status (notify (EntryCreated (n_vnid d) name (st_ino st))) tt
  end.

Definition fs_rename (olddir : Z) (oldname : list Z) (newdir : Z) (newname : list Z)
    : MN (Z + unit) :=
  nd ← get_node newdir;
  result ← nfs_lookup uninit (n_fhandle nd) newname;
  _ ←? match result with
       | inr (_, st) =>
           if S_ISREG (st_mode st) then fs_unlink newdir newname else fs_rmdir newdir newname
       | inl _ => ok tt
       end;
  od ← get_node olddir;
  '(_, st) ←? nfs_lookup uninit (n_fhandle od) oldname;
  nd ← get_node newdir;
  _ ←? nfs_call uninit EHOSTUNREACH NFSPROC_RENAME
         [XFixed (n_fhandle od); XString oldname; XFixed (n_fhandle nd); XString newname];
  return_status (notify (EntryMoved (n_vnid od) oldname (n_vnid nd) newname (st_ino st))) tt.

(** Answers the bytes copied into [buf] and [*bufsize]. *)
Definition fs_readlink (node bufsize : Z) : MN (Z + (list Z * Z)) :=
  n ← get_node node;
  reply ←? nfs_call uninit EHOSTUNREACH NFSPROC_READLINK [XFixed (n_fhandle n)];
  '(_, length, data, _) ← liftO (XDRInPacketGetDynamic reply (KernelBuf NFS_MAXPATHLEN));
  ok (take (Z.to_nat (Z.min length bufsize)) data, length).

(** The status of the SYMLINK call is read and ignored.  The mode of the new
    node is not assigned: it is what [malloc] left there. *)
Definition fs_symlink (dir : Z) (name path : list Z) : MN (Z + unit) :=
  d ← get_node dir;
  result ← nfs_lookup uninit (n_fhandle d) name;
  match result with
  | inr (_, st) => _ ←? check_status (get_vnode_ (st_ino st)); err EEXIST
  | inl e =>
      if negb (e =? ENOENT) then err e
      else
        t1 ← time;
        t2 ← time;
        call ← put_items uninit XDROutPacketInit
                 ([XFixed (n_fhandle d); XString name; XString path] ++
                  new_sattr S_IFLNK (-1) t1 t2);
        reply ←? call_server B_ERROR NFS_PROGRAM NFS_VERSION NFSPROC_SYMLINK nfsAddr call;
        _ ← liftO (XDRInPacketGetInt32 reply);
        '(fhandle, st) ←? nfs_lookup uninit (n_fhandle d) name;
        newNode ← malloc;
        if negb newNode then err B_NO_MEMORY
        else
          _ ← enter_node (uninit 0) (st_ino st) fhandle;
          return_status (notify (EntryCreated (n_vnid d) name (st_ino st))) tt
  end.
End Hooks.
