(* ===== verification/NfsInv.v ===== *)
(** The invariant of a mounted NFS volume: every hook, on every answer of the
    server and of the VFS, keeps the node table well formed and gives the
    volume's lock back, but for one failing path of [fs_read_vnode].  Proved by one rule per construct of the hooks and a
    tactic that follows their structure; reachability by induction over
    sequences of hook calls. *)

From S2P Require Import Prelude Errors Xdr LinkedList RpcCalls NfsProto NfsNodes NfsHooks.

(** * A logic for partial correctness with an invariant

    [inv P m R]: started in [P], [m] returns only in [P] and with a result in
    [R]. *)

Definition inv {S A} (P : S → Prop) (m : M S A) (R : A → Prop) : Prop :=
  ∀ s a s', P s → m s = Ok (a, s') → P s' ∧ R a.

Definition any {A} (_ : A) : Prop := True.
Definition on_ok {E A} (R : A → Prop) (r : E + A) : Prop :=
  match r with inr a => R a | inl _ => True end.

Lemma any_intro {A} (a : A) : any a.
Proof. exact I. Qed.

Lemma on_ok_any {E A} (r : E + A) : on_ok any r.
Proof. by destruct r. Qed.

Create HintDb inv.
#[export] Hint Resolve any_intro on_ok_any : inv.

Section Rules.
Context {S : Type} (P : S → Prop).

Lemma inv_any {A} (m : M S A) R : inv P m R → inv P m any.
Proof. intros Hm s a s' Hs E. destruct (Hm s a s' Hs E). done. Qed.

Lemma inv_keeps {A} (m : M S A) : keeps P m → inv P m any.
Proof. intros Hm s a s' Hs E. split; [by eapply Hm|done]. Qed.

Lemma keeps_inv {A} (m : M S A) R : inv P m R → keeps P m.
Proof. intros Hm s a s' Hs E. by destruct (Hm s a s' Hs E). Qed.

Lemma inv_ret {A} (a : A) (R : A → Prop) : R a → inv P (mret a) R.
Proof. intros Ha s a' s' Hs [= <- <-]. done. Qed.

Lemma inv_bind {A B} (m : M S A) (k : A → M S B) R R' :
  inv P m R → (∀ a, R a → inv P (k a) R') → inv P (m ≫= k) R'.
Proof.
  intros Hm Hk s b s' Hs (a & s1 & E1 & E2)%bind_inv.
  destruct (Hm s a s1 Hs E1) as [Hs1 Ha]. by eapply Hk.
Qed.

Lemma inv_try {A B E} (m : M S (E + A)) (k : A → M S (E + B)) R R' :
  inv P m (on_ok R) → (∀ a, R a → inv P (k a) (on_ok R')) → inv P (try_bind m k) (on_ok R').
Proof.
  intros Hm Hk. eapply inv_bind; [exact Hm|]. intros [e|a] Ha; [by apply inv_ret|by apply Hk].
Qed.

Lemma inv_getS : inv P getS P.
Proof. intros s a s' Hs [= <- <-]. done. Qed.

Lemma inv_liftO {A} (o : outcome A) : inv P (liftO o) (λ a, o = Ok a).
Proof. intros s a s' Hs E. destruct o; simplify_eq/=. done. Qed.

Lemma inv_failM {A} f (R : A → Prop) : inv P (failM f) R.
Proof. intros s a s' Hs [=]. Qed.

Lemma inv_hangM {A} (R : A → Prop) : inv P hangM R.
Proof. intros s a s' Hs [=]. Qed.

Lemma inv_ok {E A} (a : A) (R : A → Prop) : R a → inv P (ok (E := E) a) (on_ok R).
Proof. intros. by apply inv_ret. Qed.

Lemma inv_err {E A} (e : E) (R : A → Prop) : inv P (err e) (on_ok R).
Proof. by apply inv_ret. Qed.
End Rules.

(** Follows the structure of a program; known operations come from [inv]. *)
Ltac inv_prog :=
  repeat lazymatch goal with
  | |- inv _ _ _ => first
      [ solve [eauto with inv]
      | lazymatch goal with
        | |- inv _ (try_bind _ _) any => apply (inv_any _ _ (on_ok any))
        | |- inv _ (ok _) any => apply (inv_any _ _ (on_ok any))
        | |- inv _ (err _) any => apply (inv_any _ _ (on_ok any))
        | |- inv _ (mret _) _ => apply inv_ret
        | |- inv _ (ok _) _ => apply inv_ok
        | |- inv _ (err _) _ => apply inv_err
        | |- inv _ (failM _) _ => apply inv_failM
        | |- inv _ hangM _ => apply inv_hangM
        | |- inv _ (try_bind _ _) _ =>
            first [ eapply inv_try; [solve [eauto with inv]|intros]
                  | apply (inv_try _ _ _ any); [|intros] ]
        | |- inv _ (mbind _ _) _ =>
            first [ eapply inv_bind; [solve [eauto with inv]|intros]
                  | eapply inv_bind; [apply inv_liftO|intros]
                  | eapply inv_bind; [apply inv_getS|intros]
                  | apply (inv_bind _ _ _ any); [|intros] ]
        | |- inv _ getS _ => apply inv_getS
        | |- inv _ (liftO _) _ => apply inv_liftO
        | |- inv _ (match ?x with _ => _ end) _ => destruct x eqn:?
        end ]
  end; eauto with inv.

Section Volume.
Context {W : Type} `{Transport W} `{Vfs W} (uninit : Z → Z).
Implicit Types ns : fs_nspace W.
Abbreviation MN := (M (fs_nspace W)).

(** The invariant: the node table is well formed, and the lock free. *)
Definition table_ok ns : Prop := ∃ l m, table ns l m.

(** The same, whether the lock is free or was left held. *)
Definition table_at (free : bool) ns : Prop :=
  table_ok (set_ns_sem 1 ns) ∧ ns_sem ns = if free then 1 else 0.

Lemma set_sem_same k ns : ns_sem ns = k → set_ns_sem k ns = ns.
Proof. destruct ns; by intros <-. Qed.

Lemma table_at_free ns : table_at true ns ↔ table_ok ns.
Proof.
  split; [intros [Ht Hs]; by rewrite (set_sem_same 1) in Ht|]. intros (l & m & Ht). pose proof (tb_lock _ _ _ Ht) as Hs.
  split; [rewrite (set_sem_same 1) by done; by exists l, m|done].
Qed.

Lemma table_local ns l m w : table ns l m → table (set_world w ns) l m.
Proof. intros [Hc Hu Hm Hf Hh Hl]. by split. Qed.

Context (free : bool).

Lemma table_at_local : local (W := W) (table_at free).
Proof. intros w ns [(l & m & Ht) Hs]. split; [|done]. exists l, m. by apply (table_local (set_ns_sem 1 ns)). Qed.

Lemma acquire_ns_held ns : ns_sem ns = 0 → acquire_ns (W := W) ns = Bad Deadlock.
Proof. intros Hs. unfold acquire_ns. mrun. by rewrite Hs. Qed.

(** An operation that takes the lock: with the lock held it does not return. *)
Lemma inv_locked {A} (m : MN A) R :
  inv table_ok m R → (∀ ns, ns_sem ns = 0 → m ns = Bad Deadlock) → inv (table_at free) m R.
Proof.
  intros Hm Hd ns a ns' Hns E. destruct free.
  - destruct (Hm ns a ns') as [H1 H2]; [by apply table_at_free|done|]. split; [by apply table_at_free|done].
  - destruct Hns as [_ Hs]. by rewrite Hd in E.
Qed.

Lemma inv_outside {A} (m : M W A) : inv (table_at free) (outside m) any.
Proof.
  intros ns a ns' Hns E. unfold outside in E. destruct (m (ns_world ns)) as [[b w]| |]; simplify_eq.
  split; [by apply table_at_local|done].
Qed.

Lemma inv_malloc : inv (table_at free) malloc any.
Proof.
  intros ns a ns' Hns E. unfold malloc in E. cbn in E.
  destruct (alloc_next (ns_world ns)) as [b w]. simplify_eq.
  split; [by apply table_at_local|done].
Qed.

Lemma inv_get_node a : inv (table_at free) (get_node a) (λ n, fh_ok (n_fhandle n)).
Proof.
  intros ns n ns' Hns E. unfold get_node, deref in E. rewrite bind_getS in E.
  destruct (ns_nodes ns !! a) as [k|] eqn:Ek; simplify_eq/=.
  split; [done|]. destruct Hns as [(l & m & Ht) _]. by eapply (tb_handles _ _ _ Ht).
Qed.

(** A new node is made before the lock is taken. *)
Lemma inv_enter_node mode vnid fh : fh_ok fh → inv (table_at free) (enter_node mode vnid fh) any.
Proof.
  intros Hfh. apply inv_locked.
  2:{ intros ns Hs. unfold enter_node, new_node. mrun. by apply bind_Bad, bind_Bad, acquire_ns_held. }
  intros ns a ns' (l & m & Ht) E.
  destruct (enter_node_run ns l m mode vnid fh Ht Hfh) as (ns1 & l1 & E1 & Ht1 & _).
  rewrite E1 in E. simplify_eq. split; [by eexists _, _|done].
Qed.

Lemma inv_handle_from_vnid vnid : inv (table_at free) (handle_from_vnid vnid) any.
Proof.
  apply inv_locked; [|intros ns Hs; by apply bind_Bad, acquire_ns_held]. intros ns fh ns' (l & m & Ht) E. rewrite (handle_from_vnid_run ns l m vnid Ht) in E.
  destruct (m !! vnid) as [[mode fh']|]; simplify_eq. split; [by exists l, m|done].
Qed.

(** The file system's own call does not take the lock. *)
Lemma inv_read_vnode u : inv (table_at free) (fs_read_vnode u true) any.
Proof.
  intros ns r ns' Hns E. split; [|done]. replace ns' with ns; [done|].
  unfold fs_read_vnode in E. apply bind_inv in E as ([] & s0 & [= <-] & E). apply bind_inv in E as ([p [a|]] & s1 & E1 & E);
    (unfold find_node in E1; apply bind_inv in E1 as (? & ? & [= <- <-] & E1); unfold liftO in E1; destruct (walk _ _ _ _ _) in E1; simplify_eq); [|by injection E].
  apply bind_inv in E as (n & s2 & E2 & E). unfold get_node in E2. apply bind_inv in E2 as (? & ? & [= <- <-] & E2).
  unfold liftO in E2. destruct (deref _ _) in E2; simplify_eq. by injection E.
Qed.

Lemma inv_remove_vnode_hook a : inv (table_at free) (fs_remove_vnode a) any.
Proof.
  unfold fs_remove_vnode. eapply inv_bind; [apply inv_get_node|]. intros n _.
  eapply (inv_bind _ _ _ any); [|intros; by apply inv_ret].
  apply inv_locked; [|intros ns Hs; by apply bind_Bad, acquire_ns_held].
  intros ns r ns' (l & m & Ht) E.
  destruct (remove_node_run ns l m (n_vnid n) Ht) as (ns1 & l1 & E1 & Ht1 & _).
  rewrite E1 in E. simplify_eq. split; [by eexists _, _|exact I].
Qed.

Lemma inv_get_vnode v : inv (table_at free) (get_vnode_ v) any.
Proof.
  apply inv_keeps, get_vnode_hook; [apply table_at_local|].
  intros u. eapply keeps_inv, inv_read_vnode.
Qed.

Lemma inv_put_vnode v : inv (table_at free) (put_vnode_ v) any.
Proof.
  apply inv_keeps, put_vnode_hook; [apply table_at_local|].
  intros a. eapply keeps_inv, inv_remove_vnode_hook.
Qed.

Lemma inv_notify n : inv (table_at free) (notify n) any.
Proof. apply inv_outside. Qed.

Lemma inv_time : inv (table_at free) time any.
Proof. apply inv_outside. Qed.
End Volume.

#[export] Hint Resolve inv_outside inv_malloc inv_get_node inv_enter_node inv_handle_from_vnid
  inv_get_vnode inv_put_vnode inv_notify inv_time : inv.

Section Procs.
Context {W : Type} `{Transport W} `{Vfs W} (uninit : Z → Z) (free : bool).
Abbreviation MN := (M (fs_nspace W)).

Lemma inv_put_item p i : inv (table_at free) (put_item (S := fs_nspace W) uninit p i) any.
Proof.
  destruct i; unfold put_item, XDROutPacketAddString, XDROutPacketAddDynamic,
    XDROutPacketAddFixed, XDROutPacketAddInt32, XDROutPacketGrow; inv_prog.
Qed.

Lemma inv_put_items l : ∀ p, inv (table_at free) (put_items (S := fs_nspace W) uninit p l) any.
Proof.
  induction l as [|i l IH]; intros p; cbn [put_items]; [by apply inv_ret|].
  eapply inv_bind; [apply inv_put_item|]. intros. apply IH.
Qed.

Lemma inv_add_dynamic p src n :
  inv (table_at free) (XDROutPacketAddDynamic (S := fs_nspace W) uninit p src n) any.
Proof.
  unfold XDROutPacketAddDynamic, XDROutPacketAddFixed, XDROutPacketAddInt32, XDROutPacketGrow.
  inv_prog.
Qed.

Lemma inv_call_server e prog vers proc addr call :
  inv (table_at free) (call_server (W := W) e prog vers proc addr call) (on_ok any).
Proof. unfold call_server. inv_prog. Qed.

Lemma inv_check_nfs_status reply : inv (table_at free) (check_nfs_status (W := W) reply) (on_ok any).
Proof. unfold check_nfs_status. inv_prog. Qed.
End Procs.
#[export] Hint Resolve inv_put_items inv_add_dynamic inv_call_server inv_check_nfs_status : inv.

Lemma GetFixed_kernel_length p n st bs p' :
  0 < n → XDRInPacketGetFixed p (KernelBuf n) n = Ok (st, bs, p') → zlen bs = n.
Proof.
  intros Hn. unfold XDRInPacketGetFixed, peek. destruct (iBuffer p) as [b|].
  - destruct (load_bytes (fOffset p) n b) as [r| |] eqn:E; cbn [mbind outcome_bind]; try done.
    apply load_bytes_inv in E as (? & ? & ? & ->). case_bool_decide; [|done].
    intros [= _ <- _]. by apply slice_length.
  - rewrite (bool_decide_false (n = 0)) by lia. done.
Qed.

Section HookInv.
Context {W : Type} `{Transport W} `{Vfs W} (uninit : Z → Z) (free : bool).
Context (conf_ls_root_parent conf_allow_dir_open : bool).
Abbreviation MN := (M (fs_nspace W)).

Lemma inv_get_fhandle reply :
  inv (table_at free) (get_fhandle (W := W) reply) (on_ok (λ r, fh_ok r.1)).
Proof.
  unfold get_fhandle. eapply inv_bind; [apply inv_liftO|]. intros [[st fh] reply'] E.
  inv_prog. by apply GetFixed_kernel_length in E.
Qed.
Hint Resolve inv_get_fhandle : inv.

Lemma inv_nfs_call e proc items : inv (table_at free) (nfs_call (W := W) uninit e proc items) (on_ok any).
Proof. unfold nfs_call. inv_prog. Qed.
Hint Resolve inv_nfs_call : inv.

Lemma inv_nfs_lookup dir name :
  inv (table_at free) (nfs_lookup (W := W) uninit dir name) (on_ok (λ r, fh_ok r.1)).
Proof. unfold nfs_lookup. inv_prog. Qed.
Hint Resolve inv_nfs_lookup : inv.

Lemma inv_nfs_getattr fh : inv (table_at free) (nfs_getattr (W := W) uninit fh) (on_ok any).
Proof. unfold nfs_getattr. inv_prog. Qed.
Hint Resolve inv_nfs_getattr : inv.

Lemma inv_truncate t fh b : inv (table_at free) (nfs_truncate_file (W := W) uninit t fh b) (on_ok any).
Proof. unfold nfs_truncate_file. inv_prog. Qed.
Hint Resolve inv_truncate : inv.

Lemma inv_check_status (m : MN Z) : inv (table_at free) m any → inv (table_at free) (check_status m) (on_ok any).
Proof. intros. unfold check_status. inv_prog. Qed.

Lemma inv_return_status {A} (m : MN Z) (a : A) :
  inv (table_at free) m any → inv (table_at free) (return_status m a) (on_ok any).
Proof. intros. unfold return_status. inv_prog. Qed.
Hint Resolve inv_check_status inv_return_status : inv.

Lemma inv_fs_walk base file : inv (table_at free) (fs_walk uninit base file) (on_ok any).
Proof. unfold fs_walk. inv_prog. Qed.

Lemma inv_fs_opendir node : inv (table_at free) (fs_opendir uninit node) (on_ok any).
Proof. unfold fs_opendir. inv_prog. Qed.

Lemma inv_lookup_or_return dir name rd :
  inv (table_at free) (r ← nfs_lookup (W := W) uninit dir name;
                match r with inl e => err (RdReturn e rd) | inr x => ok x end)
    (on_ok (λ r, fh_ok r.1)).
Proof. inv_prog. Qed.
Hint Resolve inv_lookup_or_return : inv.

Lemma inv_readdir_entry node max rd reply :
  inv (table_at free) (readdir_entry uninit conf_ls_root_parent node max rd reply) any.
Proof. unfold readdir_entry, XDRInPacketGetString. inv_prog. Qed.

Lemma inv_readdir_entries fuel node max : ∀ rd reply,
  inv (table_at free) (readdir_entries uninit conf_ls_root_parent fuel node max rd reply) any.
Proof.
  induction fuel as [|fuel IH]; intros rd reply; cbn [readdir_entries]; [apply inv_hangM|].
  pose proof inv_readdir_entry. inv_prog.
Qed.

Lemma inv_readdir_loop fuel node count max : ∀ rd,
  inv (table_at free) (readdir_loop uninit conf_ls_root_parent fuel node count max rd) any.
Proof.
  induction fuel as [|fuel IH]; intros rd; cbn [readdir_loop]; [apply inv_hangM|].
  pose proof inv_readdir_entries. inv_prog.
Qed.
Hint Resolve inv_readdir_loop : inv.

Lemma inv_fs_readdir fuel node cookie room bufsize max :
  inv (table_at free) (fs_readdir uninit conf_ls_root_parent fuel node cookie room bufsize max) any.
Proof. unfold fs_readdir. inv_prog. Qed.

Lemma inv_fs_rstat node : inv (table_at free) (fs_rstat uninit node) (on_ok any).
Proof. unfold fs_rstat. inv_prog. Qed.

Lemma inv_fs_wstat node st mask : inv (table_at free) (fs_wstat uninit node st mask) (on_ok any).
Proof. unfold fs_wstat. inv_prog. Qed.

Lemma inv_fs_rfsstat : inv (table_at free) (fs_rfsstat (W := W) uninit) (on_ok any).
Proof. unfold fs_rfsstat. inv_prog. Qed.

Lemma inv_fs_open node omode :
  inv (table_at free) (fs_open uninit conf_allow_dir_open node omode) (on_ok any).
Proof. unfold fs_open. inv_prog. Qed.

Lemma inv_read_loop fuel node : ∀ cookie pos dst got len max,
  inv (table_at free) (read_loop (W := W) uninit fuel node cookie pos dst got len max) any.
Proof.
  induction fuel as [|fuel IH]; intros; cbn [read_loop]; [apply inv_hangM|]. inv_prog.
Qed.
Hint Resolve inv_read_loop : inv.

Lemma inv_fs_read fuel node cookie pos dst max :
  inv (table_at free) (fs_read uninit fuel node cookie pos dst max) any.
Proof. unfold fs_read. inv_prog. Qed.

Lemma inv_write_loop fuel node : ∀ cookie pos src written len,
  inv (table_at free) (write_loop (W := W) uninit fuel node cookie pos src written len) any.
Proof.
  induction fuel as [|fuel IH]; intros; cbn [write_loop]; [apply inv_hangM|]. inv_prog.
Qed.
Hint Resolve inv_write_loop : inv.

Lemma inv_fs_write fuel node cookie pos src len :
  inv (table_at free) (fs_write uninit fuel node cookie pos src len) any.
Proof. unfold fs_write. inv_prog. Qed.

Lemma inv_create_existing fh st omode :
  fh_ok fh → inv (table_at free) (create_existing (W := W) uninit fh st omode) (on_ok any).
Proof. intros. unfold create_existing. inv_prog. Qed.

Lemma inv_create_new dir name omode perms :
  inv (table_at free) (create_new uninit dir name omode perms) (on_ok any).
Proof. unfold create_new. inv_prog. Qed.
Hint Resolve inv_create_existing inv_create_new : inv.

Lemma inv_fs_create dir name omode perms :
  inv (table_at free) (fs_create uninit dir name omode perms) (on_ok any).
Proof. unfold fs_create. inv_prog. Qed.

Lemma inv_remove_entry wrong e proc dir name :
  inv (table_at free) (remove_entry uninit wrong e proc dir name) (on_ok any).
Proof. unfold remove_entry. inv_prog. Qed.
Hint Resolve inv_remove_entry : inv.

Lemma inv_fs_mkdir dir name perms : inv (table_at free) (fs_mkdir uninit dir name perms) (on_ok any).
Proof. unfold fs_mkdir. inv_prog. Qed.

Lemma inv_fs_rename olddir oldname newdir newname :
  inv (table_at free) (fs_rename uninit olddir oldname newdir newname) (on_ok any).
Proof. unfold fs_rename, fs_unlink, fs_rmdir. inv_prog. Qed.

Lemma inv_fs_readlink node bufsize : inv (table_at free) (fs_readlink uninit node bufsize) (on_ok any).
Proof. unfold fs_readlink. inv_prog. Qed.

Lemma inv_fs_symlink dir name path : inv (table_at free) (fs_symlink uninit dir name path) (on_ok any).
Proof. unfold fs_symlink. inv_prog. Qed.
End HookInv.

(** * Reachable states *)

Inductive hook : Type :=
  | HReadVnode (vnid : Z) (r : bool)
  | HRemoveVnode (node : Z)
  | HWalk (base : Z) (file : list Z)
  | HOpendir (node : Z)
  | HReaddir (fuel : nat) (node : Z) (cookie : list Z) (room bufsize max : Z)
  | HRstat (node : Z)
  | HWstat (node : Z) (st : stat) (mask : Z)
  | HRfsstat
  | HOpen (node omode : Z)
  | HRead (fuel : nat) (node : Z) (cookie : option fs_file_cookie) (pos : Z) (dst : cdst) (max : Z)
  | HWrite (fuel : nat) (node : Z) (cookie : option fs_file_cookie) (pos : Z) (src : csrc) (len : Z)
  | HCreate (dir : Z) (name : list Z) (omode perms : Z)
  | HUnlink (dir : Z) (name : list Z)
  | HRmdir (dir : Z) (name : list Z)
  | HMkdir (dir : Z) (name : list Z) (perms : Z)
  | HRename (olddir : Z) (oldname : list Z) (newdir : Z) (newname : list Z)
  | HReadlink (node bufsize : Z)
  | HSymlink (dir : Z) (name path : list Z).

Section Reach.
Context {W : Type} `{Transport W} `{Vfs W} (uninit : Z → Z).
Context (conf_ls_root_parent conf_allow_dir_open : bool).
Abbreviation MN := (M (fs_nspace W)).

Definition status_of {A} (m : MN (Z + A)) : MN Z :=
  r ← m; mret (match r with inl e => e | inr _ => B_OK end).

Definition run_hook (h : hook) : MN Z :=
  match h with
  | HReadVnode v r => status_of (fs_read_vnode v r)
  | HRemoveVnode a => fs_remove_vnode a
  | HWalk b f => status_of (fs_walk uninit b f)
  | HOpendir a => status_of (fs_opendir uninit a)
  | HReaddir k a c room n max =>
      '(e, _) ← fs_readdir uninit conf_ls_root_parent k a c room n max; mret e
  | HRstat a => status_of (fs_rstat uninit a)
  | HWstat a st mask => status_of (fs_wstat uninit a st mask)
  | HRfsstat => status_of (fs_rfsstat uninit)
  | HOpen a omode => status_of (fs_open uninit conf_allow_dir_open a omode)
  | HRead k a c pos dst max => '(e, _, _, _) ← fs_read uninit k a c pos dst max; mret e
  | HWrite k a c pos src len => '(e, _) ← fs_write uninit k a c pos src len; mret e
  | HCreate d name omode perms => status_of (fs_create uninit d name omode perms)
  | HUnlink d name => status_of (fs_unlink uninit d name)
  | HRmdir d name => status_of (fs_rmdir uninit d name)
  | HMkdir d name perms => status_of (fs_mkdir uninit d name perms)
  | HRename d n d' n' => status_of (fs_rename uninit d n d' n')
  | HReadlink a n => status_of (fs_readlink uninit a n)
  | HSymlink d name path => status_of (fs_symlink uninit d name path)
  end.

(** A sequence of hook calls that return, with their statuses. *)
Inductive hook_run : fs_nspace W → list (hook * Z) → fs_nspace W → Prop :=
  | run_none ns : hook_run ns [] ns
  | run_hook_then ns h status ns1 calls ns2 :
      run_hook h ns = Ok (status, ns1) → hook_run ns1 calls ns2 → hook_run ns ((h, status) :: calls) ns2.

(** A call of [fs_read_vnode] by the VFS that failed: it keeps the semaphore. *)
Definition keeps_semaphore (call : hook * Z) : bool :=
  match call with (HReadVnode _ false, status) => negb (status =? B_OK) | _ => false end.

Lemma inv_status_of free {A} (m : MN (Z + A)) :
  inv (table_at free) m (on_ok any) → inv (table_at free) (status_of m) any.
Proof. intros. unfold status_of. inv_prog. Qed.

Lemma run_hook_inv free h :
  (∀ v, h ≠ HReadVnode v false) → inv (table_at free) (run_hook h) any.
Proof.
  intros Hh.
  destruct h as [v r| | | | | | | | | | | | | | | | | ]; cbn [run_hook].
  1:{ destruct r; [|by destruct (Hh v)].
      apply inv_status_of. intros s a s' Hs E. split; [by eapply inv_read_vnode|apply on_ok_any]. }
  1: apply inv_remove_vnode_hook.
  all: try (apply inv_status_of; first
    [ apply inv_fs_walk | apply inv_fs_opendir | apply inv_fs_rstat | apply inv_fs_wstat
    | apply inv_fs_rfsstat | apply inv_fs_open | apply inv_fs_create | apply inv_remove_entry
    | apply inv_fs_mkdir | apply inv_fs_rename | apply inv_fs_readlink | apply inv_fs_symlink ]).
  - pose proof inv_fs_readdir. inv_prog.
  - pose proof inv_fs_read. inv_prog.
  - pose proof inv_fs_write. inv_prog.
Qed.

Lemma hook_call_inv free ns h status ns' : table_at free ns → run_hook h ns = Ok (status, ns') →
  table_at (free && negb (keeps_semaphore (h, status))) ns'.
Proof.
  intros Hns E. assert ((∃ v, h = HReadVnode v false) ∨ keeps_semaphore (h, status) = false ∧ ∀ v, h ≠ HReadVnode v false) as [[v ->]|[-> Hh]].
  { destruct h as [v []| | | | | | | | | | | | | | | | | ]; eauto; right; done. }
  - cbn [run_hook] in E. unfold status_of in E. apply bind_inv in E as (r & ns1 & E1 & E2). destruct free.
    + apply table_at_free in Hns as (l & m & Ht). pose proof (fs_read_vnode_run ns l m v false Ht) as Hv.
      destruct (m !! v) as [[mode fh]|].
      * destruct Hv as (a & n & Hv & _). rewrite Hv in E1. simplify_eq. injection E2 as <- <-. apply table_at_free. by exists l, m.
      * rewrite Hv in E1. simplify_eq. injection E2 as <- <-. split; [|done]. cbn.
        exists l, m. change (set_ns_sem 1 (set_ns_sem 0 ns)) with (set_ns_sem 1 ns). by rewrite (set_sem_same 1) by apply Ht.
    + exfalso. destruct Hns as [_ Hs]. unfold fs_read_vnode in E1. by rewrite (bind_Bad _ _ _ _ (acquire_ns_held _ Hs)) in E1.
  - rewrite andb_true_r. by destruct (run_hook_inv free h Hh ns status ns' Hns E).
Qed.

(** C10. Invariant of a mounted volume.  Whatever the server, the VFS and the clock
    answer, every sequence of hook calls that return (lookups, reads, writes, creations,
    removals, renames, links, stat and statfs, vnode callbacks), started with a
    well-formed node table and the volume's semaphore free, leads to a well-formed table:
    an acyclic list with one node per vnode id and every handle 32 bytes long.  The
    semaphore is free again, unless a call of [fs_read_vnode] by the VFS failed, which
    keeps it: then it is held from that call on. *)
Theorem volume_invariant ns calls ns' :
  table_ok ns → hook_run ns calls ns' → table_at (negb (existsb keeps_semaphore calls)) ns'.
Proof.
  intros Hns%table_at_free Hr. change (negb (existsb keeps_semaphore calls)) with (true && negb (existsb keeps_semaphore calls)).
  revert Hns. generalize true. induction Hr as [ns|ns h status ns1 calls ns2 E _ IH]; intros free Hns.
  - by rewrite andb_true_r.
  - apply (hook_call_inv free) in E; [|done]. apply IH in E. cbn [existsb]. by rewrite negb_orb, andb_assoc.
Qed.
End Reach.

(** * A world in which the server never answers *)

#[global] Program Instance silent_transport : Transport unit := {|
  rpc_send := λ _ _ _ _ _ _, mret None;
  tr_quiet := λ _, True
|}.
Next Obligation. done. Qed.
Next Obligation. intros. exists None, tt. split; [by destruct w|]. split; [exact I|]. intros b [=]. Qed.

#[global] Program Instance idle_vfs {W} : Vfs W := {|
  vfs_time := mret 0;
  vfs_notify := λ _, mret B_OK;
  remove_vnode := λ _, mret B_OK;
  publish_vnode := λ _ _ _, mret B_OK;
  get_vnode := λ hook v, r ← hook v true; mret (match r with inl e => e | inr _ => B_OK end);
  put_vnode := λ _ _, mret B_OK
|}.
Next Obligation.
  intros W P hook v Hloc Hk ns r ns' Hp E. apply bind_inv in E as (x & s1 & E1 & [= <- <-]).
  by eapply Hk.
Qed.
Next Obligation. intros W P hook v Hloc Hk ns r ns' Hp [= <- <-]. done. Qed.

(** A volume whose table holds the root directory only. *)
Definition root_fh : nfs_fhandle := replicate 32 7.
Definition root_ns {W} (w : W) : fs_nspace W :=
  mkNs w 1 (mkAddr 1 0 0) (mkAddr 1 0 0) 2 1 (Some 0)
    {[0 := mkNode S_IFDIR 2 root_fh None]} 1 no_params.

Lemma root_table {W} (w : W) : table (root_ns w) [0] {[2 := (S_IFDIR, root_fh)]}.
Proof.
  split; cbn; try done.
  - eapply chain_cons; [apply lookup_singleton_eq|constructor].
  - constructor; [by intros ?%elem_of_nil|constructor].
  - intros a n [<- <-]%lookup_singleton_Some. lia.
  - intros a n [<- <-]%lookup_singleton_Some. done.
Qed.

Lemma volume_invariant_witness :
  ∃ ns', hook_run (λ _, 0) true true (root_ns tt) [(HWalk 0 [97], EHOSTUNREACH); (HReadVnode 7 false, EINVAL)] ns' ∧ table_at false ns'.
Proof.
  assert (hook_run (λ _, 0) true true (root_ns tt) [(HWalk 0 [97], EHOSTUNREACH); (HReadVnode 7 false, EINVAL)] (set_ns_sem 0 (root_ns tt))) as Hr.
  { eapply run_hook_then; [vm_compute; reflexivity|]. eapply run_hook_then; [vm_compute; reflexivity|]. constructor. }
  exists (set_ns_sem 0 (root_ns tt)). split; [exact Hr|].
  apply (volume_invariant (λ _, 0) true true (root_ns tt) _ _ (ex_intro _ _ (ex_intro _ _ (root_table tt))) Hr).
Defined.
