(* ===== verification/NfsCreate.v ===== *)
(** A file created with the inode number of a node the client still knows
    (src/add-ons/kernel/file_systems/nfs/nfs_add_on.c, [fs_create]).

    The server reuses the number of a file another client removed; the VFS
    records the private nodes published to it. *)

From S2P Require Import Prelude Errors Xdr RpcCalls NfsProto NfsNodes NfsHooks NfsInv.

Module Reuse.

(** The world: the private nodes published so far. *)
Definition world : Type := list Z.

Definition new_fh : nfs_fhandle := replicate 32 9.

Definition created (fileid : Z) : fattr :=
  mkFattr 1 (S_IFREG + 420) 1 0 0 0 512 0 0 0 fileid (0, 0) (0, 0) (0, 0).

(** No name is known; a created file gets the inode number 2. *)
Definition serve (proc : Z) : option (list Z) :=
  if proc =? NFSPROC_LOOKUP then answer_wire diropres_enc (Failed 0 0 [] NFSERR_NOENT)
  else if proc =? NFSPROC_CREATE then answer_wire diropres_enc (Done 0 0 [] (new_fh, created 2))
  else None.

#[global] Program Instance alloc : Allocator world :=
  {| alloc_next := λ w, (true, w); alloc_plenty := λ _, True |}.
Next Obligation. done. Qed.

#[global] Program Instance transport : Transport world := {|
  rpc_send := λ _ _ _ _ proc _ w, Ok (serve proc, w);
  tr_quiet := λ _, True
|}.
Next Obligation. done. Qed.
Next Obligation.
  intros params addr prog vers proc packet w _ _ _ _. exists (serve proc), w.
  split; [reflexivity|split; [exact I|]]. unfold serve. intros b.
  destruct (proc =? NFSPROC_LOOKUP); [|destruct (proc =? NFSPROC_CREATE)]; intros [= <-];
    vm_compute; discriminate.
Qed.

#[global] Program Instance vfs : Vfs world := {|
  vfs_time := mret 0;
  vfs_notify := λ _, mret B_OK;
  remove_vnode := λ _, mret B_OK;
  publish_vnode := λ _ node _ w, Ok (B_OK, w ++ [node]);
  get_vnode := λ hook v, r ← hook v true; mret (match r with inl e => e | inr _ => B_OK end);
  put_vnode := λ _ _, mret B_OK
|}.
Next Obligation.
  intros P hook v Hloc Hk ns r ns' Hp E. apply bind_inv in E as (x & s1 & E1 & [= <- <-]).
  by eapply Hk.
Qed.
Next Obligation. intros P hook v Hloc Hk ns r ns' Hp [= <- <-]. done. Qed.

(** [fs_create] may publish a freed node.  On a volume whose table holds
    the root as node 2, creating a file to which the server gives the inode
    number 2 succeeds; [insert_node] has freed the new node because the number is
    known, and the pointer handed to [publish_vnode] is that freed block. *)
Lemma fs_create_publishes_freed_node :
  ∃ ns' cookie a,
    fs_create (λ _, 0) 0 [102] O_CREAT 420 (root_ns []) = Ok (inr (cookie, 2), ns') ∧
    ns_world ns' = [a] ∧ ns_nodes ns' !! a = None.
Proof. eexists _, _, _. split; [vm_compute; reflexivity|]. split; vm_compute; reflexivity. Qed.
End Reuse.
