(* ===== verification/NfsData.v ===== *)
(** Reading and writing files over NFS (src/add-ons/kernel/file_systems/nfs/
    nfs_add_on.c, [fs_read] and [fs_write]) against a server that keeps RFC
    1094: the hooks deliver exactly the bytes of the file, and change exactly
    the bytes written, in as many calls as the server's pieces need. *)

From S2P Require Import Prelude Errors Xdr LinkedList RpcCalls NfsProto NfsNodes NfsHooks NfsInv.

(** READ results: attributes and counted data. *)
Definition readres_enc (r : fattr * list Z) : list Z :=
  fattr_enc r.1 ++ be32_enc (zlen r.2) ++ xdr_opaque r.2.

(** What RFC 1094 promises of READ and WRITE on the file [fh]: [content w] are
    the bytes of the file in the world [w]. *)
Class FileServer (W : Type) `{Transport W} (fh : nfs_fhandle) := {
  good : W → Prop;
  content : W → list Z;
  good_plenty w : good w → alloc_plenty w;
  (** READ delivers the bytes at the offset: at most [count], and at least one
      before the end of the file. *)
  serve_read (ns : fs_nspace W) off count :
    good (ns_world ns) → 0 ≤ off < 2 ^ 31 → 0 < count ≤ NFS_MAXDATA →
    ∃ xid fl v fa n w',
      let data := slice off n (content (ns_world ns)) in
      responds readres_enc ns (nfsAddr ns) NFS_PROGRAM NFS_VERSION NFSPROC_READ
        (items_enc [XFixed fh; XInt off; XInt count; XInt 0]) (Done xid fl v (fa, data)) w' ∧
      answer_ok readres_enc (Done xid fl v (fa, data)) ∧
      0 ≤ n ≤ count ∧ (off < zlen (content (ns_world ns)) → 0 < n) ∧
      fa_size fa = zlen (content (ns_world ns)) ∧
      good w' ∧ content w' = content (ns_world ns);
  (** WRITE replaces the bytes at the offset. *)
  serve_write (ns : fs_nspace W) off data :
    good (ns_world ns) → 0 ≤ off → off + zlen data < 2 ^ 31 → 0 < zlen data ≤ NFS_MAXDATA →
    off ≤ zlen (content (ns_world ns)) →
    ∃ xid fl v fa w',
      responds fattr_enc ns (nfsAddr ns) NFS_PROGRAM NFS_VERSION NFSPROC_WRITE
        (items_enc [XFixed fh; XInt 0; XInt off; XInt 0; XDynamic data]) (Done xid fl v fa) w' ∧
      answer_ok fattr_enc (Done xid fl v fa) ∧
      good w' ∧ content w' = splice off data (content (ns_world ns))
}.

Section Data.
Context {W : Type} `{Transport W} (uninit : Z → Z) (fh : nfs_fhandle).
Context `{!FileServer W fh} (fh_size : fh_ok fh).
Implicit Types ns : fs_nspace W.

Lemma dst_at_cap dst n : dst_cap (dst_at dst n) = dst_cap dst - n.
Proof. by destruct dst. Qed.

(** One turn of the loop of [fs_read]. *)
Lemma read_turn ns pos count dst :
  good (ns_world ns) → 0 ≤ pos < 2 ^ 31 → 0 < count ≤ NFS_MAXDATA → count ≤ dst_cap dst →
  zlen (content (ns_world ns)) < 2 ^ 31 →
  ∃ n w' st reply reply' reply'',
    nfs_call uninit B_ERROR NFSPROC_READ [XFixed fh; XInt pos; XInt count; XInt 0] ns
      = Ok (inr reply, set_world w' ns) ∧
    get_nfs_attr reply = Ok (st, reply') ∧
    XDRInPacketGetDynamic reply' dst
      = Ok (B_OK, zlen (slice pos n (content (ns_world ns))),
            slice pos n (content (ns_world ns)), reply'') ∧
    st_size st = zlen (content (ns_world ns)) ∧
    0 ≤ n ≤ count ∧ (pos < zlen (content (ns_world ns)) → 0 < n) ∧
    good w' ∧ content w' = content (ns_world ns).
Proof.
  intros Hg Hpos Hc Hd Hsz. unfold NFS_MAXDATA in *.
  destruct (serve_read ns pos count Hg Hpos Hc)
    as (xid & fl & v & fa & n & w' & Hr & Hok & Hn & Hn0 & Hfa & Hg' & Hcw).
  destruct (nfs_call_done uninit readres_enc B_ERROR NFSPROC_READ
    [XFixed fh; XInt pos; XInt count; XInt 0] ns xid fl v
    (fa, slice pos n (content (ns_world ns))) w') as (b & reply & E & Hat);
    [by apply good_plenty| | |done|done|].
  { repeat constructor; cbn; unfold fh_ok, NFS_FHSIZE in *; lia. }
  { unfold items_enc, item_enc. rewrite !bind_cons, !length_app, !be32_enc_length.
    rewrite Nat2Z.inj_add, xdr_opaque_length, fh_size. done. }
  pose proof (slice_length_le pos n (content (ns_world ns)) ltac:(lia)) as Hlen.
  unfold readres_enc in Hat. cbn [fst snd] in Hat.
  destruct (get_nfs_attr_spec b reply fa _ Hat) as (p1 & E1 & Hat1).
  rewrite <- (app_nil_r (xdr_opaque _)) in Hat1.
  destruct (XDRInPacketGetDynamic_spec b p1 dst _ _ Hat1) as (p2 & E2 & _); [lia|lia|].
  exists n, w', (stat_of_fattr fa), reply, p1, p2. split_and!; try done; [|lia|lia].
  cbn. rewrite Hfa. apply s32_id. unfold is_s32. lia.
Qed.

Lemma read_loop_run fuel node : n_fhandle node = fh → ∀ ns cookie pos dst got len max,
  good (ns_world ns) → 0 ≤ pos < 2 ^ 31 → zlen (content (ns_world ns)) < 2 ^ 31 →
  0 ≤ len ≤ max → max < 2 ^ 62 → max - len ≤ dst_cap dst → max - len < Z.of_nat fuel →
  ∃ w' cookie', let data := slice pos (max - len) (content (ns_world ns)) in
    read_loop uninit fuel node cookie pos dst got len max ns
      = Ok ((B_OK, got ++ data, len + zlen data, cookie'), set_world w' ns) ∧
    good w' ∧ content w' = content (ns_world ns).
Proof.
  intros Hnode. induction fuel as [|fuel IH]; intros ns cookie pos dst got len max
    Hg Hpos Hsz Hlen Hmax Hd Hfuel; [lia|]. cbn [read_loop].
  destruct (Z.ltb_spec len max) as [Hlt|Hge]; cbn [negb].
  2:{ exists (ns_world ns), cookie. replace (max - len) with 0 by lia. unfold slice. cbn [take].
      rewrite take_0, app_nil_r, Z.add_0_r. split; [by destruct ns|done]. }
  destruct (read_turn ns pos (Z.min NFS_MAXDATA (max - len)) dst)
    as (n & w1 & st & r1 & r2 & r3 & E1 & E2 & E3 & Est & Hn & Hn0 & Hg1 & Hc1);
    [done|done|unfold NFS_MAXDATA; lia|unfold NFS_MAXDATA; lia|done|].
  rewrite Hnode. mstep E1. rewrite E2. mrun. rewrite E3. mrun. cbn [Z.eqb B_OK negb].
  set (data := content (ns_world ns)) in *.
  assert (0 ≤ zlen (slice pos n data) ≤ n) as Hsl.
  { split; [lia|]. apply slice_length_le. lia. }
  rewrite u64_id by lia. unfold s64. rewrite swrap_id by lia. rewrite Est.
  case_bool_decide as Heof.
  - exists w1, (mkCookie (c_omode cookie) (original_size cookie) st).
    assert (slice pos (max - len) data = slice pos n data) as ->; [|done].
    apply slice_past; lia.
  - assert (zlen (slice pos n data) = n) as Ln.
    { destruct (decide (pos + n ≤ zlen data)); [apply slice_length; lia|].
      unfold slice in Hsl, Heof |- *. rewrite length_take, length_drop in *. lia. }
    rewrite Ln in *. assert (0 < n) by (apply Hn0; lia). unfold NFS_MAXDATA in *.
    edestruct (IH (set_world w1 ns)
      (mkCookie (c_omode cookie) (original_size cookie) st) (pos + n)
      (dst_at dst n) (got ++ slice pos n data) (len + n) max) as (w2 & c2 & E4 & Hg2 & Hc2);
      cbn [ns_world set_world]; rewrite ?dst_at_cap, ?Hc1; fold data; try done; try lia.
    cbn [ns_world set_world] in E4, Hc2. rewrite Hc1 in *. fold data in E4, Hc2.
    exists w2, c2. rewrite E4. rewrite (slice_split pos (max - len) n data) by lia.
    replace (max - (len + n)) with (max - len - n) by lia.
    by rewrite app_assoc, length_app, Nat2Z.inj_add, Ln, Z.add_assoc.
Qed.

(** C7. Reading a file is exact.  On a server that keeps RFC 1094, for a file of less than
    2 GB, whose size the client reads as a positive number, and a position below 2 GB,
    [fs_read] of an open file, for any length and however small the pieces the server
    answers, returns B_OK after at most [max + 1] turns of its loop, with exactly the bytes
    of the file at that position, cut at the end of the file, [*len] their number, and the
    file unchanged. *)
Theorem fs_read_exact ns node n cookie pos dst max fuel :
  ns_nodes ns !! node = Some n → n_fhandle n = fh → good (ns_world ns) →
  zlen (content (ns_world ns)) < 2 ^ 31 → 0 ≤ pos < 2 ^ 31 → 0 ≤ max < 2 ^ 62 →
  max ≤ dst_cap dst → max < Z.of_nat fuel →
  ∃ w' cookie', let data := slice pos max (content (ns_world ns)) in
    fs_read uninit fuel node (Some cookie) pos dst max ns
      = Ok ((B_OK, data, zlen data, Some cookie'), set_world w' ns) ∧
    good w' ∧ content w' = content (ns_world ns).
Proof.
  intros Hn Hfh Hg Hsz Hpos Hmax Hd Hfuel. unfold fs_read.
  mstep (get_node_run ns node n Hn).
  destruct (read_loop_run fuel n Hfh ns cookie pos dst [] 0 max)
    as (w' & c' & E & Hg' & Hc'); try done; [lia..|].
  rewrite Z.sub_0_r, app_nil_l, Z.add_0_l in E. exists w', c'. mstep E. done.
Qed.

(** The bytes of a copy in two pieces. *)
Lemma src_read_at src k m bs :
  0 ≤ k → 0 ≤ m → src_read src (k + m) = Some bs →
  src_read (src_at src k) m = Some (slice k m bs).
Proof.
  intros Hk Hm. assert (∀ r : option (list Z), user_read r (k + m) = Some bs →
    user_read (drop (Z.to_nat k) <$> r) m = Some (slice k m bs)) as Hu.
  { intros [l|]; cbn; [|done]. unfold user_read; cbn. case_bool_decide as Hl; [|done].
    intros [= <-]. rewrite bool_decide_true by (rewrite length_drop; lia).
    f_equal. unfold slice. rewrite skipn_firstn_comm, take_take. f_equal. lia. }
  destruct src as [l|r]; cbn [src_at src_read]; [apply (Hu (Some l))|apply Hu].
Qed.

Lemma src_read_short src k m bs :
  0 ≤ m ≤ k → src_read src k = Some bs → src_read src m = Some (take (Z.to_nat m) bs).
Proof.
  intros Hm. assert (∀ r : option (list Z), user_read r k = Some bs →
    user_read r m = Some (take (Z.to_nat m) bs)) as Hu.
  { intros [l|]; cbn; [|done]. unfold user_read; cbn. case_bool_decide as Hl; [|done].
    intros [= <-]. rewrite bool_decide_true by lia.
    f_equal. rewrite take_take. f_equal. lia. }
  destruct src as [l|r]; cbn [src_read]; apply Hu.
Qed.

(** One turn of the loop of [fs_write]. *)
Lemma write_turn ns pos src data :
  good (ns_world ns) → 0 ≤ pos → pos + zlen data < 2 ^ 31 → 0 < zlen data ≤ NFS_MAXDATA →
  pos ≤ zlen (content (ns_world ns)) → src_read src (zlen data) = Some data →
  ∃ p p' w' st reply reply',
    put_items uninit XDROutPacketInit [XFixed fh; XInt 0; XInt pos; XInt 0] ns = Ok (p, ns) ∧
    XDROutPacketAddDynamic uninit p src (zlen data) ns = Ok ((B_OK, p'), ns) ∧
    (reply ←? call_server B_ERROR NFS_PROGRAM NFS_VERSION NFSPROC_WRITE nfsAddr p';
     check_nfs_status reply) ns = Ok (inr reply, set_world w' ns) ∧
    get_nfs_attr reply = Ok (st, reply') ∧
    good w' ∧ content w' = splice pos data (content (ns_world ns)).
Proof.
  intros Hg Hpos Hend Hd Hsz Hsrc. unfold NFS_MAXDATA in *.
  pose proof (good_plenty _ Hg) as Hp. change (alloc_plenty ns) in Hp.
  destruct (put_items_spec uninit [XFixed fh; XInt 0; XInt pos; XInt 0] 0 XDROutPacketInit ns)
    as (p & E & Hf & C); [done| | | |].
  { split; [apply out_wf_init|simpl; lia]. }
  { repeat constructor; cbn; unfold fh_ok, NFS_FHSIZE in *; lia. }
  1, 2: assert (zlen (items_enc [XFixed fh; XInt 0; XInt pos; XInt 0]) = 44) as Hl
    by (unfold items_enc, item_enc; rewrite !bind_cons, !length_app, !be32_enc_length,
          Nat2Z.inj_add, xdr_opaque_length, fh_size; done).
  { rewrite Hl. unfold XDR_LIMIT. lia. }
  destruct (XDROutPacketAddDynamic_spec uninit _ p src data (zlen data) ns Hp Hf)
    as (p' & E' & Hf' & C'); [lia|done|rewrite Hl; unfold XDR_LIMIT; lia|].
  destruct (serve_write ns pos data Hg Hpos Hend Hd Hsz)
    as (xid & fl & v & fa & w' & Hr & Hok & Hg' & Hc).
  assert (out_contents p' = items_enc [XFixed fh; XInt 0; XInt pos; XInt 0; XDynamic data]) as Cp.
  { rewrite C', C, out_contents_init. unfold items_enc, item_enc. rewrite !bind_cons.
    by rewrite <- !app_assoc, app_nil_r. }
  rewrite <- Cp in Hr.
  destruct (server_status fattr_enc B_ERROR NFS_PROGRAM NFS_VERSION NFSPROC_WRITE nfsAddr ns p' _ w'
    (proj1 Hf') Hr Hok) as (b & reply & Es & Hat).
  rewrite <- (app_nil_r (fattr_enc fa)) in Hat.
  destruct (get_nfs_attr_spec b reply fa [] Hat) as (p2 & E2 & _).
  exists p, p', w', (stat_of_fattr fa), reply, p2. done.
Qed.

Lemma write_loop_run fuel node bs src : n_fhandle node = fh → ∀ ns cookie pos written,
  good (ns_world ns) → src_read src (zlen bs) = Some bs →
  0 ≤ pos → pos + zlen bs < 2 ^ 31 → 0 ≤ written ≤ zlen bs →
  pos + written ≤ zlen (content (ns_world ns)) → zlen bs - written < Z.of_nat fuel →
  ∃ w' cookie', write_loop uninit fuel node cookie pos src written (zlen bs) ns
      = Ok ((B_OK, cookie'), set_world w' ns) ∧ good w' ∧
    content w' = splice (pos + written) (drop (Z.to_nat written) bs) (content (ns_world ns)).
Proof.
  intros Hnode. induction fuel as [|fuel IH]; intros ns cookie pos written Hg Hsrc Hpos Hend Hw Hc
    Hfuel; [lia|]. cbn [write_loop].
  destruct (Z.ltb_spec written (zlen bs)) as [Hlt|Hge]; cbn [negb].
  2:{ exists (ns_world ns), cookie. split; [by destruct ns|]. split; [done|].
      rewrite drop_ge by lia. unfold splice. cbn. rewrite Nat.add_0_r, take_drop. done. }
  set (k := Z.min NFS_MAXDATA (zlen bs - written)).
  assert (0 < k ≤ NFS_MAXDATA ∧ written + k ≤ zlen bs) as Hk by (unfold k, NFS_MAXDATA; lia).
  assert (zlen (slice written k bs) = k) as Lk by (apply slice_length; lia).
  assert (src_read (src_at src written) k = Some (slice written k bs)) as Hs.
  { rewrite (src_read_at src written k (take (Z.to_nat (written + k)) bs)); [|lia|lia|].
    - f_equal. unfold slice. rewrite skipn_firstn_comm, take_take. f_equal. lia.
    - eapply src_read_short; [|done]. lia. }
  rewrite <- Lk in Hs at 1.
  destruct (write_turn ns (pos + written) (src_at src written) (slice written k bs))
    as (p & p' & w1 & st & r1 & r2 & E1 & E2 & E3 & E4 & Hg1 & Hc1);
    [done|lia|rewrite Lk; lia|rewrite Lk; apply Hk|done|done|].
  rewrite Lk in E2. rewrite Hnode. mstep E1. mstep E2. cbn [Z.eqb B_OK negb]. mstep E3.
  rewrite E4. mrun. rewrite u64_id by lia.
  destruct (IH (set_world w1 ns) (mkCookie (c_omode cookie) (original_size cookie) st) pos
    (written + k)) as (w2 & c2 & E5 & Hg2 & Hc2); cbn [ns_world set_world]; try done; try lia.
  { rewrite Hc1, splice_end by lia. lia. }
  exists w2, c2. split; [exact E5|]. split; [done|].
  rewrite Hc2. cbn [ns_world set_world]. rewrite Hc1.
  replace (pos + (written + k)) with (pos + written + zlen (slice written k bs)) by lia.
  rewrite splice_splice by lia. f_equal. unfold slice.
  replace (Z.to_nat (written + k)) with (Z.to_nat written + Z.to_nat k)%nat by lia.
  rewrite <- drop_drop. apply take_drop.
Qed.

(** C8. Writing a file is exact.  On a server that keeps RFC 1094, [fs_write] of any
    readable buffer (kernel or user memory) at a position inside or at the end of the file,
    so that the bytes end below 2 GB, returns B_OK, and afterwards the file is the old one
    with exactly those bytes replaced or appended; with O_APPEND the position counts from
    the size the file had when it was opened. *)
Theorem fs_write_exact ns node n cookie pos src bs fuel :
  ns_nodes ns !! node = Some n → n_fhandle n = fh → good (ns_world ns) →
  let at_ := if has_flag (c_omode cookie) O_APPEND then pos + original_size cookie else pos in
  src_read src (zlen bs) = Some bs → 0 ≤ at_ → at_ + zlen bs < 2 ^ 31 →
  at_ ≤ zlen (content (ns_world ns)) → zlen bs < Z.of_nat fuel →
  ∃ w' cookie', fs_write uninit fuel node (Some cookie) pos src (zlen bs) ns
      = Ok ((B_OK, Some cookie'), set_world w' ns) ∧ good w' ∧
    content w' = splice at_ bs (content (ns_world ns)).
Proof.
  intros Hn Hfh Hg at_ Hsrc Hat Hend Hsz Hfuel. unfold fs_write.
  assert ((if has_flag (c_omode cookie) O_APPEND then s64 (pos + original_size cookie) else pos) = at_)
    as ->.
  { unfold at_ in *. destruct (has_flag _ _); [|done]. apply swrap_id; [done|]. lia. }
  mstep (get_node_run ns node n Hn).
  destruct (write_loop_run fuel n bs src Hfh ns cookie at_ 0) as (w' & c' & E & Hg' & Hc');
    try done; try lia.
  rewrite Z.add_0_r, drop_0 in Hc'. exists w', c'. mstep E. done.
Qed.
End Data.

(** * A server with one file *)

Module OneFile.

(** Word [k] of a message. *)
Definition word (k : Z) (args : list Z) : Z := be32_dec (slice (4 * k) 4 args).

Definition attributes (size : Z) : fattr :=
  mkFattr 1 S_IFREG 1 0 0 size 512 0 1 0 7 (0, 0) (0, 0) (0, 0).

(** READ and WRITE on a file whose bytes are the world; the arguments are
    taken apart at the offsets RFC 1094 gives them. *)
Definition serve (proc : Z) (args w : list Z) : option (list Z) * list Z :=
  if proc =? NFSPROC_READ then
    (answer_wire readres_enc (Done 0 0 [] (attributes (zlen w),
       slice (word 8 args) (Z.min 1000 (word 9 args)) w)), w)
  else if proc =? NFSPROC_WRITE then
    let w' := splice (word 9 args) (slice 48 (word 11 args) args) w in
    (answer_wire fattr_enc (Done 0 0 [] (attributes (zlen w'))), w')
  else (None, w).

#[global] Program Instance alloc : Allocator (list Z) :=
  {| alloc_next := λ s, (true, s); alloc_plenty := λ _, True |}.
Next Obligation. done. Qed.

Lemma readres_length fa data b :
  answer_wire readres_enc (Done 0 0 [] (fa, data)) = Some b →
  zlen b = 100 + zlen data + xdr_pad (zlen data).
Proof.
  unfold answer_wire, reply_enc. intros Hb. apply (inj Some) in Hb as <-.
  unfold accepted_enc, readres_enc. cbn [fst snd].
  rewrite !length_app, !be32_enc_length, !fattr_enc_length.
  change (length (xdr_opaque [])) with 0%nat. pose proof (xdr_opaque_length data). lia.
Qed.

#[global] Program Instance transport : Transport (list Z) := {|
  rpc_send := λ _ _ _ _ proc packet w, Ok (serve proc (out_contents packet) w);
  tr_quiet := λ _, True
|}.
Next Obligation. done. Qed.
Next Obligation.
  intros params addr prog vers proc packet w _ _ _ _. unfold serve.
  destruct (proc =? NFSPROC_READ); [|destruct (proc =? NFSPROC_WRITE)];
    eexists _, _; (split; [reflexivity|split; [done|]]); intros b.
  - intros ->%readres_length. pose proof (xdr_pad_range
      (zlen (slice (word 8 (out_contents packet)) (Z.min 1000 (word 9 (out_contents packet))) w))).
    unfold slice at 1, B_UDP_MAX_SIZE. rewrite length_take. lia.
  - intros [= <-]. done.
  - done.
Qed.

Lemma word_at k l1 x l2 : zlen l1 = 4 * k → is_u32 x → word k (l1 ++ be32_enc x ++ l2) = x.
Proof.
  intros Hl Hx. unfold word. rewrite slice_middle by done. by rewrite be32_dec_enc, u32_id.
Qed.

Lemma opaque_aligned bs : (zlen bs) mod 4 = 0 → xdr_opaque bs = bs.
Proof.
  intros Hm. unfold xdr_opaque. assert (xdr_pad (zlen bs) = 0) as ->; [|apply app_nil_r].
  unfold xdr_pad. div_mod_lia.
Qed.

Lemma xdr_opaque_prefix bs : take (length bs) (xdr_opaque bs) = bs.
Proof. unfold xdr_opaque. by rewrite take_app_length. Qed.

#[global] Program Instance file_server : FileServer (list Z) root_fh := {|
  good := λ _, True;
  content := id
|}.
Next Obligation. done. Qed.
Next Obligation.
  intros ns off count _ Hoff Hcount. unfold NFS_MAXDATA, id in *.
  exists 0, 0, [], (attributes (zlen (ns_world ns))), (Z.min 1000 count), (ns_world ns).
  split_and!; try done; try lia.
  - intros p _ Hp. cbn [rpc_send transport]. do 2 f_equal. rewrite Hp.
    unfold items_enc, item_enc. rewrite !bind_cons. rewrite opaque_aligned by done.
    unfold serve. cbn [Z.eqb NFSPROC_READ]. rewrite word_at by (done || unfold is_u32; lia).
    rewrite (app_assoc root_fh), word_at by (done || unfold is_u32; lia). done.
  - split; [|done]. intros b ->%readres_length.
    match goal with |- context [xdr_pad ?x] => pose proof (xdr_pad_range x) end.
    pose proof (slice_length_le off (Z.min 1000 count) (ns_world ns)). unfold XDR_LIMIT. lia.
Qed.
Next Obligation.
  intros ns off data _ Hoff Hend Hd Hsz. unfold NFS_MAXDATA, id in *.
  exists 0, 0, [], (attributes (zlen (splice off data (ns_world ns)))), (splice off data (ns_world ns)).
  split_and!; try done.
  - intros p _ Hp. cbn [rpc_send transport]. do 2 f_equal. rewrite Hp.
    unfold items_enc, item_enc. rewrite !bind_cons. rewrite (opaque_aligned root_fh) by done.
    unfold serve. change (NFSPROC_WRITE =? NFSPROC_READ) with false. cbn [Z.eqb NFSPROC_WRITE].
    rewrite (app_assoc root_fh), word_at by (done || unfold is_u32; lia).
    assert (∀ tl, slice 48 (zlen data) ((root_fh ++ be32_enc 0) ++ be32_enc off ++ be32_enc 0 ++
      (be32_enc (zlen data) ++ xdr_opaque data) ++ tl) = data) as Hdata.
    { intros tl. unfold xdr_opaque. rewrite <- !app_assoc.
      rewrite !app_assoc, <- (app_assoc _ _ tl), <- (app_assoc _ data). by apply slice_middle. }
    assert (∀ tl, word 11 ((root_fh ++ be32_enc 0) ++ be32_enc off ++ be32_enc 0 ++
      (be32_enc (zlen data) ++ xdr_opaque data) ++ tl) = zlen data) as Hlen.
    { intros tl. rewrite !app_assoc, <- (app_assoc _ (xdr_opaque data)).
      rewrite <- (app_assoc _ (be32_enc (zlen data))). apply word_at; [done|].
      unfold is_u32; lia. }
    rewrite Hlen, Hdata. done.
  - split; [|done]. intros b Hb. apply (inj Some) in Hb as <-. done.
Qed.
End OneFile.

Definition one_file : fs_nspace (list Z) := root_ns [1; 2; 3; 4; 5].
Definition one_cookie (omode : Z) : fs_file_cookie :=
  mkCookie omode 5 (stat_of_fattr (OneFile.attributes 5)).

Lemma fs_read_exact_witness :
  ∃ w' cookie', fs_read (λ _, 0) 10 0 (Some (one_cookie 0)) 1 (UserBuf 3) 3 one_file
    = Ok ((B_OK, [2; 3; 4], 3, Some cookie'), set_world w' one_file).
Proof.
  destruct (fs_read_exact (λ _, 0) root_fh eq_refl one_file 0
    (mkNode S_IFDIR 2 root_fh None) (one_cookie 0) 1 (UserBuf 3) 3 10
    (lookup_singleton_eq _ _) eq_refl ltac:(exact I) ltac:(cbn; lia) ltac:(lia) ltac:(lia) ltac:(cbn; lia)
    ltac:(lia)) as (w' & c' & E & _).
  exists w', c'. exact E.
Defined.

Lemma fs_write_exact_witness :
  ∃ w' cookie', fs_write (λ _, 0) 10 0 (Some (one_cookie O_APPEND)) 0
      (UserMem (Some [8; 9; 10])) 2 one_file
    = Ok ((B_OK, Some cookie'), set_world w' one_file) ∧ w' = [1; 2; 3; 4; 5; 8; 9].
Proof.
  destruct (fs_write_exact (λ _, 0) root_fh eq_refl one_file 0
    (mkNode S_IFDIR 2 root_fh None) (one_cookie O_APPEND) 0
    (UserMem (Some [8; 9; 10])) [8; 9] 10
    (lookup_singleton_eq _ _) eq_refl ltac:(exact I) eq_refl ltac:(by vm_compute) ltac:(by vm_compute) ltac:(by vm_compute)
    ltac:(cbn; lia)) as (w' & c' & E & _ & Hw).
  exists w', c'. split; [exact E|exact Hw].
Defined.
