(* ===== verification/NfsStack.v ===== *)
(** The NFS client on its datagram transport: [RpcCalls.send_rpc_call]
    discharges what the protocol layer asks of a [Transport], and a remote
    procedure is followed from the hook's arguments to the datagrams. *)

From S2P Require Import Prelude Errors Xdr LinkedList RpcCalls NfsProto NfsNodes.

Section Stack.
Context {net : Type} (uninit : Z → Z).
Context (net_wait : net → sockaddr_in → list Z → Z → list (sockaddr_in * list Z) * net).
Context (nochk : bool) (call_timeout call_tries : Z) (tries_ok : 0 ≤ call_tries < 2 ^ 31 - 1).

#[global] Program Instance udp_transport : Transport (rpc net) := {|
  rpc_send := send_rpc_call uninit net_wait nochk call_timeout call_tries;
  tr_quiet := rpc_quiet
|}.
Next Obligation. by intros w (? & _). Qed.
Next Obligation.
  intros params addr prog vers proc packet w Hq Hp Hwf Hl.
  pose proof (send_rpc_call_run uninit net_wait nochk call_timeout call_tries w params addr prog
    vers proc packet Hq Hp Hwf Hl tries_ok) as Hr. cbv zeta in Hr.
  pose proof (rpc_exchange_length net_wait nochk call_timeout (Z.to_nat call_tries) (r_net w) addr
    (rpc_message params (r_xid w) prog vers proc (out_contents packet)) (r_xid w)) as Hlen.
  destruct (rpc_exchange _ _ _ _ _ _ _ _) as [[r n'] k]. destruct Hr as (s' & E & Hq' & _).
  exists r, s'. split; [exact E|]. split; [exact Hq'|]. intros b ->. by apply Hlen.
Qed.

(** What the network makes of a call is what the transport answers. *)
Lemma udp_responds {R} (enc : R → list Z) (ns : fs_nspace (rpc net)) addr prog vers proc items
    (a : answer R) n' k :
  rpc_quiet (ns_world ns) → params_ok (ns_params ns) →
  Forall item_fits items → zlen (items_enc items) < 2 ^ 60 →
  let msg := rpc_message (ns_params ns) (r_xid (ns_world ns)) prog vers proc (items_enc items) in
  rpc_exchange net_wait nochk call_timeout (Z.to_nat call_tries) (r_net (ns_world ns)) addr msg
    (r_xid (ns_world ns)) = (answer_wire enc a, n', k) →
  ∃ w', responds enc ns addr prog vers proc (items_enc items) a w' ∧ rpc_quiet w' ∧
    r_net w' = n' ∧ r_xid w' = s32 (r_xid (ns_world ns) + 1) ∧
    r_sent w' = replicate k (addr, msg) ++ r_sent (ns_world ns) ∧
    (1 ≤ Z.of_nat k ≤ call_tries + 1).
Proof.
  intros Hq Hp Hi Hl msg Hx. pose proof (tr_quiet_plenty (ns_world ns) Hq) as Hplenty.
  destruct (build_args uninit ns items Hplenty Hi Hl) as (p & _ & Hwf & Hc).
  assert (fLength p < 2 ^ 61) as Hlen by (rewrite <- out_contents_length, Hc; [lia|done]).
  pose proof (send_rpc_call_run uninit net_wait nochk call_timeout call_tries (ns_world ns)
    (ns_params ns) addr prog vers proc p Hq Hp Hwf Hlen tries_ok) as Hr. cbv zeta in Hr.
  rewrite Hc in Hr. fold msg in Hr. rewrite Hx in Hr.
  destruct Hr as (w' & E & Hq' & Hxid & Hn & Hs & Hk). exists w'. split; [|done].
  intros q Hwq Hcq. rewrite <- E. apply send_rpc_call_contents; [done..|]. by rewrite Hcq, Hc.
Qed.

(** C11. A remote procedure end to end.  With no call outstanding and on any
    network, [nfs_lookup] sends the RFC 1057 message whose arguments are the
    RFC 1094 encoding of directory handle and name, and returns what the
    first matching datagram says: handle and attributes, the mapped NFS
    status, B_ERROR for a refused call, or EHOSTUNREACH when none arrives in
    at most [call_tries + 1] sendings; afterwards the transport is quiet
    again and the volume otherwise unchanged. *)
Theorem nfs_lookup_over_udp (ns : fs_nspace (rpc net)) dir name a n' k :
  rpc_quiet (ns_world ns) → params_ok (ns_params ns) → fh_ok dir → zlen name < 2 ^ 30 →
  diropres_ok a →
  let args := xdr_opaque dir ++ be32_enc (zlen name) ++ xdr_opaque name in
  let msg := rpc_message (ns_params ns) (r_xid (ns_world ns)) NFS_PROGRAM NFS_VERSION
               NFSPROC_LOOKUP args in
  rpc_exchange net_wait nochk call_timeout (Z.to_nat call_tries) (r_net (ns_world ns))
    (nfsAddr ns) msg (r_xid (ns_world ns)) = (answer_wire diropres_enc a, n', k) →
  ∃ w', nfs_lookup uninit dir name ns
          = Ok (result_of EHOSTUNREACH (λ r, (r.1, stat_of_fattr r.2)) a, set_world w' ns) ∧
    rpc_quiet w' ∧ r_net w' = n' ∧
    r_sent w' = replicate k (nfsAddr ns, msg) ++ r_sent (ns_world ns) ∧
    (1 ≤ Z.of_nat k ≤ call_tries + 1).
Proof.
  intros Hq Hp Hdir Hname Ha args msg Hx.
  assert (items_enc [XFixed dir; XString name] = args) as Hargs.
  { unfold items_enc, item_enc, args. rewrite !bind_cons. by rewrite app_nil_r. }
  assert (Forall item_fits [XFixed dir; XString name]) as Hi.
  { repeat constructor; cbn; unfold fh_ok, NFS_FHSIZE in *; lia. }
  assert (zlen (items_enc [XFixed dir; XString name]) < 2 ^ 60) as Hl.
  { rewrite Hargs. unfold args. rewrite !length_app, be32_enc_length, !Nat2Z.inj_add,
      !xdr_opaque_length, Hdir.
    pose proof (xdr_pad_range (zlen name)). pose proof (xdr_pad_range NFS_FHSIZE).
    unfold NFS_FHSIZE in *. lia. }
  destruct (udp_responds diropres_enc ns (nfsAddr ns) NFS_PROGRAM NFS_VERSION NFSPROC_LOOKUP
    [XFixed dir; XString name] a n' k Hq Hp Hi Hl) as (w' & Hr & Hq' & Hn & _ & Hs & Hk).
  { rewrite Hargs. exact Hx. }
  exists w'. split; [|rewrite Hargs in Hs; done].
  apply nfs_lookup_run; try done. by apply (tr_quiet_plenty (ns_world ns)).
Qed.
End Stack.

(** A network on which the server knows one name. *)
Definition one_name : answer (nfs_fhandle * fattr) :=
  Done 0 0 [] (replicate 32 9, mkFattr 1 0x81a4 1 0 0 5 512 0 1 0 7 (0, 0) (0, 0) (0, 0)).
Definition one_name_net : unit → sockaddr_in → list Z → Z → list (sockaddr_in * list Z) * unit :=
  λ n addr _ _, ([(addr, default [] (answer_wire diropres_enc one_name))], n).

Lemma nfs_lookup_over_udp_witness :
  let ns := empty_ns (fresh_rpc tt) in
  ∃ w' st, nfs_lookup (W := rpc unit)
      (H := udp_transport (λ _, 0) one_name_net false 1000 3 ltac:(lia))
      (λ _, 0) (replicate 32 7) [97] ns
    = Ok (inr (replicate 32 9, st), set_world w' ns) ∧ st_size st = 5 ∧ rpc_quiet w'.
Proof.
  intros ns.
  destruct (nfs_lookup_over_udp (λ _, 0) one_name_net false 1000 3 ltac:(lia) ns (replicate 32 7) [97]
    one_name tt 1) as (w' & E & Hq & _).
  - apply RPCPendingCallsInit_quiet.
  - by vm_compute.
  - done.
  - by vm_compute.
  - split; [|done]. split; [|done]. intros b Hb. apply (inj Some) in Hb as <-. done.
  - vm_compute. reflexivity.
  - eexists w', _. split; [exact E|]. split; [reflexivity|exact Hq].
Defined.
