(* ===== verification/StrTo.v ===== *)
(** String to integer conversion in the kernel (src/system/kernel/lib/strtol.c,
    strtoul.c, strtoll.c, strtoull.c).

    A C string is the list of its characters without the NUL; a [const char *]
    into it is the suffix it points to.  [long] and [long long] have 64 bits.
    The result is the value returned, what [*endptr] is set to, and [errno]
    (0 when it is left alone). *)

From S2P Require Import Prelude Errors.

(** The character a pointer points to: NUL at the end. *)
Definition deref_c (s : list Z) : Z := match s with [] => 0 | c :: _ => c end.

Definition isspace (c : Z) : bool := (c =? 32) || ((9 <=? c) && (c <=? 13)).

Definition LONG_MAX : Z := 2 ^ 63 - 1.
Definition LONG_MIN : Z := - 2 ^ 63.
Definition ULONG_MAX : Z := 2 ^ 64 - 1.

(** [do { c = *s++; } while (isspace(c));]: the suffix that starts at [c]. *)
Fixpoint skip_space (s : list Z) : list Z :=
  match s with
  | c :: s' => if isspace c then skip_space s' else s
  | [] => []
  end.

Definition in_range (lo c hi : Z) : bool := (lo <=? c) && (c <=? hi).

(** The sign, and the suffix behind it. *)
Definition scan_sign (s : list Z) : bool * list Z :=
  if deref_c s =? 45 then (true, tail s)               (* '-' *)
  else (false, if deref_c s =? 43 then tail s else s). (* '+' *)

(** The base, and the suffix at the first character of the number. *)
Definition scan_base (base : Z) (s : list Z) : Z * list Z :=
  let c := deref_c s in
  let s1 := deref_c (tail s) in
  let s2 := deref_c (tail (tail s)) in
  let '(base, s) :=
    if ((base =? 0) || (base =? 16)) && (c =? 48) && ((s1 =? 120) || (s1 =? 88))
       && (in_range 48 s2 57 || in_range 65 s2 70 || in_range 97 s2 102)
    then (16, tail (tail s)) else (base, s) in
  let c := deref_c s in
  let s1 := deref_c (tail s) in
  let s2 := deref_c (tail (tail s)) in
  let '(base, s) :=
    if ((base =? 0) || (base =? 2)) && (c =? 48) && ((s1 =? 98) || (s1 =? 66))
       && in_range 48 s2 49
    then (2, tail (tail s)) else (base, s) in
  (if base =? 0 then (if deref_c s =? 48 then 8 else 10) else base, s).

(** White space, sign and base prefix: the sign, the base, and the suffix at
    the first character of the number. *)
Definition scan_prefix (nptr : list Z) (base : Z) : bool * Z * list Z :=
  let '(neg, s) := scan_sign (skip_space nptr) in
  let '(base, s) := scan_base base s in
  (neg, base, s).

(** The value of a digit or letter. *)
Definition digit_of (c : Z) : option Z :=
  if in_range 48 c 57 then Some (c - 48)
  else if in_range 65 c 90 then Some (c - 55)
  else if in_range 97 c 122 then Some (c - 87)
  else None.

(** The accumulation loop; [any] is 0 before the first digit, -1 after overflow.
    Answers [acc], [any] and the suffix at the character that ended the loop. *)
Fixpoint accumulate (base cutoff cutlim acc any : Z) (s : list Z) : Z * Z * list Z :=
  match s with
  | [] => (acc, any, [])
  | c :: s' =>
      match digit_of c with
      | None => (acc, any, s)
      | Some d =>
          if base <=? d then (acc, any, s)
          else if (any <? 0) || (cutoff <? acc) || ((acc =? cutoff) && (cutlim <? d))
          then accumulate base cutoff cutlim acc (-1) s'
          else accumulate base cutoff cutlim (u64 (u64 (acc * base) + d)) 1 s'
      end
  end.

Record conv : Type := mkConv { value : Z; endptr : list Z; errno : Z }.

(** The common body of the signed pair: [max] is the magnitude limit of the sign. *)
Definition strto_signed (nptr : list Z) (base : Z) : conv :=
  let '(neg, base, s) := scan_prefix nptr base in
  if (base <? 2) || (36 <? base) then mkConv 0 nptr EINVAL
  else
    let cutoff := if neg then u64 (u64 (- (LONG_MIN + LONG_MAX)) + LONG_MAX) else LONG_MAX in
    let cutlim := cutoff mod base in
    let '(acc, any, s) := accumulate base (cutoff / base) cutlim 0 0 s in
    if any <? 0 then mkConv (if neg then LONG_MIN else LONG_MAX) s ERANGE
    else if any =? 0 then mkConv 0 nptr EINVAL
    else mkConv (s64 (if neg then u64 (- acc) else acc)) s 0.

Definition strto_unsigned (nptr : list Z) (base : Z) : conv :=
  let '(neg, base, s) := scan_prefix nptr base in
  if (base <? 2) || (36 <? base) then mkConv 0 nptr EINVAL
  else
    let cutoff := ULONG_MAX / base in
    let cutlim := ULONG_MAX mod base in
    let '(acc, any, s) := accumulate base cutoff cutlim 0 0 s in
    if any <? 0 then mkConv ULONG_MAX s ERANGE
    else if any =? 0 then mkConv 0 nptr EINVAL
    else mkConv (if neg then u64 (- acc) else acc) s 0.

(** [long] and [long long] have the same width here. *)
Definition strtol : list Z → Z → conv := strto_signed.
Definition strtoll : list Z → Z → conv := strto_signed.
Definition strtoul : list Z → Z → conv := strto_unsigned.
Definition strtoull : list Z → Z → conv := strto_unsigned.

(** * Reference: the number written in the longest run of digits *)

Fixpoint span_digits (base : Z) (s : list Z) : list Z * list Z :=
  match s with
  | [] => ([], [])
  | c :: s' =>
      match digit_of c with
      | Some d => if d <? base then let '(ds, r) := span_digits base s' in (d :: ds, r) else ([], s)
      | None => ([], s)
      end
  end.

Definition digits_value (base : Z) (ds : list Z) : Z := foldl (λ a d, a * base + d) 0 ds.

(** [v] cut to the limits. *)
Definition saturate (lo hi v : Z) : Z := Z.max lo (Z.min hi v).

(** The accumulation loop gives the value of the digits it passes; what they are is
    still what the code scans. *)
Definition scanned_value (lo hi : Z) (final : Z → Z) (nptr : list Z) (base : Z) : conv :=
  let '(neg, base, s) := scan_prefix nptr base in
  let '(ds, rest) := span_digits base s in
  if bool_decide (2 ≤ base ≤ 36 ∧ ds ≠ []) then
    let v := digits_value base ds in
    let v := if neg : bool then - v else v in
    if bool_decide (lo ≤ v ≤ hi) then mkConv (final v) rest 0
    else mkConv (saturate lo hi v) rest ERANGE
  else mkConv 0 nptr EINVAL.

Lemma digit_of_range c d : digit_of c = Some d → 0 ≤ d < 36.
Proof.
  unfold digit_of, in_range. repeat case_match; intros; simplify_eq;
    rewrite ?andb_true_iff, ?Z.leb_le in *; lia.
Qed.

Lemma foldl_ge base a ds :
  1 ≤ base → 0 ≤ a → Forall (λ d, 0 ≤ d) ds → a ≤ foldl (λ a d, a * base + d) a ds.
Proof.
  intros Hb Ha Hds. revert a Ha. induction Hds as [|d ds Hd _ IH]; intros a Ha; cbn; [lia|].
  transitivity (a * base + d); [nia|]. apply IH. nia.
Qed.

Lemma span_nonneg base s : Forall (λ d, 0 ≤ d) (span_digits base s).1.
Proof.
  induction s as [|c s IH]; cbn; [constructor|].
  destruct (digit_of c) as [d|] eqn:E; [|constructor].
  destruct (d <? base); [|constructor]. destruct (span_digits base s) as [ds r]. cbn in *.
  constructor; [|done]. apply digit_of_range in E. lia.
Qed.

(** The overflow test is exact: one more digit fits iff the value does. *)
Lemma cutoff_exact base lim acc d :
  2 ≤ base → 0 ≤ lim → 0 ≤ acc → 0 ≤ d < base →
  ((lim / base <? acc) || ((acc =? lim / base) && (lim mod base <? d))) = (lim <? acc * base + d).
Proof.
  intros Hb Hl Ha Hd. pose proof (Z.div_mod lim base). pose proof (Z.mod_pos_bound lim base).
  destruct (Z.ltb_spec (lim / base) acc), (Z.eqb_spec acc (lim / base)),
    (Z.ltb_spec (lim mod base) d), (Z.ltb_spec lim (acc * base + d)); cbn; try done; nia.
Qed.

Lemma accumulate_overflow base cutoff cutlim acc s :
  accumulate base cutoff cutlim acc (-1) s = (acc, -1, (span_digits base s).2).
Proof.
  induction s as [|c s IH]; cbn; [done|]. destruct (digit_of c) as [d|]; [|done].
  destruct (Z.leb_spec base d), (Z.ltb_spec d base); try lia; [done|]. cbn.
  rewrite IH. by destruct (span_digits base s).
Qed.

Lemma accumulate_spec base lim : 2 ≤ base → 0 ≤ lim < 2 ^ 64 → ∀ s acc any,
  0 ≤ acc ≤ lim → 0 ≤ any →
  let '(ds, rest) := span_digits base s in
  let v := foldl (λ a d, a * base + d) acc ds in
  if bool_decide (v ≤ lim)
  then accumulate base (lim / base) (lim mod base) acc any s
       = (v, if bool_decide (ds = []) then any else 1, rest)
  else ∃ acc', accumulate base (lim / base) (lim mod base) acc any s = (acc', -1, rest).
Proof.
  intros Hb Hl. induction s as [|c s IH]; intros acc any Hacc Hany; cbn.
  { rewrite !bool_decide_true by (done || lia). done. }
  destruct (digit_of c) as [d|] eqn:Ed.
  2:{ cbn. rewrite !bool_decide_true by (done || lia). done. }
  pose proof (digit_of_range _ _ Ed).
  destruct (Z.leb_spec base d), (Z.ltb_spec d base); try lia.
  { cbn. rewrite !bool_decide_true by (done || lia). done. }
  pose proof (span_nonneg base s) as Hnn.
  destruct (span_digits base s) as [ds rest] eqn:Es. cbn [foldl fst] in *.
  destruct (Z.ltb_spec any 0); [lia|]. cbn [orb].
  rewrite cutoff_exact by lia.
  destruct (Z.ltb_spec lim (acc * base + d)) as [Hov|Hok].
  - pose proof (foldl_ge base (acc * base + d) ds ltac:(lia) ltac:(nia) Hnn).
    rewrite bool_decide_false by lia. rewrite accumulate_overflow, Es. eauto.
  - assert (0 ≤ acc * base) by nia. rewrite (u64_id (acc * base)), u64_id by lia.
    specialize (IH (acc * base + d) 1 ltac:(lia) ltac:(lia)). rewrite ?Es in IH.
    case_bool_decide.
    + rewrite IH. rewrite (bool_decide_false (d :: ds = [])) by done. by case_bool_decide.
    + done.
Qed.

Lemma signed_limit (neg : bool) :
  (if neg then u64 (u64 (- (LONG_MIN + LONG_MAX)) + LONG_MAX) else LONG_MAX)
  = if neg then 2 ^ 63 else 2 ^ 63 - 1.
Proof. by destruct neg. Qed.

Lemma digits_value_nonneg base s : 1 ≤ base → 0 ≤ digits_value base (span_digits base s).1.
Proof. intros Hb. apply foldl_ge; [done|done|apply span_nonneg]. Qed.

(** The conversion both pairs share: [lim] is the largest magnitude. *)
Lemma accumulate_value base lim s :
  2 ≤ base → 0 ≤ lim < 2 ^ 64 →
  let '(ds, rest) := span_digits base s in
  let v := digits_value base ds in
  if bool_decide (v ≤ lim)
  then accumulate base (lim / base) (lim mod base) 0 0 s
       = (v, if bool_decide (ds = []) then 0 else 1, rest)
  else ∃ acc', accumulate base (lim / base) (lim mod base) 0 0 s = (acc', -1, rest).
Proof. intros Hb Hl. apply (accumulate_spec base lim Hb Hl s 0 0); lia. Qed.

Lemma digits_value_nil base : digits_value base [] = 0.
Proof. done. Qed.

Lemma strto_signed_spec nptr base :
  strto_signed nptr base = scanned_value LONG_MIN LONG_MAX id nptr base.
Proof.
  unfold strto_signed, scanned_value. destruct (scan_prefix nptr base) as [[neg b] s].
  destruct (Z.ltb_spec b 2) as [Hb|Hb]; cbn [orb].
  { destruct (span_digits b s). rewrite bool_decide_false by lia. done. }
  destruct (Z.ltb_spec 36 b) as [Hb'|Hb']; cbn [orb].
  { destruct (span_digits b s). rewrite bool_decide_false by lia. done. }
  rewrite signed_limit. pose proof (digits_value_nonneg b s ltac:(lia)) as Hnn.
  pose proof (accumulate_value b (if neg then 2 ^ 63 else 2 ^ 63 - 1) s ltac:(lia)
    ltac:(destruct neg; lia)) as Ha.
  destruct (span_digits b s) as [ds rest]. cbn [fst] in Hnn. unfold LONG_MIN, LONG_MAX, saturate, id.
  cbv zeta in Ha. destruct (decide (digits_value b ds ≤ if neg then 2 ^ 63 else 2 ^ 63 - 1)) as [Hv|Hv];
    [rewrite bool_decide_true in Ha by exact Hv|rewrite bool_decide_false in Ha by exact Hv].
  - rewrite Ha. destruct (decide (ds = [])) as [Hds|Hds];
      [rewrite (bool_decide_true (ds = [])) by done|rewrite (bool_decide_false (ds = [])) by done]; cbn [Z.ltb Z.eqb Z.compare].
    + rewrite bool_decide_false by naive_solver. done.
    + rewrite bool_decide_true by (split; [lia|done]).
      rewrite bool_decide_true by (destruct neg; lia). f_equal.
      destruct neg; [|apply swrap_id; lia].
      unfold s64, u64. rewrite swrap_uwrap by lia. apply swrap_id; lia.
  - destruct Ha as [acc' ->]. cbn [Z.ltb Z.eqb Z.compare].
    assert (ds ≠ []) by (intros ->; rewrite digits_value_nil in Hv; destruct neg; lia).
    rewrite bool_decide_true by (split; [lia|done]).
    rewrite bool_decide_false by (destruct neg; lia). f_equal. destruct neg; lia.
Qed.

(** * Numbers as ISO C writes them

    A text starts with a number: white space, a sign, the prefix of a base and digits,
    and then anything.  Nothing here is taken from the code above; a digit is a
    character of an alphabet, small or capital, and its value is its place there. *)

Definition WHITE_SPACE : list Z := [32; 9; 10; 11; 12; 13].

Definition ALPHABET : list Z :=
  [48; 49; 50; 51; 52; 53; 54; 55; 56; 57;
   97; 98; 99; 100; 101; 102; 103; 104; 105; 106; 107; 108; 109; 110; 111; 112; 113; 114; 115; 116; 117; 118; 119; 120; 121; 122].

Definition CAPITALS : list Z :=
  [48; 49; 50; 51; 52; 53; 54; 55; 56; 57;
   65; 66; 67; 68; 69; 70; 71; 72; 73; 74; 75; 76; 77; 78; 79; 80; 81; 82; 83; 84; 85; 86; 87; 88; 89; 90].

(** The character [c] is the digit [d] of base [b]. *)
Definition writes_digit (b d c : Z) : Prop :=
  0 ≤ d < b ∧ (ALPHABET !! Z.to_nat d = Some c ∨ CAPITALS !! Z.to_nat d = Some c).

Inductive writes_sign : bool → list Z → Prop :=
  | no_sign : writes_sign false []
  | plus_sign : writes_sign false [43]
  | minus_sign : writes_sign true [45].

(** For the argument [base], the prefix [p] in front of the digits [ds] means base [b]. *)
Inductive writes_base (base : Z) : Z → list Z → list Z → Prop :=
  | base_given ds : 2 ≤ base ≤ 36 → writes_base base base [] ds
  | base_hex x ds : base ∈ [0; 16] → x ∈ [120; 88] → writes_base base 16 [48; x] ds
  | base_binary x ds : base ∈ [0; 2] → x ∈ [98; 66] → writes_base base 2 [48; x] ds
  | base_octal ds : base = 0 → head ds = Some 0 → writes_base base 8 [] ds
  | base_decimal ds : base = 0 → head ds ≠ Some 0 → writes_base base 10 [] ds.

(** The text is the number [ds], negative or not, of base [b], and [rest]. *)
Definition reads (base : Z) (text : list Z) (neg : bool) (b : Z) (ds rest : list Z) : Prop :=
  ∃ spaces sign prefix digits,
    text = spaces ++ sign ++ prefix ++ digits ++ rest ∧ Forall (.∈ WHITE_SPACE) spaces ∧
    writes_sign neg sign ∧ writes_base base b prefix ds ∧ Forall2 (writes_digit b) ds digits ∧ ds ≠ [].

(** No other number at the start of the text is longer. *)
Definition longest (base : Z) (text : list Z) (neg : bool) (b : Z) (ds rest : list Z) : Prop :=
  reads base text neg b ds rest ∧
  ∀ neg' b' ds' rest', reads base text neg' b' ds' rest' → (length rest ≤ length rest')%nat.

(** ** The code finds the longest number *)

Lemma isspace_spec c : isspace c = true ↔ c ∈ WHITE_SPACE.
Proof.
  unfold isspace, WHITE_SPACE. rewrite orb_true_iff, andb_true_iff, Z.eqb_eq, !Z.leb_le, !elem_of_cons, elem_of_nil. lia.
Qed.

Lemma alphabet_digits :
  Forall (λ d, digit_of (ALPHABET !!! Z.to_nat d) = Some d ∧ digit_of (CAPITALS !!! Z.to_nat d) = Some d) (seqZ 0 36) ∧
  Forall (λ c, digit_of c = None ∨ ALPHABET !! Z.to_nat (default 0 (digit_of c)) = Some c ∨
               CAPITALS !! Z.to_nat (default 0 (digit_of c)) = Some c) (seqZ 48 75).
Proof. split; apply (bool_decide_unpack _); by vm_compute. Qed.

Lemma digit_of_chars c d : digit_of c = Some d → 48 ≤ c < 123.
Proof. unfold digit_of, in_range. repeat case_match; intros; simplify_eq; rewrite ?andb_true_iff, ?Z.leb_le in *; lia. Qed.

Lemma writes_digit_spec b d c : b ≤ 36 → writes_digit b d c ↔ digit_of c = Some d ∧ d < b.
Proof.
  intros Hb. destruct alphabet_digits as [H1 H2]. rewrite Forall_forall in H1, H2. split.
  - intros [Hd Hc]. split; [|lia]. destruct (H1 d) as [Ha Hk]; [apply elem_of_seqZ; lia|].
    destruct Hc as [Hc|Hc]; apply list_lookup_total_correct in Hc; by subst.
  - intros [Hd Hlt]. pose proof (digit_of_range _ _ Hd). split; [lia|].
    destruct (H2 c) as [Hn|Hc]; [apply elem_of_seqZ; apply digit_of_chars in Hd; lia|congruence|]. by rewrite Hd in Hc.
Qed.

Lemma span_app b ds digits rest : b ≤ 36 → Forall2 (writes_digit b) ds digits →
  span_digits b (digits ++ rest) = (ds ++ (span_digits b rest).1, (span_digits b rest).2).
Proof.
  intros Hb. induction 1 as [|d c ds digits Hw _ IH]; [apply surjective_pairing|]. apply writes_digit_spec in Hw as [Hd Hlt]; [|done].
  cbn [app span_digits]. rewrite Hd, (proj2 (Z.ltb_lt _ _) Hlt), IH. done.
Qed.

Lemma span_split b s : b ≤ 36 → ∃ digits, s = digits ++ (span_digits b s).2 ∧ Forall2 (writes_digit b) (span_digits b s).1 digits.
Proof.
  intros Hb. induction s as [|c s IH]; [by exists []|]. cbn [span_digits]. destruct (digit_of c) as [d|] eqn:Ed; [|by exists []].
  destruct (Z.ltb_spec d b); [|by exists []]. destruct IH as (digits & Hs & Hds), (span_digits b s) as [ds r]. cbn [fst snd] in *.
  exists (c :: digits). split; [cbn; by f_equal|]. constructor; [by apply writes_digit_spec|done].
Qed.

Lemma span_rest b s : b ≤ 36 →
  (length (span_digits b s).2 ≤ length s)%nat ∧ (length (span_digits b s).2 = length s → span_digits b s = ([], s)).
Proof.
  intros Hb. destruct (span_split b s Hb) as (digits & Hs & Hds), (span_digits b s) as [ds r]. cbn [fst snd] in *.
  rewrite Hs, length_app. split; [lia|]. intros Hl. destruct digits; [|cbn in Hl; lia]. inversion Hds. by subst.
Qed.

Lemma skip_space_split s : ∃ spaces, s = spaces ++ skip_space s ∧ Forall (.∈ WHITE_SPACE) spaces.
Proof.
  induction s as [|c s IH]; [by exists []|]. cbn [skip_space]. destruct (isspace c) eqn:E; [|by exists []].
  destruct IH as (spaces & Hs & Hsp). exists (c :: spaces). cbn. rewrite <- Hs. split; [done|]. constructor; [by apply isspace_spec|done].
Qed.

Lemma skip_space_app spaces s : Forall (.∈ WHITE_SPACE) spaces → skip_space (spaces ++ s) = skip_space s.
Proof. induction 1 as [|c spaces Hc%isspace_spec _ IH]; [done|]. cbn [app skip_space]. by rewrite Hc. Qed.

Lemma scan_sign_split s : ∃ sign, s = sign ++ (scan_sign s).2 ∧ writes_sign (scan_sign s).1 sign.
Proof.
  unfold scan_sign. destruct s as [|c s]; [by exists []; repeat constructor|]. cbn [deref_c tail].
  destruct (Z.eqb_spec c 45) as [->|]; [by exists [45]; repeat constructor|].
  destruct (Z.eqb_spec c 43) as [->|]; [by exists [43]; repeat constructor|]. by exists []; repeat constructor.
Qed.

(** A number starts with a character that is no white space and no sign. *)
Lemma scan_start spaces neg sign c s : Forall (.∈ WHITE_SPACE) spaces → writes_sign neg sign → 48 ≤ c →
  scan_sign (skip_space (spaces ++ sign ++ c :: s)) = (neg, c :: s).
Proof.
  intros Hsp Hsign Hc. rewrite skip_space_app by done.
  assert (isspace c = false) as Ec by (apply not_true_is_false; rewrite isspace_spec; unfold WHITE_SPACE; rewrite !elem_of_cons, elem_of_nil; lia).
  inversion Hsign; subst; cbn [app skip_space]; [|done|done]. rewrite Ec. unfold scan_sign. cbn [deref_c tail].
  by rewrite (proj2 (Z.eqb_neq c 45)), (proj2 (Z.eqb_neq c 43)) by lia.
Qed.

Lemma digit_values c : digit_of c = Some 0 ↔ c = 48.
Proof.
  split; [|by intros ->]. unfold digit_of, in_range. repeat case_match; intros; simplify_eq; rewrite ?andb_true_iff, ?Z.leb_le in *; lia.
Qed.

Lemma hex_digit c : in_range 48 c 57 || in_range 65 c 70 || in_range 97 c 102 = true ↔ ∃ d, writes_digit 16 d c.
Proof.
  setoid_rewrite writes_digit_spec; [|done]. unfold digit_of, in_range. split.
  - intros Hc. repeat case_match; rewrite ?andb_true_iff, ?andb_false_iff, ?orb_true_iff, ?Z.leb_le, ?Z.leb_gt in *; [eexists; split; [done|lia]..|lia].
  - intros (d & Hd & Hlt). rewrite !orb_true_iff. repeat case_match; simplify_eq; rewrite ?andb_true_iff, ?andb_false_iff, ?Z.leb_le, ?Z.leb_gt in *; lia.
Qed.

Lemma binary_digit c : in_range 48 c 49 = true ↔ ∃ d, writes_digit 2 d c.
Proof.
  setoid_rewrite writes_digit_spec; [|done]. unfold digit_of, in_range. split.
  - intros Hc. repeat case_match; rewrite ?andb_true_iff, ?andb_false_iff, ?Z.leb_le, ?Z.leb_gt in *; [eexists; split; [done|lia]..|lia].
  - intros (d & Hd & Hlt). repeat case_match; simplify_eq; rewrite ?andb_true_iff, ?andb_false_iff, ?Z.leb_le, ?Z.leb_gt in *; lia.
Qed.

(** The three results of [scan_base]: a prefix of base 16, one of base 2, or none. *)
Inductive scanned (base : Z) (s : list Z) : Z * list Z → Prop :=
  | scanned_hex x c t d : s = 48 :: x :: c :: t → base ∈ [0; 16] → x ∈ [120; 88] → writes_digit 16 d c → scanned base s (16, c :: t)
  | scanned_binary x c t d : s = 48 :: x :: c :: t → base ∈ [0; 2] → x ∈ [98; 66] → writes_digit 2 d c → scanned base s (2, c :: t)
  | scanned_plain :
      (∀ x c t d, s = 48 :: x :: c :: t → base ∈ [0; 16] → x ∈ [120; 88] → ¬ writes_digit 16 d c) →
      (∀ x c t d, s = 48 :: x :: c :: t → base ∈ [0; 2] → x ∈ [98; 66] → ¬ writes_digit 2 d c) →
      scanned base s (if base =? 0 then if deref_c s =? 48 then 8 else 10 else base, s).

Lemma two_of (x a b : Z) : (x =? a) || (x =? b) = true ↔ x ∈ [a; b].
Proof. rewrite orb_true_iff, !Z.eqb_eq, !elem_of_cons, elem_of_nil. tauto. Qed.

Lemma deref_three s c0 c1 : deref_c s = c0 → c0 ≠ 0 → deref_c (tail s) = c1 → c1 ≠ 0 → deref_c (tail (tail s)) ≠ 0 →
  s = c0 :: c1 :: deref_c (tail (tail s)) :: tail (tail (tail s)).
Proof. destruct s as [|a [|b [|c s]]]; cbn; try done; by intros -> _ -> _. Qed.

Lemma scan_base_scanned base s : scanned base s (scan_base base s).
Proof.
  unfold scan_base. set (hex := (_ && _ && _ && _)%bool) at 1. destruct hex eqn:Eh; subst hex.
  - rewrite !andb_true_iff, !two_of, hex_digit, Z.eqb_eq in Eh. destruct Eh as [[[Hb H0] Hx] [d Hd]].
    cbn [Z.eqb orb andb]. pose proof (proj1 (writes_digit_spec 16 _ _ ltac:(lia)) Hd) as [Hc _]. apply digit_of_chars in Hc.
    assert (∃ x c t, s = 48 :: x :: c :: t ∧ x = deref_c (tail s) ∧ c = deref_c (tail (tail s))) as (x & c & t & -> & -> & ->).
    { eexists _, _, _. split; [apply deref_three; [done|done|done| |lia]|done]. rewrite !elem_of_cons, elem_of_nil in Hx. lia. }
    cbn [tail deref_c] in *. by econstructor.
  - set (bin := (_ && _ && _ && _)%bool). destruct bin eqn:Eb; subst bin.
    + rewrite !andb_true_iff, !two_of, binary_digit, Z.eqb_eq in Eb. destruct Eb as [[[Hb H0] Hx] [d Hd]].
      cbn [Z.eqb]. pose proof (proj1 (writes_digit_spec 2 _ _ ltac:(lia)) Hd) as [Hc _]. apply digit_of_chars in Hc.
      assert (∃ x c t, s = 48 :: x :: c :: t ∧ x = deref_c (tail s) ∧ c = deref_c (tail (tail s))) as (x & c & t & -> & -> & ->).
      { eexists _, _, _. split; [apply deref_three; [done|done|done| |lia]|done]. rewrite !elem_of_cons, elem_of_nil in Hx. lia. }
      cbn [tail deref_c] in *. by eapply scanned_binary.
    + constructor; intros x c t d -> Hb Hx Hd.
      * apply not_true_iff_false in Eh. apply Eh. cbn [deref_c tail]. rewrite !andb_true_iff, !two_of, hex_digit. eauto.
      * apply not_true_iff_false in Eb. apply Eb. cbn [deref_c tail]. rewrite !andb_true_iff, !two_of, binary_digit. eauto.
Qed.

(** A digit run that the code reads to its end is as long as any other in its base. *)
Lemma span_longest b ds digits rest : b ≤ 36 → Forall2 (writes_digit b) ds digits →
  let '(ds', rest') := span_digits b (digits ++ rest) in
  (ds ≠ [] → ds' ≠ []) ∧ (length rest' ≤ length rest)%nat ∧ (length rest' = length rest → ds' = ds ∧ rest' = rest).
Proof.
  intros Hb Hds. rewrite (span_app b ds) by done. destruct (span_rest b rest Hb) as [Hle Heq].
  split; [by destruct ds|]. split; [done|]. intros E. rewrite (Heq E). by rewrite app_nil_r.
Qed.

(** A zero in front of a letter that is no digit: the number ends there. *)
Lemma zero_alone b ds digits rest x t : b ≤ 36 → Forall2 (writes_digit b) ds digits → ds ≠ [] → digits ++ rest = 48 :: x :: t →
  (∀ d, ¬ writes_digit b d x) → rest = x :: t.
Proof.
  intros Hb Hds Hne E Hx. destruct Hds as [|d c ds digits Hd Hds]; [done|]. injection E as -> E.
  destruct Hds as [|d' c' ds digits Hd' Hds]; [done|]. injection E as -> E. by destruct (Hx d').
Qed.

Lemma letter_no_digit b x : (x ∈ [120; 88] ∧ b ≤ 33) ∨ (x ∈ [98; 66] ∧ b ≤ 11) → ∀ d, ¬ writes_digit b d x.
Proof.
  intros Hx d. rewrite writes_digit_spec, !elem_of_cons, elem_of_nil in * by lia. intros [Hd Hlt].
  destruct Hx as [[[->|[->|[]]] Hb]|[[->|[->|[]]] Hb]]; vm_compute in Hd; injection Hd as <-; lia.
Qed.

Lemma base_range base b prefix ds : writes_base base b prefix ds → 2 ≤ b ≤ 36.
Proof. by destruct 1. Qed.

(** What the code reads from [s] on, against any other number there. *)
Lemma scan_base_longest base b prefix ds digits rest s :
  writes_base base b prefix ds → Forall2 (writes_digit b) ds digits → ds ≠ [] → s = prefix ++ digits ++ rest →
  let '(b', s') := scan_base base s in let '(ds', rest') := span_digits b' s' in
  (2 ≤ b' ≤ 36 ∧ ds' ≠ []) ∧ (length rest' ≤ length rest)%nat ∧ (length rest' = length rest → b' = b ∧ ds' = ds ∧ rest' = rest).
Proof.
  intros Hw Hds Hne Hs. pose proof (base_range _ _ _ _ Hw) as Hb.
  assert (∀ b' s', b' = b → s' = digits ++ rest → let '(ds', rest') := span_digits b' s' in
    (2 ≤ b' ≤ 36 ∧ ds' ≠ []) ∧ (length rest' ≤ length rest)%nat ∧ (length rest' = length rest → b' = b ∧ ds' = ds ∧ rest' = rest)) as Hsame.
  { intros b' s' -> ->. pose proof (span_longest b ds digits rest ltac:(lia) Hds) as H. destruct (span_digits b (digits ++ rest)) as [ds' rest'].
    destruct H as (H1 & H2 & H3). split; [by auto|]. split; [done|]. intros E. by destruct (H3 E). }
  assert (∀ b' c t x d, prefix = [] → digits ++ rest = 48 :: x :: c :: t → 2 ≤ b' ≤ 36 → writes_digit b' d c → (∀ d, ¬ writes_digit b d x) →
    let '(ds', rest') := span_digits b' (c :: t) in
    (2 ≤ b' ≤ 36 ∧ ds' ≠ []) ∧ (length rest' ≤ length rest)%nat ∧ (length rest' = length rest → b' = b ∧ ds' = ds ∧ rest' = rest)) as Hlonger.
  { intros b' c t x d _ E Hb' Hd Hx. rewrite (zero_alone b ds digits rest x (c :: t)) by (done || lia).
    pose proof (span_longest b' [d] [c] t ltac:(lia) ltac:(constructor; [done|constructor])) as H. cbn [app] in H. destruct (span_digits b' (c :: t)) as [ds' rest'].
    destruct H as (H1 & H2 & _). cbn [length]. split; [by auto|]. split; [lia|]. intros E'. lia. }
  assert (∃ d c ds0 dg0, ds = d :: ds0 ∧ digits = c :: dg0 ∧ writes_digit b d c) as (d & c & ds0 & dg0 & Eds & -> & Hd).
  { destruct Hds; [done|]. by do 4 eexists. }
  destruct (scan_base_scanned base s) as [x c' t d' E Hb0 Hx Hd'|x c' t d' E Hb0 Hx Hd'|Hnh Hnb]; rewrite Hs in *.
  - destruct Hw as [ds1 H1|y ds1 H1 H2|y ds1 H1 H2|ds1 H1 H2|ds1 H1 H2]; cbn [app] in E.
    + apply (Hlonger 16 c' t x d'); [done|done|lia|done|]. apply letter_no_digit. left. rewrite !elem_of_cons, elem_of_nil in Hb0. split; [done|lia].
    + injection E as E1 E2 E3. apply (Hsame 16); [done|]. cbn. by subst.
    + exfalso. injection E as E1 E2 E3. rewrite !elem_of_cons, elem_of_nil in Hx, H2. lia.
    + apply (Hlonger 16 c' t x d'); [done|done|lia|done|]. apply letter_no_digit. left. split; [done|lia].
    + exfalso. injection E as E1 E2. subst. apply writes_digit_spec in Hd as [Hd _]; [|lia]. apply H2. cbn. by rewrite <- Hd.
  - destruct Hw as [ds1 H1|y ds1 H1 H2|y ds1 H1 H2|ds1 H1 H2|ds1 H1 H2]; cbn [app] in E.
    + apply (Hlonger 2 c' t x d'); [done|done|lia|done|]. apply letter_no_digit. right. rewrite !elem_of_cons, elem_of_nil in Hb0. split; [done|lia].
    + exfalso. injection E as E1 E2 E3. rewrite !elem_of_cons, elem_of_nil in Hx, H2. lia.
    + injection E as E1 E2 E3. apply (Hsame 2); [done|]. cbn. by subst.
    + apply (Hlonger 2 c' t x d'); [done|done|lia|done|]. apply letter_no_digit. right. split; [done|lia].
    + exfalso. injection E as E1 E2. subst. apply writes_digit_spec in Hd as [Hd _]; [|lia]. apply H2. cbn. by rewrite <- Hd.
  - destruct Hw as [ds1 H1|y ds1 H1 H2|y ds1 H1 H2|ds1 H1 H2|ds1 H1 H2]; cbn [app] in *.
    + apply Hsame; [|done]. destruct (Z.eqb_spec base 0); [lia|done].
    + by destruct (Hnh y c (dg0 ++ rest) d).
    + by destruct (Hnb y c (dg0 ++ rest) d).
    + apply Hsame; [|done]. subst base. rewrite Eds in H2. cbn in H2. simplify_eq. apply writes_digit_spec in Hd as [Hd%digit_values _]; [|lia]. by subst c.
    + apply Hsame; [|done]. subst base. cbn [Z.eqb deref_c]. destruct (Z.eqb_spec c 48) as [->|]; [|done].
      apply writes_digit_spec in Hd as [Hd _]; [|lia]. change (digit_of 48) with (Some 0) in Hd. rewrite Eds in H2. cbn in H2. congruence.
Qed.

(** What the code reads is a number. *)
Lemma scan_base_reads base s :
  let '(b, s') := scan_base base s in let '(ds, rest) := span_digits b s' in
  2 ≤ b ≤ 36 → ds ≠ [] → ∃ prefix digits, s = prefix ++ digits ++ rest ∧ writes_base base b prefix ds ∧ Forall2 (writes_digit b) ds digits.
Proof.
  destruct (scan_base base s) as [b s'] eqn:Es. destruct (span_digits b s') as [ds rest] eqn:Ed. intros Hb Hne.
  destruct (span_split b s' ltac:(lia)) as (digits & Hs & Hds). rewrite Ed in Hs, Hds. cbn [fst snd] in *.
  pose proof (scan_base_scanned base s) as Hsc. rewrite Es in Hsc. remember (b, s') as r eqn:Er.
  destruct Hsc as [x c t d E Hb0 Hx Hd|x c t d E Hb0 Hx Hd|_ _]; injection Er as <- <-.
  - exists [48; x], digits. rewrite E, Hs. split; [done|]. split; [by constructor|done].
  - exists [48; x], digits. rewrite E, Hs. split; [done|]. split; [by constructor|done].
  - exists [], digits. split; [done|]. split; [|done]. destruct (Z.eqb_spec base 0) as [->|]; [|by constructor].
    destruct Hds as [|d c ds digits Hd Hds]; [done|]. cbn [app] in Hs. rewrite Hs in *. cbn [deref_c] in *.
    apply writes_digit_spec in Hd as [Hd _]; [|lia].
    destruct (Z.eqb_spec c 48) as [->|Hc]; [apply base_octal; [done|]; by injection Hd as <-|apply base_decimal; [done|]].
    intros [= ->]. by apply Hc, digit_values.
Qed.

(** The code finds the longest number of a text, and finds one if there is any. *)
Lemma scan_prefix_longest base text :
  let '(neg, b, s) := scan_prefix text base in let '(ds, rest) := span_digits b s in
  (2 ≤ b ≤ 36 ∧ ds ≠ [] → reads base text neg b ds rest) ∧
  ∀ neg' b' ds' rest', reads base text neg' b' ds' rest' →
    (2 ≤ b ≤ 36 ∧ ds ≠ []) ∧ (length rest ≤ length rest')%nat ∧ (length rest = length rest' → neg = neg' ∧ b = b' ∧ ds = ds' ∧ rest = rest').
Proof.
  unfold scan_prefix. destruct (scan_sign (skip_space text)) as [neg s0] eqn:Esg. destruct (scan_base base s0) as [b s] eqn:Eb.
  destruct (span_digits b s) as [ds rest] eqn:Ed. split.
  - intros [Hb Hne]. pose proof (scan_base_reads base s0) as H. rewrite Eb, Ed in H. destruct (H Hb Hne) as (prefix & digits & Hs0 & Hw & Hds).
    destruct (skip_space_split text) as (spaces & Ht & Hsp), (scan_sign_split (skip_space text)) as (sign & Hs & Hsg). rewrite Esg in Hs, Hsg. cbn [fst snd] in *.
    exists spaces, sign, prefix, digits. rewrite <- Hs0, <- Hs. done.
  - intros neg' b' ds' rest' (spaces & sign & prefix & digits & Ht & Hsp & Hsg & Hw & Hds & Hne).
    assert (∃ c t, prefix ++ digits ++ rest' = c :: t ∧ 48 ≤ c) as (c & t & Ec & Hc).
    { pose proof (base_range _ _ _ _ Hw). destruct Hds as [|d c ds' digits Hd Hds]; [done|]. apply writes_digit_spec in Hd as [Hd%digit_of_chars _]; [|lia].
      destruct Hw; cbn [app]; eexists _, _; (split; [done|]); lia. }
    rewrite Ht, Ec, (scan_start spaces neg' sign) in Esg by done. injection Esg as <- <-.
    pose proof (scan_base_longest base b' prefix ds' digits rest' (c :: t) Hw Hds Hne (eq_sym Ec)) as H. rewrite Eb, Ed in H.
    destruct H as (H1 & H2 & H3). split; [done|]. split; [done|]. intros E. by destruct (H3 E).
Qed.

(** The result for the number [ds] of base [b]. *)
Definition converted (neg : bool) (b : Z) (ds rest : list Z) : conv :=
  let v := if neg then - digits_value b ds else digits_value b ds in
  if decide (LONG_MIN ≤ v ≤ LONG_MAX) then mkConv v rest 0 else mkConv (saturate LONG_MIN LONG_MAX v) rest ERANGE.

(** C22. [strtol] and [strtoll] convert exactly.  For every string and every base: when
    the string starts with a number (white space, a sign, a prefix [0x] or [0b] that
    the base allows, and digits, small or capital letters counting from ten), the
    result is the value of the longest one and [*endptr] the character behind it; a
    value that does not fit in 64 bits is clamped to the limit of its sign, with
    ERANGE.  When it does not, or the base is neither 0 nor from 2 to 36, the result
    is 0 with EINVAL and [*endptr] is the start.  Base 0 is 16 or 2 after a prefix, 8
    for a number that starts with a zero and 10 otherwise. *)
Theorem strtol_exact text base :
  (∀ neg b ds rest, longest base text neg b ds rest →
     strtol text base = converted neg b ds rest ∧ strtoll text base = converted neg b ds rest) ∧
  ((∀ neg b ds rest, ¬ reads base text neg b ds rest) →
     strtol text base = mkConv 0 text EINVAL ∧ strtoll text base = mkConv 0 text EINVAL) ∧
  ((∃ neg b ds rest, longest base text neg b ds rest) ∨ ∀ neg b ds rest, ¬ reads base text neg b ds rest).
Proof.
  unfold strtol, strtoll. rewrite strto_signed_spec. unfold scanned_value. pose proof (scan_prefix_longest base text) as H.
  destruct (scan_prefix text base) as [[neg b] s]. destruct (span_digits b s) as [ds rest]. destruct H as [Hr Hl]. split_and!.
  - intros neg' b' ds' rest' [Hrd Hmin]. destruct (Hl _ _ _ _ Hrd) as (Hok & Hle & Heq). specialize (Hmin _ _ _ _ (Hr Hok)).
    destruct Heq as (<- & <- & <- & <-); [lia|]. rewrite bool_decide_true by done. unfold converted.
    by case_bool_decide; case_decide.
  - intros Hno. rewrite bool_decide_false; [done|]. intros Hok. by eapply Hno, Hr.
  - destruct (decide (2 ≤ b ≤ 36 ∧ ds ≠ [])) as [Hok|Hno].
    + left. exists neg, b, ds, rest. split; [by apply Hr|]. intros neg' b' ds' rest' Hrd. by apply (Hl _ _ _ _ Hrd).
    + right. intros neg' b' ds' rest' Hrd. by destruct (Hl _ _ _ _ Hrd) as [? _].
Qed.

(** "  -0x1fg" in base 0: the number ends before the g. *)
Lemma strtol_exact_witness :
  longest 0 [32; 32; 45; 48; 120; 49; 102; 103] true 16 [1; 15] [103] ∧
  strtol [32; 32; 45; 48; 120; 49; 102; 103] 0 = mkConv (-31) [103] 0.
Proof.
  assert (longest 0 [32; 32; 45; 48; 120; 49; 102; 103] true 16 [1; 15] [103]) as Hl.
  { split.
    - exists [32; 32], [45], [48; 120], [49; 102]. split; [reflexivity|]. split; [by repeat constructor|]. split; [constructor|].
      split; [by repeat constructor|]. split; [|done]. constructor; [split; [lia|by left]|]. constructor; [split; [lia|by left]|constructor].
    - intros neg' b' ds' rest' Hrd. pose proof (scan_prefix_longest 0 [32; 32; 45; 48; 120; 49; 102; 103]) as [_ Hmin]. by apply (Hmin _ _ _ _ Hrd). }
  split; [exact Hl|]. destruct (strtol_exact [32; 32; 45; 48; 120; 49; 102; 103] 0) as [H _]. destruct (H _ _ _ _ Hl) as [E _]. rewrite E. by vm_compute.
Defined.

(** [strtoul] and [strtoull] read the same number, with the
    limit 2^64 - 1: a larger magnitude gives ULONG_MAX with ERANGE whatever
    the sign, and a minus sign negates the magnitude modulo 2^64. *)
Lemma strtoul_exact nptr base :
  let spec :=
    let '(neg, b, s) := scan_prefix nptr base in
    let '(ds, rest) := span_digits b s in
    let v := digits_value b ds in
    if bool_decide (2 ≤ b ≤ 36 ∧ ds ≠ []) then
      if bool_decide (v ≤ ULONG_MAX)
      then mkConv (if neg : bool then (- v) mod 2 ^ 64 else v) rest 0
      else mkConv ULONG_MAX rest ERANGE
    else mkConv 0 nptr EINVAL in
  strtoul nptr base = spec ∧ strtoull nptr base = spec.
Proof.
  intros spec. cut (strto_unsigned nptr base = spec); [done|]. unfold spec; clear spec.
  unfold strto_unsigned. destruct (scan_prefix nptr base) as [[neg b] s].
  destruct (Z.ltb_spec b 2) as [Hb|Hb]; cbn [orb].
  { destruct (span_digits b s). rewrite bool_decide_false by lia. done. }
  destruct (Z.ltb_spec 36 b) as [Hb'|Hb']; cbn [orb].
  { destruct (span_digits b s). rewrite bool_decide_false by lia. done. }
  pose proof (accumulate_value b ULONG_MAX s ltac:(lia) ltac:(unfold ULONG_MAX; lia)) as Ha.
  destruct (span_digits b s) as [ds rest].
  cbv zeta in Ha. destruct (decide (digits_value b ds ≤ ULONG_MAX)) as [Hv|Hv];
    [rewrite !(bool_decide_true (digits_value b ds ≤ ULONG_MAX)) in * by done
    |rewrite !(bool_decide_false (digits_value b ds ≤ ULONG_MAX)) in * by done].
  - rewrite Ha. destruct (decide (ds = [])) as [Hds|Hds];
      [rewrite (bool_decide_true (ds = [])) by done|rewrite (bool_decide_false (ds = [])) by done]; cbn [Z.ltb Z.eqb Z.compare].
    + rewrite bool_decide_false by naive_solver. done.
    + by rewrite bool_decide_true by (split; [lia|done]).
  - destruct Ha as [acc' ->]. cbn [Z.ltb Z.eqb Z.compare].
    assert (ds ≠ []) by (intros ->; rewrite digits_value_nil in Hv; unfold ULONG_MAX in *; lia).
    by rewrite bool_decide_true by (split; [lia|done]).
Qed.

(** * Decimal text *)

(** The decimal digits of a number, most significant first. *)
Fixpoint dec_digits (fuel : nat) (v : Z) : list Z :=
  match fuel with
  | O => []
  | S fuel => if v <? 10 then [v] else dec_digits fuel (v / 10) ++ [v mod 10]
  end.

Definition dec (v : Z) : list Z := (λ d, d + 48) <$> dec_digits 20 v.

Lemma dec_digits_spec fuel v :
  0 ≤ v < 10 ^ Z.of_nat fuel → (0 < fuel)%nat →
  dec_digits fuel v ≠ [] ∧ Forall (λ d, 0 ≤ d < 10) (dec_digits fuel v) ∧
  digits_value 10 (dec_digits fuel v) = v.
Proof.
  revert v. induction fuel as [|fuel IH]; intros v Hv Hf; [lia|]. cbn [dec_digits].
  destruct (Z.ltb_spec v 10) as [Hlt|Hge].
  { split; [done|]. split; [repeat constructor; lia|]. unfold digits_value; cbn. lia. }
  destruct fuel as [|fuel]; [simpl in Hv; lia|].
  rewrite Nat2Z.inj_succ, Z.pow_succ_r in Hv by lia.
  destruct (IH (v / 10)) as (Hne & Hall & Hval).
  { split; [apply Z.div_pos; lia|]. apply Z.div_lt_upper_bound; lia. }
  { lia. }
  split; [by intros [? _]%app_nil|]. split.
  - apply Forall_app. split; [done|]. repeat constructor; apply Z.mod_pos_bound; lia.
  - unfold digits_value in *. rewrite foldl_app, Hval. cbn. pose proof (Z.div_mod v 10). lia.
Qed.

(** A string that does not go on with a decimal digit. *)
Definition no_digit (s : list Z) : Prop :=
  match s with [] => True | c :: _ => ¬ (48 ≤ c ≤ 57) end.

Lemma digit_of_dec d : 0 ≤ d < 10 → digit_of (d + 48) = Some d.
Proof.
  intros Hd. unfold digit_of, in_range.
  destruct (Z.leb_spec 48 (d + 48)), (Z.leb_spec (d + 48) 57); try lia. cbn. f_equal. lia.
Qed.

Lemma span_dec ds rest :
  Forall (λ d, 0 ≤ d < 10) ds → no_digit rest →
  span_digits 10 (((λ d, d + 48) <$> ds) ++ rest) = (ds, rest).
Proof.
  intros Hds Hr. induction Hds as [|d ds Hd _ IH]; cbn.
  - destruct rest as [|c rest]; [done|]. cbn in Hr |- *. destruct (digit_of c) as [d|] eqn:E; [|done].
    destruct (Z.ltb_spec d 10); [|done]. exfalso. unfold digit_of, in_range in E.
    repeat case_match; simplify_eq; rewrite ?andb_true_iff, ?Z.leb_le in *; lia.
  - rewrite digit_of_dec by done. destruct (Z.ltb_spec d 10); [|lia]. by rewrite IH.
Qed.

Lemma scan_prefix_dec c s : 48 ≤ c ≤ 57 → scan_prefix (c :: s) 10 = (false, 10, c :: s).
Proof.
  intros Hc. unfold scan_prefix, scan_sign, scan_base. cbn [skip_space]. unfold isspace.
  destruct (Z.eqb_spec c 32), (Z.leb_spec 9 c), (Z.leb_spec c 13); try lia; cbn;
    destruct (Z.eqb_spec c 45), (Z.eqb_spec c 43); try lia; done.
Qed.

Lemma strtol_dec v rest :
  0 ≤ v < 2 ^ 63 → no_digit rest → strtol (dec v ++ rest) 10 = mkConv v rest 0.
Proof.
  intros Hv Hr. unfold strtol. rewrite strto_signed_spec.
  destruct (dec_digits_spec 20 v) as (Hne & Hall & Hval); [split; [lia|]; cbn; lia|lia|].
  unfold dec, scanned_value. destruct (dec_digits 20 v) as [|d ds] eqn:E; [done|].
  assert (0 ≤ d < 10) by (by apply Forall_cons in Hall as [? _]).
  cbn [fmap list_fmap app]. rewrite scan_prefix_dec by lia.
  change (d + 48 :: ((λ d, d + 48) <$> ds) ++ rest) with (((λ d, d + 48) <$> (d :: ds)) ++ rest).
  rewrite span_dec by done. rewrite bool_decide_true by done. rewrite Hval.
  rewrite bool_decide_true by (unfold LONG_MIN, LONG_MAX; lia). done.
Qed.

Lemma dec_chars v c : 0 ≤ v < 2 ^ 63 → c ∈ dec v → 48 ≤ c ≤ 57.
Proof.
  intros Hv. destruct (dec_digits_spec 20 v) as (_ & Hall & _); [split; [lia|]; cbn; lia|lia|].
  intros (d & -> & Hd)%list_elem_of_fmap. rewrite Forall_forall in Hall. specialize (Hall d Hd). lia.
Qed.
