(* ===== verification/NfsMount.v ===== *)
(** Mounting and unmounting an NFS volume (src/add-ons/kernel/file_systems/nfs/
    nfs_add_on.c: [read_config], [create_socket], [init_postoffice],
    [shutdown_postoffice], [parse_nfs_params], [fs_mount], [fs_unmount]). *)

From S2P Require Import Prelude Errors Xdr LinkedList RpcCalls NfsProto NfsNodes NfsHooks StrTo.

(** Sockets, threads and driver settings of the kernel.  [sys_socket] answers
    the descriptor or the error, [sys_bind] 0 or the error. *)
Class Kernel (W : Type) := {
  sys_socket : M W (Z + Z);
  sys_bind : Z → Z → M W Z;                 (* descriptor, port in network order *)
  sys_close : Z → M W unit;
  spawn_postoffice : M W Z;
  resume_thread : Z → M W Z;
  kill_thread : Z → M W unit;
  wait_for_thread : Z → M W unit;
  sys_create_sem : Z → M W Z;
  sys_delete_sem : Z → M W unit;
  calls_init : M W unit;                    (* fs_nspaceInit, and ns->xid = 0 *)
  calls_destroy : M W unit                  (* fs_nspaceDestroy *)
}.

(** ** Driver settings *)

Record nfs_conf : Type := mkConf {
  conf_high_port : Z; conf_low_port : Z; conf_allow_dir_open : bool; conf_ls_root_parent : bool;
  conf_call_timeout : Z; conf_call_tries : Z; conf_no_check_ip_xid : bool
}.

Definition default_conf : nfs_conf := mkConf 1023 900 true true 2000000 3 false.

(** The settings file: string parameters, and the value a boolean parameter has
    ([None] when the file does not set it). *)
Record settings : Type := mkSettings {
  get_driver_parameter : list Z → option (list Z);
  get_driver_boolean_parameter : list Z → option bool
}.

Definition opt_high_port : list Z := [104; 105; 103; 104; 95; 112; 111; 114; 116].
Definition opt_low_port : list Z := [108; 111; 119; 95; 112; 111; 114; 116].
Definition opt_allow_dir_open : list Z :=
  [97; 108; 108; 111; 119; 95; 100; 105; 114; 95; 111; 112; 101; 110].
Definition opt_ls_root_parent : list Z :=
  [108; 115; 95; 114; 111; 111; 116; 95; 112; 97; 114; 101; 110; 116].
Definition opt_no_check_ip_xid : list Z :=
  [110; 111; 95; 99; 104; 101; 99; 107; 95; 105; 112; 95; 120; 105; 100].
Definition opt_call_timeout : list Z := [99; 97; 108; 108; 95; 116; 105; 109; 101; 111; 117; 116].
Definition opt_call_tries : list Z := [99; 97; 108; 108; 95; 116; 114; 105; 101; 115].

Definition read_config (handle : option settings) (c : nfs_conf) : Z * nfs_conf :=
  match handle with
  | None => (ENOENT, c)
  | Some f =>
      let num name old conv :=
        match get_driver_parameter f name with
        | Some str => conv (value (strtoul str 10))
        | None => old
        end in
      let flag name old := default old (get_driver_boolean_parameter f name) in
      (B_OK, mkConf
        (num opt_high_port (conf_high_port c) s16)
        (num opt_low_port (conf_low_port c) s16)
        (flag opt_allow_dir_open (conf_allow_dir_open c))
        (flag opt_ls_root_parent (conf_ls_root_parent c))
        (num opt_call_timeout (conf_call_timeout c)
           (λ v, let t := s64 (u64 (1000 * v)) in if t <? 1000 then 1000 else t))
        (num opt_call_tries (conf_call_tries c) id)
        (flag opt_no_check_ip_xid (conf_no_check_ip_xid c)))
  end.

(** ** Mount parameters *)

(** [p++] on a pointer that is dereferenced next: past the NUL there is nothing. *)
Definition next_char (p : list Z) : outcome (list Z) :=
  match p with [] => Bad OutOfBounds | _ :: p => Ok p end.

Definition str_nfs : list Z := [110; 102; 115; 58].                                 (* "nfs:" *)
Definition str_hostname : list Z := [104; 111; 115; 116; 110; 97; 109; 101; 61].    (* "hostname=" *)
Definition str_uid : list Z := [117; 105; 100; 61].                                 (* "uid=" *)
Definition str_gid : list Z := [103; 105; 100; 61].                                 (* "gid=" *)

(** The text up to the next comma, or to the end. *)
Definition upto_comma (p : list Z) : list Z :=
  match strchr p 44 with Some (pre, _) => pre | None => p end.

Section Parse.
Context {S : Type} `{Allocator S}.

(** [dst = malloc(n + 1); dst[n] = 0; strncpy(dst, p, n);] *)
Definition dup (s : list Z) : M S (list Z) :=
  ok ← malloc; if negb ok then failM NullDeref else mret s.

(** Answers the status and the parameters as far as they were assigned. *)
Definition parse_nfs_params (str : option (list Z)) (p0 : mount_nfs_params)
    : M S (Z * mount_nfs_params) :=
  match str with
  | None => mret (EINVAL, p0)
  | Some str =>
      if negb (starts_with str_nfs str) then mret (EINVAL, p0)
      else
        let p := drop 4 str in
        match strchr p 58 with
        | None => mret (EINVAL, p0)
        | Some (srv, _) =>
            srv ← dup srv;
            let v1 := strtol p 10 in
            p ← liftO (next_char (endptr v1));
            let v2 := strtol p 10 in
            p ← liftO (next_char (endptr v2));
            let v3 := strtol p 10 in
            p ← liftO (next_char (endptr v3));
            let v4 := strtol p 10 in
            let ip := u32 (Z.lor (Z.lor (Z.lor (Z.shiftl (value v1) 24) (Z.shiftl (value v2) 16))
                                    (Z.shiftl (value v3) 8)) (value v4)) in
            let p1 := mkParams ip (Some srv) (_export p0) (p_uid p0) (p_gid p0) (hostname p0) in
            if negb (deref_c (endptr v4) =? 58) then mret (EINVAL, p1)
            else
              export ← dup (upto_comma (tail (endptr v4)));
              let p2 := mkParams ip (Some srv) (Some export) (p_uid p0) (p_gid p0) (hostname p0) in
              match strstr str str_hostname with
              | None => mret (EINVAL, p2)
              | Some p =>
                  host ← dup (upto_comma (drop 9 p));
                  let uid := match strstr str str_uid with
                             | Some p => u32 (value (strtol (drop 4 p) 10))
                             | None => p_uid p0
                             end in
                  let gid := match strstr str str_gid with
                             | Some p => u32 (value (strtol (drop 4 p) 10))
                             | None => p_gid p0
                             end in
                  mret (B_OK, mkParams ip (Some srv) (Some export) uid gid (Some host))
              end
        end
  end.
End Parse.

(** ** Mount and unmount *)

Definition AF_INET : Z := 1.

(** The byte swap of a little-endian host. *)
Definition htonl (x : Z) : Z := be32_dec (rev (be32_enc x)).

Section Mount.
Context {W : Type} `{Transport W} `{Vfs W} `{Kernel W} (uninit : Z → Z) (conf : nfs_conf).
Abbreviation MN := (M (fs_nspace W)).

(** The port search of [create_socket]; a [uint16] counts down. *)
Fixpoint bind_loop (fuel : nat) (s port : Z) : M W (Z + unit) :=
  match fuel with
  | O => hangM
  | S fuel =>
      e ← sys_bind s (htons port);
      if e =? 0 then ok tt
      else if negb (e =? EADDRINUSE) then sys_close s;; err e
      else
        let port := u16 (port - 1) in
        if port =? conf_low_port conf then sys_close s;; err B_ERROR
        else bind_loop fuel s port
  end.

(** Answers the bound socket. *)
Definition create_socket (fuel : nat) : M W (Z + Z) :=
  s ←? sys_socket;
  _ ←? bind_loop fuel s (u16 (conf_high_port conf));
  ok s.

(** Answers the thread. *)
Definition init_postoffice : M W (Z + Z) :=
  tid ← spawn_postoffice;
  if tid <? B_OK then err tid
  else
    result ← resume_thread tid;
    if result <? B_OK then kill_thread tid;; err result else ok tid.

Definition shutdown_postoffice (s tid : Z) : M W unit :=
  sys_close s;; wait_for_thread tid.

(** What has to be undone when the mount fails. *)
Inductive mount_stage : Type :=
  | NoSpace                          (* err_nspace *)
  | Params                           (* err_params, err_socket *)
  | Socket (s : Z)                   (* err_postoffice *)
  | Post (s tid : Z)                 (* err_sem *)
  | Rootvn (s tid sem : Z).          (* err_rootvn and above *)

Definition mount_cleanup (stage : mount_stage) : MN unit :=
  match stage with
  | NoSpace => mret tt
  | Params => outside calls_destroy
  | Socket s => outside (sys_close s);; outside calls_destroy
  | Post s tid => outside (shutdown_postoffice s tid);; outside calls_destroy
  | Rootvn s tid sem =>
      outside (sys_delete_sem sem);; outside (shutdown_postoffice s tid);; outside calls_destroy
  end.

(** The tail of [fs_mount]: a success code that got here is a bad error. *)
Definition mount_fail {A} (stage : mount_stage) (result : Z) : MN (Z + A) :=
  mount_cleanup stage;; err (if 0 <=? result then EINVAL else result).

(** [if ((result = m) < B_OK) goto ...] *)
Definition or_goto {A B} (stage : mount_stage) (m : MN (Z + A)) (k : A → MN (Z + B)) : MN (Z + B) :=
  r ← m; match r with inl e => mount_fail stage e | inr a => k a end.

(** The remote part of [fs_mount], once the postoffice runs: answers the vnode
    id of the root and the semaphore of the volume. *)
Definition mount_remote (s tid : Z) : MN (Z + (Z * Z)) :=
  let stage := Post s tid in
  or_goto stage (get_remote_address uninit MOUNT_PROGRAM MOUNT_VERSION PMAP_IPPROTO_UDP
                   mountAddr set_mountAddr) (λ _,
  modifyS (λ ns, set_nfsAddr (mountAddr ns) ns);;
  or_goto stage (get_remote_address uninit NFS_PROGRAM NFS_VERSION PMAP_IPPROTO_UDP
                   nfsAddr set_nfsAddr) (λ _,
  sem ← outside (sys_create_sem 1);
  if sem <? B_OK then mount_fail stage sem
  else
  let stage := Rootvn s tid sem in
  modifyS (set_ns_sem 1);;
  rootNode ← malloc;
  if negb rootNode then mount_fail stage ENOMEM
  else
    ns ← getS;
    export ← match _export (ns_params ns) with Some e => mret e | None => failM NullDeref end;
    or_goto stage (nfs_mount uninit export) (λ fh,
    or_goto stage (nfs_getattr uninit fh) (λ st,
    modifyS (set_rootid (st_ino st));;
    (* rootNode->next = NULL; mode is never assigned *)
    rootNode ← new_node (uninit 0) (st_ino st) fh;
    r ← outside (publish_vnode (st_ino st) rootNode S_IFDIR);
    if r <? B_OK then free_node rootNode;; mount_fail stage r
    else modifyS (set_ns_first (Some rootNode));; ok (st_ino st, sem))))).

(** [fs_mount] on the freshly allocated [fs_nspace] that is the state, whose
    fields [malloc] left undefined; answers the vnode id of the root, the
    socket, the thread and the semaphore. *)
Definition fs_mount (fuel : nat) (vol_id : Z) (parms : option (list Z)) : MN (Z + (Z * Z * Z * Z)) :=
  match parms with
  | None => err EINVAL
  | Some _ =>
      nspace ← malloc;
      if negb nspace then mount_fail NoSpace ENOMEM
      else
        outside calls_init;;
        modifyS (set_nsid vol_id);;
        ns ← getS;
        let undef := mkParams (serverIP (ns_params ns)) None None
                       (p_uid (ns_params ns)) (p_gid (ns_params ns)) None in
        '(result, params) ← parse_nfs_params parms undef;
        modifyS (set_params params);;
        if result <? 0 then mount_fail Params result
        else
          modifyS (λ ns, set_mountAddr (mkAddr AF_INET (sin_port (mountAddr ns))
                           (htonl (serverIP params))) ns);;
          or_goto Params (outside (create_socket fuel)) (λ s,
          or_goto (Socket s) (outside init_postoffice) (λ tid,
          '(vnid, sem) ←? mount_remote s tid;
          ok (vnid, s, tid, sem)))
  end.

(** [while (ns->first) { next = ns->first->next; free(ns->first); ns->first = next; }] *)
Fixpoint free_nodes (fuel : nat) : MN unit :=
  match fuel with
  | O => hangM
  | S fuel =>
      ns ← getS;
      match ns_first ns with
      | None => mret tt
      | Some a =>
          n ← get_node a;
          free_node a;;
          modifyS (set_ns_first (n_next n));;
          free_nodes fuel
      end
  end.

Definition fs_unmount (s tid sem : Z) : MN Z :=
  ns ← getS;
  free_nodes (walk_fuel (ns_nodes ns));;
  put_vnode_ (rootid ns);;
  outside (sys_delete_sem sem);;
  outside (shutdown_postoffice s tid);;
  outside calls_destroy;;
  mret B_OK.
End Mount.

(** * The mount string *)

Lemma upto_comma_first pre post : 44 ∉ pre → upto_comma (pre ++ 44 :: post) = pre.
Proof. intros Hc. unfold upto_comma. by rewrite strchr_first. Qed.

Lemma upto_comma_end s : 44 ∉ s → upto_comma s = s.
Proof. intros Hc. unfold upto_comma. by rewrite strchr_none. Qed.

(** Two texts with the same first occurrence of a character. *)
Lemma pivot_inj c (l1 l2 t1 t2 : list Z) :
  c ∉ l1 → c ∉ l2 → l1 ++ c :: t1 = l2 ++ c :: t2 → l1 = l2.
Proof.
  intros H1 H2 E. pose proof (strchr_first l1 c t1 H1) as E1.
  rewrite E, (strchr_first l2 c t2 H2) in E1. by simplify_eq.
Qed.

(** Searching a key that ends in '=' (and has no other) goes from one '=' to the next. *)
Lemma strstr_found pre key rest :
  61 ∉ pre → 61 ∉ key → strstr (pre ++ key ++ 61 :: rest) (key ++ [61]) = Some (key ++ 61 :: rest).
Proof.
  intros Hp Hk. induction pre as [|x pre IH].
  - cbn [app]. replace (key ++ 61 :: rest) with ((key ++ [61]) ++ rest) by (by rewrite <- app_assoc).
    destruct ((key ++ [61]) ++ rest) eqn:E; [by destruct key|].
    rewrite <- E. unfold strstr. rewrite E, <- E. by rewrite starts_with_app.
  - apply not_elem_of_cons in Hp as [Hx Hp]. cbn [app strstr].
    destruct (starts_with (key ++ [61]) (x :: pre ++ key ++ 61 :: rest)) eqn:E; [|by apply IH].
    apply starts_with_inv in E as [r E]. exfalso.
    rewrite <- app_assoc in E. cbn [app] in E.
    change (x :: pre ++ key ++ 61 :: rest) with ((x :: pre) ++ key ++ 61 :: rest) in E.
    rewrite app_assoc in E. apply pivot_inj in E; [|set_solver|done].
    apply (f_equal length) in E. rewrite length_app in E. simpl in E. lia.
Qed.

Lemma strstr_skip_key pre key rest :
  61 ∉ pre → 61 ∉ key → (∀ q, pre ≠ q ++ key) →
  strstr (pre ++ 61 :: rest) (key ++ [61]) = strstr rest (key ++ [61]).
Proof.
  intros Hp Hk Hq. induction pre as [|x pre IH].
  - cbn [app strstr]. destruct (starts_with (key ++ [61]) (61 :: rest)) eqn:E; [|done].
    apply starts_with_inv in E as [r E]. rewrite <- app_assoc in E.
    apply (pivot_inj 61 [] key) in E; [|set_solver|done]. by destruct (Hq []).
  - cbn [app strstr]. destruct (starts_with (key ++ [61]) (x :: pre ++ 61 :: rest)) eqn:E.
    + apply starts_with_inv in E as [r E]. rewrite <- app_assoc in E.
      apply (pivot_inj 61 (x :: pre) key) in E; [|done|done]. by destruct (Hq []).
    + apply IH; [set_solver|]. intros q ->. by apply (Hq (x :: q)).
Qed.

(** "nfs:a.b.c.d:export,uid=u,gid=g,hostname=h", as mount_nfs writes it. *)
Definition dotted (a b c d : Z) : list Z := dec a ++ [46] ++ dec b ++ [46] ++ dec c ++ [46] ++ dec d.
Definition mount_string (ip export : list Z) (u g : Z) (host : list Z) : list Z :=
  str_nfs ++ ip ++ [58] ++ export ++ [44] ++ str_uid ++ dec u ++ [44] ++ str_gid ++ dec g ++
  [44] ++ str_hostname ++ host.

Lemma dotted_chars a b c d x :
  0 ≤ a < 256 → 0 ≤ b < 256 → 0 ≤ c < 256 → 0 ≤ d < 256 →
  x ∈ dotted a b c d → 48 ≤ x ≤ 57 ∨ x = 46.
Proof.
  intros Ha Hb Hc Hd Hx. unfold dotted in Hx.
  repeat match goal with H : _ ∈ _ ++ _ |- _ => apply elem_of_app in H as [H|H] end;
    try (apply dec_chars in Hx; [lia|lia]); apply list_elem_of_singleton in Hx; lia.
Qed.

Section Mountstring.
Context {S : Type} `{Allocator S}.

(** The four numbers and the rest of the address. *)
Lemma lor_octets a b c d :
  0 ≤ a < 256 → 0 ≤ b < 256 → 0 ≤ c < 256 → 0 ≤ d < 256 →
  u32 (Z.lor (Z.lor (Z.lor (Z.shiftl a 24) (Z.shiftl b 16)) (Z.shiftl c 8)) d)
    = a * 2 ^ 24 + b * 2 ^ 16 + c * 2 ^ 8 + d.
Proof.
  intros Ha Hb Hc Hd.
  rewrite !Z.shiftl_mul_pow2 by lia.
  rewrite (lor_low a (b * 2 ^ 16) 24) by lia.
  replace (a * 2 ^ 24 + b * 2 ^ 16) with ((a * 2 ^ 8 + b) * 2 ^ 16) by lia.
  rewrite (lor_low _ (c * 2 ^ 8) 16) by lia.
  replace ((a * 2 ^ 8 + b) * 2 ^ 16 + c * 2 ^ 8) with (((a * 2 ^ 8 + b) * 2 ^ 8 + c) * 2 ^ 8) by lia.
  rewrite (lor_low _ d 8) by lia. rewrite u32_id; [lia|]. unfold is_u32. lia.
Qed.

Lemma dup_run l (s : S) : alloc_plenty s → dup l s = Ok (l, s).
Proof. intros Hp. unfold dup. by mstep (malloc_plenty s Hp). Qed.

Lemma dec_no c v : 0 ≤ v < 2 ^ 63 → ¬ (48 ≤ c ≤ 57) → c ∉ dec v.
Proof. intros Hv Hc Hin. by apply dec_chars in Hin. Qed.

Lemma dotted_no x a b c d :
  0 ≤ a < 256 → 0 ≤ b < 256 → 0 ≤ c < 256 → 0 ≤ d < 256 → ¬ (48 ≤ x ≤ 57) → x ≠ 46 →
  x ∉ dotted a b c d.
Proof. intros Ha Hb Hc Hd Hx Hx' Hin. apply dotted_chars in Hin; naive_solver. Qed.

(** The three keys, in a string whose part before them has no '='. *)
Lemma find_keys pre u g host :
  61 ∉ pre → 0 ≤ u < 2 ^ 32 → 0 ≤ g < 2 ^ 32 →
  let str := pre ++ str_uid ++ dec u ++ [44] ++ str_gid ++ dec g ++ [44] ++ str_hostname ++ host in
  strstr str str_uid
    = Some (str_uid ++ dec u ++ 44 :: str_gid ++ dec g ++ [44] ++ str_hostname ++ host) ∧
  strstr str str_gid = Some (str_gid ++ dec g ++ 44 :: str_hostname ++ host) ∧
  strstr str str_hostname = Some (str_hostname ++ host).
Proof.
  intros Hpre Hu Hg str.
  assert ((61 ∉ dec u) ∧ (61 ∉ dec g)) as [Hdu Hdg] by (split; apply dec_no; lia).
  assert ((61 ∉ [117; 105; 100]) ∧ (61 ∉ [103; 105; 100]) ∧ (61 ∉ [44]) ∧
          (61 ∉ [104; 111; 115; 116; 110; 97; 109; 101])) as (K1 & K2 & K3 & K4).
  { rewrite !list_elem_of_In. cbn. lia. }
  assert (61 ∉ (pre ++ [117; 105; 100])) as P1 by (by apply not_elem_of_app).
  assert (61 ∉ ((dec u ++ [44]) ++ [103; 105; 100])) as P2 by (by rewrite !not_elem_of_app).
  assert (61 ∉ (dec u ++ [44])) as P3 by (by apply not_elem_of_app).
  assert (61 ∉ (dec g ++ [44])) as P4 by (by apply not_elem_of_app).
  assert (∀ key rest, 61 ∉ key → (∀ q, pre ++ [117; 105; 100] ≠ q ++ key) →
    str = (pre ++ [117; 105; 100]) ++ 61 :: rest → strstr str (key ++ [61]) = strstr rest (key ++ [61]))
    as Hskip by (intros key rest ? ? ->; by apply strstr_skip_key).
  split_and!.
  - apply (strstr_found pre [117; 105; 100] _ Hpre K1).
  - change (strstr str str_gid) with (strstr str ([103; 105; 100] ++ [61])).
    rewrite (Hskip [103; 105; 100] ((dec u ++ [44]) ++ [103; 105; 100] ++ 61 :: dec g ++ 44 ::
      str_hostname ++ host) K2); [by rewrite strstr_found| |].
    + intros q Hq. apply app_inj_2 in Hq as [_ ?]; done.
    + unfold str. by rewrite <- !app_assoc.
  - change (strstr str str_hostname)
      with (strstr str ([104; 111; 115; 116; 110; 97; 109; 101] ++ [61])).
    rewrite (Hskip [104; 111; 115; 116; 110; 97; 109; 101] (((dec u ++ [44]) ++ [103; 105; 100]) ++
      61 :: ((dec g ++ [44]) ++ [104; 111; 115; 116; 110; 97; 109; 101] ++ 61 :: host)) K4).
    + rewrite strstr_skip_key; [by rewrite strstr_found|done|done|].
      intros q Hq. apply (f_equal list.last) in Hq. by rewrite !last_app in Hq.
    + intros q Hq. apply (f_equal list.last) in Hq. by rewrite !last_app in Hq.
    + unfold str. by rewrite <- !app_assoc.
Qed.

(** The mount string is read back.  For every address a.b.c.d, export
    path without ',' or '=', user and group id and host name without ',',
    parsing the string the mount command builds gives back the address, the
    server name, the path, the ids and the host name. *)
Lemma parse_nfs_params_roundtrip (s : S) a b c d export u g host p0 :
  alloc_plenty s → 0 ≤ a < 256 → 0 ≤ b < 256 → 0 ≤ c < 256 → 0 ≤ d < 256 →
  0 ≤ u < 2 ^ 32 → 0 ≤ g < 2 ^ 32 → 44 ∉ export → 61 ∉ export → 44 ∉ host →
  parse_nfs_params (Some (mount_string (dotted a b c d) export u g host)) p0 s
  = Ok ((B_OK, mkParams (a * 2 ^ 24 + b * 2 ^ 16 + c * 2 ^ 8 + d) (Some (dotted a b c d))
                 (Some export) u g (Some host)), s).
Proof.
  intros Hs Ha Hb Hc Hd Hu Hg He Heq Hh. unfold parse_nfs_params.
  set (str := mount_string (dotted a b c d) export u g host).
  set (tl := export ++ [44] ++ str_uid ++ dec u ++ [44] ++ str_gid ++ dec g ++
             [44] ++ str_hostname ++ host).
  assert (str = str_nfs ++ dotted a b c d ++ 58 :: tl) as Estr by done.
  assert (61 ∉ (str_nfs ++ dotted a b c d ++ [58] ++ export ++ [44])) as Hpre.
  { rewrite !not_elem_of_app. split_and!; [|apply dotted_no; lia| |done|];
      rewrite list_elem_of_In; cbn; lia. }
  pose proof (find_keys _ u g host Hpre Hu Hg) as HK. cbv zeta in HK.
  assert ((str_nfs ++ dotted a b c d ++ [58] ++ export ++ [44]) ++ str_uid ++ dec u ++ [44] ++
    str_gid ++ dec g ++ [44] ++ str_hostname ++ host = str) as E2
    by (unfold str, mount_string; by rewrite <- !app_assoc).
  rewrite E2 in HK. destruct HK as (Ku & Kg & Kh).
  rewrite Ku, Kg, Kh, Estr, starts_with_app. cbn [negb].
  change (drop 4 (str_nfs ++ ?x)) with x.
  rewrite strchr_first by (apply dotted_no; lia). mstep (dup_run (dotted a b c d) s Hs).
  assert (dotted a b c d ++ 58 :: tl
          = dec a ++ 46 :: dec b ++ 46 :: dec c ++ 46 :: dec d ++ 58 :: tl) as Edot
    by (unfold dotted; by rewrite <- !app_assoc).
  rewrite Edot.
  do 4 (rewrite !strtol_dec by (cbn; lia); cbn [endptr value next_char]; mrun).
  cbn [deref_c tail]. rewrite Z.eqb_refl. cbn [negb]. rewrite lor_octets by done.
  unfold tl at 1. change (upto_comma (export ++ [44] ++ ?x)) with (upto_comma (export ++ 44 :: x)).
  rewrite upto_comma_first by done. mstep (dup_run export s Hs).
  change (drop 9 (str_hostname ++ host)) with host. rewrite upto_comma_end by done.
  mstep (dup_run host s Hs).
  change (drop 4 (str_uid ++ ?x)) with x. change (drop 4 (str_gid ++ ?x)) with x.
  rewrite !strtol_dec by (cbn; lia). cbn [value]. by rewrite !u32_id by done.
Qed.
End Mountstring.

Lemma parse_nfs_params_roundtrip_witness :
  parse_nfs_params (Some (mount_string (dotted 192 168 0 10) [47; 120] 1000 100 [104])) no_params tt
  = Ok ((B_OK, mkParams 0xc0a8000a (Some (dotted 192 168 0 10)) (Some [47; 120]) 1000 100 (Some [104])), tt).
Proof.
  apply (parse_nfs_params_roundtrip tt 192 168 0 10 [47; 120] 1000 100 [104] no_params);
    first [exact I | lia | rewrite list_elem_of_In; cbn; lia].
Defined.

(** The address is read without looking for its end: a parameter string
    with fewer than four numbers makes the parser step over the terminating
    NUL and read behind the string. *)
Lemma parse_nfs_params_overread {S} `{Allocator S} (s : S) p0 :
  alloc_plenty s →
  parse_nfs_params (Some (str_nfs ++ dec 1 ++ [58])) p0 s = Bad OutOfBounds.
Proof.
  intros Hs. unfold parse_nfs_params. rewrite starts_with_app. cbn [negb].
  change (strchr (drop 4 (str_nfs ++ dec 1 ++ [58])) 58) with (Some ([49], [58])).
  cbv beta iota. mstep (dup_run (S := S) [49] s Hs). reflexivity.
Qed.

Lemma parse_nfs_params_overread_witness :
  parse_nfs_params (Some (str_nfs ++ dec 1 ++ [58])) no_params tt = Bad OutOfBounds.
Proof. apply (parse_nfs_params_overread tt no_params). exact I. Defined.

(** * Termination of the port search, and of unmounting *)

Section Loops.
Context {W : Type} `{Transport W} `{Vfs W} `{Kernel W} (conf : nfs_conf).

(** [create_socket] gives up.  If the kernel's [socket], [bind] and
    [close] return and the ports satisfy 0 <= low < high < 2^15, the search
    returns after at most [high - low] calls of [bind], with a bound socket or
    an error. *)
Lemma create_socket_returns w fuel :
  (∀ w, ∃ r w', sys_socket w = Ok (r, w')) →
  (∀ s p w, ∃ e w', sys_bind s p w = Ok (e, w')) →
  (∀ s w, ∃ w', sys_close s w = Ok (tt, w')) →
  0 ≤ conf_low_port conf < conf_high_port conf → conf_high_port conf < 2 ^ 15 →
  conf_high_port conf - conf_low_port conf ≤ Z.of_nat fuel →
  ∃ r w', create_socket conf fuel w = Ok (r, w').
Proof.
  intros Hsock Hbind Hclose Hlow Hhigh Hfuel.
  assert (∀ fuel s port w, conf_low_port conf < port < 2 ^ 15 →
    port - conf_low_port conf ≤ Z.of_nat fuel →
    ∃ r w', bind_loop conf fuel s port w = Ok (r, w')) as Hloop.
  { clear Hfuel. intros k. induction k as [|k IH]; intros s port w1 Hp Hk; [lia|]. cbn [bind_loop].
    destruct (Hbind s (htons port) w1) as (e & w2 & E). mstep E.
    destruct (Hclose s w2) as (w3 & E3).
    destruct (e =? 0); [by eexists _, _|]. destruct (e =? EADDRINUSE); cbn [negb].
    - assert (u16 (port - 1) = port - 1) as -> by (apply uwrap_id; lia).
      destruct (Z.eqb_spec (port - 1) (conf_low_port conf)); [mstep E3; by eexists _, _|].
      apply IH; lia.
    - mstep E3. by eexists _, _. }
  unfold create_socket, try_bind. destruct (Hsock w) as ([e|s] & w1 & E); mstep E; [by eexists _, _|].
  assert (u16 (conf_high_port conf) = conf_high_port conf) as -> by (apply uwrap_id; lia).
  destruct (Hloop fuel s (conf_high_port conf) w1) as (r & w2 & E2); [lia|lia|]. mstep E2.
  destruct r; by eexists _, _.
Qed.

Lemma free_nodes_run fuel : ∀ (ns : fs_nspace W) l,
  chain (ns_nodes ns) (ns_first ns) l → (length l < fuel)%nat →
  ∃ ns', free_nodes fuel ns = Ok (tt, ns') ∧ ns_first ns' = None ∧ ns_world ns' = ns_world ns ∧
    (∀ a, ns_nodes ns' !! a = if decide (a ∈ l) then None else ns_nodes ns !! a).
Proof.
  induction fuel as [|fuel IH]; intros ns l Hc Hl; [lia|]. cbn [free_nodes]. mrun.
  inversion Hc as [E1 E2|a n l' Ha Hc' E1 E2]; subst.
  - exists ns. split; [done|]. split; [done|]. split; [done|]. intros a.
    rewrite decide_False; [done|]. apply not_elem_of_nil.
  - mstep (get_node_run ns a n Ha). mstep (free_node_run ns a n Ha).
    pose proof (chain_NoDup _ _ _ Hc) as Hnd. apply NoDup_cons in Hnd as [Hal _].
    destruct (IH (set_ns_first (n_next n) (set_nodes (delete a) ns)) l') as (ns' & E & Hf & Hw & Hn).
    { cbn. by apply chain_delete_ne. }
    { simpl in Hl. lia. }
    exists ns'. split; [exact E|]. split; [done|]. split; [done|]. intros b. rewrite Hn. cbn.
    destruct (decide (b ∈ l')) as [Hb|Hb]; [by rewrite decide_True by (by right)|].
    destruct (decide (b = a)) as [->|Hne].
    + rewrite decide_True by (by left). apply lookup_delete_eq.
    + rewrite decide_False by (by intros [?|?]%elem_of_cons). by rewrite lookup_delete_ne.
Qed.
End Loops.

(** A kernel on which the first two ports are taken. *)
#[local] Program Instance busy_kernel : Kernel unit := {|
  sys_socket := mret (inr 3);
  sys_bind := λ _ port, mret (if (port =? htons 1023) || (port =? htons 1022) then EADDRINUSE else 0);
  sys_close := λ _, mret tt;
  spawn_postoffice := mret 5;
  resume_thread := λ _, mret B_OK;
  kill_thread := λ _, mret tt;
  wait_for_thread := λ _, mret tt;
  sys_create_sem := λ _, mret 9;
  sys_delete_sem := λ _, mret tt;
  calls_init := mret tt;
  calls_destroy := mret tt
|}.

Lemma create_socket_returns_witness :
  ∃ r w', create_socket (W := unit) default_conf 123 tt = Ok (r, w').
Proof.
  apply (create_socket_returns (W := unit) default_conf tt 123).
  - intros w. by eexists _, _.
  - intros s p w. by eexists _, _.
  - intros s []. by eexists.
  - cbn. lia.
  - cbn. lia.
  - cbn. lia.
Defined.
