(* ===== verification/RingBuffer.v ===== *)
(** The ring buffer of websearchfs (src/add-ons/kernel/file_systems/websearchfs/
    ringbuff.c), and the bounded FIFO queue of bytes it implements. *)

From S2P Require Import Prelude.

(** [data] is the memory behind the structure: [size] bytes. *)
Record ring_buffer : Type := mkRb { size : Z; current : Z; avail : Z; data : list Z }.

(** [rb_init] on a block whose bytes are [mem]. *)
Definition rb_init (mem : list Z) (sz : Z) : ring_buffer := mkRb sz 0 0 mem.

Definition rb_clear (rb : ring_buffer) : ring_buffer := mkRb (size rb) 0 0 (data rb).

(** A [struct ring_buffer *] may be NULL. *)
Definition rb_can_write (rb : option ring_buffer) : Z :=
  match rb with None => 0 | Some rb => u64 (size rb - avail rb) end.

Definition rb_can_read (rb : option ring_buffer) : Z :=
  match rb with None => 0 | Some rb => avail rb end.

(** [rb_write(rb, src, len)]: the number of bytes written and the buffer.
    [ASSERT] is checked at the end; a failed one panics. *)
Definition rb_write (rb : option ring_buffer) (src : list Z) (len : Z)
    : outcome (Z * option ring_buffer) :=
  match rb with
  | None => Ok (0, None)
  | Some b =>
      if size b =? 0 then Bad DivByZero
      else
        let index := u64 (current b + avail b) mod size b in
        let towrite := Z.min len (rb_can_write rb) in
        if towrite <? 1 then Ok (0, rb)
        else
          let len := Z.min (u64 (size b - index)) towrite in
          bytes ← load_bytes 0 len src;
          d ← store_bytes index bytes (data b);
          let b := mkRb (size b) (current b) (u64 (avail b + len)) d in
          let written := len in
          '(b, written) ←
            (if len <? towrite then
               let towrite := towrite - len in
               let len := Z.min towrite (rb_can_write (Some b)) in
               bytes ← load_bytes written len src;
               d ← store_bytes 0 bytes (data b);
               Ok (mkRb (size b) (current b) (u64 (avail b + len)) d, u64 (written + len))
             else Ok (b, written));
          if avail b <=? size b then Ok (written, Some b) else Bad OutOfBounds
  end.

(** [rb_read(rb, dst, len)]: the bytes copied out and the buffer. *)
Definition rb_read (rb : option ring_buffer) (len : Z) : outcome (list Z * option ring_buffer) :=
  match rb with
  | None => Ok ([], None)
  | Some b =>
      let index := current b in
      let toread := Z.min len (rb_can_read rb) in
      if toread <? 1 then Ok ([], rb)
      else
        let len := Z.min (u64 (size b - index)) toread in
        bytes ← load_bytes index len (data b);
        let b := mkRb (size b) (u64 (current b + len)) (u64 (avail b - len)) (data b) in
        let got := bytes in
        '(b, got) ←
          (if len <? toread then
             let toread := toread - len in
             let len := Z.min toread (rb_can_read (Some b)) in
             bytes ← load_bytes 0 len (data b);
             Ok (mkRb (size b) len (u64 (avail b - len)) (data b), got ++ bytes)
           else Ok (b, got));
        if avail b <=? size b then Ok (got, Some b) else Bad OutOfBounds
  end.

(** * The queue *)

(** [current] may stand behind the last byte (a read that ends exactly there). *)
Definition rb_ok (rb : ring_buffer) : Prop :=
  0 < size rb < 2 ^ 62 ∧ 0 ≤ current rb ≤ size rb ∧ 0 ≤ avail rb ≤ size rb ∧
  zlen (data rb) = size rb.

(** The bytes in the buffer, oldest first. *)
Definition rb_contents (rb : ring_buffer) : list Z :=
  take (Z.to_nat (avail rb)) (drop (Z.to_nat (current rb)) (data rb) ++ data rb).

Lemma rb_contents_length rb : rb_ok rb → zlen (rb_contents rb) = avail rb.
Proof.
  intros (? & ? & ? & Hd). unfold rb_contents. rewrite length_take, length_app, length_drop. lia.
Qed.

(** The memory as the part before and after [current]. *)
Lemma rb_split rb :
  rb_ok rb → ∃ A B, data rb = A ++ B ∧ zlen A = current rb ∧
    rb_contents rb = take (Z.to_nat (avail rb)) (B ++ A).
Proof.
  intros (? & ? & ? & Hd).
  exists (take (Z.to_nat (current rb)) (data rb)), (drop (Z.to_nat (current rb)) (data rb)).
  rewrite take_drop. split; [done|]. split; [rewrite length_take; lia|].
  unfold rb_contents. rewrite <- (take_drop (Z.to_nat (current rb)) (data rb)) at 2.
  rewrite app_assoc, take_app_le; [done|]. rewrite length_app, length_take, length_drop. lia.
Qed.

Lemma splice_middle {A} off (l1 l2 bs l3 : list A) :
  off = zlen l1 → length bs = length l2 → splice off bs (l1 ++ l2 ++ l3) = l1 ++ bs ++ l3.
Proof.
  intros -> Hl. unfold splice. rewrite Nat2Z.id, take_app_length. do 2 f_equal.
  rewrite app_assoc, drop_app_length'; [done|]. rewrite length_app. lia.
Qed.

Lemma splice_start {A} (l2 bs l3 : list A) :
  length bs = length l2 → splice 0 bs (l2 ++ l3) = bs ++ l3.
Proof. intros Hl. apply (splice_middle 0 [] l2 bs l3); [done|done]. Qed.

Lemma take_exact {A} n (l1 l2 : list A) : n = zlen l1 → take (Z.to_nat n) (l1 ++ l2) = l1.
Proof. intros ->. by rewrite Nat2Z.id, take_app_length. Qed.

(** Contents of a buffer whose memory is [A ++ B] with [current] between. *)
Lemma contents_split sz n A B :
  0 ≤ n ≤ zlen A + zlen B →
  rb_contents (mkRb sz (zlen A) n (A ++ B)) = take (Z.to_nat n) (B ++ A).
Proof.
  intros Hn. unfold rb_contents. cbn. rewrite Nat2Z.id, drop_app_length, app_assoc.
  rewrite take_app_le; [done|]. rewrite length_app. lia.
Qed.

Lemma contents_at sz cur n A B :
  cur = zlen A → 0 ≤ n ≤ zlen A + zlen B →
  rb_contents (mkRb sz cur n (A ++ B)) = take (Z.to_nat n) (B ++ A).
Proof. intros ->. apply contents_split. Qed.

(** Storing behind the contents [C], the memory being [A ++ C ++ F]: in the free
    space [F], *)
Lemma store_behind sz A C F bs :
  zlen bs ≤ zlen F →
  rb_contents (mkRb sz (zlen A) (zlen C + zlen bs) (splice (zlen A + zlen C) bs (A ++ C ++ F))) = C ++ bs.
Proof.
  intros Hl. rewrite <- (take_drop (length bs) F), (app_assoc A).
  rewrite (splice_middle _ (A ++ C)); [|rewrite length_app; lia|rewrite length_take; lia].
  rewrite <- (app_assoc A), contents_split.
  2:{ rewrite !length_app, length_drop. lia. }
  rewrite <- !app_assoc, (app_assoc C bs). apply take_exact. rewrite length_app. lia.
Qed.

(** in all of [F] and at the start of the memory, *)
Lemma store_around sz A C F bs1 bs2 :
  zlen bs1 = zlen F → zlen bs2 ≤ zlen A →
  rb_contents (mkRb sz (zlen A) (zlen C + zlen (bs1 ++ bs2))
    (splice 0 bs2 (splice (zlen A + zlen C) bs1 (A ++ C ++ F)))) = C ++ bs1 ++ bs2.
Proof.
  intros H1 H2. rewrite (app_assoc A), <- (app_nil_r F).
  rewrite (splice_middle _ (A ++ C) F); [|rewrite length_app; lia|lia].
  rewrite app_nil_r, <- (app_assoc A), <- (take_drop (length bs2) A), <- (app_assoc _ (drop _ A)).
  rewrite splice_start by (rewrite length_take; lia). rewrite take_drop, (app_assoc bs2).
  assert (zlen A = zlen (bs2 ++ drop (length bs2) A)) as -> by (rewrite length_app, length_drop; lia).
  rewrite contents_split by (rewrite !length_app, length_drop; lia).
  rewrite <- (app_assoc C), !app_assoc, <- (app_assoc C bs1).
  apply take_exact. rewrite !length_app. lia.
Qed.

(** or, when the contents wrap around, between their end [C] and their start [B]. *)
Lemma store_front sz B C F bs :
  zlen bs ≤ zlen F →
  rb_contents (mkRb sz (zlen (C ++ F)) (zlen (B ++ C) + zlen bs) (splice (zlen C) bs ((C ++ F) ++ B)))
  = (B ++ C) ++ bs.
Proof.
  intros Hl. rewrite <- (take_drop (length bs) F) at 2. rewrite <- !app_assoc.
  rewrite (splice_middle _ C); [|done|rewrite length_take; lia].
  rewrite (app_assoc C), (app_assoc _ _ B).
  assert (zlen (C ++ F) = zlen ((C ++ bs) ++ drop (length bs) F)) as ->.
  { rewrite !length_app, length_drop. lia. }
  rewrite contents_split by (rewrite !length_app, length_drop; lia).
  rewrite <- !app_assoc, (app_assoc C bs), (app_assoc B (C ++ bs)). apply take_exact.
  rewrite !length_app. lia.
Qed.

(** Storing [bs] behind the contents, whatever the layout of the free space. *)
Lemma write_layout sz cur av A B bs :
  zlen A = cur → zlen A + zlen B = sz → 0 ≤ av → av + zlen bs ≤ sz → 0 < sz → 0 < zlen bs →
  let index := (cur + av) mod sz in
  let n1 := Z.min (sz - index) (zlen bs) in
  ∃ d', splice index (take (Z.to_nat n1) bs) (A ++ B) = d' ∧ index + n1 ≤ sz ∧ 0 ≤ index ∧ 0 < n1 ∧
    (n1 < zlen bs → zlen bs - n1 ≤ sz) ∧
    rb_contents (mkRb sz cur (av + zlen bs)
      (if decide (n1 < zlen bs) then splice 0 (drop (Z.to_nat n1) bs) d' else d'))
    = take (Z.to_nat av) (B ++ A) ++ bs.
Proof.
  intros HA Hsz Hav Hfit Hpos Hbs index n1.
  assert (n1 = Z.min (sz - index) (zlen bs)) as Dn1 by done. clearbody n1.
  eexists. split; [reflexivity|].
  destruct (Z.lt_ge_cases (cur + av) sz) as [Hc|Hc].
  - assert (index = cur + av) as Hi by (apply Z.mod_small; lia). clearbody index.
    split_and!; try lia. rewrite <- (take_drop (Z.to_nat av) B).
    assert (zlen (take (Z.to_nat av) B) = av) as LC by (rewrite length_take; lia).
    assert (zlen (drop (Z.to_nat av) B) = sz - index) as LF by (rewrite length_drop; lia).
    set (C := take (Z.to_nat av) B) in *. set (F := drop (Z.to_nat av) B) in *.
    rewrite <- app_assoc, (take_exact av C) by done. rewrite Hi, <- HA, <- LC.
    destruct (decide (n1 < zlen bs)) as [Hw|Hw].
    + rewrite <- (take_drop (Z.to_nat n1) bs) at 1 4.
      rewrite store_around; [done|rewrite length_take; lia|rewrite length_drop; lia].
    + assert (n1 = zlen bs) as -> by lia. rewrite Nat2Z.id, firstn_all. apply store_behind. lia.
  - assert (index = cur + av - sz) as Hi.
    { unfold index. rewrite <- (Z.mod_add _ (-1)) by lia. apply Z.mod_small. lia. }
    clearbody index. split_and!; try lia. rewrite decide_False by lia.
    assert (n1 = zlen bs) as -> by lia. rewrite Nat2Z.id, firstn_all.
    rewrite <- (take_drop (Z.to_nat index) A).
    assert (zlen (take (Z.to_nat index) A) = index) as LC by (rewrite length_take; lia).
    assert (zlen (drop (Z.to_nat index) A) = sz - av) as LF by (rewrite length_drop; lia).
    set (C := take (Z.to_nat index) A) in *. set (F := drop (Z.to_nat index) A) in *.
    assert (av = zlen (B ++ C)) as Hav' by (rewrite length_app; lia).
    assert (cur = zlen (C ++ F)) as -> by (rewrite length_app; lia).
    rewrite (app_assoc B), (take_exact av (B ++ C)) by done. rewrite Hav', <- LC at 1.
    apply store_front. lia.
Qed.

Lemma rb_write_run rb src len :
  rb_ok rb → 0 ≤ len ≤ zlen src → len < 2 ^ 62 →
  let n := Z.min len (size rb - avail rb) in
  ∃ rb', rb_write (Some rb) src len = Ok (n, Some rb') ∧ rb_ok rb' ∧ size rb' = size rb ∧
    rb_contents rb' = rb_contents rb ++ take (Z.to_nat n) src.
Proof.
  intros Hok Hlen Hlim n. destruct (rb_split rb Hok) as (A & B & Hd & HA & Hc).
  pose proof Hok as (Hs & Hcur & Hav & Hdl). unfold rb_write, rb_can_write.
  rewrite (proj2 (Z.eqb_neq (size rb) 0)) by lia.
  rewrite (u64_id (current rb + avail rb)), (u64_id (size rb - avail rb)) by lia. fold n.
  destruct (Z.ltb_spec n 1) as [Hn|Hn].
  { exists rb. assert (n = 0) as -> by lia. cbn [take]. rewrite take_0, app_nil_r. done. }
  set (bs := take (Z.to_nat n) src).
  assert (zlen bs = n) as Lbs by (unfold bs; rewrite length_take; lia).
  assert (zlen A + zlen B = size rb) as HAB by (rewrite <- Hdl, Hd, length_app; lia).
  destruct (write_layout (size rb) (current rb) (avail rb) A B bs)
    as (d' & Hsp & Hi1 & Hi0 & Hn1 & Hn2 & Hcont); [done|done|lia|lia|lia|lia|].
  set (index := (current rb + avail rb) mod size rb) in *.
  rewrite Lbs in *. rewrite (u64_id (size rb - index)) by lia.
  set (n1 := Z.min (size rb - index) n) in *.
  rewrite load_bytes_Ok by lia. cbn [mbind outcome_bind].
  assert (slice 0 n1 src = take (Z.to_nat n1) bs) as Hb1.
  { unfold bs. rewrite slice_0, take_take. f_equal. lia. }
  rewrite Hb1. rewrite store_bytes_Ok by (try lia; rewrite length_take; lia).
  cbn [mbind outcome_bind]. rewrite Hd, Hsp. cbn [avail size current data].
  rewrite (u64_id (avail rb + n1)) by lia.
  assert (zlen d' = size rb) as Hd'.
  { rewrite <- Hsp, splice_length; [by rewrite <- Hd|lia|]. rewrite length_take, <- Hd. lia. }
  destruct (Z.ltb_spec n1 n) as [Hw|Hw].
  - rewrite decide_True in Hcont by done. rewrite (u64_id (size rb - (avail rb + n1))) by lia.
    assert (Z.min (n - n1) (size rb - (avail rb + n1)) = n - n1) as -> by lia.
    rewrite load_bytes_Ok by lia. cbn [mbind outcome_bind].
    assert (slice n1 (n - n1) src = drop (Z.to_nat n1) bs) as ->.
    { unfold bs, slice. rewrite skipn_firstn_comm. f_equal. lia. }
    rewrite store_bytes_Ok by (try lia; rewrite length_drop; lia). cbn [mbind outcome_bind avail size].
    replace (avail rb + n1 + (n - n1)) with (avail rb + n) by lia.
    replace (n1 + (n - n1)) with n by lia. rewrite (u64_id (avail rb + n)), (u64_id n) by lia.
    destruct (Z.leb_spec (avail rb + n) (size rb)); [|lia].
    eexists. split; [reflexivity|]. split; [|split; [done|by rewrite Hcont, Hc]].
    unfold rb_ok; cbn. split_and!; try lia.
    rewrite splice_length; [done|lia|]. rewrite length_drop. lia.
  - rewrite decide_False in Hcont by lia. assert (n1 = n) as -> by lia.
    cbn [mbind outcome_bind avail size].
    destruct (Z.leb_spec (avail rb + n) (size rb)); [|lia].
    eexists. split; [reflexivity|]. split; [|split; [done|by rewrite Hcont, Hc]].
    unfold rb_ok; cbn. split_and!; lia.
Qed.

Lemma rb_read_run rb len :
  rb_ok rb → 0 ≤ len →
  let n := Z.min len (avail rb) in
  ∃ rb', rb_read (Some rb) len = Ok (take (Z.to_nat n) (rb_contents rb), Some rb') ∧ rb_ok rb' ∧
    size rb' = size rb ∧ rb_contents rb' = drop (Z.to_nat n) (rb_contents rb).
Proof.
  intros Hok Hlen n. destruct (rb_split rb Hok) as (A & B & Hd & HA & Hc).
  pose proof Hok as (Hs & Hcur & Hav & Hdl). unfold rb_read, rb_can_read. fold n.
  destruct (Z.ltb_spec n 1) as [Hn|Hn].
  { exists rb. assert (n = 0) as -> by lia. by rewrite take_0, drop_0. }
  assert (zlen A + zlen B = size rb) as HAB by (rewrite <- Hdl, Hd, length_app; lia).
  rewrite (u64_id (size rb - current rb)) by lia.
  assert (n ≤ len ∧ n ≤ avail rb) as Hnb by (unfold n; lia). clearbody n.
  remember (Z.min (size rb - current rb) n) as n1 eqn:Dn1.
  rewrite (load_bytes_Ok (current rb) n1) by (rewrite ?Hdl; lia). cbn [mbind outcome_bind].
  assert (slice (current rb) n1 (data rb) = take (Z.to_nat n1) B) as ->.
  { rewrite Hd, slice_app_r by lia. by rewrite HA, Z.sub_diag, slice_0. }
  cbn [avail size current data].
  rewrite (u64_id (current rb + n1)), (u64_id (avail rb - n1)) by lia.
  assert (take (Z.to_nat n) (rb_contents rb) = take (Z.to_nat n) (B ++ A)) as ->.
  { rewrite Hc, take_take. f_equal. lia. }
  assert (drop (Z.to_nat n) (rb_contents rb) = take (Z.to_nat (avail rb - n)) (drop (Z.to_nat n) (B ++ A))) as ->.
  { rewrite Hc, skipn_firstn_comm. f_equal. lia. }
  destruct (Z.ltb_spec n1 n) as [Hw|Hw].
  - assert (n1 = zlen B) as Hn1 by lia.
    assert (Z.min (n - n1) (avail rb - n1) = n - n1) as -> by lia.
    rewrite load_bytes_Ok by (rewrite ?Hdl; lia). cbn [mbind outcome_bind avail size current data].
    replace (avail rb - n1 - (n - n1)) with (avail rb - n) by lia. rewrite u64_id by lia.
    destruct (Z.leb_spec (avail rb - n) (size rb)); [|lia].
    assert (slice 0 (n - n1) (data rb) = take (Z.to_nat (n - n1)) A) as ->.
    { rewrite slice_0, Hd, take_app_le by lia. done. }
    exists (mkRb (size rb) (n - n1) (avail rb - n) (data rb)). split; [|split; [|split; [done|]]].
    + rewrite (take_app_ge B A) by lia. rewrite (take_ge B (Z.to_nat n1)) by lia.
      replace (Z.to_nat n - length B)%nat with (Z.to_nat (n - n1)) by lia. reflexivity.
    + unfold rb_ok; cbn. split_and!; lia.
    + assert (data rb = take (Z.to_nat (n - n1)) A ++ (drop (Z.to_nat (n - n1)) A ++ B)) as ->
        by (by rewrite app_assoc, take_drop).
      rewrite contents_at by (rewrite ?length_app, ?length_take, ?length_drop; lia).
      rewrite drop_app_ge by lia. replace (Z.to_nat n - length B)%nat with (Z.to_nat (n - n1)) by lia.
      rewrite <- app_assoc, take_app_le; [done|]. rewrite length_drop. lia.
  - assert (n1 = n) as -> by lia. cbn [mbind outcome_bind avail size].
    destruct (Z.leb_spec (avail rb - n) (size rb)); [|lia].
    exists (mkRb (size rb) (current rb + n) (avail rb - n) (data rb)).
    split; [|split; [|split; [done|]]].
    + rewrite (take_app_le B A) by lia. reflexivity.
    + unfold rb_ok; cbn. split_and!; lia.
    + assert (data rb = (A ++ take (Z.to_nat n) B) ++ drop (Z.to_nat n) B) as ->
        by (by rewrite <- app_assoc, take_drop).
      rewrite contents_at by (rewrite ?length_app, ?length_take, ?length_drop; lia).
      rewrite drop_app_le by lia. rewrite app_assoc, take_app_le; [done|].
      rewrite length_app, length_drop. lia.
Qed.

(** * FIFO order *)

(** Operations on a buffer, and what they return. *)
Inductive rb_op : Type := Write (bytes : list Z) | Read (len : Z) | Clear.
Inductive rb_result : Type := Wrote (n : Z) | Got (bytes : list Z) | Cleared.

Definition rb_step (rb : ring_buffer) (op : rb_op) : outcome (rb_result * ring_buffer) :=
  match op with
  | Write bytes =>
      '(n, rb') ← rb_write (Some rb) bytes (zlen bytes); Ok (Wrote n, default rb rb')
  | Read len => '(bytes, rb') ← rb_read (Some rb) len; Ok (Got bytes, default rb rb')
  | Clear => Ok (Cleared, rb_clear rb)
  end.

(** The bounded queue: writing accepts what fits, reading takes the oldest. *)
Definition queue_step (cap : Z) (q : list Z) (op : rb_op) : rb_result * list Z :=
  match op with
  | Write bytes =>
      let n := Z.min (zlen bytes) (cap - zlen q) in
      (Wrote n, q ++ take (Z.to_nat n) bytes)
  | Read len =>
      let n := Z.min len (zlen q) in (Got (take (Z.to_nat n) q), drop (Z.to_nat n) q)
  | Clear => (Cleared, [])
  end.

Fixpoint rb_run (rb : ring_buffer) (ops : list rb_op) : outcome (list rb_result * ring_buffer) :=
  match ops with
  | [] => Ok ([], rb)
  | op :: ops =>
      '(r, rb) ← rb_step rb op; '(rs, rb) ← rb_run rb ops; Ok (r :: rs, rb)
  end.

Fixpoint queue_run (cap : Z) (q : list Z) (ops : list rb_op) : list rb_result * list Z :=
  match ops with
  | [] => ([], q)
  | op :: ops =>
      let '(r, q) := queue_step cap q op in
      let '(rs, q) := queue_run cap q ops in (r :: rs, q)
  end.

Definition op_ok (op : rb_op) : Prop :=
  match op with Write bytes => zlen bytes < 2 ^ 62 | Read len => 0 ≤ len | Clear => True end.

Lemma rb_step_refines rb op :
  rb_ok rb → op_ok op →
  ∃ rb', rb_step rb op = Ok ((queue_step (size rb) (rb_contents rb) op).1, rb') ∧ rb_ok rb' ∧
    size rb' = size rb ∧ rb_contents rb' = (queue_step (size rb) (rb_contents rb) op).2.
Proof.
  intros Hok Hop. pose proof (rb_contents_length rb Hok) as Hl.
  destruct op as [bytes|len|]; cbn [rb_step queue_step op_ok fst snd] in *; rewrite ?Hl.
  - destruct (rb_write_run rb bytes (zlen bytes) Hok) as (rb' & E & ?); [lia|done|].
    exists rb'. rewrite E. done.
  - destruct (rb_read_run rb len Hok Hop) as (rb' & E & ?). exists rb'. rewrite E. done.
  - exists (rb_clear rb). destruct Hok as (? & ? & ? & ?). split; [done|]. split; [|done].
    unfold rb_ok, rb_clear; cbn. split_and!; lia.
Qed.

(** C21. The ring buffer is a bounded FIFO queue.  From a buffer set up by
    [rb_init] on [sz] bytes of memory, every sequence of writes, reads and
    clears runs without leaving the memory or failing its assertions, and
    returns what a queue of capacity [sz] returns: a write accepts as many
    bytes as fit, a read yields the oldest bytes in order. *)
Theorem ring_buffer_fifo mem sz ops :
  0 < sz < 2 ^ 62 → zlen mem = sz → Forall op_ok ops →
  ∃ rb', rb_run (rb_init mem sz) ops = Ok ((queue_run sz [] ops).1, rb') ∧ rb_ok rb' ∧
    rb_contents rb' = (queue_run sz [] ops).2.
Proof.
  intros Hsz Hmem Hops.
  assert (∀ rb, rb_ok rb → size rb = sz → ∃ rb',
    rb_run rb ops = Ok ((queue_run sz (rb_contents rb) ops).1, rb') ∧ rb_ok rb' ∧
    rb_contents rb' = (queue_run sz (rb_contents rb) ops).2) as Hrun.
  { induction Hops as [|op ops Hop _ IH]; intros rb Hok Hs; cbn [rb_run queue_run]; [by exists rb|].
    destruct (rb_step_refines rb op Hok Hop) as (rb1 & E1 & Hok1 & Hs1 & Hc1). rewrite E1.
    rewrite Hs in E1, Hc1 |- *. cbn [mbind outcome_bind].
    destruct (IH rb1 Hok1 ltac:(congruence)) as (rb2 & E2 & Hok2 & Hc2). rewrite E2.
    rewrite Hc1 in *. destruct (queue_step sz (rb_contents rb) op) as [r q].
    cbn [fst snd] in *. destruct (queue_run sz q ops) as [rs q']. by exists rb2. }
  apply (Hrun (rb_init mem sz)); [|done]. unfold rb_ok, rb_init; cbn. lia.
Qed.

Lemma ring_buffer_fifo_witness :
  ∃ rb', rb_run (rb_init [0; 0; 0; 0] 4) [Write [1; 2; 3]; Read 2; Write [4; 5; 6; 7]; Read 9]
         = Ok ([Wrote 3; Got [1; 2]; Wrote 3; Got [3; 4; 5; 6]], rb').
Proof.
  destruct (ring_buffer_fifo [0; 0; 0; 0] 4 [Write [1; 2; 3]; Read 2; Write [4; 5; 6; 7]; Read 9])
    as (rb' & E & _); [lia|done|repeat constructor; cbn; lia|]. exists rb'. exact E.
Defined.
