(* ===== verification/VnidPool.v ===== *)
(** The vnode id pool of websearchfs (src/add-ons/kernel/file_systems/
    websearchfs/vnidpool.c): a bitmap of ids in use, as the code lays it out.

    The bitmap is an array of [uint32] behind the structure; only the words
    inside the allocated block can be touched.  [LOCK] may fail: its status is
    an argument. *)

From S2P Require Import Prelude Errors.

Definition BMT_SIZE : Z := 4.        (* sizeof(BMT) *)

Record vnidpool : Type := mkVnids {
  nextvnid : Z;
  bitmap : list Z;                   (* the words that lie in the block *)
  bmsize : Z
}.

Section Macros.
Context (p : vnidpool).

(** The macros test and change the bit of [nextvnid] in the word of [vnid];
    [vnid % p->bmsize] is unsigned. *)
Definition BM_INDEX (vnid : Z) : Z := (u64 vnid mod bmsize p) / BMT_SIZE.
Definition BM_BIT : Z := Z.shiftl 1 (u64 (nextvnid p) mod BMT_SIZE).

Definition BM_BYTE (vnid : Z) : outcome Z :=
  match bitmap p !! Z.to_nat (BM_INDEX vnid) with Some w => Ok w | None => Bad OutOfBounds end.

Definition BM_ISSET (vnid : Z) : outcome bool :=
  w ← BM_BYTE vnid; Ok (negb (Z.land w BM_BIT =? 0)).

Definition BM_UPDATE (vnid : Z) (f : Z → Z) : outcome vnidpool :=
  w ← BM_BYTE vnid;
  Ok (mkVnids (nextvnid p) (<[Z.to_nat (BM_INDEX vnid) := f w]> (bitmap p)) (bmsize p)).

Definition BM_SET (vnid : Z) : outcome vnidpool := BM_UPDATE vnid (λ w, Z.lor w BM_BIT).
Definition BM_UNSET (vnid : Z) : outcome vnidpool :=
  BM_UPDATE vnid (λ w, Z.land w (u32 (Z.lnot BM_BIT))).
End Macros.

Definition vnidpool_alloc (have_pool got_memory : bool) (size : Z) : Z * option vnidpool :=
  if size <? 2 then (EINVAL, None)
  else if negb have_pool then (EINVAL, None)
  else
    let size := u64 (u64 (size + BMT_SIZE - 1) / BMT_SIZE * BMT_SIZE) in
    if negb got_memory then (B_NO_MEMORY, None)
    else
      let bytes := size / BMT_SIZE in
      (B_OK, Some (mkVnids 1 (replicate (Z.to_nat (bytes / BMT_SIZE)) 0) size)).

(** The scan for words still in use only prints a warning. *)
Definition vnidpool_free (lock : Z) (pool : option vnidpool) : outcome Z :=
  match pool with
  | None => Ok EINVAL
  | Some p =>
      if lock <? B_OK then Ok B_ERROR
      else
        if bool_decide (bmsize p mod BMT_SIZE ≤ zlen (bitmap p)) then Ok B_OK
        else Bad OutOfBounds
  end.

(** [for (i = 0; BM_ISSET(pool, pool->nextvnid) && i < pool->bmsize; pool->nextvnid++, i++)] *)
Fixpoint next_free (fuel : nat) (p : vnidpool) (i : Z) : outcome vnidpool :=
  match fuel with
  | O => Hang
  | S fuel =>
      set ← BM_ISSET p (nextvnid p);
      if (set : bool) && (i <? bmsize p)
      then next_free fuel (mkVnids (s64 (nextvnid p + 1)) (bitmap p) (bmsize p)) (u32 (i + 1))
      else Ok p
  end.

(** Status, id and pool. *)
Definition vnidpool_get (lock : Z) (pool : option vnidpool) : outcome (Z * Z * option vnidpool) :=
  match pool with
  | None => Ok (EINVAL, 0, None)
  | Some p =>
      if lock <? B_OK then Ok (B_ERROR, 0, pool)
      else
        p ← next_free (S (Z.to_nat (bmsize p))) p 0;
        set ← BM_ISSET p (nextvnid p);
        if set : bool then Ok (ENOBUFS, 0, Some p)
        else
          p ← BM_SET p (nextvnid p);
          Ok (B_OK, nextvnid p, Some (mkVnids (s64 (nextvnid p + 1)) (bitmap p) (bmsize p)))
  end.

Definition vnidpool_put (lock : Z) (pool : option vnidpool) (vnid : Z)
    : outcome (Z * option vnidpool) :=
  match pool with
  | None => Ok (EINVAL, None)
  | Some p =>
      if lock <? B_OK then Ok (B_ERROR, pool)
      else
        set ← BM_ISSET p vnid;
        if negb set then Ok (EINVAL, Some p)
        else p ← BM_UNSET p vnid; Ok (B_OK, Some p)
  end.

(** * The ids a fresh pool hands out *)

(** [n] calls of [vnidpool_get]: the ids, and the pool. *)
Fixpoint gets (n : nat) (p : vnidpool) : outcome (list Z * vnidpool) :=
  match n with
  | O => Ok ([], p)
  | S n =>
      '(ids, p) ← gets n p;
      '(e, vnid, p') ← vnidpool_get B_OK (Some p);
      Ok (ids ++ [if e =? B_OK then vnid else 0], default p p')
  end.

(** After [k] calls: the ids 1..k are marked, four to a word. *)
Definition marked (k : Z) (p : vnidpool) : Prop :=
  nextvnid p = k + 1 ∧ 4 ≤ bmsize p < 2 ^ 32 ∧ bmsize p mod 16 = 0 ∧
  zlen (bitmap p) = bmsize p / 16 ∧
  ∀ i w j, bitmap p !! i = Some w → 0 ≤ j < 4 →
    Z.testbit w j = bool_decide (1 ≤ 4 * Z.of_nat i + j ≤ k).

Lemma land_bit_zero w j : 0 ≤ j → (Z.land w (Z.shiftl 1 j) =? 0) = negb (Z.testbit w j).
Proof.
  intros Hj. rewrite Z.shiftl_1_l. destruct (Z.testbit w j) eqn:E; cbn.
  - apply Z.eqb_neq. intros H. apply (f_equal (λ x, Z.testbit x j)) in H.
    rewrite Z.land_spec, E, Z.pow2_bits_true, Z.bits_0 in H by lia. done.
  - apply Z.eqb_eq. apply Z.bits_inj'. intros n Hn. rewrite Z.land_spec, Z.bits_0.
    destruct (decide (n = j)) as [->|]; [by rewrite E|].
    rewrite Z.pow2_bits_false by lia. by rewrite andb_false_r.
Qed.

Section Fresh.
Context (k : Z) (p : vnidpool) (Hm : marked k p) (Hk : 0 ≤ k) (Hfit : k + 1 < bmsize p).

Lemma marked_index : BM_INDEX p (nextvnid p) = (k + 1) / 4.
Proof.
  pose proof Hm as (Hn & Hb & _). unfold BM_INDEX, BMT_SIZE. rewrite Hn.
  rewrite u64_id by lia. by rewrite Z.mod_small by lia.
Qed.

Lemma marked_bit : BM_BIT p = Z.shiftl 1 ((k + 1) mod 4).
Proof.
  pose proof Hm as (Hn & Hb & _). unfold BM_BIT, BMT_SIZE. by rewrite Hn, u64_id by lia.
Qed.

(** The next id is free, if its word is in the block. *)
Lemma marked_next_free :
  (k + 1) / 4 < bmsize p / 16 → BM_ISSET p (nextvnid p) = Ok false.
Proof.
  intros Hw. unfold BM_ISSET, BM_BYTE. rewrite marked_index, marked_bit.
  pose proof Hm as (Hn & Hb & _ & Hl & Hbits).
  pose proof (Z.div_mod (k + 1) 4). pose proof (Z.mod_pos_bound (k + 1) 4).
  destruct (lookup_lt_is_Some_2 (bitmap p) (Z.to_nat ((k + 1) / 4))) as [w Hw']; [lia|].
  rewrite Hw'. cbn [mbind outcome_bind]. rewrite land_bit_zero by lia.
  rewrite (Hbits _ _ _ Hw') by lia. rewrite bool_decide_false; [done|].
  rewrite Z2Nat.id by lia. lia.
Qed.

Lemma marked_get :
  (k + 1) / 4 < bmsize p / 16 →
  ∃ p', vnidpool_get B_OK (Some p) = Ok (B_OK, k + 1, Some p') ∧ marked (k + 1) p' ∧ bmsize p' = bmsize p.
Proof.
  intros Hw. pose proof (marked_next_free Hw) as Hfree.
  unfold vnidpool_get. cbn [next_free]. rewrite Hfree. cbn [Z.ltb Z.compare B_OK mbind outcome_bind andb].
  rewrite Hfree. cbn [mbind outcome_bind]. unfold BM_SET, BM_UPDATE, BM_BYTE.
  rewrite marked_index, marked_bit. pose proof Hm as (Hn & Hb & H16 & Hl & Hbits).
  pose proof (Z.div_mod (k + 1) 4). pose proof (Z.mod_pos_bound (k + 1) 4).
  destruct (lookup_lt_is_Some_2 (bitmap p) (Z.to_nat ((k + 1) / 4))) as [w Hw']; [lia|].
  rewrite Hw'. cbn [mbind outcome_bind nextvnid bitmap bmsize].
  rewrite Hn. unfold s64. rewrite swrap_id by lia.
  eexists. split; [reflexivity|]. split; [|done]. unfold marked; cbn.
  split; [done|]. split; [done|]. split; [done|]. rewrite length_insert. split; [done|].
  intros i w' j Hi Hj. rewrite Z.shiftl_1_l in Hi.
  destruct (decide (i = Z.to_nat ((k + 1) / 4))) as [->|Hne].
  - rewrite list_lookup_insert_eq in Hi by (eapply lookup_lt_Some; exact Hw').
    injection Hi as <-. rewrite Z.lor_spec, (Hbits _ _ _ Hw' Hj), Z2Nat.id by lia.
    destruct (decide (j = (k + 1) mod 4)) as [->|Hj'].
    + rewrite Z.pow2_bits_true, orb_true_r by lia. symmetry. apply bool_decide_eq_true. lia.
    + rewrite Z.pow2_bits_false, orb_false_r by lia. apply bool_decide_ext. lia.
  - rewrite list_lookup_insert_ne in Hi by done. rewrite (Hbits _ _ _ Hi Hj).
    apply bool_decide_ext. lia.
Qed.

Lemma marked_get_past :
  bmsize p / 16 ≤ (k + 1) / 4 → vnidpool_get B_OK (Some p) = Bad OutOfBounds.
Proof.
  intros Hw. assert (BM_BYTE p (nextvnid p) = Bad OutOfBounds) as Hb.
  { unfold BM_BYTE. rewrite marked_index. pose proof Hm as (_ & _ & _ & Hl & _).
    by rewrite lookup_ge_None_2 by lia. }
  unfold vnidpool_get. cbn [next_free]. unfold BM_ISSET. by rewrite Hb.
Qed.
End Fresh.

Lemma gets_fresh n p :
  marked 0 p → Z.of_nat n < bmsize p / 4 →
  ∃ p', gets n p = Ok ((λ i, Z.of_nat i + 1) <$> seq 0 n, p') ∧ marked (Z.of_nat n) p' ∧
    bmsize p' = bmsize p.
Proof.
  intros Hm. induction n as [|n IH]; intros Hn; [by exists p|]. cbn [gets].
  destruct IH as (p1 & E1 & Hm1 & Hb1); [lia|]. rewrite E1. cbn [mbind outcome_bind].
  pose proof Hm as (_ & Hb & H16 & _).
  destruct (marked_get (Z.of_nat n) p1 Hm1) as (p2 & E2 & Hm2 & Hb2).
  - lia.
  - rewrite Hb1. pose proof (Z.div_mod (bmsize p) 4). pose proof (Z.mod_pos_bound (bmsize p) 4). lia.
  - rewrite Hb1. clear -Hn H16 Hb. div_mod_lia.
  - rewrite E2. cbn [mbind outcome_bind Z.eqb B_OK default]. exists p2.
    rewrite seq_S, fmap_app. cbn. split; [done|]. split; [|congruence].
    by replace (Z.of_nat (S n)) with (Z.of_nat n + 1) by lia.
Qed.

Lemma alloc_marked sz :
  16 ≤ sz < 2 ^ 31 → sz mod 16 = 0 →
  ∃ p, vnidpool_alloc true true sz = (B_OK, Some p) ∧ marked 0 p ∧ bmsize p = sz.
Proof.
  intros Hsz H16. unfold vnidpool_alloc, BMT_SIZE. destruct (Z.ltb_spec sz 2); [lia|]. cbn [negb].
  rewrite (u64_id (sz + 4 - 1)) by lia.
  assert ((sz + 4 - 1) / 4 * 4 = sz) as -> by (clear -H16; div_mod_lia).
  rewrite u64_id by lia. eexists. split; [reflexivity|]. split; [|done]. unfold marked; cbn.
  split_and!; try done; try lia.
  - rewrite length_replicate. clear -H16 Hsz. div_mod_lia.
  - intros i w j Hi Hj. apply lookup_replicate in Hi as [-> _]. rewrite Z.bits_0.
    symmetry. apply bool_decide_eq_false. lia.
Qed.

(** The pool hands out ids in order until its bitmap ends.  A pool of
    [sz] ids ([sz] a multiple of 16) gives 1, 2, 3, ... one per call, but its
    bitmap was allocated with a quarter of the words the macros index: the call
    for id [sz / 4] reads behind the block. *)
Lemma vnidpool_quarter sz n :
  16 ≤ sz < 2 ^ 31 → sz mod 16 = 0 → Z.of_nat n = sz / 4 - 1 →
  ∃ p p', vnidpool_alloc true true sz = (B_OK, Some p) ∧
    gets n p = Ok ((λ i, Z.of_nat i + 1) <$> seq 0 n, p') ∧
    vnidpool_get B_OK (Some p') = Bad OutOfBounds.
Proof.
  intros Hsz H16 Hn. destruct (alloc_marked sz Hsz H16) as (p & Ep & Hm & Hb).
  destruct (gets_fresh n p Hm) as (p' & E & Hm' & Hb'); [rewrite Hb; lia|].
  exists p, p'. split; [done|]. split; [done|].
  apply (marked_get_past (Z.of_nat n) p' Hm'); [lia| |]; rewrite Hb', Hb, Hn; clear -Hsz H16; div_mod_lia.
Qed.

Lemma vnidpool_quarter_witness :
  ∃ p p', vnidpool_alloc true true 32 = (B_OK, Some p) ∧ gets 7 p = Ok ([1; 2; 3; 4; 5; 6; 7], p') ∧
    vnidpool_get B_OK (Some p') = Bad OutOfBounds.
Proof. apply (vnidpool_quarter 32 7); [lia|done|done]. Defined.

(** Releasing an id tests the wrong bit.  In a fresh pool the first id is 1;
    [vnidpool_put] of it looks at the bit of the next id, finds it clear and
    returns EINVAL: the id stays in use. *)
Lemma vnidpool_put_wrong_bit sz :
  16 ≤ sz < 2 ^ 31 → sz mod 16 = 0 →
  ∃ p p', vnidpool_alloc true true sz = (B_OK, Some p) ∧
    vnidpool_get B_OK (Some p) = Ok (B_OK, 1, Some p') ∧
    vnidpool_put B_OK (Some p') 1 = Ok (EINVAL, Some p').
Proof.
  intros Hsz H16. destruct (alloc_marked sz Hsz H16) as (p & Ep & Hm & Hb).
  destruct (marked_get 0 p Hm) as (p' & E & Hm' & Hb'); [lia|lia|rewrite Hb; clear -Hsz H16; div_mod_lia|].
  exists p, p'. split; [done|]. split; [done|]. unfold vnidpool_put. cbn [Z.ltb Z.compare B_OK].
  assert (BM_ISSET p' 1 = BM_ISSET p' (nextvnid p')) as ->.
  { unfold BM_ISSET, BM_BYTE. do 2 f_equal. destruct Hm' as (-> & Hbm & _). unfold BM_INDEX, BMT_SIZE.
    rewrite !u64_id, !Z.mod_small by lia. done. }
  rewrite (marked_next_free 1 p' Hm'); [done|lia|lia|]. rewrite Hb', Hb. clear -Hsz H16. div_mod_lia.
Qed.

Lemma vnidpool_put_wrong_bit_witness :
  ∃ p p', vnidpool_alloc true true 64 = (B_OK, Some p) ∧
    vnidpool_get B_OK (Some p) = Ok (B_OK, 1, Some p') ∧
    vnidpool_put B_OK (Some p') 1 = Ok (EINVAL, Some p').
Proof. apply (vnidpool_put_wrong_bit 64); [lia|done]. Defined.

(** * A pool in use

    Ids grow and are not handed out again, so that no bit from the next id on
    is ever set - [vnidpool_put] only clears bits, be they the right ones or
    not. *)
Record pool_ok (k : Z) (p : vnidpool) : Prop := {
  po_next : nextvnid p = k;
  po_size : bmsize p = 5000;
  po_words : length (bitmap p) = 312%nat;
  po_clear i w j : bitmap p !! i = Some w → 0 ≤ j < 4 → k ≤ 4 * Z.of_nat i + j → Z.testbit w j = false
}.

Section InUse.
Context (k : Z) (p : vnidpool) (Hok : pool_ok k p) (Hk : 1 ≤ k).

Lemma pool_word v : 0 ≤ v < 1248 → ∃ w, bitmap p !! Z.to_nat (v / 4) = Some w ∧ BM_INDEX p v = v / 4.
Proof.
  intros Hv. destruct (lookup_lt_is_Some_2 (bitmap p) (Z.to_nat (v / 4))) as [w Hw].
  { rewrite (po_words _ _ Hok). div_mod_lia. }
  exists w. split; [done|]. unfold BM_INDEX, BMT_SIZE. rewrite u64_id, (po_size _ _ Hok), Z.mod_small by lia. done.
Qed.

Lemma pool_bit : k < 2 ^ 63 → BM_BIT p = 2 ^ (k mod 4).
Proof. intros. unfold BM_BIT, BMT_SIZE. rewrite (po_next _ _ Hok), u64_id, Z.shiftl_1_l by lia. done. Qed.

Lemma pool_get : k < 1248 → ∃ p', vnidpool_get B_OK (Some p) = Ok (B_OK, k, Some p') ∧ pool_ok (k + 1) p'.
Proof.
  intros Hlt. destruct (pool_word k) as (w & Hw & Ei); [lia|]. pose proof (pool_bit ltac:(lia)) as Eb.
  pose proof (Z.div_mod k 4 ltac:(lia)). pose proof (Z.mod_pos_bound k 4 ltac:(lia)).
  assert (BM_ISSET p (nextvnid p) = Ok false) as Hfree.
  { unfold BM_ISSET, BM_BYTE. rewrite (po_next _ _ Hok), Ei, Hw. cbn [mbind outcome_bind].
    rewrite Eb, <- Z.shiftl_1_l, land_bit_zero by lia. rewrite (po_clear _ _ Hok _ _ _ Hw) by lia. done. }
  unfold vnidpool_get. cbn [next_free]. rewrite Hfree. cbn [Z.ltb Z.compare B_OK mbind outcome_bind andb].
  rewrite Hfree. cbn [mbind outcome_bind]. unfold BM_SET, BM_UPDATE, BM_BYTE.
  rewrite (po_next _ _ Hok), Ei, Hw, Eb. cbn [mbind outcome_bind nextvnid bitmap bmsize].
  unfold s64. rewrite swrap_id by lia. eexists. split; [reflexivity|].
  split; cbn; [done|apply Hok|by rewrite length_insert, (po_words _ _ Hok)|].
  intros i x j Hi Hj Hge. destruct (decide (i = Z.to_nat (k / 4))) as [->|Hne].
  - rewrite list_lookup_insert_eq in Hi by (eapply lookup_lt_Some; exact Hw). injection Hi as <-.
    rewrite Z.lor_spec, (po_clear _ _ Hok _ _ _ Hw Hj), Z.pow2_bits_false by lia. done.
  - rewrite list_lookup_insert_ne in Hi by done. eapply (po_clear _ _ Hok); [done|done|lia].
Qed.

Lemma pool_put v : k < 2 ^ 63 → 0 ≤ v < 1248 → ∃ e p', vnidpool_put B_OK (Some p) v = Ok (e, Some p') ∧ pool_ok k p'.
Proof.
  intros Hlt Hv. destruct (pool_word v Hv) as (w & Hw & Ei). unfold vnidpool_put. cbn [Z.ltb Z.compare B_OK].
  unfold BM_ISSET, BM_UNSET, BM_UPDATE, BM_BYTE. rewrite Ei, Hw. cbn [mbind outcome_bind].
  destruct (negb (negb (Z.land w (BM_BIT p) =? 0))) eqn:E; [by eexists _, _|]. eexists _, _. split; [reflexivity|].
  split; cbn; [apply Hok|apply Hok|by rewrite length_insert, (po_words _ _ Hok)|].
  intros i x j Hi Hj Hge. destruct (decide (i = Z.to_nat (v / 4))) as [->|Hne].
  - rewrite list_lookup_insert_eq in Hi by (eapply lookup_lt_Some; exact Hw). injection Hi as <-.
    by rewrite Z.land_spec, (po_clear _ _ Hok _ _ _ Hw Hj Hge).
  - rewrite list_lookup_insert_ne in Hi by done. by eapply (po_clear _ _ Hok).
Qed.
End InUse.

Lemma pool_fresh : ∃ p, vnidpool_alloc true true 5000 = (B_OK, Some p) ∧ pool_ok 1 p.
Proof.
  eexists. split; [reflexivity|]. split; [done|done|done|].
  intros i w j Hi _ _. cbn [bitmap] in Hi. apply lookup_replicate in Hi as [-> _]. apply Z.bits_0.
Qed.
