(* ===== verification/SList.v ===== *)
(** The singly linked lists of websearchfs (src/add-ons/kernel/file_systems/
    websearchfs/lists.c and lists2.c), refining lists of addresses.

    The [next] field of an item ([nextoff] in lists2.c) is the class [LNode].
    An argument [void **head] is [None] for NULL and otherwise the contents of
    the cell; operations answer the new contents. *)

From S2P Require Import Prelude Errors LinkedList.

Section SList.
Context {N : Type} `{LNode N}.
Implicit Types (h : gmap Z N) (l : list Z).

(** Writing the [next] field of an item. *)
Definition store_next h (a : Z) (o : option Z) : outcome (gmap Z N) :=
  n ← deref h a; Ok (<[a := set_nxt o n]> h).

(** ** lists.c *)

Definition slist_init h (item : Z) : outcome (gmap Z N) := store_next h item None.
Definition slist_uninit h (item : Z) : outcome (gmap Z N) := store_next h item None.

(** [func(p, id)] is 0 on a match. *)
Definition slist_find h (head : option Z) (func : Z → Z) : outcome (option Z) :=
  '(_, found) ← walk (walk_fuel h) h (λ p _, func p =? 0) None head; Ok found.

Definition slist_insert_head h (head : option (option Z)) (item : option Z)
    : outcome (Z * gmap Z N * option (option Z)) :=
  match head, item with
  | Some first, Some a => h ← store_next h a first; Ok (B_OK, h, Some (Some a))
  | _, _ => Ok (EINVAL, h, head)
  end.

(** The walk to the last item keeps the cell that points to it. *)
Definition slist_dequeue_tail h (head : option (option Z))
    : outcome (option Z * gmap Z N * option (option Z)) :=
  match head with
  | Some (Some first) =>
      '(prev, curr) ← walk (walk_fuel h) h (λ _ n, bool_decide (nxt n = None)) None (Some first);
      '(h, first) ← unlink h (Some first) prev None;
      Ok (curr, h, Some first)
  | _ => Ok (None, h, head)
  end.

Definition slist_remove h (head : option (option Z)) (item : option Z)
    : outcome (Z * gmap Z N * option (option Z)) :=
  match head, item with
  | Some (Some first), Some a =>
      '(prev, curr) ← walk (walk_fuel h) h (λ p _, p =? a) None (Some first);
      match curr with
      | Some c =>
          n ← deref h c;
          '(h, first) ← unlink h (Some first) prev (nxt n);
          h ← store_next h c None;
          Ok (B_OK, h, Some first)
      | None => Ok (ENOENT, h, head)
      end
  | _, _ => Ok (EINVAL, h, head)
  end.

Definition slist_next h (item : option Z) : outcome (option Z) :=
  match item with
  | None => Ok None
  | Some a => n ← deref h a; Ok (nxt n)
  end.

(** ** lists2.c *)

Definition sll_next : gmap Z N → option Z → outcome (option Z) := slist_next.

(** [count] starts at 5000; [if (!count--) return NULL;] after every item. *)
Fixpoint sll_find_loop (count : nat) h (p : option Z) (func : Z → Z) : outcome (option Z) :=
  match p with
  | None => Ok None
  | Some a =>
      if func a =? 0 then Ok (Some a)
      else
        p ← sll_next h (Some a);
        match count with O => Ok None | S count => sll_find_loop count h p func end
  end.

Definition sll_find h (head : option Z) (func : Z → Z) : outcome (option Z) :=
  sll_find_loop 5000 h head func.

Definition sll_insert_head :
    gmap Z N → option (option Z) → option Z → outcome (Z * gmap Z N * option (option Z)) :=
  slist_insert_head.

Definition sll_insert_tail h (head : option (option Z)) (item : option Z)
    : outcome (Z * gmap Z N * option (option Z)) :=
  match head, item with
  | Some first, Some a =>
      n ← deref h a;
      h ← (if bool_decide (nxt n = None) then Ok h else store_next h a None);
      match first with
      | None => Ok (B_OK, h, Some (Some a))
      | Some _ =>
          '(_, p) ← walk (walk_fuel h) h (λ _ n, bool_decide (nxt n = None)) None first;
          match p with
          | Some p => h ← store_next h p (Some a); Ok (B_OK, h, head)
          | None => Bad NullDeref
          end
      end
  | _, _ => Ok (EINVAL, h, head)
  end.

Definition sll_dequeue_tail :
    gmap Z N → option (option Z) → outcome (option Z * gmap Z N * option (option Z)) :=
  slist_dequeue_tail.
Definition sll_remove :
    gmap Z N → option (option Z) → option Z → outcome (Z * gmap Z N * option (option Z)) :=
  slist_remove.

(** ** Refinement *)

Lemma nxt_last h o l1 a n : chain h o (l1 ++ [a]) → h !! a = Some n → nxt n = None.
Proof.
  intros Hc Ha. apply chain_app in Hc. inversion Hc as [|? n' ? Ha' Hc']; simplify_eq.
  by inversion Hc'.
Qed.

Lemma nxt_inner h o l1 a l2 b n :
  chain h o (l1 ++ a :: l2) → b ∈ l1 → h !! b = Some n → nxt n ≠ None.
Proof.
  revert o. induction l1 as [|c l1 IH]; intros o Hc Hb Hn; [by apply elem_of_nil in Hb|].
  cbn in Hc. inversion Hc as [|? n' ? Hc1 Hc2]; simplify_eq.
  apply elem_of_cons in Hb as [->|Hb]; [|by eapply IH].
  simplify_eq. intros E. rewrite E in Hc2. inversion Hc2. by destruct l1.
Qed.

(** The walk to the last item of a list. *)
Lemma walk_to_last h o l1 a n fuel :
  chain h o (l1 ++ [a]) → h !! a = Some n → (length (l1 ++ [a]) < fuel)%nat →
  walk fuel h (λ _ n, bool_decide (nxt n = None)) None o = Ok (pred_of None l1, Some a).
Proof.
  intros Hc Ha Hf. eapply walk_found; eauto.
  - apply bool_decide_true. by eapply nxt_last.
  - intros b m Hb Hm. apply bool_decide_eq_false. by eapply nxt_inner.
Qed.

Lemma walk_item h o l1 a n l2 fuel :
  chain h o (l1 ++ a :: l2) → h !! a = Some n → (length (l1 ++ a :: l2) < fuel)%nat →
  walk fuel h (λ p _, p =? a) None o = Ok (pred_of None l1, Some a).
Proof.
  intros Hc Ha Hf. eapply walk_found; eauto; [by apply Z.eqb_refl|].
  intros b m Hb _. apply Z.eqb_neq. intros ->.
  apply chain_NoDup, NoDup_app in Hc as (_ & Hd & _). apply (Hd a Hb). by left.
Qed.

Lemma chain_fuel h o l : chain h o l → (length l < walk_fuel h)%nat.
Proof. intros Hc. unfold walk_fuel. pose proof (chain_length _ _ _ Hc). lia. Qed.

(** Appending an item whose [next] is NULL behind the last one. *)
Lemma chain_snoc h o l1 p n a m :
  chain h o (l1 ++ [p]) → h !! p = Some n → h !! a = Some m → nxt m = None →
  a ∉ l1 ++ [p] → chain (<[p := set_nxt (Some a) n]> h) o (l1 ++ [p; a]).
Proof.
  revert o. induction l1 as [|b l1 IH]; intros o Hc Hp Ha Hm Hal; cbn in *.
  - inversion Hc as [|? n' ? Hp' Hc']; simplify_eq. econstructor; [apply lookup_insert_eq|].
    rewrite nxt_set_nxt. econstructor; [rewrite lookup_insert_ne; [exact Ha|set_solver]|].
    rewrite Hm. constructor.
  - pose proof (chain_NoDup _ _ _ Hc) as Hnd. apply NoDup_cons in Hnd as [Hb _].
    inversion Hc as [|? n' ? Hb' Hc']; simplify_eq.
    econstructor; [rewrite lookup_insert_ne; [exact Hb'|set_solver]|]. apply IH; try done. set_solver.
Qed.

(** The lists of websearchfs.  On a list that holds the items [l] (an
    acyclic chain), inserting at the head or the tail, taking the last item
    off and removing an item all terminate and leave the chains of
    [item :: l], [l ++ [item]], [l] without its last item (which is returned),
    and [l] without the item; removing an item that is not there answers
    ENOENT and changes nothing. *)
Lemma slist_refines h first l :
  chain h first l →
  (∀ a n, h !! a = Some n → a ∉ l →
     ∃ h' first', slist_insert_head h (Some first) (Some a) = Ok (B_OK, h', Some first') ∧
       chain h' first' (a :: l)) ∧
  (∀ a n, h !! a = Some n → a ∉ l →
     ∃ h' first', sll_insert_tail h (Some first) (Some a) = Ok (B_OK, h', Some first') ∧
       chain h' first' (l ++ [a])) ∧
  (∀ l1 a, l = l1 ++ [a] →
     ∃ h' first', slist_dequeue_tail h (Some first) = Ok (Some a, h', Some first') ∧
       chain h' first' l1) ∧
  (∀ l1 a l2, l = l1 ++ a :: l2 →
     ∃ h' first', slist_remove h (Some first) (Some a) = Ok (B_OK, h', Some first') ∧
       chain h' first' (l1 ++ l2)) ∧
  (∀ a, a ∉ l → l ≠ [] → slist_remove h (Some first) (Some a) = Ok (ENOENT, h, Some first)).
Proof.
  intros Hc. split_and!.
  - intros a n Ha Hal. unfold slist_insert_head. cbv beta iota. unfold store_next, deref. rewrite Ha.
    cbn [mbind outcome_bind]. eexists _, _. split; [reflexivity|].
    eapply chain_push; [done|exact Hc|]. apply nxt_set_nxt.
  - intros a n Ha Hal. unfold sll_insert_tail. cbv beta iota. unfold deref. rewrite Ha. cbn [mbind outcome_bind].
    assert (∃ h1 m, (if bool_decide (nxt n = None) then Ok h else store_next h a None) = Ok h1 ∧
      chain h1 first l ∧ h1 !! a = Some m ∧ nxt m = None) as (h1 & m & -> & Hc1 & Ha1 & Hm1).
    { case_bool_decide; [by exists h, n|]. unfold store_next, deref. rewrite Ha. cbn [mbind outcome_bind].
      eexists _, _. split; [reflexivity|]. split; [by apply chain_insert_ne|].
      split; [apply lookup_insert_eq|apply nxt_set_nxt]. }
    cbn [mbind outcome_bind]. destruct l as [|p l1 _] using rev_ind.
    + inversion Hc1; subst. eexists _, _. split; [reflexivity|]. econstructor; [exact Ha1|].
      rewrite Hm1. constructor.
    + destruct first as [f|]; [|inversion Hc1; by destruct l1].
      destruct (chain_cell _ _ _ p Hc1) as [k Hk]; [set_solver|].
      rewrite (walk_to_last h1 (Some f) l1 p k) by (done || by eapply chain_fuel).
      cbn [mbind outcome_bind]. unfold store_next, deref. rewrite Hk. cbn [mbind outcome_bind].
      eexists _, _. split; [reflexivity|]. rewrite <- app_assoc. by eapply chain_snoc.
  - intros l1 a ->. destruct first as [f|]; [|inversion Hc; by destruct l1].
    destruct (chain_cell _ _ _ a Hc) as [n Hn]; [set_solver|]. unfold slist_dequeue_tail. cbv beta iota.
    rewrite (walk_to_last h (Some f) l1 a n) by (done || by eapply chain_fuel).
    cbn [mbind outcome_bind].
    destruct (unlink_chain h (Some f) l1 a n [] Hc Hn) as (h' & o' & E & Hc' & _).
    rewrite (nxt_last _ _ _ _ _ Hc Hn) in E. rewrite E. cbn [mbind outcome_bind].
    rewrite app_nil_r in Hc'. eauto.
  - intros l1 a l2 ->. destruct first as [f|]; [|inversion Hc; by destruct l1].
    destruct (chain_cell _ _ _ a Hc) as [n Hn]; [set_solver|]. unfold slist_remove. cbv beta iota.
    rewrite (walk_item h (Some f) l1 a n l2) by (done || by eapply chain_fuel).
    cbn [mbind outcome_bind]. unfold deref. rewrite Hn. cbn [mbind outcome_bind].
    destruct (unlink_chain h (Some f) l1 a n l2 Hc Hn) as (h' & o' & E & Hc' & Ha' & _).
    rewrite E. cbn [mbind outcome_bind]. unfold store_next, deref. rewrite Ha', Hn.
    cbn [mbind outcome_bind]. eexists _, _. split; [reflexivity|]. apply chain_insert_ne; [|done].
    apply chain_NoDup, NoDup_app in Hc as (_ & Hd & Hnd). apply NoDup_cons in Hnd as [Hnd _].
    intros [Hx|Hx]%elem_of_app; [|done]. apply (Hd a Hx). by left.
  - intros a Hal Hl. destruct first as [f|]; [|by inversion Hc; subst].
    unfold slist_remove. cbv beta iota. rewrite (walk_none h _ l); [done|done| |by eapply chain_fuel].
    intros b m Hb _. apply Z.eqb_neq. by intros ->.
Qed.

(** A chain depends on nothing but the [next] fields. *)
Lemma chain_nxt h h' o l : (∀ a, nxt <$> h' !! a = nxt <$> h !! a) → chain h o l → chain h' o l.
Proof.
  intros Hn. induction 1 as [|a n l Ha Hc IH]; [constructor|].
  pose proof (Hn a) as E. rewrite Ha in E. destruct (h' !! a) as [n'|] eqn:Ha'; [|done].
  econstructor; [done|]. cbn in E. injection E as ->. done.
Qed.

(** [h'] differs from [h] in the [next] fields of the nodes [l] only. *)
Definition relinked h h' l : Prop :=
  (∀ b, ∃ o, h' !! b = set_nxt o <$> h !! b) ∧ ∀ b, b ∉ l → h' !! b = h !! b.

Lemma relinked_keeps {B} (f : N → B) h h' l :
  relinked h h' l → (∀ o x, f (set_nxt o x) = f x) → ∀ b, f <$> h' !! b = f <$> h !! b.
Proof. intros [Hr _] Hf b. destruct (Hr b) as [o ->]. destruct (h !! b); cbn; by rewrite ?Hf. Qed.

Lemma sll_insert_head_run h first l a n :
  (∀ x, set_nxt (nxt x) x = x) → h !! a = Some n → chain h first l → a ∉ l →
  ∃ h', sll_insert_head h (Some first) (Some a) = Ok (B_OK, h', Some (Some a)) ∧
    chain h' (Some a) (a :: l) ∧ relinked h h' [a].
Proof.
  intros Heta Ha Hc Hal. unfold sll_insert_head, slist_insert_head, store_next, deref. rewrite Ha.
  cbn [mbind outcome_bind]. eexists. split; [reflexivity|]. split; [by eapply chain_push; [|exact Hc|apply nxt_set_nxt]|]. split.
  - intros b. destruct (decide (a = b)) as [<-|]; [rewrite lookup_insert_eq, Ha; by eexists|].
    rewrite lookup_insert_ne by done. destruct (h !! b) as [x|]; [|by exists None]. exists (nxt x). cbn. by rewrite Heta.
  - intros b Hb. rewrite lookup_insert_ne; [done|set_solver].
Qed.

Lemma sll_remove_run h first l1 a l2 :
  (∀ x, set_nxt (nxt x) x = x) → (∀ o o' x, set_nxt o (set_nxt o' x) = set_nxt o x) →
  chain h first (l1 ++ a :: l2) →
  ∃ h' first', sll_remove h (Some first) (Some a) = Ok (B_OK, h', Some first') ∧
    chain h' first' (l1 ++ l2) ∧ relinked h h' (l1 ++ [a]).
Proof.
  intros Heta Hset Hc. destruct first as [f|]; [|inversion Hc; by destruct l1].
  destruct (chain_cell _ _ _ a Hc) as [n Hn]; [set_solver|]. unfold sll_remove, slist_remove. cbv beta iota.
  rewrite (walk_item h (Some f) l1 a n l2) by (done || by eapply chain_fuel).
  cbn [mbind outcome_bind]. unfold deref. rewrite Hn. cbn [mbind outcome_bind].
  destruct (unlink_chain h (Some f) l1 a n l2 Hc Hn) as (h' & o' & E & Hc' & Ha' & Hd & Hm & Hf).
  rewrite E. cbn [mbind outcome_bind]. unfold store_next, deref. rewrite Ha', Hn. cbn [mbind outcome_bind].
  eexists _, _. split; [reflexivity|]. split; [|split].
  - apply chain_insert_ne; [|done]. apply chain_NoDup, NoDup_app in Hc as (_ & Hdis & Hnd). apply NoDup_cons in Hnd as [Hnd _].
    intros [Hx|Hx]%elem_of_app; [|done]. apply (Hdis a Hx). by left.
  - intros b. destruct (decide (a = b)) as [<-|]; [rewrite lookup_insert_eq, Hn; by eexists|].
    rewrite lookup_insert_ne by done. destruct (h' !! b) as [m'|] eqn:Hb.
    + destruct (Hm b m' Hb) as (m & -> & [->| ->]); [exists (nxt m)|by eexists]. cbn. by rewrite Heta.
    + assert (b ∉ dom h') as Hnb by (by apply not_elem_of_dom). rewrite Hd in Hnb. apply not_elem_of_dom in Hnb as ->. by exists None.
  - intros b Hb. apply not_elem_of_app in Hb as [Hb1 Hb2]. rewrite lookup_insert_ne by set_solver. by apply Hf.
Qed.

(** On an empty list the status differs; nothing changes. *)
Lemma sll_remove_absent h first l a :
  chain h first l → a ∉ l →
  ∃ e, sll_remove h (Some first) (Some a) = Ok (e, h, Some first).
Proof.
  intros Hc Hal. unfold sll_remove, slist_remove. destruct first as [f|]; [|by eexists]. cbv beta iota.
  rewrite (walk_none h _ l); [by eexists|done| |by eapply chain_fuel].
  intros b m Hb _. apply Z.eqb_neq. by intros ->.
Qed.

Lemma sll_find_loop_run h func count : ∀ o l, chain h o l →
  sll_find_loop count h o func = Ok (list_find (λ a, func a = 0) (take (S count) l) ≫= λ p, Some p.2).
Proof.
  induction count as [|count IH]; intros o l Hc; inversion Hc as [|a n l' Ha Hc']; subst; cbn; try done;
    unfold deref; rewrite ?Ha; cbn [mbind outcome_bind];
    (destruct (Z.eqb_spec (func a) 0); [by rewrite decide_True by done|rewrite decide_False by done]).
  - by rewrite take_0.
  - rewrite (IH _ _ Hc'). cbn. by destruct (list_find _ _) as [[]|].
Qed.

(** [sll_find] answers the first matching item among the first 5001 of
    the list, and NULL when there is none: an item further back is not found. *)
Lemma sll_find_bounded h first l func :
  chain h first l →
  sll_find h first func = Ok (list_find (λ a, func a = 0) (take (S 5000) l) ≫= λ p, Some p.2).
Proof. apply (sll_find_loop_run h func 5000). Qed.
End SList.

(** Items that are nothing but their [next] field. *)
#[local] Program Instance bare_item : LNode (option Z) := {| nxt := id; set_nxt := λ o _, o |}.
Next Obligation. done. Qed.

Definition two_items : gmap Z (option Z) := <[1 := Some 2]> (<[2 := None]> {[3 := None]}).

Lemma two_chain : chain two_items (Some 1) [1; 2].
Proof. repeat (econstructor; [reflexivity|]). constructor. Qed.

Lemma slist_refines_witness :
  chain two_items (Some 1) [1; 2] ∧
  ∃ h' first', sll_insert_tail two_items (Some (Some 1)) (Some 3) = Ok (B_OK, h', Some first') ∧
    chain h' first' [1; 2; 3].
Proof.
  split; [apply two_chain|].
  apply (proj1 (proj2 (slist_refines two_items (Some 1) [1; 2] two_chain)) 3 None);
    [reflexivity|]. rewrite list_elem_of_In. cbn. lia.
Defined.

Lemma sll_find_bounded_witness : sll_find two_items (Some 1) (λ a, a - 2) = Ok (Some 2).
Proof. apply (sll_find_bounded two_items (Some 1) [1; 2] (λ a, a - 2) two_chain). Defined.
