(* ===== verification/Dpc.v ===== *)
(** Deferred procedure calls (src/add-ons/kernel/generic/dpc/dpc.c): a bounded
    queue filled from any context and drained by its own kernel thread.

    The queue is shared by the callers of [queue_dpc], the thread
    [dpc_thread] and [delete_dpc_queue].  What happens under the spinlock is one
    step; the semaphore operations are steps of their own, so that every
    interleaving of the source is a path of the step relation. *)

From stdpp Require Import relations.
From S2P Require Import Prelude Errors.

(** [function] and [arg]. *)
Record dpc_slot : Type := mkSlot { function : Z; arg : Z }.
#[global] Instance dpc_slot_inhabited : Inhabited dpc_slot := populate (mkSlot 0 0).

#[global] Instance dpc_slot_eq_dec : EqDecision dpc_slot.
Proof. solve_decision. Defined.

Record dpc_queue : Type := mkQueue {
  thread : Z;
  size : Z;
  count : Z;
  head : Z;
  tail : Z;
  slots : list dpc_slot
}.

Definition DPC_QUEUE_SIZE : Z := 64.

(** [new_dpc_queue]: the queue it initialises; [mem] is the block's contents. *)
Definition new_dpc_queue (have_handle : bool) (mem : option (list dpc_slot)) (sem tid : Z)
    : Z + dpc_queue :=
  if negb have_handle then inl B_BAD_VALUE
  else
    match mem with
    | None => inl B_NO_MEMORY
    | Some slots =>
        if sem <? B_OK then inl sem
        else if tid <? 0 then inl tid
        else inr (mkQueue tid DPC_QUEUE_SIZE 0 0 0 slots)
    end.

(** The part of [queue_dpc] under the spinlock. *)
Definition queue_dpc_locked (q : dpc_queue) (f a : Z) : Z * dpc_queue :=
  if thread q <? 0 then (B_CANCELED, q)
  else if count q =? size q then (B_NO_MEMORY, q)
  else
    (B_OK, mkQueue (thread q) (size q) (count q + 1) (head q) ((tail q + 1) mod size q)
             (<[Z.to_nat (tail q) := mkSlot f a]> (slots q))).

(** The part of [dpc_thread] under the spinlock: the next slot. *)
Definition dpc_take (q : dpc_queue) : dpc_slot * dpc_queue :=
  (slots q !!! Z.to_nat (head q),
   mkQueue (thread q) (size q) (count q - 1) ((head q + 1) mod size q) (tail q) (slots q)).

(** The part of [delete_dpc_queue] under the spinlock. *)
Definition dpc_close (q : dpc_queue) : dpc_queue :=
  mkQueue (-1) (size q) (count q) (head q) (tail q) (slots q).

(** Where [dpc_thread] stands. *)
Inductive worker : Type :=
  | Waiting                        (* in acquire_sem *)
  | Woken                          (* before taking a slot *)
  | Calling (d : dpc_slot)         (* dpc.function(dpc.arg) *)
  | Draining                       (* while (queue->count--) *)
  | DrainCalling (d : dpc_slot)
  | Dead.
#[global] Instance worker_eq_dec : EqDecision worker.
Proof. solve_decision. Defined.

Record dpc_state : Type := mkDpc {
  queue : dpc_queue;
  wakeup_sem : option Z;           (* its count; None once deleted *)
  waking : Z;                      (* callers between unlock and release_sem_etc *)
  where_ : worker;
  ran : list dpc_slot;             (* functions called so far *)
  accepted : list dpc_slot;        (* slots stored by queue_dpc so far *)
  freed : bool                     (* delete_dpc_queue has freed the block *)
}.

(** ** Steps *)

(** [queue_dpc] up to the wake-up: a null function is refused before the lock. *)
Definition step_queue (f a : Z) (s : dpc_state) : Z * dpc_state :=
  if f =? 0 then (B_BAD_VALUE, s)
  else
  let '(status, q) := queue_dpc_locked (queue s) f a in
  if status =? B_OK
  then (status, mkDpc q (wakeup_sem s) (waking s + 1) (where_ s) (ran s) (accepted s ++ [mkSlot f a])
               (freed s))
  else (status, s).

(** [release_sem_etc]: the status [queue_dpc] returns. *)
Definition step_wake (s : dpc_state) : Z * dpc_state :=
  match wakeup_sem s with
  | Some c => (B_OK, mkDpc (queue s) (Some (c + 1)) (waking s - 1) (where_ s) (ran s) (accepted s) (freed s))
  | None => (B_BAD_SEM_ID, mkDpc (queue s) None (waking s - 1) (where_ s) (ran s) (accepted s) (freed s))
  end.

(** One step of [dpc_thread]; [None] when it blocks or is dead. *)
Definition step_worker (s : dpc_state) : option dpc_state :=
  let go q sem w r := Some (mkDpc q sem (waking s) w r (accepted s) (freed s)) in
  match where_ s with
  | Waiting =>
      match wakeup_sem s with
      | Some c => if 0 <? c then go (queue s) (Some (c - 1)) Woken (ran s) else None
      | None => go (queue s) None Draining (ran s)
      end
  | Woken => let '(d, q) := dpc_take (queue s) in go q (wakeup_sem s) (Calling d) (ran s)
  | Calling d => go (queue s) (wakeup_sem s) Waiting (ran s ++ [d])
  | Draining =>
      let q := queue s in
      if count q =? 0
      then go (mkQueue (thread q) (size q) (-1) (head q) (tail q) (slots q)) (wakeup_sem s) Dead (ran s)
      else let '(d, q) := dpc_take q in go q (wakeup_sem s) (DrainCalling d) (ran s)
  | DrainCalling d => go (queue s) (wakeup_sem s) Draining (ran s ++ [d])
  | Dead => None
  end.

Definition step_close (s : dpc_state) : dpc_state :=
  mkDpc (dpc_close (queue s)) (wakeup_sem s) (waking s) (where_ s) (ran s) (accepted s) (freed s).

Definition step_delete_sem (s : dpc_state) : dpc_state :=
  mkDpc (queue s) None (waking s) (where_ s) (ran s) (accepted s) (freed s).

(** [free(queue)], after [wait_for_thread]. *)
Definition step_free (s : dpc_state) : dpc_state :=
  mkDpc (queue s) (wakeup_sem s) (waking s) (where_ s) (ran s) (accepted s) true.

(** The steps of any number of callers, the thread and [delete_dpc_queue]; the
    handle is not passed to a new call once the queue has been freed. *)
Inductive dpc_step : dpc_state → dpc_state → Prop :=
  | do_queue s f a : freed s = false → dpc_step s (step_queue f a s).2
  | do_wake s : 0 < waking s → dpc_step s (step_wake s).2
  | do_work s s' : step_worker s = Some s' → dpc_step s s'
  | do_close s : freed s = false → dpc_step s (step_close s)
  | do_delete s : thread (queue s) < 0 → dpc_step s (step_delete_sem s)
  | do_free s : where_ s = Dead → dpc_step s (step_free s).

Definition B_MODULE_INIT : Z := 1.
Definition B_MODULE_UNINIT : Z := 2.

Definition std_ops (op : Z) : Z :=
  if (op =? B_MODULE_INIT) || (op =? B_MODULE_UNINIT) then B_OK else B_ERROR.

(** A queue whose thread is about to wait for the first call. *)
Definition dpc_initial (q : dpc_queue) : dpc_state := mkDpc q (Some 0) 0 Waiting [] [] false.

(** * The slots as a queue *)

(** The [n] slots from [h] on, in ring order. *)
Definition ring (l : list dpc_slot) (sz h n : Z) : list dpc_slot :=
  (λ i, l !!! Z.to_nat ((h + Z.of_nat i) mod sz)) <$> seq 0 (Z.to_nat n).

Lemma mod_wrap x sz : 0 < sz → 0 ≤ x < 2 * sz → x mod sz = if decide (x < sz) then x else x - sz.
Proof.
  intros Hsz Hx. case_decide; [by apply Z.mod_small; lia|].
  rewrite <- (Z.mod_add x (-1)) by lia. apply Z.mod_small. lia.
Qed.

Lemma ring_push l sz h n d :
  0 < sz → zlen l = sz → 0 ≤ h < sz → 0 ≤ n < sz →
  ring (<[Z.to_nat ((h + n) mod sz) := d]> l) sz h (n + 1) = ring l sz h n ++ [d].
Proof.
  intros Hsz Hl Hh Hn. unfold ring. rewrite Z2Nat.inj_add by lia. change (Z.to_nat 1) with 1%nat.
  rewrite seq_app, fmap_app. pose proof (Z.mod_pos_bound (h + n) sz Hsz). f_equal.
  - apply list_fmap_ext. intros k i Hi. apply lookup_seq in Hi as [-> Hi].
    rewrite list_lookup_total_insert_ne; [reflexivity|]. intros E.
    pose proof (Z.mod_pos_bound (h + Z.of_nat (0 + k)) sz Hsz).
    apply Z2Nat.inj in E; [|lia|lia].
    rewrite !mod_wrap in E by lia. repeat case_decide; lia.
  - cbn. rewrite Z2Nat.id by lia. by rewrite list_lookup_total_insert_eq by lia.
Qed.

Lemma ring_pop l sz h n :
  0 < sz → 0 ≤ h < sz → 0 < n →
  ring l sz h n = l !!! Z.to_nat h :: ring l sz ((h + 1) mod sz) (n - 1).
Proof.
  intros Hsz Hh Hn. unfold ring. replace (Z.to_nat n) with (S (Z.to_nat (n - 1))) by lia.
  cbn [seq fmap list_fmap]. rewrite Z.add_0_r, Z.mod_small by lia. f_equal.
  rewrite <- fmap_S_seq, <- list_fmap_compose. apply list_fmap_ext. intros k i _. cbn.
  rewrite Z.add_mod_idemp_l by lia. do 3 f_equal. lia.
Qed.

(** * The invariant *)

Definition woken (w : worker) : Z := match w with Woken => 1 | _ => 0 end.
Definition in_hand (w : worker) : list dpc_slot :=
  match w with Calling d | DrainCalling d => [d] | _ => [] end.
Definition draining (w : worker) : Prop :=
  match w with Draining | DrainCalling _ | Dead => True | _ => False end.

Record dpc_inv (s : dpc_state) : Prop := {
  di_size : 0 < size (queue s) ∧ zlen (slots (queue s)) = size (queue s);
  di_head : 0 ≤ head (queue s) < size (queue s);
  di_waking : 0 ≤ waking s;
  (** every slot is paid for by a token: in the semaphore, on its way to it, or
      taken by the thread *)
  di_tokens : ∀ c, wakeup_sem s = Some c →
    0 ≤ c ∧ count (queue s) = c + waking s + woken (where_ s) ∧ ¬ draining (where_ s);
  di_deleted : wakeup_sem s = None → thread (queue s) < 0;
  di_woken : where_ s = Woken → 0 < count (queue s);
  (** nothing is lost, doubled or reordered *)
  di_live : where_ s ≠ Dead →
    0 ≤ count (queue s) ≤ size (queue s) ∧
    tail (queue s) = (head (queue s) + count (queue s)) mod size (queue s) ∧
    accepted s = ran s ++ in_hand (where_ s) ++
      ring (slots (queue s)) (size (queue s)) (head (queue s)) (count (queue s));
  di_dead : where_ s = Dead → thread (queue s) < 0 ∧ accepted s = ran s
}.

Lemma dpc_inv_initial q sem tid mem :
  zlen mem = DPC_QUEUE_SIZE → new_dpc_queue true (Some mem) sem tid = inr q →
  dpc_inv (dpc_initial q).
Proof.
  unfold new_dpc_queue, DPC_QUEUE_SIZE. cbn. intros Hl H. repeat case_match; simplify_eq.
  split; cbn; try done; lia || (intros; simplify_eq; done || lia || idtac).
Qed.

(** Splits a goal [dpc_inv] on explicit states, with the hypotheses computed. *)
Ltac dpc_split I :=
  destruct I as [Hsz Hhd Hwk Htok Hdel Hwok Hlive Hdead]; cbn in *;
  split; cbn; auto with lia.

Lemma dpc_inv_queue s f a : freed s = false → dpc_inv s → dpc_inv (step_queue f a s).2.
Proof.
  destruct s as [[t sz n h tl sl] sem wk w r acc fr]. unfold step_queue, queue_dpc_locked. cbn.
  intros _ I. destruct (f =? 0); [done|]. destruct (t <? 0) eqn:Et; [done|]. destruct (n =? sz) eqn:En; [done|]. cbn.
  dpc_split I; rewrite ?length_insert; try lia.
  - intros c ->. destruct (Htok c eq_refl) as (? & ? & ?). split_and!; auto with lia.
  - intros ->. pose proof (Hwok eq_refl). lia.
  - intros Hw. destruct (Hlive Hw) as (? & -> & ->). split_and!; [lia|lia| |].
    + rewrite Z.add_mod_idemp_l by lia. f_equal. lia.
    + rewrite ring_push by lia. by rewrite !app_assoc.
  - intros Hw. destruct (Hdead Hw). lia.
Qed.

Lemma dpc_inv_wake s : 0 < waking s → dpc_inv s → dpc_inv (step_wake s).2.
Proof.
  destruct s as [[t sz n h tl sl] [c|] wk w r acc fr]; cbn; intros Hw I; dpc_split I; try done.
  intros c' [= <-]. destruct (Htok c eq_refl) as (? & ? & ?). split_and!; auto with lia.
Qed.

Lemma dpc_inv_take t sz n h tl sl sem wk w w' r acc fr d q :
  dpc_inv (mkDpc (mkQueue t sz n h tl sl) sem wk w r acc fr) →
  w = Woken ∧ w' = Calling d ∨ w = Draining ∧ n ≠ 0 ∧ w' = DrainCalling d →
  dpc_take (mkQueue t sz n h tl sl) = (d, q) →
  dpc_inv (mkDpc q sem wk w' r acc fr).
Proof.
  unfold dpc_take. cbn. intros I Hw [= Hd <-].
  assert (0 < n) as Hn.
  { destruct I as [_ _ _ _ _ Hwok Hlive _]. cbn in *.
    destruct Hw as [[-> _]|(-> & ? & _)]; [by apply Hwok|]. destruct (Hlive ltac:(done)). lia. }
  pose proof (Z.mod_pos_bound (h + 1) sz) as Hm.
  dpc_split I; try lia; destruct Hw as [[-> ->]|(-> & ? & ->)]; cbn in *; try done.
  - intros c ->. destruct (Htok c eq_refl) as (? & ? & ?). lia.
  - intros c ->. by destruct (Htok c eq_refl) as (? & ? & ?).
  - destruct (Hlive ltac:(done)) as (? & -> & ->). rewrite (ring_pop sl sz h n) by lia.
    rewrite Hd. intros _. split_and!; [lia|lia| |done]. rewrite Z.add_mod_idemp_l by lia. f_equal. lia.
  - destruct (Hlive ltac:(done)) as (? & -> & ->). rewrite (ring_pop sl sz h n) by lia.
    rewrite Hd. intros _. split_and!; [lia|lia| |done]. rewrite Z.add_mod_idemp_l by lia. f_equal. lia.
Qed.

Lemma dpc_inv_worker s s' : step_worker s = Some s' → dpc_inv s → dpc_inv s'.
Proof.
  destruct s as [[t sz n h tl sl] sem wk w r acc fr]. unfold step_worker. cbn.
  intros H I. destruct w as [| |d| |d|].
  - destruct sem as [c|]; [destruct (Z.ltb_spec 0 c)|]; simplify_eq; dpc_split I; try done.
    + intros c' [= <-]. destruct (Htok c eq_refl) as (? & ? & ?). cbn in *. split_and!; auto with lia.
    + intros _. destruct (Htok c eq_refl) as (? & ? & ?). cbn in *. lia.
  - simplify_eq. eapply dpc_inv_take; [done| |by unfold dpc_take]. by left.
  - simplify_eq. dpc_split I; try done. intros _. destruct (Hlive ltac:(done)) as (? & ? & ->).
    by rewrite <- app_assoc.
  - destruct (Z.eqb_spec n 0) as [->|Hn].
    + simplify_eq. dpc_split I; try done.
      * intros c ->. by destruct (Htok c eq_refl) as (? & ? & ?).
      * intros _. destruct (Hlive ltac:(done)) as (? & ? & ->).
        destruct sem as [c|]; [by destruct (Htok c eq_refl) as (? & ? & ?)|].
        split; [auto|]. cbn. by rewrite app_nil_r.
    + simplify_eq. eapply dpc_inv_take; [done| |by unfold dpc_take]. right. split_and!; try done.
  - simplify_eq. dpc_split I; try done. intros _. destruct (Hlive ltac:(done)) as (? & ? & ->).
    by rewrite <- app_assoc.
  - done.
Qed.

Lemma dpc_inv_step s s' : dpc_step s s' → dpc_inv s → dpc_inv s'.
Proof.
  intros Hs I. destruct Hs as [s f a Hf|s Hw|s s' Hw|s Hf|s Hc|s Hd].
  - by apply dpc_inv_queue.
  - by apply dpc_inv_wake.
  - by eapply dpc_inv_worker.
  - destruct I. split; cbn in *; auto with lia. intros E. split; [lia|]. by apply di_dead0.
  - destruct I. split; cbn in *; auto with lia. done.
  - destruct I. split; cbn in *; auto.
Qed.

Lemma dpc_inv_reachable s0 s : rtc dpc_step s0 s → dpc_inv s0 → dpc_inv s.
Proof. induction 1; eauto using dpc_inv_step. Qed.

Lemma dpc_step_size s s' : dpc_step s s' → size (queue s') = size (queue s).
Proof.
  intros [s1 f a _|s1 _|s1 s2 Hw|s1 _|s1 _|s1 _]; try done.
  - unfold step_queue, queue_dpc_locked. by repeat case_match; simplify_eq.
  - unfold step_wake. by case_match.
  - unfold step_worker, dpc_take in Hw. by repeat case_match; simplify_eq.
Qed.

Lemma dpc_reachable_size s s' : rtc dpc_step s s' → size (queue s') = size (queue s).
Proof. induction 1 as [|s1 s2 s3 Hs _ ->]; [done|]. by apply dpc_step_size. Qed.

(** ** Steps on a run: the thread left alone finishes *)

Fixpoint run_worker (fuel : nat) (s : dpc_state) : dpc_state :=
  match fuel with
  | O => s
  | S n => match step_worker s with Some s' => run_worker n s' | None => s end
  end.

Lemma run_worker_rtc n s : rtc dpc_step s (run_worker n s).
Proof.
  revert s. induction n as [|n IH]; intros s; cbn; [done|].
  destruct (step_worker s) eqn:E; [|done]. eapply rtc_l; [by constructor|done].
Qed.

(** What the thread still has to do once the semaphore is gone. *)
Definition work_left (s : dpc_state) : nat :=
  let n := (2 * Z.to_nat (count (queue s)))%nat in
  match where_ s with
  | Waiting => n + 2
  | Woken => n + 2
  | Calling _ => n + 3
  | Draining => n + 1
  | DrainCalling _ => n + 2
  | Dead => 0
  end.

Lemma step_worker_drains s :
  dpc_inv s → wakeup_sem s = None → where_ s ≠ Dead →
  ∃ s', step_worker s = Some s' ∧ wakeup_sem s' = None ∧ accepted s' = accepted s ∧
    (work_left s' < work_left s)%nat.
Proof.
  destruct s as [[t sz n h tl sl] sem wk w r acc fr].
  intros [Hsz Hhd Hwk Htok Hdel Hwok Hlive Hdead] Hs Hw. cbn in *. subst sem.
  destruct (Hlive Hw) as [Hn _].
  unfold step_worker, work_left. cbn. destruct w as [| |d| |d|]; try done.
  - eexists. split_and!; [done..|]. cbn. lia.
  - eexists. split_and!; [done..|]. cbn. pose proof (Hwok eq_refl). lia.
  - eexists. split_and!; [done..|]. cbn. lia.
  - destruct (Z.eqb_spec n 0); eexists; (split_and!; [done..|]); cbn; lia.
  - eexists. split_and!; [done..|]. cbn. lia.
Qed.

Lemma run_worker_dies n s :
  dpc_inv s → wakeup_sem s = None → (work_left s ≤ n)%nat →
  where_ (run_worker n s) = Dead ∧ accepted (run_worker n s) = accepted s.
Proof.
  revert s. induction n as [|n IH]; intros s I Hs Hn; cbn.
  - split; [|done]. unfold work_left in Hn. destruct (where_ s); lia || done.
  - destruct (where_ s) eqn:Ew;
      try (destruct (step_worker_drains s) as (s' & E & Hs' & Ha & Hl); [done|done|by rewrite Ew|];
           rewrite E; rewrite <- Ha; apply IH; [by eapply dpc_inv_worker|done|lia]).
    unfold step_worker. by rewrite Ew.
Qed.

(** * Theorems *)

(** C14. A deferred-call queue, whatever the interleaving of its callers, its
    thread and its deletion: the count stays between 0 and the size while the
    thread lives, the thread never takes a slot from an empty queue, the
    functions called so far are the accepted ones in the order of acceptance
    (less those still queued or in hand), and a thread that has ended has called
    every accepted function exactly once. *)
Theorem dpc_runs_in_order q mem sem tid s :
  zlen mem = DPC_QUEUE_SIZE →
  new_dpc_queue true (Some mem) sem tid = inr q →
  rtc dpc_step (dpc_initial q) s →
  (where_ s ≠ Dead → 0 ≤ count (queue s) ≤ DPC_QUEUE_SIZE) ∧
  (where_ s = Woken → 0 < count (queue s)) ∧
  ran s `prefix_of` accepted s ∧
  (where_ s = Dead → ran s = accepted s).
Proof.
  intros Hl Hq Hr.
  assert (dpc_inv s) as I by (eapply dpc_inv_reachable; [done|by eapply dpc_inv_initial]).
  assert (size (queue s) = DPC_QUEUE_SIZE) as Hsz.
  { rewrite (dpc_reachable_size _ _ Hr).
    unfold new_dpc_queue in Hq. cbn in Hq. repeat case_match; by simplify_eq. }
  destruct I. split_and!; [intros Hw; rewrite <- Hsz; by apply di_live0|done| |].
  - destruct (decide (where_ s = Dead)) as [E|E].
    + by destruct (di_dead0 E) as [_ ->].
    + destruct (di_live0 E) as (_ & _ & ->). by apply prefix_app_r.
  - intros E. by destruct (di_dead0 E) as [_ ->].
Qed.

(** A handle's memory block. *)
Definition blank_slots : list dpc_slot := replicate 64 (mkSlot 0 0).
Definition some_queue : dpc_queue := mkQueue 7 DPC_QUEUE_SIZE 0 0 0 blank_slots.

(** Two calls queued, the first one run. *)
Definition two_queued : dpc_state :=
  run_worker 3 (step_wake (step_queue 12 2 (step_queue 11 1 (dpc_initial some_queue)).2).2).2.

Lemma two_queued_reachable : rtc dpc_step (dpc_initial some_queue) two_queued.
Proof.
  unfold two_queued. eapply rtc_l; [apply (do_queue _ 11 1); reflexivity|].
  eapply rtc_l; [apply (do_queue _ 12 2); reflexivity|].
  eapply rtc_l; [apply do_wake; vm_compute; reflexivity|]. apply run_worker_rtc.
Qed.

Lemma dpc_runs_in_order_witness :
  ran two_queued = [mkSlot 11 1] ∧ accepted two_queued = [mkSlot 11 1; mkSlot 12 2] ∧
  ran two_queued `prefix_of` accepted two_queued.
Proof.
  split; [reflexivity|]. split; [reflexivity|].
  exact (proj1 (proj2 (proj2 (dpc_runs_in_order some_queue blank_slots 3 7 two_queued
    eq_refl eq_refl two_queued_reachable)))).
Defined.

(** C15. Deleting a queue finishes it: from any state the queue can reach, once
    [delete_dpc_queue] has closed it and deleted the semaphore, the thread ends
    after at most [2 * count + 3] of its own steps and has then called every
    function accepted before. *)
Theorem dpc_delete_drains q mem sem tid s n :
  zlen mem = DPC_QUEUE_SIZE →
  new_dpc_queue true (Some mem) sem tid = inr q →
  rtc dpc_step (dpc_initial q) s → freed s = false →
  (2 * Z.to_nat (count (queue s)) + 3 ≤ n)%nat →
  let s' := run_worker n (step_delete_sem (step_close s)) in
  where_ s' = Dead ∧ ran s' = accepted s.
Proof.
  intros Hl Hq Hr Hf Hn s'.
  assert (dpc_inv s) as I by (eapply dpc_inv_reachable; [done|by eapply dpc_inv_initial]).
  assert (dpc_inv (step_delete_sem (step_close s))) as I'.
  { eapply dpc_inv_step; [apply do_delete; cbn; lia|]. by eapply dpc_inv_step; [apply do_close|]. }
  destruct (run_worker_dies n _ I') as [Hd Ha]; [done| |].
  { unfold work_left. cbn. destruct (where_ s); lia. }
  split; [done|]. assert (dpc_inv s') as [_ _ _ _ _ _ _ Hdead].
  { eapply dpc_inv_reachable; [apply run_worker_rtc|done]. }
  destruct (Hdead Hd) as [_ <-]. exact Ha.
Qed.

Lemma dpc_delete_drains_witness :
  ran (run_worker 20 (step_delete_sem (step_close two_queued))) = [mkSlot 11 1; mkSlot 12 2].
Proof.
  exact (proj2 (dpc_delete_drains some_queue blank_slots 3 7 two_queued 20
    eq_refl eq_refl two_queued_reachable eq_refl ltac:(vm_compute; lia))).
Defined.

(** The deletion does not wait for callers that have stored their call and
    not yet released the semaphore: a state is reachable in which the block has
    been freed and such a caller still has to read [queue->wakeup_sem] from it,
    and the call it would report as failed has been made. *)
Lemma dpc_wake_after_free :
  ∃ s, rtc dpc_step (dpc_initial some_queue) s ∧ freed s = true ∧ 0 < waking s ∧
    ran s = [mkSlot 11 1] ∧ (step_wake s).1 = B_BAD_SEM_ID.
Proof.
  exists (step_free (run_worker 9 (step_delete_sem (step_close (step_queue 11 1 (dpc_initial some_queue)).2)))).
  split; [|split_and!; vm_compute; reflexivity].
  eapply rtc_l; [apply (do_queue _ 11 1); reflexivity|].
  eapply rtc_l; [apply do_close; reflexivity|].
  eapply rtc_l; [apply do_delete; vm_compute; reflexivity|].
  eapply rtc_r; [apply run_worker_rtc|]. apply do_free. vm_compute. reflexivity.
Qed.
