(* ===== verification/Inet.v ===== *)
(** Internet address text in the kernel (src/system/kernel/util/inet_addr.c,
    inet_ntop.c).

    A C string is the list of its characters, as in [StrTo]; a pointer into it
    is the suffix it points to.  An address is the list of its bytes in network
    order. *)

From S2P Require Import Prelude Errors StrTo.

(** * Text to address *)

Definition isascii (c : Z) : bool := c <? 128.
Definition isdigit (c : Z) : bool := in_range 48 c 57.
Definition islower (c : Z) : bool := in_range 97 c 122.
Definition isxdigit (c : Z) : bool := isdigit c || in_range 65 c 70 || in_range 97 c 102.

(** The loop over the digits of one number: the value, whether a digit was
    seen, and the suffix at the character that ended it; [None] is [return 0]. *)
Fixpoint aton_digits (base val : Z) (digit : bool) (s : list Z) : option (Z * bool * list Z) :=
  match s with
  | [] => Some (val, digit, [])
  | c :: s' =>
      if isascii c && isdigit c then
        if (base =? 8) && ((c =? 56) || (c =? 57)) then None
        else aton_digits base (u64 (val * base + (c - 48))) true s'
      else if (base =? 16) && isascii c && isxdigit c then
        aton_digits base
          (Z.lor (u64 (Z.shiftl val 4)) (c + 10 - (if islower c then 97 else 65))) true s'
      else Some (val, digit, s)
  end.

(** One number: its first character, base prefix and digits. *)
Definition aton_number (s : list Z) : option (Z * bool * list Z) :=
  if negb (isdigit (deref_c s)) then None
  else if deref_c s =? 48 then
    let s := tail s in
    if (deref_c s =? 120) || (deref_c s =? 88)
    then aton_digits 16 0 false (tail s)
    else aton_digits 8 0 true s
  else aton_digits 10 0 false s.

(** The loop over the parts; [room] is what is left of [parts], less one. *)
Fixpoint aton_parts (room : nat) (parts : list Z) (s : list Z) : option (list Z * Z * bool * list Z) :=
  match aton_number s with
  | None => None
  | Some (val, digit, s) =>
      if deref_c s =? 46 then
        match room with
        | O => None
        | S room => if 0xff <? val then None else aton_parts room (parts ++ [u8 val]) (tail s)
        end
      else Some (parts, val, digit, s)
  end.

(** The address of [n] parts; [None] when the last one is out of range. *)
Definition aton_concoct (parts : list Z) (val : Z) : option Z :=
  match parts with
  | [a] => if 0xffffff <? val then None else Some (Z.lor val (Z.shiftl a 24))
  | [a; b] =>
      if 0xffff <? val then None else Some (Z.lor val (Z.lor (Z.shiftl a 24) (Z.shiftl b 16)))
  | [a; b; c] =>
      if 0xff <? val then None
      else Some (Z.lor val (Z.lor (Z.lor (Z.shiftl a 24) (Z.shiftl b 16)) (Z.shiftl c 8)))
  | _ => Some val
  end.

(** [None] is the answer 0; [Some addr] the answer 1, with [htonl(val)] in memory. *)
Definition inet_aton (cp : list Z) : option (list Z) :=
  match aton_parts 3 [] cp with
  | None => None
  | Some (parts, val, digit, s) =>
      let c := deref_c s in
      if negb (c =? 0) && (negb (isascii c) || negb (isspace c)) then None
      else if negb digit then None
      else match aton_concoct parts val with
           | None => None
           | Some val => Some (be32_enc (u32 val))
           end
  end.

Definition INADDR_NONE : list Z := [255; 255; 255; 255].

Definition inet_addr (cp : list Z) : list Z :=
  match inet_aton cp with Some val => val | None => INADDR_NONE end.

(** * Address to text *)

Definition dot : list Z := [46].
Definition colon : list Z := [58].

(** [sprintf(tmp, "%u.%u.%u.%u", ...)]. *)
Definition quad (src : list Z) : list Z :=
  dec (src !!! 0%nat) ++ dot ++ dec (src !!! 1%nat) ++ dot ++
  dec (src !!! 2%nat) ++ dot ++ dec (src !!! 3%nat).

(** [errno] or the text left in [dst]. *)
Definition inet_ntop4 (src : list Z) (size : Z) : Z + list Z :=
  let tmp := quad src in
  if size <=? zlen tmp then inl ENOSPC else inr tmp.

(** [sprintf(tp, "%x", w)] for a 16-bit [w]. *)
Fixpoint hex_digits (fuel : nat) (v : Z) : list Z :=
  match fuel with
  | O => []
  | S fuel => if v <? 16 then [v] else hex_digits fuel (v / 16) ++ [v mod 16]
  end.
Definition hex_char (d : Z) : Z := if d <? 10 then d + 48 else d + 87.
Definition hex (v : Z) : list Z := hex_char <$> hex_digits 4 v.

(** The bytewise address as eight words. *)
Definition words_of (src : list Z) : list Z :=
  foldl (λ ws i,
    alter (λ w, Z.lor w (Z.shiftl (src !!! i) (Z.shiftl (1 - Z.of_nat i mod 2) 3))) (i / 2)%nat ws)
    (replicate 8 0) (seq 0 16).

(** [struct { int base, len; }]. *)
Record run : Type := mkRun { base : Z; len : Z }.

(** [if (best.base == -1 || cur.len > best.len) best = cur;]. *)
Definition better (best cur : run) : run :=
  if (base best =? -1) || (len best <? len cur) then cur else best.

(** One turn of the search for the longest run of zero words. *)
Definition run_turn (w : Z) (i : Z) (st : run * run) : run * run :=
  let '(best, cur) := st in
  if w =? 0 then
    (best, if base cur =? -1 then mkRun i 1 else mkRun (base cur) (len cur + 1))
  else if negb (base cur =? -1) then (better best cur, mkRun (-1) (len cur))
  else (best, cur).

Fixpoint run_loop (i : Z) (words : list Z) (st : run * run) : run * run :=
  match words with
  | [] => st
  | w :: ws => run_loop (i + 1) ws (run_turn w i st)
  end.

Definition best_run (words : list Z) : run :=
  let '(best, cur) := run_loop 0 words (mkRun (-1) 0, mkRun (-1) 0) in
  let best := if negb (base cur =? -1) then better best cur else best in
  if negb (base best =? -1) && (len best <? 2) then mkRun (-1) (len best) else best.

Definition TMP_SIZE : Z := 46.

(** "Is this address an encapsulated IPv4?", asked at word 6. *)
Definition encapsulated (words : list Z) (best : run) : bool :=
  (base best =? 0) &&
  ((len best =? 6) || ((len best =? 7) && negb (words !!! 7%nat =? 1))
   || ((len best =? 5) && (words !!! 5%nat =? 0xffff))).

(** The formatting loop from word [i] on; [n] words are left, [tp] is the text so
    far, [src12] is [src+12]; [inl] when [inet_ntop4] refuses. *)
Fixpoint format_loop (src12 words : list Z) (best : run) (n : nat) (i : Z) (tp : list Z) : Z + list Z :=
  match n with
  | O => inr tp
  | S n =>
      if negb (base best =? -1) && (base best <=? i) && (i <? base best + len best) then
        format_loop src12 words best n (i + 1) (if i =? base best then tp ++ colon else tp)
      else
        let tp := if negb (i =? 0) then tp ++ colon else tp in
        if (i =? 6) && encapsulated words best
        then
          match inet_ntop4 src12 (TMP_SIZE - zlen tp) with
          | inl e => inl e
          | inr t => inr (tp ++ t)
          end
        else format_loop src12 words best n (i + 1) (tp ++ hex (words !!! Z.to_nat i))
  end.

Definition inet_ntop6 (src : list Z) (size : Z) : Z + list Z :=
  let words := words_of src in
  let best := best_run words in
  match format_loop (drop 12 src) words best 8 0 [] with
  | inl e => inl e
  | inr tp =>
      let tp := if negb (base best =? -1) && (base best + len best =? 8) then tp ++ colon else tp in
      if size <? zlen tp + 1 then inl ENOSPC else inr tp
  end.

Definition AF_INET : Z := 1.
Definition AF_INET6 : Z := 5.

Definition inet_ntop (af : Z) (src : list Z) (size : Z) : Z + list Z :=
  if af =? AF_INET then inet_ntop4 src size
  else if af =? AF_INET6 then inet_ntop6 src size
  else inl EAFNOSUPPORT.

(** "::ffff:192.0.2.1" and "2001:db8::1". *)
Example ntop6_mapped :
  inet_ntop6 [0;0;0;0;0;0;0;0;0;0;255;255;192;0;2;1] 46
  = inr [58;58;102;102;102;102;58;49;57;50;46;48;46;50;46;49].
Proof. vm_compute. reflexivity. Qed.

Example ntop6_doc :
  inet_ntop6 [32;1;13;184;0;0;0;0;0;0;0;0;0;0;0;1] 46
  = inr [50;48;48;49;58;100;98;56;58;58;49].
Proof. vm_compute. reflexivity. Qed.

Example aton_hex_octal : inet_aton [48;120;55;102;46;49] = Some [127;0;0;1].
Proof. vm_compute. reflexivity. Qed.

(** * Decimal dotted text *)

(** The parts of a dotted number, each in decimal. *)
Definition dotted (ps : list Z) (last : Z) : list Z :=
  foldr (λ p t, dec p ++ dot ++ t) (dec last) ps.

(** What may follow a number and is not part of it. *)
Definition ends_number (s : list Z) : Prop :=
  no_digit s ∧ deref_c s ≠ 120 ∧ deref_c s ≠ 88 ∧ deref_c s < 128.

Lemma no_digit_isdigit c s : no_digit (c :: s) → isdigit c = false.
Proof. unfold isdigit, in_range. cbn. intros. apply andb_false_iff. rewrite !Z.leb_gt. lia. Qed.

Lemma aton_digits_dec base ds rest v b :
  base = 10 ∨ base = 8 ∧ ds = [] → Forall (λ d, 0 ≤ d < 10) ds → no_digit rest → 0 ≤ v →
  foldl (λ a d, a * 10 + d) v ds < 2 ^ 64 →
  aton_digits base v b (((λ d, d + 48) <$> ds) ++ rest)
  = Some (foldl (λ a d, a * 10 + d) v ds, b || bool_decide (ds ≠ []), rest).
Proof.
  intros Hb Hds Hr. revert v b. induction Hds as [|d ds Hd Hds IH]; intros v b Hv Hlt.
  - cbn [foldl fmap list_fmap app]. rewrite bool_decide_false by naive_solver. rewrite orb_false_r.
    destruct rest as [|c rest]; [done|]. cbn [aton_digits]. rewrite (no_digit_isdigit _ _ Hr), andb_false_r.
    by destruct Hb as [->|[-> _]].
  - destruct Hb as [->|[_ ?]]; [|done]. cbn [fmap list_fmap app aton_digits foldl] in *.
    replace (isascii (d + 48) && isdigit (d + 48)) with true.
    2:{ unfold isascii, isdigit, in_range. symmetry. rewrite !andb_true_iff, Z.ltb_lt, !Z.leb_le. lia. }
    cbn [Z.eqb Pos.eqb andb]. replace (d + 48 - 48) with d by lia.
    pose proof (foldl_ge 10 (v * 10 + d) ds ltac:(lia) ltac:(lia)
      ltac:(eapply Forall_impl; [done|]; cbn; lia)).
    rewrite u64_id by lia. rewrite IH by (auto with lia).
    rewrite (bool_decide_true (d :: ds ≠ [])) by done. by rewrite orb_true_r.
Qed.

Lemma dec_digits_head fuel v :
  0 < v < 10 ^ Z.of_nat fuel → ∃ d ds, dec_digits fuel v = d :: ds ∧ 0 < d.
Proof.
  revert v. induction fuel as [|fuel IH]; intros v Hv; cbn [dec_digits]; [simpl in Hv; lia|].
  destruct (Z.ltb_spec v 10); [by exists v, []; split; [|lia]|].
  rewrite Nat2Z.inj_succ, Z.pow_succ_r in Hv by lia.
  destruct (IH (v / 10)) as (d & ds & -> & Hd).
  { split; [apply Z.div_str_pos; lia|]. apply Z.div_lt_upper_bound; lia. }
  eexists d, _. by split.
Qed.

Lemma aton_number_dec v rest :
  0 ≤ v < 2 ^ 63 → ends_number rest → aton_number (dec v ++ rest) = Some (v, true, rest).
Proof.
  intros Hv (Hr & Hx & HX & Ha). destruct (decide (v = 0)) as [->|Hv0].
  - unfold aton_number. cbn [dec dec_digits Z.ltb Z.compare fmap list_fmap app deref_c tail].
    cbn [Z.add Z.eqb Pos.eqb negb]. change (isdigit 48) with true. cbn [negb].
    destruct (Z.eqb_spec (deref_c rest) 120), (Z.eqb_spec (deref_c rest) 88); try lia.
    exact (aton_digits_dec 8 [] rest 0 true (or_intror (conj eq_refl eq_refl))
             (Forall_nil_2 _) Hr ltac:(lia) ltac:(cbn; lia)).
  - destruct (dec_digits_spec 20 v) as (_ & Hall & Hval); [split; [lia|]; cbn; lia|lia|].
    destruct (dec_digits_head 20 v) as (d & ds & E & Hd); [cbn; lia|].
    unfold dec. rewrite E in *. unfold digits_value in Hval.
    assert (0 ≤ d < 10) by (by apply Forall_cons in Hall as [? _]).
    unfold aton_number. cbn [fmap list_fmap app deref_c].
    replace (isdigit (d + 48)) with true.
    2:{ unfold isdigit, in_range. symmetry. rewrite !andb_true_iff, !Z.leb_le. lia. }
    cbn [negb]. destruct (Z.eqb_spec (d + 48) 48); [lia|].
    change (d + 48 :: ((λ d, d + 48) <$> ds) ++ rest) with (((λ d, d + 48) <$> (d :: ds)) ++ rest).
    rewrite aton_digits_dec; [|by left|done|done|lia|rewrite Hval; lia].
    by rewrite Hval, bool_decide_true.
Qed.

(** A text that ends an address: nothing, or white space. *)
Definition ends_address (s : list Z) : Prop := s = [] ∨ isspace (deref_c s) = true.

Lemma ends_address_number s : ends_address s → ends_number s ∧ deref_c s ≠ 46.
Proof.
  unfold ends_number, ends_address, isspace. intros [->|H]; [cbn; lia|].
  destruct s as [|c s]; [done|]. cbn [deref_c no_digit] in *.
  rewrite orb_true_iff, andb_true_iff, Z.eqb_eq, !Z.leb_le in H. lia.
Qed.

Lemma ends_number_dot s : ends_number (dot ++ s).
Proof. unfold ends_number. cbn. lia. Qed.

Lemma aton_parts_dotted room acc ps last tl :
  Forall (λ p, 0 ≤ p < 2 ^ 63) ps → 0 ≤ last < 2 ^ 63 → ends_address tl →
  aton_parts room acc (dotted ps last ++ tl)
  = if bool_decide ((length ps ≤ room)%nat ∧ Forall is_u8 ps)
    then Some (acc ++ ps, last, true, tl) else None.
Proof.
  intros Hps Hl Ht. destruct (ends_address_number tl Ht) as [Hn Hd].
  revert room acc. induction Hps as [|p ps Hp Hps IH]; intros room acc.
  - rewrite bool_decide_true by (split; [cbn; lia|constructor]). cbn [dotted foldr].
    assert (aton_number (dec last ++ tl) = Some (last, true, tl)) as E by by apply aton_number_dec.
    destruct room; cbn [aton_parts]; rewrite E; destruct (Z.eqb_spec (deref_c tl) 46); try done;
      by rewrite app_nil_r.
  - cbn beta in Hp. cbn [dotted foldr]. rewrite <- app_assoc.
    change (foldr (λ p t, dec p ++ dot ++ t) (dec last) ps) with (dotted ps last).
    rewrite <- (app_assoc dot).
    assert (aton_number (dec p ++ dot ++ dotted ps last ++ tl)
      = Some (p, true, dot ++ dotted ps last ++ tl)) as E
      by (apply aton_number_dec; [done|apply ends_number_dot]).
    destruct room as [|room]; cbn [aton_parts]; rewrite E; cbn [dot app deref_c tail Z.eqb Pos.eqb].
    { rewrite bool_decide_false; [done|]. cbn. lia. }
    pose proof (Forall_cons is_u8 p ps) as Hc. unfold is_u8 at 2 in Hc. destruct (Z.ltb_spec 0xff p) as [H|H].
    { rewrite bool_decide_false; [done|]. intros [_ Hf]. apply Hc in Hf. lia. }
    rewrite IH. rewrite <- app_assoc. cbn [app]. unfold u8. rewrite uwrap_id by lia.
    erewrite bool_decide_ext; [reflexivity|]. cbn [length]. assert (p < 2 ^ 8) by lia. intuition lia.
Qed.

(** Closes an equation of two texts of bytes, byte by byte. *)
Ltac bytes_eq :=
  unfold be32_enc, u8, uwrap; rewrite !Z.shiftr_div_pow2 by lia; cbn [drop app];
  repeat (apply (f_equal2 cons)); try reflexivity;
  change (2 ^ 24) with 16777216 in *; change (2 ^ 16) with 65536 in *;
  change (2 ^ 8) with 256 in *; div_mod_lia.

(** The bytes of the address: those of the parts, then those of the last number. *)
Lemma concoct_bytes ps last :
  (length ps ≤ 3)%nat → Forall is_u8 ps → 0 ≤ last →
  be32_enc <$> (u32 <$> aton_concoct ps last)
  = if bool_decide (ps = [] ∨ last < 2 ^ (8 * (4 - zlen ps)))
    then Some (ps ++ drop (length ps) (be32_enc last)) else None.
Proof.
  assert (∀ x, be32_enc (u32 x) = be32_enc x) as Hu.
  { intros x. rewrite <- be32_enc_s32, s32_u32. apply be32_enc_s32. }
  intros Hlen Hps Hl. unfold is_u8 in Hps.
  destruct ps as [|a [|b [|c [|? ?]]]]; cbn [length] in Hlen; [| | | |lia];
    repeat (apply Forall_cons in Hps as [? Hps]);
    unfold aton_concoct; cbn [length];
    [rewrite bool_decide_true by (by left); cbn [fmap option_fmap option_map drop app]; by rewrite Hu|..];
    (match goal with |- context [?m <? last] => destruct (Z.ltb_spec m last) as [Hov|Hok] end;
      [rewrite bool_decide_false; [done|]; intros [?|?]; [done|]; lia
      |rewrite bool_decide_true by (right; lia)]);
    cbn [fmap option_fmap option_map]; f_equal; rewrite Hu, ?(Z.lor_comm last);
    rewrite !Z.shiftl_mul_pow2 by lia.
  - rewrite lor_low by lia. bytes_eq.
  - rewrite (lor_low a) by lia. replace (a * 2 ^ 24 + b * 2 ^ 16) with ((a * 2 ^ 8 + b) * 2 ^ 16) by lia.
    rewrite lor_low by lia. bytes_eq.
  - rewrite (lor_low a) by lia. replace (a * 2 ^ 24 + b * 2 ^ 16) with ((a * 2 ^ 8 + b) * 2 ^ 16) by lia.
    rewrite (lor_low _ (c * 2 ^ 8)) by lia.
    replace ((a * 2 ^ 8 + b) * 2 ^ 16 + c * 2 ^ 8) with ((a * 2 ^ 16 + b * 2 ^ 8 + c) * 2 ^ 8) by lia.
    rewrite lor_low by lia. bytes_eq.
Qed.

Lemma inet_aton_dotted ps last tl :
  Forall (λ p, 0 ≤ p < 2 ^ 63) ps → 0 ≤ last < 2 ^ 63 → ends_address tl →
  inet_aton (dotted ps last ++ tl)
  = if bool_decide ((length ps ≤ 3)%nat ∧ Forall is_u8 ps ∧
                    (ps = [] ∨ last < 2 ^ (8 * (4 - zlen ps))))
    then Some (ps ++ drop (length ps) (be32_enc last)) else None.
Proof.
  intros Hps Hl Ht. unfold inet_aton. rewrite aton_parts_dotted by done. cbn [app].
  destruct (decide ((length ps ≤ 3)%nat ∧ Forall is_u8 ps)) as [[Hlen H8]|H].
  2:{ rewrite !bool_decide_false by tauto. done. }
  rewrite bool_decide_true by done.
  replace (negb (deref_c tl =? 0) && _) with false.
  2:{ destruct Ht as [->|Hs]; [done|]. rewrite Hs. destruct (ends_address_number tl) as [(_ & _ & _ & Ha) _].
      - by right.
      - unfold isascii. destruct (Z.ltb_spec (deref_c tl) 128); [|lia]. by rewrite andb_false_r. }
  cbn [negb]. pose proof (concoct_bytes ps last Hlen H8 ltac:(lia)) as Hc.
  destruct (decide (ps = [] ∨ last < 2 ^ (8 * (4 - zlen ps)))) as [Hr|Hr].
  - rewrite bool_decide_true in Hc by done. rewrite bool_decide_true by done.
    destruct (aton_concoct ps last) as [x|]; [|done]. by cbn in Hc.
  - rewrite bool_decide_false in Hc by done. rewrite bool_decide_false by tauto.
    by destruct (aton_concoct ps last).
Qed.

(** [inet_aton] on numbers written in decimal, alone or followed by white
    space.  One to four parts are accepted, exactly when every part but the last
    fits a byte and the last one the bytes that remain; the address is the
    parts' bytes and then the last number's.  A single number is not checked: it
    is taken modulo 2^32. *)
Lemma inet_aton_decimal ps last tl :
  Forall (λ p, 0 ≤ p < 2 ^ 63) ps → 0 ≤ last < 2 ^ 63 → ends_address tl →
  inet_aton (dotted ps last ++ tl)
  = if bool_decide ((length ps ≤ 3)%nat ∧ Forall is_u8 ps ∧
                    (ps = [] ∨ last < 2 ^ (8 * (4 - zlen ps))))
    then Some (ps ++ drop (length ps) (be32_enc last)) else None.
Proof. apply inet_aton_dotted. Qed.

(** "10.1.515 " and "4294967297". *)
Lemma inet_aton_decimal_witness :
  inet_aton (dotted [10; 1] 515 ++ [32]) = Some [10; 1; 2; 3] ∧
  inet_aton (dotted [] 4294967297 ++ []) = Some [0; 0; 0; 1].
Proof.
  split.
  - rewrite (inet_aton_decimal [10; 1] 515 [32]);
      [reflexivity|repeat constructor; lia|lia|by right].
  - rewrite (inet_aton_decimal [] 4294967297 []); [reflexivity|constructor|lia|by left].
Defined.

Lemma dec_byte_length v : is_u8 v → 1 ≤ zlen (dec v) ≤ 3.
Proof.
  intros Hv. unfold is_u8 in Hv. unfold dec. rewrite length_fmap.
  do 3 (cbn [dec_digits]; match goal with |- context [?x <? 10] => destruct (Z.ltb_spec x 10) end;
    [rewrite ?length_app; cbn; lia|]).
  exfalso. assert (v / 10 / 10 < 10); [|lia]. do 2 (apply Z.div_lt_upper_bound; [lia|]). lia.
Qed.

Lemma quad_length a b c d :
  is_u8 a → is_u8 b → is_u8 c → is_u8 d → 7 ≤ zlen (quad [a; b; c; d]) ≤ 15.
Proof.
  intros Ha Hb Hc Hd. unfold quad. cbn [lookup_total list_lookup_total]. rewrite !length_app.
  pose proof (dec_byte_length a Ha). pose proof (dec_byte_length b Hb).
  pose proof (dec_byte_length c Hc). pose proof (dec_byte_length d Hd). cbn [dot length]. lia.
Qed.

Lemma quad_dotted a b c d : quad [a; b; c; d] = dotted [a; b; c] d.
Proof. reflexivity. Qed.

(** C23. An IPv4 address printed and read back.  For every address and buffer
    size, [inet_ntop] fails with ENOSPC exactly when the text and its NUL do
    not fit; otherwise the text, of at most 15 characters, is read back by
    [inet_aton] (and [inet_addr]) as the same address. *)
Theorem inet_ntop4_roundtrip a b c d size :
  is_u8 a → is_u8 b → is_u8 c → is_u8 d →
  match inet_ntop AF_INET [a; b; c; d] size with
  | inl e => e = ENOSPC ∧ size ≤ zlen (quad [a; b; c; d])
  | inr text => zlen text < size ∧ zlen text ≤ 15 ∧ inet_aton text = Some [a; b; c; d]
                ∧ inet_addr text = [a; b; c; d]
  end.
Proof.
  intros Ha Hb Hc Hd. pose proof (quad_length a b c d Ha Hb Hc Hd) as Hl.
  unfold inet_ntop. cbn [AF_INET Z.eqb Pos.eqb]. unfold inet_ntop4.
  destruct (Z.leb_spec size (zlen (quad [a; b; c; d]))) as [H|H]; [done|].
  assert (inet_aton (quad [a; b; c; d]) = Some [a; b; c; d]) as E.
  { rewrite quad_dotted, <- (app_nil_r (dotted _ _)). unfold is_u8 in *. rewrite inet_aton_dotted.
    - rewrite bool_decide_true; [|cbn [length]; split_and!; [lia| |right; lia]].
      + unfold be32_enc, u8. cbn [drop length app]. by rewrite uwrap_id by lia.
      + repeat (apply Forall_cons_2; [assumption|]). constructor.
    - repeat constructor; lia.
    - lia.
    - by left. }
  split_and!; [lia|lia|done|]. unfold inet_addr. by rewrite E.
Qed.

Lemma inet_ntop4_roundtrip_witness :
  match inet_ntop AF_INET [192; 168; 0; 1] 16 with
  | inl _ => False
  | inr text => inet_aton text = Some [192; 168; 0; 1]
  end.
Proof.
  assert (is_u8 192 ∧ is_u8 168 ∧ is_u8 0 ∧ is_u8 1) as (H1 & H2 & H3 & H4) by (unfold is_u8; lia).
  pose proof (inet_ntop4_roundtrip 192 168 0 1 16 H1 H2 H3 H4) as H. vm_compute in H |- *. tauto.
Defined.

(** * The text of an IPv6 address *)

(** The words of an address. *)
Fixpoint group16 (src : list Z) : list Z :=
  match src with
  | a :: b :: r => a * 2 ^ 8 + b :: group16 r
  | _ => []
  end.

Fixpoint join (l : list (list Z)) : list Z :=
  match l with
  | [] => []
  | [x] => x
  | x :: l => x ++ colon ++ join l
  end.

(** The text when the words from [b] on, [n] of them, are written "::". *)
Definition text6 (src : list Z) (run : option (nat * nat)) : list Z :=
  let ws := group16 src in
  match run with
  | None => join (hex <$> ws)
  | Some (b, n) =>
      join (hex <$> take b ws) ++ colon ++ colon ++
      (if (b =? 0)%nat && (n =? 6)%nat then quad (drop 12 src)
       else if (b =? 0)%nat && (n =? 5)%nat && (ws !!! 5%nat =? 0xffff)
       then hex (ws !!! 5%nat) ++ colon ++ quad (drop 12 src)
       else join (hex <$> drop (b + n) ws))
  end.

Definition zeros (ws : list Z) (b n : nat) : bool := forallb (λ i, ws !!! i =? 0) (seq b n).

(** The run of two or more zero words to abbreviate: the longest, and of those the
    first. *)
Definition abbreviates (ws : list Z) (run : option (nat * nat)) : Prop :=
  match run with
  | None => ∀ b, (b + 2 ≤ 8)%nat → zeros ws b 2 = false
  | Some (b, n) =>
      zeros ws b n = true ∧ (2 ≤ n)%nat ∧ (b + n ≤ 8)%nat ∧
      ∀ b' n', (b' + n' ≤ 8)%nat → zeros ws b' n' = true → (n' < n ∨ n' = n ∧ b ≤ b')%nat
  end.

Definition run_of (r : run) : option (nat * nat) :=
  if base r =? -1 then None else Some (Z.to_nat (base r), Z.to_nat (len r)).

(** ** The search: only which words are zero matters *)

Definition flag (w : Z) : Z := if w =? 0 then 0 else 1.

Lemma flag_zero w : (flag w =? 0) = (w =? 0).
Proof. unfold flag. by destruct (w =? 0). Qed.

Lemma run_loop_flags i ws st : run_loop i (flag <$> ws) st = run_loop i ws st.
Proof.
  revert i st. induction ws as [|w ws IH]; intros i st; cbn [fmap list_fmap run_loop]; [done|].
  rewrite IH. f_equal. unfold run_turn. destruct st. by rewrite flag_zero.
Qed.

Lemma best_run_flags ws : best_run (flag <$> ws) = best_run ws.
Proof. unfold best_run. by rewrite run_loop_flags. Qed.

Lemma zeros_flags ws b n : zeros (flag <$> ws) b n = zeros ws b n.
Proof.
  unfold zeros. induction (seq b n) as [|i l IH]; cbn; [done|]. f_equal; [|done].
  rewrite !list_lookup_total_alt, list_lookup_fmap.
  destruct (ws !! i); cbn; [apply flag_zero|done].
Qed.

Fixpoint patterns (n : nat) : list (list Z) :=
  match n with
  | O => [[]]
  | S n => (cons 0 <$> patterns n) ++ (cons 1 <$> patterns n)
  end.

Lemma flags_pattern ws : (flag <$> ws) ∈ patterns (length ws).
Proof.
  induction ws as [|w ws IH]; cbn; [by left|]. apply elem_of_app. unfold flag.
  destruct (w =? 0); [left|right]; by apply list_elem_of_fmap_2.
Qed.

(** The search answers the run to abbreviate, checked on every pattern. *)
Definition abbreviates_b (ws : list Z) (run : option (nat * nat)) : bool :=
  match run with
  | None => forallb (λ b, negb (zeros ws b 2)) (seq 0 7)
  | Some (b, n) =>
      zeros ws b n && (2 <=? n)%nat && (b + n <=? 8)%nat &&
      forallb (λ b', forallb (λ n',
        implb ((b' + n' <=? 8)%nat && zeros ws b' n')
              ((n' <? n)%nat || ((n' =? n)%nat && (b <=? b')%nat))) (seq 0 9)) (seq 0 9)
  end.

Lemma abbreviates_reflect ws run : abbreviates_b ws run = true → abbreviates ws run.
Proof.
  destruct run as [[b n]|]; cbn [abbreviates abbreviates_b].
  - rewrite !andb_true_iff, !Nat.leb_le, forallb_forall. intros [[[Hz Hn] Hb] Hmax].
    split_and!; [done..|]. intros b' n' Hle Hz'.
    assert (In b' (seq 0 9)) as Hin by (apply in_seq; lia). specialize (Hmax b' Hin).
    rewrite forallb_forall in Hmax. assert (In n' (seq 0 9)) as Hin' by (apply in_seq; lia).
    specialize (Hmax n' Hin'). rewrite Hz', andb_true_r in Hmax.
    destruct (Nat.leb_spec (b' + n') 8); [|lia]. cbn [andb implb] in Hmax.
    rewrite orb_true_iff, andb_true_iff, Nat.ltb_lt, Nat.eqb_eq, Nat.leb_le in Hmax. lia.
  - rewrite forallb_forall. intros H b Hb. specialize (H b). rewrite in_seq in H.
    specialize (H ltac:(lia)). by destruct (zeros ws b 2).
Qed.

Lemma search_all_patterns :
  forallb (λ ws, abbreviates_b ws (run_of (best_run ws)) && (-1 <=? base (best_run ws))) (patterns 8)
  = true.
Proof. vm_compute. reflexivity. Qed.

Lemma best_run_pattern ws :
  length ws = 8%nat →
  abbreviates_b (flag <$> ws) (run_of (best_run ws)) = true ∧ -1 ≤ base (best_run ws).
Proof.
  intros Hl. pose proof search_all_patterns as H. rewrite forallb_forall in H.
  specialize (H (flag <$> ws)). rewrite best_run_flags, andb_true_iff, Z.leb_le in H. apply H.
  apply list_elem_of_In. rewrite <- Hl. apply flags_pattern.
Qed.

Lemma best_run_abbreviates ws : length ws = 8%nat → abbreviates ws (run_of (best_run ws)).
Proof.
  intros Hl. destruct (best_run_pattern ws Hl) as [Ha%abbreviates_reflect _].
  destruct (run_of (best_run ws)) as [[b n]|]; cbn [abbreviates] in *.
  - destruct Ha as (H1 & H2 & H3 & H4). rewrite zeros_flags in H1. split_and!; [done..|].
    intros b' n' Hle Hz. apply H4; [done|]. by rewrite zeros_flags.
  - intros b Hb. rewrite <- zeros_flags. by apply Ha.
Qed.

(** ** The formatting *)

Lemma join_length l :
  Forall (λ x, zlen x ≤ 4) l → zlen (join l) ≤ 5 * zlen l.
Proof.
  induction 1 as [|x l Hx Hl IH]; [cbn; lia|]. destruct l as [|y l]; [cbn in *; lia|].
  change (join (x :: y :: l)) with (x ++ colon ++ join (y :: l)). rewrite !length_app.
  cbn [length colon] in *. lia.
Qed.

Lemma words_of_group16 src :
  length src = 16%nat → bytes_ok src → words_of src = group16 src.
Proof.
  intros Hl Hb.
  destruct src as [|b0 [|b1 [|b2 [|b3 [|b4 [|b5 [|b6 [|b7 [|b8 [|b9 [|b10 [|b11 [|b12 [|b13
    [|b14 [|b15 [|? ?]]]]]]]]]]]]]]]]]; try (cbn in Hl; lia).
  unfold bytes_ok, is_u8 in Hb. rewrite !Forall_cons in Hb. destruct_and!.
  assert (∀ a b, 0 ≤ b < 2 ^ 8 →
    Z.lor (Z.lor 0 (Z.shiftl a (Z.shiftl (1 - 0) 3))) (Z.shiftl b (Z.shiftl (1 - 1) 3)) = a * 2 ^ 8 + b)
    as Hlor.
  { intros a b Hab. cbn [Z.lor]. change (Z.shiftl (1 - 0) 3) with 8. change (Z.shiftl (1 - 1) 3) with 0.
    rewrite !Z.shiftl_mul_pow2 by lia. rewrite Z.mul_1_r. by apply lor_low. }
  cbn [group16]. by rewrite <- !Hlor by done.
Qed.

Lemma group16_length src : length src = 16%nat → length (group16 src) = 8%nat.
Proof.
  intros Hl. do 17 (destruct src as [|? src]; try (cbn in Hl; lia)). reflexivity.
Qed.

(** What is written before the trailing colon. *)
Definition body6 (src words : list Z) (best : run) : Z + list Z :=
  match format_loop (drop 12 src) words best 8 0 [] with
  | inl e => inl e
  | inr tp => inr (if negb (base best =? -1) && (base best + len best =? 8) then tp ++ colon else tp)
  end.

Lemma quad_tail_length src :
  length src = 16%nat → bytes_ok src → zlen (quad (drop 12 src)) ≤ 15.
Proof.
  intros Hl Hb. do 17 (destruct src as [|? src]; try (cbn in Hl; lia)). cbn [drop].
  unfold bytes_ok in Hb. rewrite !Forall_cons in Hb. destruct_and!. by apply quad_length.
Qed.

Lemma quad_fits (src tp : list Z) :
  length src = 16%nat → bytes_ok src → zlen tp ≤ 30 →
  inet_ntop4 (drop 12 src) (TMP_SIZE - zlen tp) = inr (quad (drop 12 src)).
Proof.
  intros Hl Hb Ht. unfold inet_ntop4. pose proof (quad_tail_length src Hl Hb).
  unfold TMP_SIZE. destruct (Z.leb_spec (46 - zlen tp) (zlen (quad (drop 12 src)))); [lia|done].
Qed.

(** One choice of run at a time: the loop writes what [text6] says. *)
Lemma format_loop_run src12 q w0 w1 w2 w3 w4 w5 w6 w7 b n bz nz :
  bz = Z.of_nat b → nz = Z.of_nat n →
  (∀ tp : list Z, zlen tp ≤ 30 → inet_ntop4 src12 (TMP_SIZE - zlen tp) = inr q) →
  (∀ w, zlen (hex w) ≤ 4) →
  (2 ≤ n)%nat → (b + n ≤ 8)%nat →
  let ws := [w0; w1; w2; w3; w4; w5; w6; w7] in
  format_loop src12 ws (mkRun bz nz) 8 0 []
  = inr (join (hex <$> take b ws) ++ colon ++
         (if (b + n =? 8)%nat then [] else colon) ++
         if (b =? 0)%nat && (n =? 6)%nat then q
         else if (b =? 0)%nat && (n =? 5)%nat && (w5 =? 0xffff) then hex w5 ++ colon ++ q
         else join (hex <$> drop (b + n) ws)).
Proof.
  intros Hbz Hnz Hq Hx Hn Hbn ws.
  assert (encapsulated ws (mkRun bz nz) && negb (n =? 7)%nat =
    ((b =? 0)%nat && ((n =? 6)%nat || ((n =? 5)%nat && (w5 =? 0xffff))))) as He.
  { subst bz nz. unfold encapsulated. cbn [base len]. change (ws !!! 5%nat) with w5.
    destruct b as [|b]; [|done]. cbn [Nat.eqb Z.of_nat Z.eqb andb].
    destruct n as [|[|[|[|[|[|[|[|[|n]]]]]]]]]; try lia; cbn; by rewrite ?andb_false_r, ?andb_true_r. }
  destruct b as [|[|[|[|[|[|[|b]]]]]]]; try lia;
    destruct n as [|[|[|[|[|[|[|[|[|n]]]]]]]]]; try lia.
  all: revert He; generalize (w5 =? 0xffff); intros e5 He; unfold ws in *; clear ws.
  all: vm_compute in Hbz, Hnz; subst bz nz.
  all: cbv -[encapsulated hex inet_ntop4 app length Z.of_nat Z.sub TMP_SIZE].
  all: cbn [Nat.eqb negb andb orb] in He; rewrite ?andb_true_r in He; rewrite ?He; clear He.
  all: try destruct e5.
  all: rewrite ?Hq by (rewrite !length_app; cbn [length]; specialize (Hx w5); lia).
  all: by rewrite <- ?app_assoc.
Qed.

Lemma hex_digits_length fuel v : (length (hex_digits fuel v) ≤ fuel)%nat.
Proof.
  revert v. induction fuel as [|fuel IH]; intros v; cbn [hex_digits]; [done|].
  destruct (v <? 16); [cbn; lia|]. rewrite length_app. cbn. specialize (IH (v / 16)). lia.
Qed.

Lemma hex_length v : zlen (hex v) ≤ 4.
Proof. unfold hex. rewrite length_fmap. pose proof (hex_digits_length 4 v). lia. Qed.

Lemma body6_text src :
  length src = 16%nat → bytes_ok src →
  body6 src (group16 src) (best_run (group16 src)) = inr (text6 src (run_of (best_run (group16 src)))).
Proof.
  intros Hl Hb. pose proof (group16_length src Hl) as Hg.
  pose proof (best_run_abbreviates _ Hg) as Ha. destruct (best_run_pattern _ Hg) as [_ Hbase].
  unfold body6, text6. destruct (best_run (group16 src)) as [b n]. unfold run_of in *. cbn [base len] in *.
  destruct (group16 src) as [|w0 [|w1 [|w2 [|w3 [|w4 [|w5 [|w6 [|w7 [|? ?]]]]]]]]]; try (cbn in Hg; lia).
  destruct (Z.eqb_spec b (-1)) as [->|Hb1].
  { cbn [negb andb]. cbv -[hex app]. by rewrite <- ?app_assoc. }
  destruct Ha as (_ & Hn & Hbn & _). cbn [negb andb].
  rewrite (format_loop_run (drop 12 src) (quad (drop 12 src)) w0 w1 w2 w3 w4 w5 w6 w7 (Z.to_nat b) (Z.to_nat n));
    [|lia|lia|intros; by apply quad_fits|apply hex_length|lia|lia].
  f_equal. destruct (Nat.eqb_spec (Z.to_nat b + Z.to_nat n) 8), (Z.eqb_spec (b + n) 8); try lia; [|done].
  replace (Z.to_nat b + Z.to_nat n)%nat with 8%nat by lia.
  destruct (Nat.eqb_spec (Z.to_nat b) 0), (Nat.eqb_spec (Z.to_nat n) 6), (Nat.eqb_spec (Z.to_nat n) 5);
    try lia; cbn [andb drop fmap list_fmap join app]; by rewrite <- ?app_assoc, ?app_nil_r.
Qed.

Lemma hex_words_length ws : zlen (join (hex <$> ws)) ≤ 5 * zlen ws.
Proof.
  etransitivity; [apply join_length|by rewrite length_fmap]. apply Forall_fmap, Forall_forall.
  intros w _. apply hex_length.
Qed.

Lemma text6_length src run :
  length src = 16%nat → bytes_ok src → abbreviates (group16 src) run →
  zlen (text6 src run) + 1 ≤ TMP_SIZE.
Proof.
  intros Hl Hb Ha. pose proof (group16_length src Hl) as Hg. unfold text6, TMP_SIZE.
  pose proof (quad_tail_length src Hl Hb) as Hq.
  destruct run as [[b n]|]; cbn [abbreviates] in Ha.
  2:{ pose proof (hex_words_length (group16 src)). lia. }
  destruct Ha as (_ & Hn & Hbn & _). rewrite !length_app. cbn [colon length].
  pose proof (hex_words_length (take b (group16 src))) as H1. rewrite length_take in H1.
  pose proof (hex_words_length (drop (b + n) (group16 src))) as H2. rewrite length_drop in H2.
  destruct (Nat.eqb_spec b 0); cbn [andb]; [|lia].
  pose proof (hex_length (group16 src !!! 5%nat)).
  destruct (n =? 6)%nat; [lia|]. destruct (n =? 5)%nat, (_ =? 65535); cbn [andb];
    rewrite ?length_app; cbn [colon length]; lia.
Qed.

(** C24. The text of an IPv6 address.  For every address, [inet_ntop] writes its
    eight words in hexadecimal, separated by colons, with the longest run of at
    least two zero words (the first one of that length) replaced by "::" and the
    IPv4-compatible and IPv4-mapped forms in dotted quad; the text and its NUL
    fit the 46 bytes of [tmp], and it fails with ENOSPC exactly when they do not
    fit the caller's buffer. *)
Theorem inet_ntop6_text src size :
  length src = 16%nat → bytes_ok src →
  ∃ run, abbreviates (group16 src) run ∧
    zlen (text6 src run) + 1 ≤ TMP_SIZE ∧
    inet_ntop AF_INET6 src size
    = if size <? zlen (text6 src run) + 1 then inl ENOSPC else inr (text6 src run).
Proof.
  intros Hl Hb. pose proof (best_run_abbreviates _ (group16_length src Hl)) as Ha.
  exists (run_of (best_run (group16 src))). split; [done|]. split; [by apply text6_length|].
  pose proof (body6_text src Hl Hb) as Ht. unfold body6 in Ht.
  unfold inet_ntop. cbn [AF_INET AF_INET6 Z.eqb Pos.eqb]. unfold inet_ntop6.
  rewrite words_of_group16 by done. destruct (format_loop _ _ _ _ _ _) as [e|tp]; [done|].
  by injection Ht as ->.
Qed.

Lemma inet_ntop6_text_witness :
  ∃ run, abbreviates [0x2001; 0xdb8; 0; 0; 1; 0; 0; 0] run ∧
    inet_ntop AF_INET6 [32;1;13;184;0;0;0;0;0;1;0;0;0;0;0;0] 46
    = inr (text6 [32;1;13;184;0;0;0;0;0;1;0;0;0;0;0;0] run).
Proof.
  destruct (inet_ntop6_text [32;1;13;184;0;0;0;0;0;1;0;0;0;0;0;0] 46) as (run & Ha & Hlen & E).
  - reflexivity.
  - unfold bytes_ok, is_u8. repeat (apply Forall_cons_2; [lia|]). constructor.
  - exists run. split; [exact Ha|]. rewrite E. unfold TMP_SIZE in Hlen.
    destruct (Z.ltb_spec 46 (zlen (text6 [32;1;13;184;0;0;0;0;0;1;0;0;0;0;0;0] run) + 1)) as [H|H];
      [exfalso; lia|reflexivity].
Defined.
