(* ===== verification/Sort.v ===== *)
(** Sorting and searching in the C library (src/system/libroot/posix/stdlib/
    qsort.c, bsearch.c).

    The array is the list of its elements; a pointer into it is the index of the
    element it points to, the element size being the unit.  A read or a swap
    outside the array is [Bad OutOfBounds].  The comparison function is a
    parameter of the routines. *)

From Stdlib Require Import Sorting.Sorted.
From S2P Require Import Prelude.

Section Routines.
Context {A : Type} (cmp : A → A → Z).

Definition get (i : nat) (arr : list A) : outcome A :=
  match arr !! i with Some x => Ok x | None => Bad OutOfBounds end.

(** [swapfunc(a, b, es)]: the bytes of two elements exchanged. *)
Definition swapfunc (i j : nat) (arr : list A) : outcome (list A) :=
  x ← get i arr;
  y ← get j arr;
  Ok (<[j := x]> (<[i := y]> arr)).

(** [vecswap(a, b, n)]: [k] elements from each pointer on. *)
Fixpoint vecswap (k i j : nat) (arr : list A) : outcome (list A) :=
  match k with
  | O => Ok arr
  | S k => arr ← swapfunc i j arr; vecswap k (S i) (S j) arr
  end.

(** [CMP(thunk, x, y)] on two pointers. *)
Definition CMP (i j : nat) (arr : list A) : outcome Z :=
  x ← get i arr;
  y ← get j arr;
  Ok (cmp x y).

Definition med3 (a b c : nat) (arr : list A) : outcome nat :=
  ab ← CMP a b arr;
  if ab <? 0 then
    bc ← CMP b c arr;
    if bc <? 0 then Ok b
    else ac ← CMP a c arr; Ok (if ac <? 0 then c else a)
  else
    bc ← CMP b c arr;
    if 0 <? bc then Ok b
    else ac ← CMP a c arr; Ok (if ac <? 0 then a else c).

(** The inner loop of the insertion sort; [pl] is [a + k]. *)
Fixpoint insert_down (a k : nat) (arr : list A) : outcome (list A) :=
  match k with
  | O => Ok arr
  | S k' =>
      c ← CMP (a + k') (a + k) arr;
      if 0 <? c then arr ← swapfunc (a + k) (a + k') arr; insert_down a k' arr
      else Ok arr
  end.

(** Its outer loop from [pm = a + k] on; [m] turns are left. *)
Fixpoint insertion_loop (a k m : nat) (arr : list A) : outcome (list A) :=
  match m with
  | O => Ok arr
  | S m => arr ← insert_down a k arr; insertion_loop a (S k) m arr
  end.

Definition insertion_sort (a n : nat) (arr : list A) : outcome (list A) :=
  insertion_loop a 1 (n - 1) arr.

(** The pointers of the partition, [swap_cnt] and the array. *)
Record part : Type := mkPart { pa : nat; pb : nat; pc : nat; pd : nat; swap_cnt : bool; arr_ : list A }.

(** [while (pb <= pc && (cmp_result = CMP(thunk, pb, a)) <= 0)]; [k] is
    [pc + 1 - pb]. *)
Fixpoint scan_left (a k : nat) (s : part) : outcome part :=
  match k with
  | O => Ok s
  | S k =>
      cmp_result ← CMP (pb s) a (arr_ s);
      if cmp_result <=? 0 then
        if cmp_result =? 0 then
          arr ← swapfunc (pa s) (pb s) (arr_ s);
          scan_left a k (mkPart (S (pa s)) (S (pb s)) (pc s) (pd s) true arr)
        else scan_left a k (mkPart (pa s) (S (pb s)) (pc s) (pd s) (swap_cnt s) (arr_ s))
      else Ok s
  end.

(** [while (pb <= pc && (cmp_result = CMP(thunk, pc, a)) >= 0)]. *)
Fixpoint scan_right (a k : nat) (s : part) : outcome part :=
  match k with
  | O => Ok s
  | S k =>
      cmp_result ← CMP (pc s) a (arr_ s);
      if 0 <=? cmp_result then
        if cmp_result =? 0 then
          arr ← swapfunc (pc s) (pd s) (arr_ s);
          scan_right a k (mkPart (pa s) (pb s) (pc s - 1) (pd s - 1) true arr)
        else scan_right a k (mkPart (pa s) (pb s) (pc s - 1) (pd s) (swap_cnt s) (arr_ s))
      else Ok s
  end.

(** [for (;;)]: the partition. *)
Fixpoint partition (fuel a : nat) (s : part) : outcome part :=
  match fuel with
  | O => Hang
  | S fuel =>
      s ← scan_left a (pc s + 1 - pb s) s;
      s ← scan_right a (pc s + 1 - pb s) s;
      if (pc s <? pb s)%nat then Ok s
      else
        arr ← swapfunc (pb s) (pc s) (arr_ s);
        partition fuel a (mkPart (pa s) (S (pb s)) (pc s - 1) (pd s) true arr)
  end.

(** The choice of the pivot. *)
Definition choose_pivot (a n : nat) (arr : list A) : outcome nat :=
  let pm := (a + n / 2)%nat in
  if (7 <? n)%nat then
    let pl := a in
    let pn := (a + (n - 1))%nat in
    '(pl, pm, pn) ←
      (if (40 <? n)%nat then
         let d := (n / 8)%nat in
         pl ← med3 pl (pl + d) (pl + 2 * d) arr;
         pm ← med3 (pm - d) pm (pm + d) arr;
         pn ← med3 (pn - 2 * d) (pn - d) pn arr;
         Ok (pl, pm, pn)
       else Ok (pl, pm, pn));
    med3 pl pm pn arr
  else Ok pm.

(** From the choice of the pivot to the end of the partition. *)
Definition split (a n : nat) (arr : list A) : outcome part :=
  pm ← choose_pivot a n arr;
  arr ← swapfunc a pm arr;
  partition n a (mkPart (a + 1) (a + 1) (a + (n - 1)) (a + (n - 1)) false arr).

(** The elements equal to the pivot moved to the middle. *)
Definition gather (a n : nat) (s : part) : outcome (list A) :=
  let pn := (a + n)%nat in
  let d1 := Nat.min (pa s - a) (pb s - pa s) in
  arr ← vecswap d1 a (pb s - d1) (arr_ s);
  let d1 := Nat.min (pd s - pc s) (pn - pd s - 1) in
  vecswap d1 (pb s) (pn - d1) arr.

(** The body of [local_qsort] from the label [loop] on, for two elements or more;
    [goto loop] is a call of itself, and so is the recursion. *)
Fixpoint qsort_loop (fuel a n : nat) (arr : list A) : outcome (list A) :=
  match fuel with
  | O => Hang
  | S fuel =>
      if (n <? 7)%nat then insertion_sort a n arr
      else
        s ← split a n arr;
        if negb (swap_cnt s) then insertion_sort a n (arr_ s)
        else
          arr ← gather a n s;
          let pn := (a + n)%nat in
          let d1 := (pb s - pa s)%nat in
          let d2 := (pd s - pc s)%nat in
          if (d1 <=? d2)%nat then
            arr ← (if (1 <? d1)%nat then qsort_loop fuel a d1 arr else Ok arr);
            if (1 <? d2)%nat then qsort_loop fuel (pn - d2) d2 arr else Ok arr
          else
            arr ← (if (1 <? d2)%nat then qsort_loop fuel (pn - d2) d2 arr else Ok arr);
            if (1 <? d1)%nat then qsort_loop fuel a d1 arr else Ok arr
  end.

Definition local_qsort (a n : nat) (arr : list A) : outcome (list A) :=
  if (n <? 2)%nat then Ok arr else qsort_loop n a n arr.

Definition qsort (arr : list A) : outcome (list A) := local_qsort 0 (length arr) arr.
End Routines.

(** [bsearch]: the loop over [lim], [base] being an index; the answer is the index
    of the element found. *)
Fixpoint bsearch_loop {A K} (compar : K → A → Z) (key : K) (arr : list A) (fuel base lim : nat)
    : outcome (option nat) :=
  match fuel with
  | O => Hang
  | S fuel =>
      if (lim =? 0)%nat then Ok None
      else
        let p := (base + lim / 2)%nat in
        x ← get p arr;
        let cmp := compar key x in
        if cmp =? 0 then Ok (Some p)
        else if 0 <? cmp then bsearch_loop compar key arr fuel (p + 1) ((lim - 1) / 2)
        else bsearch_loop compar key arr fuel base (lim / 2)
  end.

Definition bsearch {A K} (compar : K → A → Z) (key : K) (base0 : list A) : outcome (option nat) :=
  bsearch_loop compar key base0 (S (length base0)) 0 (length base0).

Example qsort_ten :
  qsort Z.sub [5; 3; 9; 1; 5; 5; 2; 8; 0; 7; 5; 4] = Ok [0; 1; 2; 3; 4; 5; 5; 5; 5; 7; 8; 9].
Proof. vm_compute. reflexivity. Qed.

(** * Exchanges inside a range *)

Section Exchanges.
Context {A : Type}.
Implicit Types l : list A.

(** What exchanges of elements of the range [lo, hi) do to an array. *)
Record rearranged (lo hi : nat) l l' : Prop := {
  re_perm : l' ≡ₚ l;
  re_out : ∀ i, ¬ (lo ≤ i < hi)%nat → l' !! i = l !! i;
  re_in : ∀ i, (lo ≤ i < hi)%nat → ∃ j, (lo ≤ j < hi)%nat ∧ l' !! i = l !! j
}.

Lemma rearranged_refl lo hi l : rearranged lo hi l l.
Proof. split; [done|done|]. intros i Hi. by exists i. Qed.

Lemma rearranged_trans lo hi l1 l2 l3 :
  rearranged lo hi l1 l2 → rearranged lo hi l2 l3 → rearranged lo hi l1 l3.
Proof.
  intros [P1 O1 I1] [P2 O2 I2]. split.
  - by rewrite P2.
  - intros i Hi. by rewrite O2, O1.
  - intros i Hi. destruct (I2 i Hi) as (j & Hj & ->). by apply I1.
Qed.

Lemma rearranged_length lo hi l l' : rearranged lo hi l l' → length l' = length l.
Proof. intros [P _ _]. by rewrite P. Qed.

(** A wider range. *)
Lemma rearranged_weaken lo hi lo' hi' l l' :
  (lo' ≤ lo)%nat → (hi ≤ hi')%nat → rearranged lo hi l l' → rearranged lo' hi' l l'.
Proof.
  intros Hl Hh [P O I]. split; [done| |].
  - intros i Hi. apply O. lia.
  - intros i Hi. destruct (decide (lo ≤ i < hi)%nat) as [H|H].
    + destruct (I i H) as (j & Hj & E). exists j. split; [lia|done].
    + exists i. split; [done|by apply O].
Qed.

Lemma get_ok i l : (i < length l)%nat → ∃ x, get i l = Ok x ∧ l !! i = Some x.
Proof. intros [x Hx]%lookup_lt_is_Some_2. exists x. unfold get. by rewrite Hx. Qed.

Lemma swapfunc_ok i j l :
  (i < length l)%nat → (j < length l)%nat →
  ∃ l', swapfunc i j l = Ok l' ∧
    ∀ k, l' !! k = if decide (k = j) then l !! i else if decide (k = i) then l !! j else l !! k.
Proof.
  intros Hi Hj. destruct (get_ok i l Hi) as (x & Ex & Hx), (get_ok j l Hj) as (y & Ey & Hy).
  unfold swapfunc. rewrite Ex. cbn [mbind outcome_bind]. rewrite Ey. cbn [mbind outcome_bind].
  eexists. split; [done|]. intros k. repeat case_decide; subst.
  - rewrite list_lookup_insert_eq; [by rewrite Hx|]. by rewrite length_insert.
  - rewrite list_lookup_insert_ne by done. rewrite list_lookup_insert_eq by done. by rewrite Hy.
  - by rewrite !list_lookup_insert_ne by done.
Qed.

(** An exchange inside the range. *)
Lemma swapfunc_rearranged lo hi i j l :
  (lo ≤ i < hi)%nat → (lo ≤ j < hi)%nat → (hi ≤ length l)%nat →
  ∃ l', swapfunc i j l = Ok l' ∧ rearranged lo hi l l' ∧
    ∀ k, l' !! k = if decide (k = j) then l !! i else if decide (k = i) then l !! j else l !! k.
Proof.
  intros Hi Hj Hl. destruct (swapfunc_ok i j l) as (l' & E & Hk); [lia|lia|].
  exists l'. split; [done|]. split; [|done]. split.
  - apply Permutation_inj. split.
    { unfold swapfunc in E. destruct (get i l); [|done..]. cbn in E. destruct (get j l); [|done..].
      injection E as <-. by rewrite !length_insert. }
    exists (λ k, if decide (k = j) then i else if decide (k = i) then j else k). split.
    + intros k1 k2. repeat case_decide; congruence.
    + intros k. rewrite Hk. by repeat case_decide.
  - intros k Hko. rewrite Hk. rewrite !decide_False by (intros ->; lia). done.
  - intros k Hki. rewrite Hk. case_decide; [by exists i|]. case_decide; [by exists j|by exists k].
Qed.

(** [k] exchanges between two ranges that do not meet. *)
Lemma vecswap_run lo hi k i j l :
  (lo ≤ i)%nat → (i + k ≤ j)%nat → (j + k ≤ hi)%nat → (hi ≤ length l)%nat →
  ∃ l', vecswap k i j l = Ok l' ∧ rearranged lo hi l l' ∧
    ∀ t, l' !! t = if decide (i ≤ t < i + k)%nat then l !! (t + (j - i))%nat
                   else if decide (j ≤ t < j + k)%nat then l !! (t - (j - i))%nat else l !! t.
Proof.
  revert i j l. induction k as [|k IH]; intros i j l Hi Hij Hj Hl; cbn [vecswap].
  { exists l. split; [done|]. split; [apply rearranged_refl|]. intros t.
    by rewrite !decide_False by lia. }
  destruct (swapfunc_rearranged lo hi i j l) as (l1 & -> & R1 & H1); [lia|lia|lia|].
  cbn [mbind outcome_bind].
  destruct (IH (S i) (S j) l1) as (l2 & -> & R2 & H2);
    [lia|lia|lia|by rewrite (rearranged_length _ _ _ _ R1)|].
  exists l2. split; [done|]. split; [by eapply rearranged_trans|]. intros t. rewrite H2, !H1.
  replace (S j - S i)%nat with (j - i)%nat by lia.
  repeat case_decide; try lia; try done; f_equal; lia.
Qed.
End Exchanges.

(** * Any comparison function *)

Section Safety.
Context {A : Type} (cmp : A → A → Z).
Implicit Types l : list A.

Lemma CMP_ok i j l :
  (i < length l)%nat → (j < length l)%nat →
  ∃ x y, l !! i = Some x ∧ l !! j = Some y ∧ CMP cmp i j l = Ok (cmp x y).
Proof.
  intros Hi Hj. destruct (get_ok i l Hi) as (x & Ex & Hx), (get_ok j l Hj) as (y & Ey & Hy).
  exists x, y. unfold CMP. rewrite Ex. cbn [mbind outcome_bind]. by rewrite Ey.
Qed.

(** Replaces a comparison of two pointers by the comparison of the elements. *)
Ltac compare i j l x y Hx Hy :=
  let E := fresh "E" in
  destruct (CMP_ok i j l) as (x & y & Hx & Hy & E); [lia|lia|];
  rewrite E; clear E; cbn [mbind outcome_bind].

Lemma med3_ok a b c l n :
  (a < n)%nat → (b < n)%nat → (c < n)%nat → (n ≤ length l)%nat →
  ∃ p, med3 cmp a b c l = Ok p ∧ (p = a ∨ p = b ∨ p = c).
Proof.
  intros Ha Hb Hc Hl. unfold med3.
  compare a b l x y Hx Hy. compare b c l x' y' Hx' Hy'. compare a c l x'' y'' Hx'' Hy''.
  repeat case_match; eauto.
Qed.

Lemma insert_down_ok a k l lo hi :
  (lo ≤ a)%nat → (a + k < hi)%nat → (hi ≤ length l)%nat →
  ∃ l', insert_down cmp a k l = Ok l' ∧ rearranged lo hi l l'.
Proof.
  revert l. induction k as [|k IH]; intros l Ha Hk Hl; cbn [insert_down].
  { eauto using rearranged_refl. }
  compare (a + k)%nat (a + S k)%nat l x y Hx Hy.
  destruct (0 <? cmp x y); [|eauto using rearranged_refl].
  destruct (swapfunc_rearranged lo hi (a + S k) (a + k) l) as (l1 & -> & R1 & _); [lia|lia|lia|].
  cbn [mbind outcome_bind].
  destruct (IH l1) as (l2 & -> & R2); [lia|lia|by rewrite (rearranged_length _ _ _ _ R1)|].
  eauto using rearranged_trans.
Qed.

Lemma insertion_loop_ok a k m l lo hi :
  (lo ≤ a)%nat → (a + k + m ≤ hi)%nat → (hi ≤ length l)%nat →
  ∃ l', insertion_loop cmp a k m l = Ok l' ∧ rearranged lo hi l l'.
Proof.
  revert k l. induction m as [|m IH]; intros k l Ha Hk Hl; cbn [insertion_loop].
  { eauto using rearranged_refl. }
  destruct (insert_down_ok a k l lo hi) as (l1 & -> & R1); [lia|lia|lia|]. cbn [mbind outcome_bind].
  destruct (IH (S k) l1) as (l2 & -> & R2); [lia|lia|by rewrite (rearranged_length _ _ _ _ R1)|].
  eauto using rearranged_trans.
Qed.

(** ** The partition

    The pivot [v] is at [a]; from there on the array holds elements equal to it
    (up to [pa]), below it (up to [pb]), not looked at (up to [pc]), above it (up
    to [pd]) and equal to it again. *)
Record part_ok (a n : nat) (v : A) (l0 : list A) (s : part) : Prop := {
  po_order : (a < pa s)%nat ∧ (pa s ≤ pb s)%nat ∧ (pb s ≤ pc s + 1)%nat ∧ (pc s ≤ pd s)%nat ∧
             (pd s < a + n)%nat;
  po_in : (a + n ≤ length (arr_ s))%nat;
  po_re : rearranged a (a + n) l0 (arr_ s);
  po_pivot : arr_ s !! a = Some v;
  po_eq1 : ∀ i x, (a < i < pa s)%nat → arr_ s !! i = Some x → cmp x v = 0;
  po_lt : ∀ i x, (pa s ≤ i < pb s)%nat → arr_ s !! i = Some x → cmp x v < 0;
  po_gt : ∀ i x, (pc s < i ≤ pd s)%nat → arr_ s !! i = Some x → 0 < cmp x v;
  po_eq2 : ∀ i x, (pd s < i < a + n)%nat → arr_ s !! i = Some x → cmp x v = 0
}.

(** Where the first scan stopped. *)
Definition stop_left (v : A) (s : part) : Prop :=
  (pb s ≤ pc s)%nat → ∀ x, arr_ s !! pb s = Some x → 0 < cmp x v.

Definition stop_right (v : A) (s : part) : Prop :=
  (pb s ≤ pc s)%nat → ∀ x, arr_ s !! pc s = Some x → cmp x v < 0.

(** Closes the cases of an invariant after an exchange described by [H]. *)
Ltac after_swap H :=
  intros;
  repeat match goal with
  | E : _ !! _ = Some _ |- _ => rewrite H in E; repeat case_decide; subst
  end;
  simplify_eq; try lia;
  try match goal with
  | E : _ !! ?i = Some ?x, F : ∀ (j : nat) y, _ → _ → _ |- _ => refine (F i x _ E); lia
  | E1 : ?l !! ?i = Some _, E2 : ?l !! ?j = Some _ |- _ =>
      replace i with j in E1 by lia; simplify_eq; lia
  end.

Lemma scan_left_run a n v l0 k s :
  part_ok a n v l0 s → k = (pc s + 1 - pb s)%nat →
  ∃ s', scan_left cmp a k s = Ok s' ∧ part_ok a n v l0 s' ∧ stop_left v s' ∧
    pc s' = pc s ∧ (pb s ≤ pb s')%nat.
Proof.
  revert s. induction k as [|k IH]; intros s I Hk; cbn [scan_left].
  { exists s. split_and!; [done..| |done|lia]. intros H. lia. }
  destruct s as [a1 b1 c1 d1 sw l]. destruct I as [Ho Hin Hre Hv He1 Hlt Hgt He2]. cbn in *.
  compare b1 a l x y Hx Hy. rewrite Hv in Hy. injection Hy as <-.
  destruct (Z.leb_spec (cmp x v) 0) as [Hle|Hgt'].
  2:{ exists (mkPart a1 b1 c1 d1 sw l). split_and!; cbn; [done|by split|intros _ z; naive_solver|done|lia]. }
  destruct (Z.eqb_spec (cmp x v) 0) as [Heq|Hne].
  - destruct (swapfunc_rearranged a (a + n) a1 b1 l) as (l1 & -> & R1 & H1); [lia|lia|lia|].
    cbn [mbind outcome_bind].
    destruct (IH (mkPart (S a1) (S b1) c1 d1 true l1)) as (s' & -> & I' & Hs' & Hc' & Hb'); cbn in *; [|lia|].
    + split; cbn; [lia|by rewrite (rearranged_length _ _ _ _ R1)|by eapply rearranged_trans| | | | |];
        [rewrite H1, !decide_False by lia; done|..]; after_swap H1.
    + exists s'. split_and!; auto with lia.
  - destruct (IH (mkPart a1 (S b1) c1 d1 sw l)) as (s' & -> & I' & Hs' & Hc' & Hb'); cbn in *; [|lia|].
    + split; cbn; auto with lia. intros i z Hi Hz. destruct (decide (i = b1)) as [->|]; [|by apply (Hlt i); [lia|]].
      simplify_eq. lia.
    + exists s'. split_and!; auto with lia.
Qed.

Lemma scan_right_run a n v l0 k s :
  part_ok a n v l0 s → stop_left v s → k = (pc s + 1 - pb s)%nat →
  ∃ s', scan_right cmp a k s = Ok s' ∧ part_ok a n v l0 s' ∧ stop_left v s' ∧ stop_right v s' ∧
    pb s' = pb s ∧ (pc s' ≤ pc s)%nat.
Proof.
  revert s. induction k as [|k IH]; intros s I Hst Hk; cbn [scan_right].
  { exists s. split_and!; [done..| |done|lia]. intros H. lia. }
  destruct s as [a1 b1 c1 d1 sw l]. unfold stop_left in Hst.
  destruct I as [Ho Hin Hre Hv He1 Hlt Hgt He2]. cbn in *.
  compare c1 a l x y Hx Hy. rewrite Hv in Hy. injection Hy as <-.
  destruct (Z.leb_spec 0 (cmp x v)) as [Hle|Hlt'].
  2:{ exists (mkPart a1 b1 c1 d1 sw l). split_and!; cbn; [done|by split|done|intros _ z; naive_solver|done|lia]. }
  destruct (Z.eqb_spec (cmp x v) 0) as [Heq|Hne].
  - destruct (swapfunc_rearranged a (a + n) c1 d1 l) as (l1 & -> & R1 & H1); [lia|lia|lia|].
    cbn [mbind outcome_bind].
    destruct (IH (mkPart a1 b1 (c1 - 1) (d1 - 1) true l1)) as (s' & -> & I' & Hs' & Hr' & Hb' & Hc');
      cbn in *; [| |lia|].
    + split; cbn; [lia|by rewrite (rearranged_length _ _ _ _ R1)|by eapply rearranged_trans| | | | |];
        [rewrite H1, !decide_False by lia; done|..]; after_swap H1.
    + unfold stop_left. cbn. intros H z. rewrite H1, !decide_False by lia. apply Hst. lia.
    + exists s'. split_and!; auto with lia.
  - destruct (IH (mkPart a1 b1 (c1 - 1) d1 sw l)) as (s' & -> & I' & Hs' & Hr' & Hb' & Hc');
      cbn in *; [| |lia|].
    + split; cbn; auto with lia. intros i z Hi Hz. destruct (decide (i = c1)) as [->|]; [|by apply (Hgt i); [lia|]].
      simplify_eq. lia.
    + unfold stop_left. cbn. intros H. apply Hst. lia.
    + exists s'. split_and!; auto with lia.
Qed.

Lemma partition_run a n v l0 fuel s :
  part_ok a n v l0 s → (pc s + 1 - pb s < fuel)%nat →
  ∃ s', partition cmp fuel a s = Ok s' ∧ part_ok a n v l0 s' ∧ pb s' = (pc s' + 1)%nat.
Proof.
  revert s. induction fuel as [|fuel IH]; intros s I Hf; [lia|]. cbn [partition].
  destruct (scan_left_run a n v l0 _ s I eq_refl) as (s1 & -> & I1 & L1 & Hc1 & Hb1). cbn [mbind outcome_bind].
  destruct (scan_right_run a n v l0 _ s1 I1 L1 eq_refl) as (s2 & -> & I2 & L2 & R2 & Hb2 & Hc2).
  cbn [mbind outcome_bind].
  destruct (Nat.ltb_spec (pc s2) (pb s2)) as [H|H].
  { exists s2. split_and!; [done..|]. destruct I2 as [Ho _ _ _ _ _ _ _]. lia. }
  specialize (L2 H). specialize (R2 H). destruct s2 as [a1 b1 c1 d1 sw l].
  destruct I2 as [Ho Hin Hre Hv He1 Hlt Hgt He2]. cbn in *.
  destruct (lookup_lt_is_Some_2 l b1) as [x Hx]; [lia|].
  destruct (lookup_lt_is_Some_2 l c1) as [y Hy]; [lia|].
  specialize (L2 x Hx). specialize (R2 y Hy).
  assert (b1 ≠ c1) by (intros ->; simplify_eq; lia).
  destruct (swapfunc_rearranged a (a + n) b1 c1 l) as (l1 & -> & R1 & H1); [lia|lia|lia|].
  cbn [mbind outcome_bind]. apply IH; [|cbn; lia].
  split; cbn; [lia|by rewrite (rearranged_length _ _ _ _ R1)|by eapply rearranged_trans| | | | |];
    [rewrite H1, !decide_False by lia; done|..]; after_swap H1.
Qed.

Lemma choose_pivot_ok a n l :
  (7 ≤ n)%nat → (a + n ≤ length l)%nat → ∃ p, choose_pivot cmp a n l = Ok p ∧ (a ≤ p < a + n)%nat.
Proof.
  intros Hn Hl. unfold choose_pivot. assert (n / 2 < n)%nat by (apply Nat.div_lt; lia).
  destruct (Nat.ltb_spec 7 n); [|exists (a + n / 2)%nat; split; [done|lia]].
  assert (∃ pl pm pn, (if (40 <? n)%nat then
      pl ← med3 cmp a (a + n / 8) (a + 2 * (n / 8)) l;
      pm ← med3 cmp (a + n / 2 - n / 8) (a + n / 2) (a + n / 2 + n / 8) l;
      pn ← med3 cmp (a + (n - 1) - 2 * (n / 8)) (a + (n - 1) - n / 8) (a + (n - 1)) l;
      Ok (pl, pm, pn)
    else Ok (a, (a + n / 2)%nat, (a + (n - 1))%nat)) = Ok (pl, pm, pn) ∧
    (a ≤ pl < a + n)%nat ∧ (a ≤ pm < a + n)%nat ∧ (a ≤ pn < a + n)%nat) as (pl & pm & pn & -> & H1 & H2 & H3).
  { destruct (40 <? n)%nat; [|eexists _, _, _; split; [done|lia]].
    assert (8 * (n / 8) ≤ n)%nat by (apply Nat.Div0.mul_div_le).
    assert (2 * (n / 2) ≤ n)%nat by (apply Nat.Div0.mul_div_le).
    assert (n / 8 ≤ n / 2)%nat by (apply Nat.div_le_compat_l; lia).
    destruct (med3_ok a (a + n / 8) (a + 2 * (n / 8)) l (a + n)) as (pl & -> & Hpl); [lia..|].
    destruct (med3_ok (a + n / 2 - n / 8) (a + n / 2) (a + n / 2 + n / 8) l (a + n)) as (pm & Em & Hpm); [lia..|].
    destruct (med3_ok (a + (n - 1) - 2 * (n / 8)) (a + (n - 1) - n / 8) (a + (n - 1)) l (a + n))
      as (pn & En & Hpn); [lia..|].
    cbn [mbind outcome_bind]. rewrite Em. cbn [mbind outcome_bind]. rewrite En.
    exists pl, pm, pn. split; [done|]. lia. }
  cbn [mbind outcome_bind]. destruct (med3_ok pl pm pn l (a + n)) as (p & -> & Hp); [lia..|].
  exists p. split; [done|]. destruct Hp as [->|[->| ->]]; done.
Qed.

Lemma split_run a n l :
  (7 ≤ n)%nat → (a + n ≤ length l)%nat →
  ∃ v s, split cmp a n l = Ok s ∧ part_ok a n v l s ∧ pb s = (pc s + 1)%nat.
Proof.
  intros Hn Hl. unfold split. destruct (choose_pivot_ok a n l Hn Hl) as (p & -> & Hp).
  cbn [mbind outcome_bind].
  destruct (swapfunc_rearranged a (a + n) a p l) as (l1 & -> & R1 & H1); [lia|lia|lia|].
  cbn [mbind outcome_bind]. pose proof (rearranged_length _ _ _ _ R1).
  destruct (lookup_lt_is_Some_2 l1 a) as [v Hv]; [lia|]. exists v.
  apply partition_run; [|cbn; lia]. split; cbn; try done; lia || (intros; lia).
Qed.

(** The three parts after the equal elements are gathered. *)
Definition three_parts (a n d1 d2 : nat) (v : A) l : Prop :=
  (∀ i x, (a ≤ i < a + d1)%nat → l !! i = Some x → cmp x v < 0) ∧
  (∀ i x, (a + d1 ≤ i < a + n - d2)%nat → l !! i = Some x → x = v ∨ cmp x v = 0) ∧
  (∀ i x, (a + n - d2 ≤ i < a + n)%nat → l !! i = Some x → 0 < cmp x v).

(** Two neighbouring blocks [lo, mid) and [mid, hi) change places, up to order. *)
Lemma rotate_run (P Q : A → Prop) lo mid hi b e l :
  (b ≤ lo)%nat → (lo ≤ mid)%nat → (mid ≤ hi)%nat → (hi ≤ e)%nat → (e ≤ length l)%nat →
  (∀ i x, (lo ≤ i < mid)%nat → l !! i = Some x → P x) →
  (∀ i x, (mid ≤ i < hi)%nat → l !! i = Some x → Q x) →
  let m := Nat.min (mid - lo) (hi - mid) in
  ∃ l', vecswap m lo (hi - m) l = Ok l' ∧ rearranged b e l l' ∧
    (∀ i x, (lo ≤ i < lo + (hi - mid))%nat → l' !! i = Some x → Q x) ∧
    (∀ i x, (lo + (hi - mid) ≤ i < hi)%nat → l' !! i = Some x → P x) ∧
    (∀ i, ¬ (lo ≤ i < hi)%nat → l' !! i = l !! i).
Proof.
  intros H1 H2 H3 H4 H5 HP HQ m.
  assert (m = mid - lo ∧ mid - lo ≤ hi - mid ∨ m = hi - mid ∧ hi - mid ≤ mid - lo)%nat as Hm by lia.
  clearbody m.
  destruct (vecswap_run b e m lo (hi - m) l) as (l' & E & R & H); [lia|lia|lia|lia|].
  exists l'. split; [done|]. split; [done|].
  split_and!; intros i; rewrite H.
  - intros x Hi. case_decide; [intros Hx; refine (HQ _ x _ Hx); lia|]. rewrite decide_False by lia.
    intros Hx. refine (HQ _ x _ Hx). lia.
  - intros x Hi. case_decide; [lia|]. case_decide; intros Hx; refine (HP _ x _ Hx); lia.
  - intros Hi. by rewrite !decide_False by lia.
Qed.

Lemma gather_run a n v l0 s :
  part_ok a n v l0 s → pb s = (pc s + 1)%nat →
  ∃ l', gather a n s = Ok l' ∧ rearranged a (a + n) l0 l' ∧
    three_parts a n (pb s - pa s) (pd s - pc s) v l'.
Proof.
  destruct s as [a1 b1 c1 d1 sw l]. intros [Ho Hin Hre Hv He1 Hlt Hgt He2] Hb. unfold gather. cbn in *.
  destruct (rotate_run (λ x, x = v ∨ cmp x v = 0) (λ x, cmp x v < 0) a a1 b1 a (a + n) l)
    as (l1 & -> & R1 & HQ1 & HP1 & Hu1); [lia|lia|lia|lia|lia| |done|].
  { intros i x Hi Hx. destruct (decide (i = a)) as [->|]; [left; congruence|right]. apply (He1 i); [lia|done]. }
  cbn [mbind outcome_bind]. pose proof (rearranged_length _ _ _ _ R1) as Hl1.
  replace (d1 - c1)%nat with (d1 + 1 - b1)%nat by lia.
  replace (a + n - d1 - 1)%nat with (a + n - (d1 + 1))%nat by lia.
  destruct (rotate_run (λ x, 0 < cmp x v) (λ x, cmp x v = 0) b1 (d1 + 1) (a + n) a (a + n) l1)
    as (l2 & -> & R2 & HQ2 & HP2 & Hu2); [lia|lia|lia|lia|lia| | |].
  { intros i x Hi. rewrite Hu1 by lia. apply Hgt. lia. }
  { intros i x Hi. rewrite Hu1 by lia. apply He2. lia. }
  exists l2. split; [done|]. split; [by eauto using rearranged_trans|]. split_and!.
  - intros i x Hi. rewrite Hu2 by lia. apply HQ1. lia.
  - intros i x Hi. destruct (decide (i < b1)%nat).
    + rewrite Hu2 by lia. apply HP1. lia.
    + intros Hx. right. refine (HQ2 i x _ Hx). lia.
  - intros i x Hi. apply HP2. lia.
Qed.

(** ** The whole sort: inside the array, terminating, a rearrangement *)

Lemma insertion_sort_ok a n l :
  (0 < n)%nat → (a + n ≤ length l)%nat →
  ∃ l', insertion_sort cmp a n l = Ok l' ∧ rearranged a (a + n) l l'.
Proof. intros Hn Hl. apply insertion_loop_ok; lia. Qed.
End Safety.

(** * A comparison function that is a total preorder *)

Section Order.
Context {A : Type} (cmp : A → A → Z).
Implicit Types l : list A.

Record cmp_ordered : Prop := {
  co_opp : ∀ x y, cmp x y < 0 ↔ 0 < cmp y x;
  co_trans : ∀ x y z, cmp x y ≤ 0 → cmp y z ≤ 0 → cmp x z ≤ 0
}.

Definition sorted_range l (lo hi : nat) : Prop :=
  ∀ i j x y, (lo ≤ i)%nat → (i < j)%nat → (j < hi)%nat →
    l !! i = Some x → l !! j = Some y → cmp x y ≤ 0.

Lemma sorted_range_short l lo hi : (hi ≤ lo + 1)%nat → sorted_range l lo hi.
Proof. intros H i j x y. lia. Qed.

Lemma sorted_range_StronglySorted l :
  sorted_range l 0 (length l) → StronglySorted (λ x y, cmp x y ≤ 0) l.
Proof.
  intros Hs. induction l as [|x l IH]; [constructor|]. constructor.
  - apply IH. intros i j y z Hi Hij Hj Ey Ez. refine (Hs (S i) (S j) y z _ _ _ Ey Ez); cbn; lia.
  - apply Forall_forall. intros y [j Hj]%list_elem_of_lookup.
    refine (Hs 0%nat (S j) x y _ _ _ eq_refl Hj); [lia|lia|]. apply lookup_lt_Some in Hj. cbn. lia.
Qed.

(** Rearranging elsewhere. *)
Lemma sorted_range_frame l l' lo hi lo' hi' :
  rearranged lo' hi' l l' → (hi ≤ lo' ∨ hi' ≤ lo)%nat → sorted_range l lo hi → sorted_range l' lo hi.
Proof.
  intros [_ O _] Hd Hs i j x y Hi Hij Hj. rewrite !O by lia. by apply Hs.
Qed.

(** Sorted but for the place of the element at [a + k]. *)
Definition sorted_but l (a k hi : nat) : Prop :=
  ∀ i j x y, (a ≤ i)%nat → (i < j)%nat → (j < hi)%nat → j ≠ (a + k)%nat →
    l !! i = Some x → l !! j = Some y → cmp x y ≤ 0.

Lemma insert_down_sorted a k l l' hi :
  cmp_ordered → (a + k < hi)%nat → (hi ≤ length l)%nat → sorted_but l a k hi →
  insert_down cmp a k l = Ok l' → sorted_range l' a hi.
Proof.
  intros [Hopp Htr]. revert l. induction k as [|k IH]; intros l Hk Hl Hs; cbn [insert_down].
  { intros [= <-] i j x y Hi Hij Hj. apply Hs; lia. }
  destruct (CMP_ok cmp (a + k) (a + S k) l) as (x0 & y0 & Hx0 & Hy0 & ->); [lia|lia|].
  cbn [mbind outcome_bind]. destruct (Z.ltb_spec 0 (cmp x0 y0)) as [Hgt|Hle].
  - destruct (swapfunc_rearranged a hi (a + S k) (a + k) l) as (l1 & -> & R1 & H1); [lia|lia|lia|].
    cbn [mbind outcome_bind]. apply IH; [lia|by rewrite (rearranged_length _ _ _ _ R1)|].
    assert (cmp y0 x0 ≤ 0) by (apply Hopp in Hgt; lia).
    intros i j x y Hi Hij Hj Hne. rewrite !H1. repeat case_decide; try lia; intros Ex Ey;
      (by simplify_eq) ||
      (match goal with
       | E1 : l !! ?i1 = Some x, E2 : l !! ?j1 = Some y |- _ => refine (Hs i1 j1 x y _ _ _ _ E1 E2); lia
       end).
  - intros [= <-] i j x y Hi Hij Hj Ex Ey. destruct (decide (j = (a + S k)%nat)) as [->|Hne].
    + simplify_eq. destruct (decide (i = (a + k)%nat)) as [->|Hi']; [by simplify_eq|].
      apply (Htr _ x0); [|done]. refine (Hs i (a + k)%nat x x0 _ _ _ _ Ex Hx0); lia.
    + by eapply (Hs i j).
Qed.

Lemma insertion_loop_sorted a k m l l' :
  cmp_ordered → (a + k + m ≤ length l)%nat → sorted_range l a (a + k) →
  insertion_loop cmp a k m l = Ok l' → sorted_range l' a (a + k + m).
Proof.
  intros Ho. revert k l. induction m as [|m IH]; intros k l Hl Hs; cbn [insertion_loop].
  { intros [= <-]. by rewrite Nat.add_0_r. }
  destruct (insert_down_ok cmp a k l a (a + k + 1)) as (l1 & E1 & R1); [lia|lia|lia|].
  rewrite E1. cbn [mbind outcome_bind]. intros E.
  replace (a + k + S m)%nat with (a + S k + m)%nat by lia. apply (IH _ l1); [|replace (a + S k)%nat with (a + k + 1)%nat by lia|done].
  - rewrite (rearranged_length _ _ _ _ R1). lia.
  - eapply (insert_down_sorted a k l); [done|lia|lia| |done].
    intros i j x y Hi Hij Hj Hne. apply Hs; lia.
Qed.

Lemma three_parts_rearranged a n d1 d2 v l l' lo hi :
  (d1 + d2 ≤ n)%nat → lo = a ∧ hi = (a + d1)%nat ∨ lo = (a + n - d2)%nat ∧ hi = (a + n)%nat →
  three_parts cmp a n d1 d2 v l → rearranged lo hi l l' → three_parts cmp a n d1 d2 v l'.
Proof.
  intros Hd Hr (H1 & H2 & H3) [_ O I].
  split; [|split]; intros i x Hi Hx;
    (destruct (decide (lo ≤ i < hi)%nat) as [Hin|Hout];
      [destruct (I i Hin) as (j & Hj & E); rewrite E in Hx|rewrite (O i Hout) in Hx]).
  - apply (H1 j x); [lia|done].
  - apply (H1 i x); [lia|done].
  - lia.
  - apply (H2 i x); [lia|done].
  - apply (H3 j x); [lia|done].
  - apply (H3 i x); [lia|done].
Qed.

Lemma three_parts_sorted a n d1 d2 v l :
  cmp_ordered → (d1 + d2 ≤ n)%nat → three_parts cmp a n d1 d2 v l →
  sorted_range l a (a + d1) → sorted_range l (a + n - d2) (a + n) → sorted_range l a (a + n).
Proof.
  intros [Hopp Htr] Hd (H1 & H2 & H3) S1 S3 i j x y Hi Hij Hj Ex Ey.
  assert (cmp v v = 0) as Hvv by (pose proof (Hopp v v); lia).
  destruct (decide (j < a + d1)%nat); [by apply (S1 i j)|].
  destruct (decide (a + n - d2 ≤ i)%nat); [by apply (S3 i j)|].
  apply (Htr _ v).
  - destruct (decide (i < a + d1)%nat).
    + assert (cmp x v < 0) by (apply (H1 i x); [lia|done]). lia.
    + destruct (H2 i x) as [->|]; [lia|done|lia|lia].
  - pose proof (Hopp y v) as Hyv. destruct (decide (j < a + n - d2)%nat).
    + destruct (H2 j y) as [->|]; [lia|done|lia|lia].
    + assert (0 < cmp y v) by (apply (H3 j y); [lia|done]). lia.
Qed.

(** What a call on [n] elements from [a] on promises. *)
Definition sorts (run : list A → outcome (list A)) (a n : nat) l : Prop :=
  ∃ l', run l = Ok l' ∧ rearranged a (a + n) l l' ∧ (cmp_ordered → sorted_range l' a (a + n)).

Lemma insertion_sort_sorts a n l :
  (0 < n)%nat → (a + n ≤ length l)%nat → sorts (insertion_sort cmp a n) a n l.
Proof.
  intros Hn Hl. destruct (insertion_sort_ok cmp a n l Hn Hl) as (l' & E & R).
  exists l'. split_and!; [done..|]. intros Ho. unfold insertion_sort in E.
  replace (a + n)%nat with (a + 1 + (n - 1))%nat by lia.
  eapply insertion_loop_sorted; [done| | |done]; [lia|]. apply sorted_range_short. lia.
Qed.

(** A part with fewer than two elements is left alone. *)
Lemma part_sorts fuel a d l :
  (∀ a n l, (2 ≤ n ≤ fuel)%nat → (a + n ≤ length l)%nat → sorts (qsort_loop cmp fuel a n) a n l) →
  (d ≤ fuel)%nat → (a + d ≤ length l)%nat →
  sorts (λ l, if (1 <? d)%nat then qsort_loop cmp fuel a d l else Ok l) a d l.
Proof.
  intros IH Hd Hl. unfold sorts. destruct (Nat.ltb_spec 1 d); [by apply IH|].
  exists l. split_and!; [done|apply rearranged_refl|]. intros _. apply sorted_range_short. lia.
Qed.

(** Both parts sorted one after the other, in either order. *)
Lemma both_parts a n d1 d2 v l run1 run2 :
  three_parts cmp a n d1 d2 v l → (d1 + d2 ≤ n)%nat → (a + n ≤ length l)%nat →
  (∀ l, (a + n ≤ length l)%nat → sorts run1 a d1 l) →
  (∀ l, (a + n ≤ length l)%nat → sorts run2 (a + n - d2) d2 l) →
  sorts (λ l, l ← run1 l; run2 l) a n l ∧ sorts (λ l, l ← run2 l; run1 l) a n l.
Proof.
  intros H3 Hd Hl S1 S2. assert (a + n - d2 + d2 = a + n)%nat as Hn by lia. split.
  - destruct (S1 l Hl) as (l1 & E1 & R1 & O1). pose proof (rearranged_length _ _ _ _ R1) as Hl1.
    destruct (S2 l1) as (l2 & E2 & R2 & O2); [lia|]. rewrite Hn in R2, O2.
    exists l2. rewrite E1. split; [done|]. split.
    + eapply rearranged_trans; eapply rearranged_weaken; [| |exact R1| | |exact R2]; lia.
    + intros Ho. eapply three_parts_sorted; [done|exact Hd| | |by apply O2].
      * eapply three_parts_rearranged; [done| | |exact R2]; [lia|].
        eapply three_parts_rearranged; [done| |done|exact R1]. lia.
      * eapply sorted_range_frame; [exact R2|lia|by apply O1].
  - destruct (S2 l Hl) as (l1 & E1 & R1 & O1). pose proof (rearranged_length _ _ _ _ R1) as Hl1.
    destruct (S1 l1) as (l2 & E2 & R2 & O2); [lia|]. rewrite Hn in R1, O1.
    exists l2. rewrite E1. split; [done|]. split.
    + eapply rearranged_trans; eapply rearranged_weaken; [| |exact R1| | |exact R2]; lia.
    + intros Ho. eapply three_parts_sorted; [done|exact Hd| |by apply O2|].
      * eapply three_parts_rearranged; [done| | |exact R2]; [lia|].
        eapply three_parts_rearranged; [done| |done|exact R1]. lia.
      * eapply sorted_range_frame; [exact R2|lia|by apply O1].
Qed.

Lemma sorts_after (run : list A → outcome (list A)) a n l l1 :
  rearranged a (a + n) l l1 → sorts run a n l1 →
  ∃ l', run l1 = Ok l' ∧ rearranged a (a + n) l l' ∧ (cmp_ordered → sorted_range l' a (a + n)).
Proof. intros R (l' & E & R' & O). exists l'. eauto using rearranged_trans. Qed.

Lemma qsort_loop_sorts fuel a n l :
  (2 ≤ n ≤ fuel)%nat → (a + n ≤ length l)%nat → sorts (qsort_loop cmp fuel a n) a n l.
Proof.
  revert a n l. induction fuel as [|fuel IH]; intros a n l Hn Hl; [lia|].
  unfold sorts. cbn [qsort_loop]. destruct (Nat.ltb_spec n 7); [apply insertion_sort_sorts; lia|].
  destruct (split_run cmp a n l) as (v & s & -> & I & Hb); [lia|done|]. cbn [mbind outcome_bind].
  pose proof (po_order _ _ _ _ _ _ I) as Ho. pose proof (po_re _ _ _ _ _ _ I) as Hr.
  pose proof (po_in _ _ _ _ _ _ I) as Hin.
  destruct (swap_cnt s); cbn [negb].
  2:{ apply sorts_after; [done|]. apply insertion_sort_sorts; lia. }
  destruct (gather_run cmp a n v l s I Hb) as (l1 & -> & R1 & H3). cbn [mbind outcome_bind].
  pose proof (rearranged_length _ _ _ _ R1) as Hl1.
  destruct (both_parts a n (pb s - pa s) (pd s - pc s) v l1
    (λ l, if (1 <? pb s - pa s)%nat then qsort_loop cmp fuel a (pb s - pa s) l else Ok l)
    (λ l, if (1 <? pd s - pc s)%nat
          then qsort_loop cmp fuel (a + n - (pd s - pc s)) (pd s - pc s) l else Ok l)) as [B1 B2];
    [done|lia|lia|intros; apply part_sorts; [done|lia|lia]..|].
  destruct (pb s - pa s <=? pd s - pc s)%nat.
  - exact (sorts_after _ a n l l1 R1 B1).
  - exact (sorts_after _ a n l l1 R1 B2).
Qed.

Lemma local_qsort_sorts a n l : (a + n ≤ length l)%nat → sorts (local_qsort cmp a n) a n l.
Proof.
  intros Hl. unfold local_qsort, sorts. destruct (Nat.ltb_spec n 2); [|by apply qsort_loop_sorts].
  exists l. split_and!; [done|apply rearranged_refl|]. intros _. apply sorted_range_short. lia.
Qed.
End Order.

(** C28. [qsort] sorts.  For every array and every comparison function, consistent
    or not, it ends, reads and writes only elements of the array, and leaves the
    same elements; when the function is a total preorder, no element of the result
    is greater than a later one. *)
Theorem qsort_sorts {A} (cmp : A → A → Z) (arr : list A) :
  ∃ arr', qsort cmp arr = Ok arr' ∧ arr' ≡ₚ arr ∧ (cmp_ordered cmp → StronglySorted (λ x y, cmp x y ≤ 0) arr').
Proof.
  destruct (local_qsort_sorts cmp 0 (length arr) arr) as (l' & E & R & Hs); [done|].
  exists l'. split; [done|]. split; [by destruct R|]. intros Ho. apply sorted_range_StronglySorted.
  rewrite (rearranged_length _ _ _ _ R). by apply Hs.
Qed.

Lemma Zsub_ordered : cmp_ordered Z.sub.
Proof. split; intros; lia. Qed.

Lemma qsort_sorts_witness :
  ∃ arr', qsort Z.sub [3; 1; 2; 1; 9; 4; 4; 0] = Ok arr' ∧ arr' ≡ₚ [3; 1; 2; 1; 9; 4; 4; 0] ∧
    StronglySorted (λ x y, Z.sub x y ≤ 0) arr'.
Proof.
  destruct (qsort_sorts Z.sub [3; 1; 2; 1; 9; 4; 4; 0]) as (arr' & E & HP & Hs). exists arr'. split; [exact E|]. split; [exact HP|exact (Hs Zsub_ordered)].
Defined.

(** * Binary search *)

Section Search.
Context {A K : Type} (compar : K → A → Z) (key : K).

(** The array is in order for the key: first the elements below it, then those
    equal to it, then those above. *)
Definition in_order (arr : list A) : Prop :=
  ∀ i j x y, (i < j)%nat → arr !! i = Some x → arr !! j = Some y →
    (compar key x ≤ 0 → compar key y ≤ 0) ∧ (compar key x < 0 → compar key y < 0).

(** Elements outside [base, base + lim) have been ruled out. *)
Lemma bsearch_loop_run arr fuel b lim :
  in_order arr → (lim < fuel)%nat → (b + lim ≤ length arr)%nat →
  (∀ i x, (i < b ∨ b + lim ≤ i)%nat → arr !! i = Some x → compar key x ≠ 0) →
  match bsearch_loop compar key arr fuel b lim with
  | Ok (Some p) => ∃ x, arr !! p = Some x ∧ compar key x = 0
  | Ok None => ∀ x, x ∈ arr → compar key x ≠ 0
  | _ => False
  end.
Proof.
  intros Hord. revert b lim. induction fuel as [|fuel IH]; intros b lim Hf Hb Hout; [lia|].
  cbn [bsearch_loop]. destruct (Nat.eqb_spec lim 0) as [->|Hlim].
  { intros x [i Hi]%list_elem_of_lookup. apply (Hout i x); [lia|done]. }
  assert (lim / 2 < lim)%nat by (apply Nat.div_lt; lia).
  assert (2 * ((lim - 1) / 2) ≤ lim - 1)%nat by apply Nat.Div0.mul_div_le.
  pose proof (Nat.div_mod_eq lim 2). pose proof (Nat.mod_upper_bound lim 2).
  pose proof (Nat.div_mod_eq (lim - 1) 2). pose proof (Nat.mod_upper_bound (lim - 1) 2).
  destruct (get_ok (b + lim / 2) arr) as (x & -> & Hx); [lia|]. cbn [mbind outcome_bind].
  destruct (Z.eqb_spec (compar key x) 0) as [E|E]; [by exists x|].
  destruct (Z.ltb_spec 0 (compar key x)) as [Hgt|Hlt].
  - apply IH; [lia|lia|]. intros i y Hi Hy. destruct (decide (b + lim ≤ i)%nat); [by apply (Hout i); [lia|]|].
    destruct (decide (i = b + lim / 2)%nat) as [->|]; [by simplify_eq|].
    destruct (Hord i (b + lim / 2)%nat y x) as [Hlow _]; [lia|done|done|]. lia.
  - apply IH; [lia|lia|]. intros i y Hi Hy. destruct (decide (i < b)%nat); [by apply (Hout i); [lia|]|].
    destruct (decide (i = b + lim / 2)%nat) as [->|]; [by simplify_eq|].
    destruct (Hord (b + lim / 2)%nat i x y) as [_ Hhigh]; [lia|done|done|]. lia.
Qed.
End Search.

(** [bsearch] finds.  On an array in order for the key it ends without
    reading outside the array; it answers an element equal to the key when there
    is one, and NULL only when there is none. *)
Lemma bsearch_correct {A K} (compar : K → A → Z) (key : K) (arr : list A) :
  in_order compar key arr →
  match bsearch compar key arr with
  | Ok (Some p) => ∃ x, arr !! p = Some x ∧ compar key x = 0
  | Ok None => ∀ x, x ∈ arr → compar key x ≠ 0
  | _ => False
  end.
Proof.
  intros Ho. apply (bsearch_loop_run compar key arr); [done|lia|lia|].
  intros i x Hi Hx. apply lookup_lt_Some in Hx. lia.
Qed.

Lemma bsearch_correct_witness :
  ∃ x, [1; 3; 5; 7] !! 2%nat = Some x ∧ Z.sub 5 x = 0.
Proof.
  apply (bsearch_correct Z.sub 5 [1; 3; 5; 7]). intros i j x y Hij Hx Hy.
  assert (x ≤ y); [|lia].
  destruct i as [|[|[|[|i]]]], j as [|[|[|[|j]]]]; cbn in *; simplify_eq; lia.
Defined.
