(* ===== verification/Heapsort.v ===== *)
(** Heapsort in the C library (src/system/libroot/posix/stdlib/heapsort.c).

    Items are numbered from 1 as in the source: item [i] is element [i - 1] of the
    list.  The element size is the unit, as in [Sort]. *)

From Stdlib Require Import Sorting.Sorted ZifyNat.
From S2P Require Import Prelude Errors Sort.

Section Heap.
Context {A : Type} (cmp : A → A → Z).

Definition item (i : nat) (arr : list A) : outcome A := get (i - 1) arr.

(** [COMPAR] of two items. *)
Definition COMPAR (i j : nat) (arr : list A) : outcome Z := CMP cmp (i - 1) (j - 1) arr.

(** [COPY(item i, x)]. *)
Definition COPY (i : nat) (x : A) (arr : list A) : list A := <[(i - 1)%nat := x]> arr.

(** [if (child_i < nmemb && COMPAR(child, child + size) < 0) ++child_i;]. *)
Definition larger_child (child nmemb : nat) (arr : list A) : outcome nat :=
  if (child <? nmemb)%nat then
    c ← COMPAR child (child + 1) arr;
    Ok (if c <? 0 then (child + 1)%nat else child)
  else Ok child.

(** [CREATE(initval, nmemb, ...)], from the parent [par] on. *)
Fixpoint CREATE (fuel par nmemb : nat) (arr : list A) : outcome (list A) :=
  match fuel with
  | O => Hang
  | S fuel =>
      let child := (par * 2)%nat in
      if (child <=? nmemb)%nat then
        child ← larger_child child nmemb arr;
        c ← COMPAR child par arr;
        if c <=? 0 then Ok arr
        else
          arr ← swapfunc (par - 1) (child - 1) arr;
          CREATE fuel child nmemb arr
      else Ok arr
  end.

(** The first loop of [SELECT]: the place at the bottom, and the array. *)
Fixpoint SELECT_down (fuel par nmemb : nat) (arr : list A) : outcome (nat * list A) :=
  match fuel with
  | O => Hang
  | S fuel =>
      let child := (par * 2)%nat in
      if (child <=? nmemb)%nat then
        child ← larger_child child nmemb arr;
        x ← item child arr;
        SELECT_down fuel child nmemb (COPY par x arr)
      else Ok (par, arr)
  end.

(** The second loop: from the place [child] upwards. *)
Fixpoint SELECT_up (fuel child : nat) (k : A) (arr : list A) : outcome (list A) :=
  match fuel with
  | O => Hang
  | S fuel =>
      let par := (child / 2)%nat in
      if (child =? 1)%nat then Ok (COPY child k arr)
      else
        x ← item par arr;
        if cmp k x <? 0 then Ok (COPY child k arr)
        else SELECT_up fuel par k (COPY child x arr)
  end.

Definition SELECT (nmemb : nat) (k : A) (arr : list A) : outcome (list A) :=
  '(place, arr) ← SELECT_down (S nmemb) 1 nmemb arr;
  SELECT_up (S place) place k arr.

(** [for (l = nmemb / 2 + 1; --l;) CREATE(l, ...)], [l] turns being left. *)
Fixpoint create_loop (l nmemb : nat) (arr : list A) : outcome (list A) :=
  match l with
  | O => Ok arr
  | S l' => arr ← CREATE (S nmemb) l nmemb arr; create_loop l' nmemb arr
  end.

(** [while (nmemb > 1)]. *)
Fixpoint select_loop (nmemb : nat) (arr : list A) : outcome (list A) :=
  match nmemb with
  | O => Ok arr
  | S n =>
      if (1 <? nmemb)%nat then
        k ← item nmemb arr;
        top ← item 1 arr;
        arr ← SELECT n k (COPY nmemb top arr);
        select_loop n arr
      else Ok arr
  end.

(** The value returned, what it sets [errno] to (0 when it sets nothing) and the
    array; [mem] is whether [malloc(size)] succeeds. *)
Definition heapsort (mem : bool) (size : Z) (arr : list A) : outcome (Z * Z * list A) :=
  let nmemb := length arr in
  if (nmemb <=? 1)%nat then Ok (0, 0, arr)
  else if size =? 0 then Ok (-1, EINVAL, arr)
  else if negb mem then Ok (-1, 0, arr)
  else
    arr ← create_loop (nmemb / 2) nmemb arr;
    arr ← select_loop nmemb arr;
    Ok (0, 0, arr).
End Heap.

Example heapsort_nine :
  heapsort Z.sub true 8 [5; 3; 9; 1; 5; 2; 8; 0; 7] = Ok (0, 0, [0; 1; 2; 3; 5; 5; 7; 8; 9]).
Proof. vm_compute. reflexivity. Qed.

(** * The heap property *)

#[local] Ltac Zify.zify_post_hook ::= Z.to_euclidean_division_equations.

Section HeapOrder.
Context {A : Type} (cmp : A → A → Z) (Ho : cmp_ordered cmp).
Implicit Types l : list A.

Definition it l (i : nat) : option A := l !! (i - 1)%nat.

(** Item [i] is not below item [j]. *)
Definition ge l (i j : nat) : Prop := ∀ x y, it l i = Some x → it l j = Some y → cmp y x ≤ 0.

Lemma cmp_refl x : cmp x x = 0.
Proof. pose proof (co_opp _ Ho x x). lia. Qed.

Lemma cmp_flip x y : 0 ≤ cmp x y → cmp y x ≤ 0.
Proof. intros. pose proof (co_opp _ Ho x y). lia. Qed.

Lemma ge_refl l i : ge l i i.
Proof. intros x y E1 E2. simplify_eq. by rewrite cmp_refl. Qed.

Lemma it_valid l i : (1 ≤ i ≤ length l)%nat → ∃ x, it l i = Some x ∧ item i l = Ok x.
Proof. intros Hi. destruct (get_ok (i - 1) l) as (x & E & H); [lia|]. by exists x. Qed.

Lemma ge_trans l i j m : (1 ≤ j ≤ length l)%nat → ge l i j → ge l j m → ge l i m.
Proof.
  intros Hj H1 H2 x z Ex Ez. destruct (it_valid l j Hj) as (y & Ey & _).
  apply (co_trans _ Ho _ y); [by apply H2|by apply H1].
Qed.

Lemma ge_ext l l' i j i' j' : it l' i' = it l i → it l' j' = it l j → ge l i j → ge l' i' j'.
Proof. intros E1 E2 H x y. rewrite E1, E2. apply H. Qed.

Lemma it_COPY l i j x :
  (1 ≤ i ≤ length l)%nat → (1 ≤ j)%nat → it (COPY i x l) j = if decide (j = i) then Some x else it l j.
Proof.
  intros Hi Hj. unfold it, COPY. case_decide as E.
  - subst. apply list_lookup_insert_eq. lia.
  - apply list_lookup_insert_ne. lia.
Qed.

Lemma larger_child_run l p n :
  (1 ≤ p)%nat → (p * 2 ≤ n)%nat → (n ≤ length l)%nat →
  ∃ c, larger_child cmp (p * 2) n l = Ok c ∧ (c / 2 = p)%nat ∧ (p < c ≤ n)%nat ∧
    ∀ j, (j / 2 = p)%nat → (1 ≤ j ≤ n)%nat → ge l c j.
Proof.
  intros Hp Hn Hl. unfold larger_child. destruct (Nat.ltb_spec (p * 2) n) as [H|H].
  - unfold COMPAR. destruct (CMP_ok cmp (p * 2 - 1) (p * 2 + 1 - 1) l) as (x & y & Hx & Hy & ->); [lia|lia|].
    cbn [mbind outcome_bind]. destruct (Z.ltb_spec (cmp x y) 0) as [Hlt|Hge]; eexists; (split; [done|]);
      (split; [lia|]); (split; [lia|]); intros j Hj Hjn.
    + destruct (decide (j = p * 2 + 1)%nat) as [->|]; [apply ge_refl|].
      assert (j = p * 2)%nat as -> by lia. intros x' y' E1 E2. unfold it in *. simplify_eq. lia.
    + destruct (decide (j = p * 2)%nat) as [->|]; [apply ge_refl|].
      assert (j = p * 2 + 1)%nat as -> by lia. intros x' y' E1 E2. unfold it in *. simplify_eq.
      by apply cmp_flip.
  - exists (p * 2)%nat. split; [done|]. split; [lia|]. split; [lia|]. intros j Hj Hjn.
    assert (j = p * 2)%nat as -> by lia. apply ge_refl.
Qed.

(** Heap property of the items whose parent is at least [s]. *)
Definition heap_from l (s n : nat) : Prop := ∀ j, (2 ≤ j ≤ n)%nat → (s ≤ j / 2)%nat → ge l (j / 2) j.

Lemma CREATE_run fuel s p n l :
  (1 ≤ s ≤ p)%nat → (n - p < fuel)%nat → (n ≤ length l)%nat →
  (∀ j, (2 ≤ j ≤ n)%nat → (s ≤ j / 2)%nat → (j / 2 ≠ p)%nat → ge l (j / 2) j) →
  (∀ j, (j ≤ n)%nat → (j / 2 = p)%nat → (s ≤ p / 2)%nat → ge l (p / 2) j) →
  ∃ l', CREATE cmp fuel p n l = Ok l' ∧ rearranged 0 n l l' ∧ heap_from l' s n.
Proof.
  revert p l. induction fuel as [|fuel IH]; intros p l Hs Hf Hl Hh Hg; [lia|]. cbn [CREATE].
  destruct (Nat.leb_spec (p * 2) n) as [Hc|Hc].
  2:{ exists l. split_and!; [done|apply rearranged_refl|]. intros j Hj Hjs. apply Hh; lia. }
  destruct (larger_child_run l p n) as (c & -> & Hcp & Hcn & Hmax); [lia|lia|lia|].
  cbn [mbind outcome_bind]. unfold COMPAR.
  destruct (CMP_ok cmp (c - 1) (p - 1) l) as (x & y & Hx & Hy & ->); [lia|lia|]. cbn [mbind outcome_bind].
  destruct (Z.leb_spec (cmp x y) 0) as [Hle|Hgt].
  - exists l. split_and!; [done|apply rearranged_refl|]. intros j Hj Hjs.
    destruct (decide (j / 2 = p)%nat) as [E|E]; [|by apply Hh]. rewrite E.
    apply (ge_trans l p c); [lia| |by apply Hmax; [|lia]].
    intros x' y' E1 E2. unfold it in *. by simplify_eq.
  - destruct (swapfunc_rearranged 0 n (p - 1) (c - 1) l) as (l1 & -> & R1 & H1); [lia|lia|lia|].
    cbn [mbind outcome_bind].
    assert (∀ t, (1 ≤ t)%nat → it l1 t = if decide (t = c) then it l p else if decide (t = p) then it l c else it l t) as Hit.
    { intros t Ht. unfold it. rewrite H1. repeat case_decide; try lia; done. }
    destruct (IH c l1) as (l2 & -> & R2 & Hh2); [lia|lia|by rewrite (rearranged_length _ _ _ _ R1)| | |].
    + intros j Hj Hjs Hjc. destruct (decide (j / 2 = p)%nat) as [E|E].
      * rewrite E. destruct (decide (j = c)) as [->|Hjc'].
        { apply (ge_ext l l1 c p); [rewrite Hit by lia; by rewrite decide_False, decide_True by lia
            |rewrite Hit by lia; by rewrite decide_True|].
          intros x' y' E1 E2. unfold it in *. simplify_eq. apply cmp_flip. lia. }
        apply (ge_ext l l1 c j); [rewrite Hit by lia; by rewrite decide_False, decide_True by lia
          |rewrite Hit by lia; by rewrite !decide_False by lia|]. apply Hmax; lia.
      * destruct (decide (j = p)) as [->|Hjp].
        { apply (ge_ext l l1 (p / 2) c); [rewrite Hit by lia; by rewrite !decide_False by lia
            |rewrite Hit by lia; by rewrite decide_False, decide_True by lia|]. apply Hg; lia. }
        apply (ge_ext l l1 (j / 2) j); [rewrite Hit by lia; by rewrite !decide_False by lia
          |rewrite Hit by lia; by rewrite !decide_False by (intros ->; lia)|]. apply Hh; lia.
    + intros j Hj Hjc Hsc. apply (ge_ext l l1 c j); [rewrite Hit by lia; by rewrite decide_False, decide_True by lia
        |rewrite Hit by lia; by rewrite !decide_False by lia|].
      rewrite <- Hjc at 1. apply Hh; lia.
    + exists l2. split_and!; [done|by eapply rearranged_trans|done].
Qed.

(** ** Selection: [k] has no place yet; where it would be is item [p] *)

(** A heap but for the item at [p], whose children are not above its parent. *)
Definition heap_but l (p n : nat) : Prop :=
  (∀ j, (2 ≤ j ≤ n)%nat → j ≠ p → (j / 2 ≠ p)%nat → ge l (j / 2) j) ∧
  (∀ j, (j ≤ n)%nat → (j / 2 = p)%nat → (2 ≤ p)%nat → ge l (p / 2) j).

(** Copying item [c] over item [p] moves the place of [k] from [p] to [c]. *)
Lemma COPY_moves l p c k y n :
  (1 ≤ p ≤ n)%nat → (1 ≤ c ≤ n)%nat → (n ≤ length l)%nat → p ≠ c → it l c = Some y →
  rearranged 0 n (COPY p k l) (COPY c k (COPY p y l)).
Proof.
  intros Hp Hc Hl Hpc Hy. unfold COPY, it in *.
  destruct (swapfunc_rearranged 0 n (p - 1) (c - 1) (<[(p - 1)%nat := k]> l)) as (l1 & E & R & _);
    [lia|lia|rewrite length_insert; lia|].
  unfold swapfunc, get in E. rewrite list_lookup_insert_eq in E by lia. cbn [mbind outcome_bind] in E.
  rewrite list_lookup_insert_ne, Hy in E by lia. cbn [mbind outcome_bind] in E.
  rewrite list_insert_insert_eq in E. by injection E as <-.
Qed.

Lemma COPY_length l i (x : A) : length (COPY i x l) = length l.
Proof. apply length_insert. Qed.

Lemma SELECT_down_run fuel p n k l :
  (1 ≤ p ≤ n)%nat → (n - p < fuel)%nat → (n ≤ length l)%nat → heap_but (COPY p k l) p n →
  ∃ p' l', SELECT_down cmp fuel p n l = Ok (p', l') ∧ (1 ≤ p' ≤ n)%nat ∧ (n < p' * 2)%nat ∧
    length l' = length l ∧ rearranged 0 n (COPY p k l) (COPY p' k l') ∧ heap_but (COPY p' k l') p' n.
Proof.
  revert p l. induction fuel as [|fuel IH]; intros p l Hp Hf Hl [Hh Hg]; [lia|]. cbn [SELECT_down].
  destruct (Nat.leb_spec (p * 2) n) as [Hc|Hc].
  2:{ exists p, l. split_and!; try done; try lia. apply rearranged_refl. }
  destruct (larger_child_run l p n) as (c & -> & Hcp & Hcn & Hmax); [lia|lia|lia|].
  cbn [mbind outcome_bind].
  destruct (it_valid l c) as (y & Ey & ->); [lia|]. cbn [mbind outcome_bind].
  assert (∀ t, (1 ≤ t)%nat → it (COPY p k l) t = if decide (t = p) then Some k else it l t) as H0
    by (intros; apply it_COPY; lia).
  assert (∀ t, (1 ≤ t)%nat → it (COPY c k (COPY p y l)) t
    = if decide (t = c) then Some k else if decide (t = p) then it l c else it l t) as H1.
  { intros t Ht. rewrite it_COPY by (rewrite ?COPY_length; lia). case_decide; [done|].
    rewrite it_COPY by lia. by rewrite Ey. }
  destruct (IH c (COPY p y l)) as (p' & l' & -> & Hp' & Hn' & Hlen & R & Hb);
    [lia|lia|by rewrite COPY_length| |].
  - split.
    + intros j Hj Hjc Hjc2. destruct (decide (j / 2 = p)%nat) as [E|E].
      * rewrite E. apply (ge_ext l _ c j); [rewrite H1 by lia; by rewrite decide_False, decide_True by lia
          |rewrite H1 by lia; by rewrite !decide_False by lia|]. apply Hmax; lia.
      * destruct (decide (j = p)) as [->|Hjp].
        { apply (ge_ext (COPY p k l) _ (p / 2) c); [rewrite H1, H0 by lia; by rewrite !decide_False by lia
            |rewrite H1, H0 by lia; by rewrite (decide_False (P := p = c)), decide_True, decide_False by lia|].
          apply Hg; lia. }
        apply (ge_ext (COPY p k l) _ (j / 2) j);
          [rewrite H1, H0 by lia; by rewrite !decide_False by lia..|]. apply Hh; lia.
    + intros j Hj Hjc _. rewrite Hcp.
      apply (ge_ext (COPY p k l) _ c j); [rewrite H1, H0 by lia; by rewrite (decide_False (P := p = c)), decide_True, decide_False by lia
        |rewrite H1, H0 by lia; by rewrite !decide_False by lia|].
      rewrite <- Hjc at 1. apply Hh; lia.
  - exists p', l'. split_and!; try done; try lia; [by rewrite Hlen, COPY_length|].
    eapply rearranged_trans; [|done]. apply COPY_moves; try done; lia.
Qed.

Lemma SELECT_up_run fuel p n k l :
  (1 ≤ p ≤ n)%nat → (p < fuel)%nat → (n ≤ length l)%nat → heap_but (COPY p k l) p n →
  (∀ j, (1 ≤ j ≤ n)%nat → (j / 2 = p)%nat → ge (COPY p k l) p j) →
  ∃ l', SELECT_up cmp fuel p k l = Ok l' ∧ rearranged 0 n (COPY p k l) l' ∧ heap_from l' 1 n.
Proof.
  revert p l. induction fuel as [|fuel IH]; intros p l Hp Hf Hl [Hh Hg] Hk; [lia|]. cbn [SELECT_up].
  assert (∀ t, (1 ≤ t)%nat → it (COPY p k l) t = if decide (t = p) then Some k else it l t) as H0
    by (intros; apply it_COPY; lia).
  (* the final heap, when [k] is not above its parent *)
  assert ((2 ≤ p → ge (COPY p k l) (p / 2) p)%nat → heap_from (COPY p k l) 1 n) as Hfin.
  { intros Hpar j Hj _. destruct (decide (j = p)) as [->|]; [apply Hpar; lia|].
    destruct (decide (j / 2 = p)%nat) as [E|E]; [rewrite E; apply Hk; lia|by apply Hh]. }
  destruct (Nat.eqb_spec p 1) as [->|Hp1].
  { eexists. split_and!; [done|apply rearranged_refl|]. apply Hfin. lia. }
  destruct (it_valid l (p / 2)) as (x & Ex & ->); [lia|]. cbn [mbind outcome_bind].
  destruct (Z.ltb_spec (cmp k x) 0) as [Hlt|Hge].
  { eexists. split_and!; [done|apply rearranged_refl|]. apply Hfin. intros _ x' k'.
    rewrite !H0 by lia. rewrite decide_False, decide_True by lia. intros. simplify_eq. lia. }
  assert (∀ t, (1 ≤ t)%nat → it (COPY (p / 2) k (COPY p x l)) t
    = if decide (t = p / 2)%nat then Some k else if decide (t = p) then it l (p / 2) else it l t) as H1.
  { intros t Ht. rewrite it_COPY by (rewrite ?COPY_length; lia). case_decide; [done|].
    rewrite it_COPY by lia. by rewrite Ex. }
  assert (cmp x k ≤ 0) as Hxk by (by apply cmp_flip).
  (* the other child of the parent is not above the parent *)
  assert (∀ j, (1 ≤ j ≤ n)%nat → (j / 2 = p / 2)%nat → ∀ y, it (COPY (p / 2) k (COPY p x l)) j = Some y →
    cmp y x ≤ 0) as Hsib.
  { intros j Hj E y. rewrite H1 by lia. rewrite decide_False by lia. case_decide as Ej.
    - intros. simplify_eq. by rewrite cmp_refl.
    - intros Ey. apply (Hh j); [lia|done|lia| |]; rewrite H0 by lia; rewrite decide_False by lia; [by rewrite E|done]. }
  destruct (IH (p / 2)%nat (COPY p x l)) as (l' & -> & R & Hheap); [lia|lia|by rewrite COPY_length| | |].
  - split.
    + intros j Hj Hjp Hjp2. destruct (decide (j / 2 = p)%nat) as [E|E].
      * rewrite E. apply (ge_ext (COPY p k l) _ (p / 2) j); [|rewrite H1, H0 by lia; by rewrite !decide_False by lia|by apply Hg; [lia| |lia]].
        rewrite H1, H0 by lia. by rewrite decide_False, decide_True, decide_False by lia.
      * apply (ge_ext (COPY p k l) _ (j / 2) j); [rewrite H1, H0 by lia; by rewrite !decide_False by lia
          |rewrite H1, H0 by lia; by rewrite !decide_False by (intros ->; lia)|]. apply Hh; [lia|intros ->; lia|done].
    + intros j Hj E H2 z y Ez Ey.
      apply (co_trans _ Ho _ x); [apply (Hsib j); [lia|done|done]|].
      rewrite H1 in Ez by lia. rewrite !decide_False in Ez by lia.
      apply (Hh (p / 2)%nat); [lia|lia|lia| |]; rewrite H0 by lia; by rewrite decide_False by lia.
  - intros j Hj E z y Ez Ey. rewrite H1, decide_True in Ez by lia. simplify_eq.
    apply (co_trans _ Ho _ x); [by apply (Hsib j)|done].
  - exists l'. split_and!; try done. eapply rearranged_trans; [|done]. apply COPY_moves; try done; lia.
Qed.

Lemma SELECT_run n k l :
  (1 ≤ n)%nat → (n ≤ length l)%nat → heap_but (COPY 1 k l) 1 n →
  ∃ l', SELECT cmp n k l = Ok l' ∧ rearranged 0 n (COPY 1 k l) l' ∧ heap_from l' 1 n.
Proof.
  intros Hn Hl Hh. unfold SELECT.
  destruct (SELECT_down_run (S n) 1 n k l) as (p & l1 & -> & Hp & Hleaf & Hlen & R & Hh1); [lia|lia|lia|done|].
  cbn [mbind outcome_bind].
  destruct (SELECT_up_run (S p) p n k l1) as (l2 & -> & R2 & Hh2); [lia|lia|lia|done|intros; lia|].
  exists l2. split_and!; [done|by eapply rearranged_trans|done].
Qed.

Lemma create_loop_run s n l :
  (n ≤ length l)%nat → heap_from l (S s) n →
  ∃ l', create_loop cmp s n l = Ok l' ∧ rearranged 0 n l l' ∧ heap_from l' 1 n.
Proof.
  revert l. induction s as [|s IH]; intros l Hl Hh; cbn [create_loop].
  { exists l. split_and!; [done|apply rearranged_refl|done]. }
  destruct (CREATE_run (S n) (S s) (S s) n l) as (l1 & -> & R1 & Hh1); [lia|lia|done| |intros; lia|].
  { intros j Hj Hjs Hne. apply Hh; lia. }
  cbn [mbind outcome_bind].
  destruct (IH l1) as (l2 & -> & R2 & Hh2); [by rewrite (rearranged_length _ _ _ _ R1)|done|].
  exists l2. split_and!; [done|by eapply rearranged_trans|done].
Qed.

(** The first item of a heap is its greatest. *)
Lemma root_max l n j : (n ≤ length l)%nat → heap_from l 1 n → (1 ≤ j ≤ n)%nat → ge l 1 j.
Proof.
  intros Hl Hh. induction j as [j IH] using lt_wf_ind. intros Hj.
  destruct (decide (j = 1)%nat) as [->|]; [apply ge_refl|].
  apply (ge_trans l 1 (j / 2)); [lia|apply IH; lia|apply Hh; lia].
Qed.

(** The items after [n] are in order and not below those up to [n]. *)
Definition tail_sorted l (n : nat) : Prop :=
  (∀ i j, (1 ≤ i ≤ n)%nat → (n < j ≤ length l)%nat → ge l j i) ∧ sorted_range cmp l n (length l).

Lemma ge_sorted l i j x y :
  (i < j)%nat → ge l (S j) (S i) → l !! i = Some x → l !! j = Some y → cmp x y ≤ 0.
Proof. intros Hij H Hx Hy. apply H; unfold it; cbn; by rewrite Nat.sub_0_r. Qed.

(** One turn of the selection loop. *)
Lemma select_turn n l :
  (1 ≤ n)%nat → (S n ≤ length l)%nat → heap_from l 1 (S n) → tail_sorted l (S n) →
  ∃ k top l', item (S n) l = Ok k ∧ item 1 l = Ok top ∧ SELECT cmp n k (COPY (S n) top l) = Ok l' ∧
    rearranged 0 (S n) l l' ∧ heap_from l' 1 n ∧ tail_sorted l' n.
Proof.
  intros Hn Hl Hh [Ht Hs]. destruct (it_valid l (S n)) as (k & Ek & Ik); [lia|].
  destruct (it_valid l 1) as (top & Et & It); [lia|]. exists k, top.
  set (b := COPY 1 k (COPY (S n) top l)).
  assert (∀ t, (1 ≤ t)%nat → it b t = if decide (t = 1)%nat then Some k
    else if decide (t = S n) then Some top else it l t) as Hb.
  { intros t Hpos. unfold b. rewrite it_COPY by (rewrite ?COPY_length; lia). case_decide; [done|].
    by rewrite it_COPY by lia. }
  assert (rearranged 0 (S n) l b) as Rb.
  { unfold b. destruct (swapfunc_rearranged 0 (S n) n 0 l) as (l1 & E & R & _); [lia|lia|lia|].
    unfold swapfunc in E. unfold item, it in *. cbn [Nat.sub] in *. rewrite Nat.sub_0_r in *.
    rewrite Ik in E. cbn [mbind outcome_bind] in E. rewrite It in E. cbn [mbind outcome_bind] in E.
    injection E as <-. unfold COPY. cbn [Nat.sub]. by rewrite Nat.sub_0_r. }
  destruct (SELECT_run n k (COPY (S n) top l)) as (l' & E & R & Hh'); [lia|rewrite COPY_length; lia| |].
  { fold b. split; [|intros; lia]. intros j Hj Hj1 Hj2.
    apply (ge_ext l b (j / 2) j); [rewrite Hb by lia; by rewrite !decide_False by lia..|]. apply Hh; lia. }
  fold b in R. exists l'. assert (length l' = length l) as Hlen.
  { by rewrite (rearranged_length _ _ _ _ R), (rearranged_length _ _ _ _ Rb). }
  assert (rearranged 0 (S n) l l') as Rall.
  { eapply rearranged_trans; [exact Rb|]. eapply rearranged_weaken; [| |exact R]; lia. }
  assert (∀ t, (n < t)%nat → it l' t = if decide (t = S n) then Some top else it l t) as Hafter.
  { intros t Hpos. unfold it at 1. rewrite (re_out _ _ _ _ R) by lia. fold (it b t).
    rewrite Hb by lia. by rewrite decide_False by lia. }
  assert (∀ i x, (1 ≤ i ≤ n)%nat → it l' i = Some x → ∃ i', (1 ≤ i' ≤ S n)%nat ∧ it l i' = Some x) as Hfrom.
  { intros i x Hi Hx. destruct (re_in _ _ _ _ Rall (i - 1)%nat) as (j & Hj & Ej); [lia|].
    exists (S j). split; [lia|]. unfold it in *. cbn [Nat.sub]. rewrite Nat.sub_0_r. by rewrite <- Ej. }
  split_and!; [done..|]. split.
  - intros i j Hi Hj y x Ey Ex. destruct (Hfrom i x Hi Ex) as (i' & Hi' & Ex').
    rewrite Hafter in Ey by lia. case_decide as Ej.
    + simplify_eq. by apply (root_max l (S n) i' Hl Hh Hi').
    + apply (Ht i' j); [lia|lia|done|done].
  - rewrite Hlen. intros i j x y Hi Hij Hj Ex Ey. unfold it in Hafter.
    pose proof (Hafter (S i) ltac:(lia)) as Ei. pose proof (Hafter (S j) ltac:(lia)) as Ej.
    cbn [Nat.sub] in Ei, Ej. rewrite !Nat.sub_0_r in Ei, Ej. rewrite (decide_False (P := S j = S n)) in Ej by lia.
    rewrite Ex in Ei. rewrite Ey in Ej. case_decide.
    + simplify_eq. apply (Ht 1%nat (S j)); [lia|lia| |done]. unfold it. cbn. by rewrite Nat.sub_0_r.
    + by apply (Hs i j); [lia|lia|lia| |].
Qed.

Lemma select_loop_run n l :
  (n ≤ length l)%nat → heap_from l 1 n → tail_sorted l n →
  ∃ l', select_loop cmp n l = Ok l' ∧ rearranged 0 n l l' ∧ sorted_range cmp l' 0 (length l).
Proof.
  revert l. induction n as [|n IH]; intros l Hl Hh Ht; cbn [select_loop].
  { exists l. split_and!; [done|apply rearranged_refl|]. apply Ht. }
  destruct (Nat.ltb_spec 1 (S n)) as [Hn|Hn].
  - destruct (select_turn n l) as (k & top & l1 & -> & It & E & R & Hh1 & Ht1); [lia|done..|].
    cbn [mbind outcome_bind]. rewrite It. cbn [mbind outcome_bind]. rewrite E. cbn [mbind outcome_bind].
    pose proof (rearranged_length _ _ _ _ R) as Hlen.
    destruct (IH l1) as (l2 & -> & R2 & Hs2); [lia|done|done|]. rewrite Hlen in Hs2.
    exists l2. split_and!; [done| |done]. eapply rearranged_trans; [exact R|].
    eapply rearranged_weaken; [| |exact R2]; lia.
  - exists l. split_and!; [done|apply rearranged_refl|]. destruct Ht as [Ht Hs].
    intros i j x y Hi Hij Hj Ex Ey. destruct (decide (i = 0)%nat) as [->|].
    + eapply ge_sorted; [exact Hij| |done|done]. apply Ht; lia.
    + by apply (Hs i j); [lia|lia|lia| |].
Qed.
End HeapOrder.

(** C33. [heapsort] sorts.  With a comparison function that is a total preorder,
    a positive element size and memory for one element, it ends, answers 0, stays
    inside the array, and leaves the same elements in order; without memory it
    answers -1 and leaves an array of two or more elements as it was. *)
Theorem heapsort_sorts {A} (cmp : A → A → Z) (size : Z) (arr : list A) :
  cmp_ordered cmp → 0 < size →
  (∃ arr', heapsort cmp true size arr = Ok (0, 0, arr') ∧ arr' ≡ₚ arr ∧
     StronglySorted (λ x y, cmp x y ≤ 0) arr') ∧
  ((1 < length arr)%nat → heapsort cmp false size arr = Ok (-1, 0, arr)).
Proof.
  intros Ho Hsize. unfold heapsort. destruct (Z.eqb_spec size 0); [lia|].
  destruct (Nat.leb_spec (length arr) 1) as [Hle|Hgt].
  { split; [|lia]. exists arr. split_and!; [done..|]. apply sorted_range_StronglySorted, sorted_range_short. lia. }
  split; [|done]. cbn [negb].
  destruct (create_loop_run cmp Ho (length arr / 2) (length arr) arr) as (l1 & -> & R1 & Hh1); [done| |].
  { intros j Hj Hs. lia. }
  cbn [mbind outcome_bind]. pose proof (rearranged_length _ _ _ _ R1) as Hlen.
  destruct (select_loop_run cmp Ho (length arr) l1) as (l2 & -> & R2 & Hs2); [lia|done| |].
  { split; [intros; lia|]. apply sorted_range_short. lia. }
  cbn [mbind outcome_bind]. exists l2. split_and!; [done| |].
  - by rewrite (re_perm _ _ _ _ R2), (re_perm _ _ _ _ R1).
  - apply sorted_range_StronglySorted. by rewrite (rearranged_length _ _ _ _ R2).
Qed.

Lemma heapsort_sorts_witness :
  ∃ arr', heapsort Z.sub true 8 [3; 1; 2; 1; 9] = Ok (0, 0, arr') ∧ arr' ≡ₚ [3; 1; 2; 1; 9] ∧
    StronglySorted (λ x y, Z.sub x y ≤ 0) arr'.
Proof. exact (proj1 (heapsort_sorts Z.sub 8 [3; 1; 2; 1; 9] Zsub_ordered ltac:(lia))). Defined.
