(* ===== verification/Merge.v ===== *)
(** Merge sort in the C library (src/system/libroot/posix/stdlib/merge.c).

    The elements are sorted in two areas of memory, the array and a block as
    large, which change places after every pass.  While one holds the elements,
    the other holds where the sorted runs end: an 8-byte pointer at the first
    aligned place of a run.  So the areas are bytes at addresses, and a pointer is
    its offset in its area. *)

From Stdlib Require Import Sorting.Sorted ZifyNat.
From S2P Require Import Prelude Errors Sort.

Record area : Type := mkArea { ar_addr : Z; ar_bytes : list Z }.

Definition ISIZE : Z := 4.
Definition PSIZE : Z := 8.

Definition roundup2 (x y : Z) : Z := Z.land (u64 (x + (y - 1))) (u64 (Z.lnot (y - 1))).

(** The next place for a pointer. *)
Definition EVAL (l : area) (p : Z) : Z := roundup2 (ar_addr l + p) PSIZE - ar_addr l.

(** The bytes of a word, the lowest first. *)
Fixpoint le_enc (k : nat) (v : Z) : list Z :=
  match k with O => [] | S k => v mod 256 :: le_enc k (v / 256) end.
Fixpoint le_dec (bs : list Z) : Z :=
  match bs with [] => 0 | b :: bs => b + 256 * le_dec bs end.

Definition put_at (p : Z) (bs : list Z) (l : area) : outcome area :=
  bytes ← store_bytes p bs (ar_bytes l); Ok (mkArea (ar_addr l) bytes).

(** [*EVAL(p)] *)
Definition load_ptr (l : area) (p : Z) : outcome Z :=
  bs ← load_bytes (EVAL l p) PSIZE (ar_bytes l); Ok (le_dec bs - ar_addr l).
Definition store_ptr (p v : Z) (l : area) : outcome area :=
  put_at (EVAL l p) (le_enc 8 (u64 (ar_addr l + v))) l.

(** [ICOPY_LIST] and [CCOPY_LIST]: [step] bytes at a time; the new [src] and
    [dst], and the area that was written. *)
Fixpoint COPY_LIST (fuel : nat) (step : Z) (from : area) (src dst last : Z) (to : area) : outcome (Z * Z * area) :=
  match fuel with
  | O => Hang
  | S fuel =>
      x ← load_bytes src step (ar_bytes from);
      to ← put_at dst x to;
      if src + step <? last then COPY_LIST fuel step from (src + step) (dst + step) last to
      else Ok (src + step, dst + step, to)
  end.

(** [ICOPY_ELT] and [CCOPY_ELT] *)
Fixpoint COPY_ELT (fuel : nat) (step : Z) (from : area) (src dst i : Z) (to : area) : outcome (Z * Z * area) :=
  match fuel with
  | O => Hang
  | S fuel =>
      x ← load_bytes src step (ar_bytes from);
      to ← put_at dst x to;
      let i := u64 (i - step) in
      if i =? 0 then Ok (src + step, dst + step, to)
      else COPY_ELT fuel step from (src + step) (dst + step) i to
  end.

Section Merge.
Context (cmp : list Z → list Z → Z) (size : Z).

(** [CMP] of the elements at two places. *)
Definition compare (l : area) (p q : Z) : outcome Z :=
  x ← load_bytes p size (ar_bytes l);
  y ← load_bytes q size (ar_bytes l);
  Ok (cmp x y).

(** ** Finding the place of an element in a run *)

(** The search one by one; [true] when it went on for six elements. *)
Fixpoint one_by_one (fuel : nat) (l : area) (q t sense b i : Z) : outcome (bool * Z) :=
  match fuel with
  | O => Hang
  | S fuel =>
      let b := b + size in
      if b <? t then
        c ← compare l q b;
        if sense <? c then
          let i := i + 1 in
          if i =? 6 then Ok (true, b) else one_by_one fuel l q t sense b i
        else Ok (false, b)
      else Ok (false, b)
  end.

(** [while (t > b + size)]: the place is halfway each time. *)
Fixpoint bisect (fuel : nat) (l : area) (q sense b t : Z) : outcome Z :=
  if b + size <? t then
    match fuel with
    | O => Hang
    | S fuel =>
        let p := b + Z.shiftr ((t - b) / size) 1 * size in
        c ← compare l q p;
        if c <=? sense then bisect fuel l q sense b p else bisect fuel l q sense p t
    end
  else Ok t.

(** [FASTCASE] *)
Fixpoint fastcase (fuel : nat) (l : area) (q sense b t i : Z) : outcome Z :=
  if size <? i then
    match fuel with
    | O => Hang
    | S fuel =>
        let i := Z.shiftr i 1 in
        let p := b + i in
        c ← compare l q p;
        if c <=? sense then fastcase fuel l q sense b p i else fastcase fuel l q sense p t i
    end
  else Ok t.

(** [EXPONENTIAL]: the place, and [big]. *)
Fixpoint exponential (fuel : nat) (l : area) (q sense b t i : Z) (big : bool) : outcome (Z * bool) :=
  match fuel with
  | O => Hang
  | S fuel' =>
      if t <=? b + i then
        let p := t - size in
        below ← (if b <? p then c ← compare l q p; Ok (c <=? sense) else Ok false);
        r ← (if below : bool then bisect fuel l q sense b p else bisect fuel l q sense p t);
        Ok (r, big)
      else
        c ← compare l q (b + i);
        if c <=? sense then
          r ← fastcase fuel l q sense b (b + i) i;
          Ok (r, if i =? size then false else big)
        else exponential fuel' l q sense (b + i) t (u64 (Z.shiftl i 1)) big
  end.

(** Where the elements to be copied end; [i] is 0 when the search begins. *)
Definition search (l : area) (q t sense b : Z) (big : bool) : outcome (Z * bool) :=
  let fuel := length (ar_bytes l) in
  if big then exponential fuel l q sense b t size true
  else
    '(far, b) ← one_by_one 7 l q t sense b 0;
    if far : bool then exponential fuel l q sense b t size true else Ok (b, false).

(** ** Merging *)

Record merging : Type := mkMg { mg_f1 : Z; mg_f2 : Z; mg_tp2 : Z; mg_big : bool; mg_list2 : area }.

(** [while (f1 < l1 && f2 < l2)] *)
Fixpoint merge_runs (fuel : nat) (step : Z) (list1 : area) (l1 l2 : Z) (m : merging) : outcome merging :=
  let '(mkMg f1 f2 tp2 big list2) := m in
  if (f1 <? l1) && (f2 <? l2) then
    match fuel with
    | O => Hang
    | S fuel =>
        c ← compare list1 f1 f2;
        let '(q, b, t, sense) := if c <=? 0 then (f2, f1, l1, -1) else (f1, f2, l2, 0) in
        '(b, big) ← search list1 q t sense b big;
        if q =? f1 then
          '(f2, tp2, list2) ← COPY_LIST (length (ar_bytes list1)) step list1 f2 tp2 b list2;
          '(f1, tp2, list2) ← COPY_ELT (Z.to_nat size) step list1 f1 tp2 size list2;
          merge_runs fuel step list1 l1 l2 (mkMg f1 f2 tp2 big list2)
        else
          '(f1, tp2, list2) ← COPY_LIST (length (ar_bytes list1)) step list1 f1 tp2 b list2;
          '(f2, tp2, list2) ← COPY_ELT (Z.to_nat size) step list1 f2 tp2 size list2;
          merge_runs fuel step list1 l1 l2 (mkMg f1 f2 tp2 big list2)
    end
  else Ok m.

(** What is left of one run. *)
Definition copy_rest (step : Z) (list1 : area) (l1 l2 : Z) (m : merging) : outcome merging :=
  let '(mkMg f1 f2 tp2 big list2) := m in
  if f2 <? l2 then
    '(f2, tp2, list2) ← COPY_LIST (length (ar_bytes list1)) step list1 f2 tp2 l2 list2;
    Ok (mkMg f1 f2 tp2 big list2)
  else if f1 <? l1 then
    '(f1, tp2, list2) ← COPY_LIST (length (ar_bytes list1)) step list1 f1 tp2 l1 list2;
    Ok (mkMg f1 f2 tp2 big list2)
  else Ok m.

(** [for (tp2 = p2 = list2; p2 != last; p1 = EVAL(l2))]; [p1] is [EVAL(l2)] in the
    first turn, too. *)
Fixpoint merge_pass (fuel : nat) (step last l2 p2 tp2 : Z) (big : bool) (list1 list2 : area) : outcome (bool * area * area) :=
  if p2 =? last then Ok (big, list1, list2)
  else
    match fuel with
    | O => Hang
    | S fuel =>
        let p1 := l2 in
        p2 ← load_ptr list2 p2;
        let f1 := l2 in
        let l1 := p2 in
        p2 ← (if p2 =? last then Ok p2 else load_ptr list2 p2);
        let l2 := p2 in
        m ← merge_runs (length (ar_bytes list1)) step list1 l1 l2 (mkMg f1 l1 tp2 big list2);
        m ← copy_rest step list1 l1 l2 m;
        list1 ← store_ptr p1 l2 list1;
        merge_pass fuel step last l2 p2 (mg_tp2 m) (mg_big m) list1 (mg_list2 m)
    end.

(** Passes until the first run ends at [last]; the areas change places. *)
Fixpoint merge_passes (fuel : nat) (step last : Z) (big : bool) (list1 list2 : area) : outcome (area * area) :=
  p ← load_ptr list2 0;
  if p =? last then Ok (list1, list2)
  else
    match fuel with
    | O => Hang
    | S fuel =>
        '(big, list1, list2) ← merge_pass (length (ar_bytes list1)) step last 0 0 0 big list1 list2;
        merge_passes fuel step last big list2 list1
    end.

(** ** The first runs *)

(** The loop of [swap], [i] bytes; [size] is not 0. *)
Fixpoint swap_bytes (i : nat) (a s : Z) (l : area) : outcome area :=
  match i with
  | O => Ok l
  | S i =>
      tmp ← load_bytes a 1 (ar_bytes l);
      x ← load_bytes s 1 (ar_bytes l);
      l ← put_at a x l;
      l ← put_at s tmp l;
      swap_bytes i (a + 1) (s + 1) l
  end.

Definition swap (a b : Z) (l : area) : outcome area := swap_bytes (Z.to_nat size) a b l.

(** [for (t = ai; t > a; t -= size)] *)
Fixpoint move_down (fuel : nat) (a t : Z) (l : area) : outcome area :=
  if a <? t then
    match fuel with
    | O => Hang
    | S fuel =>
        let u := t - size in
        c ← compare l u t;
        if c <=? 0 then Ok l else l ← swap u t l; move_down fuel a (t - size) l
    end
  else Ok l.

(** [for (ai = a + size; --n >= 1; ai += size)], with [n] after [--n]. *)
Fixpoint insertion_turns (n : nat) (a ai : Z) (l : area) : outcome area :=
  match n with
  | O => Ok l
  | S n => l ← move_down (length (ar_bytes l)) a ai l; insertion_turns n a (ai + size) l
  end.

Definition insertionsort (a n : Z) (l : area) : outcome area :=
  insertion_turns (Z.to_nat (u64 (n - 1))) a (a + size) l.

Definition size2 : Z := s32 (size * 2).
Definition THRESHOLD : Z := 16.

(** The loop of [reverse]: elements from both ends change places. *)
Fixpoint reverse_loop (fuel : nat) (bot s : Z) (l : area) : outcome area :=
  match fuel with
  | O => Hang
  | S fuel =>
      l ← swap_bytes (Z.to_nat size) bot s l;
      let bot := bot + size in
      let s := s + size - size2 in
      if bot <? s then reverse_loop fuel bot s l else Ok l
  end.

Definition reverse_run (bot top : Z) (l : area) : outcome area := reverse_loop (length (ar_bytes l)) bot top l.

(** [Find pairs with same sense]: where they end, and [length]. *)
Fixpoint same_sense (fuel : nat) (list1 : area) (last f2 : Z) (sense : bool) (length : Z) : outcome (Z * Z) :=
  if f2 <? last then
    match fuel with
    | O => Hang
    | S fuel =>
        c ← compare list1 f2 (f2 + size);
        if Bool.eqb (0 <? c) sense then same_sense fuel list1 last (f2 + size2) sense (s32 (length + 2))
        else Ok (f2, length)
    end
  else Ok (f2, length).

(** [Pairwise merge]: [f1], [p2] and the areas. *)
Fixpoint pairwise (fuel : nat) (f2 : Z) (sense : bool) (f1 p2 : Z) (list1 list2 : area) : outcome (Z * Z * area * area) :=
  match fuel with
  | O => Hang
  | S fuel =>
      let v := f1 + size2 in
      list2 ← store_ptr p2 v list2;
      list1 ← (if sense then swap f1 (f1 + size) list1 else Ok list1);
      let f1 := f1 + size2 in
      if f1 <? f2 then pairwise fuel f2 sense f1 v list1 list2 else Ok (f1, v, list1, list2)
  end.

(** The loop of [Natural merge]: [f1], [f2], [p2] and the areas. *)
Fixpoint natural (fuel : nat) (l2 : Z) (sense : bool) (f1 f2 p2 : Z) (list1 list2 : area) : outcome (Z * Z * Z * area * area) :=
  if f2 <? l2 then
    match fuel with
    | O => Hang
    | S fuel =>
        c ← compare list1 (f2 - size) f2;
        if Bool.eqb (0 <? c) sense then natural fuel l2 sense f1 (f2 + size2) p2 list1 list2
        else
          list2 ← store_ptr p2 f2 list2;
          list1 ← (if sense then reverse_run f1 (f2 - size) list1 else Ok list1);
          natural fuel l2 sense f2 (f2 + size2) f2 list1 list2
    end
  else Ok (f1, f2, p2, list1, list2).

(** The rest of [Natural merge]; the last run goes on to the end when it can. *)
Definition natural_end (n last : Z) (sense : bool) (f1 f2 p2 : Z) (list1 list2 : area) : outcome (Z * Z * area * area) :=
  list1 ← (if sense then reverse_run f1 (f2 - size) list1 else Ok list1);
  more ← (if f2 <? last then Ok true else c ← compare list1 (f2 - size) f2; Ok (0 <? c));
  let v := if more : bool then f2 else n * size in
  list2 ← store_ptr p2 v list2;
  Ok (f2, v, list1, list2).

(** [for (; f1 < last; sense = !sense)] *)
Fixpoint setup_loop (fuel : nat) (n last : Z) (sense : bool) (f1 p2 : Z) (list1 list2 : area) : outcome (area * area) :=
  if f1 <? last then
    match fuel with
    | O => Hang
    | S fuel' =>
        '(f2, len) ← same_sense fuel list1 last (f1 + size2) sense 2;
        '(f1, p2, list1, list2) ←
          (if len <? THRESHOLD then pairwise fuel f2 sense f1 p2 list1 list2
           else
             '(f1, f2, p2, list1, list2) ← natural fuel f2 sense f1 (f1 + size2) p2 list1 list2;
             natural_end n last sense f1 f2 p2 list1 list2);
        setup_loop fuel' n last (negb sense) f1 p2 list1 list2
    end
  else Ok (list1, list2).

Definition setup (list1 list2 : area) (n : Z) : outcome (area * area) :=
  if n <=? 5 then
    list1 ← insertionsort 0 n list1;
    list2 ← store_ptr 0 (n * size) list2;
    Ok (list1, list2)
  else
    let i := 4 + Z.land n 1 in
    list1 ← insertionsort ((n - i) * size) i list1;
    let last := size * (n - i) in
    list2 ← store_ptr last (n * size) list2;
    c ← compare list1 0 size;
    setup_loop (length (ar_bytes list1)) n last (0 <? c) 0 0 list1 list2.

(** [mem] is the address [malloc] answers, with [uninit] in the block.  The
    answer, [errno] when it is set, and the array. *)
Definition mergesort (mem : option Z) (uninit : Z → Z) (base : area) (nmemb : Z) : outcome (Z * Z * list Z) :=
  if size <? PSIZE / 2 then Ok (-1, EINVAL, ar_bytes base)
  else if nmemb =? 0 then Ok (0, 0, ar_bytes base)
  else
    let iflag := (size mod ISIZE =? 0) && (ar_addr base mod ISIZE =? 0) in
    match mem with
    | None => Ok (-1, 0, ar_bytes base)
    | Some addr =>
        let list2 := mkArea addr (uninit <$> seqZ 0 (u64 (nmemb * size + PSIZE))) in
        '(list1, list2) ← setup base list2 nmemb;
        '(list1, list2) ← merge_passes (Z.to_nat nmemb) (if iflag then ISIZE else 1) (nmemb * size) false list1 list2;
        if ar_addr base =? ar_addr list2 then
          x ← load_bytes 0 (nmemb * size) (ar_bytes list1);
          list2 ← put_at 0 x list2;
          Ok (0, 0, ar_bytes list2)
        else Ok (0, 0, ar_bytes list1)
    end.
End Merge.
