(* ===== verification/MergeAreas.v ===== *)
(** The areas of merge sort: elements and pointers in bytes, and what copying,
    exchanging and storing do to them. *)

From Stdlib Require Import ZifyNat.
From S2P Require Import Prelude Errors Merge.

(** ** Bytes *)

Lemma lookup_slice (l : list Z) off n j :
  0 ≤ off → 0 ≤ j < n → slice off n l !! Z.to_nat j = l !! Z.to_nat (off + j).
Proof. intros. unfold slice. rewrite lookup_take_lt, lookup_drop by lia. f_equal. lia. Qed.

Lemma lookup_splice (l bs : list Z) off j :
  0 ≤ off → off + zlen bs ≤ zlen l → 0 ≤ j →
  splice off bs l !! Z.to_nat j =
    if bool_decide (off ≤ j < off + zlen bs) then bs !! Z.to_nat (j - off) else l !! Z.to_nat j.
Proof.
  intros. unfold splice. case_bool_decide.
  - rewrite lookup_app_r, lookup_app_l; rewrite length_take; [f_equal; lia|lia|lia].
  - destruct (decide (j < off)).
    + rewrite lookup_app_l by (rewrite length_take; lia). by rewrite lookup_take_lt by lia.
    + rewrite !lookup_app_r; rewrite ?length_take; [|lia..]. rewrite lookup_drop. f_equal. lia.
Qed.

(** Bytes that are the same are read the same. *)
Lemma load_same (l l' : list Z) p d n :
  0 ≤ p → 0 ≤ p + d → 0 ≤ n → p + n ≤ zlen l' → p + d + n ≤ zlen l →
  (∀ j, p ≤ j < p + n → l' !! Z.to_nat j = l !! Z.to_nat (j + d)) →
  load_bytes p n l' = load_bytes (p + d) n l.
Proof.
  intros ? ? ? ? ? Hj. rewrite !load_bytes_Ok by lia. f_equal. apply list_eq. intros i.
  destruct (decide (Z.of_nat i < n)).
  - rewrite <- (Nat2Z.id i), !lookup_slice by lia. rewrite Hj by lia. f_equal. lia.
  - rewrite !lookup_ge_None_2; [done|..]; unfold slice; rewrite length_take; lia.
Qed.

Lemma load_splice_out (l bs : list Z) off p n :
  0 ≤ off → off + zlen bs ≤ zlen l → p + n ≤ off ∨ off + zlen bs ≤ p → load_bytes p n (splice off bs l) = load_bytes p n l.
Proof.
  intros H1 H2 Hd. assert (zlen (splice off bs l) = zlen l) as El by (by rewrite (splice_length off bs l)).
  destruct (decide (0 ≤ p ∧ 0 ≤ n ∧ p + n ≤ zlen l)) as [(? & ? & ?)|Hn].
  - rewrite <- (Z.add_0_r p) at 2. apply load_same; [lia..|]. intros j Hj. rewrite lookup_splice by lia.
    rewrite bool_decide_false by lia. by rewrite Z.add_0_r.
  - unfold load_bytes. rewrite !bool_decide_false; [done|exact Hn|]. by rewrite El.
Qed.

Lemma load_splice_in (l bs : list Z) off p n :
  0 ≤ off → off + zlen bs ≤ zlen l → off ≤ p → 0 ≤ n → p + n ≤ off + zlen bs →
  load_bytes p n (splice off bs l) = load_bytes (p - off) n bs.
Proof.
  intros. replace (p - off) with (p + - off) by lia. apply load_same; rewrite ?splice_length by lia; [lia..|].
  intros j Hj. rewrite lookup_splice by lia. rewrite bool_decide_true by lia. f_equal.
Qed.

Lemma load_slice (l : list Z) off m p n :
  0 ≤ off → 0 ≤ p → 0 ≤ n → p + n ≤ m → off + m ≤ zlen l → load_bytes p n (slice off m l) = load_bytes (off + p) n l.
Proof.
  intros. rewrite (Z.add_comm off p). apply load_same; rewrite ?slice_length by lia; [lia..|].
  intros j Hj. rewrite lookup_slice by lia. f_equal. lia.
Qed.

(** ** Words *)

Lemma le_dec_enc k : ∀ v, 0 ≤ v < 256 ^ Z.of_nat k → le_dec (le_enc k v) = v.
Proof.
  induction k as [|k IH]; intros v Hv; cbn [le_enc le_dec]; [cbn in Hv; lia|].
  rewrite IH; [pose proof (Z.div_mod v 256); lia|]. rewrite Nat2Z.inj_succ, Z.pow_succ_r in Hv by lia.
  split; [apply Z.div_pos; lia|]. apply Z.div_lt_upper_bound; lia.
Qed.

Lemma le_enc_length k v : length (le_enc k v) = k.
Proof. revert v. induction k as [|k IH]; intros v; cbn; [done|by rewrite IH]. Qed.

(** The place for a pointer is the next multiple of 8. *)
Lemma EVAL_spec l p :
  0 ≤ ar_addr l + p → ar_addr l + p + 8 < 2 ^ 64 → ∃ w, EVAL l p = 8 * w - ar_addr l ∧ p ≤ EVAL l p < p + 8.
Proof.
  intros H1 H2. unfold EVAL, roundup2, PSIZE. set (a := ar_addr l) in *. rewrite u64_id by (unfold is_u64; lia).
  assert (Z.land (a + p + (8 - 1)) (u64 (Z.lnot (8 - 1))) = 8 * ((a + p + 7) / 8)) as ->.
  { change (u64 (Z.lnot (8 - 1))) with (2 ^ 64 - 8). apply Z.bits_inj'. intros i Hi. rewrite Z.land_spec.
    replace (8 * ((a + p + 7) / 8)) with (Z.shiftl (Z.shiftr (a + p + 7) 3) 3).
    2:{ rewrite Z.shiftl_mul_pow2, Z.shiftr_div_pow2 by lia. change (2 ^ 3) with 8. lia. }
    rewrite Z.shiftl_spec by lia. replace (2 ^ 64 - 8) with (Z.shiftl (Z.ones 61) 3) by reflexivity. rewrite Z.shiftl_spec by lia.
    destruct (decide (i < 3)); [rewrite !(Z.testbit_neg_r _ (i - 3)) by lia; apply andb_false_r|].
    rewrite Z.shiftr_spec by lia. replace (i - 3 + 3) with i by lia. replace (a + p + (8 - 1)) with (a + p + 7) by lia.
    destruct (decide (i < 64)); [rewrite Z.ones_spec_low by lia; apply andb_true_r|].
    rewrite Z.ones_spec_high, andb_false_r by lia. symmetry. apply Z.bits_above_log2; [lia|].
    apply Z.lt_le_trans with 64; [|lia]. apply Z.log2_lt_pow2; lia. }
  exists ((a + p + 7) / 8). pose proof (Z.div_mod (a + p + 7) 8). pose proof (Z.mod_pos_bound (a + p + 7) 8). lia.
Qed.

(** * Elements *)

Section Areas.
Context (size : Z).
Hypothesis (Hsize : 4 ≤ size).
Implicit Types (l : area) (E : list (list Z)) (k : Z).

(** Element [k] of the area is [x]. *)
Definition has l k (x : list Z) : Prop := 0 ≤ k ∧ load_bytes (size * k) size (ar_bytes l) = Ok x.
Definition holds l k E : Prop := ∀ i x, E !! i = Some x → has l (k + Z.of_nat i) x.

(** The elements from [k] on were set to [E] and nothing else changed. *)
Record written l k E l' : Prop := {
  wr_addr : ar_addr l' = ar_addr l;
  wr_length : zlen (ar_bytes l') = zlen (ar_bytes l);
  wr_holds : holds l' k E;
  wr_frame : ∀ p n, p + n ≤ size * k ∨ size * (k + zlen E) ≤ p → load_bytes p n (ar_bytes l') = load_bytes p n (ar_bytes l)
}.

Lemma holds_app l k E1 E2 : holds l k (E1 ++ E2) ↔ holds l k E1 ∧ holds l (k + zlen E1) E2.
Proof.
  split.
  - intros Hh. split; intros i x Hi; [apply Hh; by apply lookup_app_l_Some|].
    replace (k + zlen E1 + Z.of_nat i) with (k + Z.of_nat (length E1 + i)) by lia. apply Hh.
    rewrite lookup_app_r by lia. rewrite <- Hi. f_equal. lia.
  - intros [H1 H2] i x [Hi|[Hle Hi]]%lookup_app_Some; [by apply H1|].
    replace (k + Z.of_nat i) with (k + zlen E1 + Z.of_nat (i - length E1)) by lia. by apply H2.
Qed.

Lemma holds_nil l k : holds l k [].
Proof. intros i x. by rewrite lookup_nil. Qed.

Lemma holds_one l k x : holds l k [x] ↔ has l k x.
Proof.
  split; [intros Hh; rewrite <- (Z.add_0_r k); by apply (Hh 0%nat)|].
  intros Hx [|i] y; [|done]. intros [= <-]. by rewrite Z.add_0_r.
Qed.

Lemma holds_cons l k x E : holds l k (x :: E) ↔ has l k x ∧ holds l (k + 1) E.
Proof. change (x :: E) with ([x] ++ E). by rewrite holds_app, holds_one. Qed.

Lemma has_bound l k x : has l k x → 0 ≤ k ∧ size * (k + 1) ≤ zlen (ar_bytes l) ∧ zlen x = size.
Proof.
  intros [Hk (H1 & H2 & H3 & ->)%load_bytes_inv]. split; [done|]. split; [lia|]. rewrite slice_length; lia.
Qed.

(** Everything read there is the same. *)
Lemma holds_same l l' k E :
  (∀ p n, size * k ≤ p → p + n ≤ size * (k + zlen E) → load_bytes p n (ar_bytes l') = load_bytes p n (ar_bytes l)) →
  holds l k E → holds l' k E.
Proof.
  intros Hf Hh i x Hi. destruct (Hh i x Hi) as [Hk Hx]. split; [done|]. apply lookup_lt_Some in Hi. rewrite Hf; [done|nia|nia].
Qed.

Lemma holds_frame l l' k0 E0 k E :
  written l k0 E0 l' → k + zlen E ≤ k0 ∨ k0 + zlen E0 ≤ k → holds l k E → holds l' k E.
Proof. intros Hw Hd. apply holds_same. intros p n H1 H2. apply (wr_frame _ _ _ _ Hw). nia. Qed.

Lemma written_refl l k : written l k [] l.
Proof. split; [done|done|apply holds_nil|done]. Qed.

Lemma written_app l1 l2 l3 k E1 E2 :
  written l1 k E1 l2 → written l2 (k + zlen E1) E2 l3 → written l1 k (E1 ++ E2) l3.
Proof.
  intros H1 H2. split.
  - by rewrite (wr_addr _ _ _ _ H2), (wr_addr _ _ _ _ H1).
  - by rewrite (wr_length _ _ _ _ H2), (wr_length _ _ _ _ H1).
  - apply holds_app. split; [|apply H2]. eapply holds_frame; [exact H2|lia|apply H1].
  - intros p n Hd. rewrite length_app in Hd. rewrite (wr_frame _ _ _ _ H2), (wr_frame _ _ _ _ H1); [done|nia|nia].
Qed.

(** ** Copying *)

Lemma put_at_Ok p bs l : 0 ≤ p → p + zlen bs ≤ zlen (ar_bytes l) → put_at p bs l = Ok (mkArea (ar_addr l) (splice p bs (ar_bytes l))).
Proof. intros. unfold put_at. by rewrite store_bytes_Ok by lia. Qed.

Lemma COPY_LIST_run step from m : ∀ fuel src dst to,
  0 < step → 0 ≤ src → 0 ≤ dst → (0 < m)%nat → (m ≤ fuel)%nat →
  src + step * Z.of_nat m ≤ zlen (ar_bytes from) → dst + step * Z.of_nat m ≤ zlen (ar_bytes to) →
  COPY_LIST fuel step from src dst (src + step * Z.of_nat m) to =
    Ok (src + step * Z.of_nat m, dst + step * Z.of_nat m,
        mkArea (ar_addr to) (splice dst (slice src (step * Z.of_nat m) (ar_bytes from)) (ar_bytes to))).
Proof.
  induction m as [|m IH]; intros fuel src dst to Hs H1 H2 Hm Hf Hb1 Hb2; [lia|]. destruct fuel as [|fuel]; [lia|].
  cbn [COPY_LIST]. rewrite load_bytes_Ok by nia. cbn [mbind outcome_bind].
  assert (zlen (slice src step (ar_bytes from)) = step) as El by (apply slice_length; nia).
  rewrite put_at_Ok by nia. cbn [mbind outcome_bind].
  destruct m as [|m].
  - rewrite Z.mul_1_r, Z.ltb_irrefl. done.
  - rewrite (proj2 (Z.ltb_lt _ _)) by nia.
    replace (src + step * Z.of_nat (S (S m))) with (src + step + step * Z.of_nat (S m)) by lia.
    rewrite IH; cbn [ar_bytes ar_addr]; [|lia|lia|lia|lia|lia|lia|rewrite splice_length by nia; lia].
    replace (dst + step * Z.of_nat (S (S m))) with (dst + step + step * Z.of_nat (S m)) by lia. do 3 f_equal.
    rewrite <- El at 1. rewrite splice_splice by nia. f_equal.
    rewrite (slice_split src (step * Z.of_nat (S (S m))) step) by nia. do 2 f_equal. lia.
Qed.

Lemma COPY_ELT_run step from m : ∀ fuel src dst to,
  0 < step → 0 ≤ src → 0 ≤ dst → (0 < m)%nat → (m ≤ fuel)%nat → step * Z.of_nat m < 2 ^ 64 →
  src + step * Z.of_nat m ≤ zlen (ar_bytes from) → dst + step * Z.of_nat m ≤ zlen (ar_bytes to) →
  COPY_ELT fuel step from src dst (step * Z.of_nat m) to =
    Ok (src + step * Z.of_nat m, dst + step * Z.of_nat m,
        mkArea (ar_addr to) (splice dst (slice src (step * Z.of_nat m) (ar_bytes from)) (ar_bytes to))).
Proof.
  induction m as [|m IH]; intros fuel src dst to Hs H1 H2 Hm Hf Hw Hb1 Hb2; [lia|]. destruct fuel as [|fuel]; [lia|].
  cbn [COPY_ELT]. rewrite load_bytes_Ok by nia. cbn [mbind outcome_bind].
  assert (zlen (slice src step (ar_bytes from)) = step) as El by (apply slice_length; nia).
  rewrite put_at_Ok by nia. cbn [mbind outcome_bind]. rewrite u64_id by (unfold is_u64; nia).
  replace (step * Z.of_nat (S m) - step) with (step * Z.of_nat m) by lia.
  destruct m as [|m].
  - rewrite Z.mul_0_r, Z.mul_1_r. done.
  - rewrite (proj2 (Z.eqb_neq _ _)) by nia.
    rewrite IH; cbn [ar_bytes ar_addr]; [|lia|lia|lia|lia|lia|lia|lia|rewrite splice_length by nia; lia].
    replace (src + step * Z.of_nat (S (S m))) with (src + step + step * Z.of_nat (S m)) by lia.
    replace (dst + step * Z.of_nat (S (S m))) with (dst + step + step * Z.of_nat (S m)) by lia. do 3 f_equal.
    rewrite <- El at 1. rewrite splice_splice by nia. f_equal.
    rewrite (slice_split src (step * Z.of_nat (S (S m))) step) by nia. do 2 f_equal. lia.
Qed.

(** Bytes that are copied are elements that are written. *)
Lemma copied from to ks kd E :
  0 ≤ ks → 0 ≤ kd → holds from ks E → size * (ks + zlen E) ≤ zlen (ar_bytes from) → size * (kd + zlen E) ≤ zlen (ar_bytes to) →
  written to kd E (mkArea (ar_addr to) (splice (size * kd) (slice (size * ks) (size * zlen E) (ar_bytes from)) (ar_bytes to))).
Proof.
  intros Hks Hkd Hh Hb1 Hb2.
  assert (zlen (slice (size * ks) (size * zlen E) (ar_bytes from)) = size * zlen E) as El by (apply slice_length; nia).
  split; cbn [ar_addr ar_bytes]; [done|rewrite splice_length by nia; done| |].
  - intros i x Hi. destruct (Hh i x Hi) as [_ Hx]. apply lookup_lt_Some in Hi. split; [lia|]. cbn [ar_bytes].
    rewrite load_splice_in, load_slice by nia. rewrite <- Hx. f_equal. lia.
  - intros p n Hd. apply load_splice_out; nia.
Qed.

Section Copies.
Context (step : Z) (Hstep : 0 < step) (Hdiv : (step | size)).

Lemma copy_list from to ks kd E :
  0 ≤ kd → holds from ks E → E ≠ [] → size * (kd + zlen E) ≤ zlen (ar_bytes to) →
  ∃ to', COPY_LIST (length (ar_bytes from)) step from (size * ks) (size * kd) (size * (ks + zlen E)) to =
      Ok (size * (ks + zlen E), size * (kd + zlen E), to') ∧ written to kd E to'.
Proof.
  intros Hkd Hh HE Hb. destruct Hdiv as [c Hc].
  destruct (lookup_lt_is_Some_2 E (length E - 1)) as [x Hx]; [destruct E; [done|cbn; lia]|].
  pose proof (has_bound _ _ _ (Hh _ _ Hx)) as (Hk0 & Hk1 & _). apply lookup_lt_Some in Hx.
  destruct E as [|y E]; [done|]. set (m := length (y :: E)) in *.
  destruct (Hh 0%nat y eq_refl) as [Hks _]. assert (0 < c) by nia.
  set (k := (Z.to_nat c * m)%nat). assert (step * Z.of_nat k = size * Z.of_nat m) as Ek by (unfold k; nia).
  replace (size * (ks + Z.of_nat m)) with (size * ks + step * Z.of_nat k) by lia.
  rewrite COPY_LIST_run; [|done|nia|nia|nia| |nia|nia].
  2:{ assert (Z.of_nat k ≤ zlen (ar_bytes from)); [nia|lia]. }
  eexists. split; [do 4 f_equal; lia|]. rewrite Ek. apply (copied _ _ _ _ (y :: E)); fold m; [lia|lia|done| |lia].
  replace (ks + Z.of_nat m) with (ks + Z.of_nat (m - 1) + 1) by (unfold m; cbn [length]; lia). done.
Qed.

Lemma copy_elt from to ks kd x :
  0 ≤ kd → has from ks x → size < 2 ^ 64 → size * (kd + 1) ≤ zlen (ar_bytes to) →
  ∃ to', COPY_ELT (Z.to_nat size) step from (size * ks) (size * kd) size to = Ok (size * (ks + 1), size * (kd + 1), to') ∧
    written to kd [x] to'.
Proof.
  intros Hkd Hx Hw Hb. destruct Hdiv as [c Hc]. pose proof (has_bound _ _ _ Hx) as (Hk0 & Hk1 & _).
  assert (0 < c) by nia. assert (step * Z.of_nat (Z.to_nat c) = size) as Ek by (rewrite Z2Nat.id; lia).
  pose proof (COPY_ELT_run step from (Z.to_nat c) (Z.to_nat size) (size * ks) (size * kd) to) as Hrun. rewrite Ek in Hrun.
  rewrite Hrun; [|done|nia|nia|lia|nia|lia|lia|lia].
  eexists. split; [do 4 f_equal; lia|]. pose proof (copied from to ks kd [x]) as Hc1. cbn [length] in Hc1. rewrite Z.mul_1_r in Hc1.
  apply Hc1; [lia|lia|by apply holds_one|lia|lia].
Qed.
End Copies.

(** ** Exchanging *)

Lemma load_one (l : list Z) p : 0 ≤ p < zlen l → ∃ x, l !! Z.to_nat p = Some x ∧ load_bytes p 1 l = Ok [x].
Proof.
  intros Hp. destruct (lookup_lt_is_Some_2 l (Z.to_nat p)) as [x Hx]; [lia|]. exists x. split; [done|].
  rewrite load_bytes_Ok by lia. unfold slice. by rewrite (drop_S _ _ _ Hx).
Qed.

Lemma swap_bytes_run i : ∀ a s l,
  0 ≤ a → a + Z.of_nat i ≤ s → s + Z.of_nat i ≤ zlen (ar_bytes l) →
  ∃ bytes, swap_bytes i a s l = Ok (mkArea (ar_addr l) bytes) ∧ length bytes = length (ar_bytes l) ∧
    ∀ j, 0 ≤ j → bytes !! Z.to_nat j =
      ar_bytes l !! Z.to_nat (if bool_decide (a ≤ j < a + Z.of_nat i) then s + (j - a)
                              else if bool_decide (s ≤ j < s + Z.of_nat i) then a + (j - s) else j).
Proof.
  induction i as [|i IH]; intros a s l Ha Has Hs; cbn [swap_bytes].
  - exists (ar_bytes l). split; [by destruct l|]. split; [done|]. intros j Hj. by rewrite !bool_decide_false by lia.
  - destruct (load_one (ar_bytes l) a) as (x & Hx & ->); [lia|]. destruct (load_one (ar_bytes l) s) as (y & Hy & ->); [lia|].
    cbn [mbind outcome_bind]. rewrite put_at_Ok by (cbn [length]; lia). cbn [mbind outcome_bind].
    rewrite put_at_Ok; cbn [ar_bytes ar_addr]; [|lia|rewrite splice_length by (cbn [length]; lia); cbn [length]; lia]. cbn [mbind outcome_bind].
    set (b1 := splice a [y] (ar_bytes l)). set (b2 := splice s [x] b1).
    assert (length b1 = length (ar_bytes l)) as E1 by (apply splice_length; cbn [length]; lia).
    assert (length b2 = length (ar_bytes l)) as E2 by (rewrite <- E1; apply splice_length; cbn [length]; lia).
    destruct (IH (a + 1) (s + 1) (mkArea (ar_addr l) b2)) as (bytes & E & El & Hb); cbn [ar_bytes ar_addr]; [lia|lia|lia|].
    exists bytes. split; [exact E|]. split; [cbn [ar_bytes] in El; lia|]. intros j Hj. rewrite Hb by done. cbn [ar_bytes].
    assert (∀ j, 0 ≤ j → b2 !! Z.to_nat j = if decide (j = s) then Some x else if decide (j = a) then Some y else ar_bytes l !! Z.to_nat j) as Hb2.
    { intros j' Hj'. unfold b2, b1. rewrite !lookup_splice; cbn [length]; try lia; [|rewrite splice_length by (cbn [length]; lia); lia].
      repeat case_bool_decide; repeat case_decide; try lia; subst; by rewrite ?Z.sub_diag. }
    repeat case_bool_decide; rewrite Hb2 by lia; repeat case_decide; try lia; try (f_equal; lia); subst.
    + rewrite <- Hy. f_equal. lia.
    + rewrite <- Hx. f_equal. lia.
Qed.

(** Two elements change places. *)
Record swapped l i j (x y : list Z) l' : Prop := {
  sw_addr : ar_addr l' = ar_addr l;
  sw_length : zlen (ar_bytes l') = zlen (ar_bytes l);
  sw_low : has l' i y;
  sw_high : has l' j x;
  sw_frame : ∀ p n, p + n ≤ size * i ∨ size * (i + 1) ≤ p → p + n ≤ size * j ∨ size * (j + 1) ≤ p →
    load_bytes p n (ar_bytes l') = load_bytes p n (ar_bytes l)
}.

Lemma swap_any l i j x y :
  has l i x → has l j y → i < j → ∃ l', swap_bytes (Z.to_nat size) (size * i) (size * j) l = Ok l' ∧ swapped l i j x y l'.
Proof.
  intros Hx Hy Hij. pose proof (has_bound _ _ _ Hx) as (Hk & _ & _). pose proof (has_bound _ _ _ Hy) as (_ & Hb & _).
  destruct (swap_bytes_run (Z.to_nat size) (size * i) (size * j) l) as (bytes & E & El & Hj); [nia|nia|nia|].
  exists (mkArea (ar_addr l) bytes). split; [exact E|]. split; cbn [ar_addr ar_bytes]; [done|lia|..].
  - split; [lia|]. cbn [ar_bytes]. destruct Hy as [_ <-].
    rewrite (load_same (ar_bytes l) bytes (size * i) (size * (j - i)) size); [f_equal; nia|nia..|].
    intros p Hr. rewrite Hj by nia. rewrite bool_decide_true by nia. f_equal. nia.
  - split; [lia|]. cbn [ar_bytes]. destruct Hx as [_ <-].
    rewrite (load_same (ar_bytes l) bytes (size * j) (size * (i - j)) size); [f_equal; nia|nia..|].
    intros p Hr. rewrite Hj by nia. rewrite bool_decide_false, bool_decide_true by nia. f_equal. nia.
  - intros p n Hd1 Hd2. destruct (decide (0 ≤ p ∧ 0 ≤ n ∧ p + n ≤ zlen (ar_bytes l))) as [(? & ? & ?)|Hn].
    + rewrite <- (Z.add_0_r p) at 2. apply load_same; [lia..|]. intros p' Hr. rewrite Hj by lia.
      rewrite !bool_decide_false by nia. f_equal. lia.
    + unfold load_bytes. rewrite !bool_decide_false; [done|exact Hn|]. by rewrite El.
Qed.

Lemma swap_run l k x y :
  has l k x → has l (k + 1) y → ∃ l', swap size (size * k) (size * (k + 1)) l = Ok l' ∧ written l k [y; x] l'.
Proof.
  intros Hx Hy. destruct (swap_any l k (k + 1) x y) as (l' & E & [Ha Hl H1 H2 Hf]); [done|done|lia|]. exists l'. split; [done|].
  split; [done|done|by rewrite holds_cons, holds_one|]. cbn [length]. intros p n Hd. apply Hf; nia.
Qed.

(** ** Pointers *)

(** The run at [k] ends at [v]. *)
Definition ends_at l k v : Prop := load_ptr l (size * k) = Ok (size * v).

(** Addresses are those of a 64-bit machine. *)
Definition placed l : Prop := 0 ≤ ar_addr l ∧ ar_addr l + zlen (ar_bytes l) + 8 < 2 ^ 64.

Lemma EVAL_at l k : placed l → 0 ≤ k → size * k ≤ zlen (ar_bytes l) →
  ∃ w, EVAL l (size * k) = 8 * w - ar_addr l ∧ size * k ≤ EVAL l (size * k) < size * k + 8.
Proof. intros [? ?] ? ?. apply EVAL_spec; nia. Qed.

(** What storing a pointer leaves. *)
Record stored l k l' : Prop := {
  st_addr : ar_addr l' = ar_addr l;
  st_length : zlen (ar_bytes l') = zlen (ar_bytes l);
  st_frame : ∀ p n, p + n ≤ EVAL l (size * k) ∨ EVAL l (size * k) + 8 ≤ p → load_bytes p n (ar_bytes l') = load_bytes p n (ar_bytes l)
}.

Lemma store_ptr_run l k v :
  placed l → 0 ≤ k → size * k ≤ zlen (ar_bytes l) → EVAL l (size * k) + 8 ≤ zlen (ar_bytes l) → 0 ≤ v → size * v ≤ zlen (ar_bytes l) →
  ∃ l', store_ptr (size * k) (size * v) l = Ok l' ∧ stored l k l' ∧ ends_at l' k v.
Proof.
  intros Hp Hk Hkb Hb Hv Hvb. destruct (EVAL_at l k Hp Hk Hkb) as (w & _ & He).
  destruct Hp as [Hp1 Hp2].
  unfold store_ptr. assert (zlen (le_enc 8 (u64 (ar_addr l + size * v))) = 8) as El by (by rewrite le_enc_length).
  rewrite put_at_Ok by nia. eexists. split; [done|]. split.
  - split; cbn [ar_addr ar_bytes]; [done|rewrite splice_length by nia; done|]. intros p n Hd. apply load_splice_out; nia.
  - unfold ends_at, load_ptr. change (EVAL (mkArea _ _) (size * k)) with (EVAL l (size * k)). cbn [ar_bytes ar_addr].
    rewrite load_splice_in by (unfold PSIZE; nia). rewrite Z.sub_diag, load_bytes_Ok by (unfold PSIZE; lia). cbn [mbind outcome_bind].
    unfold slice. rewrite drop_0, take_ge by (unfold PSIZE; lia). rewrite le_dec_enc; rewrite u64_id by (unfold is_u64; nia); [f_equal; lia|].
    change (256 ^ Z.of_nat 8) with (2 ^ 64). nia.
Qed.

Lemma ends_at_same l l' k v :
  ar_addr l' = ar_addr l →
  load_bytes (EVAL l (size * k)) 8 (ar_bytes l') = load_bytes (EVAL l (size * k)) 8 (ar_bytes l) → ends_at l k v → ends_at l' k v.
Proof. intros Ea El. unfold ends_at, load_ptr, EVAL, PSIZE in *. by rewrite Ea, El. Qed.
End Areas.
