(* ===== verification/MergeSearch.v ===== *)
(** The searches of merge sort: one by one, by doubling and by halving, all find
    where a run passes an element. *)

From Stdlib Require Import ZifyNat.
From S2P Require Import Prelude Errors Merge MergeAreas.

Section Search.
Context (cmp : list Z → list Z → Z) (size : Z) (Hsize : 4 ≤ size).

Lemma compare_run l i j x y : has size l i x → has size l j y → compare cmp size l (size * i) (size * j) = Ok (cmp x y).
Proof. intros [_ Hx] [_ Hy]. unfold compare. by rewrite Hx, Hy. Qed.

(** The run [e] goes from [lo] to [T]; the element [x] at [q] is looked for. *)
Context (l : area) (q lo T sense : Z) (x : list Z) (e : Z → list Z).
Hypothesis (Hq : has size l q x) (He : ∀ k, lo ≤ k < T → has size l k (e k)) (Hlo : 0 ≤ lo) (HT : size * T < 2 ^ 62).

(** [x] comes after element [k]. *)
Definition before (k : Z) : Prop := sense < cmp x (e k).

(** The place in the run from [b] on. *)
Definition place (b r : Z) : Prop := b < r ≤ T ∧ (before b → before (r - 1) ∧ (r = T ∨ ¬ before r)).

Lemma compare_at k : lo ≤ k < T → compare cmp size l (size * q) (size * k) = Ok (cmp x (e k)).
Proof. intros Hk. by apply compare_run; [|apply He]. Qed.

Lemma one_by_one_run : ∀ fuel b i,
  lo ≤ b < T → 0 ≤ i < 6 → 6 - i < Z.of_nat fuel →
  ∃ far r, one_by_one cmp size fuel l (size * q) (size * T) sense (size * b) i = Ok (far, size * r) ∧ b < r ≤ T ∧
    if far : bool then r < T ∧ before r else before b → before (r - 1) ∧ (r = T ∨ ¬ before r).
Proof.
  induction fuel as [|fuel IH]; intros b i Hb Hi Hf; [lia|]. cbn [one_by_one].
  replace (size * b + size) with (size * (b + 1)) by lia.
  destruct (Z.ltb_spec (size * (b + 1)) (size * T)) as [Hlt|Hge].
  - rewrite compare_at by nia. cbn [mbind outcome_bind]. destruct (Z.ltb_spec sense (cmp x (e (b + 1)))) as [Hc|Hc].
    + destruct (Z.eqb_spec (i + 1) 6).
      * exists true, (b + 1). split; [done|]. split; [nia|]. split; [nia|done].
      * destruct (IH (b + 1) (i + 1)) as (far & r & E & Hr & Hp); [nia|lia|lia|]. exists far, r. split; [done|]. split; [lia|].
        destruct far; [done|]. intros _. by apply Hp.
    + exists false, (b + 1). split; [done|]. split; [nia|]. replace (b + 1 - 1) with b by lia. intros Hb0.
      split; [done|]. right. unfold before. lia.
  - exists false, (b + 1). split; [done|]. split; [nia|]. replace (b + 1 - 1) with b by lia. intros Hb0. split; [done|]. left. nia.
Qed.

Lemma bisect_run : ∀ fuel b t,
  lo ≤ b < t → t ≤ T → t - b ≤ Z.of_nat fuel →
  ∃ r, bisect cmp size fuel l (size * q) sense (size * b) (size * t) = Ok (size * r) ∧ b < r ≤ t ∧
    (before b → t = T ∨ ¬ before t → before (r - 1) ∧ (r = T ∨ ¬ before r)).
Proof.
  induction fuel as [|fuel IH]; intros b t Hb Ht Hf; [lia|]. cbn [bisect].
  destruct (Z.ltb_spec (size * b + size) (size * t)) as [Hlt|Hge].
  - replace ((size * t - size * b) / size) with (t - b) by (replace (size * t - size * b) with ((t - b) * size) by lia; rewrite Z.div_mul; lia).
    set (h := Z.shiftr (t - b) 1). assert (1 ≤ h < t - b) as Hh.
    { unfold h. rewrite Z.shiftr_div_pow2 by lia. change (2 ^ 1) with 2. pose proof (Z.div_mod (t - b) 2). pose proof (Z.mod_pos_bound (t - b) 2). nia. }
    replace (size * b + h * size) with (size * (b + h)) by lia. rewrite compare_at by lia. cbn [mbind outcome_bind].
    destruct (Z.leb_spec (cmp x (e (b + h))) sense) as [Hc|Hc].
    + destruct (IH b (b + h)) as (r & E & Hr & Hp); [lia|lia|lia|]. exists r. split; [done|]. split; [lia|].
      intros Hb0 _. apply Hp; [done|]. right. unfold before. lia.
    + destruct (IH (b + h) t) as (r & E & Hr & Hp); [lia|lia|lia|]. exists r. split; [done|]. split; [lia|]. intros _ Ht0. by apply Hp.
  - exists t. split; [done|]. split; [lia|]. intros Hb0 Ht0. replace (t - 1) with b by nia. done.
Qed.

Lemma fastcase_run m : ∀ fuel b,
  lo ≤ b → b + 2 ^ Z.of_nat m ≤ T → (m ≤ fuel)%nat →
  ∃ r, fastcase cmp size fuel l (size * q) sense (size * b) (size * (b + 2 ^ Z.of_nat m)) (size * 2 ^ Z.of_nat m) = Ok (size * r) ∧
    b < r ≤ b + 2 ^ Z.of_nat m ∧
    (before b → b + 2 ^ Z.of_nat m = T ∨ ¬ before (b + 2 ^ Z.of_nat m) → before (r - 1) ∧ (r = T ∨ ¬ before r)).
Proof.
  induction m as [|m IH]; intros fuel b Hb Ht Hf.
  - exists (b + 1). change (2 ^ Z.of_nat 0) with 1. rewrite Z.mul_1_r. replace (b + 1 - 1) with b by lia.
    split; [|split; [lia|done]]. destruct fuel; cbn [fastcase]; by rewrite Z.ltb_irrefl.
  - destruct fuel as [|fuel]; [lia|]. cbn [fastcase]. rewrite Nat2Z.inj_succ, Z.pow_succ_r in * by lia.
    pose proof (Z.pow_pos_nonneg 2 (Z.of_nat m)). set (h := 2 ^ Z.of_nat m) in *.
    rewrite (proj2 (Z.ltb_lt _ _)) by nia.
    replace (Z.shiftr (size * (2 * h)) 1) with (size * h).
    2:{ rewrite Z.shiftr_div_pow2 by lia. change (2 ^ 1) with 2. replace (size * (2 * h)) with (size * h * 2) by lia. by rewrite Z.div_mul. }
    replace (size * b + size * h) with (size * (b + h)) by lia. rewrite compare_at by lia. cbn [mbind outcome_bind].
    destruct (Z.leb_spec (cmp x (e (b + h))) sense) as [Hc|Hc].
    + destruct (IH fuel b) as (r & E & Hr & Hp); [lia|lia|lia|]. exists r. split; [done|]. split; [lia|].
      intros Hb0 _. apply Hp; [done|]. right. unfold before. lia.
    + destruct (IH fuel (b + h)) as (r & E & Hr & Hp); [lia|lia|lia|]. replace (b + h + h) with (b + 2 * h) in * by lia.
      exists r. split; [done|]. split; [lia|]. intros _. by apply Hp.
Qed.

Lemma exponential_run : ∀ fuel m b big,
  lo ≤ b < T → T - b < Z.of_nat fuel → 2 ^ Z.of_nat m < 2 ^ 62 →
  ∃ r big', exponential cmp size fuel l (size * q) sense (size * b) (size * T) (size * 2 ^ Z.of_nat m) big = Ok (size * r, big') ∧ place b r.
Proof.
  induction fuel as [|fuel IH]; intros m b big Hb Hf Hm; [lia|]. cbn [exponential].
  pose proof (Z.pow_pos_nonneg 2 (Z.of_nat m)). set (i := 2 ^ Z.of_nat m) in *.
  destruct (Z.leb_spec (size * T) (size * b + size * i)) as [Hge|Hlt].
  - replace (size * T - size) with (size * (T - 1)) by lia. destruct (Z.ltb_spec (size * b) (size * (T - 1))) as [Hp|Hp].
    + rewrite compare_at by nia. cbn [mbind outcome_bind]. destruct (Z.leb_spec (cmp x (e (T - 1))) sense) as [Hc|Hc].
      * destruct (bisect_run (S fuel) b (T - 1)) as (r & -> & Hr & Hr'); [nia|lia|lia|]. exists r, big. split; [done|]. split; [lia|].
        intros Hb0. apply Hr'; [done|]. right. unfold before. lia.
      * destruct (bisect_run (S fuel) (T - 1) T) as (r & -> & Hr & Hr'); [nia|lia|lia|]. exists r, big. split; [done|]. split; [lia|].
        intros Hb0. apply Hr'; [done|]. by left.
    + cbn [mbind outcome_bind]. destruct (bisect_run (S fuel) (T - 1) T) as (r & -> & Hr & Hr'); [nia|lia|lia|].
      exists r, big. split; [done|]. split; [nia|]. intros Hb0. apply Hr'; [|by left]. by replace (T - 1) with b by nia.
  - replace (size * b + size * i) with (size * (b + i)) by lia. rewrite compare_at by nia. cbn [mbind outcome_bind].
    destruct (Z.leb_spec (cmp x (e (b + i))) sense) as [Hc|Hc].
    + destruct (fastcase_run m (S fuel) b) as (r & Ef & Hr & Hr'); [lia|nia| |].
      { assert (Z.of_nat m < i); [apply Z.pow_gt_lin_r; lia|nia]. }
      fold i in Ef, Hr, Hr'. rewrite Ef. cbn [mbind outcome_bind]. eexists r, _. split; [done|]. split; [nia|]. intros Hb0.
      apply Hr'; [done|]. right. unfold before. lia.
    + replace (u64 (Z.shiftl (size * i) 1)) with (size * 2 ^ Z.of_nat (S m)).
      2:{ rewrite Nat2Z.inj_succ, Z.pow_succ_r by lia. fold i. rewrite Z.shiftl_mul_pow2 by lia. change (2 ^ 1) with 2.
          rewrite u64_id; [lia|]. unfold is_u64. nia. }
      destruct (IH (S m) (b + i) big) as (r & big' & E & Hr & Hp).
      * nia.
      * lia.
      * rewrite Nat2Z.inj_succ, Z.pow_succ_r by lia. fold i. nia.
      * exists r, big'. split; [done|]. split; [lia|]. intros _. by apply Hp.
Qed.

(** Whatever the state of [big], the search answers the place. *)
Lemma search_run b big :
  lo ≤ b < T → T ≤ zlen (ar_bytes l) - 1 →
  ∃ r big', search cmp size l (size * q) (size * T) sense (size * b) big = Ok (size * r, big') ∧ place b r.
Proof.
  intros Hb HL. unfold search. pose proof (λ b, exponential_run (length (ar_bytes l)) 0 b true) as Hexp.
  change (2 ^ Z.of_nat 0) with 1 in Hexp. rewrite Z.mul_1_r in Hexp.
  destruct big; [apply Hexp; lia|].
  destruct (one_by_one_run 7 b 0) as (far & r & -> & Hr & Hp); [lia|lia|lia|]. cbn [mbind outcome_bind].
  destruct far.
  - destruct Hp as [Hr1 Hp]. destruct (Hexp r) as (r' & big' & -> & Hr' & Hp'); [lia|lia|lia|]. exists r', big'. split; [done|].
    split; [lia|]. intros _. by apply Hp'.
  - exists r, false. done.
Qed.
End Search.
