(* ===== verification/MergeRuns.v ===== *)
(** Merging two runs: the elements of both, in order, equal ones in the order
    they had. *)

From Stdlib Require Import Sorting.Sorted ZifyNat.
From S2P Require Import Prelude Errors Sort Merge MergeAreas MergeSearch.

(** * Lists of elements *)

Section Lists.
Context {A : Type} (cmp : A → A → Z).
Implicit Types (E X Y C : list A).

Definition sorted E : Prop := StronglySorted (λ x y, cmp x y ≤ 0) E.

(** The elements equal to [x], in their order. *)
Definition equals (x : A) E : list A := filter (λ y, cmp x y = 0) E.

(** The same elements, equal ones in the same order. *)
Definition stably E E' : Prop := ∀ x, equals x E' = equals x E.

(** [C] is what merging [X] and [Y] has to give; without an order it has the same
    elements. *)
Definition merged X Y C : Prop :=
  C ≡ₚ X ++ Y ∧ (cmp_ordered cmp → sorted X → sorted Y → sorted C ∧ stably (X ++ Y) C).

Lemma equals_app x E1 E2 : equals x (E1 ++ E2) = equals x E1 ++ equals x E2.
Proof. apply filter_app. Qed.

Lemma stably_app E1 E2 E1' E2' : stably E1 E1' → stably E2 E2' → stably (E1 ++ E2) (E1' ++ E2').
Proof. intros H1 H2 x. by rewrite !equals_app, H1, H2. Qed.

Lemma stably_trans E1 E2 E3 : stably E1 E2 → stably E2 E3 → stably E1 E3.
Proof. intros H1 H2 x. by rewrite H2, H1. Qed.

Context (Ho : cmp_ordered cmp).

Lemma cmp_opp x y : cmp x y = 0 ↔ cmp y x = 0.
Proof. destruct Ho as [H _]. pose proof (H x y). pose proof (H y x). lia. Qed.

Lemma cmp_le x y : cmp x y ≤ 0 ↔ 0 ≤ cmp y x.
Proof. destruct Ho as [H _]. pose proof (H y x). lia. Qed.

Lemma cmp_lt x y : cmp x y < 0 ↔ 0 < cmp y x.
Proof. apply Ho. Qed.

Lemma cmp_self x : cmp x x = 0.
Proof. pose proof (cmp_lt x x). lia. Qed.

Lemma le_lt_trans x y z : cmp x y ≤ 0 → cmp y z < 0 → cmp x z < 0.
Proof.
  intros H1 H2. destruct (decide (cmp x z < 0)) as [|Hn]; [done|]. assert (cmp z x ≤ 0) by (apply cmp_le; lia).
  pose proof (co_trans _ Ho z x y). assert (cmp z y ≤ 0) as Hzy by auto. apply cmp_le in Hzy. lia.
Qed.

Lemma lt_le_trans x y z : cmp x y < 0 → cmp y z ≤ 0 → cmp x z < 0.
Proof.
  intros H1 H2. destruct (decide (cmp x z < 0)) as [|Hn]; [done|]. assert (cmp z x ≤ 0) by (apply cmp_le; lia).
  pose proof (co_trans _ Ho y z x). assert (cmp y x ≤ 0) as Hyx by auto. apply cmp_le in Hyx. lia.
Qed.

(** Smaller elements may go first. *)
Lemma stably_swap X Y : (∀ x y, x ∈ X → y ∈ Y → cmp y x < 0) → stably (X ++ Y) (Y ++ X).
Proof.
  intros Hlt z. rewrite !equals_app. destruct (equals z X) as [|x X'] eqn:Ex; [by rewrite app_nil_r|].
  assert (equals z Y = []) as ->; [|by rewrite app_nil_r].
  assert (x ∈ equals z X) as Hx by (rewrite Ex; left). apply list_elem_of_filter in Hx as [Hzx Hx].
  destruct (equals z Y) as [|y Y'] eqn:Ey; [done|]. exfalso.
  assert (y ∈ equals z Y) as Hy by (rewrite Ey; left). apply list_elem_of_filter in Hy as [Hzy Hy].
  pose proof (Hlt x y Hx Hy). apply cmp_opp in Hzx. pose proof (lt_le_trans y x z ltac:(done) ltac:(lia)). apply cmp_opp in Hzy. lia.
Qed.

Lemma sorted_app X Y : sorted (X ++ Y) ↔ sorted X ∧ sorted Y ∧ ∀ x y, x ∈ X → y ∈ Y → cmp x y ≤ 0.
Proof.
  induction X as [|x X IH]; cbn.
  - split; [intros H; split; [constructor|split; [done|]]|by intros (_ & ? & _)]. intros ? ? []%elem_of_nil.
  - split.
    + intros Hs. apply StronglySorted_inv in Hs as [Hs Hf]. apply IH in Hs as (H1 & H2 & H3). rewrite Forall_app in Hf. destruct Hf as [F1 F2].
      split; [by constructor|]. split; [done|]. intros a b [->|Ha]%elem_of_cons Hb; [|by apply H3]. by eapply Forall_forall in F2.
    + intros (H1 & H2 & H3). apply StronglySorted_inv in H1 as [H1 F1]. constructor.
      * apply IH. split; [done|]. split; [done|]. intros a b Ha. apply H3. by right.
      * apply Forall_app. split; [done|]. apply Forall_forall. intros b Hb. apply H3; [left|done].
Qed.

(** A run up to where the other one's element comes, and that element. *)
Lemma merge_left X1 X2 y Y C :
  C ≡ₚ X2 ++ Y → sorted C → stably (X2 ++ Y) C → sorted (X1 ++ X2) → sorted (y :: Y) →
  Forall (λ x, -1 < cmp y x) X1 → Forall (λ x, cmp y x ≤ -1) X2 →
  sorted (X1 ++ [y] ++ C) ∧ stably ((X1 ++ X2) ++ y :: Y) (X1 ++ [y] ++ C).
Proof.
  intros HC HsC Hst HX HY F1 F2. apply sorted_app in HX as (HX1 & HX2 & HX12). apply StronglySorted_inv in HY as [HY Fy].
  rewrite Forall_forall in F1, F2, Fy. assert (∀ x, x ∈ X1 → cmp x y ≤ 0) as L1 by (intros x Hx; apply cmp_le; pose proof (F1 x Hx); lia).
  assert (∀ c, c ∈ C → cmp y c ≤ 0) as LC.
  { intros c Hc. rewrite HC in Hc. apply elem_of_app in Hc as [Hc|Hc]; [pose proof (F2 c Hc); lia|by apply Fy]. }
  split.
  - apply sorted_app. split; [done|]. split.
    + constructor; [done|]. by apply Forall_forall.
    + intros x c Hx [->|Hc]%elem_of_cons; [by apply L1|]. eapply (co_trans _ Ho); [by apply L1|by apply LC].
  - rewrite <- app_assoc. apply stably_app; [done|]. change (y :: Y) with ([y] ++ Y). rewrite app_assoc.
    eapply stably_trans; [apply stably_app; [apply stably_swap|done]|rewrite <- app_assoc; by apply stably_app].
    intros x z Hx ->%list_elem_of_singleton. pose proof (F2 x Hx). lia.
Qed.

(** The elements of the second run that are smaller, and the first run's. *)
Lemma merge_right x X Y1 Y2 C :
  C ≡ₚ X ++ Y2 → sorted C → stably (X ++ Y2) C → sorted (x :: X) → sorted (Y1 ++ Y2) →
  Forall (λ y, 0 < cmp x y) Y1 → Forall (λ y, cmp x y ≤ 0) Y2 →
  sorted (Y1 ++ [x] ++ C) ∧ stably ((x :: X) ++ Y1 ++ Y2) (Y1 ++ [x] ++ C).
Proof.
  intros HC HsC Hst HX HY F1 F2. apply sorted_app in HY as (HY1 & HY2 & HY12). apply StronglySorted_inv in HX as [HX Fx].
  rewrite Forall_forall in F1, F2, Fx. assert (∀ y, y ∈ Y1 → cmp y x < 0) as L1 by (intros y Hy; apply cmp_lt; by apply F1).
  assert (∀ c, c ∈ C → cmp x c ≤ 0) as LC.
  { intros c Hc. rewrite HC in Hc. apply elem_of_app in Hc as [Hc|Hc]; [by apply Fx|by apply F2]. }
  split.
  - apply sorted_app. split; [done|]. split.
    + constructor; [done|]. by apply Forall_forall.
    + intros y c Hy [->|Hc]%elem_of_cons; [pose proof (L1 y Hy); lia|].
      eapply (co_trans _ Ho); [|by apply LC]. pose proof (L1 y Hy). lia.
  - rewrite app_assoc. eapply stably_trans; [apply stably_app; [apply stably_swap|done]|].
    + intros z y [->|Hz]%elem_of_cons Hy; [by apply L1|]. eapply lt_le_trans; [by apply L1|by apply Fx].
    + rewrite <- app_assoc. apply stably_app; [done|]. by apply (stably_app [x] (X ++ Y2)).
Qed.

(** Earlier elements of a run come before [x] when later ones do. *)
Lemma comes_before sense x a b : sense = -1 ∨ sense = 0 → cmp a b ≤ 0 → sense < cmp x b → sense < cmp x a.
Proof.
  intros [-> | ->] Hab Hb.
  - assert (cmp b x ≤ 0) by (apply cmp_le; lia). pose proof (co_trans _ Ho a b x). assert (cmp a x ≤ 0) as Hax by auto. apply cmp_le in Hax. lia.
  - apply cmp_lt. eapply le_lt_trans; [done|]. by apply cmp_lt.
Qed.
End Lists.

(** * Two runs in memory *)

Section Runs.
Context (cmp : list Z → list Z → Z) (size step : Z) (Hsize : 4 ≤ size) (Hstep : 0 < step) (Hdiv : (step | size)).
Implicit Types (X Y C : list (list Z)).
Abbreviation holds := (holds size).
Abbreviation written := (written size).

(** The search in a run, in terms of its elements. *)
Lemma search_split l kq x k X sense big :
  has size l kq x → holds l k X → X ≠ [] → 0 ≤ k → size * (k + zlen X) < 2 ^ 62 → size * (k + zlen X) ≤ zlen (ar_bytes l) →
  ∃ X1 X2 big', X = X1 ++ X2 ∧ X1 ≠ [] ∧
    search cmp size l (size * kq) (size * (k + zlen X)) sense (size * k) big = Ok (size * (k + zlen X1), big') ∧
    (cmp_ordered cmp → sorted cmp X → sense = -1 ∨ sense = 0 → (∀ h, head X = Some h → sense < cmp x h) →
     Forall (λ y, sense < cmp x y) X1 ∧ Forall (λ y, cmp x y ≤ sense) X2).
Proof.
  intros Hx HX Hne Hk HT HL. assert (0 < zlen X) by (destruct X; [done|cbn; lia]). set (e := λ i, X !!! Z.to_nat (i - k)).
  assert (∀ i, k ≤ i < k + zlen X → has size l i (e i)) as He.
  { intros i Hi. replace i with (k + Z.of_nat (Z.to_nat (i - k))) at 1 by lia. apply HX. apply list_lookup_lookup_total_lt. lia. }
  destruct (search_run cmp size Hsize l kq k (k + zlen X) sense x e Hx He Hk HT k big) as (r & big' & -> & Hr & Hp); [lia|nia|].
  set (m := Z.to_nat (r - k)). exists (take m X), (drop m X), big'. assert (length (take m X) = m) as Em by (rewrite length_take; lia).
  split; [by rewrite take_drop|]. split; [intros E0; rewrite E0 in Em; cbn in Em; lia|]. split; [do 3 f_equal; lia|].
  intros Ho Hs Hsense Hh. unfold before in Hp. destruct Hp as [Hp1 Hp2].
  { unfold e. rewrite Z.sub_diag. destruct X as [|h X]; [done|]. by apply Hh. }
  rewrite <- (take_drop m X) in Hs. apply sorted_app in Hs as (Hs1 & Hs2 & _).
  assert (∀ i, k ≤ i < k + zlen X → X !! Z.to_nat (i - k) = Some (e i)) as HX' by (intros i Hi; apply list_lookup_lookup_total_lt; lia).
  split.
  - assert (∃ Z1, take m X = Z1 ++ [e (r - 1)]) as [Z1 EZ].
    { exists (take (m - 1) X). replace m with (S (m - 1)) at 1 by lia. apply take_S_r. rewrite <- HX' by lia. f_equal. lia. }
    rewrite EZ in *. apply sorted_app in Hs1 as (_ & _ & Hle). apply Forall_app. split; [|by constructor].
    apply Forall_forall. intros y Hy. eapply comes_before; [done|done| |exact Hp1]. apply Hle; [done|left].
  - destruct Hp2 as [->|Hp2]; [rewrite drop_ge by lia; constructor|].
    destruct (decide (r = k + zlen X)) as [->|]; [rewrite drop_ge by lia; constructor|].
    assert (drop m X = e r :: drop (S m) X) as ED by (apply drop_S; rewrite <- HX' by lia; f_equal; lia).
    rewrite ED in *. apply StronglySorted_inv in Hs2 as [_ F]. constructor; [lia|].
    eapply Forall_impl; [exact F|]. cbv beta. intros y Hy. destruct (decide (cmp x y ≤ sense)); [done|]. exfalso. apply Hp2.
    eapply comes_before; [done|done|exact Hy|lia].
Qed.

Lemma merged_nil_l Y : merged cmp [] Y Y.
Proof. split; [done|]. by intros _ _ ?. Qed.

Lemma merged_nil_r X : merged cmp X [] X.
Proof. split; [by rewrite app_nil_r|]. rewrite app_nil_r. by intros _ ? _. Qed.

Lemma merged_left X1 X2 y Y C :
  (cmp_ordered cmp → sorted cmp (X1 ++ X2) → Forall (λ x, -1 < cmp y x) X1 ∧ Forall (λ x, cmp y x ≤ -1) X2) →
  merged cmp X2 Y C → merged cmp (X1 ++ X2) (y :: Y) ((X1 ++ [y]) ++ C).
Proof.
  intros Hp [HC HCs]. rewrite <- app_assoc. split; [rewrite HC, <- app_assoc; apply Permutation_app_head, (Permutation_middle X2 Y y)|].
  intros Ho HsX HsY. destruct (Hp Ho HsX). destruct HCs as [HCs HCst]; [done|by apply sorted_app in HsX as (_ & ? & _)|by apply StronglySorted_inv in HsY as [? _]|].
  by apply merge_left.
Qed.

Lemma merged_right x X Y1 Y2 C :
  (cmp_ordered cmp → sorted cmp (Y1 ++ Y2) → Forall (λ y, 0 < cmp x y) Y1 ∧ Forall (λ y, cmp x y ≤ 0) Y2) →
  merged cmp X Y2 C → merged cmp (x :: X) (Y1 ++ Y2) ((Y1 ++ [x]) ++ C).
Proof.
  intros Hp [HC HCs]. rewrite <- app_assoc. split; [rewrite HC; apply (Permutation_app_swap_app Y1 (x :: X) Y2)|].
  intros Ho HsX HsY. destruct (Hp Ho HsY). destruct HCs as [HCs HCst]; [done|by apply StronglySorted_inv in HsX as [? _]|by apply sorted_app in HsY as (_ & ? & _)|].
  by apply merge_right.
Qed.

(** The end of a turn: elements of one run, and one of the other. *)
Lemma copy_turn from to f X g x tp2 :
  0 ≤ tp2 → holds from f X → X ≠ [] → has size from g x → size < 2 ^ 64 → size * (tp2 + zlen X + 1) ≤ zlen (ar_bytes to) →
  ∃ to', (∀ K : Z → Z → Z → area → outcome merging,
      ('(f, tp, l) ← COPY_LIST (length (ar_bytes from)) step from (size * f) (size * tp2) (size * (f + zlen X)) to;
       '(g, tp, l) ← COPY_ELT (Z.to_nat size) step from (size * g) tp size l; K f g tp l) =
      K (size * (f + zlen X)) (size * (g + 1)) (size * (tp2 + zlen (X ++ [x]))) to') ∧ written to tp2 (X ++ [x]) to'.
Proof.
  intros Htp HX Hne Hx Hs Hb.
  destruct (copy_list size Hsize step Hstep Hdiv from to f tp2 X) as (to1 & -> & Hw1); [done|done|done|nia|].
  destruct (copy_elt size Hsize step Hstep Hdiv from to1 g (tp2 + zlen X) x) as (to2 & E & Hw2);
    [lia|done|done|rewrite (wr_length _ _ _ _ _ Hw1); lia|]. exists to2. split; [|by eapply (written_app size Hsize)].
  intros K. cbn [mbind outcome_bind]. rewrite E. cbn [mbind outcome_bind]. rewrite length_app. cbn [length]. f_equal. lia.
Qed.

(** What is left of one run when the other is used up. *)
Lemma copy_rest_run list1 X Y f1 f2 tp2 big list2 :
  X = [] ∨ Y = [] → holds list1 f1 X → holds list1 f2 Y → 0 ≤ tp2 → size * (tp2 + zlen X + zlen Y) ≤ zlen (ar_bytes list2) →
  ∃ C m, copy_rest step list1 (size * (f1 + zlen X)) (size * (f2 + zlen Y)) (mkMg (size * f1) (size * f2) (size * tp2) big list2) = Ok m ∧
    merged cmp X Y C ∧ mg_tp2 m = size * (tp2 + zlen C) ∧ written list2 tp2 C (mg_list2 m).
Proof.
  intros Hnil HX HY Htp Hb. cbn [copy_rest]. destruct Y as [|y Y].
  - cbn [length]. rewrite Z.add_0_r, Z.ltb_irrefl. destruct X as [|x X].
    + cbn [length]. rewrite Z.add_0_r, Z.ltb_irrefl. eexists [], _. split; [done|]. cbn. rewrite Z.add_0_r.
      split; [apply merged_nil_l|]. split; [done|apply written_refl].
    + rewrite (proj2 (Z.ltb_lt _ _)) by (cbn [length]; nia).
      destruct (copy_list size Hsize step Hstep Hdiv list1 list2 f1 tp2 (x :: X)) as (to' & -> & Hw); [done|done|done|cbn [length] in *; lia|].
      eexists (x :: X), _. split; [done|]. split; [apply merged_nil_r|]. done.
  - destruct Hnil as [->|]; [|done]. rewrite (proj2 (Z.ltb_lt _ _)) by (cbn [length]; nia).
    destruct (copy_list size Hsize step Hstep Hdiv list1 list2 f2 tp2 (y :: Y)) as (to' & -> & Hw); [done|done|done|cbn [length] in *; lia|].
    eexists (y :: Y), _. split; [done|]. split; [apply merged_nil_l|]. done.
Qed.

(** The loop and what is left: the second area gets the merged elements. *)
Lemma merge_run list1 : ∀ fuel X Y f1 f2 tp2 big list2,
  holds list1 f1 X → holds list1 f2 Y → 0 ≤ f1 → f1 + zlen X ≤ f2 → 0 ≤ tp2 →
  size * (f2 + zlen Y) < 2 ^ 62 → size * (f2 + zlen Y) ≤ zlen (ar_bytes list1) →
  size * (tp2 + zlen X + zlen Y) ≤ zlen (ar_bytes list2) → (length X + length Y ≤ fuel)%nat →
  ∃ C m, (merge_runs cmp size fuel step list1 (size * (f1 + zlen X)) (size * (f2 + zlen Y)) (mkMg (size * f1) (size * f2) (size * tp2) big list2)
            ≫= copy_rest step list1 (size * (f1 + zlen X)) (size * (f2 + zlen Y))) = Ok m ∧
    merged cmp X Y C ∧ mg_tp2 m = size * (tp2 + zlen C) ∧ written list2 tp2 C (mg_list2 m).
Proof.
  induction fuel as [|fuel IH]; intros X Y f1 f2 tp2 big list2 HX HY Hf1 Hf2 Htp HT HL Hb Hf; cbn [merge_runs];
    (destruct (decide (X = [] ∨ Y = [])) as [Hnil|Hne];
    [replace ((size * f1 <? size * (f1 + zlen X)) && (size * f2 <? size * (f2 + zlen Y))) with false; [by apply copy_rest_run|];
     destruct Hnil as [-> | ->]; cbn [length]; rewrite Z.add_0_r, Z.ltb_irrefl; [done|by rewrite andb_false_r]|]).
  { destruct X; [destruct Hne; by left|cbn in Hf; lia]. }
  destruct X as [|x X]; [by destruct Hne; left|]. destruct Y as [|y Y]; [by destruct Hne; right|].
  rewrite !(proj2 (Z.ltb_lt _ _)) by (cbn [length]; nia). cbn [andb].
  pose proof HX as HX0. pose proof HY as HY0. apply holds_cons in HX0 as [Hx HX']. apply holds_cons in HY0 as [Hy HY'].
  rewrite (compare_run cmp size list1 f1 f2 x y) by done. cbn [mbind outcome_bind].
  pose proof (has_bound _ Hsize _ _ _ Hy) as (Hf20 & Hy1 & _). assert (size < 2 ^ 64) as Hs64 by (cbn [length] in HT; nia).
  destruct (Z.leb_spec (cmp x y) 0) as [Hc|Hc]; cbn [fst snd].
  - destruct (search_split list1 f2 y f1 (x :: X) (-1) big) as (X1 & X2 & big' & EX & HX1 & -> & Hsp); [done|done|done|lia|nia|nia|].
    cbn [mbind outcome_bind]. rewrite (proj2 (Z.eqb_neq (size * f2) (size * f1))) by (cbn [length] in Hf2; nia).
    assert (zlen (x :: X) = zlen X1 + zlen X2) as El by (rewrite EX, length_app; lia).
    rewrite EX in HX. apply holds_app in HX as [HX1' HX2]. destruct (copy_turn list1 list2 f1 X1 f2 y tp2) as (to & E1 & Hw); [done|done|done|done|done|cbn [length] in *; nia|].
    destruct (IH X2 Y (f1 + zlen X1) (f2 + 1) (tp2 + zlen (X1 ++ [y])) big' to) as (C & m & E & HC & Htp2 & Hw3);
      rewrite ?length_app; [done|done|lia|lia|lia|cbn [length] in *; lia|cbn [length] in *; lia| |cbn [length] in *; destruct X1; [done|cbn [length] in *; lia]|].
    { rewrite (wr_length _ _ _ _ _ Hw). cbn [length] in *. lia. }
    rewrite E1. replace (f1 + zlen X1 + zlen X2) with (f1 + zlen (x :: X)) in E by lia.
    replace (f2 + 1 + zlen Y) with (f2 + zlen (y :: Y)) in E by (cbn [length]; lia). rewrite E.
    exists ((X1 ++ [y]) ++ C), m. split; [done|]. split; [|split; [rewrite Htp2, (length_app _ C); f_equal; lia|by eapply (written_app size Hsize)]].
    rewrite EX in *. apply merged_left; [|done]. intros Ho HsX. apply Hsp; [done|done|by left|].
    intros h Hh. rewrite <- EX in Hh. injection Hh as <-. apply cmp_le in Hc; [lia|done].
  - destruct (search_split list1 f1 x f2 (y :: Y) 0 big) as (Y1 & Y2 & big' & EY & HY1 & -> & Hsp); [done|done|done|lia|nia|nia|].
    cbn [mbind outcome_bind]. rewrite Z.eqb_refl. assert (zlen (y :: Y) = zlen Y1 + zlen Y2) as El by (rewrite EY, length_app; lia).
    rewrite EY in HY. apply holds_app in HY as [HY1' HY2]. destruct (copy_turn list1 list2 f2 Y1 f1 x tp2) as (to & E1 & Hw); [done|done|done|done|done|cbn [length] in *; nia|].
    destruct (IH X Y2 (f1 + 1) (f2 + zlen Y1) (tp2 + zlen (Y1 ++ [x])) big' to) as (C & m & E & HC & Htp2 & Hw3);
      rewrite ?length_app; [done|done|lia|cbn [length] in *; lia|lia|lia|lia| |cbn [length] in *; destruct Y1; [done|cbn [length] in *; lia]|].
    { rewrite (wr_length _ _ _ _ _ Hw). cbn [length] in *. lia. }
    rewrite E1. replace (f2 + zlen Y1 + zlen Y2) with (f2 + zlen (y :: Y)) in E by lia.
    replace (f1 + 1 + zlen X) with (f1 + zlen (x :: X)) in E by (cbn [length]; lia). rewrite E.
    exists ((Y1 ++ [x]) ++ C), m. split; [done|]. split; [|split; [rewrite Htp2, (length_app _ C); f_equal; lia|by eapply (written_app size Hsize)]].
    rewrite EY in *. apply merged_right; [|done]. intros Ho HsY. apply Hsp; [done|done|by right|].
    intros h Hh. rewrite <- EY in Hh. injection Hh as <-. done.
Qed.
End Runs.
