(* ===== verification/MergePasses.v ===== *)
(** The passes of merge sort: each merges the runs in pairs into the other area
    and leaves the ends of the new runs behind. *)

From Stdlib Require Import Sorting.Sorted ZifyNat.
From S2P Require Import Prelude Errors Sort Merge MergeAreas MergeSearch MergeRuns.

(** * Runs *)

Section Passed.
Context {A : Type} (cmp : A → A → Z).
Implicit Types (Rs Cs : list (list A)).

(** Runs merged in pairs. *)
Inductive passed : list (list A) → list (list A) → Prop :=
  | passed_nil : passed [] []
  | passed_one X C : merged cmp X [] C → passed [X] [C]
  | passed_two X Y C Rs Cs : merged cmp X Y C → passed Rs Cs → passed (X :: Y :: Rs) (C :: Cs).

(** Every run has two elements, the last one four. *)
Fixpoint long_runs Rs : Prop :=
  match Rs with
  | [] => True
  | [R] => (4 ≤ length R)%nat
  | R :: Rs => (2 ≤ length R)%nat ∧ long_runs Rs
  end.

Lemma long_runs_cons R Rs : long_runs (R :: Rs) → (2 ≤ length R)%nat ∧ long_runs Rs.
Proof. destruct Rs; cbn; [intros; split; [lia|done]|done]. Qed.

Lemma long_runs_length Rs : long_runs Rs → (2 * length Rs ≤ length (concat Rs))%nat.
Proof. induction Rs as [|R Rs IH]; [done|]. intros [? ?%IH]%long_runs_cons. cbn. rewrite length_app. lia. Qed.

Lemma merged_length X Y C : merged cmp X Y C → length C = (length X + length Y)%nat.
Proof. intros [H _]. by rewrite H, length_app. Qed.

Lemma passed_perm Rs Cs : passed Rs Cs → concat Cs ≡ₚ concat Rs.
Proof. induction 1 as [|X C [H _]|X Y C Rs Cs [H _] _ IH]; cbn; [done|by rewrite H, !app_nil_r|]. by rewrite H, IH, <- app_assoc. Qed.

Lemma passed_sorted Rs Cs :
  passed Rs Cs → cmp_ordered cmp → Forall (sorted cmp) Rs → Forall (sorted cmp) Cs ∧ stably cmp (concat Rs) (concat Cs).
Proof.
  intros Hp Ho. induction Hp as [|X C [_ H]|X Y C Rs Cs [_ H] _ IH]; [by constructor|..].
  - intros [HX _]%Forall_cons. destruct (H Ho HX) as [? ?]; [constructor|]. split; [by constructor|]. cbn. by rewrite (app_nil_r C).
  - intros [HX [HY HR]%Forall_cons]%Forall_cons. destruct (H Ho HX HY) as [? ?], (IH HR) as [? ?].
    split; [by constructor|]. cbn. rewrite app_assoc. by apply stably_app.
Qed.

Lemma passed_length Rs Cs : passed Rs Cs → (2 * length Cs ≤ length Rs + 1)%nat ∧ (Rs ≠ [] → Cs ≠ []).
Proof. induction 1 as [| |X Y C Rs Cs _ _ [IH _]]; cbn [length]; (split; [lia|done]). Qed.

Lemma passed_long Rs Cs : passed Rs Cs → long_runs Rs → long_runs Cs.
Proof.
  induction 1 as [|X C H|X Y C Rs Cs H Hp IH]; intros HL; [done|..]; apply merged_length in H.
  - cbn in *. lia.
  - apply long_runs_cons in HL as [HX HL]. pose proof (long_runs_cons _ _ HL) as [HY HL']. specialize (IH HL').
    destruct Cs; cbn; [lia|]. split; [lia|done].
Qed.
End Passed.

(** * In memory *)

Section Passes.
Context (size n : Z) (Hsize : 4 ≤ size).
Implicit Types (X Y C : list (list Z)) (Rs Cs : list (list (list Z))) (l : area) (k : Z).
Abbreviation holds := (holds size).
Abbreviation written := (written size).
Abbreviation ends_at := (ends_at size).

(** The area tells where the runs from [k] on end. *)
Fixpoint run_ends l k Rs : Prop :=
  match Rs with
  | [] => k = n
  | R :: Rs => ends_at l k (k + zlen R) ∧ run_ends l (k + zlen R) Rs
  end.

(** An area for the elements. *)
Definition roomy l : Prop := placed l ∧ size * n ≤ zlen (ar_bytes l).

Definition same_area l l' : Prop := ar_addr l' = ar_addr l ∧ zlen (ar_bytes l') = zlen (ar_bytes l).

Lemma roomy_same l l' : same_area l l' → roomy l → roomy l'.
Proof. unfold roomy, placed. intros [-> ->]. done. Qed.

Lemma run_ends_le l k Rs : run_ends l k Rs → k + zlen (concat Rs) = n.
Proof. revert k. induction Rs as [|R Rs IH]; cbn; intros k; [lia|]. intros [_ H%IH]. rewrite length_app. lia. Qed.

Lemma EVAL_in l k : roomy l → 0 ≤ k ≤ n → size * k ≤ EVAL l (size * k) < size * k + 8.
Proof. intros [Hp Hl] Hk. destruct (EVAL_at size Hsize l k Hp) as (w & _ & ?); [lia|nia|done]. Qed.

Lemma run_ends_same l l' Rs : ∀ k,
  0 ≤ k → ar_addr l' = ar_addr l →
  (∀ k', k ≤ k' ≤ n → load_bytes (EVAL l (size * k')) 8 (ar_bytes l') = load_bytes (EVAL l (size * k')) 8 (ar_bytes l)) →
  run_ends l k Rs → run_ends l' k Rs.
Proof.
  induction Rs as [|R Rs IH]; intros k Hk Ha Hl; cbn; [done|]. intros [He Hc]. pose proof (run_ends_le _ _ _ Hc). split.
  - eapply ends_at_same; [done| |exact He]. apply Hl. lia.
  - apply IH; [lia|done| |done]. intros k' Hk'. apply Hl. lia.
Qed.

Lemma same_area_trans l1 l2 l3 : same_area l1 l2 → same_area l2 l3 → same_area l1 l3.
Proof. unfold same_area. intros [-> ->]. done. Qed.

Context (cmp : list Z → list Z → Z) (step : Z) (Hstep : 0 < step) (Hdiv : (step | size)) (Hn : size * n < 2 ^ 62).

(** Two runs, or the last one. *)
Lemma merge_turn list1 list2 k X Y big :
  roomy list1 → roomy list2 → 0 ≤ k → holds list1 k (X ++ Y) → k + zlen X + zlen Y ≤ n → 4 ≤ zlen X + zlen Y →
  ∃ C m0 m list1',
    merge_runs cmp size (length (ar_bytes list1)) step list1 (size * (k + zlen X)) (size * (k + zlen X + zlen Y))
      (mkMg (size * k) (size * (k + zlen X)) (size * k) big list2) = Ok m0 ∧
    copy_rest step list1 (size * (k + zlen X)) (size * (k + zlen X + zlen Y)) m0 = Ok m ∧
    store_ptr (size * k) (size * (k + zlen X + zlen Y)) list1 = Ok list1' ∧
    merged cmp X Y C ∧ mg_tp2 m = size * (k + zlen X + zlen Y) ∧ written list2 k C (mg_list2 m) ∧
    same_area list1 list1' ∧ ends_at list1' k (k + zlen X + zlen Y) ∧
    ∀ p i, p + i ≤ size * k ∨ size * (k + zlen X + zlen Y) ≤ p → load_bytes p i (ar_bytes list1') = load_bytes p i (ar_bytes list1).
Proof.
  intros H1 H2 Hk [HX HY]%holds_app Hkn H4. pose proof H1 as [Hp1 Hl1]. pose proof H2 as [Hp2 Hl2].
  destruct (merge_run cmp size step Hsize Hstep Hdiv list1 (length (ar_bytes list1)) X Y k (k + zlen X) k big list2)
    as (C & m & E & HC & Htp & Hw); [done|done|done|lia|done|nia|nia|nia|nia|].
  destruct (merge_runs _ _ _ _ _ _ _ _) as [m0| |] eqn:E0; [|done..]. cbn [mbind outcome_bind] in E. pose proof (merged_length _ _ _ _ HC) as HCl.
  pose proof (EVAL_in list1 k H1 ltac:(lia)) as He.
  destruct (store_ptr_run size Hsize list1 k (k + zlen X + zlen Y)) as (list1' & E2 & [Ha Hl Hf] & He'); [done|done|nia|nia|lia|nia|].
  exists C, m0, m, list1'. split_and!; try done; [rewrite Htp; f_equal; lia|]. intros p i Hpi. apply Hf. nia.
Qed.

Lemma merge_pass_run : ∀ fuel Rs k big list1 list2,
  (length Rs ≤ fuel)%nat → roomy list1 → roomy list2 → 0 ≤ k → holds list1 k (concat Rs) → run_ends list2 k Rs → long_runs Rs →
  ∃ Cs big' list1' list2',
    merge_pass cmp size fuel step (size * n) (size * k) (size * k) (size * k) big list1 list2 = Ok (big', list1', list2') ∧
    passed cmp Rs Cs ∧ run_ends list1' k Cs ∧ written list2 k (concat Cs) list2' ∧ same_area list1 list1' ∧
    ∀ p i, p + i ≤ size * k → load_bytes p i (ar_bytes list1') = load_bytes p i (ar_bytes list1).
Proof.
  induction fuel as [|fuel IH]; intros Rs k big list1 list2 Hf H1 H2 Hk HE Hc HL; pose proof (run_ends_le _ _ _ Hc) as Hkn;
    cbn [merge_pass]; (destruct Rs as [|X Rs];
    [cbn in Hc; subst k; rewrite Z.eqb_refl; exists [], big, list1, list2; split; [done|]; split; [constructor|]; by repeat split; try apply holds_nil|]);
    [cbn in Hf; lia|].
  pose proof (long_runs_cons _ _ HL) as [HX HL']. cbn [concat] in Hkn, HE. rewrite length_app in Hkn. destruct Hc as [He Hc].
  rewrite (proj2 (Z.eqb_neq (size * k) (size * n))) by nia. rewrite He. cbn [mbind outcome_bind].
  set (Y := match Rs with [] => [] | Y :: _ => Y end). set (Rs' := match Rs with [] => [] | _ :: Rs' => Rs' end).
  assert (concat Rs = Y ++ concat Rs') as ER by (by destruct Rs).
  assert ((if size * (k + zlen X) =? size * n then Ok (size * (k + zlen X)) else load_ptr list2 (size * (k + zlen X))) =
          Ok (size * (k + zlen X + zlen Y)) ∧ run_ends list2 (k + zlen X + zlen Y) Rs' ∧ long_runs Rs' ∧ 4 ≤ zlen X + zlen Y) as (-> & Hc' & HL2 & H4).
  { destruct Rs as [|Y0 Rs0]; subst Y Rs'; cbn in Hc, HL, HL' |- *; [rewrite Z.add_0_r, Hc, Z.eqb_refl; repeat split; lia|].
    pose proof (long_runs_cons _ _ HL') as [HY ?]. destruct Hc as [HeY Hc]. pose proof (run_ends_le _ _ _ Hc). rewrite (proj2 (Z.eqb_neq _ _)) by nia.
    repeat split; [done|done|done|lia]. }
  rewrite ER in HE, Hkn. rewrite length_app in Hkn. rewrite app_assoc in HE. apply holds_app in HE as [HXY HE'].
  destruct (merge_turn list1 list2 k X Y big) as (C & m0 & m & l1' & E0 & E1 & E2 & HC & Htp & Hw & Hsame & Hend & Hfr); [done|done|done|done|lia|done|].
  cbn [mbind outcome_bind]. rewrite E0. cbn [mbind outcome_bind]. rewrite E1. cbn [mbind outcome_bind]. rewrite E2. cbn [mbind outcome_bind]. rewrite Htp.
  pose proof (merged_length _ _ _ _ HC) as HCl. rewrite length_app in HE'. 
  destruct (IH Rs' (k + zlen X + zlen Y) (mg_big m) l1' (mg_list2 m)) as (Cs & big' & l1'' & l2'' & E & HP & Hce & Hw' & Hs' & Hfr').
  - destruct Rs; subst Rs'; cbn [length] in Hf |- *; lia.
  - by eapply roomy_same.
  - eapply roomy_same; [|exact H2]. split; apply Hw.
  - lia.
  - eapply (holds_same size Hsize); [|replace (k + zlen X + zlen Y) with (k + Z.of_nat (length X + length Y)) by lia; exact HE']. intros p i Hp _. apply Hfr. lia.
  - eapply run_ends_same; [|apply Hw| |exact Hc']; [lia|]. intros k' Hk'. apply (wr_frame _ _ _ _ _ Hw). pose proof (EVAL_in list2 k' H2). rewrite HCl. nia.
  - done.
  - exists (C :: Cs), big', l1'', l2''. split; [done|]. split; [|split; [|split; [|split]]].
    + subst Y Rs'. destruct Rs as [|Y Rs]; [inversion HP; subst; by constructor|by constructor].
    + cbn. replace (k + zlen C) with (k + zlen X + zlen Y) by lia. split; [|done]. eapply ends_at_same; [apply Hs'| |exact Hend].
      apply Hfr'. assert (roomy l1') as Hr1 by (by eapply roomy_same). pose proof (EVAL_in l1' k Hr1 ltac:(lia)). nia.
    + cbn. eapply (written_app size Hsize); [exact Hw|]. by replace (k + zlen C) with (k + zlen X + zlen Y) by lia.
    + by eapply same_area_trans.
    + intros p i Hp. rewrite Hfr' by nia. apply Hfr. by left.
Qed.

(** Pass after pass until there is one run. *)
Lemma merge_passes_run : ∀ fuel Rs big list1 list2,
  (length Rs ≤ fuel)%nat → Rs ≠ [] → roomy list1 → roomy list2 → holds list1 0 (concat Rs) → run_ends list2 0 Rs → length Rs = 1%nat ∨ long_runs Rs →
  ∃ R l1 l2,
    merge_passes cmp size fuel step (size * n) big list1 list2 = Ok (l1, l2) ∧ holds l1 0 R ∧ R ≡ₚ concat Rs ∧
    (cmp_ordered cmp → Forall (sorted cmp) Rs → sorted cmp R ∧ stably cmp (concat Rs) R) ∧
    (same_area list1 l1 ∧ same_area list2 l2 ∨ same_area list1 l2 ∧ same_area list2 l1).
Proof.
  induction fuel as [|fuel IH]; intros Rs big list1 list2 Hf Hne H1 H2 HE Hc HL; (destruct Rs as [|R Rs]; [done|]); [cbn in Hf; lia|].
  pose proof (run_ends_le _ _ _ Hc) as Hkn. pose proof (proj1 Hc) as He. unfold MergeAreas.ends_at in He. rewrite Z.mul_0_r in He.
  cbn [merge_passes]. rewrite He. cbn [mbind outcome_bind]. rewrite Z.add_0_l in *. destruct Rs as [|R2 Rs].
  - cbn in Hkn, HE. rewrite app_nil_r in *. rewrite Hkn, Z.eqb_refl. exists R, list1, list2. split; [done|]. split; [done|].
    cbn. rewrite app_nil_r. split; [done|]. split; [|by left]. intros _ [? _]%Forall_cons. done.
  - destruct HL as [HL|HL]; [done|]. pose proof (long_runs_cons _ _ HL) as [_ [HR2 _]%long_runs_cons]. cbn [concat] in Hkn. rewrite !length_app in Hkn.
    rewrite (proj2 (Z.eqb_neq _ _)) by nia.
    destruct (merge_pass_run (length (ar_bytes list1)) (R :: R2 :: Rs) 0 big list1 list2) as (Cs & big' & l1' & l2' & E & HP & Hc' & Hw & Hs & _);
      [|done|done|lia|done|done|done|].
    { pose proof (long_runs_length _ HL) as Hl2. destruct H1 as [_ Hl1]. cbn [concat] in Hl2. rewrite !length_app in Hl2. cbn [length] in Hl2 |- *. nia. }
    rewrite Z.mul_0_r in E. rewrite E. cbn [mbind outcome_bind].
    pose proof (passed_length _ _ _ HP) as [Hl Hnil]. cbn [length] in Hl, Hf.
    assert (same_area list2 l2') as Hs2 by (split; apply Hw).
    destruct (IH Cs big' l2' l1') as (R' & l1 & l2 & E' & Hh & HR & Hsorted & Hplaces);
      [lia|by apply Hnil|by eapply roomy_same|by eapply roomy_same|apply Hw|done|right; by eapply passed_long|].
    exists R', l1, l2. split; [done|]. split; [done|]. split; [by rewrite HR, (passed_perm _ _ _ HP)|]. split.
    + intros Ho HsR. destruct (passed_sorted _ _ _ HP Ho HsR) as [HsC Hst]. destruct (Hsorted Ho HsC) as [? Hst']. split; [done|]. by eapply stably_trans.
    + destruct Hplaces as [[? ?]|[? ?]]; [right|left]; by split; eapply same_area_trans.
Qed.
End Passes.
