(* ===== verification/MergeSetup.v ===== *)
(** The first runs of merge sort: four or five elements at the end are sorted by
    insertion; the others are taken in pairs, and in longer runs where they
    rise or fall by themselves. *)

From Stdlib Require Import Sorting.Sorted ZifyNat.
From S2P Require Import Prelude Errors Sort Merge MergeAreas MergeSearch MergeRuns MergePasses.

Section Setup.
Context (cmp : list Z → list Z → Z) (size : Z) (Hsize : 4 ≤ size).
Implicit Types (E S X : list (list Z)) (Rs : list (list (list Z))) (l : area) (k a : Z).
Abbreviation holds := (holds size).
Abbreviation written := (written size).

(** The same elements; sorted and equal ones in order when there is an order. *)
Definition resorted E E' : Prop := E' ≡ₚ E ∧ (cmp_ordered cmp → sorted cmp E' ∧ stably cmp E E').

Lemma written_same l k E : holds l k E → written l k E l.
Proof. by split. Qed.

(** ** Insertion *)

Lemma move_down_run x : ∀ S l a fuel,
  holds l a (S ++ [x]) → (length S ≤ fuel)%nat →
  ∃ S1 S2 l', move_down cmp size fuel (size * a) (size * (a + zlen S)) l = Ok l' ∧ S = S1 ++ S2 ∧ written l a (S1 ++ x :: S2) l' ∧
    (cmp_ordered cmp → sorted cmp S → Forall (λ y, -1 < cmp x y) S1 ∧ Forall (λ y, cmp x y ≤ -1) S2).
Proof.
  induction S as [|u S IH] using rev_ind; intros l a fuel HS Hf.
  { exists [], [], l. split; [|by split; [|split; [apply written_same|]]]. cbn [length]. destruct fuel; cbn [move_down]; by rewrite Z.add_0_r, Z.ltb_irrefl. }
  rewrite length_app in *. cbn [length] in *. destruct fuel as [|fuel]; [lia|]. cbn [move_down].
  rewrite (proj2 (Z.ltb_lt _ _)) by nia. pose proof HS as HS0. rewrite <- app_assoc in HS. apply holds_app in HS as [HS [Hu [Hx _]%holds_cons]%holds_cons].
  replace (size * (a + Z.of_nat (length S + 1)) - size) with (size * (a + zlen S)) by lia.
  replace (a + Z.of_nat (length S + 1)) with (a + zlen S + 1) by lia.
  rewrite (compare_run cmp size l _ _ u x) by done. cbn [mbind outcome_bind]. destruct (Z.leb_spec (cmp u x) 0) as [Hc|Hc].
  - exists (S ++ [u]), [], l. split; [done|]. split; [by rewrite app_nil_r|]. split; [by apply written_same|].
    intros Ho (_ & _ & Hle)%sorted_app. split; [|done]. apply Forall_forall. intros y Hy. cut (0 ≤ cmp x y); [lia|]. apply cmp_le; [done|].
    apply elem_of_app in Hy as [Hy| ->%list_elem_of_singleton]; [|done]. eapply (co_trans _ Ho); [by apply Hle; [|left]|done].
  - destruct (swap_run size Hsize l (a + zlen S) u x) as (l1 & -> & Hw1); [done|done|]. cbn [mbind outcome_bind].
    pose proof (wr_holds _ _ _ _ _ Hw1) as [Hx1 [Hu1 _]%holds_cons]%holds_cons.
    destruct (IH l1 a fuel) as (S1 & S2 & l2 & E2 & -> & Hw2 & Hs2); [|lia|].
    { apply holds_app. split; [|by apply holds_one]. eapply (holds_frame size Hsize); [exact Hw1|lia|done]. }
    exists S1, (S2 ++ [u]), l2. split; [done|]. split; [by rewrite app_assoc|].
    assert (zlen (S1 ++ x :: S2) = zlen (S1 ++ S2) + 1) as El by (rewrite !length_app; cbn [length]; lia). split.
    + change (x :: S2 ++ [u]) with ((x :: S2) ++ [u]). rewrite app_assoc. split.
      * by rewrite (wr_addr _ _ _ _ _ Hw2), (wr_addr _ _ _ _ _ Hw1).
      * by rewrite (wr_length _ _ _ _ _ Hw2), (wr_length _ _ _ _ _ Hw1).
      * apply holds_app. split; [apply Hw2|]. eapply (holds_frame size Hsize); [exact Hw2|lia|].
        rewrite El. apply holds_one. by replace (a + (zlen (S1 ++ S2) + 1)) with (a + zlen (S1 ++ S2) + 1) by lia.
      * intros p i Hp. rewrite length_app in Hp. cbn [length] in Hp. rewrite Nat2Z.inj_add, El in Hp.
        rewrite (wr_frame _ _ _ _ _ Hw2) by (rewrite El; nia). apply (wr_frame _ _ _ _ _ Hw1). cbn [length]. nia.
    + intros Ho (HsS & _ & _)%sorted_app. destruct (Hs2 Ho HsS) as [F1 F2]. split; [done|]. apply Forall_app. split; [done|].
      constructor; [|done]. cut (cmp x u < 0); [lia|]. by apply cmp_lt.
Qed.

(** An element that is inserted. *)
Lemma inserted S1 S2 x :
  cmp_ordered cmp → sorted cmp (S1 ++ S2) → Forall (λ y, -1 < cmp x y) S1 → Forall (λ y, cmp x y ≤ -1) S2 →
  sorted cmp (S1 ++ x :: S2) ∧ stably cmp ((S1 ++ S2) ++ [x]) (S1 ++ x :: S2).
Proof.
  intros Ho Hs F1 F2. pose proof Hs as (_ & Hs2 & _)%sorted_app. apply (merge_left cmp Ho S1 S2 x [] S2); rewrite ?app_nil_r; try done.
  by repeat constructor.
Qed.

Lemma insertion_turns_run : ∀ T D l a,
  holds l a (D ++ T) → 0 ≤ a →
  ∃ E l', insertion_turns cmp size (length T) (size * a) (size * (a + zlen D)) l = Ok l' ∧ written l a E l' ∧ E ≡ₚ D ++ T ∧
    (cmp_ordered cmp → sorted cmp D → sorted cmp E ∧ stably cmp (D ++ T) E).
Proof.
  induction T as [|x T IH]; intros D l a HD Ha; cbn [insertion_turns length].
  - rewrite app_nil_r in *. exists D, l. split; [done|]. split; [by apply written_same|]. done.
  - change (x :: T) with ([x] ++ T) in HD. rewrite app_assoc in HD. apply holds_app in HD as [HDx HT].
    destruct (move_down_run x D l a (length (ar_bytes l))) as (S1 & S2 & l1 & -> & -> & Hw & Hs); [done| |].
    { pose proof HDx as [_ Hx%holds_one]%holds_app.
      apply (has_bound size Hsize) in Hx as (_ & Hb & _). nia. }
    cbn [mbind outcome_bind]. assert (zlen (S1 ++ x :: S2) = zlen (S1 ++ S2) + 1) as El by (rewrite !length_app; cbn [length]; lia).
    destruct (IH (S1 ++ x :: S2) l1 a) as (E & l2 & E2 & Hw2 & HE & HsE); [|done|].
    { apply holds_app. split; [apply Hw|]. rewrite El. eapply (holds_frame size Hsize); [exact Hw|lia|].
      rewrite length_app in HT. cbn [length] in HT. by replace (a + (zlen (S1 ++ S2) + 1)) with (a + Z.of_nat (length (S1 ++ S2) + 1)) by lia. }
    rewrite El in E2. replace (size * (a + zlen (S1 ++ S2)) + size) with (size * (a + (zlen (S1 ++ S2) + 1))) by lia. rewrite E2.
    exists E, l2. split; [done|]. assert (E ≡ₚ (S1 ++ S2) ++ x :: T) as HP.
    { rewrite HE, <- !app_assoc. apply Permutation_app_head. apply (Permutation_middle S2 T x). }
    split; [|split; [done|]].
    + split; [by rewrite (wr_addr _ _ _ _ _ Hw2), (wr_addr _ _ _ _ _ Hw)|by rewrite (wr_length _ _ _ _ _ Hw2), (wr_length _ _ _ _ _ Hw)|apply Hw2|].
      intros p i Hp. rewrite HP, length_app in Hp. cbn [length] in Hp.
      rewrite (wr_frame _ _ _ _ _ Hw2), (wr_frame _ _ _ _ _ Hw); [done|rewrite El; nia|rewrite HE, length_app; nia].
    + intros Ho HsD. destruct (Hs Ho HsD) as [F1 F2]. destruct (inserted S1 S2 x Ho HsD F1 F2) as [Hs1 Hst1].
      destruct (HsE Ho Hs1) as [? Hst2]. split; [done|]. eapply stably_trans; [|exact Hst2]. change (x :: T) with ([x] ++ T). rewrite app_assoc.
      by apply stably_app.
Qed.

Lemma insertionsort_run l a E :
  holds l a E → E ≠ [] → 0 ≤ a → zlen E < 2 ^ 62 →
  ∃ E' l', insertionsort cmp size (size * a) (zlen E) l = Ok l' ∧ written l a E' l' ∧ resorted E E'.
Proof.
  intros HE Hne Ha Hl. destruct E as [|x E]; [done|]. destruct (insertion_turns_run E [x] l a) as (E' & l' & Er & Hw & HP & Hs); [done|done|].
  exists E', l'. split; [|split; [done|split; [done|]]].
  - unfold insertionsort. cbn [length] in *. rewrite u64_id by (unfold is_u64; lia).
    replace (Z.to_nat (Z.of_nat (S (length E)) - 1)) with (length E) by lia. rewrite <- Er. f_equal. lia.
  - intros Ho. apply Hs; [done|]. by repeat constructor.
Qed.

(** ** Rising and falling *)

(** Of two neighbours the first is greater, or is not. *)
Fixpoint neighbours (b : bool) X : Prop :=
  match X with
  | x :: X => match X with y :: _ => (0 <? cmp x y) = b | [] => True end ∧ neighbours b X
  | [] => True
  end.

Definition in_order (b : bool) X : list (list Z) := if b then reverse X else X.

Lemma neighbours_snoc b X u v : neighbours b (X ++ [u]) → (0 <? cmp u v) = b → neighbours b ((X ++ [u]) ++ [v]).
Proof.
  induction X as [|x X IH]; cbn [app neighbours]; [done|]. intros [Hx HX] Hv. split; [|by apply IH]. by destruct X.
Qed.

Lemma rising_sorted X : cmp_ordered cmp → neighbours false X → sorted cmp X.
Proof.
  intros Ho. induction X as [|x X IH]; [constructor|]. cbn [neighbours]. intros [Hx HX]. specialize (IH HX). constructor; [done|].
  destruct X as [|y X]; [constructor|]. apply Z.ltb_ge in Hx. constructor; [done|]. apply StronglySorted_inv in IH as [_ F].
  eapply Forall_impl; [exact F|]. intros z Hz. by eapply (co_trans _ Ho).
Qed.

Lemma falling_sorted X : cmp_ordered cmp → neighbours true X → sorted cmp (reverse X) ∧ stably cmp X (reverse X) ∧ Forall (λ z, ∀ x, head X = Some x → cmp z x ≤ 0) X.
Proof.
  intros Ho. induction X as [|x X IH]; [by repeat constructor|]. cbn [neighbours head]. intros [Hx HX]. destruct (IH HX) as (Hs & Hst & F).
  assert (∀ z, z ∈ X → cmp z x < 0) as Hlt.
  { intros z Hz. destruct X as [|y X]; [by apply elem_of_nil in Hz|]. apply Z.ltb_lt in Hx. rewrite Forall_forall in F.
    eapply le_lt_trans; [done|by apply (F z)|by apply cmp_lt]. }
  rewrite reverse_cons. split; [|split].
  - apply sorted_app. split; [done|]. split; [by repeat constructor|]. intros z w Hz ->%list_elem_of_singleton.
    rewrite elem_of_reverse in Hz. pose proof (Hlt z Hz). lia.
  - eapply stably_trans; [apply (stably_app cmp [x] X [x] (reverse X)); done|]. apply stably_swap; [done|].
    intros w z ->%list_elem_of_singleton Hz. apply Hlt. by rewrite elem_of_reverse in Hz.
  - constructor; [intros ? [= <-]; rewrite cmp_self by done; lia|]. apply Forall_forall. intros z Hz ? [= <-]. pose proof (Hlt z Hz). lia.
Qed.

Lemma in_order_resorted b X : neighbours b X → resorted X (in_order b X).
Proof.
  intros Hb. destruct b; cbn; split; try done; [apply reverse_Permutation| |]; intros Ho.
  - by destruct (falling_sorted X Ho Hb) as (? & ? & _).
  - split; [by apply rising_sorted|done].
Qed.

Lemma in_order_length b X : length (in_order b X) = length X.
Proof. destruct b; [apply length_reverse|done]. Qed.

End Setup.

(** * Turning a run round *)

Section Turning.
Context (size : Z) (Hsize : 4 ≤ size) (Hsz : size < 2 ^ 30).
Implicit Types (X M : list (list Z)) (l : area).
Abbreviation holds := (holds size).
Abbreviation written := (written size).

Lemma size2_eq : size2 size = size * 2.
Proof. unfold size2. rewrite s32_id; [done|unfold is_s32; lia]. Qed.

Lemma reverse_loop_run : ∀ m X r l fuel,
  length X = (2 * m)%nat → (1 ≤ m ≤ fuel)%nat → holds l r X →
  ∃ l', reverse_loop size fuel (size * r) (size * (r + zlen X - 1)) l = Ok l' ∧ written l r (reverse X) l'.
Proof.
  induction m as [|m IH]; intros X r l fuel HX Hm Hh; [lia|]. destruct fuel as [|fuel]; [lia|].
  destruct X as [|x X]; [cbn in HX; lia|]. destruct (exists_last (l := X)) as (M & y & ->); [by intros ->; cbn in HX; lia|].
  cbn [length] in HX. rewrite length_app in HX. cbn [length] in HX. apply holds_cons in Hh as [Hx [HM Hy%holds_one]%holds_app].
  replace (r + zlen (x :: M ++ [y]) - 1) with (r + 1 + zlen M) by (cbn [length]; rewrite length_app; cbn [length]; lia).
  destruct (swap_any size Hsize l r (r + 1 + zlen M) x y) as (l1 & E1 & [Ha Hl H1 H2 Hf]); [done|done|lia|].
  cbn [reverse_loop]. rewrite E1. cbn [mbind outcome_bind]. rewrite size2_eq, reverse_cons, reverse_snoc.
  replace (size * r + size) with (size * (r + 1)) by lia.
  replace (size * (r + 1 + zlen M) + size - size * 2) with (size * (r + 1 + zlen M - 1)) by lia.
  assert (holds l1 (r + 1) M) as HM1 by (eapply (holds_same size Hsize); [|exact HM]; intros p i Hp Hpi; apply Hf; nia).
  destruct m as [|m].
  - assert (M = []) as -> by (destruct M; [done|cbn in HX; lia]). cbn [length] in *. replace (r + 1 + Z.of_nat 0) with (r + 1) in * by lia.
    replace (r + 1 - 1) with r by lia. rewrite (proj2 (Z.ltb_ge _ _)) by lia. exists l1. split; [done|].
    change ((y :: reverse []) ++ [x]) with [y; x]. split; [done|done| |cbn [length]; intros p i Hd; apply Hf; nia].
    by rewrite holds_cons, holds_one.
  - rewrite (proj2 (Z.ltb_lt _ _)) by nia. destruct (IH M (r + 1) l1 fuel) as (l2 & E2 & Hw); [lia|lia|done|]. exists l2. split; [done|].
    assert (zlen ((y :: reverse M) ++ [x]) = zlen M + 2) as El by (rewrite length_app; cbn [length]; rewrite length_reverse; lia).
    split; [by rewrite (wr_addr _ _ _ _ _ Hw)|by rewrite (wr_length _ _ _ _ _ Hw)| |].
    + rewrite <- app_comm_cons, holds_cons, holds_app, holds_one, length_reverse. split; [|split; [apply Hw|]].
      * apply holds_one. eapply (holds_frame size Hsize); [exact Hw|cbn [length]; lia|by apply holds_one].
      * apply holds_one. eapply (holds_frame size Hsize); [exact Hw|rewrite length_reverse; lia|by apply holds_one].
    + intros p i Hd. rewrite El in Hd. rewrite (wr_frame _ _ _ _ _ Hw) by (rewrite length_reverse; nia). apply Hf; nia.
Qed.

(** A run is put in order. *)
Lemma in_order_run (b : bool) X r l :
  Nat.Even (length X) → X ≠ [] → 0 ≤ r → holds l r X →
  ∃ l', (if b then reverse_run size (size * r) (size * (r + zlen X) - size) l else Ok l) = Ok l' ∧ written l r (in_order b X) l'.
Proof.
  intros [m Hm] Hne Hr Hh. destruct b; [|exists l; split; [done|by apply written_same]].
  destruct (exists_last Hne) as (X0 & x & ->). pose proof Hh as [_ Hx%holds_one]%holds_app.
  apply (has_bound size Hsize) in Hx as (? & Hb & _). rewrite length_app in *. cbn [length] in *.
  destruct (reverse_loop_run m (X0 ++ [x]) r l (length (ar_bytes l))) as (l' & E & Hw); [by rewrite length_app|nia|done|].
  exists l'. split; [|done]. unfold reverse_run. rewrite <- E, length_app. cbn [length]. f_equal. lia.
Qed.
End Turning.
