(* ===== verification/MergeNatural.v ===== *)
(** The loop of [setup]: pairs of the same sense become runs of two, or runs as
    long as they rise or fall. *)

From Stdlib Require Import Sorting.Sorted ZifyNat.
From S2P Require Import Prelude Errors Sort Merge MergeAreas MergeSearch MergeRuns MergePasses MergeSetup.

(** Elements in pairs. *)
Definition flat (P : list (list Z * list Z)) : list (list Z) := P ≫= λ '(x, y), [x; y].

Lemma flat_cons x y P : flat ((x, y) :: P) = [x; y] ++ flat P.
Proof. done. Qed.

Lemma flat_app P1 P2 : flat (P1 ++ P2) = flat P1 ++ flat P2.
Proof. apply bind_app. Qed.

Lemma flat_length P : zlen (flat P) = 2 * zlen P.
Proof. induction P as [|[x y] P IH]; [done|]. rewrite flat_cons, length_app. cbn [length]. lia. Qed.

Lemma flat_of E : Nat.Even (length E) → ∃ P, E = flat P.
Proof.
  intros [m Hm]. revert E Hm. induction m as [|m IH]; intros [|x [|y E]] Hm; try (cbn in Hm; lia); [by exists []|].
  destruct (IH E) as [P ->]; [cbn in Hm; lia|]. by exists ((x, y) :: P).
Qed.

Section Natural.
Context (cmp : list Z → list Z → Z) (size n : Z) (Hsize : 4 ≤ size) (Hsz : size < 2 ^ 30) (Hn : size * n < 2 ^ 62).
Implicit Types (E X Y : list (list Z)) (Qs Rs : list (list (list Z))) (P G : list (list Z * list Z)) (l : area) (k : Z).
Abbreviation holds := (holds size).
Abbreviation written := (written size).
Abbreviation ends_at := (ends_at size).
Abbreviation roomy := (roomy size n).
Abbreviation resorted := (resorted cmp).

(** ** The area of the pointers *)

Lemma EVAL_apart l k k' : roomy l → 0 ≤ k → k + 2 ≤ k' → k' ≤ n → EVAL l (size * k) + 8 ≤ EVAL l (size * k').
Proof.
  intros [Hp Hl] H1 H2 H3. destruct (EVAL_at size Hsize l k Hp) as (w & Ew & ?); [lia|nia|].
  destruct (EVAL_at size Hsize l k' Hp) as (w' & Ew' & ?); [lia|nia|]. assert (w < w'); [nia|lia].
Qed.

Lemma EVAL_mono l k k' : roomy l → 0 ≤ k → k ≤ k' → k' ≤ n → EVAL l (size * k) ≤ EVAL l (size * k').
Proof.
  intros [Hp Hl] H1 H2 H3. destruct (decide (k = k')) as [->|]; [lia|].
  destruct (EVAL_at size Hsize l k Hp) as (w & Ew & ?); [lia|nia|].
  destruct (EVAL_at size Hsize l k' Hp) as (w' & Ew' & ?); [lia|nia|]. assert (w ≤ w'); [nia|lia].
Qed.

(** Only pointers of runs between [k] and [k'] were stored. *)
Definition touched l k k' l' : Prop :=
  same_area l l' ∧ ∀ p i, p + i ≤ EVAL l (size * k) ∨ EVAL l (size * k') ≤ p → load_bytes p i (ar_bytes l') = load_bytes p i (ar_bytes l).

Lemma EVAL_same l l' p : same_area l l' → EVAL l' p = EVAL l p.
Proof. intros [Ha _]. unfold EVAL. by rewrite Ha. Qed.

Lemma touched_trans l1 l2 l3 k k1 k2 :
  roomy l1 → 0 ≤ k → k ≤ k1 → k1 ≤ k2 → k2 ≤ n → touched l1 k k1 l2 → touched l2 k1 k2 l3 → touched l1 k k2 l3.
Proof.
  intros Hr ? ? ? ? [Hs1 H1] [Hs2 H2]. split; [by eapply same_area_trans|]. intros p i Hd.
  pose proof (EVAL_mono l1 k k1 Hr). pose proof (EVAL_mono l1 k1 k2 Hr).
  rewrite H2 by (rewrite !(EVAL_same _ _ _ Hs1); lia). apply H1. lia.
Qed.

Lemma touched_store l k k' l' : roomy l → 0 ≤ k → k + 2 ≤ k' → k' ≤ n → stored size l k l' → touched l k k' l'.
Proof.
  intros Hr ? ? ? [Ha Hl Hf]. split; [done|]. intros p i Hd. apply Hf. pose proof (EVAL_apart l k k' Hr). lia.
Qed.

(** The pointers of runs, wherever the last one ends. *)
Fixpoint ends_all l k Rs : Prop :=
  match Rs with
  | [] => True
  | R :: Rs => ends_at l k (k + zlen R) ∧ ends_all l (k + zlen R) Rs
  end.

Definition two Rs : Prop := Forall (λ R, (2 ≤ length R)%nat) Rs.

Lemma ends_all_app l k Q1 Q2 : ends_all l k (Q1 ++ Q2) ↔ ends_all l k Q1 ∧ ends_all l (k + zlen (concat Q1)) Q2.
Proof.
  revert k. induction Q1 as [|R Q1 IH]; intros k; cbn; [rewrite Z.add_0_r; naive_solver|]. rewrite IH, length_app.
  replace (k + zlen R + zlen (concat Q1)) with (k + Z.of_nat (length R + length (concat Q1))) by lia. naive_solver.
Qed.

Lemma run_ends_all l k Rs : run_ends size n l k Rs ↔ ends_all l k Rs ∧ k + zlen (concat Rs) = n.
Proof.
  revert k. induction Rs as [|R Rs IH]; intros k; cbn; [rewrite Z.add_0_r; naive_solver|]. rewrite IH, length_app.
  replace (k + zlen R + zlen (concat Rs)) with (k + Z.of_nat (length R + length (concat Rs))) by lia. naive_solver.
Qed.

Lemma ends_all_below l l' k k' Qs :
  roomy l → 0 ≤ k → same_area l l' → (∀ p i, p + i ≤ EVAL l (size * k') → load_bytes p i (ar_bytes l') = load_bytes p i (ar_bytes l)) →
  two Qs → k + zlen (concat Qs) ≤ k' → k' ≤ n → ends_all l k Qs → ends_all l' k Qs.
Proof.
  intros Hr Hk Hs Hf Ht. revert k Hk. induction Ht as [|R Qs HR _ IH]; intros k Hk Hle Hkn; cbn; [done|]. cbn in Hle. rewrite length_app in Hle.
  intros [He Hes]. split; [|apply IH; [lia|lia|done|done]]. eapply ends_at_same; [apply Hs| |exact He]. apply Hf.
  apply EVAL_apart; [done|lia|lia|done].
Qed.

(** ** Stages *)

(** The elements [E] at [k] were made runs. *)
Record staged list1 list2 k E Qs list1' list2' : Prop := {
  sg_elements : written list1 k (concat Qs) list1';
  sg_ends : ends_all list2' k Qs;
  sg_touched : touched list2 k (k + zlen E) list2';
  sg_two : two Qs;
  sg_perm : concat Qs ≡ₚ E;
  sg_sorted : cmp_ordered cmp → Forall (sorted cmp) Qs ∧ stably cmp E (concat Qs)
}.

Lemma staged_length list1 list2 k E Qs list1' list2' : staged list1 list2 k E Qs list1' list2' → zlen (concat Qs) = zlen E.
Proof. intros [_ _ _ _ HP _]. by rewrite HP. Qed.

Lemma staged_nil list1 list2 k : staged list1 list2 k [] [] list1 list2.
Proof. split; try done; constructor. Qed.

Lemma staged_app l1 l2 l1a l2a l1' l2' k E1 E2 Q1 Q2 :
  roomy l2 → 0 ≤ k → k + zlen E1 + zlen E2 ≤ n →
  staged l1 l2 k E1 Q1 l1a l2a → staged l1a l2a (k + zlen E1) E2 Q2 l1' l2' → staged l1 l2 k (E1 ++ E2) (Q1 ++ Q2) l1' l2'.
Proof.
  intros Hr Hk Hkn H1 H2. pose proof (staged_length _ _ _ _ _ _ _ H1) as El. destruct H1 as [A1 A2 A3 A4 A5 A6], H2 as [B1 B2 B3 B4 B5 B6].
  assert (roomy l2a) as Hra by (eapply roomy_same; [apply A3|done]). split.
  - rewrite concat_app. eapply (written_app size Hsize); [exact A1|]. by rewrite El.
  - apply ends_all_app. rewrite El. split; [|done]. apply (ends_all_below l2a l2' k (k + zlen E1)); [done|done|apply B3| |done|lia|lia|done].
    intros p i Hp. apply B3. by left.
  - rewrite length_app, Nat2Z.inj_add, Z.add_assoc. eapply touched_trans; [done|done| | |lia|exact A3|exact B3]; lia.
  - by apply Forall_app.
  - by rewrite concat_app, A5, B5.
  - intros Ho. destruct (A6 Ho), (B6 Ho). split; [by apply Forall_app|]. rewrite concat_app. by apply stably_app.
Qed.

(** One run. *)
Lemma staged_one l1 l2 l1' l2' k b X :
  roomy l2 → 0 ≤ k → k + zlen X ≤ n → (2 ≤ length X)%nat → neighbours cmp b X → written l1 k (in_order b X) l1' → stored size l2 k l2' →
  ends_at l2' k (k + zlen X) → staged l1 l2 k X [in_order b X] l1' l2'.
Proof.
  intros Hr Hk Hkn H2 Hb Hw Hst He. destruct (in_order_resorted cmp b X Hb) as [HP Hs]. pose proof (in_order_length b X) as El. split.
  - cbn. by rewrite app_nil_r.
  - cbn. by rewrite El.
  - apply touched_store; [done|done|lia|lia|done].
  - constructor; [by rewrite El|constructor].
  - cbn. by rewrite app_nil_r.
  - intros Ho. destruct (Hs Ho). cbn. rewrite app_nil_r. split; [by constructor|done].
Qed.

(** ** Pairs of the same sense *)

Definition sense_of (xy : list Z * list Z) : bool := 0 <? cmp xy.1 xy.2.

Lemma same_sense_run list1 b : ∀ P k fuel len,
  holds list1 k (flat P) → (length P ≤ fuel)%nat →
  ∃ G P' len', same_sense cmp size fuel list1 (size * (k + 2 * zlen P)) (size * k) b len = Ok (size * (k + 2 * zlen G), len') ∧
    P = G ++ P' ∧ Forall (λ xy, sense_of xy = b) G ∧ match P' with xy :: _ => sense_of xy = negb b | [] => True end.
Proof.
  induction P as [|[x y] P IH]; intros k fuel len HP Hf.
  { exists [], [], len. split; [|done]. cbn [length]. destruct fuel; cbn [same_sense]; rewrite Z.mul_0_r, Z.add_0_r, Z.ltb_irrefl; done. }
  cbn [length] in *. destruct fuel as [|fuel]; [lia|]. cbn [same_sense]. rewrite (proj2 (Z.ltb_lt _ _)) by nia.
  rewrite flat_cons in HP. apply holds_app in HP as [[Hx [Hy _]%holds_cons]%holds_cons HP]. cbn [length] in HP.
  replace (size * k + size) with (size * (k + 1)) by lia. rewrite (compare_run cmp size list1 k (k + 1) x y) by done. cbn [mbind outcome_bind].
  destruct (Bool.eqb_spec (0 <? cmp x y) b) as [Hb|Hb].
  - destruct (IH (k + 2) fuel (s32 (len + 2))) as (G & P' & len' & E & -> & HG & HP'); [done|lia|]. exists ((x, y) :: G), P', len'.
    cbn [length]. rewrite size2_eq by lia. replace (size * k + size * 2) with (size * (k + 2)) by lia.
    replace (k + 2 * Z.of_nat (S (length (G ++ P')))) with (k + 2 + 2 * zlen (G ++ P')) by lia. rewrite E.
    split; [do 3 f_equal; lia|]. split; [done|]. split; [by constructor|done].
  - exists [], ((x, y) :: P), len. cbn [length]. rewrite Z.mul_0_r, Z.add_0_r. split; [done|]. split; [done|]. split; [done|].
    unfold sense_of. cbn. by destruct (0 <? cmp x y), b.
Qed.

(** A stage ends at a place where pairs may be. *)
Definition stage_ok list2 k E : Prop := roomy list2 ∧ 0 ≤ k ∧ k + zlen E + 4 ≤ n.

Lemma pairwise_run b : ∀ G k fuel list1 list2,
  G ≠ [] → (length G ≤ fuel)%nat → holds list1 k (flat G) → Forall (λ xy, sense_of xy = b) G → stage_ok list2 k (flat G) →
  ∃ Qs list1' list2', pairwise size fuel (size * (k + 2 * zlen G)) b (size * k) (size * k) list1 list2 =
      Ok (size * (k + 2 * zlen G), size * (k + 2 * zlen G), list1', list2') ∧ staged list1 list2 k (flat G) Qs list1' list2'.
Proof.
  induction G as [|[x y] G IH]; intros k fuel list1 list2 Hne Hf HG Hb (Hr & Hk & Hkn); [done|]. rewrite flat_length in Hkn. cbn [length] in *.
  destruct fuel as [|fuel]; [lia|]. cbn [pairwise]. rewrite flat_cons in *. apply holds_app in HG as [Hxy HG]. cbn [length] in HG.
  apply Forall_cons in Hb as [Hbx Hb]. rewrite size2_eq by lia. replace (size * k + size * 2) with (size * (k + 2)) by lia.
  pose proof (EVAL_in size n Hsize list2 k Hr ltac:(lia)) as HE. pose proof Hr as [Hpl Hroom].
  destruct (store_ptr_run size Hsize list2 k (k + 2)) as (list2a & -> & Hst & Hend); [done|done|nia|nia|lia|nia|]. cbn [mbind outcome_bind].
  assert (∃ list1a, (if b then swap size (size * k) (size * k + size) list1 else Ok list1) = Ok list1a ∧ written list1 k (in_order b [x; y]) list1a)
    as (list1a & -> & Hw).
  { destruct b; [|exists list1; split; [done|by apply written_same]]. pose proof Hxy as [Hx [Hy _]%holds_cons]%holds_cons.
    replace (size * k + size) with (size * (k + 1)) by lia. by apply swap_run. }
  cbn [mbind outcome_bind]. assert (staged list1 list2 k [x; y] [in_order b [x; y]] list1a list2a) as Hs1.
  { apply staged_one; try done. cbn [length]. lia. }
  destruct G as [|g G].
  - cbn [length]. rewrite (proj2 (Z.ltb_ge _ _)) by lia. eexists _, list1a, list2a. split; [do 2 f_equal; lia|exact Hs1].
  - rewrite (proj2 (Z.ltb_lt _ _)) by (cbn [length]; nia).
    destruct (IH (k + 2) fuel list1a list2a) as (Qs & list1' & list2' & E & Hs2); [done|lia| |done| |].
    { eapply (holds_frame size Hsize); [apply Hw|rewrite in_order_length; cbn [length]; lia|done]. }
    { split; [eapply roomy_same; [apply Hs1|done]|]. rewrite flat_length. cbn [length] in *. lia. }
    replace (k + 2 * Z.of_nat (S (length (g :: G)))) with (k + 2 + 2 * zlen (g :: G)) by lia. rewrite E.
    eexists _, list1', list2'. split; [done|]. eapply staged_app; [done|done| |exact Hs1|exact Hs2]. rewrite flat_length. cbn [length] in *. lia.
Qed.

(** ** Longer runs *)

Lemma natural_run b : ∀ G r X fuel list1 list2,
  (length G ≤ fuel)%nat → holds list1 r (X ++ flat G) → Nat.Even (length X) → X ≠ [] → neighbours cmp b X →
  Forall (λ xy, sense_of xy = b) G → stage_ok list2 r (X ++ flat G) →
  ∃ O Y Qs list1' list2', let k' := r + zlen O in
    natural cmp size fuel (size * (r + zlen (X ++ flat G))) b (size * r) (size * (r + zlen X)) (size * r) list1 list2 =
      Ok (size * k', size * (k' + zlen Y), size * k', list1', list2') ∧
    X ++ flat G = O ++ Y ∧ staged list1 list2 r O Qs list1' list2' ∧ holds list1' k' Y ∧ Nat.Even (length Y) ∧ Y ≠ [] ∧ neighbours cmp b Y.
Proof.
  induction G as [|[x y] G IH]; intros r X fuel list1 list2 Hf HX HXe HXn HXb HG (Hr & Hk & Hkn).
  { rewrite app_nil_r in *. exists [], X, [], list1, list2. cbn [length]. cbv zeta. rewrite !Z.add_0_r.
    split; [destruct fuel; cbn [natural]; by rewrite Z.ltb_irrefl|]. split; [done|]. split; [apply staged_nil|]. done. }
  cbn [length] in Hf. destruct fuel as [|fuel]; [lia|]. apply Forall_cons in HG as [Hbx HG]. rewrite flat_cons in *.
  rewrite !length_app in Hkn. cbn [natural]. rewrite (proj2 (Z.ltb_lt _ _)) by (rewrite !length_app; cbn [length]; nia).
  destruct (exists_last HXn) as (X0 & u & EX). pose proof HX as [HX1 HX2]%holds_app. pose proof HX2 as [Hxy HG2]%holds_app.
  pose proof Hxy as [Hx _]%holds_cons. assert (has size list1 (r + zlen X - 1) u) as Hu.
  { rewrite EX in HX1. apply holds_app in HX1 as [_ Hu%holds_one]. rewrite EX, length_app. cbn [length].
    by replace (r + Z.of_nat (length X0 + 1) - 1) with (r + zlen X0) by lia. }
  replace (size * (r + zlen X) - size) with (size * (r + zlen X - 1)) by lia.
  rewrite (compare_run cmp size list1 _ _ u x) by done. cbn [mbind outcome_bind]. rewrite size2_eq by lia.
  replace (size * (r + zlen X) + size * 2) with (size * (r + zlen (X ++ [x; y]))) by (rewrite length_app; cbn [length]; lia).
  destruct (Bool.eqb_spec (0 <? cmp u x) b) as [Hb|Hb].
  - rewrite app_assoc in *. destruct (IH r (X ++ [x; y]) fuel list1 list2) as (O & Y & Qs & list1' & list2' & E & Hrest); [lia|done| | | |done| |].
    + rewrite length_app. destruct HXe as [m ->]. exists (m + 1)%nat. cbn [length]. lia.
    + by destruct X.
    + change [x; y] with ([x] ++ [y]). rewrite app_assoc. rewrite EX in *. apply neighbours_snoc; [by apply neighbours_snoc|done].
    + split; [done|]. rewrite !length_app. cbn [length] in *. lia.
    + exists O, Y, Qs, list1', list2'. done.
  - pose proof (EVAL_in size n Hsize list2 r Hr ltac:(lia)) as HE. pose proof Hr as [Hpl Hroom]. cbn [length] in Hkn.
    assert (2 ≤ length X)%nat as HX2' by (destruct HXe as [m Hm]; destruct X; [done|cbn in Hm |- *; lia]).
    destruct (store_ptr_run size Hsize list2 r (r + zlen X)) as (list2a & -> & Hst & Hend); [done|done|nia|nia|lia|nia|]. cbn [mbind outcome_bind].
    destruct (in_order_run size Hsize Hsz b X r list1) as (list1a & Ei & Hw); [done|done|done|done|].
    replace (size * (r + zlen X - 1)) with (size * (r + zlen X) - size) by lia. rewrite Ei. cbn [mbind outcome_bind].
    assert (staged list1 list2 r X [in_order b X] list1a list2a) as Hs1 by (apply staged_one; try done; lia).
    destruct (IH (r + zlen X) [x; y] fuel list1a list2a) as (O & Y & Qs & list1' & list2' & E & EO & Hs2 & Hrest);
      [lia| |by exists 1%nat|done|by split|done| |].
    { eapply (holds_frame size Hsize); [apply Hw|rewrite in_order_length; lia|done]. }
    { split; [eapply roomy_same; [apply Hs1|done]|]. rewrite length_app. cbn [length]. lia. }
    exists (X ++ O), Y, ([in_order b X] ++ Qs), list1', list2'. cbv zeta in *.
    rewrite (length_app X O), (length_app X [x; y]), (length_app X ([x; y] ++ _)), !Nat2Z.inj_add, !Z.add_assoc.
    split; [exact E|]. split; [by rewrite EO, app_assoc|]. split; [|done]. eapply staged_app; [done|done| |exact Hs1|exact Hs2].
    apply (f_equal length) in EO. rewrite !length_app in EO. cbn [length] in EO. lia.
Qed.

(** ** To the end *)

(** The elements [E] from [k] to the end were made runs. *)
Record settled list1 list2 k E Rs list1' list2' : Prop := {
  se_elements : written list1 k (concat Rs) list1';
  se_ends : run_ends size n list2' k Rs;
  se_same : same_area list2 list2';
  se_below : ∀ p i, p + i ≤ EVAL list2 (size * k) → load_bytes p i (ar_bytes list2') = load_bytes p i (ar_bytes list2);
  se_long : long_runs Rs ∧ Rs ≠ [];
  se_perm : concat Rs ≡ₚ E;
  se_sorted : cmp_ordered cmp → Forall (sorted cmp) Rs ∧ stably cmp E (concat Rs)
}.

Lemma long_runs_app Qs Rs : two Qs → long_runs Rs → Rs ≠ [] → long_runs (Qs ++ Rs).
Proof.
  intros Ht Hl Hne. induction Ht as [|R Qs HR _ IH]; [done|]. cbn [app long_runs]. destruct (Qs ++ Rs) eqn:E; [by destruct Qs|]. by split.
Qed.

Lemma staged_settled l1 l2 l1a l2a l1' l2' k E1 E2 Qs Rs :
  roomy l2 → 0 ≤ k → k + zlen E1 + zlen E2 ≤ n →
  staged l1 l2 k E1 Qs l1a l2a → settled l1a l2a (k + zlen E1) E2 Rs l1' l2' → settled l1 l2 k (E1 ++ E2) (Qs ++ Rs) l1' l2'.
Proof.
  intros Hr Hk Hkn H1 H2. pose proof (staged_length _ _ _ _ _ _ _ H1) as El.
  destruct H1 as [A1 A2 A3 A4 A5 A6], H2 as [B1 B2 Bs Bb [B3 B4] B5 B6]. assert (roomy l2a) as Hra by (eapply roomy_same; [apply A3|done]).
  apply run_ends_all in B2 as [B2 Bn]. split.
  - rewrite concat_app. eapply (written_app size Hsize); [exact A1|]. by rewrite El.
  - apply run_ends_all. rewrite concat_app, length_app. split; [|lia]. apply ends_all_app. rewrite El. split; [|done].
    apply (ends_all_below l2a l2' k (k + zlen E1)); [done|done|done|done|done|lia|lia|done].
  - eapply same_area_trans; [apply A3|done].
  - intros p i Hp. pose proof (EVAL_mono l2 k (k + zlen E1) Hr). rewrite Bb by (rewrite (EVAL_same _ _ _ (proj1 A3)); lia). apply A3. by left.
  - split; [by apply long_runs_app|]. by destruct Qs.
  - by rewrite concat_app, A5, B5.
  - intros Ho. destruct (A6 Ho), (B6 Ho). split; [by apply Forall_app|]. rewrite concat_app. by apply stably_app.
Qed.

(** The last run, which is sorted by insertion. *)
Context (T : list (list Z)) (t0 : list Z) (T1 : list (list Z)).
Hypothesis (HT : T = t0 :: T1) (HT4 : 4 ≤ zlen T) (HTs : cmp_ordered cmp → sorted cmp T).

Lemma settled_last list1 list2 k : holds list1 k T → ends_at list2 k n → k + zlen T = n → settled list1 list2 k T [T] list1 list2.
Proof.
  intros Hh He Hk. split; cbn [concat]; rewrite ?app_nil_r; try done.
  - cbn [run_ends]. by rewrite Hk.
  - cbn. split; [lia|done].
  - intros Ho. split; [|done]. constructor; [by apply HTs|constructor].
Qed.

(** A run that goes on into the last one. *)
Lemma settled_joined l1 l2 l1' l2' k b Y y :
  roomy l2 → 0 ≤ k → k + zlen Y + zlen T = n → neighbours cmp b Y → last (in_order b Y) = Some y → (0 <? cmp y t0) = false →
  holds l1 (k + zlen Y) T → written l1 k (in_order b Y) l1' → stored size l2 k l2' → ends_at l2' k n →
  settled l1 l2 k (Y ++ T) [in_order b Y ++ T] l1' l2'.
Proof.
  intros Hr Hk Hkn Hb Hlast Hc HhT Hw [Ha Hl Hf] He. destruct (in_order_resorted cmp b Y Hb) as [HP Hs]. pose proof (in_order_length b Y) as El.
  assert (holds l1' (k + zlen Y) T) as HhT' by (eapply (holds_frame size Hsize); [exact Hw|rewrite El; lia|done]).
  split; cbn [concat]; rewrite ?app_nil_r.
  - split; [apply Hw|apply Hw|apply holds_app; rewrite El; split; [apply Hw|done]|]. intros p i Hd. rewrite length_app, El in Hd.
    apply (wr_frame _ _ _ _ _ Hw). rewrite El. nia.
  - cbn [run_ends]. rewrite length_app, El. replace (k + Z.of_nat (length Y + length T)) with n by lia. done.
  - done.
  - intros p i Hp. apply Hf. by left.
  - split; [cbn; rewrite length_app; lia|done].
  - by rewrite HP.
  - intros Ho. destruct (Hs Ho) as [HsY Hst]. split; [|by apply stably_app]. constructor; [|constructor]. apply sorted_app. split; [done|]. split; [by apply HTs|].
    apply Z.ltb_ge in Hc. apply last_Some in Hlast as [Y0 EY]. rewrite EY in HsY |- *. apply sorted_app in HsY as (_ & _ & HY).
    assert (∀ t, t ∈ T → cmp y t ≤ 0) as Hyt.
    { intros t. pose proof (HTs Ho) as HsT. rewrite HT in HsT |- *. apply StronglySorted_inv in HsT as [_ F]. rewrite Forall_forall in F.
      intros [->|Ht]%elem_of_cons; [done|]. eapply (co_trans _ Ho); [done|by apply F]. }
    intros z t Hz Ht. apply elem_of_app in Hz as [Hz| ->%list_elem_of_singleton]; [|by apply Hyt].
    eapply (co_trans _ Ho); [apply HY; [done|left]|by apply Hyt].
Qed.

Lemma natural_end_run b Y k L list1 list2 :
  roomy list2 → 0 ≤ k → k + zlen Y ≤ L → L + zlen T = n → holds list1 k Y → holds list1 L T →
  Nat.Even (length Y) → Y ≠ [] → neighbours cmp b Y →
  ∃ v list1' list2', natural_end cmp size n (size * L) b (size * k) (size * (k + zlen Y)) (size * k) list1 list2 =
      Ok (size * (k + zlen Y), v, list1', list2') ∧
    (v = size * (k + zlen Y) ∧ staged list1 list2 k Y [in_order b Y] list1' list2' ∨
     k + zlen Y = L ∧ settled list1 list2 k (Y ++ T) [in_order b Y ++ T] list1' list2').
Proof.
  intros Hr Hk HL HLn HY HhT HYe HYn HYb. pose proof (EVAL_in size n Hsize list2 k Hr ltac:(lia)) as HE. pose proof Hr as [Hpl Hroom].
  assert (2 ≤ length Y)%nat as HY2 by (destruct HYe as [m Hm]; destruct Y; [done|cbn in Hm |- *; lia]).
  destruct (in_order_run size Hsize Hsz b Y k list1) as (list1a & Ei & Hw); [done|done|done|done|].
  unfold natural_end. rewrite Ei. cbn [mbind outcome_bind].
  assert (∀ v, 0 ≤ v ≤ n → ∃ l, store_ptr (size * k) (size * v) list2 = Ok l ∧ stored size list2 k l ∧ ends_at l k v) as Hstore.
  { intros v Hv. apply store_ptr_run; [done|done|done|nia|nia|lia|nia]. }
  destruct (Hstore (k + zlen Y)) as (l2a & Ea & Hsta & Hea); [lia|].
  assert (staged list1 list2 k Y [in_order b Y] list1a l2a) as Hs1 by (apply staged_one; try done; lia).
  destruct (Z.ltb_spec (size * (k + zlen Y)) (size * L)) as [Hlt|Hge].
  - cbn [mbind outcome_bind]. rewrite Ea. cbn [mbind outcome_bind]. eexists _, list1a, l2a. split; [done|]. by left.
  - assert (k + zlen Y = L) as EL by nia. destruct (last (in_order b Y)) as [y|] eqn:Ey.
    2:{ apply last_None in Ey. apply (f_equal length) in Ey. rewrite in_order_length in Ey. cbn in Ey. lia. }
    assert (has size list1a (L - 1) y) as Hy.
    { pose proof (in_order_length b Y) as El. apply last_Some in Ey as [Y0 EY]. pose proof (wr_holds _ _ _ _ _ Hw) as Hh. rewrite EY in Hh, El.
      rewrite length_app in El. cbn [length] in El. apply holds_app in Hh as [_ Hy%holds_one]. by replace (L - 1) with (k + zlen Y0) by lia. }
    assert (has size list1a L t0) as Ht0.
    { rewrite HT in HhT. apply holds_cons in HhT as [Ht0 _]. apply holds_one. eapply (holds_frame size Hsize); [exact Hw|rewrite in_order_length; lia|by apply holds_one]. }
    rewrite EL. replace (size * L - size) with (size * (L - 1)) by lia. rewrite (compare_run cmp size list1a _ _ y t0) by done. cbn [mbind outcome_bind].
    destruct (0 <? cmp y t0) eqn:Ec.
    + rewrite <- EL, Ea. cbn [mbind outcome_bind]. eexists _, list1a, l2a. split; [done|]. by left.
    + destruct (Hstore n) as (l2n & En & Hstn & Hen); [lia|]. rewrite (Z.mul_comm n size), En. cbn [mbind outcome_bind].
      eexists _, list1a, l2n. split; [done|]. right. split; [done|]. eapply settled_joined; try done; [lia|by rewrite EL].
Qed.

(** One turn of the loop. *)
Lemma group_run fuel x y G P k b len list1 list2 :
  (length G < fuel)%nat → Forall (λ xy, sense_of xy = b) ((x, y) :: G) → holds list1 k (flat ((x, y) :: G ++ P) ++ T) → roomy list2 → 0 ≤ k →
  k + 2 * zlen ((x, y) :: G ++ P) + zlen T = n →
  ∃ v list1' list2', let E := flat ((x, y) :: G) in
    (if len <? THRESHOLD then pairwise size fuel (size * (k + zlen E)) b (size * k) (size * k) list1 list2
     else
       '(f1, f2, p2, list1, list2) ← natural cmp size fuel (size * (k + zlen E)) b (size * k) (size * k + size2 size) (size * k) list1 list2;
       natural_end cmp size n (size * (k + 2 * zlen ((x, y) :: G ++ P))) b f1 f2 p2 list1 list2) =
      Ok (size * (k + zlen E), v, list1', list2') ∧
    (v = size * (k + zlen E) ∧ (∃ Qs, staged list1 list2 k E Qs list1' list2') ∨
     P = [] ∧ ∃ Rs, settled list1 list2 k (E ++ T) Rs list1' list2').
Proof.
  intros Hf Hb Hh Hr Hk Hkn. cbv zeta. rewrite app_comm_cons, flat_app, <- app_assoc in Hh. apply holds_app in Hh as [HG Hh].
  assert (zlen (flat ((x, y) :: G)) = 2 + 2 * zlen G) as El by (rewrite flat_length; cbn [length]; lia).
  cbn [length] in Hkn |- *. rewrite length_app in Hkn |- *. assert (stage_ok list2 k (flat ((x, y) :: G))) as Hok by (split; [done|lia]).
  destruct (len <? THRESHOLD).
  - destruct (pairwise_run b ((x, y) :: G) k fuel list1 list2) as (Qs & list1' & list2' & E & Hs); [done|cbn [length]; lia|done|done|done|].
    rewrite <- flat_length in E. rewrite E. eexists _, list1', list2'. split; [done|]. left. split; [done|]. by exists Qs.
  - apply Forall_cons in Hb as [Hbx Hb].
    destruct (natural_run b G k [x; y] fuel list1 list2) as (O & Y & Qs & l1a & l2a & E & EO & Hs & HY & HYe & HYn & HYb);
      [lia|done|by exists 1%nat|done|by split|done|done|].
    cbv zeta in E. rewrite size2_eq by lia. replace (size * k + size * 2) with (size * (k + zlen [x; y])) by (cbn [length]; lia).
    rewrite flat_cons in *. rewrite E. cbn [mbind outcome_bind].
    assert (zlen O + zlen Y = 2 + 2 * zlen G) as EOl by (rewrite <- El, EO, length_app; lia).
    pose proof (staged_length _ _ _ _ _ _ _ Hs) as HQl. pose proof (flat_length P) as HPl.
    assert (roomy l2a) as Hra by (eapply roomy_same; [apply Hs|done]). apply holds_app in Hh as [_ HhT].
    destruct (natural_end_run b Y (k + zlen O) (k + 2 * Z.of_nat (S (length G + length P))) l1a l2a) as (v & l1' & l2' & E' & Hv);
      [done|lia|lia|lia|done| |done|done|done|].
    { eapply (holds_frame size Hsize); [apply Hs|rewrite HQl; lia|]. rewrite El in HhT.
      by replace (k + 2 * Z.of_nat (S (length G + length P))) with (k + (2 + 2 * zlen G) + zlen (flat P)) by lia. }
    replace (k + zlen ([x; y] ++ flat G)) with (k + zlen O + zlen Y) by lia. rewrite E'. exists v, l1', l2'. split; [done|]. rewrite EO.
    destruct Hv as [[-> Hs2]|[EL Hs2]]; [left|right].
    + split; [done|]. eexists. eapply staged_app; [done|done|lia|exact Hs|exact Hs2].
    + split; [destruct P; [done|cbn in EL; lia]|]. eexists. rewrite <- app_assoc. eapply staged_settled; [done|done|rewrite length_app; lia|exact Hs|exact Hs2].
Qed.

Lemma setup_loop_run : ∀ fuel P k b list1 list2,
  (length P < fuel)%nat → holds list1 k (flat P ++ T) → roomy list2 → 0 ≤ k → k + 2 * zlen P + zlen T = n → ends_at list2 (k + 2 * zlen P) n →
  match P with xy :: _ => sense_of xy = b | [] => True end →
  ∃ Rs list1' list2', setup_loop cmp size fuel n (size * (k + 2 * zlen P)) b (size * k) (size * k) list1 list2 = Ok (list1', list2') ∧
    settled list1 list2 k (flat P ++ T) Rs list1' list2'.
Proof.
  induction fuel as [|fuel IH]; intros P k b list1 list2 Hf Hh Hr Hk Hkn He Hb; [lia|]. cbn [setup_loop]. destruct P as [|[x y] P].
  { cbn [length] in *. rewrite Z.mul_0_r, Z.add_0_r in *. rewrite Z.ltb_irrefl. exists [T], list1, list2. split; [done|]. by apply settled_last. }
  rewrite (proj2 (Z.ltb_lt _ _)) by (cbn [length]; nia). pose proof Hh as [HP HhT]%holds_app. rewrite flat_cons in HP. apply holds_app in HP as [_ HP]. cbn [length] in HP.
  destruct (same_sense_run list1 b P (k + 2) (S fuel) 2) as (G & P' & len & E & -> & HG & HP'); [done|cbn [length] in Hf; lia|].
  rewrite size2_eq by lia. replace (size * k + size * 2) with (size * (k + 2)) by lia.
  replace (k + 2 * zlen ((x, y) :: G ++ P')) with (k + 2 + 2 * zlen (G ++ P')) by (cbn [length]; lia). rewrite E. cbn [mbind outcome_bind].
  destruct (group_run (S fuel) x y G P' k b len list1 list2) as (v & l1a & l2a & E' & Hv);
    [cbn [length] in Hf; rewrite length_app in Hf; lia|by constructor|done|done|done|done|].
  cbv zeta in E', Hv. assert (zlen (flat ((x, y) :: G)) = 2 + 2 * zlen G) as El by (rewrite flat_length; cbn [length]; lia).
  rewrite size2_eq in E' by lia. replace (size * k + size * 2) with (size * (k + 2)) in E' by lia.
  replace (k + 2 * zlen ((x, y) :: G ++ P')) with (k + 2 + 2 * zlen (G ++ P')) in E' by (cbn [length]; lia).
  replace (k + 2 + 2 * zlen G) with (k + zlen (flat ((x, y) :: G))) by lia. rewrite E'. cbn [mbind outcome_bind].
  rewrite app_comm_cons, flat_app, <- app_assoc in Hh |- *. cbn [length] in Hkn, He, Hf. rewrite length_app in Hkn, He, Hf |- *.
  destruct Hv as [[-> [Qs Hs]]|[-> [Rs Hs]]].
  - pose proof (staged_length _ _ _ _ _ _ _ Hs) as HQl. apply holds_app in Hh as [_ Hh]. set (k1 := k + zlen (flat ((x, y) :: G))) in *.
    assert (roomy l2a) as Hra by (eapply roomy_same; [apply Hs|done]).
    destruct (IH P' k1 (negb b) l1a l2a) as (Rs & l1' & l2' & E2 & Hs2); [lia| |done|lia|lia| |by destruct P'|].
    + eapply (holds_frame size Hsize); [apply Hs|rewrite HQl; lia|done].
    + replace (k1 + 2 * zlen P') with (k + 2 * Z.of_nat (S (length G + length P'))) by lia.
      destruct (sg_touched _ _ _ _ _ _ _ Hs) as [Hsa Hfr]. eapply ends_at_same; [apply Hsa| |exact He]. apply Hfr. right.
      apply EVAL_mono; [done|lia|lia|lia].
    + replace (k + 2 + 2 * Z.of_nat (length G + length P')) with (k1 + 2 * zlen P') by lia. rewrite E2.
      eexists _, l1', l2'. split; [done|]. eapply staged_settled; [done|done| |exact Hs|exact Hs2]. rewrite length_app. pose proof (flat_length P'). lia.
  - exists Rs, l1a, l2a. split; [|done]. cbn [length] in *.
    replace (k + 2 + 2 * Z.of_nat (length G + 0)) with (k + zlen (flat ((x, y) :: G))) by lia. destruct fuel; cbn [setup_loop]; by rewrite Z.ltb_irrefl.
Qed.
End Natural.
