(* ===== verification/MergeSort.v ===== *)
(** Merge sort as a whole. *)

From Stdlib Require Import Sorting.Sorted ZifyNat.
From S2P Require Import Prelude Errors Sort Merge MergeAreas MergeSearch MergeRuns MergePasses MergeSetup MergeNatural.

(** * The first runs *)

Section First.
Context (cmp : list Z → list Z → Z) (size n : Z) (Hsize : 4 ≤ size) (Hsz : size < 2 ^ 30) (Hn : size * n < 2 ^ 62).
Implicit Types (E : list (list Z)) (Rs : list (list (list Z))) (l : area).

Definition first_runs E Rs : Prop :=
  Rs ≠ [] ∧ (length Rs = 1%nat ∨ long_runs Rs) ∧ concat Rs ≡ₚ E ∧ (cmp_ordered cmp → Forall (sorted cmp) Rs ∧ stably cmp E (concat Rs)).

(** A few elements are one run. *)
Lemma setup_short list1 list2 E :
  holds size list1 0 E → zlen E = n → 0 < n ≤ 5 → roomy size n list2 → zlen (ar_bytes list2) = size * n + 8 → ar_addr list2 mod 8 = 0 →
  ∃ Rs list1' list2', setup cmp size list1 list2 n = Ok (list1', list2') ∧ first_runs E Rs ∧ holds size list1' 0 (concat Rs) ∧
    run_ends size n list2' 0 Rs ∧ same_area list1 list1' ∧ same_area list2 list2'.
Proof.
  intros HE HEn H5 Hr Hl2 Hal. unfold setup. rewrite (proj2 (Z.leb_le _ _)) by lia.
  destruct (insertionsort_run cmp size Hsize list1 0 E) as (E' & list1' & Es & Hw & HP & Hs); [done|by intros ->; cbn in HEn; lia|lia|lia|].
  rewrite Z.mul_0_r, HEn in Es. rewrite Es. cbn [mbind outcome_bind]. pose proof Hr as [Hpl Hroom].
  assert (EVAL list2 (size * 0) = 0) as HE0.
  { destruct (EVAL_at size Hsize list2 0 Hpl) as (w & Ew & ?); [lia|nia|]. apply Z.mod_divide in Hal as [v Hv]; [|done]. lia. }
  destruct (store_ptr_run size Hsize list2 0 n) as (list2' & Ep & [Ha Hl _] & Hend); [done|lia|lia|lia|lia|lia|].
  rewrite Z.mul_0_r in Ep. rewrite (Z.mul_comm n size), Ep. exists [E'], list1', list2'. split; [done|]. cbn [concat]. rewrite app_nil_r.
  assert (zlen E' = n) as HE'n by (by rewrite HP). split; [|split; [apply Hw|split; [|split; [split; apply Hw|done]]]].
  - split; [done|]. split; [by left|]. cbn [concat]. rewrite app_nil_r. split; [done|]. intros Ho. destruct (Hs Ho). split; [by constructor|done].
  - cbn. rewrite HE'n. split; [by rewrite Z.add_0_l|lia].
Qed.

(** Pairs and longer runs, and a run of four or five at the end. *)
Lemma setup_long list1 list2 E :
  holds size list1 0 E → zlen E = n → 5 < n → roomy size n list2 → roomy size n list1 →
  ∃ Rs list1' list2', setup cmp size list1 list2 n = Ok (list1', list2') ∧ first_runs E Rs ∧ holds size list1' 0 (concat Rs) ∧
    run_ends size n list2' 0 Rs ∧ same_area list1 list1' ∧ same_area list2 list2'.
Proof.
  intros HE HEn H5 Hr Hr1. unfold setup. rewrite (proj2 (Z.leb_gt _ _)) by lia. cbv zeta.
  assert (∃ P T, E = flat P ++ T ∧ zlen T = 4 + Z.land n 1 ∧ 0 ≤ Z.land n 1 ≤ 1) as (P & T & -> & HT & Hodd).
  { change 1 with (Z.ones 1). rewrite Z.land_ones by lia. change (2 ^ 1) with 2. pose proof (Z.div_mod n 2). pose proof (Z.mod_pos_bound n 2).
    set (m := Z.to_nat (n - (4 + n mod 2))). destruct (flat_of (take m E)) as [P EP].
    { rewrite length_take. exists (Z.to_nat (n / 2 - 2)). lia. }
    exists P, (drop m E). rewrite <- EP, take_drop. split; [done|]. rewrite length_drop. change (Z.ones 1) with 1. lia. }
  set (i := 4 + Z.land n 1) in *. pose proof (flat_length P) as HPl. rewrite length_app in HEn.
  replace (n - i) with (2 * zlen P) by lia. apply holds_app in HE as [HP0 HT0]. rewrite HPl, Z.add_0_l in HT0.
  destruct (insertionsort_run cmp size Hsize list1 (2 * zlen P) T) as (T' & list1a & Es & Hw & HTP & HTs); [done|by intros ->; cbn in HT; lia|lia|lia|].
  rewrite HT in Es. rewrite (Z.mul_comm (2 * zlen P) size), Es. cbn [mbind outcome_bind]. pose proof Hr as [Hpl Hroom].
  pose proof (EVAL_in size n Hsize list2 (2 * zlen P) Hr ltac:(lia)) as HEv.
  destruct (store_ptr_run size Hsize list2 (2 * zlen P) n) as (list2a & Ep & [Ha Hl _] & Hend); [done|lia|nia|nia|lia|nia|].
  rewrite (Z.mul_comm n size), Ep. cbn [mbind outcome_bind]. assert (zlen T' = i) as HT' by (by rewrite HTP).
  destruct P as [|[x y] P]; [cbn in HEn; lia|]. destruct T' as [|t0 T1]; [cbn in HT'; lia|].
  assert (holds size list1a 0 (flat ((x, y) :: P) ++ t0 :: T1)) as Hh.
  { apply holds_app. rewrite HPl, Z.add_0_l. split; [|apply Hw]. eapply (holds_frame size Hsize); [exact Hw|lia|done]. }
  pose proof Hh as [[Hx [Hy _]%holds_cons]%holds_cons _]%holds_app. pose proof (compare_run cmp size list1a _ _ x y Hx Hy) as Ec.
  replace (size * (0 + 1)) with size in Ec by lia. rewrite Z.mul_0_r in Ec. rewrite Ec. cbn [mbind outcome_bind].
  destruct (setup_loop_run cmp size n Hsize Hsz Hn (t0 :: T1) t0 T1 eq_refl ltac:(lia) (λ Ho, proj1 (HTs Ho)) (length (ar_bytes list1a)) ((x, y) :: P) 0 (0 <? cmp x y) list1a list2a)
    as (Rs & list1' & list2' & E & [S1 S2 S3 _ [S4 S5] S6 S7]);
    [|done|by eapply roomy_same|lia|lia|done|done|].
  { pose proof (wr_length _ _ _ _ _ Hw). destruct Hr1. nia. }
  rewrite Z.mul_0_r, Z.add_0_l in E. rewrite E. exists Rs, list1', list2'. split; [done|]. split; [|split; [apply S1|split; [done|split]]].
  - split; [done|]. split; [by right|]. split; [by rewrite S6, HTP|]. intros Ho. destruct (S7 Ho), (HTs Ho) as [_ HTst]. split; [done|].
    eapply stably_trans; [|done]. by apply stably_app.
  - eapply same_area_trans; split; [apply Hw|apply Hw|apply S1|apply S1].
  - by eapply same_area_trans.
Qed.
End First.

(** * The sort *)

(** The array [bytes] has the elements [E]. *)
Lemma holds_bytes size l (E : list (list Z)) :
  4 ≤ size → holds size l 0 E → zlen (ar_bytes l) = size * zlen E → ar_bytes l = concat E.
Proof.
  intros Hsize. destruct l as [a bytes]. cbn [ar_bytes]. revert bytes. induction E as [|x E IH] using rev_ind; intros bytes Hh Hl.
  { cbn in Hl. by destruct bytes; [|cbn in Hl; lia]. }
  apply holds_app in Hh as [HE Hx%holds_one]. rewrite length_app in Hl. cbn [length] in Hl. destruct Hx as [_ Hx]. cbn [ar_bytes] in Hx.
  apply load_bytes_inv in Hx as (_ & _ & _ & Ex). rewrite concat_app. cbn [concat]. rewrite app_nil_r.
  rewrite <- (IH (take (Z.to_nat (size * zlen E)) bytes)).
  - rewrite Ex. unfold slice. rewrite Z.add_0_l, (take_ge (drop _ _)) by (rewrite length_drop; nia). by rewrite take_drop.
  - eapply (holds_same size Hsize); [|exact HE]. cbn [ar_bytes]. intros p i Hp Hpi.
    destruct (decide (0 ≤ i)); [|unfold load_bytes; by rewrite !bool_decide_false by lia].
    rewrite <- slice_0, load_slice by nia. by rewrite Z.add_0_l.
  - rewrite length_take. nia.
Qed.

Lemma bytes_holds size a (E : list (list Z)) :
  4 ≤ size → Forall (λ x, zlen x = size) E → zlen (concat E) = size * zlen E ∧ holds size (mkArea a (concat E)) 0 E.
Proof.
  intros Hsize HE. assert (∀ E : list (list Z), Forall (λ x, zlen x = size) E → zlen (concat E) = size * zlen E) as Hlen.
  { clear. induction 1 as [|x E Hx _ IH]; cbn; [lia|]. rewrite length_app. lia. }
  split; [by apply Hlen|]. intros i x Hi. split; [lia|]. cbn [ar_bytes]. rewrite Z.add_0_l.
  pose proof (take_drop_middle _ _ _ Hi) as EE. rewrite <- EE in HE |- *. apply Forall_app in HE as [H1 [Hx H2]%Forall_cons].
  apply lookup_lt_Some in Hi. rewrite concat_app. cbn [concat]. pose proof (Hlen _ H1) as Hl1. rewrite length_take in Hl1.
  rewrite load_bytes_Ok; [|lia|lia|rewrite !length_app; lia]. f_equal. apply slice_middle; lia.
Qed.

(** The elements end up in the array, wherever the last pass left them. *)
Lemma array_back size base list2 l1 l2 (R : list (list Z)) :
  4 ≤ size → holds size l1 0 R → ar_addr list2 ≠ ar_addr base → zlen (ar_bytes base) = size * zlen R →
  size * zlen R ≤ zlen (ar_bytes list2) → same_area base l1 ∧ same_area list2 l2 ∨ same_area base l2 ∧ same_area list2 l1 →
  (if ar_addr base =? ar_addr l2 then
     x ← load_bytes 0 (size * zlen R) (ar_bytes l1); l2 ← put_at 0 x l2; Ok (0, 0, ar_bytes l2)
   else Ok (0, 0, ar_bytes l1)) = Ok (0, 0, concat R).
Proof.
  intros Hsize HhR Hne Hlb Hl2 [[[Ea1 El1] [Ea2 El2]]|[[Ea1 El1] [Ea2 El2]]].
  - rewrite (proj2 (Z.eqb_neq _ _)) by lia. do 2 f_equal. apply (holds_bytes size); [done|done|lia].
  - rewrite (proj2 (Z.eqb_eq _ _)) by done. rewrite load_bytes_Ok by lia. cbn [mbind outcome_bind]. set (x := slice 0 _ _).
    assert (zlen x = size * zlen R) as Hsl by (apply slice_length; lia).
    rewrite put_at_Ok by lia. cbn [mbind outcome_bind ar_bytes]. do 2 f_equal. unfold splice. cbn [Z.to_nat take app Nat.add].
    rewrite drop_ge, app_nil_r by lia. change x with (ar_bytes (mkArea 0 x)).
    apply (holds_bytes size); [done| |cbn [ar_bytes]; lia]. eapply (holds_same size Hsize); [|exact HhR]. cbn [ar_bytes]. intros p i Hp Hpi.
    destruct (decide (0 ≤ i)); [|unfold load_bytes; by rewrite !bool_decide_false by lia]. unfold x. rewrite load_slice by nia. by rewrite Z.add_0_l.
Qed.

(** C29. [mergesort] sorts and is stable.  For every array of elements of four bytes
    or more, at any address, with memory for a copy: the function returns 0, ends,
    stays inside the array and its block - in which it keeps pointers to the ends
    of runs between the bytes of elements - and leaves the same elements,
    whatever the comparison function answers; when that is a total preorder they
    are in order and equal ones are in the order they had. *)
Theorem mergesort_stable cmp size (E : list (list Z)) addr mem uninit :
  4 ≤ size < 2 ^ 30 → Forall (λ x, zlen x = size) E → size * zlen E < 2 ^ 62 →
  0 ≤ addr < 2 ^ 63 → 0 ≤ mem < 2 ^ 63 → mem mod 8 = 0 → mem ≠ addr →
  ∃ E', mergesort cmp size (Some mem) uninit (mkArea addr (concat E)) (zlen E) = Ok (0, 0, concat E') ∧ E' ≡ₚ E ∧
    (cmp_ordered cmp → StronglySorted (λ x y, cmp x y ≤ 0) E' ∧ ∀ x, filter (λ y, cmp x y = 0) E' = filter (λ y, cmp x y = 0) E).
Proof.
  intros [Hsize Hsz] HE Hn Haddr Hmem Hal Hne. unfold mergesort. change (PSIZE / 2) with 4. rewrite (proj2 (Z.ltb_ge size 4)) by lia.
  destruct (Z.eqb_spec (zlen E) 0) as [E0|Hpos]; [destruct E; [|cbn in E0; lia]; exists []; by split; [|split; [|split; [constructor|]]]|].
  destruct (bytes_holds size addr E Hsize HE) as [Hlen Hh]. set (n := zlen E) in *. set (base := mkArea addr (concat E)) in *. cbn [ar_addr].
  set (list2 := mkArea mem _). assert (zlen (ar_bytes list2) = size * n + 8) as Hl2.
  { cbn [ar_bytes list2]. rewrite length_fmap, length_seqZ, u64_id by (unfold is_u64, PSIZE; lia). unfold PSIZE. lia. }
  assert (roomy size n base) as Hr1 by (split; [split; cbn [ar_addr ar_bytes base]; lia|cbn [ar_bytes base]; lia]).
  assert (roomy size n list2) as Hr2 by (split; [split; cbn [ar_addr list2]; lia|lia]).
  assert (∃ Rs list1' list2', setup cmp size base list2 n = Ok (list1', list2') ∧ first_runs cmp E Rs ∧ holds size list1' 0 (concat Rs) ∧
    run_ends size n list2' 0 Rs ∧ same_area base list1' ∧ same_area list2 list2') as (Rs & list1a & list2a & -> & (HRne & HRl & HRP & HRs) & Hh1 & He2 & Hs1 & Hs2).
  { destruct (decide (n ≤ 5)); [apply setup_short|apply setup_long]; try done; lia. }
  cbn [mbind outcome_bind]. set (step := if (size mod ISIZE =? 0) && (ar_addr base mod ISIZE =? 0) then ISIZE else 1). assert (0 < step ∧ (step | size)) as [Hst Hdiv].
  { subst step. destruct (Z.eqb_spec (size mod ISIZE) 0) as [Em|], (Z.eqb_spec (ar_addr base mod ISIZE) 0); cbn [andb]; (split; [done|]);
      try apply Z.divide_1_l. by apply Z.mod_divide. }
  destruct (merge_passes_run size n Hsize cmp step Hst Hdiv Hn (Z.to_nat n) Rs false list1a list2a) as (R & l1 & l2 & E2 & HhR & HRR & HRs' & Hplaces);
    [|done|by eapply roomy_same|by eapply roomy_same|done|done|done|].
  { assert (length (concat Rs) = length E) as Hlr by (by rewrite HRP). destruct HRl as [->|HRl]; [lia|].
    pose proof (long_runs_length _ HRl). lia. }
  rewrite (Z.mul_comm n size), E2. cbn [mbind outcome_bind]. exists R. assert (zlen R = n) as HRn by (rewrite HRR, HRP; done).
  assert (R ≡ₚ E ∧ (cmp_ordered cmp → StronglySorted (λ x y, cmp x y ≤ 0) R ∧ ∀ x, filter (λ y, cmp x y = 0) R = filter (λ y, cmp x y = 0) E)) as Hres.
  { split; [by rewrite HRR|]. intros Ho. destruct (HRs Ho) as [HF Hst1]. destruct (HRs' Ho HF) as [? Hst2]. split; [done|]. intros x. exact (stably_trans _ _ _ _ Hst1 Hst2 x). }
  split; [|done]. rewrite <- HRn. apply (array_back size base list2); rewrite ?HRn; [done|done| |done|lia|].
  - cbn [ar_addr base list2]. lia.
  - destruct Hplaces as [[? ?]|[? ?]]; [left|right]; by split; eapply same_area_trans.
Qed.

(** * Elements of five bytes at an odd address *)

(** The first byte is the key. *)
Definition key (x : list Z) : Z := default 0 (head x).
Definition by_key (x y : list Z) : Z := key x - key y.
Definition five (k tag : Z) : list Z := [k; tag; 0; 0; 255].
Definition sample : list (list Z) := [five 9 1; five 3 2; five 9 3; five 4 4; five 3 5; five 1 6; five 9 7; five 2 8; five 3 9].

Lemma mergesort_stable_witness :
  ∃ E', mergesort by_key 5 (Some 1000) (λ _, 7) (mkArea 5003 (concat sample)) 9 = Ok (0, 0, concat E') ∧ E' ≡ₚ sample ∧
    filter (λ y, by_key (five 3 0) y = 0) E' = [five 3 2; five 3 5; five 3 9].
Proof.
  destruct (mergesort_stable by_key 5 sample 5003 1000 (λ _, 7)) as (E' & E & HP & Hs);
    [lia|by repeat constructor|by vm_compute|lia|lia|done|done|]. exists E'. split; [exact E|]. split; [exact HP|].
  destruct Hs as [_ Hst]; [split; unfold by_key; intros; lia|]. rewrite Hst. reflexivity.
Defined.
