(* ===== verification/Radix.v ===== *)
(** src/system/libroot/posix/stdlib/radixsort.c: sorting an array of strings by
    their translated bytes.

    An element of the array is a pointer; [str] says which bytes are found from it
    on.  A translation table maps bytes to the values that are compared, and the
    value [endch] ends a string.  [r_sort_a] sorts in place, [r_sort_b] with a second
    array of pointers; both keep a stack of the parts that are left to sort and, in
    static variables, the histogram of the part they look at. *)

From S2P Require Import Prelude Errors.

Definition THRESHOLD : Z := 20.
Definition SIZE : Z := 512.

(** A part of the array: [sn] elements from [sa] on that agree before index [si]. *)
Record stack := mkStack { sa : Z; sn : Z; si : Z }.

Section Model.
Context {A : Type} (str : A → list Z).

(** The array, the second array and the static variables. *)
Record radix := mkRadix {
  arr : list A;
  ta : list A;
  count : list Z;
  nc : Z;
  bmin : Z
}.

Definition set_arr (l : list A) (s : radix) : radix := mkRadix l (ta s) (count s) (nc s) (bmin s).
Definition set_ta (l : list A) (s : radix) : radix := mkRadix (arr s) l (count s) (nc s) (bmin s).
Definition set_count (l : list Z) (s : radix) : radix := mkRadix (arr s) (ta s) l (nc s) (bmin s).
Definition set_nc (n : Z) (s : radix) : radix := mkRadix (arr s) (ta s) (count s) n (bmin s).
Definition set_bmin (n : Z) (s : radix) : radix := mkRadix (arr s) (ta s) (count s) (nc s) n.

(** Reading and writing arrays, in their bounds. *)
Definition get {B} (l : list B) (k : Z) : outcome B :=
  if k <? 0 then Bad OutOfBounds
  else match l !! Z.to_nat k with Some x => Ok x | None => Bad OutOfBounds end.

Definition put {B} (l : list B) (k : Z) (x : B) : outcome (list B) :=
  if (k <? 0) || (zlen l <=? k) then Bad OutOfBounds else Ok (<[Z.to_nat k := x]> l).

Definition get_arr (k : Z) : M radix A := s ← getS; liftO (get (arr s) k).
Definition put_arr (k : Z) (x : A) : M radix unit := s ← getS; l ← liftO (put (arr s) k x); modifyS (set_arr l).
Definition get_ta (k : Z) : M radix A := s ← getS; liftO (get (ta s) k).
Definition put_ta (k : Z) (x : A) : M radix unit := s ← getS; l ← liftO (put (ta s) k x); modifyS (set_ta l).
Definition get_count (c : Z) : M radix Z := s ← getS; liftO (get (count s) c).
Definition put_count (c n : Z) : M radix unit := s ← getS; l ← liftO (put (count s) c n); modifyS (set_count l).

(** The macro [SETUP]: the table and the value that ends a string, or [EINVAL]. *)
Definition SETUP (tab : option (list Z)) (endch : Z) : outcome (Z + list Z * Z) :=
  match tab with
  | None =>
      if 255 <? endch then Bad OutOfBounds
      else Ok (inr ((λ c, if c <? endch then c + 1 else if c =? endch then 0 else c) <$> seqZ 0 256, 0))
  | Some tab =>
      endch ← get tab endch;
      if negb (endch =? 0) && negb (endch =? 255) then Ok (inl EINVAL) else Ok (inr (tab, endch))
  end.

Section Table.
Context (tr : list Z) (endch : Z).

(** [tr[p[i]]]. *)
Definition tr_at (p : A) (i : Z) : outcome Z := b ← get (str p) i; get tr b.

(** The inner loop of [simplesort], on the bytes from [s] and [t] on, and its test
    [ch >= tr[*t]]. *)
Fixpoint not_below (s t : list Z) : outcome bool :=
  match s with
  | [] => Bad OutOfBounds
  | b :: s =>
      ch ← get tr b;
      match t with
      | [] => Bad OutOfBounds
      | b' :: t =>
          ch' ← get tr b';
          if (ch =? endch) || negb (ch =? ch') then Ok (ch' <=? ch) else not_below s t
      end
  end.

(** The loop of [simplesort] over [ai], from [k] elements above [a]. *)
Fixpoint simple_down (a b : Z) (k : nat) : M radix unit :=
  match k with
  | O => mret tt
  | S k =>
      let ai := a + Z.of_nat (S k) in
      x ← get_arr ai;
      y ← get_arr (ai - 1);
      stop ← liftO (not_below (drop (Z.to_nat b) (str x)) (drop (Z.to_nat b) (str y)));
      if stop : bool then mret tt
      else
        put_arr ai y;; put_arr (ai - 1) x;;
        simple_down a b k
  end.

(** [m] turns of the loop of [simplesort] over [ak], from [a + k]. *)
Fixpoint simple_loop (a b : Z) (k m : nat) : M radix unit :=
  match m with
  | O => mret tt
  | S m => simple_down a b k;; simple_loop a b (S k) m
  end.

Definition simplesort (a n b : Z) : M radix unit := simple_loop a b 1 (Z.to_nat (n - 1)).

(** One element of the histogram. *)
Definition tally (p : A) (i : Z) : M radix unit :=
  c ← liftO (tr_at p i);
  k ← get_count c;
  put_count c (s32 (k + 1));;
  s ← getS;
  if (s32 (k + 1) =? 1) && negb (c =? endch) then
    modifyS (if c <? bmin s then set_bmin c else id);;
    modifyS (set_nc (s32 (nc s + 1)))
  else mret tt.

(** The histogram of [r_sort_a], from the first element of [m] on. *)
Fixpoint hist_a (ak i : Z) (m : nat) : M radix unit :=
  match m with
  | O => mret tt
  | S m => p ← get_arr ak; tally p i;; hist_a (ak + 1) i m
  end.

(** The histogram of [r_sort_b], from the last element of [m] on. *)
Fixpoint hist_b (a i : Z) (m : nat) : M radix unit :=
  match m with
  | O => mret tt
  | S m => p ← get_arr (a + Z.of_nat m); tally p i;; hist_b a i m
  end.

(** The stack has its top first; it is an array of [SIZE] entries. *)
Definition push (stk : list stack) (e : stack) : outcome (list stack) :=
  if SIZE <=? zlen stk then Bad OutOfBounds else Ok (e :: stk).

(** The entry at position [sp], counted from the bottom. *)
Definition stack_index (stk : list stack) (sp : Z) : nat := Z.to_nat (zlen stk - 1 - sp).

(** Without a pile pushed, [sp0] and [sp1] are the same unused slot. *)
Definition swap_entries (sp0 sp1 : Z) (stk : list stack) : list stack :=
  match stk !! stack_index stk sp0, stk !! stack_index stk sp1 with
  | Some e0, Some e1 => <[stack_index stk sp0 := e1]> (<[stack_index stk sp1 := e0]> stk)
  | _, _ => stk
  end.

(** The loop over the piles, with at most [fuel] steps of [cp]: sets [top] and
    pushes the piles of two and more; [reset] is the reset of the counts, which only
    [r_sort_b] does here. *)
Fixpoint piles (reset : bool) (fuel : nat) (cp ak i bigc sp1 : Z) (top : gmap Z Z) (stk : list stack)
    : M radix (gmap Z Z * list stack * Z) :=
  s ← getS;
  if nc s <=? 0 then mret (top, stk, sp1)
  else
    match fuel with
    | O => hangM
    | S fuel =>
        c ← get_count cp;
        if c =? 0 then piles reset fuel (cp + 1) ak i bigc sp1 top stk
        else
          let '(bigc', sp1') := if (1 <? c) && (bigc <? c) then (c, zlen stk) else (bigc, sp1) in
          stk' ← liftO (if 1 <? c then push stk (mkStack ak c (s32 (i + 1))) else Ok stk);
          (if reset then put_count cp 0 else mret tt);;
          modifyS (set_nc (nc s - 1));;
          piles reset fuel (cp + 1) (ak + c) i bigc' sp1' (<[cp := ak + c]> top) stk'
    end.

Definition get_top (top : gmap Z Z) (c : Z) : outcome Z :=
  match top !! c with Some p => Ok p | None => Bad OutOfBounds end.

(** The inner loop that brings misplaced elements home: [r] is the element in hand. *)
Fixpoint home (fuel : nat) (i aj : Z) (r : A) (top : gmap Z Z) : M radix (A * Z * gmap Z Z) :=
  match fuel with
  | O => hangM
  | S fuel =>
      c ← liftO (tr_at r i);
      t ← liftO (get_top top c);
      let ak := t - 1 in
      let top := <[c := ak]> top in
      if aj <? ak then
        x ← get_arr ak;
        put_arr ak r;;
        home fuel i aj x top
      else mret (r, c, top)
  end.

(** The outer loop. *)
Fixpoint permute (fuel : nat) (i an aj : Z) (top : gmap Z Z) : M radix unit :=
  if an <=? aj then mret tt
  else
    match fuel with
    | O => hangM
    | S fuel =>
        r ← get_arr aj;
        s ← getS;
        '(r, c, top) ← home (S (length (arr s))) i aj r top;
        put_arr aj r;;
        k ← get_count c;
        put_count c 0;;
        permute fuel i an (aj + k) top
    end.

(** The rest of a turn of [r_sort_a]: the bins of the part and the permutation. *)
Definition bins_a (a n i : Z) (stk : list stack) : M radix (list stack) :=
  s ← getS;
  k ← get_count (bmin s);
  if (nc s =? 1) && (k =? n) then
    stk ← liftO (push stk (mkStack a n (s32 (i + 1))));
    put_count (bmin s) 0;;
    modifyS (set_nc 0);;
    mret stk
  else
    k0 ← get_count 0;
    let '(ak, top) := if endch =? 0 then (a + k0, <[0 := a + k0]> ∅) else (a, <[255 := a + n]> ∅) in
    '(top, stk', sp1) ← piles false 256 (bmin s) ak i 2 (zlen stk) top stk;
    permute (Z.to_nat n) i (a + n) a top;;
    mret (swap_entries (zlen stk) sp1 stk').

(** [*--ak = *--ai], from the [m]-th element on. *)
Fixpoint copy_ta (a : Z) (m : nat) : M radix unit :=
  match m with
  | O => mret tt
  | S m => x ← get_arr (a + Z.of_nat m); put_ta (Z.of_nat m) x;; copy_ta a m
  end.

(** [*--top[tr[p[i]]] = p] for [p = *ak], from the [m]-th element on. *)
Fixpoint deal (i : Z) (m : nat) (top : gmap Z Z) : M radix unit :=
  match m with
  | O => mret tt
  | S m =>
      x ← get_ta (Z.of_nat m);
      c ← liftO (tr_at x i);
      t ← liftO (get_top top c);
      put_arr (t - 1) x;;
      deal i m (<[c := t - 1]> top)
  end.

(** The rest of a turn of [r_sort_b]. *)
Definition bins_b (a n i : Z) (stk : list stack) : M radix (list stack) :=
  s ← getS;
  k0 ← get_count 0;
  let '(ak, top) := if endch =? 0 then (a + k0, <[0 := a + k0]> ∅) else (a, <[255 := a + n]> ∅) in
  put_count (if endch =? 0 then 0 else 255) 0;;
  '(top, stk', sp1) ← piles true 256 (bmin s) ak i 2 (zlen stk) top stk;
  copy_ta a (Z.to_nat n);;
  deal i (Z.to_nat n) top;;
  mret (swap_entries (zlen stk) sp1 stk').

(** The loop of both functions; [fuel] bounds its turns and those of the calls it
    makes for more stack. *)
Fixpoint r_sort (hist : Z → Z → nat → M radix unit) (bins : Z → Z → Z → list stack → M radix (list stack))
    (fuel : nat) (stk : list stack) : M radix unit :=
  match stk with
  | [] => mret tt
  | mkStack a n i :: stk =>
      match fuel with
      | O => hangM
      | S fuel =>
          if n <? THRESHOLD then simplesort a n i;; r_sort hist bins fuel stk
          else
            s ← getS;
            more ← (if nc s =? 0 then
                      modifyS (set_bmin 255);;
                      hist a i (Z.to_nat n);;
                      s ← getS;
                      mret (SIZE <? zlen stk + nc s)
                    else mret false);
            if more : bool then r_sort hist bins fuel [mkStack a n i];; r_sort hist bins fuel stk
            else stk ← bins a n i stk; r_sort hist bins fuel stk
      end
  end.

Definition r_sort_a (fuel : nat) (a n i : Z) : M radix unit := r_sort hist_a bins_a fuel [mkStack a n i].
Definition r_sort_b (fuel : nat) (a n i : Z) : M radix unit := r_sort hist_b bins_b fuel [mkStack a n i].
End Table.

(** Enough turns for the elements of the array. *)
Definition sort_fuel (l : list A) : nat := 3 + 2 * sum_list ((λ p, length (str p)) <$> l).

(** The value returned, and what [errno] is set to. *)
Definition radixsort (n : Z) (tab : option (list Z)) (endch : Z) : M radix (Z * option Z) :=
  r ← liftO (SETUP tab endch);
  match r with
  | inl e => mret (-1, Some e)
  | inr (tr, endch) =>
      s ← getS;
      r_sort_a tr endch (sort_fuel (arr s)) 0 n 0;;
      mret (0, None)
  end.

(** [mem] is what [malloc] answers: an array of [n] elements with what it happens to
    hold, or [NULL]. *)
Definition sradixsort (n : Z) (tab : option (list Z)) (endch : Z) (mem : option (list A)) : M radix (Z * option Z) :=
  r ← liftO (SETUP tab endch);
  match r with
  | inl e => mret (-1, Some e)
  | inr (tr, endch) =>
      if n <? THRESHOLD then simplesort tr endch 0 n 0;; mret (0, None)
      else
        match mem with
        | None => mret (-1, None)
        | Some m =>
            modifyS (set_ta m);;
            s ← getS;
            r_sort_b tr endch (sort_fuel (arr s)) 0 n 0;;
            mret (0, None)
        end
  end.
End Model.
