(* ===== verification/RadixKeys.v ===== *)
(** The order radix sorting promises: strings are compared by their translated bytes
    up to the end of the string; and the insertion sort for small parts. *)

From Stdlib Require Import Sorting.Sorted.
From S2P Require Import Prelude Errors Sort MergeRuns Radix.

(** * Keys *)

(** Lexicographic comparison. *)
Fixpoint lex (k l : list Z) : Z :=
  match k, l with
  | [], [] => 0
  | [], _ :: _ => -1
  | _ :: _, [] => 1
  | a :: k, b :: l => if a <? b then -1 else if b <? a then 1 else lex k l
  end.

Lemma lex_opp k l : lex k l = - lex l k.
Proof.
  revert l. induction k as [|a k IH]; intros [|b l]; cbn; try done.
  destruct (Z.ltb_spec a b), (Z.ltb_spec b a); try lia. apply IH.
Qed.

Lemma lex_trans k l m : lex k l ≤ 0 → lex l m ≤ 0 → lex k m ≤ 0.
Proof.
  revert l m. induction k as [|a k IH]; intros [|b l] [|c m]; cbn; try lia.
  destruct (Z.ltb_spec a b), (Z.ltb_spec b a), (Z.ltb_spec b c), (Z.ltb_spec c b), (Z.ltb_spec a c), (Z.ltb_spec c a); try lia. apply IH.
Qed.

Lemma lex_zero k l : lex k l = 0 → k = l.
Proof.
  revert l. induction k as [|a k IH]; intros [|b l]; cbn; try done.
  destruct (Z.ltb_spec a b), (Z.ltb_spec b a); try lia. intros. f_equal; [lia|auto].
Qed.

Lemma lex_refl k : lex k k = 0.
Proof. induction k as [|a k IH]; cbn; [done|]. by rewrite Z.ltb_irrefl. Qed.

(** What a common prefix does not decide. *)
Lemma lex_drop i k l : take i k = take i l → lex k l = lex (drop i k) (drop i l).
Proof.
  revert k l. induction i as [|i IH]; intros k l Hp; [by rewrite !drop_0|].
  destruct k as [|a k], l as [|b l]; try done. cbn in Hp. injection Hp as -> Hp. cbn. rewrite Z.ltb_irrefl. by apply IH.
Qed.

Lemma lex_lt i k l c d : take i k = take i l → k !! i = Some c → l !! i = Some d → c < d → lex k l < 0.
Proof.
  intros Hp Hk Hl Hcd. rewrite (lex_drop i) by done. rewrite (drop_S _ _ _ Hk), (drop_S _ _ _ Hl). cbn.
  by rewrite (proj2 (Z.ltb_lt c d)).
Qed.

(** Tables of 256 byte values, with an end value that comes before or after all others. *)
Definition table_ok (tr : list Z) (endch : Z) : Prop :=
  zlen tr = 256 ∧ Forall is_u8 tr ∧ (endch = 0 ∨ endch = 255).

#[global] Instance is_u8_dec x : Decision (is_u8 x).
Proof. unfold is_u8. apply _. Defined.

#[global] Instance table_ok_dec tr endch : Decision (table_ok tr endch).
Proof. unfold table_ok. apply _. Defined.

Section Keys.
Context (tr : list Z) (endch : Z).

(** The translated bytes up to the end, which is one of them. *)
Fixpoint key (s : list Z) : list Z :=
  match s with
  | [] => []
  | b :: s => let c := tr !!! Z.to_nat b in if decide (c = endch) then [c] else c :: key s
  end.

Definition string_ok (s : list Z) : Prop :=
  Forall is_u8 s ∧ Exists (λ b, tr !!! Z.to_nat b = endch) s ∧ zlen s < 2 ^ 31.

#[global] Instance string_ok_dec s : Decision (string_ok s).
Proof. unfold string_ok. apply _. Defined.

Context (Htr : table_ok tr endch).

Lemma get_tr b : is_u8 b → get tr b = Ok (tr !!! Z.to_nat b) ∧ is_u8 (tr !!! Z.to_nat b).
Proof.
  intros Hb. destruct Htr as (Hl & Hf & _). unfold is_u8 in Hb. unfold get. rewrite (proj2 (Z.ltb_ge b 0)) by lia.
  rewrite list_lookup_lookup_total_lt by lia. split; [done|]. eapply Forall_lookup_1; [exact Hf|apply list_lookup_lookup_total_lt; lia].
Qed.

Lemma key_length s : (length (key s) ≤ length s)%nat.
Proof. induction s as [|b s IH]; cbn; [done|]. case_decide; cbn; lia. Qed.

Lemma key_lookup s : ∀ i c, string_ok s → key s !! i = Some c → ∃ b, s !! i = Some b ∧ is_u8 b ∧ tr !!! Z.to_nat b = c.
Proof.
  induction s as [|b s IH]; intros i c (Hf & Hx & Hl) Hk; cbn in Hk; [done|]. apply Forall_cons in Hf as [Hb Hf].
  case_decide as He.
  - destruct i as [|i]; [|done]. injection Hk as <-. by exists b.
  - destruct i as [|i]; [injection Hk as <-; by exists b|]. apply IH; [|done]. split; [done|].
    split; [|cbn in Hl; lia]. apply Exists_cons in Hx as [|]; done.
Qed.

(** A key ends with its only end value. *)
Lemma key_end s i : key s !! i = Some endch → length (key s) = S i.
Proof.
  revert i. induction s as [|b s IH]; intros i; cbn; [done|]. case_decide as He.
  - destruct i; [done|]. done.
  - destruct i as [|i]; [intros [= E]; congruence|]. cbn. intros Hk. by rewrite (IH i).
Qed.

Lemma key_more s i c : string_ok s → key s !! i = Some c → c ≠ endch → (S i < length (key s))%nat.
Proof.
  revert i. induction s as [|b s IH]; intros i (Hf & Hx & Hl) Hk Hc; cbn in *; [done|]. apply Forall_cons in Hf as [Hb Hf].
  case_decide as He.
  - destruct i; [|done]. injection Hk as <-. done.
  - apply Exists_cons in Hx as [|Hx]; [done|]. assert (string_ok s) as Hs by (split; [done|split; [done|lia]]).
    destruct i as [|i]; cbn in *; [|apply IH in Hk; [lia|done|done]].
    destruct s as [|b' s]; [by apply Exists_nil in Hx|]. cbn. case_decide; cbn; lia.
Qed.

Lemma key_nonempty s : string_ok s → (0 < length (key s))%nat.
Proof. intros (_ & Hx & _). destruct s as [|b s]; [by apply Exists_nil in Hx|]. cbn. case_decide; cbn; lia. Qed.

(** The comparison of [simplesort]. *)
Lemma not_below_run s : ∀ t, string_ok s → string_ok t → not_below tr endch s t = Ok (0 <=? lex (key s) (key t)).
Proof.
  induction s as [|b s IH]; intros t (Hf & Hx & Hl) Ht; [by apply Exists_nil in Hx|].
  destruct t as [|b' t]; [by destruct Ht as (_ & Ht%Exists_nil & _)|]. apply Forall_cons in Hf as [Hb Hf].
  destruct Ht as (Hf' & Hx' & Hl'). apply Forall_cons in Hf' as [Hb' Hf'].
  cbn [not_below]. destruct (get_tr b Hb) as [-> Hc]. destruct (get_tr b' Hb') as [-> Hc']. cbn [mbind outcome_bind key].
  set (c := tr !!! Z.to_nat b) in *. set (c' := tr !!! Z.to_nat b') in *. apply Exists_cons in Hx, Hx'.
  destruct Htr as (_ & _ & He). unfold is_u8 in Hc, Hc'.
  destruct (Z.eqb_spec c endch) as [E|Hne]; cbn [orb].
  - rewrite decide_True by done. f_equal. case_decide as Hd; cbn; destruct (Z.ltb_spec c c'), (Z.ltb_spec c' c); try lia.
    all: destruct (Z.leb_spec c' c); try lia; done.
  - rewrite (decide_False (P := c = endch)) by done. destruct Hx as [|Hx]; [done|].
    destruct (Z.eqb_spec c c') as [E'|Hne']; cbn [negb].
    + rewrite <- E'. rewrite decide_False by done. cbn. rewrite Z.ltb_irrefl. apply IH; split; try done; cbn [length] in *; (split; [|lia]); [done|].
      destruct Hx' as [Hx'|]; [|done]. exfalso. apply Hne. rewrite E'. exact Hx'.
    + f_equal. case_decide; cbn; destruct (Z.ltb_spec c c'), (Z.ltb_spec c' c); try lia; destruct (Z.leb_spec c' c); done || lia.
Qed.

Lemma string_ok_drop s i : string_ok s → (i < length (key s))%nat → string_ok (drop i s) ∧ key (drop i s) = drop i (key s).
Proof.
  revert i. induction s as [|b s IH]; intros i Hs Hi; [cbn in Hi; lia|].
  destruct i as [|i]; [done|]. destruct Hs as (Hf & Hx & Hl). apply Forall_cons in Hf as [Hb Hf]. cbn [key] in *. cbn [drop].
  case_decide as He; cbn [length] in *; [lia|]. apply Exists_cons in Hx as [|Hx]; [done|]. cbn [drop].
  apply IH; [|lia]. split; [done|]. split; [done|]. lia.
Qed.
End Keys.

(** * Access to arrays *)

Lemma get_Ok {B} (l : list B) k x : 0 ≤ k → l !! Z.to_nat k = Some x → get l k = Ok x.
Proof. intros Hk Hx. unfold get. rewrite (proj2 (Z.ltb_ge k 0)) by lia. by rewrite Hx. Qed.

Lemma put_Ok {B} (l : list B) k x : 0 ≤ k < zlen l → put l k x = Ok (<[Z.to_nat k := x]> l).
Proof. intros Hk. unfold put. rewrite (proj2 (Z.ltb_ge k 0)), (proj2 (Z.leb_gt (zlen l) k)) by lia. done. Qed.

Section Access.
Context {A : Type}.
Implicit Types (s : @radix A) (x : A).

Lemma get_arr_run s k x : 0 ≤ k → arr s !! Z.to_nat k = Some x → get_arr k s = Ok (x, s).
Proof. intros Hk Hx. unfold get_arr. mrun. unfold liftO. by rewrite (get_Ok _ _ x). Qed.

Lemma put_arr_run s k x : 0 ≤ k < zlen (arr s) → put_arr k x s = Ok (tt, set_arr (<[Z.to_nat k := x]> (arr s)) s).
Proof. intros Hk. unfold put_arr. mrun. rewrite put_Ok by done. mrun. done. Qed.

Lemma get_arr_app s l1 l2 k x : arr s = l1 ++ x :: l2 → k = zlen l1 → get_arr k s = Ok (x, s).
Proof. intros Hs ->. apply get_arr_run; [lia|]. rewrite Hs, Nat2Z.id. by apply list_lookup_middle. Qed.

Lemma put_arr_app s l1 l2 k x y : arr s = l1 ++ x :: l2 → k = zlen l1 → put_arr k y s = Ok (tt, set_arr (l1 ++ y :: l2) s).
Proof.
  intros Hs ->. rewrite put_arr_run by (rewrite Hs, length_app; cbn; lia). rewrite Hs, Nat2Z.id.
  by rewrite insert_app_r_alt, Nat.sub_diag by lia.
Qed.
End Access.

(** * Parts of the array *)

Section Parts.
Context {A : Type} (str : A → list Z) (tr : list Z) (endch : Z) (Htr : table_ok tr endch).
Implicit Types (E F D : list A) (x y : A) (s : @radix A).

Definition skey x : list Z := key tr endch (str x).
Definition scmp x y : Z := lex (skey x) (skey y).

(** The value at index [i] of a string. *)
Definition chr (i : nat) x : Z := skey x !!! i.

Definition ready (i : nat) x : Prop := string_ok tr endch (str x) ∧ (i < length (skey x))%nat.

(** Strings that agree before index [i] and go on there. *)
Definition part_ok (i : nat) E : Prop :=
  Forall (ready i) E ∧ ∀ x y, x ∈ E → y ∈ E → take i (skey x) = take i (skey y).

(** [F] is [E] in order; with [stable], equal elements are in the order they had. *)
Definition resorted (stable : Prop) E F : Prop :=
  F ≡ₚ E ∧ sorted scmp F ∧ (stable → stably scmp E F).

Lemma scmp_ordered : cmp_ordered scmp.
Proof.
  constructor; unfold scmp.
  - intros x y. rewrite (lex_opp (skey x)). lia.
  - intros x y z. apply lex_trans.
Qed.

Lemma part_ok_perm i E F : F ≡ₚ E → part_ok i E → part_ok i F.
Proof. intros HP [H1 H2]. split; [by rewrite HP|]. intros x y. rewrite !HP. auto. Qed.

Lemma part_ok_app i E F : part_ok i (E ++ F) → part_ok i E ∧ part_ok i F.
Proof.
  intros [H1 H2]. apply Forall_app in H1 as [H1 H1'].
  split; (split; [done|]); intros x y Hx Hy; apply H2; set_solver.
Qed.

Lemma not_below_part i E x y :
  part_ok i E → x ∈ E → y ∈ E → not_below tr endch (drop i (str x)) (drop i (str y)) = Ok (0 <=? scmp x y).
Proof.
  intros [H1 H2] Hx Hy. rewrite Forall_forall in H1. destruct (H1 x Hx) as [Hsx Hix]. destruct (H1 y Hy) as [Hsy Hiy].
  destruct (string_ok_drop tr endch (str x) i Hsx Hix) as [Hdx Ekx]. destruct (string_ok_drop tr endch (str y) i Hsy Hiy) as [Hdy Eky].
  rewrite (not_below_run tr endch Htr) by done. unfold scmp, skey. rewrite Ekx, Eky. by rewrite <- lex_drop by (by apply H2).
Qed.

(** ** Insertion sort *)

Lemma simple_down_run i b x post : Z.to_nat b = i → ∀ D pre a post' s,
  part_ok i (D ++ x :: post) → arr s = pre ++ D ++ x :: post' → a = zlen pre →
  ∃ D1 D2, D = D1 ++ D2 ∧ simple_down str tr endch a b (length D) s = Ok (tt, set_arr (pre ++ D1 ++ x :: D2 ++ post') s) ∧
    Forall (λ d, scmp x d < 0) D2 ∧ (∀ d D0, D1 = D0 ++ [d] → 0 ≤ scmp x d).
Proof.
  intros Hb. induction D as [|d D IH] using rev_ind; intros pre a post' s Hp Hs Ha.
  { exists [], []. split; [done|]. cbn. split; [|split; [constructor|by intros ? []]]. rewrite app_nil_l in Hs. rewrite <- Hs. by destruct s. }
  rewrite length_app, Nat.add_1_r. cbn [simple_down]. rewrite <- app_assoc in Hs. cbn in Hs.
  rewrite (bind_Ok _ _ _ _ _ (get_arr_app s (pre ++ D ++ [d]) post' (a + Z.of_nat (S (length D))) x ltac:(rewrite Hs, <- !app_assoc; done) ltac:(rewrite !length_app; cbn [length]; lia))).
  rewrite (bind_Ok _ _ _ _ _ (get_arr_app s (pre ++ D) (x :: post') ((a + Z.of_nat (S (length D))) - 1) d ltac:(rewrite Hs, <- !app_assoc; done) ltac:(rewrite !length_app; cbn [length]; lia))).
  rewrite Hb. rewrite (not_below_part i _ x d Hp) by set_solver. mrun.
  destruct (Z.leb_spec 0 (scmp x d)) as [Hle|Hlt].
  { exists (D ++ [d]), []. split; [by rewrite app_nil_r|]. split; [rewrite <- app_assoc; cbn; rewrite <- Hs; by destruct s|].
    split; [constructor|]. intros d' D0 E. apply app_inj_tail in E as [_ ->]. done. }
  rewrite (bind_Ok _ _ _ _ _ (put_arr_app s (pre ++ D ++ [d]) post' (a + Z.of_nat (S (length D))) x d ltac:(rewrite Hs, <- !app_assoc; done) ltac:(rewrite !length_app; cbn [length]; lia))).
  set (s1 := set_arr _ s).
  rewrite (bind_Ok _ _ _ _ _ (put_arr_app s1 (pre ++ D) (d :: post') ((a + Z.of_nat (S (length D))) - 1) d x ltac:(cbn; rewrite <- !app_assoc; done) ltac:(rewrite !length_app; cbn [length]; lia))).
  set (s2 := set_arr _ s1).
  destruct (IH pre a (d :: post') s2) as (D1 & D2 & ED & E & HF & HD).
  { rewrite <- app_assoc in Hp. eapply part_ok_perm in Hp; [|apply (Permutation_middle D (x :: post) d)].
    by apply (part_ok_app i [d]) in Hp as [_ ?]. }
  { cbn. by rewrite <- app_assoc. }
  { done. }
  exists D1, (D2 ++ [d]). split; [by rewrite ED, app_assoc|]. split; [rewrite E; cbn; by rewrite <- !app_assoc|].
  split; [|done]. apply Forall_app. split; [done|by constructor].
Qed.

Lemma insert_resorted x D1 D2 :
  sorted scmp (D1 ++ D2) → Forall (λ d, scmp x d < 0) D2 → (∀ d D0, D1 = D0 ++ [d] → 0 ≤ scmp x d) →
  resorted True ((D1 ++ D2) ++ [x]) (D1 ++ x :: D2).
Proof.
  intros Hs HF HD. pose proof scmp_ordered as Ho. rewrite <- app_assoc. split; [by rewrite <- Permutation_cons_append|]. split.
  - apply (sorted_app _) in Hs as (H1 & H2 & H12). apply (sorted_app _). split; [done|].
    split; [constructor; [done|eapply Forall_impl; [done|]; cbn; lia]|].
    intros u v Hu [->|Hv]%elem_of_cons; [|by apply H12].
    induction D1 as [|d D0 _] using rev_ind; [by apply elem_of_nil in Hu|]. pose proof (HD d D0 eq_refl) as Hd. apply (cmp_le _ Ho) in Hd.
    apply elem_of_app in Hu as [Hu|Hu]; [|apply list_elem_of_singleton in Hu as ->; done]. apply (sorted_app _) in H1 as (_ & _ & H1).
    eapply (co_trans _ Ho); [by apply H1; [|left]|done].
  - intros _. apply stably_app; [done|]. apply (stably_swap _ Ho D2 [x]). intros d y Hd ->%list_elem_of_singleton. by eapply Forall_forall in HF.
Qed.

Lemma resorted_prefix (stable : Prop) D D' R F : D' ≡ₚ D → (stable → stably scmp D D') → resorted stable (D' ++ R) F → resorted stable (D ++ R) F.
Proof.
  intros HP Hs (H1 & H2 & H3). split; [by rewrite H1, HP|]. split; [done|]. intros Hst.
  eapply stably_trans; [by apply stably_app; [apply Hs|]|auto].
Qed.

Lemma simple_loop_run i b a : Z.to_nat b = i → ∀ R D pre post s,
  part_ok i (D ++ R) → sorted scmp D → arr s = pre ++ (D ++ R) ++ post → a = zlen pre →
  ∃ F, simple_loop str tr endch a b (length D) (length R) s = Ok (tt, set_arr (pre ++ F ++ post) s) ∧ resorted True (D ++ R) F.
Proof.
  intros Hb. induction R as [|x R IH]; intros D pre post s Hp HD Hs Ha; cbn [simple_loop length].
  { exists D. rewrite app_nil_r in *. rewrite <- Hs. split; [by destruct s|]. done. }
  rewrite <- app_assoc in Hs.
  destruct (simple_down_run i b x R Hb D pre a (R ++ post) s Hp Hs Ha) as (D1 & D2 & -> & E & HF & HDl). rewrite (bind_Ok _ _ _ _ _ E).
  destruct (insert_resorted x D1 D2 HD HF HDl) as (P1 & S1 & T1).
  destruct (IH (D1 ++ x :: D2) pre post (set_arr (pre ++ D1 ++ x :: D2 ++ R ++ post) s)) as (F & E' & HR).
  - eapply part_ok_perm; [|exact Hp]. by rewrite P1, <- !app_assoc.
  - done.
  - cbn. by rewrite <- !app_assoc.
  - done.
  - exists F. replace (S (length (D1 ++ D2))) with (length (D1 ++ x :: D2)) by (rewrite !length_app; cbn [length]; lia). split; [exact E'|].
    change (x :: R) with ([x] ++ R). rewrite app_assoc. by eapply resorted_prefix; [exact P1| |].
Qed.

(** The insertion sort sorts a part, stably, and leaves the rest of the array alone. *)
Lemma simplesort_run i b a n E pre post s :
  Z.to_nat b = i → part_ok i E → arr s = pre ++ E ++ post → a = zlen pre → n = zlen E →
  ∃ F, simplesort str tr endch a n b s = Ok (tt, set_arr (pre ++ F ++ post) s) ∧ resorted True E F.
Proof.
  intros Hb Hp Hs Ha Hn. unfold simplesort. destruct E as [|x R].
  { exists []. subst n. split; [cbn in *; rewrite <- Hs; by destruct s|]. split; [done|]. split; [constructor|done]. }
  destruct (simple_loop_run i b a Hb R [x] pre post s Hp) as (F & E & HF); [repeat constructor|exact Hs|exact Ha|].
  exists F. split; [|exact HF]. rewrite <- E. f_equal. cbn [length] in *. lia.
Qed.
End Parts.
