(* ===== verification/RadixBins.v ===== *)
(** One turn of radix sorting: the histogram of a part, the bins it is dealt into,
    and the parts pushed for them. *)

From S2P Require Import Prelude Errors Sort MergeRuns Radix RadixKeys.

Lemma filter_all_id {A} (P : A → Prop) `{∀ x, Decision (P x)} (l : list A) : (∀ x, x ∈ l → P x) → filter P l = l.
Proof.
  induction l as [|x l IH]; intros HP; [done|]. rewrite filter_cons_True by (apply HP; left).
  f_equal. apply IH. intros y Hy. apply HP. by right.
Qed.

Lemma filter_none_nil {A} (P : A → Prop) `{∀ x, Decision (P x)} (l : list A) : (∀ x, x ∈ l → ¬ P x) → filter P l = [].
Proof.
  induction l as [|x l IH]; intros HP; [done|]. rewrite filter_cons_False by (apply HP; left).
  apply IH. intros y Hy. apply HP. by right.
Qed.

(** * Elements by their value *)

Section Bins.
Context {A : Type} (ch : A → Z).
Implicit Types (E V : list A) (c d : Z).

(** The elements with value [c], their number and the number of smaller ones. *)
Definition bin c E : list A := filter (λ x, ch x = c) E.
Definition num c E : Z := zlen (bin c E).
Definition below c E : Z := zlen (filter (λ x, ch x < c) E).

Definition valued E : Prop := Forall (λ x, 0 ≤ ch x < 256) E.

Lemma num_perm c E V : V ≡ₚ E → num c V = num c E.
Proof. intros HP. unfold num, bin. by rewrite HP. Qed.

Lemma below_perm c E V : V ≡ₚ E → below c V = below c E.
Proof. intros HP. unfold below. by rewrite HP. Qed.

Lemma num_app c E V : num c (E ++ V) = num c E + num c V.
Proof. unfold num, bin. rewrite filter_app, length_app. lia. Qed.

Lemma num_cons c x E : num c (x :: E) = (if decide (ch x = c) then 1 else 0) + num c E.
Proof. unfold num, bin. rewrite filter_cons. case_decide; cbn [length]; lia. Qed.

Lemma below_cons c x E : below c (x :: E) = (if decide (ch x < c) then 1 else 0) + below c E.
Proof. unfold below. rewrite filter_cons. case_decide; cbn [length]; lia. Qed.

Lemma num_nonneg c E : 0 ≤ num c E.
Proof. unfold num. lia. Qed.

Lemma num_pos c E x : x ∈ E → ch x = c → 0 < num c E.
Proof.
  intros Hx Hc. assert (x ∈ bin c E) as Hb by by apply list_elem_of_filter.
  unfold num. destruct (bin c E); [by apply elem_of_nil in Hb|cbn; lia].
Qed.

Lemma below_succ c E : below (c + 1) E = below c E + num c E.
Proof.
  induction E as [|x E IH]; [done|]. rewrite !below_cons, num_cons, IH. repeat case_decide; lia.
Qed.

Lemma below_mono c d E : c ≤ d → below c E ≤ below d E.
Proof. intros Hcd. induction E as [|x E IH]; [done|]. rewrite !below_cons. repeat case_decide; lia. Qed.

Lemma below_lt c d E : c < d → below c E + num c E ≤ below d E.
Proof. intros. rewrite <- below_succ. apply below_mono. lia. Qed.

(** No values between [c] and [d]. *)
Lemma below_gap c d E : c ≤ d → (∀ x, x ∈ E → c ≤ ch x → d ≤ ch x) → below d E = below c E.
Proof.
  intros Hcd. induction E as [|x E IH]; intros Hx; [done|]. rewrite !below_cons, IH by (intros y Hy; apply Hx; by right).
  specialize (Hx x ltac:(left)). repeat case_decide; lia.
Qed.

Lemma below_0 E : valued E → below 0 E = 0.
Proof. induction 1 as [|x E Hx HE IH]; [done|]. rewrite below_cons, IH. case_decide; lia. Qed.

Lemma below_256 E : valued E → below 256 E = zlen E.
Proof. induction 1 as [|x E Hx HE IH]; [done|]. rewrite below_cons, IH. cbn [length]. case_decide; lia. Qed.

Lemma num_le c E : num c E ≤ zlen E.
Proof. unfold num, bin. pose proof (length_filter (λ x, ch x = c) E). lia. Qed.

Lemma num_outside c E : valued E → ¬ 0 ≤ c < 256 → num c E = 0.
Proof. induction 1 as [|x E Hx HE IH]; intros Hc; [done|]. rewrite num_cons, IH by done. case_decide; lia. Qed.

(** Two values: together at most the whole. *)
Lemma num_two c d E : c ≠ d → num c E + num d E ≤ zlen E.
Proof. intros Hcd. induction E as [|x E IH]; [done|]. rewrite !num_cons. cbn [length]. repeat case_decide; lia. Qed.

(** Every position belongs to a bin. *)
Lemma bin_of_position E p : valued E → 0 ≤ p < zlen E → ∃ c, 0 ≤ c < 256 ∧ below c E ≤ p < below c E + num c E.
Proof.
  intros Hv Hp. assert (∀ k : nat, (k ≤ 256)%nat → p < below (Z.of_nat k) E → ∃ c, 0 ≤ c < Z.of_nat k ∧ below c E ≤ p < below c E + num c E) as H.
  { induction k as [|k IH]; intros Hk Hlt; [change (Z.of_nat 0) with 0 in Hlt; rewrite below_0 in Hlt by done; lia|].
    destruct (decide (p < below (Z.of_nat k) E)) as [Hlt'|Hge]; [destruct IH as (c & Hc & Hb); [lia|done|]; exists c; split; [lia|done]|].
    exists (Z.of_nat k). split; [lia|]. rewrite <- below_succ. replace (Z.of_nat k + 1) with (Z.of_nat (S k)) by lia. lia. }
  destruct (H 256%nat) as (c & Hc & Hb); [lia|change (Z.of_nat 256) with 256; rewrite below_256 by done; lia|]. exists c. split; [lia|done].
Qed.

Lemma bins_disjoint E p c d : below c E ≤ p < below c E + num c E → below d E ≤ p < below d E + num d E → c = d.
Proof.
  intros Hc Hd. destruct (Z.lt_trichotomy c d) as [H|[H|H]]; [|done|]; pose proof (below_lt _ _ E H); lia.
Qed.

(** Every element is in its bin. *)
Definition binned E V : Prop :=
  ∀ (p : nat) x, V !! p = Some x → below (ch x) E ≤ Z.of_nat p < below (ch x) E + num (ch x) E.

(** When the places of a bin have the right elements, there are none elsewhere. *)
Lemma bin_full V c lo (p : nat) x :
  0 ≤ lo → lo + num c V ≤ zlen V →
  (∀ (q : nat) y, V !! q = Some y → lo ≤ Z.of_nat q < lo + num c V → ch y = c) →
  V !! p = Some x → ch x = c → lo ≤ Z.of_nat p < lo + num c V.
Proof.
  intros Hlo Hhi Hin Hp Hc. set (a := Z.to_nat lo). set (n := Z.to_nat (num c V)). pose proof (num_nonneg c V).
  assert (V = take a V ++ take n (drop a V) ++ drop (a + n) V) as EV by (rewrite <- (take_drop a V) at 1; f_equal; rewrite <- (take_drop n (drop a V)) at 1; by rewrite drop_drop).
  assert (num c (take n (drop a V)) = num c V) as Hm.
  { unfold num at 1, bin. rewrite filter_all_id; [rewrite length_take, length_drop; lia|].
    intros y Hy. apply list_elem_of_lookup in Hy as [q Hy]. apply lookup_take_Some in Hy as [Hy Hq]. rewrite lookup_drop in Hy. apply (Hin _ _ Hy). lia. }
  rewrite EV in Hm at 2. rewrite !num_app in Hm. pose proof (num_nonneg c (take a V)). pose proof (num_nonneg c (drop (a + n) V)).
  destruct (decide (lo ≤ Z.of_nat p)); [destruct (decide (Z.of_nat p < lo + num c V)); [lia|]|]; exfalso.
  - assert (0 < num c (drop (a + n) V)); [|lia]. apply (num_pos _ _ x); [|done]. apply (list_elem_of_lookup_2 _ (p - (a + n))). rewrite lookup_drop. by rewrite <- Hp; f_equal; lia.
  - assert (0 < num c (take a V)); [|lia]. apply (num_pos _ _ x); [|done]. apply (list_elem_of_lookup_2 _ p). rewrite lookup_take_lt by lia. done.
Qed.
End Bins.

(** * The counts *)

Section Counts.
Context {A : Type}.
Implicit Types (s : @radix A) (f : Z → Z).

Definition counts s f : Prop := zlen (count s) = 256 ∧ ∀ c, 0 ≤ c < 256 → count s !! Z.to_nat c = Some (f c).

(** The static variables between two turns. *)
Definition idle s : Prop := counts s (λ _, 0) ∧ nc s = 0.

Lemma counts_ext s f g : (∀ c, 0 ≤ c < 256 → f c = g c) → counts s f → counts s g.
Proof. intros Hfg [Hl Hc]. split; [done|]. intros c Hc'. rewrite <- Hfg by done. auto. Qed.

Lemma get_count_run s f c : counts s f → 0 ≤ c < 256 → get_count c s = Ok (f c, s).
Proof. intros [_ Hc] Hc'. unfold get_count. mrun. rewrite (get_Ok _ _ (f c)); [done|lia|by apply Hc]. Qed.

Lemma put_count_run s f c v :
  counts s f → 0 ≤ c < 256 → ∃ l, put_count c v s = Ok (tt, set_count l s) ∧ counts (set_count l s) (λ d, if decide (d = c) then v else f d).
Proof.
  intros [Hl Hc] Hc'. unfold put_count. mrun. rewrite put_Ok by lia. mrun. eexists. split; [done|]. split; cbn; [by rewrite length_insert|].
  intros d Hd. case_decide as E; [subst; apply list_lookup_insert_eq; lia|]. rewrite list_lookup_insert_ne by lia. auto.
Qed.
End Counts.

(** * The turn of a part *)

Section Turn.
Context {A : Type} (str : A → list Z) (tr : list Z) (endch : Z) (Htr : table_ok tr endch).
Context (i : Z) (Hi : 0 ≤ i).
Implicit Types (E V P : list A) (x : A) (s : @radix A) (c d : Z).
Abbreviation ch := (chr str tr endch (Z.to_nat i)).
Abbreviation ready := (ready str tr endch (Z.to_nat i)).

Lemma tr_at_run x : ready x → tr_at str tr x i = Ok (ch x) ∧ 0 ≤ ch x < 256.
Proof.
  intros [Hs Hl]. unfold tr_at, chr. destruct (key_lookup tr endch (str x) (Z.to_nat i) (skey str tr endch x !!! Z.to_nat i) Hs) as (b & Hb & Hu & E).
  { by apply list_lookup_lookup_total_lt. }
  rewrite (get_Ok _ _ b) by done. cbn [mbind outcome_bind]. rewrite <- E. by apply (get_tr tr endch Htr).
Qed.

Lemma ready_valued E : Forall ready E → valued ch E.
Proof. intros HE. eapply Forall_impl; [exact HE|]. intros x Hx. by apply tr_at_run. Qed.

(** The bins that are not empty, the one of ended strings apart. *)
Definition occupied E : list Z := filter (λ c, c ≠ endch ∧ 0 < num ch c E) (seqZ 0 256).

Lemma elem_of_occupied c E : c ∈ occupied E ↔ 0 ≤ c < 256 ∧ c ≠ endch ∧ 0 < num ch c E.
Proof. unfold occupied. rewrite list_elem_of_filter, elem_of_seqZ. split; intros; lia. Qed.

Lemma NoDup_occupied E : NoDup (occupied E).
Proof. apply NoDup_filter, NoDup_seqZ. Qed.

Lemma occupied_length E : zlen (occupied E) ≤ 256.
Proof. unfold occupied. pose proof (length_filter (λ c, c ≠ endch ∧ 0 < num ch c E) (seqZ 0 256)). rewrite length_seqZ in H. lia. Qed.

(** The static variables with the histogram of [P]. *)
Record hist_ok s P : Prop := {
  ho_counts : counts s (λ c, num ch c P);
  ho_nc : nc s = zlen (occupied P);
  ho_bmin : ∀ c, c ∈ occupied P → bmin s ≤ c;
  ho_range : (if decide (endch = 0) then 1 else 0) ≤ bmin s ≤ 255
}.

Lemma occupied_cons x P : ready x →
  occupied (x :: P) ≡ₚ if decide (num ch (ch x) P = 0 ∧ ch x ≠ endch) then ch x :: occupied P else occupied P.
Proof.
  intros Hx. destruct (tr_at_run x Hx) as [_ Hc]. apply NoDup_Permutation; [apply NoDup_occupied| |].
  - case_decide as Hd; [|apply NoDup_occupied]. constructor; [rewrite elem_of_occupied; lia|apply NoDup_occupied].
  - intros c. pose proof (num_nonneg ch c P). pose proof (num_nonneg ch (ch x) P).
    case_decide as Hd; rewrite ?elem_of_cons, !elem_of_occupied, num_cons; case_decide as Hc'.
    + rewrite Hc'. split; [by left|]. intros _. split; [lia|]. split; [rewrite <- Hc'; tauto|lia].
    + split; [right; lia|]. intros [->|]; [done|lia].
    + rewrite <- Hc'. split; [|lia]. intros. destruct (decide (num ch (ch x) P = 0)); [|lia]. tauto.
    + split; intros; lia.
Qed.

(** One more element in the histogram; [s'] has the same arrays. *)
Lemma tally_run s P x : hist_ok s P → ready x → zlen P < 2 ^ 31 - 1 →
  ∃ s', tally str tr endch x i s = Ok (tt, s') ∧ hist_ok s' (x :: P) ∧ arr s' = arr s ∧ ta s' = ta s.
Proof.
  intros [Hc Hn Hb Hr] Hx HP. destruct (tr_at_run x Hx) as [Ec Hcx]. unfold tally. rewrite Ec. mrun.
  rewrite (bind_Ok _ _ _ _ _ (get_count_run s _ _ Hc Hcx)). pose proof (num_le ch (ch x) P). pose proof (num_nonneg ch (ch x) P).
  rewrite s32_id by (unfold is_s32; lia).
  destruct (put_count_run s _ (ch x) (num ch (ch x) P + 1) Hc Hcx) as (l & E & Hc'). rewrite (bind_Ok _ _ _ _ _ E). mrun.
  apply (counts_ext _ _ (λ c, num ch c (x :: P))) in Hc'; [|intros c _; rewrite num_cons; repeat case_decide; try lia; subst; lia || congruence].
  pose proof (occupied_cons x P Hx) as Ho. pose proof (occupied_length P). cbn [nc set_count bmin].
  assert ((num ch (ch x) P + 1 =? 1) = bool_decide (num ch (ch x) P = 0)) as -> by (case_bool_decide; [apply Z.eqb_eq|apply Z.eqb_neq]; lia).
  assert ((ch x =? endch) = bool_decide (ch x = endch)) as -> by (case_bool_decide; [by apply Z.eqb_eq|by apply Z.eqb_neq]).
  rewrite <- bool_decide_not, <- bool_decide_and. case_decide as Hd; [rewrite bool_decide_true by done|rewrite bool_decide_false by done]; mrun.
  - eexists. split; [done|]. rewrite Hn, s32_id by (unfold is_s32; lia).
    assert (∀ u : @radix A, (if ch x <? bmin s then set_bmin (ch x) else id) u = set_bmin (if ch x <? bmin s then ch x else bmin u) u) as Eb
      by (intros u; destruct (ch x <? bmin s); [done|by destruct u]).
    rewrite Eb. split; [|done]. constructor; cbn; [done|rewrite Ho; cbn [length]; lia| |destruct (Z.ltb_spec (ch x) (bmin s)); case_decide; lia].
    intros c. rewrite Ho. intros [->|Hc0]%elem_of_cons; [destruct (Z.ltb_spec (ch x) (bmin s)); lia|]. specialize (Hb c Hc0). destruct (Z.ltb_spec (ch x) (bmin s)); lia.
  - eexists. split; [done|]. split; [|done]. constructor; cbn; [done|by rewrite Ho| |done]. intros c. rewrite Ho. auto.
Qed.

Lemma hist_ok_perm s E P : E ≡ₚ P → hist_ok s P → hist_ok s E.
Proof.
  intros HP [Hc Hn Hb Hr].
  assert (occupied E = occupied P) as Eo by (unfold occupied; apply list_filter_iff; intros c; by rewrite (num_perm ch c P E)).
  constructor; rewrite ?Eo; try done. eapply counts_ext; [|exact Hc]. intros c _. symmetry. by apply num_perm.
Qed.

Lemma hist_ok_nil s : idle s → hist_ok (set_bmin 255 s) [].
Proof.
  intros [Hc Hn]. assert (occupied [] = []) as E by (apply filter_none_nil; intros c _; unfold num; cbn; lia).
  constructor; cbn; rewrite ?E; [done|done| |case_decide; lia]. by intros c Hc'%elem_of_nil.
Qed.

Lemma hist_a_run E : ∀ ak P s,
  hist_ok s P → Forall ready E → zlen E + zlen P < 2 ^ 31 → 0 ≤ ak → (∀ (j : nat) x, E !! j = Some x → arr s !! (Z.to_nat ak + j)%nat = Some x) →
  ∃ s', hist_a str tr endch ak i (length E) s = Ok (tt, s') ∧ hist_ok s' (E ++ P) ∧ arr s' = arr s ∧ ta s' = ta s.
Proof.
  induction E as [|x E IH]; intros ak P s Hs HE HP Hak Harr; cbn [hist_a length]; [by exists s|]. apply Forall_cons in HE as [Hx HE]. cbn [length] in HP.
  assert (arr s !! Z.to_nat ak = Some x) as Hx0 by (rewrite <- (Harr 0%nat x eq_refl); f_equal; lia).
  rewrite (bind_Ok _ _ _ _ _ (get_arr_run s ak x Hak Hx0)).
  destruct (tally_run s P x Hs Hx) as (s1 & E1 & H1 & Ha1 & Ht1); [lia|]. rewrite (bind_Ok _ _ _ _ _ E1).
  destruct (IH (ak + 1) (x :: P) s1) as (s2 & E2 & H2 & Ha2 & Ht2); [done|done|cbn [length]; lia|lia| |].
  { intros j y Hj. rewrite Ha1. rewrite <- (Harr (S j) y Hj). f_equal. lia. }
  exists s2. split; [done|]. split; [|by rewrite Ha2, Ht2]. eapply hist_ok_perm; [|exact H2]. cbn. apply Permutation_middle.
Qed.

Lemma hist_b_run E : ∀ a P s,
  hist_ok s P → Forall ready E → zlen E + zlen P < 2 ^ 31 → 0 ≤ a → (∀ (j : nat) x, E !! j = Some x → arr s !! (Z.to_nat a + j)%nat = Some x) →
  ∃ s', hist_b str tr endch a i (length E) s = Ok (tt, s') ∧ hist_ok s' (E ++ P) ∧ arr s' = arr s ∧ ta s' = ta s.
Proof.
  induction E as [|x E IH] using rev_ind; intros a P s Hs HE HP Ha Harr; [by exists s|]. apply Forall_app in HE as [HE Hx]. apply Forall_cons in Hx as [Hx _].
  rewrite length_app in *. rewrite Nat.add_1_r. cbn [hist_b length] in *.
  assert (arr s !! Z.to_nat (a + Z.of_nat (length E)) = Some x) as Hx0.
  { rewrite <- (Harr (length E) x); [f_equal; lia|]. by apply list_lookup_middle. }
  rewrite (bind_Ok _ _ _ _ _ (get_arr_run s (a + Z.of_nat (length E)) x ltac:(lia) Hx0)).
  destruct (tally_run s P x Hs Hx) as (s1 & E1 & H1 & Ha1 & Ht1); [lia|]. rewrite (bind_Ok _ _ _ _ _ E1).
  destruct (IH a (x :: P) s1) as (s2 & E2 & H2 & Ha2 & Ht2); [done|done|cbn [length]; lia|lia| |].
  { intros j y Hj. rewrite Ha1. apply Harr. apply lookup_app_l_Some. done. }
  exists s2. split; [done|]. split; [|by rewrite Ha2, Ht2]. by rewrite <- app_assoc.
Qed.
End Turn.

(** * The loop over the piles: where the bins of a part end, and the parts that are pushed
    for them. *)

Section Piles.
Context {A : Type} (str : A → list Z) (tr : list Z) (endch : Z) (Htr : table_ok tr endch).
Context (i : Z) (Hi : 0 ≤ i < 2 ^ 31 - 1) (a : Z) (E : list A) (HE : Forall (ready str tr endch (Z.to_nat i)) E).
Implicit Types (V P : list A) (x : A) (s : @radix A) (c d : Z) (stk : list stack) (top : gmap Z Z).
Abbreviation ch := (chr str tr endch (Z.to_nat i)).
Abbreviation num c := (num ch c E).
Abbreviation below c := (below ch c E).
Abbreviation occupied := (occupied str tr endch i E).

(** The occupied bins from [cp] on, and the parts of those with two elements or more. *)
Definition occ_from cp : list Z := filter (λ c, c ≠ endch ∧ 0 < num c) (seqZ cp (256 - cp)).
Definition entry c : stack := mkStack (a + below c) (num c) (i + 1).
Definition entries cp : list stack := entry <$> filter (λ c, 1 < num c) (occ_from cp).

Lemma occ_from_cons cp : 0 ≤ cp < 256 →
  occ_from cp = if decide (cp ≠ endch ∧ 0 < num cp) then cp :: occ_from (cp + 1) else occ_from (cp + 1).
Proof.
  intros Hcp. unfold occ_from. rewrite seqZ_cons by lia. rewrite filter_cons.
  replace (Z.pred (256 - cp)) with (256 - (cp + 1)) by lia. replace (Z.succ cp) with (cp + 1) by lia. done.
Qed.

Lemma elem_of_occ_from c cp : 0 ≤ cp → c ∈ occ_from cp ↔ cp ≤ c < 256 ∧ c ≠ endch ∧ 0 < num c.
Proof. intros Hcp. unfold occ_from. rewrite list_elem_of_filter, elem_of_seqZ. split; intros; lia. Qed.

Lemma occ_from_0 : occ_from 0 = occupied.
Proof. done. Qed.

(** Nothing is left out before the first occupied bin. *)
Lemma occ_from_bmin b : 0 ≤ b ≤ 255 → (∀ c, c ∈ occupied → b ≤ c) → occ_from b = occupied.
Proof.
  intros Hb Hall. unfold occ_from, RadixBins.occupied. replace (256) with (b + (256 - b)) at 2 by lia. rewrite (seqZ_app 0 b) by lia. rewrite filter_app.
  rewrite (filter_none_nil _ (seqZ 0 b)); [done|]. intros c Hc%elem_of_seqZ Ho. assert (b ≤ c); [|lia]. apply Hall.
  apply elem_of_occupied. lia.
Qed.

Lemma entries_cons cp : 0 ≤ cp < 256 →
  entries cp = if decide (cp ≠ endch ∧ 1 < num cp) then entry cp :: entries (cp + 1) else entries (cp + 1).
Proof.
  intros Hcp. unfold entries. rewrite occ_from_cons by done. repeat case_decide; rewrite ?filter_cons; repeat case_decide; cbn; try done; exfalso; lia.
Qed.

(** The position of the biggest pile is one of those pushed since [n0] entries were
    on the stack, or the first of them. *)
Definition pushed_at (n0 : Z) (stk : list stack) (sp1 : Z) : Prop := n0 ≤ sp1 ∧ (sp1 = n0 ∨ sp1 < zlen stk).

Lemma piles_done (reset : bool) n0 cp s f sp1 top stk :
  counts s f → nc s = zlen (occ_from cp) → occ_from cp = [] → pushed_at n0 stk sp1 →
  ∃ s' top' sp1', (mret (top, stk, sp1) : M radix _) s = Ok ((top', reverse (entries cp) ++ stk, sp1'), s') ∧
    arr s' = arr s ∧ ta s' = ta s ∧ nc s' = 0 ∧
    counts s' (λ c, if decide (reset = true ∧ c ∈ occ_from cp) then 0 else f c) ∧
    (∀ c, top' !! c = if decide (c ∈ occ_from cp) then Some (a + below c + num c) else top !! c) ∧
    pushed_at n0 (reverse (entries cp) ++ stk) sp1'.
Proof.
  intros Hc Hn E0 Hsp. assert (entries cp = []) as E1 by (unfold entries; by rewrite E0). rewrite E0, E1 in *. exists s, top, sp1. split; [done|].
  split; [done|]. split; [done|]. split; [done|]. split; [|split; [|done]].
  - eapply counts_ext; [|exact Hc]. intros c _. rewrite decide_False; [done|]. by intros [_ ?%elem_of_nil].
  - intros c. rewrite decide_False; [done|]. by intros ?%elem_of_nil.
Qed.

Lemma piles_stop reset fuel cp ak bigc sp1 top stk s :
  nc s ≤ 0 → piles reset fuel cp ak i bigc sp1 top stk s = (mret (top, stk, sp1) : M radix _) s.
Proof. intros Hn. destruct fuel; cbn [piles]; mrun; by rewrite (proj2 (Z.leb_le (nc s) 0)). Qed.

Lemma piles_run reset n0 : ∀ fuel cp s f bigc sp1 top stk,
  counts s f → (∀ c, cp ≤ c < 256 → c ≠ endch → f c = num c) → nc s = zlen (occ_from cp) →
  0 ≤ cp ≤ 256 → (endch = 0 → 1 ≤ cp) → 256 - cp ≤ Z.of_nat fuel →
  zlen stk + zlen (occ_from cp) ≤ SIZE → n0 ≤ zlen stk → pushed_at n0 stk sp1 →
  ∃ s' top' sp1', piles reset fuel cp (a + below cp) i bigc sp1 top stk s = Ok ((top', reverse (entries cp) ++ stk, sp1'), s') ∧
    arr s' = arr s ∧ ta s' = ta s ∧ nc s' = 0 ∧
    counts s' (λ c, if decide (reset = true ∧ c ∈ occ_from cp) then 0 else f c) ∧
    (∀ c, top' !! c = if decide (c ∈ occ_from cp) then Some (a + below c + num c) else top !! c) ∧
    pushed_at n0 (reverse (entries cp) ++ stk) sp1'.
Proof.
  induction fuel as [|fuel IH]; intros cp s f bigc sp1 top stk Hc Hf Hn Hcp Hend Hfuel Hsz Hn0 Hsp; cbn [piles]; mrun.
  - assert (occ_from cp = []) as E0 by (assert (cp = 256) as -> by lia; done). rewrite (proj2 (Z.leb_le (nc s) 0)) by (rewrite Hn, E0; done). by apply piles_done.
  - destruct (Z.leb_spec (nc s) 0) as [Hle|Hgt].
    { apply piles_done; try done. destruct (occ_from cp); [done|cbn [length] in Hn; lia]. }
    assert (cp < 256) as Hcp'. { destruct (decide (cp = 256)) as [->|]; [|lia]. change (occ_from 256) with (@nil Z) in Hn. cbn in Hn. lia. }
    assert (cp ≠ endch) as Hne.
    { intros ->. destruct Htr as (_ & _ & [Ht|Ht]); [lia|]. rewrite Ht in Hn. rewrite occ_from_cons, decide_False in Hn by lia. change (occ_from (255 + 1)) with (@nil Z) in Hn. cbn in Hn. lia. }
    rewrite (bind_Ok _ _ _ _ _ (get_count_run s f cp Hc ltac:(lia))). rewrite (Hf cp) by lia. pose proof (num_nonneg ch cp E).
    pose proof (occ_from_cons cp ltac:(lia)) as Eo. pose proof (entries_cons cp ltac:(lia)) as Ee.
    destruct (Z.eqb_spec (num cp) 0) as [H0|H0].
    { rewrite decide_False in Eo by lia. rewrite decide_False in Ee by lia. rewrite Eo, Ee in *.
      replace (below cp) with (below (cp + 1)) by (rewrite below_succ; lia). apply IH; try done; try lia. intros c Hc' Hc''. apply Hf; [lia|done]. }
    rewrite decide_True in Eo by lia. rewrite Eo in *. cbn [length] in *.
    set (big := if (1 <? num cp) && (bigc <? num cp) then (num cp, zlen stk) else (bigc, sp1)). destruct big as [bigc' sp1'] eqn:Ebig.
    set (stk' := if 1 <? num cp then entry cp :: stk else stk).
    assert ((if 1 <? num cp then push stk (mkStack (a + below cp) (num cp) (s32 (i + 1))) else Ok stk) = Ok stk') as ->.
    { unfold stk', push. destruct (1 <? num cp); [|done]. rewrite (proj2 (Z.leb_gt SIZE (zlen stk))) by lia. rewrite s32_id by (unfold is_s32; lia). done. }
    mrun. assert (pushed_at n0 stk' sp1') as Hsp'.
    { unfold pushed_at, stk' in *. destruct (Z.ltb_spec 1 (num cp)); cbn [andb] in Ebig; [destruct (bigc <? num cp)|]; injection Ebig as <- <-; cbn [length]; lia. }
    assert (∃ s1, (if reset then put_count cp 0 else mret tt) s = Ok (tt, s1) ∧ arr s1 = arr s ∧ ta s1 = ta s ∧
      counts s1 (λ c, if decide (reset = true ∧ c = cp) then 0 else f c)) as (s1 & Es1 & Ha1 & Ht1 & Hc1).
    { destruct reset.
      - destruct (put_count_run s f cp 0 Hc ltac:(lia)) as (l & -> & Hl). exists (set_count l s). split; [done|]. split; [done|]. split; [done|].
        eapply counts_ext; [|exact Hl]. intros c _. cbn. apply decide_ext. split; [by intros ->|by intros [_ ->]].
      - exists s. split; [done|]. split; [done|]. split; [done|]. eapply counts_ext; [|exact Hc]. intros c _. by rewrite decide_False by (by intros [? _]). }
    rewrite (bind_Ok _ _ _ _ _ Es1). mrun. replace (a + below cp + num cp) with (a + below (cp + 1)) by (rewrite below_succ; lia).
    destruct (IH (cp + 1) (set_nc (nc s - 1) s1) (λ c, if decide (reset = true ∧ c = cp) then 0 else f c) bigc' sp1' (<[cp := a + below (cp + 1)]> top) stk')
      as (s' & top' & sp1'' & E1 & Ha & Ht & Hn' & Hc' & Htop & Hsp''); cbn; try done; try lia.
    { intros c Hc' Hc''. rewrite decide_False by lia. apply Hf; [lia|done]. }
    { unfold stk'. destruct (1 <? num cp); cbn [length]; lia. }
    { unfold stk'. destruct (1 <? num cp); cbn [length]; lia. }
    assert (reverse (entries (cp + 1)) ++ stk' = reverse (entries cp) ++ stk) as Estk.
    { rewrite Ee. unfold stk'. destruct (Z.ltb_spec 1 (num cp)); [rewrite decide_True by lia; by rewrite reverse_cons, <- app_assoc|by rewrite decide_False by lia]. }
    rewrite Estk in *. exists s', top', sp1''. split; [exact E1|]. split; [by rewrite Ha|]. split; [by rewrite Ht|]. split; [done|]. split; [|split; [|done]].
    + eapply counts_ext; [|exact Hc']. intros c Hc''. cbn. destruct (decide (reset = true ∧ c ∈ occ_from (cp + 1))) as [Hr|Hr].
      { rewrite decide_True; [done|]. split; [apply Hr|right; apply Hr]. }
      apply decide_ext. rewrite elem_of_cons. clear -Hr. tauto.
    + intros c. rewrite Htop. destruct (decide (c = cp)) as [->|Hcc].
      * rewrite decide_False by (rewrite elem_of_occ_from by lia; lia). rewrite decide_True by left. rewrite lookup_insert_eq, below_succ. f_equal. lia.
      * rewrite lookup_insert_ne by done. apply decide_ext. rewrite elem_of_cons. clear -Hcc. tauto.
Qed.

(** The loop from the first occupied bin on; ended strings come first or last. *)
Lemma piles_start reset s f top stk ak :
  counts s f → (∀ c, 0 ≤ c < 256 → c ≠ endch → f c = num c) → nc s = zlen occupied →
  (∀ c, c ∈ occupied → bmin s ≤ c) → (if decide (endch = 0) then 1 else 0) ≤ bmin s ≤ 255 →
  zlen stk + nc s ≤ SIZE → ak = a + (if decide (endch = 0) then num 0 else 0) →
  ∃ s' top' sp1', piles reset 256 (bmin s) ak i 2 (zlen stk) top stk s = Ok ((top', reverse (entries 0) ++ stk, sp1'), s') ∧
    arr s' = arr s ∧ ta s' = ta s ∧ nc s' = 0 ∧
    counts s' (λ c, if decide (reset = true ∧ c ∈ occupied) then 0 else f c) ∧
    (∀ c, top' !! c = if decide (c ∈ occupied) then Some (a + below c + num c) else top !! c) ∧
    pushed_at (zlen stk) (reverse (entries 0) ++ stk) sp1'.
Proof.
  intros Hc Hf Hn Hb Hr Hsz ->. rewrite <- occ_from_0. assert (pushed_at (zlen stk) stk (zlen stk)) as Hsp by (split; [done|by left]).
  assert (0 ≤ bmin s ≤ 255) as Hr' by (case_decide; lia).
  destruct (decide (occupied = [])) as [E0|Hne].
  { rewrite piles_stop by (rewrite Hn, E0; done). by apply piles_done. }
  assert (occ_from 0 = occ_from (bmin s)) as Eo by (symmetry; by apply occ_from_bmin).
  assert (entries 0 = entries (bmin s)) as Ee by (unfold entries; by rewrite Eo). rewrite Ee, Eo.
  replace (if decide (endch = 0) then num 0 else 0) with (below (bmin s)).
  - apply piles_run; try done; try lia; rewrite <- ?Eo, ?occ_from_0; try done; [intros c Hc'; apply Hf; lia|intros ->; rewrite decide_True in Hr by done; lia|lia].
  - pose proof (ready_valued str tr endch Htr i (proj1 Hi) E HE) as Hv.
    assert (∀ x, x ∈ E → ch x ≠ endch → bmin s ≤ ch x) as Hx.
    { intros x Hx Hx'. apply Hb. apply elem_of_occupied. unfold valued in Hv. rewrite Forall_forall in Hv. split; [by apply Hv|]. split; [done|]. by apply (num_pos ch _ E x). }
    case_decide as He.
    + assert (below (bmin s) = below (0 + 1)) as -> by (apply below_gap; [lia|]; intros x Hx' Hx''; apply Hx; [done|lia]).
      rewrite below_succ, below_0 by done. lia.
    + assert (below (bmin s) = below 0) as ->; [|by apply below_0]. apply below_gap; [lia|]. intros x Hx' _.
      destruct (decide (ch x = endch)) as [Ex|]; [|by apply Hx]. destruct Htr as (_ & _ & [?|Ht]); [done|]. lia.
Qed.
End Piles.

(** The swap only concerns the parts just pushed. *)
Lemma swap_entries_run stk new sp1 :
  pushed_at (zlen stk) (new ++ stk) sp1 → ∃ new', swap_entries (zlen stk) sp1 (new ++ stk) = new' ++ stk ∧ new' ≡ₚ new.
Proof.
  intros [H1 H2]. unfold swap_entries, stack_index. destruct new as [|e new].
  { cbn in *. assert (sp1 = zlen stk) as -> by lia. exists []. split; [|done]. cbn. replace (Z.to_nat (zlen stk - 1 - zlen stk)) with 0%nat by lia.
    destruct (stk !! 0%nat) as [e|] eqn:Ee; [|done]. by rewrite list_insert_insert_eq, list_insert_id. }
  set (l := e :: new) in *. assert (0 < zlen l) by (cbn; lia). rewrite length_app in *.
  set (j0 := Z.to_nat _). set (j1 := Z.to_nat _). assert (j0 < length l)%nat as Hj0 by lia. assert (j1 < length l)%nat as Hj1 by lia.
  rewrite !lookup_app_l by done. destruct (lookup_lt_is_Some_2 l j0 Hj0) as [e0 E0]. destruct (lookup_lt_is_Some_2 l j1 Hj1) as [e1 E1]. rewrite E0, E1.
  exists (<[j0 := e1]> (<[j1 := e0]> l)). split; [|by apply Permutation_insert_swap]. by rewrite !insert_app_l by (rewrite ?length_insert; lia).
Qed.
