(* ===== verification/RadixDeal.v ===== *)
(** Dealing a part into its bins: by way of the second array, keeping the order of
    equal values ([r_sort_b]), and in place ([r_sort_a]). *)

From S2P Require Import Prelude Errors Sort MergeRuns Radix RadixKeys RadixBins.

(** * Bins one after the other *)

Section Join.
Context {A : Type} (ch : A → Z).
Implicit Types (E V : list A) (c : Z).
Abbreviation bin := (bin ch).
Abbreviation num := (num ch).
Abbreviation below := (below ch).

Lemma join_bins_perm E cs : NoDup cs → mjoin ((λ c, bin c E) <$> cs) ≡ₚ filter (λ x, ch x ∈ cs) E.
Proof.
  induction 1 as [|c cs Hc Hcs IH]; cbn.
  { rewrite filter_none_nil; [done|]. by intros x _ ?%elem_of_nil. }
  rewrite IH. rewrite <- (filter_app_complement (λ x, ch x = c) (filter (λ x, ch x ∈ c :: cs) E)). rewrite !list_filter_filter.
  apply reflexive_eq. f_equal; apply list_filter_iff; intros x; rewrite elem_of_cons; naive_solver.
Qed.

(** An array whose bins have the elements of [E] in their order. *)
Definition dealt E V : Prop :=
  length V = length E ∧ ∀ c (j : nat), 0 ≤ c < 256 → Z.of_nat j < num c E → V !! (Z.to_nat (below c E) + j)%nat = bin c E !! j.

Lemma below_nonneg c E : 0 ≤ below c E.
Proof. unfold RadixBins.below. lia. Qed.

Lemma dealt_slice E V c : valued ch E → dealt E V → 0 ≤ c < 256 → take (length (bin c E)) (drop (Z.to_nat (below c E)) V) = bin c E.
Proof.
  intros Hv [Hl Hd] Hc. apply list_eq. intros j. destruct (decide (j < length (bin c E))%nat) as [Hj|Hj].
  - rewrite lookup_take_lt, lookup_drop by done. apply Hd; [done|]. unfold RadixBins.num. lia.
  - rewrite lookup_take_ge by lia. symmetry. apply lookup_ge_None. lia.
Qed.

Lemma dealt_perm E V : valued ch E → dealt E V → V ≡ₚ E.
Proof.
  intros Hv Hd. assert (∀ k : nat, (k ≤ 256)%nat → take (Z.to_nat (below (Z.of_nat k) E)) V = mjoin ((λ c, bin c E) <$> seqZ 0 (Z.of_nat k))) as H.
  { induction k as [|k IH]; intros Hk.
    - change (Z.of_nat 0) with 0. by rewrite below_0.
    - rewrite seqZ_S, fmap_app, join_app, <- IH by lia. replace (Z.of_nat (S k)) with (Z.of_nat k + 1) by lia. rewrite below_succ.
      pose proof (below_nonneg (Z.of_nat k) E). pose proof (num_nonneg ch (Z.of_nat k) E). rewrite Z2Nat.inj_add by lia.
      rewrite <- take_take_drop. f_equal. cbn. rewrite app_nil_r. etransitivity; [|apply (dealt_slice E V (Z.of_nat k)); [done|done|lia]].
      f_equal. unfold RadixBins.num. lia. }
  specialize (H 256%nat). change (Z.of_nat 256) with 256 in H. rewrite below_256, take_ge in H by (done || rewrite (proj1 Hd); lia).
  rewrite H by lia. rewrite join_bins_perm by apply NoDup_seqZ. rewrite filter_all_id; [done|]. intros x Hx. apply elem_of_seqZ.
  eapply Forall_forall in Hv; [|exact Hx]. cbn in Hv. lia.
Qed.

Lemma dealt_binned E V : valued ch E → dealt E V → binned ch E V.
Proof.
  intros Hv [Hl Hd] p x Hp. assert (p < length V)%nat as Hlt by (apply lookup_lt_is_Some; eauto).
  destruct (bin_of_position ch E (Z.of_nat p) Hv) as (c & Hc & Hb); [lia|]. pose proof (below_nonneg c E).
  assert (V !! p = bin c E !! Z.to_nat (Z.of_nat p - below c E)) as Ep by (rewrite <- Hd by lia; f_equal; lia).
  rewrite Hp in Ep. symmetry in Ep. apply list_elem_of_lookup_2, list_elem_of_filter in Ep as [-> _]. done.
Qed.

(** The elements of a value, read off an array in which every element is in its bin. *)
Lemma binned_slice E V c : length V = length E → binned ch E V → 0 ≤ c < 256 → valued ch E →
  bin c V = take (Z.to_nat (num c E)) (drop (Z.to_nat (below c E)) V).
Proof.
  intros Hl Hb Hc Hv. set (k := Z.to_nat (below c E)). set (n := Z.to_nat (num c E)).
  pose proof (below_nonneg c E). pose proof (num_nonneg ch c E).
  assert (below c E + num c E ≤ zlen E) as Hle by (rewrite <- below_succ, <- (below_256 ch E Hv); apply below_mono; lia).
  assert (V = take k V ++ take n (drop k V) ++ drop (k + n) V) as EV by (rewrite <- (take_drop k V) at 1; f_equal; rewrite <- (take_drop n (drop k V)) at 1; by rewrite drop_drop).
  unfold RadixBins.bin. rewrite EV at 1. rewrite !filter_app. rewrite (filter_none_nil _ (take k V)), (filter_none_nil _ (drop (k + n) V)), app_nil_r; cbn.
  - apply filter_all_id. intros x Hx. apply list_elem_of_lookup in Hx as [j Hj]. apply lookup_take_Some in Hj as [Hj Hn]. rewrite lookup_drop in Hj.
    apply (bins_disjoint ch E (Z.of_nat (k + j))); [by apply Hb|lia].
  - intros x Hx Ec. apply list_elem_of_lookup in Hx as [j Hj]. rewrite lookup_drop in Hj. apply Hb in Hj. rewrite Ec in Hj. lia.
  - intros x Hx Ec. apply list_elem_of_lookup in Hx as [j Hj]. apply lookup_take_Some in Hj as [Hj Hn]. apply Hb in Hj. rewrite Ec in Hj. lia.
Qed.

Lemma dealt_stable E V c : valued ch E → dealt E V → bin c V = bin c E.
Proof.
  intros Hv Hd. destruct (decide (0 ≤ c < 256)) as [Hc|Hc].
  - rewrite (binned_slice E V c) by (apply Hd || by apply dealt_binned || done). etransitivity; [|by apply (dealt_slice E V c)]. f_equal. unfold RadixBins.num. lia.
  - assert (∀ E, valued ch E → bin c E = []) as H.
    { intros E' Hv'. apply filter_none_nil. intros x Hx Ex. eapply Forall_forall in Hv'; [|exact Hx]. cbn in Hv'. lia. }
    rewrite !H; [done|done|]. unfold valued. by rewrite (dealt_perm E V).
Qed.
End Join.

(** * Access inside a part *)

Section Part.
Context {A : Type}.
Implicit Types (s : @radix A) (x : A) (pre V post : list A).

Lemma get_arr_part s pre V post (q : nat) x k :
  arr s = pre ++ V ++ post → V !! q = Some x → k = zlen pre + Z.of_nat q → get_arr k s = Ok (x, s).
Proof.
  intros Hs Hq ->. apply get_arr_run; [lia|]. rewrite Hs, lookup_app_r by lia.
  replace (Z.to_nat (zlen pre + Z.of_nat q) - length pre)%nat with q by lia. by apply lookup_app_l_Some.
Qed.

Lemma put_arr_part s pre V post (q : nat) x k :
  arr s = pre ++ V ++ post → (q < length V)%nat → k = zlen pre + Z.of_nat q →
  put_arr k x s = Ok (tt, set_arr (pre ++ <[q := x]> V ++ post) s).
Proof.
  intros Hs Hq ->. rewrite put_arr_run by (rewrite Hs, !length_app; lia). rewrite Hs.
  rewrite insert_app_r_alt by lia. replace (Z.to_nat (zlen pre + Z.of_nat q) - length pre)%nat with q by lia. by rewrite insert_app_l.
Qed.

Lemma put_ta_run s k x : 0 ≤ k < zlen (ta s) → put_ta k x s = Ok (tt, set_ta (<[Z.to_nat k := x]> (ta s)) s).
Proof. intros Hk. unfold put_ta. mrun. rewrite put_Ok by done. mrun. done. Qed.

Lemma get_ta_run s k x : 0 ≤ k → ta s !! Z.to_nat k = Some x → get_ta k s = Ok (x, s).
Proof. intros Hk Hx. unfold get_ta. mrun. unfold liftO. by rewrite (get_Ok _ _ x). Qed.

(** The copy in the second array. *)
Lemma copy_ta_part E pre post a : a = zlen pre → ∀ (m : nat) s,
  arr s = pre ++ E ++ post → (m ≤ length E)%nat → zlen E ≤ zlen (ta s) →
  ∃ l, copy_ta a m s = Ok (tt, set_ta l s) ∧ length l = length (ta s) ∧
    ∀ j, l !! j = if decide (j < m)%nat then E !! j else ta s !! j.
Proof.
  intros Ha. induction m as [|m IH]; intros s Hs Hm Ht; cbn [copy_ta].
  { exists (ta s). split; [by destruct s|]. split; [done|]. intros j. by rewrite decide_False by lia. }
  destruct (lookup_lt_is_Some_2 E m) as [x Hx]; [lia|].
  rewrite (bind_Ok _ _ _ _ _ (get_arr_part s pre E post m x (a + Z.of_nat m) Hs Hx ltac:(lia))).
  rewrite (bind_Ok _ _ _ _ _ (put_ta_run s (Z.of_nat m) x ltac:(lia))).
  destruct (IH (set_ta (<[Z.to_nat (Z.of_nat m) := x]> (ta s)) s)) as (l & E1 & Hl & Hj); cbn; [done|lia|rewrite length_insert; lia|].
  cbn in Hl, Hj. exists l. split; [exact E1|]. split; [by rewrite Hl, length_insert|]. intros j. rewrite Hj, Nat2Z.id. repeat case_decide; try lia; [done| |].
  - replace j with m by lia. rewrite list_lookup_insert_eq by lia. done.
  - by rewrite list_lookup_insert_ne by lia.
Qed.
End Part.

(** * The stable turn *)

Section Stable.
Context {A : Type} (str : A → list Z) (tr : list Z) (endch : Z) (Htr : table_ok tr endch).
Context (i : Z) (Hi : 0 ≤ i < 2 ^ 31 - 1) (E : list A) (HE : Forall (ready str tr endch (Z.to_nat i)) E).
Implicit Types (V P : list A) (x : A) (s : @radix A) (c d : Z) (top : gmap Z Z).
Abbreviation ch := (chr str tr endch (Z.to_nat i)).

(** The last elements of [E], from the [m]-th on, are in their bins; [top] says where
    the next one of each value goes. *)
Definition dealt_from (m : nat) V top (a : Z) : Prop :=
  length V = length E ∧
  (∀ c, 0 < num ch c E → top !! c = Some (a + below ch c E + num ch c (take m E))) ∧
  ∀ c (j : nat), 0 ≤ c < 256 → Z.of_nat j < num ch c (drop m E) →
    V !! (Z.to_nat (below ch c E + num ch c (take m E)) + j)%nat = bin ch c (drop m E) !! j.

Lemma num_split m c : num ch c E = num ch c (take m E) + num ch c (drop m E).
Proof. by rewrite <- num_app, take_drop. Qed.

Lemma deal_step m V top a x : E !! m = Some x → (m < length E)%nat →
  dealt_from (S m) V top a →
  dealt_from m (<[Z.to_nat (below ch (ch x) E + num ch (ch x) (take m E)) := x]> V)
    (<[ch x := a + below ch (ch x) E + num ch (ch x) (take m E)]> top) a.
Proof.
  intros Hx Hm (Hl & Htop & HV). pose proof (ready_valued str tr endch Htr i (proj1 Hi) E HE) as Hv.
  assert (0 ≤ ch x < 256) as Hcx by (eapply Forall_lookup_1 in Hv; [|exact Hx]; done).
  set (q := Z.to_nat _). assert (take (S m) E = take m E ++ [x]) as Et by by apply take_S_r.
  assert (drop m E = x :: drop (S m) E) as Ed by by apply drop_S.
  assert (∀ c, num ch c (take (S m) E) = num ch c (take m E) + if decide (ch x = c) then 1 else 0) as Hnum.
  { intros c. rewrite Et, num_app, num_cons. unfold num, bin. cbn. lia. }
  pose proof (num_split (S m) (ch x)) as Hsp. pose proof (num_nonneg ch (ch x) (take m E)). pose proof (num_nonneg ch (ch x) (drop (S m) E)).
  pose proof (below_nonneg ch (ch x) E). pose proof (Hnum (ch x)) as Hnx. rewrite decide_True in Hnx by done.
  assert (below ch (ch x) E + num ch (ch x) E ≤ zlen E) as Hle by (rewrite <- below_succ, <- (below_256 ch E Hv); apply below_mono; lia).
  split; [by rewrite length_insert|]. split.
  - intros c Hc. destruct (decide (c = ch x)) as [->|Hne]; [by rewrite lookup_insert_eq|]. rewrite lookup_insert_ne by done.
    rewrite Htop by done. rewrite Hnum, decide_False by done. do 2 f_equal. lia.
  - intros c j Hc Hj. rewrite Ed in *. rewrite num_cons in Hj. unfold bin. rewrite filter_cons. pose proof (below_nonneg ch c E). pose proof (num_nonneg ch c (take m E)).
    destruct (decide (ch x = c)) as [<-|Hne].
    + destruct j as [|j]; [rewrite Nat.add_0_r; rewrite list_lookup_insert_eq by (subst q; lia); done|].
      rewrite list_lookup_insert_ne by (subst q; lia). cbn. etransitivity; [|apply (HV (ch x) j); lia]. f_equal. lia.
    + rewrite list_lookup_insert_ne.
      * etransitivity; [|apply (HV c j); lia]. rewrite Hnum, decide_False by done. f_equal. lia.
      * intros Eq. apply Hne. pose proof (num_split (S m) c) as Hsc. rewrite Hnum, decide_False in Hsc by done.
        apply (bins_disjoint ch E (Z.of_nat q)); subst q; lia.
Qed.

Lemma deal_run pre post a : a = zlen pre → ∀ (m : nat) s V top,
  arr s = pre ++ V ++ post → (m ≤ length E)%nat → (∀ j, (j < m)%nat → ta s !! j = E !! j) → dealt_from m V top a →
  ∃ V', deal str tr i m top s = Ok (tt, set_arr (pre ++ V' ++ post) s) ∧ dealt ch E V'.
Proof.
  intros Ha. pose proof (ready_valued str tr endch Htr i (proj1 Hi) E HE) as Hv.
  induction m as [|m IH]; intros s V top Hs Hm Ht HV; cbn [deal].
  { exists V. rewrite <- Hs. split; [by destruct s|]. destruct HV as (Hl & _ & HV). split; [done|]. intros c j Hc Hj.
    rewrite drop_0 in HV. rewrite <- HV by done. cbn [take]. f_equal. unfold num at 1, bin. cbn. by rewrite Z.add_0_r. }
  destruct (lookup_lt_is_Some_2 E m) as [x Hx]; [lia|].
  assert (ready str tr endch (Z.to_nat i) x) as Hrx by (eapply Forall_lookup_1 in HE; done).
  destruct (tr_at_run str tr endch Htr i (proj1 Hi) x Hrx) as [Ec Hc].
  rewrite (bind_Ok _ _ _ _ _ (get_ta_run s (Z.of_nat m) x ltac:(lia) ltac:(rewrite Nat2Z.id, Ht by lia; done))). rewrite Ec. mrun.
  assert (0 < num ch (ch x) E) as Hpos by (apply (num_pos ch _ E x); [by eapply list_elem_of_lookup_2|done]).
  pose proof (deal_step m V top a x Hx ltac:(lia) HV) as HV'. destruct HV as (Hl & Htop & _).
  assert (num ch (ch x) (take (S m) E) = num ch (ch x) (take m E) + 1) as Hn.
  { rewrite (take_S_r _ _ x) by done. rewrite num_app, num_cons, decide_True by done. unfold num at 2, bin. cbn. lia. }
  unfold get_top. rewrite (Htop _ Hpos), Hn. mrun. pose proof (num_split (S m) (ch x)) as Hsp. pose proof (num_nonneg ch (ch x) (drop (S m) E)).
  pose proof (below_nonneg ch (ch x) E). pose proof (num_nonneg ch (ch x) (take m E)).
  assert (below ch (ch x) E + num ch (ch x) E ≤ zlen E) as Hle by (rewrite <- below_succ, <- (below_256 ch E Hv); apply below_mono; lia).
  set (q := Z.to_nat (below ch (ch x) E + num ch (ch x) (take m E))) in *.
  replace (a + below ch (ch x) E + (num ch (ch x) (take m E) + 1) - 1) with (a + below ch (ch x) E + num ch (ch x) (take m E)) by lia.
  rewrite (bind_Ok _ _ _ _ _ (put_arr_part s pre V post q x (a + below ch (ch x) E + num ch (ch x) (take m E)) Hs ltac:(lia) ltac:(subst q; lia))).
  destruct (IH (set_arr (pre ++ <[q:=x]> V ++ post) s) (<[q := x]> V) (<[ch x := a + below ch (ch x) E + num ch (ch x) (take m E)]> top)) as (V' & E1 & HV1); [done|lia| |done|].
  - intros j Hj. apply Ht. lia.
  - exists V'. split; [exact E1|done].
Qed.

(** What a turn has to do: the elements in their bins, a part on the stack for each of
    those to sort further, the static variables at rest. *)
Definition turn_ok (stable : Prop) (pre post : list A) (s : @radix A) (stk : list stack) (r : outcome (list stack * @radix A)) : Prop :=
  ∃ V new s', r = Ok (new ++ stk, s') ∧ idle s' ∧ arr s' = pre ++ V ++ post ∧ length (ta s') = length (ta s) ∧
    new ≡ₚ entries str tr endch i (zlen pre) E 0 ∧ V ≡ₚ E ∧ binned ch E V ∧ (stable → ∀ c, bin ch c V = bin ch c E).

(** Where the bins end, before the first element is dealt. *)
Definition tops_ok (a : Z) top : Prop := ∀ c, 0 < num ch c E → top !! c = Some (a + below ch c E + num ch c E).

Definition start_top (a : Z) : gmap Z Z := if endch =? 0 then <[0 := a + num ch 0 E]> ∅ else <[255 := a + zlen E]> ∅.

Lemma start_pair a :
  (if endch =? 0 then (a + num ch 0 E, <[0 := a + num ch 0 E]> (∅ : gmap Z Z)) else (a, <[255 := a + zlen E]> ∅))
  = (a + (if decide (endch = 0) then num ch 0 E else 0), start_top a).
Proof using Type. clear. unfold start_top. destruct (Z.eqb_spec endch 0); [by rewrite decide_True|]. rewrite decide_False by done. by rewrite Z.add_0_r. Qed.

Lemma start_tops a top' :
  (∀ c, top' !! c = if decide (c ∈ occupied str tr endch i E) then Some (a + below ch c E + num ch c E) else start_top a !! c) → tops_ok a top'.
Proof.
  intros Ht c Hc. rewrite Ht. unfold start_top. case_decide as Ho; [done|]. pose proof (ready_valued str tr endch Htr i (proj1 Hi) E HE) as Hv.
  assert (0 ≤ c < 256) as Hr. { destruct (decide (0 ≤ c < 256)); [done|]. rewrite (num_outside ch c E Hv) in Hc by done. lia. }
  assert (c = endch) as -> by (destruct (decide (c = endch)); [done|]; destruct Ho; by apply elem_of_occupied).
  pose proof (below_0 ch E Hv) as H0. pose proof (below_succ ch 255 E) as H1. change (255 + 1) with 256 in H1. rewrite (below_256 ch E Hv) in H1.
  destruct Htr as (_ & _ & [He|He]); rewrite He in *; cbn; rewrite lookup_insert_eq; f_equal; lia.
Qed.

Lemma end_index : (if endch =? 0 then 0 else 255) = endch.
Proof. destruct Htr as (_ & _ & [-> | ->]); done. Qed.

Lemma unoccupied c : 0 ≤ c < 256 → c ≠ endch → c ∉ occupied str tr endch i E → num ch c E = 0.
Proof. intros Hc Hne Ho. pose proof (num_nonneg ch c E). destruct (decide (num ch c E = 0)); [done|]. destruct Ho. apply elem_of_occupied. lia. Qed.

Lemma bins_b_run s pre post stk :
  hist_ok str tr endch i s E → arr s = pre ++ E ++ post → zlen stk + nc s ≤ SIZE → zlen E ≤ zlen (ta s) →
  turn_ok True pre post s stk (bins_b str tr endch (zlen pre) (zlen E) i stk s).
Proof.
  intros [Hc Hn Hb Hr] Hs Hsz Hta. unfold bins_b. mrun. rewrite (bind_Ok _ _ _ _ _ (get_count_run s _ 0 Hc ltac:(lia))).
  rewrite start_pair. set (top := start_top (zlen pre)).
  rewrite end_index. assert (0 ≤ endch < 256) as He by (destruct Htr as (_ & _ & [-> | ->]); lia).
  destruct (put_count_run s _ endch 0 Hc He) as (l & E1 & Hc1). rewrite (bind_Ok _ _ _ _ _ E1).
  destruct (piles_start str tr endch Htr i Hi (zlen pre) E HE true (set_count l s) _ top stk (zlen pre + (if decide (endch = 0) then num ch 0 E else 0)) Hc1) as (s2 & top2 & sp1 & E2 & Ha2 & Ht2 & Hn2 & Hc2 & Htop & Hsp); try done.
  { intros c Hc' Hne. by rewrite decide_False. }
  cbn [bmin set_count] in E2. rewrite (bind_Ok _ _ _ _ _ E2). rewrite Nat2Z.id.
  destruct (copy_ta_part E pre post (zlen pre) eq_refl (length E) s2) as (l3 & E3 & Hl3 & Hj3); [by rewrite Ha2|done|by rewrite Ht2|].
  rewrite (bind_Ok _ _ _ _ _ E3).
  destruct (deal_run pre post (zlen pre) eq_refl (length E) (set_ta l3 s2) E top2) as (V & E4 & HV); [by cbn; rewrite Ha2|done| | |].
  { intros j Hj. cbn. by rewrite Hj3, decide_True. }
  { split; [done|]. split; [intros c Hc'; rewrite take_ge by done; by apply start_tops|]. intros c j _. rewrite drop_ge by done. unfold num, bin. cbn. lia. }
  rewrite (bind_Ok _ _ _ _ _ E4). mrun. destruct (swap_entries_run stk _ sp1 Hsp) as (new & -> & Hnew).
  pose proof (ready_valued str tr endch Htr i (proj1 Hi) E HE) as Hv. eexists V, new, _. split; [done|]. split; [|split; [done|split; [by cbn; rewrite Hl3, Ht2|]]].
  - split; [|done]. eapply counts_ext; [|exact Hc2]. intros c Hc'. cbn. destruct (decide (true = true ∧ _)) as [|Ho]; [done|]. destruct (decide (c = endch)); [done|]. apply unoccupied; tauto.
  - split; [by rewrite Hnew, reverse_Permutation|]. split; [by apply (dealt_perm ch)|]. split; [by apply dealt_binned|]. intros _ c. by apply dealt_stable.
Qed.
End Stable.

(** * The turn in place of [r_sort_a]: misplaced elements are brought home one after the
    other. *)

Section Permute.
Context {A : Type} (str : A → list Z) (tr : list Z) (endch : Z) (Htr : table_ok tr endch).
Context (i : Z) (Hi : 0 ≤ i < 2 ^ 31 - 1) (E : list A) (HE : Forall (ready str tr endch (Z.to_nat i)) E) (a : Z).
Implicit Types (V W P : list A) (x r : A) (s : @radix A) (c d : Z) (top : gmap Z Z).
Abbreviation ch := (chr str tr endch (Z.to_nat i)).
Abbreviation num c := (num ch c E).
Abbreviation below c := (below ch c E).

(** From position [t] on, the bin of [c] has its elements. *)
Definition home_from V c (t : Z) : Prop :=
  ∀ (q : nat) x, V !! q = Some x → t ≤ Z.of_nat q < below c + num c → ch x = c.

(** The bins before [j0] are done, the others begin at [j0] or later and are filled
    from [top] on. *)
Definition done_bin V c (j0 : Z) : Prop := below c + num c ≤ j0 ∧ home_from V c (below c).

Definition open_bin V c top (j0 : Z) : Prop :=
  j0 ≤ below c ∧ ∃ t, top !! c = Some (a + t) ∧ below c ≤ t ≤ below c + num c ∧ home_from V c t.

Definition permuting V top (j0 : Z) : Prop :=
  V ≡ₚ E ∧ ∀ c, 0 < num c → done_bin V c j0 ∨ open_bin V c top j0.

Lemma bin_end c : below c + num c ≤ zlen E.
Proof.
  pose proof (ready_valued str tr endch Htr i (proj1 Hi) E HE) as Hv. destruct (decide (c < 256)).
  - rewrite <- below_succ, <- (below_256 ch E Hv). apply below_mono. lia.
  - rewrite num_outside by (done || lia). rewrite Z.add_0_r. unfold RadixBins.below. pose proof (length_filter (λ x, ch x < c) E). lia.
Qed.

(** An element whose bin is home is in it. *)
Lemma home_position V c (p : nat) x :
  V ≡ₚ E → home_from V c (below c) → V !! p = Some x → ch x = c → below c ≤ Z.of_nat p < below c + num c.
Proof.
  intros HP Hh Hp Hc. rewrite <- (num_perm ch c E V HP). apply (bin_full ch V c (below c) p x); [apply below_nonneg| | |done|done].
  - rewrite (num_perm ch c E V HP), HP. apply bin_end.
  - intros q y Hq Hr. rewrite (num_perm ch c E V HP) in Hr. by apply (Hh q).
Qed.

(** The bin of the element at [j0] is open, and not full unless it begins there. *)
Lemma bin_of_hand V top (j0 : nat) r :
  permuting V top (Z.of_nat j0) → V !! j0 = Some r → 0 < num (ch r) ∧ Z.of_nat j0 ≤ below (ch r) ∧
  ∃ t, top !! ch r = Some (a + t) ∧ below (ch r) ≤ t ≤ below (ch r) + num (ch r) ∧ home_from V (ch r) t ∧
    (t = below (ch r) → Z.of_nat j0 = below (ch r)).
Proof.
  intros [HP Hall] Hr. assert (0 < num (ch r)) as Hpos by (apply (num_pos ch _ E r); [rewrite <- HP; by eapply list_elem_of_lookup_2|done]).
  split; [done|]. destruct (Hall (ch r) Hpos) as [[Hend Hh]|[Hj (t & Ht & Hb & Hh)]].
  - pose proof (home_position V (ch r) j0 r HP Hh Hr eq_refl). lia.
  - split; [done|]. exists t. split; [done|]. split; [done|]. split; [done|]. intros ->.
    pose proof (home_position V (ch r) j0 r HP Hh Hr eq_refl). lia.
Qed.

(** One element brought home: [r], in hand at [j0], changes places with the one at
    the top of its bin. *)
Lemma permuting_step V top (j0 k : nat) r x :
  permuting V top (Z.of_nat j0) → V !! j0 = Some r → V !! k = Some x → top !! ch r = Some (a + Z.of_nat k + 1) → (j0 < k)%nat →
  permuting (<[j0 := x]> (<[k := r]> V)) (<[ch r := a + Z.of_nat k]> top) (Z.of_nat j0).
Proof.
  intros HV Hr Hx Ht Hjk. destruct (bin_of_hand V top j0 r HV Hr) as (Hpos & Hj & t & Ht' & Hb & Hh & Hfull).
  rewrite Ht in Ht'. assert (t = Z.of_nat k + 1) as -> by (injection Ht'; lia). destruct HV as [HP Hall].
  assert (below (ch r) ≤ Z.of_nat k) as Hk by (destruct (decide (Z.of_nat k + 1 = below (ch r))); [lia|lia]).
  split; [rewrite Permutation_insert_swap; done|]. intros d Hd.
  assert (∀ (q : nat) y, (<[j0:=x]> (<[k:=r]> V)) !! q = Some y → q ≠ j0 → q ≠ k → V !! q = Some y) as Hsame
    by (intros q y Hq H1 H2; by rewrite !list_lookup_insert_ne in Hq by done).
  destruct (decide (d = ch r)) as [->|Hne].
  { right. split; [done|]. exists (Z.of_nat k). split; [by rewrite lookup_insert_eq|]. split; [lia|]. intros q y Hq Hqr.
    destruct (decide (q = k)) as [->|Hqk]; [|apply (Hh q); [apply Hsame; [done|lia|done]|lia]].
    rewrite list_lookup_insert_ne, list_lookup_insert_eq in Hq by (lia || (eapply lookup_lt_Some; exact Hx)). by injection Hq as <-. }
  destruct (Hall d Hd) as [[Hend Hhd]|[Hjd (t & Htd & Hbd & Hhd)]].
  - left. split; [done|]. intros q y Hq Hqr. apply (Hhd q); [apply Hsame; [done|lia|lia]|done].
  - right. split; [done|]. exists t. rewrite lookup_insert_ne by done. split; [done|]. split; [done|]. intros q y Hq Hqr. apply (Hhd q); [|done].
    apply Hsame; [done| |].
    + intros ->. apply Hne. symmetry. by apply (Hhd j0).
    + intros ->. apply Hne. apply (bins_disjoint ch E (Z.of_nat k)); lia.
Qed.

(** ** How long it takes *)

(** The elements of a bin that are not yet home, by [top]. *)
Definition away_from top c : nat :=
  match top !! c with Some p => Z.to_nat (Z.min (p - a - below c) (num c)) | None => 0%nat end.

Definition away top (cs : list Z) : nat := sum_list_with (away_from top) cs.

Lemma away_outside top c p cs : c ∉ cs → away (<[c := p]> top) cs = away top cs.
Proof.
  unfold away. induction cs as [|d cs IH]; intros Hc; [done|]. apply not_elem_of_cons in Hc as [Hd Hc]. cbn. rewrite IH by done.
  f_equal. unfold away_from. by rewrite lookup_insert_ne.
Qed.

Lemma away_insert top (cs : list Z) c p :
  NoDup cs → c ∈ cs → top !! c = Some (a + p + 1) → below c ≤ p < below c + num c → (away (<[c := (a + p)%Z]> top) cs < away top cs)%nat.
Proof.
  intros Hnd Hc Ht Hp. apply list_elem_of_split in Hc as (l1 & l2 & ->). apply NoDup_app in Hnd as (_ & H1 & H2). apply NoDup_cons in H2 as [H2 _].
  assert (c ∉ l1) as H0 by (intros Hc; apply (H1 c Hc); left). pose proof (away_outside top c (a + p) l1 H0) as E1. pose proof (away_outside top c (a + p) l2 H2) as E2.
  unfold away in *. rewrite !sum_list_with_app. cbn [sum_list_with]. rewrite E1, E2. unfold away_from. rewrite lookup_insert_eq, Ht. lia.
Qed.

Lemma away_from_le top c : Z.of_nat (away_from top c) ≤ num c.
Proof. pose proof (num_nonneg ch c E). unfold away_from. destruct (top !! c); lia. Qed.

Lemma away_bound top : (away top (seqZ 0 256) ≤ length E)%nat.
Proof.
  pose proof (ready_valued str tr endch Htr i (proj1 Hi) E HE) as Hv.
  assert (∀ k : nat, (k ≤ 256)%nat → Z.of_nat (away top (seqZ 0 (Z.of_nat k))) ≤ below (Z.of_nat k)) as H.
  { induction k as [|k IH]; intros Hk; [unfold away; cbn; apply below_nonneg|]. rewrite seqZ_S. unfold away in *. rewrite sum_list_with_app. cbn [sum_list_with].
    replace (Z.of_nat (S k)) with (Z.of_nat k + 1) by lia. rewrite below_succ. specialize (IH ltac:(lia)). pose proof (num_nonneg ch (Z.of_nat k) E).
    pose proof (away_from_le top (0 + Z.of_nat k)) as Hle. rewrite Z.add_0_l in *. lia. }
  specialize (H 256%nat). change (Z.of_nat 256) with 256 in H. rewrite below_256 in H by done. lia.
Qed.
(** ** The loops *)

Context (pre post : list A) (Ha : a = zlen pre).

(** The inner loop is done: the bin at [j0] is home with [r] there. *)
Record settled W r top (j0 : nat) : Prop := {
  se_perm : <[j0 := r]> W ≡ₚ E;
  se_length : length W = length E;
  se_pos : 0 < num (ch r);
  se_here : below (ch r) = Z.of_nat j0;
  se_home : home_from (<[j0 := r]> W) (ch r) (Z.of_nat j0);
  se_rest : ∀ d, d ≠ ch r → 0 < num d → done_bin (<[j0 := r]> W) d (Z.of_nat j0) ∨ open_bin (<[j0 := r]> W) d top (Z.of_nat j0)
}.

Lemma home_settled W r top (j0 : nat) t :
  (j0 < length W)%nat → permuting (<[j0 := r]> W) top (Z.of_nat j0) → top !! ch r = Some (a + t) → t - 1 ≤ Z.of_nat j0 →
  settled W r (<[ch r := (a + t - 1)]> top) j0.
Proof.
  intros Hj HV Ht Hle. assert (<[j0 := r]> W !! j0 = Some r) as Hr by by apply list_lookup_insert_eq.
  destruct (bin_of_hand _ top j0 r HV Hr) as (Hpos & Hjb & t' & Ht' & Hb & Hh & Hfull). rewrite Ht in Ht'. assert (t' = t) as -> by (injection Ht'; lia).
  destruct HV as [HP Hall]. assert (below (ch r) = Z.of_nat j0) as Hb0 by (destruct (decide (t = below (ch r))); [lia|lia]).
  constructor; try done.
  - by rewrite <- (Permutation_length HP), length_insert.
  - intros q y Hq Hqr. destruct (decide (q = j0)) as [->|]; [rewrite Hr in Hq; by injection Hq as <-|]. apply (Hh q); [done|]. lia.
  - intros d Hd Hnum. destruct (Hall d Hnum) as [?|[Hjd (t0 & Ht0 & Hbd & Hhd)]]; [by left|right]. split; [done|]. exists t0. by rewrite lookup_insert_ne.
Qed.

Lemma home_run (j0 : nat) : ∀ fuel s W r top,
  arr s = pre ++ W ++ post → (j0 < length W)%nat → permuting (<[j0 := r]> W) top (Z.of_nat j0) → (away top (seqZ 0 256) < fuel)%nat →
  ∃ W' r' top', home str tr fuel i (a + Z.of_nat j0) r top s = Ok ((r', ch r', top'), set_arr (pre ++ W' ++ post) s) ∧ settled W' r' top' j0.
Proof.
  pose proof (ready_valued str tr endch Htr i (proj1 Hi) E HE) as Hv.
  induction fuel as [|fuel IH]; intros s W r top Hs Hj HV Hf; [lia|]. cbn [home].
  assert (<[j0 := r]> W !! j0 = Some r) as Hr by by apply list_lookup_insert_eq. pose proof HV as [HP _].
  assert (r ∈ E) as HrE by (rewrite <- HP; by eapply list_elem_of_lookup_2). assert (ready str tr endch (Z.to_nat i) r) as Hrr by (rewrite Forall_forall in HE; by apply HE).
  destruct (tr_at_run str tr endch Htr i (proj1 Hi) r Hrr) as [Ec Hc]. rewrite Ec. mrun.
  destruct (bin_of_hand _ top j0 r HV Hr) as (Hpos & Hjb & t & Ht & Hb & Hh & Hfull). unfold get_top. rewrite Ht. mrun.
  destruct (Z.ltb_spec (a + Z.of_nat j0) (a + t - 1)) as [Hlt|Hge].
  - set (k := Z.to_nat (t - 1)). assert (length W = length E) as HlW by (by rewrite <- (Permutation_length HP), length_insert).
    pose proof (bin_end (ch r)) as Hend. destruct (lookup_lt_is_Some_2 W k) as [x Hx]; [lia|].
    rewrite (bind_Ok _ _ _ _ _ (get_arr_part s pre W post k x (a + t - 1) Hs Hx ltac:(lia))).
    rewrite (bind_Ok _ _ _ _ _ (put_arr_part s pre W post k r (a + t - 1) Hs ltac:(lia) ltac:(lia))).
    assert (top !! ch r = Some (a + Z.of_nat k + 1)) as Ht1 by (rewrite Ht; f_equal; lia).
    replace (a + t - 1) with (a + Z.of_nat k) by lia.
    destruct (IH (set_arr (pre ++ <[k := r]> W ++ post) s) (<[k := r]> W) x (<[ch r := a + Z.of_nat k]> top)) as (W' & r' & top' & E1 & HS).
    + done.
    + by rewrite length_insert.
    + pose proof (permuting_step _ top j0 k r x HV Hr ltac:(rewrite list_lookup_insert_ne by lia; done) Ht1 ltac:(lia)) as Hst.
      rewrite (list_insert_insert_ne _ k j0), list_insert_insert_eq in Hst by lia. done.
    + enough (away (<[ch r:=(a + Z.of_nat k)%Z]> top) (seqZ 0 256) < away top (seqZ 0 256))%nat by lia.
      apply away_insert; [apply NoDup_seqZ|apply elem_of_seqZ; lia|done|]. destruct (decide (t = below (ch r))); lia.
    + exists W', r', top'. split; [exact E1|done].
  - exists W, r, (<[ch r := a + t - 1]> top). split; [rewrite <- Hs; by destruct s|]. apply home_settled; [done|done|done|lia].
Qed.

(** After a bin, the next one. *)
Lemma settled_permuting W r top (j0 : nat) : settled W r top j0 → permuting (<[j0 := r]> W) top (Z.of_nat j0 + num (ch r)).
Proof.
  intros [HP HlW Hpos Hb Hh Hrest]. split; [done|]. intros d Hd. destruct (decide (d = ch r)) as [->|Hne].
  { left. rewrite <- Hb in *. split; [lia|done]. }
  destruct (Hrest d Hne Hd) as [[Hend Hhd]|[Hjd Ht]]; [left; split; [lia|done]|right]. split; [|done].
  destruct (decide (Z.of_nat j0 + num (ch r) ≤ below d)); [done|]. exfalso. apply Hne. apply (bins_disjoint ch E (below d)); lia.
Qed.

(** The counts that are not yet reset. *)
Definition left_counts (j0 : Z) c : Z := if decide (below c + num c ≤ j0) then 0 else num c.

Lemma left_counts_next W r top (j0 : nat) c :
  settled W r top j0 → (if decide (c = ch r) then 0 else left_counts (Z.of_nat j0) c) = left_counts (Z.of_nat j0 + num (ch r)) c.
Proof.
  intros HS. pose proof (settled_permuting _ _ _ _ HS) as [_ Hall]. destruct HS as [HP HlW Hpos Hb Hh Hrest]. pose proof (num_nonneg ch c E). unfold left_counts.
  destruct (decide (c = ch r)) as [->|Hne]; [by rewrite decide_True by lia|]. destruct (decide (num c = 0)) as [->|Hn0]; [by repeat case_decide|].
  destruct (Hrest c Hne ltac:(lia)) as [[Hend _]|[Hjd _]]; [by rewrite !decide_True by lia|].
  destruct (Hall c ltac:(lia)) as [[Hend Hhd]|[Hjd' _]]; [|by rewrite !decide_False by lia].
  rewrite (decide_False (P := below c + num c ≤ Z.of_nat j0)) by lia. rewrite decide_True by done. exfalso.
  apply Hne. apply (bins_disjoint ch E (below c)); lia.
Qed.

Lemma permute_run : ∀ fuel s V top (j0 : nat),
  arr s = pre ++ V ++ post → permuting V top (Z.of_nat j0) → counts s (left_counts (Z.of_nat j0)) → zlen E - Z.of_nat j0 ≤ Z.of_nat fuel → zlen E ≤ zlen (arr s) →
  ∃ s' V' top' j1, permute str tr fuel i (a + zlen E) (a + Z.of_nat j0) top s = Ok (tt, s') ∧ arr s' = pre ++ V' ++ post ∧ ta s' = ta s ∧ nc s' = nc s ∧
    permuting V' top' j1 ∧ zlen E ≤ j1 ∧ counts s' (left_counts j1).
Proof.
  induction fuel as [|fuel IH]; intros s V top j0 Hs HV Hc Hf Hl; cbn [permute];
    (destruct (Z.leb_spec (a + zlen E) (a + Z.of_nat j0)); [exists s, V, top, (Z.of_nat j0); by (repeat split; try done; try lia; apply Hc || apply HV)|]); [lia|].
  pose proof (proj1 HV) as HP. assert (length V = length E) as HlV by (by rewrite HP). destruct (lookup_lt_is_Some_2 V j0) as [r Hr]; [lia|].
  rewrite (bind_Ok _ _ _ _ _ (get_arr_part s pre V post j0 r (a + Z.of_nat j0) Hs Hr ltac:(lia))). mrun.
  destruct (home_run j0 (S (length (arr s))) s V r top) as (W & r' & top' & E1 & HS); [done|lia|by rewrite list_insert_id|pose proof (away_bound top); lia|].
  rewrite (bind_Ok _ _ _ _ _ E1). pose proof HS as [HP1 HlW Hpos Hb Hh Hrest].
  rewrite (bind_Ok _ _ _ _ _ (put_arr_part (set_arr (pre ++ W ++ post) s) pre W post j0 r' (a + Z.of_nat j0) eq_refl ltac:(lia) ltac:(lia))).
  set (s2 := set_arr _ _). assert (counts s2 (left_counts (Z.of_nat j0))) as Hc2 by exact Hc. pose proof (ready_valued str tr endch Htr i (proj1 Hi) E HE) as Hv.
  assert (0 ≤ ch r' < 256) as Hcr. { destruct (decide (0 ≤ ch r' < 256)); [done|]. rewrite num_outside in Hpos by done. lia. }
  rewrite (bind_Ok _ _ _ _ _ (get_count_run s2 _ _ Hc2 Hcr)). unfold left_counts at 1. rewrite decide_False by lia.
  destruct (put_count_run s2 _ (ch r') 0 Hc2 Hcr) as (l & E3 & Hc3). rewrite (bind_Ok _ _ _ _ _ E3).
  apply (counts_ext _ _ (left_counts (Z.of_nat j0 + num (ch r')))) in Hc3; [|intros c _; by eapply left_counts_next].
  set (j1 := Z.to_nat (Z.of_nat j0 + num (ch r'))). replace (a + Z.of_nat j0 + num (ch r')) with (a + Z.of_nat j1) by lia.
  destruct (IH (set_count l s2) (<[j0 := r']> W) top' j1) as (s' & V' & top2 & j2 & E4 & Ha4 & Ht4 & Hn4 & H4 & Hj4 & Hc4).
  - done.
  - replace (Z.of_nat j1) with (Z.of_nat j0 + num (ch r')) by lia. by apply settled_permuting.
  - by replace (Z.of_nat j1) with (Z.of_nat j0 + num (ch r')) by lia.
  - lia.
  - cbn. rewrite !length_app, length_insert, HlW. lia.
  - exists s', V', top2, j2. done.
Qed.
End Permute.

(** * The turn in place *)

Section Unstable.
Context {A : Type} (str : A → list Z) (tr : list Z) (endch : Z) (Htr : table_ok tr endch).
Context (i : Z) (Hi : 0 ≤ i < 2 ^ 31 - 1) (E : list A) (HE : Forall (ready str tr endch (Z.to_nat i)) E).
Implicit Types (s : @radix A) (c d : Z) (top : gmap Z Z).
Abbreviation ch := (chr str tr endch (Z.to_nat i)).
Abbreviation num c := (num ch c E).
Abbreviation below c := (below ch c E).

(** All elements in one bin: the part itself is pushed again. *)
Lemma one_bin (pre : list A) b : (1 < length E)%nat → num b = zlen E → length (occupied str tr endch i E) = 1%nat →
  entries str tr endch i (zlen pre) E 0 = [mkStack (zlen pre) (zlen E) (i + 1)] ∧ binned ch E E ∧ ∀ c, c ≠ b → num c = 0.
Proof.
  intros HlE Hb Ho. assert (∀ c, c ≠ b → num c = 0) as H0.
  { intros c Hc. pose proof (num_two ch c b E Hc). pose proof (num_nonneg ch c E). lia. }
  pose proof (bin_end str tr endch Htr i Hi E HE b). pose proof (below_nonneg ch b E). assert (below b = 0) as Hb0 by lia.
  assert (occupied str tr endch i E = [b]) as Eo.
  { destruct (occupied str tr endch i E) as [|c [|d l]] eqn:Eq; try done. f_equal. assert (c ∈ occupied str tr endch i E) as Hc by (rewrite Eq; left).
    apply elem_of_occupied in Hc as (_ & _ & Hc). destruct (decide (c = b)); [done|]. rewrite H0 in Hc by done. lia. }
  split; [|split; [|done]].
  - unfold entries. rewrite occ_from_0, Eo. rewrite filter_cons_True by lia. cbn. unfold entry. by rewrite Hb0, Hb, Z.add_0_r.
  - intros p x Hp. assert (ch x = b) as ->.
    { destruct (decide (ch x = b)); [done|]. assert (0 < num (ch x)) as Hn by (apply (num_pos ch _ E x); [by eapply list_elem_of_lookup_2|done]). rewrite H0 in Hn by done. lia. }
    apply lookup_lt_Some in Hp. lia.
Qed.

Lemma bins_a_run s pre post stk :
  hist_ok str tr endch i s E → arr s = pre ++ E ++ post → zlen stk + nc s ≤ SIZE → (1 < length E)%nat →
  turn_ok str tr endch i E False pre post s stk (bins_a str tr endch (zlen pre) (zlen E) i stk s).
Proof.
  intros [Hc Hn Hb Hr] Hs Hsz HlE. unfold bins_a. mrun. assert (0 ≤ bmin s < 256) as Hbm by (case_decide; lia).
  rewrite (bind_Ok _ _ _ _ _ (get_count_run s _ (bmin s) Hc Hbm)).
  destruct ((nc s =? 1) && (num (bmin s) =? zlen E)) eqn:Esp.
  { apply andb_true_iff in Esp as [Hn1%Z.eqb_eq Hbn%Z.eqb_eq].
    destruct (one_bin pre (bmin s) HlE Hbn ltac:(lia)) as (Ee & Hbin & H0). unfold push. rewrite (proj2 (Z.leb_gt SIZE (zlen stk))) by lia. mrun.
    destruct (put_count_run s _ (bmin s) 0 Hc Hbm) as (l & E1 & Hc1). rewrite (bind_Ok _ _ _ _ _ E1). mrun. rewrite s32_id by (unfold is_s32; lia).
    eexists E, [mkStack (zlen pre) (zlen E) (i + 1)], _. split; [done|]. split; [|split; [done|split; [done|split; [by rewrite Ee|done]]]].
    split; [|done]. eapply counts_ext; [|exact Hc1]. intros c _. cbn. destruct (decide (c = bmin s)); [done|]. by apply H0. }
  rewrite (bind_Ok _ _ _ _ _ (get_count_run s _ 0 Hc ltac:(lia))). rewrite start_pair. set (top := start_top _ _ _ _ _ _). clear Esp.
  destruct (piles_start str tr endch Htr i Hi (zlen pre) E HE false s _ top stk (zlen pre + (if decide (endch = 0) then num 0 else 0)) Hc) as (s2 & top2 & sp1 & E2 & Ha2 & Ht2 & Hn2 & Hc2 & Htop & Hsp); try done.
  rewrite (bind_Ok _ _ _ _ _ E2). rewrite Nat2Z.id. pose proof (ready_valued str tr endch Htr i (proj1 Hi) E HE) as Hv.
  assert (∀ c, 0 < num c → open_bin str tr endch i E (zlen pre) E c top2 (Z.of_nat 0)) as Hopen.
  { intros c Hc'. split; [apply below_nonneg|]. exists (below c + num c). rewrite (start_tops str tr endch Htr i Hi E HE (zlen pre) top2 Htop c Hc').
    split; [f_equal; lia|]. split; [lia|]. intros q x _ Hq. lia. }
  destruct (permute_run str tr endch Htr i Hi E HE (zlen pre) pre post eq_refl (length E) s2 E top2 0) as (s3 & V & top3 & j1 & E3 & Ha3 & Ht3 & Hn3 & [HP Hall] & Hj1 & Hc3).
  { by rewrite Ha2. }
  { split; [done|]. intros c Hc'. right. by apply Hopen. }
  { eapply counts_ext; [|exact Hc2]. intros c Hc'. cbn. rewrite decide_False by (by intros [? _]). unfold left_counts. pose proof (below_nonneg ch c E). pose proof (num_nonneg ch c E).
    destruct (decide (below c + num c ≤ Z.of_nat 0)); lia. }
  { lia. }
  { rewrite Ha2, Hs, !length_app. lia. }
  rewrite Z.add_0_r in E3. rewrite (bind_Ok _ _ _ _ _ E3). mrun. destruct (swap_entries_run stk _ sp1 Hsp) as (new & -> & Hnew).
  eexists V, new, s3. split; [done|]. split; [|split; [done|split; [by rewrite Ht3, Ht2|]]].
  - split; [|by rewrite Hn3]. eapply counts_ext; [|exact Hc3]. intros c Hc'. unfold left_counts. pose proof (bin_end str tr endch Htr i Hi E HE c). by rewrite decide_True by lia.
  - split; [by rewrite Hnew, reverse_Permutation|]. split; [done|]. split; [|done]. intros p x Hp.
    assert (0 < num (ch x)) as Hx by (apply (num_pos ch _ E x); [rewrite <- HP; by eapply list_elem_of_lookup_2|done]).
    destruct (bin_of_position ch E (Z.of_nat p) Hv) as (c & Hc' & Hpc); [apply lookup_lt_Some in Hp; rewrite HP in Hp; lia|].
    pose proof (bin_end str tr endch Htr i Hi E HE c). destruct (Hall c ltac:(lia)) as [[_ Hh]|[Hj _]]; [|lia]. by rewrite (Hh p x Hp Hpc).
Qed.
End Unstable.
