(* ===== verification/RadixMerge.v ===== *)
(** Sorting the bins of a part sorts the part. *)

From Stdlib Require Import Sorting.Sorted.
From S2P Require Import Prelude Errors Sort MergeRuns Radix RadixKeys RadixBins RadixDeal.

Lemma slice_lookup {A} off n (l : list A) (j : nat) : 0 ≤ off →
  slice off n l !! j = if decide (Z.of_nat j < n) then l !! (Z.to_nat off + j)%nat else None.
Proof.
  intros Hoff. unfold slice. case_decide; [by rewrite lookup_take_lt, lookup_drop by lia|]. by rewrite lookup_take_ge by lia.
Qed.

(** ** Lists by their bins *)

Section Slices.
Context {A : Type} (ch : A → Z) (E : list A) (Hv : valued ch E).
Implicit Types (F V : list A) (c : Z).
Abbreviation num c := (num ch c E).
Abbreviation below c := (below ch c E).

(** The part of a list that is the bin of [c]. *)
Definition place c F : list A := slice (below c) (num c) F.

Lemma places_join F : length F = length E → F = mjoin ((λ c, place c F) <$> seqZ 0 256).
Proof.
  intros HF. assert (∀ k : nat, (k ≤ 256)%nat → take (Z.to_nat (below (Z.of_nat k))) F = mjoin ((λ c, place c F) <$> seqZ 0 (Z.of_nat k))) as H.
  { induction k as [|k IH]; intros Hk; [change (Z.of_nat 0) with 0; by rewrite below_0|].
    rewrite seqZ_S, fmap_app, join_app, <- IH by lia. replace (Z.of_nat (S k)) with (Z.of_nat k + 1) by lia. rewrite below_succ.
    pose proof (below_nonneg ch (Z.of_nat k) E). pose proof (num_nonneg ch (Z.of_nat k) E). rewrite Z2Nat.inj_add by lia.
    rewrite <- take_take_drop. f_equal. cbn. by rewrite app_nil_r. }
  specialize (H 256%nat). change (Z.of_nat 256) with 256 in H. rewrite below_256, take_ge in H by (done || lia). auto.
Qed.

Lemma join_perm (f g : Z → list A) cs : (∀ c, c ∈ cs → f c ≡ₚ g c) → mjoin (f <$> cs) ≡ₚ mjoin (g <$> cs).
Proof.
  induction cs as [|c cs IH]; intros H; [done|]. cbn. apply Permutation_app; [apply H; left|]. apply IH. intros d Hd. apply H. by right.
Qed.

Lemma join_stably (cmp : A → A → Z) (f g : Z → list A) cs :
  (∀ c, c ∈ cs → stably cmp (f c) (g c)) → stably cmp (mjoin (f <$> cs)) (mjoin (g <$> cs)).
Proof.
  induction cs as [|c cs IH]; intros H; [done|]. cbn. apply stably_app; [apply H; left|]. apply IH. intros d Hd. apply H. by right.
Qed.

Lemma join_sorted (cmp : A → A → Z) (f : Z → list A) : ∀ (m : nat) k,
  (∀ c, k ≤ c < k + Z.of_nat m → sorted cmp (f c)) →
  (∀ c d x y, k ≤ c → c < d → d < k + Z.of_nat m → x ∈ f c → y ∈ f d → cmp x y ≤ 0) → sorted cmp (mjoin (f <$> seqZ k (Z.of_nat m))).
Proof.
  induction m as [|m IH]; intros k Hs Hlt; [constructor|]. rewrite seqZ_cons by lia. cbn. replace (Z.pred (Z.of_nat (S m))) with (Z.of_nat m) by lia.
  apply sorted_app. split; [apply Hs; lia|]. split.
  - apply IH; [intros c Hc; apply Hs; lia|]. intros c d x y Hc Hcd Hd. apply Hlt; lia.
  - intros x y Hx Hy. apply list_elem_of_join in Hy as (l & Hy & Hl). apply list_elem_of_fmap in Hl as (d & -> & Hd). apply elem_of_seqZ in Hd.
    apply (Hlt k d); try done; lia.
Qed.
End Slices.

(** ** Strings *)

Section Combine.
Context {A : Type} (str : A → list Z) (tr : list Z) (endch : Z) (Htr : table_ok tr endch) (stable : Prop).
Context (i : Z) (Hi : 0 ≤ i < 2 ^ 31 - 1) (E : list A) (HE : part_ok str tr endch (Z.to_nat i) E).
Implicit Types (F V : list A) (c d : Z) (x y : A).
Abbreviation ch := (chr str tr endch (Z.to_nat i)).
Abbreviation skey := (skey str tr endch).
Abbreviation scmp := (scmp str tr endch).
Abbreviation resorted := (resorted str tr endch stable).

Lemma part_valued : valued ch E.
Proof. apply (ready_valued str tr endch Htr i (proj1 Hi)), HE. Qed.

Lemma ready_chr x : ready str tr endch (Z.to_nat i) x → skey x !! Z.to_nat i = Some (ch x).
Proof. intros [_ Hl]. by apply list_lookup_lookup_total_lt. Qed.

Lemma part_lt x y : x ∈ E → y ∈ E → ch x < ch y → scmp x y < 0.
Proof.
  intros Hx Hy Hlt. destruct HE as [HF Heq]. rewrite Forall_forall in HF.
  apply (lex_lt (Z.to_nat i) _ _ (ch x) (ch y)); [by apply Heq|by apply ready_chr, HF|by apply ready_chr, HF|done].
Qed.

Lemma scmp_chr x y : scmp x y = 0 → ch x = ch y.
Proof. intros H%lex_zero. unfold chr. by rewrite H. Qed.

Lemma bins_stably V : (∀ c, bin ch c V = bin ch c E) → stably scmp E V.
Proof.
  intros Hb x. unfold equals.
  assert (∀ l : list A, filter (λ y, scmp x y = 0) l = filter (λ y, scmp x y = 0) (bin ch (ch x) l)) as H.
  { intros l. symmetry. apply list_filter_filter_l. intros y Hy. symmetry. by apply scmp_chr. }
  by rewrite H, Hb, <- H.
Qed.

(** All elements that end here are equal. *)
Lemma ended_sorted F : F ⊆ E → (∀ x, x ∈ F → ch x = endch) → sorted scmp F.
Proof.
  intros Hsub Hend. destruct HE as [HF Heq]. rewrite Forall_forall in HF.
  assert (∀ x y, x ∈ F → y ∈ F → scmp x y ≤ 0) as Hall.
  { intros x y Hx Hy. assert (∀ z, z ∈ F → skey z = take (Z.to_nat i) (skey z) ++ [endch]) as Hk.
    { intros z Hz. pose proof (ready_chr z (HF z (Hsub z Hz))) as Hc. rewrite (Hend z Hz) in Hc.
      rewrite <- (take_S_r _ _ _ Hc), take_ge; [done|]. unfold RadixKeys.skey. by rewrite (key_end tr endch _ _ Hc). }
    unfold RadixKeys.scmp. rewrite (Hk x Hx), (Hk y Hy), (Heq x y) by (by apply Hsub). by rewrite lex_refl. }
  clear -Hall. induction F as [|x F IH]; [constructor|]. constructor.
  - apply IH. intros u v Hu Hv. apply Hall; by right.
  - apply Forall_forall. intros y Hy. apply Hall; [left|by right].
Qed.

Lemma resorted_bins V F :
  V ≡ₚ E → binned ch E V → (stable → ∀ c, bin ch c V = bin ch c E) → length F = length E →
  (∀ c, 0 ≤ c < 256 → resorted (place ch E c V) (place ch E c F)) → resorted E F.
Proof.
  intros HP Hb Hst HlF Hall. pose proof part_valued as Hv. assert (length V = length E) as HlV by by rewrite HP.
  assert (∀ c x, 0 ≤ c < 256 → x ∈ place ch E c V → x ∈ E ∧ ch x = c) as Hplace.
  { intros c x Hc Hx. unfold place, slice in Hx. rewrite <- (binned_slice ch E V c) in Hx by done. apply list_elem_of_filter in Hx as [Hx HxV]. by rewrite <- HP. }
  assert (∀ c, c ∈ seqZ 0 256 → 0 ≤ c < 256) as Hseq by (intros c Hc%elem_of_seqZ; lia).
  assert (F ≡ₚ V) as HFV.
  { rewrite (places_join ch E Hv F HlF), (places_join ch E Hv V HlV). apply join_perm. intros c Hc. apply Hall. auto. }
  split; [by rewrite HFV|]. split.
  - rewrite (places_join ch E Hv F HlF). change 256 with (Z.of_nat 256). apply join_sorted; [intros c Hc; apply Hall; lia|].
    intros c d x y Hc Hcd Hd Hx Hy. assert (∀ c x, 0 ≤ c < 256 → x ∈ place ch E c F → x ∈ E ∧ ch x = c) as HpF.
    { intros c' x' Hc' Hx'. apply Hplace; [done|]. destruct (Hall c' Hc') as [Hp _]. by rewrite <- Hp. }
    destruct (HpF c x ltac:(lia) Hx) as [HxE <-]. destruct (HpF d y ltac:(lia) Hy) as [HyE <-]. pose proof (part_lt x y HxE HyE Hcd). lia.
  - intros Hs. eapply stably_trans; [by apply bins_stably, Hst|]. rewrite (places_join ch E Hv F HlF), (places_join ch E Hv V HlV) at 1.
    apply join_stably. intros c Hc. destruct (Hall c ltac:(auto)) as (_ & _ & H). by apply H.
Qed.
End Combine.
