(* ===== verification/RadixSort.v ===== *)
(** The loop of radix sorting: every part on the stack gets sorted, the rest of the
    array stays as it is; and the theorems on [radixsort] and [sradixsort]. *)

From Stdlib Require Import Sorting.Sorted.
From S2P Require Import Prelude Errors Sort MergeRuns Radix RadixKeys RadixBins RadixDeal RadixMerge.

(** * What the loop needs of a turn *)

(** Two ways of dealing a part into bins: [r_sort_a]'s and [r_sort_b]'s.  With
    [stable], the second array has room for the part. *)
Class Dealer {A : Type} (str : A → list Z) (tr : list Z) (endch : Z)
    (hist : Z → Z → nat → M (@radix A) unit) (bins : Z → Z → Z → list stack → M (@radix A) (list stack)) (stable : Prop) := {
  dealer_hist i E pre post s :
    0 ≤ i → Forall (ready str tr endch (Z.to_nat i)) E → zlen E < 2 ^ 31 → idle s → arr s = pre ++ E ++ post →
    ∃ s', hist (zlen pre) i (length E) (set_bmin 255 s) = Ok (tt, s') ∧ hist_ok str tr endch i s' E ∧ arr s' = arr s ∧ ta s' = ta s;
  dealer_bins i E pre post s stk :
    0 ≤ i < 2 ^ 31 - 1 → Forall (ready str tr endch (Z.to_nat i)) E → hist_ok str tr endch i s E → arr s = pre ++ E ++ post →
    zlen stk + nc s ≤ SIZE → (1 < length E)%nat → (stable → zlen E ≤ zlen (ta s)) →
    turn_ok str tr endch i E stable pre post s stk (bins (zlen pre) (zlen E) i stk s)
}.

Section Dealers.
Context {A : Type} (str : A → list Z) (tr : list Z) (endch : Z) (Htr : table_ok tr endch).

Lemma part_lookup {B} (pre E post : list B) (j : nat) x : E !! j = Some x → (pre ++ E ++ post) !! (Z.to_nat (zlen pre) + j)%nat = Some x.
Proof. intros Hj. rewrite lookup_app_r by lia. replace (Z.to_nat (zlen pre) + j - length pre)%nat with j by lia. by apply lookup_app_l_Some. Qed.

Lemma dealer_a : Dealer str tr endch (hist_a str tr endch) (bins_a str tr endch) False.
Proof.
  constructor.
  - intros i E pre post s Hi HE Hl Hid Hs.
    destruct (hist_a_run str tr endch Htr i Hi E (zlen pre) [] (set_bmin 255 s)) as (s' & E1 & H1 & H2); [by apply hist_ok_nil|done|cbn [length]; lia|lia| |].
    + intros j x Hj. cbn. rewrite Hs. by apply part_lookup.
    + exists s'. rewrite app_nil_r in H1. done.
  - intros i E pre post s stk Hi HE Hh Hs Hsz Hl _. by apply bins_a_run.
Qed.

Lemma dealer_b : Dealer str tr endch (hist_b str tr endch) (bins_b str tr endch) True.
Proof.
  constructor.
  - intros i E pre post s Hi HE Hl Hid Hs.
    destruct (hist_b_run str tr endch Htr i Hi E (zlen pre) [] (set_bmin 255 s)) as (s' & E1 & H1 & H2); [by apply hist_ok_nil|done|cbn [length]; lia|lia| |].
    + intros j x Hj. cbn. rewrite Hs. by apply part_lookup.
    + exists s'. rewrite app_nil_r in H1. done.
  - intros i E pre post s stk Hi HE Hh Hs Hsz Hl Hta. apply bins_b_run; auto.
Qed.
End Dealers.

(** * The stack *)

Definition disj (e e' : stack) : Prop := sa e + sn e ≤ sa e' ∨ sa e' + sn e' ≤ sa e.

Fixpoint apart_all (stk : list stack) : Prop :=
  match stk with [] => True | e :: stk => Forall (disj e) stk ∧ apart_all stk end.

Lemma disj_sym e e' : disj e e' → disj e' e.
Proof. unfold disj. tauto. Qed.

Lemma apart_all_app l k : apart_all (l ++ k) ↔ apart_all l ∧ apart_all k ∧ ∀ e e', e ∈ l → e' ∈ k → disj e e'.
Proof.
  induction l as [|e l IH]; cbn; [split; [intros; split; [done|split; [done|]]; by intros ?? ?%elem_of_nil|tauto]|].
  rewrite Forall_app, IH, !Forall_forall. split.
  - intros ((H1 & H2) & H3 & H4 & H5). split; [done|]. split; [done|]. intros e1 e2 [->|H]%elem_of_cons He2; auto.
  - intros ((H1 & H2) & H3 & H4). split; [split; [done|intros e' He'; apply H4; [left|done]]|]. split; [done|]. split; [done|].
    intros e1 e2 He1 He2. apply H4; [by right|done].
Qed.

Lemma apart_all_perm l k : l ≡ₚ k → apart_all l → apart_all k.
Proof.
  induction 1 as [|e l k HP IH|e e' l|l k m HP1 IH1 HP2 IH2]; cbn; try done.
  - intros [H1 H2]. split; [by rewrite <- HP|auto].
  - rewrite !Forall_cons. intros [[H1 H2] [H3 H4]]. repeat split; try done; by apply disj_sym.
  - auto.
Qed.

Section Loop.
Context {A : Type} (str : A → list Z) (tr : list Z) (endch : Z) (Htr : table_ok tr endch) (stable : Prop).
Context (hist : Z → Z → nat → M (@radix A) unit) (bins : Z → Z → Z → list stack → M (@radix A) (list stack)).
Context (HD : Dealer str tr endch hist bins stable).
Implicit Types (l E F V : list A) (s : @radix A) (e : stack) (stk : list stack) (c : Z).
Abbreviation resorted := (resorted str tr endch stable).

(** The elements of a part. *)
Definition range_of e l : list A := slice (sa e) (sn e) l.

Record entry_ok l e : Prop := {
  en_bounds : 0 ≤ sa e ∧ 0 ≤ sn e ∧ sa e + sn e ≤ zlen l;
  en_index : 0 ≤ si e;
  en_part : part_ok str tr endch (Z.to_nat (si e)) (range_of e l)
}.

(** How many turns a part takes at most. *)
Definition weight l e : nat := 1 + sum_list_with (λ x, length (skey str tr endch x) - Z.to_nat (si e))%nat (range_of e l).

(** The parts of [stk] are sorted in [l'], everything else is as in [l]. *)
Record sorted_parts l stk l' : Prop := {
  sp_length : length l' = length l;
  sp_parts : ∀ e, e ∈ stk → resorted (range_of e l) (range_of e l');
  sp_rest : ∀ p : nat, (∀ e, e ∈ stk → Z.of_nat p < sa e ∨ sa e + sn e ≤ Z.of_nat p) → l' !! p = l !! p
}.

Lemma part_same e l l' : 0 ≤ sa e → (∀ p : nat, sa e ≤ Z.of_nat p < sa e + sn e → l' !! p = l !! p) → range_of e l' = range_of e l.
Proof.
  intros Ha Hp. apply list_eq. intros j. unfold range_of. rewrite !slice_lookup by done. case_decide; [|done]. apply Hp. lia.
Qed.

Lemma split_part l e : 0 ≤ sa e → 0 ≤ sn e → sa e + sn e ≤ zlen l →
  ∃ pre post, l = pre ++ range_of e l ++ post ∧ zlen pre = sa e ∧ zlen (range_of e l) = sn e.
Proof.
  intros Ha Hn Hl. exists (take (Z.to_nat (sa e)) l), (drop (Z.to_nat (sa e) + Z.to_nat (sn e)) l). unfold range_of. split; [|split].
  - unfold slice. rewrite <- (take_drop (Z.to_nat (sa e)) l) at 1. f_equal. rewrite <- (take_drop (Z.to_nat (sn e)) (drop _ l)) at 1. by rewrite drop_drop.
  - rewrite length_take. lia.
  - by apply slice_length.
Qed.

Lemma range_replace pre V post (e : stack) : zlen pre = sa e → zlen V = sn e → range_of e (pre ++ V ++ post) = V.
Proof. intros H1 H2. unfold range_of. by apply slice_middle. Qed.

Lemma outside_replace pre V W post (p : nat) : length V = length W → Z.of_nat p < zlen pre ∨ zlen pre + zlen V ≤ Z.of_nat p →
  (pre ++ W ++ post) !! p = (pre ++ V ++ post) !! p.
Proof.
  intros Hl [Hp|Hp]; [by rewrite !lookup_app_l by lia|]. rewrite !(lookup_app_r pre) by lia. rewrite !lookup_app_r by lia. f_equal. lia.
Qed.

Lemma part_weight l l' e : range_of e l' ≡ₚ range_of e l → weight l' e = weight l e.
Proof. intros HP. unfold weight. by rewrite HP. Qed.

(** ** The parts a turn leaves to sort *)

Section Children.
Context (i : Z) (Hi : 0 ≤ i < 2 ^ 31 - 1) (pre E V post : list A) (HE : part_ok str tr endch (Z.to_nat i) E) (HP : V ≡ₚ E).
Context (Hb : binned (chr str tr endch (Z.to_nat i)) E V).
Abbreviation ch := (chr str tr endch (Z.to_nat i)).
Abbreviation child := (entry str tr endch i (zlen pre) E).
Abbreviation children := (entries str tr endch i (zlen pre) E 0).

Lemma child_bounds c : 0 ≤ below ch c E ∧ 0 ≤ num ch c E ∧ below ch c E + num ch c E ≤ zlen E.
Proof. split; [apply below_nonneg|]. split; [apply num_nonneg|]. apply (bin_end str tr endch Htr i Hi E (proj1 HE)). Qed.

Lemma child_part c F : length F = length E → range_of (child c) (pre ++ F ++ post) = place ch E c F.
Proof.
  intros HF. pose proof (child_bounds c). unfold range_of, place, entry. cbn. rewrite slice_app_r by lia.
  replace (zlen pre + below ch c E - zlen pre) with (below ch c E) by lia. apply slice_app_l; lia.
Qed.

Lemma place_bin c : 0 ≤ c < 256 → place ch E c V = bin ch c V.
Proof.
  intros Hc. rewrite (binned_slice ch E V c); [done|by rewrite HP|done|done|]. by apply (part_valued str tr endch Htr i Hi).
Qed.

Lemma elem_of_children e : e ∈ children ↔ ∃ c, 0 ≤ c < 256 ∧ c ≠ endch ∧ 1 < num ch c E ∧ e = child c.
Proof.
  unfold entries. rewrite occ_from_0, list_elem_of_fmap. split.
  - intros (c & -> & Hc). apply list_elem_of_filter in Hc as [H1 H2]. apply elem_of_occupied in H2. exists c. split; [lia|]. split; [tauto|done].
  - intros (c & Hc & Hne & Hn & ->). exists c. split; [done|]. apply list_elem_of_filter. split; [done|]. apply elem_of_occupied. lia.
Qed.

Lemma child_ok e : e ∈ children → entry_ok (pre ++ V ++ post) e.
Proof.
  intros (c & Hc & Hne & Hn & ->)%elem_of_children. pose proof (child_bounds c). assert (length V = length E) as HlV by by rewrite HP. constructor.
  - cbn. rewrite !length_app. lia.
  - cbn. lia.
  - rewrite child_part, place_bin by done. cbn [entry si]. destruct HE as [HF Heq]. rewrite Forall_forall in HF.
    assert (∀ x, x ∈ bin ch c V → x ∈ E ∧ ch x = c) as Hx by (intros x [H1 H2]%list_elem_of_filter; by rewrite <- HP).
    replace (Z.to_nat (i + 1)) with (S (Z.to_nat i)) by lia. split.
    + apply Forall_forall. intros x [HxE Hxc]%Hx. destruct (HF x HxE) as [Hok Hl]. split; [done|].
      pose proof (ready_chr str tr endch i x (HF x HxE)) as Hk. apply (key_more tr endch _ _ c Hok); [by rewrite <- Hxc|done].
    + intros x y [HxE Hxc]%Hx [HyE Hyc]%Hx.
      rewrite (take_S_r _ _ c), (take_S_r _ _ c), (Heq x y) by (done || (rewrite <- ?Hxc, <- ?Hyc; by apply ready_chr, HF) || (rewrite <- Hyc; by apply ready_chr, HF)). done.
Qed.

Lemma children_apart : apart_all children.
Proof.
  unfold entries. assert (NoDup (filter (λ c, 1 < num ch c E) (occ_from str tr endch i E 0))) as Hnd by apply NoDup_filter, NoDup_filter, NoDup_seqZ.
  induction Hnd as [|c cs Hc Hcs IH]; [done|]. cbn. split; [|done]. apply Forall_forall. intros e (d & -> & Hd)%list_elem_of_fmap.
  assert (c ≠ d) by congruence. unfold disj. cbn. destruct (decide (c < d)) as [H1|H1]; [left; pose proof (below_lt ch c d E H1); lia|right].
  assert (d < c) as H2 by lia. pose proof (below_lt ch d c E H2). lia.
Qed.

Lemma children_inside e : e ∈ children → zlen pre ≤ sa e ∧ sa e + sn e ≤ zlen pre + zlen E.
Proof. intros (c & Hc & Hne & Hn & ->)%elem_of_children. pose proof (child_bounds c). cbn. lia. Qed.

Lemma sum_filter_le {B} (P : B → Prop) `{∀ x, Decision (P x)} (f : B → nat) (k : list B) : (sum_list_with f (filter P k) ≤ sum_list_with f k)%nat.
Proof. induction k as [|x k IH]; [done|]. rewrite filter_cons. case_decide; cbn; lia. Qed.

Lemma sum_join {B} (f : B → nat) (g : Z → list B) cs : sum_list_with f (mjoin (g <$> cs)) = sum_list_with (λ c, sum_list_with f (g c)) cs.
Proof. induction cs as [|c cs IH]; [done|]. rewrite fmap_cons. change (mjoin (g c :: (g <$> cs))) with (g c ++ mjoin (g <$> cs)). rewrite sum_list_with_app, IH. done. Qed.

Lemma child_weight c : 0 ≤ c < 256 → 1 < num ch c E →
  (weight (pre ++ V ++ post) (child c) ≤ sum_list_with (λ x, length (skey str tr endch x) - Z.to_nat i) (bin ch c V))%nat.
Proof.
  intros Hc Hn. assert (length V = length E) as HlV by by rewrite HP. unfold weight. rewrite child_part, place_bin by done. cbn [entry si].
  rewrite <- (num_perm ch c E V HP) in Hn. unfold num in Hn. destruct HE as [HF _]. rewrite Forall_forall in HF.
  assert (∀ x, x ∈ bin ch c V → Z.to_nat i < length (skey str tr endch x))%nat as Hx.
  { intros x [_ Hx]%list_elem_of_filter. apply HF. by rewrite <- HP. }
  destruct (bin ch c V) as [|x0 k]; [cbn in Hn; lia|]. clear Hn.
  assert (∀ k : list A, (∀ x, x ∈ k → Z.to_nat i < length (skey str tr endch x))%nat →
    (sum_list_with (λ x, length (skey str tr endch x) - Z.to_nat (i + 1)) k ≤ sum_list_with (λ x, length (skey str tr endch x) - Z.to_nat i) k)%nat) as Hle.
  { induction k0 as [|x k0 IH]; intros H; [done|]. cbn. specialize (IH ltac:(intros y Hy; apply H; by right)). lia. }
  cbn. pose proof (Hx x0 ltac:(left)). specialize (Hle k ltac:(intros y Hy; apply Hx; by right)). lia.
Qed.

Lemma children_weight : (sum_list_with (weight (pre ++ V ++ post)) children + 1 ≤ weight (pre ++ E ++ post) (mkStack (zlen pre) (zlen E) i))%nat.
Proof.
  unfold weight at 2. rewrite range_replace by done. cbn [si]. set (f := λ x, (length (skey str tr endch x) - Z.to_nat i)%nat). unfold entries.
  rewrite occ_from_0. set (cs := filter _ (occupied str tr endch i E)). assert (NoDup cs) as Hnd by apply NoDup_filter, NoDup_filter, NoDup_seqZ.
  assert (∀ c, c ∈ cs → 0 ≤ c < 256 ∧ 1 < num ch c E) as Hcs by (intros c [H1 H2]%list_elem_of_filter; apply elem_of_occupied in H2; lia).
  assert (sum_list_with f V = sum_list_with f E) as HfV by by rewrite HP.
  enough (sum_list_with (weight (pre ++ V ++ post)) (child <$> cs) ≤ sum_list_with f V)%nat by lia.
  etransitivity; [|apply (sum_filter_le (λ x, ch x ∈ cs))]. rewrite <- join_bins_perm, sum_join by done. clear Hnd. clearbody cs.
  induction cs as [|c cs IH]; [done|]. cbn. destruct (Hcs c ltac:(left)) as [H1 H2]. pose proof (child_weight c H1 H2 : (_ ≤ sum_list_with f (bin ch c V))%nat) as H3.
  specialize (IH ltac:(intros d Hd; apply Hcs; by right)). cbn in IH, H3. lia.
Qed.

(** What is not pushed is in order already. *)
Lemma child_unpushed c : 0 ≤ c < 256 → c = endch ∨ num ch c E ≤ 1 → resorted (place ch E c V) (place ch E c V).
Proof.
  intros Hc Hor. split; [done|]. split; [|done]. rewrite place_bin by done.
  assert (∀ x, x ∈ bin ch c V → x ∈ E ∧ ch x = c) as Hx by (intros x [H1 H2]%list_elem_of_filter; by rewrite <- HP). destruct Hor as [->|Hn].
  - apply (ended_sorted str tr endch i E HE); intros x H; by apply Hx.
  - rewrite <- (num_perm ch c E V HP) in Hn. unfold num in Hn. destruct (bin ch c V) as [|x [|y k]]; [constructor|repeat constructor|cbn in Hn; lia].
Qed.
End Children.

(** ** Turn by turn *)

Definition stack_ok l stk : Prop := Forall (entry_ok l) stk ∧ apart_all stk.

Lemma entry_ok_same l l' e : length l' = length l → range_of e l' = range_of e l → entry_ok l e → entry_ok l' e.
Proof. intros Hl Hp [H1 H2 H3]. constructor; [lia|done|]. by rewrite Hp. Qed.

Lemma sum_list_with_ext {B} (f g : B → nat) (k : list B) : (∀ x, x ∈ k → f x = g x) → sum_list_with f k = sum_list_with g k.
Proof. induction k as [|x k IH]; intros H; [done|]. cbn. rewrite IH by (intros y Hy; apply H; by right). by rewrite (H x) by left. Qed.

(** One part sorted: the others are as they were. *)
Lemma after_first l l2 e stk :
  stack_ok l (e :: stk) → sorted_parts l [e] l2 →
  stack_ok l2 stk ∧ sum_list_with (weight l2) stk = sum_list_with (weight l) stk ∧ ∀ l3, sorted_parts l2 stk l3 → sorted_parts l (e :: stk) l3.
Proof.
  intros [Hall Hap] [Hl Hparts Hrest]. apply Forall_cons in Hall as [He Hall]. destruct Hap as [Hd Hap]. rewrite Forall_forall in Hall, Hd.
  assert (∀ e', e' ∈ stk → range_of e' l2 = range_of e' l) as Hsame.
  { intros e' He'. apply part_same; [apply (Hall e' He')|]. intros p Hp. apply Hrest. intros e0 ->%list_elem_of_singleton. destruct (Hd e' He'); lia. }
  split; [|split].
  - split; [|done]. apply Forall_forall. intros e' He'. eapply entry_ok_same; [done|by apply Hsame|by apply Hall].
  - apply sum_list_with_ext. intros e' He'. apply part_weight. by rewrite Hsame.
  - intros l3 [Hl3 Hparts3 Hrest3]. constructor; [congruence| |].
    + intros e' [->|He']%elem_of_cons.
      * replace (range_of e l3) with (range_of e l2); [by apply Hparts; left|]. symmetry. apply part_same; [apply He|]. intros p Hp. apply Hrest3.
        intros e' He'. destruct (Hd e' He'); lia.
      * rewrite <- (Hsame e') by done. by apply Hparts3.
    + intros p Hp. rewrite Hrest3 by (intros e' He'; apply Hp; by right). apply Hrest. intros e' ->%list_elem_of_singleton. apply Hp. left.
Qed.

(** A part dealt into bins, and these sorted. *)
Lemma after_turn pre E V post l' i new stk :
  0 ≤ i < 2 ^ 31 - 1 → part_ok str tr endch (Z.to_nat i) E → V ≡ₚ E → binned (chr str tr endch (Z.to_nat i)) E V →
  (stable → ∀ c, bin (chr str tr endch (Z.to_nat i)) c V = bin (chr str tr endch (Z.to_nat i)) c E) →
  new ≡ₚ entries str tr endch i (zlen pre) E 0 → stack_ok (pre ++ E ++ post) (mkStack (zlen pre) (zlen E) i :: stk) →
  sorted_parts (pre ++ V ++ post) (new ++ stk) l' → sorted_parts (pre ++ E ++ post) (mkStack (zlen pre) (zlen E) i :: stk) l'.
Proof.
  intros Hi HE HP Hb Hst Hnew [Hall [Hd Hap]] [Hl Hparts Hrest]. apply Forall_cons in Hall as [He Hall]. rewrite Forall_forall in Hall, Hd.
  set (e := mkStack (zlen pre) (zlen E) i) in *. assert (length V = length E) as HlV by by rewrite HP.
  assert (∀ p : nat, Z.of_nat p < zlen pre ∨ zlen pre + zlen E ≤ Z.of_nat p → (pre ++ V ++ post) !! p = (pre ++ E ++ post) !! p) as Hout by (intros p Hp; by apply outside_replace).
  assert (∀ e', e' ∈ stk → range_of e' (pre ++ V ++ post) = range_of e' (pre ++ E ++ post)) as Hsame.
  { intros e' He'. apply part_same; [apply (Hall e' He')|]. intros p Hp. apply Hout. destruct (Hd e' He'); cbn in *; lia. }
  assert (∀ e', e' ∈ new → zlen pre ≤ sa e' ∧ sa e' + sn e' ≤ zlen pre + zlen E) as Hin by (intros e' He'; rewrite Hnew in He'; by eapply children_inside).
  destruct (split_part l' e) as (pre' & post' & El' & Hpre' & HF); [cbn; lia|cbn; lia|rewrite Hl, !length_app; cbn; lia|]. set (F := range_of e l') in *. cbn in Hpre', HF.
  constructor; [rewrite Hl, !length_app; lia| |].
  - intros e' [->|He']%elem_of_cons; [|rewrite <- Hsame by done; apply Hparts; apply elem_of_app; by right].
    rewrite range_replace by done. fold F. apply (resorted_bins str tr endch Htr stable i Hi E HE V F HP Hb Hst); [lia|]. intros c Hc.
    assert (range_of (entry str tr endch i (zlen pre) E c) l' = place (chr str tr endch (Z.to_nat i)) E c F) as EF.
    { rewrite El' at 1. rewrite <- Hpre'. apply (child_part i Hi pre' E post' HE). lia. }
    assert (range_of (entry str tr endch i (zlen pre) E c) (pre ++ V ++ post) = place (chr str tr endch (Z.to_nat i)) E c V) as EV by (by apply child_part).
    destruct (decide (c ≠ endch ∧ 1 < num (chr str tr endch (Z.to_nat i)) c E)) as [Hpush|Hno].
    + rewrite <- EF, <- EV. apply Hparts. apply elem_of_app. left. rewrite Hnew. apply (elem_of_children i Hi). exists c. tauto.
    + replace (place (chr str tr endch (Z.to_nat i)) E c F) with (place (chr str tr endch (Z.to_nat i)) E c V).
      { apply (child_unpushed i Hi E V HE HP Hb); [done|]. destruct (decide (c = endch)); [by left|right]. destruct (decide (1 < num (chr str tr endch (Z.to_nat i)) c E)); [tauto|lia]. }
      rewrite <- EF, <- EV. symmetry. pose proof (child_bounds i Hi E HE c) as Hcb. apply part_same; [cbn; lia|]. cbn. intros p Hp. apply Hrest.
      intros e' [He'|He']%elem_of_app; [|destruct (Hd e' He'); cbn in *; lia]. rewrite Hnew in He'. apply (elem_of_children i Hi) in He' as (d & Hd' & Hde & Hdn & ->).
      cbn. destruct (decide (zlen pre + below (chr str tr endch (Z.to_nat i)) d E ≤ Z.of_nat p)); [|lia]. right.
      destruct (decide (zlen pre + below (chr str tr endch (Z.to_nat i)) d E + num (chr str tr endch (Z.to_nat i)) d E ≤ Z.of_nat p)); [done|]. exfalso.
      assert (c = d) as ->; [|tauto]. apply (bins_disjoint (chr str tr endch (Z.to_nat i)) E (Z.of_nat p - zlen pre)); lia.
  - intros p Hp. rewrite Hrest.
    + apply Hout. apply (Hp e). left.
    + intros e' [He'|He']%elem_of_app; [|apply Hp; by right]. pose proof (Hin e' He'). pose proof (Hp e ltac:(left)) as Hpe. cbn in Hpe. lia.
Qed.

(** What a run of the loop on [stk] gives. *)
Definition result stk s s' : Prop := idle s' ∧ sorted_parts (arr s) stk (arr s') ∧ length (ta s') = length (ta s).

(** The stack, the second array and the size of the array are as they should be. *)
Definition loop_pre stk s : Prop :=
  stack_ok (arr s) stk ∧ zlen (arr s) < 2 ^ 31 ∧ zlen stk ≤ SIZE ∧ (stable → Forall (λ e, sn e ≤ zlen (ta s)) stk).

Definition loops (fuel : nat) : Prop := ∀ stk s,
  idle s → loop_pre stk s → (1 + 2 * sum_list_with (weight (arr s)) stk ≤ fuel)%nat →
  ∃ s', r_sort str tr endch hist bins fuel stk s = Ok (tt, s') ∧ result stk s s'.

Lemma index_bound l e : entry_ok l e → 0 < sn e → 0 ≤ si e < 2 ^ 31 - 1.
Proof.
  intros [H1 H2 [HF _]] Hn. split; [done|]. assert (zlen (range_of e l) = sn e) as Hl by (apply slice_length; lia).
  destruct (range_of e l) as [|x k]; [cbn in Hl; lia|]. apply Forall_cons in HF as [[(_ & _ & Hs) Hi] _].
  pose proof (key_length tr endch (str x)). unfold skey in Hi. lia.
Qed.

Lemma part_turn fuel e stk s :
  loops fuel → hist_ok str tr endch (si e) s (range_of e (arr s)) → loop_pre (e :: stk) s → zlen stk + nc s ≤ SIZE → THRESHOLD ≤ sn e →
  (2 * sum_list_with (weight (arr s)) (e :: stk) ≤ fuel + 1)%nat →
  ∃ s', (stk ← bins (sa e) (sn e) (si e) stk; r_sort str tr endch hist bins fuel stk) s = Ok (tt, s') ∧ result (e :: stk) s s'.
Proof.
  intros IH Hh (Hok & Hlen & Hsz & Hta) Hnc Hn Hf. pose proof Hok as [Hall Hap]. apply Forall_cons in Hall as [He Hall].
  unfold THRESHOLD in Hn. pose proof (index_bound _ _ He ltac:(lia)) as Hi. pose proof He as [Hb _ Hp].
  destruct (split_part (arr s) e) as (pre & post & El & Hpre & HlE); [lia|lia|lia|]. set (E := range_of e (arr s)) in *. clearbody E.
  destruct e as [a n i]. cbn [sa sn si] in *. subst a n. 
  destruct (dealer_bins i E pre post s stk Hi (proj1 Hp) Hh El Hnc) as (V & new & s1 & E1 & Hid & Ha1 & Ht1 & Hnew & HP & Hbin & Hst); [lia|intros Hs; specialize (Hta Hs); by apply Forall_cons in Hta as [? _]|].
  rewrite (bind_Ok _ _ _ _ _ E1).
  assert (∀ e', e' ∈ new → zlen pre ≤ sa e' ∧ sa e' + sn e' ≤ zlen pre + zlen E) as Hin by (intros e' He'; rewrite Hnew in He'; by eapply children_inside).
  pose proof Hap as [Hd Hap']. rewrite Forall_forall in Hd, Hall. rewrite El in *.
  assert (∀ e', e' ∈ stk → range_of e' (pre ++ V ++ post) = range_of e' (pre ++ E ++ post)) as Hsame.
  { intros e' He'. apply part_same; [apply (Hall e' He')|]. intros p Hp'. apply outside_replace; [by rewrite HP|]. destruct (Hd e' He'); cbn in *; lia. }
  assert (length (pre ++ V ++ post) = length (pre ++ E ++ post)) as Hll by (rewrite !length_app, (Permutation_length HP); lia).
  assert (zlen new ≤ nc s) as Hlnew.
  { rewrite (ho_nc _ _ _ _ _ _ Hh), Hnew. unfold entries. rewrite length_fmap, occ_from_0. pose proof (length_filter (λ c, 1 < num (chr str tr endch (Z.to_nat i)) c E) (occupied str tr endch i E)). lia. }
  destruct (IH (new ++ stk) s1 Hid) as (s2 & E2 & Hid2 & Hsp & Ht2).
  - rewrite <- Ha1 in *. split; [|split; [lia|split; [rewrite length_app; lia|]]].
    + split.
      * apply Forall_app. split; apply Forall_forall; intros e' He'; rewrite ?Ha1; [rewrite Hnew in He'; by eapply child_ok|].
        eapply entry_ok_same; [by rewrite <- Ha1|by rewrite <- Ha1; apply Hsame|by apply Hall].
      * apply apart_all_app. split; [eapply apart_all_perm; [by symmetry|]; by apply (children_apart i Hi pre E)|]. split; [done|].
        intros e1 e2 H1 H2. destruct (Hin e1 H1). unfold disj. destruct (Hd e2 H2); cbn in *; lia.
    + intros Hs. specialize (Hta Hs). apply Forall_cons in Hta as [Hta0 Hta]. apply Forall_app. rewrite !Forall_forall in *. split.
      * intros e' He'. destruct (Hin e' He'). cbn in *. assert (0 ≤ sa e') by lia. lia.
      * intros e' He'. rewrite Ht1. auto.
  - rewrite Ha1, sum_list_with_app, Hnew. pose proof (children_weight i Hi pre E V post Hp HP Hbin) as Hw. cbn [sum_list_with] in Hf.
    rewrite (sum_list_with_ext (weight (pre ++ V ++ post)) (weight (pre ++ E ++ post)) stk); [lia|]. intros e' He'. apply part_weight. by rewrite Hsame.
  - exists s2. split; [done|]. split; [done|]. split; [|by rewrite Ht2]. rewrite El. rewrite Ha1 in Hsp. by eapply after_turn.
Qed.

(** The sort of a small part, or of a part in a call for more stack, and then the
    rest of the stack. *)
Lemma then_rest fuel e stk s s1 :
  loops fuel → loop_pre (e :: stk) s → result [e] s s1 → (1 + 2 * sum_list_with (weight (arr s)) stk ≤ fuel)%nat →
  ∃ s', r_sort str tr endch hist bins fuel stk s1 = Ok (tt, s') ∧ result (e :: stk) s s'.
Proof.
  intros IH (Hok & Hlen & Hsz & Hta) (Hid & Hsp & Ht) Hf. destruct (after_first _ _ _ _ Hok Hsp) as (Hok1 & Hw & Hnext).
  destruct (IH stk s1 Hid) as (s2 & E2 & Hid2 & Hsp2 & Ht2).
  - split; [done|]. rewrite (sp_length _ _ _ Hsp). split; [done|]. split; [cbn [length] in Hsz; lia|]. intros Hs. rewrite Ht. specialize (Hta Hs). by apply Forall_cons in Hta as [_ ?].
  - by rewrite Hw.
  - exists s2. split; [done|]. split; [done|]. split; [auto|congruence].
Qed.

Lemma small_run e s :
  idle s → entry_ok (arr s) e → ∃ s1, simplesort str tr endch (sa e) (sn e) (si e) s = Ok (tt, s1) ∧ result [e] s s1.
Proof.
  intros Hid He. pose proof He as [Hb Hi Hp].
  destruct (split_part (arr s) e) as (pre & post & El & Hpre & HlE); [lia|lia|lia|].
  destruct (simplesort_run str tr endch Htr (Z.to_nat (si e)) (si e) (sa e) (sn e) (range_of e (arr s)) pre post s) as (F & E1 & HF & HFs & HFt); [done|done|done|done|done|].
  exists (set_arr (pre ++ F ++ post) s). split; [done|]. split; [done|]. split; [|done]. cbn. assert (length F = length (range_of e (arr s))) as HlF by by rewrite HF.
  constructor.
  - rewrite El at 1. rewrite !length_app. lia.
  - intros e' ->%list_elem_of_singleton. rewrite (range_replace pre F post e) by lia. split; [done|]. split; [done|]. intros _. by apply HFt.
  - intros p Hp'. specialize (Hp' e ltac:(left)). rewrite El at 1. apply outside_replace; [done|lia].
Qed.

(** The loop sorts all parts on its stack. *)
Lemma r_sort_run : ∀ fuel, loops fuel.
Proof.
  induction fuel as [fuel IH] using lt_wf_ind. intros [|e stk] s Hid Hpre Hf.
  { exists s. split; [by destruct fuel|]. split; [done|]. split; [|done]. constructor; [done| |done]. by intros e ?%elem_of_nil. }
  destruct fuel as [|fuel]; [cbn in Hf; lia|]. cbn [sum_list_with] in Hf. assert (1 ≤ weight (arr s) e)%nat as Hw by (unfold weight; lia).
  assert (loops fuel) as IHf by (apply IH; lia). destruct e as [a n i] eqn:Ee. cbn [r_sort]. rewrite <- Ee in *.
  replace a with (sa e) by (by rewrite Ee). replace n with (sn e) by (by rewrite Ee). replace i with (si e) by (by rewrite Ee).
  destruct (Z.ltb_spec (sn e) THRESHOLD) as [Hlt|Hge].
  { destruct (small_run e s Hid) as (s1 & E1 & H1); [destruct Hpre as ([Hall _] & _); by apply Forall_cons in Hall as [? _]|]. rewrite (bind_Ok _ _ _ _ _ E1). eapply then_rest; try done. lia. }
  mrun. rewrite (proj2 Hid), Z.eqb_refl. mrun. pose proof Hpre as ([Hall Hap] & Hlen & Hsz & Hta). apply Forall_cons in Hall as [He _].
  unfold THRESHOLD in Hge. pose proof (index_bound _ _ He ltac:(lia)) as Hi. pose proof He as [Hb _ Hp].
  destruct (split_part (arr s) e) as (pre & post & El & Hp1 & HlE); [lia|lia|lia|].
  destruct (dealer_hist (si e) (range_of e (arr s)) pre post s (proj1 Hi) (proj1 Hp)) as (s1 & E1 & Hh & Ha1 & Ht1); [lia|done|done|].
  replace (Z.to_nat (sn e)) with (length (range_of e (arr s))) by lia. rewrite Hp1 in E1. rewrite (bind_Ok _ _ _ _ _ E1). mrun.
  assert (loop_pre (e :: stk) s1) as Hpre1 by (unfold loop_pre; by rewrite Ha1, Ht1). assert (hist_ok str tr endch (si e) s1 (range_of e (arr s1))) as Hh1 by by rewrite Ha1.
  assert (∀ k s', result k s1 s' → result k s s') as Hres by (unfold result; intros k s'; by rewrite Ha1, Ht1).
  destruct (Z.ltb_spec SIZE (zlen stk + nc s1)) as [Hmore|Hroom].
  - destruct fuel as [|fuel]; [lia|]. assert (loops fuel) as IHf' by (apply IH; lia).
    destruct (part_turn fuel e [] s1 IHf' Hh1) as (s2 & E2 & H2).
    + destruct Hpre1 as ([Ha _] & Hlen1 & _ & Hta1). apply Forall_cons in Ha as [Ha _]. split; [split; [by constructor|by split]|]. split; [done|]. split; [by vm_compute|].
      intros Hs. specialize (Hta1 Hs). apply Forall_cons in Hta1 as [? _]. by constructor.
    + rewrite (ho_nc _ _ _ _ _ _ Hh1). pose proof (occupied_length str tr endch (si e) (range_of e (arr s1))). cbn. unfold SIZE. lia.
    + unfold THRESHOLD. lia.
    + rewrite Ha1. cbn [sum_list_with]. lia.
    + assert (nc s1 ≠ 0) as Hnz by (cbn [length] in Hsz; lia).
      assert (r_sort str tr endch hist bins (S fuel) [e] s1 = Ok (tt, s2)) as E3.
      { assert ([e] = [mkStack (sa e) (sn e) (si e)]) as -> by (clear; by destruct e). cbn [r_sort]. rewrite (proj2 (Z.ltb_ge (sn e) THRESHOLD)) by (unfold THRESHOLD; lia). mrun. rewrite (proj2 (Z.eqb_neq (nc s1) 0)) by done. mrun. exact E2. }
      rewrite (bind_Ok _ _ _ _ _ E3). eapply then_rest; [done|done|by apply Hres|]. lia.
  - destruct (part_turn fuel e stk s1 IHf Hh1 Hpre1) as (s2 & E2 & H2); [lia|unfold THRESHOLD; lia|rewrite Ha1; cbn [sum_list_with]; lia|].
    exists s2. split; [exact E2|by apply Hres].
Qed.
End Loop.

(** * The entry points *)

(** The table that compares bytes by their value, the end of a string before all. *)
Definition default_table (endch : Z) : list Z := (λ c, if c <? endch then c + 1 else if c =? endch then 0 else c) <$> seqZ 0 256.

(** The table in use and its end value; there is none when the end is neither the
    first nor the last value. *)
Definition translation (tab : option (list Z)) (endch : Z) : option (list Z * Z) :=
  match tab with
  | None => Some (default_table endch, 0)
  | Some t => let e := t !!! Z.to_nat endch in if decide (e = 0 ∨ e = 255) then Some (t, e) else None
  end.

Definition tab_ok (tab : option (list Z)) (endch : Z) : Prop :=
  0 ≤ endch ≤ 255 ∧ match tab with None => True | Some t => zlen t = 256 ∧ Forall is_u8 t end.

#[global] Instance tab_ok_dec tab endch : Decision (tab_ok tab endch).
Proof. unfold tab_ok. destruct tab; apply _. Defined.

Lemma default_table_lookup endch b : 0 ≤ b < 256 →
  default_table endch !! Z.to_nat b = Some (if b <? endch then b + 1 else if b =? endch then 0 else b).
Proof. intros Hb. unfold default_table. rewrite list_lookup_fmap, lookup_seqZ_lt by lia. cbn. by rewrite Z2Nat.id by lia. Qed.

Lemma default_table_ok endch : 0 ≤ endch ≤ 255 → table_ok (default_table endch) 0.
Proof.
  intros He. assert (zlen (default_table endch) = 256) as Hl by (unfold default_table; by rewrite length_fmap, length_seqZ). split; [done|]. split; [|by left].
  apply Forall_lookup. intros j c Hj. assert (Z.of_nat j < 256) by (apply lookup_lt_Some in Hj; lia).
  rewrite <- (Nat2Z.id j), default_table_lookup in Hj by lia. injection Hj as <-. unfold is_u8. change (2 ^ 8) with 256.
  destruct (Z.ltb_spec (Z.of_nat j) endch), (Z.eqb_spec (Z.of_nat j) endch); lia.
Qed.

(** Without a table, bytes are compared by their value, the end of the string first. *)
Lemma default_table_order endch b b' : 0 ≤ endch ≤ 255 → is_u8 b → is_u8 b' →
  (default_table endch !!! Z.to_nat b = 0 ↔ b = endch) ∧
  (b ≠ endch → b' ≠ endch → (default_table endch !!! Z.to_nat b < default_table endch !!! Z.to_nat b' ↔ b < b')).
Proof.
  intros He Hb Hb'. unfold is_u8 in *. rewrite (list_lookup_total_correct _ _ _ (default_table_lookup endch b Hb)), (list_lookup_total_correct _ _ _ (default_table_lookup endch b' Hb')).
  destruct (Z.ltb_spec b endch), (Z.eqb_spec b endch), (Z.ltb_spec b' endch), (Z.eqb_spec b' endch); lia.
Qed.

Lemma SETUP_run tab endch : tab_ok tab endch →
  SETUP tab endch = Ok (match translation tab endch with Some t => inr t | None => inl EINVAL end) ∧
  ∀ tr e, translation tab endch = Some (tr, e) → table_ok tr e.
Proof.
  intros [He Ht]. unfold SETUP, translation. destruct tab as [t|].
  - destruct Ht as [Hl Hf]. rewrite (get_Ok t endch (t !!! Z.to_nat endch)); [|lia|by apply list_lookup_lookup_total_lt; lia]. cbn [mbind outcome_bind].
    set (e := t !!! Z.to_nat endch). destruct (Z.eqb_spec e 0) as [E0|N0], (Z.eqb_spec e 255) as [E1|N1]; cbn; try lia.
    all: first [rewrite decide_True by tauto|rewrite decide_False by tauto]; split; [done|]; intros tr e' [= <- <-]; split; try done; split; try done; tauto.
  - rewrite (proj2 (Z.ltb_ge 255 endch)) by lia. split; [done|]. intros tr e [= <- <-]. by apply default_table_ok.
Qed.

Section Entry.
Context {A : Type} (str : A → list Z).
Implicit Types (s : @radix A) (l : list A).

(** The first [n] elements sorted, the others as they were, the static variables at
    rest. *)
Definition sorts_to (stable : Prop) (n : Z) (tr : list Z) (e : Z) s s' : Prop :=
  ∃ F, arr s' = F ++ drop (Z.to_nat n) (arr s) ∧ F ≡ₚ take (Z.to_nat n) (arr s) ∧ sorted (scmp str tr e) F ∧
    (stable → stably (scmp str tr e) (take (Z.to_nat n) (arr s)) F) ∧ idle s'.

Lemma first_part tr e n s :
  0 ≤ n ≤ zlen (arr s) → Forall (λ p, string_ok tr e (str p)) (take (Z.to_nat n) (arr s)) →
  stack_ok str tr e (arr s) [mkStack 0 n 0] ∧ (1 + 2 * sum_list_with (weight str tr e (arr s)) [mkStack 0 n 0] ≤ sort_fuel str (arr s))%nat.
Proof.
  intros Hn Hall. split.
  - split; [|by split]. constructor; [|done]. constructor; [cbn; lia|done|]. unfold range_of. cbn [sa sn si]. rewrite slice_0. split; [|done].
    eapply Forall_impl; [exact Hall|]. intros x Hx. split; [done|]. by apply key_nonempty.
  - cbn [sum_list_with]. unfold weight, sort_fuel, range_of. cbn [sa sn si]. rewrite slice_0. rewrite Z2Nat.inj_0.
    assert (∀ l : list A, (sum_list_with (λ x, length (skey str tr e x) - 0) l ≤ sum_list ((λ p, length (str p)) <$> l))%nat) as H1.
    { induction l as [|x l IH]; [done|]. cbn in *. pose proof (key_length tr e (str x)). unfold skey in *. lia. }
    assert (∀ (m : nat) (l : list A), (sum_list ((λ p, length (str p)) <$> take m l) ≤ sum_list ((λ p, length (str p)) <$> l))%nat) as H2.
    { induction m as [|m IH]; intros [|x l]; cbn; try lia. specialize (IH l). cbn in IH. lia. }
    pose proof (H1 (take (Z.to_nat n) (arr s))). pose proof (H2 (Z.to_nat n) (arr s)). lia.
Qed.

Lemma sorted_whole stable tr e n s s' :
  0 ≤ n ≤ zlen (arr s) → result str tr e stable [mkStack 0 n 0] s s' → sorts_to stable n tr e s s'.
Proof.
  intros Hn (Hid & [Hl Hp Hr] & _). destruct (Hp (mkStack 0 n 0)) as (H1 & H2 & H3); [left|]. unfold range_of in *. cbn [sa sn] in *. rewrite !slice_0 in *.
  exists (take (Z.to_nat n) (arr s')). split; [|done]. rewrite <- (take_drop (Z.to_nat n) (arr s')) at 1. f_equal. apply list_eq. intros j. rewrite !lookup_drop.
  apply Hr. intros e' ->%list_elem_of_singleton. right. cbn. lia.
Qed.

(** C31. radixsort: for a table whose end value is neither 0 nor 255 it returns -1 with
    EINVAL and changes nothing.  Otherwise it returns 0, for any number of terminated
    strings, and leaves the first n elements in the order of their translated bytes
    up to the end of the string, the other elements where they were and the static
    histogram cleared for the next call; it ends within its fuel, never overruns the
    stack of 512 parts and reads no string past its end. *)
Theorem radixsort_sorts (s : @radix A) n tab endch :
  tab_ok tab endch → idle s → 0 ≤ n ≤ zlen (arr s) → zlen (arr s) < 2 ^ 31 →
  match translation tab endch with
  | None => radixsort str n tab endch s = Ok ((-1, Some EINVAL), s)
  | Some (tr, e) =>
      Forall (λ p, string_ok tr e (str p)) (take (Z.to_nat n) (arr s)) →
      ∃ s', radixsort str n tab endch s = Ok ((0, None), s') ∧ sorts_to False n tr e s s'
  end.
Proof.
  intros Htab Hid Hn Hl. unfold radixsort. destruct (SETUP_run tab endch Htab) as [-> Hok]. mrun. destruct (translation tab endch) as [[tr e]|]; [|done].
  intros Hs. mrun. specialize (Hok tr e eq_refl). destruct (first_part tr e n s Hn Hs) as [H1 H2].
  destruct (r_sort_run str tr e Hok False _ _ (dealer_a str tr e Hok) (sort_fuel str (arr s)) [mkStack 0 n 0] s Hid) as (s' & E & HR);
    [split; [done|]; split; [done|]; split; [by vm_compute|done]|done|].
  unfold r_sort_a. rewrite (bind_Ok _ _ _ _ _ E). mrun. exists s'. split; [done|]. by apply sorted_whole.
Qed.

(** C30. sradixsort: as radixsort, and stable: elements with equal keys keep their
    order.  From 20 elements on it needs a second array; when malloc gives none it
    returns -1 and changes nothing. *)
Theorem sradixsort_stable (s : @radix A) n tab endch mem :
  tab_ok tab endch → idle s → 0 ≤ n ≤ zlen (arr s) → zlen (arr s) < 2 ^ 31 → (∀ m, mem = Some m → n ≤ zlen m) →
  match translation tab endch with
  | None => sradixsort str n tab endch mem s = Ok ((-1, Some EINVAL), s)
  | Some (tr, e) =>
      Forall (λ p, string_ok tr e (str p)) (take (Z.to_nat n) (arr s)) →
      if decide (mem = None ∧ 20 ≤ n) then sradixsort str n tab endch mem s = Ok ((-1, None), s)
      else ∃ s', sradixsort str n tab endch mem s = Ok ((0, None), s') ∧ sorts_to True n tr e s s'
  end.
Proof.
  intros Htab Hid Hn Hl Hmem. unfold sradixsort. destruct (SETUP_run tab endch Htab) as [-> Hok]. mrun. destruct (translation tab endch) as [[tr e]|]; [|done].
  intros Hs. specialize (Hok tr e eq_refl). destruct (first_part tr e n s Hn Hs) as [H1 H2]. unfold THRESHOLD.
  destruct (Z.ltb_spec n 20) as [Hlt|Hge].
  - rewrite decide_False by lia. destruct (small_run str tr e Hok True (mkStack 0 n 0) s Hid) as (s' & E & HR); [destruct H1 as [Hall _]; by apply Forall_cons in Hall as [? _]|].
    cbn [sa sn si] in E. rewrite (bind_Ok _ _ _ _ _ E). mrun. exists s'. split; [done|]. by apply sorted_whole.
  - destruct mem as [m|]; [rewrite decide_False by (by intros [? _])|by rewrite decide_True by done]. mrun.
    destruct (r_sort_run str tr e Hok True _ _ (dealer_b str tr e Hok) (sort_fuel str (arr s)) [mkStack 0 n 0] (set_ta m s) Hid) as (s' & E & HR);
      [split; [done|]; split; [done|]; split; [by vm_compute|]; intros _; constructor; [by apply Hmem|done]|done|].
    unfold r_sort_b. cbn [arr set_ta]. rewrite (bind_Ok _ _ _ _ _ E). mrun. exists s'. split; [done|]. by apply (sorted_whole True tr e n (set_ta m s)).
Qed.
End Entry.

(** The static variables of a program that starts. *)
Lemma idle_start {A} (l t : list A) b : idle (mkRadix l t (replicate 256 0) 0 b).
Proof. split; [|done]. split; [done|]. intros c Hc. cbn [count]. apply lookup_replicate_2. lia. Qed.

(** Forty strings of three letters. *)
Definition example_strings : list (list Z) := (λ k, [97 + (k * 7) mod 5; 97 + (k * k) mod 7; 97 + (k * 3) mod 4; 0]) <$> seqZ 0 40.
Definition example_radix : @radix (list Z) := mkRadix example_strings [] (replicate 256 0) 0 0.

Lemma radixsort_sorts_witness :
  ∃ s', radixsort id 38 None 0 example_radix = Ok ((0, None), s') ∧ sorts_to id False 38 (default_table 0) 0 example_radix s'.
Proof.
  apply (radixsort_sorts id example_radix 38 None 0); [by split|apply idle_start|done|done|]. apply (bool_decide_unpack _). by vm_compute.
Defined.

Lemma sradixsort_stable_witness :
  ∃ s', sradixsort id 40 (Some (reverse (seqZ 0 256))) 0 (Some example_strings) example_radix = Ok ((0, None), s') ∧
    sorts_to id True 40 (reverse (seqZ 0 256)) 255 example_radix s'.
Proof.
  apply (sradixsort_stable id example_radix 40 (Some (reverse (seqZ 0 256))) 0 (Some example_strings));
    [by apply (bool_decide_unpack _); vm_compute|apply idle_start|done|done|by intros m [= <-]|].
  apply (bool_decide_unpack _). by vm_compute.
Defined.
