(* ===== verification/Random.v ===== *)
(** src/system/libroot/posix/stdlib/random.c: the random number generators.

    A generator lives in an array of the caller's: a header word, then the words
    of its state.  The static variables point into the array of the current one;
    [initstate] and [setstate] switch, after saving the position of the rear
    pointer in the header of the array that is left.

    The model has the memory as words by word address and the static variables as
    a record; a read or write outside allocated memory is [Bad OutOfBounds].  The
    theorem is a refinement: the arrays are independent generators, each the
    recurrence of its trinomial. *)

From S2P Require Import Prelude.

(** * The model *)

Definition TYPE_0 : Z := 0.
Definition BREAK_0 : Z := 8.
Definition BREAK_1 : Z := 32.
Definition BREAK_2 : Z := 64.
Definition BREAK_3 : Z := 128.
Definition BREAK_4 : Z := 256.
Definition MAX_TYPES : Z := 5.
Definition NSHUFF : nat := 50.

(** The tables of the degrees and separations of the trinomials. *)
Definition degrees (type : Z) : Z := [0; 7; 15; 31; 63] !!! Z.to_nat type.
Definition seps (type : Z) : Z := [0; 3; 1; 3; 1] !!! Z.to_nat type.

Definition randtbl : list Z :=
  [3;
   0x2cf41758; 0x27bb3711; 0x4916d4d1; 0x7b02f59f; 0x9b8e28eb; 0xc0e80269;
   0x696f5c16; 0x878f1ff5; 0x52d9c07f; 0x916a06cd; 0xb50b3a20; 0x2776970a;
   0xee4eb2a6; 0xe94640ec; 0xb1d65612; 0x9d1ed968; 0x1043f6b7; 0xa3432a76;
   0x17eacbb9; 0x3c09e2eb; 0x4f8c2b3; 0x708a1f57; 0xee341814; 0x95d0e4d2;
   0xb06f216c; 0x8bd2e72e; 0x8f7c38d7; 0xcfc6a8fc; 0x2a59495; 0xa20d2a69;
   0xe29d12d1].

(** The static variables and the memory they point into. *)
Record rand_state := mkRand {
  memory : gmap Z Z;
  fptr : Z;
  rptr : Z;
  state : Z;
  rand_type : Z;
  rand_deg : Z;
  rand_sep : Z;
  end_ptr : Z
}.

(** The words [l] at address [p] of a memory. *)
Fixpoint put_words (p : Z) (l : list Z) (m : gmap Z Z) : gmap Z Z :=
  match l with [] => m | x :: l => <[p := x]> (put_words (p + 1) l m) end.

(** The state a program starts with: the table at address [tbl]. *)
Definition rand_start (tbl : Z) (m : gmap Z Z) : rand_state :=
  mkRand (put_words tbl randtbl m) (tbl + 3 + 1) (tbl + 1) (tbl + 1) 3 31 3 (tbl + 31 + 1).

Definition load (p : Z) : M rand_state Z := λ s,
  match memory s !! p with Some w => Ok (w, s) | None => Bad OutOfBounds end.

Definition set_memory (m : gmap Z Z) (s : rand_state) : rand_state :=
  mkRand m (fptr s) (rptr s) (state s) (rand_type s) (rand_deg s) (rand_sep s) (end_ptr s).

Definition set_ptrs (f r : Z) (s : rand_state) : rand_state :=
  mkRand (memory s) f r (state s) (rand_type s) (rand_deg s) (rand_sep s) (end_ptr s).

(** The assignments to the type, the degree, the separation, [state] and [end_ptr]. *)
Definition set_generator (type deg sep st : Z) (s : rand_state) : rand_state :=
  mkRand (memory s) (fptr s) (rptr s) st type deg sep (st + deg).

Definition store (p w : Z) : M rand_state unit := λ s,
  match memory s !! p with
  | Some _ => Ok (tt, set_memory (<[p := w]> (memory s)) s)
  | None => Bad OutOfBounds
  end.

(** [x] is an [int32_t]; [ctx % 0x7ffffffe] is unsigned. *)
Definition good_rand (ctx : Z) : Z :=
  let x := s32 (u32 (ctx mod 0x7ffffffe + 1)) in
  let hi := Z.quot x 127773 in
  let lo := Z.rem x 127773 in
  let x := s32 (s32 (16807 * lo) - s32 (2836 * hi)) in
  let x := if x <? 0 then s32 (x + 0x7fffffff) else x in
  u32 (s32 (x - 1)).

Definition random : M rand_state Z :=
  s ← getS;
  if rand_type s =? TYPE_0 then
    i ← load (state s);
    store (state s) (good_rand i);;
    mret (s32 (good_rand i))
  else
    let f := fptr s in
    let r := rptr s in
    a ← load f;
    b ← load r;
    store f (u32 (a + b));;
    c ← load f;
    let i := Z.shiftr c 1 in
    modifyS (if end_ptr s <=? f + 1 then set_ptrs (state s) (r + 1)
             else if end_ptr s <=? r + 1 then set_ptrs (f + 1) (state s)
             else set_ptrs (f + 1) (r + 1));;
    mret (s32 i).

(** [n] turns of the loop that fills the state, from index [i]. *)
Fixpoint fill (n : nat) (i : Z) : M rand_state unit :=
  match n with
  | O => mret tt
  | S n =>
      s ← getS;
      w ← load (state s + (i - 1));
      store (state s + i) (good_rand w);;
      fill n (i + 1)
  end.

(** [n] calls of [random] whose results are not used. *)
Fixpoint discard (n : nat) : M rand_state unit :=
  match n with O => mret tt | S n => random;; discard n end.

Definition srandom (x : Z) : M rand_state unit :=
  s ← getS;
  store (state s) (u32 x);;
  if rand_type s =? TYPE_0 then discard NSHUFF
  else
    fill (Z.to_nat (rand_deg s - 1)) 1;;
    modifyS (set_ptrs (state s + rand_sep s) (state s));;
    discard (Z.to_nat (10 * rand_deg s)).

(** The header word: the type, multiplexed with the position of the rear pointer. *)
Definition header_word (s : rand_state) : Z :=
  if rand_type s =? TYPE_0 then rand_type s
  else u32 (MAX_TYPES * (rptr s - state s) + rand_type s).

(** The pointer [NULL] is [None]. *)
Definition initstate (seed arg_state n : Z) : M rand_state (option Z) :=
  s ← getS;
  let ostate := state s - 1 in
  if n <? BREAK_0 then mret None
  else
    store ostate (header_word s);;
    modifyS
      (if n <? BREAK_1 then set_generator 0 0 0 (arg_state + 1)
       else if n <? BREAK_2 then set_generator 1 7 3 (arg_state + 1)
       else if n <? BREAK_3 then set_generator 2 15 1 (arg_state + 1)
       else if n <? BREAK_4 then set_generator 3 31 3 (arg_state + 1)
       else set_generator 4 63 1 (arg_state + 1));;
    srandom seed;;
    s ← getS;
    store arg_state (header_word s);;
    mret (Some ostate).

Definition setstate (arg_state : Z) : M rand_state (option Z) :=
  w ← load arg_state;
  let type := w mod MAX_TYPES in
  let rear := w / MAX_TYPES in
  s ← getS;
  let ostate := state s - 1 in
  if negb (type =? TYPE_0) && (degrees type <=? rear) then mret None
  else
    store ostate (header_word s);;
    modifyS (set_generator type (degrees type) (seps type) (arg_state + 1));;
    s ← getS;
    (if negb (type =? TYPE_0)
     then modifyS (set_ptrs (state s + u32 (rear + rand_sep s) mod rand_deg s) (state s + rear))
     else mret tt);;
    mret (Some ostate).

(** * What the library promises

    A generator is the linear congruential one, or the last [degrees t] words of the
    sequence [o n = o (n - degrees t) + o (n - seps t)], oldest first, with its position:
    how many numbers were drawn since it was seeded, modulo the degree. *)

Inductive generator :=
  | Linear (x : Z)
  | Additive (t pos : Z) (w : list Z).

(** Park and Miller's generator, on 0 ... 2^31 - 3. *)
Definition park_miller (x : Z) : Z := (16807 * (x mod (2 ^ 31 - 2) + 1)) mod (2 ^ 31 - 1) - 1.

Definition next (g : generator) : Z * generator :=
  match g with
  | Linear x => (park_miller x, Linear (park_miller x))
  | Additive t pos w =>
      let o := (w !!! 0%nat + w !!! Z.to_nat (degrees t - seps t)) mod 2 ^ 32 in
      (o / 2, Additive t ((pos + 1) mod degrees t) (drop 1 w ++ [o]))
  end.

Definition advance (n : nat) (g : generator) : generator := Nat.iter n (λ g, snd (next g)) g.

Definition type_of (g : generator) : Z := match g with Linear _ => 0 | Additive t _ _ => t end.
Definition pos_of (g : generator) : Z := match g with Linear _ => 0 | Additive _ pos _ => pos end.

(** The words as they are, but the next number is drawn as if from another position. *)
Definition rewound (pos : Z) (g : generator) : generator :=
  match g with
  | Linear x => Linear x
  | Additive t pos' w => let k := Z.to_nat ((pos - pos') mod degrees t) in Additive t pos (drop k w ++ take k w)
  end.

(** A seed and what the linear generator makes of it; the oldest word is the one
    the front pointer starts at.  Numbers are drawn before the first one that is given
    out, fifty of them from the linear generator. *)
Definition seeds (x : Z) (n : nat) : list Z := (λ i, Nat.iter i park_miller x) <$> seq 0 n.

Definition seeded (t x : Z) : generator :=
  if decide (t = 0) then advance 50 (Linear x)
  else
    let l := seeds x (Z.to_nat (degrees t)) in
    let k := Z.to_nat (seps t) in
    advance (Z.to_nat (10 * degrees t)) (Additive t 0 (drop k l ++ take k l)).

(** The largest type an array of [n] bytes has room for. *)
Definition type_for (n : Z) : Z :=
  if n <? 32 then 0 else if n <? 64 then 1 else if n <? 128 then 2 else if n <? 256 then 3 else 4.

(** The words of the array of a generator. *)
Definition extent (t : Z) : Z := 1 + Z.max 1 (degrees t).

(** The generators by the address of their arrays, the current one, and the position it
    had when it became that. *)
Record generators := mkGens { gens : gmap Z generator; cur : Z; since : Z }.

Inductive request :=
  | Random
  | Srandom (x : Z)
  | Initstate (seed a n : Z)
  | Setstate (a : Z).

Inductive answer :=
  | Number (i : Z)
  | Nothing
  | Pointer (p : option Z).

Definition serve (r : request) (S : generators) : answer * generators :=
  match r with
  | Random =>
      match gens S !! cur S with
      | Some g => let '(i, g') := next g in (Number i, mkGens (<[cur S := g']> (gens S)) (cur S) (since S))
      | None => (Nothing, S)
      end
  | Srandom x =>
      match gens S !! cur S with
      | Some g => (Nothing, mkGens (<[cur S := seeded (type_of g) x]> (gens S)) (cur S) (since S))
      | None => (Nothing, S)
      end
  | Initstate seed a n =>
      if n <? 8 then (Pointer None, S)
      else (Pointer (Some (cur S)), mkGens (<[a := seeded (type_for n) seed]> (gens S)) a (pos_of (seeded (type_for n) seed)))
  | Setstate a =>
      match gens S !! a with
      | Some g =>
          (Pointer (Some (cur S)),
           if decide (a = cur S) then mkGens (<[a := rewound (since S) g]> (gens S)) a (pos_of g)
           else mkGens (gens S) a (pos_of g))
      | None => (Nothing, S)
      end
  end.

Fixpoint serve_all (rs : list request) (S : generators) : list answer * generators :=
  match rs with
  | [] => ([], S)
  | r :: rs => let '(a, S1) := serve r S in let '(l, S2) := serve_all rs S1 in (a :: l, S2)
  end.

Definition perform (r : request) : M rand_state answer :=
  match r with
  | Random => i ← random; mret (Number i)
  | Srandom x => srandom x;; mret Nothing
  | Initstate seed a n => p ← initstate seed a n; mret (Pointer p)
  | Setstate a => p ← setstate a; mret (Pointer p)
  end.

Fixpoint perform_all (rs : list request) : M rand_state (list answer) :=
  match rs with
  | [] => mret []
  | r :: rs => a ← perform r; l ← perform_all rs; mret (a :: l)
  end.

(** * The linear generator *)

(** [16807 * x] is computed without leaving 32 bits: with [q = 127773] and [r = 2836],
    [2^31 - 1] is [16807 * q + r]. *)
Lemma schrage x : 0 < x < 2 ^ 31 - 1 →
  let y := 16807 * (x mod 127773) - 2836 * (x / 127773) in
  - (2 ^ 31 - 1) < y < 2 ^ 31 - 1 ∧ y ≠ 0 ∧ (16807 * x) mod (2 ^ 31 - 1) = if y <? 0 then y + (2 ^ 31 - 1) else y.
Proof.
  intros Hx y. assert (0 ≤ x mod 127773 < 127773) as Hlo by (apply Z.mod_pos_bound; lia).
  assert (0 ≤ x / 127773 ≤ 16807) as Hhi by div_mod_lia.
  assert (16807 * x = y + (x / 127773) * (2 ^ 31 - 1)) as E by (subst y; pose proof (Z.div_mod x 127773 ltac:(done)); lia).
  assert (- (2 ^ 31 - 1) < y < 2 ^ 31 - 1) as Hy by (subst y; lia). split; [done|].
  assert (y ≠ 0) as Hy0.
  { intros Hy0. assert (2 ^ 31 - 1 | x) as [k Hk]; [|nia].
    apply (Z.gauss _ 16807); [exists (x / 127773); lia|by vm_compute]. }
  split; [done|]. rewrite E, Z_mod_plus_full. destruct (Z.ltb_spec y 0).
  - rewrite <- (Z_mod_plus_full y 1). apply Z.mod_small. lia.
  - apply Z.mod_small. lia.
Qed.

Lemma park_miller_range x : 0 ≤ park_miller x < 2 ^ 31 - 2.
Proof.
  unfold park_miller. pose proof (Z.mod_pos_bound x (2 ^ 31 - 2) ltac:(done)).
  destruct (schrage (x mod (2 ^ 31 - 2) + 1)) as (H1 & H2 & ->); [lia|]. destruct (Z.ltb_spec (16807 * ((x mod (2 ^ 31 - 2) + 1) mod 127773) - 2836 * ((x mod (2 ^ 31 - 2) + 1) / 127773)) 0); lia.
Qed.

Lemma good_rand_park_miller ctx : good_rand ctx = park_miller ctx.
Proof.
  unfold good_rand, park_miller. change 0x7ffffffe with (2 ^ 31 - 2). change 0x7fffffff with (2 ^ 31 - 1).
  pose proof (Z.mod_pos_bound ctx (2 ^ 31 - 2) ltac:(done)) as Hc. set (x := ctx mod (2 ^ 31 - 2) + 1).
  assert (0 < x < 2 ^ 31 - 1) as Hx by lia. destruct (schrage x Hx) as (H1 & H2 & E).
  assert (0 ≤ x mod 127773 < 127773) as Hlo by (apply Z.mod_pos_bound; lia).
  assert (0 ≤ x / 127773 ≤ 16807) as Hhi by div_mod_lia.
  rewrite (u32_id x), (s32_id x) by (unfold is_u32, is_s32; lia). rewrite Z.quot_div_nonneg, Z.rem_mod_nonneg by lia.
  rewrite !(s32_id (_ * _)) by (unfold is_s32; lia). rewrite (s32_id (_ - 2836 * _)) by (unfold is_s32; lia). rewrite E.
  destruct (Z.ltb_spec (16807 * (x mod 127773) - 2836 * (x / 127773)) 0).
  - rewrite (s32_id (_ + _)), s32_id, u32_id by (unfold is_u32, is_s32; lia). done.
  - rewrite s32_id, u32_id by (unfold is_u32, is_s32; lia). done.
Qed.

(** * Generators in memory *)

(** The requests a program may make: arrays it owns (words of [m]), which overlap no
    other generator's, and only generators that were initialised are set. *)
Definition permitted (m : gmap Z Z) (r : request) (S : generators) : Prop :=
  match r with
  | Random => True
  | Srandom x => is_u32 x
  | Initstate seed a n =>
      is_u32 seed ∧ Forall (λ p, is_Some (m !! p)) (seqZ a (n / 4)) ∧
      map_Forall (λ b g, b = a ∨ a + n / 4 ≤ b ∨ b + extent (type_of g) ≤ a) (gens S)
  | Setstate a => is_Some (gens S !! a)
  end.

Fixpoint permitted_all (m : gmap Z Z) (rs : list request) (S : generators) : Prop :=
  match rs with
  | [] => True
  | r :: rs => permitted m r S ∧ permitted_all m rs (snd (serve r S))
  end.

#[global] Instance permitted_dec m r S : Decision (permitted m r S).
Proof. destruct r; cbn; unfold is_u32; apply _. Defined.

#[global] Instance permitted_all_dec m rs S : Decision (permitted_all m rs S).
Proof. revert S. induction rs; intros; cbn; apply _. Defined.

(** Where the front pointer is, for a rear pointer at [rear]. *)
Definition front (t rear : Z) : Z := (rear + seps t) mod degrees t.

(** The array at [a] has generator [g], its rear pointer at [rear]; its words apart
    from the header. *)
Definition gen_at (m : gmap Z Z) (a rear : Z) (g : generator) : Prop :=
  match g with
  | Linear x => m !! (a + 1) = Some x
  | Additive t pos w =>
      rear = pos ∧ 1 ≤ t ≤ 4 ∧ 0 ≤ rear < degrees t ∧ zlen w = degrees t ∧
      ∀ j, 0 ≤ j < degrees t → m !! (a + 1 + (front t rear + j) mod degrees t) = w !! Z.to_nat j
  end.

Definition header (rear : Z) (g : generator) : Z := if type_of g =? 0 then 0 else 5 * rear + type_of g.

(** The static variables are those of the generator [g] at [a]. *)
Record current (s : rand_state) (a rear : Z) (g : generator) : Prop := {
  cu_state : state s = a + 1;
  cu_type : rand_type s = type_of g;
  cu_deg : rand_deg s = degrees (type_of g);
  cu_sep : rand_sep s = seps (type_of g);
  cu_end : end_ptr s = a + 1 + degrees (type_of g);
  cu_ptrs : type_of g ≠ 0 → rptr s = a + 1 + rear ∧ fptr s = a + 1 + front (type_of g) rear;
  cu_head : is_Some (memory s !! a);
  cu_at : gen_at (memory s) a rear g
}.

(** A generator that is not the current one: its header says where it was. *)
Definition stored (m : gmap Z Z) (a : Z) (g : generator) : Prop :=
  ∃ rear, m !! a = Some (header rear g) ∧ gen_at m a rear g.

Definition apart (G : gmap Z generator) : Prop :=
  ∀ a b g g', G !! a = Some g → G !! b = Some g' → a < b → a + extent (type_of g) ≤ b.

(** The memory and the static variables hold the generators [S]; the program's own
    words are those of [m]. *)
Record holds_gens (m : gmap Z Z) (s : rand_state) (S : generators) : Prop := {
  hg_owned : ∀ p, is_Some (m !! p) → is_Some (memory s !! p);
  hg_apart : apart (gens S);
  hg_current : ∃ g rear, gens S !! cur S = Some g ∧ current s (cur S) rear g ∧
    memory s !! cur S = Some (header (since S) g) ∧ (type_of g ≠ 0 → 0 ≤ since S < degrees (type_of g));
  hg_stored : ∀ a g, a ≠ cur S → gens S !! a = Some g → stored (memory s) a g
}.

(** [m'] differs from [m] at most inside the words [a, a + k). *)
Definition only (m m' : gmap Z Z) (a k : Z) : Prop :=
  (∀ p, p < a ∨ a + k ≤ p → m' !! p = m !! p) ∧ ∀ p, is_Some (m !! p) → is_Some (m' !! p).

Lemma only_refl m a k : only m m a k.
Proof. done. Qed.

Lemma only_trans m m1 m2 a k : only m m1 a k → only m1 m2 a k → only m m2 a k.
Proof. intros [H1 H2] [H3 H4]. split; [intros p Hp; by rewrite H3, H1|auto]. Qed.

Lemma only_insert m a k p w : a ≤ p < a + k → only m (<[p := w]> m) a k.
Proof.
  intros Hp. split; [intros q Hq; apply lookup_insert_ne; lia|]. intros q Hq.
  destruct (decide (p = q)) as [->|]; [rewrite lookup_insert_eq; eauto|by rewrite lookup_insert_ne].
Qed.

Lemma degrees_cases t : 0 ≤ t ≤ 4 →
  t = 0 ∧ degrees t = 0 ∧ seps t = 0 ∨ 1 ≤ t ∧ 7 ≤ degrees t ≤ 63 ∧ 1 ≤ seps t ≤ 3.
Proof.
  intros Ht. assert (t = 0 ∨ t = 1 ∨ t = 2 ∨ t = 3 ∨ t = 4) as [->|[->|[->|[->| ->]]]] by lia; unfold degrees, seps; simpl; lia.
Qed.

Lemma degrees_pos t : 1 ≤ t ≤ 4 → 7 ≤ degrees t ≤ 63 ∧ 1 ≤ seps t ≤ 3.
Proof. intros Ht. destruct (degrees_cases t); lia. Qed.

Lemma gen_at_only m m' a rear g b k :
  gen_at m a rear g → only m m' b k → b + k ≤ a + 1 ∨ a + extent (type_of g) ≤ b → gen_at m' a rear g.
Proof.
  intros Hg [Ho _] Hd. unfold extent in Hd. destruct g as [x|t pos w]; cbn in *.
  - rewrite Ho; [done|]. change (degrees 0) with 0 in Hd. lia.
  - destruct Hg as (Ep & Ht & Hr & Hw & Hj). destruct (degrees_pos t Ht) as [Hdeg Hsep].
    split; [done|]. split; [done|]. split; [done|]. split; [done|]. intros j Hj'. rewrite Ho; [by apply Hj|].
    pose proof (Z.mod_pos_bound (front t rear + j) (degrees t) ltac:(lia)). lia.
Qed.

Lemma gen_at_pos m a rear g : gen_at m a rear g → type_of g ≠ 0 → rear = pos_of g ∧ 1 ≤ type_of g ≤ 4 ∧ 0 ≤ rear < degrees (type_of g).
Proof. destruct g as [x|t pos w]; [done|]. by intros (-> & Ht & Hr & _) _. Qed.

Lemma stored_only m m' a g b k :
  stored m a g → only m m' b k → b + k ≤ a ∨ a + extent (type_of g) ≤ b → stored m' a g.
Proof.
  intros (rear & Hh & Hg) Ho Hd. exists rear. split; [|by eapply gen_at_only; eauto; lia].
  destruct Ho as [Ho _]. rewrite Ho; [done|]. unfold extent in Hd. lia.
Qed.

Lemma wrap_once x d : 0 ≤ x < 2 * d → x mod d = if x <? d then x else x - d.
Proof.
  intros Hx. destruct (Z.ltb_spec x d); [by apply Z.mod_small; lia|].
  rewrite <- (Z_mod_plus_full x (-1)). rewrite Z.mod_small; lia.
Qed.

Lemma load_word s p w : memory s !! p = Some w → load p s = Ok (w, s).
Proof. intros H. unfold load. by rewrite H. Qed.

Lemma store_word s p w : is_Some (memory s !! p) → store p w s = Ok (tt, set_memory (<[p := w]> (memory s)) s).
Proof. intros [v H]. unfold store. by rewrite H. Qed.

(** One step of an additive generator: the word the front pointer is at is replaced,
    and becomes the newest. *)
Lemma gen_at_step m a rear t pos w o :
  gen_at m a rear (Additive t pos w) →
  gen_at (<[a + 1 + front t rear := o]> m) a (if rear + 1 <? degrees t then rear + 1 else 0) (Additive t ((pos + 1) mod degrees t) (drop 1 w ++ [o])).
Proof.
  intros (<- & Ht & Hr & Hw & Hj). destruct (degrees_pos t Ht) as [Hd Hs].
  split; [rewrite wrap_once by lia; repeat case_match; rewrite ?Z.ltb_lt, ?Z.ltb_ge in *; lia|]. split; [done|].
  split; [destruct (Z.ltb_spec (rear + 1) (degrees t)); lia|]. split; [rewrite length_app, length_drop; cbn; lia|].
  intros j Hj'. set (rear' := if rear + 1 <? degrees t then rear + 1 else 0).
  assert ((front t rear' + j) mod degrees t = if j =? degrees t - 1 then front t rear else (front t rear + (j + 1)) mod degrees t) as ->.
  { unfold front, rear'. destruct (Z.ltb_spec (rear + 1) (degrees t)), (Z.eqb_spec j (degrees t - 1));
    rewrite !(wrap_once (_ + seps t)) by lia; repeat case_match; rewrite ?Z.ltb_lt, ?Z.ltb_ge in *; try lia;
    rewrite ?wrap_once by lia; repeat case_match; rewrite ?Z.ltb_lt, ?Z.ltb_ge in *; lia. }
  assert (0 ≤ front t rear < degrees t) as Hf by (apply Z.mod_pos_bound; lia).
  destruct (Z.eqb_spec j (degrees t - 1)) as [->|Hne].
  - rewrite lookup_insert_eq, lookup_app_r by (rewrite length_drop; lia). rewrite length_drop.
    replace (Z.to_nat (degrees t - 1) - (length w - 1))%nat with 0%nat by lia. done.
  - rewrite lookup_insert_ne.
    + rewrite Hj by lia. rewrite lookup_app_l by (rewrite length_drop; lia). rewrite lookup_drop. f_equal. lia.
    + rewrite wrap_once by lia. repeat case_match; lia.
Qed.

Lemma gen_at_reads m a rear t pos w :
  gen_at m a rear (Additive t pos w) →
  m !! (a + 1 + front t rear) = Some (w !!! 0%nat) ∧ m !! (a + 1 + rear) = Some (w !!! Z.to_nat (degrees t - seps t)).
Proof.
  intros (_ & Ht & Hr & Hw & Hj). destruct (degrees_pos t Ht) as [Hd Hs]. assert (0 ≤ front t rear < degrees t) as Hf by (apply Z.mod_pos_bound; lia). split.
  - rewrite <- (list_lookup_lookup_total_lt w 0) by lia. change 0%nat with (Z.to_nat 0). rewrite <- (Hj 0) by lia. rewrite Z.add_0_r, Z.mod_small by done. done.
  - rewrite <- list_lookup_lookup_total_lt by lia. rewrite <- Hj by lia. do 2 f_equal. unfold front.
    rewrite (wrap_once (rear + seps t)) by lia. case_match; rewrite wrap_once; rewrite ?Z.ltb_lt, ?Z.ltb_ge in *; try lia; case_match; rewrite ?Z.ltb_lt, ?Z.ltb_ge in *; lia.
Qed.

Lemma random_run s a rear g :
  current s a rear g → ∃ s' rear', random s = Ok (fst (next g), s') ∧ current s' a rear' (snd (next g)) ∧
    only (memory s) (memory s') (a + 1) (extent (type_of g) - 1).
Proof.
  intros [Est Ety Edg Esp Een Hp [h Hh] Hat]. unfold random. mrun. rewrite Ety. destruct g as [x|t pos w]; cbn [type_of].
  - rewrite Z.eqb_refl. cbn in Hat. rewrite (bind_Ok _ _ _ _ _ (load_word s (state s) x ltac:(by rewrite Est))). mrun.
    rewrite (bind_Ok _ _ _ _ _ (store_word s (state s) _ ltac:(rewrite Est; eauto))). mrun. rewrite !good_rand_park_miller.
    pose proof (park_miller_range x). rewrite s32_id by (unfold is_s32; lia). eexists _, rear. split; [done|]. rewrite Est. split.
    + constructor; cbn; try done; [rewrite lookup_insert_ne by lia; eauto|by rewrite lookup_insert_eq].
    + apply only_insert. unfold extent. change (degrees 0) with 0. lia.
  - cbn in Hp. destruct (gen_at_reads _ _ _ _ _ _ Hat) as [Hf Hr]. pose proof (gen_at_step _ _ _ _ _ _ (u32 (w !!! 0%nat + w !!! Z.to_nat (degrees t - seps t))) Hat) as Hst.
    destruct Hat as (_ & Ht & Hr' & Hw & _). destruct (degrees_pos t Ht) as [Hd Hs]. destruct Hp as [Er Ef]; [lia|].
    unfold TYPE_0. rewrite (proj2 (Z.eqb_neq t 0)) by lia. rewrite <- Er in Hr. rewrite <- Ef in Hf, Hst.
    rewrite (bind_Ok _ _ _ _ _ (load_word _ _ _ Hf)). mrun. rewrite (bind_Ok _ _ _ _ _ (load_word _ _ _ Hr)). mrun.
    rewrite (bind_Ok _ _ _ _ _ (store_word _ _ _ (ex_intro _ _ Hf))). mrun.
    erewrite bind_Ok by (apply load_word; apply lookup_insert_eq). mrun. cbn [next fst snd type_of].
    set (o := u32 _) in *. pose proof (u32_range (w !!! 0%nat + w !!! Z.to_nat (degrees t - seps t))) as Ho. fold o in Ho.
    rewrite Z.shiftr_div_pow2 by done. change (2 ^ 1) with 2. unfold is_u32 in Ho. rewrite s32_id by (unfold is_s32; div_mod_lia).
    eexists _, _. split; [done|]. assert (0 ≤ front t rear < degrees t) as Hfr by (apply Z.mod_pos_bound; lia).
    assert (∀ s0 : rand_state, (if end_ptr s <=? fptr s + 1 then set_ptrs (state s) (rptr s + 1) else if end_ptr s <=? rptr s + 1 then set_ptrs (fptr s + 1) (state s) else set_ptrs (fptr s + 1) (rptr s + 1)) s0
      = set_ptrs (a + 1 + front t (if rear + 1 <? degrees t then rear + 1 else 0)) (a + 1 + (if rear + 1 <? degrees t then rear + 1 else 0)) s0) as ->.
    { intros s0. rewrite Een, Ef, Er, Est. cbn [type_of]. clear -Hr' Hd Hs. unfold front. rewrite !wrap_once by (repeat case_match; lia).
      destruct (Z.ltb_spec (rear + seps t) (degrees t)), (Z.ltb_spec (rear + 1) (degrees t));
      repeat case_match; rewrite ?Z.leb_le, ?Z.leb_gt, ?Z.ltb_lt, ?Z.ltb_ge in *; try lia; f_equal; lia. }
    split.
    + constructor; cbn; try done; try congruence. rewrite Ef, lookup_insert_ne by lia. eauto.
    + rewrite Ef. cbn. apply only_insert. unfold extent. lia.
Qed.

Lemma type_of_next g : type_of (snd (next g)) = type_of g.
Proof. by destruct g. Qed.

Lemma type_of_advance n g : type_of (advance n g) = type_of g.
Proof. induction n as [|n IH]; [done|]. change (advance (S n) g) with (snd (next (advance n g))). by rewrite type_of_next. Qed.

Lemma type_of_seeded t x : type_of (seeded t x) = t.
Proof. unfold seeded. case_decide as Ht; rewrite type_of_advance; by rewrite ?Ht. Qed.

Lemma discard_run n : ∀ s a rear g,
  current s a rear g → ∃ s' rear', discard n s = Ok (tt, s') ∧ current s' a rear' (advance n g) ∧
    only (memory s) (memory s') (a + 1) (extent (type_of g) - 1).
Proof.
  induction n as [|n IH]; intros s a rear g Hc; cbn [discard]; [by exists s, rear|].
  destruct (random_run s a rear g Hc) as (s1 & r1 & E1 & H1 & O1). rewrite (bind_Ok _ _ _ _ _ E1).
  destruct (IH s1 a r1 _ H1) as (s2 & r2 & E2 & H2 & O2). exists s2, r2. split; [done|]. split.
  - unfold advance in *. by rewrite Nat.iter_succ_r.
  - rewrite type_of_next in O2. by eapply only_trans.
Qed.

Lemma seeds_lookup x n i : (i < n)%nat → seeds x n !! i = Some (Nat.iter i park_miller x).
Proof. intros Hi. unfold seeds. rewrite list_lookup_fmap, lookup_seq_lt by done. done. Qed.

(** The loop that fills the state makes every word from the one before. *)
Lemma fill_run n : ∀ s a i x,
  state s = a + 1 → 0 < i → memory s !! (a + 1 + (i - 1)) = Some (Nat.iter (Z.to_nat (i - 1)) park_miller x) →
  (∀ j, i ≤ j < i + Z.of_nat n → is_Some (memory s !! (a + 1 + j))) →
  ∃ m, fill n i s = Ok (tt, set_memory m s) ∧ only (memory s) m (a + 1 + i) (Z.of_nat n) ∧
    ∀ j, i ≤ j < i + Z.of_nat n → m !! (a + 1 + j) = Some (Nat.iter (Z.to_nat j) park_miller x).
Proof.
  induction n as [|n IH]; intros s a i x Hst Hi Hx Hall; cbn [fill].
  { exists (memory s). split; [by destruct s|]. split; [done|]. lia. }
  mrun. rewrite (bind_Ok _ _ _ _ _ (load_word s (state s + (i - 1)) _ ltac:(rewrite Hst; exact Hx))). mrun.
  rewrite (bind_Ok _ _ _ _ _ (store_word s (state s + i) _ ltac:(rewrite Hst; apply Hall; lia))). rewrite good_rand_park_miller, Hst.
  set (w := park_miller _). assert (w = Nat.iter (Z.to_nat i) park_miller x) as Ew by (replace (Z.to_nat i) with (S (Z.to_nat (i - 1))) by lia; done).
  destruct (IH (set_memory (<[a + 1 + i := w]> (memory s)) s) a (i + 1) x) as (m & E & Ho & Hm); cbn.
  - done.
  - lia.
  - replace (i + 1 - 1) with i by lia. by rewrite lookup_insert_eq, Ew.
  - intros j Hj. rewrite lookup_insert_ne by lia. apply Hall. lia.
  - exists m. split; [done|]. destruct Ho as [Ho1 Ho2]. cbn in Ho1, Ho2. split.
    + split; [intros p Hp; rewrite Ho1 by lia; apply lookup_insert_ne; lia|]. intros p Hp. apply Ho2.
      destruct (decide (p = a + 1 + i)) as [->|]; [rewrite lookup_insert_eq; eauto|by rewrite lookup_insert_ne].
    + intros j Hj. destruct (decide (j = i)) as [->|]; [|apply Hm; lia]. rewrite Ho1 by lia. by rewrite lookup_insert_eq, Ew.
Qed.

(** The static variables of a generator of type [t] in an array at [a] whose state is
    not yet filled. *)
Record pointed (s : rand_state) (a t : Z) : Prop := {
  pt_range : 0 ≤ t ≤ 4;
  pt_state : state s = a + 1;
  pt_type : rand_type s = t;
  pt_deg : rand_deg s = degrees t;
  pt_sep : rand_sep s = seps t;
  pt_end : end_ptr s = a + 1 + degrees t;
  pt_alloc : ∀ p, a ≤ p < a + extent t → is_Some (memory s !! p)
}.

Lemma filled_gen_at m a t x :
  1 ≤ t ≤ 4 → (∀ j, 0 ≤ j < degrees t → m !! (a + 1 + j) = Some (Nat.iter (Z.to_nat j) park_miller x)) →
  gen_at m a 0 (Additive t 0 (drop (Z.to_nat (seps t)) (seeds x (Z.to_nat (degrees t))) ++ take (Z.to_nat (seps t)) (seeds x (Z.to_nat (degrees t))))).
Proof.
  intros Ht Hm. destruct (degrees_pos t Ht) as [Hd Hs]. set (l := seeds x (Z.to_nat (degrees t))).
  assert (length l = Z.to_nat (degrees t)) as El by (subst l; unfold seeds; by rewrite length_fmap, length_seq).
  split; [done|]. split; [done|]. split; [lia|]. split; [rewrite length_app, length_drop, length_take; lia|].
  intros j Hj. unfold front. rewrite Z.add_0_l, (Z.mod_small (seps t)) by lia. rewrite wrap_once by lia.
  rewrite Hm by (repeat case_match; rewrite ?Z.ltb_lt, ?Z.ltb_ge in *; lia).
  destruct (Z.ltb_spec (seps t + j) (degrees t)).
  - rewrite lookup_app_l by (rewrite length_drop; lia). rewrite lookup_drop. unfold l. rewrite seeds_lookup by lia. do 2 f_equal. lia.
  - rewrite lookup_app_r by (rewrite length_drop; lia). rewrite length_drop, El, lookup_take_lt by lia. unfold l.
    rewrite seeds_lookup by lia. do 2 f_equal. lia.
Qed.

Lemma srandom_run s a t x :
  pointed s a t → is_u32 x → ∃ s' rear, srandom x s = Ok (tt, s') ∧ current s' a rear (seeded t x) ∧
    only (memory s) (memory s') (a + 1) (extent t - 1).
Proof.
  intros [Ht Est Ety Edg Esp Een Hall] Hx. unfold srandom. mrun. rewrite u32_id by done.
  assert (is_Some (memory s !! (a + 1))) as Hx1 by (apply Hall; unfold extent; lia).
  rewrite (bind_Ok _ _ _ _ _ (store_word s (state s) _ ltac:(by rewrite Est))). rewrite Ety, Est, Edg, Esp. unfold TYPE_0, seeded.
  assert (is_Some (<[a + 1 := x]> (memory s) !! a)) as Hh by (rewrite lookup_insert_ne by lia; apply Hall; unfold extent; lia).
  assert (only (memory s) (<[a + 1 := x]> (memory s)) (a + 1) (extent t - 1)) as O1 by (apply only_insert; unfold extent; lia).
  destruct (Z.eqb_spec t 0) as [->|Hne]; [rewrite decide_True by done|rewrite decide_False by done].
  - destruct (discard_run NSHUFF (set_memory (<[a + 1 := x]> (memory s)) s) a 0 (Linear x)) as (s' & r & E & Hc & O2).
    + constructor; cbn; try done. by rewrite lookup_insert_eq.
    + exists s', r. split; [exact E|]. split; [done|]. by eapply only_trans.
  - destruct (degrees_pos t) as [Hd Hs]; [lia|].
    destruct (fill_run (Z.to_nat (degrees t - 1)) (set_memory (<[a + 1 := x]> (memory s)) s) a 1 x) as (m & E & O2 & Hm); cbn.
    + done.
    + done.
    + rewrite Z.add_0_r. by rewrite lookup_insert_eq.
    + intros j Hj. rewrite lookup_insert_ne by lia. apply Hall. unfold extent. lia.
    + rewrite (bind_Ok _ _ _ _ _ E). mrun. set (l := seeds x _). destruct O2 as [O2 O2']. cbn in O2, O2'.
      set (s1 := set_ptrs _ _ _).
      destruct (discard_run (Z.to_nat (10 * degrees t)) s1 a 0 (Additive t 0 (drop (Z.to_nat (seps t)) l ++ take (Z.to_nat (seps t)) l))) as (s' & r & E' & Hc & O3).
      * constructor; cbn; try done.
        -- intros _. unfold front. rewrite Z.mod_small; [|lia]. split; lia.
        -- rewrite O2 by lia. done.
        -- apply filled_gen_at; [lia|]. intros j Hj. destruct (decide (j = 0)) as [->|]; [|apply Hm; lia].
           rewrite Z.add_0_r, O2 by lia. by rewrite lookup_insert_eq.
      * exists s', r. split; [exact E'|]. split; [done|]. cbn [type_of] in O3. eapply only_trans; [|exact O3]. cbn.
        eapply only_trans; [exact O1|]. split; [intros p Hp; apply O2; unfold extent in Hp; lia|done].
Qed.

(** * The refinement *)

Lemma header_word_run s a rear g : current s a rear g → header_word s = header rear g.
Proof.
  intros Hc. unfold header_word, header. rewrite (cu_type _ _ _ _ Hc). destruct g as [x|t pos w]; [done|]. cbn.
  destruct (cu_at _ _ _ _ Hc) as (_ & Ht & Hr & _). destruct (degrees_pos t Ht). destruct (cu_ptrs _ _ _ _ Hc) as [-> _]; [cbn; lia|].
  unfold TYPE_0. rewrite (proj2 (Z.eqb_neq t 0)), (cu_state _ _ _ _ Hc) by lia. unfold MAX_TYPES. rewrite u32_id by (unfold is_u32; lia). lia.
Qed.

Lemma header_type rear g g' : type_of g = type_of g' → header rear g = header rear g'.
Proof. unfold header. by intros ->. Qed.

Lemma apart_insert G a g g' : apart G → G !! a = Some g → type_of g' = type_of g → apart (<[a := g']> G).
Proof.
  intros Ha Hg Et b c h h' Hb Hc. rewrite lookup_insert in Hb, Hc. repeat case_decide; simplify_eq; rewrite ?Et; eauto; lia.
Qed.

Lemma others_apart G a b g g' :
  apart G → a ≠ b → G !! a = Some g → G !! b = Some g' → b + extent (type_of g') ≤ a ∨ a + extent (type_of g) ≤ b.
Proof. intros Ha Hne Hg Hg'. destruct (decide (a < b)); [right; eauto|]. left. apply (Ha b a g' g); [done|done|lia]. Qed.

(** A step of the current generator. *)
Lemma holds_gens_step m s S g rear g' s' :
  holds_gens m s S → gens S !! cur S = Some g → type_of g' = type_of g → current s' (cur S) rear g' →
  only (memory s) (memory s') (cur S + 1) (extent (type_of g) - 1) →
  holds_gens m s' (mkGens (<[cur S := g']> (gens S)) (cur S) (since S)).
Proof.
  intros [Hw Ha (g0 & rear0 & Hg0 & _ & Hh & Hsi) Hst] Hg Et Hc Ho. assert (g0 = g) as -> by congruence. constructor; cbn.
  - intros p Hp. apply Ho. auto.
  - by eapply apart_insert.
  - exists g', rear. split; [apply lookup_insert_eq|]. split; [done|]. split; [|by rewrite Et]. destruct Ho as [Ho _]. rewrite Ho by lia.
    by rewrite (header_type _ g' g).
  - intros b h Hb. rewrite lookup_insert_ne by done. intros Hh'. eapply stored_only; [by apply Hst|exact Ho|].
    destruct (others_apart _ b (cur S) h g Ha Hb Hh' Hg); [left|right]; lia.
Qed.

(** Saving the current generator. *)
Lemma save_run m s S :
  holds_gens m s S → ∃ m1, store (state s - 1) (header_word s) s = Ok (tt, set_memory m1 s) ∧ only (memory s) m1 (cur S) 1 ∧
    ∀ a g, gens S !! a = Some g → stored m1 a g.
Proof.
  intros [Hw Ha (g & rear & Hg & Hc & _) Hst]. exists (<[cur S := header rear g]> (memory s)).
  rewrite (header_word_run _ _ _ _ Hc), (cu_state _ _ _ _ Hc). replace (cur S + 1 - 1) with (cur S) by lia.
  split; [apply store_word, Hc|]. assert (only (memory s) (<[cur S := header rear g]> (memory s)) (cur S) 1) as Ho by (apply only_insert; lia).
  split; [done|]. intros b h Hh. destruct (decide (b = cur S)) as [->|Hb].
  - simplify_eq. exists rear. split; [apply lookup_insert_eq|]. eapply gen_at_only; [apply Hc|done|]. lia.
  - eapply stored_only; [by apply Hst|done|]. destruct (others_apart _ b (cur S) h g Ha Hb Hh Hg) as [H|H]; [|lia].
    left. unfold extent in H. lia.
Qed.

Lemma type_for_range n : 0 ≤ type_for n ≤ 4.
Proof. unfold type_for. repeat case_match; lia. Qed.

Lemma type_for_fits n : 8 ≤ n → extent (type_for n) ≤ n / 4.
Proof.
  intros Hn. unfold type_for. repeat case_match; rewrite ?Z.ltb_lt, ?Z.ltb_ge in *; unfold extent, degrees; simpl; div_mod_lia.
Qed.

Lemma initstate_generator n a : ∀ s : rand_state,
  (if n <? BREAK_1 then set_generator 0 0 0 (a + 1)
   else if n <? BREAK_2 then set_generator 1 7 3 (a + 1)
   else if n <? BREAK_3 then set_generator 2 15 1 (a + 1)
   else if n <? BREAK_4 then set_generator 3 31 3 (a + 1)
   else set_generator 4 63 1 (a + 1)) s
  = set_generator (type_for n) (degrees (type_for n)) (seps (type_for n)) (a + 1) s.
Proof. intros s. unfold type_for, BREAK_1, BREAK_2, BREAK_3, BREAK_4. by destruct (n <? 32), (n <? 64), (n <? 128), (n <? 256). Qed.

Lemma initstate_run m s S seed a n :
  holds_gens m s S → permitted m (Initstate seed a n) S → 8 ≤ n →
  ∃ s', initstate seed a n s = Ok (Some (cur S), s') ∧ holds_gens m s' (mkGens (<[a := seeded (type_for n) seed]> (gens S)) a (pos_of (seeded (type_for n) seed))).
Proof.
  intros HS (Hseed & Hown & Hap) Hn. destruct (save_run m s S HS) as (m1 & E1 & O1 & Hst1). pose proof (type_for_fits n Hn) as Hfit.
  assert (∀ p, a ≤ p < a + extent (type_for n) → is_Some (m !! p)) as Hall.
  { intros p Hp. rewrite Forall_forall in Hown. apply Hown. apply elem_of_seqZ. lia. }
  destruct HS as [Hw Ha (g & rear & Hg & Hc & _) Hst]. unfold initstate. mrun. unfold BREAK_0. rewrite (proj2 (Z.ltb_ge n 8)) by lia.
  rewrite (bind_Ok _ _ _ _ _ E1). mrun. rewrite initstate_generator. set (t := type_for n) in *.
  destruct (srandom_run (set_generator t (degrees t) (seps t) (a + 1) (set_memory m1 s)) a t seed) as (s2 & r2 & E2 & Hc2 & O2); [|done|].
  { constructor; try done; [apply type_for_range|]. intros p Hp. cbn. apply O1. auto. }
  rewrite (bind_Ok _ _ _ _ _ E2). mrun. cbn in O2. rewrite (header_word_run _ _ _ _ Hc2).
  rewrite (bind_Ok _ _ _ _ _ (store_word s2 a _ (cu_head _ _ _ _ Hc2))). mrun. rewrite (cu_state _ _ _ _ Hc), Z.add_simpl_r.
  eexists. split; [done|]. set (m3 := <[a := header r2 (seeded t seed)]> (memory s2)).
  assert (only m1 m3 a (extent t)) as O3.
  { eapply (only_trans _ (memory s2)); [|apply only_insert; unfold extent; lia]. split; [|apply O2]. intros p Hp. apply O2. lia. }
  constructor; cbn.
  - intros p Hp. apply O3, O1. auto.
  - intros b c h h' Hb Hc' Hlt. rewrite lookup_insert in Hb, Hc'. repeat case_decide; simplify_eq.
    + lia.
    + destruct (Hap b h Hb) as [|[|]]; unfold extent in *; lia.
    + rewrite type_of_seeded. destruct (Hap c h' Hc') as [|[|]]; unfold extent in *; lia.
    + eauto.
  - exists (seeded t seed), r2. split; [apply lookup_insert_eq|]. pose proof (gen_at_pos _ _ _ _ (cu_at _ _ _ _ Hc2)) as Hp2. split; [|split].
    + destruct Hc2. constructor; try done; cbn.
      * subst m3. rewrite lookup_insert_eq. eauto.
      * eapply gen_at_only; [done|apply (only_insert _ a 1); lia|lia].
    + subst m3. rewrite lookup_insert_eq. f_equal. unfold header. destruct (Z.eqb_spec (type_of (seeded t seed)) 0); [done|]. f_equal. by rewrite (proj1 (Hp2 n0)).
    + intros Hn0. by destruct (Hp2 Hn0) as (<- & _ & ?).
  - intros b h Hb. rewrite lookup_insert_ne by done. intros Hh. eapply stored_only; [by apply Hst1|exact O3|].
    destruct (Hap b h Hh) as [|[|]]; lia.
Qed.

(** The header that [setstate] reads. *)
Lemma header_read rear g : type_of g = 0 ∨ 1 ≤ type_of g ≤ 4 →
  header rear g mod 5 = type_of g ∧ (type_of g ≠ 0 → header rear g / 5 = rear).
Proof. unfold header. intros [->|Ht]; [done|]. rewrite (proj2 (Z.eqb_neq _ 0)) by lia. split; [div_mod_lia|intros _; div_mod_lia]. Qed.

(** [setstate] of an array whose header has the position [rear], once the current
    generator is saved. *)
Lemma setstate_steps m s S a g rear :
  holds_gens m s S → gens S !! a = Some g → memory s !! a = Some (header rear g) →
  (type_of g ≠ 0 → 1 ≤ type_of g ≤ 4 ∧ 0 ≤ rear < degrees (type_of g)) →
  ∃ m1 s', setstate a s = Ok (Some (cur S), s') ∧ memory s' = m1 ∧ only (memory s) m1 (cur S) 1 ∧
    (∀ b h, gens S !! b = Some h → stored m1 b h) ∧
    ∀ g', type_of g' = type_of g → gen_at m1 a rear g' → current s' a rear g'.
Proof.
  intros HS Hg Hh Hr. destruct (save_run m s S HS) as (m1 & E1 & O1 & Hst1). destruct HS as [Hw Ha (g0 & rear0 & Hg0 & Hc & _) Hst].
  assert (is_Some (m1 !! a)) as Hha by (apply O1; rewrite Hh; eauto).
  destruct (header_read rear g) as [Ew Er]; [destruct (decide (type_of g = 0)); [by left|right; by apply Hr]|].
  unfold setstate. rewrite (bind_Ok _ _ _ _ _ (load_word s a _ Hh)). mrun. unfold MAX_TYPES, TYPE_0. rewrite Ew.
  assert (negb (type_of g =? 0) && (degrees (type_of g) <=? header rear g / 5) = false) as ->.
  { destruct (Z.eqb_spec (type_of g) 0) as [|Hn]; [done|]. cbn. apply Z.leb_gt. rewrite Er by done. by apply Hr. }
  rewrite (bind_Ok _ _ _ _ _ E1). mrun. rewrite (cu_state _ _ _ _ Hc), Z.add_simpl_r.
  destruct (Z.eqb_spec (type_of g) 0) as [E0|Hn0]; cbn [negb]; mrun; (eexists m1, _; split; [done|]); (split; [done|]; split; [done|]; split; [done|]).
  - intros g' Et Hat. constructor; cbn; rewrite ?Et; done.
  - intros g' Et Hat. destruct (Hr Hn0) as [Ht Hrr]. constructor; cbn; rewrite ?Et; try done. intros _. rewrite Er by done. split; [done|].
    destruct (degrees_pos (type_of g) Ht). by rewrite u32_id by (unfold is_u32; lia).
Qed.

(** The words in the order of another position. *)
Lemma gen_at_rewound m a rear rear' g : gen_at m a rear g → (type_of g ≠ 0 → 0 ≤ rear' < degrees (type_of g)) → gen_at m a rear' (rewound rear' g).
Proof.
  intros Hat Hr'. destruct g as [x|t pos w]; [done|]. destruct Hat as (<- & Ht & Hr & Hw & Hj). destruct (degrees_pos t Ht) as [Hd Hs].
  cbn in Hr'. specialize (Hr' ltac:(lia)). cbn [rewound]. set (k := (rear' - rear) mod degrees t). assert (0 ≤ k < degrees t) as Hk by (apply Z.mod_pos_bound; lia).
  split; [done|]. split; [done|]. split; [done|]. split; [rewrite length_app, length_drop, length_take; lia|]. intros j Hj'.
  assert ((front t rear' + j) mod degrees t = (front t rear + (k + j) mod degrees t) mod degrees t) as ->.
  { unfold front, k. rewrite !Zplus_mod_idemp_l, Zplus_mod_idemp_r. f_equal. lia. }
  rewrite Hj by (apply Z.mod_pos_bound; lia). rewrite (wrap_once (k + j)) by lia. destruct (Z.ltb_spec (k + j) (degrees t)).
  - rewrite lookup_app_l by (rewrite length_drop; lia). rewrite lookup_drop. f_equal. lia.
  - rewrite lookup_app_r by (rewrite length_drop; lia). rewrite length_drop, lookup_take_lt by lia. f_equal. lia.
Qed.

Lemma setstate_run m s S a :
  holds_gens m s S → permitted m (Setstate a) S →
  ∃ s', setstate a s = Ok (Some (cur S), s') ∧ serve (Setstate a) S = (Pointer (Some (cur S)), snd (serve (Setstate a) S)) ∧
    holds_gens m s' (snd (serve (Setstate a) S)).
Proof.
  intros HS [g Hg]. pose proof HS as [Hw Ha (g0 & rear0 & Hg0 & Hc & Hh0 & Hsi) Hst]. cbn [serve]. rewrite Hg.
  pose proof (gen_at_pos _ _ _ _ (cu_at _ _ _ _ Hc)) as Hp0. case_decide as Hcur.
  - subst a. assert (g0 = g) as -> by congruence.
    destruct (setstate_steps m s S (cur S) g (since S)) as (m1 & s' & E & Em & O1 & Hst1 & Hcu); [done|done|done|intros Hn; split; [by apply Hp0|by apply Hsi]|].
    exists s'. split; [done|]. split; [done|]. constructor; cbn [gens cur since snd]; rewrite ?Em.
    + intros p Hp. apply O1. auto.
    + eapply apart_insert; [done|done|by destruct g].
    + exists (rewound (since S) g), (since S). split; [apply lookup_insert_eq|]. assert (type_of (rewound (since S) g) = type_of g) as Et by (by destruct g).
      destruct (Hst1 _ _ Hg) as (rear & Hh & Hat). pose proof (gen_at_pos _ _ _ _ Hat) as Hp. split; [|split].
      * apply Hcu; [done|]. by eapply gen_at_rewound.
      * rewrite Hh, (header_type (pos_of g) _ g Et). f_equal. unfold header. destruct (Z.eqb_spec (type_of g) 0) as [|Hn]; [done|]. f_equal. by rewrite (proj1 (Hp Hn)).
      * rewrite Et. intros Hn. by destruct (Hp Hn) as (<- & _ & ?).
    + intros b h Hb. rewrite lookup_insert_ne by done. apply Hst1.
  - destruct (Hst a g Hcur Hg) as (rear & Hh & Hat). pose proof (gen_at_pos _ _ _ _ Hat) as Hp.
    destruct (setstate_steps m s S a g rear) as (m1 & s' & E & Em & O1 & Hst1 & Hcu); [done|done|done|intros Hn; by apply Hp|].
    exists s'. split; [done|]. split; [done|]. constructor; cbn [gens cur since snd]; rewrite ?Em; try done.
    + intros p Hp'. apply O1. auto.
    + exists g, rear. split; [done|]. destruct (Hst1 _ _ Hg) as (rear' & Hh' & Hat'). pose proof (gen_at_pos _ _ _ _ Hat') as Hp'. split; [|split].
      * apply Hcu; [done|]. destruct g as [x|t pos w]; [done|]. cbn in Hat, Hat' |- *. destruct Hat as [-> _], Hat' as [-> ?]. done.
      * rewrite Hh'. f_equal. unfold header. destruct (Z.eqb_spec (type_of g) 0) as [|Hn]; [done|]. f_equal. by rewrite (proj1 (Hp' Hn)).
      * intros Hn. by destruct (Hp' Hn) as (<- & _ & ?).
    + intros b h Hb Hh1. by apply Hst1.
Qed.

Lemma perform_run m r s S :
  holds_gens m s S → permitted m r S → ∃ s', perform r s = Ok (fst (serve r S), s') ∧ holds_gens m s' (snd (serve r S)).
Proof.
  intros HS Hr. pose proof (hg_current _ _ _ HS) as (g & rear & Hg & Hc & _). destruct r as [|x|seed a n|a]; cbn [perform serve].
  - rewrite Hg. destruct (random_run s _ _ _ Hc) as (s' & r' & E & Hc' & Ho). rewrite (bind_Ok _ _ _ _ _ E). mrun.
    destruct (next g) as [i g'] eqn:En. exists s'. split; [done|]. eapply holds_gens_step; eauto. by rewrite <- (type_of_next g), En.
  - rewrite Hg. destruct Hc as [Est Ety Edg Esp Een Hp Hh Hat].
    destruct (srandom_run s (cur S) (type_of g) x) as (s' & r' & E & Hc' & Ho); [|done|].
    { constructor; try done; [destruct g; cbn in *; lia|]. intros p Hp'. destruct (decide (p = cur S)) as [->|]; [done|].
      unfold extent in Hp'. destruct g as [y|t w]; cbn in *.
      - replace p with (cur S + 1) by (change (degrees 0) with 0 in Hp'; lia). eauto.
      - destruct Hat as (_ & Ht & Hr0 & Hw & Hj). destruct (degrees_pos t Ht) as [Hd Hs].
        assert (0 ≤ front t rear < degrees t) by (apply Z.mod_pos_bound; lia).
        pose proof (Hj ((p - cur S - 1 - front t rear) mod degrees t) ltac:(apply Z.mod_pos_bound; lia)) as Hm.
        rewrite Zplus_mod_idemp_r in Hm. replace (front t rear + (p - cur S - 1 - front t rear)) with (p - cur S - 1) in Hm by lia.
        rewrite Z.mod_small in Hm by lia. replace (cur S + 1 + (p - cur S - 1)) with p in Hm by lia. rewrite Hm.
        apply lookup_lt_is_Some. pose proof (Z.mod_pos_bound (p - cur S - 1 - front t rear) (degrees t)). lia. }
    rewrite (bind_Ok _ _ _ _ _ E). mrun. exists s'. split; [done|]. eapply holds_gens_step; eauto. apply type_of_seeded.
  - destruct (Z.ltb_spec n 8).
    + unfold initstate. mrun. unfold BREAK_0. rewrite (proj2 (Z.ltb_lt n 8)) by done. mrun. by exists s.
    + destruct (initstate_run m s S seed a n) as (s' & E & HS'); [done|done|done|]. rewrite (bind_Ok _ _ _ _ _ E). mrun. by exists s'.
  - destruct (setstate_run m s S a) as (s' & E & Es & HS'); [done|done|]. rewrite (bind_Ok _ _ _ _ _ E). mrun. exists s'. cbn [serve] in Es. by rewrite Es.
Qed.

Lemma perform_all_run m rs : ∀ s S,
  holds_gens m s S → permitted_all m rs S →
  ∃ s', perform_all rs s = Ok (fst (serve_all rs S), s') ∧ holds_gens m s' (snd (serve_all rs S)).
Proof.
  induction rs as [|r rs IH]; intros s S HS Hr; cbn [perform_all serve_all]; [by exists s|]. destruct Hr as [Hr Hrs].
  destruct (perform_run m r s S HS Hr) as (s1 & E1 & HS1). rewrite (bind_Ok _ _ _ _ _ E1). destruct (serve r S) as [a S1]. cbn [fst snd] in *.
  destruct (IH s1 S1 HS1 Hrs) as (s2 & E2 & HS2). rewrite (bind_Ok _ _ _ _ _ E2). mrun. destruct (serve_all rs S1) as [l S2]. by exists s2.
Qed.

(** ** The generator a program starts with *)

Lemma put_words_lookup l : ∀ p m q,
  put_words p l m !! q = if decide (p ≤ q < p + zlen l) then l !! Z.to_nat (q - p) else m !! q.
Proof.
  induction l as [|x l IH]; intros p m q; cbn [put_words]; [rewrite decide_False by (cbn; lia); done|].
  rewrite lookup_insert. case_decide as Hpq.
  - subst q. rewrite decide_True by (cbn [length]; lia). by rewrite Z.sub_diag.
  - rewrite IH. cbn [length]. repeat case_decide; try lia; [|done].
    replace (Z.to_nat (q - p)) with (S (Z.to_nat (q - (p + 1)))) by lia. done.
Qed.

(** The table of the source: the words of the generator of type 3 with seed 1. *)
Lemma randtbl_seeded : seeded 3 1 = Additive 3 0 (drop 3 (drop 1 randtbl) ++ take 3 (drop 1 randtbl)).
Proof. by vm_compute. Qed.

Definition start_gens (tbl : Z) : generators := mkGens {[ tbl := seeded 3 1 ]} tbl 0.

Lemma rand_start_holds tbl m : holds_gens m (rand_start tbl m) (start_gens tbl).
Proof.
  constructor; cbn [memory rand_start start_gens gens cur since].
  - intros p Hp. rewrite put_words_lookup. case_decide; [|done]. apply lookup_lt_is_Some. lia.
  - intros a b g g' [<- _]%lookup_singleton_Some [<- _]%lookup_singleton_Some. lia.
  - exists (seeded 3 1), 0. split; [by rewrite lookup_singleton_eq|]. rewrite randtbl_seeded. split; [|split; [|done]].
    2:{ rewrite put_words_lookup, decide_True by (cbn; lia). by rewrite Z.sub_diag. }
    constructor; cbn [type_of rand_start state rand_type rand_deg rand_sep end_ptr rptr fptr memory]; try done.
    + change (degrees 3) with 31. lia.
    + intros _. change (front 3 0) with 3. lia.
    + rewrite put_words_lookup. rewrite decide_True by (cbn; lia). rewrite Z.sub_diag. cbn. eauto.
    + split; [done|]. split; [lia|]. change (degrees 3) with 31. change (front 3 0) with 3. split; [lia|]. split; [done|]. intros j Hj.
      rewrite put_words_lookup. pose proof (Z.mod_pos_bound (3 + j) 31 ltac:(done)). change (zlen randtbl) with 32. rewrite decide_True by lia.
      replace (tbl + 1 + (3 + j) mod 31 - tbl) with (1 + (3 + j) mod 31) by lia.
      assert (Forall (λ j, randtbl !! Z.to_nat (1 + (3 + j) mod 31) = (drop 3 (drop 1 randtbl) ++ take 3 (drop 1 randtbl)) !! Z.to_nat j) (seqZ 0 31)) as HF
        by (apply (bool_decide_unpack _); by vm_compute).
      rewrite Forall_forall in HF. apply HF, elem_of_seqZ. lia.
  - intros a g Hne Hg. by apply lookup_singleton_Some in Hg as [<- _].
Qed.

(** An answer that is a number has 31 bits. *)
Definition answer_ok (a : answer) : Prop := match a with Number i => 0 ≤ i < 2 ^ 31 | _ => True end.

Lemma next_range g : 0 ≤ fst (next g) < 2 ^ 31.
Proof.
  destruct g as [x|t pos w]; cbn [next fst]; [pose proof (park_miller_range x); lia|].
  set (o := _ mod 2 ^ 32). assert (0 ≤ o < 2 ^ 32) by (apply Z.mod_pos_bound; done). div_mod_lia.
Qed.

Lemma serve_all_range rs : ∀ S, Forall answer_ok (fst (serve_all rs S)).
Proof.
  induction rs as [|r rs IH]; intros S; cbn [serve_all]; [constructor|].
  assert (answer_ok (fst (serve r S))) as Hr.
  { destruct r; cbn [serve]; repeat case_match; cbn; try done. pose proof (next_range g). simplify_eq.
    by match goal with H : next _ = _ |- _ => rewrite H in * end. }
  destruct (serve r S) as [a S1]. specialize (IH S1). destruct (serve_all rs S1). by constructor.
Qed.

(** C32. The generators: a program that calls random, srandom, initstate and setstate
    in any order, on arrays of its own that do not overlap and (for setstate) hold a
    generator, never touches other memory and gets what independent generators give, one
    per array: with arrays of 8 bytes or more the Park-Miller generator (good_rand computes
    16807 * x modulo 2^31 - 1 within 32 bits), with 32, 64, 128 and 256 bytes the sums o(n)
    = o(n - deg) + o(n - sep) modulo 2^32 without their lowest bit.  Seeding draws 50 or 10
    * deg numbers that are not given out.  setstate continues another generator where it
    was left; of the current one, against what its comment says, it goes back to the
    position that one had when it became the current one, with the words it has now.  The
    first array is randtbl, whose words are those of initstate(1, randtbl, 128).  Every
    number has 31 bits. *)
Theorem random_refines tbl m rs :
  permitted_all m rs (start_gens tbl) →
  ∃ s, perform_all rs (rand_start tbl m) = Ok (fst (serve_all rs (start_gens tbl)), s) ∧
    Forall answer_ok (fst (serve_all rs (start_gens tbl))).
Proof.
  intros Hr. destruct (perform_all_run m rs _ _ (rand_start_holds tbl m) Hr) as (s & E & _).
  exists s. split; [done|apply serve_all_range].
Qed.

Lemma random_refines_witness :
  let rs := [Random; Initstate 7 100 40; Random; Setstate 0; Random; Initstate 9 200 8; Random; Setstate 100; Srandom 3; Random; Setstate 100; Random] in
  let m := put_words 100 (replicate 10 0) (put_words 200 [0; 0] ∅) in
  ∃ s, perform_all rs (rand_start 0 m) = Ok (fst (serve_all rs (start_gens 0)), s) ∧
    Forall answer_ok (fst (serve_all rs (start_gens 0))).
Proof. intros rs m. apply random_refines. apply (bool_decide_unpack _). by vm_compute. Defined.

(** The comment of [setstate] says that it may be called with the current state.  It
    reads the header before it saves the position there: the numbers are not those that
    the generator would have given. *)
Lemma setstate_current_rewinds :
  let answers rs := match perform_all rs (rand_start 0 ∅) with Ok (l, _) => l | _ => [] end in
  ∃ i j k, answers [Random; Random] = [Number i; Number j] ∧
    answers [Random; Setstate 0; Random] = [Number i; Pointer (Some 0); Number k] ∧ j ≠ k.
Proof. vm_compute. do 3 eexists. by repeat split. Qed.
