(* ===== verification/FatTime.v ===== *)
(** src/add-ons/kernel/file_systems/fat/bsd/kern/subr_fattime.c: the time stamps of
    directory entries.

    A date is seven bits of the year from 1980 on, four of the month and five of the
    day; a time is five bits of the hour, six of the minute and five of the second
    divided by two; a third byte has the odd second and hundredths.  The theorem
    compares both conversions with the Gregorian calendar. *)

From S2P Require Import Prelude.

(** * The model *)

Definition DAY : Z := 24 * 60 * 60.
Definition YEAR : Z := 365.
Definition LYC : Z := 4 * YEAR + 1.
Definition T1980 : Z := 10 * 365 + 2.

(** The end of a month in days from the start of a normal year. *)
Definition JAN : Z := 31.
Definition FEB : Z := JAN + 28.
Definition MAR : Z := FEB + 31.
Definition APR : Z := MAR + 30.
Definition MAY : Z := APR + 31.
Definition JUN : Z := MAY + 30.
Definition JUL : Z := JUN + 31.
Definition AUG : Z := JUL + 31.
Definition SEP : Z := AUG + 30.
Definition OCT : Z := SEP + 31.
Definition NOV : Z := OCT + 30.
Definition DEC : Z := NOV + 31.

Definition ENC (y m : Z) : Z := Z.lor (Z.shiftl y 9) (Z.shiftl m 5).

(** The months of a cycle of four years: their first day and their code. *)
Definition mtab : list (Z * Z) :=
  [(0 + 0 * YEAR, ENC 0 1);
   (JAN + 0 * YEAR, ENC 0 2); (FEB + 0 * YEAR + 1, ENC 0 3);
   (MAR + 0 * YEAR + 1, ENC 0 4); (APR + 0 * YEAR + 1, ENC 0 5);
   (MAY + 0 * YEAR + 1, ENC 0 6); (JUN + 0 * YEAR + 1, ENC 0 7);
   (JUL + 0 * YEAR + 1, ENC 0 8); (AUG + 0 * YEAR + 1, ENC 0 9);
   (SEP + 0 * YEAR + 1, ENC 0 10); (OCT + 0 * YEAR + 1, ENC 0 11);
   (NOV + 0 * YEAR + 1, ENC 0 12); (DEC + 0 * YEAR + 1, ENC 1 1);
   (JAN + 1 * YEAR + 1, ENC 1 2); (FEB + 1 * YEAR + 1, ENC 1 3);
   (MAR + 1 * YEAR + 1, ENC 1 4); (APR + 1 * YEAR + 1, ENC 1 5);
   (MAY + 1 * YEAR + 1, ENC 1 6); (JUN + 1 * YEAR + 1, ENC 1 7);
   (JUL + 1 * YEAR + 1, ENC 1 8); (AUG + 1 * YEAR + 1, ENC 1 9);
   (SEP + 1 * YEAR + 1, ENC 1 10); (OCT + 1 * YEAR + 1, ENC 1 11);
   (NOV + 1 * YEAR + 1, ENC 1 12); (DEC + 1 * YEAR + 1, ENC 2 1);
   (JAN + 2 * YEAR + 1, ENC 2 2); (FEB + 2 * YEAR + 1, ENC 2 3);
   (MAR + 2 * YEAR + 1, ENC 2 4); (APR + 2 * YEAR + 1, ENC 2 5);
   (MAY + 2 * YEAR + 1, ENC 2 6); (JUN + 2 * YEAR + 1, ENC 2 7);
   (JUL + 2 * YEAR + 1, ENC 2 8); (AUG + 2 * YEAR + 1, ENC 2 9);
   (SEP + 2 * YEAR + 1, ENC 2 10); (OCT + 2 * YEAR + 1, ENC 2 11);
   (NOV + 2 * YEAR + 1, ENC 2 12); (DEC + 2 * YEAR + 1, ENC 3 1);
   (JAN + 3 * YEAR + 1, ENC 3 2); (FEB + 3 * YEAR + 1, ENC 3 3);
   (MAR + 3 * YEAR + 1, ENC 3 4); (APR + 3 * YEAR + 1, ENC 3 5);
   (MAY + 3 * YEAR + 1, ENC 3 6); (JUN + 3 * YEAR + 1, ENC 3 7);
   (JUL + 3 * YEAR + 1, ENC 3 8); (AUG + 3 * YEAR + 1, ENC 3 9);
   (SEP + 3 * YEAR + 1, ENC 3 10); (OCT + 3 * YEAR + 1, ENC 3 11);
   (NOV + 3 * YEAR + 1, ENC 3 12)].

Definition mtab_days (m : Z) : Z := (mtab !!! Z.to_nat m).1.
Definition mtab_coded (m : Z) : Z := (mtab !!! Z.to_nat m).2.

Record timespec := mkTime { tv_sec : Z; tv_nsec : Z }.

(** The loop that corrects the index into the table. *)
Fixpoint find_month (fuel : nat) (m t2 : Z) : Z :=
  match fuel with
  | O => m
  | S fuel => if (m <? 47) && (mtab_days (m + 1) <=? t2) then find_month fuel (m + 1) t2 else m
  end.

(** The date of [t1]: days are counted in an [unsigned]. *)
Definition fat_date (t1 : Z) : Z :=
  let t2 := u32 (Z.quot t1 DAY) in
  if t2 <? T1980 then 0x0021
  else
    let t2 := u32 (t2 - T1980) in
    let t2 := if (2100 - 1980) / 4 * LYC + FEB <=? t2 then u32 (t2 + 1) else t2 in
    let l := t2 / LYC in
    let dd := u16 (u32 (Z.shiftl (u32 (l * 4)) 9)) in
    let t2 := u32 (t2 - u32 (l * LYC)) in
    let m := find_month 48 (t2 / 32) t2 in
    let dd := u16 (dd + mtab_coded m) in
    let t2 := u32 (t2 - (mtab_days m - 1)) in
    u16 (Z.lor dd t2).

Definition fat_time (t1 : Z) : Z :=
  let dt := u16 (Z.rem (Z.quot t1 2) 30) in
  let dt := u16 (Z.lor dt (Z.shiftl (Z.rem (Z.quot t1 60) 60) 5)) in
  u16 (Z.lor dt (Z.shiftl (Z.rem (Z.quot t1 3600) 24) 11)).

Definition fat_hundredths (ts : timespec) : Z :=
  u8 (Z.land (tv_sec ts) 1 * 100 + Z.quot (tv_nsec ts) 10000000).

(** [utc_offset] is what the function of that name answers; [ddp], [dtp] and [dhp] say
    which pointers are not [NULL]. *)
Definition timespec2fattime (utc_offset : Z) (ts : timespec) (utc ddp dtp dhp : bool) : option Z * option Z * option Z :=
  let t1 := if utc then tv_sec ts else s64 (tv_sec ts - utc_offset) in
  (if ddp then Some (fat_date t1) else None,
   if dtp then Some (fat_time t1) else None,
   if dhp then Some (fat_hundredths ts) else None).

Definition DCOD (m y l : Z) : Z := m + YEAR * y + l.

(** Days into a cycle, by the two low bits of the year and the month. *)
Definition daytab : list Z :=
  [0; DCOD 0 0 0; DCOD JAN 0 0; DCOD FEB 0 1;
   DCOD MAR 0 1; DCOD APR 0 1; DCOD MAY 0 1; DCOD JUN 0 1;
   DCOD JUL 0 1; DCOD AUG 0 1; DCOD SEP 0 1; DCOD OCT 0 1;
   DCOD NOV 0 1; DCOD DEC 0 1; 0; 0;
   0; DCOD 0 1 1; DCOD JAN 1 1; DCOD FEB 1 1;
   DCOD MAR 1 1; DCOD APR 1 1; DCOD MAY 1 1; DCOD JUN 1 1;
   DCOD JUL 1 1; DCOD AUG 1 1; DCOD SEP 1 1; DCOD OCT 1 1;
   DCOD NOV 1 1; DCOD DEC 1 1; 0; 0;
   0; DCOD 0 2 1; DCOD JAN 2 1; DCOD FEB 2 1;
   DCOD MAR 2 1; DCOD APR 2 1; DCOD MAY 2 1; DCOD JUN 2 1;
   DCOD JUL 2 1; DCOD AUG 2 1; DCOD SEP 2 1; DCOD OCT 2 1;
   DCOD NOV 2 1; DCOD DEC 2 1; 0; 0;
   0; DCOD 0 3 1; DCOD JAN 3 1; DCOD FEB 3 1;
   DCOD MAR 3 1; DCOD APR 3 1; DCOD MAY 3 1; DCOD JUN 3 1;
   DCOD JUL 3 1; DCOD AUG 3 1; DCOD SEP 3 1; DCOD OCT 3 1;
   DCOD NOV 3 1; DCOD DEC 3 1; 0; 0].

(** The day of a date, counted from 1970. *)
Definition fat_day (dd : Z) : Z :=
  let day := u32 (Z.land dd 0x1f - 1) in
  let day := u32 (day + u32 (LYC * Z.land (Z.shiftr dd 11) 0x1f)) in
  let day := u32 (day + daytab !!! Z.to_nat (Z.land (Z.shiftr dd 5) 0x3f)) in
  let day := if (2100 - 1980) / 4 * LYC + FEB <=? day then u32 (day - 1) else day in
  u32 (day + T1980).

(** [DAY * day] is computed in 32 bits. *)
Definition fattime2timespec (utc_offset dd dt dh : Z) (utc : bool) : timespec :=
  let sec := u32 (Z.shiftl (Z.land dt 0x1f) 1) in
  let sec := s64 (sec + u32 (Z.shiftr (Z.land dt 0x7e0) 5 * 60)) in
  let sec := s64 (sec + u32 (Z.shiftr (Z.land dt 0xf800) 11 * 3600)) in
  let sec := s64 (sec + dh / 100) in
  let nsec := u32 (dh mod 100 * 10000000) in
  let sec := s64 (sec + u32 (DAY * fat_day dd)) in
  mkTime (if utc then sec else s64 (sec + utc_offset)) nsec.

(** * The calendar *)

Definition leap (y : Z) : bool := (y mod 4 =? 0) && negb (y mod 100 =? 0) || (y mod 400 =? 0).

Definition month_length (y m : Z) : Z :=
  if m =? 2 then if leap y then 29 else 28 else if (m =? 4) || (m =? 6) || (m =? 9) || (m =? 11) then 30 else 31.

Record date := mkDate { d_year : Z; d_month : Z; d_day : Z }.

Definition tomorrow (d : date) : date :=
  if d_day d <? month_length (d_year d) (d_month d) then mkDate (d_year d) (d_month d) (d_day d + 1)
  else if d_month d <? 12 then mkDate (d_year d) (d_month d + 1) 1
  else mkDate (d_year d + 1) 1 1.

(** The date of a day, counted from the first of January 1970. *)
Definition date_of (n : Z) : date := Nat.iter (Z.to_nat n) tomorrow (mkDate 1970 1 1).

Definition date_code (d : date) : Z := (d_year d - 1980) * 512 + d_month d * 32 + d_day d.
Definition time_code (sod : Z) : Z := sod / 3600 * 2048 + sod / 60 mod 60 * 32 + sod mod 60 / 2.

(** The first day after 2107, and the first whose seconds do not fit 32 bits. *)
Definition day_2108 : Z := 50403.
Definition day_wrap : Z := 49711.

(** ** The date as a sum

    Without the wrap-arounds, in the four-year cycle of a day. *)

Definition cycle_day (t2 : Z) : Z := if 43889 <=? t2 then t2 + 1 else t2.
Definition month_of (r : Z) : Z := find_month 48 (r / 32) r.
Definition month_end (m : Z) : Z := if m =? 47 then LYC else mtab_days (m + 1).

(** The tables have been evaluated. *)
Definition mtab_values : list (Z * Z) := Eval vm_compute in mtab.

Lemma mtab_eq : mtab = mtab_values.
Proof. by vm_compute. Qed.

Definition month_ok (r : Z) : bool :=
  let m := month_of r in
  (0 <=? m) && (m <=? 47) && (mtab_days m <=? r) && (r <? month_end m) && (month_end m - mtab_days m <=? 31) && (month_end m <=? LYC) &&
  (mtab_coded m mod 32 =? 0) && (0 <=? mtab_coded m) && (mtab_coded m <? 2048).

Lemma months_of_cycle r : 0 ≤ r < LYC →
  0 ≤ month_of r ≤ 47 ∧ mtab_days (month_of r) ≤ r < month_end (month_of r) ∧ month_end (month_of r) - mtab_days (month_of r) ≤ 31 ∧ month_end (month_of r) ≤ LYC ∧
  mtab_coded (month_of r) mod 32 = 0 ∧ 0 ≤ mtab_coded (month_of r) < 2048.
Proof.
  intros Hr. assert (forallb month_ok (seqZ 0 LYC) = true) as H by (unfold month_ok, month_of, month_end, mtab_days, mtab_coded; by vm_compute).
  rewrite forallb_forall in H. specialize (H r). unfold month_ok in H. rewrite !andb_true_iff, ?Z.leb_le, ?Z.ltb_lt, Z.eqb_eq in H.
  assert (In r (seqZ 0 LYC)) as Hin by (apply list_elem_of_In, elem_of_seqZ; lia). specialize (H Hin). tauto.
Qed.

(** The months of a cycle do not overlap. *)
Lemma month_unique r k k' : 0 ≤ k ≤ 47 → 0 ≤ k' ≤ 47 → mtab_days k ≤ r < month_end k → mtab_days k' ≤ r < month_end k' → k = k'.
Proof.
  assert (∀ k k', 0 ≤ k → k < k' → k' ≤ 47 → month_end k ≤ mtab_days k') as H.
  { assert (forallb (λ k, forallb (λ k', (k' <=? k) || (month_end k <=? mtab_days k')) (seqZ 0 48)) (seqZ 0 48) = true) as H by by vm_compute.
    intros k1 k2 H1 H2 H3. rewrite forallb_forall in H. specialize (H k1 ltac:(apply list_elem_of_In, elem_of_seqZ; lia)). rewrite forallb_forall in H.
    specialize (H k2 ltac:(apply list_elem_of_In, elem_of_seqZ; lia)). apply orb_true_iff in H as [H%Z.leb_le|H%Z.leb_le]; lia. }
  intros Hk Hk' H1 H2. destruct (Z.lt_trichotomy k k') as [Hlt|[->|Hlt]]; [|done|].
  - specialize (H k k'). lia.
  - specialize (H k' k). lia.
Qed.

Lemma lor_add x y : x mod 32 = 0 → 0 ≤ y < 32 → Z.lor x y = x + y.
Proof. intros Hx Hy. rewrite (Z.div_mod x 32), Hx, Z.add_0_r by done. rewrite Z.mul_comm. change 32 with (2 ^ 5). by rewrite lor_low. Qed.

Lemma fat_date_sum day t1 : t1 / DAY = day → T1980 ≤ day < day_2108 →
  let c := cycle_day (day - T1980) in let m := month_of (c mod LYC) in
  fat_date t1 = c / LYC * 2048 + mtab_coded m + (c mod LYC - mtab_days m + 1).
Proof.
  intros Hday Hd c m. unfold fat_date. unfold T1980, day_2108 in Hd. assert (0 ≤ t1) by (unfold DAY in *; div_mod_lia).
  rewrite Z.quot_div_nonneg by (unfold DAY; lia). rewrite Hday. rewrite (u32_id day) by (unfold is_u32; lia). unfold T1980.
  change (10 * 365 + 2) with 3652 in *. rewrite (proj2 (Z.ltb_ge day 3652)) by lia. rewrite (u32_id (day - 3652)) by (unfold is_u32; lia).
  change ((2100 - 1980) / 4 * LYC + FEB) with 43889. replace (if 43889 <=? day - 3652 then u32 (day - 3652 + 1) else day - 3652) with c.
  2: { unfold c, cycle_day, T1980. change (10 * 365 + 2) with 3652. rewrite u32_id by (unfold is_u32; lia). done. }
  assert (0 ≤ c < 32 * LYC) as Hc by (unfold c, cycle_day, LYC, YEAR, T1980; destruct (Z.leb_spec 43889 (day - (10 * 365 + 2))); lia).
  assert (0 ≤ c / LYC < 32) as Hl by (unfold LYC, YEAR in *; div_mod_lia). pose proof (Z.mod_pos_bound c LYC ltac:(done)) as Hr.
  pose proof (Z.div_mod c LYC ltac:(done)) as Hdm. destruct (months_of_cycle _ Hr) as (Hm & Hdays & Hlen & _ & Hcod & Hcr). fold m in Hm, Hdays, Hlen, Hcod, Hcr.
  rewrite !Z.shiftl_mul_pow2 by done. change (2 ^ 9) with 512.
  rewrite (u32_id (c / LYC * 4)), (u32_id (c / LYC * 4 * 512)), (u32_id (c / LYC * LYC)) by (unfold is_u32, LYC, YEAR in *; lia).
  replace (c - c / LYC * LYC) with (c mod LYC) by lia. rewrite (u32_id (c mod LYC)) by (unfold is_u32, LYC, YEAR in *; lia). change (find_month 48 (c mod LYC / 32) (c mod LYC)) with m.
  unfold u16, uwrap. rewrite (Z.mod_small (c / LYC * 4 * 512)) by lia. rewrite (Z.mod_small (c / LYC * 4 * 512 + _)) by lia.
  pose proof (Z.div_mod (mtab_coded m) 32 ltac:(done)) as Hk. rewrite Hcod in Hk.
  rewrite u32_id by (unfold is_u32; lia). rewrite lor_add.
  - rewrite Z.mod_small by lia. lia.
  - rewrite Hk. replace (c / LYC * 4 * 512 + (32 * (mtab_coded m / 32) + 0)) with ((c / LYC * 64 + mtab_coded m / 32) * 32) by lia. by apply Z.mod_mul.
  - lia.
Qed.

Definition uncycle (c : Z) : Z := if 43889 <=? c then c - 1 else c.

Lemma fat_day_sum dd : 0 ≤ dd < 65536 → 1 ≤ dd mod 32 →
  (0 ≤ daytab !!! Z.to_nat (dd / 32 mod 64) ≤ LYC) →
  fat_day dd = uncycle (dd mod 32 - 1 + LYC * (dd / 2048) + daytab !!! Z.to_nat (dd / 32 mod 64)) + T1980.
Proof.
  intros Hd H1 Ht. unfold fat_day. change 0x1f with (Z.ones 5). change 0x3f with (Z.ones 6). rewrite !Z.land_ones, !Z.shiftr_div_pow2 by done.
  change (2 ^ 5) with 32. change (2 ^ 6) with 64. change (2 ^ 11) with 2048. pose proof (Z.mod_pos_bound dd 32 ltac:(done)).
  assert (0 ≤ dd / 2048 < 32) as H2 by div_mod_lia. rewrite (Z.mod_small (dd / 2048)) by done. set (t := daytab !!! _) in *. unfold LYC, YEAR in *.
  rewrite (u32_id (dd mod 32 - 1)), (u32_id (_ * (dd / 2048))) by (unfold is_u32; lia). rewrite (u32_id (dd mod 32 - 1 + _)) by (unfold is_u32; lia).
  rewrite (u32_id (_ + t)) by (unfold is_u32; lia). change ((2100 - 1980) / 4 * (4 * 365 + 1) + FEB) with 43889. unfold uncycle, T1980.
  destruct (Z.leb_spec 43889 (dd mod 32 - 1 + (4 * 365 + 1) * (dd / 2048) + t)).
  - rewrite (u32_id (_ - 1)) by (unfold is_u32; lia). apply u32_id. unfold is_u32. lia.
  - apply u32_id. unfold is_u32. lia.
Qed.

(** ** A month *)

Definition month_check (s y m : Z) : bool :=
  let len := month_length y m in
  let c := cycle_day (s - T1980) in
  let r := c mod LYC in
  let k := month_of r in
  let t := daytab !!! Z.to_nat ((y - 1980) mod 4 * 16 + m) in
  (mtab_days k =? r) && (c / LYC * 2048 + mtab_coded k =? (y - 1980) * 512 + m * 32) && (r + len <=? month_end k) &&
  (cycle_day (s - T1980 + len - 1) =? c + len - 1) && (LYC * ((y - 1980) / 4) + t =? c) && (0 <=? t) && (t <=? LYC) &&
  (uncycle c =? s - T1980) && (uncycle (c + len - 1) =? s - T1980 + len - 1) && (1 <=? m) && (m <=? 12) && (1980 <=? y) && (y <=? 2107).

Fixpoint months_check (n : nat) (s y m : Z) : bool :=
  match n with
  | O => true
  | S n => month_check s y m && (if m =? 12 then months_check n (s + month_length y m) (y + 1) 1 else months_check n (s + month_length y m) y (m + 1))
  end.

Fixpoint months_end (n : nat) (s y m : Z) : Z :=
  match n with
  | O => s
  | S n => if m =? 12 then months_end n (s + month_length y m) (y + 1) 1 else months_end n (s + month_length y m) y (m + 1)
  end.

Lemma months_1980_2107 : months_check 1536 T1980 1980 1 = true ∧ months_end 1536 T1980 1980 1 = day_2108.
Proof. by vm_compute. Qed.

Lemma date_of_succ n : 0 ≤ n → date_of (n + 1) = tomorrow (date_of n).
Proof. intros Hn. unfold date_of. replace (Z.to_nat (n + 1)) with (S (Z.to_nat n)) by lia. done. Qed.

Lemma date_in_month s y m (j : nat) : 0 ≤ s → date_of s = mkDate y m 1 → Z.of_nat j < month_length y m → date_of (s + Z.of_nat j) = mkDate y m (1 + Z.of_nat j).
Proof.
  intros Hs Hd. induction j as [|j IH]; intros Hj; [by rewrite Z.add_0_r|].
  replace (s + Z.of_nat (S j)) with (s + Z.of_nat j + 1) by lia. rewrite date_of_succ, IH by lia. unfold tomorrow. cbn [d_day d_year d_month].
  rewrite (proj2 (Z.ltb_lt _ _)) by lia. f_equal. lia.
Qed.

(** What the conversions have to do for a day. *)
Definition day_ok (day : Z) : Prop :=
  (∀ t1, t1 / DAY = day → fat_date t1 = date_code (date_of day)) ∧ fat_day (date_code (date_of day)) = day ∧ 0 ≤ date_code (date_of day) < 65536.

Lemma month_length_range y m : 28 ≤ month_length y m ≤ 31.
Proof. unfold month_length. repeat case_match; lia. Qed.

Lemma day_of_month s y m (j : Z) : T1980 ≤ s → s + j < day_2108 → date_of s = mkDate y m 1 → month_check s y m = true → 0 ≤ j < month_length y m → day_ok (s + j).
Proof.
  intros Hs He Hd Hc Hj. unfold month_check in Hc. rewrite !andb_true_iff, ?Z.leb_le, ?Z.eqb_eq in Hc. pose proof (month_length_range y m) as Hlen.
  destruct Hc as ((((((((((((C1 & C2) & C3) & C4) & C5) & C6) & C7) & C8) & C9) & C10) & C11) & C12) & C13). unfold T1980 in Hs.
  set (c := cycle_day (s - T1980)) in *. set (len := month_length y m) in *. assert (date_of (s + j) = mkDate y m (1 + j)) as Ed.
  { rewrite <- (Z2Nat.id j) by lia. apply date_in_month; [lia|done|lia]. }
  pose proof (Z.mod_pos_bound c LYC ltac:(done)) as Hr. destruct (months_of_cycle _ Hr) as (Hm & Hdays & Hml & Hme & Hcod & Hcr). set (k := month_of (c mod LYC)) in *.
  assert (cycle_day (s + j - T1980) = c + j) as Ec.
  { unfold c, cycle_day in *. clear -C4 Hj. destruct (Z.leb_spec 43889 (s - T1980)), (Z.leb_spec 43889 (s - T1980 + len - 1)), (Z.leb_spec 43889 (s + j - T1980)); lia. }
  assert ((c + j) / LYC = c / LYC ∧ (c + j) mod LYC = c mod LYC + j) as [Eq Er].
  { pose proof (Z.div_mod c LYC ltac:(done)). assert (c + j = LYC * (c / LYC) + (c mod LYC + j)) as E by lia. split.
    - symmetry. apply (Z.div_unique_pos _ _ _ (c mod LYC + j)); lia.
    - symmetry. apply (Z.mod_unique_pos _ _ (c / LYC)); lia. }
  assert (month_of (c mod LYC + j) = k) as Ek.
  { destruct (months_of_cycle (c mod LYC + j) ltac:(lia)) as (Hm' & Hdays' & _). apply (month_unique (c mod LYC + j)); [done|done|done|lia]. }
  unfold day_ok, date_code. rewrite Ed. cbn [d_year d_month d_day]. split; [|split; [|lia]].
  - intros t1 Ht. rewrite (fat_date_sum _ _ Ht) by (unfold T1980; lia). rewrite Ec, Eq, Er, Ek. lia.
  - set (dd := (y - 1980) * 512 + m * 32 + (1 + j)). assert (dd mod 32 = 1 + j) as E1 by (subst dd; div_mod_lia).
    assert (dd / 32 mod 64 = (y - 1980) mod 4 * 16 + m) as E2.
    { assert (dd / 32 = (y - 1980) * 16 + m) as -> by (subst dd; div_mod_lia). div_mod_lia. }
    assert (dd / 2048 = (y - 1980) / 4) as E3 by (subst dd; div_mod_lia). rewrite fat_day_sum; rewrite ?E1, ?E2, ?E3; [|subst dd; lia|lia|lia].
    replace (1 + j - 1 + LYC * ((y - 1980) / 4) + daytab !!! Z.to_nat ((y - 1980) mod 4 * 16 + m)) with (c + j) by lia.
    enough (uncycle (c + j) = s - T1980 + j) by lia. unfold uncycle in *. clear -C8 C9 Hj.
    destruct (Z.leb_spec 43889 c), (Z.leb_spec 43889 (c + len - 1)), (Z.leb_spec 43889 (c + j)); lia.
Qed.

Lemma months_ok n : ∀ s y m day, T1980 ≤ s → date_of s = mkDate y m 1 → months_check n s y m = true →
  s ≤ day < months_end n s y m → day < day_2108 → day_ok day.
Proof.
  induction n as [|n IH]; intros s y m day Hs Hd Hc Hday He; cbn [months_check months_end] in *; [lia|]. apply andb_true_iff in Hc as [Hm Hc].
  pose proof (month_length_range y m) as Hlen. destruct (decide (day < s + month_length y m)).
  { replace day with (s + (day - s)) by lia. eapply day_of_month; try done; lia. }
  assert (date_of (s + month_length y m) = if m =? 12 then mkDate (y + 1) 1 1 else mkDate y (m + 1) 1) as Hnext.
  { unfold T1980 in Hs. replace (s + month_length y m) with (s + (month_length y m - 1) + 1) by lia. rewrite date_of_succ by lia.
    rewrite <- (Z2Nat.id (month_length y m - 1)) by lia. rewrite (date_in_month s y m) by (done || lia). unfold tomorrow. cbn [d_day d_year d_month].
    rewrite (proj2 (Z.ltb_ge _ _)) by lia. unfold month_check in Hm. rewrite !andb_true_iff, ?Z.leb_le in Hm.
    destruct (Z.eqb_spec m 12) as [->|]; [done|]. rewrite (proj2 (Z.ltb_lt m 12)) by lia. done. }
  destruct (m =? 12); [apply (IH (s + month_length y m) (y + 1) 1)|apply (IH (s + month_length y m) y (m + 1))]; try done; lia.
Qed.

(** Every day from 1980 to 2107 has the date of the calendar. *)
Lemma fat_calendar day : T1980 ≤ day < day_2108 → day_ok day.
Proof.
  intros Hday. destruct months_1980_2107 as [H1 H2]. apply (months_ok 1536 T1980 1980 1); [done|by vm_compute|done|by rewrite H2|lia].
Qed.

(** * Time of day *)

Lemma fat_time_code t1 : 0 ≤ t1 → fat_time t1 = time_code (t1 mod DAY) ∧ 0 ≤ fat_time t1 < 65536.
Proof.
  intros Ht. unfold fat_time, time_code. rewrite !Z.quot_div_nonneg, !Z.rem_mod_nonneg by (try apply Z.div_pos; lia). unfold DAY. change (24 * 60 * 60) with 86400.
  set (h := t1 / 3600 mod 24). set (mi := t1 / 60 mod 60). set (x := t1 / 2 mod 30).
  assert (0 ≤ h < 24 ∧ h = t1 mod 86400 / 3600) as [Hh ->] by (subst h; split; [by apply Z.mod_pos_bound|div_mod_lia]).
  assert (0 ≤ mi < 60 ∧ mi = t1 mod 86400 / 60 mod 60) as [Hmi Emi] by (subst mi; split; [by apply Z.mod_pos_bound|div_mod_lia]).
  assert (0 ≤ x < 30 ∧ x = t1 mod 86400 mod 60 / 2) as [Hx Ex] by (subst x; split; [by apply Z.mod_pos_bound|div_mod_lia]).
  rewrite Emi in Hmi |- *. rewrite Ex in Hx |- *. clear Emi Ex mi x. set (h := t1 mod 86400 / 3600) in *. set (mi := t1 mod 86400 / 60 mod 60) in *. set (x := t1 mod 86400 mod 60 / 2) in *.
  rewrite !Z.shiftl_mul_pow2 by done. change (2 ^ 5) with 32. change (2 ^ 11) with 2048. unfold u16, uwrap. rewrite (Z.mod_small x) by lia.
  rewrite (Z.lor_comm x), (lor_add (mi * 32)) by (rewrite ?Z.mod_mul; lia). rewrite (Z.mod_small (mi * 32 + x)) by lia.
  rewrite Z.lor_comm. change 2048 with (2 ^ 11). rewrite (lor_low h (mi * 32 + x) 11) by lia. change (2 ^ 11) with 2048. rewrite Z.mod_small by lia. lia.
Qed.

Lemma decode_time dt : 0 ≤ dt < 65536 →
  Z.shiftl (Z.land dt 0x1f) 1 = 2 * (dt mod 32) ∧ Z.shiftr (Z.land dt 0x7e0) 5 = dt / 32 mod 64 ∧ Z.shiftr (Z.land dt 0xf800) 11 = dt / 2048.
Proof.
  intros Hdt. rewrite !Z.shiftr_land, !Z.shiftl_mul_pow2 by done. change 0x1f with (Z.ones 5). change (Z.shiftr 0x7e0 5) with (Z.ones 6). change (Z.shiftr 0xf800 11) with (Z.ones 5).
  rewrite !Z.land_ones, !Z.shiftr_div_pow2 by done. change (2 ^ 5) with 32. change (2 ^ 6) with 64. change (2 ^ 11) with 2048. split; [lia|]. split; [done|]. apply Z.mod_small. div_mod_lia.
Qed.

(** * Both conversions *)

(** The time of a date and a time of day in a directory entry. *)
Lemma fattime2timespec_run utc_offset day dt dh utc :
  T1980 ≤ day < day_2108 → 0 ≤ dt < 65536 → 0 ≤ dh < 256 → is_s32 utc_offset →
  fattime2timespec utc_offset (date_code (date_of day)) dt dh utc =
  mkTime (2 * (dt mod 32) + dt / 32 mod 64 * 60 + dt / 2048 * 3600 + dh / 100 + u32 (DAY * day) + (if utc then 0 else utc_offset)) (dh mod 100 * 10000000).
Proof.
  intros Hday Hdt Hdh Hoff. unfold fattime2timespec. destruct (fat_calendar day Hday) as (_ & -> & _). destruct (decode_time dt Hdt) as (-> & -> & ->).
  pose proof (Z.mod_pos_bound dt 32 ltac:(done)). pose proof (Z.mod_pos_bound (dt / 32) 64 ltac:(done)). pose proof (Z.mod_pos_bound dh 100 ltac:(done)).
  assert (0 ≤ dt / 2048 < 32) by div_mod_lia. assert (0 ≤ dh / 100 < 3) by div_mod_lia. pose proof (u32_range (DAY * day)) as Hu. unfold is_u32, is_s32 in *.
  rewrite (u32_id (2 * _)), (u32_id (_ * 60)), (u32_id (_ * 3600)), (u32_id (_ * 10000000)) by (unfold is_u32; lia).
  unfold s64. rewrite (swrap_id 64 (2 * (dt mod 32) + _)) by lia. rewrite (swrap_id 64 (_ + dt / 2048 * 3600)) by lia. rewrite (swrap_id 64 (_ + dh / 100)) by lia.
  rewrite (swrap_id 64 (_ + u32 (DAY * day))) by lia. f_equal. destruct utc; [lia|]. apply swrap_id; lia.
Qed.

Lemma time_code_seconds sod : 0 ≤ sod < 86400 →
  2 * (time_code sod mod 32) + time_code sod / 32 mod 64 * 60 + time_code sod / 2048 * 3600 = sod - sod mod 2.
Proof.
  intros Hs. unfold time_code. set (h := sod / 3600). set (mi := sod / 60 mod 60). set (x := sod mod 60 / 2).
  assert (0 ≤ h < 24) by (subst h; div_mod_lia). assert (0 ≤ mi < 60) by (by apply Z.mod_pos_bound). assert (0 ≤ x < 30) by (subst x; div_mod_lia).
  assert ((h * 2048 + mi * 32 + x) mod 32 = x ∧ (h * 2048 + mi * 32 + x) / 32 mod 64 = mi ∧ (h * 2048 + mi * 32 + x) / 2048 = h) as (-> & -> & ->).
  { split; [div_mod_lia|]. split; [|div_mod_lia]. assert ((h * 2048 + mi * 32 + x) / 32 = h * 64 + mi) as -> by div_mod_lia. div_mod_lia. }
  subst h mi x. div_mod_lia.
Qed.

(** C34. Time stamps: from 1980 to 2107 timespec2fattime writes the date of the Gregorian
    calendar (2100 is no leap year) and the time of day of the local or UTC time, and
    up to the seventh of February 2106 fattime2timespec gives the time back, to the
    hundredth of a second; after that day the seconds are computed modulo 2^32. *)
Theorem fattime_roundtrip utc_offset ts (utc : bool) :
  let t1 := tv_sec ts - (if utc then 0 else utc_offset) in
  let day := t1 / DAY in
  T1980 ≤ day < day_2108 → 0 ≤ tv_nsec ts < 10 ^ 9 → is_s32 utc_offset → (2 | utc_offset) →
  ∃ dd dt dh, timespec2fattime utc_offset ts utc true true true = (Some dd, Some dt, Some dh) ∧
    dd = date_code (date_of day) ∧ dt = time_code (t1 mod DAY) ∧
    fattime2timespec utc_offset dd dt dh utc =
      mkTime (if decide (day < day_wrap) then tv_sec ts else tv_sec ts - 2 ^ 32) (tv_nsec ts / 10 ^ 7 * 10 ^ 7).
Proof.
  intros t1 day Hday Hns Hoff [k Hk]. assert (0 ≤ t1 < 2 ^ 62) as Ht1 by (unfold day, T1980, day_2108, DAY in *; div_mod_lia).
  assert ((if utc then tv_sec ts else s64 (tv_sec ts - utc_offset)) = t1) as Et.
  { unfold t1 in *. destruct utc; [lia|]. unfold s64. apply swrap_id; lia. }
  unfold timespec2fattime. rewrite Et. destruct (fat_calendar day Hday) as (Hdd & _ & Hcode). rewrite (Hdd t1 eq_refl).
  destruct (fat_time_code t1) as [Edt Hdt]; [lia|]. set (x := tv_sec ts mod 2). pose proof (Z.mod_pos_bound (tv_sec ts) 2 ltac:(done)) as Hx. fold x in Hx.
  assert (fat_hundredths ts = x * 100 + tv_nsec ts / 10 ^ 7) as Edh.
  { unfold fat_hundredths. change 1 with (Z.ones 1) at 1. rewrite Z.land_ones by done. change (2 ^ 1) with 2. fold x. rewrite Z.quot_div_nonneg by lia.
    change (10 ^ 7) with 10000000. unfold u8, uwrap. apply Z.mod_small. assert (0 ≤ tv_nsec ts / 10000000 < 100) by (change (10 ^ 9) with 1000000000 in Hns; div_mod_lia). lia. }
  assert (0 ≤ tv_nsec ts / 10 ^ 7 < 100) as Hcs by (change (10 ^ 7) with 10000000; change (10 ^ 9) with 1000000000 in Hns; div_mod_lia).
  eexists _, _, _. split; [done|]. split; [done|]. split; [done|]. rewrite Edh. rewrite fattime2timespec_run by (done || lia).
  set (cs := tv_nsec ts / 10 ^ 7) in *. assert ((x * 100 + cs) / 100 = x ∧ (x * 100 + cs) mod 100 = cs) as [-> ->] by (split; div_mod_lia). f_equal.
  pose proof (time_code_seconds (t1 mod DAY) ltac:(by apply Z.mod_pos_bound)) as Hsec. rewrite <- Edt in Hsec. rewrite Hsec.
  assert (t1 mod DAY mod 2 = x) as Ep by (unfold x, t1, DAY in *; clear -Hk; destruct utc; div_mod_lia). rewrite Ep.
  pose proof (Z.div_mod t1 DAY ltac:(done)) as Hdm. fold day in Hdm. unfold u32, uwrap.
  case_decide as Hw; unfold day_wrap, T1980, day_2108 in *.
  - rewrite (Z.mod_small (DAY * day) (2 ^ 32)) by (unfold DAY; lia). unfold t1 in *. destruct utc; lia.
  - rewrite <- (Z_mod_plus_full (DAY * day) (-1) (2 ^ 32)), (Z.mod_small (DAY * day + _)) by (unfold DAY; lia). unfold t1 in *. destruct utc; lia.
Qed.

Lemma fattime_roundtrip_witness :
  ∃ dd dt dh, timespec2fattime (-3600) (mkTime 1709210096 123456789) false true true true = (Some dd, Some dt, Some dh) ∧
    dd = date_code (mkDate 2024 2 29) ∧ dt = time_code (13 * 3600 + 34 * 60 + 56) ∧
    fattime2timespec (-3600) dd dt dh false = mkTime 1709210096 120000000.
Proof.
  destruct (fattime_roundtrip (-3600) (mkTime 1709210096 123456789) false) as (dd & dt & dh & E & Hdd & Hdt & Hts); [by vm_compute|by vm_compute|by vm_compute|by exists (-1800)|].
  exists dd, dt, dh. split; [exact E|]. split; [rewrite Hdd; by vm_compute|]. split; [rewrite Hdt; by vm_compute|]. rewrite Hts. by vm_compute.
Defined.

(** Times more than a day before 1970 are not truncated to 1980 as the comment says:
    the number of days is unsigned. *)
Lemma fat_date_before_1970 : fat_date (- DAY) ≠ 0x0021 ∧ fat_date (- DAY + 1) = 0x0021.
Proof. split; by vm_compute. Qed.
