(* ===== verification/Fat.v ===== *)
(** src/add-ons/kernel/file_systems/fat/bsd/fs/msdosfs/msdosfs_fat.c: the file
    allocation table, the map of clusters in use, and allocation.

    The volume is the memory [dev] of its bytes as the block cache shows it.  [bread]
    copies a block into a buffer, [bwrite] and [bdwrite] put it back; what the cache
    answers is taken from [errs], one error number for each call that can fail (none
    left: no more failures).  The assertions of the code are part of the model: an
    assertion that does not hold is a fault. *)

From S2P Require Import Prelude Errors.

(** * Constants and the mounted volume *)

Definition DEV_BSIZE : Z := 512.
Definition N_INUSEBITS : Z := 8 * 4.
Definition FULL_RUN : Z := 0xffffffff.

Definition MSDOSFSROOT : Z := 0.
Definition CLUST_FREE : Z := 0.
Definition MSDOSFSFREE : Z := CLUST_FREE.
Definition CLUST_FIRST : Z := 2.
Definition CLUST_RSRVD : Z := 0xfffffff6.
Definition CLUST_EOFS : Z := 0xfffffff8.
Definition CLUST_EOFE : Z := 0xffffffff.

Definition FAT12_MASK : Z := 0x00000fff.
Definition FAT16_MASK : Z := 0x0000ffff.
Definition FAT32_MASK : Z := 0x0fffffff.

Definition FAT_GET : Z := 1.
Definition FAT_SET : Z := 2.
Definition FAT_GET_AND_SET : Z := Z.lor FAT_GET FAT_SET.

Definition MSDOSFSMNT_RONLY : Z := 0x80000000.
Definition MSDOSFS_FATMIRROR : Z := 0x20000000.
Definition MSDOSFS_FSIMOD : Z := 0x01000000.

Definition EINTEGRITY : Z := 97.

(** The fields of [struct msdosfsmount] that mounting sets once, and whether the volume
    was mounted for synchronous writing. *)
Record geometry := mkGeometry {
  pm_fatmask : Z;
  pm_fatmult : Z;
  pm_fatdiv : Z;
  pm_fatblocksize : Z;
  pm_fatblocksec : Z;
  pm_FATsecs : Z;
  pm_fatblk : Z;
  pm_curfat : Z;
  pm_FATs : Z;
  pm_BytesPerSec : Z;
  pm_BlkPerSec : Z;
  pm_Media : Z;
  pm_maxcluster : Z;
  pm_firstcluster : Z;
  pm_rootdirblk : Z;
  pm_rootdirsize : Z;
  pm_cnshift : Z;
  pm_bnshift : Z;
  pm_bpcluster : Z;
  mnt_synchronous : bool
}.

(** Its other fields, the bytes of the volume, the answers of the cache that are still to
    come, and the number of integrity errors that were reported. *)
Record msdosfsmount := mkMount {
  dev : Z → Z;
  pm_inusemap : list Z;
  pm_freeclustercount : Z;
  pm_nxtfree : Z;
  pm_flags : Z;
  pm_fmod : Z;
  pm_fatlock : Z;
  errs : list Z;
  integrity : Z
}.

Definition set_dev x s := mkMount x (pm_inusemap s) (pm_freeclustercount s) (pm_nxtfree s) (pm_flags s) (pm_fmod s) (pm_fatlock s) (errs s) (integrity s).
Definition set_inusemap x s := mkMount (dev s) x (pm_freeclustercount s) (pm_nxtfree s) (pm_flags s) (pm_fmod s) (pm_fatlock s) (errs s) (integrity s).
Definition set_freeclustercount x s := mkMount (dev s) (pm_inusemap s) x (pm_nxtfree s) (pm_flags s) (pm_fmod s) (pm_fatlock s) (errs s) (integrity s).
Definition set_nxtfree x s := mkMount (dev s) (pm_inusemap s) (pm_freeclustercount s) x (pm_flags s) (pm_fmod s) (pm_fatlock s) (errs s) (integrity s).
Definition set_flags x s := mkMount (dev s) (pm_inusemap s) (pm_freeclustercount s) (pm_nxtfree s) x (pm_fmod s) (pm_fatlock s) (errs s) (integrity s).
Definition set_fmod x s := mkMount (dev s) (pm_inusemap s) (pm_freeclustercount s) (pm_nxtfree s) (pm_flags s) x (pm_fatlock s) (errs s) (integrity s).
Definition set_fatlock x s := mkMount (dev s) (pm_inusemap s) (pm_freeclustercount s) (pm_nxtfree s) (pm_flags s) (pm_fmod s) x (errs s) (integrity s).
Definition set_errs x s := mkMount (dev s) (pm_inusemap s) (pm_freeclustercount s) (pm_nxtfree s) (pm_flags s) (pm_fmod s) (pm_fatlock s) x (integrity s).
Definition set_integrity x s := mkMount (dev s) (pm_inusemap s) (pm_freeclustercount s) (pm_nxtfree s) (pm_flags s) (pm_fmod s) (pm_fatlock s) (errs s) x.

Notation FM := (M msdosfsmount).

Definition KASSERT (b : bool) : FM unit := if b then mret tt else failM AssertFailed.

(** [pm_fatlock] counts how often the thread holds the lock: a writer may lock again. *)
Definition MSDOSFS_LOCK_MP : FM unit := modifyS (λ s, set_fatlock (pm_fatlock s + 1) s).
Definition MSDOSFS_UNLOCK_MP : FM unit := modifyS (λ s, set_fatlock (pm_fatlock s - 1) s).
Definition MSDOSFS_ASSERT_MP_LOCKED : FM unit := s ← getS; KASSERT (0 <? pm_fatlock s).

(** * Buffers *)

(** [b_data] holds [b_bcount] bytes. *)
Record buf := mkBuf { b_blkno : Z; b_bcount : Z; b_data : Z → Z }.

Definition upd (f : Z → Z) (o x : Z) : Z → Z := λ a, if a =? o then x else f a.

Definition in_buf (b : buf) (o n : Z) : bool := (0 <=? o) && (o + n <=? b_bcount b).

Definition getushort (b : buf) (o : Z) : outcome Z :=
  if in_buf b o 2 then Ok (Z.lor (b_data b o) (Z.shiftl (b_data b (o + 1)) 8)) else Bad OutOfBounds.

Definition putushort (b : buf) (o v : Z) : outcome buf :=
  if in_buf b o 2 then
    Ok (mkBuf (b_blkno b) (b_bcount b) (upd (upd (b_data b) o (Z.land v 0xff)) (o + 1) (Z.land (Z.shiftr v 8) 0xff)))
  else Bad OutOfBounds.

Definition getulong (b : buf) (o : Z) : outcome Z :=
  if in_buf b o 4 then
    Ok (Z.lor (Z.lor (Z.lor (Z.shiftl (b_data b (o + 3)) 24) (Z.shiftl (b_data b (o + 2)) 16)) (Z.shiftl (b_data b (o + 1)) 8)) (b_data b o))
  else Bad OutOfBounds.

Definition putulong (b : buf) (o v : Z) : outcome buf :=
  if in_buf b o 4 then
    Ok (mkBuf (b_blkno b) (b_bcount b)
      (upd (upd (upd (upd (b_data b) o (Z.land v 0xff)) (o + 1) (Z.land (Z.shiftr v 8) 0xff))
        (o + 2) (Z.land (Z.shiftr v 16) 0xff)) (o + 3) (Z.land (Z.shiftr v 24) 0xff)))
  else Bad OutOfBounds.

(** The next answer of the cache: 0 or an error. *)
Definition next_err : FM Z :=
  s ← getS;
  match errs s with
  | [] => mret 0
  | e :: es => modifyS (set_errs es);; mret e
  end.

Section Model.
Context (pmp : geometry).

Definition FAT12 : bool := pm_fatmask pmp =? FAT12_MASK.
Definition FAT16 : bool := pm_fatmask pmp =? FAT16_MASK.
Definition FAT32 : bool := pm_fatmask pmp =? FAT32_MASK.

Definition BLOCK_TO_SECTOR (block : Z) : Z := block * DEV_BSIZE / pm_BytesPerSec pmp.

(** The address of a block of the device. *)
Definition block_address (bn : Z) : Z := BLOCK_TO_SECTOR bn * pm_BytesPerSec pmp.

Definition bread (bn size : Z) : FM (Z + buf) :=
  error ← next_err;
  if negb (error =? 0) then mret (inl error)
  else s ← getS; mret (inr (mkBuf bn size (λ i, dev s (block_address bn + i)))).

Definition bdwrite (bp : buf) : FM unit :=
  modifyS (λ s, set_dev (λ a,
    let o := a - block_address (b_blkno bp) in
    if (0 <=? o) && (o <? b_bcount bp) then b_data bp o else dev s a) s).

(** The status is that of flushing the block. *)
Definition bwrite (bp : buf) : FM Z := bdwrite bp;; next_err.

(** * The table *)

(** [~pmp->pm_fatmask], of 32 bits. *)
Definition fatmask_not : Z := u32 (Z.lnot (pm_fatmask pmp)).

Definition reserved (cn : Z) : bool := CLUST_RSRVD <=? Z.lor cn fatmask_not.

Definition MSDOSFSEOF (cn : Z) : bool := Z.land (Z.lor cn fatmask_not) CLUST_EOFS =? CLUST_EOFS.

Definition FATOFS (cn : Z) : Z := u64 (cn * pm_fatmult pmp) / pm_fatdiv pmp.

Definition roundup (x y : Z) : Z := (x + (y - 1)) / y * y.

(** Block, size of the block and offset in it of an offset into the table. *)
Definition fatblock (ofs : Z) : Z * Z * Z :=
  let fatblocksec := pm_fatblocksec pmp in
  let fatblocksec :=
    if FAT12 && negb (fatblocksec mod 3 =? 0) then
      let f := u64 (fatblocksec * 3) in if f mod 6 =? 0 then f / 2 else f
    else fatblocksec in
  let bn := u64 (ofs / pm_fatblocksize pmp * pm_fatblocksec pmp) in
  let size := roundup (u64 (Z.min fatblocksec (u64 (pm_FATsecs pmp - bn)) * DEV_BSIZE)) (pm_BlkPerSec pmp * DEV_BSIZE) in
  (u64 (bn + (pm_fatblk pmp + pm_curfat pmp * pm_FATsecs pmp)), size, ofs mod pm_fatblocksize pmp).

(** The entry at [bo], in the upper or the lower twelve bits of a word when [cn] is odd or
    even. *)
Definition get_fat (cn : Z) (bp : buf) (bo : Z) : outcome Z :=
  readcn ← (if FAT32 then getulong bp bo else getushort bp bo);
  let readcn := if FAT12 && Z.odd cn then Z.shiftr readcn 4 else readcn in
  Ok (Z.land readcn (pm_fatmask pmp)).

Definition put_fat (cn : Z) (bp : buf) (bo newc : Z) : outcome buf :=
  if pm_fatmask pmp =? FAT12_MASK then
    readcn ← getushort bp bo;
    putushort bp bo (if Z.odd cn then Z.lor (Z.land readcn 0x000f) (Z.shiftl newc 4)
                     else Z.lor (Z.land readcn 0xf000) (Z.land newc 0xfff))
  else if pm_fatmask pmp =? FAT16_MASK then putushort bp bo newc
  else if pm_fatmask pmp =? FAT32_MASK then
    readcn ← getulong bp bo;
    putulong bp bo (Z.lor (Z.land readcn (Z.lnot FAT32_MASK)) (Z.land newc FAT32_MASK))
  else Ok bp.

(** The special cluster numbers are the same for all sizes of entries. *)
Definition canonical (cn : Z) : Z := if reserved cn then Z.lor cn fatmask_not else cn.

(** ** updatefats *)

Definition write_fat (bp : buf) : FM unit :=
  if mnt_synchronous pmp then bwrite bp;; mret tt else bdwrite bp.

(** The clean bit is forced on in a copy. *)
Definition force_clean (cleanfat : Z) (bp : buf) : outcome buf :=
  let set o b :=
    if in_buf bp o 1 then Ok (mkBuf (b_blkno bp) (b_bcount bp) (upd (b_data bp) o (Z.lor (b_data bp o) b)))
    else Bad OutOfBounds in
  if cleanfat =? 16 then set 3 0x80 else if cleanfat =? 32 then set 7 0x08 else Ok bp.

Fixpoint copy_fats (n : nat) (cleanfat : Z) (bp : buf) (fatbn : Z) : FM unit :=
  match n with
  | O => mret tt
  | S n =>
      let fatbn := u64 (fatbn + pm_FATsecs pmp) in
      error ← next_err;
      if negb (error =? 0) then failM NullDeref
      else
        bpn ← liftO (force_clean cleanfat (mkBuf fatbn (b_bcount bp) (b_data bp)));
        write_fat bpn;;
        copy_fats n cleanfat bp fatbn
  end.

Definition updatefats (bp : buf) (fatbn : Z) : FM unit :=
  s ← getS;
  (if negb (Z.land (pm_flags s) MSDOSFS_FATMIRROR =? 0) then
     let cleanfat := if negb (fatbn =? pm_fatblk pmp) || FAT12 then 0 else if FAT16 then 16 else 32 in
     copy_fats (Z.to_nat (pm_FATs pmp - 1)) cleanfat bp fatbn
   else mret tt);;
  write_fat bp.

(** ** One entry, and a chain of entries *)

(** The answer of a read is [Some]. *)
Definition fatentry (function cn newcontents : Z) : FM (Z * option Z) :=
  if (cn <? CLUST_FIRST) || (pm_maxcluster pmp <? cn) then mret (EINVAL, None)
  else
    let '(bn, bsize, bo) := fatblock (FATOFS cn) in
    r ← bread bn bsize;
    match r with
    | inl error => mret (error, None)
    | inr bp =>
        old ← (if negb (Z.land function FAT_GET =? 0) then
                 readcn ← liftO (get_fat cn bp bo); mret (Some (canonical readcn))
               else mret None);
        (if negb (Z.land function FAT_SET =? 0) then
           bp ← liftO (put_fat cn bp bo newcontents);
           updatefats bp bn;; modifyS (set_fmod 1)
         else mret tt);;
        mret (0, old)
    end.

(** The entries of one block. *)
Fixpoint fill_block (fuel : nat) (bsize bo start count fillwith : Z) (bp : buf) : outcome (Z * Z * buf) :=
  match fuel with
  | O => Hang
  | S fuel =>
      if count =? 0 then Ok (start, count, bp)
      else
        let start := start + 1 in
        let count := count - 1 in
        let newc := if 0 <? count then start else fillwith in
        bp ← put_fat (start - 1) bp bo newc;
        let bo :=
          if FAT12 then (if Z.odd start then bo + 1 else bo + 1 + 1)
          else if FAT16 then bo + 2 else bo + 4 in
        if bsize <=? bo then Ok (start, count, bp) else fill_block fuel bsize bo start count fillwith bp
  end.

Fixpoint fatchain_loop (fuel : nat) (start count fillwith : Z) : FM Z :=
  match fuel with
  | O => hangM
  | S fuel =>
      if count =? 0 then modifyS (set_fmod 1);; mret 0
      else
        let '(bn, bsize, bo) := fatblock (FATOFS start) in
        r ← bread bn bsize;
        match r with
        | inl error => mret error
        | inr bp =>
            '(start, count, bp) ← liftO (fill_block (S (Z.to_nat count)) bsize bo start count fillwith bp);
            updatefats bp bn;;
            fatchain_loop fuel start count fillwith
        end
  end.

Definition fatchain (start count fillwith : Z) : FM Z :=
  if (start <? CLUST_FIRST) || (pm_maxcluster pmp <? u64 (start + count - 1)) then mret EINVAL
  else fatchain_loop (S (Z.to_nat count)) start count fillwith.

(** * The map of clusters in use *)

Definition map_word (idx : Z) : FM Z :=
  s ← getS;
  if idx <? 0 then failM OutOfBounds
  else match pm_inusemap s !! Z.to_nat idx with Some w => mret w | None => failM OutOfBounds end.

Definition set_map_word (idx w : Z) : FM unit :=
  s ← getS;
  if (idx <? 0) || (zlen (pm_inusemap s) <=? idx) then failM OutOfBounds
  else modifyS (set_inusemap (<[Z.to_nat idx := w]> (pm_inusemap s))).

Definition use_bit (cn : Z) : Z := Z.shiftl 1 (cn mod N_INUSEBITS).

Definition is_ronly (s : msdosfsmount) : bool := negb (Z.land (pm_flags s) MSDOSFSMNT_RONLY =? 0).

Definition usemap_alloc (cn : Z) : FM unit :=
  MSDOSFS_ASSERT_MP_LOCKED;;
  KASSERT (cn <=? pm_maxcluster pmp);;
  s ← getS;
  KASSERT (negb (is_ronly s));;
  w ← map_word (cn / N_INUSEBITS);
  KASSERT (Z.land w (use_bit cn) =? 0);;
  set_map_word (cn / N_INUSEBITS) (Z.lor w (use_bit cn));;
  KASSERT (0 <? pm_freeclustercount s);;
  modifyS (set_freeclustercount (pm_freeclustercount s - 1));;
  modifyS (λ s, set_flags (Z.lor (pm_flags s) MSDOSFS_FSIMOD) s).

Definition usemap_free (cn : Z) : FM Z :=
  MSDOSFS_ASSERT_MP_LOCKED;;
  KASSERT (cn <=? pm_maxcluster pmp);;
  s ← getS;
  KASSERT (negb (is_ronly s));;
  w ← map_word (cn / N_INUSEBITS);
  if Z.land w (use_bit cn) =? 0 then
    modifyS (set_integrity (integrity s + 1));; mret EINTEGRITY
  else
    modifyS (set_freeclustercount (u64 (pm_freeclustercount s + 1)));;
    modifyS (λ s, set_flags (Z.lor (pm_flags s) MSDOSFS_FSIMOD) s);;
    set_map_word (cn / N_INUSEBITS) (Z.land w (u32 (Z.lnot (use_bit cn))));;
    mret 0.

Definition clusterfree (cluster : Z) : FM unit :=
  '(error, _) ← fatentry FAT_GET_AND_SET cluster MSDOSFSFREE;
  if negb (error =? 0) then mret tt
  else MSDOSFS_LOCK_MP;; usemap_free cluster;; MSDOSFS_UNLOCK_MP.

(** ** The length of a free run *)

Fixpoint ffs_from (n : nat) (i w : Z) : Z :=
  match n with
  | O => 0
  | S n => if Z.testbit w i then i + 1 else ffs_from n (i + 1) w
  end.

(** The least bit of a word that is set, counted from 1. *)
Definition ffs (w : Z) : Z := ffs_from 32 0 w.

Definition clamp (start len : Z) : Z :=
  if pm_maxcluster pmp <? u64 (start + len) then u64 (pm_maxcluster pmp - start + 1) else len.

Fixpoint chainlength_loop (fuel : nat) (idx len count : Z) : FM Z :=
  match fuel with
  | O => hangM
  | S fuel =>
      let idx := idx + 1 in
      if pm_maxcluster pmp / N_INUSEBITS <? idx then mret len
      else if count <=? len then mret len
      else
        map ← map_word idx;
        if negb (map =? 0) then mret (len + (ffs map - 1))
        else chainlength_loop fuel idx (len + N_INUSEBITS) count
  end.

(** The answer is an [int]. *)
Definition chainlength (start count : Z) : FM Z :=
  MSDOSFS_ASSERT_MP_LOCKED;;
  if pm_maxcluster pmp <? start then mret 0
  else
    let idx := start / N_INUSEBITS in
    let start := start mod N_INUSEBITS in
    map ← map_word idx;
    let map := Z.land map (u32 (Z.lnot (Z.shiftl 1 start - 1))) in
    if negb (map =? 0) then mret (s32 (clamp start (Z.min (ffs map - 1 - start) count)))
    else if count <=? N_INUSEBITS - start then mret (s32 (clamp start count))
    else
      len ← chainlength_loop (S (Z.to_nat (pm_maxcluster pmp / N_INUSEBITS))) idx (N_INUSEBITS - start) count;
      mret (s32 (clamp start (Z.min len count))).

(** ** Allocation *)

Fixpoint usemap_alloc_all (n : nat) (cl : Z) : FM unit :=
  match n with
  | O => mret tt
  | S n => usemap_alloc cl;; usemap_alloc_all n (cl + 1)
  end.

Fixpoint usemap_free_all (n : nat) (cl : Z) : FM unit :=
  match n with
  | O => mret tt
  | S n => usemap_free cl;; usemap_free_all n (cl + 1)
  end.

(** The answer has the first cluster and their number when the error is 0. *)
Definition chainalloc (start count fillwith : Z) : FM (Z * (Z * Z)) :=
  MSDOSFS_ASSERT_MP_LOCKED;;
  s ← getS;
  KASSERT (negb (is_ronly s));;
  usemap_alloc_all (Z.to_nat count) start;;
  modifyS (set_nxtfree (if pm_maxcluster pmp <? u64 (start + count) then CLUST_FIRST else u64 (start + count)));;
  modifyS (λ s, set_flags (Z.lor (pm_flags s) MSDOSFS_FSIMOD) s);;
  error ← fatchain start count fillwith;
  if negb (error =? 0) then usemap_free_all (Z.to_nat count) start;; mret (error, (0, 0))
  else mret (0, (start, count)).

(** One of the two searches: from [cn] to [last].  It ends with a run of [count] free
    clusters, or with the longest run it has seen. *)
Fixpoint find_run (fuel : nat) (last cn count foundcn foundl : Z) : FM (Z + Z * Z) :=
  match fuel with
  | O => hangM
  | S fuel =>
      if last <? cn then mret (inr (foundcn, foundl))
      else
        let idx := cn / N_INUSEBITS in
        map ← map_word idx;
        let map := Z.lor map (Z.shiftl 1 (cn mod N_INUSEBITS) - 1) in
        if negb (map =? FULL_RUN) then
          let cn := idx * N_INUSEBITS + ffs (Z.lxor map FULL_RUN) - 1 in
          l ← chainlength cn count;
          if count <=? l then mret (inl cn)
          else if foundl <? l then find_run fuel last (cn + (l + 1)) count cn l
          else find_run fuel last (cn + (l + 1)) count foundcn foundl
        else find_run fuel last (cn + (N_INUSEBITS - cn mod N_INUSEBITS)) count foundcn foundl
  end.

Definition clusteralloc1 (start count fillwith : Z) : FM (Z * (Z * Z)) :=
  MSDOSFS_ASSERT_MP_LOCKED;;
  len ← (if start =? 0 then mret 0 else chainlength start count);
  if negb (start =? 0) && (count <=? len) then chainalloc start count fillwith
  else
    s ← getS;
    let newst := pm_nxtfree s in
    let fuel := S (S (Z.to_nat (pm_maxcluster pmp))) in
    r ← find_run fuel (pm_maxcluster pmp) newst count 0 0;
    match r with
    | inl cn => chainalloc cn count fillwith
    | inr (foundcn, foundl) =>
        r ← find_run fuel (newst - 1) 0 count foundcn foundl;
        match r with
        | inl cn => chainalloc cn count fillwith
        | inr (foundcn, foundl) =>
            if foundl =? 0 then mret (ENOSPC, (0, 0))
            else if negb (len =? 0) then chainalloc start len fillwith
            else chainalloc foundcn foundl fillwith
        end
    end.

Definition clusteralloc (start count fillwith : Z) : FM (Z * (Z * Z)) :=
  MSDOSFS_LOCK_MP;;
  r ← clusteralloc1 start count fillwith;
  MSDOSFS_UNLOCK_MP;;
  mret r.

(** ** Freeing a chain *)

(** [bp] is the block that is being changed, [lbn] its number and [bn] the number that was
    computed last. *)
Fixpoint free_loop (fuel : nat) (cluster : Z) (bp : option buf) (lbn bn : Z) : FM Z :=
  match fuel with
  | O => hangM
  | S fuel =>
      if (cluster <? CLUST_FIRST) || (pm_maxcluster pmp <? cluster) then
        match bp with Some bp => updatefats bp bn | None => mret tt end;;
        MSDOSFS_UNLOCK_MP;;
        mret 0
      else
        let '(bn, bsize, bo) := fatblock (FATOFS cluster) in
        r ← match bp with
            | Some b => if lbn =? bn then mret (inr b) else updatefats b lbn;; bread bn bsize
            | None => bread bn bsize
            end;
        match r with
        | inl error => MSDOSFS_UNLOCK_MP;; mret error
        | inr bp =>
            error ← usemap_free cluster;
            if negb (error =? 0) then updatefats bp bn;; MSDOSFS_UNLOCK_MP;; mret error
            else
              next ← liftO (get_fat cluster bp bo);
              bp ← liftO (put_fat cluster bp bo MSDOSFSFREE);
              free_loop fuel (if reserved next then Z.lor next (pm_fatmask pmp) else next) (Some bp) bn bn
        end
  end.

Definition freeclusterchain (cluster : Z) : FM Z :=
  MSDOSFS_LOCK_MP;;
  free_loop (S (S (Z.to_nat (pm_maxcluster pmp)))) cluster None (u64 (-1)) 0.

(** ** Reading the table when the volume is mounted *)

Fixpoint fill_words (n : nat) (cn : Z) : FM unit :=
  match n with
  | O => mret tt
  | S n => set_map_word cn FULL_RUN;; fill_words n (cn + 1)
  end.

Fixpoint fill_loop (n : nat) (cn : Z) (bp : option buf) : FM Z :=
  match n with
  | O => mret 0
  | S n =>
      let byteoffset := FATOFS cn in
      let bo := byteoffset mod pm_fatblocksize pmp in
      r ← (if bo =? 0 then let '(bn, bsize, _) := fatblock byteoffset in bread bn bsize
           else match bp with Some b => mret (inr b) | None => failM NullDeref end);
      match r with
      | inl error => mret error
      | inr bp =>
          readcn ← liftO (get_fat cn bp bo);
          if (cn =? 0) && negb (readcn =? Z.lor (Z.land (pm_fatmask pmp) 0xffffff00) (pm_Media pmp)) then mret EINVAL
          else if readcn =? CLUST_FREE then
            error ← usemap_free cn;
            if negb (error =? 0) then mret error else fill_loop n (cn + 1) (Some bp)
          else fill_loop n (cn + 1) (Some bp)
      end
  end.

Fixpoint fill_tail (n : nat) (cn : Z) : FM unit :=
  match n with
  | O => mret tt
  | S n =>
      w ← map_word (cn / N_INUSEBITS);
      set_map_word (cn / N_INUSEBITS) (Z.lor w (use_bit cn));;
      fill_tail n (cn + 1)
  end.

Definition fillinusemap : FM Z :=
  MSDOSFS_ASSERT_MP_LOCKED;;
  let words := (pm_maxcluster pmp + N_INUSEBITS) / N_INUSEBITS in
  fill_words (Z.to_nat words) 0;;
  modifyS (set_freeclustercount 0);;
  error ← fill_loop (Z.to_nat (pm_maxcluster pmp + 1)) 0 None;
  if negb (error =? 0) then mret error
  else fill_tail (Z.to_nat (words - (pm_maxcluster pmp + 1))) (pm_maxcluster pmp + 1);; mret 0.

(** ** The clean bit *)

Definition markvoldirty_upgrade (dirty rw_upgrade : bool) : FM Z :=
  if FAT12 then mret 0
  else
    s ← getS;
    if is_ronly s && negb rw_upgrade then mret EROFS
    else
      let '(bn, bsize, bo) := fatblock (FATOFS 1) in
      r ← bread bn bsize;
      match r with
      | inl error => mret error
      | inr bp =>
          bp ← liftO (if FAT32 then
                        fatval ← getulong bp bo;
                        putulong bp bo (if dirty then Z.land fatval 0xF7FFFFFF else Z.lor fatval 0x08000000)
                      else
                        fatval ← getushort bp bo;
                        putushort bp bo (if dirty then Z.land fatval 0x7FFF else Z.lor fatval 0x8000));
          bwrite bp
      end.

End Model.
