(* ===== verification/FatTable.v ===== *)
(** The file allocation table as a sequence of entries of 12, 16 or 28 bits, and the
    blocks in which the code reads and writes it. *)

From S2P Require Import Prelude Errors Fat.
From Stdlib Require Import ZifyBool.

(** * Bytes and words *)

Definition bytes (t : Z → Z) : Prop := ∀ x, 0 ≤ t x < 256.

Definition word16 (t : Z → Z) (x : Z) : Z := t x + 256 * t (x + 1).
Definition word32 (t : Z → Z) (x : Z) : Z := word16 t x + 65536 * word16 t (x + 2).

Lemma upd_same t x v : upd t x v x = v.
Proof. unfold upd. by rewrite Z.eqb_refl. Qed.

Lemma upd_other t x v y : y ≠ x → upd t x v y = t y.
Proof. unfold upd. intros. by rewrite (proj2 (Z.eqb_neq y x)). Qed.

Lemma land_byte v : Z.land v 255 = v mod 256.
Proof. change 255 with (Z.ones 8). by rewrite Z.land_ones. Qed.

Lemma bytes_upd t x v : bytes t → 0 ≤ v < 256 → bytes (upd t x v).
Proof. intros Ht Hv y. unfold upd. by case_match. Qed.

Lemma word16_range t x : bytes t → 0 ≤ word16 t x < 65536.
Proof. intros Ht. unfold word16. pose proof (Ht x). pose proof (Ht (x + 1)). lia. Qed.

Lemma le16_sum a b : 0 ≤ a < 256 → Z.lor a (Z.shiftl b 8) = a + 256 * b.
Proof. intros. rewrite Z.shiftl_mul_pow2, Z.lor_comm, lor_low by done. lia. Qed.

Lemma le32_sum a b c d : 0 ≤ a < 256 → 0 ≤ b < 256 → 0 ≤ c < 256 →
  Z.lor (Z.lor (Z.lor (Z.shiftl d 24) (Z.shiftl c 16)) (Z.shiftl b 8)) a = a + 256 * b + 65536 * (c + 256 * d).
Proof.
  intros. rewrite !Z.shiftl_mul_pow2 by done. rewrite (lor_low d) by lia.
  replace (d * 2 ^ 24 + c * 2 ^ 16) with ((d * 256 + c) * 2 ^ 16) by lia. rewrite lor_low by lia.
  replace ((d * 256 + c) * 2 ^ 16 + b * 2 ^ 8) with ((d * 65536 + c * 256 + b) * 2 ^ 8) by lia. rewrite lor_low by lia. lia.
Qed.

(** Writing the lower bits of a word, and keeping others. *)
Lemma land_high w : 0 ≤ w < 65536 → Z.land w 0xf000 = w / 4096 * 4096.
Proof.
  intros. rewrite <- (Z.mod_small w (2 ^ 16)) at 1 by lia. rewrite <- Z.land_ones by done. rewrite <- Z.land_assoc.
  change (Z.land (Z.ones 16) 0xf000) with (Z.ldiff (Z.ones 16) (Z.ones 12)). rewrite !Z.ldiff_land, Z.land_assoc, Z.land_ones by done.
  rewrite (Z.mod_small w) by lia. rewrite <- Z.ldiff_land, Z.ldiff_ones_r by done. rewrite Z.shiftl_mul_pow2, Z.shiftr_div_pow2 by done. done.
Qed.

Lemma land_high32 w : Z.land w (Z.lnot FAT32_MASK) = w / 2 ^ 28 * 2 ^ 28.
Proof. rewrite <- Z.ldiff_land. change FAT32_MASK with (Z.ones 28). rewrite Z.ldiff_ones_r by done. rewrite Z.shiftl_mul_pow2, Z.shiftr_div_pow2 by done. done. Qed.

Lemma even_word w v : 0 ≤ w < 65536 → Z.lor (Z.land w 0xf000) (Z.land v 0xfff) = w / 4096 * 4096 + v mod 4096.
Proof. intros. rewrite land_high by done. change 0xfff with (Z.ones 12). rewrite Z.land_ones by done. change 4096 with (2 ^ 12). apply lor_low; [done|]. by apply Z.mod_pos_bound. Qed.

Lemma odd_word w v : Z.lor (Z.land w 0x000f) (Z.shiftl v 4) = v * 16 + w mod 16.
Proof. change 0xf with (Z.ones 4). rewrite Z.land_ones, Z.shiftl_mul_pow2, Z.lor_comm by done. apply lor_low; [done|]. by apply Z.mod_pos_bound. Qed.

Lemma word_28 w v : Z.lor (Z.land w (Z.lnot FAT32_MASK)) (Z.land v FAT32_MASK) = w / 2 ^ 28 * 2 ^ 28 + v mod 2 ^ 28.
Proof. rewrite land_high32. change FAT32_MASK with (Z.ones 28). rewrite Z.land_ones by done. apply lor_low; [done|]. by apply Z.mod_pos_bound. Qed.

(** * The geometry *)

(** What mounting makes sure of: the entries fit into the table, which is made of whole
    sectors, and the number of the last cluster is below the reserved ones.  Twelve-bit
    entries have blocks of a multiple of three times 512 bytes, which is so for sectors
    of 512 bytes. *)
Inductive fat_type (g : geometry) : Prop :=
  | is_fat12 : pm_fatmask g = FAT12_MASK → pm_fatmult g = 3 → pm_fatdiv g = 2 → (3 | pm_fatblocksec g) → fat_type g
  | is_fat16 : pm_fatmask g = FAT16_MASK → pm_fatmult g = 2 → pm_fatdiv g = 1 → fat_type g
  | is_fat32 : pm_fatmask g = FAT32_MASK → pm_fatmult g = 4 → pm_fatdiv g = 1 → fat_type g.

Record geometry_ok (g : geometry) : Prop := {
  g_type : fat_type g;
  g_sector : pm_BytesPerSec g = pm_BlkPerSec g * DEV_BSIZE;
  g_block : pm_fatblocksize g = pm_fatblocksec g * DEV_BSIZE;
  g_blkpersec : 0 < pm_BlkPerSec g < 2 ^ 16;
  g_blocksec : 0 < pm_fatblocksec g < 2 ^ 16;
  g_block_div : (pm_BlkPerSec g | pm_fatblocksec g);
  g_secs_div : (pm_BlkPerSec g | pm_FATsecs g);
  g_blk_div : (pm_BlkPerSec g | pm_fatblk g);
  g_secs : 0 < pm_FATsecs g < 2 ^ 32;
  g_blk : 0 ≤ pm_fatblk g < 2 ^ 32;
  g_cur : 0 ≤ pm_curfat g < pm_FATs g;
  g_fats : pm_FATs g < 2 ^ 8;
  g_max : CLUST_FIRST ≤ pm_maxcluster g < Z.land CLUST_RSRVD (pm_fatmask g);
  g_fits : (pm_maxcluster g + 1) * pm_fatmult g ≤ pm_FATsecs g * DEV_BSIZE * pm_fatdiv g
}.

Section Table.
Context (pmp : geometry) (G : geometry_ok pmp).

Definition width : Z := if FAT32 pmp then 4 else 2.
Definition fat_size : Z := pm_FATsecs pmp * DEV_BSIZE.
Definition fat_base (k : Z) : Z := (pm_fatblk pmp + k * pm_FATsecs pmp) * DEV_BSIZE.

(** The offset of an entry. *)
Definition ofs (cn : Z) : Z := cn * pm_fatmult pmp / pm_fatdiv pmp.

(** The block at offset [o] of the table: its number and its size. *)
Record block_at (o bn bsize : Z) : Prop := {
  ba_pos : 0 ≤ o;
  ba_div : (512 | o);
  ba_sec : (pm_BlkPerSec pmp | o / 512);
  ba_aligned : (pm_fatblocksize pmp | o);
  ba_fits : o + bsize ≤ fat_size;
  ba_addr : block_address pmp bn = fat_base (pm_curfat pmp) + o;
  ba_bn : bn = pm_fatblk pmp + pm_curfat pmp * pm_FATsecs pmp + o / 512;
  ba_size : 512 ≤ bsize;
  ba_len : bsize = Z.min (pm_fatblocksec pmp) (pm_FATsecs pmp - o / 512) * 512;
  ba_whole : ∀ cn, 0 ≤ cn ≤ pm_maxcluster pmp → o ≤ ofs cn → ofs cn < o + bsize → ofs cn + width ≤ o + bsize
}.

Ltac fat_cases := destruct (g_type pmp G) as [Hmask Hmult Hdiv H3|Hmask Hmult Hdiv|Hmask Hmult Hdiv].

Lemma FATOFS_ofs cn : 0 ≤ cn ≤ pm_maxcluster pmp → FATOFS pmp cn = ofs cn.
Proof.
  intros Hcn. unfold FATOFS, ofs. rewrite u64_id; [done|]. destruct G as [_ _ _ _ _ _ _ _ Hs _ _ _ _ Hf]. unfold DEV_BSIZE in *.
  fat_cases; rewrite Hmult, Hdiv in *; lia.
Qed.

Lemma ofs_in_table cn : 0 ≤ cn ≤ pm_maxcluster pmp → 0 ≤ ofs cn ∧ ofs cn + width ≤ fat_size.
Proof.
  intros Hcn. unfold ofs, width, fat_size, FAT32. pose proof (g_fits pmp G) as Hf.
  fat_cases; rewrite Hmask, Hmult, Hdiv in *; simpl; [div_mod_lia|rewrite Z.div_1_r; lia..].
Qed.

Lemma roundup_id x y : 0 < y → (y | x) → roundup x y = x.
Proof. intros Hy [k ->]. unfold roundup. rewrite Z.add_comm, Z.div_add, Z.div_small by lia. lia. Qed.

Lemma divide_min a b c : (a | b) → (a | c) → (a | Z.min b c).
Proof. intros. by destruct (Z.min_dec b c) as [->| ->]. Qed.

Lemma block_whole o bsize : (bsize = pm_fatblocksec pmp * 512 ∧ (pm_fatblocksec pmp * 512 | o)) ∨ o + bsize = fat_size →
  ∀ cn, 0 ≤ cn ≤ pm_maxcluster pmp → ofs cn < o + bsize → ofs cn + width ≤ o + bsize.
Proof.
  intros [[-> [q ->]]| ->] cn Hcn Hlt; [|by apply ofs_in_table]. unfold ofs, width, FAT32 in *.
  fat_cases; rewrite Hmask, Hmult, Hdiv in *; simpl; rewrite ?Z.div_1_r in *; [|set (f := pm_fatblocksec pmp) in *; lia..].
  destruct H3 as [c Hc]. rewrite Hc in *. replace (q * (c * 3 * 512) + c * 3 * 512) with (3 * ((q + 1) * c * 512)) in * by lia.
  set (k := (q + 1) * c * 512) in *. clearbody k. div_mod_lia.
Qed.

(** The block of an entry. *)
Lemma fatblock_ok cn : 0 ≤ cn ≤ pm_maxcluster pmp →
  ∃ o bn bsize, fatblock pmp (FATOFS pmp cn) = (bn, bsize, ofs cn - o) ∧ block_at o bn bsize ∧ o ≤ ofs cn < o + bsize.
Proof.
  intros Hcn. pose proof (ofs_in_table cn Hcn) as [Ho1 Ho2]. assert (2 ≤ width) as Hw by (unfold width; by case_match).
  pose proof G as [Ht Hsec Hblk Hb Hf Hdf Hds Hdb Hs Hfb Hcur Hfats _ _]. rewrite FATOFS_ofs by done.
  unfold fatblock. replace (FAT12 pmp && negb (pm_fatblocksec pmp mod 3 =? 0)) with false.
  2: { unfold FAT12. fat_cases; rewrite Hmask; [|done..]. destruct H3 as [c ->]. by rewrite Z.mod_mul. }
  unfold DEV_BSIZE, fat_size in *. rewrite Hblk. set (f := pm_fatblocksec pmp) in *. set (m := pm_FATsecs pmp) in *. set (b := pm_BlkPerSec pmp) in *.
  set (x := ofs cn) in *. set (q := x / (f * 512)). assert (0 ≤ q) as Hq by (apply Z.div_pos; lia).
  assert (q * (f * 512) ≤ x < q * (f * 512) + f * 512) as Hx by (unfold q; pose proof (Z.div_mod x (f * 512)); pose proof (Z.mod_pos_bound x (f * 512)); lia).
  assert (q * f < m) as Hqm by (unfold fat_size, DEV_BSIZE in *; fold m in Ho2; lia). assert (0 ≤ q * f) as Hqf by lia.
  rewrite (u64_id (q * f)) by lia. rewrite (u64_id (m - q * f)) by lia.
  assert (b | Z.min f (m - q * f)) as Hdiv.
  { apply divide_min; [done|]. apply Z.divide_sub_r; [done|]. by apply Z.divide_mul_r. }
  rewrite (u64_id (Z.min f (m - q * f) * 512)) by lia.
  rewrite roundup_id; [|lia|by apply Z.mul_divide_mono_r].
  rewrite u64_id by nia. exists (q * f * 512), (q * f + (pm_fatblk pmp + pm_curfat pmp * m)), (Z.min f (m - q * f) * 512). split; [|split].
  - f_equal. rewrite Z.mod_eq by lia. fold q. lia.
  - split.
    + lia.
    + apply Z.divide_factor_r.
    + rewrite Z.div_mul by done. fold b. by apply Z.divide_mul_r.
    + rewrite Hblk. exists q. fold f. lia.
    + unfold fat_size, DEV_BSIZE. fold m. lia.
    + unfold block_address, BLOCK_TO_SECTOR, fat_base, DEV_BSIZE. rewrite Hsec. fold m b.
      assert (b | q * f + (pm_fatblk pmp + pm_curfat pmp * m)) as [c Hc] by (repeat apply Z.divide_add_r; try done; by apply Z.divide_mul_r).
      rewrite Hc. replace (c * b * 512) with (c * (b * 512)) by lia. rewrite Z.div_mul by lia. lia.
    + fold m. rewrite Z.div_mul by done. lia.
    + lia.
    + fold f m. rewrite Z.div_mul by done. done.
    + intros cn' Hcn' _. apply block_whole; [|done]. destruct (Z.min_spec f (m - q * f)) as [[_ ->]|[_ ->]]; [left|right].
      * split; [done|]. exists q. fold f. lia.
      * unfold fat_size, DEV_BSIZE. fold m. lia.
  - unfold fat_size, DEV_BSIZE in Ho2. fold m in Ho2. lia.
Qed.

(** * Entries *)

Definition ent (t : Z → Z) (cn : Z) : Z :=
  if FAT32 pmp then word32 t (ofs cn) mod 2 ^ 28
  else if FAT12 pmp then (if Z.odd cn then word16 t (ofs cn) / 16 else word16 t (ofs cn) mod 4096)
  else word16 t (ofs cn).

Definition put_word16 (t : Z → Z) (x w : Z) : Z → Z := upd (upd t x (w mod 256)) (x + 1) (w / 256 mod 256).
Definition put_word32 (t : Z → Z) (x w : Z) : Z → Z := put_word16 (put_word16 t x w) (x + 2) (w / 65536).

Definition put_ent (t : Z → Z) (cn v : Z) : Z → Z :=
  if FAT32 pmp then put_word32 t (ofs cn) (word32 t (ofs cn) / 2 ^ 28 * 2 ^ 28 + v mod 2 ^ 28)
  else if FAT12 pmp then
    put_word16 t (ofs cn) (if Z.odd cn then v * 16 + word16 t (ofs cn) mod 16 else word16 t (ofs cn) / 4096 * 4096 + v mod 4096)
  else put_word16 t (ofs cn) v.

Lemma put_word16_lookup t x w y : put_word16 t x w y = if y =? x then w mod 256 else if y =? x + 1 then w / 256 mod 256 else t y.
Proof. unfold put_word16, upd. destruct (Z.eqb_spec y (x + 1)), (Z.eqb_spec y x); try done; lia. Qed.

Lemma bytes_put_word16 t x w : bytes t → bytes (put_word16 t x w).
Proof. intros. unfold put_word16. repeat apply bytes_upd; try done; by apply Z.mod_pos_bound. Qed.

Lemma bytes_put_ent t cn v : bytes t → bytes (put_ent t cn v).
Proof. intros. unfold put_ent, put_word32. repeat case_match; repeat apply bytes_put_word16; done. Qed.

Lemma word16_put_far t x w y : y + 1 < x ∨ x + 1 < y → word16 (put_word16 t x w) y = word16 t y.
Proof. intros. unfold word16. rewrite !put_word16_lookup. repeat (case_match; [lia|]). done. Qed.

Lemma word16_put t x w : word16 (put_word16 t x w) x = w mod 65536.
Proof. unfold word16. rewrite !put_word16_lookup, !Z.eqb_refl, (proj2 (Z.eqb_neq (x + 1) x)) by lia. div_mod_lia. Qed.

(** Two entries of twelve bits share a byte. *)
Lemma word12_put t x w : bytes t →
  (w mod 16 = word16 t x mod 16 → word16 (put_word16 t x w) (x - 1) mod 4096 = word16 t (x - 1) mod 4096) ∧
  (w / 4096 mod 16 = word16 t x / 4096 → word16 (put_word16 t x w) (x + 1) / 16 = word16 t (x + 1) / 16).
Proof.
  intros Ht. unfold word16. rewrite !put_word16_lookup. replace (x - 1 + 1) with x by lia. pose proof (Ht (x - 1)). pose proof (Ht x). pose proof (Ht (x + 1)). pose proof (Ht (x + 1 + 1)).
  rewrite !Z.eqb_refl, (proj2 (Z.eqb_neq (x - 1) x)), (proj2 (Z.eqb_neq (x - 1) (x + 1))), (proj2 (Z.eqb_neq (x + 1) x)), (proj2 (Z.eqb_neq (x + 1 + 1) x)), (proj2 (Z.eqb_neq (x + 1 + 1) (x + 1))) by lia.
  split; intros; div_mod_lia.
Qed.

Lemma ent12_put t cn v cn' : bytes t → pm_fatmask pmp = FAT12_MASK → pm_fatmult pmp = 3 → pm_fatdiv pmp = 2 → 0 ≤ cn → 0 ≤ cn' →
  ent (put_ent t cn v) cn' = if decide (cn' = cn) then v mod 4096 else ent t cn'.
Proof.
  intros Ht Hmask Hmult Hdiv Hcn Hcn'. unfold ent, put_ent, ofs, FAT32, FAT12. rewrite Hmask, Hmult, Hdiv. simpl.
  pose proof (Zdiv.Zmod_odd cn) as Ho. pose proof (Zdiv.Zmod_odd cn') as Ho'. pose proof (word16_range t (cn * 3 / 2) Ht).
  case_decide as E.
  - subst cn'. rewrite word16_put. destruct (Z.odd cn); div_mod_lia.
  - destruct (decide (cn / 2 = cn' / 2)) as [Ek|Ek].
    + set (w := if Z.odd cn then _ else _). destruct (word12_put t (cn * 3 / 2) w Ht) as [H1 H2]. unfold w in *.
      destruct (Z.odd cn), (Z.odd cn'); try (exfalso; clear - Ho Ho' E Ek; div_mod_lia).
      * replace (cn' * 3 / 2) with (cn * 3 / 2 - 1) by (clear - Ho Ho' Ek; div_mod_lia). apply H1. clear. div_mod_lia.
      * replace (cn' * 3 / 2) with (cn * 3 / 2 + 1) by (clear - Ho Ho' Ek; div_mod_lia). apply H2. clear - H. div_mod_lia.
    + rewrite word16_put_far; [done|]. clear - Ek. div_mod_lia.
Qed.

(** Writing an entry changes that entry and no other. *)
Lemma ent_put t cn v cn' : bytes t → 0 ≤ cn → 0 ≤ cn' →
  ent (put_ent t cn v) cn' = if decide (cn' = cn) then Z.land v (pm_fatmask pmp) else ent t cn'.
Proof.
  intros Ht Hcn Hcn'. fat_cases.
  - rewrite ent12_put by done. rewrite Hmask. change FAT12_MASK with (Z.ones 12). by rewrite Z.land_ones.
  - unfold ent, put_ent, ofs, FAT32, FAT12. rewrite Hmask, Hmult, Hdiv. simpl. rewrite !Z.div_1_r. change FAT16_MASK with (Z.ones 16). rewrite Z.land_ones by done.
    case_decide as E; [subst; by rewrite word16_put|]. rewrite word16_put_far by lia. done.
  - unfold ent, put_ent, ofs, FAT32, FAT12. rewrite Hmask, Hmult, Hdiv. simpl. rewrite !Z.div_1_r. change FAT32_MASK with (Z.ones 28). rewrite Z.land_ones by done.
    unfold word32, put_word32. case_decide as E.
    + subst. rewrite word16_put. rewrite word16_put_far by lia. rewrite word16_put. pose proof (word16_range t (cn * 4) Ht). pose proof (word16_range t (cn * 4 + 2) Ht). div_mod_lia.
    + rewrite !word16_put_far by lia. done.
Qed.

Lemma put_ent_local t cn v x : x < ofs cn ∨ ofs cn + width ≤ x → put_ent t cn v x = t x.
Proof.
  unfold width. intros Hx. unfold put_ent, put_word32. repeat case_match; rewrite ?put_word16_lookup; repeat (case_match; try lia); done.
Qed.

Lemma ent_range t cn : bytes t → 0 ≤ ent t cn ≤ pm_fatmask pmp.
Proof.
  intros Ht. pose proof (word16_range t (ofs cn) Ht). unfold ent, FAT32, FAT12.
  fat_cases; rewrite Hmask; simpl; unfold FAT12_MASK, FAT16_MASK, FAT32_MASK; [case_match; div_mod_lia|lia|].
  pose proof (Z.mod_pos_bound (word32 t (ofs cn)) (2 ^ 28)). lia.
Qed.

(** Entries are read from the bytes of the table only. *)
Lemma ent_ext t t' cn : (∀ x, ofs cn ≤ x < ofs cn + width → t x = t' x) → ent t cn = ent t' cn.
Proof.
  intros H. unfold ent, word32, word16. unfold width in H. by destruct (FAT32 pmp); rewrite !H by lia.
Qed.

(** * Buffers and entries *)

Definition views (bp : buf) (t : Z → Z) (o : Z) : Prop := ∀ i, 0 ≤ i < b_bcount bp → b_data bp i = t (o + i).

Lemma getushort_view bp t o x : bytes t → views bp t o → 0 ≤ x - o → x - o + 2 ≤ b_bcount bp → getushort bp (x - o) = Ok (word16 t x).
Proof.
  intros Ht Hv H1 H2. unfold getushort, in_buf. rewrite (proj2 (Z.leb_le 0 (x - o))), (proj2 (Z.leb_le (x - o + 2) _)) by lia. simpl.
  rewrite !Hv by lia. replace (o + (x - o)) with x by lia. replace (o + (x - o + 1)) with (x + 1) by lia. by rewrite le16_sum.
Qed.

Lemma getulong_view bp t o x : bytes t → views bp t o → 0 ≤ x - o → x - o + 4 ≤ b_bcount bp → getulong bp (x - o) = Ok (word32 t x).
Proof.
  intros Ht Hv H1 H2. unfold getulong, in_buf. rewrite (proj2 (Z.leb_le 0 (x - o))), (proj2 (Z.leb_le (x - o + 4) _)) by lia. simpl.
  rewrite !Hv by lia. replace (o + (x - o)) with x by lia. replace (o + (x - o + 1)) with (x + 1) by lia.
  replace (o + (x - o + 2)) with (x + 2) by lia. replace (o + (x - o + 3)) with (x + 3) by lia. rewrite le32_sum by done.
  unfold word32, word16. replace (x + 2 + 1) with (x + 3) by lia. done.
Qed.

(** The same buffer with other contents. *)
Definition rewritten (bp bp' : buf) (t : Z → Z) (o : Z) : Prop :=
  b_blkno bp' = b_blkno bp ∧ b_bcount bp' = b_bcount bp ∧ views bp' t o.

Lemma putushort_view bp t o x v : views bp t o → 0 ≤ x - o → x - o + 2 ≤ b_bcount bp →
  ∃ bp', putushort bp (x - o) v = Ok bp' ∧ rewritten bp bp' (put_word16 t x v) o.
Proof.
  intros Hv H1 H2. unfold putushort, in_buf. rewrite (proj2 (Z.leb_le 0 (x - o))), (proj2 (Z.leb_le (x - o + 2) _)) by lia. simpl.
  eexists. split; [done|]. split; [done|]. split; [done|]. intros i Hi. simpl in *. rewrite put_word16_lookup. rewrite !land_byte, Z.shiftr_div_pow2 by done. change (2 ^ 8) with 256.
  unfold upd. rewrite Hv by done.
  destruct (Z.eqb_spec i (x - o + 1)), (Z.eqb_spec i (x - o)), (Z.eqb_spec (o + i) x), (Z.eqb_spec (o + i) (x + 1)); try done; lia.
Qed.

Lemma putulong_view bp t o x v : views bp t o → 0 ≤ x - o → x - o + 4 ≤ b_bcount bp →
  ∃ bp', putulong bp (x - o) v = Ok bp' ∧ rewritten bp bp' (put_word32 t x v) o.
Proof.
  intros Hv H1 H2. unfold putulong, in_buf. rewrite (proj2 (Z.leb_le 0 (x - o))), (proj2 (Z.leb_le (x - o + 4) _)) by lia. simpl.
  eexists. split; [done|]. split; [done|]. split; [done|]. intros i Hi. simpl in *. unfold put_word32. rewrite !put_word16_lookup. rewrite !land_byte, !Z.shiftr_div_pow2 by done.
  change (2 ^ 8) with 256. change (2 ^ 16) with 65536. change (2 ^ 24) with (65536 * 256). rewrite <- Z.div_div by done.
  unfold upd. rewrite Hv by done.
  destruct (Z.eqb_spec i (x - o + 3)), (Z.eqb_spec i (x - o + 2)), (Z.eqb_spec i (x - o + 1)), (Z.eqb_spec i (x - o)),
    (Z.eqb_spec (o + i) x), (Z.eqb_spec (o + i) (x + 1)), (Z.eqb_spec (o + i) (x + 2)), (Z.eqb_spec (o + i) (x + 2 + 1)); try done; lia.
Qed.

Lemma get_fat_ok cn bp t o : bytes t → views bp t o → 0 ≤ ofs cn - o → ofs cn - o + width ≤ b_bcount bp →
  get_fat pmp cn bp (ofs cn - o) = Ok (ent t cn).
Proof.
  intros Ht Hv H1 H2. pose proof (ent_range t cn Ht) as Hr. unfold get_fat, ent, width, FAT12, FAT32 in *. pose proof (word16_range t (ofs cn) Ht).
  fat_cases; rewrite Hmask in *; simpl in *.
  - rewrite (getushort_view bp t o) by done. simpl. destruct (Z.odd cn); f_equal; change FAT12_MASK with (Z.ones 12); rewrite Z.land_ones by done.
    + rewrite Z.shiftr_div_pow2 by done. apply Z.mod_small. change (2 ^ 4) with 16. div_mod_lia.
    + done.
  - rewrite (getushort_view bp t o) by done. simpl. f_equal. change FAT16_MASK with (Z.ones 16). rewrite Z.land_ones by done. apply Z.mod_small. lia.
  - rewrite (getulong_view bp t o) by done. simpl. f_equal. change FAT32_MASK with (Z.ones 28). by rewrite Z.land_ones.
Qed.

Lemma put_fat_ok cn bp t o v : bytes t → views bp t o → 0 ≤ ofs cn - o → ofs cn - o + width ≤ b_bcount bp →
  ∃ bp', put_fat pmp cn bp (ofs cn - o) v = Ok bp' ∧ rewritten bp bp' (put_ent t cn v) o.
Proof.
  intros Ht Hv H1 H2. unfold put_fat, put_ent, width, FAT12, FAT32 in *. fat_cases; rewrite Hmask in *; simpl in *.
  - rewrite (getushort_view bp t o) by done. simpl. rewrite even_word by (by apply word16_range). rewrite odd_word.
    destruct (Z.odd cn); by apply putushort_view.
  - by apply putushort_view.
  - rewrite (getulong_view bp t o) by done. simpl. rewrite word_28. by apply putulong_view.
Qed.

End Table.
