(* ===== verification/FatEntry.v ===== *)
(** [updatefats], [fatentry] and [fatchain]: what they do to the table and its copies. *)

From S2P Require Import Prelude Errors Fat FatTable.
From Stdlib Require Import ZifyBool.

Section Entry.
Context (pmp : geometry) (G : geometry_ok pmp).

Notation cur := (pm_curfat pmp).

(** The bytes of copy [k]. *)
Definition tab (d : Z → Z) (k : Z) : Z → Z := λ x, d (fat_base pmp k + x).

(** The byte with the bit that says the volume is clean; it may differ in the copies. *)
Definition clean_byte (x : Z) : Prop := (FAT16 pmp = true ∧ x = 3) ∨ (FAT32 pmp = true ∧ x = 7).

Definition mirrored (s : msdosfsmount) : bool := negb (Z.land (pm_flags s) MSDOSFS_FATMIRROR =? 0).

Definition copies_agree (d : Z → Z) : Prop :=
  ∀ k x, 0 ≤ k < pm_FATs pmp → 0 ≤ x < fat_size pmp → ¬ clean_byte x → tab d k x = tab d 0 x.

(** A byte that belongs to a copy of the table. *)
Definition in_fats (a : Z) : Prop := ∃ k x, 0 ≤ k < pm_FATs pmp ∧ 0 ≤ x < fat_size pmp ∧ a = fat_base pmp k + x.

(** The volume between two operations: no failures to come, and the copies agree when they
    are kept. *)
Record volume (s : msdosfsmount) : Prop := {
  v_errs : errs s = [];
  v_bytes : bytes (dev s);
  v_mirror : mirrored s = true → cur = 0 ∧ copies_agree (dev s)
}.

Definition T (s : msdosfsmount) : Z → Z := tab (dev s) cur.

(** The entry of a cluster. *)
Definition entry (s : msdosfsmount) (cn : Z) : Z := ent pmp (T s) cn.

Lemma bytes_tab d k : bytes d → bytes (tab d k).
Proof. intros H x. apply H. Qed.

Lemma next_err_none s : errs s = [] → next_err s = Ok (0, s).
Proof. intros H. unfold next_err. mrun. by rewrite H. Qed.

Lemma bread_ok bn size s : errs s = [] → bread pmp bn size s = Ok (inr (mkBuf bn size (λ i, dev s (block_address pmp bn + i))), s).
Proof. intros H. unfold bread. rewrite (bind_Ok _ _ _ _ _ (next_err_none s H)). done. Qed.

(** The block of an entry, read from the table. *)
Lemma bread_block s o bn bsize : errs s = [] → block_at pmp o bn bsize →
  ∃ bp, bread pmp bn bsize s = Ok (inr bp, s) ∧ b_blkno bp = bn ∧ b_bcount bp = bsize ∧ views bp (T s) o.
Proof.
  intros He Hb. rewrite bread_ok by done. eexists. split; [done|]. split; [done|]. split; [done|]. intros i Hi. simpl.
  rewrite (ba_addr _ _ _ _ Hb). unfold T, tab. f_equal. lia.
Qed.

(** ** Writing a block *)

Definition block_written (bp : buf) (base : Z) (d d' : Z → Z) : Prop :=
  ∀ a, d' a = if (0 <=? a - base) && (a - base <? b_bcount bp) then b_data bp (a - base) else d a.

Lemma write_fat_ok bp s : errs s = [] →
  ∃ d', write_fat pmp bp s = Ok (tt, set_dev d' s) ∧ block_written bp (block_address pmp (b_blkno bp)) (dev s) d'.
Proof.
  intros He. unfold write_fat, bwrite, bdwrite.
  destruct (mnt_synchronous pmp).
  - eexists. split; [|intros a; reflexivity]. rewrite bind_assoc, bind_modifyS. erewrite bind_Ok by (apply next_err_none; exact He). done.
  - eexists. split; [done|]. intros a. done.
Qed.

Lemma block_written_bytes bp base d d' : bytes d → (∀ i, 0 ≤ i < b_bcount bp → 0 ≤ b_data bp i < 256) → block_written bp base d d' → bytes d'.
Proof. intros Hd Hb H a. rewrite H. destruct (_ && _) eqn:E; [apply Hb; lia|apply Hd]. Qed.

Lemma block_address_at k o : (pm_BlkPerSec pmp | o / 512) → (512 | o) →
  block_address pmp (pm_fatblk pmp + k * pm_FATsecs pmp + o / 512) = fat_base pmp k + o.
Proof.
  intros Hs Hd. unfold block_address, BLOCK_TO_SECTOR, fat_base, DEV_BSIZE. pose proof G as [_ Hsec _ Hb _ _ Hds Hdb _ _ _ _ _ _]. rewrite Hsec. unfold DEV_BSIZE.
  assert (pm_BlkPerSec pmp | pm_fatblk pmp + k * pm_FATsecs pmp + o / 512) as [c Hc] by (repeat apply Z.divide_add_r; try done; by apply Z.divide_mul_r).
  rewrite Hc. replace (c * pm_BlkPerSec pmp * 512) with (c * (pm_BlkPerSec pmp * 512)) by lia. rewrite Z.div_mul by lia.
  destruct Hd as [e ->]. rewrite Z.div_mul in Hc by done. lia.
Qed.

Lemma lor_byte a b : 0 ≤ a < 256 → 0 ≤ b < 256 → 0 ≤ Z.lor a b < 256.
Proof.
  intros Ha Hb. assert (0 ≤ Z.lor a b) by (apply Z.lor_nonneg; lia). split; [done|]. destruct (decide (Z.lor a b = 0)) as [->|Hn]; [done|].
  apply (Z.log2_lt_pow2 _ 8); [lia|]. rewrite Z.log2_lor by lia.
  apply Z.max_lub_lt; [destruct (decide (a = 0)) as [->|]; [done|]; apply (Z.log2_lt_pow2 a 8); lia|destruct (decide (b = 0)) as [->|]; [done|]; apply (Z.log2_lt_pow2 b 8); lia].
Qed.

(** What forcing the clean bit does to the data. *)
Lemma force_clean_ok cf bp : 512 ≤ b_bcount bp → (∀ i, 0 ≤ i < b_bcount bp → 0 ≤ b_data bp i < 256) →
  ∃ bp', force_clean cf bp = Ok bp' ∧ b_blkno bp' = b_blkno bp ∧ b_bcount bp' = b_bcount bp ∧
    (∀ i, 0 ≤ i < b_bcount bp → 0 ≤ b_data bp' i < 256) ∧
    (∀ i, ¬ (cf = 16 ∧ i = 3 ∨ cf = 32 ∧ i = 7) → b_data bp' i = b_data bp i).
Proof.
  intros Hc Hb. unfold force_clean, in_buf. rewrite !(proj2 (Z.leb_le _ (b_bcount bp))) by lia. simpl.
  destruct (Z.eqb_spec cf 16); [|destruct (Z.eqb_spec cf 32)]; eexists; (split; [done|]); (split; [done|]); (split; [done|]); simpl; [split..|by split].
  all: try (intros i Hi; unfold upd; case_match; [|by apply Hb]; apply lor_byte; [apply Hb; lia|lia]).
  all: intros i Hi; apply upd_other; lia.
Qed.

Lemma copy_fats_ok cf bp o n : ∀ k s,
  errs s = [] → bytes (dev s) → 512 ≤ b_bcount bp → (∀ i, 0 ≤ i < b_bcount bp → 0 ≤ b_data bp i < 256) →
  0 ≤ o → (512 | o) → (pm_BlkPerSec pmp | o / 512) → o + b_bcount bp ≤ fat_size pmp →
  0 ≤ k → k + 1 + Z.of_nat n ≤ pm_FATs pmp →
  ∃ d', copy_fats pmp n cf bp (pm_fatblk pmp + k * pm_FATsecs pmp + o / 512) s = Ok (tt, set_dev d' s) ∧ bytes d' ∧
    (∀ j x, k < j ≤ k + Z.of_nat n → 0 ≤ x < fat_size pmp → ¬ (cf = 16 ∧ x - o = 3 ∨ cf = 32 ∧ x - o = 7) →
       tab d' j x = if (0 <=? x - o) && (x - o <? b_bcount bp) then b_data bp (x - o) else tab (dev s) j x) ∧
    (∀ a, (∀ j, k < j ≤ k + Z.of_nat n → a < fat_base pmp j ∨ fat_base pmp j + fat_size pmp ≤ a) → d' a = dev s a).
Proof.
  pose proof G as [_ _ _ _ _ _ _ _ Hs Hblk Hcur Hfats _ _].
  induction n as [|n IH]; intros k s He Hd Hc Hb Ho Hd1 Hd2 Hfit Hk Hn.
  { exists (dev s). simpl. split; [by destruct s|]. split; [done|]. split; [lia|done]. }
  cbn [copy_fats]. assert (o / 512 ≤ pm_FATsecs pmp) by (unfold fat_size, DEV_BSIZE in *; div_mod_lia). assert (0 ≤ o / 512) by (apply Z.div_pos; lia).
  replace (u64 _) with (pm_fatblk pmp + (k + 1) * pm_FATsecs pmp + o / 512) by (rewrite u64_id by nia; lia).
  rewrite (bind_Ok _ _ _ _ _ (next_err_none s He)). change (negb (0 =? 0)) with false. cbv iota.
  set (bp0 := mkBuf _ _ _). destruct (force_clean_ok cf bp0) as (bp1 & -> & Hb1 & Hb2 & Hb3 & Hb4); [done..|]. rewrite bind_liftO.
  destruct (write_fat_ok bp1 s He) as (d1 & Hw & Hd'). rewrite (bind_Ok _ _ _ _ _ Hw). rewrite Hb1 in Hd'. simpl b_blkno in Hd'. rewrite block_address_at in Hd' by done.
  assert (bytes d1) as Hby by (eapply block_written_bytes; [done|rewrite Hb2; exact Hb3|exact Hd']).
  destruct (IH (k + 1) (set_dev d1 s)) as (d' & Hrun & Hby' & Hin & Hout); [done..|lia|lia|].
  exists d'. split; [rewrite Hrun; by destruct s|]. split; [done|]. split.
  - intros j x Hj Hx Hcl. destruct (decide (j = k + 1)) as [->|Hne].
    + unfold tab. rewrite Hout.
      2: { intros i Hi. unfold fat_base, fat_size, DEV_BSIZE in *. nia. }
      simpl. rewrite Hd', Hb2. simpl b_bcount. replace (fat_base pmp (k + 1) + x - (fat_base pmp (k + 1) + o)) with (x - o) by lia.
      destruct (_ && _); [|done]. by rewrite Hb4.
    + rewrite Hin by (done || lia). case_match; [done|]. unfold tab. simpl. rewrite Hd', Hb2. simpl b_bcount.
      case_match; [|done]. exfalso. unfold fat_base, fat_size, DEV_BSIZE in *. nia.
  - intros a Ha. rewrite Hout by (intros j Hj; apply Ha; lia). simpl. rewrite Hd', Hb2. simpl b_bcount. destruct (_ && _) eqn:E; [|done].
    exfalso. destruct (Ha (k + 1)); lia.
Qed.

(** The state after the table has become [t']. *)
Definition retabled (s s' : msdosfsmount) (t' : Z → Z) : Prop :=
  s' = set_dev (dev s') s ∧ volume s' ∧ (∀ x, 0 ≤ x < fat_size pmp → T s' x = t' x) ∧ (∀ a, ¬ in_fats a → dev s' a = dev s a).

Lemma in_fats_at k x : 0 ≤ k < pm_FATs pmp → 0 ≤ x < fat_size pmp → in_fats (fat_base pmp k + x).
Proof. intros. by exists k, x. Qed.

Lemma bases_apart j k x y : 0 ≤ x < fat_size pmp → 0 ≤ y < fat_size pmp → fat_base pmp j + x = fat_base pmp k + y → j = k ∧ x = y.
Proof. pose proof (g_secs pmp G). unfold fat_base, fat_size, DEV_BSIZE. intros. assert (j = k) by nia. subst. lia. Qed.

(** Whether the clean bit is forced on depends on the block. *)
Lemma cleanfat_byte o bn bsize x : block_at pmp o bn bsize → cur = 0 →
  let cf := if negb (bn =? pm_fatblk pmp) || FAT12 pmp then 0 else if FAT16 pmp then 16 else 32 in
  cf = 16 ∧ x - o = 3 ∨ cf = 32 ∧ x - o = 7 → clean_byte x.
Proof.
  intros Hb Hc cf Hcf. destruct (ba_div _ _ _ _ Hb) as [e He]. pose proof (ba_bn _ _ _ _ Hb) as Hbn. rewrite Hc, He, Z.div_mul in Hbn by done.
  unfold cf in *. destruct (negb (bn =? pm_fatblk pmp) || FAT12 pmp) eqn:E; [lia|]. apply orb_false_iff in E as [E1 E2].
  assert (e = 0) as -> by lia. unfold clean_byte, FAT12, FAT16, FAT32 in *. destruct (g_type pmp G) as [Hm|Hm|Hm]; rewrite Hm in *; simpl in *; try done; [left|right]; split; lia || done.
Qed.

Lemma updatefats_ok s bp o bn bsize t' :
  volume s → block_at pmp o bn bsize → b_blkno bp = bn → b_bcount bp = bsize → views bp t' o → bytes t' →
  (∀ x, 0 ≤ x < fat_size pmp → x < o ∨ o + bsize ≤ x → t' x = T s x) →
  ∃ s', updatefats pmp bp bn s = Ok (tt, s') ∧ retabled s s' t'.
Proof.
  intros [He Hby Hm] Hb Hbn Hbc Hv Hbt Hout. pose proof (g_cur pmp G) as Hcur. pose proof Hb as [Hp Hd Hsec _ Hfit Haddr Hbn' Hsz _ _].
  assert (∀ i, 0 ≤ i < b_bcount bp → 0 ≤ b_data bp i < 256) as Hdata by (intros i Hi; rewrite Hv by done; apply Hbt).
  (* the write of the block itself, after the copies *)
  assert (∀ d1, bytes d1 → (∀ x, 0 ≤ x < fat_size pmp → tab d1 cur x = T s x) →
    ∃ d', write_fat pmp bp (set_dev d1 s) = Ok (tt, set_dev d' s) ∧ bytes d' ∧ (∀ x, 0 ≤ x < fat_size pmp → tab d' cur x = t' x) ∧
      (∀ a, (∀ x, 0 ≤ x < fat_size pmp → a ≠ fat_base pmp cur + x) → d' a = d1 a)) as Hlast.
  { intros d1 Hd1 Htab. destruct (write_fat_ok bp (set_dev d1 s) He) as (d' & Hw & Hd'). exists d'. rewrite Hw. split; [by destruct s|].
    rewrite Hbn, Haddr in Hd'. simpl in Hd'. split; [by eapply block_written_bytes|]. split.
    - intros x Hx. unfold tab. rewrite Hd'. replace (fat_base pmp cur + x - (fat_base pmp cur + o)) with (x - o) by lia. destruct (_ && _) eqn:E.
      + rewrite Hv by lia. f_equal. lia.
      + rewrite Hout by lia. apply Htab. done.
    - intros a Ha. rewrite Hd'. destruct (_ && _) eqn:E; [|done]. exfalso. apply (Ha (a - fat_base pmp cur)); lia. }
  unfold updatefats. mrun. fold (mirrored s). destruct (mirrored s) eqn:Em.
  - destruct (Hm eq_refl) as [Hc0 Hag]. set (cf := if negb _ || _ then 0 else _).
    destruct (copy_fats_ok cf bp o (Z.to_nat (pm_FATs pmp - 1)) 0 s) as (d1 & Hrun & Hby1 & Hin & Hrest); try done; try lia.
    rewrite Hc0 in Hbn'. rewrite <- Hbn' in Hrun. rewrite (bind_Ok _ _ _ _ _ Hrun).
    destruct (Hlast d1) as (d' & Hw & Hby' & Htab' & Hrest'); [done| |].
    { intros x Hx. unfold T, tab. apply Hrest. rewrite Hc0. intros j Hj. unfold fat_base, fat_size, DEV_BSIZE in *. nia. }
    exists (set_dev d' s). split; [done|]. split; [done|]. assert (∀ a, ¬ in_fats a → d' a = dev s a) as Hframe.
    { intros a Ha. rewrite Hrest'.
      - apply Hrest. intros j Hj. destruct (decide (fat_base pmp j ≤ a < fat_base pmp j + fat_size pmp)); [|lia]. exfalso. apply Ha. exists j, (a - fat_base pmp j). lia.
      - intros x Hx ->. apply Ha, in_fats_at; done. }
    split; [|split; [exact Htab'|exact Hframe]].
    split; [done|done|]. intros _. split; [done|]. simpl. intros k x Hk Hx Hcl. destruct (decide (k = 0)) as [->|Hk0]; [done|].
    assert (tab d' 0 x = t' x) as -> by (rewrite <- Hc0; by apply Htab').
    unfold tab. rewrite Hrest'. 2: { intros y Hy Heq. apply bases_apart in Heq; [lia|done..]. }
    change (tab d1 k x = t' x). rewrite Hin; [|lia|done|]. 2: { intros Hcf. apply Hcl. by apply (cleanfat_byte o bn bsize). }
    destruct (_ && _) eqn:E.
    + rewrite Hv by lia. f_equal. lia.
    + rewrite (Hag k) by done. rewrite Hout by lia. unfold T. by rewrite Hc0.
  - destruct (Hlast (dev s)) as (d' & Hw & Hby' & Htab' & Hrest'); [done|done|]. rewrite bind_ret. exists (set_dev d' s). split; [by destruct s|].
    split; [done|]. split; [split; [done|done|intros Hx; change (mirrored s = true) in Hx; congruence]|]. split; [done|]. intros a Ha. apply Hrest'. intros x Hx ->. by apply Ha, in_fats_at.
Qed.

Lemma retabled_entry s s' t' cn : retabled s s' t' → 0 ≤ cn ≤ pm_maxcluster pmp → entry s' cn = ent pmp t' cn.
Proof. intros (_ & _ & H & _) Hcn. apply ent_ext. intros x Hx. apply H. destruct (ofs_in_table pmp G cn Hcn). lia. Qed.

(** ** One entry *)

(** The value that [fatentry] reads. *)
Definition value (s : msdosfsmount) (cn : Z) : Z := canonical pmp (entry s cn).

(** [s'] is [s] with other entries, [fmod] set. *)
Definition reentered (s s' : msdosfsmount) (e : Z → Z) : Prop :=
  volume s' ∧ s' = set_fmod 1 (set_dev (dev s') s) ∧ (∀ cn, 0 ≤ cn ≤ pm_maxcluster pmp → entry s' cn = e cn) ∧
  (∀ a, ¬ in_fats a → dev s' a = dev s a).

Lemma fatentry_get s cn v : volume s → CLUST_FIRST ≤ cn ≤ pm_maxcluster pmp → fatentry pmp FAT_GET cn v s = Ok ((0, Some (value s cn)), s).
Proof.
  intros Hv Hcn. unfold CLUST_FIRST in Hcn. destruct (fatblock_ok pmp G cn) as (o & bn & bsize & Hf & Hb & Ho); [lia|].
  unfold fatentry. rewrite (proj2 (Z.ltb_ge cn CLUST_FIRST)), (proj2 (Z.ltb_ge _ cn)) by (unfold CLUST_FIRST; lia). change (false || false) with false. cbv iota. rewrite Hf. cbv beta iota zeta.
  destruct (bread_block s o bn bsize) as (bp & Hr & Hbn & Hbc & Hview); [apply Hv|done|]. rewrite (bind_Ok _ _ _ _ _ Hr). cbv beta iota.
  change (negb (Z.land FAT_GET FAT_GET =? 0)) with true. change (negb (Z.land FAT_GET FAT_SET =? 0)) with false. cbv iota.
  rewrite (get_fat_ok pmp G cn bp (T s) o); [|apply bytes_tab, Hv|done|lia|].
  2: { pose proof (ba_whole _ _ _ _ Hb cn ltac:(lia)). lia. }
  rewrite bind_assoc, bind_liftO. mrun. done.
Qed.

Lemma fatentry_set f s cn v : volume s → CLUST_FIRST ≤ cn ≤ pm_maxcluster pmp → f = FAT_SET ∨ f = FAT_GET_AND_SET →
  ∃ s', fatentry pmp f cn v s = Ok ((0, if f =? FAT_SET then None else Some (value s cn)), s') ∧
    reentered s s' (λ c, if decide (c = cn) then Z.land v (pm_fatmask pmp) else entry s c).
Proof.
  intros Hv Hcn Hf. unfold CLUST_FIRST in Hcn. destruct (fatblock_ok pmp G cn) as (o & bn & bsize & Hfb & Hb & Ho); [lia|].
  unfold fatentry. rewrite (proj2 (Z.ltb_ge cn CLUST_FIRST)), (proj2 (Z.ltb_ge _ cn)) by (unfold CLUST_FIRST; lia). change (false || false) with false. cbv iota. rewrite Hfb. cbv beta iota zeta.
  destruct (bread_block s o bn bsize) as (bp & Hr & Hbn & Hbc & Hview); [apply Hv|done|]. rewrite (bind_Ok _ _ _ _ _ Hr). cbv beta iota.
  assert (bytes (T s)) as Hbt by apply bytes_tab, Hv.
  assert (ofs pmp cn - o + width pmp ≤ b_bcount bp) as Hin by (pose proof (ba_whole _ _ _ _ Hb cn ltac:(lia)); lia).
  set (g := if negb (Z.land f FAT_GET =? 0) then _ else _). assert (g s = Ok (if f =? FAT_SET then None else Some (value s cn), s)) as Hg.
  { unfold g. destruct Hf as [-> | ->]; [done|]. change (negb (Z.land FAT_GET_AND_SET FAT_GET =? 0)) with true. cbv iota. rewrite (get_fat_ok pmp G cn bp (T s) o) by (done || lia).
    by rewrite bind_liftO. }
  rewrite (bind_Ok _ _ _ _ _ Hg). replace (negb (Z.land f FAT_SET =? 0)) with true by (destruct Hf as [-> | ->]; done). cbv iota.
  destruct (put_fat_ok pmp G cn bp (T s) o v) as (bp' & Hput & Hbn' & Hbc' & Hview'); [done|done|lia|done|]. rewrite Hput, bind_assoc, bind_liftO, bind_assoc.
  destruct (updatefats_ok s bp' o bn bsize (put_ent pmp (T s) cn v)) as (s1 & Hu & Hs1); [done|done|congruence|congruence|done|by apply bytes_put_ent| |].
  { intros x Hx Hxo. apply put_ent_local. lia. }
  rewrite (bind_Ok _ _ _ _ _ Hu), bind_modifyS. mrun. exists (set_fmod 1 s1). split; [done|]. pose proof Hs1 as (Heq & Hv1 & Ht & Hframe).
  split; [by destruct Hv1|]. split; [by rewrite Heq|]. split; [|done].
  intros c Hc. change (entry s1 c = if decide (c = cn) then Z.land v (pm_fatmask pmp) else entry s c). rewrite (retabled_entry s s1 _ c Hs1 Hc). rewrite ent_put by (done || lia). done.
Qed.

(** ** A chain of entries *)

(** What a cluster [c] of a chain that ends before [last] gets. *)
Definition link (last fillwith c : Z) : Z := Z.land (if c + 1 =? last then fillwith else c + 1) (pm_fatmask pmp).

Lemma ofs_succ cn : 0 ≤ cn →
  ofs pmp (cn + 1) = ofs pmp cn + (if FAT12 pmp then (if Z.odd (cn + 1) then 1 else 2) else if FAT16 pmp then 2 else 4).
Proof.
  intros Hcn. unfold ofs, FAT12, FAT16. pose proof (Zdiv.Zmod_odd (cn + 1)). destruct (g_type pmp G) as [Hm Hmult Hdiv _|Hm Hmult Hdiv|Hm Hmult Hdiv]; rewrite Hm, Hmult, Hdiv; simpl.
  - destruct (Z.odd (cn + 1)); div_mod_lia.
  - rewrite !Z.div_1_r. lia.
  - rewrite !Z.div_1_r. lia.
Qed.

Lemma fill_block_ok fillwith o bn bsize : block_at pmp o bn bsize → ∀ fuel start count bp t,
  bytes t → views bp t o → b_bcount bp = bsize → 0 ≤ start → start + count - 1 ≤ pm_maxcluster pmp → 0 < count → (Z.to_nat count < fuel)%nat →
  o ≤ ofs pmp start < o + bsize →
  ∃ j bp' t', 0 < j ≤ count ∧ fill_block pmp fuel bsize (ofs pmp start - o) start count fillwith bp = Ok (start + j, count - j, bp') ∧
    rewritten bp bp' t' o ∧ bytes t' ∧ (∀ x, x < o ∨ o + bsize ≤ x → t' x = t x) ∧
    (∀ c, 0 ≤ c → ent pmp t' c = if decide (start ≤ c < start + j) then link (start + count) fillwith c else ent pmp t c).
Proof.
  intros Hb. induction fuel as [|fuel IH]; intros start count bp t Ht Hv Hbc Hst Hmax Hcnt Hfuel Ho; [lia|].
  cbn [fill_block]. rewrite (proj2 (Z.eqb_neq count 0)) by lia. replace (start + 1 - 1) with start by lia.
  assert (ofs pmp start + width pmp ≤ o + bsize) as Hin by (apply (ba_whole _ _ _ _ Hb); lia).
  set (newc := if 0 <? count - 1 then _ else _).
  destruct (put_fat_ok pmp G start bp t o newc) as (bp1 & -> & Hbn1 & Hbc1 & Hv1); [done|done|lia|lia|]. cbn [mbind outcome_bind].
  set (t1 := put_ent pmp t start newc) in *. assert (bytes t1) as Ht1 by by apply bytes_put_ent.
  assert (∀ c, 0 ≤ c → ent pmp t1 c = if decide (start ≤ c < start + 1) then link (start + count) fillwith c else ent pmp t c) as He1.
  { intros c Hc. unfold t1. rewrite ent_put by done. case_decide as E; [subst c; rewrite decide_True by lia|rewrite decide_False by lia; done].
    unfold link, newc. f_equal. destruct (Z.ltb_spec 0 (count - 1)), (Z.eqb_spec (start + 1) (start + count)); done || lia. }
  set (bo' := if FAT12 pmp then _ else _). assert (bo' = ofs pmp (start + 1) - o) as Hbo.
  { rewrite ofs_succ by lia. unfold bo'. destruct (FAT12 pmp); [destruct (Z.odd (start + 1)); lia|]. destruct (FAT16 pmp); lia. }
  rewrite Hbo. assert (∀ x, x < o ∨ o + bsize ≤ x → t1 x = t x) as Hloc1 by (intros x Hx; apply put_ent_local; lia).
  destruct (Z.leb_spec bsize (ofs pmp (start + 1) - o)).
  - exists 1, bp1, t1. split; [lia|]. split; [done|]. split; [done|]. split; [done|]. split; done.
  - destruct (decide (count = 1)) as [->|Hc1].
    { exists 1, bp1, t1. split; [lia|]. split; [destruct fuel; [lia|done]|]. split; [done|]. split; [done|]. split; done. }
    pose proof (ofs_succ start Hst) as Hos. destruct (IH (start + 1) (count - 1) bp1 t1) as (j & bp2 & t2 & Hj & -> & Hrw & Ht2 & Hloc & He2); [done|done|congruence|lia|lia|lia|lia| |].
    { split; [|lia]. rewrite Hos. destruct (FAT12 pmp); [destruct (Z.odd (start + 1)); lia|]. destruct (FAT16 pmp); lia. }
    exists (j + 1), bp2, t2. split; [lia|]. split; [replace (start + (j + 1)) with (start + 1 + j) by lia; by replace (count - (j + 1)) with (count - 1 - j) by lia|]. split; [destruct Hrw as (?&?&?); split; [congruence|split; [congruence|done]]|].
    split; [done|]. split; [intros x Hx; rewrite Hloc, Hloc1 by done; done|].
    intros c Hc. rewrite He2, He1 by done. replace (start + 1 + (count - 1)) with (start + count) by lia. repeat case_decide; done || lia.
Qed.

Lemma fatchain_loop_ok fillwith : ∀ fuel start count s,
  volume s → CLUST_FIRST ≤ start → start + count - 1 ≤ pm_maxcluster pmp → 0 ≤ count → (Z.to_nat count < fuel)%nat →
  ∃ s', fatchain_loop pmp fuel start count fillwith s = Ok (0, s') ∧
    reentered s s' (λ c, if decide (start ≤ c < start + count) then link (start + count) fillwith c else entry s c).
Proof.
  induction fuel as [|fuel IH]; intros start count s Hv Hst Hmax Hcnt Hfuel; [lia|]. unfold CLUST_FIRST in Hst.
  cbn [fatchain_loop]. destruct (Z.eqb_spec count 0) as [->|Hn].
  { rewrite bind_modifyS. mrun. exists (set_fmod 1 s). split; [done|]. split; [by destruct Hv|]. split; [by destruct s|]. split; [|done].
    intros c Hc. rewrite decide_False by lia. done. }
  destruct (fatblock_ok pmp G start) as (o & bn & bsize & Hfb & Hb & Ho); [lia|]. rewrite Hfb. cbv beta iota zeta.
  destruct (bread_block s o bn bsize) as (bp & Hr & Hbn & Hbc & Hview); [apply Hv|done|]. rewrite (bind_Ok _ _ _ _ _ Hr). cbv beta iota.
  destruct (fill_block_ok fillwith o bn bsize Hb (S (Z.to_nat count)) start count bp (T s)) as (j & bp' & t' & Hj & -> & (Hbn' & Hbc' & Hv') & Ht' & Hloc & He); try done; try lia; [apply bytes_tab, Hv|].
  rewrite bind_liftO. destruct (updatefats_ok s bp' o bn bsize t') as (s1 & Hu & Hs1); [done|done|congruence|congruence|done|done|auto|].
  rewrite (bind_Ok _ _ _ _ _ Hu). pose proof Hs1 as (Heq & Hv1 & _ & Hfr).
  destruct (IH (start + j) (count - j) s1) as (s' & -> & Hv2 & Heq2 & He2 & Hfr2); [done|unfold CLUST_FIRST; lia|lia|lia|lia|].
  exists s'. split; [done|]. split; [done|]. split; [rewrite Heq2; by rewrite Heq|]. split.
  - intros c Hc. rewrite He2 by done. replace (start + j + (count - j)) with (start + count) by lia.
    rewrite (retabled_entry s s1 t' c Hs1 Hc), He by lia. fold (entry s c). repeat case_decide; done || lia.
  - intros a Ha. rewrite Hfr2, Hfr by done. done.
Qed.

Lemma fatchain_ok fillwith start count s :
  volume s → CLUST_FIRST ≤ start → start + count - 1 ≤ pm_maxcluster pmp → 0 ≤ count →
  ∃ s', fatchain pmp start count fillwith s = Ok (0, s') ∧
    reentered s s' (λ c, if decide (start ≤ c < start + count) then link (start + count) fillwith c else entry s c).
Proof.
  intros Hv Hst Hmax Hcnt. unfold fatchain. unfold CLUST_FIRST in *.
  assert (pm_maxcluster pmp < 2 ^ 32) as Hm.
  { destruct (g_max pmp G) as [_ Hm]. assert (Z.land CLUST_RSRVD (pm_fatmask pmp) < 2 ^ 32); [|lia]. destruct (g_type pmp G) as [E|E|E]; by rewrite E. }
  rewrite (proj2 (Z.ltb_ge start 2)), (proj2 (Z.ltb_ge _ (u64 _))) by (rewrite ?u64_id; lia). change (false || false) with false. cbv iota.
  apply fatchain_loop_ok; [done|unfold CLUST_FIRST; lia|lia|lia|lia].
Qed.

End Entry.
