(* ===== verification/FatMap.v ===== *)
(** The map of clusters in use: allocating and freeing one cluster, and the length of a
    free run. *)

From S2P Require Import Prelude Errors Fat FatTable FatEntry.
From Stdlib Require Import ZifyBool.

(** * Counting and runs *)

(** How many of the first [n] numbers are free. *)
Fixpoint free_number (u : Z → bool) (n : nat) : Z :=
  match n with
  | O => 0
  | S n => free_number u n + (if u (Z.of_nat n) then 0 else 1)
  end.

Lemma free_number_ext u u' n : (∀ c, 0 ≤ c < Z.of_nat n → u c = u' c) → free_number u n = free_number u' n.
Proof. induction n as [|n IH]; intros H; [done|]. cbn [free_number]. rewrite (H (Z.of_nat n)) by lia. rewrite IH; [done|]. intros c Hc. apply H. lia. Qed.

Lemma free_number_flip u u' n cn : 0 ≤ cn < Z.of_nat n → u cn = false → u' cn = true → (∀ c, c ≠ cn → u' c = u c) → free_number u n = free_number u' n + 1.
Proof.
  intros Hcn Hu Hu' H. induction n as [|n IH]; [lia|]. cbn [free_number]. destruct (decide (cn = Z.of_nat n)) as [->|Hne].
  - rewrite Hu, Hu'. rewrite (free_number_ext u u' n) by (intros c Hc; rewrite H by lia; done). lia.
  - rewrite IH by lia. rewrite (H (Z.of_nat n)) by lia. lia.
Qed.

Lemma free_number_range u n : 0 ≤ free_number u n ≤ Z.of_nat n.
Proof. induction n as [|n IH]; cbn [free_number]; [lia|]. case_match; lia. Qed.

Lemma free_number_all u n : (∀ c, 0 ≤ c < Z.of_nat n → u c = true) → free_number u n = 0.
Proof. induction n as [|n IH]; intros H; [done|]. cbn [free_number]. rewrite IH, H by (intros; try apply H; lia). done. Qed.

Lemma free_number_pos u n cn : 0 ≤ cn < Z.of_nat n → u cn = false → 0 < free_number u n.
Proof.
  intros Hcn Hu. induction n as [|n IH]; [lia|]. cbn [free_number]. pose proof (free_number_range u n). destruct (decide (cn = Z.of_nat n)) as [->|]; [rewrite Hu; lia|].
  specialize (IH ltac:(lia)). case_match; lia.
Qed.

(** The number of free clusters from [c] on, up to a used one. *)
Fixpoint run_from (u : Z → bool) (n : nat) (c : Z) : Z :=
  match n with
  | O => 0
  | S n => if u c then 0 else 1 + run_from u n (c + 1)
  end.

Lemma run_from_spec u n c : let r := run_from u n c in
  0 ≤ r ≤ Z.of_nat n ∧ (∀ i, c ≤ i < c + r → u i = false) ∧ (r < Z.of_nat n → u (c + r) = true).
Proof.
  revert c. induction n as [|n IH]; intros c; cbn [run_from]; [split; [lia|split; lia]|]. destruct (u c) eqn:E.
  - split; [lia|]. split; [lia|]. intros _. by rewrite Z.add_0_r.
  - destruct (IH (c + 1)) as (H1 & H2 & H3). split; [lia|]. split.
    + intros i Hi. destruct (decide (i = c)) as [->|]; [done|]. apply H2. lia.
    + intros Hr. replace (c + (1 + run_from u n (c + 1))) with (c + 1 + run_from u n (c + 1)) by lia. apply H3. lia.
Qed.

Lemma run_from_unique u n c r : 0 ≤ r ≤ Z.of_nat n → (∀ i, c ≤ i < c + r → u i = false) → (r < Z.of_nat n → u (c + r) = true) → run_from u n c = r.
Proof.
  intros Hr Hf Hu. destruct (run_from_spec u n c) as (H1 & H2 & H3). set (r' := run_from u n c) in *. destruct (Z.lt_trichotomy r' r) as [Hlt|[|Hlt]]; [|done|].
  - specialize (H3 ltac:(lia)). rewrite Hf in H3 by lia. done.
  - specialize (Hu ltac:(lia)). rewrite H2 in Hu by lia. done.
Qed.

(** * Bits of words *)

Definition is_word (w : Z) : Prop := 0 ≤ w < 2 ^ 32.

Lemma testbit_u32 x j : 0 ≤ j < 32 → Z.testbit (u32 x) j = Z.testbit x j.
Proof. intros. unfold u32, uwrap. apply Z.mod_pow2_bits_low. lia. Qed.

Lemma word_bits_high w j : is_word w → 32 ≤ j → Z.testbit w j = false.
Proof. intros [H1 H2] Hj. destruct (decide (w = 0)) as [->|]; [apply Z.bits_0|]. apply Z.bits_above_log2; [done|]. apply Z.log2_lt_pow2; [lia|]. eapply Z.lt_le_trans; [exact H2|]. apply Z.pow_le_mono_r; lia. Qed.

Lemma word_zero w : is_word w → (∀ j, 0 ≤ j < 32 → Z.testbit w j = false) → w = 0.
Proof. intros Hw H. apply Z.bits_inj_0. intros j. destruct (decide (j < 0)); [by apply Z.testbit_neg_r|]. destruct (decide (j < 32)); [apply H; lia|]. apply word_bits_high; [done|lia]. Qed.

Lemma word_eq w w' : is_word w → is_word w' → (∀ j, 0 ≤ j < 32 → Z.testbit w j = Z.testbit w' j) → w = w'.
Proof.
  intros Hw Hw' H. apply Z.bits_inj. intros j. destruct (decide (j < 0)); [by rewrite !Z.testbit_neg_r|]. destruct (decide (j < 32)); [apply H; lia|].
  rewrite !word_bits_high by (done || lia). done.
Qed.

Lemma is_word_bits w : 0 ≤ w → (∀ j, 32 ≤ j → Z.testbit w j = false) → is_word w.
Proof.
  intros H0 H. split; [done|]. destruct (decide (w < 2 ^ 32)) as [|Hge]; [done|]. exfalso. assert (32 ≤ Z.log2 w) by (apply Z.log2_le_pow2; lia).
  specialize (H (Z.log2 w) ltac:(lia)). rewrite Z.bit_log2 in H by lia. done.
Qed.

Lemma testbit_one k j : 0 ≤ k → Z.testbit (Z.shiftl 1 k) j = (j =? k).
Proof. intros. rewrite Z.shiftl_1_l, Z.pow2_bits_eqb by done. lia. Qed.

Lemma testbit_ones k j : 0 ≤ k → 0 ≤ j → Z.testbit (Z.shiftl 1 k - 1) j = (j <? k).
Proof. intros. rewrite Z.shiftl_1_l. replace (2 ^ k - 1) with (Z.ones k) by (rewrite Z.ones_equiv; lia). rewrite Z.testbit_ones_nonneg by done. done. Qed.

Lemma land_bit w k : 0 ≤ k → (Z.land w (Z.shiftl 1 k) =? 0) = negb (Z.testbit w k).
Proof.
  intros Hk. destruct (Z.testbit w k) eqn:E; simpl.
  - apply Z.eqb_neq. intros H. assert (Z.testbit (Z.land w (Z.shiftl 1 k)) k = false) as H' by (rewrite H; apply Z.bits_0).
    rewrite Z.land_spec, E, testbit_one, Z.eqb_refl in H' by done. done.
  - apply Z.eqb_eq, Z.bits_inj_0. intros j. rewrite Z.land_spec, testbit_one by done. destruct (Z.eqb_spec j k) as [->|]; [by rewrite E|]. apply andb_false_r.
Qed.

Lemma ffs_from_spec w : ∀ n i, 0 ≤ i → i + Z.of_nat n = 32 → (∀ j, 0 ≤ j < i → Z.testbit w j = false) → (∃ j, 0 ≤ j < 32 ∧ Z.testbit w j = true) →
  let p := ffs_from n i w - 1 in 0 ≤ p < 32 ∧ Z.testbit w p = true ∧ ∀ j, 0 ≤ j < p → Z.testbit w j = false.
Proof.
  induction n as [|n IH]; intros i Hi Hn Hlow [k [Hk Hb]]; cbn [ffs_from].
  - rewrite Hlow in Hb by lia. done.
  - destruct (Z.testbit w i) eqn:E.
    + replace (i + 1 - 1) with i by lia. split; [lia|]. split; done.
    + apply IH; [lia|lia| |by exists k]. intros j Hj. destruct (decide (j = i)) as [->|]; [done|]. apply Hlow. lia.
Qed.

Lemma ffs_spec w : is_word w → w ≠ 0 → let p := ffs w - 1 in 0 ≤ p < 32 ∧ Z.testbit w p = true ∧ ∀ j, 0 ≤ j < p → Z.testbit w j = false.
Proof.
  intros Hw Hn. apply ffs_from_spec; [done|done|lia|]. destruct (decide (Forall (λ j, Z.testbit w j = false) (seqZ 0 32))) as [Hf|Hf].
  - exfalso. apply Hn, word_zero; [done|]. intros j Hj. rewrite Forall_forall in Hf. apply Hf, elem_of_seqZ. lia.
  - apply not_Forall_Exists in Hf; [|apply _]. apply Exists_exists in Hf as (j & Hj & Hb). apply elem_of_seqZ in Hj. exists j. split; [lia|]. simpl in Hb. by destruct (Z.testbit w j).
Qed.

(** * The map *)

Section Map.
Context (pmp : geometry) (G : geometry_ok pmp).

Notation max := (pm_maxcluster pmp).

Definition word_at (s : msdosfsmount) (i : Z) : Z := pm_inusemap s !!! Z.to_nat i.

Definition inuse (s : msdosfsmount) (cn : Z) : bool := Z.testbit (word_at s (cn / 32)) (cn mod 32).

(** The map has a bit for every cluster, the bits after the last one are set, and the
    number of free clusters is right. *)
Record map_inv (s : msdosfsmount) : Prop := {
  m_len : zlen (pm_inusemap s) = max / 32 + 1;
  m_words : ∀ i, 0 ≤ i ≤ max / 32 → is_word (word_at s i);
  m_tail : ∀ cn, max < cn → cn / 32 ≤ max / 32 → inuse s cn = true;
  m_count : pm_freeclustercount s = free_number (inuse s) (Z.to_nat (max + 1))
}.

Lemma max_range : 2 ≤ max < 2 ^ 28.
Proof.
  destruct (g_max pmp G) as [H1 Hm]. unfold CLUST_FIRST in H1. assert (Z.land CLUST_RSRVD (pm_fatmask pmp) < 2 ^ 28); [|lia]. destruct (g_type pmp G) as [E|E|E]; by rewrite E.
Qed.

Lemma map_word_ok s i : map_inv s → 0 ≤ i ≤ max / 32 → map_word i s = Ok (word_at s i, s).
Proof.
  intros Hm Hi. unfold map_word. mrun. rewrite (proj2 (Z.ltb_ge i 0)) by lia. pose proof (m_len s Hm).
  rewrite (list_lookup_lookup_total_lt (pm_inusemap s) (Z.to_nat i)) by lia. done.
Qed.

Lemma set_map_word_ok s i w : map_inv s → 0 ≤ i ≤ max / 32 → set_map_word i w s = Ok (tt, set_inusemap (<[Z.to_nat i := w]> (pm_inusemap s)) s).
Proof.
  intros Hm Hi. unfold set_map_word. mrun. pose proof (m_len s Hm). rewrite (proj2 (Z.ltb_ge i 0)), (proj2 (Z.leb_gt _ i)) by lia. done.
Qed.

Lemma word_at_insert s i w j : map_inv s → 0 ≤ i ≤ max / 32 → 0 ≤ j → word_at (set_inusemap (<[Z.to_nat i := w]> (pm_inusemap s)) s) j = if decide (j = i) then w else word_at s j.
Proof.
  intros Hm Hi Hj. pose proof (m_len s Hm). unfold word_at. simpl. case_decide as E; [subst; apply list_lookup_total_insert_eq; lia|].
  apply list_lookup_total_insert_ne. lia.
Qed.

(** The state after the map has become [u]. *)
Record remapped (s s' : msdosfsmount) (u : Z → bool) : Prop := {
  r_dev : dev s' = dev s;
  r_errs : errs s' = errs s;
  r_fmod : pm_fmod s' = pm_fmod s;
  r_lock : pm_fatlock s' = pm_fatlock s;
  r_integrity : integrity s' = integrity s;
  r_nxtfree : pm_nxtfree s' = pm_nxtfree s;
  r_flags : mirrored s' = mirrored s ∧ is_ronly s' = is_ronly s;
  r_map : map_inv s';
  r_use : ∀ cn, 0 ≤ cn ≤ max → inuse s' cn = u cn
}.

Lemma flags_fsimod s : mirrored (set_flags (Z.lor (pm_flags s) MSDOSFS_FSIMOD) s) = mirrored s ∧ is_ronly (set_flags (Z.lor (pm_flags s) MSDOSFS_FSIMOD) s) = is_ronly s.
Proof.
  unfold mirrored, is_ronly. simpl. rewrite !Z.land_lor_distr_l. change (Z.land MSDOSFS_FSIMOD MSDOSFS_FATMIRROR) with 0. change (Z.land MSDOSFS_FSIMOD MSDOSFSMNT_RONLY) with 0. by rewrite !Z.lor_0_r.
Qed.

(** One bit of the map, and the count with it. *)
Lemma set_bit_inv s cn w (b : bool) :
  map_inv s → 0 ≤ cn ≤ max → inuse s cn = negb b → is_word w →
  (∀ j, 0 ≤ j < 32 → Z.testbit w j = if decide (j = cn mod 32) then b else Z.testbit (word_at s (cn / 32)) j) →
  let s' := set_flags (Z.lor (pm_flags s) MSDOSFS_FSIMOD) (set_freeclustercount (pm_freeclustercount s + if b then -1 else 1) (set_inusemap (<[Z.to_nat (cn / 32) := w]> (pm_inusemap s)) s)) in
  remapped s s' (λ c, if decide (c = cn) then b else inuse s c).
Proof.
  intros Hm Hcn Hu Hw Hb s'. assert (0 ≤ cn / 32 ≤ max / 32) as Hi by (split; [apply Z.div_pos; lia|apply Z.div_le_mono; lia]).
  assert (∀ c, 0 ≤ c → inuse s' c = if decide (c = cn) then b else inuse s c) as Huse.
  { intros c Hc. unfold inuse. change (word_at s' (c / 32)) with (word_at (set_inusemap (<[Z.to_nat (cn / 32) := w]> (pm_inusemap s)) s) (c / 32)).
    rewrite word_at_insert by (done || apply Z.div_pos; lia). case_decide as E1.
    - rewrite Hb by (apply Z.mod_pos_bound; lia). rewrite E1. case_decide as E2; case_decide as E3; try done.
      + exfalso. clear - E1 E2 E3. div_mod_lia.
      + subst. done.
    - rewrite decide_False; [done|]. intros ->. done. }
  split; try done.
  - apply (flags_fsimod s).
  - pose proof (m_words s Hm) as Hws. split.
    + simpl. rewrite length_insert. apply (m_len s Hm).
    + intros i Hii. change (word_at s' i) with (word_at (set_inusemap (<[Z.to_nat (cn / 32) := w]> (pm_inusemap s)) s) i).
      rewrite word_at_insert by (done || lia). case_decide; [done|by apply Hws].
    + intros c Hc1 Hc2. pose proof max_range. rewrite Huse by lia. rewrite decide_False by lia. by apply (m_tail s Hm).
    + simpl. rewrite (m_count s Hm). destruct b; simpl in Hu.
      * rewrite (free_number_flip (inuse s) (λ c, if decide (c = cn) then true else inuse s c) _ cn); [|lia|done|by rewrite decide_True|intros c Hc; by rewrite decide_False].
        rewrite (free_number_ext (inuse s') (λ c, if decide (c = cn) then true else inuse s c)) by (intros c Hc; rewrite Huse by lia; done). lia.
      * rewrite (free_number_ext (inuse s') (λ c, if decide (c = cn) then false else inuse s c)) by (intros c Hc; rewrite Huse by lia; done).
        rewrite (free_number_flip (λ c, if decide (c = cn) then false else inuse s c) (inuse s) _ cn); [lia|lia|by rewrite decide_True|done|intros c Hc; by rewrite decide_False].
  - intros c Hc. apply Huse. lia.
Qed.

Lemma div32_range cn : 0 ≤ cn ≤ max → 0 ≤ cn / 32 ≤ max / 32.
Proof. intros. split; [apply Z.div_pos; lia|apply Z.div_le_mono; lia]. Qed.

Lemma locked_ok s : 0 < pm_fatlock s → MSDOSFS_ASSERT_MP_LOCKED s = Ok (tt, s).
Proof. intros. unfold MSDOSFS_ASSERT_MP_LOCKED. mrun. rewrite (proj2 (Z.ltb_lt 0 _)) by done. done. Qed.

Lemma kassert_ok {B} b (k : unit → FM B) s : b = true → (KASSERT b ≫= k) s = k tt s.
Proof. by intros ->. Qed.

Lemma usemap_alloc_ok s cn : map_inv s → 0 < pm_fatlock s → is_ronly s = false → 0 ≤ cn ≤ max → inuse s cn = false →
  ∃ s', usemap_alloc pmp cn s = Ok (tt, s') ∧ remapped s s' (λ c, if decide (c = cn) then true else inuse s c).
Proof.
  intros Hm Hl Hr Hcn Hu. pose proof (div32_range cn Hcn) as Hi. pose proof (Z.mod_pos_bound cn 32 ltac:(done)) as Hk. unfold usemap_alloc. change N_INUSEBITS with 32.
  rewrite (bind_Ok _ _ _ _ _ (locked_ok s Hl)), kassert_ok by lia. mrun. rewrite kassert_ok by (by rewrite Hr).
  rewrite (bind_Ok _ _ _ _ _ (map_word_ok s _ Hm Hi)). unfold use_bit. change N_INUSEBITS with 32. rewrite kassert_ok by (rewrite land_bit by lia; unfold inuse in Hu; by rewrite Hu).
  rewrite (bind_Ok _ _ _ _ _ (set_map_word_ok s _ _ Hm Hi)). rewrite kassert_ok.
  2: { rewrite (m_count s Hm). apply Z.ltb_lt. apply (free_number_pos _ _ cn); [lia|done]. }
  rewrite bind_modifyS. eexists. split; [done|]. apply (set_bit_inv s cn (Z.lor (word_at s (cn / 32)) (Z.shiftl 1 (cn mod 32))) true Hm Hcn Hu).
  - apply is_word_bits.
    + apply Z.lor_nonneg. split; [apply (m_words s Hm); done|apply Z.shiftl_nonneg; lia].
    + intros j Hj. rewrite Z.lor_spec, testbit_one by lia. rewrite word_bits_high by (by apply (m_words s Hm) || lia). lia.
  - intros j Hj. rewrite Z.lor_spec, testbit_one by lia. case_decide as E; [rewrite (proj2 (Z.eqb_eq _ _) E); apply orb_true_r|]. rewrite (proj2 (Z.eqb_neq _ _) E). apply orb_false_r.
Qed.

(** The bit is cleared, or it was clear and an integrity error is reported. *)
Lemma usemap_free_ok s cn : map_inv s → 0 < pm_fatlock s → is_ronly s = false → 0 ≤ cn ≤ max → inuse s cn = true →
  ∃ s', usemap_free pmp cn s = Ok (0, s') ∧ remapped s s' (λ c, if decide (c = cn) then false else inuse s c).
Proof.
  intros Hm Hl Hr Hcn Hu. pose proof (div32_range cn Hcn) as Hi. pose proof (Z.mod_pos_bound cn 32 ltac:(done)) as Hk. unfold usemap_free. change N_INUSEBITS with 32.
  rewrite (bind_Ok _ _ _ _ _ (locked_ok s Hl)), kassert_ok by lia. mrun. rewrite kassert_ok by (by rewrite Hr).
  rewrite (bind_Ok _ _ _ _ _ (map_word_ok s _ Hm Hi)). unfold use_bit. change N_INUSEBITS with 32. rewrite land_bit by lia. unfold inuse in Hu. rewrite Hu. change (negb true) with false. cbv iota.
  rewrite !bind_modifyS. set (s1 := set_flags _ _). assert (u64 (pm_freeclustercount s + 1) = pm_freeclustercount s + 1) as Hc.
  { apply u64_id. rewrite (m_count s Hm). pose proof (free_number_range (inuse s) (Z.to_nat (max + 1))). pose proof max_range. lia. }
  assert (set_map_word (cn / 32) (Z.land (word_at s (cn / 32)) (u32 (Z.lnot (Z.shiftl 1 (cn mod 32))))) s1 = Ok (tt, set_inusemap (<[Z.to_nat (cn / 32) := Z.land (word_at s (cn / 32)) (u32 (Z.lnot (Z.shiftl 1 (cn mod 32))))]> (pm_inusemap s)) s1)) as Hs.
  { unfold set_map_word. mrun. change (pm_inusemap s1) with (pm_inusemap s). pose proof (m_len s Hm). rewrite (proj2 (Z.ltb_ge _ 0)), (proj2 (Z.leb_gt _ _)) by lia. done. }
  rewrite (bind_Ok _ _ _ _ _ Hs). mrun. eexists. split; [done|]. unfold s1. rewrite Hc.
  apply (set_bit_inv s cn (Z.land (word_at s (cn / 32)) (u32 (Z.lnot (Z.shiftl 1 (cn mod 32))))) false Hm Hcn Hu).
  - pose proof (m_words s Hm _ Hi) as Hw. apply is_word_bits; [apply Z.land_nonneg; left; apply Hw|]. intros j Hj. rewrite Z.land_spec, word_bits_high by done. done.
  - intros j Hj. rewrite Z.land_spec, testbit_u32, Z.lnot_spec, testbit_one by lia. case_decide as E; [rewrite (proj2 (Z.eqb_eq _ _) E); apply andb_false_r|]. rewrite (proj2 (Z.eqb_neq _ _) E). apply andb_true_r.
Qed.

Lemma usemap_free_unused s cn : map_inv s → 0 < pm_fatlock s → is_ronly s = false → 0 ≤ cn ≤ max → inuse s cn = false →
  usemap_free pmp cn s = Ok (EINTEGRITY, set_integrity (integrity s + 1) s).
Proof.
  intros Hm Hl Hr Hcn Hu. pose proof (div32_range cn Hcn) as Hi. pose proof (Z.mod_pos_bound cn 32 ltac:(done)) as Hk. unfold usemap_free. change N_INUSEBITS with 32.
  rewrite (bind_Ok _ _ _ _ _ (locked_ok s Hl)), kassert_ok by lia. mrun. rewrite kassert_ok by (by rewrite Hr).
  rewrite (bind_Ok _ _ _ _ _ (map_word_ok s _ Hm Hi)). unfold use_bit. change N_INUSEBITS with 32. rewrite land_bit by lia. unfold inuse in Hu. rewrite Hu. done.
Qed.

End Map.

(** * Searching the map for free runs: [chainlength] and the loops of [clusteralloc1]. *)

Section Run.
Context (pmp : geometry) (G : geometry_ok pmp).

Notation max := (pm_maxcluster pmp).

(** The length of the free run that starts at a cluster. *)
Definition runlen (s : msdosfsmount) (c : Z) : Z := run_from (inuse s) (Z.to_nat (max + 1 - c)) c.

Section Fixed.
Context (s : msdosfsmount) (Hm : map_inv pmp s) (Hl : 0 < pm_fatlock s).

Lemma runlen_spec c : 0 ≤ c ≤ max + 1 → 0 ≤ runlen s c ∧ c + runlen s c ≤ max + 1 ∧
  (∀ i, c ≤ i < c + runlen s c → inuse s i = false) ∧ (c + runlen s c ≤ max → inuse s (c + runlen s c) = true).
Proof.
  intros Hc. destruct (run_from_spec (inuse s) (Z.to_nat (max + 1 - c)) c) as (H1 & H2 & H3). unfold runlen. split; [lia|]. split; [lia|]. split; [done|]. intros. apply H3. lia.
Qed.

Lemma runlen_eq c r : 0 ≤ c → 0 ≤ r → c + r ≤ max + 1 → (∀ i, c ≤ i < c + r → inuse s i = false) → (c + r ≤ max → inuse s (c + r) = true) → runlen s c = r.
Proof. intros. apply run_from_unique; [lia|done|]. intros. auto with lia. Qed.

Lemma runlen_ge c r : 0 ≤ c → 0 ≤ r → c + r ≤ max + 1 → (∀ i, c ≤ i < c + r → inuse s i = false) → r ≤ runlen s c.
Proof.
  intros. destruct (runlen_spec c) as (H3 & H4 & H5 & H6); [lia|]. destruct (decide (r ≤ runlen s c)); [done|]. exfalso.
  specialize (H6 ltac:(lia)). rewrite H2 in H6 by lia. done.
Qed.

(** Inside a run, and at a used cluster. *)
Lemma runlen_inside c i : 0 ≤ c → c ≤ i ≤ c + runlen s c → i ≤ max → runlen s i ≤ runlen s c.
Proof.
  intros Hc Hi Hmax. destruct (runlen_spec c) as (H3 & H4 & H5 & H6); [lia|]. rewrite (runlen_eq i (c + runlen s c - i)); [lia|lia|lia|lia| |].
  - intros j Hj. apply H5. lia.
  - intros Hj. replace (i + (c + runlen s c - i)) with (c + runlen s c) in * by lia. by apply H6.
Qed.

Lemma runlen_used c : 0 ≤ c ≤ max → inuse s c = true → runlen s c = 0.
Proof. intros Hc Hu. apply runlen_eq; [lia|lia|lia|lia|]. intros _. by rewrite Z.add_0_r. Qed.

Lemma runlen_pos c : 0 ≤ c ≤ max → inuse s c = false → 1 ≤ runlen s c.
Proof. intros Hc Hu. apply runlen_ge; [lia|lia|lia|]. intros i Hi. replace i with c by lia. done. Qed.

(** Bits of the word of a cluster. *)
Lemma inuse_bit i j : 0 ≤ j < 32 → inuse s (32 * i + j) = Z.testbit (word_at s i) j.
Proof. intros Hj. unfold inuse. replace ((32 * i + j) / 32) with i by div_mod_lia. by replace ((32 * i + j) mod 32) with j by div_mod_lia. Qed.

(** The first used cluster at or after [c], in word [i], ends the run. *)
Lemma run_ends c i p : 0 ≤ c ≤ max → 0 ≤ p < 32 → 0 ≤ i ≤ max / 32 → c ≤ 32 * i + p → (∀ k, c ≤ k < 32 * i + p → inuse s k = false) → inuse s (32 * i + p) = true →
  runlen s c = 32 * i + p - c ∧ 32 * i + p ≤ max + 1.
Proof.
  intros Hc Hp Hi Hle Hf Hu. assert (32 * i + p ≤ max + 1) as Hmax.
  { destruct (decide (32 * i + p ≤ max + 1)); [done|]. exfalso. assert (inuse s (max + 1) = true) as H.
    - apply (m_tail pmp s Hm); [lia|]. clear - n Hp Hi. div_mod_lia.
    - rewrite Hf in H by lia. done. }
  split; [|done]. apply runlen_eq; [lia|lia|lia| |].
  - intros k Hk. apply Hf. lia.
  - intros _. by replace (c + (32 * i + p - c)) with (32 * i + p) by lia.
Qed.

(** A run that goes to the end of word [i] ends inside the volume. *)
Lemma run_in_volume c i : 0 ≤ c → 0 ≤ i ≤ max / 32 → c < 32 * (i + 1) → (∀ k, c ≤ k < 32 * (i + 1) → inuse s k = false) → 32 * (i + 1) ≤ max + 1.
Proof.
  intros Hc Hi Hlt Hf. destruct (decide (32 * (i + 1) ≤ max + 1)); [done|]. exfalso. assert (inuse s (32 * i + 31) = true) as H.
  - apply (m_tail pmp s Hm); [lia|]. clear - Hi. div_mod_lia.
  - rewrite Hf in H by lia. done.
Qed.

Lemma clamp_id c len : 0 ≤ c ≤ max → 0 ≤ len → c + len ≤ max + 1 → clamp pmp (c mod 32) len = len.
Proof.
  intros Hc H0 Hlen. pose proof (max_range pmp G). assert (0 ≤ c mod 32 ≤ c) by (split; [by apply Z.mod_pos_bound|apply Z.mod_le; lia]).
  unfold clamp. rewrite u64_id by lia. destruct (Z.ltb_spec max (c mod 32 + len)); [|done]. rewrite u64_id by lia. lia.
Qed.

Lemma chainlength_loop_ok c count : 0 ≤ c ≤ max → ∀ fuel idx len, 0 ≤ idx → 0 ≤ len → (Z.to_nat (max / 32 - idx) < fuel)%nat →
  c + len = 32 * (idx + 1) → c + len ≤ max + 1 → (∀ k, c ≤ k < c + len → inuse s k = false) →
  ∃ len', chainlength_loop pmp fuel idx len count s = Ok (len', s) ∧ 0 ≤ len' ∧ c + len' ≤ max + 1 ∧ Z.min len' count = Z.min (runlen s c) count.
Proof.
  intros Hc. induction fuel as [|fuel IH]; intros idx len Hidx Hlen Hfuel Heq Hmax Hf; [lia|]. cbn [chainlength_loop]. change N_INUSEBITS with 32.
  assert (len ≤ runlen s c) as Hge by (apply runlen_ge; [lia|lia|lia|done]).
  destruct (Z.ltb_spec (max / 32) (idx + 1)) as [Hlast|Hin].
  - mrun. exists len. split; [done|]. split; [done|]. split; [done|]. rewrite (runlen_eq c len); [done|lia|lia|lia|done|]. intros Hle. exfalso. clear - Hlast Heq Hle. div_mod_lia.
  - destruct (Z.leb_spec count len). { mrun. exists len. split; [done|]. split; [done|]. split; [done|]. lia. }
    rewrite (bind_Ok _ _ _ _ _ (map_word_ok pmp s (idx + 1) Hm ltac:(lia))). assert (is_word (word_at s (idx + 1))) as Hw by (apply (m_words pmp s Hm); lia).
    destruct (Z.eqb_spec (word_at s (idx + 1)) 0) as [E|E]; cbn [negb].
    + assert (∀ k, c ≤ k < c + (len + 32) → inuse s k = false) as Hf'.
      { intros k Hk. destruct (decide (k < c + len)); [apply Hf; lia|]. replace k with (32 * (idx + 1) + (k - 32 * (idx + 1))) by lia. rewrite inuse_bit by lia. rewrite E. apply Z.bits_0. }
      apply IH; [lia|lia|lia|lia| |done]. replace (c + (len + 32)) with (32 * (idx + 1 + 1)) by lia. apply (run_in_volume c); [lia|lia|lia|]. intros k Hk. apply Hf'. lia.
    + destruct (ffs_spec _ Hw E) as (Hp & Hset & Hlow). mrun. eexists. split; [done|]. set (p := ffs _ - 1) in *.
      destruct (run_ends c (idx + 1) p) as [Hrun Hpm]; [lia|lia|lia|lia| |by rewrite inuse_bit|].
      { intros k Hk. destruct (decide (k < c + len)); [apply Hf; lia|]. replace k with (32 * (idx + 1) + (k - 32 * (idx + 1))) by lia. rewrite inuse_bit by lia. apply Hlow. lia. }
      split; [lia|]. split; [lia|]. rewrite Hrun. f_equal. lia.
Qed.

(** [chainlength] answers the length of the run, up to what is asked. *)
Lemma chainlength_ok c count : 0 ≤ c ≤ max + 1 → 0 ≤ count < 2 ^ 31 → chainlength pmp c count s = Ok (Z.min (runlen s c) count, s).
Proof.
  intros Hc0 Hcount. unfold chainlength. rewrite (bind_Ok _ _ _ _ _ (locked_ok s Hl)). destruct (Z.ltb_spec max c) as [Hgt|Hle].
  { mrun. replace c with (max + 1) by lia. rewrite (runlen_eq (max + 1) 0) by lia. do 2 f_equal. lia. }
  assert (0 ≤ c ≤ max) as Hc by lia. pose proof (div32_range pmp c Hc) as Hi. change N_INUSEBITS with 32.
  rewrite (bind_Ok _ _ _ _ _ (map_word_ok pmp s _ Hm Hi)). set (k := c mod 32). pose proof (Z.mod_pos_bound c 32 ltac:(done)) as Hk. fold k in Hk.
  assert (c = 32 * (c / 32) + k) as Ec by (unfold k; div_mod_lia). set (i := c / 32) in *. set (w := word_at s i). assert (is_word w) as Hw by (apply (m_words pmp s Hm); lia).
  set (map := Z.land w _). assert (∀ j, 0 ≤ j < 32 → Z.testbit map j = Z.testbit w j && (k <=? j)) as Hbits.
  { intros j Hj. unfold map. rewrite Z.land_spec, testbit_u32, Z.lnot_spec, testbit_ones by lia. f_equal. lia. }
  assert (is_word map) as Hmap by (apply is_word_bits; [apply Z.land_nonneg; left; apply Hw|]; intros j Hj; unfold map; rewrite Z.land_spec, word_bits_high by done; done).
  assert (∀ len, 0 ≤ len → c + len ≤ max + 1 → Z.min len count = Z.min (runlen s c) count → s32 (clamp pmp k (Z.min len count)) = Z.min (runlen s c) count) as Hdone.
  { intros len H0 Hlen <-. unfold k. rewrite clamp_id by lia. apply s32_id. unfold is_s32. lia. }
  destruct (Z.eqb_spec map 0) as [E|E]; cbn [negb].
  - assert (∀ x, c ≤ x < 32 * (i + 1) → inuse s x = false) as Hfree.
    { intros x Hx. replace x with (32 * i + (x - 32 * i)) by lia. rewrite inuse_bit by lia. fold w. specialize (Hbits (x - 32 * i) ltac:(lia)). rewrite E, Z.bits_0 in Hbits.
      rewrite (proj2 (Z.leb_le k _)), andb_true_r in Hbits by lia. done. }
    pose proof (run_in_volume c i ltac:(lia) Hi ltac:(lia) Hfree) as Hvol. assert (32 - k ≤ runlen s c) as Hge by (apply runlen_ge; [lia|lia|lia|]; intros x Hx; apply Hfree; lia).
    destruct (Z.leb_spec count (32 - k)) as [Hshort|Hlong].
    + mrun. replace count with (Z.min (32 - k) count) at 1 by lia. rewrite Hdone by lia. done.
    + destruct (chainlength_loop_ok c count Hc (S (Z.to_nat (max / 32))) i (32 - k)) as (len & Hrun & H0 & Hlen & Hmin); try lia. { intros x Hx. apply Hfree. lia. }
      rewrite (bind_Ok _ _ _ _ _ Hrun). mrun. rewrite Hdone by done. done.
  - destruct (ffs_spec map Hmap E) as (Hp & Hset & Hlow). set (p := ffs map - 1) in *. rewrite Hbits in Hset by lia. apply andb_true_iff in Hset as [Hset Hkp].
    destruct (run_ends c i p) as [Hrun Hpm]; [lia|lia|lia|lia| |by rewrite inuse_bit|].
    { intros x Hx. replace x with (32 * i + (x - 32 * i)) by lia. rewrite inuse_bit by lia. fold w. specialize (Hlow (x - 32 * i) ltac:(lia)).
      rewrite Hbits in Hlow by lia. rewrite (proj2 (Z.leb_le k _)), andb_true_r in Hlow by lia. done. }
    mrun. rewrite Hdone; [done|lia|lia|]. f_equal. lia.
Qed.

(** ** The search *)

(** What the search knows: the longest run it has seen. *)
Definition seen (fc fl : Z) : Prop := fl = 0 ∨ 0 ≤ fc ≤ max ∧ runlen s fc = fl.

(** The first free cluster of a word that has one, at or after [cn]. *)
Lemma first_free cn : 0 ≤ cn ≤ max → let map := Z.lor (word_at s (cn / 32)) (Z.shiftl 1 (cn mod 32) - 1) in
  if map =? FULL_RUN then (∀ c, cn ≤ c < cn + (32 - cn mod 32) → inuse s c = true)
  else let cn' := cn / 32 * 32 + ffs (Z.lxor map FULL_RUN) - 1 in cn ≤ cn' ≤ max ∧ inuse s cn' = false ∧ (∀ c, cn ≤ c < cn' → inuse s c = true).
Proof.
  intros Hcn map. pose proof (div32_range pmp cn Hcn) as Hi. set (k := cn mod 32) in *. pose proof (Z.mod_pos_bound cn 32 ltac:(done)) as Hk. fold k in Hk.
  assert (cn = 32 * (cn / 32) + k) as Ec by (unfold k; div_mod_lia). set (i := cn / 32) in *. assert (is_word (word_at s i)) as Hw by (apply (m_words pmp s Hm); lia).
  assert (∀ j, 0 ≤ j < 32 → Z.testbit map j = inuse s (32 * i + j) || (j <? k)) as Hbits by (intros j Hj; unfold map; rewrite Z.lor_spec, testbit_ones, inuse_bit by lia; done).
  assert (is_word map) as Hmap.
  { apply is_word_bits; [apply Z.lor_nonneg; split; [apply Hw|]|].
    - rewrite Z.shiftl_1_l. assert (0 < 2 ^ k) by (apply Z.pow_pos_nonneg; lia). lia.
    - intros j Hj. unfold map. rewrite Z.lor_spec, testbit_ones, word_bits_high by (done || lia). lia. }
  assert (∀ j, 0 ≤ j < 32 → Z.testbit FULL_RUN j = true) as Hfull by (intros j Hj; change FULL_RUN with (Z.ones 32); rewrite Z.testbit_ones_nonneg by lia; lia).
  destruct (Z.eqb_spec map FULL_RUN) as [E|E].
  - intros c Hc. replace c with (32 * i + (c - 32 * i)) by lia. specialize (Hbits (c - 32 * i) ltac:(lia)). rewrite E, Hfull in Hbits by lia. replace (c - 32 * i <? k) with false in Hbits by lia.
    by rewrite orb_false_r in Hbits.
  - assert (is_word (Z.lxor map FULL_RUN)) as Hx.
    { apply is_word_bits; [apply Z.lxor_nonneg; unfold FULL_RUN; split; [lia|intros _; apply Hmap]|]. intros j Hj. rewrite Z.lxor_spec, !word_bits_high by (done || lia). done. }
    destruct (ffs_spec _ Hx) as (Hp & Hset & Hlow).
    { intros H0. apply E. by apply Z.lxor_eq. }
    set (p := ffs _ - 1) in *. replace (i * 32 + ffs (Z.lxor map FULL_RUN) - 1) with (32 * i + p) by lia. rewrite Z.lxor_spec, Hfull, Hbits in Hset by lia.
    rewrite xorb_true_r in Hset. apply negb_true_iff, orb_false_iff in Hset as [Hset Hkp].
    assert (32 * i + p ≤ max) as Hmax.
    { destruct (decide (32 * i + p ≤ max)); [done|]. rewrite (m_tail pmp s Hm) in Hset; [done|lia|]. clear - Hi Hp. div_mod_lia. }
    split; [lia|]. split; [done|]. intros c Hc. replace c with (32 * i + (c - 32 * i)) by lia. specialize (Hlow (c - 32 * i) ltac:(lia)).
    rewrite Z.lxor_spec, Hfull, Hbits in Hlow by lia. rewrite xorb_true_r in Hlow. apply negb_false_iff in Hlow. replace (c - 32 * i <? k) with false in Hlow by lia. by rewrite orb_false_r in Hlow.
Qed.

Lemma find_run_ok count last : 1 ≤ count < 2 ^ 31 → last ≤ max → ∀ fuel cn fc fl,
  0 ≤ cn → (Z.to_nat (last + 1 - cn) < fuel)%nat → 0 ≤ fl < count → seen fc fl →
  ∃ r, find_run pmp fuel last cn count fc fl s = Ok (r, s) ∧
    match r with
    | inl c => 0 ≤ c ≤ max ∧ count ≤ runlen s c
    | inr (fc', fl') => fl ≤ fl' < count ∧ seen fc' fl' ∧ ∀ c, cn ≤ c ≤ last → runlen s c ≤ fl'
    end.
Proof.
  intros Hcount Hlast. induction fuel as [|fuel IH]; intros cn fc fl Hcn Hfuel Hfl Hseen; [lia|]. cbn [find_run]. change N_INUSEBITS with 32.
  destruct (Z.ltb_spec last cn) as [Hend|Hin]. { mrun. exists (inr (fc, fl)). split; [done|]. split; [lia|]. split; [done|lia]. }
  rewrite (bind_Ok _ _ _ _ _ (map_word_ok pmp s _ Hm (div32_range pmp cn ltac:(lia)))). pose proof (first_free cn ltac:(lia)) as Hff. cbv zeta in Hff.
  destruct (_ =? FULL_RUN); cbn [negb].
  - destruct (IH (cn + (32 - cn mod 32)) fc fl) as (r & -> & Hr); [pose proof (Z.mod_pos_bound cn 32 ltac:(done)); lia..|done|]. exists r. split; [done|]. destruct r as [c|[fc' fl']]; [done|].
    destruct Hr as (H1 & H2 & H3). split; [done|]. split; [done|]. intros c Hc. destruct (decide (c < cn + (32 - cn mod 32))); [|apply H3; lia]. rewrite runlen_used; [lia|lia|]. apply Hff. lia.
  - set (cn' := cn / 32 * 32 + _ - 1) in *. destruct Hff as (Hcn' & Hfree & Hused). rewrite (bind_Ok _ _ _ _ _ (chainlength_ok cn' count ltac:(lia) ltac:(lia))).
    destruct (Z.leb_spec count (Z.min (runlen s cn') count)). { mrun. exists (inl cn'). split; [done|]. lia. }
    rewrite Z.min_l in * by lia. set (l := runlen s cn') in *.
    assert (∀ fc fl, seen fc fl → l ≤ fl < count → ∃ r, find_run pmp fuel last (cn' + (l + 1)) count fc fl s = Ok (r, s) ∧
      match r with inl c => 0 ≤ c ≤ max ∧ count ≤ runlen s c | inr (fc', fl') => fl ≤ fl' < count ∧ seen fc' fl' ∧ ∀ c, cn ≤ c ≤ last → runlen s c ≤ fl' end) as Hnext.
    { intros fc1 fl1 Hs1 Hl1. pose proof (runlen_spec cn' ltac:(lia)) as (H0 & _). fold l in H0. destruct (IH (cn' + (l + 1)) fc1 fl1) as (r & -> & Hr); [lia|lia|lia|done|]. exists r. split; [done|].
      destruct r as [c|[fc' fl']]; [done|]. destruct Hr as (H1 & H2 & H3). split; [done|]. split; [done|]. intros c Hc. destruct (decide (c < cn')); [rewrite runlen_used; [lia|lia|apply Hused; lia]|].
      destruct (decide (c ≤ cn' + l)); [|apply H3; lia]. pose proof (runlen_inside cn' c ltac:(lia)) as Hins. fold l in Hins. specialize (Hins ltac:(lia) ltac:(lia)). lia. }
    destruct (Z.ltb_spec fl l) as [Hlt|Hge].
    + destruct (Hnext cn' l) as (r & Hr1 & Hr2); [right; split; [lia|done]|lia|]. exists r. split; [exact Hr1|]. destruct r as [c|[fc' fl']]; [done|]. destruct Hr2 as (H1 & H2 & H3). split; [lia|done].
    + apply Hnext; [done|lia].
Qed.

End Fixed.
End Run.
