(* ===== verification/FatAlloc.v ===== *)
(** Allocating clusters: [chainalloc], [clusteralloc] and [clusterfree]. *)

From S2P Require Import Prelude Errors Fat FatTable FatEntry FatMap.
From Stdlib Require Import ZifyBool.

Lemma free_number_flips u u' n a k : 0 ≤ a → 0 ≤ k → a + k ≤ Z.of_nat n → (∀ c, a ≤ c < a + k → u c = false ∧ u' c = true) →
  (∀ c, 0 ≤ c < Z.of_nat n → ¬ (a ≤ c < a + k) → u' c = u c) → free_number u n = free_number u' n + k.
Proof.
  intros Ha Hk Hn Hin Hout. revert k Hk Hn Hin Hout. induction n as [|n IH]; intros k Hk Hn Hin Hout; [assert (k = 0) by lia; subst; done|]. cbn [free_number].
  destruct (decide (a + k = Z.of_nat (S n) ∧ 0 < k)) as [[E Hp]|E].
  - rewrite (IH (k - 1)); [|lia|lia|intros; apply Hin; lia|intros; apply Hout; lia]. destruct (Hin (Z.of_nat n)) as [-> ->]; [lia|]. lia.
  - destruct (decide (k = 0)) as [->|].
    + rewrite (free_number_ext u u' n) by (intros c Hc; rewrite Hout by lia; done). rewrite (Hout (Z.of_nat n)) by lia. lia.
    + rewrite (IH k); [|lia|lia|done|intros; apply Hout; lia]. rewrite (Hout (Z.of_nat n)) by lia. lia.
Qed.

Section Alloc.
Context (pmp : geometry) (G : geometry_ok pmp).

Notation max := (pm_maxcluster pmp).
Notation entry := (entry pmp).

(** The volume between two operations: the map has a bit for every entry that is not free,
    and the first two entries are never free. *)
Record fat_inv (s : msdosfsmount) : Prop := {
  fi_vol : volume pmp s;
  fi_map : map_inv pmp s;
  fi_rw : is_ronly s = false;
  fi_use : ∀ cn, 0 ≤ cn ≤ max → inuse s cn = negb (entry s cn =? CLUST_FREE);
  fi_first : entry s 0 ≠ 0 ∧ entry s 1 ≠ 0;
  fi_next : CLUST_FIRST ≤ pm_nxtfree s ≤ max
}.

(** [n] free clusters from [c] on. *)
Definition free_run (s : msdosfsmount) (c n : Z) : Prop := 0 ≤ c ∧ 0 ≤ n ∧ ∀ i, c ≤ i < c + n → i ≤ max ∧ entry s i = CLUST_FREE.

(** The clusters from [c] on have become a chain that ends with [fillwith]. *)
Record allocated (s s' : msdosfsmount) (c n fillwith : Z) : Prop := {
  al_inv : fat_inv s';
  al_entries : ∀ i, 0 ≤ i ≤ max → entry s' i = if decide (c ≤ i < c + n) then (if decide (i + 1 = c + n) then Z.land fillwith (pm_fatmask pmp) else i + 1) else entry s i;
  al_count : pm_freeclustercount s' = pm_freeclustercount s - n;
  al_lock : pm_fatlock s' = pm_fatlock s;
  al_integrity : integrity s' = integrity s;
  al_frame : ∀ a, ¬ in_fats pmp a → dev s' a = dev s a
}.

Lemma free_run_runlen s c n : fat_inv s → 0 ≤ c ≤ max + 1 → 0 ≤ n → free_run s c n ↔ n ≤ runlen pmp s c.
Proof.
  intros HI Hc Hn. destruct (runlen_spec pmp s c Hc) as (H1 & H2 & H3 & H4). pose proof (fi_use s HI) as Hu. split.
  - intros (_ & _ & Hf). destruct (decide (n ≤ runlen pmp s c)); [done|]. exfalso. destruct (Hf (c + runlen pmp s c)) as [H5 H6]; [lia|]. specialize (H4 H5). rewrite Hu, H6 in H4 by lia. done.
  - intros Hle. split; [lia|]. split; [lia|]. intros i Hi. split; [lia|]. specialize (H3 i ltac:(lia)). rewrite Hu in H3 by lia. apply negb_false_iff, Z.eqb_eq in H3. done.
Qed.

Lemma volume_remapped s s' u : volume pmp s → remapped pmp s s' u → volume pmp s'.
Proof. intros [He Hb Hm] Hr. pose proof (r_flags _ _ _ _ Hr) as [Hf _]. split; [by rewrite (r_errs _ _ _ _ Hr)|by rewrite (r_dev _ _ _ _ Hr)|by rewrite Hf, (r_dev _ _ _ _ Hr)]. Qed.

Lemma entry_remapped s s' u cn : remapped pmp s s' u → entry s' cn = entry s cn.
Proof. intros Hr. unfold entry, T. by rewrite (r_dev _ _ _ _ Hr). Qed.

Lemma remapped_trans s s1 s2 u1 u2 u : remapped pmp s s1 u1 → remapped pmp s1 s2 u2 → (∀ c, 0 ≤ c ≤ max → u2 c = u c) → remapped pmp s s2 u.
Proof.
  intros H1 H2 Hu. destruct H1 as [? ? ? ? ? ? [? ?] ? ?], H2 as [? ? ? ? ? ? [? ?] ? Huse]. split; try congruence; [split; congruence|]. intros c Hc. by rewrite Huse, Hu.
Qed.

Lemma usemap_alloc_all_ok n : ∀ cl s, map_inv pmp s → 0 < pm_fatlock s → is_ronly s = false → 0 ≤ cl → cl + Z.of_nat n ≤ max + 1 → (∀ c, cl ≤ c < cl + Z.of_nat n → inuse s c = false) →
  ∃ s', usemap_alloc_all pmp n cl s = Ok (tt, s') ∧ remapped pmp s s' (λ c, if decide (cl ≤ c < cl + Z.of_nat n) then true else inuse s c).
Proof.
  induction n as [|n IH]; intros cl s Hm Hl Hr Hcl Hmax Hf; cbn [usemap_alloc_all].
  - exists s. split; [done|]. split; try done. intros c Hc. by rewrite decide_False by lia.
  - destruct (usemap_alloc_ok pmp G s cl) as (s1 & Hrun & H1); [done|done|done|lia|apply Hf; lia|]. rewrite (bind_Ok _ _ _ _ _ Hrun).
    destruct (IH (cl + 1) s1) as (s' & -> & H2); [apply H1|by rewrite (r_lock _ _ _ _ H1)|by rewrite (proj2 (r_flags _ _ _ _ H1))|lia|lia| |].
    { intros c Hc. rewrite (r_use _ _ _ _ H1) by lia. rewrite decide_False by lia. apply Hf. lia. }
    exists s'. split; [done|]. apply (remapped_trans s s1 s' _ _ _ H1 H2). intros c Hc. simpl. rewrite (r_use _ _ _ _ H1) by done. repeat case_decide; done || lia.
Qed.

Lemma mask_ones : ∃ k, pm_fatmask pmp = Z.ones k ∧ 0 < k.
Proof. destruct (g_type pmp G) as [E|E|E]; rewrite E; [by exists 12|by exists 16|by exists 28]. Qed.

Lemma land_cluster c : 0 ≤ c ≤ max → Z.land c (pm_fatmask pmp) = c.
Proof.
  intros Hc. destruct (g_max pmp G) as [_ Hmax]. assert (Z.land CLUST_RSRVD (pm_fatmask pmp) ≤ pm_fatmask pmp) by (destruct (g_type pmp G) as [E|E|E]; by rewrite E).
  destruct mask_ones as (k & E & Hk). rewrite E in *. rewrite Z.land_ones by lia. apply Z.mod_small. rewrite Z.ones_equiv in *. lia.
Qed.

(** Changing entries and the map together. *)
Lemma fat_inv_change s s' : volume pmp s' → map_inv pmp s' → is_ronly s' = false → (∀ cn, 0 ≤ cn ≤ max → inuse s' cn = negb (entry s' cn =? CLUST_FREE)) →
  entry s' 0 = entry s 0 → entry s' 1 = entry s 1 → CLUST_FIRST ≤ pm_nxtfree s' ≤ max → fat_inv s → fat_inv s'.
Proof. intros ? ? ? ? H0 H1 ? HI. split; try done. rewrite H0, H1. apply HI. Qed.

Lemma chainalloc_ok s start count fillwith : fat_inv s → 0 < pm_fatlock s → 1 ≤ count → 0 ≤ start → free_run s start count → Z.land fillwith (pm_fatmask pmp) ≠ 0 →
  ∃ s', chainalloc pmp start count fillwith s = Ok ((0, (start, count)), s') ∧ allocated s s' start count fillwith.
Proof.
  intros HI Hl Hcount Hstart Hrun Hfill. pose proof HI as [Hvol Hmap Hrw Huse [He0 He1] Hnext]. pose proof (max_range pmp G) as Hmr. destruct Hrun as (_ & _ & Hf).
  assert (2 ≤ start) as Hst2.
  { destruct (decide (2 ≤ start)); [done|]. destruct (Hf start) as [_ H]; [lia|]. assert (start = 0 ∨ start = 1) as [-> | ->] by lia; done. }
  assert (start + count ≤ max + 1) as Hend by (destruct (Hf (start + count - 1)); lia).
  unfold chainalloc. rewrite (bind_Ok _ _ _ _ _ (locked_ok s Hl)). mrun. rewrite kassert_ok by (by rewrite Hrw).
  destruct (usemap_alloc_all_ok (Z.to_nat count) start s) as (s1 & Hr1 & H1); [done|done|done|lia|lia| |].
  { intros c Hc. rewrite Huse by lia. destruct (Hf c) as [_ ->]; [lia|]. done. }
  rewrite (bind_Ok _ _ _ _ _ Hr1), !bind_modifyS. rewrite Z2Nat.id in H1 by lia. set (s2 := set_flags _ _).
  assert (volume pmp s2) as Hv2.
  { destruct (volume_remapped s s1 _ Hvol H1) as [Hv1 Hv2 Hv3]. split; [done|done|]. intros Hmi. apply Hv3. rewrite <- Hmi. symmetry. apply (flags_fsimod s1). }
  destruct (fatchain_ok pmp G fillwith start count s2) as (s3 & Hrc & (Hv3 & Heq3 & Hen & Hfr)); [done|unfold CLUST_FIRST; lia|lia|lia|].
  rewrite (bind_Ok _ _ _ _ _ Hrc). change (negb (0 =? 0)) with false. cbv iota. mrun. exists s3. split; [done|].
  assert (∀ i, 0 ≤ i ≤ max → entry s3 i = if decide (start ≤ i < start + count) then (if decide (i + 1 = start + count) then Z.land fillwith (pm_fatmask pmp) else i + 1) else entry s i) as Hentries.
  { intros i Hi. rewrite Hen by done. change (FatEntry.entry pmp s2 i) with (entry s1 i). rewrite (entry_remapped s s1 _ i H1). case_decide; [|done]. unfold link.
    destruct (Z.eqb_spec (i + 1) (start + count)); [by rewrite decide_True|]. rewrite decide_False by done. apply land_cluster. lia. }
  assert (∀ c, inuse s3 c = inuse s1 c) as Hu3 by (intros c; rewrite Heq3; done).
  assert (map_inv pmp s3) as Hm3.
  { pose proof (r_map _ _ _ _ H1) as [Ml Mw Mt Mc]. rewrite Heq3. split; [exact Ml|exact Mw|exact Mt|]. simpl. rewrite Mc. apply free_number_ext. done. }
  assert (∀ c, 0 ≤ c ≤ max → inuse s3 c = if decide (start ≤ c < start + count) then true else inuse s c) as Huse3 by (intros c Hc; rewrite Hu3; by apply (r_use _ _ _ _ H1)).
  split.
  - apply (fat_inv_change s); [done|done| | | | | |done].
    + rewrite Heq3. destruct (flags_fsimod s1) as [_ Hro]. rewrite <- (proj2 (r_flags _ _ _ _ H1)) in Hrw. rewrite <- Hrw, <- Hro. done.
    + intros c Hc. rewrite Huse3, Hentries by done. case_decide as E; [|by apply Huse]. unfold CLUST_FREE. case_decide; [|lia]. symmetry. apply negb_true_iff, Z.eqb_neq. done.
    + rewrite Hentries by lia. by rewrite decide_False by lia.
    + rewrite Hentries by lia. by rewrite decide_False by lia.
    + rewrite Heq3. simpl. unfold CLUST_FIRST. rewrite u64_id by lia. destruct (Z.ltb_spec max (start + count)); lia.
  - exact Hentries.
  - rewrite (m_count _ _ Hm3), (m_count _ _ Hmap). rewrite (free_number_flips (inuse s) (inuse s3) _ start count); [lia|lia|lia|lia| |].
    + intros c Hc. rewrite Huse3, decide_True by lia. rewrite Huse by lia. destruct (Hf c) as [_ ->]; [lia|]. done.
    + intros c Hc Hn. rewrite Huse3, decide_False by (done || lia). done.
  - rewrite Heq3. simpl. apply (r_lock _ _ _ _ H1).
  - rewrite Heq3. simpl. apply (r_integrity _ _ _ _ H1).
  - intros a Ha. rewrite Hfr by done. simpl. by rewrite (r_dev _ _ _ _ H1).
Qed.

(** ** clusteralloc *)

Lemma fat_inv_lock s l : fat_inv s → fat_inv (set_fatlock l s).
Proof. intros [[? ? ?] [? ? ? ?] ? ? ? ?]. split; try done; by split. Qed.

(** What an allocation of [count] clusters, preferably at [start], answers. *)
Definition alloc_spec (s : msdosfsmount) (start count fillwith : Z) (r : Z * (Z * Z)) (s' : msdosfsmount) : Prop :=
  (r = (ENOSPC, (0, 0)) ∧ s' = s ∧ ∀ c, ¬ free_run s c 1) ∨
  ∃ c n, r = (0, (c, n)) ∧ 1 ≤ n ≤ count ∧ free_run s c n ∧ allocated s s' c n fillwith ∧
    (n < count → ∀ c', ¬ free_run s c' count) ∧
    (start ≠ 0 → free_run s start 1 → c = start ∨ n = count ∧ ¬ free_run s start count) ∧
    (n < count → start = 0 ∨ ¬ free_run s start 1 → ∀ c', ¬ free_run s c' (n + 1)).

Lemma alloc_spec_intro s start count fillwith c n : fat_inv s → 0 < pm_fatlock s → 1 ≤ n ≤ count → free_run s c n → Z.land fillwith (pm_fatmask pmp) ≠ 0 →
  (n < count → ∀ c', ¬ free_run s c' count) → (start ≠ 0 → free_run s start 1 → c = start ∨ n = count ∧ ¬ free_run s start count) →
  (n < count → start = 0 ∨ ¬ free_run s start 1 → ∀ c', ¬ free_run s c' (n + 1)) →
  ∃ r s', chainalloc pmp c n fillwith s = Ok (r, s') ∧ alloc_spec s start count fillwith r s'.
Proof.
  intros HI Hl Hn Hf Hfill H1 H2 H3. destruct (chainalloc_ok s c n fillwith) as (s' & Hrun & Ha); [done|done|lia|by destruct Hf|done|done|].
  exists (0, (c, n)), s'. split; [done|]. right. exists c, n. done.
Qed.

Lemma free_run_bound s c n : free_run s c n → 1 ≤ n → 0 ≤ c ≤ max.
Proof. intros (Hc & _ & H) Hn. destruct (H c); lia. Qed.

Lemma clusteralloc1_ok s start count fillwith : fat_inv s → 0 < pm_fatlock s → 1 ≤ count < 2 ^ 31 → 0 ≤ start ≤ max + 1 → Z.land fillwith (pm_fatmask pmp) ≠ 0 →
  ∃ r s', clusteralloc1 pmp start count fillwith s = Ok (r, s') ∧ alloc_spec s start count fillwith r s'.
Proof.
  intros HI Hl Hcount Hstart Hfill. pose proof HI as [_ Hmap _ _ _ Hnext]. unfold CLUST_FIRST in Hnext.
  assert (∀ c n, 1 ≤ n → free_run s c n ↔ 0 ≤ c ≤ max ∧ n ≤ runlen pmp s c) as Hfr.
  { intros c n Hn. split; [intros H; pose proof (free_run_bound s c n H Hn); split; [done|]; apply (free_run_runlen s c n HI); [lia|lia|done]|]. intros [Hc Hle]. apply (free_run_runlen s c n HI); [lia|lia|done]. }
  unfold clusteralloc1. rewrite (bind_Ok _ _ _ _ _ (locked_ok s Hl)).
  set (len := if start =? 0 then 0 else Z.min (runlen pmp s start) count).
  assert ((if start =? 0 then mret 0 else chainlength pmp start count) s = Ok (len, s)) as Hlen.
  { unfold len. destruct (start =? 0); [done|]. apply (chainlength_ok pmp G s Hmap Hl start count); lia. }
  rewrite (bind_Ok _ _ _ _ _ Hlen). destruct (negb (start =? 0) && (count <=? len)) eqn:E.
  { apply andb_true_iff in E as [E1 E2]. apply negb_true_iff in E1. unfold len in E2. rewrite E1 in E2. pose proof (runlen_spec pmp s start ltac:(lia)) as (? & ? & _).
    apply alloc_spec_intro; try done; [lia|apply Hfr; lia|lia|intros; by left|lia]. }
  mrun. set (fuel := S (S _)).
  assert (start ≠ 0 → runlen pmp s start < count ∧ len = runlen pmp s start) as Hlen'.
  { intros Hs0. unfold len in *. rewrite (proj2 (Z.eqb_neq start 0)) in * by done. simpl in E. lia. }
  assert (∀ c, 0 ≤ c ≤ max → count ≤ runlen pmp s c → ∃ r s', chainalloc pmp c count fillwith s = Ok (r, s') ∧ alloc_spec s start count fillwith r s') as Hfull.
  { intros c Hc Hge. apply alloc_spec_intro; try done; [lia|apply Hfr; lia|lia| |lia]. intros Hs0 _. right. split; [done|]. rewrite Hfr by lia. destruct (Hlen' Hs0). lia. }
  destruct (find_run_ok pmp G s Hmap Hl count max Hcount ltac:(lia) fuel (pm_nxtfree s) 0 0) as (r1 & Hr1 & Hp1); [lia|lia|lia|by left|].
  rewrite (bind_Ok _ _ _ _ _ Hr1). destruct r1 as [c|[fc fl]]; [by apply Hfull; apply Hp1|]. destruct Hp1 as (Hfl & Hseen & Hall1).
  destruct (find_run_ok pmp G s Hmap Hl count (pm_nxtfree s - 1) Hcount ltac:(lia) fuel 0 fc fl) as (r2 & Hr2 & Hp2); [lia|lia|lia|done|].
  rewrite (bind_Ok _ _ _ _ _ Hr2). destruct r2 as [c|[fc2 fl2]]; [by apply Hfull; apply Hp2|]. destruct Hp2 as (Hfl2 & Hseen2 & Hall2).
  assert (∀ c, 0 ≤ c ≤ max → runlen pmp s c ≤ fl2) as Hall.
  { intros c Hc. destruct (decide (c < pm_nxtfree s)); [apply Hall2; lia|]. specialize (Hall1 c ltac:(lia)). lia. }
  assert (∀ c', ¬ free_run s c' count) as Hnone. { intros c' [Hc' Hge]%Hfr; [|lia]. specialize (Hall c' Hc'). lia. }
  destruct (Z.eqb_spec fl2 0) as [->|Hne].
  - mrun. exists (ENOSPC, (0, 0)), s. split; [done|]. left. split; [done|]. split; [done|]. intros c [Hc Hge]%Hfr; [|lia]. specialize (Hall c Hc). lia.
  - destruct Hseen2 as [->|[Hfc2 Hrl2]]; [done|]. destruct (Z.eqb_spec len 0) as [E0|E0]; cbn [negb].
    + apply alloc_spec_intro; try done; [lia|apply Hfr; lia| |].
      * intros Hs0 [Hc Hge]%Hfr; [|lia]. destruct (Hlen' Hs0). lia.
      * intros _ _ c' [Hc' Hge]%Hfr; [|lia]. specialize (Hall c' Hc'). lia.
    + assert (start ≠ 0) as Hs0 by (intros ->; done). destruct (Hlen' Hs0) as [H1 H2]. pose proof (runlen_spec pmp s start ltac:(lia)) as (? & ? & _).
      apply alloc_spec_intro; try done; [lia|apply Hfr; lia|intros; by left|]. intros _ [|Hn]; [done|]. exfalso. apply Hn, Hfr; lia.
Qed.

Lemma allocated_lock s s' c n fillwith l l' : allocated (set_fatlock l s) s' c n fillwith → l' = pm_fatlock s → allocated s (set_fatlock l' s') c n fillwith.
Proof. intros [Hi He Hc Hl Hg Hf] ->. split; try done. by apply fat_inv_lock. Qed.

Lemma clusteralloc_ok s start count fillwith : fat_inv s → 0 ≤ pm_fatlock s → 1 ≤ count < 2 ^ 31 → 0 ≤ start ≤ max + 1 → Z.land fillwith (pm_fatmask pmp) ≠ 0 →
  ∃ r s', clusteralloc pmp start count fillwith s = Ok (r, s') ∧ alloc_spec s start count fillwith r s'.
Proof.
  intros HI Hl Hcount Hstart Hfill. unfold clusteralloc, MSDOSFS_LOCK_MP, MSDOSFS_UNLOCK_MP. rewrite bind_modifyS. set (s0 := set_fatlock _ s).
  destruct (clusteralloc1_ok s0 start count fillwith) as (r & s1 & Hrun & Hspec); [by apply fat_inv_lock|simpl; lia|done|done|done|].
  rewrite (bind_Ok _ _ _ _ _ Hrun), bind_modifyS. mrun. exists r, (set_fatlock (pm_fatlock s1 - 1) s1). split; [done|].
  destruct Hspec as [(-> & -> & Hno)|(c & n & -> & Hn & Hf & Ha & H1 & H2 & H3)].
  - left. split; [done|]. split; [|exact Hno]. unfold s0. destruct s. unfold set_fatlock. simpl. f_equal. lia.
  - right. exists c, n. split; [done|]. split; [done|]. split; [exact Hf|]. split; [|done]. apply (allocated_lock s s1 c n fillwith (pm_fatlock s + 1)); [exact Ha|].
    rewrite (al_lock _ _ _ _ _ Ha). simpl. lia.
Qed.

End Alloc.
