(* ===== verification/FatFree.v ===== *)
(** Freeing: [freeclusterchain] follows a chain of any shape. *)

From S2P Require Import Prelude Errors Fat FatTable FatEntry FatMap FatAlloc.
From Stdlib Require Import ZifyBool.

(** [l] are the numbers met on the way from [c] to [c']. *)
Inductive walk (f : Z → Z) : Z → list Z → Z → Prop :=
  | walk_nil c : walk f c [] c
  | walk_cons c l c' : walk f (f c) l c' → walk f c (c :: l) c'.

Lemma walk_ext f f' c l c' : walk f c l c' → (∀ x, x ∈ l → f' x = f x) → walk f' c l c'.
Proof.
  induction 1 as [|c l c' H IH]; intros Hx; [constructor|]. constructor. rewrite Hx by set_solver. apply IH. intros x Hin. apply Hx. set_solver.
Qed.

Section Free.
Context (pmp : geometry) (G : geometry_ok pmp).

Notation max := (pm_maxcluster pmp).
Notation entry := (entry pmp).

(** A block in memory with the part [o] of the table [t]; the other parts are on the volume. *)
Definition pending (s : msdosfsmount) (t : Z → Z) (o bn bsize : Z) (b : buf) : Prop :=
  block_at pmp o bn bsize ∧ b_blkno b = bn ∧ b_bcount b = bsize ∧ views b t o ∧
  (∀ x, 0 ≤ x < fat_size pmp → x < o ∨ o + bsize ≤ x → t x = T pmp s x).

Definition pending_opt (s : msdosfsmount) (t : Z → Z) (bp : option buf) (lbn bn : Z) : Prop :=
  match bp with
  | Some b => bn = lbn ∧ ∃ o bsize, pending s t o bn bsize b
  | None => ∀ x, 0 ≤ x < fat_size pmp → t x = T pmp s x
  end.

(** [s'] differs from [s] in the bytes of the tables only. *)
Definition same_volume (s s' : msdosfsmount) : Prop :=
  s' = set_dev (dev s') s ∧ volume pmp s' ∧ ∀ a, ¬ in_fats pmp a → dev s' a = dev s a.

Lemma retabled_same s s' t : retabled pmp s s' t → same_volume s s'.
Proof. intros (H1 & H2 & _ & H4). done. Qed.

Lemma same_volume_refl s : volume pmp s → same_volume s s.
Proof. intros Hv. split; [by destruct s|]. done. Qed.

Lemma flush_pending s t o bn bsize b : volume pmp s → bytes t → pending s t o bn bsize b → ∃ s', updatefats pmp b bn s = Ok (tt, s') ∧ retabled pmp s s' t.
Proof. intros Hv Hb (Hba & Hbn & Hbc & Hview & Hout). by apply (updatefats_ok pmp G s b o bn bsize t). Qed.

Lemma block_unique o o' bn bsize bsize' : block_at pmp o bn bsize → block_at pmp o' bn bsize' → o = o' ∧ bsize = bsize'.
Proof.
  intros H1 H2. destruct (ba_div _ _ _ _ H1) as [e ->], (ba_div _ _ _ _ H2) as [e' ->]. pose proof (ba_bn _ _ _ _ H1) as B1. pose proof (ba_bn _ _ _ _ H2) as B2.
  rewrite Z.div_mul in * by done. assert (e = e') as -> by lia. split; [done|]. rewrite (ba_len _ _ _ _ H1), (ba_len _ _ _ _ H2). done.
Qed.

(** Getting the block of a cluster: the one in memory, or another after that one was
    written. *)
Lemma load_block s t bp lbn bn0 c : volume pmp s → bytes t → pending_opt s t bp lbn bn0 → 0 ≤ c ≤ max →
  ∃ o bn bsize b s1, fatblock pmp (FATOFS pmp c) = (bn, bsize, ofs pmp c - o) ∧ o ≤ ofs pmp c ∧ ofs pmp c + width pmp ≤ o + bsize ∧
    match bp with
    | Some b => if lbn =? bn then mret (inr b) else updatefats pmp b lbn;; bread pmp bn bsize
    | None => bread pmp bn bsize
    end s = Ok (inr b, s1) ∧ same_volume s s1 ∧ pending s1 t o bn bsize b.
Proof.
  intros Hv Hbt Hpend Hc. destruct (fatblock_ok pmp G c Hc) as (o & bn & bsize & Hfb & Hb & Ho). pose proof (ba_whole _ _ _ _ Hb c Hc (proj1 Ho) (proj2 Ho)) as Hw.
  assert (∀ s1, same_volume s s1 → (∀ x, 0 ≤ x < fat_size pmp → t x = T pmp s1 x) → ∃ b, bread pmp bn bsize s1 = Ok (inr b, s1) ∧ pending s1 t o bn bsize b) as Hread.
  { intros s1 (_ & Hv1 & _) Ht. destruct (bread_block pmp s1 o bn bsize) as (b & Hr & Hbn & Hbc & Hview); [apply Hv1|done|]. exists b. split; [done|]. do 3 (split; [done|]).
    split; [|intros x Hx _; by apply Ht]. intros i Hi. rewrite Hview by done. symmetry. apply Ht. pose proof (ba_fits _ _ _ _ Hb). pose proof (ba_pos _ _ _ _ Hb). lia. }
  destruct bp as [b|]; simpl in Hpend.
  - destruct Hpend as (-> & o1 & bsize1 & Hp). destruct (Z.eqb_spec lbn bn) as [->|Hne].
    + destruct (block_unique o1 o bn bsize1 bsize) as [-> ->]; [apply Hp|done|]. exists o, bn, bsize, b, s. split; [done|]. split; [lia|]. split; [done|]. split; [by rewrite Z.eqb_refl|]. split; [by apply same_volume_refl|done].
    + destruct (flush_pending s t o1 lbn bsize1 b Hv Hbt Hp) as (s1 & Hu & Hs1). destruct (Hread s1) as (b' & Hr & Hp'); [by apply (retabled_same _ _ t)|intros x Hx; symmetry; by apply Hs1|].
      exists o, bn, bsize, b', s1. split; [done|]. split; [lia|]. split; [done|]. split; [rewrite (proj2 (Z.eqb_neq lbn bn) Hne); by rewrite (bind_Ok _ _ _ _ _ Hu)|]. split; [by apply (retabled_same _ _ t)|done].
  - destruct (Hread s (same_volume_refl s Hv) Hpend) as (b & Hr & Hp). exists o, bn, bsize, b, s. split; [done|]. split; [lia|]. split; [done|]. split; [done|]. split; [by apply same_volume_refl|done].
Qed.

(** ** The loop *)

(** What the loop leaves: the clusters [l] are free. *)
Record loop_freed (s : msdosfsmount) (t : Z → Z) (l : list Z) (s' : msdosfsmount) : Prop := {
  lf_vol : volume pmp s';
  lf_map : map_inv pmp s';
  lf_use : ∀ cn, 0 ≤ cn ≤ max → inuse s' cn = negb (entry s' cn =? CLUST_FREE);
  lf_entries : ∀ cn, 0 ≤ cn ≤ max → entry s' cn = if decide (cn ∈ l) then CLUST_FREE else ent pmp t cn;
  lf_count : pm_freeclustercount s' = pm_freeclustercount s + zlen l;
  lf_lock : pm_fatlock s' = pm_fatlock s - 1;
  lf_flags : mirrored s' = mirrored s ∧ is_ronly s' = is_ronly s;
  lf_rest : pm_nxtfree s' = pm_nxtfree s ∧ pm_fmod s' = pm_fmod s;
  lf_frame : ∀ a, ¬ in_fats pmp a → dev s' a = dev s a
}.

(** How it ends, at [c']: outside the clusters, or at one that is free or was freed. *)
Definition ends (s s' : msdosfsmount) (f : Z → Z) (l : list Z) (c' r : Z) : Prop :=
  (¬ (CLUST_FIRST ≤ c' ≤ max) ∧ r = 0 ∧ integrity s' = integrity s) ∨
  (CLUST_FIRST ≤ c' ≤ max ∧ (f c' = CLUST_FREE ∨ c' ∈ l) ∧ r = EINTEGRITY ∧ integrity s' = integrity s + 1).

Lemma lor_mask_not e : 0 ≤ e ≤ pm_fatmask pmp → Z.lor e (fatmask_not pmp) = e + fatmask_not pmp.
Proof.
  intros He. unfold fatmask_not. rewrite Z.lor_comm, Z.add_comm. destruct (g_type pmp G) as [E|E|E]; rewrite E in *.
  - change (u32 (Z.lnot FAT12_MASK)) with (0xfffff * 2 ^ 12). apply lor_low; [done|]. unfold FAT12_MASK in He. lia.
  - change (u32 (Z.lnot FAT16_MASK)) with (0xffff * 2 ^ 16). apply lor_low; [done|]. unfold FAT16_MASK in He. lia.
  - change (u32 (Z.lnot FAT32_MASK)) with (0xf * 2 ^ 28). apply lor_low; [done|]. unfold FAT32_MASK in He. lia.
Qed.

(** An entry is reserved exactly when it is not below the reserved numbers. *)
Lemma reserved_iff e : 0 ≤ e ≤ pm_fatmask pmp → reserved pmp e = true ↔ Z.land CLUST_RSRVD (pm_fatmask pmp) ≤ e.
Proof. intros He. unfold reserved. rewrite lor_mask_not, Z.leb_le by done. unfold fatmask_not. destruct (g_type pmp G) as [E|E|E]; rewrite E; vm_compute (Z.land _ _); vm_compute (u32 _); unfold CLUST_RSRVD; lia. Qed.

Lemma max_reserved e : 0 ≤ e ≤ pm_fatmask pmp → reserved pmp e = true → max < e ∧ max < Z.lor e (pm_fatmask pmp).
Proof.
  intros He Hr%reserved_iff; [|done]. destruct (g_max pmp G) as [H2 Hm]. unfold CLUST_FIRST in H2. split; [lia|]. destruct (mask_ones pmp G) as (k & E & Hk). rewrite E in *.
  rewrite Z.lor_ones_low; [lia|lia|]. apply Z.log2_lt_pow2; [lia|]. rewrite Z.ones_equiv in He. lia.
Qed.

(** Leaving the loop after the last block was written. *)
Lemma flushed_freed s s1 t : map_inv pmp s → (∀ cn, 0 ≤ cn ≤ max → inuse s cn = negb (ent pmp t cn =? CLUST_FREE)) → retabled pmp s s1 t →
  loop_freed s t [] (set_fatlock (pm_fatlock s1 - 1) s1).
Proof.
  intros Hmap Huse Hs1. pose proof (retabled_entry pmp G s s1 t) as Hent. destruct Hs1 as (Heq & Hv1 & Ht & Hfr).
  assert (∀ cn, 0 ≤ cn ≤ max → entry s1 cn = ent pmp t cn) as He by (intros cn Hcn; by apply Hent).
  split.
  - by destruct Hv1.
  - rewrite Heq. destruct Hmap. by split.
  - intros cn Hcn. change (inuse s1 cn = negb (entry s1 cn =? CLUST_FREE)). rewrite He by done. rewrite <- Huse by done. by rewrite Heq.
  - intros cn Hcn. rewrite decide_False by apply not_elem_of_nil. by apply He.
  - rewrite Heq. simpl. lia.
  - rewrite Heq. done.
  - rewrite Heq. done.
  - rewrite Heq. done.
  - done.
Qed.

Lemma walk_out f c l c' : walk f c l c' → ¬ (CLUST_FIRST ≤ c ≤ max) → Forall (λ x, CLUST_FIRST ≤ x ≤ max ∧ f x ≠ CLUST_FREE) l → l = [] ∧ c' = c.
Proof. intros H Hc Hl. destruct H; [done|]. exfalso. apply Forall_cons in Hl as [[Hl _] _]. done. Qed.

(** Exits at a cluster that is free. *)
Lemma free_unused s s1 t o bn bsize b c : same_volume s s1 → map_inv pmp s → 0 < pm_fatlock s → is_ronly s = false → bytes t → pending s1 t o bn bsize b →
  (∀ cn, 0 ≤ cn ≤ max → inuse s cn = negb (ent pmp t cn =? CLUST_FREE)) → CLUST_FIRST ≤ c ≤ max → ent pmp t c = CLUST_FREE →
  ∃ s2 s', usemap_free pmp c s1 = Ok (EINTEGRITY, s2) ∧ (updatefats pmp b bn;; MSDOSFS_UNLOCK_MP;; mret EINTEGRITY) s2 = Ok (EINTEGRITY, s') ∧
    loop_freed s t [] s' ∧ integrity s' = integrity s + 1.
Proof.
  intros (Heq & Hv1 & Hfr) Hmap Hl Hrw Hbt Hp Huse Hc Hfree. unfold CLUST_FIRST in Hc.
  assert (map_inv pmp s1) as Hmap1 by (rewrite Heq; destruct Hmap; by split).
  assert (usemap_free pmp c s1 = Ok (EINTEGRITY, set_integrity (integrity s1 + 1) s1)) as Hrun.
  { apply (usemap_free_unused pmp s1 c); [done|by rewrite Heq|by rewrite Heq|lia|]. change (inuse s1 c = false). replace (inuse s1 c) with (inuse s c) by (by rewrite Heq). by rewrite Huse, Hfree by lia. }
  set (s2 := set_integrity _ s1) in *.
  destruct (flush_pending s2 t o bn bsize b) as (s3 & Hu & Hs3); [by destruct Hv1|done|exact Hp|].
  exists s2, (set_fatlock (pm_fatlock s3 - 1) s3). split; [done|]. split; [by rewrite (bind_Ok _ _ _ _ _ Hu)|].
  destruct (flushed_freed s2 s3 t) as [F1 F2 F3 F4 F5 F6 F7 F8 F9]; [destruct Hmap1; by split| |done|].
  { intros cn Hcn. rewrite <- Huse by done. change (inuse s1 cn = inuse s cn). by rewrite Heq. }
  split.
  - assert (s2 = set_integrity (integrity s1 + 1) (set_dev (dev s1) s)) as E2 by (unfold s2; by rewrite <- Heq). rewrite E2 in F5, F6, F7, F8. split; try done.
    intros a Ha. rewrite F9 by done. change (dev s1 a = dev s a). by apply Hfr.
  - destruct Hs3 as (-> & _). simpl. by rewrite Heq.
Qed.

(** A cluster is freed: the map and the block change together. *)
Lemma free_used s s1 t o bn bsize b c : same_volume s s1 → map_inv pmp s → 0 < pm_fatlock s → is_ronly s = false → bytes t → pending s1 t o bn bsize b →
  o ≤ ofs pmp c → ofs pmp c + width pmp ≤ o + bsize → (∀ cn, 0 ≤ cn ≤ max → inuse s cn = negb (ent pmp t cn =? CLUST_FREE)) → CLUST_FIRST ≤ c ≤ max → ent pmp t c ≠ CLUST_FREE →
  let t1 := put_ent pmp t c MSDOSFSFREE in
  ∃ s2 b1, usemap_free pmp c s1 = Ok (0, s2) ∧ get_fat pmp c b (ofs pmp c - o) = Ok (ent pmp t c) ∧ put_fat pmp c b (ofs pmp c - o) MSDOSFSFREE = Ok b1 ∧
    volume pmp s2 ∧ remapped pmp s1 s2 (λ x, if decide (x = c) then false else inuse s1 x) ∧ bytes t1 ∧ pending s2 t1 o bn bsize b1 ∧
    (∀ cn, 0 ≤ cn ≤ max → inuse s2 cn = negb (ent pmp t1 cn =? CLUST_FREE)) ∧ pm_freeclustercount s2 = pm_freeclustercount s + 1.
Proof.
  intros (Heq & Hv1 & Hfr) Hmap Hl Hrw Hbt (Hba & Hbn & Hbc & Hview & Hout) Ho Hw Huse Hc Hused t1. unfold CLUST_FIRST in Hc.
  assert (map_inv pmp s1) as Hmap1 by (rewrite Heq; destruct Hmap; by split). assert (∀ x, inuse s1 x = inuse s x) as Hu1 by (intros x; by rewrite Heq).
  destruct (usemap_free_ok pmp G s1 c) as (s2 & Hrun & Hr); [done|by rewrite Heq|by rewrite Heq|lia|rewrite Hu1, Huse by lia; by apply negb_true_iff, Z.eqb_neq|].
  destruct (put_fat_ok pmp G c b t o MSDOSFSFREE) as (b1 & Hput & Hb1 & Hb2 & Hb3); [done|done|lia|lia|].
  exists s2, b1. split; [done|]. split; [apply (get_fat_ok pmp G c b t o); [done|done|lia|lia]|]. split; [done|]. split; [by apply (volume_remapped pmp s1 s2 _ Hv1 Hr)|]. split; [done|]. split; [by apply bytes_put_ent|].
  split; [|split].
  - split; [done|]. split; [congruence|]. split; [congruence|]. split; [done|]. intros x Hx Hxo. unfold t1. rewrite put_ent_local by lia. rewrite Hout by done. unfold T. by rewrite (r_dev _ _ _ _ Hr).
  - intros cn Hcn. rewrite (r_use _ _ _ _ Hr) by done. unfold t1. rewrite ent_put by (done || lia). case_decide; [done|]. rewrite Hu1. by apply Huse.
  - rewrite (m_count _ _ (r_map _ _ _ _ Hr)), (m_count _ _ Hmap). apply (free_number_flips (inuse s2) (inuse s) _ c 1); [lia|lia|lia| |].
    + intros x Hx. replace x with c by lia. rewrite (r_use _ _ _ _ Hr), decide_True, Huse by lia. split; [done|]. by apply negb_true_iff, Z.eqb_neq.
    + intros x Hx Hn. rewrite (r_use _ _ _ _ Hr), decide_False by lia. by rewrite Hu1.
Qed.

(** The number of steps is the number of clusters in use. *)
Lemma free_loop_ok : ∀ fuel c bp lbn bn s t,
  volume pmp s → map_inv pmp s → 0 < pm_fatlock s → is_ronly s = false → bytes t → pending_opt s t bp lbn bn →
  (∀ cn, 0 ≤ cn ≤ max → inuse s cn = negb (ent pmp t cn =? CLUST_FREE)) → (Z.to_nat (max + 1 - pm_freeclustercount s) < fuel)%nat →
  ∃ l c' r s', free_loop pmp fuel c bp lbn bn s = Ok (r, s') ∧ walk (ent pmp t) c l c' ∧ NoDup l ∧
    Forall (λ x, CLUST_FIRST ≤ x ≤ max ∧ ent pmp t x ≠ CLUST_FREE) l ∧ loop_freed s t l s' ∧ ends s s' (ent pmp t) l c' r.
Proof.
  induction fuel as [|fuel IH]; intros c bp lbn bn0 s t Hv Hmap Hl Hrw Hbt Hpend Huse Hfuel; [lia|]. cbn [free_loop].
  destruct ((c <? CLUST_FIRST) || (max <? c)) eqn:Erange.
  { assert (∃ s1, match bp with Some b => updatefats pmp b bn0 | None => mret tt end s = Ok (tt, s1) ∧ retabled pmp s s1 t) as (s1 & Hrun & Hs1).
    { destruct bp as [b|]; simpl in Hpend; [destruct Hpend as (-> & o & bsize & Hp); by apply (flush_pending s t o lbn bsize)|].
      exists s. split; [done|]. split; [by destruct s|]. split; [done|]. split; [intros x Hx; symmetry; by apply Hpend|done]. }
    rewrite (bind_Ok _ _ _ _ _ Hrun). unfold MSDOSFS_UNLOCK_MP. rewrite bind_modifyS. mrun.
    exists [], c, 0, (set_fatlock (pm_fatlock s1 - 1) s1). split; [done|]. split; [constructor|]. split; [constructor|]. split; [constructor|]. split; [by apply flushed_freed|].
    left. split; [unfold CLUST_FIRST in *; lia|]. split; [done|]. by destruct Hs1 as (-> & _). }
  assert (CLUST_FIRST ≤ c ≤ max) as Hc by (unfold CLUST_FIRST in *; lia). assert (0 ≤ c ≤ max) as Hc0 by (unfold CLUST_FIRST in *; lia).
  destruct (load_block s t bp lbn bn0 c Hv Hbt Hpend Hc0) as (o & bn & bsize & b & s1 & -> & Ho & Hw & Hload & Hsame & Hp). cbv beta iota zeta.
  rewrite (bind_Ok _ _ _ _ _ Hload). cbv beta iota. destruct (decide (ent pmp t c = CLUST_FREE)) as [Hfree|Hused].
  { destruct (free_unused s s1 t o bn bsize b c) as (s2 & s' & Hrun & Hexit & Hlf & Hint); [done..|]. rewrite (bind_Ok _ _ _ _ _ Hrun).
    exists [], c, EINTEGRITY, s'. split; [done|]. split; [constructor|]. split; [constructor|]. split; [constructor|]. split; [done|]. right. split; [done|]. split; [by left|done]. }
  destruct (free_used s s1 t o bn bsize b c) as (s2 & b1 & Hrun & -> & -> & Hv2 & Hr & Hbt1 & Hp2 & Huse2 & Hcnt); [done..|]. set (t1 := put_ent pmp t c MSDOSFSFREE) in *.
  rewrite (bind_Ok _ _ _ _ _ Hrun). change (negb (0 =? 0)) with false. cbv iota. rewrite !bind_liftO.
  assert (∀ x, 0 ≤ x → ent pmp t1 x = if decide (x = c) then CLUST_FREE else ent pmp t x) as Hent1 by (intros x Hx; unfold t1; by rewrite ent_put by (done || lia)).
  destruct Hsame as (Heq & Hv1 & Hfr). pose proof (ent_range pmp G t c Hbt) as Her.
  assert (pm_freeclustercount s ≤ max + 1) as Hcm by (rewrite (m_count _ _ Hmap); pose proof (free_number_range (inuse s) (Z.to_nat (max + 1))); pose proof (max_range pmp G); lia).
  assert (pm_freeclustercount s2 ≤ max + 1) as Hcm2 by (rewrite (m_count _ _ (r_map _ _ _ _ Hr)); pose proof (free_number_range (inuse s2) (Z.to_nat (max + 1))); pose proof (max_range pmp G); lia).
  set (next := if reserved pmp (ent pmp t c) then _ else _).
  destruct (IH next (Some b1) bn bn s2 t1) as (l & c' & r & s' & -> & Hwalk & Hnd & Hall & Hlf & Hends); [done|apply Hr| | |done|split; [done|by exists o, bsize]|done|lia|].
  { rewrite (r_lock _ _ _ _ Hr). by rewrite Heq. }
  { rewrite (proj2 (r_flags _ _ _ _ Hr)). by rewrite Heq. }
  assert (∀ x, x ∈ l → x ≠ c ∧ ent pmp t x = ent pmp t1 x ∧ CLUST_FIRST ≤ x ≤ max ∧ ent pmp t x ≠ CLUST_FREE) as Hl1.
  { intros x Hx. rewrite Forall_forall in Hall. destruct (Hall x Hx) as [Hx1 Hx2]. rewrite Hent1 in * by (unfold CLUST_FIRST in Hx1; lia). case_decide; done. }
  assert (loop_freed s t (c :: l) s') as Hfreed.
  { destruct Hlf as [F1 F2 F3 F4 F5 F6 F7 F8 F9]. split; try done.
    - intros cn Hcn. rewrite F4, Hent1 by (done || lia). repeat case_decide; set_solver.
    - rewrite F5, Hcnt. simpl. lia.
    - rewrite F6, (r_lock _ _ _ _ Hr). by rewrite Heq.
    - destruct F7 as [-> ->], (r_flags _ _ _ _ Hr) as [-> ->]. by rewrite Heq.
    - destruct F8 as [-> ->]. rewrite (r_nxtfree _ _ _ _ Hr), (r_fmod _ _ _ _ Hr). by rewrite Heq.
    - intros a Ha. rewrite F9, (r_dev _ _ _ _ Hr) by done. by apply Hfr. }
  assert (integrity s2 = integrity s) as Hint by (rewrite (r_integrity _ _ _ _ Hr); by rewrite Heq).
  assert (NoDup (c :: l)) as Hnd' by (constructor; [intros Hin; by destruct (Hl1 c Hin)|done]).
  assert (Forall (λ x, CLUST_FIRST ≤ x ≤ max ∧ ent pmp t x ≠ CLUST_FREE) (c :: l)) as Hall' by (constructor; [done|apply Forall_forall; intros x Hx; apply Hl1; done]).
  destruct (reserved pmp (ent pmp t c)) eqn:Eres.
  - destruct (max_reserved (ent pmp t c) Her Eres) as [Hm1 Hm2]. destruct (walk_out _ _ _ _ Hwalk) as [-> ->]; [unfold next; lia|done|].
    exists [c], (ent pmp t c), r, s'. split; [done|]. split; [constructor; constructor|]. split; [done|]. split; [done|]. split; [done|].
    destruct Hends as [(_ & -> & Hi)|(Hin & _)]; [|unfold next in Hin; lia]. left. split; [lia|]. split; [done|]. by rewrite Hi.
  - exists (c :: l), c', r, s'. split; [done|]. split; [constructor; apply (walk_ext (ent pmp t1)); [done|]; intros x Hx; by apply Hl1|]. split; [done|]. split; [done|]. split; [done|].
    destruct Hends as [(Hout & -> & Hi)|(Hin & Hor & -> & Hi)]; [left|right]; rewrite Hint in Hi; [done|]. split; [done|]. split; [|done].
    destruct (decide (c' = c)) as [->|Hne]; [right; set_solver|]. destruct Hor as [Hz|Hin']; [left|right; set_solver]. rewrite Hent1, decide_False in Hz by (done || unfold CLUST_FIRST in Hin; lia). done.
Qed.


(** ** freeclusterchain *)

(** The clusters [l] have become free. *)
Record freed (s s' : msdosfsmount) (l : list Z) : Prop := {
  fr_inv : fat_inv pmp s';
  fr_entries : ∀ i, 0 ≤ i ≤ max → entry s' i = if decide (i ∈ l) then CLUST_FREE else entry s i;
  fr_count : pm_freeclustercount s' = pm_freeclustercount s + zlen l;
  fr_lock : pm_fatlock s' = pm_fatlock s;
  fr_frame : ∀ a, ¬ in_fats pmp a → dev s' a = dev s a
}.

Lemma freeclusterchain_ok s c : fat_inv pmp s → 0 ≤ pm_fatlock s →
  ∃ l c' r s', freeclusterchain pmp c s = Ok (r, s') ∧ walk (entry s) c l c' ∧ NoDup l ∧
    Forall (λ x, CLUST_FIRST ≤ x ≤ max ∧ entry s x ≠ CLUST_FREE) l ∧ freed s s' l ∧ ends s s' (entry s) l c' r.
Proof.
  intros [Hv Hmap Hrw Huse Hfirst Hnext] Hl. pose proof (max_range pmp G) as Hmr. unfold freeclusterchain, MSDOSFS_LOCK_MP. rewrite bind_modifyS. set (s0 := set_fatlock _ s).
  assert (map_inv pmp s0) as Hmap0 by (destruct Hmap; by split).
  destruct (free_loop_ok (S (S (Z.to_nat max))) c None (u64 (-1)) 0 s0 (T pmp s)) as (l & c' & r & s' & Hrun & Hwalk & Hnd & Hall & [F1 F2 F3 F4 F5 F6 F7 F8 F9] & Hends);
    [by destruct Hv|done|simpl; lia|done|apply bytes_tab, Hv|done|done| |].
  { rewrite (m_count _ _ Hmap0). pose proof (free_number_range (inuse s0) (Z.to_nat (max + 1))). lia. }
  exists l, c', r, s'. split; [done|]. split; [done|]. split; [done|]. split; [done|]. split; [|exact Hends].
  assert (∀ x, x < CLUST_FIRST → x ∉ l) as Hlow by (intros x Hx Hin; rewrite Forall_forall in Hall; destruct (Hall x Hin) as [Hx' _]; lia).
  split; [|exact F4|exact F5|rewrite F6; simpl; lia|exact F9]. split; [done|done|rewrite (proj2 F7); done|done| |rewrite (proj1 F8); done].
  unfold CLUST_FIRST in Hlow. rewrite !F4 by lia. rewrite !decide_False by (apply Hlow; lia). exact Hfirst.
Qed.

(** ** clusterfree *)

Lemma clusterfree_ok s c : fat_inv pmp s → 0 ≤ pm_fatlock s → CLUST_FIRST ≤ c ≤ max → entry s c ≠ CLUST_FREE →
  ∃ s', clusterfree pmp c s = Ok (tt, s') ∧ freed s s' [c].
Proof.
  intros [Hv Hmap Hrw Huse Hfirst Hnext] Hl Hc Hused. destruct (fatentry_set pmp G FAT_GET_AND_SET s c MSDOSFSFREE) as (s1 & Hrun & Hv1 & Heq & Hent & Hfr); [done|done|by right|].
  unfold clusterfree. rewrite (bind_Ok _ _ _ _ _ Hrun). change (negb (0 =? 0)) with false. cbv beta iota. unfold MSDOSFS_LOCK_MP, MSDOSFS_UNLOCK_MP. rewrite bind_modifyS. set (s2 := set_fatlock _ s1).
  assert (map_inv pmp s2) as Hmap2 by (unfold s2; rewrite Heq; destruct Hmap; by split). unfold CLUST_FIRST in Hc.
  assert (∀ x, inuse s2 x = inuse s x) as Hu2 by (intros x; unfold s2; by rewrite Heq).
  destruct (usemap_free_ok pmp G s2 c) as (s3 & Hf & Hr); [done|unfold s2; rewrite Heq; simpl; lia|unfold s2; by rewrite Heq|lia|rewrite Hu2, Huse by lia; by apply negb_true_iff, Z.eqb_neq|].
  rewrite (bind_Ok _ _ _ _ _ Hf). exists (set_fatlock (pm_fatlock s3 - 1) s3). split; [done|].
  assert (∀ i, 0 ≤ i ≤ max → entry s3 i = if decide (i ∈ [c]) then CLUST_FREE else entry s i) as Hent3.
  { intros i Hi. rewrite (entry_remapped pmp s2 s3 _ i Hr). change (entry s1 i = if decide (i ∈ [c]) then CLUST_FREE else entry s i). rewrite Hent by done. repeat case_decide; set_solver. }
  assert (volume pmp s3) as Hv3 by (eapply (volume_remapped pmp s2 s3); [by destruct Hv1|exact Hr]).
  assert (fat_inv pmp s3) as HI3.
  { split; [done|apply Hr| | | |].
    - rewrite (proj2 (r_flags _ _ _ _ Hr)). unfold s2. by rewrite Heq.
    - intros x Hx. rewrite (r_use _ _ _ _ Hr), Hent3 by done. case_decide as E; [rewrite decide_True by set_solver; done|]. rewrite decide_False by set_solver. rewrite Hu2. by apply Huse.
    - rewrite !Hent3 by lia. rewrite !decide_False by (rewrite list_elem_of_singleton; lia). done.
    - rewrite (r_nxtfree _ _ _ _ Hr). unfold s2. by rewrite Heq. }
  split; [by apply fat_inv_lock|exact Hent3| | |].
  - change (pm_freeclustercount s3 = pm_freeclustercount s + 1). rewrite (m_count _ _ (fi_map _ _ HI3)), (m_count _ _ Hmap). apply (free_number_flips (inuse s3) (inuse s) _ c 1); [lia|lia|lia| |].
    + intros x Hx. replace x with c by lia. rewrite (r_use _ _ _ _ Hr), decide_True, Huse by lia. split; [done|]. by apply negb_true_iff, Z.eqb_neq.
    + intros x Hx Hn. rewrite (r_use _ _ _ _ Hr), decide_False by lia. by rewrite Hu2.
  - simpl. rewrite (r_lock _ _ _ _ Hr). unfold s2. rewrite Heq. simpl. lia.
  - intros a Ha. simpl. rewrite (r_dev _ _ _ _ Hr). change (dev s1 a = dev s a). by apply Hfr.
Qed.

End Free.
