(* ===== verification/FatFill.v ===== *)
(** Mounting: [fillinusemap] makes the map from the table; the theorems about the table
    and allocation. *)

From S2P Require Import Prelude Errors Fat FatTable FatEntry FatMap FatAlloc FatFree.
From Stdlib Require Import ZifyBool.

Section Fill.
Context (pmp : geometry) (G : geometry_ok pmp).

Notation max := (pm_maxcluster pmp).
Notation entry := (entry pmp).

Lemma set_word_raw s i w : 0 ≤ i < zlen (pm_inusemap s) → set_map_word i w s = Ok (tt, set_inusemap (<[Z.to_nat i := w]> (pm_inusemap s)) s).
Proof. intros Hi. unfold set_map_word. mrun. rewrite (proj2 (Z.ltb_ge i 0)), (proj2 (Z.leb_gt _ i)) by lia. done. Qed.

Lemma fill_words_ok n : ∀ cn s, 0 ≤ cn → cn + Z.of_nat n ≤ zlen (pm_inusemap s) →
  ∃ m, fill_words n cn s = Ok (tt, set_inusemap m s) ∧ length m = length (pm_inusemap s) ∧
    ∀ i, 0 ≤ i < zlen m → m !!! Z.to_nat i = if decide (cn ≤ i < cn + Z.of_nat n) then FULL_RUN else pm_inusemap s !!! Z.to_nat i.
Proof.
  induction n as [|n IH]; intros cn s Hcn Hlen; cbn [fill_words].
  - exists (pm_inusemap s). split; [by destruct s|]. split; [done|]. intros i Hi. by rewrite decide_False by lia.
  - rewrite (bind_Ok _ _ _ _ _ (set_word_raw s cn FULL_RUN ltac:(lia))). destruct (IH (cn + 1) (set_inusemap (<[Z.to_nat cn := FULL_RUN]> (pm_inusemap s)) s)) as (m & -> & Hm & Hall).
    + lia.
    + simpl. rewrite length_insert. lia.
    + exists m. simpl in Hm. rewrite length_insert in Hm. split; [done|]. split; [done|]. intros i Hi. rewrite Hall by done. simpl. destruct (decide (i = cn)) as [->|].
      * rewrite decide_False, decide_True by lia. apply list_lookup_total_insert_eq. lia.
      * rewrite list_lookup_total_insert_ne by lia. repeat case_decide; done || lia.
Qed.

(** The block in memory while the clusters are counted: that of the last cluster. *)
Definition scanning (s : msdosfsmount) (bp : option buf) (cn : Z) : Prop :=
  match bp with
  | None => cn = 0
  | Some b => ∃ o bn bsize, block_at pmp o bn bsize ∧ b_bcount b = bsize ∧ views b (T pmp s) o ∧ o ≤ ofs pmp cn ≤ o + pm_fatblocksize pmp
  end.

(** The next entry is in the same block, or at the start of the next one. *)
Lemma ofs_next o cn : (pm_fatblocksize pmp | o) → 0 ≤ cn → o ≤ ofs pmp cn < o + pm_fatblocksize pmp → o ≤ ofs pmp (cn + 1) ≤ o + pm_fatblocksize pmp.
Proof.
  intros Hd Hcn Ho. rewrite (g_block pmp G) in *. unfold ofs, DEV_BSIZE in *. destruct Hd as [q ->]. set (f := pm_fatblocksec pmp) in *. pose proof (g_blocksec pmp G) as Hf. fold f in Hf.
  destruct (g_type pmp G) as [_ Hmult Hdiv [k H3]|_ Hmult Hdiv|_ Hmult Hdiv]; rewrite Hmult, Hdiv in *; rewrite ?Z.div_1_r in *; [|lia..].
  fold f in H3. rewrite H3 in *. replace (q * (k * 3 * 512)) with (3 * (q * k * 512)) in * by lia. replace (k * 3 * 512) with (3 * (k * 512)) in * by lia.
  set (a := q * k * 512) in *. set (e := k * 512) in *. clearbody a e. clear - Ho. div_mod_lia.
Qed.

Lemma scan_block s bp cn : volume pmp s → scanning s bp cn → 0 ≤ cn ≤ max →
  ∃ o bn bsize b, (if FATOFS pmp cn mod pm_fatblocksize pmp =? 0 then let '(bn, bsize, _) := fatblock pmp (FATOFS pmp cn) in bread pmp bn bsize
    else match bp with Some b => mret (inr b) | None => failM NullDeref end) s = Ok (inr b, s) ∧
    block_at pmp o bn bsize ∧ b_bcount b = bsize ∧ views b (T pmp s) o ∧ o ≤ ofs pmp cn < o + pm_fatblocksize pmp ∧
    FATOFS pmp cn mod pm_fatblocksize pmp = ofs pmp cn - o ∧ ofs pmp cn + width pmp ≤ o + bsize.
Proof.
  intros Hv Hsc Hcn. pose proof (g_blocksec pmp G) as Hf. pose proof (g_block pmp G) as Hblk. unfold DEV_BSIZE in Hblk. set (fbs := pm_fatblocksize pmp) in *.
  assert (∀ o, (fbs | o) → o ≤ ofs pmp cn < o + fbs → ofs pmp cn mod fbs = ofs pmp cn - o) as Hmod.
  { intros o [q ->] Ho. symmetry. apply (Z.mod_unique _ _ q); lia. }
  rewrite FATOFS_ofs by done. destruct (Z.eqb_spec (ofs pmp cn mod fbs) 0) as [E|E].
  - rewrite <- FATOFS_ofs by done. destruct (fatblock_ok pmp G cn Hcn) as (o & bn & bsize & Hfb & Hb & Ho). rewrite Hfb, FATOFS_ofs by done. destruct (bread_block pmp s o bn bsize) as (b & Hr & _ & Hbc & Hview); [apply Hv|done|].
    assert (ofs pmp cn < o + fbs) as Hlt by (rewrite (ba_len _ _ _ _ Hb) in Ho; lia).
    exists o, bn, bsize, b. split; [done|]. split; [done|]. split; [done|]. split; [done|]. split; [lia|]. split; [apply Hmod; [apply (ba_aligned _ _ _ _ Hb)|lia]|]. apply (ba_whole _ _ _ _ Hb); [done|lia|lia].
  - destruct bp as [b|]; simpl in Hsc; [|subst cn; unfold ofs in E; rewrite Z.mul_0_l, Zdiv_0_l, Zmod_0_l in E; done]. destruct Hsc as (o & bn & bsize & Hb & Hbc & Hview & Ho).
    destruct (ba_aligned _ _ _ _ Hb) as [q Hq]. fold fbs in Hq.
    assert (ofs pmp cn ≠ o + fbs) as Hne. { intros He. apply E. rewrite He, Hq. replace (q * fbs + fbs) with ((q + 1) * fbs) by lia. apply Z_mod_mult. }
    exists o, bn, bsize, b. split; [done|]. split; [done|]. split; [done|]. split; [done|]. split; [fold fbs in Ho; lia|]. split; [apply Hmod; [by exists q|fold fbs in Ho; lia]|].
    apply (ba_whole _ _ _ _ Hb); [done|lia|]. rewrite (ba_len _ _ _ _ Hb). destruct (ofs_in_table pmp G cn Hcn) as [_ Hin]. unfold fat_size, DEV_BSIZE, width in Hin.
    destruct (ba_div _ _ _ _ Hb) as [e He]. rewrite He, Z.div_mul by done. fold fbs in Ho. destruct (FAT32 pmp); lia.
Qed.

(** What the first entry must be. *)
Definition fat_id : Z := Z.lor (Z.land (pm_fatmask pmp) 0xffffff00) (pm_Media pmp).

Lemma fill_loop_ok n : ∀ cn bp s, volume pmp s → map_inv pmp s → 0 < pm_fatlock s → is_ronly s = false → scanning s bp cn → 0 ≤ cn → cn + Z.of_nat n = max + 1 →
  (cn = 0 → entry s 0 = fat_id) → (∀ c, cn ≤ c ≤ max → inuse s c = true) →
  ∃ s', fill_loop pmp n cn bp s = Ok (0, s') ∧ remapped pmp s s' (λ c, if decide (c < cn) then inuse s c else negb (entry s c =? CLUST_FREE)).
Proof.
  induction n as [|n IH]; intros cn bp s Hv Hmap Hl Hrw Hsc Hcn Hn Hid Hall.
  - exists s. split; [done|]. split; try done. intros c Hc. by rewrite decide_True by lia.
  - cbn [fill_loop]. destruct (scan_block s bp cn Hv Hsc ltac:(lia)) as (o & bn & bsize & b & Hrun & Hb & Hbc & Hview & Ho & Hbo & Hw).
    rewrite (bind_Ok _ _ _ _ _ Hrun). cbv beta iota. rewrite Hbo. rewrite (get_fat_ok pmp G cn b (T pmp s) o); [|apply bytes_tab, Hv|done|lia|lia]. rewrite bind_liftO. fold (entry s cn) (fat_id).
    destruct ((cn =? 0) && negb (entry s cn =? fat_id)) eqn:Eid.
    { apply andb_true_iff in Eid as [E1 E2]. apply Z.eqb_eq in E1. subst cn. apply negb_true_iff, Z.eqb_neq in E2. specialize (Hid eq_refl). done. }
    assert (∀ s1, T pmp s1 = T pmp s → scanning s1 (Some b) (cn + 1)) as Hsc1.
    { intros s1 Ht. exists o, bn, bsize. split; [done|]. split; [done|]. split; [by rewrite Ht|]. apply ofs_next; [apply (ba_aligned _ _ _ _ Hb)|lia|lia]. }
    destruct (Z.eqb_spec (entry s cn) CLUST_FREE) as [Ef|Ef].
    + destruct (usemap_free_ok pmp G s cn) as (s1 & Hf & H1); [done|done|done|lia|apply Hall; lia|]. rewrite (bind_Ok _ _ _ _ _ Hf). change (negb (0 =? 0)) with false. cbv iota.
      destruct (IH (cn + 1) (Some b) s1) as (s' & -> & H2); [by eapply volume_remapped|apply H1|by rewrite (r_lock _ _ _ _ H1)|by rewrite (proj2 (r_flags _ _ _ _ H1))|apply Hsc1; unfold T; by rewrite (r_dev _ _ _ _ H1)|lia|lia|lia| |].
      { intros c Hc. rewrite (r_use _ _ _ _ H1), decide_False by lia. apply Hall. lia. }
      exists s'. split; [done|]. apply (remapped_trans pmp s s1 s' _ _ _ H1 H2). intros c Hc. simpl. rewrite (r_use _ _ _ _ H1), (entry_remapped pmp s s1 _ c H1) by done.
      repeat case_decide; try done; try lia. subst c. by rewrite Ef.
    + destruct (IH (cn + 1) (Some b) s) as (s' & -> & H2); [done|done|done|done|by apply Hsc1|lia|lia|lia|intros; apply Hall; lia|].
      exists s'. split; [done|]. destruct H2 as [? ? ? ? ? ? ? ? Hu]. split; try done. intros c Hc. rewrite Hu by done. repeat case_decide; try done; try lia.
      replace c with cn by lia. rewrite Hall by lia. symmetry. by apply negb_true_iff, Z.eqb_neq.
Qed.

(** The state after the map was filled. *)
Lemma filled_map s m : zlen m = max / 32 + 1 → (∀ i, 0 ≤ i < zlen m → m !!! Z.to_nat i = FULL_RUN) →
  map_inv pmp (set_freeclustercount 0 (set_inusemap m s)) ∧ ∀ c, 0 ≤ c → c / 32 ≤ max / 32 → inuse (set_freeclustercount 0 (set_inusemap m s)) c = true.
Proof.
  intros Hlen Hm. pose proof (max_range pmp G) as Hmr. assert (∀ c, 0 ≤ c → c / 32 ≤ max / 32 → inuse (set_freeclustercount 0 (set_inusemap m s)) c = true) as Hu.
  { intros c Hc Hle. unfold inuse, word_at. simpl. rewrite Hm by (pose proof (Z.div_pos c 32); lia). change FULL_RUN with (Z.ones 32). pose proof (Z.mod_pos_bound c 32 ltac:(done)). rewrite Z.testbit_ones_nonneg by lia. lia. }
  split; [|done]. split; [done|intros i Hi; unfold word_at; simpl; rewrite Hm by lia; done|intros c Hc1 Hc2; apply Hu; lia|].
  simpl. symmetry. apply free_number_all. intros c Hc. apply Hu; [lia|]. apply Z.div_le_mono; lia.
Qed.

Lemma fillinusemap_ok s : volume pmp s → zlen (pm_inusemap s) = max / 32 + 1 → 0 < pm_fatlock s → is_ronly s = false → 0 ≤ pm_Media pmp →
  CLUST_FIRST ≤ pm_nxtfree s ≤ max → entry s 0 = fat_id → entry s 1 ≠ CLUST_FREE →
  ∃ s', fillinusemap pmp s = Ok (0, s') ∧ fat_inv pmp s' ∧ dev s' = dev s ∧ pm_fatlock s' = pm_fatlock s.
Proof.
  intros Hv Hlen Hl Hrw Hmed Hnext Hid H1. pose proof (max_range pmp G) as Hmr. unfold fillinusemap. rewrite (bind_Ok _ _ _ _ _ (locked_ok s Hl)). change N_INUSEBITS with 32.
  assert ((max + 32) / 32 = max / 32 + 1) as -> by div_mod_lia. destruct (fill_words_ok (Z.to_nat (max / 32 + 1)) 0 s) as (m & Hrun & Hm & Hall); [lia|lia|].
  rewrite (bind_Ok _ _ _ _ _ Hrun), bind_modifyS. set (s1 := set_freeclustercount 0 _). destruct (filled_map s m) as [Hmap Huse]; [lia|intros i Hi; rewrite Hall, decide_True by lia; done|]. fold s1 in Hmap, Huse.
  destruct (fill_loop_ok (Z.to_nat (max + 1)) 0 None s1) as (s2 & Hloop & Hr); [by destruct Hv|done|done|done|done|lia|lia|done|intros c Hc; apply Huse; [lia|apply Z.div_le_mono; lia]|].
  rewrite (bind_Ok _ _ _ _ _ Hloop). change (negb (0 =? 0)) with false. cbv iota. replace (Z.to_nat (max / 32 + 1 - (max + 1))) with O by (pose proof (Z.div_le_upper_bound max 32 max); lia). cbn [fill_tail].
  rewrite bind_ret. mrun. exists s2. split; [done|].
  assert (∀ c, entry s2 c = entry s c) as He by (intros c; unfold FatEntry.entry, T; by rewrite (r_dev _ _ _ _ Hr)).
  split; [|split; [apply (r_dev _ _ _ _ Hr)|apply (r_lock _ _ _ _ Hr)]].
  split.
  - eapply (volume_remapped pmp s1 s2); [by destruct Hv|exact Hr].
  - apply Hr.
  - by rewrite (proj2 (r_flags _ _ _ _ Hr)).
  - intros c Hc. rewrite (r_use _ _ _ _ Hr), decide_False by lia. rewrite He. done.
  - rewrite !He, Hid. split; [|done]. unfold fat_id. intros Hz%Z.lor_eq_0_iff. destruct Hz as [Hz _]. revert Hz. destruct (g_type pmp G) as [E|E|E]; by rewrite E.
  - by rewrite (r_nxtfree _ _ _ _ Hr).
Qed.

(** ** The clean bit *)

(** The table after the byte with the bit was changed. *)
Definition marked (t t' : Z → Z) : Prop := bytes t' ∧ ∀ x, ¬ clean_byte pmp x → t' x = t x.

Lemma mark16 t v : bytes t → FAT16 pmp = true → Z.land v 0xff = Z.land (word16 t 2) 0xff → marked t (put_word16 t 2 v).
Proof.
  intros Ht H16 Hv. split; [by apply bytes_put_word16|]. intros x Hx. rewrite put_word16_lookup. rewrite !land_byte in Hv. pose proof (Ht 2).
  destruct (Z.eqb_spec x 2) as [->|]; [rewrite Hv; unfold word16; div_mod_lia|]. destruct (Z.eqb_spec x (2 + 1)) as [->|]; [|done]. exfalso. apply Hx. by left.
Qed.

Lemma mark32 t v : bytes t → FAT32 pmp = true → Z.land v 0xffffff = Z.land (word32 t 4) 0xffffff → marked t (put_word32 t 4 v).
Proof.
  intros Ht H32 Hv. split; [unfold put_word32; by repeat apply bytes_put_word16|]. intros x Hx. unfold put_word32. rewrite !put_word16_lookup. change 0xffffff with (Z.ones 24) in Hv. rewrite !Z.land_ones in Hv by done. change (2 ^ 24) with 16777216 in Hv.
  pose proof (Ht 4). pose proof (Ht (4 + 1)). pose proof (Ht (4 + 2)). unfold word32, word16 in Hv.
  destruct (Z.eqb_spec x (4 + 2)) as [->|]; [div_mod_lia|]. destruct (Z.eqb_spec x (4 + 2 + 1)) as [->|]; [exfalso; apply Hx; by right|].
  destruct (Z.eqb_spec x 4) as [->|]; [div_mod_lia|]. destruct (Z.eqb_spec x (4 + 1)) as [->|]; [div_mod_lia|done].
Qed.

Lemma land_masked w m k : Z.land m k = k → Z.land (Z.land w m) k = Z.land w k.
Proof. intros H. by rewrite <- Z.land_assoc, H. Qed.

Lemma land_joined w m k : Z.land m k = 0 → Z.land (Z.lor w m) k = Z.land w k.
Proof. intros H. by rewrite Z.land_lor_distr_l, H, Z.lor_0_r. Qed.

(** Marking the volume changes that byte of the table in use; a volume with twelve-bit
    entries has no such bit. *)
Lemma markvoldirty_ok s dirty rw : volume pmp s → is_ronly s = false ∨ rw = true →
  ∃ s', markvoldirty_upgrade pmp dirty rw s = Ok (0, s') ∧ volume pmp s' ∧ ∀ x, 0 ≤ x < fat_size pmp → ¬ clean_byte pmp x → T pmp s' x = T pmp s x.
Proof.
  intros Hv Hrw. unfold markvoldirty_upgrade. destruct (FAT12 pmp) eqn:E12; [by exists s|]. mrun. replace (is_ronly s && negb rw) with false by (destruct Hrw as [-> | ->]; [done|by rewrite andb_false_r]).
  pose proof (max_range pmp G) as Hm. destruct (fatblock_ok pmp G 1) as (o & bn & bsize & Hfb & Hb & Ho); [lia|]. rewrite Hfb. cbv beta iota zeta. pose proof (ba_whole _ _ _ _ Hb 1 ltac:(lia) (proj1 Ho) (proj2 Ho)) as Hw.
  destruct (bread_block pmp s o bn bsize) as (bp & Hr & Hbn & Hbc & Hview); [apply Hv|done|]. rewrite (bind_Ok _ _ _ _ _ Hr). cbv beta iota. assert (bytes (T pmp s)) as Hbt by apply bytes_tab, Hv.
  set (upd := if FAT32 pmp then _ else _). assert (∃ bp' t', upd = Ok bp' ∧ rewritten bp bp' t' o ∧ marked (T pmp s) t') as (bp' & t' & -> & (Hbn' & Hbc' & Hview') & Hby' & Hmk).
  { unfold upd, width, FAT12, FAT16, FAT32, ofs in *. destruct (g_type pmp G) as [Hk _ _ _|Hk Hmu Hdi|Hk Hmu Hdi]; rewrite Hk in *; simpl in *; [done| |]; rewrite Hmu, Hdi in *.
    - change (1 * 2 / 1) with 2 in *. rewrite (getushort_view bp (T pmp s) o) by (done || lia). simpl. set (v := if dirty then _ else _).
      destruct (putushort_view bp (T pmp s) o 2 v) as (b & Hp & Hrew); [done|lia|lia|]. exists b, (put_word16 (T pmp s) 2 v). split; [done|]. split; [done|]. apply mark16; [done|unfold FAT16; by rewrite Hk|].
      unfold v. destruct dirty; [by apply land_masked|by apply land_joined].
    - change (1 * 4 / 1) with 4 in *. rewrite (getulong_view bp (T pmp s) o) by (done || lia). simpl. set (v := if dirty then _ else _).
      destruct (putulong_view bp (T pmp s) o 4 v) as (b & Hp & Hrew); [done|lia|lia|]. exists b, (put_word32 (T pmp s) 4 v). split; [done|]. split; [done|]. apply mark32; [done|unfold FAT32; by rewrite Hk|].
      unfold v. destruct dirty; [by apply land_masked|by apply land_joined]. }
  rewrite bind_liftO. unfold bwrite, bdwrite. rewrite bind_modifyS. set (s' := set_dev _ s). exists s'. split; [apply next_err_none; apply Hv|].
  assert (∀ a, dev s' a = dev s a ∨ ∃ x, a = fat_base pmp (pm_curfat pmp) + x ∧ 0 ≤ x < fat_size pmp ∧ dev s' a = t' x) as Hd.
  { intros a. simpl. rewrite Hbn', Hbn, (ba_addr _ _ _ _ Hb), Hbc', Hbc. destruct (_ && _) eqn:E; [|by left]. right. exists (a - fat_base pmp (pm_curfat pmp)). pose proof (ba_fits _ _ _ _ Hb). pose proof (ba_pos _ _ _ _ Hb).
    split; [lia|]. split; [lia|]. rewrite Hview' by lia. f_equal. lia. }
  assert (∀ k x, 0 ≤ x < fat_size pmp → ¬ clean_byte pmp x → tab pmp (dev s') k x = tab pmp (dev s) k x) as Htab.
  { intros k x Hx Hcl. unfold tab. destruct (Hd (fat_base pmp k + x)) as [->|(y & Hy & Hyr & ->)]; [done|]. destruct (bases_apart pmp G k (pm_curfat pmp) x y Hx Hyr Hy) as [-> ->]. by apply Hmk. }
  split; [|intros x Hx Hcl; by apply Htab]. split; [apply Hv| |].
  - intros a. destruct (Hd a) as [->|(x & _ & _ & ->)]; [apply Hv|apply Hby'].
  - intros Hmi. destruct (v_mirror _ _ Hv Hmi) as [Hc Hag]. split; [done|]. intros k x Hk Hx Hcl. rewrite !Htab by done. by apply Hag.
Qed.

End Fill.
