(* ===== verification/FatFile.v ===== *)
(** msdosfs_fat.c, the part about files: the cache of a file's clusters, finding a cluster
    of a file ([pcbmap]) and appending clusters ([extendfile]); with [msdosfs_bmap] of
    msdosfs_vnops.c.

    The state is the volume and one file.  A file is being resized while clusters are
    appended, so that its buffers are not written anywhere. *)

From S2P Require Import Prelude Errors Fat.

Definition E2BIG : Z := B_POSIX_ERROR_BASE + 1.
Definition ATTR_DIRECTORY : Z := 0x10.
Definition DE_CLEAR : Z := 1.

Definition FC_SIZE : Z := 3.
Definition FC_LASTMAP : nat := 0.
Definition FC_LASTFC : nat := 1.
Definition FC_NEXTTOLASTFC : nat := 2.
Definition FCE_EMPTY : Z := 0xffffffff.

Record fatcache := mkFc { fc_frcn : Z; fc_fsrcn : Z }.
#[global] Instance fatcache_inhabited : Inhabited fatcache := populate (mkFc 0 0).

Record denode := mkDenode {
  de_StartCluster : Z;
  de_Attributes : Z;
  de_FileSize : Z;
  de_fc : list fatcache
}.

Definition set_StartCluster x d := mkDenode x (de_Attributes d) (de_FileSize d) (de_fc d).
Definition set_fc x d := mkDenode (de_StartCluster d) (de_Attributes d) (de_FileSize d) x.

Notation DM := (M (msdosfsmount * denode)).

(** An operation on the volume. *)
Definition on_volume {A} (m : FM A) : DM A := λ '(s, d), '(a, s') ← m s; Ok (a, (s', d)).
Definition get_node : DM denode := λ '(s, d), Ok (d, (s, d)).
Definition set_node (f : denode → denode) : DM unit := λ '(s, d), Ok (tt, (s, f d)).

Definition is_directory (d : denode) : bool := negb (Z.land (de_Attributes d) ATTR_DIRECTORY =? 0).

(** ** The cache *)

Definition fc_setcache (slot : nat) (frcn fsrcn : Z) : DM unit := set_node (λ d, set_fc (<[slot := mkFc frcn fsrcn]> (de_fc d)) d).

(** The entry closest to a cluster of the file and not after it. *)
Definition fc_lookup (findcn : Z) (fc : list fatcache) : option fatcache :=
  foldl (λ closest e,
    if negb (fc_frcn e =? FCE_EMPTY) && (fc_frcn e <=? findcn) then
      match closest with
      | None => Some e
      | Some c => if fc_frcn c <? fc_frcn e then Some e else closest
      end
    else closest) None fc.

Definition fc_purge (frcn : Z) : DM unit :=
  set_node (λ d, set_fc ((λ e, if frcn <=? fc_frcn e then mkFc FCE_EMPTY (fc_fsrcn e) else e) <$> de_fc d) d).

Section Model.
Context (pmp : geometry).

Definition de_cn2off (cn : Z) : Z := u64 (Z.shiftl cn (pm_cnshift pmp)).
Definition de_bn2cn (bn : Z) : Z := Z.shiftr bn (pm_cnshift pmp - pm_bnshift pmp).
Definition de_cn2bn (cn : Z) : Z := u64 (Z.shiftl cn (pm_cnshift pmp - pm_bnshift pmp)).
Definition cntobn (cn : Z) : Z := u64 (de_cn2bn (u64 (cn - CLUST_FIRST)) + pm_firstcluster pmp).

(** ** pcbmap *)

(** The loop over the clusters of the file, with the block in memory and its number: an
    error, or where it stopped and whether at the end of the file. *)
Fixpoint pcb_walk (fuel : nat) (findcn i cn prevcn : Z) (bp : option buf) (bp_bn : Z) : FM (Z + bool * Z * Z * Z) :=
  match fuel with
  | O => hangM
  | S fuel =>
      if findcn <=? i then mret (inr (false, i, cn, prevcn))
      else if reserved pmp cn then mret (inr (true, i, cn, prevcn))
      else
        let '(bn, bsize, bo) := fatblock pmp (FATOFS pmp cn) in
        r ← match bp with
            | Some b => if bn =? bp_bn then mret (inr b) else bread pmp bn bsize
            | None => bread pmp bn bsize
            end;
        match r with
        | inl error => mret (inl error)
        | inr b =>
            if bsize <=? bo then mret (inl EIO)
            else
              next ← liftO (get_fat pmp cn b bo);
              pcb_walk fuel findcn (i + 1) (canonical pmp next) cn (Some b) bn
        end
  end.

(** The answer: the error, and what is stored as block, cluster and size.  A caller that
    passes a null pointer does not ask for the value. *)
Definition pcbmap (findcn : Z) : DM (Z * (Z * Z * Z)) :=
  d ← get_node;
  if de_StartCluster d =? MSDOSFSROOT then
    if is_directory d then
      if de_FileSize d <=? de_cn2off findcn then mret (E2BIG, (0, de_bn2cn (pm_rootdirsize pmp), 0))
      else mret (0, (pm_rootdirblk pmp + de_cn2bn findcn, MSDOSFSROOT, Z.min (pm_bpcluster pmp) (de_FileSize d - de_cn2off findcn)))
    else mret (E2BIG, (0, 0, 0))
  else
    let '(i, cn) := match fc_lookup findcn (de_fc d) with Some c => (fc_frcn c, fc_fsrcn c) | None => (0, de_StartCluster d) end in
    r ← on_volume (pcb_walk (S (Z.to_nat (findcn - i))) findcn i cn 0 None (u64 (-1)));
    match r with
    | inl error => mret (error, (0, 0, pm_bpcluster pmp))
    | inr (hiteof, i, cn, prevcn) =>
        if negb hiteof && negb (MSDOSFSEOF pmp cn) then
          fc_setcache FC_LASTMAP i cn;; mret (0, (cntobn cn, cn, pm_bpcluster pmp))
        else
          fc_setcache FC_LASTFC (u64 (i - 1)) prevcn;; mret (E2BIG, (0, i, pm_bpcluster pmp))
    end.

(** Without run lengths. *)
Definition msdosfs_bmap (a_bn : Z) : DM (Z * Z) :=
  '(error, (bn, _, _)) ← pcbmap a_bn;
  mret (error, bn).

(** ** extendfile *)

(** A buffer after [clrbuf]. *)
Definition zero_buf (bn : Z) : buf := mkBuf bn (pm_bpcluster pmp) (λ _, 0).

(** The buffer of a new cluster of a directory, and of a file. *)
Definition clear_dir (cn : Z) : FM buf :=
  error ← next_err;
  if negb (error =? 0) then failM NullDeref else mret (zero_buf (cntobn cn)).

Definition clear_file (frcn : Z) : DM buf :=
  msdosfs_bmap frcn;;
  error ← on_volume next_err;
  if negb (error =? 0) then failM NullDeref
  else
    '(error, (blkno, _, _)) ← pcbmap frcn;
    if negb (error =? 0) then failM AssertFailed else mret (zero_buf blkno).

(** [bpp] is [None] for NULL, else what [*bpp] was set to.  The first buffer goes there,
    and the others are written; those of a file are not while it is resized. *)
Fixpoint clear_clusters (got : nat) (cn frcn : Z) (bpp : option (option buf)) : DM (option (option buf)) :=
  match got with
  | O => mret bpp
  | S got =>
      d ← get_node;
      bp ← (if is_directory d then on_volume (clear_dir cn) else clear_file frcn);
      bpp ← (match bpp with
             | Some None => mret (Some (Some bp))
             | _ => (if is_directory d then on_volume (bdwrite pmp bp) else mret tt);; mret bpp
             end);
      clear_clusters got (cn + 1) (frcn + 1) bpp
  end.

(** [nc] is the first new cluster, once it is known. *)
Fixpoint extend_loop (fuel : nat) (count flags : Z) (bpp : option (option buf)) (nc : option Z) : DM (Z * option (option buf) * option Z) :=
  match fuel with
  | O => hangM
  | S fuel =>
      if count =? 0 then mret (0, bpp, nc)
      else
        d ← get_node;
        let cn := if de_StartCluster d =? 0 then 0 else u64 (fc_fsrcn (de_fc d !!! FC_LASTFC) + 1) in
        '(error, (cn, got)) ← on_volume (clusteralloc pmp cn count CLUST_EOFE);
        if negb (error =? 0) then mret (error, bpp, nc)
        else
          let nc := match nc with Some c => Some c | None => Some cn end in
          r ← (if de_StartCluster d =? 0 then set_node (set_StartCluster cn);; mret (inr 0)
               else
                 '(error, _) ← on_volume (fatentry pmp FAT_SET (fc_fsrcn (de_fc d !!! FC_LASTFC)) cn);
                 if negb (error =? 0) then on_volume (clusterfree pmp cn);; mret (inl error)
                 else mret (inr (u64 (fc_frcn (de_fc d !!! FC_LASTFC) + 1))));
          match r with
          | inl error => mret (error, bpp, nc)
          | inr frcn =>
              fc_setcache FC_LASTFC (u64 (frcn + got - 1)) (u64 (cn + got - 1));;
              bpp ← (if negb (Z.land flags DE_CLEAR =? 0) then clear_clusters (Z.to_nat got) cn frcn bpp else mret bpp);
              extend_loop fuel (count - got) flags bpp nc
          end
  end.

(** The status, what [*bpp] was set to, and what [*ncp] was set to, which is only written
    when the caller asks for it. *)
Definition extendfile (count : Z) (bpp : option (option buf)) (flags : Z) : DM (Z * option (option buf) * option Z) :=
  d ← get_node;
  if (de_StartCluster d =? MSDOSFSROOT) && is_directory d then mret (ENOSPC, bpp, None)
  else
    error ← (if (fc_frcn (de_fc d !!! FC_LASTFC) =? FCE_EMPTY) && negb (de_StartCluster d =? 0) then
               '(error, _) ← pcbmap 0xffff;
               mret (if error =? E2BIG then None else Some error)
             else mret None);
    match error with
    | Some error => mret (error, bpp, None)
    | None =>
        set_node (λ d, set_fc (<[FC_NEXTTOLASTFC := de_fc d !!! FC_LASTFC]> (de_fc d)) d);;
        extend_loop (S (Z.to_nat count)) count flags bpp None
    end.

End Model.
