(* ===== verification/FatChain.v ===== *)
(** The clusters of a file as a list: [pcbmap] finds the n-th of them. *)

From S2P Require Import Prelude Errors Fat FatTable FatEntry FatMap FatAlloc FatFree FatFile.
From Stdlib Require Import ZifyBool.

(** * Walks *)

Lemma walk_app f c l1 c1 l2 c2 : walk f c l1 c1 → walk f c1 l2 c2 → walk f c (l1 ++ l2) c2.
Proof. induction 1; intros; [done|]. simpl. constructor. auto. Qed.

Lemma walk_app_inv f c l1 l2 c2 : walk f c (l1 ++ l2) c2 → ∃ c1, walk f c l1 c1 ∧ walk f c1 l2 c2.
Proof.
  revert c. induction l1 as [|x l1 IH]; intros c H; [exists c; split; [constructor|done]|]. simpl in H. inversion H as [|? ? ? H']; subst.
  destruct (IH _ H') as (c1 & H1 & H2). exists c1. split; [by constructor|done].
Qed.

Lemma walk_snoc f c l x e : walk f c (l ++ [x]) e → walk f c l x ∧ f x = e.
Proof. intros (c1 & H1 & H2)%walk_app_inv. inversion H2 as [|? ? ? H3]; subst. inversion H3; subst. done. Qed.

Lemma walk_cons_head f c x l e : walk f c (x :: l) e → c = x.
Proof. intros H. by inversion H. Qed.

(** There is one way out of a set of numbers. *)
Lemma walk_unique (P : Z → Prop) f c l1 e1 l2 e2 : walk f c l1 e1 → walk f c l2 e2 → Forall P l1 → Forall P l2 → ¬ P e1 → ¬ P e2 → l1 = l2.
Proof.
  intros H1. revert l2 e2. induction H1 as [c|c l e H IH]; intros l2 e2 H2 F1 F2 N1 N2.
  - destruct H2; [done|]. apply Forall_cons in F2 as [F2 _]. done.
  - inversion H2 as [|c2 l2' e2' H2']; subst; [apply Forall_cons in F1 as [F1 _]; done|]. f_equal. apply Forall_cons in F1 as [_ F1]. apply Forall_cons in F2 as [_ F2]. by eapply IH.
Qed.

Lemma walk_NoDup (P : Z → Prop) f c l e : walk f c l e → Forall P l → ¬ P e → NoDup l.
Proof.
  intros H. induction H as [c|c l e H IH]; intros F N; [constructor|]. pose proof F as F0. apply Forall_cons in F as [Fc F]. constructor; [|by apply IH].
  intros Hin. apply list_elem_of_split in Hin as (l1 & l2 & ->). pose proof H as H'. apply walk_app_inv in H' as (c1 & H1 & H2). assert (c1 = c) as -> by (by apply walk_cons_head in H2).
  assert (c :: l2 = c :: l1 ++ c :: l2) as E by (eapply (walk_unique P); [exact H2|by constructor|by apply Forall_app in F as [_ F]|done|done|done]).
  apply (f_equal length) in E. simpl in E. rewrite length_app in E. simpl in E. lia.
Qed.

Lemma walk_lookup f c l e i x : walk f c l e → l !! i = Some x → walk f x (drop i l) e.
Proof.
  intros H Hx. rewrite <- (take_drop i l) in H. apply walk_app_inv in H as (c1 & _ & H). rewrite (drop_S _ x i Hx) in *. by pose proof (walk_cons_head _ _ _ _ _ H) as ->.
Qed.

Section Chain.
Context (pmp : geometry) (G : geometry_ok pmp).

Notation max := (pm_maxcluster pmp).
Notation entry := (entry pmp).

Definition in_range (c : Z) : Prop := CLUST_FIRST ≤ c ≤ max.

(** The entry that ends a file. *)
Definition is_eof (e : Z) : Prop := 0 ≤ e ≤ pm_fatmask pmp ∧ MSDOSFSEOF pmp e = true.

Lemma land_eofs v : 0 ≤ v < 2 ^ 32 → Z.land v CLUST_EOFS = v / 8 * 8.
Proof.
  intros. rewrite <- (Z.mod_small v (2 ^ 32)) at 1 by lia. rewrite <- Z.land_ones by done. rewrite <- Z.land_assoc.
  change (Z.land (Z.ones 32) CLUST_EOFS) with (Z.ldiff (Z.ones 32) (Z.ones 3)). rewrite !Z.ldiff_land, Z.land_assoc, Z.land_ones by done.
  rewrite (Z.mod_small v) by lia. rewrite <- Z.ldiff_land, Z.ldiff_ones_r by done. rewrite Z.shiftl_mul_pow2, Z.shiftr_div_pow2 by done. done.
Qed.

Lemma fatmask_sum : fatmask_not pmp + pm_fatmask pmp = 2 ^ 32 - 1 ∧ 0 ≤ fatmask_not pmp.
Proof. unfold fatmask_not. destruct (g_type pmp G) as [E|E|E]; by rewrite E. Qed.

(** Entries of clusters are neither reserved nor the end; the end is reserved. *)
Lemma range_plain c : in_range c → reserved pmp c = false ∧ MSDOSFSEOF pmp c = false ∧ canonical pmp c = c ∧ 0 ≤ c ≤ pm_fatmask pmp.
Proof.
  intros Hc. unfold in_range, CLUST_FIRST in Hc. destruct (g_max pmp G) as [_ Hm]. destruct fatmask_sum as [Hs H0].
  assert (Z.land CLUST_RSRVD (pm_fatmask pmp) ≤ pm_fatmask pmp) as Hle by (destruct (g_type pmp G) as [E|E|E]; by rewrite E).
  assert (0 ≤ c ≤ pm_fatmask pmp) as Hcm by lia. assert (reserved pmp c = false) as Hr by (apply not_true_iff_false; rewrite (reserved_iff pmp G) by done; lia).
  split; [done|]. split; [|split; [unfold canonical; by rewrite Hr|done]]. apply not_true_iff_false. unfold MSDOSFSEOF, reserved in *. rewrite (lor_mask_not pmp G) in * by done.
  rewrite land_eofs by lia. unfold CLUST_EOFS, CLUST_RSRVD in *. clear - Hr. intros H. div_mod_lia.
Qed.

Lemma eof_plain e : is_eof e → reserved pmp e = true ∧ reserved pmp (canonical pmp e) = true ∧ MSDOSFSEOF pmp (canonical pmp e) = true ∧ ¬ in_range e ∧ e ≠ 0.
Proof.
  intros [He Heof]. destruct fatmask_sum as [Hs H0]. pose proof Heof as Heof'. unfold MSDOSFSEOF in Heof'. rewrite (lor_mask_not pmp G), land_eofs in Heof' by lia.
  assert (reserved pmp e = true) as Hr. { unfold reserved. rewrite (lor_mask_not pmp G) by done. unfold CLUST_EOFS, CLUST_RSRVD in *. clear - Heof'. div_mod_lia. }
  assert (Z.lor (Z.lor e (fatmask_not pmp)) (fatmask_not pmp) = Z.lor e (fatmask_not pmp)) as Hidem by (by rewrite <- Z.lor_assoc, Z.lor_diag).
  destruct (max_reserved pmp G e He Hr) as [Hm _]. pose proof (max_range pmp G). split; [done|]. unfold canonical. rewrite Hr. unfold reserved, MSDOSFSEOF, in_range in *. rewrite Hidem. split; [done|]. split; [done|]. lia.
Qed.

(** ** Following the table *)

(** Where a walk of a file stands. *)
Definition stands (l : list Z) (e : Z) : Z := match l with [] => canonical pmp e | x :: _ => x end.

Definition block_in_memory (s : msdosfsmount) (bp : option buf) (bn : Z) : Prop :=
  match bp with
  | None => True
  | Some b => ∃ o bsize, block_at pmp o bn bsize ∧ b_bcount b = bsize ∧ views b (T pmp s) o
  end.

Lemma next_block s bp bn0 c : volume pmp s → block_in_memory s bp bn0 → 0 ≤ c ≤ max →
  ∃ o bn bsize b, fatblock pmp (FATOFS pmp c) = (bn, bsize, ofs pmp c - o) ∧ o ≤ ofs pmp c ∧ ofs pmp c + width pmp ≤ o + bsize ∧
    match bp with Some b => if bn =? bn0 then mret (inr b) else bread pmp bn bsize | None => bread pmp bn bsize end s = Ok (inr b, s) ∧
    b_bcount b = bsize ∧ views b (T pmp s) o ∧ block_in_memory s (Some b) bn.
Proof.
  intros Hv Hmem Hc. destruct (fatblock_ok pmp G c Hc) as (o & bn & bsize & Hfb & Hb & Ho). pose proof (ba_whole _ _ _ _ Hb c Hc (proj1 Ho) (proj2 Ho)) as Hw.
  destruct (bread_block pmp s o bn bsize) as (b1 & Hr & _ & Hbc & Hview); [apply Hv|done|].
  assert (∃ b, match bp with Some b => if bn =? bn0 then mret (inr b) else bread pmp bn bsize | None => bread pmp bn bsize end s = Ok (inr b, s) ∧ b_bcount b = bsize ∧ views b (T pmp s) o) as (b & Hrun & H1 & H2).
  { destruct bp as [b|]; [|by exists b1]. destruct (Z.eqb_spec bn bn0) as [->|]; [|by exists b1]. destruct Hmem as (o' & bsize' & Hb' & Hbc' & Hv'). destruct (block_unique pmp o' o bn0 bsize' bsize Hb' Hb) as [-> ->]. by exists b. }
  exists o, bn, bsize, b. split; [done|]. split; [lia|]. split; [done|]. split; [done|]. split; [done|]. split; [done|]. by exists o, bsize.
Qed.

Lemma pcb_walk_ok s findcn : volume pmp s → ∀ fuel i prev bp bn0 l e c,
  walk (entry s) c l e → Forall in_range l → is_eof e → block_in_memory s bp bn0 → i ≤ findcn → (Z.to_nat (findcn - i) < fuel)%nat → c = match l with [] => e | x :: _ => x end →
  ∃ hit prev', pcb_walk pmp fuel findcn i (stands l e) prev bp bn0 s = Ok (inr (hit, Z.min findcn (i + zlen l), stands (drop (Z.to_nat (findcn - i)) l) e, prev'), s) ∧
    (hit = true → i + zlen l ≤ findcn) ∧ (i + zlen l ≤ findcn → last (prev :: l) = Some prev').
Proof.
  intros Hv. induction fuel as [|fuel IH]; intros i prev bp bn0 l e c Hw Hl He Hmem Hi Hfuel Hc; [lia|]. cbn [pcb_walk]. destruct (Z.leb_spec findcn i) as [Hle|Hgt].
  - mrun. exists false, prev. replace findcn with i by lia. rewrite Z.sub_diag. change (Z.to_nat 0) with 0%nat. rewrite drop_0, Z.min_l by lia. split; [done|]. split; [done|].
    destruct l; simpl; [done|lia].
  - destruct (eof_plain e He) as (_ & Hres & _). destruct l as [|x l].
    + change (stands [] e) with (canonical pmp e). rewrite Hres. mrun. exists true, prev. rewrite drop_nil, Z.min_r by (simpl; lia). simpl. rewrite Z.add_0_r. split; [done|]. split; [lia|done].
    + change (stands (x :: l) e) with x. apply Forall_cons in Hl as [Hx Hl]. destruct (range_plain x Hx) as (-> & _ & _ & _). pose proof Hx as Hx0. unfold in_range, CLUST_FIRST in Hx0.
      destruct (next_block s bp bn0 x Hv Hmem ltac:(lia)) as (o & bn & bsize & b & -> & Ho & Hw' & Hrun & Hbc & Hview & Hmem'). cbv beta iota zeta. rewrite (bind_Ok _ _ _ _ _ Hrun). cbv beta iota.
      assert (2 ≤ width pmp) by (unfold width; destruct (FAT32 pmp); lia). rewrite (proj2 (Z.leb_gt bsize (ofs pmp x - o))) by lia.
      rewrite (get_fat_ok pmp G x b (T pmp s) o); [|apply bytes_tab, Hv|done|lia|lia]. rewrite bind_liftO. fold (entry s x). inversion Hw as [|c0 l0 e0 Hw1]; subst.
      assert (canonical pmp (entry s x) = stands l e) as ->.
      { destruct l as [|y l]; [by inversion Hw1; subst|]. simpl. apply walk_cons_head in Hw1. rewrite Hw1. apply Forall_cons in Hl as [Hy _]. by apply range_plain. }
      destruct (IH (i + 1) x (Some b) bn l e (entry s x)) as (hit & prev' & -> & Hhit & Hlast); [done|done|done|done|lia|lia|by inversion Hw1|].
      exists hit, prev'. replace (Z.to_nat (findcn - i)) with (S (Z.to_nat (findcn - (i + 1)))) by lia. simpl drop. replace (i + zlen (x :: l)) with (i + 1 + zlen l) by (simpl; lia).
      split; [done|]. split; [done|]. intros Hz. exact (Hlast Hz).
Qed.

(** ** Files *)

(** A slot of the cache is empty or right. *)
Definition slot_ok (l : list Z) (e : fatcache) : Prop := fc_frcn e = FCE_EMPTY ∨ 0 ≤ fc_frcn e ∧ l !! Z.to_nat (fc_frcn e) = Some (fc_fsrcn e).

Record cache_ok (fc : list fatcache) (l : list Z) : Prop := {
  co_size : zlen fc = FC_SIZE;
  co_slots : Forall (slot_ok l) fc;
  co_last : fc_frcn (fc !!! FC_LASTFC) = FCE_EMPTY ∨ fc_frcn (fc !!! FC_LASTFC) + 1 = zlen l
}.

(** The clusters of a file are [l]. *)
Record file_chain (s : msdosfsmount) (c : Z) (l : list Z) : Prop := {
  fch_start : c = match l with [] => 0 | x :: _ => x end;
  fch_range : Forall in_range l;
  fch_walk : l ≠ [] → ∃ e, walk (entry s) c l e ∧ is_eof e
}.

Definition file_ok (s : msdosfsmount) (d : denode) (l : list Z) : Prop := file_chain s (de_StartCluster d) l ∧ cache_ok (de_fc d) l.

Lemma file_NoDup s c l : file_chain s c l → NoDup l.
Proof. intros [Hs Hr Hw]. destruct l as [|x l]; [constructor|]. destruct (Hw ltac:(done)) as (e & Hwalk & He). eapply (walk_NoDup in_range); [exact Hwalk|done|]. by apply eof_plain. Qed.

Lemma NoDup_bound l : NoDup l → Forall in_range l → zlen l ≤ max.
Proof.
  intros Hn Hr. assert (l ⊆+ seqZ 1 max) as Hsub.
  { apply NoDup_submseteq; [done|]. intros x Hx. rewrite Forall_forall in Hr. specialize (Hr x Hx). unfold in_range, CLUST_FIRST in Hr. apply elem_of_seqZ. lia. }
  apply submseteq_length in Hsub. rewrite length_seqZ in Hsub. pose proof (max_range pmp G). lia.
Qed.

Lemma file_length s c l : file_chain s c l → zlen l < FCE_EMPTY.
Proof. intros H. pose proof (NoDup_bound l (file_NoDup s c l H) (fch_range _ _ _ H)). pose proof (max_range pmp G). unfold FCE_EMPTY. lia. Qed.

(** The entries of a file are not free. *)
Lemma file_used s c l x : file_chain s c l → x ∈ l → entry s x ≠ CLUST_FREE.
Proof.
  intros [_ Hr Hw] (i & Hi)%list_elem_of_lookup. destruct (Hw ltac:(by intros ->)) as (e & Hwalk & He). pose proof (walk_lookup _ _ _ _ _ _ Hwalk Hi) as H. rewrite (drop_S _ x i Hi) in H.
  inversion H as [|? ? ? H']; subst. inversion H' as [c1 E1 E2|c1 l1 e1 H1 E1 E2]; subst; [by apply eof_plain|].
  assert (in_range (entry s x)) as Hin. { rewrite Forall_forall in Hr. apply Hr. apply list_elem_of_lookup. exists (S i). rewrite <- (Nat.add_1_r i), <- lookup_drop, (drop_S _ x i Hi), <- E2. done. }
  unfold in_range, CLUST_FIRST in Hin. unfold CLUST_FREE. lia.
Qed.

Lemma fc_lookup_in findcn fc e : fc_lookup findcn fc = Some e → e ∈ fc ∧ fc_frcn e ≠ FCE_EMPTY ∧ fc_frcn e ≤ findcn.
Proof.
  unfold fc_lookup. assert (∀ acc, foldl (λ closest e,
    if negb (fc_frcn e =? FCE_EMPTY) && (fc_frcn e <=? findcn) then match closest with None => Some e | Some c => if fc_frcn c <? fc_frcn e then Some e else closest end else closest) acc fc = Some e →
    acc = Some e ∨ e ∈ fc ∧ fc_frcn e ≠ FCE_EMPTY ∧ fc_frcn e ≤ findcn) as H.
  { induction fc as [|x fc IH]; intros acc; simpl; [by left|]. intros [H|H]%IH; [|right; set_solver]. destruct (negb (fc_frcn x =? FCE_EMPTY) && (fc_frcn x <=? findcn)) eqn:E; [|by left].
    assert (x = e → e ∈ x :: fc ∧ fc_frcn e ≠ FCE_EMPTY ∧ fc_frcn e ≤ findcn) as Hx by (intros ->; split; [set_solver|lia]).
    destruct acc as [c|]; [|right; apply Hx; congruence]. destruct (fc_frcn c <? fc_frcn x); [right; apply Hx; congruence|by left]. }
  intros [|]%H; done.
Qed.

(** The cache after a slot was set. *)
Lemma cache_set fc l k frcn fsrcn : cache_ok fc l → (k < 3)%nat → slot_ok l (mkFc frcn fsrcn) → (k = FC_LASTFC → frcn + 1 = zlen l) → cache_ok (<[k := mkFc frcn fsrcn]> fc) l.
Proof.
  intros [Hs Hf Hl] Hk Hok Hlast. split; [by rewrite length_insert|by apply Forall_insert|]. unfold FC_SIZE in Hs. destruct (decide (k = FC_LASTFC)) as [->|Hne].
  - right. rewrite list_lookup_total_insert_eq by (unfold FC_LASTFC in *; lia). by apply Hlast.
  - rewrite list_lookup_total_insert_ne by done. done.
Qed.

(** What [pcbmap] does to a file: the volume stays, a slot of the cache is set. *)
Definition mapped (d : denode) (k : nat) (frcn fsrcn : Z) : denode := set_fc (<[k := mkFc frcn fsrcn]> (de_fc d)) d.

Lemma pcbmap_ok s d l findcn : volume pmp s → file_ok s d l → l ≠ [] → 0 ≤ findcn →
  match l !! Z.to_nat findcn with
  | Some c => pcbmap pmp findcn (s, d) = Ok ((0, (cntobn pmp c, c, pm_bpcluster pmp)), (s, mapped d FC_LASTMAP findcn c)) ∧ file_ok s (mapped d FC_LASTMAP findcn c) l
  | None => ∃ c, last l = Some c ∧ pcbmap pmp findcn (s, d) = Ok ((E2BIG, (0, zlen l, pm_bpcluster pmp)), (s, mapped d FC_LASTFC (zlen l - 1) c)) ∧ file_ok s (mapped d FC_LASTFC (zlen l - 1) c) l
  end.
Proof.
  intros Hv [Hch Hca] Hne Hf. pose proof (file_length _ _ _ Hch) as Hlen. pose proof Hch as [Hst Hr Hw]. destruct (Hw Hne) as (e & Hwalk & He).
  unfold pcbmap, get_node. rewrite (bind_Ok _ _ (s, d) d (s, d) eq_refl).
  assert (de_StartCluster d ≠ MSDOSFSROOT) as Hroot. { destruct l as [|x l]; [done|]. rewrite Hst. apply Forall_cons in Hr as [Hx _]. unfold in_range, CLUST_FIRST, MSDOSFSROOT in *. lia. }
  rewrite (proj2 (Z.eqb_neq _ _) Hroot).
  set (start := match fc_lookup findcn (de_fc d) with Some c => (fc_frcn c, fc_fsrcn c) | None => (0, de_StartCluster d) end).
  assert (∃ i cn, start = (i, cn) ∧ 0 ≤ i ≤ findcn ∧ l !! Z.to_nat i = Some cn) as (i & cn & -> & Hi & Hcn).
  { unfold start. destruct (fc_lookup findcn (de_fc d)) as [c|] eqn:E.
    - apply fc_lookup_in in E as (Hin & Hne' & Hle). exists (fc_frcn c), (fc_fsrcn c). split; [done|]. pose proof (co_slots _ _ Hca) as Hsl. rewrite Forall_forall in Hsl. destruct (Hsl c Hin) as [|[H0 H1]]; [done|]. split; [lia|done].
    - exists 0, (de_StartCluster d). split; [done|]. split; [lia|]. rewrite Hst. by destruct l. }
  cbv beta iota. pose proof (lookup_lt_Some _ _ _ Hcn) as Hilt. pose proof (walk_lookup _ _ _ _ _ _ Hwalk Hcn) as Hwd. pose proof (drop_S _ cn _ Hcn) as Hdrop.
  destruct (pcb_walk_ok s findcn Hv (S (Z.to_nat (findcn - i))) i 0 None (u64 (-1)) (drop (Z.to_nat i) l) e cn) as (hit & prev & Hrun & Hhit & Hprev); try done; [by apply Forall_drop|lia|lia|by rewrite Hdrop|].
  rewrite length_drop, drop_drop in *. replace (Z.to_nat i + Z.to_nat (findcn - i))%nat with (Z.to_nat findcn) in * by lia. replace (i + Z.of_nat (length l - Z.to_nat i)) with (zlen l) in * by lia.
  assert (stands (drop (Z.to_nat i) l) e = cn) as Hcn' by (by rewrite Hdrop). rewrite Hcn' in Hrun.
  erewrite bind_Ok by (unfold on_volume; rewrite Hrun; reflexivity). cbv beta iota.
  destruct (l !! Z.to_nat findcn) as [c|] eqn:Efind.
  - pose proof (lookup_lt_Some _ _ _ Efind) as Hlt. assert (in_range c) as Hcr by (rewrite Forall_lookup in Hr; by eapply Hr). rewrite (drop_S _ c _ Efind). change (stands (c :: _) e) with c. rewrite Z.min_l by lia.
    destruct (range_plain c Hcr) as (_ & -> & _). destruct hit; [specialize (Hhit eq_refl); lia|]. cbn [negb andb]. split; [done|]. split; [done|].
    apply cache_set; [done|unfold FC_LASTMAP; lia|right; simpl; split; [lia|done]|done].
  - apply lookup_ge_None in Efind. rewrite Z.min_r by lia. specialize (Hprev ltac:(lia)). rewrite (drop_ge l) by lia. change (stands [] e) with (canonical pmp e).
    destruct (eof_plain e He) as (_ & _ & -> & _). rewrite andb_false_r. assert (last l = Some prev) as Hlast.
    { rewrite <- (take_drop (Z.to_nat i) l), last_app, Hdrop. rewrite Hdrop in Hprev. change (last (0 :: cn :: drop (S (Z.to_nat i)) l)) with (last (cn :: drop (S (Z.to_nat i)) l)) in Hprev. by rewrite Hprev. }
    exists prev. split; [done|]. rewrite u64_id by (unfold FCE_EMPTY in *; lia). split; [done|]. split; [done|]. apply cache_set; [done|unfold FC_LASTFC; lia| |intros; lia].
    right. simpl. split; [lia|]. rewrite last_lookup in Hlast. rewrite <- Hlast. f_equal. lia.
Qed.

(** After a purge the slots agree with the file cut to [n] clusters. *)
Lemma fc_purge_ok s d l n : Forall (slot_ok l) (de_fc d) → 0 ≤ n ≤ FCE_EMPTY →
  ∃ d', fc_purge n (s, d) = Ok (tt, (s, d')) ∧ Forall (slot_ok (take (Z.to_nat n) l)) (de_fc d') ∧ de_StartCluster d' = de_StartCluster d.
Proof.
  intros Hs Hn. eexists. split; [done|]. split; [|done]. simpl. apply Forall_fmap. eapply Forall_impl; [exact Hs|]. intros e He. unfold compose. destruct (Z.leb_spec n (fc_frcn e)) as [Hle|Hlt]; [by left|].
  destruct He as [He|[H0 He]]; [lia|]. right. split; [done|]. rewrite lookup_take_lt by lia. done.
Qed.

End Chain.
