(* ===== verification/FatExtend.v ===== *)
(** [extendfile] appends free clusters to a file. *)

From S2P Require Import Prelude Errors Fat FatTable FatEntry FatMap FatAlloc FatFree FatFill FatFile FatChain.
From Stdlib Require Import ZifyBool.

(** The clusters lie behind the copies of the table and are made of whole sectors. *)
Record data_ok (g : geometry) : Prop := {
  dg_first : pm_fatblk g + pm_FATs g * pm_FATsecs g ≤ pm_firstcluster g < 2 ^ 42;
  dg_bnshift : pm_bnshift g = 9;
  dg_cnshift : 9 ≤ pm_cnshift g ≤ 24;
  dg_bpcluster : pm_bpcluster g = 2 ^ pm_cnshift g;
  dg_first_div : (pm_BlkPerSec g | pm_firstcluster g);
  dg_cluster_div : (pm_BlkPerSec g | 2 ^ (pm_cnshift g - 9))
}.

Section Extend.
Context (pmp : geometry) (G : geometry_ok pmp) (D : data_ok pmp).

Notation max := (pm_maxcluster pmp).
Notation entry := (entry pmp).
Notation in_range := (in_range pmp).

(** ** The bytes of a cluster *)

Definition cluster_base (x : Z) : Z := pm_firstcluster pmp * 512 + (x - 2) * pm_bpcluster pmp.

Definition in_cluster (x a : Z) : Prop := cluster_base x ≤ a < cluster_base x + pm_bpcluster pmp.

Lemma bpcluster_sum : pm_bpcluster pmp = 2 ^ (pm_cnshift pmp - 9) * 512 ∧ 0 < 2 ^ (pm_cnshift pmp - 9) ≤ 2 ^ 15.
Proof.
  destruct D as [_ _ Hs Hb _ _]. rewrite Hb. split; [change 512 with (2 ^ 9); rewrite <- Z.pow_add_r by lia; f_equal; lia|]. split; [apply Z.pow_pos_nonneg; lia|]. apply Z.pow_le_mono_r; lia.
Qed.

Lemma cntobn_address x : in_range x → block_address pmp (cntobn pmp x) = cluster_base x.
Proof.
  intros Hx. unfold FatChain.in_range, CLUST_FIRST in Hx. pose proof (max_range pmp G) as Hm. pose proof D as [Hf Hbn Hs Hb Hd1 Hd2]. destruct bpcluster_sum as [Hbp Hk]. set (k := 2 ^ (pm_cnshift pmp - 9)) in *.
  pose proof G as [_ Hsec _ Hbs _ _ _ _ Hsecs Hblk Hcur Hfats _ _]. assert (0 ≤ pm_firstcluster pmp) by nia.
  assert (cntobn pmp x = (x - 2) * k + pm_firstcluster pmp) as ->.
  { unfold cntobn, de_cn2bn, CLUST_FIRST. rewrite (u64_id (x - 2)) by lia. rewrite Hbn, Z.shiftl_mul_pow2 by lia. fold k. rewrite (u64_id (_ * k)) by nia. apply u64_id. nia. }
  unfold block_address, BLOCK_TO_SECTOR, cluster_base. rewrite Hsec. unfold DEV_BSIZE. assert (pm_BlkPerSec pmp | (x - 2) * k + pm_firstcluster pmp) as [c Hc] by (apply Z.divide_add_r; [by apply Z.divide_mul_r|done]).
  rewrite Hc. replace (c * pm_BlkPerSec pmp * 512) with (c * (pm_BlkPerSec pmp * 512)) by lia. rewrite Z.div_mul by lia. lia.
Qed.

Lemma cluster_not_fat x a : in_range x → in_cluster x a → ¬ in_fats pmp a.
Proof.
  intros Hx Ha (k & y & Hk & Hy & ->). unfold in_cluster, cluster_base, FatChain.in_range, CLUST_FIRST, fat_base, fat_size, DEV_BSIZE in *. pose proof D as [Hf _ _ _ _ _]. destruct bpcluster_sum as [Hbp Hp].
  pose proof (g_secs pmp G). nia.
Qed.

Lemma clusters_apart x y a : x ≠ y → in_cluster x a → ¬ in_cluster y a.
Proof. intros Hne Hx Hy. unfold in_cluster, cluster_base in *. destruct bpcluster_sum as [Hbp Hp]. nia. Qed.

(** The clusters [xs] have been filled with zeros. *)
Record cleared (s s' : msdosfsmount) (xs : list Z) : Prop := {
  cl_state : s' = set_dev (dev s') s;
  cl_bytes : bytes (dev s');
  cl_zero : ∀ x a, x ∈ xs → in_cluster x a → dev s' a = 0;
  cl_frame : ∀ a, (∀ x, x ∈ xs → ¬ in_cluster x a) → dev s' a = dev s a
}.

Lemma cleared_table s s' xs : cleared s s' xs → Forall in_range xs → ∀ k x, 0 ≤ k < pm_FATs pmp → 0 ≤ x < fat_size pmp → tab pmp (dev s') k x = tab pmp (dev s) k x.
Proof. intros Hc Hr k x Hk Hx. apply (cl_frame _ _ _ Hc). intros y Hy Hin. rewrite Forall_forall in Hr. eapply cluster_not_fat; [by apply Hr|exact Hin|]. by exists k, x. Qed.

Lemma cleared_entry s s' xs cn : cleared s s' xs → Forall in_range xs → 0 ≤ cn ≤ max → entry s' cn = entry s cn.
Proof.
  intros Hc Hr Hcn. apply ent_ext. intros x Hx. destruct (ofs_in_table pmp G cn Hcn). apply (cleared_table s s' xs); [done|done|apply (g_cur pmp G)|lia].
Qed.

Lemma cleared_volume s s' xs : cleared s s' xs → Forall in_range xs → volume pmp s → volume pmp s'.
Proof.
  intros Hc Hr [He Hb Hm]. pose proof (cl_state _ _ _ Hc) as Heq. pose proof (cleared_table s s' xs Hc Hr) as Htab.
  split; [by rewrite Heq|apply (cl_bytes _ _ _ Hc)|]. intros Hmi. rewrite Heq in Hmi. destruct (Hm Hmi) as [Hz Hag]. split; [done|]. intros k x Hk Hx Hcl. pose proof (g_cur pmp G). rewrite !Htab by (done || lia). by apply Hag.
Qed.

Lemma cleared_inv s s' xs : cleared s s' xs → Forall in_range xs → fat_inv pmp s → fat_inv pmp s'.
Proof.
  intros Hc Hr [Hv [Ml Mw Mt Mc] Hrw Hu [H0 H1] Hn]. pose proof (max_range pmp G). pose proof (cl_state _ _ _ Hc) as Heq. pose proof (cleared_entry s s' xs) as Hent.
  assert (∀ c, inuse s' c = inuse s c) as Hin by (intros c; by rewrite Heq). split.
  - by apply (cleared_volume s s' xs).
  - rewrite Heq. by split.
  - by rewrite Heq.
  - intros cn Hcn. rewrite Hin, Hent by done. by apply Hu.
  - rewrite !Hent by (done || lia). done.
  - by rewrite Heq.
Qed.

Lemma clear_dir_ok s x : volume pmp s → in_range x →
  clear_dir pmp x s = Ok (zero_buf pmp (cntobn pmp x), s) ∧ ∃ s', bdwrite pmp (zero_buf pmp (cntobn pmp x)) s = Ok (tt, s') ∧ cleared s s' [x].
Proof.
  intros [He Hb _] Hx. unfold clear_dir. rewrite (bind_Ok _ _ _ _ _ (next_err_none s He)). split; [done|]. unfold bdwrite, modifyS. cbv beta.
  eexists. split; [reflexivity|]. simpl b_blkno. rewrite cntobn_address by done. split; simpl; [done| | |].
  - intros a. case_match; [lia|apply Hb].
  - intros y a Hy Ha. assert (y = x) as -> by set_solver. unfold in_cluster in Ha. rewrite (proj2 (Z.leb_le 0 _)), (proj2 (Z.ltb_lt _ _)) by lia. done.
  - intros a Ha. specialize (Ha x ltac:(set_solver)). unfold in_cluster in Ha. destruct ((0 <=? a - cluster_base x) && (a - cluster_base x <? pm_bpcluster pmp)) eqn:E; [lia|done].
Qed.

Lemma clear_clusters_dir n : ∀ cn frcn s d, volume pmp s → is_directory d = true → (∀ x, cn ≤ x < cn + Z.of_nat n → in_range x) →
  ∃ s', clear_clusters pmp n cn frcn None (s, d) = Ok (None, (s', d)) ∧ cleared s s' (seqZ cn (Z.of_nat n)).
Proof.
  induction n as [|n IH]; intros cn frcn s d Hv Hd Hr; cbn [clear_clusters].
  - exists s. split; [done|]. split; [by destruct s|apply Hv|intros x a Hx%elem_of_seqZ; lia|done].
  - unfold get_node. rewrite (bind_Ok _ _ (s, d) d (s, d) eq_refl), Hd. destruct (clear_dir_ok s cn Hv) as (Hget & s1 & Hrun & Hc1); [apply Hr; lia|].
    assert (Forall in_range [cn]) as Hr1 by (constructor; [apply Hr; lia|constructor]).
    erewrite bind_Ok by (unfold on_volume; rewrite Hget; reflexivity). rewrite bind_assoc.
    erewrite bind_Ok by (unfold on_volume; rewrite Hrun; reflexivity). rewrite bind_ret. destruct (IH (cn + 1) (frcn + 1) s1 d) as (s' & Hrun' & Hc2); [by apply (cleared_volume s s1 [cn])|done|intros x Hx; apply Hr; lia|].
    exists s'. split; [done|]. destruct Hc1 as [E1 B1 Z1 F1], Hc2 as [E2 B2 Z2 F2]. split.
    + rewrite E2. by rewrite E1.
    + done.
    + intros x a Hx%elem_of_seqZ Ha. destruct (decide (x = cn)) as [->|Hne]; [|apply (Z2 x); [apply elem_of_seqZ; lia|done]]. rewrite F2; [by apply (Z1 cn); [set_solver|]|].
      intros y Hy%elem_of_seqZ. apply (clusters_apart cn); [lia|done].
    + intros a Ha. rewrite F2 by (intros x Hx%elem_of_seqZ; apply Ha, elem_of_seqZ; lia). apply F1. intros x Hx. assert (x = cn) as -> by set_solver. apply Ha, elem_of_seqZ. lia.
Qed.

(** A file with the same clusters and the same last slot of the cache. *)
Definition same_file (d d' : denode) : Prop :=
  de_StartCluster d' = de_StartCluster d ∧ de_Attributes d' = de_Attributes d ∧ de_FileSize d' = de_FileSize d ∧ de_fc d' !!! FC_LASTFC = de_fc d !!! FC_LASTFC.

Lemma mapped_same d findcn c : same_file d (mapped d FC_LASTMAP findcn c).
Proof. split; [done|]. split; [done|]. split; [done|]. simpl. by rewrite list_lookup_total_insert_ne. Qed.

Lemma clear_clusters_file n : ∀ cn frcn s d l, volume pmp s → file_ok pmp s d l → is_directory d = false → 0 ≤ frcn → frcn + Z.of_nat n ≤ zlen l →
  ∃ d', clear_clusters pmp n cn frcn None (s, d) = Ok (None, (s, d')) ∧ file_ok pmp s d' l ∧ same_file d d'.
Proof.
  induction n as [|n IH]; intros cn frcn s d l Hv Hok Hd Hf Hle; cbn [clear_clusters].
  - exists d. done.
  - unfold get_node. rewrite (bind_Ok _ _ (s, d) d (s, d) eq_refl), Hd.
    destruct (lookup_lt_is_Some_2 l (Z.to_nat frcn)) as [c Hc]; [lia|]. assert (l ≠ []) as Hne by (by intros ->).
    pose proof (pcbmap_ok pmp G s d l frcn Hv Hok Hne Hf) as H1. rewrite Hc in H1. destruct H1 as [H1 Hok1]. set (d1 := mapped d FC_LASTMAP frcn c) in *.
    pose proof (pcbmap_ok pmp G s d1 l frcn Hv Hok1 Hne Hf) as H2. rewrite Hc in H2. destruct H2 as [H2 Hok2]. set (d2 := mapped d1 FC_LASTMAP frcn c) in *.
    assert (clear_file pmp frcn (s, d) = Ok (zero_buf pmp (cntobn pmp c), (s, d2))) as Hcf.
    { unfold clear_file, msdosfs_bmap. rewrite bind_assoc, (bind_Ok _ _ _ _ _ H1). cbv beta iota. rewrite bind_ret. erewrite bind_Ok by (unfold on_volume; rewrite (next_err_none s (v_errs _ _ Hv)); reflexivity).
      change (negb (0 =? 0)) with false. cbv iota. rewrite (bind_Ok _ _ _ _ _ H2). done. }
    rewrite (bind_Ok _ _ _ _ _ Hcf), bind_assoc, !bind_ret. destruct (IH (cn + 1) (frcn + 1) s d2 l) as (d' & -> & Hok' & Hsame); [done|done|done|lia|lia|].
    exists d'. split; [done|]. split; [done|]. destruct Hsame as (S1 & S2 & S3 & S4). destruct (mapped_same d frcn c) as (M1 & M2 & M3 & M4), (mapped_same d1 frcn c) as (N1 & N2 & N3 & N4).
    split; [by rewrite S1|]. split; [by rewrite S2|]. split; [by rewrite S3|]. rewrite S4. fold d2 in N4. rewrite N4. done.
Qed.

(** ** Appending a run *)

Lemma fat_inv_reentered s s' e : fat_inv pmp s → reentered pmp s s' e → (∀ cn, 0 ≤ cn ≤ max → e cn = CLUST_FREE ↔ entry s cn = CLUST_FREE) → fat_inv pmp s'.
Proof.
  intros [Hv [Ml Mw Mt Mc] Hrw Hu [H0 H1] Hn] (Hv' & Heq & He & _) Hiff. pose proof (max_range pmp G).
  assert (∀ cn, 0 ≤ cn ≤ max → entry s' cn = CLUST_FREE ↔ entry s cn = CLUST_FREE) as Hi by (intros cn Hcn; rewrite He by done; by apply Hiff).
  split; [done|rewrite Heq; by split|by rewrite Heq| | |by rewrite Heq].
  - intros cn Hcn. replace (inuse s' cn) with (inuse s cn) by (by rewrite Heq). rewrite Hu by done. specialize (Hi cn Hcn). destruct (Z.eqb_spec (entry s cn) CLUST_FREE), (Z.eqb_spec (entry s' cn) CLUST_FREE); tauto || done.
  - pose proof (Hi 0 ltac:(lia)). pose proof (Hi 1 ltac:(lia)). unfold CLUST_FREE in *. tauto.
Qed.

(** A run that was allocated is a chain. *)
Lemma run_walk f a n e : 0 < n → (∀ i, a ≤ i < a + n → f i = if decide (i + 1 = a + n) then e else i + 1) → walk f a (seqZ a n) e.
Proof.
  intros Hn. assert (∀ k a, (∀ i, a ≤ i < a + Z.of_nat (S k) → f i = if decide (i + 1 = a + Z.of_nat (S k)) then e else i + 1) → walk f a (seqZ a (Z.of_nat (S k))) e) as H.
  { clear. induction k as [|k IH]; intros a Hf.
    - rewrite seqZ_cons, seqZ_nil by lia. constructor. rewrite Hf, decide_True by lia. constructor.
    - rewrite seqZ_cons by lia. constructor. rewrite Hf, decide_False by lia. rewrite <- Z.add_1_r. replace (Z.pred (Z.of_nat (S (S k)))) with (Z.of_nat (S k)) by lia. apply IH.
      intros i Hi. rewrite Hf by lia. repeat case_decide; done || lia. }
  intros Hf. specialize (H (Z.to_nat (n - 1)) a). replace (Z.of_nat (S (Z.to_nat (n - 1)))) with n in H by lia. by apply H.
Qed.

(** The last cluster of a file gets another successor. *)
Lemma relink f f' c l x e e' : walk f c l e → last l = Some x → NoDup l → f' x = e' → (∀ y, y ∈ l → y ≠ x → f' y = f y) → walk f' c l e'.
Proof.
  intros Hw Hx Hn He Hf. apply last_Some in Hx as (l0 & ->). apply walk_snoc in Hw as [Hw _]. apply NoDup_app in Hn as (_ & Hnx & _).
  apply (walk_app f' c l0 x [x] e'); [|constructor; rewrite He; constructor]. apply (walk_ext f); [done|]. intros y Hy. apply Hf; [set_solver|]. intros ->. by apply (Hnx x Hy), list_elem_of_singleton.
Qed.

(** The clusters [new] were free and have been appended to [l]; [zero] says that their bytes
    are zero. *)
Record extended (s s' : msdosfsmount) (l new : list Z) (zero : bool) : Prop := {
  ex_free : ∀ x, x ∈ new → in_range x ∧ entry s x = CLUST_FREE;
  ex_entries : ∀ cn, 0 ≤ cn ≤ max → cn ∉ new → last l ≠ Some cn → entry s' cn = entry s cn;
  ex_count : pm_freeclustercount s' = pm_freeclustercount s - zlen new;
  ex_lock : pm_fatlock s' = pm_fatlock s;
  ex_frame : ∀ a, ¬ in_fats pmp a → (∀ x, x ∈ new → ¬ in_cluster x a) → dev s' a = dev s a;
  ex_zero : zero = true → ∀ x a, x ∈ new → in_cluster x a → dev s' a = 0
}.

Lemma eofe_is_eof : is_eof pmp (Z.land CLUST_EOFE (pm_fatmask pmp)).
Proof. unfold is_eof, MSDOSFSEOF, fatmask_not. destruct (g_type pmp G) as [E|E|E]; rewrite E; by vm_compute. Qed.

Lemma run_range s c n : fat_inv pmp s → free_run pmp s c n → ∀ x, x ∈ seqZ c n → in_range x ∧ entry s x = CLUST_FREE.
Proof.
  intros HI (Hc & Hn & Hf) x Hx%elem_of_seqZ. destruct (Hf x Hx) as [Hm He]. split; [|done]. destruct (fi_first _ _ HI) as [H0 H1]. unfold FatChain.in_range, CLUST_FIRST, CLUST_FREE in *.
  assert (x ≠ 0 ∧ x ≠ 1) by (split; intros ->; done). lia.
Qed.

(** A new run starts a file that had no clusters. *)
Lemma first_run s s1 c n : fat_inv pmp s → 0 < n → free_run pmp s c n → allocated pmp s s1 c n CLUST_EOFE → file_chain pmp s1 c (seqZ c n) ∧ extended s s1 [] (seqZ c n) false.
Proof.
  intros HI Hn Hfr Ha. pose proof (run_range s c n HI Hfr) as Hr. pose proof Ha as [_ He Hc Hl _ Hf]. split.
  - split.
    + by rewrite seqZ_cons.
    + apply Forall_forall. intros x Hx. by apply Hr.
    + intros _. eexists. split; [|apply eofe_is_eof]. apply run_walk; [done|]. intros i Hi. destruct (Hr i) as [Hi' _]; [by apply elem_of_seqZ|]. unfold FatChain.in_range, CLUST_FIRST in Hi'. rewrite He, decide_True by lia. done.
  - split; [done| |by rewrite Hc, length_seqZ, Z2Nat.id by lia|done|intros a Hna _; by apply Hf|done].
    intros cn Hcn Hin _. rewrite He by done. rewrite decide_False; [done|]. intros Hx. by apply Hin, elem_of_seqZ.
Qed.

(** A new run is linked behind the last cluster. *)
Lemma next_run s s1 s2 c0 l x c n : fat_inv pmp s → file_chain pmp s c0 l → last l = Some x → 0 < n → free_run pmp s c n → allocated pmp s s1 c n CLUST_EOFE →
  reentered pmp s1 s2 (λ i, if decide (i = x) then Z.land c (pm_fatmask pmp) else entry s1 i) →
  fat_inv pmp s2 ∧ file_chain pmp s2 c0 (l ++ seqZ c n) ∧ extended s s2 l (seqZ c n) false.
Proof.
  intros HI Hch Hx Hn Hfr Ha Hre. pose proof (run_range s c n HI Hfr) as Hr. pose proof Ha as [HI1 He Hc Hlk _ Hf]. pose proof Hch as [Hst Hrg Hw]. pose proof Hre as (_ & Heq & He2 & Hf2).
  assert (x ∈ l) as Hxl by (apply last_Some in Hx as (l0 & ->); set_solver). assert (∀ y, y ∈ l → in_range y ∧ ¬ (c ≤ y < c + n)) as Hapart.
  { intros y Hy. split; [rewrite Forall_forall in Hrg; by apply Hrg|]. intros Hin. apply (file_used pmp G s c0 l y Hch Hy). by apply Hr, elem_of_seqZ. }
  destruct (Hapart x Hxl) as [Hxr Hxn]. destruct (Hr c) as [Hcr _]; [apply elem_of_seqZ; lia|]. unfold FatChain.in_range, CLUST_FIRST in Hxr, Hcr.
  assert (Z.land c (pm_fatmask pmp) = c) as Hlc by (apply (land_cluster pmp G); lia). rewrite Hlc in *.
  assert (∀ i, 0 ≤ i ≤ max → entry s2 i = if decide (i = x) then c else if decide (c ≤ i < c + n) then (if decide (i + 1 = c + n) then Z.land CLUST_EOFE (pm_fatmask pmp) else i + 1) else entry s i) as Hent.
  { intros i Hi. rewrite He2 by done. case_decide; [done|]. by apply He. }
  split; [|split].
  - apply (fat_inv_reentered s1 s2 _ HI1 Hre). intros i Hi. simpl. case_decide as E; [|done]. subst i. rewrite He, decide_False by (done || lia). pose proof (file_used pmp G s c0 l x Hch Hxl). unfold CLUST_FREE in *. split; [lia|done].
  - split.
    + rewrite Hst. by destruct l.
    + apply Forall_app. split; [done|]. apply Forall_forall. intros y Hy. by apply Hr.
    + intros _. destruct (Hw ltac:(intros ->; done)) as (e & Hwalk & _). eexists. split; [|apply eofe_is_eof]. apply (walk_app _ _ _ c).
      * apply (relink (entry s) (entry s2) c0 l x e c Hwalk Hx (file_NoDup pmp G s c0 l Hch)); [by rewrite Hent, decide_True by lia|].
        intros y Hy Hne. destruct (Hapart y Hy) as [Hyr Hyn]. unfold FatChain.in_range, CLUST_FIRST in Hyr. rewrite Hent, !decide_False by (done || lia). done.
      * apply run_walk; [done|]. intros i Hi. destruct (Hr i) as [Hi' _]; [by apply elem_of_seqZ|]. unfold FatChain.in_range, CLUST_FIRST in Hi'. rewrite Hent by lia. rewrite decide_False by (intros ->; done). by rewrite decide_True.
  - split; [done| | | | |done].
    + intros cn Hcn Hin Hlast. rewrite Hent by done. rewrite decide_False by congruence. rewrite decide_False; [done|]. intros Hi. by apply Hin, elem_of_seqZ.
    + rewrite Heq. simpl. by rewrite Hc, length_seqZ, Z2Nat.id by lia.
    + rewrite Heq. done.
    + intros a Hna _. rewrite Hf2 by done. by apply Hf.
Qed.

(** ** The loop *)

(** The slot for the last cluster is filled when there is one. *)
Definition last_cached (d : denode) (l : list Z) : Prop :=
  l ≠ [] → ∃ x, last l = Some x ∧ de_fc d !!! FC_LASTFC = mkFc (zlen l - 1) x.

Lemma start_zero s d l : file_chain pmp s (de_StartCluster d) l → de_StartCluster d = 0 ↔ l = [].
Proof.
  intros [Hs Hr _]. destruct l as [|x l]; [done|]. rewrite Hs. apply Forall_cons in Hr as [Hx _]. unfold FatChain.in_range, CLUST_FIRST in Hx. split; [lia|done].
Qed.

(** Linking the new run, and the number of its first cluster in the file. *)
Lemma link_ok s s1 d l c n : fat_inv pmp s → file_ok pmp s d l → last_cached d l → 0 < n → free_run pmp s c n → allocated pmp s s1 c n CLUST_EOFE →
  ∃ s2 d2, (if de_StartCluster d =? 0 then set_node (set_StartCluster c);; mret (inr 0)
     else
       '(error, _) ← on_volume (fatentry pmp FAT_SET (fc_fsrcn (de_fc d !!! FC_LASTFC)) c);
       if negb (error =? 0) then on_volume (clusterfree pmp c);; mret (inl error)
       else mret (inr (u64 (fc_frcn (de_fc d !!! FC_LASTFC) + 1)))) (s1, d) = Ok (inr (zlen l), (s2, d2)) ∧
    fat_inv pmp s2 ∧ file_chain pmp s2 (de_StartCluster d2) (l ++ seqZ c n) ∧ extended s s2 l (seqZ c n) false ∧
    de_fc d2 = de_fc d ∧ de_Attributes d2 = de_Attributes d.
Proof.
  intros HI [Hch Hca] Hlc Hn Hfr Ha. pose proof (start_zero s d l Hch) as Hz. destruct (Z.eqb_spec (de_StartCluster d) 0) as [E|E].
  - apply Hz in E. subst l. destruct (first_run s s1 c n HI Hn Hfr Ha) as [Hc Hx]. exists s1, (set_StartCluster c d). split; [done|]. split; [apply Ha|]. done.
  - assert (l ≠ []) as Hne by (by intros ->; apply E, Hz). destruct (Hlc Hne) as (x & Hx & ->). simpl fc_fsrcn. simpl fc_frcn.
    assert (x ∈ l) as Hxl by (apply last_Some in Hx as (l0 & ->); set_solver). pose proof (fch_range _ _ _ _ Hch) as Hr. rewrite Forall_forall in Hr. specialize (Hr x Hxl).
    destruct (fatentry_set pmp G FAT_SET s1 x c) as (s2 & Hrun & Hre); [apply (fi_vol _ _ (al_inv _ _ _ _ _ _ Ha))|exact Hr|by left|].
    destruct (next_run s s1 s2 (de_StartCluster d) l x c n HI Hch Hx Hn Hfr Ha Hre) as (HI2 & Hc2 & Hx2). exists s2, d. split.
    + erewrite bind_Ok by (unfold on_volume; rewrite Hrun; reflexivity). cbv beta iota. change (negb (0 =? 0)) with false. cbv iota. mrun. do 3 f_equal.
      pose proof (file_length pmp G s _ l Hch). unfold FCE_EMPTY in *. rewrite u64_id by lia. lia.
    + done.
Qed.

Lemma slot_ok_app l new e : slot_ok l e → slot_ok (l ++ new) e.
Proof. intros [H|[H0 H]]; [by left|right]. split; [done|]. by apply lookup_app_l_Some. Qed.

(** The cache after the run was appended. *)
Lemma cache_append fc l new x : cache_ok fc l → last new = Some x → cache_ok (<[FC_LASTFC := mkFc (zlen (l ++ new) - 1) x]> fc) (l ++ new).
Proof.
  intros [Hs Hf Hl] Hx. assert (last (l ++ new) = Some x) as Hlast by (rewrite last_app, Hx; done). assert (0 < zlen (l ++ new)) as Hpos by (destruct (l ++ new); [done|simpl; lia]).
  unfold FC_SIZE in Hs. split; [by rewrite length_insert|apply Forall_insert|].
  - eapply Forall_impl; [exact Hf|]. intros e. apply slot_ok_app.
  - right. simpl. split; [lia|]. rewrite <- Hlast, last_lookup. f_equal. lia.
  - right. rewrite list_lookup_total_insert_eq by (unfold FC_LASTFC; lia). simpl. lia.
Qed.

Lemma cleared_chain s s' xs c l : cleared s s' xs → Forall in_range xs → file_chain pmp s c l → file_chain pmp s' c l.
Proof.
  intros Hcl Hr [Hs Hl Hw]. split; [done|done|]. intros Hne. destruct (Hw Hne) as (e & Hwalk & He). exists e. split; [|done]. apply (walk_ext (entry s)); [done|].
  intros x Hx. rewrite Forall_forall in Hl. specialize (Hl x Hx). unfold FatChain.in_range, CLUST_FIRST in Hl. apply (cleared_entry s s' xs); [done|done|lia].
Qed.

(** Clearing the run, of a directory or of a file. *)
Lemma clear_ok s s2 d l c n flags : fat_inv pmp s2 → file_ok pmp s2 d (l ++ seqZ c n) → 0 ≤ n → (∀ x, x ∈ seqZ c n → in_range x) → extended s s2 l (seqZ c n) false →
  ∃ s3 d3, (if negb (Z.land flags DE_CLEAR =? 0) then clear_clusters pmp (Z.to_nat n) c (zlen l) None else mret None) (s2, d) = Ok (None, (s3, d3)) ∧
    fat_inv pmp s3 ∧ file_ok pmp s3 d3 (l ++ seqZ c n) ∧ same_file d d3 ∧ extended s s3 l (seqZ c n) (negb (Z.land flags DE_CLEAR =? 0) && is_directory d).
Proof.
  intros HI Hok Hn Hr Hex. destruct (negb (Z.land flags DE_CLEAR =? 0)); [|by exists s2, d]. destruct (is_directory d) eqn:Ed.
  - destruct (clear_clusters_dir (Z.to_nat n) c (zlen l) s2 d) as (s3 & Hrun & Hcl); [apply HI|done|intros x Hx; apply Hr, elem_of_seqZ; lia|]. rewrite Z2Nat.id in Hcl by done.
    assert (Forall in_range (seqZ c n)) as Hf by by apply Forall_forall. exists s3, d. split; [done|]. split; [by apply (cleared_inv s2 s3 _ Hcl)|]. split; [split; [by apply (cleared_chain s2 s3 _ _ _ Hcl); [|apply Hok]|apply Hok]|]. split; [done|].
    destruct Hex as [X1 X2 X3 X4 X5 _]. pose proof Hcl as [E1 _ E3 E4]. split; [done| | | | |intros _; exact E3].
    + intros cn Hcn Hin Hla. rewrite (cleared_entry s2 s3 _ cn Hcl Hf Hcn). by apply X2.
    + by rewrite E1.
    + by rewrite E1.
    + intros a Ha Hx. rewrite E4 by done. by apply X5.
  - destruct (clear_clusters_file (Z.to_nat n) c (zlen l) s2 d (l ++ seqZ c n)) as (d3 & Hrun & Hok3 & Hsame); [apply HI|done|done|lia|rewrite length_app, length_seqZ; lia|].
    exists s2, d3. split; [done|]. split; [done|]. split; [done|]. split; [done|]. exact Hex.
Qed.

(** Two runs in a row. *)
Lemma extended_trans s s1 s2 l new1 new2 c z : file_chain pmp s1 c (l ++ new1) → new1 ≠ [] → extended s s1 l new1 z → extended s1 s2 (l ++ new1) new2 z → extended s s2 l (new1 ++ new2) z.
Proof.
  intros Hch Hne [X1 X2 X3 X4 X5 X6] [Y1 Y2 Y3 Y4 Y5 Y6].
  assert (∀ x, last (l ++ new1) = Some x → x ∈ new1) as Hlast. { intros x. rewrite last_app. destruct (last new1) eqn:E; [intros [= <-]|by apply last_None in E]. apply last_Some in E as (l0 & ->). set_solver. }
  assert (∀ x, x ∈ l ++ new1 → x ∉ new2) as Hapart by (intros x Hx Hx2; apply (file_used pmp G s1 c (l ++ new1) x Hch Hx); by apply Y1).
  split.
  - intros x [Hx|Hx]%elem_of_app; [by apply X1|]. destruct (Y1 x Hx) as [Hr He]. split; [done|]. rewrite <- He. symmetry. unfold FatChain.in_range, CLUST_FIRST in Hr. apply X2; [lia|intros Hin; apply (Hapart x); [set_solver|done]|].
    intros Hl. apply (Hapart x); [|done]. apply elem_of_app. left. apply last_Some in Hl as (l0 & ->). set_solver.
  - intros cn Hcn Hin Hl. rewrite Y2; [apply X2; [done|set_solver|done]|done|set_solver|]. intros Hx. apply Hlast in Hx. set_solver.
  - rewrite Y3, X3, length_app. lia.
  - by rewrite Y4.
  - intros a Ha Hx. rewrite Y5; [apply X5; [done|]|done|]; intros x Hx'; apply Hx; set_solver.
  - intros Hz x a [Hx|Hx]%elem_of_app Ha; [|by apply (Y6 Hz x)]. rewrite Y5; [by apply (X6 Hz x)|by apply (cluster_not_fat x); [apply X1|]|].
    intros y Hy. apply (clusters_apart x); [|done]. intros ->. apply (Hapart y); [set_solver|done].
Qed.

(** What appending ends with. *)
Definition extend_result (s : msdosfsmount) (new : list Z) (count r : Z) : Prop :=
  (r = 0 ∧ zlen new = count) ∨ (r = ENOSPC ∧ zlen new = pm_freeclustercount s ∧ pm_freeclustercount s < count).

Lemma no_free_count s : fat_inv pmp s → (∀ c, ¬ free_run pmp s c 1) → pm_freeclustercount s = 0.
Proof.
  intros HI Hno. pose proof (max_range pmp G). rewrite (m_count _ _ (fi_map _ _ HI)). apply free_number_all. intros c Hc. rewrite (fi_use _ _ HI) by lia. apply negb_true_iff, Z.eqb_neq. intros He.
  apply (Hno c). split; [lia|]. split; [lia|]. intros i Hi. replace i with c by lia. split; [lia|done].
Qed.

Lemma extended_nil s l z : extended s s l [] z.
Proof. split; try done; [intros x Hx; by apply elem_of_nil in Hx|simpl; lia|intros _ x a Hx; by apply elem_of_nil in Hx]. Qed.

Lemma extend_loop_ok flags : ∀ fuel count nc s d l,
  fat_inv pmp s → 0 ≤ pm_fatlock s → file_ok pmp s d l → last_cached d l → 0 ≤ count < 2 ^ 31 → (Z.to_nat count < fuel)%nat →
  ∃ r s' d' new, extend_loop pmp fuel count flags None nc (s, d) = Ok ((r, None, match nc with Some c => Some c | None => head new end), (s', d')) ∧ fat_inv pmp s' ∧ file_ok pmp s' d' (l ++ new) ∧
    extended s s' l new (negb (Z.land flags DE_CLEAR =? 0) && is_directory d) ∧ extend_result s new count r.
Proof.
  induction fuel as [|fuel IH]; intros count nc s d l HI Hl Hok Hlc Hcount Hfuel; [lia|]. cbn [extend_loop]. destruct (Z.eqb_spec count 0) as [->|Hne].
  { mrun. exists 0, s, d, []. rewrite app_nil_r. split; [by destruct nc|]. split; [done|]. split; [done|]. split; [apply extended_nil|by left]. }
  unfold get_node. rewrite (bind_Ok _ _ (s, d) d (s, d) eq_refl). set (cn := if de_StartCluster d =? 0 then 0 else _).
  assert (0 ≤ cn ≤ max + 1) as Hcn.
  { unfold cn. pose proof (max_range pmp G). destruct (Z.eqb_spec (de_StartCluster d) 0) as [E|E]; [lia|]. destruct Hok as [Hch _]. destruct Hlc as (x & Hx & ->). { intros ->. by apply E, (start_zero s d [] Hch). }
    pose proof (fch_range _ _ _ _ Hch) as Hr. rewrite Forall_forall in Hr. specialize (Hr x). unfold FatChain.in_range, CLUST_FIRST in Hr. simpl. destruct Hr; [apply last_Some in Hx as (l0 & ->); set_solver|]. rewrite u64_id by lia. lia. }
  destruct (clusteralloc_ok pmp G s cn count CLUST_EOFE) as (r & s1 & Hrun & Hspec); [done|done|lia|done|by destruct (eof_plain pmp G _ eofe_is_eof) as (_ & _ & _ & _ & H0)|].
  erewrite bind_Ok by (unfold on_volume; rewrite Hrun; reflexivity). destruct Hspec as [(-> & -> & Hno)|(c & n & -> & Hn & Hfr & Ha & _)].
  { cbv beta iota. change (negb (ENOSPC =? 0)) with true. cbv iota. mrun. pose proof (no_free_count s HI Hno) as H0. exists ENOSPC, s, d, []. rewrite app_nil_r. split; [by destruct nc|]. split; [done|]. split; [done|].
    split; [apply extended_nil|]. right. rewrite H0. split; [done|]. split; [done|lia]. }
  cbv beta iota. change (negb (0 =? 0)) with false. cbv iota zeta. destruct (link_ok s s1 d l c n) as (s2 & d2 & Hlink & HI2 & Hch2 & Hex2 & Hfc2 & Hat2); [done|done|done|lia|done|done|].
  rewrite (bind_Ok _ _ _ _ _ Hlink). cbv beta iota. set (new := seqZ c n) in *. pose proof (run_range s c n HI Hfr) as Hrr. fold new in Hrr.
  assert (zlen new = n) as Hzn by (unfold new; rewrite length_seqZ, Z2Nat.id by lia; done). assert (last new = Some (c + n - 1)) as Hlast.
  { unfold new. rewrite last_lookup, length_seqZ. rewrite lookup_seqZ_lt by lia. f_equal. lia. }
  pose proof (file_length pmp G s2 _ _ Hch2) as Hlen. rewrite length_app in Hlen. unfold FCE_EMPTY in Hlen. pose proof (max_range pmp G) as Hmr.
  assert (c + n - 1 ≤ max ∧ 0 ≤ c) as Hcb by (destruct Hfr as (? & ? & Hf); destruct (Hf (c + n - 1)); lia).
  replace (u64 (zlen l + n - 1)) with (zlen (l ++ new) - 1) by (rewrite length_app, u64_id by lia; lia). rewrite (u64_id (c + n - 1)) by lia.
  unfold fc_setcache, set_node. set (d3 := set_fc (<[FC_LASTFC := mkFc (zlen (l ++ new) - 1) (c + n - 1)]> (de_fc d2)) d2). rewrite (bind_Ok _ _ (s2, d2) tt (s2, d3) eq_refl).
  assert (file_ok pmp s2 d3 (l ++ new)) as Hok3 by (split; [done|]; simpl; rewrite Hfc2; apply cache_append; [apply Hok|done]).
  destruct (clear_ok s s2 d3 l c n flags HI2 Hok3) as (s4 & d4 & Hclear & HI4 & Hok4 & (_ & S2 & _ & S4) & Hex4); [lia|intros x Hx; by apply Hrr|done|].
  rewrite (bind_Ok _ _ _ _ _ Hclear). assert (is_directory d3 = is_directory d) as Hd3 by (unfold is_directory; simpl; by rewrite Hat2). rewrite Hd3 in Hex4. assert (is_directory d4 = is_directory d) as Hd4 by (unfold is_directory; rewrite S2; apply Hd3).
  assert (new ≠ []) as Hnn by (intros E; rewrite E in Hzn; simpl in Hzn; lia). assert (last_cached d4 (l ++ new)) as Hlc4.
  { intros _. exists (c + n - 1). split; [rewrite last_app, Hlast; done|]. rewrite S4. simpl. apply list_lookup_total_insert_eq. rewrite Hfc2. pose proof (co_size _ _ (proj2 Hok)) as Hsz. unfold FC_SIZE, FC_LASTFC in *. lia. }
  destruct (IH (count - n) (match nc with Some c => Some c | None => Some c end) s4 d4 (l ++ new)) as (r & s' & d' & new2 & Hrun' & HI' & Hok' & Hex' & Hres); [done|by rewrite (ex_lock _ _ _ _ _ Hex4)|done|done|lia|lia|].
  exists r, s', d', (new ++ new2). rewrite Hrun'. split; [f_equal; f_equal; f_equal; destruct nc; [done|]; unfold new; by rewrite seqZ_cons by lia|]. split; [done|]. rewrite app_assoc. split; [done|].
  split; [eapply (extended_trans s s4 s'); [apply Hok4|done|done|by rewrite Hd4 in Hex']|]. pose proof (ex_count _ _ _ _ _ Hex4) as Hc4. unfold extend_result in *. rewrite length_app. fold new in Hc4. rewrite Hzn in Hc4. lia.
Qed.

End Extend.
