(* ===== verification/FatSpec.v ===== *)
(** The theorems about the file allocation table, allocation and files, with a small
    volume on which they are applied. *)

From S2P Require Import Prelude Errors Fat FatTable FatEntry FatMap FatAlloc FatFree FatFill FatFile FatChain FatExtend.
From Stdlib Require Import ZifyBool.

(** * A volume with twelve-bit entries

    Two copies of a table for the clusters 2 to 20; the clusters 2 and 3 are a file. *)

Definition small : geometry :=
  mkGeometry FAT12_MASK 3 2 1536 3 3 1 0 2 512 1 0xf8 20 8 7 1 9 9 512 false.

Definition small_table : list Z := [0xf8; 0xff; 0xff; 0x03; 0xf0; 0xff].

Definition small_dev (a : Z) : Z :=
  if (512 <=? a) && (a <? 512 + 2 * 1536) then nth (Z.to_nat ((a - 512) mod 1536)) small_table 0 else 0.

Definition small_volume : msdosfsmount := mkMount small_dev [0xffe0000f] 17 2 MSDOSFS_FATMIRROR 0 0 [] 0.

Lemma small_geometry : geometry_ok small.
Proof.
  split; try (by vm_compute); [by apply is_fat12; [..|exists 1]|by exists 3|by exists 3|by exists 1].
Qed.

Lemma small_data : data_ok small.
Proof. split; try (by vm_compute); [by exists 8|by exists 1]. Qed.

Lemma small_bytes : bytes small_dev.
Proof.
  intros a. unfold small_dev. destruct (_ && _); [|lia]. assert (Forall (λ x, 0 ≤ x < 256) small_table) as H by (repeat constructor; lia).
  set (i := Z.to_nat _). destruct (nth_in_or_default i small_table 0) as [Hin| ->]; [|lia]. rewrite Forall_forall in H. by apply H, list_elem_of_In.
Qed.

Lemma small_ok : volume small small_volume.
Proof.
  split; [done|apply small_bytes|]. intros _. split; [done|]. intros k x Hk Hx _. change (pm_FATs small) with 2 in Hk. change (fat_size small) with 1536 in Hx.
  assert (k = 0 ∨ k = 1) as [-> | ->] by lia; [done|]. unfold tab. change (fat_base small 1) with 2048. change (fat_base small 0) with 512. change (dev small_volume) with small_dev. unfold small_dev.
  destruct (Z.leb_spec 512 (2048 + x)), (Z.ltb_spec (2048 + x) (512 + 2 * 1536)), (Z.leb_spec 512 (512 + x)), (Z.ltb_spec (512 + x) (512 + 2 * 1536)); try lia. cbn [andb]. do 2 f_equal. div_mod_lia.
Qed.

Lemma small_inv : fat_inv small small_volume.
Proof.
  assert (∀ P : Z → bool, forallb P (seqZ 0 32) = true → ∀ c, 0 ≤ c < 32 → P c = true) as Hall.
  { intros P HP c Hc. rewrite forallb_forall in HP. apply HP, list_elem_of_In, elem_of_seqZ. lia. }
  split; [apply small_ok| |by vm_compute| |split; by vm_compute|by vm_compute].
  - split; [by vm_compute| | |by vm_compute].
    + intros i Hi. change (pm_maxcluster small / 32) with 0 in Hi. assert (i = 0) as -> by lia. by vm_compute.
    + intros cn H1 H2. change (pm_maxcluster small) with 20 in *. change (20 / 32) with 0 in H2. specialize (Hall (λ c, (c <=? 20) || inuse small_volume c) ltac:(by vm_compute) cn ltac:(div_mod_lia)). simpl in Hall. lia.
  - intros cn Hcn. change (pm_maxcluster small) with 20 in Hcn. apply eqb_prop.
    pose proof (Hall (λ c, (20 <? c) || eqb (inuse small_volume c) (negb (entry small small_volume c =? CLUST_FREE))) ltac:(by vm_compute) cn ltac:(lia)) as H. cbv beta in H.
    apply orb_true_iff in H as [H|H]; [lia|done].
Qed.

(** * Theorems

    [volume] says that the cache answers every request and that the copies of a mirrored
    table agree; [fat_inv] that the map of used clusters and the count fit the table. *)

Section Theorems.
Context (pmp : geometry).

Notation max := (pm_maxcluster pmp).
Notation entry := (entry pmp).

(** C35. One entry: for tables of 12, 16 and 28-bit entries in any number of copies,
    [fatentry] answers EINVAL outside the clusters, and otherwise reads the entry with the
    reserved values unified; a set changes that entry, masked to its width, in the table and
    in the copies that are kept, and no other entry and no other byte of the volume. *)
Theorem fatentry_exact s f cn v : geometry_ok pmp → volume pmp s → f ∈ [FAT_GET; FAT_SET; FAT_GET_AND_SET] →
  ∃ s', fatentry pmp f cn v s =
      Ok (if decide (CLUST_FIRST ≤ cn ≤ max) then (0, if f =? FAT_SET then None else Some (canonical pmp (entry s cn))) else (EINVAL, None), s') ∧
    volume pmp s' ∧ (∀ a, ¬ in_fats pmp a → dev s' a = dev s a) ∧
    ∀ c, 0 ≤ c ≤ max → entry s' c = if decide (c = cn ∧ CLUST_FIRST ≤ cn ∧ f ≠ FAT_GET) then Z.land v (pm_fatmask pmp) else entry s c.
Proof.
  intros G Hv Hf. destruct (decide (CLUST_FIRST ≤ cn ≤ max)) as [Hcn|Hcn].
  - destruct (decide (f = FAT_GET)) as [->|Hne].
    + exists s. rewrite (fatentry_get pmp G s cn v Hv Hcn). split; [done|]. split; [done|]. split; [done|]. intros c Hc. rewrite decide_False by tauto. done.
    + destruct (fatentry_set pmp G f s cn v Hv Hcn) as (s' & Hrun & Hv' & _ & He & Hfr); [set_solver|]. exists s'. split; [done|]. split; [done|]. split; [done|].
      intros c Hc. rewrite He by done. repeat case_decide; tauto || done.
  - exists s. split; [|split; [done|split; [done|]]].
    + unfold fatentry. replace ((cn <? CLUST_FIRST) || (max <? cn)) with true by lia. done.
    + intros c Hc. rewrite decide_False by lia. done.
Qed.

(** C36. Allocation.  Given: a table whose blocks are made of whole entries (for FAT12 blocks
    of a multiple of three sectors of 512 bytes, which larger sectors do not give), a map of
    used clusters that fits the table, a volume that may be written and a block cache that
    does not fail, a wish for 1 to 2^31 - 1 clusters and a value for the end of the chain
    that is not the one of a free cluster.  Then [clusteralloc] fails with ENOSPC exactly
    when no cluster is free and changes nothing then; otherwise it makes a chain of a run
    of free clusters that ends with the given value, at most as long as asked, and shorter
    only if there is no free run of that length; it prefers the cluster asked for and takes
    the longest run when that one is used.  The map fits afterwards, and no other entry, no
    byte outside the tables and not the lock has changed. *)
Theorem clusteralloc_correct s start count fillwith : geometry_ok pmp → fat_inv pmp s → 0 ≤ pm_fatlock s →
  1 ≤ count < 2 ^ 31 → 0 ≤ start ≤ max + 1 → Z.land fillwith (pm_fatmask pmp) ≠ CLUST_FREE →
  ∃ r s', clusteralloc pmp start count fillwith s = Ok (r, s') ∧ alloc_spec pmp s start count fillwith r s'.
Proof. intros G. by apply clusteralloc_ok. Qed.

(** C37. Freeing: whatever the table contains, also for chains that run in a circle or into a
    free cluster, [freeclusterchain] ends; it frees exactly the clusters on the way, each
    once, in the table and in the map, and answers EINTEGRITY, having reported it, when it
    meets a cluster that is free or was freed on the way. *)
Theorem freeclusterchain_correct s c : geometry_ok pmp → fat_inv pmp s → 0 ≤ pm_fatlock s →
  ∃ l c' r s', freeclusterchain pmp c s = Ok (r, s') ∧ walk (entry s) c l c' ∧ NoDup l ∧
    Forall (λ x, CLUST_FIRST ≤ x ≤ max ∧ entry s x ≠ CLUST_FREE) l ∧ freed pmp s s' l ∧ ends pmp s s' (entry s) l c' r.
Proof. intros G. by apply freeclusterchain_ok. Qed.

(** ** Mounting and any sequence of operations *)

Inductive fat_op :=
  | OpAlloc (start count : Z)
  | OpFree (cluster : Z)
  | OpGet (cluster : Z).

Definition fat_op_ok (o : fat_op) : Prop :=
  match o with
  | OpAlloc start count => 0 ≤ start ≤ max + 1 ∧ 1 ≤ count < 2 ^ 31
  | _ => True
  end.

Definition run_fat_op (o : fat_op) : FM unit :=
  match o with
  | OpAlloc start count => clusteralloc pmp start count CLUST_EOFE;; mret tt
  | OpFree cluster => freeclusterchain pmp cluster;; mret tt
  | OpGet cluster => fatentry pmp FAT_GET cluster 0;; mret tt
  end.

Fixpoint run_fat_ops (os : list fat_op) : FM unit :=
  match os with
  | [] => mret tt
  | o :: os => run_fat_op o;; run_fat_ops os
  end.

(** Mounting: the map is made with the table locked. *)
Definition mount_fat : FM Z :=
  MSDOSFS_LOCK_MP;; error ← fillinusemap pmp; MSDOSFS_UNLOCK_MP;; mret error.

Lemma run_fat_op_ok o s : geometry_ok pmp → fat_inv pmp s → 0 ≤ pm_fatlock s → fat_op_ok o →
  ∃ s', run_fat_op o s = Ok (tt, s') ∧ fat_inv pmp s' ∧ pm_fatlock s' = pm_fatlock s.
Proof.
  intros G HI Hl Ho. destruct o as [start count|c|c]; simpl in *.
  - destruct (clusteralloc_ok pmp G s start count CLUST_EOFE) as (r & s' & Hrun & Hspec); [done|done|apply Ho|apply Ho|by destruct (eof_plain pmp G _ (eofe_is_eof pmp G)) as (_ & _ & _ & _ & H0)|].
    exists s'. rewrite (bind_Ok _ _ _ _ _ Hrun). split; [done|]. destruct Hspec as [(_ & -> & _)|(c & n & _ & _ & _ & Ha & _)]; [done|]. by destruct Ha.
  - destruct (freeclusterchain_ok pmp G s c HI Hl) as (l & c' & r & s' & Hrun & _ & _ & _ & Hfr & _). exists s'. rewrite (bind_Ok _ _ _ _ _ Hrun). split; [done|]. by destruct Hfr.
  - exists s. split; [|done]. destruct (decide (CLUST_FIRST ≤ c ≤ max)) as [Hc|Hc].
    + rewrite (bind_Ok _ _ _ _ _ (fatentry_get pmp G s c 0 (fi_vol _ _ HI) Hc)). done.
    + unfold fatentry. replace ((c <? CLUST_FIRST) || (max <? c)) with true by lia. done.
Qed.

(** C38. Mounting and operating.  On a volume that may be written, with a block cache that
    does not fail, a table whose blocks are made of whole entries (for FAT12 blocks of a
    multiple of three sectors of 512 bytes, which larger sectors do not give: see
    [fillinusemap_stale_block]), whose first entry is the one of the medium and whose second
    is not free, [fillinusemap] makes a map that fits the table, and counts the free
    clusters; from then on every sequence of allocations, frees and look-ups runs without
    faults, with every assertion true, keeps the map and the count fitting the table, and
    leaves the lock free. *)
Theorem fat_invariant s os : geometry_ok pmp → volume pmp s → zlen (pm_inusemap s) = max / 32 + 1 → pm_fatlock s = 0 → is_ronly s = false → 0 ≤ pm_Media pmp →
  CLUST_FIRST ≤ pm_nxtfree s ≤ max → entry s 0 = fat_id pmp → entry s 1 ≠ CLUST_FREE → Forall fat_op_ok os →
  ∃ s1 s', mount_fat s = Ok (0, s1) ∧ dev s1 = dev s ∧ run_fat_ops os s1 = Ok (tt, s') ∧ fat_inv pmp s1 ∧ fat_inv pmp s' ∧ pm_fatlock s' = 0.
Proof.
  intros G Hv Hlen Hl Hrw Hmed Hn H0 H1 Hos. unfold mount_fat, MSDOSFS_LOCK_MP, MSDOSFS_UNLOCK_MP. rewrite bind_modifyS. set (s0 := set_fatlock _ s).
  destruct (fillinusemap_ok pmp G s0) as (s1 & Hrun & HI & Hd & Hlk); [by destruct Hv|done|simpl; lia|done|done|done|done|done|]. rewrite (bind_Ok _ _ _ _ _ Hrun), bind_modifyS. mrun.
  set (s2 := set_fatlock _ s1). assert (fat_inv pmp s2) as HI2 by (by apply fat_inv_lock). assert (pm_fatlock s2 = 0) as Hl2 by (simpl; rewrite Hlk; simpl; lia).
  assert (∃ s', run_fat_ops os s2 = Ok (tt, s') ∧ fat_inv pmp s' ∧ pm_fatlock s' = 0) as (s' & Hops & HI' & Hl').
  { clear - G HI2 Hl2 Hos. revert HI2 Hl2. generalize s2. induction Hos as [|o os Ho _ IH]; intros s HI Hl; [by exists s|]. cbn [run_fat_ops].
    destruct (run_fat_op_ok o s G HI ltac:(lia) Ho) as (s' & Hr & HI' & Hl'). rewrite (bind_Ok _ _ _ _ _ Hr). apply IH; [done|congruence]. }
  exists s2, s'. done.
Qed.

(** ** Files *)

(** C39. Clusters of a file.  For a file that has clusters, [l], and a cache each of whose
    slots is empty or agrees with them (the one for the last cluster is empty or is the
    last one), [pcbmap] gives the n-th cluster and its block, or E2BIG and the number of
    clusters when there is none, whichever slots are filled; the cache agrees afterwards,
    and the volume is not changed. *)
Theorem pcbmap_correct s d l findcn : geometry_ok pmp → volume pmp s → file_ok pmp s d l → l ≠ [] → 0 ≤ findcn →
  match l !! Z.to_nat findcn with
  | Some c => pcbmap pmp findcn (s, d) = Ok ((0, (cntobn pmp c, c, pm_bpcluster pmp)), (s, mapped d FC_LASTMAP findcn c)) ∧
      file_ok pmp s (mapped d FC_LASTMAP findcn c) l
  | None => ∃ c, last l = Some c ∧ pcbmap pmp findcn (s, d) = Ok ((E2BIG, (0, zlen l, pm_bpcluster pmp)), (s, mapped d FC_LASTFC (zlen l - 1) c)) ∧
      file_ok pmp s (mapped d FC_LASTFC (zlen l - 1) c) l
  end.
Proof. intros G. by apply pcbmap_ok. Qed.

Lemma cached_last s d l : geometry_ok pmp → file_ok pmp s d l → fc_frcn (de_fc d !!! FC_LASTFC) ≠ FCE_EMPTY → last_cached d l.
Proof.
  intros G [Hch [Hsz Hsl Hlast]] Hne Hl. destruct Hlast as [|Hlast]; [done|]. rewrite Forall_lookup in Hsl. unfold FC_SIZE, FC_LASTFC in *.
  destruct (Hsl 1%nat (de_fc d !!! 1%nat)) as [|[H0 Hx]]; [by apply list_lookup_lookup_total_lt; lia|done|]. exists (fc_fsrcn (de_fc d !!! 1%nat)). split.
  - rewrite last_lookup, <- Hx. f_equal. lia.
  - destruct (de_fc d !!! 1%nat) as [a b]. simpl in *. f_equal. lia.
Qed.

Lemma extendfile_extends s d l count flags : geometry_ok pmp → data_ok pmp → fat_inv pmp s → 0 ≤ pm_fatlock s → file_ok pmp s d l →
  (l = [] → is_directory d = false) → zlen l ≤ 0xffff ∨ fc_frcn (de_fc d !!! FC_LASTFC) ≠ FCE_EMPTY → 1 ≤ count < 2 ^ 31 →
  ∃ r s' d' new, extendfile pmp count None flags (s, d) = Ok ((r, None, head new), (s', d')) ∧ fat_inv pmp s' ∧ file_ok pmp s' d' (l ++ new) ∧
    extended pmp s s' l new (negb (Z.land flags DE_CLEAR =? 0) && is_directory d) ∧ extend_result s new count r.
Proof.
  intros G D HI Hl Hok Hdir Hlast Hcount. pose proof (start_zero pmp s d l (proj1 Hok)) as Hz. unfold extendfile, get_node. rewrite (bind_Ok _ _ (s, d) d (s, d) eq_refl).
  replace ((de_StartCluster d =? MSDOSFSROOT) && is_directory d) with false.
  2: { symmetry. apply andb_false_iff. unfold MSDOSFSROOT. destruct (Z.eqb_spec (de_StartCluster d) 0); [right; apply Hdir, Hz; done|by left]. }
  assert (∃ d1, (if (fc_frcn (de_fc d !!! FC_LASTFC) =? FCE_EMPTY) && negb (de_StartCluster d =? 0) then '(error, _) ← pcbmap pmp 0xffff; mret (if error =? E2BIG then None else Some error) else mret None) (s, d) = Ok (None, (s, d1)) ∧
    file_ok pmp s d1 l ∧ last_cached d1 l ∧ is_directory d1 = is_directory d) as (d1 & Hrun & Hok1 & Hlc & Hd1).
  { destruct (Z.eqb_spec (fc_frcn (de_fc d !!! FC_LASTFC)) FCE_EMPTY) as [E|E]; cbn [andb]; [|exists d; split; [done|]; split; [done|]; split; [by apply (cached_last s)|done]].
    destruct (Z.eqb_spec (de_StartCluster d) 0) as [E0|E0]; cbn [negb]; [exists d; split; [done|]; split; [done|]; split; [|done]; intros Hne; by apply Hz in E0|].
    assert (l ≠ []) as Hne by (intros ->; by apply E0, Hz). pose proof (pcbmap_ok pmp G s d l 0xffff (fi_vol _ _ HI) Hok Hne ltac:(lia)) as H.
    rewrite (lookup_ge_None_2 l) in H by (destruct Hlast; [lia|done]). destruct H as (c & Hc & Hr & Hok'). exists (mapped d FC_LASTFC (zlen l - 1) c). split; [by rewrite (bind_Ok _ _ _ _ _ Hr)|].
    split; [done|]. split; [|done]. intros _. exists c. split; [done|]. simpl. apply list_lookup_total_insert_eq. pose proof (co_size _ _ (proj2 Hok)) as Hsz. unfold FC_SIZE, FC_LASTFC in *. lia. }
  rewrite (bind_Ok _ _ _ _ _ Hrun). unfold set_node. set (d2 := set_fc (<[FC_NEXTTOLASTFC := de_fc d1 !!! FC_LASTFC]> (de_fc d1)) d1). rewrite (bind_Ok _ _ (s, d1) tt (s, d2) eq_refl).
  assert (de_fc d2 !!! FC_LASTFC = de_fc d1 !!! FC_LASTFC) as Hsame by (simpl; by rewrite list_lookup_total_insert_ne).
  assert (file_ok pmp s d2 l) as Hok2.
  { destruct Hok1 as [Hch1 [Hsz Hsl Hla]]. split; [done|]. split; [simpl; by rewrite length_insert| |by rewrite Hsame]. simpl. apply Forall_insert; [done|]. rewrite Forall_lookup in Hsl. apply (Hsl FC_LASTFC). apply list_lookup_lookup_total_lt. unfold FC_SIZE, FC_LASTFC in *. lia. }
  destruct (extend_loop_ok pmp G D flags (S (Z.to_nat count)) count None s d2 l) as (r & s' & d' & new & Hloop & HI' & Hok' & Hex & Hres); [done|done|done|intros Hne; rewrite Hsame; by apply Hlc|lia|lia|].
  exists r, s', d', new. split; [done|]. split; [done|]. split; [done|]. split; [|done]. replace (is_directory d) with (is_directory d2) by done. done.
Qed.

(** A file of more than 65535 clusters whose last cluster is not cached is not extended,
    without an error. *)
Lemma extendfile_long_file s d l count flags : geometry_ok pmp → volume pmp s → file_ok pmp s d l → 0xffff < zlen l → fc_frcn (de_fc d !!! FC_LASTFC) = FCE_EMPTY →
  ∃ d', extendfile pmp count None flags (s, d) = Ok ((0, None, None), (s, d')) ∧ file_ok pmp s d' l.
Proof.
  intros G Hv Hok Hlen Hlast. assert (l ≠ []) as Hne by (intros ->; simpl in Hlen; lia). pose proof (start_zero pmp s d l (proj1 Hok)) as Hz. assert (de_StartCluster d ≠ 0) as H0 by (intros E; by apply Hne, Hz).
  unfold extendfile, get_node. rewrite (bind_Ok _ _ (s, d) d (s, d) eq_refl). unfold MSDOSFSROOT. rewrite (proj2 (Z.eqb_neq _ _) H0), Hlast, Z.eqb_refl. cbn [andb negb].
  destruct (lookup_lt_is_Some_2 l (Z.to_nat 0xffff)) as [c Hc]; [lia|]. pose proof (pcbmap_ok pmp G s d l 0xffff Hv Hok Hne ltac:(lia)) as H. rewrite Hc in H. destruct H as [Hr Hok'].
  rewrite bind_assoc, (bind_Ok _ _ _ _ _ Hr). eexists. split; [done|]. exact Hok'.
Qed.

(** C40. Appending.  For a file (or a directory other than the root directory of FAT12 and
    FAT16) with the clusters [l], a cache whose slots agree with them, a map of used
    clusters that fits the table and a block cache that does not fail, on a volume whose
    FAT12 table, if it has one, has blocks of a multiple of three sectors, and for a caller
    that does not ask for the buffer of the new cluster (none does): [extendfile] appends
    clusters that were free to the chain, as many as asked, or all that are free and
    answers ENOSPC; the entries of other files and their bytes stay, the new clusters of a
    directory are zero when that is asked for, the map fits the table and the cache fits
    the file.  But a file of more than 65535 clusters whose last cluster is not cached is
    not extended, and the answer is 0. *)
Theorem extendfile_appends s d l count flags : geometry_ok pmp → data_ok pmp → fat_inv pmp s → 0 ≤ pm_fatlock s → file_ok pmp s d l →
  (l = [] → is_directory d = false) → 1 ≤ count < 2 ^ 31 →
  if decide (zlen l ≤ 0xffff ∨ fc_frcn (de_fc d !!! FC_LASTFC) ≠ FCE_EMPTY) then
    ∃ r s' d' new, extendfile pmp count None flags (s, d) = Ok ((r, None, head new), (s', d')) ∧ fat_inv pmp s' ∧ file_ok pmp s' d' (l ++ new) ∧
      extended pmp s s' l new (negb (Z.land flags DE_CLEAR =? 0) && is_directory d) ∧ extend_result s new count r
  else
    ∃ d', extendfile pmp count None flags (s, d) = Ok ((0, None, None), (s, d')) ∧ file_ok pmp s d' l.
Proof.
  intros G D HI Hl Hok Hdir Hcount. case_decide as H; [by apply extendfile_extends|].
  apply extendfile_long_file; [done|apply HI|done|lia|]. destruct (decide (fc_frcn (de_fc d !!! FC_LASTFC) = FCE_EMPTY)); tauto.
Qed.

End Theorems.

(** * The theorems on the small volume *)

Lemma fatentry_exact_witness :
  ∃ s', fatentry small FAT_GET_AND_SET 3 5 small_volume = Ok ((0, Some CLUST_EOFE), s') ∧ entry small s' 3 = 5 ∧ entry small s' 2 = 3 ∧ entry small s' 4 = 0.
Proof.
  destruct (fatentry_exact small small_volume FAT_GET_AND_SET 3 5 small_geometry small_ok) as (s' & Hrun & _ & _ & He); [set_solver|].
  exists s'. split; [rewrite Hrun; by vm_compute|]. rewrite !He by (by vm_compute). by vm_compute.
Defined.

Lemma clusteralloc_correct_witness :
  (∃ r s', clusteralloc small 4 3 CLUST_EOFE small_volume = Ok (r, s') ∧ alloc_spec small small_volume 4 3 CLUST_EOFE r s') ∧
  match clusteralloc small 4 3 CLUST_EOFE small_volume with Ok (r, _) => r = (0, (4, 3)) | _ => False end.
Proof.
  split; [apply (clusteralloc_correct small small_volume 4 3 CLUST_EOFE small_geometry small_inv); by vm_compute|by vm_compute].
Defined.

Lemma freeclusterchain_correct_witness :
  ∃ l c' r s', freeclusterchain small 2 small_volume = Ok (r, s') ∧ walk (entry small small_volume) 2 l c' ∧ freed small small_volume s' l.
Proof.
  destruct (freeclusterchain_correct small small_volume 2 small_geometry small_inv) as (l & c' & r & s' & Hrun & Hw & _ & _ & Hf & _); [by vm_compute|].
  exists l, c', r, s'. split; [exact Hrun|]. split; [exact Hw|exact Hf].
Defined.

Lemma fat_invariant_witness :
  ∃ s1 s', mount_fat small small_volume = Ok (0, s1) ∧ run_fat_ops small [OpAlloc 4 3; OpFree 2; OpAlloc 0 100; OpGet 4; OpFree 4] s1 = Ok (tt, s') ∧ fat_inv small s'.
Proof.
  destruct (fat_invariant small small_volume [OpAlloc 4 3; OpFree 2; OpAlloc 0 100; OpGet 4; OpFree 4] small_geometry small_ok) as (s1 & s' & H1 & _ & H2 & _ & H3 & _);
    [by vm_compute|by vm_compute|by vm_compute|by vm_compute|by vm_compute|by vm_compute|by vm_compute|repeat constructor; by vm_compute|]. exists s1, s'. split; [exact H1|]. split; [exact H2|exact H3].
Defined.

Definition small_file : denode := mkDenode 2 0 1024 [mkFc FCE_EMPTY 0; mkFc FCE_EMPTY 0; mkFc FCE_EMPTY 0].

Lemma small_file_ok : file_ok small small_volume small_file [2; 3].
Proof.
  split; [split|split].
  - done.
  - repeat constructor; by vm_compute.
  - intros _. exists 0xfff. split; [|split; by vm_compute]. constructor. replace (entry small small_volume 2) with 3 by (by vm_compute). constructor. replace (entry small small_volume 3) with 0xfff by (by vm_compute). constructor.
  - done.
  - repeat constructor.
  - by left.
Qed.

Lemma pcbmap_correct_witness :
  pcbmap small 1 (small_volume, small_file) = Ok ((0, (9, 3, 512)), (small_volume, mapped small_file FC_LASTMAP 1 3)) ∧
  file_ok small small_volume (mapped small_file FC_LASTMAP 1 3) [2; 3].
Proof.
  pose proof (pcbmap_correct small small_volume small_file [2; 3] 1 small_geometry small_ok small_file_ok ltac:(done) ltac:(done)) as H. exact H.
Defined.

Lemma extendfile_appends_witness :
  ∃ r s' d' new, extendfile small 4 None DE_CLEAR (small_volume, small_file) = Ok ((r, None, head new), (s', d')) ∧ file_ok small s' d' ([2; 3] ++ new) ∧ extend_result small_volume new 4 r.
Proof.
  destruct (extendfile_appends small small_volume small_file [2; 3] 4 DE_CLEAR small_geometry small_data small_inv) as (r & s' & d' & new & Hrun & _ & Hok & _ & Hres);
    [apply Z.le_refl|exact small_file_ok|discriminate|split; [discriminate|reflexivity]|]. exists r, s', d', new. split; [exact Hrun|]. split; [exact Hok|exact Hres].
Defined.

(** * Twelve-bit entries and sectors of 1024 bytes

    The blocks of such a table are not a multiple of three bytes long. *)

Definition large_sectors : geometry :=
  mkGeometry FAT12_MASK 3 2 2048 4 14 2 0 1 1024 2 0xf8 4000 36 30 6 10 9 1024 false.

Definition large_sectors_volume : msdosfsmount :=
  mkMount (λ a, if (1024 <=? a) && (a <? 1027) then (if a =? 1024 then 0xf8 else 0xff) else 0) (replicate 126 0) 0 2 0 0 1 [] 0.

(** A long chain is written past the end of the buffer. *)
Lemma fatchain_overrun : fatchain large_sectors 2000 1500 CLUST_EOFE large_sectors_volume = Bad OutOfBounds.
Proof. by vm_compute. Qed.

(** A free cluster behind the first block is taken for a used one, because its entry is
    looked up in that block. *)
Lemma fillinusemap_stale_block :
  match fillinusemap large_sectors large_sectors_volume with
  | Ok (r, s) => r = 0 ∧ entry large_sectors s 1366 = CLUST_FREE ∧ inuse s 1366 = true
  | _ => False
  end.
Proof. by vm_compute. Qed.
