(* ===== verification/CacheHash.v ===== *)
(** The hash table of the userlandfs block cache (src/add-ons/kernel/
    file_systems/userlandfs/server/beos/fs_cache.c, [hash_table] and its
    operations): open chains keyed by (device, block number), doubled when
    three quarters full.  The table refines a finite map.

    A chain of [hash_ent] nodes is the list of its nodes; the nodes are private
    to the table, so only their order and contents can be observed. *)

From S2P Require Import Prelude Errors.

(** Addresses of cache entries; NULL is [None] of [option ptr]. *)
Definition ptr : Type := positive.

Record hash_ent : Type := mkHe { he_dev : Z; he_bnum : Z; he_hash_val : Z; he_data : ptr }.

(** After [shutdown_hash_table] the table pointer is NULL: the empty list. *)
Record hash_table : Type :=
  mkHt { ht_table : list (list hash_ent); ht_max : Z; ht_mask : Z; ht_num : Z }.

Definition HT_DEFAULT_MAX : Z := 128.

Definition HASH (d b : Z) : Z := s64 (Z.lor (s64 (Z.shiftl d (8 * 8 - 6))) b).

(** [curr->dev == dev && curr->bnum == bnum] *)
Definition he_is (dev bnum : Z) (he : hash_ent) : bool :=
  (he_dev he =? dev) && (he_bnum he =? bnum).

Definition bucket (i : Z) (t : list (list hash_ent)) : outcome (list hash_ent) :=
  if bool_decide (0 ≤ i) then from_option Ok (Bad OutOfBounds) (t !! Z.to_nat i)
  else Bad OutOfBounds.

Fixpoint chain_find (dev bnum : Z) (c : list hash_ent) : option hash_ent :=
  match c with
  | [] => None
  | he :: c => if he_is dev bnum he then Some he else chain_find dev bnum c
  end.

Fixpoint chain_unlink (dev bnum : Z) (c : list hash_ent) : list hash_ent :=
  match c with
  | [] => []
  | he :: c => if he_is dev bnum he then c else he :: chain_unlink dev bnum c
  end.

(** [he->next = table[i]; table[i] = he]. *)
Definition push_front (i : Z) (he : hash_ent) (t : list (list hash_ent))
    : outcome (list (list hash_ent)) :=
  c ← bucket i t; Ok (<[Z.to_nat i := he :: c]> t).

Section Operations.
Context {S : Type} `{Allocator S}.

(** [calloc] of the table may fail: ENOMEM leaves a NULL table. *)
Definition init_hash_table : M S (hash_table * Z) :=
  ok ← malloc;
  let ht t := mkHt t HT_DEFAULT_MAX (HT_DEFAULT_MAX - 1) 0 in
  if ok : bool then mret (ht (replicate (Z.to_nat HT_DEFAULT_MAX) []), 0)
  else mret (ht [], ENOMEM).

Definition shutdown_hash_table (ht : hash_table) : hash_table :=
  mkHt [] (ht_max ht) (ht_mask ht) (ht_num ht).

Definition new_hash_ent (dev bnum : Z) (data : ptr) : M S (option hash_ent) :=
  ok ← malloc;
  if ok : bool then mret (Some (mkHe dev bnum (HASH dev bnum) data)) else mret None.

(** The inner loop of [grow_hash_table]: every node of one old chain, in
    order, goes to the front of its new chain. *)
Fixpoint rehash_chain (newmask : Z) (c : list hash_ent) (t : list (list hash_ent))
    : outcome (list (list hash_ent)) :=
  match c with
  | [] => Ok t
  | he :: c => t ← push_front (Z.land (he_hash_val he) newmask) he t; rehash_chain newmask c t
  end.

Fixpoint rehash (newmask : Z) (old t : list (list hash_ent)) : outcome (list (list hash_ent)) :=
  match old with
  | [] => Ok t
  | c :: old => t ← rehash_chain newmask c t; rehash newmask old t
  end.

Definition grow_hash_table (ht : hash_table) : M S (hash_table * Z) :=
  let newsize := s32 (ht_max ht * 2) in
  let newmask := s32 (newsize - 1) in
  ok ← malloc;
  if ok : bool then
    t ← liftO (rehash newmask (ht_table ht) (replicate (Z.to_nat newsize) []));
    mret (mkHt t newsize newmask (ht_num ht), 0)
  else mret (ht, ENOMEM).

(** On EEXIST and on a failed allocation of the node nothing changes; when
    growing fails the entry is in the table although ENOMEM is returned. *)
Definition hash_insert (ht : hash_table) (dev bnum : Z) (data : ptr) : M S (hash_table * Z) :=
  let hash := Z.land (HASH dev bnum) (ht_mask ht) in
  c ← liftO (bucket hash (ht_table ht));
  match chain_find dev bnum c with
  | Some _ => mret (ht, EEXIST)
  | None =>
      he ← new_hash_ent dev bnum data;
      match he with
      | None => mret (ht, ENOMEM)
      | Some he =>
          t ← liftO (push_front hash he (ht_table ht));
          let num := s32 (ht_num ht + 1) in
          let ht := mkHt t (ht_max ht) (ht_mask ht) num in
          if num >=? Z.quot (s32 (ht_max ht * 3)) 4 then
            r ← grow_hash_table ht;
            mret (r.1, if r.2 =? 0 then 0 else ENOMEM)
          else mret (ht, 0)
      end
  end.
End Operations.

Definition hash_lookup (ht : hash_table) (dev bnum : Z) : outcome (option ptr) :=
  c ← bucket (Z.land (HASH dev bnum) (ht_mask ht)) (ht_table ht);
  Ok (he_data <$> chain_find dev bnum c).

(** The first matching node is unlinked (from the bucket, or from [prev]). *)
Definition hash_delete (ht : hash_table) (dev bnum : Z) : outcome (hash_table * option ptr) :=
  let hash := Z.land (HASH dev bnum) (ht_mask ht) in
  c ← bucket hash (ht_table ht);
  match chain_find dev bnum c with
  | None => Ok (ht, None)
  | Some he =>
      Ok (mkHt (<[Z.to_nat hash := chain_unlink dev bnum c]> (ht_table ht))
            (ht_max ht) (ht_mask ht) (s32 (ht_num ht - 1)), Some (he_data he))
  end.

(** * The finite map behind the table *)

Definition he_key (he : hash_ent) : Z * Z := (he_dev he, he_bnum he).
Definition he_pair (he : hash_ent) : (Z * Z) * ptr := (he_key he, he_data he).

Definition ht_ents (ht : hash_table) : list hash_ent := mjoin (ht_table ht).
Definition ht_map (ht : hash_table) : gmap (Z * Z) ptr := list_to_map (he_pair <$> ht_ents ht).

(** Every node is in the chain its hash value selects. *)
Definition placed (mask : Z) (t : list (list hash_ent)) : Prop :=
  ∀ i c he, t !! i = Some c → he ∈ c →
    he_hash_val he = HASH (he_dev he) (he_bnum he) ∧ Z.land (he_hash_val he) mask = Z.of_nat i.

Record ht_ok (ht : hash_table) : Prop := {
  ht_size : ∃ k, 0 ≤ k ≤ 29 ∧ ht_max ht = 2 ^ k;
  ht_mask_eq : ht_mask ht = ht_max ht - 1;
  ht_length : zlen (ht_table ht) = ht_max ht;
  ht_num_eq : ht_num ht = zlen (ht_ents ht);
  ht_placed : placed (ht_mask ht) (ht_table ht);
  ht_nodup : NoDup (he_key <$> ht_ents ht)
}.

(** The range in which the [int] arithmetic of the table does not overflow. *)
Definition HT_LIMIT : Z := 2 ^ 28.

Lemma he_is_spec dev bnum he : he_is dev bnum he = true ↔ he_key he = (dev, bnum).
Proof.
  unfold he_is, he_key. rewrite andb_true_iff, !Z.eqb_eq. naive_solver.
Qed.

Lemma land_mask x k : 0 ≤ k → Z.land x (2 ^ k - 1) = x mod 2 ^ k.
Proof. intros Hk. rewrite <- Z.land_ones by done. by rewrite Z.ones_equiv, Z.sub_1_r. Qed.

Section Chains.
Implicit Types (c : list hash_ent) (t : list (list hash_ent)).

Lemma chain_find_Some dev bnum c he :
  chain_find dev bnum c = Some he → he ∈ c ∧ he_key he = (dev, bnum).
Proof.
  induction c as [|x c IH]; cbn [chain_find]; [done|].
  destruct (he_is dev bnum x) eqn:E; [|set_solver].
  apply he_is_spec in E. set_solver.
Qed.

Lemma chain_find_None dev bnum c :
  chain_find dev bnum c = None → (dev, bnum) ∉ (he_key <$> c).
Proof.
  induction c as [|x c IH]; cbn [chain_find]; [set_solver|].
  destruct (he_is dev bnum x) eqn:E; [done|]. intros Hc.
  rewrite fmap_cons, not_elem_of_cons. split; [|by apply IH].
  intros Hx. symmetry in Hx. apply he_is_spec in Hx. congruence.
Qed.

Lemma chain_unlink_perm dev bnum c he :
  chain_find dev bnum c = Some he → c ≡ₚ he :: chain_unlink dev bnum c.
Proof.
  induction c as [|x c IH]; cbn [chain_find chain_unlink]; [done|].
  destruct (he_is dev bnum x) eqn:E; [naive_solver|].
  intros Hf. rewrite Permutation_swap. by rewrite <- IH.
Qed.

Lemma bucket_lookup i t c : bucket i t = Ok c ↔ 0 ≤ i ∧ t !! Z.to_nat i = Some c.
Proof.
  unfold bucket. case_bool_decide; [|naive_solver].
  destruct (t !! Z.to_nat i); naive_solver.
Qed.

Lemma bucket_ok i t : 0 ≤ i < zlen t → ∃ c, bucket i t = Ok c ∧ t !! Z.to_nat i = Some c.
Proof.
  intros Hi. destruct (lookup_lt_is_Some_2 t (Z.to_nat i)) as [c Hc]; [lia|].
  exists c. split; [|done]. apply bucket_lookup. split; [lia|done].
Qed.

Lemma mjoin_insert_perm t i c c' :
  t !! i = Some c → mjoin (<[i := c']> t) ++ c ≡ₚ mjoin t ++ c'.
Proof.
  revert i. induction t as [|x t IH]; intros i Hi; [done|].
  destruct i as [|i]; simplify_eq/=; [solve_Permutation|].
  rewrite <- !(assoc_L (++)), IH by done. done.
Qed.

Lemma elem_of_mjoin he t : he ∈ mjoin t ↔ ∃ i c, t !! i = Some c ∧ he ∈ c.
Proof.
  rewrite list_elem_of_join. split.
  - intros (c & Hhe & Hc). apply list_elem_of_lookup in Hc as [i Hi]. eauto.
  - intros (i & c & Hi & Hhe). exists c. split; [done|]. by eapply list_elem_of_lookup_2.
Qed.

Lemma placed_push mask t he c i :
  placed mask t →
  he_hash_val he = HASH (he_dev he) (he_bnum he) → Z.land (he_hash_val he) mask = Z.of_nat i →
  t !! i = Some c → placed mask (<[i := he :: c]> t).
Proof.
  intros Hp Hv Hl Hi j c' he' Hj Hin.
  destruct (decide (i = j)) as [<-|Hne].
  - rewrite list_lookup_insert_eq in Hj by eauto using lookup_lt_Some.
    simplify_eq. apply elem_of_cons in Hin as [->|Hin]; eauto.
  - rewrite list_lookup_insert_ne in Hj by done. eauto.
Qed.

Lemma placed_sub mask t i c c' :
  placed mask t → t !! i = Some c → c' ⊆ c → placed mask (<[i := c']> t).
Proof.
  intros Hp Hi Hsub j d he Hj Hin. destruct (decide (i = j)) as [<-|Hne].
  - rewrite list_lookup_insert_eq in Hj by eauto using lookup_lt_Some. simplify_eq. eauto.
  - rewrite list_lookup_insert_ne in Hj by done. eauto.
Qed.

Lemma push_front_ok k he t :
  0 ≤ k → zlen t = 2 ^ k → placed (2 ^ k - 1) t →
  he_hash_val he = HASH (he_dev he) (he_bnum he) →
  ∃ t', push_front (Z.land (he_hash_val he) (2 ^ k - 1)) he t = Ok t' ∧
    zlen t' = 2 ^ k ∧ placed (2 ^ k - 1) t' ∧ mjoin t' ≡ₚ he :: mjoin t.
Proof.
  intros Hk Hlen Hp Hv. set (i := Z.land _ _).
  assert (0 ≤ i < 2 ^ k) as Hi.
  { subst i. rewrite land_mask by done. by apply Z.mod_pos_bound, Z.pow_pos_nonneg. }
  destruct (bucket_ok i t) as (c & Hb & Hc); [lia|].
  exists (<[Z.to_nat i := he :: c]> t).
  unfold push_front. rewrite Hb. split; [done|]. split; [by rewrite length_insert|].
  split.
  - apply placed_push; [done..| |done]. lia.
  - apply (Permutation_app_inv_r c). rewrite (mjoin_insert_perm _ _ _ _ Hc). solve_Permutation.
Qed.

Lemma rehash_chain_ok k c t :
  0 ≤ k → zlen t = 2 ^ k → placed (2 ^ k - 1) t →
  Forall (λ he, he_hash_val he = HASH (he_dev he) (he_bnum he)) c →
  ∃ t', rehash_chain (2 ^ k - 1) c t = Ok t' ∧
    zlen t' = 2 ^ k ∧ placed (2 ^ k - 1) t' ∧ mjoin t' ≡ₚ c ++ mjoin t.
Proof.
  intros Hk. revert t. induction c as [|he c IH]; intros t Hlen Hp Hc; [by exists t|].
  apply Forall_cons in Hc as [Hv Hc]. cbn [rehash_chain].
  destruct (push_front_ok k he t) as (t1 & E1 & L1 & P1 & J1); [done..|]. rewrite E1.
  destruct (IH t1) as (t2 & E2 & L2 & P2 & J2); [done..|].
  exists t2. split; [done|]. do 2 (split; [done|]). rewrite J2, J1. solve_Permutation.
Qed.

Lemma rehash_ok k old t :
  0 ≤ k → zlen t = 2 ^ k → placed (2 ^ k - 1) t →
  Forall (λ he, he_hash_val he = HASH (he_dev he) (he_bnum he)) (mjoin old) →
  ∃ t', rehash (2 ^ k - 1) old t = Ok t' ∧
    zlen t' = 2 ^ k ∧ placed (2 ^ k - 1) t' ∧ mjoin t' ≡ₚ mjoin old ++ mjoin t.
Proof.
  intros Hk. revert t. induction old as [|c old IH]; intros t Hlen Hp Hc; [by exists t|].
  cbn in Hc. apply Forall_app in Hc as [Hv Hc]. cbn [rehash].
  destruct (rehash_chain_ok k c t) as (t1 & E1 & L1 & P1 & J1); [done..|]. rewrite E1.
  destruct (IH t1) as (t2 & E2 & L2 & P2 & J2); [done..|].
  exists t2. split; [done|]. do 2 (split; [done|]). rewrite J2, J1. cbn. solve_Permutation.
Qed.
End Chains.

Section Table.
Context {S : Type} `{Allocator S}.
Implicit Types (ht : hash_table) (s : S).

Lemma ht_index ht dev bnum :
  ht_ok ht → 0 ≤ Z.land (HASH dev bnum) (ht_mask ht) < ht_max ht.
Proof.
  intros [(k & Hk & Emax) Em _ _ _ _]. rewrite Em, Emax, land_mask by lia.
  apply Z.mod_pos_bound. apply Z.pow_pos_nonneg; lia.
Qed.

Lemma ht_bucket ht dev bnum :
  ht_ok ht → ∃ c, bucket (Z.land (HASH dev bnum) (ht_mask ht)) (ht_table ht) = Ok c ∧
    ht_table ht !! Z.to_nat (Z.land (HASH dev bnum) (ht_mask ht)) = Some c.
Proof.
  intros Hok. apply bucket_ok. rewrite (ht_length _ Hok). by apply ht_index.
Qed.

(** A key is in the table when it is in the chain its hash selects. *)
Lemma ht_chain_key ht dev bnum c :
  ht_ok ht → ht_table ht !! Z.to_nat (Z.land (HASH dev bnum) (ht_mask ht)) = Some c →
  (dev, bnum) ∈ (he_key <$> ht_ents ht) → (dev, bnum) ∈ (he_key <$> c).
Proof.
  intros Hok Hc Hin. apply list_elem_of_fmap in Hin as (he & Ek & Hin).
  apply elem_of_mjoin in Hin as (i & c' & Hi & Hin).
  destruct (ht_placed _ Hok i c' he Hi Hin) as [Ev El]. unfold he_key in Ek. simplify_eq.
  rewrite Ev in El. rewrite El, Nat2Z.id in Hc. simplify_eq.
  apply list_elem_of_fmap. by exists he.
Qed.

Lemma ht_map_None ht dev bnum :
  ht_map ht !! (dev, bnum) = None ↔ (dev, bnum) ∉ (he_key <$> ht_ents ht).
Proof.
  unfold ht_map. rewrite <- not_elem_of_list_to_map. by rewrite <- list_fmap_compose.
Qed.

Lemma ht_map_Some ht he :
  ht_ok ht → he ∈ ht_ents ht → ht_map ht !! he_key he = Some (he_data he).
Proof.
  intros Hok Hin. apply elem_of_list_to_map_1.
  - rewrite <- list_fmap_compose. apply Hok.
  - apply list_elem_of_fmap. by exists he.
Qed.

Lemma hash_lookup_spec ht dev bnum :
  ht_ok ht → hash_lookup ht dev bnum = Ok (ht_map ht !! (dev, bnum)).
Proof.
  intros Hok. destruct (ht_bucket ht dev bnum Hok) as (c & Hb & Hc).
  unfold hash_lookup. rewrite Hb. cbn. f_equal.
  destruct (chain_find dev bnum c) as [he|] eqn:Ef.
  - apply chain_find_Some in Ef as [Hin <-]. cbn. symmetry. apply ht_map_Some; [done|].
    apply elem_of_mjoin. eauto.
  - apply chain_find_None in Ef. symmetry. apply ht_map_None.
    intros Hin. by eapply Ef, ht_chain_key.
Qed.

Lemma ht_map_perm ht' l :
  ht_ents ht' ≡ₚ l → NoDup (he_key <$> l) → ht_map ht' = list_to_map (he_pair <$> l).
Proof.
  intros Hp Hnd. apply list_to_map_proper.
  - rewrite <- list_fmap_compose. by rewrite Hp.
  - by rewrite Hp.
Qed.

Lemma ht_num_range ht : ht_ok ht → 0 ≤ ht_num ht.
Proof. intros Hok. rewrite (ht_num_eq _ Hok). lia. Qed.

(** Growing keeps the entries, whatever the load. *)
Lemma grow_hash_table_spec ht s :
  alloc_plenty s → ht_ok ht → ht_max ht ≤ HT_LIMIT →
  ∃ ht', grow_hash_table ht s = Ok ((ht', 0), s) ∧ ht_ok ht' ∧ ht_map ht' = ht_map ht ∧
    ht_num ht' = ht_num ht ∧ ht_max ht' = 2 * ht_max ht.
Proof.
  intros Hp Hok Hm. unfold HT_LIMIT in Hm.
  pose proof Hok as [(k & Hk & Emax) Em El En Hpl Hnd].
  assert (0 < 2 ^ k) as Hpos by (apply Z.pow_pos_nonneg; lia).
  assert (k < 29) as Hk29.
  { apply (Z.pow_lt_mono_r_iff 2); lia. }
  assert (2 ^ (k + 1) = 2 * 2 ^ k) as E2 by (rewrite Z.pow_add_r by lia; lia).
  destruct (rehash_ok (k + 1) (ht_table ht) (replicate (Z.to_nat (2 ^ (k + 1))) []))
    as (t & Er & Lt & Pt & Jt).
  - lia.
  - rewrite length_replicate. lia.
  - intros i c he Hi. apply lookup_replicate in Hi as [-> _]. set_solver.
  - apply Forall_forall. intros he (i & c & Hi & Hin)%elem_of_mjoin. by eapply Hpl.
  - assert (mjoin t ≡ₚ ht_ents ht) as Jt'.
    { rewrite Jt. clear. induction (Z.to_nat _) as [|n IH]; cbn; [by rewrite (right_id_L [] (++))|done]. }
    exists (mkHt t (2 * ht_max ht) (2 * ht_max ht - 1) (ht_num ht)).
    unfold grow_hash_table. rewrite (bind_Ok _ _ _ _ _ (malloc_plenty s Hp)).
    rewrite (s32_id (ht_max ht * 2)) by (unfold is_s32; lia).
    rewrite (s32_id (ht_max ht * 2 - 1)) by (unfold is_s32; lia).
    replace (ht_max ht * 2) with (2 ^ (k + 1)) by lia. rewrite Er. mrun.
    replace (2 * ht_max ht) with (2 ^ (k + 1)) by lia.
    split; [done|]. split; [|split; [|split; [done|done]]].
    + constructor; cbn [ht_max ht_mask ht_table ht_num]; try done.
      * exists (k + 1). lia.
      * rewrite En. f_equal. symmetry. apply (Permutation_length Jt').
      * by rewrite (Permutation_map he_key Jt' : he_key <$> mjoin t ≡ₚ _).
    + apply ht_map_perm; [done|]. done.
Qed.

(** The table after the new node is linked in, before the load is looked at. *)
Lemma hash_push_spec ht dev bnum p :
  ht_ok ht → ht_num ht < HT_LIMIT → ht_map ht !! (dev, bnum) = None →
  let hash := Z.land (HASH dev bnum) (ht_mask ht) in
  ∃ t, push_front hash (mkHe dev bnum (HASH dev bnum) p) (ht_table ht) = Ok t ∧
    let ht' := mkHt t (ht_max ht) (ht_mask ht) (s32 (ht_num ht + 1)) in
    ht_ok ht' ∧ ht_num ht' = ht_num ht + 1 ∧ ht_map ht' = <[(dev, bnum) := p]> (ht_map ht).
Proof.
  intros Hok Hlim Hn hash. pose proof (ht_num_range _ Hok) as Hn0. unfold HT_LIMIT in Hlim.
  pose proof Hok as [(k & Hk & Emax) Em El En Hpl Hnd].
  destruct (push_front_ok k (mkHe dev bnum (HASH dev bnum) p) (ht_table ht))
    as (t & Et & Lt & Pt & Jt); [lia|lia| |done|].
  { by rewrite <- Emax, <- Em. }
  exists t. subst hash. cbn in Et. rewrite <- Emax, <- Em in Et. split; [done|]. intros ht'.
  assert (ht_num ht' = ht_num ht + 1) as En'.
  { subst ht'. cbn. apply s32_id. unfold is_s32. lia. }
  apply ht_map_None in Hn.
  assert (NoDup (he_key <$> mkHe dev bnum (HASH dev bnum) p :: ht_ents ht)) as Hnd'.
  { cbn. apply NoDup_cons. done. }
  split; [|split; [done|]].
  - constructor; try done.
    + by exists k.
    + cbn; lia.
    + rewrite En'. unfold ht_ents. cbn. rewrite Jt. cbn [length]. rewrite En. unfold ht_ents. lia.
    + cbn. by rewrite Em, Emax.
    + unfold ht_ents. cbn. by rewrite Jt.
  - etransitivity; [by apply ht_map_perm|]. done.
Qed.

Lemma hash_insert_spec ht dev bnum p s :
  alloc_plenty s → ht_ok ht → ht_num ht < HT_LIMIT → ht_map ht !! (dev, bnum) = None →
  ∃ ht', hash_insert ht dev bnum p s = Ok ((ht', 0), s) ∧ ht_ok ht' ∧
    ht_map ht' = <[(dev, bnum) := p]> (ht_map ht) ∧ ht_num ht' = ht_num ht + 1.
Proof.
  intros Hp Hok Hlim Hn. pose proof (hash_push_spec ht dev bnum p Hok Hlim Hn) as (t & Et & Hok' & En & Em).
  destruct (ht_bucket ht dev bnum Hok) as (c & Hb & Hc).
  assert (chain_find dev bnum c = None) as Ef.
  { destruct (chain_find dev bnum c) as [he|] eqn:Ef; [|done]. exfalso.
    apply chain_find_Some in Ef as [Hin Ek]. apply ht_map_None in Hn. apply Hn.
    apply list_elem_of_fmap. exists he. split; [done|]. apply elem_of_mjoin. eauto. }
  pose proof (ht_size _ Hok) as (k & Hk & Emax).
  assert (0 < 2 ^ k ≤ 2 ^ 29) as Hkb.
  { split; [apply Z.pow_pos_nonneg; lia|]. apply Z.pow_le_mono_r; lia. }
  unfold hash_insert. rewrite Hb. mrun. rewrite Ef. unfold new_hash_ent. mrun.
  rewrite (bind_Ok _ _ _ _ _ (malloc_plenty s Hp)). mrun. rewrite Et. mrun. cbn [ht_max].
  rewrite (s32_id (ht_max ht * 3)) by (unfold is_s32; lia).
  rewrite Z.quot_div_nonneg by lia. rewrite Z.geb_leb.
  destruct (Z.leb_spec (ht_max ht * 3 / 4) (s32 (ht_num ht + 1))) as [Hg|_].
  - cbn in En. destruct (grow_hash_table_spec _ s Hp Hok') as (ht' & Eg & Hg1 & Hg2 & Hg3 & _).
    { cbn. unfold HT_LIMIT in *. rewrite Emax in *.
      destruct (decide (k = 29)) as [->|]; [change (2 ^ 29) with 536870912 in *; Z.div_mod_to_equations; lia|].
      apply Z.pow_le_mono_r; lia. }
    exists ht'. rewrite (bind_Ok _ _ _ _ _ Eg). mrun. cbn. split; [done|].
    split; [done|]. split; [by rewrite Hg2|]. rewrite Hg3. done.
  - eexists. split; [done|]. done.
Qed.

Lemma hash_insert_exists ht dev bnum p s :
  ht_ok ht → is_Some (ht_map ht !! (dev, bnum)) →
  hash_insert ht dev bnum p s = Ok ((ht, EEXIST), s).
Proof.
  intros Hok [q Hq]. destruct (ht_bucket ht dev bnum Hok) as (c & Hb & Hc).
  pose proof (hash_lookup_spec ht dev bnum Hok) as Hl. unfold hash_lookup in Hl.
  rewrite Hb in Hl. cbn in Hl. unfold hash_insert. rewrite Hb. mrun.
  destruct (chain_find dev bnum c) as [he|]; [done|]. cbn in Hl. congruence.
Qed.

Lemma hash_delete_spec ht dev bnum p :
  ht_ok ht → ht_num ht ≤ HT_LIMIT → ht_map ht !! (dev, bnum) = Some p →
  ∃ ht', hash_delete ht dev bnum = Ok (ht', Some p) ∧ ht_ok ht' ∧
    ht_map ht' = delete (dev, bnum) (ht_map ht) ∧ ht_num ht' = ht_num ht - 1.
Proof.
  intros Hok Hlim Hq. destruct (ht_bucket ht dev bnum Hok) as (c & Hb & Hc).
  pose proof (hash_lookup_spec ht dev bnum Hok) as Hl. unfold hash_lookup in Hl.
  rewrite Hb in Hl. cbn in Hl. rewrite Hq in Hl.
  unfold hash_delete. rewrite Hb. cbn.
  destruct (chain_find dev bnum c) as [he|] eqn:Ef; [|done]. cbn in Hl. simplify_eq.
  pose proof (chain_find_Some _ _ _ _ Ef) as [Hin Ek].
  pose proof (chain_unlink_perm _ _ _ _ Ef) as Hperm.
  eexists. split; [done|].
  set (t' := <[_ := _]> _). set (ht' := mkHt t' _ _ _).
  assert (ht_ents ht ≡ₚ he :: ht_ents ht') as HP.
  { apply (Permutation_app_inv_r (chain_unlink dev bnum c)).
    etransitivity; [symmetry; apply (mjoin_insert_perm _ _ _ (chain_unlink dev bnum c) Hc)|].
    fold t'. etransitivity; [by apply Permutation_app_head|]. unfold ht_ents.
    subst ht'. cbn [ht_table]. solve_Permutation. }
  assert (NoDup (he_key <$> he :: ht_ents ht')) as Hnd by (rewrite <- HP; apply Hok).
  pose proof (ht_num_eq _ Hok) as En. pose proof (Permutation_length HP) as Hlen. cbn [length] in Hlen.
  assert (s32 (ht_num ht - 1) = ht_num ht - 1) as Es.
  { apply s32_id. unfold is_s32, HT_LIMIT in *. lia. }
  cbn in Hnd. apply NoDup_cons in Hnd as [Hni Hnd].
  pose proof Hok as [Hsz Em El _ Hpl _].
  split; [|split].
  - constructor; try done.
    + subst ht' t'. cbn. by rewrite length_insert.
    + change (s32 (ht_num ht - 1) = zlen (ht_ents ht')). lia.
    + apply (placed_sub _ _ _ c); [done..|]. intros x Hx. rewrite Hperm. by right.
  - pose proof (ht_map_perm ht _ HP) as Hm. rewrite Hm by (cbn; by apply NoDup_cons).
    cbn. rewrite Ek. rewrite delete_insert_id; [done|].
    rewrite Ek in Hni. change (ht_map ht' !! (dev, bnum) = None). by apply ht_map_None.
  - subst ht'. cbn. done.
Qed.

Lemma hash_delete_absent ht dev bnum :
  ht_ok ht → ht_map ht !! (dev, bnum) = None → hash_delete ht dev bnum = Ok (ht, None).
Proof.
  intros Hok Hq. destruct (ht_bucket ht dev bnum Hok) as (c & Hb & Hc).
  pose proof (hash_lookup_spec ht dev bnum Hok) as Hl. unfold hash_lookup in Hl.
  rewrite Hb in Hl. cbn in Hl. unfold hash_delete. rewrite Hb. cbn.
  destruct (chain_find dev bnum c); [|done]. cbn in Hl. congruence.
Qed.

Lemma init_hash_table_spec s :
  alloc_plenty s → ∃ ht, init_hash_table s = Ok ((ht, 0), s) ∧ ht_ok ht ∧ ht_map ht = ∅ ∧ ht_num ht = 0.
Proof.
  intros Hp. eexists. unfold init_hash_table. rewrite (bind_Ok _ _ _ _ _ (malloc_plenty s Hp)). mrun.
  split; [done|]. split; [|done]. constructor; try done.
  - exists 7. done.
  - intros i c he Hi. cbn [ht_table] in Hi. apply lookup_replicate in Hi as [-> _]. set_solver.
  - cbn. constructor.
Qed.
End Table.

(** * Refinement

    A run of table operations, and the same run on a finite map. *)

Inductive hash_op : Type :=
  | HInsert (dev bnum : Z) (data : ptr)
  | HLookup (dev bnum : Z)
  | HDelete (dev bnum : Z).

Inductive hash_res : Type := RStatus (r : Z) | RData (p : option ptr).

Section Runs.
Context {S : Type} `{Allocator S}.

Definition run_op (o : hash_op) (ht : hash_table) : M S (hash_table * hash_res) :=
  match o with
  | HInsert d b p => r ← hash_insert ht d b p; mret (r.1, RStatus r.2)
  | HLookup d b => p ← liftO (hash_lookup ht d b); mret (ht, RData p)
  | HDelete d b => r ← liftO (hash_delete ht d b); mret (r.1, RData r.2)
  end.

Fixpoint run_ops (ops : list hash_op) (ht : hash_table) : M S (hash_table * list hash_res) :=
  match ops with
  | [] => mret (ht, [])
  | o :: ops => r ← run_op o ht; rs ← run_ops ops r.1; mret (rs.1, r.2 :: rs.2)
  end.
End Runs.

Definition spec_op (o : hash_op) (m : gmap (Z * Z) ptr) : gmap (Z * Z) ptr * hash_res :=
  match o with
  | HInsert d b p =>
      match m !! (d, b) with
      | Some _ => (m, RStatus EEXIST)
      | None => (<[(d, b) := p]> m, RStatus 0)
      end
  | HLookup d b => (m, RData (m !! (d, b)))
  | HDelete d b => (delete (d, b) m, RData (m !! (d, b)))
  end.

Fixpoint spec_ops (ops : list hash_op) (m : gmap (Z * Z) ptr)
    : gmap (Z * Z) ptr * list hash_res :=
  match ops with
  | [] => (m, [])
  | o :: ops => let r := spec_op o m in let rs := spec_ops ops r.1 in (rs.1, r.2 :: rs.2)
  end.

Section Refinement.
Context {S : Type} `{Allocator S}.

Lemma run_op_refines o ht (s : S) :
  alloc_plenty s → ht_ok ht → ht_num ht < HT_LIMIT →
  ∃ ht', run_op o ht s = Ok ((ht', (spec_op o (ht_map ht)).2), s) ∧ ht_ok ht' ∧
    ht_map ht' = (spec_op o (ht_map ht)).1 ∧ ht_num ht' ≤ ht_num ht + 1.
Proof.
  intros Hp Hok Hlim. destruct o as [d b p|d b|d b]; cbn [run_op spec_op].
  - destruct (ht_map ht !! (d, b)) as [q|] eqn:Eq; cbn.
    + exists ht. rewrite (bind_Ok _ _ _ _ _ (hash_insert_exists ht d b p s Hok (mk_is_Some _ _ Eq))).
      split; [done|]. split; [done|]. split; [done|lia].
    + destruct (hash_insert_spec ht d b p s Hp Hok Hlim Eq) as (ht' & E & ? & ? & ?).
      exists ht'. rewrite (bind_Ok _ _ _ _ _ E). split; [done|]. split; [done|]. split; [done|lia].
  - exists ht. rewrite hash_lookup_spec by done. split; [done|]. split; [done|]. split; [done|lia].
  - destruct (ht_map ht !! (d, b)) as [q|] eqn:Eq; cbn.
    + destruct (hash_delete_spec ht d b q Hok) as (ht' & E & ? & ? & ?); [lia|done|].
      exists ht'. rewrite E. split; [done|]. split; [done|]. split; [done|lia].
    + exists ht. rewrite hash_delete_absent by done. split; [done|]. split; [done|].
      split; [by rewrite delete_id|lia].
Qed.

Lemma run_ops_refines ops ht (s : S) :
  alloc_plenty s → ht_ok ht → ht_num ht + zlen ops ≤ HT_LIMIT →
  ∃ ht', run_ops ops ht s = Ok ((ht', (spec_ops ops (ht_map ht)).2), s) ∧ ht_ok ht' ∧
    ht_map ht' = (spec_ops ops (ht_map ht)).1.
Proof.
  intros Hp. revert ht. induction ops as [|o ops IH]; intros ht Hok Hlim; [by exists ht|].
  cbn [length] in Hlim.
  destruct (run_op_refines o ht s Hp Hok) as (h1 & E1 & Hok1 & Hm1 & Hn1); [lia|].
  destruct (IH h1 Hok1) as (h2 & E2 & Hok2 & Hm2); [lia|].
  exists h2. cbn [run_ops spec_ops]. rewrite (bind_Ok _ _ _ _ _ E1). cbn [fst snd].
  rewrite (bind_Ok _ _ _ _ _ E2). rewrite <- Hm1. done.
Qed.
End Refinement.

(** C26. Starting from [init_hash_table], any sequence of at most 2^28 inserts,
    lookups and deletes - growing the table whenever it is three quarters
    full - gives the results of the same operations on a finite map from
    (device, block number) to entries, and ends in a table that holds exactly
    that map: no entry is lost or duplicated by a rehash, EEXIST is answered
    exactly for present keys and a deleted key is found no more. *)
Theorem hash_table_refines {S} `{Allocator S} (s : S) (ops : list hash_op) :
  alloc_plenty s → zlen ops ≤ HT_LIMIT →
  ∃ ht ht', init_hash_table s = Ok ((ht, 0), s) ∧
    run_ops ops ht s = Ok ((ht', (spec_ops ops ∅).2), s) ∧
    ht_ok ht' ∧ ht_map ht' = (spec_ops ops ∅).1.
Proof.
  intros Hp Hlim. destruct (init_hash_table_spec s Hp) as (ht & E & Hok & Hm & Hn).
  destruct (run_ops_refines ops ht s Hp Hok) as (ht' & E' & Hok' & Hm'); [lia|].
  rewrite Hm in E', Hm'. exists ht, ht'. done.
Qed.

(** 100 inserts force a growth; the results of the whole run are as on the map. *)
Definition sample_ops : list hash_op :=
  ((λ i, HInsert (Z.of_nat i mod 3) (Z.of_nat i * 128) (Pos.of_succ_nat i)) <$> seq 0 100) ++
  [HLookup 0 384; HDelete 0 384; HLookup 0 384; HInsert 1 128 7%positive; HLookup 2 256].

Lemma hash_table_refines_witness :
  (zlen sample_ops ≤ HT_LIMIT) ∧
  ∃ ht ht', init_hash_table tt = Ok ((ht, 0), tt) ∧
    run_ops sample_ops ht tt = Ok ((ht', (spec_ops sample_ops ∅).2), tt) ∧
    ht_ok ht' ∧ ht_map ht' = (spec_ops sample_ops ∅).1.
Proof.
  split; [vm_compute; discriminate|]. apply hash_table_refines; [done|]. vm_compute. discriminate.
Defined.

Example sample_grows : 
  (r ← init_hash_table; rs ← run_ops sample_ops r.1; mret (ht_max rs.1, drop 100 rs.2)) tt =
  Ok ((256, [RData (Some 4%positive); RData (Some 4%positive); RData None; RStatus EEXIST;
             RData (Some 3%positive)]), tt).
Proof. vm_compute. reflexivity. Qed.
