(* ===== verification/CacheState.v ===== *)
(** The state of the userlandfs block cache (src/add-ons/kernel/file_systems/
    userlandfs/server/beos/fs_cache.c and fs_cache_priv.h): cache entries with
    their list links, the two LRU lists, the iovec pool, and the devices behind
    the cache; with the list operations and the pool, and what each does.

    Entries live in [heap]; a freed entry is not in it, so an access through a
    dangling pointer is [Bad UseAfterFree].  The data and clone blocks of an
    entry are owned by the entry and kept in it; NULL is [None].  [beos_panic]
    loops for ever: it is [Hang].  [mem] says whether the next allocations (of
    memory or of a semaphore) succeed and [io] what the next device transfers
    do; once a script is used up, everything succeeds. *)

From S2P Require Import Prelude Errors CacheHash.

Record cache_ent : Type := mkCe {
  ce_dev : Z; ce_block_num : Z; ce_bsize : Z; ce_flags : Z;
  ce_data : option (list Z); ce_clone : option (list Z); ce_lock : Z;
  ce_func : option Z; ce_logged_bnum : Z; ce_arg : Z;
  ce_next : option ptr; ce_prev : option ptr
}.

Definition CE_NORMAL : Z := 0x0000.
Definition CE_DIRTY : Z := 0x0002.
Definition CE_BUSY : Z := 0x0004.

Record cache_ent_list : Type := mkCel { lru : option ptr; mru : option ptr }.

(** What the next transfer does: all of it, at most [k] bytes, or an error. *)
Inductive io_outcome : Type := IoAll | IoPart (k : Z) | IoErr.

(** [func(logged_bnum, 1, arg)]: a call of a client's callback. *)
Record callback : Type := mkCall { call_func : Z; call_bnum : Z; call_arg : Z }.

(** [bc_held]/[iov_held]: whether the locks are taken; [bc_sem]/[iov_sem] are
    their semaphores ([beos_lock.s]).  [disks] holds the bytes of the devices. *)
Record state : Type := mkState {
  bc_sem : Z; bc_held : bool; bc_flags : Z; cur_blocks : Z; max_blocks : Z;
  ht : hash_table; normal : cache_ent_list; locked : cache_ent_list;
  iov_sem : Z; iov_held : bool; iovec_pool : list bool; iovec_used : list Z;
  max_device_blocks : list Z;
  heap : gmap ptr cache_ent; next_ptr : ptr;
  mem : list bool; disks : gmap Z (list Z); io : list io_outcome; calls : list callback
}.

Abbreviation C := (M state).

(** * Field updates *)

Definition set_dev d c := mkCe d (ce_block_num c) (ce_bsize c) (ce_flags c) (ce_data c)
  (ce_clone c) (ce_lock c) (ce_func c) (ce_logged_bnum c) (ce_arg c) (ce_next c) (ce_prev c).
Definition set_block_num b c := mkCe (ce_dev c) b (ce_bsize c) (ce_flags c) (ce_data c)
  (ce_clone c) (ce_lock c) (ce_func c) (ce_logged_bnum c) (ce_arg c) (ce_next c) (ce_prev c).
Definition set_bsize b c := mkCe (ce_dev c) (ce_block_num c) b (ce_flags c) (ce_data c)
  (ce_clone c) (ce_lock c) (ce_func c) (ce_logged_bnum c) (ce_arg c) (ce_next c) (ce_prev c).
Definition set_flags f c := mkCe (ce_dev c) (ce_block_num c) (ce_bsize c) f (ce_data c)
  (ce_clone c) (ce_lock c) (ce_func c) (ce_logged_bnum c) (ce_arg c) (ce_next c) (ce_prev c).
Definition set_data d c := mkCe (ce_dev c) (ce_block_num c) (ce_bsize c) (ce_flags c) d
  (ce_clone c) (ce_lock c) (ce_func c) (ce_logged_bnum c) (ce_arg c) (ce_next c) (ce_prev c).
Definition set_clone d c := mkCe (ce_dev c) (ce_block_num c) (ce_bsize c) (ce_flags c) (ce_data c)
  d (ce_lock c) (ce_func c) (ce_logged_bnum c) (ce_arg c) (ce_next c) (ce_prev c).
Definition set_lock l c := mkCe (ce_dev c) (ce_block_num c) (ce_bsize c) (ce_flags c) (ce_data c)
  (ce_clone c) l (ce_func c) (ce_logged_bnum c) (ce_arg c) (ce_next c) (ce_prev c).
Definition set_func f c := mkCe (ce_dev c) (ce_block_num c) (ce_bsize c) (ce_flags c) (ce_data c)
  (ce_clone c) (ce_lock c) f (ce_logged_bnum c) (ce_arg c) (ce_next c) (ce_prev c).
Definition set_logged_bnum b c := mkCe (ce_dev c) (ce_block_num c) (ce_bsize c) (ce_flags c)
  (ce_data c) (ce_clone c) (ce_lock c) (ce_func c) b (ce_arg c) (ce_next c) (ce_prev c).
Definition set_arg a c := mkCe (ce_dev c) (ce_block_num c) (ce_bsize c) (ce_flags c)
  (ce_data c) (ce_clone c) (ce_lock c) (ce_func c) (ce_logged_bnum c) a (ce_next c) (ce_prev c).
Definition set_next p c := mkCe (ce_dev c) (ce_block_num c) (ce_bsize c) (ce_flags c) (ce_data c)
  (ce_clone c) (ce_lock c) (ce_func c) (ce_logged_bnum c) (ce_arg c) p (ce_prev c).
Definition set_prev p c := mkCe (ce_dev c) (ce_block_num c) (ce_bsize c) (ce_flags c) (ce_data c)
  (ce_clone c) (ce_lock c) (ce_func c) (ce_logged_bnum c) (ce_arg c) (ce_next c) p.

Definition upd_bc_lock sm h s := mkState sm h (bc_flags s) (cur_blocks s) (max_blocks s) (ht s)
  (normal s) (locked s) (iov_sem s) (iov_held s) (iovec_pool s) (iovec_used s)
  (max_device_blocks s) (heap s) (next_ptr s) (mem s) (disks s) (io s) (calls s).
Definition upd_sizes f c m s := mkState (bc_sem s) (bc_held s) f c m (ht s)
  (normal s) (locked s) (iov_sem s) (iov_held s) (iovec_pool s) (iovec_used s)
  (max_device_blocks s) (heap s) (next_ptr s) (mem s) (disks s) (io s) (calls s).
Definition upd_ht h s := mkState (bc_sem s) (bc_held s) (bc_flags s) (cur_blocks s) (max_blocks s) h
  (normal s) (locked s) (iov_sem s) (iov_held s) (iovec_pool s) (iovec_used s)
  (max_device_blocks s) (heap s) (next_ptr s) (mem s) (disks s) (io s) (calls s).
Definition upd_lists n l h s := mkState (bc_sem s) (bc_held s) (bc_flags s) (cur_blocks s)
  (max_blocks s) (ht s) n l (iov_sem s) (iov_held s) (iovec_pool s) (iovec_used s)
  (max_device_blocks s) h (next_ptr s) (mem s) (disks s) (io s) (calls s).
Definition upd_iov sm h p u s := mkState (bc_sem s) (bc_held s) (bc_flags s) (cur_blocks s)
  (max_blocks s) (ht s) (normal s) (locked s) sm h p u
  (max_device_blocks s) (heap s) (next_ptr s) (mem s) (disks s) (io s) (calls s).
Definition upd_devices d s := mkState (bc_sem s) (bc_held s) (bc_flags s) (cur_blocks s)
  (max_blocks s) (ht s) (normal s) (locked s) (iov_sem s) (iov_held s) (iovec_pool s)
  (iovec_used s) d (heap s) (next_ptr s) (mem s) (disks s) (io s) (calls s).
Definition upd_heap h n s := mkState (bc_sem s) (bc_held s) (bc_flags s) (cur_blocks s)
  (max_blocks s) (ht s) (normal s) (locked s) (iov_sem s) (iov_held s) (iovec_pool s)
  (iovec_used s) (max_device_blocks s) h n (mem s) (disks s) (io s) (calls s).
Definition upd_mem m s := mkState (bc_sem s) (bc_held s) (bc_flags s) (cur_blocks s)
  (max_blocks s) (ht s) (normal s) (locked s) (iov_sem s) (iov_held s) (iovec_pool s)
  (iovec_used s) (max_device_blocks s) (heap s) (next_ptr s) m (disks s) (io s) (calls s).
Definition upd_disks d i s := mkState (bc_sem s) (bc_held s) (bc_flags s) (cur_blocks s)
  (max_blocks s) (ht s) (normal s) (locked s) (iov_sem s) (iov_held s) (iovec_pool s)
  (iovec_used s) (max_device_blocks s) (heap s) (next_ptr s) (mem s) d i (calls s).
Definition upd_calls c s := mkState (bc_sem s) (bc_held s) (bc_flags s) (cur_blocks s)
  (max_blocks s) (ht s) (normal s) (locked s) (iov_sem s) (iov_held s) (iovec_pool s)
  (iovec_used s) (max_device_blocks s) (heap s) (next_ptr s) (mem s) (disks s) (io s) c.

#[global] Program Instance state_allocator : Allocator state :=
  {| alloc_next := λ s, match mem s with [] => (true, s) | b :: m => (b, upd_mem m s) end;
     alloc_plenty := λ s, mem s = [] |}.
Next Obligation. intros s E. cbn. by rewrite E. Qed.

(** * Pointers *)

Definition load (p : ptr) : C cache_ent := λ s,
  match heap s !! p with Some c => Ok (c, s) | None => Bad UseAfterFree end.

(** [p->field = ...] *)
Definition store (p : ptr) (f : cache_ent → cache_ent) : C unit := λ s,
  match heap s !! p with
  | Some _ => Ok (tt, upd_heap (alter f p (heap s)) (next_ptr s) s)
  | None => Bad UseAfterFree
  end.

(** A pointer variable that should not be NULL here. *)
Definition deref {S A} (o : option A) : M S A :=
  match o with Some p => mret p | None => failM NullDeref end.

Definition free_ent (p : ptr) : C unit := λ s,
  match heap s !! p with
  | Some _ => Ok (tt, upd_heap (delete p (heap s)) (next_ptr s) s)
  | None => Bad UseAfterFree
  end.

(** [beos_panic]: prints, then [while (TRUE);]. *)
Definition beos_panic {A} : C A := hangM.

(** [LOCK(bc.lock)] while this thread holds the lock never returns. *)
Definition LOCK_bc : C unit := λ s,
  if bc_held s then Bad Deadlock else Ok (tt, upd_bc_lock (bc_sem s) true s).
Definition UNLOCK_bc : C unit := modifyS (λ s, upd_bc_lock (bc_sem s) false s).

Definition is_dirty (c : cache_ent) : bool := negb (Z.land (ce_flags c) CE_DIRTY =? 0).
Definition is_busy (c : cache_ent) : bool := negb (Z.land (ce_flags c) CE_BUSY =? 0).
Definition or_flags (m : Z) (c : cache_ent) : cache_ent := set_flags (Z.lor (ce_flags c) m) c.
Definition clear_flags (m : Z) (c : cache_ent) : cache_ent :=
  set_flags (Z.land (ce_flags c) (Z.lnot m)) c.
Definition has {A} (o : option A) : bool := bool_decide (is_Some o).

(** * The LRU lists

    [&bc.normal] and [&bc.locked]. *)

Inductive which : Type := Normal | Locked.

#[global] Instance which_eq_dec : EqDecision which.
Proof. solve_decision. Defined.

Definition get_list (w : which) (s : state) : cache_ent_list :=
  match w with Normal => normal s | Locked => locked s end.
Definition set_list (w : which) (l : cache_ent_list) (s : state) : state :=
  match w with
  | Normal => upd_lists l (locked s) (heap s) s
  | Locked => upd_lists (normal s) l (heap s) s
  end.

Definition when_ptr (o : option ptr) (k : ptr → C unit) : C unit :=
  match o with Some p => k p | None => mret tt end.

Definition delete_from_list (w : which) (ce : ptr) : C unit :=
  c ← load ce; when_ptr (ce_next c) (λ n, store n (set_prev (ce_prev c)));;
  c ← load ce; when_ptr (ce_prev c) (λ p, store p (set_next (ce_next c)));;
  c ← load ce;
  modifyS (λ s, if bool_decide (lru (get_list w s) = Some ce)
                then set_list w (mkCel (ce_next c) (mru (get_list w s))) s else s);;
  modifyS (λ s, if bool_decide (mru (get_list w s) = Some ce)
                then set_list w (mkCel (lru (get_list w s)) (ce_prev c)) s else s);;
  store ce (set_next None);;
  store ce (set_prev None).

(** Adds at the MRU end. *)
Definition add_to_head (w : which) (ce : ptr) : C unit :=
  c ← load ce;
  if has (ce_next c) || has (ce_prev c) then beos_panic
  else
    s ← getS;
    store ce (set_next None);;
    store ce (set_prev (mru (get_list w s)));;
    when_ptr (mru (get_list w s)) (λ m, store m (set_next (Some ce)));;
    modifyS (λ s, set_list w (mkCel (lru (get_list w s)) (Some ce)) s);;
    modifyS (λ s, if has (lru (get_list w s)) then s
                  else set_list w (mkCel (Some ce) (mru (get_list w s))) s).

(** Adds at the LRU end. *)
Definition add_to_tail (w : which) (ce : ptr) : C unit :=
  c ← load ce;
  if has (ce_next c) || has (ce_prev c) then beos_panic
  else
    s ← getS;
    store ce (set_next (lru (get_list w s)));;
    store ce (set_prev None);;
    when_ptr (lru (get_list w s)) (λ l, store l (set_prev (Some ce)));;
    modifyS (λ s, set_list w (mkCel (Some ce) (mru (get_list w s))) s);;
    modifyS (λ s, if has (mru (get_list w s)) then s
                  else set_list w (mkCel (lru (get_list w s)) (Some ce)) s).

(** * The iovec pool

    An iovec array is named by its slot in [iovec_pool] (the slot says whether
    it is allocated). *)

Definition MAX_IOVECS : Z := 64.
Definition NUM_FLUSH_BLOCKS : Z := 64.

Fixpoint first_free (i : nat) (used : list Z) : nat :=
  match used with
  | [] => i
  | u :: used => if u =? 0 then i else first_free (S i) used
  end.

Definition LOCK_iov : C unit := λ s,
  if iov_held s then Bad Deadlock
  else Ok (tt, upd_iov (iov_sem s) true (iovec_pool s) (iovec_used s) s).
Definition UNLOCK_iov : C unit :=
  modifyS (λ s, upd_iov (iov_sem s) false (iovec_pool s) (iovec_used s) s).

Definition get_iovec_array : C nat :=
  LOCK_iov;;
  s ← getS;
  let i := first_free 0 (iovec_used s) in
  if bool_decide (MAX_IOVECS ≤ Z.of_nat i) then beos_panic
  else
    a ← deref (iovec_pool s !! i);
    (if a : bool then mret tt
     else ok ← malloc;
          if ok : bool then
            modifyS (λ s, upd_iov (iov_sem s) (iov_held s) (<[i := true]> (iovec_pool s))
                                  (iovec_used s) s)
          else beos_panic);;
    modifyS (λ s, upd_iov (iov_sem s) (iov_held s) (iovec_pool s)
                          (<[i := 1]> (iovec_used s)) s);;
    UNLOCK_iov;;
    mret i.

(** The first slot that holds the array is released; a foreign one only prints. *)
Definition release_iovec_array (iov : nat) : C unit :=
  LOCK_iov;;
  modifyS (λ s, if bool_decide (iovec_pool s !! iov = Some true)
                then upd_iov (iov_sem s) (iov_held s) (iovec_pool s)
                             (<[iov := 0]> (iovec_used s)) s
                else s);;
  UNLOCK_iov.

(** * Reasoning about the heap

    The links of the entries and everything else in them are changed by
    different operations: [erase] forgets the links. *)

Definition erase (c : cache_ent) : cache_ent := set_next None (set_prev None c).
Abbreviation bodies h := (erase <$> h).

(** [p] is an entry with these neighbours. *)
Definition linked (h : gmap ptr cache_ent) (p : ptr) (pv nx : option ptr) : Prop :=
  ∃ c, h !! p = Some c ∧ ce_prev c = pv ∧ ce_next c = nx.

Definition first (l : list ptr) (nx : option ptr) : option ptr :=
  match l with [] => nx | p :: _ => Some p end.
Fixpoint final (pv : option ptr) (l : list ptr) : option ptr :=
  match l with [] => pv | p :: l => final (Some p) l end.

(** A doubly linked segment, from the LRU to the MRU end. *)
Fixpoint dseg (h : gmap ptr cache_ent) (pv : option ptr) (l : list ptr) (nx : option ptr) : Prop :=
  match l with
  | [] => True
  | p :: l => linked h p pv (first l nx) ∧ dseg h (Some p) l nx
  end.

Record list_rep (h : gmap ptr cache_ent) (cel : cache_ent_list) (l : list ptr) : Prop := {
  rep_lru : lru cel = first l None;
  rep_mru : mru cel = final None l;
  rep_seg : dseg h None l None
}.

Section Segments.
Implicit Types (h : gmap ptr cache_ent) (l : list ptr).

Lemma first_app l1 l2 nx : first (l1 ++ l2) nx = first l1 (first l2 nx).
Proof. by destruct l1. Qed.

Lemma final_app pv l1 l2 : final pv (l1 ++ l2) = final (final pv l1) l2.
Proof. revert pv. induction l1; cbn; auto. Qed.

Lemma final_None pv l : final pv l = None ↔ pv = None ∧ l = [].
Proof.
  revert pv. induction l as [|p l IH]; intros pv; cbn; [naive_solver|].
  rewrite IH. naive_solver.
Qed.

Lemma first_None l nx : first l nx = None ↔ nx = None ∧ l = [].
Proof. destruct l; naive_solver. Qed.

Lemma final_Some_in l q : final None l = Some q → ∃ l0, l = l0 ++ [q].
Proof.
  destruct l as [|x l0 _] using rev_ind; [done|]. rewrite final_app. cbn.
  intros [= ->]. eauto.
Qed.

Lemma dseg_app h pv l1 l2 nx :
  dseg h pv (l1 ++ l2) nx ↔ dseg h pv l1 (first l2 nx) ∧ dseg h (final pv l1) l2 nx.
Proof.
  revert pv. induction l1 as [|p l1 IH]; intros pv; cbn; [naive_solver|].
  rewrite IH, first_app. naive_solver.
Qed.

Lemma dseg_frame h h' pv l nx :
  (∀ p pv nx, p ∈ l → linked h p pv nx → linked h' p pv nx) → dseg h pv l nx → dseg h' pv l nx.
Proof.
  revert pv. induction l as [|p l IH]; intros pv Hf; cbn; [done|].
  intros [Hp Hl]. split; [apply Hf; set_solver|]. apply IH; set_solver.
Qed.

Lemma dseg_in h pv l nx p : dseg h pv l nx → p ∈ l → ∃ c, h !! p = Some c.
Proof.
  revert pv. induction l as [|q l IH]; intros pv; cbn; [set_solver|].
  intros [(c & Hc & _) Hl] [->|Hin]%elem_of_cons; eauto.
Qed.

(** Changing a link of an entry outside the segment. *)
Lemma linked_alter_ne f h p q pv nx : p ≠ q → linked (alter f q h) p pv nx ↔ linked h p pv nx.
Proof. intros Hne. unfold linked. by rewrite lookup_alter_ne. Qed.

Lemma linked_set_next h p pv nx nx' : linked h p pv nx → linked (alter (set_next nx') p h) p pv nx'.
Proof. intros (c & Hc & <- & <-). exists (set_next nx' c). by rewrite lookup_alter_eq, Hc. Qed.

Lemma linked_set_prev h p pv nx pv' : linked h p pv nx → linked (alter (set_prev pv') p h) p pv' nx.
Proof. intros (c & Hc & <- & <-). exists (set_prev pv' c). by rewrite lookup_alter_eq, Hc. Qed.

(** Changes that do not touch the links. *)
Definition keeps_links (f : cache_ent → cache_ent) : Prop :=
  ∀ c, ce_next (f c) = ce_next c ∧ ce_prev (f c) = ce_prev c.

Lemma linked_keeps f h p q pv nx : keeps_links f → linked h p pv nx → linked (alter f q h) p pv nx.
Proof.
  intros Hf (c & Hc & <- & <-). destruct (decide (p = q)) as [->|Hne].
  - exists (f c). rewrite lookup_alter_eq, Hc. split; [done|]. destruct (Hf c). done.
  - exists c. by rewrite lookup_alter_ne.
Qed.

Lemma dseg_alter_notin f h q pv l nx : q ∉ l → dseg h pv l nx → dseg (alter f q h) pv l nx.
Proof.
  intros Hq. apply dseg_frame. intros p ? ? Hp Hl. apply linked_alter_ne; [set_solver|done].
Qed.

Lemma dseg_keeps f h q pv l nx : keeps_links f → dseg h pv l nx → dseg (alter f q h) pv l nx.
Proof. intros Hf. apply dseg_frame. intros. by apply linked_keeps. Qed.

(** The successor of the last entry and the predecessor of the first. *)
Lemma dseg_next_last h pv l m nx nx' :
  (m ∉ l) → dseg h pv (l ++ [m]) nx → dseg (alter (set_next nx') m h) pv (l ++ [m]) nx'.
Proof.
  intros Hm [Hl [Hx _]]%dseg_app. apply dseg_app. split.
  - by apply dseg_alter_notin.
  - split; [|done]. by eapply linked_set_next.
Qed.

Lemma dseg_prev_first h pv m l nx pv' :
  (m ∉ l) → dseg h pv (m :: l) nx → dseg (alter (set_prev pv') m h) pv' (m :: l) nx.
Proof.
  intros Hm [Hx Hl]. split; [by eapply linked_set_prev|]. by apply dseg_alter_notin.
Qed.

Lemma bodies_set_next h p x : bodies (alter (set_next x) p h) = bodies h.
Proof.
  apply map_eq. intros q. rewrite !lookup_fmap. destruct (decide (p = q)) as [->|Hne].
  - rewrite lookup_alter_eq. by destruct (h !! q).
  - by rewrite lookup_alter_ne.
Qed.

Lemma bodies_set_prev h p x : bodies (alter (set_prev x) p h) = bodies h.
Proof.
  apply map_eq. intros q. rewrite !lookup_fmap. destruct (decide (p = q)) as [->|Hne].
  - rewrite lookup_alter_eq. by destruct (h !! q).
  - by rewrite lookup_alter_ne.
Qed.

Lemma bodies_alter f h p :
  (∀ c, erase (f c) = f (erase c)) → bodies (alter f p h) = alter f p (bodies h).
Proof.
  intros Hf. apply map_eq. intros q. rewrite lookup_fmap. destruct (decide (p = q)) as [->|Hne].
  - rewrite !lookup_alter_eq, lookup_fmap. destruct (h !! q); cbn; [by rewrite Hf|done].
  - by rewrite !lookup_alter_ne, lookup_fmap.
Qed.
End Segments.

(** * What the list operations do

    [ls] are the two lists, in LRU order. *)

Definition lset (w : which) (l : list ptr) (ls : which → list ptr) : which → list ptr := λ w',
  match w, w' with Normal, Normal | Locked, Locked => l | _, _ => ls w' end.

Record lists_rep (s : state) (ls : which → list ptr) : Prop := {
  lr_each w : list_rep (heap s) (get_list w s) (ls w);
  lr_nodup : NoDup (ls Normal ++ ls Locked);
  lr_free p c : heap s !! p = Some c → (p ∉ ls Normal) → (p ∉ ls Locked) →
    ce_next c = None ∧ ce_prev c = None
}.

(** [m] changes the lists to [ls'] and nothing but list ends and links. *)
Definition relinks (m : C unit) (s : state) (ls' : which → list ptr) : Prop :=
  ∃ n l h, m s = Ok (tt, upd_lists n l h s) ∧ bodies h = bodies (heap s) ∧
    lists_rep (upd_lists n l h s) ls'.

Section Lists.
Implicit Types (s : state) (ls : which → list ptr).

Lemma load_run s p c : heap s !! p = Some c → load p s = Ok (c, s).
Proof. intros E. unfold load. by rewrite E. Qed.

Lemma store_run s p c f :
  heap s !! p = Some c → store p f s = Ok (tt, upd_heap (alter f p (heap s)) (next_ptr s) s).
Proof. intros E. unfold store. by rewrite E. Qed.

Lemma lr_other s ls w w' p : lists_rep s ls → p ∈ ls w → p ∈ ls w' → w = w'.
Proof.
  intros [_ Hn _] H1 H2. apply NoDup_app in Hn as (_ & Hd & _).
  destruct w, w'; [done| | |done]; exfalso; eapply Hd; eauto.
Qed.

Lemma lr_list_nodup s ls w : lists_rep s ls → NoDup (ls w).
Proof. intros [_ Hn _]. apply NoDup_app in Hn as (? & _ & ?). by destruct w. Qed.

Lemma lr_notin s ls w p : p ∉ ls Normal → p ∉ ls Locked → p ∉ ls w.
Proof. by destruct w. Qed.

Lemma lset_eq w l ls : lset w l ls w = l.
Proof. by destruct w. Qed.

Lemma lset_ne w w' l ls : w ≠ w' → lset w l ls w' = ls w'.
Proof. by destruct w, w'. Qed.

Lemma get_set_list w w' l s : get_list w' (set_list w l s) = if decide (w = w') then l else get_list w' s.
Proof. by destruct w, w'. Qed.

(** Rebuilding [lists_rep] after the list [w] was changed to [l]: only links of
    its old and new members changed, and an entry taken out has none. *)
Definition with_list (w : which) (cel : cache_ent_list) (h : gmap ptr cache_ent) (s : state) : state :=
  match w with
  | Normal => upd_lists cel (locked s) h s
  | Locked => upd_lists (normal s) cel h s
  end.

Lemma lists_rep_intro s ls w h cel l :
  lists_rep s ls → list_rep h cel l → NoDup l →
  (∀ p w', p ∈ l → p ∈ ls w' → w' = w) →
  (∀ p, (p ∉ l) → (p ∉ ls w) → h !! p = heap s !! p) →
  (∀ p, p ∈ ls w → (p ∉ l) → linked h p None None) →
  lists_rep (with_list w cel h s) (lset w l ls).
Proof.
  intros Hr Hl Hnd Hdis Hsame Hout.
  assert (∀ w', w' ≠ w → list_rep h (get_list w' s) (ls w')) as Hoth.
  { intros w' Hne. destruct (lr_each _ _ Hr w') as [E1 E2 E3]. split; [done..|].
    eapply dseg_frame; [|done]. intros p pv nx Hp (c & Hc & ?). exists c.
    rewrite Hsame; [done| |]; intros Hp'; apply Hne; [by eapply Hdis|by eapply lr_other]. }
  split.
  - intros w'. destruct (decide (w' = w)) as [->|Hne]; [rewrite lset_eq; by destruct w|].
    rewrite lset_ne by done. specialize (Hoth w' Hne). by destruct w, w'.
  - pose proof (lr_nodup _ _ Hr) as (H1 & H2 & H3)%NoDup_app.
    destruct w; cbn; apply NoDup_app; (split; [done|]); (split; [|done]); intros p Hp1 Hp2.
    + by specialize (Hdis p Locked Hp1 Hp2).
    + by specialize (Hdis p Normal Hp2 Hp1).
  - intros p c Hp HN HL. replace (heap (with_list w cel h s)) with h in Hp by (by destruct w).
    assert (p ∉ l) as Hpl by (by destruct w). destruct (decide (p ∈ ls w)) as [Hw|Hw].
    + destruct (Hout p Hw Hpl) as (c' & ? & ? & ?). by simplify_eq.
    + apply (lr_free _ _ Hr p); [by rewrite <- Hsame|by destruct w..].
Qed.

Lemma relinks_intro m s ls w h cel l :
  lists_rep s ls → m s = Ok (tt, with_list w cel h s) → bodies h = bodies (heap s) →
  list_rep h cel l → NoDup l → (∀ p w', p ∈ l → p ∈ ls w' → w' = w) →
  (∀ p, (p ∉ l) → (p ∉ ls w) → h !! p = heap s !! p) →
  (∀ p, p ∈ ls w → (p ∉ l) → linked h p None None) →
  relinks m s (lset w l ls).
Proof.
  intros Hr Hm Hb ? ? ? ? ?. assert (lists_rep (with_list w cel h s) (lset w l ls)) as Hr'
    by (by apply lists_rep_intro).
  destruct w; cbn in *; do 3 eexists; eauto.
Qed.

(** Storing a link of an entry that may be absent. *)
Lemma when_store_run s o f :
  (∀ p, o = Some p → is_Some (heap s !! p)) →
  when_ptr o (λ p, store p f) s =
    Ok (tt, upd_heap (match o with Some p => alter f p (heap s) | None => heap s end) (next_ptr s) s).
Proof.
  intros Ho. destruct o as [p|]; cbn [when_ptr]; [|by destruct s].
  destruct (Ho p eq_refl) as [c Hc]. by apply store_run with c.
Qed.

Lemma list_rep_in h cel l p : list_rep h cel l → p ∈ l → is_Some (h !! p).
Proof. intros [_ _ Hs] Hp. destruct (dseg_in _ _ _ _ p Hs Hp). eauto. Qed.

Lemma list_rep_mru h cel l q : list_rep h cel l → mru cel = Some q → ∃ l0, l = l0 ++ [q].
Proof. intros [_ -> _]. apply final_Some_in. Qed.

Lemma list_rep_lru h cel l q : list_rep h cel l → lru cel = Some q → ∃ l0, l = q :: l0.
Proof. intros [-> _ _]. destruct l; cbn; [done|]. intros [= ->]. eauto. Qed.

(** The links after [add_to_head]. *)
Definition head_heap (w : which) (ce : ptr) (s : state) : gmap ptr cache_ent :=
  let m := mru (get_list w s) in
  let h := alter (set_prev m) ce (alter (set_next None) ce (heap s)) in
  match m with Some q => alter (set_next (Some ce)) q h | None => h end.

Definition tail_heap (w : which) (ce : ptr) (s : state) : gmap ptr cache_ent :=
  let m := lru (get_list w s) in
  let h := alter (set_prev None) ce (alter (set_next m) ce (heap s)) in
  match m with Some q => alter (set_prev (Some ce)) q h | None => h end.

Lemma add_to_head_eval w ce s ls c :
  lists_rep s ls → heap s !! ce = Some c → (∀ w, ce ∉ ls w) →
  add_to_head w ce s =
    Ok (tt, with_list w (mkCel (first (ls w ++ [ce]) None) (Some ce)) (head_heap w ce s) s).
Proof.
  intros Hr Hc Hni. destruct (lr_free _ _ Hr ce c Hc (Hni _) (Hni _)) as [En Ep].
  pose proof (lr_each _ _ Hr w) as Hl.
  unfold add_to_head. rewrite (bind_Ok _ _ _ _ _ (load_run s ce c Hc)). rewrite En, Ep.
  cbn [has]. mrun. change (has None || has None) with false. mrun.
  rewrite (bind_Ok _ _ _ _ _ (store_run s ce c _ Hc)).
  erewrite bind_Ok; [|eapply store_run; cbn; by rewrite lookup_alter_eq, Hc].
  erewrite bind_Ok; [|apply when_store_run; cbn; intros p Hp].
  2: { rewrite !lookup_alter_is_Some. destruct (list_rep_mru _ _ _ _ Hl Hp) as [l0 El].
       eapply list_rep_in; [done|]. rewrite El. set_solver. }
  mrun. unfold head_heap. cbn [heap upd_heap next_ptr].
  pose proof (rep_lru _ _ _ Hl) as Elru. rewrite first_app. cbn [first].
  destruct w; unfold modifyS; cbn in *; rewrite Elru; by destruct (ls _).
Qed.

Lemma head_heap_other w ce s ls p :
  lists_rep s ls → p ≠ ce → (p ∉ ls w) → head_heap w ce s !! p = heap s !! p.
Proof.
  intros Hr Hne Hp. unfold head_heap. destruct (mru (get_list w s)) as [q|] eqn:Em;
    [rewrite lookup_alter_ne|]; rewrite ?lookup_alter_ne by done; [done| |done].
  intros ->. destruct (list_rep_mru _ _ _ _ (lr_each _ _ Hr w) Em) as [l0 El].
  apply Hp. rewrite El. set_solver.
Qed.

Lemma head_heap_rep w ce s ls c :
  lists_rep s ls → heap s !! ce = Some c → (∀ w, ce ∉ ls w) →
  list_rep (head_heap w ce s) (mkCel (first (ls w ++ [ce]) None) (Some ce)) (ls w ++ [ce]).
Proof.
  intros Hr Hc Hni. pose proof (lr_each _ _ Hr w) as Hl. specialize (Hni w).
  pose proof (rep_mru _ _ _ Hl) as Em. pose proof (lr_list_nodup _ _ w Hr) as Hnd.
  split; [done|by rewrite final_app|].
  apply dseg_app. cbn [first dseg]. unfold head_heap. rewrite Em.
  set (h2 := alter _ ce _).
  assert (linked h2 ce (final None (ls w)) None) as Hce.
  { eexists. subst h2. by rewrite !lookup_alter_eq, Hc. }
  destruct (final None (ls w)) as [q|] eqn:Eq.
  - destruct (list_rep_mru _ _ _ _ Hl Em) as [l0 El]. rewrite El in *.
    apply NoDup_app in Hnd as (_ & Hd & _). split.
    + apply (dseg_next_last _ _ _ _ None); [set_solver|].
      do 2 (apply dseg_alter_notin; [done|]). apply Hl.
    + split; [|done]. apply linked_alter_ne; [set_solver|]. done.
  - apply final_None in Eq as [_ ->]. done.
Qed.

Lemma add_to_head_run w ce s ls c :
  lists_rep s ls → heap s !! ce = Some c → (∀ w, ce ∉ ls w) →
  relinks (add_to_head w ce) s (lset w (ls w ++ [ce]) ls).
Proof.
  intros Hr Hc Hni. eapply relinks_intro; [done|by eapply add_to_head_eval| |by eapply head_heap_rep|..].
  - unfold head_heap. destruct (mru _); by rewrite ?bodies_set_next, ?bodies_set_prev, ?bodies_set_next.
  - apply NoDup_app. split; [by eapply lr_list_nodup|]. split; [set_solver|apply NoDup_singleton].
  - intros p w' [Hp|Hp]%elem_of_app Hw'; [by eapply lr_other|set_solver].
  - intros p H1 H2. eapply head_heap_other; [done|set_solver|done].
  - set_solver.
Qed.

Lemma final_cons ce l : final None (ce :: l) = match final None l with Some q => Some q | None => Some ce end.
Proof. destruct l as [|x l _] using rev_ind; [done|]. cbn [final]. by rewrite !final_app. Qed.

Lemma add_to_tail_eval w ce s ls c :
  lists_rep s ls → heap s !! ce = Some c → (∀ w, ce ∉ ls w) →
  add_to_tail w ce s =
    Ok (tt, with_list w (mkCel (Some ce) (final None (ce :: ls w))) (tail_heap w ce s) s).
Proof.
  intros Hr Hc Hni. destruct (lr_free _ _ Hr ce c Hc (Hni _) (Hni _)) as [En Ep].
  pose proof (lr_each _ _ Hr w) as Hl.
  unfold add_to_tail. rewrite (bind_Ok _ _ _ _ _ (load_run s ce c Hc)). rewrite En, Ep.
  mrun. change (has None || has None) with false. mrun.
  rewrite (bind_Ok _ _ _ _ _ (store_run s ce c _ Hc)).
  erewrite bind_Ok; [|eapply store_run; cbn; by rewrite lookup_alter_eq, Hc].
  erewrite bind_Ok; [|apply when_store_run; cbn; intros p Hp].
  2: { rewrite !lookup_alter_is_Some. destruct (list_rep_lru _ _ _ _ Hl Hp) as [l0 El].
       eapply list_rep_in; [done|]. rewrite El. set_solver. }
  mrun. unfold tail_heap. cbn [heap upd_heap next_ptr].
  pose proof (rep_mru _ _ _ Hl) as Em.
  rewrite final_cons.
  destruct w; unfold modifyS; cbn in *; rewrite Em; destruct (final None (ls _)); cbn; by rewrite ?Em.
Qed.

Lemma tail_heap_other w ce s ls p :
  lists_rep s ls → p ≠ ce → (p ∉ ls w) → tail_heap w ce s !! p = heap s !! p.
Proof.
  intros Hr Hne Hp. unfold tail_heap. destruct (lru (get_list w s)) as [q|] eqn:Em;
    [rewrite lookup_alter_ne|]; rewrite ?lookup_alter_ne by done; [done| |done].
  intros ->. destruct (list_rep_lru _ _ _ _ (lr_each _ _ Hr w) Em) as [l0 El].
  apply Hp. rewrite El. set_solver.
Qed.

Lemma tail_heap_rep w ce s ls c :
  lists_rep s ls → heap s !! ce = Some c → (∀ w, ce ∉ ls w) →
  list_rep (tail_heap w ce s) (mkCel (Some ce) (final None (ce :: ls w))) (ce :: ls w).
Proof.
  intros Hr Hc Hni. pose proof (lr_each _ _ Hr w) as Hl. specialize (Hni w).
  pose proof (rep_lru _ _ _ Hl) as Em. pose proof (lr_list_nodup _ _ w Hr) as Hnd.
  split; [done|done|]. cbn [dseg]. unfold tail_heap. rewrite Em.
  set (h2 := alter _ ce _).
  assert (linked h2 ce None (first (ls w) None)) as Hce.
  { eexists. subst h2. by rewrite !lookup_alter_eq, Hc. }
  destruct (ls w) as [|q l0] eqn:El; [done|]. cbn [first] in *.
  apply NoDup_cons in Hnd as [Hq Hnd]. split.
  - apply linked_alter_ne; [set_solver|]. done.
  - apply (dseg_prev_first _ None); [done|].
    do 2 (apply dseg_alter_notin; [done|]). apply Hl.
Qed.

Lemma add_to_tail_run w ce s ls c :
  lists_rep s ls → heap s !! ce = Some c → (∀ w, ce ∉ ls w) →
  relinks (add_to_tail w ce) s (lset w (ce :: ls w) ls).
Proof.
  intros Hr Hc Hni. eapply relinks_intro; [done|by eapply add_to_tail_eval| |by eapply tail_heap_rep|..].
  - unfold tail_heap. destruct (lru _); by rewrite ?bodies_set_prev, ?bodies_set_prev, ?bodies_set_next.
  - apply NoDup_cons. split; [done|by eapply lr_list_nodup].
  - intros p w' [->|Hp]%elem_of_cons Hw'; [by exfalso; eapply Hni|by eapply lr_other].
  - intros p H1 H2. eapply tail_heap_other; [done|set_solver|done].
  - set_solver.
Qed.

(** The links after [delete_from_list] of an entry between [l1] and [l2]. *)
Definition when_alter (o : option ptr) (f : cache_ent → cache_ent) (h : gmap ptr cache_ent) :=
  match o with Some p => alter f p h | None => h end.

Definition unlink_heap (l1 : list ptr) (ce : ptr) (l2 : list ptr) (h : gmap ptr cache_ent) :=
  alter (set_prev None) ce (alter (set_next None) ce
    (when_alter (final None l1) (set_next (first l2 None))
      (when_alter (first l2 None) (set_prev (final None l1)) h))).

Lemma when_alter_other o f h p : o ≠ Some p → when_alter o f h !! p = h !! p.
Proof. intros Ho. destruct o as [q|]; cbn; [|done]. rewrite lookup_alter_ne; congruence. Qed.

Lemma final_in l p : final None l = Some p → p ∈ l.
Proof. intros [l0 ->]%final_Some_in. set_solver. Qed.

Lemma first_in l p : first l None = Some p → p ∈ l.
Proof. destruct l; cbn; [done|]. intros [= ->]. set_solver. Qed.

Lemma final_app_final l1 l2 : final None (l1 ++ l2) = final (final None l1) l2.
Proof. apply final_app. Qed.

(** The ends of the list without [ce]. *)
Lemma lru_after l1 ce l2 :
  (ce ∉ l1) →
  (if bool_decide (first l1 (Some ce) = Some ce) then first l2 None else first l1 (Some ce)) =
    first (l1 ++ l2) None.
Proof.
  intros Hce. rewrite first_app. destruct l1 as [|x l1]; cbn; [by rewrite bool_decide_true|].
  rewrite bool_decide_false; [done|]. intros [= ->]. set_solver.
Qed.

Lemma mru_after l1 ce l2 :
  (ce ∉ l2) →
  (if bool_decide (final (Some ce) l2 = Some ce) then final None l1 else final (Some ce) l2) =
    final None (l1 ++ l2).
Proof.
  intros Hce. rewrite final_app. destruct l2 as [|x l2 _] using rev_ind; cbn; [by rewrite bool_decide_true|].
  rewrite !final_app. cbn. rewrite bool_decide_false; [done|]. intros [= ->]. set_solver.
Qed.

Lemma delete_from_list_eval w ce s ls l1 l2 :
  lists_rep s ls → ls w = l1 ++ ce :: l2 →
  delete_from_list w ce s =
    Ok (tt, with_list w (mkCel (first (l1 ++ l2) None) (final None (l1 ++ l2)))
                      (unlink_heap l1 ce l2 (heap s)) s).
Proof.
  intros Hr El. pose proof (lr_each _ _ Hr w) as Hl. pose proof (lr_list_nodup _ _ w Hr) as Hnd.
  rewrite El in Hnd. apply NoDup_app in Hnd as (Hn1 & Hd & Hn2). apply NoDup_cons in Hn2 as [Hce Hn2].
  pose proof (rep_seg _ _ _ Hl) as Hs. rewrite El in Hs. apply dseg_app in Hs as [Hs1 [Hc Hs2]].
  destruct Hc as (c & Hc & Ep & En).
  assert (∀ p, first l2 None = Some p → p ≠ ce ∧ is_Some (heap s !! p)) as Hfst.
  { intros p Hp%first_in. split; [set_solver|]. eapply (list_rep_in _ _ _ _ Hl). rewrite El. set_solver. }
  assert (∀ p, final None l1 = Some p → p ≠ ce ∧ is_Some (heap s !! p)) as Hfin.
  { intros p Hp%final_in. split; [set_solver|]. eapply (list_rep_in _ _ _ _ Hl). rewrite El. set_solver. }
  set (h1 := when_alter (first l2 None) (set_prev (final None l1)) (heap s)).
  set (h2 := when_alter (final None l1) (set_next (first l2 None)) h1).
  assert (h1 !! ce = Some c) as Hc1.
  { subst h1. rewrite when_alter_other; [done|]. naive_solver. }
  assert (h2 !! ce = Some c) as Hc2.
  { subst h2. rewrite when_alter_other; [done|]. naive_solver. }
  unfold delete_from_list. mstep (load_run s ce c Hc). rewrite En, Ep.
  erewrite bind_Ok; [|apply when_store_run; naive_solver]. fold (when_alter (first l2 None) (set_prev (final None l1)) (heap s)). fold h1.
  mstep (load_run (upd_heap h1 (next_ptr s) s) ce c Hc1). rewrite En, Ep.
  erewrite bind_Ok; [|apply when_store_run].
  2: { cbn. intros p Hp. subst h1. unfold when_alter. destruct (first l2 None); [rewrite lookup_alter_is_Some|]; naive_solver. }
  cbn [heap upd_heap next_ptr]. fold (when_alter (final None l1) (set_next (first l2 None)) h1). fold h2.
  change (upd_heap h2 (next_ptr s) (upd_heap h1 (next_ptr s) s)) with (upd_heap h2 (next_ptr s) s).
  mstep (load_run (upd_heap h2 (next_ptr s) s) ce c Hc2). rewrite En, Ep.
  set (s' := (if bool_decide (mru _ = _) then _ else _)).
  assert (s' = with_list w (mkCel (first (l1 ++ l2) None) (final None (l1 ++ l2))) h2 s) as ->.
  { pose proof (rep_lru _ _ _ Hl) as E1. pose proof (rep_mru _ _ _ Hl) as E2.
    rewrite El in E1, E2. rewrite first_app in E1. rewrite final_app in E2. cbn [first final] in E1, E2.
    assert (ce ∉ l1) as Hce1 by set_solver.
    rewrite <- (lru_after l1 ce l2 Hce1), <- (mru_after l1 ce l2 Hce).
    subst s'. destruct w; cbn in E1, E2; cbn; rewrite E1;
      (destruct (bool_decide (first l1 (Some ce) = Some ce)); cbn; rewrite E2);
      (destruct (bool_decide (final (Some ce) l2 = Some ce)); cbn; rewrite ?E1, ?E2); try done.
    all: unfold upd_heap, upd_lists; cbn; f_equal; rewrite <- ?E1, <- ?E2; by destruct (normal s), (locked s). }
  erewrite bind_Ok; [|apply store_run with c; by destruct w]. mrun.
  erewrite store_run; [|destruct w; cbn; by rewrite lookup_alter_eq, Hc2].
  by destruct w.
Qed.

Lemma unlink_heap_other l1 ce l2 h p :
  (p ∉ l1 ++ ce :: l2) → unlink_heap l1 ce l2 h !! p = h !! p.
Proof.
  intros Hp. unfold unlink_heap. rewrite !lookup_alter_ne by set_solver.
  rewrite !when_alter_other; [done|intros E%first_in; set_solver|intros E%final_in; set_solver].
Qed.

(** The neighbours of [ce] are joined. *)
Lemma unlink_heap_seg l1 ce l2 h :
  NoDup (l1 ++ ce :: l2) → dseg h None (l1 ++ ce :: l2) None →
  dseg (unlink_heap l1 ce l2 h) None (l1 ++ l2) None ∧ linked (unlink_heap l1 ce l2 h) ce None None.
Proof.
  intros (Hn1 & Hd & (Hce & Hn2)%NoDup_cons)%NoDup_app (Hs1 & Hc & Hs2)%dseg_app. unfold unlink_heap.
  set (h1 := when_alter (first l2 None) _ h). set (h2 := when_alter (final None l1) _ h1).
  assert (dseg h1 None l1 (Some ce) ∧ dseg h1 (final None l1) l2 None ∧ linked h1 ce (final None l1) (first l2 None))
    as (Hs1' & Hs2' & Hc').
  { subst h1. destruct l2 as [|y l2]; cbn [first when_alter]; [done|].
    apply NoDup_cons in Hn2 as [Hy Hn2]. split_and!.
    - apply dseg_alter_notin; [set_solver|done].
    - by apply (dseg_prev_first _ (Some ce)).
    - apply linked_alter_ne; [set_solver|done]. }
  assert (dseg h2 None l1 (first l2 None) ∧ dseg h2 (final None l1) l2 None ∧ linked h2 ce (final None l1) (first l2 None))
    as (Hs1'' & Hs2'' & (c & Hc2 & _)).
  { subst h2. destruct (final None l1) as [x|] eqn:Ex; cbn [when_alter].
    - apply final_Some_in in Ex as [l0 ->]. apply NoDup_app in Hn1 as (_ & Hd0 & _). split_and!.
      + eapply dseg_next_last; [set_solver|done].
      + apply dseg_alter_notin; [set_solver|done].
      + apply linked_alter_ne; [set_solver|done].
    - apply final_None in Ex as [_ ->]. done. }
  split.
  - apply dseg_app. split; do 2 (apply dseg_alter_notin; [set_solver|]); done.
  - exists (set_prev None (set_next None c)). by rewrite !lookup_alter_eq, Hc2.
Qed.

Lemma delete_from_list_run w ce s ls l1 l2 :
  lists_rep s ls → ls w = l1 ++ ce :: l2 →
  relinks (delete_from_list w ce) s (lset w (l1 ++ l2) ls).
Proof.
  intros Hr El. pose proof (lr_list_nodup _ _ w Hr) as Hnd.
  pose proof (rep_seg _ _ _ (lr_each _ _ Hr w)) as Hs. rewrite El in Hnd, Hs.
  destruct (unlink_heap_seg l1 ce l2 (heap s) Hnd Hs) as [Hs' Hc].
  eapply relinks_intro; [done|by eapply delete_from_list_eval| | |..].
  - unfold unlink_heap. rewrite bodies_set_prev, bodies_set_next. unfold when_alter.
    destruct (final None l1), (first l2 None); by rewrite ?bodies_set_next, ?bodies_set_prev.
  - by split.
  - apply NoDup_app in Hnd as (? & Hd & (? & ?)%NoDup_cons). apply NoDup_app. split; [done|]. set_solver.
  - intros p w' Hp Hw'. eapply lr_other; [done|done|]. rewrite El. set_solver.
  - intros p H1 H2. apply unlink_heap_other. by rewrite <- El.
  - intros p Hp H1. rewrite El in Hp. assert (p = ce) as -> by set_solver. done.
Qed.
End Lists.
