(* ===== verification/CacheIo.v ===== *)
(** Device transfers of the userlandfs block cache (fs_cache.c,
    [beos_read_phys_blocks], [beos_write_phys_blocks] and the vectored calls of
    [flush_ents] and [read_into_ents]).

    [read_pos], [write_pos], [readv_pos] and [writev_pos] are system calls: on a
    device of [zlen d] bytes they move a prefix of what was asked for - all of
    it up to the end of the device, or less - and answer its length, or -1. *)

From S2P Require Import Prelude Errors CacheHash CacheState.

Definition CHUNK : Z := 512 * 1024.

Definition next_io : C io_outcome := λ s,
  match io s with
  | [] => Ok (IoAll, s)
  | o :: os => Ok (o, upd_disks (disks s) os s)
  end.

(** How much of [n] possible bytes the device moves. *)
Definition transfer (n : Z) : C Z :=
  o ← next_io;
  mret match o with IoAll => n | IoPart k => Z.min n (Z.max 0 k) | IoErr => -1 end.

Definition room (pos n : Z) (d : list Z) : Z := Z.max 0 (Z.min n (zlen d - pos)).

Definition read_pos (fd pos n : Z) : C (Z * list Z) :=
  s ← getS;
  match disks s !! fd with
  | None => mret (-1, [])
  | Some d =>
      if pos <? 0 then mret (-1, [])
      else r ← transfer (room pos n d); mret (r, slice pos r d)
  end.

Definition write_pos (fd pos : Z) (bs : list Z) : C Z :=
  s ← getS;
  match disks s !! fd with
  | None => mret (-1)
  | Some d =>
      if pos <? 0 then mret (-1)
      else
        r ← transfer (room pos (zlen bs) d);
        modifyS (λ s, upd_disks (<[fd := splice pos (take (Z.to_nat r) bs) d]> (disks s)) (io s) s);;
        mret r
  end.

(** The vectored calls move the concatenation of the buffers. *)
Definition readv_pos (fd pos : Z) (lens : list Z) : C (Z * list Z) :=
  read_pos fd pos (foldr Z.add 0 lens).
Definition writev_pos (fd pos : Z) (bufs : list (list Z)) : C Z :=
  write_pos fd pos (mjoin bufs).

(** The loop over full chunks.  [ret] is the [size_t] of the last call; the
    running [data] pointer is [sum] bytes into the buffer. *)
Fixpoint read_chunks (fuel : nat) (fd pos total ret sum : Z) (buf : list Z)
    : C (Z * Z * list Z) :=
  if sum + CHUNK <=? total then
    match fuel with
    | O => hangM
    | S fuel =>
        r ← read_pos fd (s64 (pos + sum)) CHUNK;
        buf ← liftO (store_bytes sum r.2 buf);
        let ret := u64 r.1 in
        if negb (ret =? CHUNK) then mret (ret, sum, buf)
        else read_chunks fuel fd pos total ret (sum + CHUNK) buf
    end
  else mret (ret, sum, buf).

(** [num_blocks * bsize] is computed in [uint]; offsets in [off_t]. *)
Definition beos_read_phys_blocks (fd bnum : Z) (data : list Z) (num_blocks bsize : Z)
    : C (Z * list Z) :=
  let total := u32 (num_blocks * bsize) in
  let pos := s64 (bnum * bsize) in
  '(ret, buf) ←
    (if total <? CHUNK then
       r ← read_pos fd pos total;
       buf ← liftO (store_bytes 0 r.2 data);
       mret (u64 r.1, buf)
     else
       '(ret, sum, buf) ← read_chunks (Z.to_nat (total / CHUNK)) fd pos total 0 0 data;
       if (ret =? CHUNK) && (0 <? u64 (total - sum)) then
         r ← read_pos fd (s64 (pos + sum)) (total - sum);
         buf ← liftO (store_bytes sum r.2 buf);
         mret (if u64 r.1 =? total - sum then total else u64 r.1, buf)
       else if ret =? CHUNK then mret (total, buf)
       else mret (ret, buf));
  mret (if ret =? total then 0 else EBADF, buf).

Fixpoint write_chunks (fuel : nat) (fd pos total ret sum : Z) (buf : list Z) : C (Z * Z) :=
  if sum + CHUNK <=? total then
    match fuel with
    | O => hangM
    | S fuel =>
        bs ← liftO (load_bytes sum CHUNK buf);
        r ← write_pos fd (s64 (pos + sum)) bs;
        let ret := u64 r in
        if negb (ret =? CHUNK) then mret (ret, sum)
        else write_chunks fuel fd pos total ret (sum + CHUNK) buf
    end
  else mret (ret, sum).

Definition beos_write_phys_blocks (fd bnum : Z) (data : list Z) (num_blocks bsize : Z) : C Z :=
  let total := u32 (num_blocks * bsize) in
  let pos := s64 (bnum * bsize) in
  ret ←
    (if total <? CHUNK then
       bs ← liftO (load_bytes 0 total data);
       r ← write_pos fd pos bs;
       mret (u64 r)
     else
       '(ret, sum) ← write_chunks (Z.to_nat (total / CHUNK)) fd pos total 0 0 data;
       if (ret =? CHUNK) && (0 <? u64 (total - sum)) then
         bs ← liftO (load_bytes sum (total - sum) data);
         r ← write_pos fd (s64 (pos + sum)) bs;
         mret (if u64 r =? total - sum then total else u64 r)
       else if ret =? CHUNK then mret total
       else mret ret);
  mret (if ret =? total then 0 else EBADF).

(** * One transfer, cut short or not *)

(** [moved pos n d ios k r ios']: with the script [ios], a call for [n] bytes at
    [pos] of [d] moves [k] bytes, answers [r] and leaves the script [ios']. *)
Definition moved (pos n : Z) (d : list Z) (ios : list io_outcome) (k r : Z)
    (ios' : list io_outcome) : Prop :=
  0 ≤ k ≤ n ∧ pos + k ≤ zlen d ∧ (r = k ∨ r = -1 ∧ k = 0) ∧
  (ios = [] → ios' = [] ∧ r = k ∧ k = Z.min n (zlen d - pos)).

Section Transfers.
Implicit Types (s : state) (d : list Z).

Lemma transfer_run s n :
  0 ≤ n → ∃ k r ios, transfer n s = Ok (r, upd_disks (disks s) ios s) ∧ 0 ≤ k ≤ n ∧
    (r = k ∨ r = -1 ∧ k = 0) ∧ (io s = [] → ios = [] ∧ r = k ∧ k = n).
Proof.
  intros Hn. unfold transfer, mbind, M_bind, next_io. destruct (io s) as [|o os] eqn:Eio.
  - exists n, n, []. split; [|naive_solver lia]. cbn. repeat f_equal. unfold upd_disks. rewrite <- Eio. by destruct s.
  - destruct o as [|m|]; cbn.
    + exists n, n, os. split; [done|]. naive_solver lia.
    + exists (Z.min n (Z.max 0 m)), (Z.min n (Z.max 0 m)), os. split; [done|]. split; [lia|]. naive_solver.
    + exists 0, (-1), os. split; [done|]. split; [lia|]. naive_solver.
Qed.

Lemma to_nat_moved k r : 0 ≤ k → (r = k ∨ r = -1 ∧ k = 0) → Z.to_nat r = Z.to_nat k.
Proof. intros. lia. Qed.

Lemma read_pos_run s fd pos n d :
  disks s !! fd = Some d → 0 ≤ pos ≤ zlen d → 0 ≤ n →
  ∃ k r ios, read_pos fd pos n s = Ok ((r, slice pos k d), upd_disks (disks s) ios s) ∧
    moved pos n d (io s) k r ios.
Proof.
  intros Hd Hp Hn. unfold read_pos. mrun. rewrite Hd. destruct (Z.ltb_spec pos 0); [lia|].
  unfold room. destruct (transfer_run s (Z.max 0 (Z.min n (zlen d - pos)))) as (k & r & ios & E & Hk & Hr & Hall); [lia|].
  exists k, r, ios. rewrite (bind_Ok _ _ _ _ _ E). mrun. split.
  - unfold slice. rewrite (to_nat_moved k r) by (lia || done). done.
  - unfold moved. split; [lia|]. split; [lia|]. split; [done|]. naive_solver lia.
Qed.

Lemma write_pos_run s fd pos bs d :
  disks s !! fd = Some d → 0 ≤ pos ≤ zlen d →
  ∃ k r ios, write_pos fd pos bs s =
      Ok (r, upd_disks (<[fd := splice pos (take (Z.to_nat k) bs) d]> (disks s)) ios s) ∧
    moved pos (zlen bs) d (io s) k r ios.
Proof.
  intros Hd Hp. unfold write_pos. mrun. rewrite Hd. destruct (Z.ltb_spec pos 0); [lia|].
  unfold room. destruct (transfer_run s (Z.max 0 (Z.min (zlen bs) (zlen d - pos)))) as (k & r & ios & E & Hk & Hr & Hall); [lia|].
  exists k, r, ios. rewrite (bind_Ok _ _ _ _ _ E). mrun. split.
  - rewrite (to_nat_moved k r) by (lia || done). done.
  - unfold moved. split; [lia|]. split; [lia|]. split; [done|]. naive_solver lia.
Qed.

Lemma take_slice (l : list Z) sum n j :
  0 ≤ sum → 0 ≤ j ≤ n →
  take (Z.to_nat sum) l ++ take (Z.to_nat j) (slice sum n l) = take (Z.to_nat (sum + j)) l.
Proof.
  intros. unfold slice. rewrite take_take, Nat.min_l by lia.
  rewrite take_take_drop. f_equal. lia.
Qed.

Lemma length_take_le (l : list Z) k : 0 ≤ k ≤ zlen l → zlen (take (Z.to_nat k) l) = k.
Proof. intros. rewrite length_take. lia. Qed.

(** Writing the next bytes of the buffer after its first [sum]. *)
Lemma splice_next pos sum n j (data d : list Z) :
  0 ≤ pos ≤ zlen d → 0 ≤ sum ≤ zlen data → 0 ≤ j ≤ n →
  splice (pos + sum) (take (Z.to_nat j) (slice sum n data)) (splice pos (take (Z.to_nat sum) data) d) =
  splice pos (take (Z.to_nat (sum + j)) data) d.
Proof.
  intros Hp Hs Hj. rewrite <- (take_slice data sum n j) by lia.
  rewrite <- splice_splice by lia. by rewrite length_take_le by lia.
Qed.

Lemma splice_take_length pos sum (data d : list Z) :
  0 ≤ pos → 0 ≤ sum ≤ zlen data → pos + sum ≤ zlen d →
  zlen (splice pos (take (Z.to_nat sum) data) d) = zlen d.
Proof. intros. f_equal. apply splice_length; [done|]. rewrite length_take_le; lia. Qed.

Lemma u64_moved pos n d ios k r ios' : moved pos n d ios k r ios' → n < 2 ^ 64 - 1 →
  (u64 r = k ∧ r = k) ∨ (u64 r = 2 ^ 64 - 1 ∧ k = 0).
Proof.
  intros (Hk & _ & [->|[-> ->]] & _) Hn; [left|right; done].
  split; [apply u64_id; lia|done].
Qed.
End Transfers.

Section Chunks.
Context (s0 : state) (fd pos total : Z) (data d : list Z).
Hypothesis Hd : disks s0 !! fd = Some d.
Hypothesis Hpos : 0 ≤ pos ≤ zlen d.
Hypothesis Hdata : total ≤ zlen data.
Hypothesis Htotal : 0 ≤ total < 2 ^ 32.
Hypothesis Hoff : pos + total < 2 ^ 63.

(** The device after the first [k] bytes of [data] were written. *)
Definition wrote (k : Z) (ios : list io_outcome) : state :=
  upd_disks (<[fd := splice pos (take (Z.to_nat k) data) d]> (disks s0)) ios s0.

Lemma wrote_next k sum n ios :
  0 ≤ sum → 0 ≤ n → sum + n ≤ total → pos + sum ≤ zlen d → k = sum →
  ∃ j r ios', write_pos fd (pos + sum) (slice sum n data) (wrote k ios) =
      Ok (r, wrote (sum + j) ios') ∧ moved (pos + sum) n d ios j r ios'.
Proof.
  intros Hs Hn Hsn Hps ->.
  pose proof (splice_take_length pos sum data d) as Hl.
  destruct (write_pos_run (wrote sum ios) fd (pos + sum) (slice sum n data)
              (splice pos (take (Z.to_nat sum) data) d)) as (j & r & ios' & E & Hm).
  - cbn. by rewrite lookup_insert_eq.
  - lia.
  - exists j, r, ios'. unfold moved in *. rewrite slice_length in Hm by lia.
    rewrite Hl in Hm by lia. cbn [io wrote upd_disks] in Hm. split; [|done].
    rewrite E. unfold wrote. cbn [disks upd_disks]. rewrite insert_insert_eq.
    by rewrite splice_next by lia.
Qed.

Lemma write_chunks_run fuel ret sum ios :
  0 ≤ sum ≤ total → pos + sum ≤ zlen d → (total - sum) / CHUNK ≤ Z.of_nat fuel →
  ∃ k ret' sum' ios', write_chunks fuel fd pos total ret sum data (wrote sum ios) =
      Ok ((ret', sum'), wrote k ios') ∧ sum ≤ sum' ∧ pos + k ≤ zlen d ∧
    (total - CHUNK < sum' ≤ total ∧ k = sum' ∧ (ret' = CHUNK ∨ sum' = sum ∧ ret' = ret) ∨
     sum' ≤ k < sum' + CHUNK ∧ sum' + CHUNK ≤ total ∧ ret' ≠ CHUNK ∧ ret' ≠ total ∧
       ¬ (ios = [] ∧ pos + total ≤ zlen d)) ∧
    (ios = [] → pos + total ≤ zlen d → ios' = []).
Proof.
  revert ret sum ios. induction fuel as [|fuel IH]; intros ret sum ios Hs Hps Hf; cbn [write_chunks];
    (destruct (Z.leb_spec (sum + CHUNK) total) as [Hc|Hc]; unfold CHUNK in *;
      [|exists sum, ret, sum, ios; split; [done|]; split; [lia|]; split; [lia|]; split; [left; lia|done]]).
  { exfalso. Z.div_mod_to_equations. lia. }
  rewrite load_bytes_Ok by lia. mrun. unfold s64. rewrite swrap_id by lia.
  destruct (wrote_next sum sum (512 * 1024) ios) as (j & r & ios1 & E & Hm); [lia..|].
  rewrite (bind_Ok _ _ _ _ _ E). mrun.
  destruct (u64_moved _ _ _ _ _ _ _ Hm) as [[-> ->]|[-> ->]]; [lia| |].
  - destruct Hm as (Hj & Hjd & _ & Hall). destruct (Z.eqb_spec j (512 * 1024)) as [->|Hne]; cbn [negb].
    + destruct (IH (512 * 1024) (sum + 512 * 1024) ios1) as (k & ret' & sum' & ios' & E' & ? & ? & Hcase & Hio); [lia|lia| |].
      { Z.div_mod_to_equations. lia. }
      exists k, ret', sum', ios'. rewrite E'. split; [done|]. split; [lia|]. split; [lia|]. split.
      * destruct Hcase as [(? & ? & [?|[? ?]])|(? & ? & ? & ? & Hn)]; [left; lia..|right].
        split_and!; try lia. intros [? ?]. apply Hn. naive_solver.
      * naive_solver.
    + exists (sum + j), j, sum, ios1. split; [done|]. split; [lia|]. split; [lia|]. split.
      * right. split_and!; try lia. intros [Hi ?]. destruct (Hall Hi) as (_ & _ & ?). lia.
      * naive_solver.
  - change (2 ^ 64 - 1 =? 512 * 1024) with false. cbn [negb].
    exists (sum + 0), (2 ^ 64 - 1), sum, ios1. split; [done|]. split; [lia|]. split; [lia|].
    destruct Hm as (_ & _ & Hr & Hall). split.
    + right. split_and!; try lia. intros [Hi ?]. destruct (Hall Hi) as (_ & ? & ?). lia.
    + naive_solver.
Qed.
End Chunks.

Lemma wrote_0 s fd pos data d ios :
  disks s !! fd = Some d → 0 ≤ pos → wrote s fd pos data d 0 ios = upd_disks (disks s) ios s.
Proof.
  intros Hd Hp. unfold wrote. cbn. f_equal. rewrite insert_id; [done|].
  rewrite Hd. f_equal. unfold splice. change (take (Z.to_nat 0) data) with (@nil Z).
  cbn [app length]. by rewrite Nat.add_0_r, take_drop.
Qed.

Lemma upd_disks_id s : upd_disks (disks s) (io s) s = s.
Proof. by destruct s. Qed.

(** The arithmetic of a request that lies on the device. *)
Record request (bnum num_blocks bsize : Z) (d : list Z) : Prop := {
  req_total : 0 ≤ num_blocks * bsize < 2 ^ 32;
  req_pos : 0 ≤ bnum * bsize ≤ zlen d;
  req_off : bnum * bsize + num_blocks * bsize < 2 ^ 63
}.

Lemma write_phys_run s fd bnum data num_blocks bsize d :
  disks s !! fd = Some d → request bnum num_blocks bsize d → num_blocks * bsize ≤ zlen data →
  ∃ k r ios, beos_write_phys_blocks fd bnum data num_blocks bsize s =
      Ok (r, wrote s fd (bnum * bsize) data d k ios) ∧
    0 ≤ k ≤ num_blocks * bsize ∧ bnum * bsize + k ≤ zlen d ∧
    (r = 0 ∧ k = num_blocks * bsize ∨ r = EBADF) ∧
    (io s = [] → bnum * bsize + num_blocks * bsize ≤ zlen d → r = 0 ∧ ios = []).
Proof.
  intros Hd [Ht Hp Ho] Hdata. set (total := num_blocks * bsize) in *. set (pos := bnum * bsize) in *.
  assert (∀ k ios r, (r = total → k = total) → 0 ≤ k ≤ total → pos + k ≤ zlen d →
     (io s = [] → pos + total ≤ zlen d → r = total ∧ ios = []) →
     ∃ k' r' ios', (mret (if r =? total then 0 else EBADF) : C Z) (wrote s fd pos data d k ios)
       = Ok (r', wrote s fd pos data d k' ios') ∧ 0 ≤ k' ≤ total ∧ pos + k' ≤ zlen d ∧
     (r' = 0 ∧ k' = total ∨ r' = EBADF) ∧ (io s = [] → pos + total ≤ zlen d → r' = 0 ∧ ios' = [])) as Hdone.
  { intros k ios r Hr Hk Hkd Hall. exists k, (if r =? total then 0 else EBADF), ios. mrun.
    split; [done|]. destruct (Z.eqb_spec r total); naive_solver. }
  pose proof (wrote_0 s fd pos data d (io s) Hd) as E0. rewrite upd_disks_id in E0.
  unfold beos_write_phys_blocks. fold total. fold pos.
  rewrite (u32_id total) by (unfold is_u32; lia). unfold s64. rewrite (swrap_id 64 pos) by lia.
  destruct (Z.ltb_spec total CHUNK) as [Hc|Hc].
  - rewrite load_bytes_Ok by lia. mrun.
    destruct (wrote_next s fd pos total data d Hp Hdata Ht 0 0 total (io s)) as (j & r & ios & E & Hm); [lia..|].
    rewrite E0, Z.add_0_r in E by lia. rewrite (bind_Ok _ _ _ _ _ E). mrun. apply Hdone.
    all: destruct (u64_moved _ _ _ _ _ _ _ Hm) as [[Eu ->]|[Eu ->]]; [lia| |]; rewrite ?Eu; destruct Hm as (? & ? & ? & Hall); try lia.
    + intros Hi ?. destruct (Hall Hi) as (-> & _ & ?). split; [lia|done].
    + intros Hi ?. destruct (Hall Hi) as (_ & -> & _). done.
  - destruct (write_chunks_run s fd pos total data d Hp Hdata Ht Ho (Z.to_nat (total / CHUNK)) 0 0 (io s))
      as (k & ret & sum & ios & E & Hs & Hkd & Hcase & Hall); [lia|lia| |].
    { rewrite Z.sub_0_r, Z2Nat.id; [done|]. apply Z.div_pos; unfold CHUNK; lia. }
    rewrite E0 in E by lia. mrun. rewrite (bind_Ok _ _ _ _ _ E). mrun. unfold CHUNK in *.
    destruct Hcase as [(Hsum & -> & Hret)|(? & ? & Hne & Hne' & Hn)].
    + assert (ret = 512 * 1024) as -> by lia. rewrite Z.eqb_refl. cbn [andb].
      rewrite (u64_id (total - sum)) by lia. destruct (Z.ltb_spec 0 (total - sum)) as [Hr|Hr].
      * rewrite load_bytes_Ok by lia. mrun. rewrite swrap_id by lia.
        destruct (wrote_next s fd pos total data d Hp Hdata Ht sum sum (total - sum) ios) as (j & r & ios1 & E1 & Hm); [lia..|].
        rewrite (bind_Ok _ _ _ _ _ E1). mrun. apply Hdone.
        all: destruct (u64_moved _ _ _ _ _ _ _ Hm) as [[Eu ->]|[Eu ->]]; [lia| |]; rewrite ?Eu; destruct Hm as (? & ? & ? & Hall1); try lia.
        -- destruct (Z.eqb_spec j (total - sum)); lia.
        -- destruct (Z.eqb_spec (2 ^ 64 - 1) (total - sum)); lia.
        -- intros Hi Hfit. destruct (Hall1 (Hall Hi Hfit)) as (-> & _ & Hj).
           destruct (Z.eqb_spec j (total - sum)); [done|lia].
        -- intros Hi Hfit. destruct (Hall1 (Hall Hi Hfit)) as (_ & -> & _). done.
      * mrun. apply Hdone; [lia..|]. naive_solver.
    + destruct (Z.eqb_spec ret (512 * 1024)); [done|]. cbn [andb]. mrun. apply Hdone; [done|lia..|].
      intros Hi Hfit. exfalso. naive_solver.
Qed.

Section ReadChunks.
Context (s0 : state) (fd pos total : Z) (data d : list Z).
Hypothesis Hd : disks s0 !! fd = Some d.
Hypothesis Hpos : 0 ≤ pos ≤ zlen d.
Hypothesis Hdata : total ≤ zlen data.
Hypothesis Htotal : 0 ≤ total < 2 ^ 32.
Hypothesis Hoff : pos + total < 2 ^ 63.

(** The buffer after the first [k] bytes were read. *)
Definition got (k : Z) : list Z := splice 0 (slice pos k d) data.

Definition rest (ios : list io_outcome) : state := upd_disks (disks s0) ios s0.

Lemma read_next sum n ios :
  0 ≤ sum → 0 ≤ n → sum + n ≤ total → pos + sum ≤ zlen d →
  ∃ j r ios', read_pos fd (pos + sum) n (rest ios) = Ok ((r, slice (pos + sum) j d), rest ios') ∧
    moved (pos + sum) n d ios j r ios' ∧
    store_bytes sum (slice (pos + sum) j d) (got sum) = Ok (got (sum + j)).
Proof using Hd Hpos Hdata Htotal.
  intros Hs Hn Hsn Hps.
  destruct (read_pos_run (rest ios) fd (pos + sum) n d) as (j & r & ios' & E & Hm); [done|lia|lia|].
  exists j, r, ios'. split; [done|]. split; [done|]. destruct Hm as (Hj & Hjd & _).
  unfold got. rewrite store_bytes_Ok.
  - f_equal. replace sum with (0 + zlen (slice pos sum d)) at 1 by (rewrite slice_length; lia).
    rewrite splice_splice by lia. rewrite (slice_split pos (sum + j) sum) by lia.
    by replace (sum + j - sum) with j by lia.
  - lia.
  - rewrite slice_length, splice_length by (rewrite ?slice_length; lia). lia.
Qed.

Lemma read_chunks_run fuel ret sum ios :
  0 ≤ sum ≤ total → pos + sum ≤ zlen d → (total - sum) / CHUNK ≤ Z.of_nat fuel →
  ∃ k ret' sum' ios', read_chunks fuel fd pos total ret sum (got sum) (rest ios) =
      Ok ((ret', sum', got k), rest ios') ∧ sum ≤ sum' ∧ pos + k ≤ zlen d ∧
    (total - CHUNK < sum' ≤ total ∧ k = sum' ∧ (ret' = CHUNK ∨ sum' = sum ∧ ret' = ret) ∨
     sum' ≤ k < sum' + CHUNK ∧ sum' + CHUNK ≤ total ∧ ret' ≠ CHUNK ∧ ret' ≠ total ∧
       ¬ (ios = [] ∧ pos + total ≤ zlen d)) ∧
    (ios = [] → pos + total ≤ zlen d → ios' = []).
Proof using Hd Hpos Hdata Htotal Hoff.
  revert ret sum ios. induction fuel as [|fuel IH]; intros ret sum ios Hs Hps Hf; cbn [read_chunks];
    (destruct (Z.leb_spec (sum + CHUNK) total) as [Hc|Hc]; unfold CHUNK in *;
      [|exists sum, ret, sum, ios; split; [done|]; split; [lia|]; split; [lia|]; split; [left; lia|done]]).
  { exfalso. Z.div_mod_to_equations. lia. }
  unfold s64. rewrite swrap_id by lia.
  destruct (read_next sum (512 * 1024) ios) as (j & r & ios1 & E & Hm & Est); [lia..|].
  rewrite (bind_Ok _ _ _ _ _ E). cbn [fst snd]. rewrite Est. mrun.
  destruct (u64_moved _ _ _ _ _ _ _ Hm) as [[-> ->]|[-> ->]]; [lia| |].
  - destruct Hm as (Hj & Hjd & _ & Hall). destruct (Z.eqb_spec j (512 * 1024)) as [->|Hne]; cbn [negb].
    + destruct (IH (512 * 1024) (sum + 512 * 1024) ios1) as (k & ret' & sum' & ios' & E' & ? & ? & Hcase & Hio); [lia|lia| |].
      { Z.div_mod_to_equations. lia. }
      exists k, ret', sum', ios'. rewrite E'. split; [done|]. split; [lia|]. split; [lia|]. split.
      * destruct Hcase as [(? & ? & [?|[? ?]])|(? & ? & ? & ? & Hn)]; [left; lia..|right].
        split_and!; try lia. intros [? ?]. apply Hn. naive_solver.
      * naive_solver.
    + exists (sum + j), j, sum, ios1. split; [done|]. split; [lia|]. split; [lia|]. split.
      * right. split_and!; try lia. intros [Hi ?]. destruct (Hall Hi) as (_ & _ & ?). lia.
      * naive_solver.
  - change (2 ^ 64 - 1 =? 512 * 1024) with false. cbn [negb].
    exists (sum + 0), (2 ^ 64 - 1), sum, ios1. split; [done|]. split; [lia|]. split; [lia|].
    destruct Hm as (_ & _ & Hr & Hall). split.
    + right. split_and!; try lia. intros [Hi ?]. destruct (Hall Hi) as (_ & ? & ?). lia.
    + naive_solver.
Qed.
End ReadChunks.

Lemma read_phys_run s fd bnum data num_blocks bsize d :
  disks s !! fd = Some d → request bnum num_blocks bsize d → num_blocks * bsize ≤ zlen data →
  ∃ k r ios, beos_read_phys_blocks fd bnum data num_blocks bsize s =
      Ok ((r, got (bnum * bsize) data d k), upd_disks (disks s) ios s) ∧
    0 ≤ k ≤ num_blocks * bsize ∧ bnum * bsize + k ≤ zlen d ∧
    (r = 0 ∧ k = num_blocks * bsize ∨ r = EBADF) ∧
    (io s = [] → bnum * bsize + num_blocks * bsize ≤ zlen d → r = 0 ∧ ios = []).
Proof.
  intros Hd [Ht Hp Ho] Hdata. set (total := num_blocks * bsize) in *. set (pos := bnum * bsize) in *.
  assert (∀ k ios r, (r = total → k = total) → 0 ≤ k ≤ total → pos + k ≤ zlen d →
     (io s = [] → pos + total ≤ zlen d → r = total ∧ ios = []) →
     ∃ k' r' ios', (mret (if r =? total then 0 else EBADF, got pos data d k) : C (Z * list Z)) (rest s ios)
       = Ok ((r', got pos data d k'), upd_disks (disks s) ios' s) ∧ 0 ≤ k' ≤ total ∧ pos + k' ≤ zlen d ∧
     (r' = 0 ∧ k' = total ∨ r' = EBADF) ∧ (io s = [] → pos + total ≤ zlen d → r' = 0 ∧ ios' = [])) as Hdone.
  { intros k ios r Hr Hk Hkd Hall. exists k, (if r =? total then 0 else EBADF), ios. mrun.
    split; [done|]. destruct (Z.eqb_spec r total); naive_solver. }
  assert (got pos data d 0 = data) as Eg.
  { unfold got, slice, splice. by rewrite take_0. }
  pose proof (upd_disks_id s) as E0. change (rest s (io s) = s) in E0.
  unfold beos_read_phys_blocks. fold total. fold pos.
  rewrite (u32_id total) by (unfold is_u32; lia). unfold s64. rewrite (swrap_id 64 pos) by lia.
  destruct (Z.ltb_spec total CHUNK) as [Hc|Hc].
  - mrun. destruct (read_next s fd pos total data d Hd Hp Hdata Ht 0 total (io s)) as (j & r & ios & E & Hm & Est); [lia..|].
    rewrite E0, Z.add_0_r in E. rewrite Eg, Z.add_0_r in Est. rewrite (bind_Ok _ _ _ _ _ E). cbn [fst snd].
    rewrite Est. mrun. apply Hdone.
    all: destruct (u64_moved _ _ _ _ _ _ _ Hm) as [[Eu ->]|[Eu ->]]; [lia| |]; rewrite ?Eu; destruct Hm as (? & ? & ? & Hall); try lia.
    + intros Hi ?. destruct (Hall Hi) as (-> & _ & ?). split; [lia|done].
    + intros Hi ?. destruct (Hall Hi) as (_ & -> & _). done.
  - destruct (read_chunks_run s fd pos total data d Hd Hp Hdata Ht Ho (Z.to_nat (total / CHUNK)) 0 0 (io s))
      as (k & ret & sum & ios & E & Hs & Hkd & Hcase & Hall); [lia|lia| |].
    { rewrite Z.sub_0_r, Z2Nat.id; [done|]. apply Z.div_pos; unfold CHUNK; lia. }
    rewrite E0, Eg in E. mrun. rewrite (bind_Ok _ _ _ _ _ E). mrun. unfold CHUNK in *.
    destruct Hcase as [(Hsum & -> & Hret)|(? & ? & Hne & Hne' & Hn)].
    + assert (ret = 512 * 1024) as -> by lia. rewrite Z.eqb_refl. cbn [andb].
      rewrite (u64_id (total - sum)) by lia. destruct (Z.ltb_spec 0 (total - sum)) as [Hr|Hr].
      * mrun. rewrite swrap_id by lia.
        destruct (read_next s fd pos total data d Hd Hp Hdata Ht sum (total - sum) ios) as (j & r & ios1 & E1 & Hm & Est); [lia..|].
        rewrite (bind_Ok _ _ _ _ _ E1). cbn [fst snd]. rewrite Est. mrun. apply Hdone.
        all: destruct (u64_moved _ _ _ _ _ _ _ Hm) as [[Eu ->]|[Eu ->]]; [lia| |]; rewrite ?Eu; destruct Hm as (? & ? & ? & Hall1); try lia.
        -- destruct (Z.eqb_spec j (total - sum)); lia.
        -- destruct (Z.eqb_spec (2 ^ 64 - 1) (total - sum)); lia.
        -- intros Hi Hfit. destruct (Hall1 (Hall Hi Hfit)) as (-> & _ & Hj).
           destruct (Z.eqb_spec j (total - sum)); [done|lia].
        -- intros Hi Hfit. destruct (Hall1 (Hall Hi Hfit)) as (_ & -> & _). done.
      * mrun. apply Hdone; [lia..|]. naive_solver.
    + destruct (Z.eqb_spec ret (512 * 1024)); [done|]. cbn [andb]. mrun. apply Hdone; [done|lia..|].
      intros Hi Hfit. exfalso. naive_solver.
Qed.

(** C27. Whatever the device does (short transfers, errors), cutting a request
    into 512 KB chunks is transparent: [beos_write_phys_blocks] leaves the
    device with a prefix of the request written in place and nothing else
    changed, [beos_read_phys_blocks] leaves the buffer with a prefix of the
    blocks; they answer 0 only when everything was moved and EBADF otherwise,
    and on a device that does not fail a request inside its bounds answers 0. *)
Theorem phys_blocks_transparent s fd bnum data num_blocks bsize d :
  disks s !! fd = Some d → request bnum num_blocks bsize d → num_blocks * bsize ≤ zlen data →
  (∃ k r ios, beos_write_phys_blocks fd bnum data num_blocks bsize s =
      Ok (r, upd_disks (<[fd := splice (bnum * bsize) (take (Z.to_nat k) data) d]> (disks s)) ios s) ∧
    0 ≤ k ≤ num_blocks * bsize ∧ bnum * bsize + k ≤ zlen d ∧
    (r = 0 ∧ k = num_blocks * bsize ∨ r = EBADF) ∧
    (io s = [] → bnum * bsize + num_blocks * bsize ≤ zlen d → r = 0 ∧ ios = [])) ∧
  (∃ k r ios, beos_read_phys_blocks fd bnum data num_blocks bsize s =
      Ok ((r, splice 0 (slice (bnum * bsize) k d) data), upd_disks (disks s) ios s) ∧
    0 ≤ k ≤ num_blocks * bsize ∧ bnum * bsize + k ≤ zlen d ∧
    (r = 0 ∧ k = num_blocks * bsize ∨ r = EBADF) ∧
    (io s = [] → bnum * bsize + num_blocks * bsize ≤ zlen d → r = 0 ∧ ios = [])).
Proof.
  intros Hd Hr Hl. split; [by apply write_phys_run|by apply read_phys_run].
Qed.

Definition empty_ht : hash_table := mkHt [] HT_DEFAULT_MAX (HT_DEFAULT_MAX - 1) 0.

(** The static variables before anything runs, with one device attached. *)
Definition one_device (fd : Z) (d : list Z) (ios : list io_outcome) : state :=
  mkState (-1) false 0 0 0 empty_ht (mkCel None None) (mkCel None None) (-1) false [] [] []
    ∅ 1%positive [] {[ fd := d ]} ios [].

Lemma phys_blocks_transparent_witness :
  let s := one_device 3 (replicate 16 0) [IoPart 3] in
  request 1 2 4 (replicate 16 0) ∧
  (∃ k r ios, beos_write_phys_blocks 3 1 [1;2;3;4;5;6;7;8] 2 4 s =
      Ok (r, upd_disks (<[3 := splice (1 * 4) (take (Z.to_nat k) [1;2;3;4;5;6;7;8]) (replicate 16 0)]> (disks s)) ios s)
      ∧ 0 ≤ k ≤ 2 * 4 ∧ 1 * 4 + k ≤ 16 ∧ (r = 0 ∧ k = 2 * 4 ∨ r = EBADF) ∧
      (io s = [] → 1 * 4 + 2 * 4 ≤ 16 → r = 0 ∧ ios = [])).
Proof.
  assert (request 1 2 4 (replicate 16 0)) as Hr by (split; vm_compute; repeat split; done).
  split; [exact Hr|].
  destruct (phys_blocks_transparent (one_device 3 (replicate 16 0) [IoPart 3]) 3 1 [1;2;3;4;5;6;7;8] 2 4 (replicate 16 0))
    as [H _]; [reflexivity|exact Hr|vm_compute; discriminate|exact H].
Defined.
