(* ===== verification/CacheFlush.v ===== *)
(** Writing cache entries back (fs_cache.c, [cache_ent_cmp], [flush_cache_ent],
    [flush_ents]): the operations, and that on devices that do not fail they
    bring every entry they are given to the disk - a cloned block in two writes,
    the logged clone before the live data - whatever the order of the entries. *)

From S2P Require Import Prelude Errors Sort CacheHash CacheState CacheIo.

(** [qsort] of an array of entry pointers with [cache_ent_cmp].  The difference of
    the block numbers is cut to an [int]. *)
Definition deref_ent (h : gmap ptr cache_ent) (p : ptr) : cache_ent :=
  default (mkCe 0 0 0 0 None None 0 None 0 0 None None) (h !! p).

Definition cache_ent_cmp (h : gmap ptr cache_ent) (p1 p2 : ptr) : Z :=
  let c1 := deref_ent h p1 in
  let c2 := deref_ent h p2 in
  if ce_dev c1 =? ce_dev c2 then s32 (s64 (ce_block_num c1 - ce_block_num c2))
  else s32 (ce_dev c1 - ce_dev c2).

Fixpoint load_all (ents : list ptr) : C unit :=
  match ents with [] => mret tt | p :: ents => c ← load p; load_all ents end.

(** Every entry is read by the comparison, so each of them has to be there. *)
Definition sort_ents (ents : list ptr) : C (list ptr) :=
  load_all ents;;
  s ← getS;
  liftO (qsort (cache_ent_cmp (heap s)) ents).

(** [if (ce->func) { ce->func(ce->logged_bnum, 1, ce->arg); ce->func = NULL; }] *)
Definition call_func (p : ptr) : C unit :=
  c ← load p;
  match ce_func c with
  | Some f =>
      modifyS (λ s, upd_calls (calls s ++ [mkCall f (ce_logged_bnum c) (ce_arg c)]) s);;
      store p (set_func None)
  | None => mret tt
  end.

(** The block that is written next: the clone, else the data. *)
Definition next_block (c : cache_ent) : option (list Z) :=
  match ce_clone c with Some b => Some b | None => ce_data c end.

(** From the label [restart]: taken a second time only when a clone was
    written before the data. *)
Fixpoint flush_restart (fuel : nat) (ce : ptr) : C Z :=
  match fuel with
  | O => hangM
  | S fuel =>
      c ← load ce;
      data ← deref (next_block c);
      ret ← beos_write_phys_blocks (ce_dev c) (ce_block_num c) data 1 (ce_bsize c);
      call_func ce;;
      c ← load ce;
      if has (ce_clone c) then
        store ce (set_clone None);;
        if (ce_lock c =? 0) && is_dirty c then flush_restart fuel ce else mret ret
      else store ce (clear_flags CE_DIRTY);; mret ret
  end.

Definition flush_cache_ent (ce : ptr) : C Z :=
  c ← load ce;
  if negb (is_dirty c) && negb (has (ce_clone c)) then mret 0
  else if negb (has (ce_clone c)) && negb (ce_lock c =? 0) then mret 0
  else flush_restart 2 ce.

(** How many entries, from the first, are consecutive blocks of one device
    that may be written; [n] is [j - i]. *)
Fixpoint run_length (dev start_bnum n : Z) (rest : list ptr) : C Z :=
  match rest with
  | [] => mret n
  | q :: rest =>
      if n <? NUM_FLUSH_BLOCKS then
        c ← load q;
        if negb (ce_dev c =? dev) || negb (ce_block_num c =? start_bnum + n) then mret n
        else if negb (has (ce_clone c)) && negb (ce_lock c =? 0) then mret n
        else run_length dev start_bnum (n + 1) rest
      else mret n
  end.

(** The [iov_base]/[iov_len] pairs of a run: the bytes [writev_pos] takes. *)
Fixpoint iov_bufs (bsize : Z) (run : list ptr) : C (list (list Z)) :=
  match run with
  | [] => mret []
  | p :: run =>
      c ← load p;
      base ← deref (next_block c);
      buf ← liftO (load_bytes 0 bsize base);
      bufs ← iov_bufs bsize run;
      mret (buf :: bufs)
  end.

Fixpoint mark_written (run : list ptr) : C unit :=
  match run with
  | [] => mret tt
  | p :: run =>
      call_func p;;
      c ← load p;
      (if has (ce_clone c) then store p (set_clone None) else store p (clear_flags CE_DIRTY));;
      mark_written run
  end.

(** One pass over the entries; [ret] is the variable of that name. *)
Fixpoint flush_pass (fuel : nat) (ents : list ptr) (ret : Z) : C Z :=
  match ents with
  | [] => mret ret
  | p :: rest =>
      match fuel with
      | O => hangM
      | S fuel =>
          c ← load p;
          if negb (is_dirty c) && negb (has (ce_clone c)) then flush_pass fuel rest ret
          else if negb (has (ce_clone c)) && negb (ce_lock c =? 0) then flush_pass fuel rest ret
          else
            let bsize := ce_bsize c in
            let start_bnum := ce_block_num c in
            n ← run_length (ce_dev c) start_bnum 1 rest;
            if n =? 1 then
              ret ← flush_cache_ent p;
              if negb (ret =? 0) then mret ret else flush_pass fuel rest ret
            else
              let run := take (Z.to_nat n) ents in
              bufs ← iov_bufs bsize run;
              ret ← writev_pos (ce_dev c) (s64 (start_bnum * bsize)) bufs;
              if negb (s32 ret =? s32 (n * bsize)) then mret EINVAL
              else mark_written run;; flush_pass fuel (drop (Z.to_nat n) ents) 0
      end
  end.

(** Whether a block that could be written is still dirty. *)
Fixpoint still_dirty (ents : list ptr) : C bool :=
  match ents with
  | [] => mret false
  | p :: ents =>
      c ← load p;
      if negb (is_dirty c) || negb (ce_lock c =? 0) then still_dirty ents else mret true
  end.

Definition flush_ents (ents : list ptr) : C Z :=
  iov ← get_iovec_array;
  ret ← flush_pass (length ents) ents 0;
  do_again ← still_dirty ents;
  ret ← (if do_again : bool then flush_pass (length ents) ents ret else mret ret);
  release_iovec_array iov;;
  mret ret.

(** * Flag bits *)

Create Rewrite HintDb ce.

Section Flags.
Implicit Types c : cache_ent.

Lemma dirty_clear_dirty c : is_dirty (clear_flags CE_DIRTY c) = false.
Proof. unfold is_dirty. cbn. by rewrite <- Z.land_assoc, Z.land_0_r. Qed.
Lemma busy_clear_dirty c : is_busy (clear_flags CE_DIRTY c) = is_busy c.
Proof. unfold is_busy. cbn. by rewrite <- Z.land_assoc. Qed.
Lemma dirty_clear_busy c : is_dirty (clear_flags CE_BUSY c) = is_dirty c.
Proof. unfold is_dirty. cbn. by rewrite <- Z.land_assoc. Qed.
Lemma busy_clear_busy c : is_busy (clear_flags CE_BUSY c) = false.
Proof. unfold is_busy. cbn. by rewrite <- Z.land_assoc, Z.land_0_r. Qed.
Lemma dirty_or_busy c : is_dirty (or_flags CE_BUSY c) = is_dirty c.
Proof. unfold is_dirty. cbn. by rewrite Z.land_lor_distr_l, Z.lor_0_r. Qed.
Lemma busy_or_dirty c : is_busy (or_flags CE_DIRTY c) = is_busy c.
Proof. unfold is_busy. cbn. by rewrite Z.land_lor_distr_l, Z.lor_0_r. Qed.
Lemma or_same_bit f m : m ≠ 0 → Z.land (Z.lor f m) m ≠ 0.
Proof.
  intros Hm. replace (Z.land (Z.lor f m) m) with m; [done|]. apply Z.bits_inj'. intros n _.
  rewrite Z.land_spec, Z.lor_spec. by destruct (Z.testbit f n), (Z.testbit m n).
Qed.
Lemma busy_or_busy c : is_busy (or_flags CE_BUSY c) = true.
Proof.
  unfold is_busy, or_flags. cbn [ce_flags set_flags]. rewrite negb_true_iff, Z.eqb_neq.
  by apply or_same_bit.
Qed.
Lemma dirty_or_dirty c : is_dirty (or_flags CE_DIRTY c) = true.
Proof.
  unfold is_dirty, or_flags. cbn [ce_flags set_flags]. rewrite negb_true_iff, Z.eqb_neq.
  by apply or_same_bit.
Qed.
End Flags.
#[export] Hint Rewrite dirty_clear_dirty busy_clear_dirty dirty_clear_busy busy_clear_busy
  dirty_or_busy busy_or_dirty busy_or_busy dirty_or_dirty : ce.

(** * Blocks of the devices

    [bs dev] is the block size a device is used with. *)

Definition block (bs : Z → Z) (D : gmap Z (list Z)) (dev b : Z) : option (list Z) :=
  slice (b * bs dev) (bs dev) <$> D !! dev.

Definition ce_key (c : cache_ent) : Z * Z := (ce_dev c, ce_block_num c).

(** Block [b] of the device is on it. *)
Definition on_device (bs : Z → Z) (D : gmap Z (list Z)) (dev b : Z) : Prop :=
  ∃ d, D !! dev = Some d ∧ 0 ≤ b ∧ (b + 1) * bs dev ≤ zlen d ∧ zlen d < 2 ^ 62 ∧ 0 < bs dev < 2 ^ 24.

Record ent_wf (bs : Z → Z) (D : gmap Z (list Z)) (c : cache_ent) : Prop := {
  ew_bsize : ce_bsize c = bs (ce_dev c);
  ew_dev : on_device bs D (ce_dev c) (ce_block_num c);
  ew_range : 0 ≤ ce_dev c < 256 ∧ ce_block_num c < 2 ^ 31;
  ew_data : ∃ dt, ce_data c = Some dt ∧ zlen dt = bs (ce_dev c);
  ew_clone cl : ce_clone c = Some cl → zlen cl = bs (ce_dev c)
}.

(** A block that is not dirty has its contents on the disk, or in its clone. *)
Definition coherent (bs : Z → Z) (D : gmap Z (list Z)) (c : cache_ent) : Prop :=
  is_dirty c = false →
  match ce_clone c with
  | Some cl => Some cl = ce_data c
  | None => block bs D (ce_dev c) (ce_block_num c) = ce_data c
  end.

(** An entry that was allocated but stands for no block yet. *)
Definition inert (c : cache_ent) : Prop :=
  ce_dev c = -1 ∧ is_dirty c = false ∧ ce_clone c = None ∧ ce_lock c = 0.

Definition ent_ok (bs : Z → Z) (D : gmap Z (list Z)) (c : cache_ent) : Prop :=
  ent_wf bs D c ∧ coherent bs D c ∨ inert c.

(** The writes it takes to bring the entry to the disk. *)
Definition needs (c : cache_ent) : nat :=
  (if has (ce_clone c) then 1 else 0) + (if is_dirty c && (ce_lock c =? 0) then 1 else 0).

(** What writing an entry does not change. *)
Definition core (c : cache_ent) : cache_ent :=
  set_func None (set_clone None (set_flags (if is_busy c then CE_BUSY else CE_NORMAL) c)).

(** What an operation that writes blocks back works on: entries, devices and
    the callbacks that were made. *)
Record fx : Type := mkFx { fx_heap : gmap ptr cache_ent; fx_disks : gmap Z (list Z); fx_calls : list callback }.

Definition fx_of (s : state) : fx := mkFx (heap s) (disks s) (calls s).
Definition upd_fx (f : fx) (s : state) : state :=
  upd_calls (fx_calls f) (upd_disks (fx_disks f) (io s) (upd_heap (fx_heap f) (next_ptr s) s)).

(** One block written and the entry marked so. *)
Definition marked (c : cache_ent) : cache_ent :=
  let c := set_func None c in
  if has (ce_clone c) then set_clone None c else clear_flags CE_DIRTY c.

Definition callbacks (c : cache_ent) : list callback :=
  match ce_func c with Some f => [mkCall f (ce_logged_bnum c) (ce_arg c)] | None => [] end.

Definition put_block (c : cache_ent) (D : gmap Z (list Z)) : gmap Z (list Z) :=
  alter (splice (ce_block_num c * ce_bsize c) (default [] (next_block c))) (ce_dev c) D.

Definition write_back (p : ptr) (f : fx) : fx :=
  match fx_heap f !! p with
  | Some c => mkFx (alter marked p (fx_heap f)) (put_block c (fx_disks f)) (fx_calls f ++ callbacks c)
  | None => f
  end.

Section Blocks.
Context (bs : Z → Z).
Implicit Types (D : gmap Z (list Z)) (c : cache_ent).

Lemma slice_splice_same (l buf : list Z) off :
  0 ≤ off → off + zlen buf ≤ zlen l → slice off (zlen buf) (splice off buf l) = buf.
Proof.
  intros. unfold splice. apply slice_middle; [|done]. rewrite length_take. lia.
Qed.

Lemma slice_splice_before (l buf : list Z) off o n :
  0 ≤ o → 0 ≤ n → o + n ≤ off → off + zlen buf ≤ zlen l →
  slice o n (splice off buf l) = slice o n l.
Proof.
  intros. unfold splice. rewrite slice_app_l by (rewrite ?length_take; lia).
  unfold slice. rewrite skipn_firstn_comm, take_take. f_equal. lia.
Qed.

Lemma slice_splice_after (l buf : list Z) off o n :
  0 ≤ off → off + zlen buf ≤ o → off + zlen buf ≤ zlen l →
  slice o n (splice off buf l) = slice o n l.
Proof.
  intros. unfold splice. rewrite slice_app_r by (rewrite length_take; lia).
  rewrite slice_app_r by (rewrite length_take; lia). unfold slice.
  rewrite drop_drop. do 2 f_equal. rewrite length_take. lia.
Qed.

Lemma block_put_same D dev b buf d :
  D !! dev = Some d → 0 ≤ b → (b + 1) * bs dev ≤ zlen d → zlen buf = bs dev → 0 < bs dev →
  block bs (alter (splice (b * bs dev) buf) dev D) dev b = Some buf.
Proof.
  intros Hd Hb Hfit Hl Hbs. unfold block. rewrite lookup_alter_eq, Hd. cbn. f_equal.
  rewrite <- Hl. apply slice_splice_same; nia.
Qed.

Lemma block_put_other D dev b buf dev' b' d :
  D !! dev = Some d → 0 ≤ b → (b + 1) * bs dev ≤ zlen d → zlen buf = bs dev → 0 < bs dev →
  0 ≤ b' → (dev', b') ≠ (dev, b) →
  block bs (alter (splice (b * bs dev) buf) dev D) dev' b' = block bs D dev' b'.
Proof.
  intros Hd Hb Hfit Hl Hbs Hb' Hne. unfold block.
  destruct (decide (dev = dev')) as [<-|]; [|by rewrite lookup_alter_ne].
  rewrite lookup_alter_eq, Hd. cbn. f_equal.
  assert (b' < b ∨ b < b') as [?|?] by (destruct (Z.lt_trichotomy b b') as [?|[->|?]]; [by right|done|by left]).
  - apply slice_splice_before; nia.
  - apply slice_splice_after; nia.
Qed.

Lemma put_length D dev b buf d :
  D !! dev = Some d → 0 ≤ b → (b + 1) * bs dev ≤ zlen d → zlen buf = bs dev → 0 < bs dev →
  ∀ dev', length <$> alter (splice (b * bs dev) buf) dev D !! dev' = length <$> D !! dev'.
Proof.
  intros Hd Hb Hfit Hl Hbs dev'. destruct (decide (dev = dev')) as [<-|]; [|by rewrite lookup_alter_ne].
  rewrite lookup_alter_eq, Hd. cbn. f_equal. apply splice_length; nia.
Qed.

Lemma on_device_length D D' dev b :
  (length <$> D' !! dev = length <$> D !! dev) → on_device bs D dev b → on_device bs D' dev b.
Proof.
  intros Hl (d & Hd & ?). rewrite Hd in Hl. destruct (D' !! dev) as [d'|] eqn:E; cbn in Hl; [|done].
  exists d'. split; [done|]. simplify_eq. by replace (zlen d') with (zlen d) by lia.
Qed.

Lemma next_block_wf D c : ent_wf bs D c → ∃ buf, next_block c = Some buf ∧ zlen buf = bs (ce_dev c).
Proof.
  intros [_ _ _ (dt & Hdt & Hl) Hcl]. unfold next_block. destruct (ce_clone c) as [cl|]; eauto.
Qed.

Lemma ent_wf_old D c : ent_wf bs D c → ce_dev c ≠ -1.
Proof. intros Hwf. pose proof (ew_range _ _ _ Hwf). lia. Qed.

Lemma core_marked c : core (marked c) = core c.
Proof.
  unfold marked. cbn [ce_clone set_func]. destruct (has (ce_clone c)); [done|].
  unfold core. rewrite busy_clear_dirty. done.
Qed.

Lemma ent_wf_core D D' c c' :
  core c = core c' → (length <$> D' !! ce_dev c = length <$> D !! ce_dev c) →
  (∀ cl, ce_clone c' = Some cl → ce_clone c = Some cl) → ent_wf bs D c → ent_wf bs D' c'.
Proof.
  intros Hc Hl Hcl [E1 E2 E0 E3 E4]. pose proof (f_equal ce_dev Hc) as Ed. pose proof (f_equal ce_block_num Hc) as Eb.
  pose proof (f_equal ce_bsize Hc) as Es. pose proof (f_equal ce_data Hc) as Edt. cbn in *.
  rewrite Ed in *. split; [by rewrite <- Es| |by rewrite <- Eb|by rewrite <- Edt|eauto].
  rewrite <- Eb. by eapply on_device_length.
Qed.
End Blocks.

(** * Writing back a set of entries

    The entries [E] are well formed, coherent and stand for different blocks -
    or for none. *)
Record fx_ok (bs : Z → Z) (E : list ptr) (f : fx) : Prop := {
  fo_ent p : p ∈ E → ∃ c, fx_heap f !! p = Some c ∧ ent_ok bs (fx_disks f) c;
  fo_key p q c c' : p ∈ E → q ∈ E → fx_heap f !! p = Some c → fx_heap f !! q = Some c' →
    ce_dev c ≠ -1 → ce_key c = ce_key c' → p = q
}.

(** How far an entry got. *)
Record ent_step (bs : Z → Z) (D D' : gmap Z (list Z)) (c c' : cache_ent) : Prop := {
  es_core : core c = core c';
  es_needs : (needs c' ≤ needs c)%nat;
  es_clone : ce_clone c' = ce_clone c ∨ ce_clone c' = None;
  es_locked : ce_lock c ≠ 0 →
    is_dirty c' = is_dirty c ∧
    (ce_clone c' = ce_clone c ∧ block bs D' (ce_dev c) (ce_block_num c) = block bs D (ce_dev c) (ce_block_num c) ∨
     is_Some (ce_clone c) ∧ ce_clone c' = None ∧ block bs D' (ce_dev c) (ce_block_num c) = ce_clone c)
}.

Record flushes (bs : Z → Z) (E : list ptr) (f f' : fx) : Prop := {
  fl_other p : (p ∉ E) → fx_heap f' !! p = fx_heap f !! p;
  fl_ent p c : p ∈ E → fx_heap f !! p = Some c →
    ∃ c', fx_heap f' !! p = Some c' ∧ ent_step bs (fx_disks f) (fx_disks f') c c';
  fl_none p : fx_heap f !! p = None → fx_heap f' !! p = None;
  fl_length dev : length <$> fx_disks f' !! dev = length <$> fx_disks f !! dev;
  fl_block dev b : 0 ≤ b → (∀ p c, p ∈ E → fx_heap f !! p = Some c → ce_key c ≠ (dev, b)) →
    block bs (fx_disks f') dev b = block bs (fx_disks f) dev b
}.

Section Flushes.
Context (bs : Z → Z) (E : list ptr).
Implicit Types (f : fx) (c : cache_ent).

Lemma ent_step_refl D c : ent_step bs D D c c.
Proof. split; [done|lia|by left|]. intros _. split; [done|by left]. Qed.

Lemma core_key c c' : core c = core c' → ce_key c = ce_key c'.
Proof.
  intros Hc. unfold ce_key. pose proof (f_equal ce_dev Hc). pose proof (f_equal ce_block_num Hc).
  cbn in *. congruence.
Qed.

Lemma core_lock c c' : core c = core c' → ce_lock c = ce_lock c'.
Proof. intros Hc. apply (f_equal ce_lock Hc). Qed.

Lemma ent_step_trans D1 D2 D3 c1 c2 c3 :
  ent_step bs D1 D2 c1 c2 → ent_step bs D2 D3 c2 c3 → ent_step bs D1 D3 c1 c3.
Proof.
  intros [A1 A2 A3 A4] [B1 B2 B3 B4]. split; [congruence|lia| |].
  - destruct A3 as [A3|A3], B3 as [B3|B3]; rewrite B3; auto.
  - intros Hl. pose proof (core_key _ _ A1) as Ek. unfold ce_key in Ek. injection Ek as Ed Eb.
    rewrite (core_lock _ _ A1) in Hl, A4. rewrite Ed, Eb in *.
    destruct (A4 Hl) as [Ad Ac], (B4 Hl) as [Bd Bc]. split; [congruence|].
    destruct Ac as [[Ac Ab]|(As & Ac & Ab)], Bc as [[Bc Bb]|(Bs & Bc & Bb)]; rewrite Ac in *.
    + left. split; congruence.
    + right. split; [done|]. split; congruence.
    + right. split; [done|]. split; congruence.
    + by destruct Bs.
Qed.

Lemma flushes_refl f : flushes bs E f f.
Proof. split; [done| |done|done|done]. intros p c _ Hc. exists c. split; [done|apply ent_step_refl]. Qed.

Lemma flushes_trans f1 f2 f3 : flushes bs E f1 f2 → flushes bs E f2 f3 → flushes bs E f1 f3.
Proof.
  intros [A1 A2 A0 A3 A4] [B1 B2 B0 B3 B4]. split.
  - intros p Hp. by rewrite B1, A1.
  - intros p c Hp Hc. destruct (A2 p c Hp Hc) as (c2 & Hc2 & S2).
    destruct (B2 p c2 Hp Hc2) as (c3 & Hc3 & S3). exists c3. split; [done|]. by eapply ent_step_trans.
  - auto.
  - intros dev. by rewrite B3, A3.
  - intros dev b Hb Hn. rewrite B4, A4; [done|done|done|done|].
    intros p c2 Hp Hc2. destruct (fx_heap f1 !! p) as [c|] eqn:Hc.
    + destruct (A2 p c Hp Hc) as (c2' & Hc2' & S2). simplify_eq.
      rewrite <- (core_key _ _ (es_core _ _ _ _ _ S2)). by apply (Hn p).
    + rewrite A0 in Hc2; done.
Qed.

Lemma marked_clone c : ce_clone (marked c) = None.
Proof. unfold marked. cbn. destruct (ce_clone c) eqn:Ec; by cbn. Qed.

Lemma marked_dirty c : is_dirty (marked c) = is_dirty c && has (ce_clone c).
Proof.
  unfold marked. cbn [ce_clone set_func]. destruct (has (ce_clone c)).
  - by rewrite andb_true_r.
  - by rewrite dirty_clear_dirty, andb_false_r.
Qed.

Lemma marked_lock c : ce_lock (marked c) = ce_lock c.
Proof. unfold marked. cbn. by destruct (has (ce_clone c)). Qed.

Lemma marked_data c : ce_data (marked c) = ce_data c.
Proof. unfold marked. cbn. by destruct (has (ce_clone c)). Qed.

(** Each write brings the entry nearer to the disk. *)
Lemma marked_needs c : needs (marked c) = pred (needs c) ∨ needs c = 0%nat ∧ needs (marked c) = 0%nat.
Proof.
  unfold needs. rewrite marked_clone, marked_dirty, marked_lock.
  destruct (has (ce_clone c)), (is_dirty c), (ce_lock c =? 0); cbn; auto.
Qed.

Lemma put_block_eq c buf D :
  ent_wf bs D c → next_block c = Some buf →
  put_block c D = alter (splice (ce_block_num c * bs (ce_dev c)) buf) (ce_dev c) D.
Proof. intros Hwf Hb. unfold put_block. by rewrite Hb, (ew_bsize _ _ _ Hwf). Qed.

Lemma coherent_marked c D :
  ent_wf bs D c → coherent bs D c → coherent bs (put_block c D) (marked c).
Proof.
  intros Hwf Hcoh. destruct (next_block_wf _ _ _ Hwf) as (buf & Hbuf & Hl).
  destruct (ew_dev _ _ _ Hwf) as (d & Hd & Hb & Hfit & _ & Hbs & _).
  unfold coherent. rewrite marked_clone, marked_data, (put_block_eq _ _ _ Hwf Hbuf), marked_dirty.
  pose proof (core_key _ _ (core_marked c)) as Ek. unfold ce_key in Ek. injection Ek as -> ->.
  rewrite (block_put_same bs D _ _ buf d) by done.
  unfold next_block in Hbuf. intros Hd'. unfold coherent in Hcoh.
  destruct (ce_clone c) as [cl|] eqn:Ec; [|done]. rewrite andb_true_r in Hd'. rewrite <- (Hcoh Hd'). congruence.
Qed.

(** Writing one block of an entry that may be written. *)
Lemma write_back_flushes p f c :
  fx_ok bs E f → p ∈ E → fx_heap f !! p = Some c → (is_Some (ce_clone c) ∨ ce_lock c = 0) →
  ce_dev c ≠ -1 →
  flushes bs E f (write_back p f) ∧ fx_ok bs E (write_back p f) ∧
  fx_heap (write_back p f) !! p = Some (marked c).
Proof.
  intros Hok Hp Hc Hmay Hnew. destruct (fo_ent _ _ _ Hok p Hp) as (c' & ? & [[Hwf Hcoh]|[? _]]); simplify_eq.
  destruct (next_block_wf _ _ _ Hwf) as (buf & Hbuf & Hl).
  destruct (ew_dev _ _ _ Hwf) as (d & Hd & Hb & Hfit & _ & Hbs & _).
  assert (fx_heap (write_back p f) = alter marked p (fx_heap f)) as Eh by (unfold write_back; by rewrite Hc).
  assert (fx_disks (write_back p f) = put_block c (fx_disks f)) as Ed by (unfold write_back; by rewrite Hc).
  assert (fx_heap (write_back p f) !! p = Some (marked c)) as Hc' by (by rewrite Eh, lookup_alter_eq, Hc).
  assert (∀ dev, length <$> fx_disks (write_back p f) !! dev = length <$> fx_disks f !! dev) as Hlen.
  { rewrite Ed, (put_block_eq _ _ _ Hwf Hbuf). by apply (put_length bs (fx_disks f) (ce_dev c) (ce_block_num c) buf d). }
  assert (∀ dev b, 0 ≤ b → ce_key c ≠ (dev, b) →
    block bs (fx_disks (write_back p f)) dev b = block bs (fx_disks f) dev b) as Hblk.
  { intros dev b Hb' Hne. rewrite Ed, (put_block_eq _ _ _ Hwf Hbuf). by eapply block_put_other. }
  split; [split|split; [split|done]].
  - intros q Hq. rewrite Eh, lookup_alter_ne; [done|]. by intros ->.
  - intros q cq Hq Hcq. destruct (decide (p = q)) as [<-|Hne].
    + simplify_eq. exists (marked c). split; [done|]. split.
      * by rewrite core_marked.
      * destruct (marked_needs c); lia.
      * right. apply marked_clone.
      * intros Hlk. destruct Hmay as [[cl Hcl]|?]; [|done]. rewrite marked_dirty, Hcl, andb_true_r.
        split; [done|]. right. split; [done|]. split; [apply marked_clone|].
        unfold next_block in Hbuf. rewrite Hcl in Hbuf. simplify_eq.
        rewrite Ed, (put_block_eq _ buf _ Hwf) by (unfold next_block; by rewrite Hcl).
        by rewrite (block_put_same bs (fx_disks f) _ _ buf d).
    + exists cq. rewrite Eh, lookup_alter_ne by done. split; [done|]. split; [done|lia|by left|].
      intros Hlk. split; [done|]. left. split; [done|].
      destruct (fo_ent _ _ _ Hok q Hq) as (cq' & ? & [[Hwfq _]|(_ & _ & _ & ?)]); simplify_eq.
      destruct (ew_dev _ _ _ Hwfq) as (? & ? & ? & _).
      apply Hblk; [done|]. intros Ek. by apply Hne, (fo_key _ _ _ Hok p q c cq).
  - intros q Hq. rewrite Eh. by rewrite lookup_alter_None.
  - done.
  - intros dev b Hb' Hn. by apply Hblk, (Hn p c).
  - intros q Hq. destruct (fo_ent _ _ _ Hok q Hq) as (cq & Hcq & Hokq).
    destruct (decide (p = q)) as [<-|Hne].
    + simplify_eq. exists (marked c). split; [done|]. left. split.
      * apply (ent_wf_core bs (fx_disks f) _ c); [by rewrite core_marked|done| |done]. by rewrite marked_clone.
      * rewrite Ed. by apply coherent_marked.
    + exists cq. rewrite Eh, lookup_alter_ne by done. split; [done|].
      destruct Hokq as [[Hwfq Hcohq]|?]; [left|by right]. split.
      * by apply (ent_wf_core bs (fx_disks f) _ cq).
      * unfold coherent. destruct (ew_dev _ _ _ Hwfq) as (? & ? & ? & _). rewrite Hblk; [done|done|].
        intros Ek. by apply Hne, (fo_key _ _ _ Hok p q c cq).
  - intros q r cq cr Hq Hr Hcq Hcr Hdev Ek. rewrite Eh in Hcq, Hcr.
    apply lookup_alter_Some in Hcq as [(<- & cq0 & ? & ->)|[? ?]];
    apply lookup_alter_Some in Hcr as [(<- & cr0 & ? & ->)|[? ?]]; [done|..];
      rewrite ?(core_key _ _ (core_marked _)) in Ek; eapply (fo_key _ _ _ Hok); try done.
    pose proof (core_key _ _ (core_marked cq0)) as Ek'. unfold ce_key in Ek'. congruence.
Qed.
End Flushes.

(** * Runs on devices that do not fail *)

Section Runs.
Context (bs : Z → Z).
Implicit Types (s : state) (c : cache_ent) (f : fx).

Lemma upd_fx_id s : upd_fx (fx_of s) s = s.
Proof. by destruct s. Qed.

Lemma fx_of_upd f s : fx_of (upd_fx f s) = f.
Proof. by destruct f. Qed.

Lemma upd_fx_upd f g s : upd_fx f (upd_fx g s) = upd_fx f s.
Proof. done. Qed.

Lemma phys_write_ent s c buf :
  io s = [] → ent_wf bs (disks s) c → next_block c = Some buf →
  beos_write_phys_blocks (ce_dev c) (ce_block_num c) buf 1 (ce_bsize c) s =
    Ok (0, upd_disks (put_block c (disks s)) [] s).
Proof.
  intros Hio Hwf Hbuf. assert (zlen buf = bs (ce_dev c)) as Hl by (destruct (next_block_wf _ _ _ Hwf) as (? & ? & ?); congruence).
  destruct (ew_dev _ _ _ Hwf) as (d & Hd & Hb & Hfit & Hsz & Hbs). rewrite (put_block_eq _ _ _ _ Hwf Hbuf).
  rewrite (ew_bsize _ _ _ Hwf).
  destruct (write_phys_run s (ce_dev c) (ce_block_num c) buf 1 (bs (ce_dev c)) d)
    as (k & r & ios & E & Hk & _ & Hr & Hall); [done|split; nia|lia|].
  destruct (Hall Hio) as [-> ->]; [nia|]. destruct Hr as [[_ ->]|?]; [|done].
  rewrite E. unfold wrote. do 3 f_equal. rewrite take_ge by lia.
  apply map_eq. intros dev. destruct (decide (ce_dev c = dev)) as [<-|].
  - by rewrite lookup_insert_eq, lookup_alter_eq, Hd.
  - by rewrite lookup_insert_ne, lookup_alter_ne.
Qed.

Lemma call_func_run s p c :
  heap s !! p = Some c →
  call_func p s =
    Ok (tt, upd_fx (mkFx (alter (set_func None) p (heap s)) (disks s) (calls s ++ callbacks c)) s).
Proof.
  intros Hc. unfold call_func. mstep (load_run s p c Hc). unfold callbacks.
  destruct (ce_func c) as [fn|] eqn:Ef.
  - mrun. by erewrite store_run.
  - mrun. do 2 f_equal. rewrite app_nil_r. rewrite alter_id; [symmetry; apply (upd_fx_id s)|].
    intros c' E'. rewrite Hc in E'. injection E' as <-. destruct c. cbn in Ef. by subst.
Qed.

(** One turn of [flush_cache_ent]. *)
Lemma flush_restart_step fuel s p c :
  io s = [] → heap s !! p = Some c → ent_wf bs (disks s) c →
  flush_restart (S fuel) p s =
    if has (ce_clone c) && ((ce_lock c =? 0) && is_dirty c)
    then flush_restart fuel p (upd_fx (write_back p (fx_of s)) s)
    else Ok (0, upd_fx (write_back p (fx_of s)) s).
Proof.
  intros Hio Hc Hwf. destruct (next_block_wf _ _ _ Hwf) as (buf & Hbuf & Hl). cbn [flush_restart].
  mstep (load_run s p c Hc). rewrite Hbuf. unfold deref. mrun.
  mstep (phys_write_ent s c buf Hio Hwf Hbuf).
  erewrite bind_Ok; [|by eapply (call_func_run _ p c)]. mrun.
  assert (heap (upd_disks (put_block c (disks s)) [] s) = heap s) as E0 by done. rewrite !E0.
  set (s1 := upd_fx _ _).
  assert (heap s1 !! p = Some (set_func None c)) as Hc1 by (cbn; by rewrite lookup_alter_eq, Hc).
  mstep (load_run s1 p _ Hc1). cbn [ce_clone set_func ce_lock].
  change (is_dirty (set_func None c)) with (is_dirty c).
  assert (∀ g, marked c = g (set_func None c) →
    store p g s1 = Ok (tt, upd_fx (write_back p (fx_of s)) s)) as Hst.
  { intros g Hg. rewrite (store_run _ _ _ _ Hc1). do 2 f_equal. subst s1. unfold write_back. cbn.
    rewrite Hc. unfold upd_fx. cbn. rewrite alter_alter_eq, Hio.
    replace (alter (g ∘ set_func None) p (heap s)) with (alter marked p (heap s)); [done|].
    apply alter_ext. intros c' ?. by simplify_eq. }
  destruct (has (ce_clone c)) eqn:Ec; cbn [andb].
  - rewrite (bind_Ok _ _ _ _ _ (Hst (set_clone None) ltac:(unfold marked; cbn; by rewrite Ec))). mrun.
    by destruct ((ce_lock c =? 0) && is_dirty c).
  - rewrite (bind_Ok _ _ _ _ _ (Hst (clear_flags CE_DIRTY) ltac:(unfold marked; cbn; by rewrite Ec))). done.
Qed.

Lemma flush_cache_ent_run E s p c :
  io s = [] → fx_ok bs E (fx_of s) → p ∈ E → heap s !! p = Some c →
  ∃ f' c', flush_cache_ent p s = Ok (0, upd_fx f' s) ∧ flushes bs E (fx_of s) f' ∧ fx_ok bs E f' ∧
    fx_heap f' !! p = Some c' ∧ needs c' = 0%nat.
Proof.
  intros Hio Hok Hp Hc. destruct (fo_ent _ _ _ Hok p Hp) as (c0 & ? & Hokc). cbn in *. simplify_eq.
  unfold flush_cache_ent. mstep (load_run s p c Hc).
  assert (needs c = 0%nat → ∃ f' c', Ok (0, s) = Ok (0, upd_fx f' s) ∧ flushes bs E (fx_of s) f' ∧ fx_ok bs E f' ∧
    fx_heap f' !! p = Some c' ∧ needs c' = 0%nat) as Hnone.
  { intros Hn. exists (fx_of s), c. rewrite upd_fx_id. split_and!; [done|apply flushes_refl|done..]. }
  destruct Hokc as [[Hwf Hcoh]|Hin].
  2: { destruct Hin as (_ & Edirty & Eclone & _). rewrite Edirty, Eclone.
       apply Hnone. unfold needs. by rewrite Edirty, Eclone. }
  pose proof (ent_wf_old _ _ _ Hwf) as Hold.
  destruct (is_dirty c) eqn:Edirty, (has (ce_clone c)) eqn:Eclone; cbn [negb andb];
    [| |idtac|apply Hnone; unfold needs; by rewrite Edirty, Eclone].
  2: destruct (Z.eqb_spec (ce_lock c) 0) as [El|El]; cbn [negb];
       [|apply Hnone; unfold needs; rewrite Edirty, Eclone; by destruct (Z.eqb_spec (ce_lock c) 0)].
  all: assert (is_Some (ce_clone c) ∨ ce_lock c = 0) as Hmay
    by (unfold has in Eclone; destruct (ce_clone c); [left; eauto|by right]).
  all: destruct (write_back_flushes bs E p (fx_of s) c Hok Hp Hc Hmay Hold) as (Hf1 & Hok1 & Hc1).
  all: rewrite (flush_restart_step 1 s p c Hio Hc Hwf), Eclone, Edirty; cbn [andb]; rewrite ?andb_true_r, ?andb_false_r.
  - destruct (Z.eqb_spec (ce_lock c) 0) as [El|El].
    + set (f1 := write_back p (fx_of s)) in *.
      destruct (fo_ent _ _ _ Hok1 p Hp) as (c1 & ? & Hok1c). simplify_eq.
      assert (ce_dev (marked c) ≠ -1) as Hold1 by (pose proof (f_equal ce_dev (core_marked c)) as E0; cbn in E0; congruence).
      destruct Hok1c as [[Hwf1 _]|[? _]]; [|done].
      rewrite (flush_restart_step 0 (upd_fx f1 s) p (marked c)), marked_clone by done.
      rewrite fx_of_upd, upd_fx_upd. change (has (@None (list Z))) with false. cbn [andb].
      destruct (write_back_flushes bs E p f1 (marked c) Hok1 Hp Hc1) as (Hf2 & Hok2 & Hc2);
        [right; by rewrite marked_lock|done|].
      exists (write_back p f1), (marked (marked c)). split_and!; try done.
      * by eapply flushes_trans.
      * unfold needs. rewrite marked_clone, marked_dirty, marked_clone, andb_false_r. done.
    + do 2 eexists. split_and!; [done..|]. unfold needs. rewrite marked_clone, marked_lock.
      destruct (Z.eqb_spec (ce_lock c) 0); [done|]. by rewrite andb_false_r.
  - do 2 eexists. split_and!; [done..|]. unfold needs. by rewrite marked_clone, marked_dirty, Eclone, andb_false_r.
  - do 2 eexists. split_and!; [done..|]. unfold needs. by rewrite marked_clone, marked_dirty, Edirty.
Qed.

(** A run of consecutive blocks, written at once. *)
Fixpoint marks (ps : list ptr) (h : gmap ptr cache_ent) : gmap ptr cache_ent :=
  match ps with [] => h | p :: ps => marks ps (alter marked p h) end.

Definition bufs_of (h : gmap ptr cache_ent) (ps : list ptr) : list (list Z) :=
  (λ p, default [] (h !! p ≫= next_block)) <$> ps.
Definition calls_of (h : gmap ptr cache_ent) (ps : list ptr) : list callback :=
  mjoin ((λ p, default [] (callbacks <$> h !! p)) <$> ps).

Definition writable (c : cache_ent) : Prop := is_Some (ce_clone c) ∨ ce_lock c = 0.

(** The entries of a run, in order, from block [b] of [dev]. *)
Fixpoint consecutive (h : gmap ptr cache_ent) (D : gmap Z (list Z)) (dev b : Z) (ps : list ptr) : Prop :=
  match ps with
  | [] => True
  | p :: ps =>
      (∃ c, h !! p = Some c ∧ ce_key c = (dev, b) ∧ ent_wf bs D c ∧ writable c) ∧
      consecutive h D dev (b + 1) ps
  end.

Lemma of_notin (f : ptr → cache_ent → cache_ent) h p ps :
  (p ∉ ps) → bufs_of (alter (f p) p h) ps = bufs_of h ps ∧ calls_of (alter (f p) p h) ps = calls_of h ps.
Proof.
  intros Hp. unfold bufs_of, calls_of. split; [|f_equal]; apply list_fmap_ext; intros i q Hq;
    (rewrite lookup_alter_ne; [done|]); intros ->; by eapply Hp, list_elem_of_lookup_2.
Qed.

Lemma consecutive_put h D dev b ps p c :
  (p ∉ ps) → ent_wf bs D c → consecutive h D dev b ps →
  consecutive (alter marked p h) (put_block c D) dev b ps.
Proof.
  intros Hp Hwf. destruct (next_block_wf _ _ _ Hwf) as (buf & Hbuf & Hl).
  destruct (ew_dev _ _ _ Hwf) as (d & Hd & Hb & Hfit & _ & Hbs & _).
  revert b. induction ps as [|q ps IH]; intros b; cbn; [done|].
  intros [(cq & Hq & Ek & Hwfq & Hw) Hrest]. apply not_elem_of_cons in Hp as [Hne Hp].
  split; [|by apply IH]. exists cq. rewrite lookup_alter_ne by done. split_and!; [done..| |done].
  eapply (ent_wf_core bs D); [done| | |done]; [|done].
  rewrite (put_block_eq _ _ _ _ Hwf Hbuf). by eapply put_length.
Qed.

Lemma run_write_back s ps dev b d :
  NoDup ps → disks s !! dev = Some d → 0 ≤ b → (b + zlen ps) * bs dev ≤ zlen d → 0 < bs dev →
  consecutive (heap s) (disks s) dev b ps →
  foldl (λ f p, write_back p f) (fx_of s) ps =
    mkFx (marks ps (heap s)) (alter (splice (b * bs dev) (mjoin (bufs_of (heap s) ps))) dev (disks s))
         (calls s ++ calls_of (heap s) ps).
Proof.
  revert s b d. induction ps as [|p ps IH]; intros s b d Hnd Hd Hb Hfit Hbs Hrun.
  - cbn. unfold fx_of. f_equal; [|by rewrite app_nil_r]. rewrite alter_id; [done|].
    intros d' ?. simplify_eq. unfold splice. cbn [length app]. by rewrite Nat.add_0_r, take_drop.
  - apply NoDup_cons in Hnd as [Hp Hnd]. cbn [length] in Hfit.
    destruct Hrun as [(c & Hc & Ek & Hwf & Hw) Hrun]. unfold ce_key in Ek. injection Ek as <- <-.
    destruct (next_block_wf _ _ _ Hwf) as (buf & Hbuf & Hl).
    destruct (of_notin (λ _, marked) (heap s) p ps Hp) as [Eb Ec].
    set (f1 := write_back p (fx_of s)).
    assert (f1 = mkFx (alter marked p (heap s)) (put_block c (disks s)) (calls s ++ callbacks c)) as Ef.
    { subst f1. unfold write_back. cbn. by rewrite Hc. }
    cbn [foldl]. fold f1. rewrite <- (fx_of_upd f1 s).
    rewrite (IH (upd_fx f1 s) (ce_block_num c + 1) (splice (ce_block_num c * bs (ce_dev c)) buf d)); clear IH.
    + rewrite Ef. unfold upd_fx. cbn. rewrite Eb, Ec, Hc. cbn. rewrite Hbuf. f_equal.
      * rewrite (put_block_eq _ _ _ _ Hwf Hbuf), alter_alter_eq. apply alter_ext. intros d' ?. simplify_eq.
        cbn. unfold compose. replace ((ce_block_num c + 1) * bs (ce_dev c)) with (ce_block_num c * bs (ce_dev c) + zlen buf) by lia.
        apply splice_splice. nia.
      * by rewrite (assoc_L (++)).
    + done.
    + rewrite Ef. cbn. rewrite (put_block_eq _ _ _ _ Hwf Hbuf), lookup_alter_eq, Hd. done.
    + lia.
    + rewrite splice_length by nia. lia.
    + done.
    + rewrite Ef. cbn. by apply consecutive_put.
Qed.

Lemma run_length_run s dev b n rest :
  (∀ q, q ∈ rest → ∃ c, heap s !! q = Some c ∧ ent_ok bs (disks s) c) → dev ≠ -1 → 1 ≤ n →
  ∃ m, run_length dev b n rest s = Ok (n + Z.of_nat m, s) ∧ (m ≤ length rest)%nat ∧
    (n ≤ 64 → n + Z.of_nat m ≤ 64) ∧ consecutive (heap s) (disks s) dev (b + n) (take m rest).
Proof.
  intros Hin Hdev. revert n. induction rest as [|q rest IH]; intros n Hn; cbn [run_length].
  - exists 0%nat. rewrite Z.add_0_r. split; [done|]. split; [done|]. split; [lia|done].
  - assert (∃ m : nat, Ok (n, s) = Ok (n + Z.of_nat m, s) ∧ (m ≤ length (q :: rest))%nat ∧
       (n ≤ 64 → n + Z.of_nat m ≤ 64) ∧ consecutive (heap s) (disks s) dev (b + n) (take m (q :: rest))) as Hstop.
    { exists 0%nat. rewrite Z.add_0_r. split; [done|]. split; [lia|]. split; [lia|done]. }
    unfold NUM_FLUSH_BLOCKS. destruct (Z.ltb_spec n 64) as [Hlt|]; [|done].
    destruct (Hin q) as (c & Hc & Hokc); [set_solver|]. mstep (load_run s q c Hc).
    destruct (Z.eqb_spec (ce_dev c) dev) as [Ed|]; cbn [negb orb]; [|done].
    destruct Hokc as [[Hwf _]|[? _]]; [|congruence].
    destruct (Z.eqb_spec (ce_block_num c) (b + n)) as [Eb|]; cbn [negb orb]; [|done].
    destruct (negb (has (ce_clone c)) && negb (ce_lock c =? 0)) eqn:Ew; [done|].
    destruct (IH ltac:(set_solver) (n + 1)) as (m & E & Hm & Hm64 & Hrun); [lia|].
    exists (S m). rewrite E. split; [do 2 f_equal; lia|]. cbn [length take]. split; [lia|]. split; [lia|].
    cbn [consecutive]. split; [|by replace (b + n + 1) with (b + (n + 1)) by lia].
    exists c. split_and!; [done|unfold ce_key; congruence|done|].
    unfold writable, has in *. destruct (ce_clone c); [left; eauto|]. cbn in Ew.
    right. by apply negb_false_iff, Z.eqb_eq in Ew.
Qed.

Lemma iov_bufs_run s dev b ps :
  consecutive (heap s) (disks s) dev b ps →
  iov_bufs (bs dev) ps s = Ok (bufs_of (heap s) ps, s) ∧
  zlen (mjoin (bufs_of (heap s) ps)) = zlen ps * bs dev.
Proof.
  revert b. induction ps as [|p ps IH]; intros b; [done|]. intros [(c & Hc & Ek & Hwf & _) Hrun].
  unfold ce_key in Ek. injection Ek as Ed Eb. destruct (IH _ Hrun) as [E Hlen].
  destruct (next_block_wf _ _ _ Hwf) as (buf & Hbuf & Hl). rewrite Ed in Hl.
  destruct (ew_dev _ _ _ Hwf) as (d & _ & _ & _ & _ & Hbs). rewrite Ed in Hbs.
  cbn [iov_bufs]. mstep (load_run s p c Hc). rewrite Hbuf. unfold deref. mrun.
  rewrite load_bytes_Ok by lia. mrun. rewrite (bind_Ok _ _ _ _ _ E). mrun.
  rewrite slice_0, take_ge by lia.
  assert (bufs_of (heap s) (p :: ps) = buf :: bufs_of (heap s) ps) as -> by (cbn; rewrite Hc; cbn; by rewrite Hbuf).
  split; [done|]. change (zlen (buf ++ mjoin (bufs_of (heap s) ps)) = zlen (p :: ps) * bs dev).
  rewrite length_app. cbn [length]. lia.
Qed.

Lemma mark_written_run s ps :
  NoDup ps → (∀ p, p ∈ ps → is_Some (heap s !! p)) →
  mark_written ps s = Ok (tt, upd_fx (mkFx (marks ps (heap s)) (disks s) (calls s ++ calls_of (heap s) ps)) s).
Proof.
  revert s. induction ps as [|p ps IH]; intros s Hnd Hin; cbn [mark_written].
  - cbn. rewrite app_nil_r. mrun. do 2 f_equal. symmetry. apply (upd_fx_id s).
  - apply NoDup_cons in Hnd as [Hp Hnd]. destruct (Hin p) as [c Hc]; [set_solver|].
    rewrite (bind_Ok _ _ _ _ _ (call_func_run s p c Hc)).
    set (s1 := upd_fx _ s). assert (heap s1 !! p = Some (set_func None c)) as Hc1 by (cbn; by rewrite lookup_alter_eq, Hc).
    mstep (load_run s1 p _ Hc1). cbn [ce_clone set_func].
    set (s2 := upd_fx (mkFx (alter marked p (heap s)) (disks s) (calls s ++ callbacks c)) s).
    assert ((if has (ce_clone c) then store p (set_clone None) else store p (clear_flags CE_DIRTY)) s1 = Ok (tt, s2)) as E2.
    { assert (∀ g, marked c = g (set_func None c) → store p g s1 = Ok (tt, s2)) as Hst.
      { intros g Hg. rewrite (store_run _ _ _ _ Hc1). do 2 f_equal. unfold s1, s2, upd_fx. cbn.
        rewrite alter_alter_eq.
        replace (alter (g ∘ set_func None) p (heap s)) with (alter marked p (heap s)); [done|].
        apply alter_ext. intros c' ?. by simplify_eq. }
      destruct (has (ce_clone c)) eqn:Ec; apply Hst; unfold marked; cbn; by rewrite Ec. }
    rewrite (bind_Ok _ _ _ _ _ E2). rewrite IH; [|done|].
    + destruct (of_notin (λ _, marked) (heap s) p ps Hp) as [_ Ec].
      cbn. rewrite Ec, Hc. unfold upd_fx. cbn. by rewrite <- (assoc_L (++)).
    + intros q Hq. subst s2. cbn. rewrite lookup_alter_is_Some. apply Hin. set_solver.
Qed.

Lemma fold_write_back E ps f :
  fx_ok bs E f → NoDup ps → ps ⊆ E → (∀ p c, p ∈ ps → fx_heap f !! p = Some c → writable c ∧ ce_dev c ≠ -1) →
  let f' := foldl (λ f p, write_back p f) f ps in
  flushes bs E f f' ∧ fx_ok bs E f' ∧ (∀ q, (q ∉ ps) → fx_heap f' !! q = fx_heap f !! q) ∧
  ∀ p c, p ∈ ps → fx_heap f !! p = Some c → fx_heap f' !! p = Some (marked c).
Proof.
  revert f. induction ps as [|p ps IH]; intros f Hok Hnd Hsub Hw; cbn.
  - split; [apply flushes_refl|]. split; [done|]. set_solver.
  - apply NoDup_cons in Hnd as [Hp Hnd]. destruct (fo_ent _ _ _ Hok p) as (c & Hc & _); [set_solver|].
    destruct (Hw p c) as [Hwc Hold]; [set_solver|done|].
    destruct (write_back_flushes bs E p f c Hok) as (Hf & Hok1 & Hc1); [set_solver|done..|].
    assert (∀ q, q ≠ p → fx_heap (write_back p f) !! q = fx_heap f !! q) as Hsame.
    { intros q Hne. unfold write_back. rewrite Hc. cbn. by rewrite lookup_alter_ne. }
    destruct (IH (write_back p f) Hok1 Hnd) as (Hf' & Hok' & Hout & Hin); [set_solver| |].
    { intros q cq Hq. rewrite Hsame by set_solver. apply Hw. set_solver. }
    split; [by eapply flushes_trans|]. split; [done|]. split.
    + intros q Hq. rewrite Hout, Hsame; set_solver.
    + intros q cq [->|Hq]%elem_of_cons Hcq; [by rewrite Hout; simplify_eq|].
      apply Hin; [done|]. rewrite Hsame; set_solver.
Qed.

Lemma consecutive_range s dev b ps :
  consecutive (heap s) (disks s) dev b ps → ps ≠ [] →
  ∃ d, disks s !! dev = Some d ∧ 0 ≤ b ∧ (b + zlen ps) * bs dev ≤ zlen d ∧ 0 < bs dev < 2 ^ 24 ∧ zlen d < 2 ^ 62.
Proof.
  revert b. induction ps as [|p ps IH]; intros b; [done|]. intros [(c & Hc & Ek & Hwf & _) Hrun] _.
  unfold ce_key in Ek. injection Ek as <- <-. destruct (ew_dev _ _ _ Hwf) as (d & Hd & Hb & Hfit & Hsz & Hbs).
  destruct ps as [|q ps].
  - exists d. cbn [length]. split_and!; try done; lia.
  - destruct (IH _ Hrun) as (d' & ? & ? & ? & ? & ?); [done|]. assert (d' = d) as -> by congruence. exists d. cbn [length] in *.
    split_and!; try done; lia.
Qed.

Lemma consecutive_in h D dev b ps p :
  consecutive h D dev b ps → p ∈ ps → ∃ c, h !! p = Some c ∧ writable c ∧ ce_dev c ≠ -1.
Proof.
  revert b. induction ps as [|q ps IH]; intros b; [set_solver|].
  intros [(c & Hc & _ & Hwf & Hw) Hrun] [->|Hp]%elem_of_cons; eauto using ent_wf_old.
Qed.

(** A run through [writev_pos] is the sequence of its writes. *)
Lemma run_flush s dev b ps d :
  io s = [] → NoDup ps → ps ≠ [] → zlen ps ≤ 64 → consecutive (heap s) (disks s) dev b ps →
  disks s !! dev = Some d →
  iov_bufs (bs dev) ps s = Ok (bufs_of (heap s) ps, s) ∧
  writev_pos dev (s64 (b * bs dev)) (bufs_of (heap s) ps) s =
    Ok (zlen ps * bs dev, upd_disks (alter (splice (b * bs dev) (mjoin (bufs_of (heap s) ps))) dev (disks s)) [] s) ∧
  s32 (zlen ps * bs dev) = zlen ps * bs dev ∧
  mark_written ps (upd_disks (alter (splice (b * bs dev) (mjoin (bufs_of (heap s) ps))) dev (disks s)) [] s) =
    Ok (tt, upd_fx (foldl (λ f p, write_back p f) (fx_of s) ps) s).
Proof.
  intros Hio Hnd Hne Hlen Hrun Hd. destruct (iov_bufs_run s dev b ps Hrun) as [Eb Hl].
  destruct (consecutive_range s dev b ps Hrun Hne) as (d' & ? & Hb & Hfit & Hbs & Hsz). assert (d' = d) as -> by congruence.
  split; [done|]. split; [|split].
  - unfold writev_pos, s64. rewrite swrap_id by nia.
    destruct (write_pos_run s dev (b * bs dev) (mjoin (bufs_of (heap s) ps)) d) as (k & r & ios & E & Hk & Hkd & Hr & Hall); [done|nia|].
    destruct (Hall Hio) as (-> & -> & ->). rewrite E. rewrite Hl. rewrite Z.min_l by nia.
    do 3 f_equal. rewrite take_ge by lia.
    apply map_eq. intros dv. destruct (decide (dev = dv)) as [<-|].
    + by rewrite lookup_insert_eq, lookup_alter_eq, Hd.
    + by rewrite lookup_insert_ne, lookup_alter_ne.
  - apply s32_id. unfold is_s32. nia.
  - rewrite mark_written_run; [|done|].
    + rewrite (run_write_back s ps dev b d) by (done || lia). unfold upd_fx. cbn. by rewrite Hio.
    + intros p Hp. destruct (consecutive_in _ _ _ _ _ p Hrun Hp) as (c & Hc & _). eauto.
Qed.

(** What one pass leaves of an entry. *)
Definition passed (c c' : cache_ent) : Prop :=
  ce_clone c' = None ∧ (needs c' = 0 ∨ needs c' < needs c)%nat.

Lemma flushes_passed E f f' p c c1 :
  flushes bs E f f' → p ∈ E → fx_heap f !! p = Some c1 → passed c c1 →
  ∃ c', fx_heap f' !! p = Some c' ∧ passed c c'.
Proof.
  intros Hf Hp Hc [Hcl Hn]. destruct (fl_ent _ _ _ _ Hf p c1 Hp Hc) as (c' & Hc' & [_ Hn' Hcl' _]).
  exists c'. split; [done|]. split; [destruct Hcl'; congruence|lia].
Qed.

Lemma passed_needs c c' : needs c' = 0%nat → passed c c'.
Proof.
  intros Hn. split; [|by left]. unfold needs in Hn. destruct (ce_clone c'); [|done]. cbn in Hn. lia.
Qed.

Lemma passed_marked c : passed c (marked c).
Proof. split; [apply marked_clone|]. destruct (marked_needs c) as [E|[E1 E2]]; lia. Qed.

(** Composing a step that dealt with [done_] and a pass over the rest. *)
Lemma pass_compose E f f1 f' done_ rest :
  flushes bs E f f1 → flushes bs E f1 f' → done_ ++ rest ⊆ E → fx_ok bs E f →
  (∀ p c, p ∈ done_ → fx_heap f !! p = Some c → ∃ c1, fx_heap f1 !! p = Some c1 ∧ passed c c1) →
  (∀ p c, p ∈ rest → fx_heap f1 !! p = Some c → ∃ c1, fx_heap f' !! p = Some c1 ∧ passed c c1) →
  flushes bs E f f' ∧
  ∀ p c, p ∈ done_ ++ rest → fx_heap f !! p = Some c → ∃ c', fx_heap f' !! p = Some c' ∧ passed c c'.
Proof.
  intros H1 H2 Hsub Hok Hd Hr. split; [by eapply flushes_trans|].
  intros p c Hp Hc. apply elem_of_app in Hp as [Hp|Hp].
  - destruct (Hd p c Hp Hc) as (c1 & Hc1 & Hpass). eapply flushes_passed; [done|set_solver|done|done].
  - destruct (fl_ent _ _ _ _ H1 p c) as (c1 & Hc1 & Hst); [set_solver|done|].
    destruct (Hr p c1 Hp Hc1) as (c' & Hc' & Hcl & Hn). exists c'. split; [done|].
    split; [done|]. pose proof (es_needs _ _ _ _ _ Hst). lia.
Qed.

Lemma writable_flag c : negb (has (ce_clone c)) && negb (ce_lock c =? 0) = false → writable c.
Proof.
  unfold writable, has. destruct (ce_clone c); [left; eauto|]. intros El.
  right. by apply negb_false_iff, Z.eqb_eq in El.
Qed.

(** The batch that starts with [p] and goes on through [m] more entries. *)
Lemma batch_run E s p rest c m :
  io s = [] → fx_ok bs E (fx_of s) → NoDup (p :: rest) → p :: rest ⊆ E → heap s !! p = Some c →
  ent_wf bs (disks s) c → writable c → (m ≤ length rest)%nat → 1 + Z.of_nat m ≤ 64 →
  consecutive (heap s) (disks s) (ce_dev c) (ce_block_num c + 1) (take m rest) →
  ∃ f1 bufs s1, iov_bufs (ce_bsize c) (p :: take m rest) s = Ok (bufs, s) ∧
    writev_pos (ce_dev c) (s64 (ce_block_num c * ce_bsize c)) bufs s = Ok ((1 + Z.of_nat m) * ce_bsize c, s1) ∧
    mark_written (p :: take m rest) s1 = Ok (tt, upd_fx f1 s) ∧
    flushes bs E (fx_of s) f1 ∧ fx_ok bs E f1 ∧
    ∀ q cq, q ∈ p :: take m rest → heap s !! q = Some cq → ∃ c1, fx_heap f1 !! q = Some c1 ∧ passed cq c1.
Proof.
  intros Hio Hok [Hp Hnd]%NoDup_cons Hsub Hc Hwf Hw Hm Hm64 Hrun.
  assert (consecutive (heap s) (disks s) (ce_dev c) (ce_block_num c) (p :: take m rest)) as Hrun'.
  { split; [|done]. exists c. done. }
  assert (zlen (p :: take m rest) = 1 + Z.of_nat m) as Hl by (cbn [length]; rewrite length_take; lia).
  assert (NoDup (p :: take m rest)) as Hnd'.
  { apply NoDup_cons. split; [|by apply NoDup_take]. intros Hin. apply Hp. by eapply elem_of_take_1. }
  destruct (ew_dev _ _ _ Hwf) as (d & Hd & _).
  destruct (run_flush s _ _ _ d Hio Hnd' ltac:(done) ltac:(lia) Hrun' Hd) as (Eb & Ew & _ & Emk).
  destruct (fold_write_back E (p :: take m rest) (fx_of s) Hok Hnd') as (Hf1 & Hok1 & _ & Hmk).
  { intros q Hq. apply Hsub, elem_of_cons. apply elem_of_cons in Hq as [->|Hq]; [by left|]. right. by eapply elem_of_take_1. }
  { intros q cq Hq Hcq. cbn in Hcq. destruct (consecutive_in _ _ _ _ _ q Hrun' Hq) as (? & ? & ? & ?). by simplify_eq. }
  rewrite (ew_bsize _ _ _ Hwf). rewrite <- Hl. do 3 eexists. split_and!; [done..|].
  intros q cq Hq Hcq. exists (marked cq). split; [by apply Hmk|apply passed_marked].
Qed.

Lemma flush_pass_run E fuel ents ret s :
  io s = [] → fx_ok bs E (fx_of s) → NoDup ents → ents ⊆ E → (length ents ≤ fuel)%nat →
  ∃ f' r, flush_pass fuel ents ret s = Ok (r, upd_fx f' s) ∧ (ret = 0 → r = 0) ∧
    fx_ok bs E f' ∧ flushes bs E (fx_of s) f' ∧
    ∀ p c, p ∈ ents → heap s !! p = Some c → ∃ c', fx_heap f' !! p = Some c' ∧ passed c c'.
Proof.
  revert ents ret s. induction fuel as [|fuel IH]; intros [|p rest] ret s Hio Hok Hnd Hsub Hlen;
    try (exists (fx_of s), ret; cbn; rewrite upd_fx_id; split_and!; [done|done|done|apply flushes_refl|set_solver]).
  { cbn in Hlen. lia. }
  cbn [length] in Hlen. apply NoDup_cons in Hnd as [Hp Hnd].
  destruct (fo_ent _ _ _ Hok p) as (c & Hc & Hokc); [set_solver|]. cbn in Hc, Hokc.
  cbn [flush_pass]. mstep (load_run s p c Hc).
  (* nothing to do for this entry *)
  assert (needs c = 0%nat → ∃ f' r, flush_pass fuel rest ret s = Ok (r, upd_fx f' s) ∧ (ret = 0 → r = 0) ∧
    fx_ok bs E f' ∧ flushes bs E (fx_of s) f' ∧
    ∀ q cq, q ∈ p :: rest → heap s !! q = Some cq → ∃ c', fx_heap f' !! q = Some c' ∧ passed cq c') as Hskip.
  { intros Hn. destruct (IH rest ret s) as (f' & r & E1 & Hr & Hok' & Hf & Hpass); [done|done|done|set_solver|lia|].
    destruct (pass_compose E (fx_of s) (fx_of s) f' [p] rest) as [_ Hall]; [apply flushes_refl|done|done|done| |done|].
    { intros q cq Hq Hcq. assert (q = p) as -> by set_solver. exists cq. split; [done|].
      cbn in Hcq. simplify_eq. by apply passed_needs. }
    by exists f', r. }
  destruct (negb (is_dirty c) && negb (has (ce_clone c))) eqn:E1.
  { apply Hskip. unfold needs. by destruct (is_dirty c), (has (ce_clone c)). }
  destruct (negb (has (ce_clone c)) && negb (ce_lock c =? 0)) eqn:E2.
  { apply Hskip. unfold needs. destruct (has (ce_clone c)), (ce_lock c =? 0); try done. by rewrite andb_false_r. }
  clear Hskip. destruct Hokc as [[Hwf _]|(_ & Hd & Hcl & _)]; [|by rewrite Hd, Hcl in E1].
  destruct (run_length_run s (ce_dev c) (ce_block_num c) 1 rest) as (m & Em & Hm & Hm64 & Hrun); [|by eapply ent_wf_old|lia|].
  { intros q Hq. apply (fo_ent _ _ _ Hok q). set_solver. }
  rewrite (bind_Ok _ _ _ _ _ Em). mrun. destruct (Z.eqb_spec (1 + Z.of_nat m) 1) as [E0|E0].
  - destruct (flush_cache_ent_run E s p c Hio Hok) as (f1 & c1 & Ef & Hf1 & Hok1 & Hc1 & Hn1); [set_solver|done|].
    rewrite (bind_Ok _ _ _ _ _ Ef). mrun. cbn [Z.eqb negb].
    destruct (IH rest 0 (upd_fx f1 s)) as (f' & r & E3 & Hr & Hok' & Hf & Hpass);
      [done|by rewrite fx_of_upd|done|set_solver|lia|]. rewrite fx_of_upd in Hf.
    destruct (pass_compose E (fx_of s) f1 f' [p] rest) as [Hf' Hall]; [done|done|done|done| |done|].
    { intros q cq Hq Hcq. assert (q = p) as -> by set_solver. exists c1. split; [done|]. by apply passed_needs. }
    exists f', r. rewrite E3. naive_solver.
  - replace (Z.to_nat (1 + Z.of_nat m)) with (S m) by lia. cbn [take drop].
    destruct (batch_run E s p rest c m) as (f1 & bufs & s1 & Eb & Ew & Emk & Hf1 & Hok1 & Hdone);
      [done|done|by apply NoDup_cons|done|done|done|by apply writable_flag|done|lia|done|].
    rewrite (bind_Ok _ _ _ _ _ Eb). rewrite (bind_Ok _ _ _ _ _ Ew).
    rewrite Z.eqb_refl. cbn [negb]. rewrite (bind_Ok _ _ _ _ _ Emk).
    destruct (IH (drop m rest) 0 (upd_fx f1 s)) as (f' & r & E3 & Hr & Hok' & Hf & Hpass);
      [done|by rewrite fx_of_upd|by apply NoDup_drop| |rewrite length_drop; lia|].
    { intros q Hq. apply Hsub, elem_of_cons. right. by eapply elem_of_drop_1. }
    rewrite fx_of_upd in Hf.
    destruct (pass_compose E (fx_of s) f1 f' (p :: take m rest) (drop m rest)) as [Hf' Hall]; [done|done| |done| |done|].
    { cbn. by rewrite take_drop. }
    { done. }
    cbn in Hall. rewrite take_drop in Hall. exists f', r. rewrite E3. naive_solver.
Qed.

Lemma still_dirty_run ents s :
  (∀ p, p ∈ ents → is_Some (heap s !! p)) →
  ∃ b, still_dirty ents s = Ok (b, s) ∧
    (b = false → ∀ p c, p ∈ ents → heap s !! p = Some c → is_dirty c && (ce_lock c =? 0) = false).
Proof.
  induction ents as [|p ents IH]; intros Hin; cbn [still_dirty].
  - exists false. split; [done|]. set_solver.
  - destruct (Hin p) as [c Hc]; [set_solver|]. mstep (load_run s p c Hc).
    destruct IH as (b & E & Hb); [set_solver|].
    destruct (negb (is_dirty c) || negb (ce_lock c =? 0)) eqn:Ed.
    + exists b. split; [done|]. intros Hf q cq [->|Hq]%elem_of_cons Hcq; [|by eapply Hb].
      simplify_eq. rewrite <- negb_andb in Ed. by apply negb_true_iff in Ed.
    + by exists true.
Qed.

(** Nothing is in flight: no transfer or allocation will fail, no iovec is in use. *)
Record ready (s : state) : Prop := {
  rd_mem : mem s = [];
  rd_io : io s = [];
  rd_iov : iov_held s = false;
  rd_pool : length (iovec_pool s) = 64%nat;
  rd_used : iovec_used s = replicate 64 0
}.

Definition set_pool (pool : list bool) (s : state) : state := upd_iov (iov_sem s) false pool (replicate 64 0) s.

Lemma get_iovec_run s : ready s →
  ∃ pool, length pool = 64%nat ∧ pool !! 0%nat = Some true ∧
    get_iovec_array s = Ok (0%nat, upd_iov (iov_sem s) false pool (<[0%nat := 1]> (replicate 64 0)) s).
Proof.
  intros [Hm Hio Hh Hp Hu]. unfold get_iovec_array, LOCK_iov, mbind, M_bind. rewrite Hh. cbn [getS].
  unfold getS. cbn [iovec_used upd_iov iovec_pool]. rewrite Hu.
  change (first_free 0 (replicate 64 0)) with 0%nat. rewrite bool_decide_false by (unfold MAX_IOVECS; lia).
  destruct (iovec_pool s) as [|a pool] eqn:Ep; [done|]. cbn [lookup list_lookup deref mret M_ret].
  destruct a.
  - exists (true :: pool). done.
  - exists (true :: pool). split; [done|]. split; [done|]. unfold malloc. cbn. by rewrite Hm.
Qed.

Lemma release_iovec_run pool s f :
  pool !! 0%nat = Some true →
  release_iovec_array 0 (upd_fx f (upd_iov (iov_sem s) false pool (<[0%nat := 1]> (replicate 64 0)) s)) =
    Ok (tt, upd_fx f (set_pool pool s)).
Proof.
  intros Hp. unfold release_iovec_array, LOCK_iov, UNLOCK_iov, mbind, M_bind, modifyS. cbn [iov_held upd_fx upd_calls upd_disks upd_heap upd_iov].
  cbn. rewrite bool_decide_true by done. done.
Qed.

Lemma flush_ents_run ents s :
  ready s → fx_ok bs ents (fx_of s) → NoDup ents →
  ∃ f' pool, flush_ents ents s = Ok (0, upd_fx f' (set_pool pool s)) ∧ length pool = 64%nat ∧
    fx_ok bs ents f' ∧ flushes bs ents (fx_of s) f' ∧
    ∀ p c', p ∈ ents → fx_heap f' !! p = Some c' → needs c' = 0%nat.
Proof.
  intros Hrd Hok Hnd. destruct (get_iovec_run s Hrd) as (pool & Hpl & Hp0 & Eg).
  set (s1 := upd_iov _ _ _ _ s) in Eg. assert (io s1 = []) as Hio by apply Hrd.
  unfold flush_ents. rewrite (bind_Ok _ _ _ _ _ Eg).
  destruct (flush_pass_run ents (length ents) ents 0 s1 Hio Hok Hnd) as (f1 & r1 & E1 & Hr1 & Hok1 & Hf1 & Hpass1); [done|lia|].
  rewrite Hr1 in E1 by done. rewrite (bind_Ok _ _ _ _ _ E1).
  destruct (still_dirty_run ents (upd_fx f1 s1)) as (b & E2 & Hb).
  { intros p Hp. destruct (fo_ent _ _ _ Hok1 p Hp) as (c & ? & _). cbn. eauto. }
  rewrite (bind_Ok _ _ _ _ _ E2). destruct b.
  - destruct (flush_pass_run ents (length ents) ents 0 (upd_fx f1 s1)) as (f2 & r2 & E3 & Hr2 & Hok2 & Hf2 & Hpass2);
      [done|by rewrite fx_of_upd|done|done|lia|]. rewrite fx_of_upd in Hf2.
    rewrite Hr2 in E3 by done. rewrite (bind_Ok _ _ _ _ _ E3). rewrite upd_fx_upd.
    rewrite (bind_Ok _ _ _ _ _ (release_iovec_run pool s f2 Hp0)). mrun. exists f2, pool.
    split_and!; [done..|by eapply flushes_trans|].
    intros p c' Hp Hc'. destruct (fo_ent _ _ _ Hok p Hp) as (c & Hc & _).
    destruct (Hpass1 p c Hp Hc) as (c1 & Hc1 & Hcl & _).
    destruct (Hpass2 p c1 Hp Hc1) as (c2 & Hc2 & _ & Hn). simplify_eq.
    destruct Hn as [|Hn]; [done|]. unfold needs in *. rewrite Hcl in Hn. cbn [has] in Hn.
    change (has (@None (list Z))) with false in Hn. destruct (is_dirty c1 && (ce_lock c1 =? 0)), (has (ce_clone c')), (is_dirty c' && (ce_lock c' =? 0)); cbn in *; lia.
  - mrun. rewrite (bind_Ok _ _ _ _ _ (release_iovec_run pool s f1 Hp0)). mrun. exists f1, pool.
    split_and!; [done..|]. intros p c' Hp Hc'. destruct (fo_ent _ _ _ Hok p Hp) as (c & Hc & _).
    destruct (Hpass1 p c Hp Hc) as (c1 & Hc1 & Hcl & _). simplify_eq.
    unfold needs. rewrite Hcl, (Hb eq_refl p c' Hp Hc'). done.
Qed.
End Runs.
