(* ===== verification/BlockCache.v ===== *)
(** The userlandfs block cache itself (fs_cache.c from [beos_init_block_cache]
    on): set-up and shutdown, releasing, dirtying, logging and flushing blocks,
    and [cache_block_io], through which blocks are read and written.

    One thread runs at a time: a lookup that finds a busy block waits for another
    thread, which is [Hang] here.  The caller's buffer is not one of the cache's
    own blocks.  [last_cache_access] is left out: only disabled code reads it. *)

From S2P Require Import Prelude Errors Sort CacheHash CacheState CacheIo CacheFlush.

Definition MAX_DEVICES : Z := 256.
Definition read_ahead_size : Z := 32 * 1024.

(** Fresh heap memory: its contents are indeterminate. *)
Definition uninit (n : Z) : list Z := replicate (Z.to_nat n) 0xcc.

(** * The hash table of [bc] *)

Definition ht_find (dev bnum : Z) : C (option ptr) :=
  s ← getS; liftO (hash_lookup (ht s) dev bnum).

Definition ht_insert (dev bnum : Z) (p : ptr) : C Z :=
  s ← getS; r ← hash_insert (ht s) dev bnum p; modifyS (upd_ht r.1);; mret r.2.

Definition ht_remove (dev bnum : Z) : C (option ptr) :=
  s ← getS; r ← liftO (hash_delete (ht s) dev bnum); modifyS (upd_ht r.1);; mret r.2.

Definition add_blocks (n : Z) : C unit :=
  modifyS (λ s, upd_sizes (bc_flags s) (cur_blocks s + n) (max_blocks s) s).

(** * Set-up *)

Definition zero_ht : hash_table := mkHt [] 0 0 0.
Definition no_list : cache_ent_list := mkCel None None.

(** [memset(&bc, 0, sizeof(bc))] *)
Definition clear_bc (s : state) : state :=
  upd_bc_lock 0 false (upd_sizes 0 0 0 (upd_ht zero_ht (upd_lists no_list no_list (heap s) s))).

Definition beos_init_block_cache (max flags : Z) : C Z :=
  modifyS (λ s, upd_devices (replicate (Z.to_nat MAX_DEVICES) 0)
    (upd_iov (iov_sem s) (iov_held s) (replicate (Z.to_nat MAX_IOVECS) false)
       (replicate (Z.to_nat MAX_IOVECS) 0) (clear_bc s)));;
  r ← init_hash_table;
  modifyS (upd_ht r.1);;
  if negb (r.2 =? 0) then mret ENOMEM
  else
    modifyS (λ s, upd_sizes flags (cur_blocks s) max (upd_bc_lock (-1) (bc_held s)
      (upd_iov (-1) (iov_held s) (iovec_pool s) (iovec_used s) s)));;
    ok1 ← malloc;
    (if ok1 : bool then modifyS (upd_bc_lock 1 false) else mret tt);;
    ok2 ← (if ok1 : bool then malloc else mret false);
    if negb ok2 then
      modifyS (λ s, upd_ht (shutdown_hash_table (ht s)) s);; modifyS clear_bc;; mret ENOMEM
    else
      modifyS (λ s, upd_iov 2 false (iovec_pool s) (iovec_used s) s);;
      a ← malloc;
      b ← malloc;
      modifyS (λ s, upd_iov (iov_sem s) (iov_held s) (<[1%nat := b]> (<[0%nat := a]> (iovec_pool s)))
                            (iovec_used s) s);;
      mret 0.

Definition beos_init_cache_for_device (fd max : Z) : C Z :=
  if fd >=? MAX_DEVICES then mret (-1)
  else
    LOCK_bc;;
    s ← getS;
    n ← (if fd <? 0 then failM OutOfBounds else deref (max_device_blocks s !! Z.to_nat fd));
    (if negb (n =? 0) then mret tt
     else modifyS (λ s, upd_devices (<[Z.to_nat fd := max]> (max_device_blocks s)) s));;
    UNLOCK_bc;;
    mret (if negb (n =? 0) then -1 else 0).

(** [max_device_blocks[dev]], which is not checked against the array. *)
Definition device_blocks (dev : Z) : C Z :=
  s ← getS;
  if dev <? 0 then failM OutOfBounds
  else match max_device_blocks s !! Z.to_nat dev with Some n => mret n | None => failM OutOfBounds end.

(** * Releasing and flushing blocks *)

(** A busy block is waited for. *)
Definition block_lookup (dev bnum : Z) : C (option ptr) :=
  o ← ht_find dev bnum;
  match o with
  | None => mret None
  | Some ce => c ← load ce; if is_busy c then hangM else mret (Some ce)
  end.

Definition other_block (dev bnum : Z) (c : cache_ent) : bool :=
  negb (ce_block_num c =? bnum) || negb (ce_dev c =? dev).

Fixpoint set_busy (ents : list ptr) : C unit :=
  match ents with [] => mret tt | p :: ents => store p (or_flags CE_BUSY);; set_busy ents end.
Fixpoint clear_busy (ents : list ptr) : C unit :=
  match ents with [] => mret tt | p :: ents => store p (clear_flags CE_BUSY);; clear_busy ents end.

(** [UNLOCK; qsort; flush_ents; LOCK; clear the busy bits] *)
Definition flush_unlocked (ents : list ptr) : C unit :=
  UNLOCK_bc;;
  sorted ← sort_ents ents;
  flush_ents sorted;;
  LOCK_bc;;
  clear_busy sorted.

Definition do_flush (ents : list ptr) : C unit := set_busy ents;; flush_unlocked ents.

(** [ce->lock--], and the move to the normal list when nobody holds it. *)
Definition drop_lock (ce : ptr) : C unit :=
  store ce (λ c, set_lock (ce_lock c - 1) c);;
  c ← load ce;
  if ce_lock c =? 0 then delete_from_list Locked ce;; add_to_head Normal ce else mret tt.

Definition beos_release_block (dev bnum : Z) : C Z :=
  LOCK_bc;;
  o ← block_lookup dev bnum;
  match o with
  | None => beos_panic
  | Some ce =>
      c ← load ce;
      if other_block dev bnum c then beos_panic
      else drop_lock ce;; UNLOCK_bc;; mret 0
  end.

Fixpoint mark_dirty_loop (dev bnum : Z) (n : nat) : C Z :=
  match n with
  | O => mret 0
  | S n =>
      o ← block_lookup dev bnum;
      match o with
      | Some ce => store ce (or_flags CE_DIRTY);; mark_dirty_loop dev (bnum + 1) n
      | None => mret ENOENT
      end
  end.

Definition beos_mark_blocks_dirty (dev bnum nblocks : Z) : C Z :=
  LOCK_bc;;
  ret ← mark_dirty_loop dev bnum (Z.to_nat nblocks);
  UNLOCK_bc;;
  mret ret.

(** The first loop of [beos_set_blocks_info]: every block is marked busy, old
    clones are flushed in batches; [ents] is the current batch. *)
Fixpoint collect_info (dev : Z) (blocks : list Z) (ents : list ptr) : C (list ptr) :=
  match blocks with
  | [] => mret ents
  | b :: blocks =>
      o ← block_lookup dev b;
      match o with
      | None => beos_panic
      | Some ce =>
          c ← load ce;
          if other_block dev b c then beos_panic
          else if ce_lock c =? 0 then beos_panic
          else if negb (is_dirty c) then beos_panic
          else
            store ce (or_flags CE_BUSY);;
            if has (ce_clone c) && has (ce_func c) then
              let ents := ents ++ [ce] in
              if NUM_FLUSH_BLOCKS <=? zlen ents then flush_unlocked ents;; collect_info dev blocks []
              else collect_info dev blocks ents
            else collect_info dev blocks ents
      end
  end.

(** The second loop: clone the block and install the callback. *)
Fixpoint set_info (dev : Z) (blocks : list Z) (func : option Z) (arg : Z) : C unit :=
  match blocks with
  | [] => mret tt
  | b :: blocks =>
      o ← ht_find dev b;
      match o with
      | None => beos_panic
      | Some ce =>
          store ce (clear_flags (Z.lor CE_DIRTY CE_BUSY));;
          c ← load ce;
          if has (ce_func c) then beos_panic
          else if has (ce_clone c) then beos_panic
          else
            ok ← malloc;
            if negb ok then beos_panic
            else
              data ← deref (ce_data c);
              copy ← liftO (load_bytes 0 (ce_bsize c) data);
              store ce (set_clone (Some copy));;
              store ce (set_func func);;
              store ce (set_arg arg);;
              store ce (set_logged_bnum b);;
              drop_lock ce;;
              set_info dev blocks func arg
      end
  end.

Definition beos_set_blocks_info (dev : Z) (blocks : list Z) (func : option Z) (arg : Z) : C Z :=
  LOCK_bc;;
  ents ← collect_info dev blocks [];
  (if bool_decide (ents = []) then mret tt else flush_unlocked ents);;
  set_info dev blocks func arg;;
  UNLOCK_bc;;
  mret 0.

(** One of the two loops of [beos_flush_device]: from the start of the list
    again after every full batch.  [pick] is what makes an entry a candidate. *)
Fixpoint flush_scan (fuel : nat) (w : which) (pick : cache_ent → bool) (dev : Z)
    (ce : option ptr) (ents : list ptr) : C (list ptr) :=
  match ce with
  | None => mret ents
  | Some p =>
      match fuel with
      | O => hangM
      | S fuel =>
          c ← load p;
          if negb (ce_dev c =? dev) || is_busy c then flush_scan fuel w pick dev (ce_next c) ents
          else if pick c then
            let ents := ents ++ [p] in
            if NUM_FLUSH_BLOCKS <=? zlen ents then
              do_flush ents;;
              s ← getS;
              flush_scan fuel w pick dev (lru (get_list w s)) []
            else flush_scan fuel w pick dev (ce_next c) ents
          else flush_scan fuel w pick dev (ce_next c) ents
      end
  end.

Definition flush_list (fuel : nat) (w : which) (pick : cache_ent → bool) (dev : Z) : C unit :=
  s ← getS;
  ents ← flush_scan fuel w pick dev (lru (get_list w s)) [];
  if bool_decide (ents = []) then mret tt else do_flush ents.

Definition pick_normal (c : cache_ent) : bool := is_dirty c || has (ce_clone c).
Definition pick_locked (c : cache_ent) : bool := has (ce_clone c).

(** [fuel] bounds the entries each loop looks at. *)
Definition beos_flush_device (fuel : nat) (dev : Z) : C Z :=
  LOCK_bc;;
  flush_list fuel Normal pick_normal dev;;
  flush_list fuel Locked pick_locked dev;;
  UNLOCK_bc;;
  mret 0.

Fixpoint flush_blocks_loop (dev bnum : Z) (n : nat) (ents : list ptr) : C (list ptr) :=
  match n with
  | O => mret ents
  | S n =>
      o ← block_lookup dev bnum;
      match o with
      | None => flush_blocks_loop dev (bnum + 1) n ents
      | Some ce =>
          c ← load ce;
          if other_block dev bnum c then beos_panic
          else if negb (is_dirty c) && negb (has (ce_clone c)) then flush_blocks_loop dev (bnum + 1) n ents
          else
            store ce (or_flags CE_BUSY);;
            let ents := ents ++ [ce] in
            if NUM_FLUSH_BLOCKS <=? zlen ents then
              flush_unlocked ents;; flush_blocks_loop dev (bnum + 1) n []
            else flush_blocks_loop dev (bnum + 1) n ents
      end
  end.

Definition beos_flush_blocks (dev bnum nblocks : Z) : C Z :=
  if nblocks =? 0 then mret 0
  else
    LOCK_bc;;
    ents ← flush_blocks_loop dev bnum (Z.to_nat nblocks) [];
    UNLOCK_bc;;
    if bool_decide (ents = []) then mret 0
    else
      sorted ← sort_ents ents;
      flush_ents sorted;;
      clear_busy sorted;;
      mret 0.

(** The two scans of [beos_force_cache_flush]. *)
Fixpoint force_scan (fuel : nat) (pick : cache_ent → bool) (ce : option ptr) (ents : list ptr)
    : C (list ptr) :=
  match ce with
  | None => mret ents
  | Some p =>
      match fuel with
      | O => hangM
      | S fuel =>
          c ← load p;
          if negb (is_busy c) && pick c then
            store p (or_flags CE_BUSY);;
            let ents := ents ++ [p] in
            if NUM_FLUSH_BLOCKS <=? zlen ents then mret ents
            else force_scan fuel pick (ce_next c) ents
          else force_scan fuel pick (ce_next c) ents
      end
  end.

Definition beos_force_cache_flush (dev prefer_log_blocks : Z) : C unit :=
  LOCK_bc;;
  s ← getS;
  let fuel := S (size (heap s)) in
  ents ← force_scan fuel
    (λ c, (ce_dev c =? dev) && (is_dirty c || has (ce_clone c)) &&
          (negb (prefer_log_blocks =? 0) && has (ce_func c) || (prefer_log_blocks =? 0)))
    (lru (normal s)) [];
  s ← getS;
  ents ← (if zlen ents <? NUM_FLUSH_BLOCKS then
            force_scan fuel (λ c, (ce_dev c =? dev) && has (ce_clone c)) (lru (locked s)) ents
          else mret ents);
  UNLOCK_bc;;
  if bool_decide (ents = []) then mret tt
  else sorted ← sort_ents ents; flush_ents sorted;; clear_busy sorted.

(** * Throwing blocks away *)

(** The loop of [delete_cache_list]; a wrong hash entry is only reported. *)
Fixpoint delete_loop (fuel : nat) (ce : option ptr) : C unit :=
  match ce with
  | None => mret tt
  | Some p =>
      match fuel with
      | O => hangM
      | S fuel =>
          c ← load p;
          let next := ce_next c in
          (if is_dirty c || has (ce_clone c) then flush_cache_ent p;; mret tt else mret tt);;
          store p (set_clone None);;
          store p (set_data None);;
          ht_remove (ce_dev c) (ce_block_num c);;
          free_ent p;;
          add_blocks (-1);;
          delete_loop fuel next
      end
  end.

Definition delete_cache_list (w : which) : C unit :=
  s ← getS; delete_loop (S (size (heap s))) (lru (get_list w s)).

Definition beos_shutdown_block_cache : C unit :=
  s ← getS;
  (if 0 <? bc_sem s then LOCK_bc else mret tt);;
  delete_cache_list Normal;;
  delete_cache_list Locked;;
  modifyS (λ s, upd_lists no_list no_list (heap s) s);;
  modifyS (λ s, upd_ht (shutdown_hash_table (ht s)) s);;
  modifyS (λ s, upd_bc_lock (-1) (bc_held s) s).

Definition ALLOW_WRITES : Z := 1.

(** The entry is unlinked by hand, as [delete_from_list] does it but for its own
    links. *)
Definition unlink_ent (w : which) (p : ptr) : C unit :=
  c ← load p;
  modifyS (λ s, if bool_decide (lru (get_list w s) = Some p)
                then set_list w (mkCel (ce_next c) (mru (get_list w s))) s else s);;
  modifyS (λ s, if bool_decide (mru (get_list w s) = Some p)
                then set_list w (mkCel (lru (get_list w s)) (ce_prev c)) s else s);;
  when_ptr (ce_prev c) (λ q, store q (set_next (ce_next c)));;
  c ← load p;
  when_ptr (ce_next c) (λ q, store q (set_prev (ce_prev c))).

Fixpoint remove_loop (fuel : nat) (w : which) (dev allow_writes : Z) (ce : option ptr) : C unit :=
  match ce with
  | None => mret tt
  | Some p =>
      match fuel with
      | O => hangM
      | S fuel =>
          c ← load p;
          let next := ce_next c in
          if negb (ce_dev c =? dev) then remove_loop fuel w dev allow_writes next
          else
            (if (allow_writes =? ALLOW_WRITES) && (is_dirty c || has (ce_clone c)) then
               store p (or_flags CE_BUSY);;
               flush_cache_ent p;;
               store p (clear_flags CE_BUSY)
             else mret tt);;
            unlink_ent w p;;
            store p (set_clone None);;
            store p (set_data None);;
            junk ← ht_remove (ce_dev c) (ce_block_num c);
            if negb (bool_decide (junk = Some p)) then beos_panic
            else free_ent p;; add_blocks (-1);; remove_loop fuel w dev allow_writes next
      end
  end.

Definition real_remove_cached_blocks (dev allow_writes : Z) (w : which) : C unit :=
  s ← getS; remove_loop (S (size (heap s))) w dev allow_writes (lru (get_list w s)).

Definition beos_remove_cached_device_blocks (dev allow_writes : Z) : C Z :=
  LOCK_bc;;
  real_remove_cached_blocks dev allow_writes Normal;;
  real_remove_cached_blocks dev allow_writes Locked;;
  device_blocks dev;;
  modifyS (λ s, upd_devices (<[Z.to_nat dev := 0]> (max_device_blocks s)) s);;
  UNLOCK_bc;;
  mret 0.

(** * Getting entries for new blocks *)

Definition alloc_ent (c : cache_ent) : C ptr := λ s,
  Ok (next_ptr s, upd_heap (<[next_ptr s := c]> (heap s)) (Pos.succ (next_ptr s)) s).

(** [calloc] and [malloc]; the block size field is left 0. *)
Definition new_cache_ent (bsize : Z) : C ptr :=
  ok ← malloc;
  if negb ok then beos_panic
  else
    ok ← malloc;
    if negb ok then beos_panic
    else alloc_ent (mkCe (-1) (-1) 0 CE_NORMAL (Some (uninit bsize)) None 0 None 0 0 None None).

Fixpoint alloc_ents (n : nat) (bsize : Z) (ents : list ptr) : C (list ptr) :=
  match n with
  | O => mret ents
  | S n =>
      s ← getS;
      if cur_blocks s <? max_blocks s then
        p ← new_cache_ent bsize;
        add_blocks 1;;
        alloc_ents n bsize (ents ++ [p])
      else mret ents
  end.

(** Walks from [ce] towards the MRU end and takes entries that are not busy
    until there are [want]. *)
Fixpoint pluck (fuel : nat) (want : Z) (ce : option ptr) (ents : list ptr) : C (list ptr) :=
  match ce with
  | None => mret ents
  | Some p =>
      match fuel with
      | O => hangM
      | S fuel =>
          if zlen ents <? want then
            c ← load p;
            if negb (ce_lock c =? 0) then beos_panic
            else if is_busy c then pluck fuel want (ce_next c) ents
            else store p (or_flags CE_BUSY);; pluck fuel want (ce_next c) (ents ++ [p])
          else mret ents
      end
  end.

(** [retry]: how often the list may still be searched; between the searches the
    lock is given up for a while. *)
Fixpoint pluck_retry (retry : nat) (num_needed : Z) (ents : list ptr) : C (list ptr) :=
  if zlen ents <? num_needed then
    match retry with
    | O => UNLOCK_bc;; beos_panic
    | S retry =>
        s ← getS;
        ents ← pluck (S (size (heap s))) num_needed (lru (normal s)) ents;
        (if zlen ents <? num_needed then UNLOCK_bc;; LOCK_bc else mret tt);;
        pluck_retry retry num_needed ents
    end
  else mret ents.

(** The second walk looks at the busy bit before the lock. *)
Fixpoint pluck_more (fuel : nat) (max : Z) (ce : option ptr) (ents : list ptr) : C (list ptr) :=
  match ce with
  | None => mret ents
  | Some p =>
      match fuel with
      | O => hangM
      | S fuel =>
          if zlen ents <? max then
            c ← load p;
            if is_busy c then pluck_more fuel max (ce_next c) ents
            else if negb (ce_lock c =? 0) then beos_panic
            else store p (or_flags CE_BUSY);; pluck_more fuel max (ce_next c) (ents ++ [p])
          else mret ents
      end
  end.

Definition get_ents (num_needed max bsize : Z) : C (list ptr) :=
  if max <? num_needed then beos_panic
  else
    ents ← alloc_ents (Z.to_nat num_needed) bsize [];
    ents ← pluck_retry (Z.to_nat (num_needed * 256)) num_needed ents;
    match last ents with
    | Some p =>
        c ← load p;
        if (zlen ents <? max) && (is_dirty c || has (ce_clone c)) then
          s ← getS; pluck_more (S (size (heap s))) max (ce_next c) ents
        else mret ents
    | None => mret ents
    end.

(** The bytes [readv_pos] moved, spread over the blocks of the entries. *)
Fixpoint fill_ents (bsize : Z) (ents : list ptr) (bs : list Z) : C unit :=
  match ents with
  | [] => mret tt
  | p :: ents =>
      c ← load p;
      data ← deref (ce_data c);
      data ← liftO (store_bytes 0 (take (Z.to_nat bsize) bs) data);
      store p (set_data (Some data));;
      fill_ents bsize ents (drop (Z.to_nat bsize) bs)
  end.

Definition read_into_ents (dev bnum : Z) (ents : list ptr) (bsize : Z) : C Z :=
  iov ← get_iovec_array;
  let num := zlen ents in
  r ← readv_pos dev (s64 (bnum * bsize)) (replicate (length ents) bsize);
  fill_ents bsize ents r.2;;
  release_iovec_array iov;;
  mret (if negb (s32 r.1 =? s32 (num * bsize)) then EINVAL else 0).

(** * [cache_block_io] *)

Definition CACHE_READ : Z := 0x0001.
Definition CACHE_WRITE : Z := 0x0002.
Definition CACHE_NOOP : Z := 0x0004.
Definition CACHE_LOCKED : Z := 0x0008.
Definition CACHE_READ_AHEAD_OK : Z := 0x0010.

Definition op_has (op bit : Z) : bool := negb (Z.land op bit =? 0).

(** The caller's side of a request: the buffer behind [data] (NULL is [None])
    with the running offset into it, and what [*dataptr] was set to, as the
    entry whose block it points to. *)
Record user : Type := mkUser { u_buf : option (list Z); u_off : Z; u_ptr : option ptr }.

(** [data = (char * )data + bsize] if there is a buffer. *)
Definition advance (bsize : Z) (u : user) : user := mkUser (u_buf u) (u_off u + bsize) (u_ptr u).

(** [memcpy(data, block, bsize)], [memcpy(block, data, bsize)] and [memset]. *)
Definition copy_out (bsize : Z) (block : list Z) (u : user) (buf : list Z) : outcome user :=
  bs ← load_bytes 0 bsize block;
  buf ← store_bytes (u_off u) bs buf;
  Ok (mkUser (Some buf) (u_off u) (u_ptr u)).

Definition copy_in (bsize : Z) (u : user) (buf block : list Z) : outcome (list Z) :=
  bs ← load_bytes (u_off u) bsize buf; store_bytes 0 bs block.

Definition zeroes (n : Z) : list Z := replicate (Z.to_nat n) 0.

Definition zero_user (bsize : Z) (u : user) : outcome user :=
  match u_buf u with
  | Some buf => buf ← store_bytes (u_off u) (zeroes bsize) buf; Ok (mkUser (Some buf) (u_off u) (u_ptr u))
  | None => Ok u
  end.

Definition set_ptr (dataptr : bool) (ce : ptr) (u : user) : user :=
  if dataptr then mkUser (u_buf u) (u_off u) (Some ce) else u.

Definition list_of (c : cache_ent) : which := if ce_lock c =? 0 then Normal else Locked.

(** The part of [io_hit] between unlinking and linking the entry. *)
Definition hit_data (bsize op : Z) (dataptr : bool) (ce : ptr) (block : list Z) (u : user) : C user :=
  if op_has op CACHE_READ then
    match u_buf u with
    | Some buf => liftO (copy_out bsize block u buf)
    | None => mret (set_ptr dataptr ce u)
    end
  else if op_has op CACHE_WRITE then
    (match u_buf u with
     | Some buf => block ← liftO (copy_in bsize u buf block); store ce (set_data (Some block))
     | None => mret tt
     end);;
    store ce (or_flags CE_DIRTY);;
    mret u
  else if op_has op CACHE_NOOP then
    block ← liftO (store_bytes 0 (zeroes bsize) block);
    store ce (set_data (Some block));;
    u ← liftO (zero_user bsize u);
    store ce (or_flags CE_DIRTY);;
    mret (set_ptr dataptr ce u)
  else beos_panic.

(** The block is in the cache. *)
Definition io_hit (dev bnum bsize op : Z) (dataptr : bool) (ce : ptr) (u : user) : C user :=
  c ← load ce;
  if other_block dev bnum c then beos_panic
  else if negb (ce_bsize c =? bsize) then beos_panic
  else
    delete_from_list (list_of c) ce;;
    block ← deref (ce_data c);
    u ← hit_data bsize op dataptr ce block u;
    (if op_has op CACHE_LOCKED then store ce (λ c, set_lock (ce_lock c + 1) c) else mret tt);;
    c ← load ce;
    add_to_head (list_of c) ce;;
    mret (advance bsize u).

(** How many blocks from [bnum] on are not in the cache ([cur_nblocks]). *)
Fixpoint count_missing (fuel : nat) (dev bnum num_blocks n : Z) : C Z :=
  match fuel with
  | O => mret n
  | S fuel =>
      if (n <? num_blocks) && (n <? NUM_FLUSH_BLOCKS) then
        o ← ht_find dev (bnum + n);
        if has o then mret n else count_missing fuel dev bnum num_blocks (n + 1)
      else mret n
  end.

(** How many to read with read-ahead ([num_needed]). *)
Fixpoint count_ahead (fuel : nat) (dev bnum limit n : Z) : C Z :=
  match fuel with
  | O => mret n
  | S fuel =>
      if n <? limit then
        max ← device_blocks dev;
        if bnum + n >=? max then mret n
        else
          o ← ht_find dev (bnum + n);
          if has o then mret n else count_ahead fuel dev bnum limit (n + 1)
      else mret n
  end.

Definition num_to_get (dev bnum bsize op cur_nblocks : Z) : C Z :=
  if op_has op CACHE_READ && op_has op CACHE_READ_AHEAD_OK &&
     (s32 (cur_nblocks * bsize) <? read_ahead_size) then
    let limit := Z.quot read_ahead_size bsize in
    count_ahead (Z.to_nat (limit - cur_nblocks)) dev bnum limit cur_nblocks
  else mret cur_nblocks.

(** Claims the entries: busy, hashed under their new numbers (the first
    [num_needed]), and off their list.  The result is [num_dirty]. *)
Fixpoint claim_ents (dev bnum num_needed cur : Z) (ents : list ptr) : C Z :=
  match ents with
  | [] => mret 0
  | p :: ents =>
      store p (or_flags CE_BUSY);;
      (if cur <? num_needed then
         r ← ht_insert dev (bnum + cur) p;
         if negb (r =? 0) then beos_panic else mret tt
       else mret tt);;
      c ← load p;
      if ce_dev c =? -1 then claim_ents dev bnum num_needed (cur + 1) ents
      else if negb (ce_lock c =? 0) then beos_panic
      else
        delete_from_list Normal p;;
        n ← claim_ents dev bnum num_needed (cur + 1) ents;
        mret ((if is_dirty c || has (ce_clone c) then 1 else 0) + n)
  end.

(** Blocks of another size are replaced: first all are freed, then allocated. *)
Fixpoint free_blocks (bsize : Z) (ents : list ptr) : C unit :=
  match ents with
  | [] => mret tt
  | p :: ents =>
      c ← load p;
      (if negb (ce_bsize c =? bsize) then store p (set_data None);; store p (set_clone None)
       else mret tt);;
      free_blocks bsize ents
  end.

Fixpoint alloc_blocks (bsize : Z) (ents : list ptr) : C Z :=
  match ents with
  | [] => mret 0
  | p :: ents =>
      c ← load p;
      (if has (ce_data c) then mret tt
       else
         ok ← malloc;
         store p (set_data (if ok : bool then Some (uninit bsize) else None));;
         store p (set_bsize bsize));;
      c ← load p;
      if has (ce_data c) then alloc_blocks bsize ents else mret ENOMEM
  end.

(** The label [handle_err]. *)
Fixpoint back_out (dev bnum : Z) (ents : list ptr) : C unit :=
  match ents with
  | [] => mret tt
  | p :: ents =>
      t ← ht_remove dev bnum;
      if negb (bool_decide (t = Some p)) then beos_panic
      else
        c ← load p;
        t ← ht_remove (ce_dev c) (ce_block_num c);
        if negb (bool_decide (t = Some p)) then beos_panic
        else free_ent p;; add_blocks (-1);; back_out dev (bnum + 1) ents
  end.

(** The entries that were only flushed go back to the list; the normal path
    checks that they are not locked. *)
Fixpoint put_back (check : bool) (ents : list ptr) : C unit :=
  match ents with
  | [] => mret tt
  | p :: ents =>
      store p (clear_flags CE_BUSY);;
      c ← load p;
      if check && negb (ce_lock c =? 0) then beos_panic
      else add_to_tail Normal p;; put_back check ents
  end.

Definition handle_err (dev bnum num_needed : Z) (ents : list ptr) : C unit :=
  back_out dev bnum (take (Z.to_nat num_needed) ents);;
  match drop (Z.to_nat num_needed) ents with
  | [] => mret tt
  | extra => LOCK_bc;; put_back false extra;; UNLOCK_bc
  end.

(** The old numbers leave the hash table; blocks read ahead ([cur] at or after
    [cur_nblocks]) are finished and go to the head of the list. *)
Fixpoint rehash_ents (dev bnum cur_nblocks cur err : Z) (ents : list ptr) : C unit :=
  match ents with
  | [] => mret tt
  | p :: ents =>
      c ← load p;
      (if negb (ce_dev c =? -1) then
         t ← ht_remove (ce_dev c) (ce_block_num c);
         if negb (bool_decide (t = Some p)) then beos_panic else mret tt
       else mret tt);;
      (if (err =? 0) && (cur_nblocks <=? cur) then
         store p (set_dev dev);;
         store p (set_block_num (bnum + cur));;
         store p (clear_flags CE_BUSY);;
         add_to_head Normal p
       else mret tt);;
      rehash_ents dev bnum cur_nblocks (cur + 1) err ents
  end.

(** After a failed read the new blocks are thrown away. *)
Fixpoint drop_ents (dev bnum : Z) (ents : list ptr) : C unit :=
  match ents with
  | [] => mret tt
  | p :: ents =>
      t ← ht_remove dev bnum;
      if negb (bool_decide (t = Some p)) then beos_panic
      else free_ent p;; add_blocks (-1);; drop_ents dev (bnum + 1) ents
  end.

(** The contents of a new block and the caller's buffer. *)
Definition finish_data (bsize op : Z) (p : ptr) (block : list Z) (u : user) : C user :=
  if op_has op CACHE_READ then
    match u_buf u with
    | Some buf => liftO (copy_out bsize block u buf)
    | None => mret u
    end
  else if op_has op CACHE_WRITE then
    store p (or_flags CE_DIRTY);;
    buf ← deref (u_buf u);
    block ← liftO (copy_in bsize u buf block);
    store p (set_data (Some block));;
    mret u
  else if op_has op CACHE_NOOP then
    block ← liftO (store_bytes 0 (zeroes bsize) block);
    store p (set_data (Some block));;
    u ← liftO (zero_user bsize u);
    store p (or_flags CE_DIRTY);;
    mret u
  else mret u.

(** The last step: the requested blocks get their numbers and contents. *)
Fixpoint finish_ents (dev bnum bsize op cur_nblocks : Z) (dataptr : bool) (ents : list ptr) (u : user)
    : C user :=
  match ents with
  | [] => mret u
  | p :: rest =>
      c ← load p;
      if negb (ce_dev c =? -1) && (has (ce_next c) || has (ce_prev c)) then beos_panic
      else if negb (ce_dev c =? -1) && negb (has (ce_data c)) then beos_panic
      else
        store p (λ c, mkCe dev bnum bsize CE_NORMAL (ce_data c) None 0 None (ce_logged_bnum c) 0 None None);;
        block ← deref (ce_data c);
        u ← finish_data bsize op p block u;
        (if op_has op CACHE_LOCKED then store p (λ c, set_lock (ce_lock c + 1) c) else mret tt);;
        add_to_head (if op_has op CACHE_LOCKED then Locked else Normal) p;;
        if negb (has (u_buf u)) && negb (cur_nblocks =? 1) then beos_panic
        else finish_ents dev (bnum + 1) bsize op cur_nblocks dataptr rest (advance bsize (set_ptr dataptr p u))
  end.

(** The block is not in the cache: [inl] is an early return with that status. *)
Definition io_miss (dev bnum num_blocks bsize op : Z) (dataptr : bool) (u : user)
    : C (Z + Z * user) :=
  cur_nblocks ← count_missing (Z.to_nat NUM_FLUSH_BLOCKS) dev bnum num_blocks 1;
  num_needed ← num_to_get dev bnum bsize op cur_nblocks;
  ents ← get_ents num_needed NUM_FLUSH_BLOCKS bsize;
  if zlen ents <? num_needed then beos_panic
  else
    ents ← sort_ents ents;
    let mine := take (Z.to_nat num_needed) ents in
    num_dirty ← claim_ents dev bnum num_needed 0 ents;
    let unlocked := negb (num_dirty =? 0) || op_has op CACHE_READ in
    (if unlocked then UNLOCK_bc else mret tt);;
    err ← (if negb (num_dirty =? 0) then flush_ents ents else mret 0);
    err ← (if negb (err =? 0) then mret err
           else free_blocks bsize mine;; alloc_blocks bsize mine);
    if negb (err =? 0) then handle_err dev bnum num_needed ents;; mret (inl ENOMEM)
    else
      err ← (if op_has op CACHE_READ then read_into_ents dev bnum mine bsize else mret 0);
      (if unlocked then LOCK_bc else mret tt);;
      rehash_ents dev bnum cur_nblocks 0 err mine;;
      put_back true (drop (Z.to_nat num_needed) ents);;
      if negb (err =? 0) then drop_ents dev bnum mine;; UNLOCK_bc;; mret (inl err)
      else
        u ← finish_ents dev bnum bsize op cur_nblocks dataptr (take (Z.to_nat cur_nblocks) ents) u;
        mret (inr (cur_nblocks, u)).

(** [while (num_blocks)]; every turn serves at least one block. *)
Fixpoint io_loop (fuel : nat) (dev bnum num_blocks bsize op : Z) (dataptr : bool) (u : user)
    : C (Z * user) :=
  if num_blocks =? 0 then UNLOCK_bc;; mret (0, u)
  else
    match fuel with
    | O => hangM
    | S fuel =>
        o ← block_lookup dev bnum;
        match o with
        | Some ce =>
            u ← io_hit dev bnum bsize op dataptr ce u;
            io_loop fuel dev (bnum + 1) (num_blocks - 1) bsize op dataptr u
        | None =>
            r ← io_miss dev bnum num_blocks bsize op dataptr u;
            match r with
            | inl err => mret (err, u)
            | inr (n, u) => io_loop fuel dev (bnum + n) (num_blocks - n) bsize op dataptr u
            end
        end
    end.

(** A large read: the device first, then what the cache has more recent. *)
Fixpoint overlay (dev bnum bsize : Z) (n : nat) (off : Z) (buf : list Z) : C (list Z) :=
  match n with
  | O => mret buf
  | S n =>
      o ← block_lookup dev bnum;
      buf ← match o with
            | Some ce =>
                c ← load ce;
                if other_block dev bnum c then beos_panic
                else block ← deref (ce_data c);
                     liftO (bs ← load_bytes 0 bsize block; store_bytes off bs buf)
            | None => mret buf
            end;
      overlay dev (bnum + 1) bsize n (off + bsize) buf
  end.

(** A large write: cached blocks are updated, a clone being flushed before. *)
Fixpoint update_cached (dev bnum bsize : Z) (n : nat) (off : Z) (buf : list Z) : C unit :=
  match n with
  | O => mret tt
  | S n =>
      o ← block_lookup dev bnum;
      (match o with
       | Some ce =>
           c ← load ce;
           if other_block dev bnum c then beos_panic
           else
             (if has (ce_clone c) then flush_cache_ent ce;; mret tt else mret tt);;
             block ← deref (ce_data c);
             block ← liftO (bs ← load_bytes off bsize buf; store_bytes 0 bs block);
             store ce (set_data (Some block))
       | None => mret tt
       end);;
      update_cached dev (bnum + 1) bsize n (off + bsize) buf
  end.

(** I/O of 64 KB or more goes to the device directly. *)
Definition io_large (dev bnum : Z) (data : option (list Z)) (num_blocks bsize op : Z) : C (Z * user) :=
  match data with
  | None => beos_panic
  | Some buf =>
      if op_has op CACHE_LOCKED then beos_panic
      else if op_has op CACHE_READ then
        r ← beos_read_phys_blocks dev bnum buf (u32 num_blocks) bsize;
        if negb (r.1 =? 0) then mret (EINVAL, mkUser (Some r.2) 0 None)
        else
          LOCK_bc;;
          buf ← overlay dev bnum bsize (Z.to_nat num_blocks) 0 r.2;
          UNLOCK_bc;;
          mret (0, mkUser (Some buf) 0 None)
      else if op_has op CACHE_WRITE then
        LOCK_bc;;
        update_cached dev bnum bsize (Z.to_nat num_blocks) 0 buf;;
        UNLOCK_bc;;
        r ← beos_write_phys_blocks dev bnum buf (u32 num_blocks) bsize;
        mret (if negb (r =? 0) then EINVAL else 0, mkUser (Some buf) 0 None)
      else mret (EINVAL, mkUser (Some buf) 0 None)
  end.

(** [data == NULL] asks for a pointer to the block through [dataptr].  An access
    beyond the device stores to address 0x3100, which is not mapped. *)
Definition cache_block_io (dev bnum : Z) (data : option (list Z)) (num_blocks bsize op : Z)
    (dataptr : bool) : C (Z * user) :=
  let u := mkUser data 0 None in
  if bsize =? 0 then beos_panic
  else if num_blocks =? 0 then beos_panic
  else if negb (has data) && negb dataptr then mret (ENOMEM, u)
  else if negb (has data) && (negb (num_blocks =? 1) || op_has op CACHE_WRITE) then beos_panic
  else
    max ← device_blocks dev;
    if max <? s64 (bnum + num_blocks) then failM NullDeref
    else if 64 * 1024 <=? s64 (num_blocks * bsize) then io_large dev bnum data num_blocks bsize op
    else
      LOCK_bc;;
      io_loop (Z.to_nat num_blocks) dev bnum num_blocks bsize op dataptr u.

Definition beos_get_block (dev bnum bsize : Z) : C (option ptr) :=
  r ← cache_block_io dev bnum None 1 bsize
        (Z.lor CACHE_READ (Z.lor CACHE_LOCKED CACHE_READ_AHEAD_OK)) true;
  mret (if negb (r.1 =? 0) then None else u_ptr r.2).

Definition beos_get_empty_block (dev bnum bsize : Z) : C (option ptr) :=
  r ← cache_block_io dev bnum None 1 bsize (Z.lor CACHE_NOOP CACHE_LOCKED) true;
  mret (if negb (r.1 =? 0) then None else u_ptr r.2).

(** The status and the caller's buffer. *)
Definition beos_cached_read (dev bnum : Z) (data : list Z) (num_blocks bsize : Z) : C (Z * list Z) :=
  r ← cache_block_io dev bnum (Some data) num_blocks bsize (Z.lor CACHE_READ CACHE_READ_AHEAD_OK) false;
  mret (r.1, default data (u_buf r.2)).

Definition beos_cached_write (dev bnum : Z) (data : list Z) (num_blocks bsize : Z) : C Z :=
  r ← cache_block_io dev bnum (Some data) num_blocks bsize CACHE_WRITE false; mret r.1.

Definition beos_cached_write_locked (dev bnum : Z) (data : list Z) (num_blocks bsize : Z) : C Z :=
  r ← cache_block_io dev bnum (Some data) num_blocks bsize (Z.lor CACHE_WRITE CACHE_LOCKED) false;
  mret r.1.
