(* ===== verification/CacheInv.v ===== *)
(** The abstract view of the userlandfs block cache that the proofs about
    [cache_block_io] work with: the entries without their links, the two lists
    and the finite map of the hash table; and what each primitive operation does
    to it. *)

From S2P Require Import Prelude Errors Sort CacheHash CacheState CacheIo CacheFlush BlockCache.

(** * The view *)

(** Everything but the entries, the lists and the hash table. *)
Definition env (s : state) : state := upd_lists no_list no_list ∅ (upd_ht zero_ht s).

Record view (s : state) (B : gmap ptr cache_ent) (ls : which → list ptr) (H : gmap (Z * Z) ptr) : Prop := {
  vw_lists : lists_rep s ls;
  vw_bodies : bodies (heap s) = B;
  vw_ht : ht_ok (ht s);
  vw_map : ht_map (ht s) = H;
  vw_num : ht_num (ht s) = Z.of_nat (size H)
}.

(** Field updates that have nothing to do with the links. *)
Class Payload (f : cache_ent → cache_ent) : Prop := {
  pay_body c : erase (f c) = f (erase c);
  pay_links c : ce_next (f c) = ce_next c ∧ ce_prev (f c) = ce_prev c
}.

#[export] Instance payload_data d : Payload (set_data d). Proof. by split. Qed.
#[export] Instance payload_clone d : Payload (set_clone d). Proof. by split. Qed.
#[export] Instance payload_bsize d : Payload (set_bsize d). Proof. by split. Qed.
#[export] Instance payload_dev d : Payload (set_dev d). Proof. by split. Qed.
#[export] Instance payload_num d : Payload (set_block_num d). Proof. by split. Qed.
#[export] Instance payload_func d : Payload (set_func d). Proof. by split. Qed.
#[export] Instance payload_arg d : Payload (set_arg d). Proof. by split. Qed.
#[export] Instance payload_logged d : Payload (set_logged_bnum d). Proof. by split. Qed.
#[export] Instance payload_or m : Payload (or_flags m). Proof. by split. Qed.
#[export] Instance payload_clear m : Payload (clear_flags m). Proof. by split. Qed.
#[export] Instance payload_lock g : Payload (λ c, set_lock (g (ce_lock c)) c). Proof. by split. Qed.

Section View.
Context (s : state) (B : gmap ptr cache_ent) (ls : which → list ptr) (H : gmap (Z * Z) ptr).
Hypothesis Hv : view s B ls H.

Lemma view_load p b : B !! p = Some b → ∃ c, heap s !! p = Some c ∧ b = erase c.
Proof using Hv.
  intros Hb. rewrite <- (vw_bodies _ _ _ _ Hv), lookup_fmap in Hb.
  destruct (heap s !! p) as [c|]; [|done]. exists c. split; [done|]. cbn in Hb. congruence.
Qed.

Lemma runs_load p b (Q : cache_ent → state → Prop) :
  B !! p = Some b → (∀ c, b = erase c → heap s !! p = Some c → Q c s) → runs (load p) s Q.
Proof using Hv.
  intros Hb HQ. destruct (view_load p b Hb) as (c & Hc & Eb). exists c, s. split; [by apply load_run|auto].
Qed.

Lemma runs_store p b f (Q : unit → state → Prop) `{!Payload f} :
  B !! p = Some b → (∀ s', view s' (<[p := f b]> B) ls H → env s' = env s → Q tt s') → runs (store p f) s Q.
Proof using Hv.
  intros Hb HQ. destruct (view_load p b Hb) as (c & Hc & Eb).
  replace (<[p := f b]> B) with (alter f p B) in HQ.
  2: { apply map_eq. intros q. destruct (decide (p = q)) as [<-|];
         [by rewrite lookup_alter_eq, lookup_insert_eq, Hb|by rewrite lookup_alter_ne, lookup_insert_ne]. }
  exists tt, (upd_heap (alter f p (heap s)) (next_ptr s) s). split; [by eapply store_run|].
  apply HQ; [|done]. destruct Hv as [Hl HB Hok HM HN]. split; [|cbn|done..].
  - destruct Hl as [He Hn Hf]. split; [|done|].
    + intros w. destruct (He w) as [E1 E2 E3]. destruct w; (split; [done|done|]); cbn;
        apply dseg_keeps; (done || intros c0; apply pay_links).
    + cbn. intros q cq Hq. apply lookup_alter_Some in Hq as [(<- & c0 & Hc0 & ->)|[_ Hq]].
      * rewrite (proj1 (pay_links c0)), (proj2 (pay_links c0)). eauto.
      * eauto.
  - rewrite bodies_alter by apply pay_body. by rewrite HB.
Qed.

Lemma runs_relinks (m : C unit) ls' (Q : unit → state → Prop) :
  relinks m s ls' → (∀ s', view s' B ls' H → env s' = env s → Q tt s') → runs m s Q.
Proof using Hv.
  intros (n & l & h & E & Eb & Hr) HQ. exists tt, (upd_lists n l h s). split; [done|].
  apply HQ; [|done]. destruct Hv as [Hl HB Hok HM HN]. split; [done|cbn; congruence|done..].
Qed.

Lemma runs_add_head w p b (Q : unit → state → Prop) :
  B !! p = Some b → (∀ w, p ∉ ls w) →
  (∀ s', view s' B (lset w (ls w ++ [p]) ls) H → env s' = env s → Q tt s') → runs (add_to_head w p) s Q.
Proof using Hv.
  intros Hb Hp. destruct (view_load p b Hb) as (c & Hc & _).
  apply runs_relinks. eapply add_to_head_run; [apply Hv|done|done].
Qed.

Lemma runs_add_tail w p b (Q : unit → state → Prop) :
  B !! p = Some b → (∀ w, p ∉ ls w) →
  (∀ s', view s' B (lset w (p :: ls w) ls) H → env s' = env s → Q tt s') → runs (add_to_tail w p) s Q.
Proof using Hv.
  intros Hb Hp. destruct (view_load p b Hb) as (c & Hc & _).
  apply runs_relinks. eapply add_to_tail_run; [apply Hv|done|done].
Qed.

Lemma runs_delete w p l1 l2 (Q : unit → state → Prop) :
  ls w = l1 ++ p :: l2 →
  (∀ s', view s' B (lset w (l1 ++ l2) ls) H → env s' = env s → Q tt s') → runs (delete_from_list w p) s Q.
Proof using Hv. intros El. apply runs_relinks. eapply delete_from_list_run; [apply Hv|done]. Qed.

Lemma runs_ht_find dev b (Q : option ptr → state → Prop) :
  Q (H !! (dev, b)) s → runs (ht_find dev b) s Q.
Proof using Hv.
  intros HQ. unfold ht_find. apply runs_bind, runs_getS. eapply runs_liftO; [|exact HQ].
  rewrite <- (vw_map _ _ _ _ Hv). apply hash_lookup_spec, Hv.
Qed.

Lemma view_ht ht' H' :
  ht_ok ht' → ht_map ht' = H' → ht_num ht' = Z.of_nat (size H') → view (upd_ht ht' s) B ls H'.
Proof using Hv. intros. destruct Hv as [[He Hn Hf] HB Hok HM HN]. split; [split; done|done..]. Qed.

Lemma runs_ht_insert dev b p (Q : Z → state → Prop) :
  mem s = [] → Z.of_nat (size H) < HT_LIMIT → H !! (dev, b) = None →
  (∀ s', view s' B ls (<[(dev, b) := p]> H) → env s' = env s → Q 0 s') → runs (ht_insert dev b p) s Q.
Proof using Hv.
  intros Hm Hsz Hn HQ. pose proof Hv as [_ _ Hok HM HN].
  destruct (hash_insert_spec (ht s) dev b p s) as (ht' & E & Hok' & Hmap & Hnum); [done|done|lia|by rewrite HM|].
  exists 0, (upd_ht ht' s). split.
  - unfold ht_insert. mrun. rewrite (bind_Ok _ _ _ _ _ E). done.
  - apply HQ; [|done]. apply view_ht; [done|by rewrite Hmap, HM|]. rewrite Hnum, HN, map_size_insert, Hn. lia.
Qed.

Lemma runs_ht_remove dev b p (Q : option ptr → state → Prop) :
  Z.of_nat (size H) ≤ HT_LIMIT → H !! (dev, b) = Some p →
  (∀ s', view s' B ls (delete (dev, b) H) → env s' = env s → Q (Some p) s') → runs (ht_remove dev b) s Q.
Proof using Hv.
  intros Hsz Hp HQ. pose proof Hv as [_ _ Hok HM HN].
  destruct (hash_delete_spec (ht s) dev b p) as (ht' & E & Hok' & Hmap & Hnum); [done|lia|by rewrite HM|].
  exists (Some p), (upd_ht ht' s). split.
  - unfold ht_remove. mrun. rewrite E. done.
  - apply HQ; [|done]. apply view_ht; [done|by rewrite Hmap, HM|]. rewrite Hnum, HN, map_size_delete, Hp. cbn.
    assert (size H ≠ 0%nat) by (intros ->%map_size_empty_inv; done). lia.
Qed.
End View.

(** * The invariant between operations *)

Section Invariant.
Context (bs : Z → Z).
Implicit Types (B : gmap ptr cache_ent) (ls : which → list ptr) (H : gmap (Z * Z) ptr).

(** [p] is an entry between operations: its block is on a device of its size,
    what is not dirty is on the disk, nobody is working on it, and it is on the
    list its lock count says. *)
Record ent_inv (D : gmap Z (list Z)) (ls : which → list ptr) (p : ptr) (c : cache_ent) : Prop := {
  ei_wf : ent_wf bs D c;
  ei_coh : coherent bs D c;
  ei_busy : is_busy c = false;
  ei_lock : 0 ≤ ce_lock c;
  ei_list : p ∈ ls (list_of c)
}.

Record inv (s : state) B ls H : Prop := {
  iv_view : view s B ls H;
  iv_ready : ready s;
  iv_dom w p : p ∈ ls w → is_Some (B !! p);
  iv_ent p c : B !! p = Some c → ent_inv (disks s) ls p c;
  iv_hash k p : H !! k = Some p ↔ ∃ c, B !! p = Some c ∧ ce_key c = k;
  iv_size : cur_blocks s = Z.of_nat (size B) ∧ cur_blocks s ≤ max_blocks s ≤ 2 ^ 27;
  iv_next p : (next_ptr s ≤ p)%positive → B !! p = None;
  iv_ndev : length (max_device_blocks s) = 256%nat;
  iv_devs dev n b : 0 ≤ dev → max_device_blocks s !! Z.to_nat dev = Some n → 0 ≤ b < n →
    on_device bs (disks s) dev b ∧ b < 2 ^ 31
}.

(** What a reader of block [b] of [dev] gets to see. *)
Definition contents (D : gmap Z (list Z)) B H (dev b : Z) : option (list Z) :=
  match H !! (dev, b) with
  | Some p => B !! p ≫= ce_data
  | None => block bs D dev b
  end.

Lemma env_disks s s' : env s' = env s → disks s' = disks s.
Proof. intros E. exact (f_equal disks E). Qed.

Lemma env_ready s s' : env s' = env s → ready s → ready s'.
Proof.
  intros E [? ? ? ? ?]. pose proof (f_equal mem E : mem s' = mem s).
  pose proof (f_equal io E : io s' = io s). pose proof (f_equal iov_held E : iov_held s' = iov_held s).
  pose proof (f_equal iovec_pool E : iovec_pool s' = iovec_pool s).
  pose proof (f_equal iovec_used E : iovec_used s' = iovec_used s). split; congruence.
Qed.

(** An operation that left the environment alone and the entries well. *)
Lemma inv_intro s s' B ls H B' ls' H' :
  inv s B ls H → view s' B' ls' H' → env s' = env s →
  (∀ w p, p ∈ ls' w → is_Some (B' !! p)) →
  (∀ p c, B' !! p = Some c → ent_inv (disks s) ls' p c) →
  (∀ k p, H' !! k = Some p ↔ ∃ c, B' !! p = Some c ∧ ce_key c = k) →
  size B' = size B → (∀ p, B !! p = None → B' !! p = None) →
  inv s' B' ls' H'.
Proof.
  intros [V R Hd He Hh Hs Hn Hnd Hdv] V' E Hd' He' Hh' Hsz Hnone.
  pose proof (f_equal disks E) as E1. pose proof (f_equal cur_blocks E) as E2.
  pose proof (f_equal max_blocks E) as E3. pose proof (f_equal next_ptr E) as E4.
  pose proof (f_equal max_device_blocks E) as E5. cbn in *.
  split; [done|by eapply env_ready|done| |done| | | |]; rewrite ?E1, ?E2, ?E3, ?E4, ?E5; try done.
  - lia.
  - auto.
Qed.

(** One entry was changed, without its key, and put at the head of its list. *)
Lemma inv_update s s' B ls H p c c' ls' :
  inv s B ls H → B !! p = Some c → view s' (<[p := c']> B) ls' H → env s' = env s →
  ce_key c' = ce_key c →
  (∀ w q, q ≠ p → q ∈ ls' w ↔ q ∈ ls w) → (∀ w, p ∈ ls' w ↔ w = list_of c') →
  ent_wf bs (disks s) c' → coherent bs (disks s) c' → is_busy c' = false → 0 ≤ ce_lock c' →
  inv s' (<[p := c']> B) ls' H.
Proof.
  intros Hi Hp V E Ek Hq Hl ? ? ? ?. eapply inv_intro; [done|done|done|..].
  - intros w q Hin. destruct (decide (p = q)) as [<-|Hne]; [by rewrite lookup_insert_eq|].
    rewrite lookup_insert_ne by done. eapply iv_dom; [done|]. by apply (Hq w q).
  - intros q cq Hcq. apply lookup_insert_Some in Hcq as [[<- <-]|[Hne Hcq]].
    + split; try done. by apply Hl.
    + destruct (iv_ent _ _ _ _ Hi q cq Hcq). split; try done. by apply Hq.
  - intros k q. rewrite (iv_hash _ _ _ _ Hi). destruct (decide (p = q)) as [<-|Hne].
    + rewrite lookup_insert_eq, Hp. split; intros (c0 & [= <-] & <-); eauto.
    + by rewrite lookup_insert_ne.
  - by rewrite map_size_insert, Hp.
  - intros q Hn. destruct (decide (p = q)) as [<-|]; [congruence|]. by rewrite lookup_insert_ne.
Qed.
End Invariant.
