(* ===== verification/CacheServe.v ===== *)
(** What [cache_block_io] does with one block that is in the cache, and the
    steps it takes for blocks that are not. *)

From S2P Require Import Prelude Errors Sort CacheHash CacheState CacheIo CacheFlush BlockCache CacheInv.

(** * The request

    A caller gives a buffer or asks for a pointer, never both. *)

Record req_ok (op : Z) (u : user) (bsize n : Z) : Prop := {
  rq_op : op_has op CACHE_READ || op_has op CACHE_WRITE || op_has op CACHE_NOOP = true;
  rq_write : op_has op CACHE_READ = false → op_has op CACHE_WRITE = true → is_Some (u_buf u);
  rq_buf buf : u_buf u = Some buf → 0 ≤ u_off u ∧ u_off u + n * bsize ≤ zlen buf
}.

(** The block after the request ... *)
Definition new_block (op bsize : Z) (u : user) (blk : list Z) : list Z :=
  if op_has op CACHE_READ then blk
  else if op_has op CACHE_WRITE then slice (u_off u) bsize (default [] (u_buf u))
  else zeroes bsize.

(** ... and the caller's side of it. *)
Definition serve (op bsize : Z) (p : ptr) (blk : list Z) (u : user) : user :=
  advance bsize
    (match u_buf u with
     | None => mkUser None (u_off u) (Some p)
     | Some buf =>
         mkUser (Some (if op_has op CACHE_READ then splice (u_off u) blk buf
                       else if op_has op CACHE_WRITE then buf
                       else splice (u_off u) (zeroes bsize) buf)) (u_off u) (u_ptr u)
     end).

Definition want_ptr (u : user) : bool := negb (has (u_buf u)).

Lemma zeroes_length n : 0 ≤ n → zlen (zeroes n) = n.
Proof. intros. unfold zeroes. rewrite length_replicate. lia. Qed.

Lemma new_block_length op bsize u blk n :
  req_ok op u bsize n → 0 < bsize → 1 ≤ n → zlen blk = bsize → zlen (new_block op bsize u blk) = bsize.
Proof.
  intros [Ho Hw Hb] ? ? ?. unfold new_block. destruct (op_has op CACHE_READ) eqn:Er; [done|].
  destruct (op_has op CACHE_WRITE) eqn:Ew; [|by apply zeroes_length; lia].
  destruct (Hw eq_refl eq_refl) as [buf Eb]. rewrite Eb. cbn. destruct (Hb buf Eb). apply slice_length; nia.
Qed.

(** * A block in the cache *)

Section Hit.
Context (bs : Z → Z).

Definition hit_ent (op : Z) (new : list Z) (c : cache_ent) : cache_ent :=
  if op_has op CACHE_READ then c else or_flags CE_DIRTY (set_data (Some new) c).

Lemma splice_all (l l' : list Z) : length l = length l' → splice 0 l l' = l.
Proof.
  intros E. unfold splice. cbn. rewrite drop_ge by lia. by rewrite app_nil_r.
Qed.

Lemma hit_data_runs s B ls H p c op bsize u blk n (Q : user → state → Prop) :
  view s B ls H → B !! p = Some c → ce_data c = Some blk → zlen blk = bsize → 0 < bsize →
  req_ok op u bsize n → 1 ≤ n →
  (∀ s', view s' (<[p := hit_ent op (new_block op bsize u blk) c]> B) ls H → env s' = env s →
    ∀ u', advance bsize u' = serve op bsize p blk u → Q u' s') →
  runs (hit_data bsize op (want_ptr u) p blk u) s Q.
Proof.
  intros V Hp Hd Hl Hbs [Ho Hw Hb] Hn HQ. unfold hit_data, hit_ent, new_block, serve, want_ptr in *.
  destruct (op_has op CACHE_READ) eqn:Er.
  { rewrite insert_id in HQ by done. destruct (u_buf u) as [buf|] eqn:Eb.
    - destruct (Hb buf eq_refl). unfold copy_out. rewrite load_bytes_Ok by lia. cbn.
      rewrite slice_0, take_ge by lia. rewrite store_bytes_Ok by nia. cbn.
      eapply runs_liftO; [done|]. by apply HQ.
    - apply runs_ret, HQ; [done|done|]. cbn. unfold set_ptr. by rewrite Eb. }
  destruct (op_has op CACHE_WRITE) eqn:Ew.
  { destruct (Hw eq_refl eq_refl) as [buf Eb]. rewrite Eb in *. destruct (Hb buf eq_refl).
    apply runs_bind, runs_bind. unfold copy_in. rewrite load_bytes_Ok by nia. cbn.
    rewrite store_bytes_Ok by (rewrite ?slice_length; nia). rewrite splice_all.
    2: { apply Nat2Z.inj. rewrite slice_length; nia. }
    eapply runs_liftO; [done|]. eapply (runs_store _ _ _ _ V); [apply _|done|]. intros s1 V1 E1.
    apply runs_bind. eapply (runs_store _ _ _ _ V1); [apply _|apply lookup_insert_eq|]. intros s2 V2 E2.
    rewrite insert_insert_eq in V2. apply runs_ret, HQ; [done|congruence|]. destruct u. cbn in *. by subst. }
  destruct (op_has op CACHE_NOOP) eqn:En; [|done].
  apply runs_bind. rewrite store_bytes_Ok by (rewrite ?zeroes_length; lia). rewrite splice_all.
  2: { apply Nat2Z.inj. rewrite zeroes_length; lia. }
  eapply runs_liftO; [done|]. apply runs_bind.
  eapply (runs_store _ _ _ _ V); [apply _|done|]. intros s1 V1 E1. apply runs_bind.
  assert (∃ u1, zero_user bsize u = Ok u1 ∧
    advance bsize (set_ptr (negb (has (u_buf u))) p u1) =
    advance bsize (match u_buf u with
     | None => mkUser None (u_off u) (Some p)
     | Some buf => mkUser (Some (splice (u_off u) (zeroes bsize) buf)) (u_off u) (u_ptr u) end)) as (u1 & Eu & Ead).
  { unfold zero_user. destruct (u_buf u) as [buf|] eqn:Eb; [|eexists; split; [done|]; cbn; by rewrite Eb].
    destruct (Hb buf eq_refl). rewrite store_bytes_Ok by (rewrite ?zeroes_length; nia). cbn. by eexists. }
  eapply runs_liftO; [done|]. apply runs_bind.
  eapply (runs_store _ _ _ _ V1); [apply _|apply lookup_insert_eq|]. intros s2 V2 E2.
  rewrite insert_insert_eq in V2. apply runs_ret, HQ; [done|congruence|done].
Qed.

(** The entry after a hit. *)
Definition served_ent (op : Z) (new : list Z) (c : cache_ent) : cache_ent :=
  let c := hit_ent op new c in
  if op_has op CACHE_LOCKED then set_lock (ce_lock c + 1) c else c.

Lemma served_fields op new c :
  ce_key (served_ent op new c) = ce_key c ∧ ce_bsize (served_ent op new c) = ce_bsize c ∧
  ce_clone (served_ent op new c) = ce_clone c ∧ is_busy (served_ent op new c) = is_busy c ∧
  ce_lock (served_ent op new c) = ce_lock c + (if op_has op CACHE_LOCKED then 1 else 0) ∧
  ce_data (served_ent op new c) = (if op_has op CACHE_READ then ce_data c else Some new) ∧
  (op_has op CACHE_READ = false → is_dirty (served_ent op new c) = true) ∧
  (op_has op CACHE_READ = true → is_dirty (served_ent op new c) = is_dirty c).
Proof.
  unfold served_ent, hit_ent.
  destruct (op_has op CACHE_READ), (op_has op CACHE_LOCKED); cbn -[CE_DIRTY is_busy is_dirty];
    (split_and!; try done; try lia).
  - change (is_busy (or_flags CE_DIRTY (set_data (Some new) c)) = is_busy c). by rewrite busy_or_dirty.
  - intros _. change (is_dirty (or_flags CE_DIRTY (set_data (Some new) c)) = true). apply dirty_or_dirty.
  - by rewrite busy_or_dirty.
  - intros _. apply dirty_or_dirty.
Qed.

Lemma served_ok D op bsize u c blk n :
  ent_wf bs D c → coherent bs D c → ce_data c = Some blk → ce_bsize c = bsize →
  req_ok op u bsize n → 1 ≤ n →
  let c' := served_ent op (new_block op bsize u blk) c in
  ent_wf bs D c' ∧ coherent bs D c' ∧ ce_data c' = Some (new_block op bsize u blk).
Proof.
  intros Hwf Hcoh Hd Hbs Hrq Hn. pose proof Hwf as [W1 (d & W2) W3 (dt & Hdt & Hlen) W5]. simplify_eq.
  pose proof (new_block_length op (ce_bsize c) u blk n Hrq) as Hnl.
  destruct (served_fields op (new_block op (ce_bsize c) u blk) c) as (Ek & Es & Ec & Eb & El & Ed & Ed1 & Ed2).
  set (c' := served_ent _ _ _) in *. unfold ce_key in Ek. injection Ek as E1 E2.
  assert (ce_data c' = Some (new_block op (ce_bsize c) u blk)) as Ed'.
  { rewrite Ed. unfold new_block. by destruct (op_has op CACHE_READ). }
  split_and!; [|..|done].
  - split; rewrite ?E1, ?E2, ?Es, ?Ec; try done.
    + by exists d.
    + rewrite Ed'. eexists. split; [done|]. rewrite <- W1. apply Hnl; lia.
  - unfold coherent. rewrite Ec, E1, E2, Ed. destruct (op_has op CACHE_READ).
    + rewrite Ed2 by done. done.
    + by rewrite Ed1.
Qed.

Lemma list_of_cases c : list_of c = Normal ∧ ce_lock c = 0 ∨ list_of c = Locked ∧ ce_lock c ≠ 0.
Proof. unfold list_of. destruct (Z.eqb_spec (ce_lock c) 0); auto. Qed.

Lemma ent_inv_list D ls p c w s :
  lists_rep s ls → ent_inv bs D ls p c → p ∈ ls w ↔ w = list_of c.
Proof.
  intros Hr [_ _ _ _ Hl]. split; [|by intros ->]. intros Hw. by eapply lr_other.
Qed.

Lemma io_hit_runs s B ls H p c blk dev bnum bsize op u n (Q : user → state → Prop) :
  inv bs s B ls H → B !! p = Some c → ce_key c = (dev, bnum) → bsize = bs dev → ce_data c = Some blk →
  req_ok op u bsize n → 1 ≤ n →
  (∀ s' ls' c', inv bs s' (<[p := c']> B) ls' H → env s' = env s →
    c' = served_ent op (new_block op bsize u blk) c → ce_data c' = Some (new_block op bsize u blk) →
    zlen (ls' Locked) ≤ zlen (ls Locked) + (if op_has op CACHE_LOCKED then 1 else 0) →
    (0 < ce_lock c → zlen (ls' Locked) ≤ zlen (ls Locked)) →
    Q (serve op bsize p blk u) s') →
  runs (io_hit dev bnum bsize op (want_ptr u) p u) s Q.
Proof.
  intros Hi Hp Hk Hbs Hd Hrq Hn HQ. pose proof (iv_view _ _ _ _ _ Hi) as V.
  pose proof (iv_ent _ _ _ _ _ Hi p c Hp) as He. pose proof He as [Hwf Hcoh Hbusy Hlock Hlist].
  unfold ce_key in Hk. injection Hk as Edev Ebn.
  assert (ce_bsize c = bsize) as Ebs by (rewrite (ew_bsize _ _ _ Hwf); congruence).
  destruct (served_ok (disks s) op bsize u c blk n Hwf Hcoh Hd Ebs Hrq Hn) as (Hwf' & Hcoh' & Hd').
  destruct (served_fields op (new_block op bsize u blk) c) as (Ek & _ & _ & Eb & El & _).
  unfold io_hit. apply runs_bind. eapply (runs_load _ _ _ _ V); [done|]. intros c0 -> Hc0.
  cbn in Edev, Ebn, Ebs, Hd. unfold other_block. rewrite Edev, Ebn, Ebs, !Z.eqb_refl. cbn [negb orb].
  apply list_elem_of_split in Hlist as (l1 & l2 & El12). change (list_of (erase c0)) with (list_of c0) in El12.
  apply runs_bind. eapply (runs_delete _ _ _ _ V); [done|]. intros s1 V1 E1.
  rewrite Hd. cbn [deref]. apply runs_bind, runs_ret, runs_bind.
  eapply (hit_data_runs _ _ _ _ _ _ _ _ _ _ _ _ V1 Hp); [done| | |done|done|].
  { destruct (ew_data _ _ _ Hwf) as (dt & ? & ?). cbn in *. simplify_eq. congruence. }
  { pose proof (ew_bsize _ _ _ Hwf) as Eb0. destruct (ew_dev _ _ _ Hwf) as (? & _ & _ & _ & _ & ?).
    cbn in Eb0 |- *. cbn in *. lia. }
  intros s2 V2 E2 u' Eu. set (c' := served_ent op (new_block op bsize u blk) (erase c0)) in *.
  set (ls1 := lset (list_of c0) (l1 ++ l2) ls) in *.
  assert (∀ w, p ∉ ls1 w) as Hni.
  { intros w Hin. pose proof (lr_list_nodup _ _ (list_of c0) (vw_lists _ _ _ _ V)) as Hnd. rewrite El12 in Hnd.
    subst ls1. destruct (decide (list_of c0 = w)) as [<-|Hne].
    - rewrite lset_eq in Hin. apply NoDup_app in Hnd as (_ & Hdj & (? & _)%NoDup_cons). set_solver.
    - rewrite lset_ne in Hin by done. apply Hne. apply (ent_inv_list _ _ _ _ w _ (vw_lists _ _ _ _ V) He) in Hin.
      by subst. }
  assert (∀ w, zlen (ls1 w) ≤ zlen (ls w)) as Hle.
  { intros w. subst ls1. destruct (decide (list_of c0 = w)) as [<-|Hne]; [|by rewrite lset_ne].
    rewrite lset_eq, El12, !length_app. cbn [length]. lia. }
  apply runs_bind.
  assert (∀ s3, view s3 (<[p := c']> B) ls1 H → env s3 = env s →
    runs (c ← load p; add_to_head (list_of c) p;; mret (advance bsize u')) s3 Q) as Hlast.
  { intros s3 V3 E3. apply runs_bind. eapply (runs_load _ _ _ _ V3); [apply lookup_insert_eq|]. intros c1 Ec1 _.
    apply runs_bind. eapply (runs_add_head _ _ _ _ V3); [apply lookup_insert_eq|done|]. intros s4 V4 E4.
    apply runs_ret. rewrite Eu. replace (list_of c1) with (list_of c') in V4 by (by rewrite Ec1).
    eapply (HQ s4 _ c'); [|congruence|done|done| |].
    - eapply (inv_update bs s s4 B ls H p (erase c0) c'); try done.
      + congruence.
      + intros w q Hq. destruct (decide (list_of c' = w)) as [<-|Hne].
        * rewrite lset_eq, elem_of_app. subst ls1. destruct (decide (list_of c0 = list_of c')) as [El0|Hne0].
          -- rewrite <- El0, lset_eq, El12. set_solver.
          -- rewrite lset_ne by done. set_solver.
        * rewrite lset_ne by done. subst ls1. destruct (decide (list_of c0 = w)) as [<-|Hne0].
          -- rewrite lset_eq, El12. set_solver.
          -- by rewrite lset_ne.
      + intros w. destruct (decide (list_of c' = w)) as [<-|Hne].
        * rewrite lset_eq. set_solver.
        * rewrite lset_ne by done. specialize (Hni w). naive_solver.
      + rewrite Eb. apply Hbusy.
      + rewrite El. destruct (op_has op CACHE_LOCKED); lia.
    - specialize (Hle Locked). destruct (list_of_cases c') as [[-> _]|[-> Hne]]; cbn [lset].
      + destruct (op_has op CACHE_LOCKED); lia.
      + rewrite length_app. cbn [length]. destruct (op_has op CACHE_LOCKED) eqn:Elk; [lia|].
        rewrite El in Hne. assert (list_of c0 = Locked) as Ew.
        { unfold list_of. destruct (Z.eqb_spec (ce_lock c0) 0); [cbn in Hne; lia|done]. }
        subst ls1. rewrite Ew in *. cbn [lset]. rewrite El12, !length_app. cbn [length]. lia.
    - intros Hpos. assert (list_of c0 = Locked) as Ew.
      { unfold list_of. cbn in Hpos. destruct (Z.eqb_spec (ce_lock c0) 0); [lia|done]. }
      assert (list_of c' = Locked) as ->.
      { unfold list_of. rewrite El. cbn in Hpos |- *. destruct (Z.eqb_spec (ce_lock c0 + (if op_has op CACHE_LOCKED then 1 else 0)) 0); [|done].
        destruct (op_has op CACHE_LOCKED); lia. }
      subst ls1. rewrite Ew in *. cbn [lset]. rewrite El12, !length_app. cbn [length]. lia. }
  destruct (op_has op CACHE_LOCKED) eqn:Elk.
  - eapply (runs_store _ _ _ _ V2 _ _ (λ c, set_lock (ce_lock c + 1) c));
      [apply (payload_lock (λ l, l + 1))|apply lookup_insert_eq|]. intros s3 V3 E3.
    rewrite insert_insert_eq in V3. apply Hlast; [|congruence].
    subst c'. unfold served_ent. rewrite Elk. exact V3.
  - apply runs_ret, Hlast; [|congruence]. subst c'. unfold served_ent. rewrite Elk. exact V2.
Qed.
End Hit.
