(* ===== verification/CacheMiss.v ===== *)
(** The steps [cache_block_io] takes for blocks that are not in the cache: how
    many to get, which entries to use for them, claiming, flushing and filling
    these entries. *)

From S2P Require Import Prelude Errors Sort CacheHash CacheState CacheIo CacheFlush BlockCache CacheInv CacheServe.

(** Everything a step that allocates entries leaves alone. *)
Definition env_alloc (s : state) : state :=
  upd_sizes (bc_flags s) 0 (max_blocks s) (upd_heap ∅ 1%positive (env s)).

Lemma env_env_alloc s s' : env s' = env s → env_alloc s' = env_alloc s.
Proof.
  intros E. unfold env_alloc. pose proof (f_equal bc_flags E : bc_flags s' = bc_flags s) as ->.
  pose proof (f_equal max_blocks E : max_blocks s' = max_blocks s) as ->. by rewrite E.
Qed.

(** The entry [new_cache_ent] makes. *)
Definition fresh_ent (bsize : Z) : cache_ent :=
  mkCe (-1) (-1) 0 CE_NORMAL (Some (uninit bsize)) None 0 None 0 0 None None.

Section Steps.
Context (bs : Z → Z).
Implicit Types (B : gmap ptr cache_ent) (ls : which → list ptr) (H : gmap (Z * Z) ptr).

(** * Counting *)

Lemma count_missing_runs fuel s B ls H dev bnum num_blocks n (Q : Z → state → Prop) :
  view s B ls H → 1 ≤ n ≤ num_blocks → n ≤ 64 → (∀ i, 0 ≤ i < n → H !! (dev, bnum + i) = None) →
  (∀ m, n ≤ m ≤ num_blocks → m ≤ 64 → (∀ i, 0 ≤ i < m → H !! (dev, bnum + i) = None) → Q m s) →
  runs (count_missing fuel dev bnum num_blocks n) s Q.
Proof.
  intros V. revert n. induction fuel as [|fuel IH]; intros n Hn Hn64 Hmiss HQ; cbn [count_missing].
  { apply runs_ret, HQ; [lia|done|done]. }
  destruct ((n <? num_blocks) && (n <? NUM_FLUSH_BLOCKS)) eqn:Ec; [|by apply runs_ret, HQ; [lia|..]].
  apply andb_true_iff in Ec as [E1%Z.ltb_lt E2%Z.ltb_lt]. unfold NUM_FLUSH_BLOCKS in E2.
  apply runs_bind, (runs_ht_find _ _ _ _ V). destruct (H !! (dev, bnum + n)) as [p|] eqn:Ep.
  - apply runs_ret, HQ; [lia|done|done].
  - change (has None) with false. apply IH; [lia|lia| |].
    + intros i Hi. destruct (decide (i = n)) as [->|]; [done|]. apply Hmiss. lia.
    + intros m ? ? ?. apply HQ; [lia|done|done].
Qed.

Lemma device_blocks_runs s dev n (Q : Z → state → Prop) :
  0 ≤ dev → max_device_blocks s !! Z.to_nat dev = Some n → Q n s → runs (device_blocks dev) s Q.
Proof.
  intros Hd Hn HQ. unfold device_blocks. apply runs_bind, runs_getS.
  destruct (Z.ltb_spec dev 0); [lia|]. rewrite Hn. by apply runs_ret.
Qed.

Lemma count_ahead_runs fuel s B ls H dev bnum limit n max (Q : Z → state → Prop) :
  view s B ls H → 0 ≤ dev → max_device_blocks s !! Z.to_nat dev = Some max → limit ≤ 64 →
  n ≤ 64 → bnum + n ≤ max → (∀ i, 0 ≤ i < n → H !! (dev, bnum + i) = None) →
  (∀ m, n ≤ m ≤ 64 → bnum + m ≤ max → (∀ i, 0 ≤ i < m → H !! (dev, bnum + i) = None) → Q m s) →
  runs (count_ahead fuel dev bnum limit n) s Q.
Proof.
  intros V Hdev Hmax Hlim. revert n. induction fuel as [|fuel IH]; intros n Hn Hfit Hmiss HQ; cbn [count_ahead].
  { apply runs_ret, HQ; [lia|done|done]. }
  destruct (Z.ltb_spec n limit) as [E1|E1]; [|by apply runs_ret, HQ; [lia|..]].
  apply runs_bind. eapply device_blocks_runs; [done|done|]. rewrite Z.geb_leb.
  destruct (Z.leb_spec max (bnum + n)); [by apply runs_ret, HQ; [lia|..]|].
  apply runs_bind, (runs_ht_find _ _ _ _ V). destruct (H !! (dev, bnum + n)) as [p|] eqn:Ep.
  - apply runs_ret, HQ; [lia|done|done].
  - change (has None) with false. apply IH; [lia|lia| |].
    + intros i Hi. destruct (decide (i = n)) as [->|]; [done|]. apply Hmiss. lia.
    + intros m ? ? ?. apply HQ; [lia|done|done].
Qed.

(** [cur_nblocks <= num_needed <= NUM_FLUSH_BLOCKS], and all of them are on the
    device and not in the cache. *)
Lemma num_to_get_runs s B ls H dev bnum bsize op n max (Q : Z → state → Prop) :
  view s B ls H → 0 ≤ dev → max_device_blocks s !! Z.to_nat dev = Some max → 512 ≤ bsize →
  n ≤ 64 → bnum + n ≤ max → (∀ i, 0 ≤ i < n → H !! (dev, bnum + i) = None) →
  (∀ m, n ≤ m ≤ 64 → bnum + m ≤ max → (∀ i, 0 ≤ i < m → H !! (dev, bnum + i) = None) →
    (m = n ∨ op_has op CACHE_READ = true) → Q m s) →
  runs (num_to_get dev bnum bsize op n) s Q.
Proof.
  intros V Hdev Hmax Hbs Hn Hfit Hmiss HQ. unfold num_to_get.
  destruct (_ && _) eqn:Ec; [|apply runs_ret, HQ; [lia|done|done|by left]].
  apply andb_true_iff in Ec as [[Er _]%andb_true_iff _].
  eapply (count_ahead_runs _ s B ls H dev bnum _ n max); try done; [|by intros; apply HQ; auto]. unfold read_ahead_size. rewrite Z.quot_div_nonneg by lia.
  change 64 with (32 * 1024 / 512). apply Z.div_le_compat_l; lia.
Qed.

(** * Finding entries *)

Lemma runs_malloc s (Q : bool → state → Prop) : mem s = [] → Q true s → runs malloc s Q.
Proof. intros Hm HQ. exists true, s. split; [by apply malloc_plenty|done]. Qed.

(** [B'] is [B] with the entries [ps], which were not there. *)
Definition added (ps : list ptr) (c : cache_ent) B B' : Prop :=
  NoDup ps ∧ (∀ p, p ∈ ps → B !! p = None ∧ B' !! p = Some c) ∧ (∀ p, (p ∉ ps) → B' !! p = B !! p) ∧
  Z.of_nat (size B') = Z.of_nat (size B) + zlen ps.

Lemma view_alloc s B ls H bsize :
  view s B ls H → B !! next_ptr s = None →
  view (upd_heap (<[next_ptr s := fresh_ent bsize]> (heap s)) (Pos.succ (next_ptr s)) s)
    (<[next_ptr s := fresh_ent bsize]> B) ls H.
Proof.
  intros [[He Hn Hf] HB Hok HM HN] Hnone.
  assert (heap s !! next_ptr s = None) as Hh.
  { rewrite <- HB, lookup_fmap in Hnone. by destruct (heap s !! next_ptr s). }
  split; [|cbn|done..].
  - split; [|done|].
    + intros w. destruct (He w) as [E1 E2 E3]. destruct w; (split; [done|done|]); cbn;
        (eapply dseg_frame; [|done]); intros q pv nx _ (c & Hc & ?); exists c;
        (rewrite lookup_insert_ne; [done|congruence]).
    + cbn. intros q c Hq. apply lookup_insert_Some in Hq as [[<- <-]|[_ Hq]]; [done|eauto].
  - rewrite fmap_insert. by rewrite HB.
Qed.

Lemma alloc_ents_runs n s B ls H bsize acc (Q : list ptr → state → Prop) :
  view s B ls H → mem s = [] → (∀ p, (next_ptr s ≤ p)%positive → B !! p = None) →
  (∀ new B' s', view s' B' ls H → env_alloc s' = env_alloc s →
    cur_blocks s' = cur_blocks s + zlen new → added new (fresh_ent bsize) B B' →
    (∀ p, (next_ptr s' ≤ p)%positive → B' !! p = None) →
    (length new ≤ n)%nat → (length new = n ∨ max_blocks s ≤ cur_blocks s + zlen new) →
    (cur_blocks s ≤ max_blocks s → cur_blocks s + zlen new ≤ max_blocks s) →
    Q (acc ++ new) s') →
  runs (alloc_ents n bsize acc) s Q.
Proof.
  revert s B acc. induction n as [|n IH]; intros s B acc V Hm Hnext HQ; cbn [alloc_ents].
  { apply runs_ret. rewrite <- (app_nil_r acc).
    apply (HQ [] B); [done|done|cbn; lia| |done|done|by left|cbn; lia].
    split_and!; [constructor|set_solver|done|cbn; lia]. }
  apply runs_bind, runs_getS. destruct (Z.ltb_spec (cur_blocks s) (max_blocks s)) as [Hlt|Hge].
  2: { apply runs_ret. rewrite <- (app_nil_r acc).
       apply (HQ [] B); [done|done|cbn; lia| |done|cbn; lia|right; cbn; lia|cbn; lia].
       split_and!; [constructor|set_solver|done|cbn; lia]. }
  apply runs_bind. unfold new_cache_ent.
  apply runs_bind, runs_malloc; [done|]. cbn [negb]. apply runs_bind, runs_malloc; [done|]. cbn [negb].
  set (p := next_ptr s). assert (B !! p = None) as Hp by (apply Hnext; reflexivity).
  exists p, (upd_heap (<[p := fresh_ent bsize]> (heap s)) (Pos.succ p) s). split; [done|].
  pose proof (view_alloc s B ls H bsize V Hp) as V1. fold p in V1.
  apply runs_bind, runs_modifyS. eapply (IH _ (<[p := fresh_ent bsize]> B)).
  - destruct V1 as [[He Hn Hf] ? ? ? ?]. split; [split; [|done|done]|done..]. intros w. by destruct w; [apply (He Normal)|apply (He Locked)].
  - done.
  - cbn. intros q Hq. rewrite lookup_insert_ne by lia. apply Hnext. fold p. lia.
  - intros new B' s' V' E' Ecur (Hnd & Hin & Hout & Hsz) Hnext' Hlen Hall Hroom. cbn in Ecur, Hall, Hroom.
    rewrite <- (assoc_L (++)). cbn [app].
    assert (p ∉ new) as Hpn. { intros Hpn. destruct (Hin p Hpn) as [Hc _]. by rewrite lookup_insert_eq in Hc. }
    apply (HQ (p :: new) B'); cbn [length]; try done; try lia.
    split_and!.
    + by apply NoDup_cons.
    + intros q [->|Hq]%elem_of_cons; [split; [done|]; rewrite Hout by done; apply lookup_insert_eq|].
      destruct (Hin q Hq) as [Hc ?]. rewrite lookup_insert_ne in Hc by set_solver. done.
    + intros q [? ?]%not_elem_of_cons. rewrite Hout, lookup_insert_ne by done. done.
    + rewrite Hsz, map_size_insert, Hp. cbn [length]. lia.
Qed.

(** [B'] is [B] with the entries [ps] marked busy. *)
Definition busied (ps : list ptr) B B' : Prop :=
  (∀ p, p ∈ ps → B' !! p = or_flags CE_BUSY <$> B !! p) ∧ (∀ p, (p ∉ ps) → B' !! p = B !! p).

(** Entries the cache may take for other blocks. *)
Definition idle B (ps : list ptr) : Prop :=
  ∀ p, p ∈ ps → ∃ c, B !! p = Some c ∧ ce_lock c = 0 ∧ is_busy c = false.

Lemma busied_nil B : busied [] B B.
Proof. split; [set_solver|done]. Qed.

Lemma busied_cons p ps B c B' :
  B !! p = Some c → (p ∉ ps) → busied ps (<[p := or_flags CE_BUSY c]> B) B' → busied (p :: ps) B B'.
Proof.
  intros Hc Hp [H1 H2]. split.
  - intros q [->|Hq]%elem_of_cons.
    + rewrite H2 by done. by rewrite lookup_insert_eq, Hc.
    + rewrite H1 by done. rewrite lookup_insert_ne; [done|]. by intros ->.
  - intros q [Hne Hq]%not_elem_of_cons. rewrite H2, lookup_insert_ne by done. done.
Qed.

Lemma view_next s B ls H pre p rest c :
  view s B ls H → ls Normal = pre ++ p :: rest → heap s !! p = Some c → ce_next c = first rest None.
Proof.
  intros V El Hc. pose proof (rep_seg _ _ _ (lr_each _ _ (vw_lists _ _ _ _ V) Normal)) as Hs.
  rewrite El in Hs. apply dseg_app in Hs as [_ [(c' & Hc' & _ & En) _]]. congruence.
Qed.

Lemma view_nodup s B ls H : view s B ls H → NoDup (ls Normal).
Proof. intros V. apply (lr_list_nodup _ _ Normal (vw_lists _ _ _ _ V)). Qed.

(** The three walks over the list take the next entries. *)
Lemma pluck_runs fuel s B ls H want pre rest acc (Q : list ptr → state → Prop) :
  view s B ls H → ls Normal = pre ++ rest → idle B rest → (length rest ≤ fuel)%nat →
  (∀ k B' s', view s' B' ls H → env s' = env s → busied (take k rest) B B' → (k ≤ length rest)%nat →
    (zlen acc ≤ want → zlen acc + Z.of_nat k ≤ want) →
    (k = length rest ∨ want ≤ zlen acc + Z.of_nat k) → Q (acc ++ take k rest) s') →
  runs (pluck fuel want (first rest None) acc) s Q ∧ runs (pluck_more fuel want (first rest None) acc) s Q.
Proof.
  revert s B pre rest acc. induction fuel as [|fuel IH]; intros s B pre rest acc V El Hid Hf HQ.
  { destruct rest; [|cbn in Hf; lia]. cbn.
    split; (apply runs_ret; specialize (HQ 0%nat B s); cbn in HQ; rewrite app_nil_r in HQ;
      apply HQ; [done|done|apply busied_nil|lia|lia|by left]). }
  destruct rest as [|p rest]; cbn [first pluck pluck_more].
  { split; (apply runs_ret; specialize (HQ 0%nat B s); cbn in HQ; rewrite app_nil_r in HQ;
      apply HQ; [done|done|apply busied_nil|lia|lia|by left]). }
  destruct (Z.ltb_spec (zlen acc) want) as [Hlt|Hge].
  2: { split; (apply runs_ret; specialize (HQ 0%nat B s); cbn in HQ; rewrite app_nil_r in HQ;
         apply HQ; [done|done|apply busied_nil|lia|lia|right; lia]). }
  destruct (Hid p) as (c & Hc & Hlk & Hb); [set_solver|].
  pose proof (view_nodup _ _ _ _ V) as Hnd. rewrite El in Hnd.
  assert (p ∉ rest) as Hp by (apply NoDup_app in Hnd as (_ & _ & (? & _)%NoDup_cons); done).
  assert (∀ s1, view s1 (<[p := or_flags CE_BUSY c]> B) ls H → env s1 = env s →
    runs (pluck fuel want (first rest None) (acc ++ [p])) s1 Q ∧
    runs (pluck_more fuel want (first rest None) (acc ++ [p])) s1 Q) as Hgo.
  { intros s1 V1 E1. eapply (IH s1 (<[p := or_flags CE_BUSY c]> B) (pre ++ [p])); [done| | |cbn in Hf; lia|].
    - by rewrite <- (assoc_L (++)).
    - intros q Hq. destruct (Hid q) as (cq & ? & ?); [set_solver|]. exists cq.
      rewrite lookup_insert_ne; [done|]. by intros ->.
    - intros k B' s' V' E' Hbz Hk Hw Hdone. rewrite <- (assoc_L (++)). rewrite length_app in Hw, Hdone. cbn in Hw, Hdone.
      apply (HQ (S k) B' s'); cbn [length take]; [done|congruence| |lia|lia|lia].
      eapply busied_cons; [done| |done]. intros Hq. apply Hp. by eapply elem_of_take_1. }
  split; apply runs_bind; (eapply (runs_load _ _ _ _ V); [done|]); intros c0 -> Hc0;
    change (is_busy (erase c0)) with (is_busy c0) in Hb; cbn in Hlk; rewrite Hlk, Hb; cbn [Z.eqb negb];
    rewrite (view_next _ _ _ _ _ _ _ _ V El Hc0);
    apply runs_bind; (eapply (runs_store _ _ _ _ V); [apply _|done|]); intros s1 V1 E1; by apply Hgo.
Qed.

Lemma first_final_next s B ls H k p c :
  view s B ls H → last (take k (ls Normal)) = Some p → heap s !! p = Some c →
  ce_next c = first (drop k (ls Normal)) None.
Proof.
  intros V Hl Hc. apply last_Some in Hl as [l0 El].
  eapply (view_next _ _ _ _ l0); [done| |done].
  rewrite <- (take_drop k (ls Normal)) at 1. rewrite El. by rewrite <- (assoc_L (++)).
Qed.

Lemma busied_app ps1 ps2 B B1 B2 :
  (∀ p, p ∈ ps1 → p ∉ ps2) → busied ps1 B B1 → busied ps2 B1 B2 → busied (ps1 ++ ps2) B B2.
Proof.
  intros Hd [A1 A2] [C1 C2]. split.
  - intros p [Hp|Hp]%elem_of_app; [by rewrite C2, A1 by auto|].
    rewrite C1, A2; [done|by intros ?%Hd|done].
  - intros p [? ?]%not_elem_of_app. by rewrite C2, A2.
Qed.

Lemma size_busied ps B B' : busied ps B B' → size B' = size B.
Proof.
  intros [H1 H2]. rewrite <- !size_dom. f_equal. apply set_eq. intros p. rewrite !elem_of_dom.
  destruct (decide (p ∈ ps)); [rewrite H1 by done; by rewrite fmap_is_Some|by rewrite H2].
Qed.

Lemma view_length s B ls H : view s B ls H → (length (ls Normal) ≤ size (heap s))%nat.
Proof.
  intros V. pose proof (view_nodup _ _ _ _ V) as Hnd. rewrite <- size_dom.
  rewrite <- (size_list_to_set (C := gset ptr)) by done. apply subseteq_size. intros p Hp%elem_of_list_to_set.
  apply elem_of_dom. eapply list_rep_in; [apply (lr_each _ _ (vw_lists _ _ _ _ V) Normal)|done].
Qed.

Lemma pluck_retry_done retry num ents s (Q : list ptr → state → Prop) :
  num ≤ zlen ents → Q ents s → runs (pluck_retry retry num ents) s Q.
Proof.
  intros Hn HQ. destruct retry; cbn [pluck_retry]; (destruct (Z.ltb_spec (zlen ents) num); [lia|by apply runs_ret]).
Qed.

(** If the list has enough entries one search finds them. *)
Lemma pluck_retry_runs retry s B ls H num acc (Q : list ptr → state → Prop) :
  view s B ls H → idle B (ls Normal) → (0 < retry)%nat →
  zlen acc ≤ num → num ≤ zlen acc + zlen (ls Normal) →
  (∀ k B' s', view s' B' ls H → env s' = env s → busied (take k (ls Normal)) B B' →
    (k ≤ length (ls Normal))%nat → zlen acc + Z.of_nat k = num → Q (acc ++ take k (ls Normal)) s') →
  runs (pluck_retry retry num acc) s Q.
Proof.
  intros V Hid Hr Hacc Henough HQ. destruct retry as [|retry]; [lia|]. cbn [pluck_retry].
  destruct (Z.ltb_spec (zlen acc) num) as [Hlt|Hge].
  - apply runs_bind, runs_getS, runs_bind.
    pose proof (lr_each _ _ (vw_lists _ _ _ _ V) Normal) as Hl. change (get_list Normal s) with (normal s) in Hl.
    rewrite (rep_lru _ _ _ Hl).
    eapply (pluck_runs _ s B ls H num []); [done|done|done|pose proof (view_length _ _ _ _ V); lia|].
    intros k B' s' V' E' Hb Hk Hw Hdone.
    assert (zlen acc + Z.of_nat k = num) as En by lia.
    assert (zlen (acc ++ take k (ls Normal)) = num) as Elen by (rewrite length_app, length_take; lia).
    rewrite Elen. destruct (Z.ltb_spec num num); [lia|]. apply runs_bind, runs_ret.
    apply pluck_retry_done; [lia|]. by apply (HQ k B').
  - apply runs_ret. specialize (HQ 0%nat B s). cbn in HQ. rewrite app_nil_r in HQ.
    apply HQ; [done|done|apply busied_nil|lia|lia].
Qed.

Lemma inv_idle s B ls H : inv bs s B ls H → idle B (ls Normal).
Proof.
  intros Hi p Hp. destruct (iv_dom _ _ _ _ _ Hi Normal p Hp) as [c Hc]. exists c. split; [done|].
  destruct (iv_ent _ _ _ _ _ Hi p c Hc) as [_ _ Hb _ Hl]. split; [|done].
  pose proof (lr_other _ _ _ _ _ (vw_lists _ _ _ _ (iv_view _ _ _ _ _ Hi)) Hp Hl) as Ew.
  destruct (list_of_cases c) as [[_ ?]|[Ec _]]; [done|congruence].
Qed.

Lemma inv_count s B ls H : inv bs s B ls H → size B = (length (ls Normal) + length (ls Locked))%nat.
Proof.
  intros Hi. pose proof (vw_lists _ _ _ _ (iv_view _ _ _ _ _ Hi)) as Hr.
  rewrite <- length_app, <- size_dom, <- (size_list_to_set (C := gset ptr)) by apply Hr. f_equal.
  apply set_eq. intros p. rewrite elem_of_dom, elem_of_list_to_set, elem_of_app. split.
  - intros [c Hc]. destruct (iv_ent _ _ _ _ _ Hi p c Hc) as [_ _ _ _ Hl]. destruct (list_of c); auto.
  - intros [Hp|Hp]; eapply iv_dom; eauto.
Qed.

Lemma last_taken (new l : list ptr) k p :
  k ≠ 0%nat → (k ≤ length l)%nat → last (new ++ take k l) = Some p → last (take k l) = Some p.
Proof.
  intros Hk Hl. rewrite last_app. destruct (last (take k l)) eqn:E; [done|].
  apply last_None in E. apply (f_equal length) in E. rewrite length_take in E. cbn in E. lia.
Qed.

Lemma get_ents_runs s B ls H num bsize (Q : list ptr → state → Prop) :
  inv bs s B ls H → 1 ≤ num ≤ 64 → zlen (ls Locked) + num ≤ max_blocks s →
  (∀ new k B1 B2 s', view s' B2 ls H → env_alloc s' = env_alloc s →
    cur_blocks s' = cur_blocks s + zlen new → cur_blocks s' ≤ max_blocks s →
    (∀ p, (next_ptr s' ≤ p)%positive → B2 !! p = None) →
    added new (fresh_ent bsize) B B1 → busied (take k (ls Normal)) B1 B2 →
    (k ≤ length (ls Normal))%nat → zlen new ≤ num ≤ zlen new + Z.of_nat k → zlen new + Z.of_nat k ≤ 64 →
    Q (new ++ take k (ls Normal)) s') →
  runs (get_ents num NUM_FLUSH_BLOCKS bsize) s Q.
Proof.
  intros Hi Hnum Hroom HQ. pose proof (iv_view _ _ _ _ _ Hi) as V. pose proof (iv_ready _ _ _ _ _ Hi) as R.
  pose proof (inv_count _ _ _ _ Hi) as Hcnt. pose proof (iv_size _ _ _ _ _ Hi) as [Hcur Hmax].
  unfold get_ents, NUM_FLUSH_BLOCKS. destruct (Z.ltb_spec 64 num); [lia|].
  apply runs_bind. eapply alloc_ents_runs; [done|apply R|apply Hi|].
  intros new B1 s1 V1 E1 Ecur Hadd Hnext1 Hlen Hall Hcap. cbn [app]. pose proof Hadd as (Hnd & Hin & Hout & Hsz).
  assert (idle B1 (ls Normal)) as Hid1.
  { intros p Hp. destruct (inv_idle _ _ _ _ Hi p Hp) as (c & Hc & ?). exists c. rewrite Hout; [done|].
    intros Hn. destruct (Hin p Hn). congruence. }
  apply runs_bind. eapply (pluck_retry_runs _ s1 B1 ls H); [done|done|lia|lia|lia|].
  intros k B2 s2 V2 E2 Hb2 Hk Hnew.
  assert (env_alloc s2 = env_alloc s) as E2' by (rewrite (env_env_alloc _ _ E2); done).
  assert (next_ptr s2 = next_ptr s1) as En2 by exact (f_equal next_ptr E2).
  assert (cur_blocks s2 = cur_blocks s1) as Ec2 by exact (f_equal cur_blocks E2).
  assert (∀ ps B' B'' p, busied ps B' B'' → B' !! p = None → B'' !! p = None) as Hnone.
  { intros ps B' B'' p [A1 A2] Hp. destruct (decide (p ∈ ps)); [rewrite A1 by done; by rewrite Hp|by rewrite A2]. }
  assert (Q (new ++ take k (ls Normal)) s2) as Hstop.
  { eapply (HQ new k B1 B2); try done; try lia. rewrite En2. intros p Hp. eapply Hnone; [done|]. auto. }
  destruct (last (new ++ take k (ls Normal))) as [p|] eqn:El; [|by apply runs_ret].
  assert (∃ c, B2 !! p = Some c ∧ (k = 0%nat → c = fresh_ent bsize)) as (c & Hc & Hfresh).
  { destruct (decide (k = 0%nat)) as [->|Hk0].
    - cbn in El. rewrite app_nil_r in El. destruct (last_Some new p) as [[l0 El0] _]; [done|].
      destruct (Hin p) as [_ Hc]; [rewrite El0; set_solver|]. exists (fresh_ent bsize). split; [|done].
      destruct Hb2 as [_ Hb2]. rewrite Hb2; [done|set_solver].
    - apply last_taken in El; [|done|done]. apply last_Some_elem_of in El.
      destruct (Hid1 p) as (c & Hc & _); [by eapply elem_of_take_1|]. exists (or_flags CE_BUSY c).
      destruct Hb2 as [Hb2 _]. rewrite Hb2 by done. by rewrite Hc. }
  apply runs_bind. eapply (runs_load _ _ _ _ V2); [done|]. intros c0 -> Hc0.
  destruct ((zlen (new ++ take k (ls Normal)) <? 64) && (is_dirty c0 || has (ce_clone c0))) eqn:Emore; [|by apply runs_ret].
  apply andb_true_iff in Emore as [Hlt%Z.ltb_lt Hdirty].
  assert (k ≠ 0%nat) as Hk0.
  { intros Ek0. specialize (Hfresh Ek0). change (is_dirty (erase c0) || has (ce_clone (erase c0)) = true) in Hdirty.
    by rewrite Hfresh in Hdirty. }
  apply runs_bind, runs_getS.
  rewrite (first_final_next _ _ _ _ k p c0 V2); [|by eapply last_taken|done].
  eapply (pluck_runs _ s2 B2 ls H 64 (take k (ls Normal)) (drop k (ls Normal))).
  - done.
  - by rewrite take_drop.
  - intros q Hq. destruct (Hid1 q) as (cq & Hcq & ?); [by eapply elem_of_drop_1|]. exists cq.
    destruct Hb2 as [_ Hb2]. rewrite Hb2; [done|]. intros Hq'.
    pose proof (view_nodup _ _ _ _ V2) as Hnd2. rewrite <- (take_drop k (ls Normal)) in Hnd2.
    apply NoDup_app in Hnd2 as (_ & Hdj & _). by eapply Hdj.
  - pose proof (view_length _ _ _ _ V2). rewrite length_drop. lia.
  - intros j B3 s3 V3 E3 Hb3 Hj Hw Hdone. rewrite length_drop in Hj. rewrite length_app, length_take in Hw, Hlt.
    rewrite <- (assoc_L (++)), take_take_drop.
    eapply (HQ new (k + j)%nat B1 B3); try done; try lia.
    + rewrite (env_env_alloc _ _ E3). done.
    + rewrite <- Ecur, <- Ec2. exact (f_equal cur_blocks E3).
    + rewrite (f_equal cur_blocks E3 : cur_blocks s3 = cur_blocks s2). lia.
    + rewrite (f_equal next_ptr E3 : next_ptr s3 = next_ptr s2), En2. intros q Hq.
      eapply Hnone; [done|]. eapply Hnone; [done|]. auto.
    + rewrite <- take_take_drop. eapply busied_app; [|done|done].
      intros q Hq Hq'. pose proof (view_nodup _ _ _ _ V2) as Hnd2. rewrite <- (take_drop k (ls Normal)) in Hnd2.
      apply NoDup_app in Hnd2 as (_ & Hdj & _). eapply Hdj; [done|]. by eapply elem_of_take_1.
Qed.

(** * Sorting

    Block numbers below 2^31 are what [cache_ent_cmp] can compare. *)
Definition comparable (c : cache_ent) : Prop :=
  ce_dev c = -1 ∧ ce_block_num c = -1 ∨ 0 ≤ ce_dev c < 256 ∧ 0 ≤ ce_block_num c < 2 ^ 31.

Lemma cmp_value h p q :
  comparable (deref_ent h p) → comparable (deref_ent h q) →
  let c1 := deref_ent h p in let c2 := deref_ent h q in
  cache_ent_cmp h p q = if ce_dev c1 =? ce_dev c2 then ce_block_num c1 - ce_block_num c2 else ce_dev c1 - ce_dev c2.
Proof.
  intros H1 H2 c1 c2. unfold cache_ent_cmp, s64. fold c1 c2. unfold comparable in H1, H2. fold c1 in H1. fold c2 in H2.
  destruct (Z.eqb_spec (ce_dev c1) (ce_dev c2)).
  - rewrite swrap_id by lia. apply s32_id. unfold is_s32. lia.
  - apply s32_id. unfold is_s32. lia.
Qed.

Lemma cache_ent_cmp_ordered h :
  (∀ p c, h !! p = Some c → comparable c) → cmp_ordered (cache_ent_cmp h).
Proof.
  intros Hall. assert (∀ p, comparable (deref_ent h p)) as Hc.
  { intros p. unfold deref_ent. destruct (h !! p) eqn:E; cbn; [by eapply Hall|]. right. cbn. lia. }
  split.
  - intros x y. pose proof (Hc x) as Hx. pose proof (Hc y) as Hy.
    rewrite !cmp_value by done. cbn. unfold comparable in *. rewrite (Z.eqb_sym (ce_dev (deref_ent h y))).
    destruct (Z.eqb_spec (ce_dev (deref_ent h x)) (ce_dev (deref_ent h y))); lia.
  - intros x y z. pose proof (Hc x) as Hx. pose proof (Hc y) as Hy. pose proof (Hc z) as Hz.
    rewrite !cmp_value by done. cbn. unfold comparable in *.
    destruct (Z.eqb_spec (ce_dev (deref_ent h x)) (ce_dev (deref_ent h y))),
      (Z.eqb_spec (ce_dev (deref_ent h y)) (ce_dev (deref_ent h z))),
      (Z.eqb_spec (ce_dev (deref_ent h x)) (ce_dev (deref_ent h z))); lia.
Qed.

Lemma load_all_run ents s : (∀ p, p ∈ ents → is_Some (heap s !! p)) → load_all ents s = Ok (tt, s).
Proof.
  induction ents as [|p ents IH]; intros Hin; [done|]. cbn [load_all].
  destruct (Hin p) as [c Hc]; [set_solver|]. mstep (load_run s p c Hc). apply IH. set_solver.
Qed.

(** Sorting only permutes, and entries without a block come first. *)
Lemma sort_ents_runs s B ls H ents (Q : list ptr → state → Prop) :
  view s B ls H → (∀ p, p ∈ ents → is_Some (B !! p)) → (∀ p c, B !! p = Some c → comparable c) →
  (∀ ents', ents' ≡ₚ ents →
    (∀ i j p q c d, (i < j)%nat → ents' !! i = Some p → ents' !! j = Some q → B !! p = Some c → B !! q = Some d →
      ce_dev d = -1 → ce_dev c = -1) → Q ents' s) →
  runs (sort_ents ents) s Q.
Proof.
  intros V Hin Hcmp HQ. unfold sort_ents. apply runs_bind.
  assert (∀ p, p ∈ ents → is_Some (heap s !! p)) as Hin'.
  { intros p Hp. destruct (Hin p Hp) as [b Hb]. destruct (view_load _ _ _ _ V p b Hb) as (c & Hc & _). eauto. }
  eapply runs_eq; [by apply load_all_run|]. apply runs_bind, runs_getS.
  assert (∀ p c, heap s !! p = Some c → B !! p = Some (erase c)) as Hbody.
  { intros p c Hc. by rewrite <- (vw_bodies _ _ _ _ V), lookup_fmap, Hc. }
  assert (cmp_ordered (cache_ent_cmp (heap s))) as Ho.
  { apply cache_ent_cmp_ordered. intros p c Hc. apply (Hcmp p (erase c)). auto. }
  destruct (local_qsort_sorts (cache_ent_cmp (heap s)) 0 (length ents) ents) as (ents' & E & R & Hs); [lia|].
  eapply runs_liftO; [exact E|]. specialize (Hs Ho). apply HQ; [by destruct R|].
  intros i j p q c d Hij Hi Hj Hc Hd Edev.
  assert (cache_ent_cmp (heap s) p q ≤ 0) as Hle.
  { apply lookup_lt_Some in Hj as Hj'. rewrite (rearranged_length _ _ _ _ R) in Hj'.
    eapply (Hs i j); [lia|lia|lia|done|done]. }
  destruct (view_load _ _ _ _ V p c Hc) as (c0 & Hc0 & ->). destruct (view_load _ _ _ _ V q d Hd) as (d0 & Hd0 & ->).
  rewrite cmp_value in Hle; unfold deref_ent in *; rewrite ?Hc0, ?Hd0 in *; cbn in *.
  - pose proof (Hcmp _ _ Hc) as Hcc. unfold comparable in Hcc. cbn in Hcc.
    destruct (Z.eqb_spec (ce_dev c0) (ce_dev d0)); lia.
  - apply (Hcmp p _ Hc).
  - apply (Hcmp q _ Hd).
Qed.

(** * Claiming the entries *)

Lemma or_busy_id c : is_busy c = true → or_flags CE_BUSY c = c.
Proof.
  unfold is_busy, or_flags, set_flags. intros Hb. apply negb_true_iff, Z.eqb_neq in Hb.
  assert (Z.lor (ce_flags c) CE_BUSY = ce_flags c) as ->; [|by destruct c].
  assert (Z.testbit (ce_flags c) 2 = true) as Hbit.
  { destruct (Z.testbit (ce_flags c) 2) eqn:E; [done|]. exfalso. apply Hb. apply Z.bits_inj'. intros n Hn.
    rewrite Z.land_spec, Z.bits_0. change CE_BUSY with (2 ^ 2). rewrite Z.pow2_bits_eqb by lia.
    destruct (Z.eqb_spec 2 n) as [<-|]; [by rewrite E|apply andb_false_r]. }
  apply Z.bits_inj'. intros n Hn. rewrite Z.lor_spec. change CE_BUSY with (2 ^ 2).
  rewrite Z.pow2_bits_eqb by lia. destruct (Z.eqb_spec 2 n) as [<-|]; [by rewrite Hbit|apply orb_false_r].
Qed.

(** The table with [ps] entered for the blocks from [b] on. *)
Fixpoint claim_map (dev b : Z) (ps : list ptr) H : gmap (Z * Z) ptr :=
  match ps with [] => H | p :: ps => claim_map dev (b + 1) ps (<[(dev, b) := p]> H) end.

Lemma claim_map_lookup dev b ps H k p :
  (∀ i, 0 ≤ i < zlen ps → H !! (dev, b + i) = None) →
  claim_map dev b ps H !! k = Some p ↔
    (∃ i : nat, ps !! i = Some p ∧ k = (dev, b + Z.of_nat i)) ∨ H !! k = Some p.
Proof.
  revert b H. induction ps as [|q ps IH]; intros b H Hn; cbn [claim_map].
  { split; [by right|]. intros [(i & Hi & _)|?]; [by rewrite lookup_nil in Hi|done]. }
  rewrite IH.
  2: { intros i Hi. rewrite lookup_insert_ne by (intros [= ?]; lia).
       replace (b + 1 + i) with (b + (i + 1)) by lia. apply Hn. cbn [length]. lia. }
  split.
  - intros [(i & Hi & ->)|Hk].
    + left. exists (S i). split; [done|]. f_equal. lia.
    + apply lookup_insert_Some in Hk as [[<- <-]|[_ Hk]]; [|by right].
      left. exists 0%nat. split; [done|]. f_equal. lia.
  - intros [([|i] & Hi & ->)|Hk].
    + right. cbn in Hi. simplify_eq. replace (b + Z.of_nat 0) with b by lia. apply lookup_insert_eq.
    + left. exists i. split; [done|]. f_equal. lia.
    + right. rewrite lookup_insert_ne; [done|]. intros <-. specialize (Hn 0). rewrite Z.add_0_r in Hn.
      rewrite Hn in Hk by (cbn [length]; lia). done.
Qed.

Lemma claim_map_size dev b ps H : Z.of_nat (size (claim_map dev b ps H)) ≤ Z.of_nat (size H) + zlen ps.
Proof.
  revert b H. induction ps as [|q ps IH]; intros b H; cbn [claim_map length]; [lia|].
  etransitivity; [apply IH|]. rewrite map_size_insert. destruct (H !! _); cbn; lia.
Qed.

(** An entry that can be claimed: taken, and new or on the normal list. *)
Definition claimable B ls (p : ptr) : Prop :=
  ∃ c, B !! p = Some c ∧ ce_lock c = 0 ∧
    (ce_dev c = -1 ∧ (∀ w, p ∉ ls w) ∨ ce_dev c ≠ -1 ∧ p ∈ ls Normal).

Lemma claim_ents_runs ents s B ls H dev bnum num cur (Q : Z → state → Prop) :
  view s B ls H → mem s = [] → NoDup ents → (∀ p, p ∈ ents → claimable B ls p) → 0 ≤ cur →
  (∀ i, cur ≤ i < num → H !! (dev, bnum + i) = None) →
  Z.of_nat (size H) + zlen ents < HT_LIMIT →
  (∀ n s' B' ls', view s' B' ls' (claim_map dev (bnum + cur) (take (Z.to_nat (num - cur)) ents) H) → env s' = env s →
    busied ents B B' →
    ls' Locked = ls Locked → (∀ p, p ∈ ls' Normal ↔ p ∈ ls Normal ∧ p ∉ ents) → 0 ≤ n →
    (n = 0 → ∀ p c, p ∈ ents → B !! p = Some c → ce_dev c ≠ -1 → is_dirty c = false ∧ ce_clone c = None) →
    Q n s') →
  runs (claim_ents dev bnum num cur ents) s Q.
Proof.
  revert s B ls H cur Q. induction ents as [|p ents IH]; intros s B ls H cur Q V Hm Hnd Hcl Hcur Hmiss Hsz HQ; cbn [claim_ents].
  { apply runs_ret. eapply HQ; [by rewrite take_nil|done|apply busied_nil|done|set_solver|lia|set_solver]. }
  apply NoDup_cons in Hnd as [Hp Hnd]. cbn [length] in Hsz.
  destruct (Hcl p) as (c & Hc & Hlk & Hwhere); [left|].
  apply runs_bind. eapply (runs_store _ _ _ _ V); [apply _|done|]. intros s1 V1 E1.
  set (B1 := <[p := or_flags CE_BUSY c]> B) in *.
  assert (∀ q, q ∈ ents → B1 !! q = B !! q) as HB1.
  { intros q Hq. apply lookup_insert_ne. by intros ->. }
  assert (mem s1 = []) as Hm1 by (by rewrite (f_equal mem E1 : mem s1 = mem s)).
  set (H1 := if cur <? num then <[(dev, bnum + cur) := p]> H else H).
  apply runs_bind. apply (runs_mono _ _ (λ _ s2, view s2 B1 ls H1 ∧ env s2 = env s)).
  { subst H1. destruct (Z.ltb_spec cur num) as [Hlt|]; [|by apply runs_ret].
    apply runs_bind. eapply (runs_ht_insert _ _ _ _ V1); [done|lia|apply Hmiss; lia|]. intros s2 V2 E2.
    cbn [Z.eqb negb]. apply runs_ret. split; [done|congruence]. }
  intros _ s2 [V2 E2].
  assert (mem s2 = []) as Hm2 by (by rewrite (f_equal mem E2 : mem s2 = mem s)).
  assert (claim_map dev (bnum + (cur + 1)) (take (Z.to_nat (num - (cur + 1))) ents) H1 =
          claim_map dev (bnum + cur) (take (Z.to_nat (num - cur)) (p :: ents)) H) as Hmap.
  { subst H1. destruct (Z.ltb_spec cur num).
    - replace (Z.to_nat (num - cur)) with (S (Z.to_nat (num - (cur + 1)))) by lia. cbn [take claim_map].
      by replace (bnum + (cur + 1)) with (bnum + cur + 1) by lia.
    - replace (Z.to_nat (num - cur)) with 0%nat by lia. by replace (Z.to_nat (num - (cur + 1))) with 0%nat by lia. }
  assert (∀ i, cur + 1 ≤ i < num → H1 !! (dev, bnum + i) = None) as Hmiss1.
  { intros i Hi. subst H1. destruct (cur <? num); [|apply Hmiss; lia].
    rewrite lookup_insert_ne by (intros [= ?]; lia). apply Hmiss. lia. }
  assert (Z.of_nat (size H1) + zlen ents < HT_LIMIT) as Hsz1.
  { subst H1. destruct (cur <? num); [|lia]. rewrite map_size_insert. destruct (H !! _); cbn; lia. }
  assert (∀ q, q ∈ ents → ∀ l1 l2, ls Normal = l1 ++ p :: l2 → claimable B1 (lset Normal (l1 ++ l2) ls) q) as Hcl1.
  { intros q Hq l1 l2 El. destruct (Hcl q) as (cq & Hcq & Hlq & Hw); [by right|]. exists cq. rewrite HB1 by done.
    split_and!; [done..|]. assert (q ≠ p) as Hqp by (by intros ->).
    destruct Hw as [[? Hnw]|[? Hqin]]; [left|right]; (split; [done|]).
    - intros w. specialize (Hnw w). destruct w; cbn; [|done]. rewrite El in Hnw. clear -Hnw. set_solver.
    - cbn. rewrite El in Hqin. clear -Hqin Hqp. set_solver. }
  apply runs_bind. eapply (runs_load _ _ _ _ V2); [apply lookup_insert_eq|]. intros c0 Ec0 _.
  assert (ce_dev c0 = ce_dev c ∧ ce_lock c0 = 0 ∧ is_dirty c0 = is_dirty c ∧ ce_clone c0 = ce_clone c)
    as (Ed0 & El0 & Edd & Ecl).
  { rewrite <- (dirty_or_busy c), Ec0. rewrite <- Hlk.
    split_and!; [|change (ce_lock c) with (ce_lock (or_flags CE_BUSY c)); by rewrite Ec0|done|];
      [change (ce_dev c) with (ce_dev (or_flags CE_BUSY c))|change (ce_clone c) with (ce_clone (or_flags CE_BUSY c))];
      by rewrite Ec0. }
  destruct Hwhere as [[Hdev Hno]|[Hdev Hin]].
  - rewrite Ed0, Hdev. cbn [Z.eqb]. eapply (IH s2 B1 ls H1); [done|done|done| |lia|done|done|].
    { intros q Hq. destruct (Hcl q) as (cq & Hcq & ?); [by right|]. exists cq. by rewrite HB1. }
    intros n s3 B3 ls3 V3 E3 Hb3 HL HN Hn Hz. rewrite Hmap in V3.
    eapply HQ; [done|congruence|by eapply busied_cons|done| |done|].
    + intros q. rewrite HN. specialize (Hno Normal). clear -Hno. set_solver.
    + intros Hn0 q cq [->|Hq]%elem_of_cons Hcq Hq1; [congruence|]. eapply Hz; [done|done|by rewrite HB1|done].
  - destruct (Z.eqb_spec (ce_dev c0) (-1)) as [?|Hne1]; [congruence|]. rewrite El0. cbn [Z.eqb negb].
    apply list_elem_of_split in Hin as (l1 & l2 & El).
    pose proof (view_nodup _ _ _ _ V2) as Hndl. rewrite El in Hndl.
    apply NoDup_app in Hndl as (_ & Hdj & (Hp2 & _)%NoDup_cons).
    apply runs_bind. eapply (runs_delete _ _ _ _ V2); [done|]. intros s3 V3 E3.
    assert (mem s3 = []) as Hm3 by (by rewrite (f_equal mem E3 : mem s3 = mem s2)).
    apply runs_bind. eapply (IH s3 B1 (lset Normal (l1 ++ l2) ls) H1); [done|done|done|by intros; apply Hcl1|lia|done|done|].
    intros n s4 B4 ls4 V4 E4 Hb4 HL HN Hn Hz. rewrite Hmap in V4. apply runs_ret.
    eapply HQ; [done|congruence|by eapply busied_cons|done| | |].
    + intros q. rewrite HN. cbn. rewrite El. assert (p ∉ l1) as Hp1 by (intros Hx; by apply (Hdj p Hx); left).
      clear -Hp1 Hp2. set_solver.
    + destruct (is_dirty c0 || has (ce_clone c0)); lia.
    + rewrite Edd, Ecl. intros Hn0. assert (n = 0 ∧ is_dirty c || has (ce_clone c) = false) as [-> Hcd]
        by (destruct (is_dirty c || has (ce_clone c)); split; (done || lia)).
      intros q cq [->|Hq]%elem_of_cons Hcq Hq1; [|eapply Hz; [done|done|by rewrite HB1|done]].
      rewrite Hc in Hcq. injection Hcq as <-. apply orb_false_iff in Hcd as [Hd1 Hd2].
      split; [exact Hd1|]. unfold has in Hd2. apply bool_decide_eq_false in Hd2. by apply eq_None_not_Some.
Qed.

(** * Flushing the claimed entries *)

(** Everything writing back leaves alone. *)
Definition env_io (s : state) : state :=
  upd_disks ∅ (io s) (upd_calls [] (upd_iov (iov_sem s) (iov_held s) [] (iovec_used s) (env s))).

Lemma env_env_io s s' : env s' = env s → env_io s' = env_io s.
Proof.
  intros E. unfold env_io. pose proof (f_equal io E : io s' = io s) as ->.
  pose proof (f_equal iov_sem E : iov_sem s' = iov_sem s) as ->.
  pose proof (f_equal iov_held E : iov_held s' = iov_held s) as ->.
  pose proof (f_equal iovec_used E : iovec_used s' = iovec_used s) as ->. by rewrite E.
Qed.

Lemma env_io_ready s s' : env_io s' = env_io s → length (iovec_pool s') = 64%nat → ready s → ready s'.
Proof.
  intros E Hp [? ? ? ? ?]. pose proof (f_equal mem E : mem s' = mem s).
  pose proof (f_equal io E : io s' = io s). pose proof (f_equal iov_held E : iov_held s' = iov_held s).
  pose proof (f_equal iovec_used E : iovec_used s' = iovec_used s). split; congruence.
Qed.

Definition links_of (c : cache_ent) : option ptr * option ptr := (ce_prev c, ce_next c).

Lemma lists_rep_links s s' ls :
  lists_rep s ls → normal s' = normal s → locked s' = locked s →
  (∀ p, links_of <$> heap s' !! p = links_of <$> heap s !! p) → lists_rep s' ls.
Proof.
  intros [He Hn Hf] En El Hl.
  assert (∀ p c, heap s' !! p = Some c → ∃ c0, heap s !! p = Some c0 ∧ ce_prev c0 = ce_prev c ∧ ce_next c0 = ce_next c) as Hback.
  { intros p c Hc. specialize (Hl p). rewrite Hc in Hl. destruct (heap s !! p) as [c0|]; [|done].
    unfold links_of in Hl. cbn in Hl. injection Hl as -> ->. eauto. }
  split; [|done|].
  - intros w. destruct (He w) as [E1 E2 E3].
    assert (get_list w s' = get_list w s) as -> by (destruct w; done). split; [done|done|].
    eapply dseg_frame; [|done]. intros p pv nx _ (c & Hc & <- & <-). specialize (Hl p). rewrite Hc in Hl.
    destruct (heap s' !! p) as [c'|] eqn:Hc'; [|done]. unfold links_of in Hl. cbn in Hl. injection Hl as Ep En'.
    exists c'. done.
  - intros p c Hc HN HL. destruct (Hback p c Hc) as (c0 & Hc0 & <- & <-). eauto.
Qed.

(** [B'], [D']: entries and devices after [ents] were brought to the disk. *)
Record cleaned (ents : list ptr) B B' (D D' : gmap Z (list Z)) : Prop := {
  cn_other p : (p ∉ ents) → B' !! p = B !! p;
  cn_ent p c : p ∈ ents → B !! p = Some c →
    ∃ c', B' !! p = Some c' ∧ core c = core c' ∧ needs c' = 0%nat ∧ ent_ok bs D' c' ∧
      (ce_lock c ≠ 0 → is_dirty c' = is_dirty c ∧
        (ce_clone c = None ∧ block bs D' (ce_dev c) (ce_block_num c) = block bs D (ce_dev c) (ce_block_num c) ∨
         is_Some (ce_clone c) ∧ block bs D' (ce_dev c) (ce_block_num c) = ce_clone c));
  cn_length dev : length <$> D' !! dev = length <$> D !! dev;
  cn_block dev b : 0 ≤ b → (∀ p c, p ∈ ents → B !! p = Some c → ce_key c ≠ (dev, b)) →
    block bs D' dev b = block bs D dev b
}.

Lemma core_erase c : core (erase c) = erase (core c).
Proof. done. Qed.

Lemma ent_ok_erase D c : ent_ok bs D c ↔ ent_ok bs D (erase c).
Proof. split; (intros [[[? ? ? ? ?] ?]|?]; [left; split; [split; done|done]|right; done]). Qed.

Lemma needs_clone c : needs c = 0%nat → ce_clone c = None.
Proof. unfold needs. destruct (ce_clone c); [|done]. cbn. lia. Qed.

Section Written.
Context (s s' : state) B ls H (ents : list ptr) (f' : fx).
Hypothesis V : view s B ls H.
Hypothesis Hf : flushes bs ents (fx_of s) f'.
Hypothesis Hok' : fx_ok bs ents f'.
Hypothesis Hneeds : ∀ p c, p ∈ ents → fx_heap f' !! p = Some c → needs c = 0%nat.
Hypothesis Hin : ∀ p, p ∈ ents → is_Some (B !! p).

Lemma written_view :
  heap s' = fx_heap f' → normal s' = normal s → locked s' = locked s → ht s' = ht s → view s' (bodies (fx_heap f')) ls H.
Proof using V Hf Hin.
  intros E1 E2 E3 E4. destruct V as [Hl HB Hok0 HM HN]. split; rewrite ?E1, ?E4; try done.
  eapply lists_rep_links; [done|done|done|]. intros p. rewrite E1. destruct (decide (p ∈ ents)) as [Hp|Hp].
  - destruct (Hin p Hp) as [b Hb]. destruct (view_load _ _ _ _ V p b Hb) as (c & Hc & _).
    destruct (fl_ent _ _ _ _ Hf p c Hp Hc) as (c' & Hc' & Hst). rewrite Hc, Hc'. cbn. f_equal.
    pose proof (f_equal links_of (es_core _ _ _ _ _ Hst)) as Hl'. symmetry. exact Hl'.
  - by rewrite (fl_other _ _ _ _ Hf p Hp).
Qed.

Lemma written_cleaned : cleaned ents B (bodies (fx_heap f')) (disks s) (fx_disks f').
Proof using V Hf Hok' Hneeds.
  split.
  - intros p Hp. rewrite lookup_fmap, (fl_other _ _ _ _ Hf p Hp). cbn.
    by rewrite <- (vw_bodies _ _ _ _ V), lookup_fmap.
  - intros p b Hp Hb. destruct (view_load _ _ _ _ V p b Hb) as (c & Hc & ->).
    destruct (fl_ent _ _ _ _ Hf p c Hp Hc) as (c' & Hc' & [S1 S2 S3 S4]). exists (erase c').
    rewrite lookup_fmap, Hc'. split; [done|]. split; [by rewrite !core_erase, S1|].
    pose proof (Hneeds p c' Hp Hc') as Hn. split; [exact Hn|]. split.
    + destruct (fo_ent _ _ _ Hok' p Hp) as (c'' & ? & ?). simplify_eq. by apply (proj1 (ent_ok_erase _ _)).
    + intros Hlk. destruct (S4 Hlk) as [Hd Hc4]. split; [exact Hd|]. cbn.
      apply needs_clone in Hn. destruct Hc4 as [[Ec Eb]|(Es & _ & Eb)]; [left|by right].
      split; [congruence|exact Eb].
  - intros dev. apply (fl_length _ _ _ _ Hf dev).
  - intros dev b Hb Hno. apply (fl_block _ _ _ _ Hf dev b Hb). intros p c Hp Hc. apply (Hno p (erase c)); [done|].
    change (heap s !! p = Some c) in Hc. by rewrite <- (vw_bodies _ _ _ _ V), lookup_fmap, Hc.
Qed.
End Written.

Lemma view_fx_ok s B ls H ents :
  view s B ls H → (∀ p, p ∈ ents → ∃ c, B !! p = Some c ∧ ent_ok bs (disks s) c) →
  (∀ p q c d, p ∈ ents → q ∈ ents → B !! p = Some c → B !! q = Some d → ce_dev c ≠ -1 →
    ce_key c = ce_key d → p = q) → fx_ok bs ents (fx_of s).
Proof.
  intros V Hent Hkey.
  assert (∀ p c, heap s !! p = Some c → B !! p = Some (erase c)) as Hbody.
  { intros p c Hc. by rewrite <- (vw_bodies _ _ _ _ V), lookup_fmap, Hc. }
  split; cbn.
  - intros p Hp. destruct (Hent p Hp) as (b & Hb & Hok). destruct (view_load _ _ _ _ V p b Hb) as (c & Hc & ->).
    exists c. split; [done|]. by apply ent_ok_erase.
  - intros p q c d Hp Hq Hc Hd ? ?.
    apply (Hkey p q (erase c) (erase d)); [done|done|by apply Hbody|by apply Hbody|done|done].
Qed.

Lemma flush_ents_runs s B ls H ents (Q : Z → state → Prop) :
  view s B ls H → ready s → NoDup ents →
  (∀ p, p ∈ ents → ∃ c, B !! p = Some c ∧ ent_ok bs (disks s) c) →
  (∀ p q c d, p ∈ ents → q ∈ ents → B !! p = Some c → B !! q = Some d → ce_dev c ≠ -1 →
    ce_key c = ce_key d → p = q) →
  (∀ B' s', view s' B' ls H → env_io s' = env_io s → ready s' →
    cleaned ents B B' (disks s) (disks s') → Q 0 s') →
  runs (flush_ents ents) s Q.
Proof.
  intros V R Hnd Hent Hkey HQ. pose proof (view_fx_ok _ _ _ _ _ V Hent Hkey) as Hok.
  assert (∀ p, p ∈ ents → is_Some (B !! p)) as Hin by (intros p (c & -> & _)%Hent; by eexists).
  destruct (flush_ents_run bs ents s R Hok Hnd) as (f' & pool & E & Hpool & Hok' & Hf & Hneeds).
  eapply runs_eq; [exact E|]. apply (HQ (bodies (fx_heap f'))).
  - by eapply written_view.
  - unfold env_io. cbn. rewrite (rd_used _ R), (rd_iov _ R). done.
  - destruct R as [? ? ? ? ?]. split; done.
  - by eapply written_cleaned.
Qed.

(** One entry is written back. *)
Lemma flush_cache_ent_runs s B ls H p c (Q : Z → state → Prop) :
  view s B ls H → ready s → B !! p = Some c → ent_ok bs (disks s) c →
  (∀ B' s', view s' B' ls H → env_io s' = env_io s → ready s' →
    cleaned [p] B B' (disks s) (disks s') → Q 0 s') →
  runs (flush_cache_ent p) s Q.
Proof.
  intros V R Hc Hokc HQ.
  assert (fx_ok bs [p] (fx_of s)) as Hok.
  { eapply view_fx_ok; [done| |]; [intros q ->%list_elem_of_singleton; eauto|].
    by intros p1 p2 c1 c2 ->%list_elem_of_singleton ->%list_elem_of_singleton. }
  destruct (view_load _ _ _ _ V p c Hc) as (c0 & Hc0 & _).
  destruct (flush_cache_ent_run bs [p] s p c0 (rd_io _ R) Hok) as (f' & c' & E & Hf & Hok' & Hc' & Hn); [left|done|].
  eapply runs_eq; [exact E|]. apply (HQ (bodies (fx_heap f'))).
  - eapply written_view; [done|done|by intros q ->%list_elem_of_singleton|done..].
  - done.
  - destruct R as [? ? ? ? ?]. split; done.
  - eapply written_cleaned; [done|done|done|]. intros q cq ->%list_elem_of_singleton Hcq. congruence.
Qed.
End Steps.
