(* ===== verification/CacheFill.v ===== *)
(** The second half of a cache miss: the claimed entries get blocks of the right
    size, the contents from the device, and their new places in the hash table
    and the lists. *)

From S2P Require Import Prelude Errors Sort CacheHash CacheState CacheIo CacheFlush BlockCache CacheInv.
From S2P Require Import CacheServe CacheMiss.

Section Fill.
Context (bs : Z → Z).
Implicit Types (B : gmap ptr cache_ent) (ls : which → list ptr) (H : gmap (Z * Z) ptr).

(** [B'] is [B] with the [i]-th of the entries [ps] changed by [f i]. *)
Definition updated (f : nat → cache_ent → cache_ent) (ps : list ptr) B B' : Prop :=
  (∀ i p, ps !! i = Some p → B' !! p = f i <$> B !! p) ∧ (∀ p, (p ∉ ps) → B' !! p = B !! p).

Lemma updated_nil f B : updated f [] B B.
Proof. split; [|done]. intros i p Hi. by rewrite lookup_nil in Hi. Qed.

Lemma updated_cons f p ps B c B' :
  B !! p = Some c → (p ∉ ps) → updated (λ i, f (S i)) ps (<[p := f 0%nat c]> B) B' →
  updated f (p :: ps) B B'.
Proof.
  intros Hc Hp [H1 H2]. split.
  - intros [|i] q Hq; cbn in Hq.
    + simplify_eq. rewrite H2 by done. by rewrite lookup_insert_eq, Hc.
    + rewrite (H1 i q Hq). rewrite lookup_insert_ne; [done|]. intros ->. by eapply Hp, list_elem_of_lookup_2.
  - intros q [Hne Hq]%not_elem_of_cons. rewrite H2, lookup_insert_ne by done. done.
Qed.

Lemma updated_comp f g ps B B1 B2 :
  updated f ps B B1 → updated g ps B1 B2 → updated (λ i c, g i (f i c)) ps B B2.
Proof.
  intros [A1 A2] [C1 C2]. split.
  - intros i p Hi. rewrite (C1 i p Hi), (A1 i p Hi), <- option_fmap_compose. done.
  - intros p Hp. by rewrite C2, A2.
Qed.

Lemma updated_ext f g ps B B' :
  (∀ i p c, ps !! i = Some p → B !! p = Some c → f i c = g i c) → updated f ps B B' → updated g ps B B'.
Proof.
  intros Hfg [A1 A2]. split; [|done]. intros i p Hi. rewrite (A1 i p Hi).
  destruct (B !! p) as [c|] eqn:Hc; [|done]. cbn. f_equal. by eapply Hfg.
Qed.

Lemma updated_size f ps B B' : updated f ps B B' → size B' = size B.
Proof.
  intros [H1 H2]. rewrite <- !size_dom. f_equal. apply set_eq. intros p. rewrite !elem_of_dom.
  destruct (decide (p ∈ ps)) as [Hp|Hp]; [|by rewrite H2].
  apply list_elem_of_lookup in Hp as [i Hi]. rewrite (H1 i p Hi). by rewrite fmap_is_Some.
Qed.

Lemma updated_in f ps B B' p : updated f ps B B' → is_Some (B' !! p) ↔ is_Some (B !! p).
Proof.
  intros [H1 H2]. destruct (decide (p ∈ ps)) as [Hp|Hp]; [|by rewrite H2].
  apply list_elem_of_lookup in Hp as [i Hi]. rewrite (H1 i p Hi). by rewrite fmap_is_Some.
Qed.

(** * Blocks of the right size *)

Definition freed (bsize : Z) (c : cache_ent) : cache_ent :=
  if ce_bsize c =? bsize then c else set_clone None (set_data None c).
Definition realloced (bsize : Z) (c : cache_ent) : cache_ent :=
  if has (ce_data c) then c else set_bsize bsize (set_data (Some (uninit bsize)) c).

Lemma free_blocks_runs bsize ps s B ls H (Q : unit → state → Prop) :
  view s B ls H → NoDup ps → (∀ p, p ∈ ps → is_Some (B !! p)) →
  (∀ B' s', view s' B' ls H → env s' = env s → updated (λ _, freed bsize) ps B B' → Q tt s') →
  runs (free_blocks bsize ps) s Q.
Proof.
  revert s B. induction ps as [|p ps IH]; intros s B V Hnd Hin HQ; cbn [free_blocks].
  { apply runs_ret, (HQ B); [done|done|apply updated_nil]. }
  apply NoDup_cons in Hnd as [Hp Hnd]. destruct (Hin p) as [c Hc]; [left|].
  apply runs_bind. eapply (runs_load _ _ _ _ V); [done|]. intros c0 -> Hc0. apply runs_bind.
  assert (∀ s1, view s1 (<[p := freed bsize (erase c0)]> B) ls H → env s1 = env s → runs (free_blocks bsize ps) s1 Q) as Hgo.
  { intros s1 V1 E1. eapply IH; [done|done| |].
    - intros q Hq. destruct (decide (p = q)) as [<-|]; [by rewrite lookup_insert_eq|].
      rewrite lookup_insert_ne by done. apply Hin. by right.
    - intros B' s' V' E' Hu. apply (HQ B'); [done|congruence|]. by eapply updated_cons. }
  unfold freed in Hgo. change (ce_bsize (erase c0)) with (ce_bsize c0) in Hgo.
  destruct (ce_bsize c0 =? bsize); cbn [negb].
  - apply runs_ret, Hgo; [|done]. by rewrite insert_id.
  - apply runs_bind. eapply (runs_store _ _ _ _ V); [apply _|done|]. intros s1 V1 E1.
    eapply (runs_store _ _ _ _ V1); [apply _|apply lookup_insert_eq|]. intros s2 V2 E2.
    rewrite insert_insert_eq in V2. apply Hgo; [done|congruence].
Qed.

Lemma alloc_blocks_runs bsize ps s B ls H (Q : Z → state → Prop) :
  view s B ls H → mem s = [] → NoDup ps → (∀ p, p ∈ ps → is_Some (B !! p)) →
  (∀ B' s', view s' B' ls H → env s' = env s → updated (λ _, realloced bsize) ps B B' → Q 0 s') →
  runs (alloc_blocks bsize ps) s Q.
Proof.
  revert s B. induction ps as [|p ps IH]; intros s B V Hm Hnd Hin HQ; cbn [alloc_blocks].
  { apply runs_ret, (HQ B); [done|done|apply updated_nil]. }
  apply NoDup_cons in Hnd as [Hp Hnd]. destruct (Hin p) as [c Hc]; [left|].
  apply runs_bind. eapply (runs_load _ _ _ _ V); [done|]. intros c0 -> Hc0. apply runs_bind.
  assert (∀ s1, view s1 (<[p := realloced bsize (erase c0)]> B) ls H → env s1 = env s →
    runs (c ← load p; if has (ce_data c) then alloc_blocks bsize ps else mret ENOMEM) s1 Q) as Hgo.
  { intros s1 V1 E1. apply runs_bind. eapply (runs_load _ _ _ _ V1); [apply lookup_insert_eq|].
    intros c1 Ec1 _. replace (has (ce_data c1)) with true.
    2: { change (ce_data c1) with (ce_data (erase c1)). rewrite <- Ec1. unfold realloced.
         destruct (has (ce_data (erase c0))) eqn:Eh; [by rewrite Eh|done]. }
    eapply IH; [done| |done| |].
    - by rewrite (f_equal mem E1 : mem s1 = mem s).
    - intros q Hq. destruct (decide (p = q)) as [<-|]; [by rewrite lookup_insert_eq|].
      rewrite lookup_insert_ne by done. apply Hin. by right.
    - intros B' s' V' E' Hu. apply (HQ B'); [done|congruence|]. by eapply updated_cons. }
  unfold realloced in Hgo. change (ce_data (erase c0)) with (ce_data c0) in Hgo.
  destruct (has (ce_data c0)).
  - apply runs_ret, Hgo; [|done]. by rewrite insert_id.
  - apply runs_bind, runs_malloc; [done|]. apply runs_bind.
    eapply (runs_store _ _ _ _ V); [apply _|done|]. intros s1 V1 E1.
    eapply (runs_store _ _ _ _ V1); [apply _|apply lookup_insert_eq|]. intros s2 V2 E2.
    rewrite insert_insert_eq in V2. apply Hgo; [done|congruence].
Qed.

(** * Reading the blocks *)

Lemma fill_ents_runs bsize ps s B ls H bytes (Q : unit → state → Prop) :
  view s B ls H → NoDup ps → 0 < bsize → zlen bytes = zlen ps * bsize →
  (∀ p, p ∈ ps → ∃ c d, B !! p = Some c ∧ ce_data c = Some d ∧ zlen d = bsize) →
  (∀ B' s', view s' B' ls H → env s' = env s →
    updated (λ i, set_data (Some (slice (Z.of_nat i * bsize) bsize bytes))) ps B B' → Q tt s') →
  runs (fill_ents bsize ps bytes) s Q.
Proof.
  intros V Hnd Hbs. revert s B bytes V. induction ps as [|p ps IH]; intros s B bytes V Hl Hin HQ; cbn [fill_ents].
  { apply runs_ret, (HQ B); [done|done|apply updated_nil]. }
  apply NoDup_cons in Hnd as [Hp Hnd]. cbn [length] in Hl.
  destruct (Hin p) as (c & d & Hc & Hd & Hdl); [left|].
  apply runs_bind. eapply (runs_load _ _ _ _ V); [done|]. intros c0 -> Hc0. cbn in Hd. rewrite Hd.
  cbn [deref]. apply runs_bind, runs_ret, runs_bind.
  assert (length (take (Z.to_nat bsize) bytes) = length d) as Htl by (rewrite length_take; lia).
  rewrite store_bytes_Ok by lia. rewrite splice_all by done.
  eapply runs_liftO; [done|]. apply runs_bind. eapply (runs_store _ _ _ _ V); [apply _|done|]. intros s1 V1 E1.
  eapply (IH Hnd s1); [done|rewrite length_drop; lia| |].
  - intros q Hq. destruct (Hin q) as (cq & dq & Hcq & ?); [by right|]. exists cq, dq.
    rewrite lookup_insert_ne; [done|]. by intros ->.
  - intros B' s' V' E' Hu. apply (HQ B'); [done|congruence|]. eapply updated_cons; [done|done|].
    eapply updated_ext; [|exact Hu]. intros i q cq _ _. do 2 f_equal. unfold slice. rewrite drop_drop.
    do 2 f_equal. lia.
Qed.

Lemma foldr_replicate n x : foldr Z.add 0 (replicate n x) = Z.of_nat n * x.
Proof. induction n as [|n IH]; cbn [replicate foldr]; [done|]. rewrite IH. lia. Qed.

(** All claimed blocks come from the device in one transfer. *)
Lemma read_into_ents_runs s B ls H dev bnum bsize ps d (Q : Z → state → Prop) :
  view s B ls H → ready s → NoDup ps → bs dev = bsize → 0 < bsize < 2 ^ 24 → zlen ps ≤ 64 →
  disks s !! dev = Some d → 0 ≤ bnum → (bnum + zlen ps) * bsize ≤ zlen d → zlen d < 2 ^ 62 →
  (∀ p, p ∈ ps → ∃ c d, B !! p = Some c ∧ ce_data c = Some d ∧ zlen d = bsize) →
  (∀ B' s', view s' B' ls H → env_io s' = env_io s → ready s' → disks s' = disks s →
    updated (λ i, set_data (block bs (disks s) dev (bnum + Z.of_nat i))) ps B B' → Q 0 s') →
  runs (read_into_ents dev bnum ps bsize) s Q.
Proof.
  intros V R Hnd Ebs Hbs Hlen Hd Hb Hfit Hsz Hin HQ. unfold read_into_ents.
  destruct (get_iovec_run s R) as (pool & Hpl & Hp0 & Eg). apply runs_bind. eapply runs_eq; [exact Eg|].
  set (s1 := upd_iov _ _ _ _ s) in *.
  assert (view s1 B ls H) as V1.
  { destruct V as [[He Hn Hf] ? ? ? ?]. split; [split; [|done|done]|done..].
    intros w. by destruct w; [apply (He Normal)|apply (He Locked)]. }
  unfold readv_pos. rewrite foldr_replicate. unfold s64. rewrite swrap_id by nia.
  destruct (read_pos_run s1 dev (bnum * bsize) (zlen ps * bsize) d) as (k & r & ios & E & Hk & Hkd & Hr & Hall); [done|nia|nia|].
  destruct (Hall (rd_io _ R)) as (-> & -> & ->). rewrite Z.min_l in * by nia.
  apply runs_bind. eapply runs_eq; [exact E|]. cbn [fst snd].
  set (bytes := slice (bnum * bsize) (zlen ps * bsize) d).
  assert (upd_disks (disks s1) [] s1 = s1) as Eid.
  { rewrite <- (upd_disks_id s1) at 3. f_equal. symmetry. apply R. }
  rewrite Eid. apply runs_bind. eapply (fill_ents_runs bsize ps s1 B ls H bytes); [done|done|lia| |done|].
  { unfold bytes. rewrite slice_length; nia. }
  intros B' s2 V2 E2 Hu. rewrite Z.eqb_refl. cbn [negb].
  assert (release_iovec_array 0 s2 = Ok (tt, upd_iov (iov_sem s2) false pool (replicate 64 0) s2)) as Erel.
  { unfold release_iovec_array, LOCK_iov, UNLOCK_iov, mbind, M_bind, modifyS.
    rewrite (f_equal iov_held E2 : iov_held s2 = false). cbn.
    rewrite (f_equal iovec_pool E2 : iovec_pool s2 = pool), (f_equal iovec_used E2 : iovec_used s2 = _).
    rewrite bool_decide_true by done. done. }
  apply runs_bind. eapply runs_eq; [exact Erel|]. apply runs_ret.
  assert (disks s2 = disks s) as Ed2 by (exact (f_equal disks E2)).
  eapply (HQ B').
  - destruct V2 as [[He Hn Hf] ? ? ? ?]. split; [split; [|done|done]|done..].
    intros w. by destruct w; [apply (He Normal)|apply (He Locked)].
  - unfold env_io. cbn. rewrite (rd_used _ R), (rd_iov _ R).
    pose proof (f_equal (λ t, upd_iov (iov_sem t) false [] (replicate 64 0) (upd_calls [] (upd_disks ∅ (io t) t))) E2) as E2'.
    cbn in E2'. exact E2'.
  - pose proof (f_equal mem E2 : mem s2 = mem s) as Em. pose proof (f_equal io E2 : io s2 = io s) as Eio.
    destruct R. split; cbn; congruence.
  - done.
  - eapply updated_ext; [|exact Hu]. intros i p c Hi Hc. f_equal. unfold block. rewrite Hd. cbn. f_equal.
    unfold bytes. rewrite Ebs. apply lookup_lt_Some in Hi. unfold slice.
    rewrite skipn_firstn_comm, take_take, drop_drop.
    assert (0 ≤ Z.of_nat i * bsize ∧ (Z.of_nat i + 1) * bsize ≤ zlen ps * bsize ∧ 0 ≤ bnum * bsize) as (? & ? & ?).
    { clear -Hi Hbs Hb. split_and!; nia. }
    f_equal; [lia|]. f_equal. lia.
Qed.

(** * New places *)

(** A block that was read ahead is finished. *)
Definition ahead_ent (dev b : Z) (c : cache_ent) : cache_ent :=
  clear_flags CE_BUSY (set_block_num b (set_dev dev c)).

(** Entries that are on no list; a key they still have is theirs. *)
Definition unlisted B ls H (p : ptr) : Prop :=
  (∀ w, p ∉ ls w) ∧ ∃ c, B !! p = Some c ∧ (ce_dev c ≠ -1 → H !! ce_key c = Some p).

(** The table without the old keys of [ps]. *)
Definition unkeyed (ps : list ptr) B H H' : Prop :=
  ∀ k q, H' !! k = Some q ↔
    H !! k = Some q ∧ ∀ p c, p ∈ ps → B !! p = Some c → ce_dev c ≠ -1 → ce_key c ≠ k.

Lemma unkeyed_size ps B H H' : unkeyed ps B H H' → (size H' ≤ size H)%nat.
Proof.
  intros Hu. rewrite <- !size_dom. apply subseteq_size. intros k [q Hq]%elem_of_dom.
  apply Hu in Hq as [Hq _]. by eapply elem_of_dom_2.
Qed.

Lemma rehash_ents_runs ents s B ls H dev bnum curn cur (Q : unit → state → Prop) :
  view s B ls H → NoDup ents → (∀ p, p ∈ ents → unlisted B ls H p) → Z.of_nat (size H) ≤ HT_LIMIT →
  (∀ s' B' ls' H', view s' B' ls' H' → env s' = env s →
    updated (λ i c, if curn <=? cur + Z.of_nat i then ahead_ent dev (bnum + (cur + Z.of_nat i)) c else c) ents B B' →
    unkeyed ents B H H' → ls' Locked = ls Locked →
    ls' Normal = ls Normal ++ drop (Z.to_nat (curn - cur)) ents → Q tt s') →
  runs (rehash_ents dev bnum curn cur 0 ents) s Q.
Proof.
  revert s B ls H cur. induction ents as [|p ents IH]; intros s B ls H cur V Hnd Hun Hsz HQ; cbn [rehash_ents].
  { apply runs_ret, (HQ s B ls H); [done|done|apply updated_nil|intros k q; set_solver|done|].
    by rewrite drop_nil, app_nil_r. }
  apply NoDup_cons in Hnd as [Hp Hnd]. destruct (Hun p) as (Hno & c & Hc & Hkey); [left|].
  apply runs_bind. eapply (runs_load _ _ _ _ V); [done|]. intros c0 -> Hc0. cbn in Hkey.
  set (H1 := if negb (ce_dev c0 =? -1) then delete (ce_key c0) H else H).
  assert (∀ k q, H1 !! k = Some q ↔ H !! k = Some q ∧ (ce_dev c0 ≠ -1 → ce_key c0 ≠ k)) as HH1.
  { intros k q. subst H1. destruct (Z.eqb_spec (ce_dev c0) (-1)) as [Ed|Ed]; cbn [negb].
    - split; [by intros ?; split|by intros [? _]].
    - rewrite lookup_delete_Some. naive_solver. }
  apply runs_bind, (runs_mono _ _ (λ _ s1, view s1 B ls H1 ∧ env s1 = env s)).
  { subst H1. destruct (Z.eqb_spec (ce_dev c0) (-1)) as [Ed|Ed]; cbn [negb]; [by apply runs_ret|].
    apply runs_bind. eapply (runs_ht_remove _ _ _ _ V); [done|by apply Hkey|]. intros s1 V1 E1.
    rewrite bool_decide_true by done. by apply runs_ret. }
  intros _ s1 [V1 E1].
  set (f := λ (i : nat) (c : cache_ent), if curn <=? cur + Z.of_nat i then ahead_ent dev (bnum + (cur + Z.of_nat i)) c else c).
  set (B1 := <[p := f 0%nat (erase c0)]> B).
  set (ls1 := if curn <=? cur then lset Normal (ls Normal ++ [p]) ls else ls).
  apply runs_bind, (runs_mono _ _ (λ _ s2, view s2 B1 ls1 H1 ∧ env s2 = env s)).
  { subst B1 ls1 f. cbn beta. change (Z.of_nat 0) with 0. rewrite Z.add_0_r. cbn [Z.eqb andb].
    destruct (curn <=? cur); [|apply runs_ret; by rewrite insert_id].
    apply runs_bind. eapply (runs_store _ _ _ _ V1); [apply _|done|]. intros s2 V2 E2.
    apply runs_bind. eapply (runs_store _ _ _ _ V2); [apply _|apply lookup_insert_eq|]. intros s3 V3 E3.
    apply runs_bind. eapply (runs_store _ _ _ _ V3); [apply _|apply lookup_insert_eq|]. intros s4 V4 E4.
    eapply (runs_add_head _ _ _ _ V4); [apply lookup_insert_eq|done|]. intros s5 V5 E5.
    rewrite !insert_insert_eq in V5. split; [done|congruence]. }
  intros _ s2 [V2 E2].
  assert (∀ w q, q ∈ ls1 w → q ∈ ls w ∨ q = p) as Hls1.
  { intros w q. subst ls1. destruct (curn <=? cur); [|auto]. destruct w; cbn; [|auto]. clear. set_solver. }
  assert (∀ q, q ∈ ents → B1 !! q = B !! q) as HB1.
  { intros q Hq. subst B1. rewrite lookup_insert_ne; [done|]. by intros ->. }
  eapply (IH s2 B1 ls1 H1 (cur + 1)); [done|done| | |].
  - intros q Hq. destruct (Hun q) as (Hnq & cq & Hcq & Hkq); [by right|].
    assert (q ≠ p) by (by intros ->). split.
    + intros w Hin. destruct (Hls1 w q Hin); [by eapply Hnq|done].
    + exists cq. rewrite HB1 by done. split; [done|]. intros Hd. apply HH1. split; [auto|].
      intros Hd0 Ek. specialize (Hkey Hd0). specialize (Hkq Hd). rewrite <- Ek in Hkq.
      change (ce_key (erase c0)) with (ce_key c0) in Hkey. congruence.
  - enough (size H1 ≤ size H)%nat by lia. rewrite <- !size_dom. apply subseteq_size. intros k [q Hq]%elem_of_dom.
    apply HH1 in Hq as [Hq _]. by eapply elem_of_dom_2.
  - intros s' B' ls' H' V' E' Hu Hk HL HN. eapply (HQ s' B' ls' H'); [done|congruence| | | |].
    + eapply updated_cons; [done|done|]. eapply updated_ext; [|exact Hu]. intros i q cq _ _. cbn beta.
      by replace (cur + Z.of_nat (S i)) with (cur + 1 + Z.of_nat i) by lia.
    + intros k q. rewrite (Hk k q), HH1. split.
      * intros [[H0 H2] H3]. split; [done|]. intros p' c' [->|Hp']%elem_of_cons Hc' Hd'.
        -- rewrite Hc in Hc'. injection Hc' as <-. by apply H2.
        -- eapply H3; [done|by rewrite HB1|done].
      * intros [H0 H2]. split; [split; [done|]|].
        -- intros Hd. apply (H2 p (erase c0)); [left|done|done].
        -- intros p' c' Hp' Hc'. eapply H2; [by right|by rewrite <- HB1].
    + rewrite HL. subst ls1. by destruct (curn <=? cur).
    + rewrite HN. subst ls1. destruct (Z.leb_spec curn cur).
      * replace (Z.to_nat (curn - cur)) with 0%nat by lia. replace (Z.to_nat (curn - (cur + 1))) with 0%nat by lia.
        cbn [lset]. by rewrite <- (assoc_L (++)).
      * by replace (Z.to_nat (curn - cur)) with (S (Z.to_nat (curn - (cur + 1)))) by lia.
Qed.

(** Entries that were only flushed go back to the far end of the list. *)
Lemma put_back_runs ents s B ls H (Q : unit → state → Prop) :
  view s B ls H → NoDup ents →
  (∀ p, p ∈ ents → (∀ w, p ∉ ls w) ∧ ∃ c, B !! p = Some c ∧ ce_lock c = 0) →
  (∀ s' B' ls', view s' B' ls' H → env s' = env s → updated (λ _, clear_flags CE_BUSY) ents B B' →
    ls' Locked = ls Locked → ls' Normal = rev ents ++ ls Normal → Q tt s') →
  runs (put_back true ents) s Q.
Proof.
  revert s B ls. induction ents as [|p ents IH]; intros s B ls V Hnd Hin HQ; cbn [put_back].
  { apply runs_ret, (HQ s B ls); [done|done|apply updated_nil|done|done]. }
  apply NoDup_cons in Hnd as [Hp Hnd]. destruct (Hin p) as (Hno & c & Hc & Hlk); [left|].
  apply runs_bind. eapply (runs_store _ _ _ _ V); [apply _|done|]. intros s1 V1 E1.
  apply runs_bind. eapply (runs_load _ _ _ _ V1); [apply lookup_insert_eq|]. intros c0 Ec0 _.
  assert (ce_lock c0 = 0) as ->.
  { change (ce_lock (erase c0) = 0). rewrite <- Ec0. done. }
  cbn [Z.eqb negb andb]. apply runs_bind.
  eapply (runs_add_tail _ _ _ _ V1); [apply lookup_insert_eq|done|]. intros s2 V2 E2.
  eapply (IH s2); [done|done| |].
  - intros q Hq. destruct (Hin q) as (Hnq & cq & Hcq & Hlq); [by right|]. assert (q ≠ p) by (by intros ->). split.
    + intros [|]; cbn; [|apply Hnq]. intros [->|Hx]%elem_of_cons; [done|]. by eapply Hnq.
    + exists cq. by rewrite lookup_insert_ne.
  - intros s' B' ls' V' E' Hu HL HN. eapply (HQ s' B' ls'); [done|congruence|by eapply updated_cons|done|].
    rewrite HN. cbn. by rewrite <- (assoc_L (++)).
Qed.

(** * The requested blocks *)

(** The caller's side of a request for several blocks. *)
Definition serve_all (op bsize : Z) (l : list (ptr * list Z)) (u : user) : user :=
  foldl (λ u x, serve op bsize x.1 x.2 u) u l.

(** What block [i] of a request holds afterwards. *)
Definition new_at (op bsize : Z) (u : user) (i : Z) (blk : list Z) : list Z :=
  new_block op bsize (advance (i * bsize) u) blk.

(** A finished entry. *)
Definition blank_ent (dev b bsize : Z) (c : cache_ent) : cache_ent :=
  mkCe dev b bsize CE_NORMAL (ce_data c) None 0 None (ce_logged_bnum c) 0 (ce_next c) (ce_prev c).

#[export] Instance payload_blank dev b bsize : Payload (blank_ent dev b bsize). Proof. by split. Qed.

Definition finished (dev b bsize op : Z) (new : list Z) (c : cache_ent) : cache_ent :=
  served_ent op new (blank_ent dev b bsize c).

Lemma req_ok_serve op bsize u n p blk :
  req_ok op u bsize n → 0 < bsize → 1 ≤ n → zlen blk = bsize →
  req_ok op (serve op bsize p blk u) bsize (n - 1) ∧ want_ptr (serve op bsize p blk u) = want_ptr u.
Proof.
  intros [Ho Hw Hb] Hbs Hn Hl. split; [split|].
  - done.
  - intros Hr Hwr. destruct (Hw Hr Hwr) as [buf Eb]. unfold serve. rewrite Eb. by eexists.
  - unfold serve. intros buf. destruct (u_buf u) as [buf0|] eqn:Eb; cbn; [|done]. intros [= <-].
    destruct (Hb buf0 eq_refl).
    assert (zlen (if op_has op CACHE_READ then splice (u_off u) blk buf0
      else if op_has op CACHE_WRITE then buf0 else splice (u_off u) (zeroes bsize) buf0) = zlen buf0) as ->; [|nia].
    destruct (op_has op CACHE_READ); [|destruct (op_has op CACHE_WRITE)]; [|done|].
    + rewrite splice_length; nia.
    + rewrite splice_length; rewrite ?zeroes_length; nia.
  - unfold want_ptr, serve. by destruct (u_buf u).
Qed.

Lemma new_at_serve op bsize u p blk i b :
  new_at op bsize (serve op bsize p blk u) i b = new_at op bsize u (1 + i) b.
Proof.
  unfold new_at, new_block. destruct (op_has op CACHE_READ) eqn:Er; [done|]. destruct (op_has op CACHE_WRITE) eqn:Ew; [|done].
  unfold serve. rewrite Er, Ew. destruct (u_buf u) as [buf|] eqn:Eb; cbn; rewrite ?Eb; cbn; f_equal; lia.
Qed.

(** Contents and the caller's buffer. *)
Lemma finish_data_runs s B ls H p c op bsize u blk n (Q : user → state → Prop) :
  view s B ls H → B !! p = Some c → ce_data c = Some blk → zlen blk = bsize → 0 < bsize →
  req_ok op u bsize n → 1 ≤ n →
  (∀ s' u', view s' (<[p := hit_ent op (new_block op bsize u blk) c]> B) ls H → env s' = env s →
    u_buf u' = u_buf (serve op bsize p blk u) →
    advance bsize (set_ptr (want_ptr u) p u') = serve op bsize p blk u → Q u' s') →
  runs (finish_data bsize op p blk u) s Q.
Proof.
  intros V Hp Hd Hl Hbs [Ho Hw Hb] Hn HQ. unfold finish_data, hit_ent, new_block, serve, want_ptr in *.
  destruct (op_has op CACHE_READ) eqn:Er.
  { rewrite insert_id in HQ by done. destruct (u_buf u) as [buf|] eqn:Eb.
    - destruct (Hb buf eq_refl). unfold copy_out. rewrite load_bytes_Ok by lia. cbn.
      rewrite slice_0, take_ge by lia. rewrite store_bytes_Ok by nia. cbn.
      eapply runs_liftO; [done|]. by apply HQ.
    - apply runs_ret, HQ; [done|done|done|]. cbn. by rewrite Eb. }
  destruct (op_has op CACHE_WRITE) eqn:Ew.
  { destruct (Hw eq_refl eq_refl) as [buf Eb]. rewrite Eb in *. destruct (Hb buf eq_refl).
    apply runs_bind. eapply (runs_store _ _ _ _ V); [apply _|done|]. intros s1 V1 E1.
    cbn [deref]. apply runs_bind, runs_ret, runs_bind. unfold copy_in. rewrite load_bytes_Ok by nia. cbn.
    rewrite store_bytes_Ok by (rewrite ?slice_length; nia). rewrite splice_all.
    2: { apply Nat2Z.inj. rewrite slice_length; nia. }
    eapply runs_liftO; [done|]. apply runs_bind.
    eapply (runs_store _ _ _ _ V1); [apply _|apply lookup_insert_eq|]. intros s2 V2 E2.
    rewrite insert_insert_eq in V2. apply runs_ret, HQ; [done|congruence|done|]. destruct u. cbn in *. by subst. }
  destruct (op_has op CACHE_NOOP) eqn:En; [|done].
  apply runs_bind. rewrite store_bytes_Ok by (rewrite ?zeroes_length; lia). rewrite splice_all.
  2: { apply Nat2Z.inj. rewrite zeroes_length; lia. }
  eapply runs_liftO; [done|]. apply runs_bind.
  eapply (runs_store _ _ _ _ V); [apply _|done|]. intros s1 V1 E1. apply runs_bind.
  set (u' := match u_buf u with
     | None => u | Some buf => mkUser (Some (splice (u_off u) (zeroes bsize) buf)) (u_off u) (u_ptr u) end).
  assert (zero_user bsize u = Ok u') as Eu.
  { subst u'. unfold zero_user. destruct (u_buf u) as [buf|] eqn:Eb; [|done].
    destruct (Hb buf eq_refl). rewrite store_bytes_Ok by (rewrite ?zeroes_length; nia). done. }
  eapply runs_liftO; [done|]. apply runs_bind.
  eapply (runs_store _ _ _ _ V1); [apply _|apply lookup_insert_eq|]. intros s2 V2 E2.
  rewrite insert_insert_eq in V2. apply runs_ret, HQ; [done|congruence|..]; subst u';
    destruct (u_buf u) eqn:Eb; cbn; rewrite ?Eb; done.
Qed.

(** An entry on no list has no links. *)
Lemma view_unlinked s B ls H p c :
  view s B ls H → (∀ w, p ∉ ls w) → heap s !! p = Some c → ce_next c = None ∧ ce_prev c = None.
Proof. intros V Hno Hc. apply (lr_free _ _ (vw_lists _ _ _ _ V) p); [done|apply Hno|apply Hno]. Qed.

Lemma runs_blank s B ls H p b dev bnum bsize (Q : unit → state → Prop) :
  view s B ls H → (∀ w, p ∉ ls w) → B !! p = Some b →
  (∀ s', view s' (<[p := blank_ent dev bnum bsize b]> B) ls H → env s' = env s → Q tt s') →
  runs (store p (λ c, mkCe dev bnum bsize CE_NORMAL (ce_data c) None 0 None (ce_logged_bnum c) 0 None None)) s Q.
Proof.
  intros V Hno Hb HQ. destruct (view_load _ _ _ _ V p b Hb) as (c & Hc & ->).
  destruct (view_unlinked _ _ _ _ _ _ V Hno Hc) as [En Ep].
  assert (∀ f g, f c = g c → store p f s = store p g s) as Hext.
  { intros f g E. unfold store. rewrite Hc. do 3 f_equal. apply alter_ext. intros c' Hc'. congruence. }
  destruct (runs_store _ _ _ _ V p _ (blank_ent dev bnum bsize) Q Hb HQ) as (a & s' & E & HQ').
  exists a, s'. split; [|done]. rewrite <- E. apply Hext. unfold blank_ent. by rewrite En, Ep.
Qed.

Definition end_list (op : Z) : which := if op_has op CACHE_LOCKED then Locked else Normal.

Lemma finish_ents_runs ps blks s B ls H dev bnum bsize op curn n u (Q : user → state → Prop) :
  view s B ls H → NoDup ps → 0 < bsize → req_ok op u bsize n → zlen ps ≤ n → length blks = length ps →
  (want_ptr u = true → curn = 1) →
  (∀ i p blk, ps !! i = Some p → blks !! i = Some blk →
    (∀ w, p ∉ ls w) ∧ ∃ c, B !! p = Some c ∧ ce_data c = Some blk ∧ zlen blk = bsize) →
  (∀ s' B' ls', view s' B' ls' H → env s' = env s →
    updated (λ i c, finished dev (bnum + Z.of_nat i) bsize op
      (new_at op bsize u (Z.of_nat i) (default [] (blks !! i))) c) ps B B' →
    (∀ w, ls' w = lset (end_list op) (ls (end_list op) ++ ps) ls w) → Q (serve_all op bsize (zip ps blks) u) s') →
  runs (finish_ents dev bnum bsize op curn (want_ptr u) ps u) s Q.
Proof.
  revert blks s B ls bnum n u. induction ps as [|p ps IH];
    intros blks s B ls bnum n u V Hnd Hbs Hrq Hn Hlen Hone Hin HQ; cbn [finish_ents].
  { destruct blks; [|done]. apply runs_ret, (HQ s B ls); [done|done|apply updated_nil|].
    intros w. rewrite app_nil_r. by destruct (end_list op), w. }
  destruct blks as [|blk blks]; [done|]. apply NoDup_cons in Hnd as [Hp Hnd]. cbn [length] in Hn, Hlen.
  destruct (Hin 0%nat p blk eq_refl eq_refl) as (Hno & c & Hc & Hd & Hl).
  apply runs_bind. eapply (runs_load _ _ _ _ V); [done|]. intros c0 -> Hc0.
  destruct (view_unlinked _ _ _ _ _ _ V Hno Hc0) as [En Ep]. cbn in Hd. rewrite En, Ep, Hd.
  change (has (@None ptr)) with false. change (has (Some blk)) with true. cbn [orb negb]. rewrite !andb_false_r.
  apply runs_bind. eapply runs_blank; [done|done|done|]. intros s1 V1 E1.
  cbn [deref]. apply runs_bind, runs_ret, runs_bind.
  eapply (finish_data_runs s1 _ _ _ _ _ _ _ _ _ n _ V1); [apply lookup_insert_eq|done|done|done|done|lia|].
  intros s2 u' V2 E2 Hub Hu'. rewrite insert_insert_eq in V2.
  set (new := new_block op bsize u blk) in *. set (c1 := blank_ent dev bnum bsize (erase c0)) in *.
  apply runs_bind, (runs_mono _ _ (λ _ s3, view s3 (<[p := served_ent op new c1]> B) ls H ∧ env s3 = env s)).
  { unfold served_ent. destruct (op_has op CACHE_LOCKED); [|apply runs_ret; split; [done|congruence]].
    eapply (runs_store _ _ _ _ V2 _ _ (λ c, set_lock (ce_lock c + 1) c));
      [apply (payload_lock (λ l, l + 1))|apply lookup_insert_eq|]. intros s3 V3 E3.
    rewrite insert_insert_eq in V3. split; [done|congruence]. }
  intros _ s3 [V3 E3]. apply runs_bind.
  eapply (runs_add_head _ _ _ _ V3 (end_list op)); [apply lookup_insert_eq|done|]. intros s4 V4 E4.
  assert (negb (has (u_buf u')) && negb (curn =? 1) = false) as ->.
  { rewrite Hub. destruct (req_ok_serve op bsize u n p blk Hrq) as [_ Hw]; [done|lia|done|].
    unfold want_ptr in Hw. rewrite Hw. fold (want_ptr u). destruct (want_ptr u); [|done].
    by rewrite Hone. }
  rewrite Hu'. destruct (req_ok_serve op bsize u n p blk Hrq) as [Hrq' Hw']; [done|lia|done|]. rewrite <- Hw'.
  eapply (IH blks s4); [exact V4|done|done|exact Hrq'|lia|lia| | |].
  - by rewrite Hw'.
  - intros i q bq Hq Hbq. destruct (Hin (S i) q bq Hq Hbq) as (Hnq & cq & Hcq & ?).
    assert (q ≠ p) as Hqp. { intros ->. by eapply Hp, list_elem_of_lookup_2. } split.
    + intros w. destruct (decide (end_list op = w)) as [<-|]; [|rewrite lset_ne by done; apply Hnq].
      rewrite lset_eq. specialize (Hnq (end_list op)). clear -Hnq Hqp. set_solver.
    + exists cq. by rewrite lookup_insert_ne.
  - intros s' B' ls' V' E' Hu Hls. eapply (HQ s' B' ls'); [done|congruence| |].
    + eapply updated_cons; [done|done|]. change (default [] ((blk :: blks) !! 0%nat)) with blk.
      replace (finished dev (bnum + Z.of_nat 0) bsize op (new_at op bsize u (Z.of_nat 0) blk) (erase c0))
        with (served_ent op new c1).
      2: { unfold finished, new_at, c1, new. rewrite Z.add_0_r. do 2 f_equal. unfold advance. destruct u. cbn. f_equal. lia. }
      eapply updated_ext; [|exact Hu]. intros i q cq _ _. cbn beta. rewrite new_at_serve.
      replace (bnum + 1 + Z.of_nat i) with (bnum + Z.of_nat (S i)) by lia.
      by replace (1 + Z.of_nat i) with (Z.of_nat (S i)) by lia.
    + intros w. rewrite Hls. destruct (decide (end_list op = w)) as [<-|].
      * rewrite !lset_eq. by rewrite <- (assoc_L (++)).
      * by rewrite !lset_ne.
Qed.
End Fill.
