(* ===== verification/CacheStage.v ===== *)
(** A cache miss from the search for entries to the point where the new blocks
    are in memory and only the bookkeeping is left. *)

From S2P Require Import Prelude Errors Sort CacheHash CacheState CacheIo CacheFlush BlockCache CacheInv.
From S2P Require Import CacheServe CacheMiss CacheFill.

Section Stage.
Context (bs : Z → Z).
Implicit Types (B : gmap ptr cache_ent) (ls : which → list ptr) (H : gmap (Z * Z) ptr).

(** * Claiming entries *)

Lemma inv_hsize s B ls H : inv bs s B ls H → (size H ≤ size B)%nat.
Proof.
  intros Hi. rewrite <- (size_dom H), <- (size_dom B).
  transitivity (length (ce_key <$> (map_to_list B).*2)); [|by rewrite !length_fmap, length_map_to_list, size_dom].
  unfold size, set_size. cbn. apply submseteq_length, NoDup_submseteq; [apply NoDup_elements|].
  intros k [p Hp]%elem_of_elements%elem_of_dom. apply (iv_hash _ _ _ _ _ Hi) in Hp as (c & Hc & <-).
  apply list_elem_of_fmap. exists c. split; [done|]. apply list_elem_of_fmap. exists (p, c). split; [done|]. by apply elem_of_map_to_list.
Qed.

(** The entries for [num] blocks from [bnum] on are found and claimed. *)
Record claimed (s : state) B ls H (dev bnum bsize num : Z) (ents : list ptr) (n : Z) (s1 : state) B1 ls1 : Prop := {
  cl_view : view s1 B1 ls1 (claim_map dev bnum (take (Z.to_nat num) ents) H);
  cl_env : env_alloc s1 = env_alloc s;
  cl_nodup : NoDup ents;
  cl_len : num ≤ zlen ents ≤ 64;
  cl_locked : ls1 Locked = ls Locked;
  cl_normal p : p ∈ ls1 Normal ↔ p ∈ ls Normal ∧ p ∉ ents;
  cl_ent p : p ∈ ents →
    (∃ c, B !! p = Some c ∧ ce_lock c = 0 ∧ B1 !! p = Some (or_flags CE_BUSY c)) ∨
    (B !! p = None ∧ B1 !! p = Some (or_flags CE_BUSY (fresh_ent bsize)));
  cl_new i p : ents !! i = Some p → B !! p = None → Z.of_nat i < num;
  cl_other p : (p ∉ ents) → B1 !! p = B !! p;
  cl_size : cur_blocks s1 = Z.of_nat (size B1) ∧ cur_blocks s1 ≤ max_blocks s;
  cl_next p : (next_ptr s1 ≤ p)%positive → B1 !! p = None;
  cl_dirty p c : n = 0 → p ∈ ents → B !! p = Some c → is_dirty c = false ∧ ce_clone c = None
}.

(** Entries without a block come first and are at most [num]. *)
Lemma new_first (ents new rest : list ptr) (isnew : ptr → Prop) num :
  ents ≡ₚ new ++ rest → NoDup ents → zlen new ≤ num → (∀ p, p ∈ rest → ¬ isnew p) →
  (∀ i j p q, (i < j)%nat → ents !! i = Some p → ents !! j = Some q → isnew q → isnew p) →
  ∀ i p, ents !! i = Some p → isnew p → Z.of_nat i < num.
Proof.
  intros Hp Hnd Hlen Hrest Hfirst i p Hi Hn.
  assert (take (S i) ents ⊆+ new) as Hsub.
  { apply NoDup_submseteq; [by apply NoDup_take|]. intros q Hq. apply list_elem_of_lookup in Hq as [j Hj].
    apply lookup_take_Some in Hj as [Hj Hlt].
    assert (isnew q) as Hnq.
    { destruct (decide (j = i)) as [->|]; [by simplify_eq|]. apply (Hfirst j i q p); [lia|done|done|done]. }
    assert (q ∈ new ++ rest) as [?|?]%elem_of_app; [|done|by destruct (Hrest q)].
    rewrite <- Hp. by eapply list_elem_of_lookup_2. }
  apply submseteq_length in Hsub. rewrite length_take in Hsub. apply lookup_lt_Some in Hi. lia.
Qed.

Lemma claim_runs s B ls H dev bnum bsize num {A} (K : list ptr → Z → C A) (Q : A → state → Prop) :
  inv bs s B ls H → 1 ≤ num ≤ 64 → zlen (ls Locked) + num ≤ max_blocks s →
  (∀ i, 0 ≤ i < num → H !! (dev, bnum + i) = None) →
  (∀ ents n s1 B1 ls1, claimed s B ls H dev bnum bsize num ents n s1 B1 ls1 → 0 ≤ n → runs (K ents n) s1 Q) →
  runs (ents ← get_ents num NUM_FLUSH_BLOCKS bsize;
        if zlen ents <? num then beos_panic
        else ents ← sort_ents ents; n ← claim_ents dev bnum num 0 ents; K ents n) s Q.
Proof.
  intros Hi Hnum Hroom Hmiss HK. pose proof (inv_hsize _ _ _ _ Hi) as Hhs.
  pose proof (iv_size _ _ _ _ _ Hi) as [Hcur Hmax].
  apply runs_bind. eapply get_ents_runs; [done|done|done|].
  intros new k B1 B2 s2 V2 E2 Ecur Hcap Hnext (Hnd & Hin & Hout & Hsz) Hbz Hk Hlen Hle.
  pose proof (size_busied _ _ _ Hbz) as Hsz2.
  set (old := take k (ls Normal)) in *.
  assert (zlen old = Z.of_nat k) as Hold by (subst old; rewrite length_take; lia).
  assert (∀ p, p ∈ old → p ∈ ls Normal) as Hsub by (intros p; apply elem_of_take_1).
  assert (∀ p, p ∈ old → ∃ c, B !! p = Some c ∧ ce_dev c ≠ -1 ∧ ce_lock c = 0 ∧ (p ∉ new) ∧
    B2 !! p = Some (or_flags CE_BUSY c)) as Hent.
  { intros p Hp. destruct (inv_idle _ _ _ _ _ Hi p (Hsub p Hp)) as (c & Hc & Hlk & _). exists c.
    assert (p ∉ new) as Hpn by (intros Hpn; destruct (Hin p Hpn); congruence). split_and!; [done| |done|done|].
    - by eapply ent_wf_old, (ei_wf _ _ _ _ _ (iv_ent _ _ _ _ _ Hi p c Hc)).
    - rewrite (proj1 Hbz p Hp), Hout, Hc by done. done. }
  assert (∀ p, p ∈ new → B !! p = None ∧ B2 !! p = Some (fresh_ent bsize) ∧ (p ∉ old) ∧ ∀ w, p ∉ ls w) as Hnew.
  { intros p Hp. destruct (Hin p Hp) as [Hn Hc]. assert (p ∉ old) as Hpo by (intros (? & ? & ?)%Hent; congruence).
    split_and!; [done| |done|].
    - by rewrite (proj2 Hbz p Hpo).
    - intros w Hw. destruct (iv_dom _ _ _ _ _ Hi w p Hw). congruence. }
  assert (NoDup (new ++ old)) as Hnd2.
  { apply NoDup_app. split_and!; [done|intros p Hp; by apply Hnew|].
    apply NoDup_take, (view_nodup _ _ _ _ V2). }
  destruct (Z.ltb_spec (zlen (new ++ old)) num) as [Hbad|_]; [rewrite length_app in Hbad; lia|].
  apply runs_bind. eapply (sort_ents_runs s2 B2 ls H); [done| | |].
  { intros p [Hp|Hp]%elem_of_app; [destruct (Hnew p Hp) as (_ & -> & _)|destruct (Hent p Hp) as (? & _ & _ & _ & _ & ->)]; done. }
  { intros p c Hc. destruct (decide (p ∈ new)) as [Hp|Hp].
    - destruct (Hnew p Hp) as (_ & Hc' & _). left. by simplify_eq.
    - assert (∃ c0, B !! p = Some c0 ∧ ce_key c = ce_key c0) as (c0 & Hc0 & Ek).
      { destruct (decide (p ∈ old)) as [Ho|Ho].
        - destruct (Hent p Ho) as (c0 & ? & _ & _ & _ & Hc'). exists c0. by simplify_eq.
        - exists c. by rewrite (proj2 Hbz p Ho), Hout in Hc. }
      destruct (iv_ent _ _ _ _ _ Hi p c0 Hc0) as [[_ (? & _ & ? & _) ? _ _] _ _ _ _].
      injection Ek as E1' E2'. right. rewrite E1', E2'. lia. }
  intros ents Hperm Hfirst.
  assert (NoDup ents) as Hnde by (by rewrite Hperm).
  assert (∀ p, p ∈ ents ↔ p ∈ new ∨ p ∈ old) as Hmem by (intros p; rewrite Hperm; apply elem_of_app).
  assert (zlen ents = zlen new + Z.of_nat k) as Hlene by (rewrite Hperm, length_app; lia).
  apply runs_bind. eapply (claim_ents_runs bs ents s2 B2 ls H); [done| |done| |lia|apply Hmiss| |].
  - rewrite (f_equal mem E2 : mem s2 = mem s). apply (iv_ready _ _ _ _ _ Hi).
  - intros p [Hp|Hp]%Hmem.
    + destruct (Hnew p Hp) as (_ & Hc & _ & Hno). eexists. split_and!; [done|done|]. by left.
    + destruct (Hent p Hp) as (c & _ & Hd & Hlk & _ & Hc). eexists. split_and!; [done|done|]. right. split; [done|auto].
  - unfold HT_LIMIT. lia.
  - intros n s3 B3 ls3 V3 E3 Hb3 HL HN Hn Hz. rewrite Z.add_0_r, Z.sub_0_r in V3.
    apply (HK ents n s3 B3 ls3); [|done]. split; try done.
    + by rewrite (env_env_alloc _ _ E3).
    + lia.
    + intros p Hp. rewrite (proj1 Hb3 p Hp). apply Hmem in Hp as [Hp|Hp].
      * destruct (Hnew p Hp) as (? & -> & _). by right.
      * destruct (Hent p Hp) as (c & ? & _ & ? & _ & ->). left. exists c. split_and!; [done..|]. cbn. f_equal.
        apply or_busy_id, busy_or_busy.
    + intros i p Hip Hnone. eapply (new_first ents new old (λ p, B !! p = None)); [done|done|lia| | |done|done].
      * intros q (c & Hc & _)%Hent. congruence.
      * intros i' j p' q Hij Hi' Hj Hq. assert (p' ∈ new ∨ p' ∈ old) as [Hp'|Hp'] by (by apply Hmem, (list_elem_of_lookup_2 _ i')).
        { by apply Hnew. }
        destruct (Hent p' Hp') as (c' & Hc' & Hd' & _ & _ & Hc2'). exfalso.
        assert (q ∈ new) as Hqn.
        { assert (q ∈ new ∨ q ∈ old) as [?|(? & ? & _)%Hent] by (by apply Hmem, (list_elem_of_lookup_2 _ j)); [done|congruence]. }
        destruct (Hnew q Hqn) as (_ & Hcq & _). apply Hd'.
        apply (Hfirst i' j p' q _ _ Hij Hi' Hj Hc2' Hcq). done.
    + intros p Hp. rewrite (proj2 Hb3 p Hp). assert (¬ (p ∈ new ∨ p ∈ old)) as Hno by (by rewrite <- Hmem).
      rewrite (proj2 Hbz p), Hout; tauto.
    + rewrite (f_equal cur_blocks E3 : cur_blocks s3 = cur_blocks s2), (size_busied _ _ _ Hb3). lia.
    + rewrite (f_equal next_ptr E3 : next_ptr s3 = next_ptr s2). intros p Hp.
      destruct (decide (p ∈ ents)); [rewrite (proj1 Hb3) by done|rewrite (proj2 Hb3) by done]; by rewrite Hnext.
    + intros p c Hn0 Hp Hc. apply Hmem in Hp as Hp'. destruct Hp' as [Hp'|Hp']; [destruct (Hnew p Hp'); congruence|].
      destruct (Hent p Hp') as (c' & Hc' & Hd & _ & _ & Hc2). assert (c' = c) as -> by congruence.
      destruct (Hz Hn0 p _ Hp Hc2 Hd) as [Hdd Hcl]. by rewrite dirty_or_busy in Hdd.
Qed.

(** * Bringing the old blocks to the disk *)

Lemma needs_0 c : needs c = 0%nat → ce_lock c = 0 → is_dirty c = false ∧ ce_clone c = None.
Proof.
  intros Hn Hl. split; [|by apply needs_clone]. unfold needs in Hn. rewrite Hl in Hn. cbn in Hn.
  destruct (is_dirty c); [cbn in Hn; lia|done].
Qed.

Lemma cleaned_refl ents B D :
  (∀ p c, p ∈ ents → B !! p = Some c → ce_lock c = 0 ∧ needs c = 0%nat ∧ ent_ok bs D c) → cleaned bs ents B B D D.
Proof.
  intros Hall. split; [done| |done|done]. intros p c Hp Hc. exists c. destruct (Hall p c Hp Hc) as (? & ? & ?).
  split_and!; [done..|]. by intros.
Qed.

Lemma ent_wf_busy D c : ent_wf bs D c → ent_wf bs D (or_flags CE_BUSY c).
Proof. intros [? ? ? ? ?]. by split. Qed.

Lemma coherent_flags D c c' :
  core c = core c' → is_dirty c' = is_dirty c → ce_clone c' = ce_clone c → coherent bs D c → coherent bs D c'.
Proof.
  intros Ec Ed Ecl Hc Hd. specialize (Hc ltac:(congruence)). rewrite Ecl.
  pose proof (f_equal ce_data Ec : ce_data c = ce_data c') as <-.
  pose proof (f_equal ce_dev Ec : ce_dev c = ce_dev c') as <-.
  pose proof (f_equal ce_block_num Ec : ce_block_num c = ce_block_num c') as <-. done.
Qed.

Lemma coherent_busy D c : coherent bs D c → coherent bs D (or_flags CE_BUSY c).
Proof. intros Hc Hd. rewrite dirty_or_busy in Hd. exact (Hc Hd). Qed.

(** A new block: the entry is this operation's, and nothing is left of the old
    block but its number. *)
Record filled (bsize : Z) (c : cache_ent) (blk : list Z) : Prop := {
  fd_lock : ce_lock c = 0;
  fd_dirty : is_dirty c = false;
  fd_clone : ce_clone c = None;
  fd_bsize : ce_bsize c = bsize;
  fd_data : ce_data c = Some blk;
  fd_len : zlen blk = bsize
}.

Lemma realloc_filled D bsize c :
  0 < bsize → needs c = 0%nat → ce_lock c = 0 → (ent_wf bs D c ∨ ce_bsize c = 0) →
  (∃ blk, filled bsize (realloced bsize (freed bsize c)) blk) ∧ ce_key (realloced bsize (freed bsize c)) = ce_key c.
Proof.
  intros Hbs Hn Hlk Hwf. destruct (needs_0 c Hn Hlk) as [Hd Hc]. unfold freed, realloced.
  assert (zlen (uninit bsize) = bsize) as Hu by (unfold uninit; rewrite length_replicate; lia).
  destruct (Z.eqb_spec (ce_bsize c) bsize) as [E|E].
  - destruct Hwf as [Hwf|?]; [|lia]. destruct (ew_data _ _ _ Hwf) as (dt & Hdt & Hl). rewrite Hdt.
    change (has (Some dt)) with true. cbn [negb]. split; [|done]. exists dt. split; try done.
    rewrite <- E, (ew_bsize _ _ _ Hwf). done.
  - change (has (ce_data (set_clone None (set_data None c)))) with false. cbn. split; [|done].
    exists (uninit bsize). by split.
Qed.

Definition limits (s s' : state) : Prop :=
  max_blocks s' = max_blocks s ∧ max_device_blocks s' = max_device_blocks s.

(** The new blocks [mine] are in memory, those of [extra] were only written. *)
Record staged (s : state) B ls H (dev bnum bsize op : Z) (mine extra : list ptr) (s4 : state) B4 ls4 H4 : Prop := {
  st_view : view s4 B4 ls4 H4;
  st_ready : ready s4;
  st_limits : limits s s4;
  st_nodup : NoDup (mine ++ extra);
  st_hash k q : H4 !! k = Some q ↔
    (∃ i : nat, mine !! i = Some q ∧ k = (dev, bnum + Z.of_nat i)) ∨ H !! k = Some q;
  st_hsize : Z.of_nat (size H4) ≤ HT_LIMIT;
  st_locked : ls4 Locked = ls Locked;
  st_normal p : p ∈ ls4 Normal ↔ p ∈ ls Normal ∧ p ∉ mine ++ extra;
  st_unlocked p c : p ∈ mine ++ extra → B !! p = Some c → ce_lock c = 0;
  st_mine i p : mine !! i = Some p → ∃ c blk, B4 !! p = Some c ∧ filled bsize c blk ∧
    (op_has op CACHE_READ = true → block bs (disks s4) dev (bnum + Z.of_nat i) = Some blk) ∧
    (B !! p = None ∧ ce_dev c = -1 ∨ ∃ c0, B !! p = Some c0 ∧ ce_key c = ce_key c0);
  st_extra p : p ∈ extra → ∃ c0 c, B !! p = Some c0 ∧ B4 !! p = Some c ∧
    core (or_flags CE_BUSY c0) = core c ∧ ent_wf bs (disks s4) c ∧ coherent bs (disks s4) c;
  st_other p : (p ∉ mine ++ extra) → B4 !! p = B !! p;
  st_size : cur_blocks s4 = Z.of_nat (size B4) ∧ cur_blocks s4 ≤ max_blocks s;
  st_next p : (next_ptr s4 ≤ p)%positive → B4 !! p = None;
  st_length d : length <$> disks s4 !! d = length <$> disks s !! d;
  st_block d b : 0 ≤ b → (∀ p c, p ∈ mine ++ extra → B !! p = Some c → ce_key c ≠ (d, b)) →
    block bs (disks s4) d b = block bs (disks s) d b;
  st_evicted p c : p ∈ mine ++ extra → B !! p = Some c →
    block bs (disks s4) (ce_dev c) (ce_block_num c) = ce_data c
}.

Section Clean.
Context (s : state) B ls H (dev bnum bsize num : Z) (ents : list ptr) (n : Z) (s1 : state) B1 ls1.
Hypothesis Hi : inv bs s B ls H.
Hypothesis Hcl : claimed s B ls H dev bnum bsize num ents n s1 B1 ls1.

Lemma claimed_ready : ready s1 ∧ disks s1 = disks s.
Proof using Hi Hcl.
  pose proof (cl_env _ _ _ _ _ _ _ _ _ _ _ _ _ Hcl) as E. destruct (iv_ready _ _ _ _ _ Hi).
  split; [|exact (f_equal disks E)].
  pose proof (f_equal mem E : mem s1 = mem s). pose proof (f_equal io E : io s1 = io s).
  pose proof (f_equal iov_held E : iov_held s1 = iov_held s).
  pose proof (f_equal iovec_pool E : iovec_pool s1 = iovec_pool s).
  pose proof (f_equal iovec_used E : iovec_used s1 = iovec_used s). split; congruence.
Qed.

Lemma claimed_cases p c : p ∈ ents → B1 !! p = Some c →
  (∃ c0, B !! p = Some c0 ∧ ce_lock c0 = 0 ∧ c = or_flags CE_BUSY c0) ∨
  (B !! p = None ∧ c = or_flags CE_BUSY (fresh_ent bsize)).
Proof using Hcl.
  intros Hp Hc. destruct (cl_ent _ _ _ _ _ _ _ _ _ _ _ _ _ Hcl p Hp) as [(c0 & Hc0 & Hlk & Hc1)|[Hn Hc1]];
    rewrite Hc1 in Hc; injection Hc as <-; eauto.
Qed.

Lemma claimed_ok p c :
  p ∈ ents → B1 !! p = Some c → ce_lock c = 0 ∧ is_busy c = true ∧ ent_ok bs (disks s) c.
Proof using Hi Hcl.
  intros Hp Hc. destruct (claimed_cases p c Hp Hc) as [(c0 & Hc0 & Hlk & ->)|[_ ->]]; (split; [done|]).
  - rewrite busy_or_busy. split; [done|]. left.
    destruct (iv_ent _ _ _ _ _ Hi p c0 Hc0). split; [by apply ent_wf_busy|by apply coherent_busy].
  - split; [done|]. right. done.
Qed.

Lemma clean_runs s2 (Q : Z → state → Prop) :
  view s2 B1 ls1 (claim_map dev bnum (take (Z.to_nat num) ents) H) → ready s2 → disks s2 = disks s → 0 ≤ n →
  (∀ s3 B3, view s3 B3 ls1 (claim_map dev bnum (take (Z.to_nat num) ents) H) → env_io s3 = env_io s2 → ready s3 →
    cleaned bs ents B1 B3 (disks s) (disks s3) → Q 0 s3) →
  runs (if negb (n =? 0) then flush_ents ents else mret 0) s2 Q.
Proof using Hi Hcl.
  intros V2 R2 E2 Hn HQ. destruct (Z.eqb_spec n 0) as [Hn0|Hne]; cbn [negb].
  - apply runs_ret, (HQ s2 B1); [done|done|done|]. rewrite E2. apply cleaned_refl.
    intros p c Hp Hc. destruct (claimed_ok p c Hp Hc) as (Hlk & _ & Hok). split_and!; [done| |done].
    assert (is_dirty c = false ∧ ce_clone c = None) as [Hd Hc'].
    { destruct (claimed_cases p c Hp Hc) as [(c0 & Hc0 & _ & ->)|[_ ->]]; [|done].
      rewrite dirty_or_busy. exact (cl_dirty _ _ _ _ _ _ _ _ _ _ _ _ _ Hcl p c0 Hn0 Hp Hc0). }
    unfold needs. rewrite Hd, Hc'. done.
  - eapply (flush_ents_runs bs s2 B1); [done|done|apply Hcl| | |].
    + intros p Hp. destruct (cl_ent _ _ _ _ _ _ _ _ _ _ _ _ _ Hcl p Hp) as [(c0 & _ & _ & Hc1)|[_ Hc1]];
        eexists; (split; [done|]); rewrite E2; by eapply claimed_ok.
    + intros p q c d Hp Hq Hc Hd Hdev Hk.
      assert (∀ p c, p ∈ ents → B1 !! p = Some c → ce_dev c ≠ -1 → H !! ce_key c = Some p) as Hin.
      { clear p q c d Hp Hq Hc Hd Hdev Hk. intros p c Hp Hc Hdev. apply (iv_hash _ _ _ _ _ Hi).
        destruct (claimed_cases p c Hp Hc) as [(c0 & Hc0 & _ & ->)|[_ ->]]; [eauto|by destruct Hdev]. }
      pose proof (Hin p c Hp Hc Hdev) as H1. pose proof (Hin q d Hq Hd) as H2.
      injection Hk as Ek1 Ek2. unfold ce_key in *. rewrite Ek1, Ek2 in H1. rewrite H2 in H1 by congruence. congruence.
    + intros B3 s3 V3 E3 R3 Hc3. eapply (HQ s3 B3); [done|done|done|]. by rewrite <- E2.
Qed.

Lemma cleaned_size E D D' B' B'' : cleaned bs E B' B'' D D' → (∀ p, p ∈ E → is_Some (B' !! p)) → size B'' = size B'.
Proof using.
  intros [C1 C2 _ _] Hin. rewrite <- !size_dom. f_equal. apply set_eq. intros p. rewrite !elem_of_dom.
  destruct (decide (p ∈ E)) as [Hp|Hp]; [|by rewrite C1].
  destruct (Hin p Hp) as [c Hc]. destruct (C2 p c Hp Hc) as (c' & -> & _). rewrite Hc. split; by eexists.
Qed.

Lemma claimed_in p : p ∈ ents → is_Some (B1 !! p).
Proof using Hcl.
  intros Hp. destruct (cl_ent _ _ _ _ _ _ _ _ _ _ _ _ _ Hcl p Hp) as [(? & _ & _ & ->)|[_ ->]]; by eexists.
Qed.

(** What became of a claimed entry when the old blocks were written. *)
Lemma cleaned_cases B3 D3 p :
  cleaned bs ents B1 B3 (disks s) D3 → p ∈ ents → ∃ c, B3 !! p = Some c ∧ needs c = 0%nat ∧ ce_lock c = 0 ∧
    ((∃ c0, B !! p = Some c0 ∧ core (or_flags CE_BUSY c0) = core c ∧ ent_wf bs D3 c ∧ coherent bs D3 c ∧
        block bs D3 (ce_dev c0) (ce_block_num c0) = ce_data c0) ∨
     (B !! p = None ∧ ce_dev c = -1 ∧ ce_bsize c = 0)).
Proof using Hi Hcl.
  intros Hc3 Hp. destruct (claimed_in p Hp) as [c1 Hc1].
  destruct (cn_ent _ _ _ _ _ _ Hc3 p c1 Hp Hc1) as (c & Hc & Ecore & Hn & Hok & _). exists c.
  destruct (claimed_ok p c1 Hp Hc1) as (Hlk & _). rewrite (core_lock _ _ Ecore) in Hlk. split_and!; [done..|].
  destruct (claimed_cases p c1 Hp Hc1) as [(c0 & Hc0 & _ & ->)|[HnB ->]].
  - left. exists c0. destruct (iv_ent _ _ _ _ _ Hi p c0 Hc0) as [Hwf0 _ _ _ _].
    pose proof (f_equal ce_dev Ecore : ce_dev c0 = ce_dev c) as Ed.
    destruct Hok as [[Hwf Hcoh]|[Hin _]]; [|by apply ent_wf_old in Hwf0; congruence].
    split_and!; [done..|]. destruct (needs_0 c Hn Hlk) as [Hd Hcl0]. specialize (Hcoh Hd). rewrite Hcl0 in Hcoh.
    rewrite Ed, (f_equal ce_block_num Ecore : ce_block_num c0 = ce_block_num c), Hcoh.
    symmetry. exact (f_equal ce_data Ecore).
  - right. split_and!; [done| |]; symmetry; [exact (f_equal ce_dev Ecore)|exact (f_equal ce_bsize Ecore)].
Qed.

(** The first [num] entries get room for the new blocks, and the blocks. *)
Lemma blocks_runs op s3 B3 {A} (Er : C A) (K : Z → C A) (Q : A → state → Prop) :
  let mine := take (Z.to_nat num) ents in
  let H1 := claim_map dev bnum mine H in
  view s3 B3 ls1 H1 → ready s3 → cleaned bs ents B1 B3 (disks s) (disks s3) →
  bs dev = bsize → 1 ≤ num → (∀ i, 0 ≤ i < num → on_device bs (disks s) dev (bnum + i)) →
  (∀ s4 B4, view s4 B4 ls1 H1 → env_io s4 = env_io s3 → ready s4 → disks s4 = disks s3 → size B4 = size B3 →
    (∀ p, (p ∉ mine) → B4 !! p = B3 !! p) →
    (∀ i p c, mine !! i = Some p → B3 !! p = Some c → ∃ c' blk, B4 !! p = Some c' ∧ filled bsize c' blk ∧
      ce_key c' = ce_key c ∧
      (op_has op CACHE_READ = true → block bs (disks s3) dev (bnum + Z.of_nat i) = Some blk)) →
    runs (K 0) s4 Q) →
  runs (err ← (free_blocks bsize mine;; alloc_blocks bsize mine);
        if negb (err =? 0) then Er
        else err ← (if op_has op CACHE_READ then read_into_ents dev bnum mine bsize else mret 0); K err) s3 Q.
Proof using Hi Hcl.
  intros mine H1 V3 R3 Hc3 Ebs Hnum Hdev HK.
  pose proof (cl_len _ _ _ _ _ _ _ _ _ _ _ _ _ Hcl) as Hlen.
  assert (zlen mine = num) as Hmine by (subst mine; rewrite length_take; lia).
  assert (NoDup mine) as Hnd by apply NoDup_take, (cl_nodup _ _ _ _ _ _ _ _ _ _ _ _ _ Hcl).
  assert (∀ p, p ∈ mine → p ∈ ents) as Hsub by (intros p; apply elem_of_take_1).
  assert (∀ p, p ∈ mine → is_Some (B3 !! p)) as Hin.
  { intros p Hp. destruct (cleaned_cases B3 _ p Hc3 (Hsub p Hp)) as (c & -> & _). by eexists. }
  destruct (Hdev (num - 1)) as (d0 & Hd0 & Hb0 & Hfit0 & Hsz0 & Hbs); [lia|]. rewrite Ebs in Hfit0, Hbs.
  pose proof (cn_length _ _ _ _ _ _ Hc3 dev) as Hlen3. rewrite Hd0 in Hlen3.
  destruct (disks s3 !! dev) as [d3|] eqn:Hd3; cbn in Hlen3; [|done]. assert (zlen d3 = zlen d0) by (simplify_eq; lia).
  destruct (Hdev 0) as (_ & _ & Hb00 & _); [lia|].
  apply runs_bind, runs_bind. eapply free_blocks_runs; [done|done|done|]. intros Ba sa Va Ea Hua.
  pose proof (env_ready _ _ Ea R3) as Ra.
  eapply alloc_blocks_runs; [done|apply Ra|done|by intros p Hp; apply (updated_in _ _ _ _ p Hua), Hin|].
  intros Bb sb Vb Eb Hub. pose proof (updated_comp _ _ _ _ _ _ Hua Hub) as Hu. cbn [Z.eqb negb].
  assert (env sb = env s3) as Eb3 by congruence. pose proof (env_ready _ _ Eb3 R3) as Rb.
  assert (disks sb = disks s3) as Edb by exact (f_equal disks Eb3).
  assert (∀ i p c, mine !! i = Some p → B3 !! p = Some c → ∃ c' blk, Bb !! p = Some c' ∧
    filled bsize c' blk ∧ ce_key c' = ce_key c) as Hfill.
  { intros i p c Hip Hc. destruct (cleaned_cases B3 _ p Hc3 (Hsub p (list_elem_of_lookup_2 _ _ _ Hip)))
      as (c' & Hc' & Hn & Hlk & Hcase). assert (c' = c) as -> by congruence.
    destruct (realloc_filled (disks s3) bsize c) as [(blk & Hf) Hk]; [lia|done|done| |].
    { destruct Hcase as [(_ & _ & _ & ? & _)|(_ & _ & ?)]; auto. }
    eexists _, blk. rewrite (proj1 Hu i p Hip), Hc. cbn. split_and!; done. }
  apply runs_bind. destruct (op_has op CACHE_READ) eqn:Er'.
  - eapply (read_into_ents_runs bs sb Bb); [done|done|done|done|lia|lia|by rewrite Edb|lia|nia|lia| |].
    { intros p Hp. apply list_elem_of_lookup in Hp as Hip. destruct Hip as [i Hip].
      destruct (Hin p Hp) as [c Hc]. destruct (Hfill i p c Hip Hc) as (c' & blk & ? & Hf & _).
      exists c', blk. split_and!; [done|apply Hf|apply Hf]. }
    intros B4 s4 V4 E4 R4 Ed4 Hu4. eapply (HK s4 B4).
    + done.
    + rewrite E4. by apply env_env_io.
    + done.
    + congruence.
    + rewrite (updated_size _ _ _ _ Hu4). apply (updated_size _ _ _ _ Hu).
    + intros p Hp. rewrite (proj2 Hu4 p Hp). apply (proj2 Hu p Hp).
    + intros i p c Hip Hc. destruct (Hfill i p c Hip Hc) as (c' & blk & Hc' & [F1 F2 F3 F4 F5 F6] & Hk).
      assert (∃ blk', block bs (disks s3) dev (bnum + Z.of_nat i) = Some blk' ∧ zlen blk' = bsize) as (blk' & Hb & Hl').
      { unfold block. rewrite Hd3, Ebs. eexists. split; [done|]. apply lookup_lt_Some in Hip.
        rewrite slice_length; nia. }
      eexists _, blk'. rewrite (proj1 Hu4 i p Hip), Hc', Edb, Hb. cbn.
      split_and!; [done|by split|done|done].
  - apply runs_ret. eapply (HK sb Bb).
    + done.
    + by apply env_env_io.
    + done.
    + done.
    + apply (updated_size _ _ _ _ Hu).
    + intros p Hp. apply (proj2 Hu p Hp).
    + intros i p c Hip Hc. destruct (Hfill i p c Hip Hc) as (c' & blk & ? & ? & ?). by exists c', blk.
Qed.

Lemma staged_intro op s3 B3 s4 B4 :
  let mine := take (Z.to_nat num) ents in
  let extra := drop (Z.to_nat num) ents in
  let H1 := claim_map dev bnum mine H in
  0 ≤ num → (∀ i, 0 ≤ i < num → H !! (dev, bnum + i) = None) →
  cleaned bs ents B1 B3 (disks s) (disks s3) →
  upd_bc_lock 0 false (env_io s3) = upd_bc_lock 0 false (env_io s1) → env_io s4 = env_io s3 →
  view s4 B4 ls1 H1 → ready s4 → disks s4 = disks s3 → size B4 = size B3 →
  (∀ p, (p ∉ mine) → B4 !! p = B3 !! p) →
  (∀ i p c, mine !! i = Some p → B3 !! p = Some c → ∃ c' blk, B4 !! p = Some c' ∧ filled bsize c' blk ∧
    ce_key c' = ce_key c ∧
    (op_has op CACHE_READ = true → block bs (disks s3) dev (bnum + Z.of_nat i) = Some blk)) →
  staged s B ls H dev bnum bsize op mine extra s4 B4 ls1 H1.
Proof using Hi Hcl.
  intros mine extra H1 Hnum Hmiss Hc3 E3 E4 V4 R4 Ed4 Hsz Hout Hmine. pose proof Hcl as [_ Ea Hnd Hlen HL HN _ Hnew Hoth [Hs1 Hs2] Hnx _].
  assert (mine ++ extra = ents) as Eapp by apply take_drop.
  assert (zlen mine = num) as Hml by (subst mine; rewrite length_take; lia).
  assert (∀ p, p ∈ mine → p ∈ ents) as Hsub by (intros p; apply elem_of_take_1).
  assert (∀ p, p ∈ extra → p ∈ ents) as Hsub' by (intros p; apply elem_of_drop_1).
  assert (∀ p, p ∈ extra → p ∉ mine) as Hdj.
  { intros p Hp Hm. rewrite <- Eapp in Hnd. apply NoDup_app in Hnd as (_ & Hd & _). by eapply Hd. }
  assert (upd_bc_lock 0 false (env_io s4) = upd_bc_lock 0 false (env_io s1)) as E41 by congruence.
  assert (cur_blocks s4 = cur_blocks s1) as Ecur by exact (f_equal cur_blocks E41).
  assert (next_ptr s4 = next_ptr s1) as Enext by exact (f_equal next_ptr E41).
  assert (size B3 = size B1) as Hsz3 by (eapply cleaned_size; [done|apply claimed_in]).
  split; rewrite ?Eapp; try done.
  - split; [rewrite (f_equal max_blocks E41 : max_blocks s4 = max_blocks s1); exact (f_equal max_blocks Ea)|].
    rewrite (f_equal max_device_blocks E41 : max_device_blocks s4 = max_device_blocks s1). exact (f_equal max_device_blocks Ea).
  - intros k q. subst H1. apply claim_map_lookup. by rewrite Hml.
  - subst H1. pose proof (claim_map_size dev bnum mine H). pose proof (inv_hsize _ _ _ _ Hi).
    pose proof (iv_size _ _ _ _ _ Hi). unfold HT_LIMIT. lia.
  - intros p c Hp Hc. destruct (claimed_in p Hp) as [c1 Hc1].
    destruct (claimed_cases p c1 Hp Hc1) as [(c0 & ? & ? & _)|[? _]]; congruence.
  - intros i p Hip. assert (p ∈ mine) as Hpm by (by eapply list_elem_of_lookup_2).
    destruct (cleaned_cases B3 _ p Hc3 (Hsub p Hpm)) as (c3 & Hc3' & _ & _ & Hcase).
    destruct (Hmine i p c3 Hip Hc3') as (c & blk & Hc & Hf & Hk & Hb). exists c, blk.
    split_and!; [done|done|by rewrite Ed4|]. destruct Hcase as [(c0 & Hc0 & Ec & _)|(? & Hd & _)].
    + right. exists c0. split; [done|]. rewrite Hk. symmetry. exact (core_key _ _ Ec).
    + left. split; [done|]. injection Hk as -> _. done.
  - intros p Hp. destruct (cleaned_cases B3 _ p Hc3 (Hsub' p Hp)) as (c & Hc & _ & _ & Hcase).
    destruct Hcase as [(c0 & ? & ? & ? & ? & _)|(Hn & _)].
    + exists c0, c. rewrite Ed4, (Hout p (Hdj p Hp)). done.
    + exfalso. apply list_elem_of_lookup in Hp as [i Hi']. unfold extra in Hi'. rewrite lookup_drop in Hi'.
      specialize (Hnew _ _ Hi' Hn). lia.
  - intros p Hp. rewrite Hout, (cn_other _ _ _ _ _ _ Hc3 p Hp) by auto. auto.
  - rewrite Ecur, Hsz, Hsz3. done.
  - intros p Hp. rewrite Enext in Hp. specialize (Hnx p Hp).
    assert (p ∉ ents) as Hpe by (intros [c Hc]%claimed_in; discriminate (eq_trans (eq_sym Hc) Hnx)).
    rewrite Hout, (cn_other _ _ _ _ _ _ Hc3 p Hpe) by auto. done.
  - intros d. rewrite Ed4. apply (cn_length _ _ _ _ _ _ Hc3).
  - intros d b Hb Hno. rewrite Ed4. apply (cn_block _ _ _ _ _ _ Hc3); [done|]. intros p c Hp Hc.
    destruct (claimed_cases p c Hp Hc) as [(c0 & Hc0 & _ & ->)|[_ ->]]; [by apply (Hno p c0)|]. intros [= <- <-]. lia.
  - intros p c Hp Hc. destruct (cleaned_cases B3 _ p Hc3 Hp) as (c3 & _ & _ & _ & [(c0 & Hc0 & _ & _ & _ & Hb)|[Hn _]]);
      [|congruence]. rewrite Ed4. assert (c0 = c) as -> by congruence. done.
Qed.
End Clean.
End Stage.
