(* ===== verification/CacheSettle.v ===== *)
(** The end of a cache miss: the new blocks get their places and the caller its
    data; the cache is as between operations again, and every block still has
    its contents. *)

From S2P Require Import Prelude Errors Sort CacheHash CacheState CacheIo CacheFlush BlockCache CacheInv.
From S2P Require Import CacheServe CacheMiss CacheFill CacheStage.

Lemma req_ok_advance op u bsize n i :
  req_ok op u bsize n → 0 < bsize → 0 ≤ i → req_ok op (advance (i * bsize) u) bsize (n - i).
Proof. intros [Ho Hw Hb] Hbs Hi. split; [done|done|]. cbn. intros buf Eb. destruct (Hb buf Eb). nia. Qed.

(** A finished entry is as it should be between operations. *)
Lemma finished_ok bs D dev b bsize op new c blk :
  filled bsize c blk → bs dev = bsize → on_device bs D dev b → 0 ≤ dev < 256 → b < 2 ^ 31 → zlen new = bsize →
  (op_has op CACHE_READ = true → new = blk ∧ block bs D dev b = Some blk) →
  let c' := finished dev b bsize op new c in
  ent_wf bs D c' ∧ coherent bs D c' ∧ is_busy c' = false ∧ 0 ≤ ce_lock c' ∧ list_of c' = end_list op.
Proof.
  intros [F1 F2 F3 F4 F5 F6] Ebs Hon Hdev Hb Hl Hr c'.
  destruct (served_fields op new (blank_ent dev b bsize c)) as (Ek & Es & Ec & Eb & El & Ed & Ed1 & Ed2).
  fold (finished dev b bsize op new c) in *. fold c' in Ek, Es, Ec, Eb, El, Ed, Ed1, Ed2.
  injection Ek as E1 E2. cbn in Es, Ec, El, Ed.
  assert (ce_data c' = Some new) as Ed'.
  { rewrite Ed. destruct (op_has op CACHE_READ); [|done]. destruct Hr as [-> _]; done. }
  split_and!.
  - split; rewrite ?E1, ?E2, ?Es, ?Ec; [done|done|lia| |done]. exists new. split; [done|congruence].
  - intros Hd. rewrite Ec, E1, E2, Ed'. destruct (op_has op CACHE_READ); [|by rewrite Ed1 in Hd].
    destruct Hr as [-> ?]; done.
  - by rewrite Eb.
  - rewrite El. destruct (op_has op CACHE_LOCKED); lia.
  - unfold list_of, end_list. rewrite El. by destruct (op_has op CACHE_LOCKED).
Qed.

(** So is a block that was read ahead. *)
Lemma ahead_ok bs D dev b bsize c blk :
  filled bsize c blk → bs dev = bsize → on_device bs D dev b → 0 ≤ dev < 256 → b < 2 ^ 31 →
  block bs D dev b = Some blk →
  let c' := ahead_ent dev b c in
  ent_wf bs D c' ∧ coherent bs D c' ∧ is_busy c' = false ∧ 0 ≤ ce_lock c' ∧ list_of c' = Normal.
Proof.
  intros [F1 F2 F3 F4 F5 F6] Ebs Hon Hdev Hb Hblk c'. split_and!.
  - split; cbn; [congruence|done|lia| |by rewrite F3]. exists blk. split; [done|congruence].
  - intros _. cbn. by rewrite F3, F5.
  - apply busy_clear_busy.
  - cbn. lia.
  - unfold list_of. cbn. by rewrite F1.
Qed.

Section Settle.
Context (bs : Z → Z).
Implicit Types (B : gmap ptr cache_ent) (ls : which → list ptr) (H : gmap (Z * Z) ptr).
Context (s : state) B ls H (dev bnum bsize op : Z) (mine extra : list ptr) (s4 : state) B4 ls4 H4.
Hypothesis Hi : inv bs s B ls H.
Hypothesis Hst : staged bs s B ls H dev bnum bsize op mine extra s4 B4 ls4 H4.

Definition blks_of (ps : list ptr) : list (list Z) := (λ p, default [] (B4 !! p ≫= ce_data)) <$> ps.

(** The state [s'] after the last three loops, from [s5]. *)
Record settled (u : user) (curn : Z) (s5 s' : state) B' ls' H' : Prop := {
  se_view : view s' B' ls' H';
  se_env : env s' = env s5;
  se_done i p c blk : mine !! i = Some p → Z.of_nat i < curn → B4 !! p = Some c → ce_data c = Some blk →
    B' !! p = Some (finished dev (bnum + Z.of_nat i) bsize op (new_at op bsize u (Z.of_nat i) blk) c);
  se_ahead i p c : mine !! i = Some p → curn ≤ Z.of_nat i → B4 !! p = Some c →
    B' !! p = Some (ahead_ent dev (bnum + Z.of_nat i) c);
  se_extra p c : p ∈ extra → B4 !! p = Some c → B' !! p = Some (clear_flags CE_BUSY c);
  se_other p : (p ∉ mine ++ extra) → B' !! p = B4 !! p;
  se_size : size B' = size B4;
  se_hash : unkeyed mine B4 H4 H';
  se_locked : ls' Locked = ls4 Locked ++ (if op_has op CACHE_LOCKED then take (Z.to_nat curn) mine else []);
  se_normal p : p ∈ ls' Normal ↔ p ∈ ls4 Normal ∨ p ∈ extra ∨ p ∈ drop (Z.to_nat curn) mine ∨
    (op_has op CACHE_LOCKED = false ∧ p ∈ take (Z.to_nat curn) mine)
}.

Lemma staged_nolist p w : p ∈ mine ++ extra → p ∉ ls4 w.
Proof using Hi Hst.
  intros Hp. destruct w.
  - intros [_ ?]%(st_normal _ _ _ _ _ _ _ _ _ _ _ _ _ _ _ Hst). done.
  - rewrite (st_locked _ _ _ _ _ _ _ _ _ _ _ _ _ _ _ Hst). intros Hl.
    destruct (iv_dom _ _ _ _ _ Hi Locked p Hl) as [c Hc].
    pose proof (st_unlocked _ _ _ _ _ _ _ _ _ _ _ _ _ _ _ Hst p c Hp Hc) as Hlk.
    pose proof (ent_inv_list _ _ _ _ _ Locked _ (vw_lists _ _ _ _ (iv_view _ _ _ _ _ Hi)) (iv_ent _ _ _ _ _ Hi p c Hc)) as [Hl' _].
    specialize (Hl' Hl). unfold list_of in Hl'. rewrite Hlk in Hl'. done.
Qed.

Lemma settle_runs u curn n s5 {A} (K : user → C A) (Q : A → state → Prop) :
  view s5 B4 ls4 H4 → 0 < bsize → req_ok op u bsize n → 1 ≤ curn ≤ n → curn ≤ zlen mine →
  (want_ptr u = true → curn = 1) →
  (∀ s' B' ls' H', settled u curn s5 s' B' ls' H' →
    runs (K (serve_all op bsize (zip (take (Z.to_nat curn) mine) (blks_of (take (Z.to_nat curn) mine))) u)) s' Q) →
  runs (rehash_ents dev bnum curn 0 0 mine;;
        put_back true extra;;
        u' ← finish_ents dev bnum bsize op curn (want_ptr u) (take (Z.to_nat curn) mine) u; K u') s5 Q.
Proof using Hi Hst.
  intros V5 Hbs Hrq Hcn Hcm Hone HQ. pose proof Hst as [_ _ _ Hnd Hhash Hhs HL HN _ Hmine Hextra Hother _ _ _ _ _].
  pose proof Hnd as (Hnd1 & Hdj & Hnd2)%NoDup_app.
  apply runs_bind. eapply (rehash_ents_runs bs mine s5 B4 ls4 H4); [done|done| |done|].
  { intros p Hp. split; [intros w; apply staged_nolist, elem_of_app; by left|].
    apply list_elem_of_lookup in Hp as [i Hip]. destruct (Hmine i p Hip) as (c & blk & Hc & _ & _ & Hcase).
    exists c. split; [done|]. intros Hd. apply Hhash. right. destruct Hcase as [[_ ?]|(c0 & Hc0 & ->)]; [done|].
    apply (iv_hash _ _ _ _ _ Hi). eauto. }
  intros s6 B6 ls6 H6 V6 E6 Hu6 Hk6 HL6 HN6. rewrite Z.sub_0_r in HN6.
  assert (∀ p, p ∈ extra → p ∉ mine) as Hxm by (intros p Hp Hm; by eapply Hdj).
  assert (∀ p, p ∈ take (Z.to_nat curn) mine → p ∈ mine ∧ p ∉ drop (Z.to_nat curn) mine) as Htk.
  { intros p Hp. split; [by eapply elem_of_take_1|]. intros Hd. rewrite <- (take_drop (Z.to_nat curn) mine) in Hnd1.
    apply NoDup_app in Hnd1 as (_ & Hx & _). by eapply Hx. }
  assert (∀ w p, p ∈ ls6 w → p ∈ ls4 w ∨ p ∈ drop (Z.to_nat curn) mine) as Hls6.
  { intros [|] p; [rewrite HN6; apply elem_of_app|rewrite HL6; by left]. }
  apply runs_bind. eapply (put_back_runs extra s6 B6 ls6); [done|done| |].
  { intros p Hp. split.
    - intros w [Hw|Hw]%Hls6; [eapply staged_nolist, Hw; apply elem_of_app; by right|].
      by apply elem_of_drop_1, Hxm in Hw.
    - destruct (Hextra p Hp) as (c0 & c & Hc0 & Hc & Hcore & _). exists c. rewrite (proj2 Hu6 p) by auto. split; [done|].
      rewrite <- (core_lock _ _ Hcore). change (ce_lock (or_flags CE_BUSY c0)) with (ce_lock c0).
      eapply (st_unlocked _ _ _ _ _ _ _ _ _ _ _ _ _ _ _ Hst); [apply elem_of_app; by right|done]. }
  intros s7 B7 ls7 V7 E7 Hu7 HL7 HN7.
  assert (∀ i p, take (Z.to_nat curn) mine !! i = Some p → mine !! i = Some p ∧ Z.of_nat i < curn ∧ B7 !! p = B4 !! p) as Hfirst.
  { intros i p Hip. apply lookup_take_Some in Hip as [Hip Hlt]. split_and!; [done|lia|].
    rewrite (proj2 Hu7), (proj1 Hu6 i p Hip); [|intros Hx%Hxm; by eapply Hx, list_elem_of_lookup_2].
    rewrite Z.add_0_l. destruct (Z.leb_spec curn (Z.of_nat i)); [lia|]. by destruct (B4 !! p). }
  apply runs_bind. eapply (finish_ents_runs _ (blks_of (take (Z.to_nat curn) mine)) s7 B7 ls7 H6 dev bnum bsize op curn n); [done| |done|done| | |done| |].
  { by apply NoDup_take. }
  { rewrite length_take. lia. }
  { unfold blks_of. by rewrite length_fmap. }
  { intros i p blk Hip Hblk. destruct (Hfirst i p Hip) as (Hmi & Hlt & HB7).
    destruct (Htk p (list_elem_of_lookup_2 _ _ _ Hip)) as [Hpm Hpd]. split.
    - assert (p ∉ extra) as Hpx by (by intros ?%Hxm).
      assert (∀ w, p ∉ ls6 w) as H6no. { intros w [Hw|Hw]%Hls6; [|done]. eapply staged_nolist, Hw. apply elem_of_app. by left. }
      intros [|]; [rewrite HN7; intros [Hx|Hx]%elem_of_app|rewrite HL7]; [by apply Hpx, list_elem_of_In, in_rev, list_elem_of_In|by eapply H6no|apply H6no].
    - destruct (Hmine i p Hmi) as (c & blk' & Hc & [F1 F2 F3 F4 F5 F6] & _). exists c. rewrite HB7, Hc.
      unfold blks_of in Hblk. rewrite list_lookup_fmap, Hip in Hblk. cbn in Hblk. rewrite Hc in Hblk. cbn in Hblk.
      rewrite F5 in Hblk. cbn in Hblk. injection Hblk as <-. done. }
  intros s8 B8 ls8 V8 E8 Hu8 Hls8. eapply HQ. split.
  - exact V8.
  - congruence.
  - intros i p c blk Hip Hlt Hc Hd.
    assert (take (Z.to_nat curn) mine !! i = Some p) as Hip' by (rewrite lookup_take_lt by lia; done).
    rewrite (proj1 Hu8 i p Hip'). destruct (Hfirst i p Hip') as (_ & _ & ->). rewrite Hc. cbn. do 3 f_equal.
    unfold blks_of. rewrite list_lookup_fmap, Hip'. cbn. rewrite Hc. cbn. by rewrite Hd.
  - intros i p c Hip Hle Hc.
    assert (p ∈ drop (Z.to_nat curn) mine) as Hpd.
    { apply list_elem_of_lookup. exists (i - Z.to_nat curn)%nat. rewrite lookup_drop. rewrite <- Hip. f_equal. lia. }
    rewrite (proj2 Hu8) by (by intros [_ ?]%Htk).
    rewrite (proj2 Hu7), (proj1 Hu6 i p Hip); [|intros Hx%Hxm; by eapply Hx, list_elem_of_lookup_2].
    rewrite Z.add_0_l. destruct (Z.leb_spec curn (Z.of_nat i)); [|lia]. by rewrite Hc.
  - intros p c Hp Hc. rewrite (proj2 Hu8) by (by intros [? _]%Htk; eapply Hxm).
    apply list_elem_of_lookup in Hp as Hj. destruct Hj as [j Hj]. rewrite (proj1 Hu7 j p Hj).
    rewrite (proj2 Hu6) by auto. by rewrite Hc.
  - intros p [Hpm Hpx]%not_elem_of_app.
    rewrite (proj2 Hu8) by (by intros [? _]%Htk). rewrite (proj2 Hu7), (proj2 Hu6); done.
  - rewrite (updated_size _ _ _ _ Hu8), (updated_size _ _ _ _ Hu7). apply (updated_size _ _ _ _ Hu6).
  - done.
  - rewrite Hls8. unfold end_list. destruct (op_has op CACHE_LOCKED).
    + rewrite lset_eq. by rewrite HL7, HL6.
    + rewrite lset_ne by done. by rewrite app_nil_r, HL7, HL6.
  - intros p. rewrite Hls8. unfold end_list. assert (p ∈ ls7 Normal ↔ p ∈ ls4 Normal ∨ p ∈ extra ∨ p ∈ drop (Z.to_nat curn) mine) as Hls7.
    { rewrite HN7, HN6, !elem_of_app. rewrite (list_elem_of_In (rev extra) p), <- in_rev, <- list_elem_of_In. tauto. }
    destruct (op_has op CACHE_LOCKED).
    + rewrite lset_ne by done. rewrite Hls7. naive_solver.
    + rewrite lset_eq, elem_of_app, Hls7. naive_solver.
Qed.

(** * The cache afterwards *)

Context (u : user) (curn n : Z) (s5 s' : state) B' ls' H'.
Hypothesis Hse : settled u curn s5 s' B' ls' H'.
Hypothesis Hlk : upd_bc_lock 0 false s5 = upd_bc_lock 0 false s4.
Hypothesis Hmiss : ∀ i, 0 ≤ i < zlen mine → H !! (dev, bnum + i) = None.

Lemma settled_env :
  disks s' = disks s4 ∧ ready s' ∧ limits s s' ∧ cur_blocks s' = cur_blocks s4 ∧ next_ptr s' = next_ptr s4.
Proof using Hst Hse Hlk.
  pose proof (se_env _ _ _ _ _ _ _ Hse) as E.
  destruct (st_limits _ _ _ _ _ _ _ _ _ _ _ _ _ _ _ Hst) as [L1 L2].
  assert (∀ {A} (f : state → A), f (env s') = f s' → f (upd_bc_lock 0 false s5) = f s5 →
    f (upd_bc_lock 0 false s4) = f s4 → f (env s5) = f s5 → f s' = f s4) as Hf.
  { intros A f E1 E2 E3 E4. rewrite <- E1, E, E4, <- E2, Hlk. done. }
  split_and!.
  - by apply Hf.
  - destruct (st_ready _ _ _ _ _ _ _ _ _ _ _ _ _ _ _ Hst) as [? ? ? ? ?].
    split; [rewrite (Hf _ mem)|rewrite (Hf _ io)|rewrite (Hf _ iov_held)|rewrite (Hf _ iovec_pool)|rewrite (Hf _ iovec_used)]; done.
  - split; [by rewrite (Hf _ max_blocks)|by rewrite (Hf _ max_device_blocks)].
  - by apply Hf.
  - by apply Hf.
Qed.

Lemma mine_old_key p c i :
  mine !! i = Some p → B4 !! p = Some c → ce_dev c ≠ -1 → ∃ c0, B !! p = Some c0 ∧ ce_key c = ce_key c0.
Proof using Hst.
  intros Hip Hc Hd. destruct (st_mine _ _ _ _ _ _ _ _ _ _ _ _ _ _ _ Hst i p Hip) as (c' & _ & Hc' & _ & _ & Hcase).
  assert (c' = c) as -> by congruence. destruct Hcase as [[_ ?]|?]; [done|done].
Qed.

Lemma settled_hash k q :
  H' !! k = Some q ↔ (∃ i : nat, mine !! i = Some q ∧ k = (dev, bnum + Z.of_nat i)) ∨ ((q ∉ mine) ∧ H !! k = Some q).
Proof using Hi Hst Hse Hmiss.
  rewrite (se_hash _ _ _ _ _ _ _ Hse k q), (st_hash _ _ _ _ _ _ _ _ _ _ _ _ _ _ _ Hst k q). split.
  - intros [[?|Hk] Hno]; [by left|]. right. split; [|done]. intros Hm.
    apply list_elem_of_lookup in Hm as Hj. destruct Hj as [j Hj].
    destruct (st_mine _ _ _ _ _ _ _ _ _ _ _ _ _ _ _ Hst j q Hj) as (c & _ & Hc & _ & _ & Hcase).
    apply (iv_hash _ _ _ _ _ Hi) in Hk as (c0 & Hc0 & Hkey). destruct Hcase as [[? _]|(c0' & Hc0' & Ek)]; [congruence|].
    assert (c0' = c0) as -> by congruence.
    pose proof (ent_wf_old _ _ _ (ei_wf _ _ _ _ _ (iv_ent _ _ _ _ _ Hi q c0 Hc0))) as Hd.
    apply (Hno q c Hm Hc); [|congruence]. injection Ek as -> _. done.
  - intros [(i & Hip & ->)|[Hq Hk]].
    + split; [left; eauto|]. intros p c Hp Hc Hd Hkey. apply list_elem_of_lookup in Hp as [j Hj].
      destruct (mine_old_key p c j Hj Hc Hd) as (c0 & Hc0 & Ek).
      assert (H !! (dev, bnum + Z.of_nat i) = Some p) as Hbad by (apply (iv_hash _ _ _ _ _ Hi); exists c0; split; congruence).
      rewrite Hmiss in Hbad; [done|]. apply lookup_lt_Some in Hip. lia.
    + split; [by right|]. intros p c Hp Hc Hd Hkey. apply list_elem_of_lookup in Hp as Hj. destruct Hj as [j Hj].
      destruct (mine_old_key p c j Hj Hc Hd) as (c0 & Hc0 & Ek).
      assert (H !! k = Some p) as Hk' by (apply (iv_hash _ _ _ _ _ Hi); exists c0; split; congruence). congruence.
Qed.

Lemma settled_out p :
  (p ∉ mine) → (∃ c c', B !! p = Some c ∧ B' !! p = Some c' ∧ ce_key c' = ce_key c ∧ ce_data c' = ce_data c) ∨
    B !! p = None ∧ B' !! p = None.
Proof using Hst Hse.
  intros Hm. destruct (decide (p ∈ extra)) as [Hx|Hx].
  - left. destruct (st_extra _ _ _ _ _ _ _ _ _ _ _ _ _ _ _ Hst p Hx) as (c0 & c & Hc0 & Hc & Ecore & _).
    exists c0, (clear_flags CE_BUSY c). split_and!; [done|by apply (se_extra _ _ _ _ _ _ _ Hse)| |].
    + symmetry. exact (core_key _ _ Ecore).
    + symmetry. exact (f_equal ce_data Ecore).
  - assert (p ∉ mine ++ extra) as Hmx by (by rewrite not_elem_of_app).
    rewrite (se_other _ _ _ _ _ _ _ Hse p Hmx), (st_other _ _ _ _ _ _ _ _ _ _ _ _ _ _ _ Hst p Hmx).
    destruct (B !! p) as [c|]; [left; by exists c, c|by right].
Qed.

(** The [i]-th new block. *)
Lemma settled_mine i p : mine !! i = Some p → ∃ c blk,
  filled bsize c blk ∧ B4 !! p = Some c ∧ (op_has op CACHE_READ = true → block bs (disks s4) dev (bnum + Z.of_nat i) = Some blk) ∧
  B' !! p = Some (if decide (Z.of_nat i < curn)
                  then finished dev (bnum + Z.of_nat i) bsize op (new_at op bsize u (Z.of_nat i) blk) c
                  else ahead_ent dev (bnum + Z.of_nat i) c).
Proof using Hst Hse.
  intros Hip. destruct (st_mine _ _ _ _ _ _ _ _ _ _ _ _ _ _ _ Hst i p Hip) as (c & blk & Hc & Hf & Hb & _).
  exists c, blk. split_and!; [done..|]. destruct (decide _).
  - eapply (se_done _ _ _ _ _ _ _ Hse); [done|done|done|apply Hf].
  - eapply (se_ahead _ _ _ _ _ _ _ Hse); [done|lia|done].
Qed.

(** Blocks the miss did not ask for keep their contents; those it did have what
    the request says. *)
Lemma settled_contents d b :
  0 ≤ b → (curn = zlen mine ∨ op_has op CACHE_READ = true) → curn ≤ zlen mine →
  ((∀ i : nat, Z.of_nat i < curn → (d, b) ≠ (dev, bnum + Z.of_nat i)) →
    contents bs (disks s') B' H' d b = contents bs (disks s) B H d b) ∧
  (∀ i : nat, Z.of_nat i < curn → (d, b) = (dev, bnum + Z.of_nat i) →
    ∃ blk, contents bs (disks s') B' H' d b = Some (new_at op bsize u (Z.of_nat i) blk) ∧
      blks_of (take (Z.to_nat curn) mine) !! i = Some blk ∧
      (op_has op CACHE_READ = true → contents bs (disks s) B H d b = Some blk)).
Proof using Hi Hst Hse Hlk Hmiss.
  intros Hb Hrd Hcm. destruct settled_env as (Ed & _).
  assert (∀ i : nat, (d, b) = (dev, bnum + Z.of_nat i) → (i < length mine)%nat → H !! (d, b) = None) as Hnone.
  { intros i Ek Hlt. rewrite Ek. apply Hmiss. lia. }
  assert (H !! (d, b) = None → block bs (disks s4) d b = block bs (disks s) d b) as Hsame.
  { intros HN. apply (st_block _ _ _ _ _ _ _ _ _ _ _ _ _ _ _ Hst d b Hb). intros p c _ Hc Hk.
    assert (H !! (d, b) = Some p) by (apply (iv_hash _ _ _ _ _ Hi); eauto). congruence. }
  unfold contents. rewrite Ed. split.
  - intros Hno. destruct (H' !! (d, b)) as [q|] eqn:Eq.
    + apply settled_hash in Eq as [(i & Hip & Ek)|[Hq Hk]].
      * destruct (settled_mine i q Hip) as (c & blk & Hf & _ & Hblk & ->). apply lookup_lt_Some in Hip as Hlt.
        destruct (decide _) as [Hlt'|Hge]; [by destruct (Hno i)|]. cbn. rewrite (fd_data _ _ _ Hf).
        rewrite (Hnone i Ek Hlt), <- Hsame by (by eapply Hnone). injection Ek as -> ->.
        rewrite Hblk; [done|]. destruct Hrd; [lia|done].
      * rewrite Hk. destruct (settled_out q Hq) as [(c & c' & -> & -> & _ & Edt)|[Hn _]]; [done|].
        apply (iv_hash _ _ _ _ _ Hi) in Hk as (? & ? & _). congruence.
    + destruct (H !! (d, b)) as [q|] eqn:Ek; [|auto].
      assert (q ∈ mine) as Hq.
      { destruct (decide (q ∈ mine)); [done|]. assert (H' !! (d, b) = Some q) by (apply settled_hash; auto). congruence. }
      apply (iv_hash _ _ _ _ _ Hi) in Ek as (c & Hc & Hkey). rewrite Hc. cbn.
      pose proof (st_evicted _ _ _ _ _ _ _ _ _ _ _ _ _ _ _ Hst q c) as Hev. injection Hkey as <- <-.
      apply Hev; [apply elem_of_app; by left|done].
  - intros i Hlt Ek. destruct (lookup_lt_is_Some_2 mine i) as [p Hip]; [lia|].
    assert (H' !! (d, b) = Some p) as -> by (apply settled_hash; eauto).
    destruct (settled_mine i p Hip) as (c & blk & Hf & Hc & Hblk & ->). rewrite decide_True by done. exists blk.
    split_and!.
    + cbn. unfold finished. destruct (served_fields op (new_at op bsize u (Z.of_nat i) blk)
        (blank_ent dev (bnum + Z.of_nat i) bsize c)) as (_ & _ & _ & _ & _ & -> & _).
      cbn. rewrite (fd_data _ _ _ Hf). unfold new_at, new_block. by destruct (op_has op CACHE_READ).
    + unfold blks_of. rewrite list_lookup_fmap, lookup_take_lt, Hip by lia. cbn. rewrite Hc. cbn.
      by rewrite (fd_data _ _ _ Hf).
    + intros Hr. rewrite (Hnone i Ek), <- Hsame by (lia || (eapply Hnone; [done|lia])). injection Ek as -> ->. auto.
Qed.

Hypothesis Hdev : 0 ≤ dev < 256.
Hypothesis Hbs : bs dev = bsize.
Hypothesis Hon : ∀ i, 0 ≤ i < zlen mine → on_device bs (disks s) dev (bnum + i) ∧ bnum + i < 2 ^ 31.
Hypothesis Hrq : req_ok op u bsize n.
Hypothesis Hcn : 1 ≤ curn ≤ n ∧ curn ≤ zlen mine.
Hypothesis Hrd : curn = zlen mine ∨ op_has op CACHE_READ = true.

Lemma mine_ok i p : mine !! i = Some p → ∃ c', B' !! p = Some c' ∧
  ce_key c' = (dev, bnum + Z.of_nat i) ∧ ent_inv bs (disks s4) ls' p c'.
Proof using Hst Hse Hdev Hbs Hon Hrq Hcn Hrd.
  intros Hip. destruct (settled_mine i p Hip) as (c & blk & Hf & Hc & Hblk & HB'). apply lookup_lt_Some in Hip as Hlt.
  destruct (Hon (Z.of_nat i)) as [Hd Hb]; [lia|].
  assert (on_device bs (disks s4) dev (bnum + Z.of_nat i)) as Hd4.
  { eapply on_device_length, Hd. apply (st_length _ _ _ _ _ _ _ _ _ _ _ _ _ _ _ Hst). }
  assert (0 < bsize) as Hbs0 by (destruct Hd as (? & _ & _ & _ & _ & ?); lia).
  eexists. split; [exact HB'|]. destruct (decide (Z.of_nat i < curn)) as [Hlt'|Hge].
  - destruct (finished_ok bs (disks s4) dev (bnum + Z.of_nat i) bsize op (new_at op bsize u (Z.of_nat i) blk) c blk Hf Hbs Hd4 Hdev Hb)
      as (W & Co & Bu & Lk & Li).
    { unfold new_at. eapply (new_block_length _ _ _ _ (n - Z.of_nat i)); [by apply req_ok_advance; [|lia|lia]|lia|lia|apply Hf]. }
    { intros Hr. split; [|auto]. unfold new_at, new_block. by rewrite Hr. }
    split.
    { unfold finished. destruct (served_fields op (new_at op bsize u (Z.of_nat i) blk)
        (blank_ent dev (bnum + Z.of_nat i) bsize c)) as (-> & _). done. }
    split; [done..|]. rewrite Li. assert (p ∈ take (Z.to_nat curn) mine) as Hpt.
    { eapply (list_elem_of_lookup_2 _ i). rewrite lookup_take_lt by lia. done. }
    unfold end_list. destruct (op_has op CACHE_LOCKED) eqn:El.
    + rewrite (se_locked _ _ _ _ _ _ _ Hse), El. apply elem_of_app. by right.
    + apply (se_normal _ _ _ _ _ _ _ Hse). auto.
  - destruct (ahead_ok bs (disks s4) dev (bnum + Z.of_nat i) bsize c blk Hf Hbs Hd4 Hdev Hb) as (W & Co & Bu & Lk & Li).
    { apply Hblk. destruct Hrd; [lia|done]. }
    split; [done|]. split; [done..|]. rewrite Li. apply (se_normal _ _ _ _ _ _ _ Hse). right. right. left.
    eapply (list_elem_of_lookup_2 _ (i - Z.to_nat curn)). rewrite lookup_drop, <- Hip. f_equal. lia.
Qed.

Lemma extra_ok p : p ∈ extra → ∃ c', B' !! p = Some c' ∧ ent_inv bs (disks s4) ls' p c'.
Proof using Hst Hse.
  intros Hx. destruct (st_extra _ _ _ _ _ _ _ _ _ _ _ _ _ _ _ Hst p Hx) as (c0 & c & Hc0 & Hc & Ecore & Hwf & Hcoh).
  exists (clear_flags CE_BUSY c). split; [by apply (se_extra _ _ _ _ _ _ _ Hse)|].
  assert (ce_lock c = 0) as Hl.
  { rewrite <- (core_lock _ _ Ecore). cbn. eapply (st_unlocked _ _ _ _ _ _ _ _ _ _ _ _ _ _ _ Hst); [|done].
    apply elem_of_app. by right. }
  split.
  - destruct Hwf. by split.
  - intros Hd. rewrite dirty_clear_busy in Hd. exact (Hcoh Hd).
  - apply busy_clear_busy.
  - cbn. lia.
  - unfold list_of. cbn. rewrite Hl. apply (se_normal _ _ _ _ _ _ _ Hse). auto.
Qed.

Lemma other_ok p c : (p ∉ mine ++ extra) → B !! p = Some c → ent_inv bs (disks s4) ls' p c.
Proof using Hi Hst Hse.
  intros Hmx Hc. destruct (iv_ent _ _ _ _ _ Hi p c Hc) as [Hwf Hcoh Hbz Hl Hlist]. split; try done.
  - eapply (ent_wf_core bs (disks s)); [done|apply (st_length _ _ _ _ _ _ _ _ _ _ _ _ _ _ _ Hst)|done|done].
  - intros Hd. specialize (Hcoh Hd). destruct (ce_clone c); [done|]. rewrite <- Hcoh.
    apply (st_block _ _ _ _ _ _ _ _ _ _ _ _ _ _ _ Hst); [by destruct (ew_dev _ _ _ Hwf) as (? & _ & ? & _)|].
    intros q cq Hq Hcq Hk. apply Hmx. enough (p = q) by congruence.
    assert (H !! ce_key c = Some p) as H1 by (apply (iv_hash _ _ _ _ _ Hi); eauto).
    assert (H !! ce_key c = Some q) as H2 by (apply (iv_hash _ _ _ _ _ Hi); exists cq; by rewrite Hk). congruence.
  - destruct (list_of c).
    + apply (se_normal _ _ _ _ _ _ _ Hse). left. by apply (st_normal _ _ _ _ _ _ _ _ _ _ _ _ _ _ _ Hst).
    + rewrite (se_locked _ _ _ _ _ _ _ Hse), (st_locked _ _ _ _ _ _ _ _ _ _ _ _ _ _ _ Hst). apply elem_of_app. by left.
Qed.

Lemma settled_inv : inv bs s' B' ls' H'.
Proof using Hi Hst Hse Hlk Hmiss Hdev Hbs Hon Hrq Hcn Hrd.
  destruct settled_env as (Ed & R & [L1 L2] & Ecur & Enext).
  assert (∀ p c', B' !! p = Some c' → (∃ i, mine !! i = Some p ∧ ce_key c' = (dev, bnum + Z.of_nat i)) ∧ ent_inv bs (disks s4) ls' p c' ∨
    (p ∉ mine) ∧ ent_inv bs (disks s4) ls' p c') as Hcases.
  { intros p c' Hc'. destruct (decide (p ∈ mine)) as [Hm|Hm].
    - left. apply list_elem_of_lookup in Hm as [i Hip]. destruct (mine_ok i p Hip) as (c & Hc & Hk & He).
      assert (c = c') as -> by congruence. eauto.
    - right. split; [done|]. destruct (decide (p ∈ extra)) as [Hx|Hx].
      + destruct (extra_ok p Hx) as (c & Hc & He). by assert (c = c') as -> by congruence.
      + assert (p ∉ mine ++ extra) as Hmx by (by rewrite not_elem_of_app).
        apply other_ok; [done|]. by rewrite <- (st_other _ _ _ _ _ _ _ _ _ _ _ _ _ _ _ Hst p Hmx), <- (se_other _ _ _ _ _ _ _ Hse p Hmx). }
  split.
  - apply Hse.
  - done.
  - intros w p Hw. destruct (decide (p ∈ mine)) as [Hm|Hm].
    { apply list_elem_of_lookup in Hm as [i Hip]. destruct (mine_ok i p Hip) as (c & -> & _). by eexists. }
    destruct (decide (p ∈ extra)) as [Hx|Hx]; [destruct (extra_ok p Hx) as (c & -> & _); by eexists|].
    assert ((p ∉ take (Z.to_nat curn) mine) ∧ (p ∉ drop (Z.to_nat curn) mine)) as [Ht Hd']
      by (split; [by intros ?%elem_of_take_1|by intros ?%elem_of_drop_1]).
    assert (p ∈ ls w) as Hls.
    { destruct w.
      - apply (se_normal _ _ _ _ _ _ _ Hse) in Hw as [Hw|[?|[?|[_ ?]]]]; [|done|done|done].
        by apply (st_normal _ _ _ _ _ _ _ _ _ _ _ _ _ _ _ Hst) in Hw as [? _].
      - rewrite (se_locked _ _ _ _ _ _ _ Hse), (st_locked _ _ _ _ _ _ _ _ _ _ _ _ _ _ _ Hst) in Hw.
        apply elem_of_app in Hw as [?|Hw]; [done|]. destruct (op_has op CACHE_LOCKED); [done|by apply elem_of_nil in Hw]. }
    destruct (iv_dom _ _ _ _ _ Hi w p Hls) as [c Hc].
    destruct (settled_out p Hm) as [(? & c' & _ & -> & _)|[? _]]; [by eexists|congruence].
  - intros p c Hc. rewrite Ed. by destruct (Hcases p c Hc) as [[_ ?]|[_ ?]].
  - intros k p. rewrite settled_hash. split.
    + intros [(i & Hip & ->)|[Hm Hk]].
      * destruct (mine_ok i p Hip) as (c & Hc & Hk & _). eauto.
      * apply (iv_hash _ _ _ _ _ Hi) in Hk as (c & Hc & <-).
        destruct (settled_out p Hm) as [(c0 & c' & Hc0 & Hc' & Ek & _)|[? _]]; [|congruence].
        exists c'. split; [done|]. assert (c0 = c) as -> by congruence. done.
    + intros (c & Hc & <-). destruct (Hcases p c Hc) as [[(i & Hip & Hk) _]|[Hm _]]; [left; eauto|].
      right. split; [done|]. destruct (settled_out p Hm) as [(c0 & c' & Hc0 & Hc' & Ek & _)|[_ ?]]; [|congruence].
      apply (iv_hash _ _ _ _ _ Hi). exists c0. split; [done|]. assert (c' = c) as -> by congruence. done.
  - destruct (st_size _ _ _ _ _ _ _ _ _ _ _ _ _ _ _ Hst) as [Hs1 Hs2].
    pose proof (iv_size _ _ _ _ _ Hi) as [_ Hmx].
    rewrite Ecur, L1, (se_size _ _ _ _ _ _ _ Hse). lia.
  - rewrite Enext. intros p Hp. pose proof (st_next _ _ _ _ _ _ _ _ _ _ _ _ _ _ _ Hst p Hp) as Hn4.
    assert (p ∉ mine) as Hm.
    { intros Hm. apply list_elem_of_lookup in Hm as [i Hip].
      destruct (st_mine _ _ _ _ _ _ _ _ _ _ _ _ _ _ _ Hst i p Hip) as (c & _ & Hc & _).
      discriminate (eq_trans (eq_sym Hc) Hn4). }
    assert (p ∉ extra) as Hx.
    { intros Hx. destruct (st_extra _ _ _ _ _ _ _ _ _ _ _ _ _ _ _ Hst p Hx) as (_ & c & _ & Hc & _).
      discriminate (eq_trans (eq_sym Hc) Hn4). }
    assert (p ∉ mine ++ extra) as Hmx by (by rewrite not_elem_of_app).
    exact (eq_trans (se_other _ _ _ _ _ _ _ Hse p Hmx) Hn4).
  - rewrite L2. apply Hi.
  - intros d m b Hd. rewrite L2, Ed. intros Hm Hb. destruct (iv_devs _ _ _ _ _ Hi d m b Hd Hm Hb) as [Ho Hlt].
    split; [|done]. eapply on_device_length, Ho. apply (st_length _ _ _ _ _ _ _ _ _ _ _ _ _ _ _ Hst).
Qed.
End Settle.
