(* ===== verification/CacheRun.v ===== *)
(** Requests to the block cache: what [cache_block_io] does for blocks in the
    cache and blocks that are not, together. *)

From S2P Require Import Prelude Errors Sort CacheHash CacheState CacheIo CacheFlush BlockCache CacheInv.
From S2P Require Import CacheServe CacheMiss CacheFill CacheStage CacheSettle.

Section Run.
Context (bs : Z → Z).
Implicit Types (B : gmap ptr cache_ent) (ls : which → list ptr) (H : gmap (Z * Z) ptr) (D : gmap Z (list Z)).

(** * A request

    [n] blocks of [dev] from [bnum] on were read or written for [u], and nothing
    else changed. *)
Record handled (op dev bnum bsize n : Z) (u : user) D B H (u' : user) D' B' H' : Prop := {
  rq_keep d b : 0 ≤ b → (d = dev → ¬ bnum ≤ b < bnum + n) → contents bs D' B' H' d b = contents bs D B H d b;
  rq_block i : 0 ≤ i < n → ∃ blk, contents bs D' B' H' dev (bnum + i) = Some (new_at op bsize u i blk) ∧
    (op_has op CACHE_READ = true → contents bs D B H dev (bnum + i) = Some blk);
  rq_user : ∃ l, u' = serve_all op bsize l u ∧ zlen l = n ∧
    (∀ (i : nat) p blk, l !! i = Some (p, blk) → zlen blk = bsize ∧
      (op_has op CACHE_READ = true → contents bs D B H dev (bnum + Z.of_nat i) = Some blk)) ∧
    (want_ptr u = true → n = 1 → ∃ p c blk, l = [(p, blk)] ∧ H' !! (dev, bnum) = Some p ∧ B' !! p = Some c ∧
      (op_has op CACHE_LOCKED = true → 0 < ce_lock c));
  rq_zero : n = 0 → H' = H ∧ B' = B
}.

Lemma serve_all_cons op bsize p blk l u :
  serve_all op bsize ((p, blk) :: l) u = serve_all op bsize l (serve op bsize p blk u).
Proof. done. Qed.

Lemma serve_all_app op bsize l l' u : serve_all op bsize (l ++ l') u = serve_all op bsize l' (serve_all op bsize l u).
Proof. apply foldl_app. Qed.

Lemma new_at_serve_all op bsize l u i b :
  new_at op bsize (serve_all op bsize l u) i b = new_at op bsize u (zlen l + i) b.
Proof.
  revert u. induction l as [|[p blk] l IH]; intros u; [done|].
  rewrite serve_all_cons, IH, new_at_serve. f_equal. cbn [length]. lia.
Qed.

Lemma want_ptr_serve_all op bsize l u : want_ptr (serve_all op bsize l u) = want_ptr u.
Proof.
  revert u. induction l as [|[p blk] l IH]; intros u; [done|]. rewrite serve_all_cons, IH.
  unfold want_ptr, serve. by destruct (u_buf u).
Qed.

Lemma req_ok_serve_all op bsize l u n :
  req_ok op u bsize n → 0 < bsize → zlen l ≤ n → (∀ i p blk, l !! i = Some (p, blk) → zlen blk = bsize) →
  req_ok op (serve_all op bsize l u) bsize (n - zlen l).
Proof.
  revert u n. induction l as [|[p blk] l IH]; intros u n Hrq Hbs Hn Hl.
  { cbn. by rewrite Z.sub_0_r. }
  rewrite serve_all_cons. cbn [length] in Hn |- *. replace (n - Z.of_nat (S (length l))) with ((n - 1) - zlen l) by lia. apply IH.
  - apply (req_ok_serve op bsize u n p blk); [done|done|lia|]. by apply (Hl 0%nat p).
  - done.
  - lia.
  - intros i q b. apply (Hl (S i)).
Qed.

Lemma handled_zero op dev bnum bsize u D B H : handled op dev bnum bsize 0 u D B H u D B H.
Proof.
  split; [done|lia| |done]. exists []. split_and!; [done|done| |lia].
  intros i p blk Hl. by rewrite lookup_nil in Hl.
Qed.

Lemma handled_app op dev bnum bsize n m u u1 u2 D D1 D2 B B1 B2 H H1 H2 :
  0 < n → 0 ≤ m → 0 ≤ bnum →
  handled op dev bnum bsize n u D B H u1 D1 B1 H1 → handled op dev (bnum + n) bsize m u1 D1 B1 H1 u2 D2 B2 H2 →
  handled op dev bnum bsize (n + m) u D B H u2 D2 B2 H2.
Proof.
  intros Hn Hm Hb [K1 N1 (l1 & -> & L1 & R1 & P1) Z1] [K2 N2 (l2 & -> & L2 & R2 & P2) Z2]. split.
  - intros d b Hb0 Hno. rewrite K2, K1; [done|done| |done|]; intros Ed; specialize (Hno Ed); lia.
  - intros i Hi. destruct (decide (i < n)) as [Hlt|Hge].
    + destruct (N1 i) as (blk & E & Hr); [lia|]. exists blk. split; [|done]. rewrite K2; [done|lia|lia].
    + destruct (N2 (i - n)) as (blk & E & Hr); [lia|]. exists blk.
      replace (bnum + n + (i - n)) with (bnum + i) in * by lia. split.
      * rewrite E, new_at_serve_all, L1. do 2 f_equal. lia.
      * intros Hrd. rewrite <- (Hr Hrd). symmetry. apply K1; lia.
  - exists (l1 ++ l2). rewrite serve_all_app, length_app. split_and!; [done|lia| |].
    + intros i p blk Hl. apply lookup_app_Some in Hl as [Hl|[Hge Hl]]; [by eapply R1|].
      destruct (R2 _ _ _ Hl) as [Hz Hr]. split; [done|]. intros Hrd. rewrite <- (Hr Hrd).
      replace (bnum + n + Z.of_nat (i - length l1)) with (bnum + Z.of_nat i) by lia. symmetry. apply K1; lia.
    + intros Hw Hone. assert (m = 0) as -> by lia. destruct (Z2 eq_refl) as [-> ->].
      destruct l2; [|cbn in L2; lia]. rewrite app_nil_r. apply P1; [done|lia].
  - lia.
Qed.

(** * A miss *)

Lemma settled_handled s B ls H dev bnum bsize op mine extra s4 B4 ls4 H4 u curn s5 s' B' ls' H' :
  inv bs s B ls H → staged bs s B ls H dev bnum bsize op mine extra s4 B4 ls4 H4 →
  settled dev bnum bsize op mine extra B4 ls4 H4 u curn s5 s' B' ls' H' →
  upd_bc_lock 0 false s5 = upd_bc_lock 0 false s4 →
  (∀ i, 0 ≤ i < zlen mine → H !! (dev, bnum + i) = None) →
  1 ≤ curn ≤ zlen mine → (curn = zlen mine ∨ op_has op CACHE_READ = true) → 0 ≤ bnum →
  handled op dev bnum bsize curn u (disks s) B H
    (serve_all op bsize (zip (take (Z.to_nat curn) mine) (blks_of B4 (take (Z.to_nat curn) mine))) u) (disks s') B' H'.
Proof.
  intros Hi Hst Hse Hlk Hmiss Hcn Hrd Hb0.
  set (ps := take (Z.to_nat curn) mine). set (l := zip ps (blks_of B4 ps)).
  assert (length ps = Z.to_nat curn) as Hps by (subst ps; rewrite length_take; lia).
  assert (length (blks_of B4 ps) = length ps) as Hbl by (unfold blks_of; apply length_fmap).
  assert (∀ i p, ps !! i = Some p → mine !! i = Some p ∧ Z.of_nat i < curn) as Hin.
  { intros i p Hip. apply lookup_take_Some in Hip as [? ?]. split; [done|lia]. }
  assert (∀ i p c blk, ps !! i = Some p → B4 !! p = Some c → filled bsize c blk → l !! i = Some (p, blk)) as Hl.
  { intros i p c blk Hip Hc Hf. subst l. rewrite lookup_zip_with, Hip. cbn. unfold blks_of.
    rewrite list_lookup_fmap, Hip. cbn. rewrite Hc. cbn. by rewrite (fd_data _ _ _ Hf). }
  split.
  - intros d b Hb Hno. apply (settled_contents bs s B ls H dev bnum bsize op mine extra s4 B4 ls4 H4 Hi Hst u curn s5 s' B' ls' H' Hse Hlk Hmiss d b); [done|done|lia|].
    intros i Hlt [= -> ->]. apply Hno; [done|lia].
  - intros i Hlt. destruct (settled_contents bs s B ls H dev bnum bsize op mine extra s4 B4 ls4 H4 Hi Hst u curn s5 s' B' ls' H' Hse Hlk Hmiss
      dev (bnum + i)) as [_ Hc]; [lia|done|lia|]. destruct (Hc (Z.to_nat i)) as (blk & E1 & _ & E2); [lia|f_equal; lia|].
    rewrite Z2Nat.id in E1 by lia. eauto.
  - exists l. split_and!; [done| | |].
    + subst l. rewrite length_zip_with. lia.
    + intros i p blk Hli. subst l. apply lookup_zip_with_Some in Hli as (p' & blk' & [= <- <-] & Hip & Hblk).
      destruct (Hin i p Hip) as [Hmi Hlt].
      destruct (settled_mine bs s B ls H dev bnum bsize op mine extra s4 B4 ls4 H4 Hst u curn s5 s' B' ls' H' Hse i p Hmi)
        as (c & blk' & Hf & Hc & _). assert (blk' = blk) as ->.
      { specialize (Hl i p c blk' Hip Hc Hf). rewrite lookup_zip_with, Hip in Hl. cbn in Hl. rewrite Hblk in Hl. cbn in Hl. congruence. }
      split; [apply Hf|]. intros Hr.
      destruct (settled_contents bs s B ls H dev bnum bsize op mine extra s4 B4 ls4 H4 Hi Hst u curn s5 s' B' ls' H' Hse Hlk Hmiss
        dev (bnum + Z.of_nat i)) as [_ Hc']; [lia|done|lia|]. destruct (Hc' i Hlt eq_refl) as (blk'' & _ & Hblk'' & E2).
      fold ps in Hblk''. assert (blk'' = blk) as -> by congruence. auto.
    + intros Hw ->. destruct (lookup_lt_is_Some_2 ps 0) as [p Hp]; [lia|]. destruct (Hin 0%nat p Hp) as [Hmi Hlt].
      destruct (settled_mine bs s B ls H dev bnum bsize op mine extra s4 B4 ls4 H4 Hst u 1 s5 s' B' ls' H' Hse 0 p Hmi)
        as (c & blk & Hf & Hc & _ & HB'). rewrite decide_True in HB' by done. eexists p, _, blk. split_and!; [| |exact HB'|].
      * assert (length l = 1%nat) as Hll by (subst l; rewrite length_zip_with; lia).
        pose proof (Hl 0%nat p c blk Hp Hc Hf) as Hl0. destruct l as [|x [|? ?]]; [done| |done]. cbn in Hl0. congruence.
      * apply (settled_hash bs s B ls H dev bnum bsize op mine extra s4 B4 ls4 H4 Hi Hst u 1 s5 s' B' ls' H' Hse Hmiss).
        left. exists 0%nat. split; [done|]. f_equal. lia.
      * intros Hlo. unfold finished.
        destruct (served_fields op (new_at op bsize u (Z.of_nat 0) blk) (blank_ent dev (bnum + Z.of_nat 0) bsize c)) as (_ & _ & _ & _ & -> & _).
        rewrite Hlo. cbn. lia.
  - lia.
Qed.

Section Request.
Context (dev bsize op max : Z).
Hypothesis Hdev : 0 ≤ dev.
Hypothesis Hbs : bs dev = bsize.
Hypothesis Hbs512 : 512 ≤ bsize.

(** What a request leaves behind. *)
Record leaves (s : state) B ls H (bnum n : Z) (u u' : user) (s' : state) B' ls' H' : Prop := {
  lv_inv : inv bs s' B' ls' H';
  lv_limits : limits s s';
  lv_handled : handled op dev bnum bsize n u (disks s) B H u' (disks s') B' H';
  lv_locked : zlen (ls' Locked) ≤ zlen (ls Locked) + (if op_has op CACHE_LOCKED then n else 0);
  lv_again p c : n = 1 → H' !! (dev, bnum) = Some p → B' !! p = Some c → 1 < ce_lock c →
    zlen (ls' Locked) ≤ zlen (ls Locked)
}.

Lemma io_miss_runs s B ls H bnum num u (Q : Z + Z * user → state → Prop) :
  inv bs s B ls H → bc_held s = true → max_device_blocks s !! Z.to_nat dev = Some max →
  H !! (dev, bnum) = None → 0 ≤ bnum → 1 ≤ num → bnum + num ≤ max →
  req_ok op u bsize num → (want_ptr u = true → num = 1) → zlen (ls Locked) + 64 ≤ max_blocks s →
  (∀ k u' s' B' ls' H', 1 ≤ k ≤ num → leaves s B ls H bnum k u u' s' B' ls' H' → bc_held s' = true →
    Q (inr (k, u')) s') →
  runs (io_miss dev bnum num bsize op (want_ptr u) u) s Q.
Proof using Hdev Hbs Hbs512.
  intros Hi Hheld Hmax Hmiss0 Hb Hn Hfit Hrq Hone Hroom HQ. pose proof (iv_view _ _ _ _ _ Hi) as V.
  assert (dev < 256) as Hdev'.
  { apply lookup_lt_Some in Hmax. rewrite (iv_ndev _ _ _ _ _ Hi) in Hmax. lia. }
  unfold io_miss. apply runs_bind. eapply (count_missing_runs _ s B ls H); [done|lia|lia| |].
  { intros i Hi'. by replace (bnum + i) with bnum by lia. }
  intros curn Hcn Hc64 Hmiss1. apply runs_bind. eapply (num_to_get_runs s B ls H); [done|done|done|done|done|lia|done|].
  intros needed Hnd Hfit2 Hmiss Hrd.
  eapply (claim_runs bs s B ls H dev bnum bsize needed); [done|lia|lia|done|].
  intros ents nd s1 B1 ls1 Hcl Hnd0. cbv zeta.
  set (unlocked := negb (nd =? 0) || op_has op CACHE_READ).
  set (mine := take (Z.to_nat needed) ents). set (extra := drop (Z.to_nat needed) ents).
  destruct (claimed_ready _ _ _ _ _ _ _ _ _ _ _ _ _ _ Hi Hcl) as [R1 Ed1].
  pose proof (cl_env _ _ _ _ _ _ _ _ _ _ _ _ _ Hcl) as Ea. pose proof (cl_view _ _ _ _ _ _ _ _ _ _ _ _ _ Hcl) as V1.
  set (s2 := if unlocked then upd_bc_lock (bc_sem s1) false s1 else s1).
  assert (bc_held s2 = negb unlocked) as Hh2.
  { subst s2. destruct unlocked; [done|]. cbn. rewrite (f_equal bc_held Ea : bc_held s1 = bc_held s). done. }
  apply runs_bind, (runs_eq _ _ tt s2); [by subst s2; destruct unlocked|].
  assert (view s2 B1 ls1 (claim_map dev bnum mine H)) as V2.
  { subst s2. destruct unlocked; [|done]. destruct V1 as [[He Hn1 Hf] ? ? ? ?]. split; [split; [|done|done]|done..].
    intros w. by destruct w; [apply (He Normal)|apply (He Locked)]. }
  assert (upd_bc_lock 0 false s2 = upd_bc_lock 0 false s1) as E2 by (subst s2; by destruct unlocked).
  assert (ready s2) as R2.
  { subst s2. destruct unlocked; [|done]. destruct R1. by split. }
  apply runs_bind. eapply (clean_runs bs s B ls H dev bnum bsize needed ents nd s1 B1 ls1 Hi Hcl s2); [done|done| |done|].
  { rewrite <- Ed1. exact (f_equal disks E2). }
  intros s3 B3 V3 E3 R3 Hc3. cbn [Z.eqb negb].
  assert (∀ i, 0 ≤ i < needed → on_device bs (disks s) dev (bnum + i) ∧ bnum + i < 2 ^ 31) as Hon.
  { intros i Hi'. eapply (iv_devs _ _ _ _ _ Hi); [done|done|lia]. }
  eapply (blocks_runs bs s B ls H dev bnum bsize needed ents nd s1 B1 ls1 Hi Hcl op s3 B3); [done|done|done|done|lia|by intros; apply Hon|].
  intros s4 B4 V4 E4 R4 Ed4 Hsz4 Hout4 Hmine4.
  assert (upd_bc_lock 0 false (env_io s3) = upd_bc_lock 0 false (env_io s1)) as E31.
  { rewrite E3. unfold env_io. subst s2. by destruct unlocked. }
  pose proof (staged_intro bs s B ls H dev bnum bsize needed ents nd s1 B1 ls1 Hi Hcl op s3 B3 s4 B4 ltac:(lia) Hmiss Hc3 E31 E4 V4 R4 Ed4 Hsz4 Hout4 Hmine4) as Hst.
  cbv zeta in Hst. fold mine extra in Hst.
  assert (bc_held s4 = negb unlocked) as Hh4.
  { rewrite <- Hh2, (f_equal bc_held E4 : bc_held s4 = bc_held s3). exact (f_equal bc_held E3). }
  set (s5 := if unlocked then upd_bc_lock (bc_sem s4) true s4 else s4).
  assert (bc_held s5 = true) as Hh5 by (subst s5; destruct unlocked; [done|by rewrite Hh4]).
  apply runs_bind, (runs_eq _ _ tt s5).
  { subst s5. destruct unlocked; [|done]. unfold LOCK_bc. by rewrite Hh4. }
  assert (upd_bc_lock 0 false s5 = upd_bc_lock 0 false s4) as E5 by (subst s5; by destruct unlocked).
  assert (view s5 B4 ls1 (claim_map dev bnum mine H)) as V5.
  { subst s5. destruct unlocked; [|done]. destruct V4 as [[He Hn1 Hf] ? ? ? ?]. split; [split; [|done|done]|done..].
    intros w. by destruct w; [apply (He Normal)|apply (He Locked)]. }
  pose proof (cl_len _ _ _ _ _ _ _ _ _ _ _ _ _ Hcl) as Hlen.
  assert (zlen mine = needed) as Hml by (subst mine; rewrite length_take; lia).
  assert (take (Z.to_nat curn) ents = take (Z.to_nat curn) mine) as Etk.
  { subst mine. rewrite take_take. f_equal. lia. }
  assert (curn = zlen mine ∨ op_has op CACHE_READ = true) as Hrd' by (destruct Hrd; [left; lia|by right]).
  rewrite Etk. eapply (settle_runs bs s B ls H dev bnum bsize op mine extra s4 B4 ls1 _ Hi Hst u curn num s5);
    [done|lia|done|lia|lia|by intros Hw; specialize (Hone Hw); lia|].
  intros s' B' ls' H' Hse. apply runs_ret. eapply (HQ curn _ s' B' ls' H'); [lia| |].
  - split.
    + eapply (settled_inv bs s B ls H dev bnum bsize op mine extra s4 B4 ls1 _ Hi Hst u curn num s5 s' B' ls' H' Hse E5); try done; try lia.
      * by rewrite Hml.
      * by rewrite Hml.
    + apply (settled_env bs s B ls H dev bnum bsize op mine extra s4 B4 ls1 _ Hst u curn s5 s' B' ls' H' Hse E5).
    + eapply settled_handled; try done; [by rewrite Hml|lia].
    + rewrite (se_locked _ _ _ _ _ _ _ _ _ _ _ _ _ _ _ _ Hse), (cl_locked _ _ _ _ _ _ _ _ _ _ _ _ _ Hcl), length_app.
      destruct (op_has op CACHE_LOCKED); [rewrite length_take; lia|cbn; lia].
    + intros p c -> Hp Hc Hlk. exfalso.
      apply (settled_hash bs s B ls H dev bnum bsize op mine extra s4 B4 ls1 _ Hi Hst u 1 s5 s' B' ls' H' Hse) in Hp
        as [(i & Hip & [= Ei])|[_ Hp]]; [|congruence|by rewrite Hml].
      destruct (settled_mine bs s B ls H dev bnum bsize op mine extra s4 B4 ls1 _ Hst u 1 s5 s' B' ls' H' Hse i p Hip) as (c4 & blk & _ & _ & _ & Hc').
      rewrite Hc, decide_True in Hc' by lia. injection Hc' as ->. unfold finished in Hlk.
      destruct (served_fields op (new_at op bsize u (Z.of_nat i) blk) (blank_ent dev (bnum + Z.of_nat i) bsize c4)) as (_ & _ & _ & _ & El & _).
      rewrite El in Hlk. cbn in Hlk. destruct (op_has op CACHE_LOCKED); lia.
  - rewrite <- Hh5. exact (f_equal bc_held (se_env _ _ _ _ _ _ _ _ _ _ _ _ _ _ _ _ Hse)).
Qed.

(** * A hit *)

Lemma hit_handled D B H p c c' bnum u blk :
  (∀ k q, H !! k = Some q ↔ ∃ c, B !! q = Some c ∧ ce_key c = k) →
  B !! p = Some c → ce_key c = (dev, bnum) → ce_data c = Some blk → zlen blk = bsize →
  c' = served_ent op (new_block op bsize u blk) c → ce_data c' = Some (new_block op bsize u blk) → 0 ≤ ce_lock c →
  handled op dev bnum bsize 1 u D B H (serve op bsize p blk u) D (<[p := c']> B) H.
Proof using Hdev Hbs.
  intros Hh Hc Hk Hd Hl Ec' Hd' Hlk.
  assert (H !! (dev, bnum) = Some p) as Hp by (apply Hh; eauto).
  assert (∀ i b, i = 0 → new_at op bsize u i b = new_block op bsize u b) as Hat.
  { intros i b ->. unfold new_at. f_equal. unfold advance. destruct u. cbn. f_equal. lia. }
  split.
  - intros d b Hb Hno. unfold contents. destruct (H !! (d, b)) as [q|] eqn:Eq; [|done].
    destruct (decide (p = q)) as [<-|Hne]; [|by rewrite lookup_insert_ne].
    apply Hh in Eq as (c0 & Hc0 & Hk0). exfalso. assert (c0 = c) as -> by congruence.
    rewrite Hk in Hk0. injection Hk0 as -> ->. apply Hno; [done|lia].
  - intros i Hi. assert (i = 0) as -> by lia. rewrite Z.add_0_r. exists blk. unfold contents.
    rewrite Hp, lookup_insert_eq, Hc. cbn. rewrite Hat by done. done.
  - exists [(p, blk)]. split_and!; [done|done| |].
    + intros [|i] q b Hl'; [|done]. cbn in Hl'. injection Hl' as <- <-. split; [done|]. intros _.
      rewrite Z.add_0_r. unfold contents. by rewrite Hp, Hc.
    + intros _ _. exists p, c', blk. split_and!; [done|done|apply lookup_insert_eq|]. intros Hlo. subst c'.
      destruct (served_fields op (new_block op bsize u blk) c) as (_ & _ & _ & _ & -> & _). rewrite Hlo. lia.
  - lia.
Qed.

(** * The loop *)

Lemma limits_trans s s1 s2 : limits s s1 → limits s1 s2 → limits s s2.
Proof using. intros [? ?] [? ?]. split; congruence. Qed.

Lemma leaves_app s B ls H bnum n m u u1 u2 s1 B1 ls1 H1 s2 B2 ls2 H2 :
  0 < n → 0 ≤ m → 0 ≤ bnum →
  leaves s B ls H bnum n u u1 s1 B1 ls1 H1 → leaves s1 B1 ls1 H1 (bnum + n) m u1 u2 s2 B2 ls2 H2 →
  leaves s B ls H bnum (n + m) u u2 s2 B2 ls2 H2.
Proof using.
  intros Hn Hm Hb [_ L1 R1 K1 P1] [I2 L2 R2 K2 P2]. split; [done|by eapply limits_trans|by eapply handled_app| |].
  - destruct (op_has op CACHE_LOCKED); lia.
  - intros p c Hone Hp Hc Hlk. assert (m = 0) as -> by lia. destruct (rq_zero _ _ _ _ _ _ _ _ _ _ _ _ _ R2 eq_refl) as [-> ->].
    specialize (P1 p c ltac:(lia) Hp Hc Hlk). destruct (op_has op CACHE_LOCKED); lia.
Qed.

Lemma leaves_zero s B ls H bnum u s' :
  inv bs s B ls H → upd_bc_lock 0 false s' = upd_bc_lock 0 false s → leaves s B ls H bnum 0 u u s' B ls H.
Proof using.
  intros Hi E. assert (∀ {A} (f : state → A), f (upd_bc_lock 0 false s') = f s' → f (upd_bc_lock 0 false s) = f s → f s' = f s) as Hf.
  { intros A f E1 E2. by rewrite <- E1, E. }
  pose proof Hi as [[[He Hn1 Hf1] V2 V3 V4 V5] [? ? ? ? ?] ? ? ? ? ? ? ?].
  split; [split|..]; rewrite ?(Hf _ disks), ?(Hf _ cur_blocks), ?(Hf _ max_blocks), ?(Hf _ next_ptr), ?(Hf _ max_device_blocks) by done; try done.
  - split; rewrite ?(Hf _ heap), ?(Hf _ ht) by done; try done. split; rewrite ?(Hf _ heap) by done; [|done|done].
    intros w. rewrite (Hf _ (get_list w)) by (by destruct w). apply He.
  - split; rewrite ?(Hf _ mem), ?(Hf _ io), ?(Hf _ iov_held), ?(Hf _ iovec_pool), ?(Hf _ iovec_used) by done; done.
  - split; by apply Hf.
  - apply handled_zero.
  - destruct (op_has op CACHE_LOCKED); lia.
Qed.

Lemma block_lookup_runs s B ls H bnum (Q : option ptr → state → Prop) :
  inv bs s B ls H → Q (H !! (dev, bnum)) s → runs (block_lookup dev bnum) s Q.
Proof using.
  intros Hi HQ. pose proof (iv_view _ _ _ _ _ Hi) as V. unfold block_lookup.
  apply runs_bind, (runs_ht_find _ _ _ _ V). destruct (H !! (dev, bnum)) as [p|] eqn:Ep; [|by apply runs_ret].
  apply (iv_hash _ _ _ _ _ Hi) in Ep as (c & Hc & _). apply runs_bind. eapply (runs_load _ _ _ _ V); [done|]. intros c0 -> _.
  pose proof (ei_busy _ _ _ _ _ (iv_ent _ _ _ _ _ Hi p _ Hc)) as Hb. change (is_busy (erase c0)) with (is_busy c0) in Hb.
  rewrite Hb. by apply runs_ret.
Qed.

Lemma io_loop_runs fuel s B ls H bnum num u (Q : Z * user → state → Prop) :
  inv bs s B ls H → bc_held s = true → max_device_blocks s !! Z.to_nat dev = Some max →
  0 ≤ bnum → 0 ≤ num → bnum + num ≤ max → num ≤ Z.of_nat fuel →
  req_ok op u bsize num → (want_ptr u = true → num ≤ 1) →
  zlen (ls Locked) + (if op_has op CACHE_LOCKED then num else 0) + 64 ≤ max_blocks s →
  (∀ u' s' B' ls' H', leaves s B ls H bnum num u u' s' B' ls' H' → bc_held s' = false → Q (0, u') s') →
  runs (io_loop fuel dev bnum num bsize op (want_ptr u) u) s Q.
Proof using Hdev Hbs Hbs512.
  revert s B ls H bnum num u. induction fuel as [|fuel IH];
    intros s B ls H bnum num u Hi Hheld Hmax Hb Hn Hfit Hfuel Hrq Hone Hroom HQ; cbn [io_loop].
  { assert (num = 0) as -> by lia. cbn [Z.eqb]. apply runs_bind, runs_modifyS, runs_ret. eapply HQ; [by apply leaves_zero|done]. }
  destruct (Z.eqb_spec num 0) as [->|Hne].
  { apply runs_bind, runs_modifyS, runs_ret. eapply HQ; [by apply leaves_zero|done]. }
  apply runs_bind. eapply block_lookup_runs; [done|].
  assert (∀ k u1 s1 B1 ls1 H1, 1 ≤ k ≤ num → leaves s B ls H bnum k u u1 s1 B1 ls1 H1 → bc_held s1 = true →
    runs (io_loop fuel dev (bnum + k) (num - k) bsize op (want_ptr u) u1) s1 Q) as Hgo.
  { intros k u1 s1 B1 ls1 H1 Hk Hlv Hh1. pose proof Hlv as [I1 [L1 L2] Hreq Hlo _].
    destruct (rq_user _ _ _ _ _ _ _ _ _ _ _ _ _ Hreq) as (l & Eu & Hll & Hl & _).
    assert (want_ptr u1 = want_ptr u) as Ew by (rewrite Eu; apply want_ptr_serve_all). rewrite <- Ew.
    eapply (IH s1 B1 ls1 H1); [done|done|by rewrite L2|lia|lia|lia|lia| | | |].
    - rewrite Eu, <- Hll. apply req_ok_serve_all; [done|lia|lia|]. intros i p blk Hi'. by apply Hl in Hi' as [? _].
    - rewrite Ew. intros Hw. specialize (Hone Hw). lia.
    - rewrite L1. destruct (op_has op CACHE_LOCKED); lia.
    - intros u' s' B' ls' H' Hlv' Hh'. eapply (HQ u' s' B' ls' H'); [|done].
      replace num with (k + (num - k)) by lia. eapply leaves_app; [lia|lia|lia|exact Hlv|exact Hlv']. }
  destruct (H !! (dev, bnum)) as [p|] eqn:Ep.
  - apply (iv_hash _ _ _ _ _ Hi) in Ep as (c & Hc & Hk).
    pose proof (iv_ent _ _ _ _ _ Hi p c Hc) as He. destruct (ew_data _ _ _ (ei_wf _ _ _ _ _ He)) as (blk & Hd & Hl).
    injection Hk as Ek1 Ek2. apply runs_bind.
    eapply (io_hit_runs bs s B ls H p c blk dev bnum bsize op u num); [done|done|unfold ce_key; congruence|done|done|done|lia|].
    intros s1 ls1 c1 I1 E1 Ec1 Hd1 Hlo Hagain.
    apply (Hgo 1 (serve op bsize p blk u) s1 (<[p := c1]> B) ls1 H); [lia| |].
    + split; [done| | |done|].
      * split; [exact (f_equal max_blocks E1)|exact (f_equal max_device_blocks E1)].
      * rewrite (env_disks _ _ E1).
        eapply hit_handled; [apply Hi|done|unfold ce_key; congruence|done|congruence|done|done|apply He].
      * intros q cq _ Hq Hcq Hlk. apply Hagain. assert (H !! (dev, bnum) = Some p) as Hp
          by (apply (iv_hash _ _ _ _ _ Hi); exists c; unfold ce_key; split; congruence).
        assert (q = p) as -> by congruence. rewrite lookup_insert_eq in Hcq. injection Hcq as <-. rewrite Ec1 in Hlk.
        destruct (served_fields op (new_block op bsize u blk) c) as (_ & _ & _ & _ & El & _). rewrite El in Hlk.
        destruct (op_has op CACHE_LOCKED); lia.
    + rewrite (f_equal bc_held E1 : bc_held s1 = bc_held s). done.
  - apply runs_bind. eapply io_miss_runs; [done|done|done|done|done|lia|lia|done|by intros Hw; specialize (Hone Hw); lia| |].
    { destruct (op_has op CACHE_LOCKED); lia. }
    intros k u1 s1 B1 ls1 H1 Hk Hlv Hh1. by eapply Hgo.
Qed.
End Request.
End Run.
