(* ===== verification/CacheStore.v ===== *)
(** The block cache as a store of blocks: an abstract specification, and that
    [cache_block_io] implements it for reads, writes and block pointers. *)

From S2P Require Import Prelude Errors Sort CacheHash CacheState CacheIo CacheFlush BlockCache CacheInv.
From S2P Require Import CacheServe CacheMiss CacheFill CacheStage CacheSettle CacheRun.

(** * The specification

    A store has the contents of every block; reading and writing blocks is all
    there is to it. *)
Definition store_of : Type := Z → Z → option (list Z).

Definition read_blocks (A : store_of) (dev bnum n : Z) : option (list (list Z)) :=
  mapM (λ i, A dev (bnum + i)) (seqZ 0 n).

Definition write_blocks (A : store_of) (dev bnum bsize n : Z) (data : list Z) : store_of := λ d b,
  if bool_decide (d = dev ∧ bnum ≤ b < bnum + n) then Some (slice ((b - bnum) * bsize) bsize data) else A d b.

(** [s] is a cache at rest whose blocks are those of [A]; at most [L] blocks are
    locked. *)
Definition represents (bs : Z → Z) (s : state) (A : store_of) (L : Z) : Prop :=
  ∃ B ls H, inv bs s B ls H ∧ bc_held s = false ∧ zlen (ls Locked) ≤ L ∧
    ∀ d b, 0 ≤ b → contents bs (disks s) B H d b = A d b.

(** Blocks a caller may ask for. *)
Record valid (bs : Z → Z) (s : state) (dev bnum n bsize : Z) : Prop := {
  vd_dev : 0 ≤ dev;
  vd_max : ∃ max, max_device_blocks s !! Z.to_nat dev = Some max ∧ bnum + n ≤ max;
  vd_bnum : 0 ≤ bnum;
  vd_n : 1 ≤ n;
  vd_bs : bs dev = bsize;
  vd_512 : 512 ≤ bsize
}.

(** * Requests below 64 KB *)

Section Small.
Context (bs : Z → Z).

Lemma valid_bounds s B ls H dev bnum n bsize :
  inv bs s B ls H → valid bs s dev bnum n bsize → bnum + n ≤ 2 ^ 31 ∧ bsize < 2 ^ 24 ∧
    ∀ i, 0 ≤ i < n → on_device bs (disks s) dev (bnum + i).
Proof.
  intros Hi [Hd (max & Hm & Hfit) Hb Hn Ebs H512].
  destruct (iv_devs _ _ _ _ _ Hi dev max (bnum + n - 1) Hd Hm) as [(d & _ & _ & _ & _ & Hbs) Hlt]; [lia|].
  split_and!; [lia|lia|]. intros i Hi'. by eapply (iv_devs _ _ _ _ _ Hi); [done|done|lia].
Qed.

Lemma small_runs s B ls H dev bnum data n bsize op (Q : Z * user → state → Prop) :
  inv bs s B ls H → bc_held s = false → valid bs s dev bnum n bsize → n * bsize < 64 * 1024 →
  req_ok op (mkUser data 0 None) bsize n → (has data = false → n = 1 ∧ op_has op CACHE_WRITE = false) →
  zlen (ls Locked) + (if op_has op CACHE_LOCKED then n else 0) + 64 ≤ max_blocks s →
  (∀ u' s' B' ls' H', leaves bs dev bsize op s B ls H bnum n (mkUser data 0 None) u' s' B' ls' H' →
    bc_held s' = false → Q (0, u') s') →
  runs (cache_block_io dev bnum data n bsize op (negb (has data))) s Q.
Proof.
  intros Hi Hheld Hv Hsmall Hrq Hnone Hroom HQ. destruct (valid_bounds _ _ _ _ _ _ _ _ Hi Hv) as (Hmx & Hbs24 & Hon).
  pose proof Hv as [Hd (max & Hm & Hfit) Hb Hn Ebs H512]. unfold cache_block_io.
  destruct (Z.eqb_spec bsize 0); [lia|]. destruct (Z.eqb_spec n 0); [lia|].
  assert (negb (has data) && negb (negb (has data)) = false) as -> by (by destruct (has data)).
  assert (negb (has data) && (negb (n =? 1) || op_has op CACHE_WRITE) = false) as ->.
  { destruct (has data); [done|]. destruct Hnone as [-> ->]; done. }
  apply runs_bind. eapply device_blocks_runs; [done|done|]. unfold s64. rewrite !swrap_id by nia.
  destruct (Z.ltb_spec max (bnum + n)); [lia|]. destruct (Z.leb_spec (64 * 1024) (n * bsize)); [lia|].
  apply runs_bind, (runs_eq _ _ tt (upd_bc_lock (bc_sem s) true s)); [unfold LOCK_bc; by rewrite Hheld|].
  pose proof (leaves_zero bs dev bsize op s B ls H bnum (mkUser data 0 None) (upd_bc_lock (bc_sem s) true s) Hi eq_refl) as Hz.
  eapply (io_loop_runs bs dev bsize op max Hd Ebs H512 _ _ B ls H bnum n (mkUser data 0 None)); [apply Hz|done|done|done|lia|lia|lia|done| |done|].
  { unfold want_ptr. cbn. intros Hx%negb_true_iff. destruct Hnone as [-> _]; [done|lia]. }
  intros u' s' B' ls' H' [I1 [L1 L2] R1 K1 P1] Hh'. eapply HQ; [|done]. split; [done|done|exact R1|done|done].
Qed.

(** What a read of several blocks put into the buffer. *)
Lemma serve_all_read op bsize l buf off p :
  op_has op CACHE_READ = true → (∀ (i : nat) p blk, l !! i = Some (p, blk) → zlen blk = bsize) →
  0 ≤ off → 0 < bsize → off + zlen l * bsize ≤ zlen buf →
  u_buf (serve_all op bsize l (mkUser (Some buf) off p)) = Some (splice off (concat l.*2) buf).
Proof.
  intros Hr. revert buf off. induction l as [|[q blk] l IH]; intros buf off Hl Ho Hbs Hfit.
  { change (Some buf = Some (splice off [] buf)). unfold splice. cbn [length app].
    f_equal. rewrite <- (take_drop (Z.to_nat off) buf) at 1. do 2 f_equal. lia. }
  cbn [length] in Hfit. rewrite serve_all_cons. unfold serve. cbn [u_buf u_off u_ptr]. rewrite Hr. cbn [advance u_buf u_off u_ptr].
  pose proof (Hl 0%nat q blk eq_refl) as Hlb. unfold advance. cbn [u_buf u_off u_ptr]. rewrite IH.
  - rewrite <- Hlb at 1. rewrite splice_splice by nia. done.
  - intros i p' b Hi. by apply (Hl (S i) p').
  - nia.
  - done.
  - rewrite splice_length; nia.
Qed.

Lemma serve_all_write op bsize l u : op_has op CACHE_READ = false → op_has op CACHE_WRITE = true →
  u_buf (serve_all op bsize l u) = u_buf u.
Proof.
  intros Hr Hw. revert u. induction l as [|[q blk] l IH]; intros u; [done|]. rewrite serve_all_cons, IH.
  unfold serve. rewrite Hr, Hw. by destruct (u_buf u).
Qed.

Lemma read_blocks_lookup (A : store_of) dev bnum (blks : list (list Z)) :
  (∀ (i : nat) blk, blks !! i = Some blk → A dev (bnum + Z.of_nat i) = Some blk) →
  read_blocks A dev bnum (zlen blks) = Some blks.
Proof.
  intros Hall. unfold read_blocks. apply mapM_Some_2, Forall2_same_length_lookup_2.
  - rewrite length_seqZ. lia.
  - intros i x y Hx Hy. apply lookup_seqZ in Hx as [-> Hlt]. rewrite Z.add_0_l. by apply Hall.
Qed.
End Small.
