(* ===== verification/CacheLarge.v ===== *)
(** Requests of 64 KB and more, which go to the device directly: a read takes
    what is newer from the cache, a write brings the cache up to date. *)

From S2P Require Import Prelude Errors Sort CacheHash CacheState CacheIo CacheFlush BlockCache CacheInv.
From S2P Require Import CacheServe CacheMiss CacheFill CacheStage CacheSettle CacheRun CacheStore.

Section Large.
Context (bs : Z → Z).
Implicit Types (B : gmap ptr cache_ent) (ls : which → list ptr) (H : gmap (Z * Z) ptr) (D : gmap Z (list Z)).

(** * Reading *)

Lemma splice_inside (pre old new post : list Z) off :
  zlen pre = off → length old = length new → splice off new (pre ++ old ++ post) = pre ++ new ++ post.
Proof.
  intros Hp Hl. unfold splice. rewrite take_app_length' by lia. f_equal. f_equal.
  rewrite (assoc_L (++)). apply drop_app_length'. rewrite length_app. lia.
Qed.

Lemma overlay_runs raw : ∀ s B ls H dev bnum bsize pre post new (Q : list Z → state → Prop),
  inv bs s B ls H → bs dev = bsize → length new = length raw →
  (∀ (i : nat) r b, raw !! i = Some r → new !! i = Some b → zlen r = bsize ∧
    block bs (disks s) dev (bnum + Z.of_nat i) = Some r ∧ contents bs (disks s) B H dev (bnum + Z.of_nat i) = Some b) →
  Q (pre ++ concat new ++ post) s →
  runs (overlay dev bnum bsize (length raw) (zlen pre) (pre ++ concat raw ++ post)) s Q.
Proof.
  induction raw as [|r raw IH]; intros s B ls H dev bnum bsize pre post new Q Hi Ebs Hl Hall HQ; cbn [length overlay].
  { destruct new; [|done]. by apply runs_ret. }
  destruct new as [|b new]; [done|]. destruct (Hall 0%nat r b eq_refl eq_refl) as (Hr & Hblk & Hcon).
  rewrite Z.add_0_r in Hblk, Hcon. apply runs_bind. eapply block_lookup_runs; [done|].
  pose proof (iv_view _ _ _ _ _ Hi) as V. unfold contents in Hcon.
  assert (zlen (pre ++ b) = zlen pre + bsize ∧ length b = length r) as [Hpre Hbl].
  { destruct (H !! (dev, bnum)) as [p|] eqn:Ep.
    - destruct (B !! p) as [c|] eqn:Hc; [|done]. cbn in Hcon.
      apply (iv_hash _ _ _ _ _ Hi) in Ep as (c' & Hc' & Hk). assert (c' = c) as -> by congruence.
      destruct (ew_data _ _ _ (ei_wf _ _ _ _ _ (iv_ent _ _ _ _ _ Hi p c Hc))) as (dt & Hdt & Hlen).
      injection Hk as Ek1 Ek2. rewrite length_app. assert (dt = b) as -> by congruence. rewrite Ek1, Ebs in Hlen. lia.
    - assert (r = b) as -> by congruence. rewrite length_app. lia. }
  apply runs_bind, (runs_mono _ _ (λ o s1, s1 = s ∧ o = pre ++ b ++ concat raw ++ post)).
  { cbn [concat]. rewrite <- !(assoc_L (++)). destruct (H !! (dev, bnum)) as [p|] eqn:Ep.
    - destruct (B !! p) as [c|] eqn:Hc; [|done]. cbn in Hcon.
      apply (iv_hash _ _ _ _ _ Hi) in Ep as (c' & Hc' & Hk). assert (c' = c) as -> by congruence. injection Hk as Ek1 Ek2.
      apply runs_bind. eapply (runs_load _ _ _ _ V); [done|]. intros c0 -> _. cbn in Ek1, Ek2, Hcon.
      unfold other_block. rewrite Ek1, Ek2, !Z.eqb_refl. cbn [negb orb]. rewrite Hcon. cbn [deref].
      apply runs_bind, runs_ret. rewrite load_bytes_Ok by lia. rewrite slice_0, take_ge by lia. cbn.
      rewrite store_bytes_Ok by (rewrite ?length_app; lia). eapply runs_liftO; [done|]. split; [done|]. by apply splice_inside.
    - apply runs_ret. split; [done|]. by assert (r = b) as -> by congruence. }
  intros o s1 [-> ->]. rewrite <- Hpre. rewrite (assoc_L (++) pre).
  eapply (IH s B ls H dev (bnum + 1) bsize (pre ++ b) post new); [done|done|cbn in Hl; lia| |].
  - intros i r' b' Hr' Hb'. replace (bnum + 1 + Z.of_nat i) with (bnum + Z.of_nat (S i)) by lia. by apply Hall.
  - cbn [concat] in HQ. by rewrite <- !(assoc_L (++)) in HQ |- *.
Qed.

(** A run of blocks of the device. *)
Lemma slice_blocks (d : list Z) pos bsize n :
  0 ≤ pos → 0 < bsize → pos + Z.of_nat n * bsize ≤ zlen d →
  slice pos (Z.of_nat n * bsize) d = concat ((λ i, slice (pos + Z.of_nat i * bsize) bsize d) <$> seq 0 n).
Proof.
  intros Hp Hb. revert pos Hp. induction n as [|n IH]; intros pos Hp Hfit.
  { unfold slice. by rewrite Z.mul_0_l. }
  cbn [seq fmap list_fmap concat]. rewrite <- fmap_S_seq, <- list_fmap_compose.
  rewrite (slice_split pos (Z.of_nat (S n) * bsize) bsize) by nia.
  f_equal; [by rewrite Z.add_0_r|]. replace (Z.of_nat (S n) * bsize - bsize) with (Z.of_nat n * bsize) by lia.
  rewrite IH by lia. f_equal. apply list_fmap_ext. intros i x _. cbn. f_equal. lia.
Qed.

Lemma contents_Some s B ls H dev b :
  inv bs s B ls H → on_device bs (disks s) dev b → ∃ blk, contents bs (disks s) B H dev b = Some blk ∧ zlen blk = bs dev.
Proof.
  intros Hi Hon. unfold contents. destruct (H !! (dev, b)) as [p|] eqn:Ep.
  - apply (iv_hash _ _ _ _ _ Hi) in Ep as (c & Hc & [= <- <-]). rewrite Hc.
    destruct (ew_data _ _ _ (ei_wf _ _ _ _ _ (iv_ent _ _ _ _ _ Hi p c Hc))) as (dt & Hdt & Hl). eauto.
  - destruct Hon as (d & Hd & ? & ? & ? & ?). unfold block. rewrite Hd. eexists. split; [done|]. apply slice_length; nia.
Qed.

Lemma large_read_runs s B ls H dev bnum data n bsize op (Q : Z * user → state → Prop) :
  inv bs s B ls H → bc_held s = false → valid bs s dev bnum n bsize → n * bsize < 2 ^ 32 → n * bsize ≤ zlen data →
  op_has op CACHE_READ = true → op_has op CACHE_LOCKED = false →
  (∀ s' blks, inv bs s' B ls H → disks s' = disks s → limits s s' → bc_held s' = false → zlen blks = n →
    (∀ (i : nat) b, blks !! i = Some b → contents bs (disks s) B H dev (bnum + Z.of_nat i) = Some b) →
    Q (0, mkUser (Some (splice 0 (concat blks) data)) 0 None) s') →
  runs (io_large dev bnum (Some data) n bsize op) s Q.
Proof.
  intros Hi Hheld Hv Htot Hdata Hr Hlo HQ. destruct (valid_bounds _ _ _ _ _ _ _ _ _ Hi Hv) as (Hmx & Hbs24 & Hon).
  pose proof Hv as [Hd (max & Hm & Hfit) Hb Hn Ebs H512]. pose proof (iv_ready _ _ _ _ _ Hi) as R.
  destruct (Hon (n - 1)) as (d & Hdd & _ & Hfd & Hd62 & _); [lia|]. rewrite Ebs in Hfd.
  unfold io_large. rewrite Hlo, Hr. assert (u32 n = n) as -> by (apply u32_id; unfold is_u32; lia).
  destruct (read_phys_run s dev bnum data n bsize d) as (k & r & ios & E & _ & _ & Hk & Hall); [done|split; nia|done|].
  destruct Hall as [-> ->]; [apply R|nia|]. destruct Hk as [[_ ->]|Hbad]; [|done].
  assert (upd_disks (disks s) [] s = s) as Eid. { rewrite <- (rd_io _ R). apply upd_disks_id. }
  rewrite Eid in E. apply runs_bind. eapply runs_eq; [exact E|]. cbn [fst snd Z.eqb negb].
  set (s1 := upd_bc_lock (bc_sem s) true s).
  apply runs_bind, (runs_eq _ _ tt s1); [unfold LOCK_bc; by rewrite Hheld|].
  pose proof (leaves_zero bs dev bsize op s B ls H bnum (mkUser None 0 None) s1 Hi eq_refl) as [I1 _ _ _ _].
  set (raw := (λ i, slice (bnum * bsize + Z.of_nat i * bsize) bsize d) <$> seq 0 (Z.to_nat n)).
  set (blks := (λ i, default [] (contents bs (disks s) B H dev (bnum + Z.of_nat i))) <$> seq 0 (Z.to_nat n)).
  assert (length raw = Z.to_nat n ∧ length blks = Z.to_nat n) as [Hrl Hbl].
  { subst raw blks. by rewrite !length_fmap, length_seq. }
  assert (∀ (i : nat) b, blks !! i = Some b → contents bs (disks s) B H dev (bnum + Z.of_nat i) = Some b) as Hblks.
  { intros i b. subst blks. rewrite list_lookup_fmap. destruct (seq 0 (Z.to_nat n) !! i) as [j|] eqn:Ej; [|done].
    apply lookup_seq in Ej as [-> Hlt]. cbn. intros [= <-].
    destruct (contents_Some s B ls H dev (bnum + Z.of_nat i) Hi) as (blk & -> & _); [apply Hon; lia|done]. }
  assert (got (bnum * bsize) data d (n * bsize) = [] ++ concat raw ++ drop (Z.to_nat (n * bsize)) data) as ->.
  { assert (slice (bnum * bsize) (n * bsize) d = concat raw) as Eraw.
    { pose proof (slice_blocks d (bnum * bsize) bsize (Z.to_nat n)) as Es. rewrite Z2Nat.id in Es by lia. apply Es; nia. }
    unfold got, splice. change (Z.to_nat 0) with 0%nat. rewrite take_0. cbn [app Nat.add]. rewrite <- Eraw. do 2 f_equal. apply Nat2Z.inj. rewrite slice_length; nia. }
  apply runs_bind. rewrite <- Hrl. change 0 with (zlen (@nil Z)) at 1.
  eapply (overlay_runs raw s1 B ls H dev bnum bsize [] _ blks); [done|done|lia| |].
  { intros i r b Hri Hbi. apply lookup_lt_Some in Hri as Hlt. split_and!; [| |by apply Hblks];
      subst raw; rewrite list_lookup_fmap, lookup_seq_lt in Hri by lia; cbn in Hri; injection Hri as <-.
    - apply slice_length; nia.
    - unfold block. cbn [disks s1 upd_bc_lock]. rewrite Hdd, Ebs. cbn. do 2 f_equal. lia. }
  apply runs_bind, runs_modifyS, runs_ret.
  assert (splice 0 (concat blks) data = [] ++ concat blks ++ drop (Z.to_nat (n * bsize)) data) as <-.
  { unfold splice. change (Z.to_nat 0) with 0%nat. rewrite take_0. cbn [app Nat.add]. f_equal. f_equal.
    enough (∀ l : list (list Z), (∀ (i : nat) b, l !! i = Some b → zlen b = bsize) → zlen (concat l) = zlen l * bsize) as Hcc.
    { specialize (Hcc blks). rewrite Hbl in Hcc. apply Nat2Z.inj. rewrite Hcc; [lia|]. intros i b Hib. apply lookup_lt_Some in Hib as Hlt.
      destruct (contents_Some s B ls H dev (bnum + Z.of_nat i) Hi) as (blk & E1 & E2); [apply Hon; lia|].
      apply Hblks in Hib. congruence. }
    clear. induction l as [|x l IH]; intros Hl; [done|]. cbn [concat length]. rewrite length_app, Nat2Z.inj_add, IH.
    - rewrite (Hl 0%nat x eq_refl). lia.
    - intros i b. apply (Hl (S i)). }
  pose proof (leaves_zero bs dev bsize op s1 B ls H bnum (mkUser None 0 None) (upd_bc_lock (bc_sem s1) false s1) I1 eq_refl) as [I2 L2 _ _ _].
  apply (HQ _ blks); [done|done|done|done|lia|done].
Qed.

(** * Writing *)

Section Write.
Context (s : state) B ls H (dev bsize lo : Z) (buf : list Z).
Hypothesis Hi : inv bs s B ls H.
Hypothesis Ebs : bs dev = bsize.
Hypothesis Hbs0 : 0 < bsize.

Definition part_of (b : Z) : list Z := slice ((b - lo) * bsize) bsize buf.

(** Up to block [hi] the cached blocks have the new contents. *)
Record patched (hi : Z) (s1 : state) B1 : Prop := {
  pt_view : view s1 B1 ls H;
  pt_env : env_io s1 = env_io s;
  pt_ready : ready s1;
  pt_out p c : B !! p = Some c → (ce_dev c = dev → ¬ lo ≤ ce_block_num c < hi) → B1 !! p = Some c;
  pt_in p c : B !! p = Some c → ce_dev c = dev → lo ≤ ce_block_num c < hi →
    ∃ c1, B1 !! p = Some c1 ∧ core (set_data (Some (part_of (ce_block_num c))) c) = core c1 ∧
      ce_clone c1 = None ∧ ent_wf bs (disks s1) c1;
  pt_none p : B !! p = None → B1 !! p = None;
  pt_length d : length <$> disks s1 !! d = length <$> disks s !! d;
  pt_block d b : 0 ≤ b → (d = dev → ¬ lo ≤ b < hi) → block bs (disks s1) d b = block bs (disks s) d b
}.

Lemma patched_start s1 : env s1 = env s → view s1 B ls H → patched lo s1 B.
Proof using Hi.
  intros E V. split; try done.
  - by apply env_env_io.
  - by eapply env_ready, Hi.
  - lia.
  - by rewrite (env_disks _ _ E).
  - by rewrite (env_disks _ _ E).
Qed.

(** One more block that is not in the cache. *)
Lemma patched_miss hi s1 B1 : patched hi s1 B1 → H !! (dev, hi) = None → patched (hi + 1) s1 B1.
Proof using Hi.
  intros [V E R O I N L K] Hm. split; try done.
  - intros p c Hc Hno. apply (O p c Hc). intros Ed. specialize (Hno Ed). lia.
  - intros p c Hc Ed Hb. apply (I p c Hc Ed). destruct (decide (ce_block_num c = hi)) as [Eb|]; [|lia].
    assert (H !! (dev, hi) = Some p) by (apply (iv_hash _ _ _ _ _ Hi); exists c; unfold ce_key; by rewrite Ed, Eb). congruence.
  - intros d b Hb Hno. apply (K d b Hb). intros Ed. specialize (Hno Ed). lia.
Qed.

(** The entry of block [hi] before its turn. *)
Lemma patched_ent hi s1 B1 p c :
  patched hi s1 B1 → B !! p = Some c → ce_key c = (dev, hi) → B1 !! p = Some c ∧ ent_wf bs (disks s1) c ∧ coherent bs (disks s1) c.
Proof using Hi.
  intros [V E R O I N L K] Hc [= Ed Eb]. destruct (iv_ent _ _ _ _ _ Hi p c Hc) as [Hwf Hcoh _ _ _]. split_and!.
  - apply O; [done|lia].
  - eapply (ent_wf_core bs (disks s)); [done|apply L|done|done].
  - intros Hd. specialize (Hcoh Hd). destruct (ce_clone c); [done|]. rewrite <- Hcoh.
    apply K; [by destruct (ew_dev _ _ _ Hwf) as (? & _ & ? & _)|lia].
Qed.

(** One more block in the cache: its clone was written, if it had one, and then
    its contents were replaced. *)
Lemma patched_hit hi s1 B1 p c s2 B2 s3 c2 :
  patched hi s1 B1 → B !! p = Some c → ce_key c = (dev, hi) → lo ≤ hi → 
  cleaned bs [p] B1 B2 (disks s1) (disks s2) ∨ B2 = B1 ∧ disks s2 = disks s1 →
  env_io s2 = env_io s1 → ready s2 → B2 !! p = Some c2 → core c = core c2 → ce_clone c2 = None →
  ent_wf bs (disks s2) c2 → zlen (part_of hi) = bsize →
  view s3 (<[p := set_data (Some (part_of hi)) c2]> B2) ls H → env s3 = env s2 →
  patched (hi + 1) s3 (<[p := set_data (Some (part_of hi)) c2]> B2).
Proof using Hi Ebs.
  intros Hpt Hc [= Ed Eb] Hlo Hcl E2 R2 Hc2 Ecore Hcl2 Hwf2 Hpl V3 E3. destruct Hpt as [V E R O I N L K].
  assert (∀ q, q ≠ p → B2 !! q = B1 !! q) as Hother.
  { intros q Hq. destruct Hcl as [Hcl|[-> _]]; [|done]. apply (cn_other _ _ _ _ _ _ Hcl). by intros ->%list_elem_of_singleton. }
  assert (∀ d, length <$> disks s2 !! d = length <$> disks s1 !! d) as Hlen.
  { intros d. destruct Hcl as [Hcl|[_ ->]]; [|done]. apply (cn_length _ _ _ _ _ _ Hcl). }
  assert (B1 !! p = Some c) as Hc1 by (apply O; [done|lia]).
  assert (∀ d b, 0 ≤ b → (d, b) ≠ (dev, hi) → block bs (disks s2) d b = block bs (disks s1) d b) as Hblk.
  { intros d b Hb Hne. destruct Hcl as [Hcl|[_ ->]]; [|done]. apply (cn_block _ _ _ _ _ _ Hcl); [done|].
    intros q cq ->%list_elem_of_singleton Hcq. assert (cq = c) as -> by congruence. unfold ce_key. congruence. }
  split; rewrite ?(env_disks _ _ E3); try done.
  - rewrite (env_env_io _ _ E3). congruence.
  - by eapply env_ready.
  - intros q cq Hcq Hno. destruct (decide (q = p)) as [->|Hne].
    + assert (cq = c) as -> by congruence. exfalso. apply Hno; [done|lia].
    + rewrite lookup_insert_ne, Hother by done. apply O; [done|]. intros Ed'. specialize (Hno Ed'). lia.
  - intros q cq Hcq Ed' Hb'. destruct (decide (q = p)) as [->|Hne].
    + assert (cq = c) as -> by congruence. rewrite lookup_insert_eq. eexists. split_and!; [done| |done|].
      * rewrite Eb. pose proof (f_equal (set_data (Some (part_of hi))) Ecore) as Ec'. exact Ec'.
      * destruct Hwf2 as [W1 W2 W3 W4 W5]. split; try done. cbn. exists (part_of hi). split; [done|].
        rewrite <- (f_equal ce_dev Ecore : ce_dev c = ce_dev c2), Ed. congruence.
    + rewrite lookup_insert_ne, Hother by done. destruct (I q cq Hcq Ed') as (c1 & Hc1' & Ec1 & Hn1 & W1).
      { destruct (decide (ce_block_num cq = hi)) as [Eb'|]; [|lia]. exfalso. apply Hne.
        assert (H !! (dev, hi) = Some p) as H1 by (apply (iv_hash _ _ _ _ _ Hi); exists c; unfold ce_key; by rewrite Ed, Eb).
        assert (H !! (dev, hi) = Some q) as H2 by (apply (iv_hash _ _ _ _ _ Hi); exists cq; unfold ce_key; by rewrite Ed', Eb'). congruence. }
      exists c1. split_and!; [done..|]. apply (ent_wf_core bs (disks s1) _ c1 c1 eq_refl); [apply Hlen|done|done].
  - intros q Hq. assert (q ≠ p) as Hne by congruence. rewrite lookup_insert_ne, Hother by done. by apply N.
  - intros d. by rewrite Hlen, L.
  - intros d b Hb Hno. rewrite Hblk, K; [done|done| |done|].
    + intros Ed'. specialize (Hno Ed'). lia.
    + intros [= -> ->]. apply Hno; [done|lia].
Qed.

Lemma update_cached_runs n : ∀ hi s1 B1 (Q : unit → state → Prop),
  patched hi s1 B1 → lo ≤ hi → (hi - lo + Z.of_nat n) * bsize ≤ zlen buf →
  (∀ s2 B2, patched (hi + Z.of_nat n) s2 B2 → Q tt s2) →
  runs (update_cached dev hi bsize n ((hi - lo) * bsize) buf) s1 Q.
Proof using Hi Ebs Hbs0.
  induction n as [|n IH]; intros hi s1 B1 Q Hpt Hlo Hfit HQ; cbn [update_cached].
  { apply runs_ret. eapply HQ. by rewrite Z.add_0_r. }
  pose proof (pt_view _ _ _ Hpt) as V1.
  assert (zlen (part_of hi) = bsize) as Hpl by (unfold part_of; apply slice_length; nia).
  assert (∀ s2 B2, patched (hi + 1) s2 B2 → runs (update_cached dev (hi + 1) bsize n ((hi - lo) * bsize + bsize) buf) s2 Q) as Hgo.
  { intros s2 B2 Hpt2. replace ((hi - lo) * bsize + bsize) with ((hi + 1 - lo) * bsize) by lia.
    eapply IH; [done|lia|lia|]. intros s3 B3 Hpt3. eapply HQ. by replace (hi + Z.of_nat (S n)) with (hi + 1 + Z.of_nat n) by lia. }
  apply runs_bind. unfold block_lookup. apply runs_bind, (runs_ht_find _ _ _ _ V1).
  destruct (H !! (dev, hi)) as [p|] eqn:Ep.
  2: { apply runs_ret, runs_bind, runs_ret, (Hgo s1 B1). by apply patched_miss. }
  apply (iv_hash _ _ _ _ _ Hi) in Ep as (c & Hc & Hk). destruct (patched_ent hi s1 B1 p c Hpt Hc Hk) as (Hc1 & Hwf & Hcoh).
  pose proof (ei_busy _ _ _ _ _ (iv_ent _ _ _ _ _ Hi p c Hc)) as Hbusy. pose proof Hk as [= Ed Eb].
  destruct (ew_data _ _ _ Hwf) as (dt & Hdt & Hdl). rewrite Ed, Ebs in Hdl.
  apply runs_bind. eapply (runs_load _ _ _ _ V1); [done|]. intros c0 -> _.
  change (is_busy (erase c0)) with (is_busy c0) in Hbusy. rewrite Hbusy. apply runs_ret, runs_bind, runs_bind.
  eapply (runs_load _ _ _ _ V1); [done|]. intros c0' Ec0' _. rewrite Ec0' in *. cbn in Ed, Eb, Hdt.
  unfold other_block. rewrite Ed, Eb, !Z.eqb_refl. cbn [negb orb]. rewrite Hdt.
  assert (∀ s2 B2 c2, (cleaned bs [p] B1 B2 (disks s1) (disks s2) ∨ B2 = B1 ∧ disks s2 = disks s1) →
    view s2 B2 ls H → env_io s2 = env_io s1 → ready s2 → B2 !! p = Some c2 → core (erase c0') = core c2 → ce_clone c2 = None →
    ent_wf bs (disks s2) c2 →
    runs (block ← deref (Some dt); block ← liftO (bs ← load_bytes ((hi - lo) * bsize) bsize buf; store_bytes 0 bs block);
          store p (set_data (Some block))) s2
      (λ _ s3, runs (update_cached dev (hi + 1) bsize n ((hi - lo) * bsize + bsize) buf) s3 Q)) as Hstore.
  { intros s2 B2 c2 Hcl V2 E2 R2 Hc2 Ecore Hcl2 Hwf2. cbn [deref]. apply runs_bind, runs_ret, runs_bind.
    rewrite load_bytes_Ok by nia. cbn. fold (part_of hi). rewrite store_bytes_Ok by lia. rewrite splice_all by lia.
    eapply runs_liftO; [done|]. eapply (runs_store _ _ _ _ V2); [apply _|done|]. intros s3 V3 E3.
    eapply Hgo, patched_hit; try done. }
  apply runs_bind. destruct (ce_clone c0') as [cl|] eqn:Ecl; [change (has (Some cl)) with true|change (has (@None (list Z))) with false].
  - apply runs_bind. eapply (flush_cache_ent_runs bs s1 B1); [done|apply Hpt|done|by left|].
    intros B2 s2 V2 E2 R2 Hcl. apply runs_ret.
    destruct (cn_ent _ _ _ _ _ _ Hcl p (erase c0')) as (c2 & Hc2 & Ecore & Hn & Hok & _); [left|done|].
    eapply (Hstore s2 B2 c2); [by left|done|done|done|done|done|by apply needs_clone|].
    destruct Hok as [[? _]|[Hin _]]; [done|]. pose proof (f_equal ce_dev Ecore : ce_dev c0' = ce_dev c2) as Ed2.
    pose proof (ew_range _ _ _ Hwf) as Hrg. cbn in Hrg. lia.
  - apply runs_ret. eapply (Hstore s1 B1 (erase c0')); [by right|done|done|apply Hpt|done|done|done|done].
Qed.

(** The device gets the whole buffer. *)
Context (n : Z).
Hypothesis Hn : 1 ≤ n ∧ 0 ≤ lo ∧ n * bsize ≤ zlen buf.

Definition put_disk (D : gmap Z (list Z)) (d : list Z) : gmap Z (list Z) :=
  <[dev := splice (lo * bsize) (take (Z.to_nat (n * bsize)) buf) d]> D.

Lemma put_block D d dv b :
  D !! dev = Some d → (lo + n) * bsize ≤ zlen d → 0 ≤ b →
  block bs (put_disk D d) dv b = if decide (dv = dev ∧ lo ≤ b < lo + n) then Some (part_of b) else block bs D dv b.
Proof using Hn Ebs Hbs0.
  intros Hd Hfit Hb. unfold block, put_disk. destruct Hn as (H1 & H2 & H3).
  assert (zlen (take (Z.to_nat (n * bsize)) buf) = n * bsize) as Hl by (rewrite length_take; nia).
  destruct (decide (dv = dev)) as [->|Hne].
  2: { rewrite lookup_insert_ne by done. by rewrite decide_False by naive_solver. }
  rewrite lookup_insert_eq, Hd, Ebs. cbn. destruct (decide _) as [[_ Hr]|Hr].
  - f_equal. unfold splice, part_of.
    assert (zlen (take (Z.to_nat (lo * bsize)) d) = lo * bsize) as Hpre by (rewrite length_take; nia).
    assert (0 ≤ (b - lo) * bsize ∧ (b - lo) * bsize + bsize ≤ n * bsize) as [? ?] by nia.
    rewrite slice_app_r by lia. rewrite Hpre. replace (b * bsize - lo * bsize) with ((b - lo) * bsize) by lia.
    rewrite slice_app_l by lia. unfold slice. rewrite skipn_firstn_comm, take_take. f_equal. lia.
  - f_equal. assert (b < lo ∨ lo + n ≤ b) as [?|?] by (destruct (decide (b < lo)); [by left|right; lia]).
    + apply slice_splice_before; nia.
    + apply slice_splice_after; nia.
Qed.

Lemma put_lengths D d dv : D !! dev = Some d → (lo + n) * bsize ≤ zlen d →
  length <$> put_disk D d !! dv = length <$> D !! dv.
Proof using Hn Hbs0.
  intros Hd Hfit. destruct Hn as (H1 & H2 & H3). unfold put_disk.
  destruct (decide (dv = dev)) as [->|Hne]; [|by rewrite lookup_insert_ne].
  rewrite lookup_insert_eq, Hd. cbn. f_equal. apply splice_length; [|rewrite length_take]; nia.
Qed.

Section Written.
Context (s2 : state) B2 (d : list Z) (s4 : state).
Hypothesis Hpt : patched (lo + n) s2 B2.
Hypothesis Hd : disks s2 !! dev = Some d.
Hypothesis Hfit : (lo + n) * bsize ≤ zlen d.
Hypothesis Es4 : upd_bc_lock 0 false s4 = upd_bc_lock 0 false (upd_disks (put_disk (disks s2) d) [] s2).

Lemma written_proj {A} (f : state → A) :
  f (upd_bc_lock 0 false s4) = f s4 → f (upd_bc_lock 0 false (upd_disks (put_disk (disks s2) d) [] s2)) = f s2 → f s4 = f s2.
Proof using Es4. intros E1 E2. by rewrite <- E1, Es4. Qed.

Lemma written_cases p c2 : B2 !! p = Some c2 → ∃ c, B !! p = Some c ∧ ce_key c2 = ce_key c ∧ ce_lock c2 = ce_lock c ∧
  is_busy c2 = is_busy c ∧
  (ce_dev c = dev ∧ lo ≤ ce_block_num c < lo + n ∧ ce_data c2 = Some (part_of (ce_block_num c)) ∧ ce_clone c2 = None ∧
     ent_wf bs (disks s2) c2 ∨
   (ce_dev c = dev → ¬ lo ≤ ce_block_num c < lo + n) ∧ c2 = c).
Proof using Hn Hpt Es4.
  intros Hc2. destruct (B !! p) as [c|] eqn:Hc; [|by rewrite (pt_none _ _ _ Hpt p Hc) in Hc2]. exists c. split; [done|].
  destruct (decide (ce_dev c = dev ∧ lo ≤ ce_block_num c < lo + n)) as [[Ed Hr]|Hno].
  - destruct (pt_in _ _ _ Hpt p c Hc Ed Hr) as (c1 & Hc1 & Ec & Hcl & Hwf). assert (c1 = c2) as -> by congruence.
    split_and!; [symmetry; exact (core_key _ _ Ec)|symmetry; exact (core_lock _ _ Ec)| |].
    + pose proof (f_equal is_busy Ec) as Eb. unfold core, is_busy in Eb |- *. cbn in Eb |- *.
      destruct (negb (Z.land (ce_flags c) CE_BUSY =? 0)), (negb (Z.land (ce_flags c2) CE_BUSY =? 0)); done.
    + left. split_and!; [done|lia|lia|symmetry; exact (f_equal ce_data Ec)|done|done].
  - assert (ce_dev c = dev → ¬ lo ≤ ce_block_num c < lo + n) as Hno' by naive_solver.
    rewrite (pt_out _ _ _ Hpt p c Hc Hno') in Hc2. injection Hc2 as <-. split_and!; [done..|]. by right.
Qed.

Lemma written_inv : inv bs s4 B2 ls H ∧ limits s s4.
Proof using Hi Hpt Hd Hfit Es4 Hn Ebs Hbs0.
  pose proof (pt_env _ _ _ Hpt) as E2. pose proof (pt_view _ _ _ Hpt) as V2.
  assert (disks s4 = put_disk (disks s2) d) as Ed4 by exact (f_equal disks Es4).
  assert (io s4 = []) as Eio by exact (f_equal io Es4).
  assert (∀ dv, length <$> disks s4 !! dv = length <$> disks s !! dv) as Hlen.
  { intros dv. rewrite Ed4, put_lengths by done. apply (pt_length _ _ _ Hpt). }
  assert (size B2 = size B) as Hsz.
  { rewrite <- !size_dom. f_equal. apply set_eq. intros p. rewrite !elem_of_dom. split.
    - intros [c2 Hc2]. destruct (written_cases p c2 Hc2) as (c & -> & _). by eexists.
    - intros [c Hc]. destruct (B2 !! p) eqn:Hc2; [by eexists|]. exfalso.
      destruct (decide (ce_dev c = dev ∧ lo ≤ ce_block_num c < lo + n)) as [[Ed Hr]|Hno].
      + destruct (pt_in _ _ _ Hpt p c Hc Ed Hr) as (c1 & Hc1 & _). congruence.
      + rewrite (pt_out _ _ _ Hpt p c Hc) in Hc2; [done|naive_solver]. }
  assert (max_blocks s4 = max_blocks s ∧ max_device_blocks s4 = max_device_blocks s) as [L1 L2].
  { rewrite (written_proj max_blocks), (written_proj max_device_blocks) by done.
    split; [exact (f_equal max_blocks E2)|exact (f_equal max_device_blocks E2)]. }
  split; [|done]. split.
  - destruct V2 as [[He Hn1 Hf] VB V3 V4 V5]. split; rewrite ?(written_proj heap), ?(written_proj ht) by done; try done.
    split; rewrite ?(written_proj heap) by done; [|done|done]. intros w. rewrite (written_proj (get_list w)) by (by destruct w). apply He.
  - destruct (pt_ready _ _ _ Hpt). split; [by rewrite (written_proj mem)|done|by rewrite (written_proj iov_held)|by rewrite (written_proj iovec_pool)|by rewrite (written_proj iovec_used)].
  - intros w p Hw. destruct (iv_dom _ _ _ _ _ Hi w p Hw) as [c Hc].
    destruct (decide (ce_dev c = dev ∧ lo ≤ ce_block_num c < lo + n)) as [[Ed Hr]|Hno].
    + destruct (pt_in _ _ _ Hpt p c Hc Ed Hr) as (c1 & -> & _). by eexists.
    + rewrite (pt_out _ _ _ Hpt p c Hc); [by eexists|naive_solver].
  - intros p c2 Hc2. destruct (written_cases p c2 Hc2) as (c & Hc & Ek & El & Eb & Hcase).
    destruct (iv_ent _ _ _ _ _ Hi p c Hc) as [Hwf Hcoh Hbz Hlk Hlist].
    assert (list_of c2 = list_of c) as Els by (unfold list_of; by rewrite El).
    split; [| |by rewrite Eb|by rewrite El|by rewrite Els].
    + destruct Hcase as [(_ & _ & _ & _ & Hwf2)|[_ ->]].
      * apply (ent_wf_core bs (disks s2) _ c2 c2 eq_refl); [by rewrite Ed4, put_lengths|done|done].
      * apply (ent_wf_core bs (disks s) _ c c eq_refl); [apply Hlen|done|done].
    + assert (0 ≤ ce_block_num c) as Hb0 by (by destruct (ew_dev _ _ _ Hwf) as (? & _ & ? & _)). injection Ek as Ek1 Ek2.
      intros Hdt. destruct Hcase as [(Ed & Hr & Hdata & Hcl & _)|[Hno ->]].
      * rewrite Hcl, Ek1, Ek2, Hdata, Ed4, put_block by done. rewrite decide_True by done. done.
      * specialize (Hcoh Hdt). destruct (ce_clone c); [done|]. rewrite Ed4, put_block by done.
        rewrite decide_False by naive_solver. rewrite (pt_block _ _ _ Hpt) by done. done.
  - intros k p. rewrite (iv_hash _ _ _ _ _ Hi). split; intros (c & Hc & <-).
    + destruct (B2 !! p) as [c2|] eqn:Hc2.
      * destruct (written_cases p c2 Hc2) as (c' & Hc' & Ek & _). exists c2. split; [done|]. congruence.
      * exfalso. assert (p ∈ dom B2) as [? ?]%elem_of_dom; [|congruence].
        destruct (decide (ce_dev c = dev ∧ lo ≤ ce_block_num c < lo + n)) as [[Ed Hr]|Hno].
        -- destruct (pt_in _ _ _ Hpt p c Hc Ed Hr) as (c1 & Hc1 & _). congruence.
        -- rewrite (pt_out _ _ _ Hpt p c Hc) in Hc2; [done|naive_solver].
    + destruct (written_cases p c Hc) as (c' & Hc' & Ek & _). eauto.
  - rewrite (written_proj cur_blocks), L1, Hsz by done. rewrite (f_equal cur_blocks E2 : cur_blocks s2 = cur_blocks s). apply Hi.
  - rewrite (written_proj next_ptr) by done. rewrite (f_equal next_ptr E2 : next_ptr s2 = next_ptr s). intros p Hp.
    apply (pt_none _ _ _ Hpt). by apply (iv_next _ _ _ _ _ Hi).
  - rewrite L2. apply Hi.
  - intros dv m b Hdv. rewrite L2. intros Hm Hb. destruct (iv_devs _ _ _ _ _ Hi dv m b Hdv Hm Hb) as [Ho Hlt].
    split; [|done]. eapply on_device_length, Ho. apply Hlen.
Qed.

Lemma written_contents dv b : 0 ≤ b →
  contents bs (disks s4) B2 H dv b =
  if decide (dv = dev ∧ lo ≤ b < lo + n) then Some (part_of b) else contents bs (disks s) B H dv b.
Proof using Hi Hpt Hd Hfit Es4 Hn Ebs Hbs0.
  intros Hb. assert (disks s4 = put_disk (disks s2) d) as -> by exact (f_equal disks Es4).
  unfold contents. rewrite put_block by done. destruct (H !! (dv, b)) as [p|] eqn:Ep.
  - apply (iv_hash _ _ _ _ _ Hi) in Ep as (c & Hc & [= <- <-]).
    destruct (decide (ce_dev c = dev ∧ lo ≤ ce_block_num c < lo + n)) as [[Ed Hr]|Hno].
    + destruct (pt_in _ _ _ Hpt p c Hc Ed Hr) as (c1 & -> & Ec & _). cbn. symmetry. exact (f_equal ce_data Ec).
    + rewrite (pt_out _ _ _ Hpt p c Hc) by naive_solver. by rewrite Hc.
  - destruct (decide _) as [|Hno]; [done|]. apply (pt_block _ _ _ Hpt); [done|naive_solver].
Qed.
End Written.
End Write.

Lemma large_write_runs s B ls H dev bnum data n bsize op (Q : Z * user → state → Prop) :
  inv bs s B ls H → bc_held s = false → valid bs s dev bnum n bsize → n * bsize < 2 ^ 32 → n * bsize ≤ zlen data →
  op_has op CACHE_READ = false → op_has op CACHE_WRITE = true → op_has op CACHE_LOCKED = false →
  (∀ s' B', inv bs s' B' ls H → limits s s' → bc_held s' = false →
    (∀ d b, 0 ≤ b → contents bs (disks s') B' H d b =
      if decide (d = dev ∧ bnum ≤ b < bnum + n) then Some (part_of bsize bnum data b) else contents bs (disks s) B H d b) →
    Q (0, mkUser (Some data) 0 None) s') →
  runs (io_large dev bnum (Some data) n bsize op) s Q.
Proof.
  intros Hi Hheld Hv Htot Hdata Hr Hw Hlo HQ. destruct (valid_bounds _ _ _ _ _ _ _ _ _ Hi Hv) as (Hmx & Hbs24 & Hon).
  pose proof Hv as [Hd (max & Hm & Hfit) Hb Hn Ebs H512].
  unfold io_large. rewrite Hlo, Hr, Hw. assert (u32 n = n) as -> by (apply u32_id; unfold is_u32; lia).
  set (s1 := upd_bc_lock (bc_sem s) true s).
  apply runs_bind, (runs_eq _ _ tt s1); [unfold LOCK_bc; by rewrite Hheld|].
  pose proof (leaves_zero bs dev bsize op s B ls H bnum (mkUser None 0 None) s1 Hi eq_refl) as [I1 _ _ _ _].
  apply runs_bind. replace 0 with ((bnum - bnum) * bsize) at 1 by lia.
  eapply (update_cached_runs s1 B ls H dev bsize bnum data I1 Ebs ltac:(lia)); [|lia|rewrite Z2Nat.id by lia; nia|].
  { apply patched_start; [done|done|apply I1]. }
  intros s2 B2 Hpt. rewrite Z2Nat.id in Hpt by lia. apply runs_bind, runs_modifyS.
  destruct (Hon (n - 1)) as (d0 & Hd0 & _ & Hfd & Hd62 & _); [lia|]. rewrite Ebs in Hfd.
  pose proof (pt_length _ _ _ _ _ _ _ _ _ _ _ Hpt dev) as Hlen. change (disks s1) with (disks s) in Hlen. rewrite Hd0 in Hlen.
  destruct (disks s2 !! dev) as [d|] eqn:Hd2; [|done]. cbn in Hlen. assert (zlen d = zlen d0) as Hzl by (simplify_eq; lia).
  set (s3 := upd_bc_lock (bc_sem s2) false s2).
  destruct (write_phys_run s3 dev bnum data n bsize d) as (k & r & ios & E & _ & _ & Hk & Hall); [done|split; nia|done|].
  destruct Hall as [-> ->]; [apply (pt_ready _ _ _ _ _ _ _ _ _ _ _ Hpt)|nia|]. destruct Hk as [[_ ->]|Hbad]; [|done].
  apply runs_bind. eapply runs_eq; [exact E|]. cbn [Z.eqb negb]. apply runs_ret.
  assert (1 ≤ n ∧ 0 ≤ bnum ∧ n * bsize ≤ zlen data) as Hn3 by lia.
  assert ((bnum + n) * bsize ≤ zlen d) as Hfit2 by nia.
  set (s4 := wrote s3 dev (bnum * bsize) data d (n * bsize) []).
  assert (upd_bc_lock 0 false s4 = upd_bc_lock 0 false (upd_disks (put_disk dev bsize bnum data n (disks s2) d) [] s2)) as Es4 by done.
  destruct (written_inv s1 B ls H dev bsize bnum data I1 Ebs ltac:(lia) n Hn3 s2 B2 d s4 Hpt Hd2 Hfit2 Es4) as [I4 L4].
  eapply (HQ s4 B2); [done|done|done|]. intros dv b Hb0.
  exact (written_contents s1 B ls H dev bsize bnum data I1 Ebs ltac:(lia) n Hn3 s2 B2 d s4 Hpt Hd2 Hfit2 Es4 dv b Hb0).
Qed.

(** [cache_block_io] hands such a request on. *)
Lemma large_runs s B ls H dev bnum data n bsize op (Q : Z * user → state → Prop) :
  inv bs s B ls H → valid bs s dev bnum n bsize → 64 * 1024 ≤ n * bsize →
  runs (io_large dev bnum (Some data) n bsize op) s Q → runs (cache_block_io dev bnum (Some data) n bsize op false) s Q.
Proof.
  intros Hi Hv Hl Hrun. destruct (valid_bounds _ _ _ _ _ _ _ _ _ Hi Hv) as (Hmx & Hbs24 & _).
  pose proof Hv as [Hd (max & Hm & Hfit) Hb Hn Ebs H512]. unfold cache_block_io. change (has (Some data)) with true.
  destruct (Z.eqb_spec bsize 0); [lia|]. destruct (Z.eqb_spec n 0); [lia|]. cbn [negb andb].
  apply runs_bind. eapply device_blocks_runs; [done|done|]. unfold s64. rewrite !swrap_id by nia.
  destruct (Z.ltb_spec max (bnum + n)); [lia|]. destruct (Z.leb_spec (64 * 1024) (n * bsize)); [done|lia].
Qed.
End Large.
