(* ===== verification/CachePointer.v ===== *)
(** Blocks a caller holds a pointer to: changing the bytes behind the pointer,
    [beos_mark_blocks_dirty] and [beos_release_block]. *)

From S2P Require Import Prelude Errors Sort CacheHash CacheState CacheIo CacheFlush BlockCache CacheInv.
From S2P Require Import CacheServe CacheMiss CacheFill CacheStage CacheSettle CacheRun CacheStore.

Section Pointer.
Context (bs : Z → Z).
Implicit Types (B : gmap ptr cache_ent) (ls : which → list ptr) (H : gmap (Z * Z) ptr).

Lemma inv_lock s B ls H sm h : inv bs s B ls H → inv bs (upd_bc_lock sm h s) B ls H.
Proof. intros Hi. apply (leaves_zero bs 0 512 0 s B ls H 0 (mkUser None 0 None)); [done|done]. Qed.

(** The lookup of a block in a state whose entries may be out of date. *)
Lemma lookup_runs s B ls H dev b p c (Q : option ptr → state → Prop) :
  view s B ls H → H !! (dev, b) = Some p → B !! p = Some c → is_busy c = false → Q (Some p) s →
  runs (block_lookup dev b) s Q.
Proof.
  intros V Hp Hc Hb HQ. unfold block_lookup. apply runs_bind, (runs_ht_find _ _ _ _ V). rewrite Hp.
  apply runs_bind. eapply (runs_load _ _ _ _ V); [done|]. intros c0 -> _.
  change (is_busy (erase c0)) with (is_busy c0) in Hb. rewrite Hb. by apply runs_ret.
Qed.

(** The caller changed the bytes of a block; marking it dirty makes the cache
    consistent again. *)
Lemma mark_runs s B ls H dev b p c d s1 (Q : Z → state → Prop) :
  inv bs s B ls H → bc_held s = false → H !! (dev, b) = Some p → B !! p = Some c → zlen d = bs dev →
  view s1 (<[p := set_data (Some d) c]> B) ls H → env s1 = env s →
  (∀ s', inv bs s' (<[p := or_flags CE_DIRTY (set_data (Some d) c)]> B) ls H → bc_held s' = false → limits s s' →
    disks s' = disks s → Q 0 s') →
  runs (beos_mark_blocks_dirty dev b 1) s1 Q.
Proof.
  intros Hi Hh Hp Hc Hl V1 E1 HQ. pose proof (iv_ent _ _ _ _ _ Hi p c Hc) as [Hwf Hcoh Hbz Hlk Hli].
  assert (ce_key c = (dev, b)) as [= Ek1 Ek2].
  { apply (iv_hash _ _ _ _ _ Hi) in Hp as (c0 & Hc0 & Hk). congruence. }
  unfold beos_mark_blocks_dirty. assert (bc_held s1 = false) as Hh1 by (rewrite <- Hh; exact (f_equal bc_held E1)).
  set (s2 := upd_bc_lock (bc_sem s1) true s1).
  apply runs_bind, (runs_eq _ _ tt s2); [unfold LOCK_bc; by rewrite Hh1|].
  assert (view s2 (<[p := set_data (Some d) c]> B) ls H) as V2.
  { destruct V1 as [[He Hn1 Hf] ? ? ? ?]. split; [split; [|done|done]|done..].
    intros w. by destruct w; [apply (He Normal)|apply (He Locked)]. }
  change (Z.to_nat 1) with 1%nat. cbn [mark_dirty_loop]. apply runs_bind, runs_bind.
  eapply lookup_runs; [done|done|apply lookup_insert_eq|done|]. apply runs_bind.
  eapply (runs_store _ _ _ _ V2); [apply _|apply lookup_insert_eq|]. intros s3 V3 E3. rewrite insert_insert_eq in V3.
  apply runs_ret, runs_bind, runs_modifyS, runs_ret.
  assert (env s3 = env (upd_bc_lock (bc_sem s) true s)) as E3'.
  { rewrite E3. pose proof (f_equal (upd_bc_lock (bc_sem s1) true) E1) as E1'.
    rewrite (f_equal bc_sem E1 : bc_sem s1 = bc_sem s) in E1'. unfold s2. rewrite (f_equal bc_sem E1 : bc_sem s1 = bc_sem s). exact E1'. }
  set (c' := or_flags CE_DIRTY (set_data (Some d) c)) in *.
  assert (inv bs s3 (<[p := c']> B) ls H) as I3.
  { eapply (inv_update bs _ s3 B ls H p c c'); [by apply (inv_lock s B ls H (bc_sem s) true)|done|done|done|done|done| | | | |].
    - intros w. by rewrite (ent_inv_list bs _ _ _ _ w _ (vw_lists _ _ _ _ (iv_view _ _ _ _ _ Hi)) (iv_ent _ _ _ _ _ Hi p c Hc)).
    - destruct Hwf. split; try done. exists d. split; [done|]. cbn. congruence.
    - intros Hd. subst c'. by rewrite dirty_or_dirty in Hd.
    - subst c'. by rewrite busy_or_dirty.
    - done. }
  apply HQ.
  - by apply inv_lock.
  - done.
  - split; [exact (f_equal max_blocks E3')|exact (f_equal max_device_blocks E3')].
  - exact (f_equal disks E3').
Qed.

Lemma lock_step_ok D c : ent_wf bs D c → coherent bs D c →
  ent_wf bs D (set_lock (ce_lock c - 1) c) ∧ coherent bs D (set_lock (ce_lock c - 1) c).
Proof. intros [? ? ? ? ?] Hcoh. split; [by split|exact Hcoh]. Qed.

(** [beos_release_block]: the block leaves the locked list with its last holder. *)
Lemma release_runs s B ls H dev b p c (Q : Z → state → Prop) :
  inv bs s B ls H → bc_held s = false → H !! (dev, b) = Some p → B !! p = Some c → 0 < ce_lock c →
  (∀ s' ls', inv bs s' (<[p := set_lock (ce_lock c - 1) c]> B) ls' H → bc_held s' = false → limits s s' →
    disks s' = disks s → zlen (ls' Locked) ≤ zlen (ls Locked) - (if ce_lock c =? 1 then 1 else 0) → Q 0 s') →
  runs (beos_release_block dev b) s Q.
Proof.
  intros Hi Hh Hp Hc Hpos HQ. pose proof (iv_ent _ _ _ _ _ Hi p c Hc) as He. pose proof He as [Hwf Hcoh Hbz Hlk Hli].
  assert (ce_key c = (dev, b)) as Hk.
  { apply (iv_hash _ _ _ _ _ Hi) in Hp as (c0 & Hc0 & Hk). congruence. }
  pose proof Hk as [= Ek1 Ek2]. unfold beos_release_block. set (s1 := upd_bc_lock (bc_sem s) true s).
  apply runs_bind, (runs_eq _ _ tt s1); [unfold LOCK_bc; by rewrite Hh|].
  pose proof (inv_lock s B ls H (bc_sem s) true Hi) as I1. fold s1 in I1. pose proof (iv_view _ _ _ _ _ I1) as V1.
  apply runs_bind. eapply lookup_runs; [done|done|done|done|]. apply runs_bind.
  eapply (runs_load _ _ _ _ V1); [done|]. intros c0 -> _. cbn in Ek1, Ek2. unfold other_block.
  rewrite Ek1, Ek2, !Z.eqb_refl. cbn [negb orb]. unfold drop_lock. apply runs_bind, runs_bind.
  eapply (runs_store _ _ _ _ V1 _ _ (λ c, set_lock (ce_lock c - 1) c)); [apply (payload_lock (λ l, l - 1))|done|].
  intros s2 V2 E2. set (c' := set_lock (ce_lock (erase c0) - 1) (erase c0)) in *.
  destruct (lock_step_ok _ _ Hwf Hcoh) as [Hwf' Hcoh']. fold c' in Hwf', Hcoh'.
  assert (list_of (erase c0) = Locked) as El. { unfold list_of. cbn in Hpos |- *. destruct (Z.eqb_spec (ce_lock c0) 0); [lia|done]. }
  rewrite El in Hli.
  assert (∀ s3 ls3, view s3 (<[p := c']> B) ls3 H → env s3 = env s1 → (∀ w q, q ≠ p → q ∈ ls3 w ↔ q ∈ ls w) →
    (∀ w, p ∈ ls3 w ↔ w = list_of c') → zlen (ls3 Locked) ≤ zlen (ls Locked) - (if ce_lock c0 =? 1 then 1 else 0) →
    runs (UNLOCK_bc;; mret 0) s3 Q) as Hend.
  { intros s3 ls3 V3 E3 Hq Hpl Hle. apply runs_bind, runs_modifyS, runs_ret.
    assert (inv bs s3 (<[p := c']> B) ls3 H) as I3.
    { eapply (inv_update bs s1 s3 B ls H p (erase c0) c'); try done. cbn. cbn in Hpos. lia. }
    apply (HQ _ ls3); [by apply inv_lock|done| |exact (f_equal disks E3)|done].
    split; [exact (f_equal max_blocks E3)|exact (f_equal max_device_blocks E3)]. }
  apply runs_bind. eapply (runs_load _ _ _ _ V2); [apply lookup_insert_eq|]. intros c1 Ec1 _.
  assert (ce_lock c1 = ce_lock c0 - 1) as -> by (change (ce_lock c1) with (ce_lock (erase c1)); by rewrite <- Ec1).
  cbn in Hpos. destruct (Z.eqb_spec (ce_lock c0 - 1) 0) as [Ez|Ez].
  - assert (list_of c' = Normal) as El'. { unfold list_of. cbn. by rewrite Ez. }
    apply list_elem_of_split in Hli as (l1 & l2 & Els). apply runs_bind.
    eapply (runs_delete _ _ _ _ V2); [done|]. intros s3 V3 E3. set (ls1 := lset Locked (l1 ++ l2) ls) in *.
    pose proof (lr_nodup _ _ (vw_lists _ _ _ _ V1)) as Hnd. rewrite Els in Hnd.
    apply NoDup_app in Hnd as (_ & Hdj & Hnd). apply NoDup_app in Hnd as (_ & Hdj2 & (Hp2 & _)%NoDup_cons).
    assert (∀ w, p ∉ ls1 w) as Hno.
    { intros [|]; cbn; [intros Hx; apply (Hdj p Hx); apply elem_of_app; right; left|].
      intros [Hx|Hx]%elem_of_app; [by apply (Hdj2 p Hx); left|done]. }
    eapply (runs_add_head _ _ _ _ V3); [apply lookup_insert_eq|done|]. intros s4 V4 E4.
    eapply (Hend s4); [exact V4|congruence| | |].
    + intros [|] q Hq; cbn; [|rewrite Els]; clear -Hq; set_solver.
    + intros w. rewrite El'. destruct w; cbn; [split; [done|]; intros _; apply elem_of_app; right; left|].
      split; [intros Hx; by destruct (Hno Locked)|done].
    + cbn. rewrite Els, !length_app. cbn [length]. destruct (Z.eqb_spec (ce_lock c0) 1); lia.
  - assert (list_of c' = Locked) as El'. { unfold list_of. cbn. destruct (Z.eqb_spec (ce_lock c0 - 1) 0); [lia|done]. }
    apply runs_ret. eapply (Hend s2 ls); [done|done|done| |].
    + intros w. rewrite El', <- El. by apply (ent_inv_list bs (disks s1) _ _ _ w s1); [apply V1|].
    + destruct (Z.eqb_spec (ce_lock c0) 1); lia.
Qed.
End Pointer.
