(* ===== verification/CacheSync.v ===== *)
(** Writing blocks back on request: [beos_flush_blocks], [beos_flush_device] and
    [beos_force_cache_flush] bring blocks to the disk and change no contents. *)

From S2P Require Import Prelude Errors Sort CacheHash CacheState CacheIo CacheFlush BlockCache CacheInv.
From S2P Require Import CacheServe CacheMiss CacheFill CacheStage CacheSettle CacheRun CacheStore.

Section Sync.
Context (bs : Z → Z).
Implicit Types (B : gmap ptr cache_ent) (ls : which → list ptr) (H : gmap (Z * Z) ptr).

(** [ents] were brought to the disk, and nothing else happened. *)
Record synced (ents : list ptr) (s : state) B ls H (s' : state) B' : Prop := {
  sy_inv : inv bs s' B' ls H;
  sy_limits : limits s s';
  sy_ent p c : p ∈ ents → B !! p = Some c → ∃ c', B' !! p = Some c' ∧ core c = core c' ∧ needs c' = 0%nat;
  sy_other p : (p ∉ ents) → B' !! p = B !! p;
  sy_contents d b : 0 ≤ b → contents bs (disks s') B' H d b = contents bs (disks s) B H d b
}.

Lemma core_busy c c' : core (or_flags CE_BUSY c) = core c' → is_busy c = false → core c = core (clear_flags CE_BUSY c').
Proof.
  intros E Hb. unfold core. rewrite busy_clear_busy, Hb.
  destruct c, c'. unfold core in E. cbn in *. injection E as <- <- <- _ <- <- <- <- <- <-. done.
Qed.

Lemma needs_clear_busy c : needs (clear_flags CE_BUSY c) = needs c.
Proof. unfold needs. by rewrite dirty_clear_busy. Qed.

Section Batch.
Context (s : state) B ls H (ents : list ptr) (s1 : state) B1.
Hypothesis Hi : inv bs s B ls H.
Hypothesis V1 : view s1 B1 ls H.
Hypothesis Hb : busied ents B B1.
Hypothesis Hnd : NoDup ents.
Hypothesis Hin : ∀ p, p ∈ ents → is_Some (B !! p).
Hypothesis E1 : upd_bc_lock 0 false (env s1) = upd_bc_lock 0 false (env s).

Lemma batch_ready : ready s1 ∧ disks s1 = disks s.
Proof using Hi E1.
  destruct (iv_ready _ _ _ _ _ Hi) as [? ? ? ? ?]. split; [|exact (f_equal disks E1)].
  pose proof (f_equal mem E1 : mem s1 = mem s). pose proof (f_equal io E1 : io s1 = io s).
  pose proof (f_equal iov_held E1 : iov_held s1 = iov_held s).
  pose proof (f_equal iovec_pool E1 : iovec_pool s1 = iovec_pool s).
  pose proof (f_equal iovec_used E1 : iovec_used s1 = iovec_used s). split; congruence.
Qed.

Lemma batch_ent p c : p ∈ ents → B1 !! p = Some c → ∃ c0, B !! p = Some c0 ∧ c = or_flags CE_BUSY c0 ∧
  ent_wf bs (disks s) c ∧ coherent bs (disks s) c.
Proof using Hi Hb.
  intros Hp Hc. rewrite (proj1 Hb p Hp) in Hc. destruct (B !! p) as [c0|] eqn:Hc0; [|done]. injection Hc as <-.
  exists c0. destruct (iv_ent _ _ _ _ _ Hi p c0 Hc0). split_and!; [done|done|by apply ent_wf_busy|by apply coherent_busy].
Qed.

Lemma batch_key p c : B1 !! p = Some c → ∃ c0, B !! p = Some c0 ∧ ce_key c = ce_key c0.
Proof using Hb.
  intros Hc. destruct (decide (p ∈ ents)) as [Hp|Hp].
  - rewrite (proj1 Hb p Hp) in Hc. destruct (B !! p) as [c0|]; [|done]. injection Hc as <-. eauto.
  - rewrite (proj2 Hb p Hp) in Hc. eauto.
Qed.

Lemma batch_runs {A} (K : list ptr → C A) (Q : A → state → Prop) :
  (∀ sorted s2 B2, sorted ≡ₚ ents → view s2 B2 ls H → env_io s2 = env_io s1 → ready s2 →
    cleaned bs sorted B1 B2 (disks s) (disks s2) → runs (K sorted) s2 Q) →
  runs (sorted ← sort_ents ents; flush_ents sorted;; K sorted) s1 Q.
Proof using Hi V1 Hb Hnd Hin E1.
  intros HK. destruct batch_ready as [R1 Ed1]. apply runs_bind. eapply (sort_ents_runs s1 B1 ls H); [done| | |].
  { intros p Hp. rewrite (proj1 Hb p Hp), fmap_is_Some. auto. }
  { intros p c Hc. destruct (batch_key p c Hc) as (c0 & Hc0 & Ek).
    destruct (iv_ent _ _ _ _ _ Hi p c0 Hc0) as [[_ (? & _ & ? & _) ? _ _] _ _ _ _].
    injection Ek as E1' E2'. right. rewrite E1', E2'. lia. }
  intros sorted Hperm _. apply runs_bind. eapply (flush_ents_runs bs s1 B1); [done|done|by rewrite Hperm| | |].
  - intros p Hp. rewrite Hperm in Hp. assert (is_Some (B1 !! p)) as [c Hc].
    { rewrite (proj1 Hb p Hp), fmap_is_Some. auto. }
    exists c. split; [done|]. rewrite Ed1. left. by destruct (batch_ent p c Hp Hc) as (_ & _ & _ & ?).
  - intros p q c d _ _ Hc Hd _ Hk. destruct (batch_key p c Hc) as (c0 & Hc0 & Ek), (batch_key q d Hd) as (d0 & Hd0 & Ek').
    assert (H !! ce_key c = Some p) as H1 by (apply (iv_hash _ _ _ _ _ Hi); eauto).
    assert (H !! ce_key c = Some q) as H2 by (apply (iv_hash _ _ _ _ _ Hi); exists d0; split; congruence). congruence.
  - intros B2 s2 V2 E2 R2 Hcl. rewrite Ed1 in Hcl. by eapply HK.
Qed.

(** The busy bits are taken back. *)
Lemma batch_synced sorted s2 B2 s3 B3 :
  sorted ≡ₚ ents → env_io s2 = env_io s1 → ready s2 → cleaned bs sorted B1 B2 (disks s) (disks s2) →
  view s3 B3 ls H → upd_bc_lock 0 false (env s3) = upd_bc_lock 0 false (env s2) →
  updated (λ _, clear_flags CE_BUSY) sorted B2 B3 → synced ents s B ls H s3 B3.
Proof using Hi V1 Hb Hnd Hin E1.
  intros Hperm E2 R2 Hcl V3 E3 Hu.
  assert (∀ p, p ∈ sorted ↔ p ∈ ents) as Hmem by (intros p; by rewrite Hperm).
  assert (disks s3 = disks s2) as Ed3 by exact (f_equal disks E3).
  assert (∀ d, length <$> disks s3 !! d = length <$> disks s !! d) as Hlen.
  { intros d. rewrite Ed3. apply (cn_length _ _ _ _ _ _ Hcl). }
  assert (∀ p, (p ∉ ents) → B3 !! p = B !! p) as Hother.
  { intros p Hp. assert (p ∉ sorted) as Hps by (by rewrite Hmem).
    by rewrite (proj2 Hu p Hps), (cn_other _ _ _ _ _ _ Hcl p Hps), (proj2 Hb p Hp). }
  assert (∀ p c, p ∈ ents → B !! p = Some c → ∃ c', B3 !! p = Some c' ∧ core c = core c' ∧ needs c' = 0%nat ∧
    is_busy c' = false ∧ ent_wf bs (disks s3) c' ∧ coherent bs (disks s3) c') as Hent.
  { intros p c Hp Hc. assert (B1 !! p = Some (or_flags CE_BUSY c)) as Hc1 by (by rewrite (proj1 Hb p Hp), Hc).
    destruct (iv_ent _ _ _ _ _ Hi p c Hc) as [Hwf0 _ Hbz _ _].
    destruct (cn_ent _ _ _ _ _ _ Hcl p _ (proj2 (Hmem p) Hp) Hc1) as (c2 & Hc2 & Ecore & Hn & Hok & _).
    exists (clear_flags CE_BUSY c2). pose proof (proj2 (Hmem p) Hp) as Hps. apply list_elem_of_lookup in Hps as [i Hi'].
    rewrite (proj1 Hu i p Hi'), Hc2, needs_clear_busy, busy_clear_busy, Ed3.
    destruct Hok as [[Hwf Hcoh]|[Hd _]].
    2: { apply ent_wf_old in Hwf0. pose proof (f_equal ce_dev Ecore : ce_dev c = ce_dev c2). congruence. }
    split_and!; [done|by apply core_busy|done|done|by destruct Hwf; split|].
    intros Hd. rewrite dirty_clear_busy in Hd. exact (Hcoh Hd). }
  assert (∀ d b, 0 ≤ b → (∀ p c, p ∈ ents → B !! p = Some c → ce_key c ≠ (d, b)) →
    block bs (disks s3) d b = block bs (disks s) d b) as Hblk.
  { intros d b Hb0 Hno. rewrite Ed3. apply (cn_block _ _ _ _ _ _ Hcl); [done|]. intros p c Hp%Hmem Hc.
    destruct (batch_ent p c Hp Hc) as (c0 & Hc0 & -> & _). by apply (Hno p c0). }
  assert (∀ p c, B3 !! p = Some c → ∃ c0, B !! p = Some c0 ∧ core c0 = core c ∧ is_busy c = false ∧
    ent_wf bs (disks s3) c ∧ coherent bs (disks s3) c) as Hall.
  { intros p c Hc. destruct (decide (p ∈ ents)) as [Hp|Hp].
    - destruct (Hin p Hp) as [c0 Hc0]. destruct (Hent p c0 Hp Hc0) as (c' & Hc' & ? & _ & ? & ? & ?).
      assert (c' = c) as -> by congruence. by exists c0.
    - rewrite (Hother p Hp) in Hc. exists c. destruct (iv_ent _ _ _ _ _ Hi p c Hc) as [Hwf Hcoh Hbz _ _].
      split_and!; [done|done|done| |].
      + by apply (ent_wf_core bs (disks s) _ c c eq_refl).
      + intros Hd. specialize (Hcoh Hd). destruct (ce_clone c); [done|]. rewrite <- Hcoh.
        apply Hblk; [by destruct (ew_dev _ _ _ Hwf) as (? & _ & ? & _)|]. intros q cq Hq Hcq Hk.
        assert (H !! ce_key c = Some p) as H1 by (apply (iv_hash _ _ _ _ _ Hi); eauto).
        assert (H !! ce_key c = Some q) as H2 by (apply (iv_hash _ _ _ _ _ Hi); exists cq; by rewrite Hk). congruence. }
  assert (∀ p c0, B !! p = Some c0 → ∃ c, B3 !! p = Some c ∧ core c0 = core c) as Hback.
  { intros p c0 Hc0. destruct (decide (p ∈ ents)) as [Hp|Hp]; [|rewrite (Hother p Hp); eauto].
    destruct (Hent p c0 Hp Hc0) as (c & ? & ? & _). eauto. }
  assert (size B3 = size B) as Hsz.
  { rewrite <- !size_dom. f_equal. apply set_eq. intros p. rewrite !elem_of_dom. split; intros [c Hc].
    - destruct (Hall p c Hc) as (? & -> & _). by eexists.
    - destruct (Hback p c Hc) as (? & -> & _). by eexists. }
  assert (∀ {A} (f : state → A), f (upd_bc_lock 0 false (env s3)) = f s3 → f (upd_bc_lock 0 false (env s2)) = f (env_io s2) →
    f (env_io s1) = f (upd_bc_lock 0 false (env s1)) → f (upd_bc_lock 0 false (env s)) = f s → f s3 = f s) as Hf.
  { intros A f F1 F2 F3 F4. rewrite <- F1, E3, F2, E2, F3, E1. done. }
  assert (max_blocks s3 = max_blocks s ∧ max_device_blocks s3 = max_device_blocks s) as [L1 L2] by (split; by apply Hf).
  split; [|done| |done|].
  - split.
    + done.
    + destruct R2 as [? ? ? ? ?]. pose proof (f_equal mem E3 : mem s3 = mem s2). pose proof (f_equal io E3 : io s3 = io s2).
      pose proof (f_equal iov_held E3 : iov_held s3 = iov_held s2).
      pose proof (f_equal iovec_pool E3 : iovec_pool s3 = iovec_pool s2).
      pose proof (f_equal iovec_used E3 : iovec_used s3 = iovec_used s2). split; congruence.
    + intros w p Hw. destruct (iv_dom _ _ _ _ _ Hi w p Hw) as [c0 Hc0]. destruct (Hback p c0 Hc0) as (? & -> & _). by eexists.
    + intros p c Hc. destruct (Hall p c Hc) as (c0 & Hc0 & Ecore & ? & ? & ?).
      destruct (iv_ent _ _ _ _ _ Hi p c0 Hc0) as [_ _ _ Hl Hli]. pose proof (core_lock _ _ Ecore) as El.
      split; [done|done|done|by rewrite <- El|]. unfold list_of in *. by rewrite <- El.
    + intros k p. rewrite (iv_hash _ _ _ _ _ Hi). split; intros (c & Hc & <-).
      * destruct (Hback p c Hc) as (c3 & Hc3 & Ecore). exists c3. split; [done|]. symmetry. exact (core_key _ _ Ecore).
      * destruct (Hall p c Hc) as (c0 & Hc0 & Ecore & _). exists c0. split; [done|]. exact (core_key _ _ Ecore).
    + rewrite (Hf _ cur_blocks), L1, Hsz by done. apply Hi.
    + rewrite (Hf _ next_ptr) by done. intros p Hp. destruct (B3 !! p) as [c|] eqn:Hc; [|done].
      destruct (Hall p c Hc) as (c0 & Hc0 & _). pose proof (iv_next _ _ _ _ _ Hi p Hp) as Hn.
      discriminate (eq_trans (eq_sym Hc0) Hn).
    + rewrite L2. apply Hi.
    + intros dv m b Hdv. rewrite L2. intros Hm Hbb. destruct (iv_devs _ _ _ _ _ Hi dv m b Hdv Hm Hbb) as [Ho Hlt].
      split; [|done]. eapply on_device_length, Ho. apply Hlen.
  - intros p c Hp Hc. destruct (Hent p c Hp Hc) as (c' & ? & ? & ? & _). eauto.
  - intros d b Hb0. unfold contents. destruct (H !! (d, b)) as [p|] eqn:Ep.
    + apply (iv_hash _ _ _ _ _ Hi) in Ep as (c & Hc & _). destruct (Hback p c Hc) as (c3 & -> & Ecore). rewrite Hc. cbn.
      symmetry. exact (f_equal ce_data Ecore).
    + apply Hblk; [done|]. intros p c _ Hc Hk.
      assert (H !! (d, b) = Some p) by (apply (iv_hash _ _ _ _ _ Hi); eauto). congruence.
Qed.
End Batch.

(** * A batch under the lock *)

Lemma clear_busy_runs ps s B ls H (Q : unit → state → Prop) :
  view s B ls H → NoDup ps → (∀ p, p ∈ ps → is_Some (B !! p)) →
  (∀ s' B', view s' B' ls H → env s' = env s → updated (λ _, clear_flags CE_BUSY) ps B B' → Q tt s') →
  runs (clear_busy ps) s Q.
Proof.
  revert s B. induction ps as [|p ps IH]; intros s B V Hnd Hin HQ; cbn [clear_busy].
  { apply runs_ret, (HQ s B); [done|done|apply updated_nil]. }
  apply NoDup_cons in Hnd as [Hp Hnd]. destruct (Hin p) as [c Hc]; [left|].
  apply runs_bind. eapply (runs_store _ _ _ _ V); [apply _|done|]. intros s1 V1 E1.
  eapply (IH s1); [done|done| |].
  - intros q Hq. destruct (decide (p = q)) as [<-|]; [by rewrite lookup_insert_eq|].
    rewrite lookup_insert_ne by done. apply Hin. by right.
  - intros s' B' V' E' Hu. eapply HQ; [done|congruence|]. by eapply updated_cons.
Qed.

Lemma set_busy_runs ps s B ls H (Q : unit → state → Prop) :
  view s B ls H → NoDup ps → (∀ p, p ∈ ps → is_Some (B !! p)) →
  (∀ s' B', view s' B' ls H → env s' = env s → busied ps B B' → Q tt s') →
  runs (set_busy ps) s Q.
Proof.
  revert s B. induction ps as [|p ps IH]; intros s B V Hnd Hin HQ; cbn [set_busy].
  { apply runs_ret, (HQ s B); [done|done|apply busied_nil]. }
  apply NoDup_cons in Hnd as [Hp Hnd]. destruct (Hin p) as [c Hc]; [left|].
  apply runs_bind. eapply (runs_store _ _ _ _ V); [apply _|done|]. intros s1 V1 E1.
  eapply (IH s1); [done|done| |].
  - intros q Hq. destruct (decide (p = q)) as [<-|]; [by rewrite lookup_insert_eq|].
    rewrite lookup_insert_ne by done. apply Hin. by right.
  - intros s' B' V' E' Hu. eapply HQ; [done|congruence|]. by eapply busied_cons.
Qed.

Lemma view_lock s B ls H sm h : view s B ls H → view (upd_bc_lock sm h s) B ls H.
Proof.
  intros [[He Hn1 Hf] ? ? ? ?]. split; [split; [|done|done]|done..].
  intros w. by destruct w; [apply (He Normal)|apply (He Locked)].
Qed.

Lemma flush_unlocked_runs s B ls H ents s1 B1 (Q : unit → state → Prop) :
  inv bs s B ls H → view s1 B1 ls H → busied ents B B1 → NoDup ents → (∀ p, p ∈ ents → is_Some (B !! p)) →
  upd_bc_lock 0 false (env s1) = upd_bc_lock 0 false (env s) →
  (∀ s' B', synced ents s B ls H s' B' → bc_held s' = true → Q tt s') →
  runs (flush_unlocked ents) s1 Q.
Proof.
  intros Hi V1 Hb Hnd Hin E1 HQ. unfold flush_unlocked. apply runs_bind, runs_modifyS.
  eapply (batch_runs s B ls H ents (upd_bc_lock (bc_sem s1) false s1) B1 Hi); [by apply view_lock|done|done|done|done|].
  intros sorted s2 B2 Hperm V2 E2 R2 Hcl. assert (bc_held s2 = false) as Hh2 by exact (f_equal bc_held E2).
  apply runs_bind, (runs_eq _ _ tt (upd_bc_lock (bc_sem s2) true s2)); [unfold LOCK_bc; by rewrite Hh2|].
  eapply clear_busy_runs; [by apply view_lock|by rewrite Hperm| |].
  { intros p Hp. assert (is_Some (B1 !! p)) as [c1 Hc1].
    { assert (p ∈ ents) as Hp' by (by rewrite <- Hperm). rewrite (proj1 Hb p Hp'), fmap_is_Some. auto. }
    destruct (cn_ent _ _ _ _ _ _ Hcl p c1 Hp Hc1) as (c2 & -> & _). by eexists. }
  intros s3 B3 V3 E3 Hu. eapply (HQ s3 B3).
  - eapply (batch_synced s B ls H ents (upd_bc_lock (bc_sem s1) false s1) B1 Hi); try done; [by apply view_lock|].
    by rewrite E3.
  - exact (f_equal bc_held E3).
Qed.

Lemma do_flush_runs s B ls H ents (Q : unit → state → Prop) :
  inv bs s B ls H → NoDup ents → (∀ p, p ∈ ents → is_Some (B !! p)) →
  (∀ s' B', synced ents s B ls H s' B' → bc_held s' = true → Q tt s') →
  runs (do_flush ents) s Q.
Proof.
  intros Hi Hnd Hin HQ. unfold do_flush. apply runs_bind. eapply set_busy_runs; [apply Hi|done|done|].
  intros s1 B1 V1 E1 Hb. eapply (flush_unlocked_runs s B ls H); try done. by rewrite E1.
Qed.

(** * Several batches *)

Record syncs (s : state) B ls H (s' : state) B' : Prop := {
  ss_inv : inv bs s' B' ls H;
  ss_limits : limits s s';
  ss_ent p c : B !! p = Some c → ∃ c', B' !! p = Some c' ∧ core c = core c' ∧ (c' = c ∨ needs c' = 0%nat);
  ss_contents d b : 0 ≤ b → contents bs (disks s') B' H d b = contents bs (disks s) B H d b
}.

Lemma syncs_refl s B ls H : inv bs s B ls H → syncs s B ls H s B.
Proof. intros Hi. split; [done|by split| |done]. eauto. Qed.

Lemma syncs_trans s B ls H s1 B1 s2 B2 :
  syncs s B ls H s1 B1 → syncs s1 B1 ls H s2 B2 → syncs s B ls H s2 B2.
Proof.
  intros [I1 L1 E1 C1] [I2 L2 E2 C2]. split; [done|by eapply limits_trans| |].
  - intros p c Hc. destruct (E1 p c Hc) as (c1 & Hc1 & K1 & D1). destruct (E2 p c1 Hc1) as (c2 & Hc2 & K2 & D2).
    exists c2. split_and!; [done|congruence|]. destruct D2 as [->|?]; auto.
  - intros d b Hb. by rewrite C2, C1.
Qed.

Lemma synced_syncs ents s B ls H s' B' : synced ents s B ls H s' B' → syncs s B ls H s' B'.
Proof.
  intros [I L E O C]. split; [done|done| |done]. intros p c Hc. destruct (decide (p ∈ ents)) as [Hp|Hp].
  - destruct (E p c Hp Hc) as (c' & ? & ? & ?). eauto.
  - exists c. rewrite (O p Hp). auto.
Qed.

(** * [beos_flush_device] *)

Section Device.
Context (w : which) (pick : cache_ent → bool) (dev : Z).
Hypothesis Hpick : ∀ c, needs c = 0%nat → (w = Normal → ce_lock c = 0) → pick c = false.
Hypothesis Hpure : ∀ c, pick (erase c) = pick c.

Definition chosen B (p : ptr) : bool :=
  match B !! p with Some c => (ce_dev c =? dev) && pick c | None => false end.

Definition picks B (l : list ptr) : list ptr := filter (λ p, chosen B p = true) l.

Lemma picks_app B l1 l2 : picks B (l1 ++ l2) = picks B l1 ++ picks B l2.
Proof using. apply filter_app. Qed.

Lemma picks_in s B ls H l : inv bs s B ls H → (∃ pre post, ls w = pre ++ l ++ post) →
  NoDup (picks B l) ∧ ∀ p, p ∈ picks B l → is_Some (B !! p).
Proof using.
  intros Hi (pre & post & El). split.
  - apply NoDup_filter. pose proof (lr_list_nodup _ _ w (vw_lists _ _ _ _ (iv_view _ _ _ _ _ Hi))) as Hnd.
    rewrite El in Hnd. apply NoDup_app in Hnd as (_ & _ & Hnd). by apply NoDup_app in Hnd as (? & _).
  - intros p [Hc _]%list_elem_of_filter. unfold chosen in Hc. destruct (B !! p); [by eexists|done].
Qed.

(** Whoever was written is not chosen again. *)
Lemma synced_chosen ents s B ls H s' B' p :
  inv bs s B ls H → synced ents s B ls H s' B' → p ∈ ls w → chosen B' p = chosen B p ∧ (p ∉ ents) ∨ chosen B' p = false.
Proof using Hpick.
  intros Hi [I L E O C] Hp. destruct (decide (p ∈ ents)) as [Hpe|Hpe].
  2: { left. split; [|done]. unfold chosen. by rewrite (O p Hpe). }
  right. destruct (iv_dom _ _ _ _ _ Hi w p Hp) as [c Hc]. destruct (E p c Hpe Hc) as (c' & Hc' & Ecore & Hn).
  unfold chosen. rewrite Hc'. rewrite Hpick; [by rewrite andb_false_r|done|]. intros ->.
  rewrite <- (core_lock _ _ Ecore). pose proof (iv_ent _ _ _ _ _ Hi p c Hc) as He.
  pose proof (proj1 (ent_inv_list _ _ _ _ _ Normal _ (vw_lists _ _ _ _ (iv_view _ _ _ _ _ Hi)) He) Hp) as Hl.
  destruct (list_of_cases c) as [[_ ?]|[El _]]; [done|congruence].
Qed.

Lemma synced_picks ents s B ls H s' B' :
  inv bs s B ls H → synced ents s B ls H s' B' → (∃ p, p ∈ ents ∧ p ∈ picks B (ls w)) →
  (length (picks B' (ls w)) < length (picks B (ls w)))%nat.
Proof using Hpick.
  intros Hi Hsy (p0 & Hp0 & Hp0s).
  assert (NoDup (ls w)) as Hnd by apply (lr_list_nodup _ _ w (vw_lists _ _ _ _ (iv_view _ _ _ _ _ Hi))).
  assert (p0 :: picks B' (ls w) ⊆+ picks B (ls w)) as Hsub.
  { apply NoDup_submseteq.
    - apply NoDup_cons. split; [|by apply NoDup_filter]. intros [Hc Hin]%list_elem_of_filter.
      destruct (synced_chosen _ _ _ _ _ _ _ p0 Hi Hsy Hin) as [[_ ?]|?]; [done|congruence].
    - intros p [->|[Hc Hin]%list_elem_of_filter]%elem_of_cons; [done|]. apply list_elem_of_filter. split; [|done].
      destruct (synced_chosen _ _ _ _ _ _ _ p Hi Hsy Hin) as [[<- _]|?]; congruence. }
  apply submseteq_length in Hsub. cbn in Hsub. lia.
Qed.

Lemma view_next_in s B ls H pre p rest c :
  view s B ls H → ls w = pre ++ p :: rest → heap s !! p = Some c → ce_next c = first rest None.
Proof using.
  intros V El Hc. pose proof (rep_seg _ _ _ (lr_each _ _ (vw_lists _ _ _ _ V) w)) as Hs.
  rewrite El in Hs. apply dseg_app in Hs as [_ [(c' & Hc' & _ & En) _]]. congruence.
Qed.

Lemma flush_scan_runs fuel ls H : ∀ s B pre rest (Q : list ptr → state → Prop),
  inv bs s B ls H → bc_held s = true → ls w = pre ++ rest →
  (length rest + length (picks B (ls w)) * length (ls w) ≤ fuel)%nat → (length (picks B pre) < 64)%nat →
  (∀ s' B', syncs s B ls H s' B' → bc_held s' = true → Q (picks B' (ls w)) s') →
  runs (flush_scan fuel w pick dev (first rest None) (picks B pre)) s Q.
Proof using Hpick Hpure.
  induction fuel as [|fuel IH]; intros s B pre rest Q Hi Hh El Hfuel Hlt HQ.
  { destruct rest; [|cbn in Hfuel; lia]. cbn. apply runs_ret. rewrite app_nil_r in El. rewrite <- El.
    apply HQ; [by apply syncs_refl|done]. }
  destruct rest as [|p rest]; cbn [first flush_scan].
  { apply runs_ret. rewrite app_nil_r in El. rewrite <- El. apply HQ; [by apply syncs_refl|done]. }
  pose proof (iv_view _ _ _ _ _ Hi) as V. cbn [length] in Hfuel.
  destruct (iv_dom _ _ _ _ _ Hi w p) as [c Hc]; [rewrite El; apply elem_of_app; right; left|].
  pose proof (ei_busy _ _ _ _ _ (iv_ent _ _ _ _ _ Hi p c Hc)) as Hbusy.
  apply runs_bind. eapply (runs_load _ _ _ _ V); [done|]. intros c0 -> Hc0.
  change (is_busy (erase c0)) with (is_busy c0) in Hbusy. rewrite Hbusy, orb_false_r.
  rewrite (view_next_in _ _ _ _ _ _ _ _ V El Hc0).
  assert (picks B (pre ++ [p]) = picks B pre ++ (if (ce_dev c0 =? dev) && pick c0 then [p] else [])) as Ep.
  { rewrite picks_app. f_equal. unfold picks, chosen. cbn [filter list_filter]. rewrite Hc, Hpure. cbn [ce_dev erase].
    by destruct (_ && _). }
  assert (∀ ents, ents = picks B (pre ++ [p]) → (length ents < 64)%nat →
    runs (flush_scan fuel w pick dev (first rest None) ents) s Q) as Hgo.
  { intros ents -> Hl. apply IH; [done|done|by rewrite <- (assoc_L (++))|lia|done|done]. }
  destruct (ce_dev c0 =? dev); cbn [negb andb] in *; [|apply Hgo; [by rewrite Ep, app_nil_r|done]].
  destruct (pick c0); [|apply Hgo; [by rewrite Ep, app_nil_r|done]]. rewrite <- Ep.
  destruct (Z.leb_spec NUM_FLUSH_BLOCKS (zlen (picks B (pre ++ [p])))) as [Hfull|Hmore].
  2: { apply Hgo; [done|]. unfold NUM_FLUSH_BLOCKS in Hmore. lia. }
  destruct (picks_in s B ls H (pre ++ [p]) Hi) as [Hnd Hin].
  { exists [], rest. by rewrite <- (assoc_L (++)). }
  apply runs_bind. eapply (do_flush_runs s B ls H); [done|done|done|]. intros s1 B1 Hsy Hh1.
  apply runs_bind, runs_getS. pose proof (sy_inv _ _ _ _ _ _ _ Hsy) as I1.
  rewrite (rep_lru _ _ _ (lr_each _ _ (vw_lists _ _ _ _ (iv_view _ _ _ _ _ I1)) w)).
  change [] with (picks B1 []). eapply (IH s1 B1 [] (ls w)); [done|done|done| |cbn; lia|].
  - assert (length (picks B1 (ls w)) < length (picks B (ls w)))%nat as Hdec.
    { eapply synced_picks; [done|done|]. exists p. split; [rewrite Ep; apply elem_of_app; right; left|].
      rewrite El, (cons_middle p pre rest), (assoc_L (++)), picks_app. apply elem_of_app. left. rewrite Ep. apply elem_of_app. right. left. }
    nia.
  - intros s' B' Hss Hh'. apply HQ; [|done]. eapply syncs_trans; [by eapply synced_syncs|done].
Qed.

(** Nothing on the list is left to write. *)
Lemma flush_list_runs fuel ls H s B (Q : unit → state → Prop) :
  inv bs s B ls H → bc_held s = true → (length (ls w) * (length (ls w) + 1) ≤ fuel)%nat →
  (∀ s' B', syncs s B ls H s' B' → bc_held s' = true → (∀ p, p ∈ ls w → chosen B' p = false) → Q tt s') →
  runs (flush_list fuel w pick dev) s Q.
Proof using Hpick Hpure.
  intros Hi Hh Hfuel HQ. unfold flush_list. apply runs_bind, runs_getS.
  rewrite (rep_lru _ _ _ (lr_each _ _ (vw_lists _ _ _ _ (iv_view _ _ _ _ _ Hi)) w)).
  apply runs_bind. change [] with (picks B []) at 1. eapply (flush_scan_runs _ ls H s B [] (ls w)); [done|done|done| |cbn; lia|].
  { assert (length (picks B (ls w)) ≤ length (ls w))%nat by apply length_filter. nia. }
  intros s1 B1 Hss Hh1. pose proof (ss_inv _ _ _ _ _ _ Hss) as I1.
  case_bool_decide as En.
  - apply runs_ret, (HQ s1 B1); [done|done|]. intros p Hp. apply not_true_is_false. intros Hc.
    assert (p ∈ picks B1 (ls w)) as Hx by (by apply list_elem_of_filter). rewrite En in Hx. by apply elem_of_nil in Hx.
  - destruct (picks_in s1 B1 ls H (ls w) I1) as [Hnd Hin]; [exists [], []; by rewrite app_nil_r|].
    eapply (do_flush_runs s1 B1 ls H); [done|done|done|]. intros s2 B2 Hsy Hh2. apply (HQ s2 B2); [|done|].
    + eapply syncs_trans; [done|by eapply synced_syncs].
    + intros p Hp. destruct (synced_chosen _ _ _ _ _ _ _ p I1 Hsy Hp) as [[Ec Hno]|?]; [|done].
      rewrite Ec. apply not_true_is_false. intros Hc. by apply Hno, list_elem_of_filter.
Qed.
End Device.

(** * What is on the disk afterwards *)

Lemma pick_normal_done c : needs c = 0%nat → (Normal = Normal → ce_lock c = 0) → pick_normal c = false.
Proof. intros Hn Hl. destruct (needs_0 c Hn (Hl eq_refl)) as [Hd Hc]. unfold pick_normal. by rewrite Hd, Hc. Qed.

Lemma pick_locked_done c : needs c = 0%nat → (Locked = Normal → ce_lock c = 0) → pick_locked c = false.
Proof. intros Hn _. unfold pick_locked. by rewrite (needs_clone c Hn). Qed.

(** Between operations an unlocked block that is neither dirty nor logged is on
    the disk. *)
Lemma clean_on_disk s B ls H p c :
  inv bs s B ls H → B !! p = Some c → is_dirty c = false → ce_clone c = None →
  block bs (disks s) (ce_dev c) (ce_block_num c) = contents bs (disks s) B H (ce_dev c) (ce_block_num c).
Proof.
  intros Hi Hc Hd Hcl. destruct (iv_ent _ _ _ _ _ Hi p c Hc) as [_ Hcoh _ _ _]. specialize (Hcoh Hd). rewrite Hcl in Hcoh.
  unfold contents. assert (H !! (ce_dev c, ce_block_num c) = Some p) as -> by (apply (iv_hash _ _ _ _ _ Hi); eauto).
  rewrite Hc. done.
Qed.

Definition locked_block (s : state) (dev b : Z) : Prop :=
  ∃ p c, heap s !! p = Some c ∧ ce_key c = (dev, b) ∧ 0 < ce_lock c.

Lemma flush_device_runs fuel s (A : store_of) L dev (Q : Z → state → Prop) :
  represents bs s A L → cur_blocks s * (cur_blocks s + 1) ≤ Z.of_nat fuel →
  (∀ s', represents bs s' A L → limits s s' →
    (∀ b, 0 ≤ b → block bs (disks s') dev b = A dev b ∨ locked_block s' dev b) → Q 0 s') →
  runs (beos_flush_device fuel dev) s Q.
Proof.
  intros (B & ls & H & Hi & Hh & HL & HA) Hfuel HQ. unfold beos_flush_device.
  set (s0 := upd_bc_lock (bc_sem s) true s).
  apply runs_bind, (runs_eq _ _ tt s0); [unfold LOCK_bc; by rewrite Hh|].
  pose proof (leaves_zero bs dev 512 0 s B ls H 0 (mkUser None 0 None) s0 Hi eq_refl) as [I0 _ _ _ _].
  pose proof (inv_count _ _ _ _ _ Hi) as Hcnt. pose proof (iv_size _ _ _ _ _ Hi) as [Hcur _].
  apply runs_bind. eapply (flush_list_runs Normal pick_normal dev pick_normal_done ltac:(done) fuel ls H s0 B); [done|done|nia|].
  intros s1 B1 Hss1 Hh1 Hn1. apply runs_bind.
  eapply (flush_list_runs Locked pick_locked dev pick_locked_done ltac:(done) fuel ls H s1 B1); [apply Hss1|done|nia|].
  intros s2 B2 Hss2 Hh2 Hn2. apply runs_bind, runs_modifyS, runs_ret.
  set (s3 := upd_bc_lock (bc_sem s2) false s2). pose proof (ss_inv _ _ _ _ _ _ Hss2) as I2.
  pose proof (leaves_zero bs dev 512 0 s2 B2 ls H 0 (mkUser None 0 None) s3 I2 eq_refl) as [I3 L3 _ _ _].
  pose proof (syncs_trans _ _ _ _ _ _ _ _ Hss1 Hss2) as [_ L02 Hent Hcon].
  assert (∀ d b, 0 ≤ b → contents bs (disks s3) B2 H d b = A d b) as HA3.
  { intros d b Hb. change (disks s3) with (disks s2). rewrite Hcon by done. by apply HA. }
  apply HQ.
  - exists B2, ls, H. by split_and!.
  - eapply limits_trans; [exact L02|exact L3].
  - intros b Hb. destruct (H !! (dev, b)) as [p|] eqn:Ep.
    2: { left. rewrite <- HA3 by done. unfold contents. by rewrite Ep. }
    apply (iv_hash _ _ _ _ _ I2) in Ep as (c & Hc & Hk). pose proof Hk as [= Ek1 Ek2].
    pose proof (iv_ent _ _ _ _ _ I2 p c Hc) as He. destruct (list_of_cases c) as [[El Hlk]|[El Hlk]].
    + left. rewrite <- HA3 by done. rewrite <- Ek1, <- Ek2.
      assert (chosen pick_normal dev B2 p = false) as Hch.
      { pose proof (ei_list _ _ _ _ _ He) as Hl. rewrite El in Hl. specialize (Hn1 p Hl).
        destruct (iv_dom _ _ _ _ _ (ss_inv _ _ _ _ _ _ Hss1) Normal p Hl) as [c1 Hc1].
        destruct (ss_ent _ _ _ _ _ _ Hss2 p c1 Hc1) as (c2 & Hc2 & Ecore & Hcase). assert (c2 = c) as -> by congruence.
        unfold chosen in Hn1 |- *. rewrite Hc2. destruct Hcase as [->|Hz]; [by rewrite Hc1 in Hn1|].
        rewrite pick_normal_done by done. apply andb_false_r. }
      unfold chosen in Hch. rewrite Hc, Ek1, Z.eqb_refl in Hch. cbn in Hch. unfold pick_normal in Hch.
      apply orb_false_iff in Hch as [Hd Hcl]. eapply clean_on_disk; [done|done|done|].
      unfold has in Hcl. apply bool_decide_eq_false in Hcl. by apply eq_None_not_Some.
    + right. destruct (view_load _ _ _ _ (iv_view _ _ _ _ _ I3) p c Hc) as (c0 & Hc0 & ->).
      exists p, c0. split_and!; [done|done|]. pose proof (ei_lock _ _ _ _ _ He) as Hl0. cbn in Hl0, Hlk. lia.
Qed.

(** * [beos_flush_blocks] *)

(** The blocks of [dev] from [lo] up to [hi] are written or in the batch. *)
Definition covered (dev lo hi : Z) (ents : list ptr) B H : Prop :=
  ∀ b p c, lo ≤ b < hi → H !! (dev, b) = Some p → B !! p = Some c → needs c = 0%nat ∨ p ∈ ents.

Lemma busied_snoc ents p B B1 c :
  (p ∉ ents) → busied ents B B1 → B !! p = Some c → busied (ents ++ [p]) B (<[p := or_flags CE_BUSY c]> B1).
Proof.
  intros Hp [H1 H2] Hc. split.
  - intros q [Hq| ->%list_elem_of_singleton]%elem_of_app; [|by rewrite lookup_insert_eq, Hc].
    rewrite lookup_insert_ne; [by apply H1|]. by intros ->.
  - intros q [Hq Hne]%not_elem_of_app. rewrite lookup_insert_ne; [by apply H2|]. intros ->. apply Hne. left.
Qed.

Lemma synced_covered ents s B ls H s' B' dev lo hi :
  inv bs s B ls H → synced ents s B ls H s' B' → covered dev lo hi ents B H → covered dev lo hi [] B' H.
Proof.
  intros Hi [I L E O C] Hcov b p c Hb Hp Hc. left.
  apply (iv_hash _ _ _ _ _ Hi) in Hp as Hp'. destruct Hp' as (c0 & Hc0 & _). destruct (decide (p ∈ ents)) as [Hpe|Hpe].
  - destruct (E p c0 Hpe Hc0) as (c' & ? & _ & ?). congruence.
  - rewrite (O p Hpe) in Hc. by destruct (Hcov b p c Hb Hp Hc).
Qed.

Lemma flush_blocks_loop_runs n : ∀ s B ls H dev lo hi ents s1 B1 (Q : list ptr → state → Prop),
  inv bs s B ls H → view s1 B1 ls H → busied ents B B1 → env s1 = env s → bc_held s = true → NoDup ents →
  (∀ p, p ∈ ents → ∃ c, B !! p = Some c ∧ ce_dev c = dev ∧ ce_block_num c < hi) → covered dev lo hi ents B H →
  (∀ s2 B2 ents' s3 B3, syncs s B ls H s2 B2 → view s3 B3 ls H → busied ents' B2 B3 → env s3 = env s2 → NoDup ents' →
    (∀ p, p ∈ ents' → is_Some (B2 !! p)) → covered dev lo (hi + Z.of_nat n) ents' B2 H → Q ents' s3) →
  runs (flush_blocks_loop dev hi n ents) s1 Q.
Proof.
  induction n as [|n IH]; intros s B ls H dev lo hi ents s1 B1 Q Hi V1 Hb E1 Hh Hnd Hin Hcov HQ; cbn [flush_blocks_loop].
  { apply runs_ret. eapply (HQ s B ents s1 B1); try done; [by apply syncs_refl| |by rewrite Z.add_0_r].
    intros p (c & -> & _)%Hin. by eexists. }
  replace (hi + Z.of_nat (S n)) with (hi + 1 + Z.of_nat n) in HQ by lia.
  assert (covered dev lo (hi + 1) ents B H ∨ ∃ p c, H !! (dev, hi) = Some p ∧ B !! p = Some c) as Hnext.
  { destruct (H !! (dev, hi)) as [p|] eqn:Ep.
    - right. apply (iv_hash _ _ _ _ _ Hi) in Ep as (c & Hc & _). eauto.
    - left. intros b p c Hbb Hp Hc. apply (Hcov b p c); [|done|done]. destruct (decide (b = hi)) as [->|]; [congruence|lia]. }
  apply runs_bind. unfold block_lookup. apply runs_bind, (runs_ht_find _ _ _ _ V1).
  destruct (H !! (dev, hi)) as [p|] eqn:Ep.
  2: { apply runs_ret. destruct Hnext as [Hnext|(? & ? & ? & _)]; [|done].
       eapply (IH s B ls H dev lo (hi + 1) ents s1 B1); try done.
       intros q (c & ? & ? & ?)%Hin. exists c. split_and!; [done|done|lia]. }
  apply (iv_hash _ _ _ _ _ Hi) in Ep as Hp'. destruct Hp' as (c & Hc & Hk). pose proof Hk as [= Ek1 Ek2].
  assert (p ∉ ents) as Hpe by (intros (c' & ? & _ & ?)%Hin; assert (c' = c) as -> by congruence; lia).
  assert (B1 !! p = Some c) as Hc1 by (by rewrite (proj2 Hb p Hpe)).
  pose proof (iv_ent _ _ _ _ _ Hi p c Hc) as He.
  assert (∀ ents', (needs c = 0%nat ∨ p ∈ ents') → (∀ q, q ∈ ents → q ∈ ents') → covered dev lo (hi + 1) ents' B H) as Hcov1.
  { intros ents' Hor Hsub b q cq Hbb Hq Hcq. destruct (decide (b = hi)) as [->|].
    - assert (q = p) as -> by congruence. assert (cq = c) as -> by congruence. done.
    - destruct (Hcov b q cq) as [?|?]; [lia|done|done|by left|right; auto]. }
  apply runs_bind. eapply (runs_load _ _ _ _ V1); [done|]. intros c0 Ec0 _.
  assert (is_busy c0 = false ∧ ce_dev c0 = dev ∧ ce_block_num c0 = hi) as (Hbz & Ed0 & Eb0).
  { subst c. split_and!; [exact (ei_busy _ _ _ _ _ He)|done|done]. }
  rewrite Hbz. apply runs_ret, runs_bind. eapply (runs_load _ _ _ _ V1); [done|]. intros c1 Ec1 _.
  assert (c1 = set_next (ce_next c1) (set_prev (ce_prev c1) c)) as Ec1'. { subst c. rewrite Ec1. by destruct c1. }
  assert (ce_dev c1 = dev ∧ ce_block_num c1 = hi ∧ is_dirty c1 = is_dirty c ∧ ce_clone c1 = ce_clone c) as (Ed1 & Eb1 & Edd & Ecl).
  { rewrite Ec1'. done. }
  unfold other_block. rewrite Ed1, Eb1, !Z.eqb_refl, Edd, Ecl. cbn [negb orb].
  destruct (negb (is_dirty c) && negb (has (ce_clone c))) eqn:Eclean.
  { eapply (IH s B ls H dev lo (hi + 1) ents s1 B1); try done.
    - intros q (cq & ? & ? & ?)%Hin. exists cq. split_and!; [done|done|lia].
    - apply Hcov1; [left|done]. apply andb_true_iff in Eclean as [Hd%negb_true_iff Hcl%negb_true_iff].
      unfold needs. by rewrite Hd, Hcl. }
  apply runs_bind. eapply (runs_store _ _ _ _ V1); [apply _|done|]. intros s2 V2 E2.
  pose proof (busied_snoc ents p B B1 c Hpe Hb Hc) as Hb2.
  assert (NoDup (ents ++ [p])) as Hnd2.
  { apply NoDup_app. split_and!; [done|intros q Hq ->%list_elem_of_singleton; done|apply NoDup_singleton]. }
  assert (∀ q, q ∈ ents ++ [p] → ∃ cq, B !! q = Some cq ∧ ce_dev cq = dev ∧ ce_block_num cq < hi + 1) as Hin2.
  { intros q [(cq & ? & ? & ?)%Hin| ->%list_elem_of_singleton]%elem_of_app; [exists cq; split_and!; [done|done|lia]|].
    exists c. split_and!; [done|done|lia]. }
  assert (covered dev lo (hi + 1) (ents ++ [p]) B H) as Hcov2.
  { apply Hcov1; [right; apply elem_of_app; right; left|intros q Hq; apply elem_of_app; by left]. }
  destruct (NUM_FLUSH_BLOCKS <=? zlen (ents ++ [p])).
  2: { eapply (IH s B ls H dev lo (hi + 1) (ents ++ [p]) s2); try done. congruence. }
  apply runs_bind. eapply (flush_unlocked_runs s B ls H (ents ++ [p]) s2); [done|done|done|done| |by rewrite E2, E1|].
  { intros q (cq & -> & _)%Hin2. by eexists. }
  intros s3 B3 Hsy Hh3. pose proof (sy_inv _ _ _ _ _ _ _ Hsy) as I3.
  eapply (IH s3 B3 ls H dev lo (hi + 1) [] s3 B3); [done|apply I3|apply busied_nil|done|done|constructor| | |].
  - intros q Hq. by apply elem_of_nil in Hq.
  - exact (synced_covered _ _ _ _ _ _ _ _ _ _ Hi Hsy Hcov2).
  - intros s4 B4 ents' s5 B5 Hss. apply HQ. eapply syncs_trans; [by eapply synced_syncs|done].
Qed.

(** The final batch is written without the lock. *)
Lemma flush_blocks_runs s (A : store_of) L dev bnum n (Q : Z → state → Prop) :
  represents bs s A L → 0 ≤ bnum → 0 ≤ n →
  (∀ s', represents bs s' A L → limits s s' →
    (∀ b, bnum ≤ b < bnum + n → block bs (disks s') dev b = A dev b ∨ locked_block s' dev b) → Q 0 s') →
  runs (beos_flush_blocks dev bnum n) s Q.
Proof.
  intros HR Hb0 Hn HQ. pose proof HR as (B & ls & H & Hi & Hh & HL & HA). unfold beos_flush_blocks.
  destruct (Z.eqb_spec n 0) as [->|Hne]; [apply runs_ret, HQ; [done|done|lia]|].
  set (s0 := upd_bc_lock (bc_sem s) true s).
  apply runs_bind, (runs_eq _ _ tt s0); [unfold LOCK_bc; by rewrite Hh|].
  pose proof (leaves_zero bs dev 512 0 s B ls H 0 (mkUser None 0 None) s0 Hi eq_refl) as [I0 _ _ _ _].
  assert (∀ s' B', inv bs s' B' ls H → bc_held s' = false → limits s s' →
    (∀ d b, 0 ≤ b → contents bs (disks s') B' H d b = contents bs (disks s) B H d b) →
    covered dev bnum (bnum + n) [] B' H → Q 0 s') as Hend.
  { intros s' B' I' Hh' L' C' Hcov. assert (∀ d b, 0 ≤ b → contents bs (disks s') B' H d b = A d b) as HA'.
    { intros d b Hb. rewrite C' by done. by apply HA. }
    apply HQ; [exists B', ls, H; by split_and!|done|]. intros b Hb. destruct (H !! (dev, b)) as [p|] eqn:Ep.
    2: { left. rewrite <- HA' by lia. unfold contents. by rewrite Ep. }
    apply (iv_hash _ _ _ _ _ I') in Ep as Hp'. destruct Hp' as (c & Hc & [= Ek1 Ek2]).
    destruct (Hcov b p c Hb Ep Hc) as [Hz|Hx]; [|by apply elem_of_nil in Hx].
    pose proof (ei_lock _ _ _ _ _ (iv_ent _ _ _ _ _ I' p c Hc)) as Hl0.
    destruct (decide (ce_lock c = 0)) as [El|El].
    - left. destruct (needs_0 c Hz El) as [Hd Hcl]. rewrite <- HA' by lia. rewrite <- Ek1, <- Ek2. by eapply clean_on_disk.
    - right. destruct (view_load _ _ _ _ (iv_view _ _ _ _ _ I') p c Hc) as (c0 & Hc0 & ->).
      exists p, c0. split_and!; [done|unfold ce_key; cbn in Ek1, Ek2; congruence|cbn in Hl0, El; lia]. }
  apply runs_bind. eapply (flush_blocks_loop_runs (Z.to_nat n) s0 B ls H dev bnum bnum [] s0 B);
    [done|apply I0|apply busied_nil|done|done|constructor|by intros q Hq; apply elem_of_nil in Hq|intros b p c Hb; lia|].
  intros s2 B2 ents s3 B3 [I2 L2 E2 C2] V3 Hb3 E3 Hnd Hin Hcov. rewrite Z2Nat.id in Hcov by lia.
  apply runs_bind, runs_modifyS. set (s4 := upd_bc_lock (bc_sem s3) false s3).
  case_bool_decide as Hempty.
  - subst ents. assert (B3 = B2) as ->. { apply map_eq. intros p. apply (proj2 Hb3). by intros ?%elem_of_nil. }
    assert (inv bs s3 B2 ls H) as I3.
    { eapply (inv_intro bs s2); [done|done|done|apply I2|apply I2|apply I2|done|done]. }
    pose proof (leaves_zero bs dev 512 0 s3 B2 ls H 0 (mkUser None 0 None) s4 I3 eq_refl) as [I4 L4 _ _ _].
    apply runs_ret, (Hend s4 B2); [done|done| |by change (disks s4) with (disks s3); rewrite (env_disks _ _ E3)|done].
    destruct L2 as [L21 L22]. split; [exact (eq_trans (f_equal max_blocks E3) L21)|exact (eq_trans (f_equal max_device_blocks E3) L22)].
  - assert (upd_bc_lock 0 false (env s4) = upd_bc_lock 0 false (env s2)) as E4.
    { change (upd_bc_lock 0 false (env s3) = upd_bc_lock 0 false (env s2)). by rewrite E3. }
    eapply (batch_runs s2 B2 ls H ents s4 B3 I2); [by apply view_lock|done|done|done|done|].
    intros sorted s5 B5 Hperm V5 E5 R5 Hcl. apply runs_bind. eapply clear_busy_runs; [done|by rewrite Hperm| |].
    { intros p Hp. assert (is_Some (B3 !! p)) as [c3 Hc3].
      { assert (p ∈ ents) as Hp' by (by rewrite <- Hperm). rewrite (proj1 Hb3 p Hp'), fmap_is_Some. auto. }
      destruct (cn_ent _ _ _ _ _ _ Hcl p c3 Hp Hc3) as (c5 & -> & _). by eexists. }
    intros s6 B6 V6 E6 Hu.
    assert (synced ents s2 B2 ls H s6 B6) as Hsy.
    { eapply (batch_synced s2 B2 ls H ents s4 B3 I2); try done; [by apply view_lock|by rewrite E6]. }
    apply runs_ret, (Hend s6 B6); [apply Hsy| |eapply limits_trans; [exact L2|apply Hsy]| |exact (synced_covered _ _ _ _ _ _ _ _ _ _ I2 Hsy Hcov)].
    + rewrite (f_equal bc_held E6 : bc_held s6 = bc_held s5). exact (f_equal bc_held E5).
    + intros d b Hb. rewrite (sy_contents _ _ _ _ _ _ _ Hsy) by done. by apply C2.
Qed.

(** C2. [beos_flush_device] always finishes when the device works: with [m] blocks
    in the cache it looks at no more than [m * (m + 1)] entries of a list however
    often it starts over, and then every block of the device that nobody has
    locked is on the disk; the contents of no block changed. *)
Theorem flush_device_durable fuel s (A : store_of) L dev :
  represents bs s A L → cur_blocks s * (cur_blocks s + 1) ≤ Z.of_nat fuel →
  ∃ s', beos_flush_device fuel dev s = Ok (0, s') ∧ represents bs s' A L ∧
    ∀ b, 0 ≤ b → block bs (disks s') dev b = A dev b ∨ locked_block s' dev b.
Proof.
  intros HR Hf.
  destruct (flush_device_runs fuel s A L dev (λ r s', r = 0 ∧ represents bs s' A L ∧
    ∀ b, 0 ≤ b → block bs (disks s') dev b = A dev b ∨ locked_block s' dev b)) as (r & s' & E & -> & ?); eauto.
Qed.
End Sync.
