(* ===== verification/CacheSpec.v ===== *)
(** The block cache refines a store of blocks: whatever callers read, write and
    get pointers to, they see what the store has, whichever of the blocks are in
    memory, are dirty or were pushed out in between. *)

From S2P Require Import Prelude Errors Sort CacheHash CacheState CacheIo CacheFlush BlockCache CacheInv.
From S2P Require Import CacheServe CacheMiss CacheFill CacheStage CacheSettle CacheRun CacheStore CacheLarge CachePointer CacheSync.

(** * Requests and what the store says to them *)

Inductive cache_op : Type :=
  | OpRead (dev bnum : Z) (data : list Z) (n bsize : Z)
  | OpWrite (dev bnum : Z) (data : list Z) (n bsize : Z)
  | OpGet (dev bnum bsize : Z)
  | OpEmpty (dev bnum bsize : Z)
  | OpModify (dev bnum bsize off : Z) (data : list Z)
  | OpFlushBlocks (dev bnum n : Z)
  | OpFlushDevice (fuel : nat) (dev : Z).

(** What the caller sees: the status and its buffer, the status, or the bytes
    behind the pointer. *)
Inductive response : Type :=
  | Buffer (err : Z) (data : list Z)
  | Status (err : Z)
  | Bytes (o : option (list Z)).

Definition bytes_at (o : option ptr) : C (option (list Z)) :=
  match o with
  | Some ce => c ← load ce; mret (ce_data c)
  | None => mret None
  end.

(** A caller copies [data] to offset [off] of a block it has a pointer to. *)
Definition write_through (ce : ptr) (off : Z) (data : list Z) : C unit :=
  c ← load ce;
  block ← deref (ce_data c);
  block ← liftO (store_bytes off data block);
  store ce (set_data (Some block)).

(** How file systems change a block: get it, write into it, mark it dirty and
    release it. *)
Definition modify (dev bnum bsize off : Z) (data : list Z) : C Z :=
  p ← beos_get_block dev bnum bsize;
  match p with
  | None => mret (-1)
  | Some ce =>
      write_through ce off data;;
      err ← beos_mark_blocks_dirty dev bnum 1;
      beos_release_block dev bnum;;
      mret err
  end.

Definition run_request (o : cache_op) : C response :=
  match o with
  | OpRead dev bnum data n bsize => r ← beos_cached_read dev bnum data n bsize; mret (Buffer r.1 r.2)
  | OpWrite dev bnum data n bsize => r ← beos_cached_write dev bnum data n bsize; mret (Status r)
  | OpGet dev bnum bsize => p ← beos_get_block dev bnum bsize; r ← bytes_at p; mret (Bytes r)
  | OpEmpty dev bnum bsize => p ← beos_get_empty_block dev bnum bsize; r ← bytes_at p; mret (Bytes r)
  | OpModify dev bnum bsize off data => r ← modify dev bnum bsize off data; mret (Status r)
  | OpFlushBlocks dev bnum n => r ← beos_flush_blocks dev bnum n; mret (Status r)
  | OpFlushDevice fuel dev => r ← beos_flush_device fuel dev; mret (Status r)
  end.

Fixpoint run_requests (ops : list cache_op) : C (list response) :=
  match ops with
  | [] => mret []
  | o :: ops => r ← run_request o; rs ← run_requests ops; mret (r :: rs)
  end.

Definition spec_request (o : cache_op) (A : store_of) : response * store_of :=
  match o with
  | OpRead dev bnum data n bsize => (Buffer 0 (splice 0 (concat (default [] (read_blocks A dev bnum n))) data), A)
  | OpWrite dev bnum data n bsize => (Status 0, write_blocks A dev bnum bsize n data)
  | OpGet dev bnum bsize => (Bytes (A dev bnum), A)
  | OpEmpty dev bnum bsize => (Bytes (Some (zeroes bsize)), write_blocks A dev bnum bsize 1 (zeroes bsize))
  | OpModify dev bnum bsize off data =>
      (Status 0, write_blocks A dev bnum bsize 1 (splice off data (default [] (A dev bnum))))
  | OpFlushBlocks _ _ _ | OpFlushDevice _ _ => (Status 0, A)
  end.

Fixpoint spec_requests (ops : list cache_op) (A : store_of) : list response * store_of :=
  match ops with
  | [] => ([], A)
  | o :: ops => let '(r, A1) := spec_request o A in let '(rs, A2) := spec_requests ops A1 in (r :: rs, A2)
  end.

(** A pointer that is kept stays locked. *)
Definition locks (o : cache_op) : Z := match o with OpGet _ _ _ | OpEmpty _ _ _ => 1 | _ => 0 end.
Definition all_locks (ops : list cache_op) : Z := foldr (λ o n, locks o + n) 0 ops.

Definition op_valid (bs : Z → Z) (s : state) (o : cache_op) : Prop :=
  match o with
  | OpRead dev bnum data n bsize | OpWrite dev bnum data n bsize =>
      valid bs s dev bnum n bsize ∧ n * bsize < 2 ^ 32 ∧ n * bsize ≤ zlen data
  | OpGet dev bnum bsize | OpEmpty dev bnum bsize => valid bs s dev bnum 1 bsize ∧ bsize < 64 * 1024
  | OpModify dev bnum bsize off data =>
      valid bs s dev bnum 1 bsize ∧ bsize < 64 * 1024 ∧ 0 ≤ off ∧ off + zlen data ≤ bsize
  | OpFlushBlocks dev bnum n => 0 ≤ bnum ∧ 0 ≤ n
  | OpFlushDevice fuel dev => max_blocks s * (max_blocks s + 1) ≤ Z.of_nat fuel
  end.

Section Spec.
Context (bs : Z → Z).

Lemma represents_ext s (A A' : store_of) L L' :
  (∀ d b, 0 ≤ b → A d b = A' d b) → L ≤ L' → represents bs s A L → represents bs s A' L'.
Proof.
  intros HA HL (B & ls & H & Hi & Hh & Hk & Hc). exists B, ls, H. split_and!; [done|done|lia|].
  intros d b Hb. by rewrite Hc, HA.
Qed.

Lemma valid_limits s s' dev bnum n bsize : limits s s' → valid bs s dev bnum n bsize → valid bs s' dev bnum n bsize.
Proof. intros [_ E] [? (max & ? & ?) ? ? ? ?]. split; try done. exists max. by rewrite E. Qed.

Lemma read_runs s (A : store_of) L dev bnum data n bsize (Q : Z * list Z → state → Prop) :
  represents bs s A L → valid bs s dev bnum n bsize → n * bsize < 2 ^ 32 → n * bsize ≤ zlen data →
  L + 64 ≤ max_blocks s →
  (∀ s', represents bs s' A L → limits s s' →
    Q (0, splice 0 (concat (default [] (read_blocks A dev bnum n))) data) s') →
  runs (beos_cached_read dev bnum data n bsize) s Q.
Proof.
  intros (B & ls & H & Hi & Hh & HL & HA) Hv Htot Hdata Hroom HQ. pose proof Hv as [_ _ Hb Hn Ebs H512].
  set (op := Z.lor CACHE_READ CACHE_READ_AHEAD_OK).
  assert (∀ s' blks, represents bs s' A L → limits s s' → zlen blks = n →
    (∀ (i : nat) b, blks !! i = Some b → contents bs (disks s) B H dev (bnum + Z.of_nat i) = Some b) →
    Q (0, splice 0 (concat blks) data) s') as Hend.
  { intros s' blks HR HLm Hlen Hall. specialize (HQ s' HR HLm). rewrite <- Hlen in HQ.
    rewrite (read_blocks_lookup A dev bnum blks) in HQ; [exact HQ|].
    intros i b Hib. rewrite <- HA by lia. by apply Hall. }
  unfold beos_cached_read. fold op. apply runs_bind. destruct (decide (n * bsize < 64 * 1024)) as [Hsm|Hlg].
  - eapply (small_runs bs s B ls H dev bnum (Some data) n bsize op); [done|done|done|done| |done|change (op_has op CACHE_LOCKED) with false; lia|].
    { split; [done|done|]. intros buf [= <-]. cbn. lia. }
    intros u' s' B' ls' H' [I' L' [K N (l & -> & Hl & Hr & _) _] Hlk _] Hh'. apply runs_ret. cbn [fst snd].
    rewrite serve_all_read; [|done|by intros i p blk Hx; apply Hr in Hx as [? _]|lia|lia|lia]. cbn [default].
    apply Hend; [| |by rewrite length_fmap|].
    + exists B', ls', H'. change (op_has op CACHE_LOCKED) with false in Hlk. split_and!; [done|done|lia|]. intros d b Hb0.
      destruct (decide (d = dev ∧ bnum ≤ b < bnum + n)) as [[-> Hr']|Hno]; [|rewrite K; [auto|done|naive_solver]].
      destruct (N (b - bnum)) as (blk & E1 & E2); [lia|]. replace (bnum + (b - bnum)) with b in * by lia.
      rewrite E1, <- HA, E2 by done. done.
    + done.
    + intros i b Hib. rewrite list_lookup_fmap in Hib. destruct (l !! i) as [[p blk]|] eqn:El; [|done].
      cbn in Hib. injection Hib as <-. by apply (Hr i p blk El).
  - eapply (large_runs bs s B ls H); [done|done|lia|].
    eapply (large_read_runs bs s B ls H); [done|done|done|done|done|done|done|].
    intros s' blks I' Ed HL' Hh' Hlen Hall. apply runs_ret. cbn [fst snd u_buf default].
    apply Hend; [|done|done|done]. exists B, ls, H. split_and!; [done|done|done|]. by rewrite Ed.
Qed.

Lemma write_runs s (A : store_of) L dev bnum data n bsize (Q : Z → state → Prop) :
  represents bs s A L → valid bs s dev bnum n bsize → n * bsize < 2 ^ 32 → n * bsize ≤ zlen data →
  L + 64 ≤ max_blocks s →
  (∀ s', represents bs s' (write_blocks A dev bnum bsize n data) L → limits s s' → Q 0 s') →
  runs (beos_cached_write dev bnum data n bsize) s Q.
Proof.
  intros (B & ls & H & Hi & Hh & HL & HA) Hv Htot Hdata Hroom HQ. pose proof Hv as [_ _ Hb Hn Ebs H512].
  unfold beos_cached_write. apply runs_bind. destruct (decide (n * bsize < 64 * 1024)) as [Hsm|Hlg].
  - eapply (small_runs bs s B ls H dev bnum (Some data) n bsize CACHE_WRITE); [done|done|done|done| |done|change (op_has CACHE_WRITE CACHE_LOCKED) with false; lia|].
    { split; [done|by eexists|]. intros buf [= <-]. cbn. lia. }
    intros u' s' B' ls' H' [I' L' [K N _ _] Hlk _] Hh'. apply runs_ret, HQ; [|done].
    change (op_has CACHE_WRITE CACHE_LOCKED) with false in Hlk.
    exists B', ls', H'. split_and!; [done|done|lia|]. intros d b Hb0. unfold write_blocks.
    case_bool_decide as Hr; [|rewrite K; [auto|done|naive_solver]]. destruct Hr as [-> Hr'].
    destruct (N (b - bnum)) as (blk & E1 & _); [lia|]. replace (bnum + (b - bnum)) with b in E1 by lia. exact E1.
  - eapply (large_runs bs s B ls H); [done|done|lia|].
    eapply (large_write_runs bs s B ls H); [done|done|done|done|done|done|done|done|].
    intros s' B' I' HL' Hh' Hc. apply runs_ret, HQ; [|done]. exists B', ls, H. split_and!; [done|done|done|].
    intros d b Hb0. rewrite Hc by done. unfold write_blocks, part_of.
    destruct (decide _), (bool_decide_reflect (d = dev ∧ bnum ≤ b < bnum + n)); [done|done|done|auto].
Qed.

(** A pointer to a block, for [op] one of the two that ask for it. *)
Lemma pointer_runs s (A : store_of) L dev bnum bsize op (Q : Z * user → state → Prop) :
  represents bs s A L → valid bs s dev bnum 1 bsize → bsize < 64 * 1024 → L + 65 ≤ max_blocks s →
  op_has op CACHE_READ || op_has op CACHE_NOOP = true → op_has op CACHE_WRITE = false → op_has op CACHE_LOCKED = true →
  (∀ s' B' ls' H' p c blk, inv bs s' B' ls' H' → bc_held s' = false → limits s s' →
    zlen (ls' Locked) ≤ L + 1 → (1 < ce_lock c → zlen (ls' Locked) ≤ L) →
    (∀ d b, 0 ≤ b → contents bs (disks s') B' H' d b =
      (if op_has op CACHE_READ then A else write_blocks A dev bnum bsize 1 (zeroes bsize)) d b) →
    H' !! (dev, bnum) = Some p → B' !! p = Some c → ce_data c = Some blk → 0 < ce_lock c → zlen blk = bsize →
    Some blk = (if op_has op CACHE_READ then A dev bnum else Some (zeroes bsize)) →
    Q (0, mkUser None bsize (Some p)) s') →
  runs (cache_block_io dev bnum None 1 bsize op true) s Q.
Proof.
  intros (B & ls & H & Hi & Hh & HL & HA) Hv Hsm Hroom Hop Hw Hlo HQ. pose proof Hv as [_ _ Hb Hn Ebs H512].
  eapply (small_runs bs s B ls H dev bnum None 1 bsize op); [done|done|done|lia| |done|rewrite Hlo; lia|].
  { split; [|by rewrite Hw|done]. rewrite Hw. destruct (op_has op CACHE_READ); [done|]. exact Hop. }
  intros u' s' B' ls' H' [I' L' [K N (l & -> & Hl & Hr & Hp) _] Hlk Hagain] Hh'.
  destruct (Hp eq_refl eq_refl) as (p & c & blk & -> & HH' & HB' & Hlock).
  destruct (N 0) as (blk' & E1 & E2); [lia|]. rewrite Z.add_0_r in E1, E2.
  assert (contents bs (disks s') B' H' dev bnum = ce_data c) as Hcd by (unfold contents; by rewrite HH', HB').
  assert (new_at op bsize (mkUser None 0 None) 0 blk' = if op_has op CACHE_READ then blk' else zeroes bsize) as En.
  { unfold new_at, new_block. by rewrite Hw. }
  rewrite En in E1. set (new := if op_has op CACHE_READ then blk' else zeroes bsize) in *.
  assert (Some new = if op_has op CACHE_READ then A dev bnum else Some (zeroes bsize)) as Ed.
  { subst new. destruct (op_has op CACHE_READ); [|done]. rewrite <- HA, E2 by done. done. }
  assert (serve_all op bsize [(p, blk)] (mkUser None 0 None) = mkUser None bsize (Some p)) as ->.
  { rewrite serve_all_cons. cbn. unfold serve, advance. cbn. by rewrite Z.add_0_l. }
  rewrite Hlo in Hlk.
  apply (HQ s' B' ls' H' p c new); [done|done|done|lia| | |done|done|congruence|by apply Hlock| |done].
  - intros Hlt. specialize (Hagain p c eq_refl HH' HB' Hlt). lia.
  - intros d b Hb0. destruct (decide (d = dev ∧ bnum ≤ b < bnum + 1)) as [[-> Hr']|Hno].
    + assert (b = bnum) as -> by lia. rewrite E1. destruct (op_has op CACHE_READ); [by rewrite <- HA, E2|].
      unfold write_blocks. rewrite bool_decide_true by lia. f_equal. rewrite Z.sub_diag, Z.mul_0_l, slice_0, take_ge; [done|].
      unfold zeroes. rewrite length_replicate. done.
    + rewrite K, HA; [|done|done|naive_solver]. destruct (op_has op CACHE_READ); [done|].
      unfold write_blocks. by rewrite bool_decide_false.
  - apply (iv_hash _ _ _ _ _ I') in HH' as (c1 & Hc1 & [= Ek1 Ek2]). assert (c1 = c) as -> by congruence.
    destruct (ew_data _ _ _ (ei_wf _ _ _ _ _ (iv_ent _ _ _ _ _ I' p c HB'))) as (dt & Hdt & Hdl).
    assert (dt = new) as -> by congruence. congruence.
Qed.

(** What is behind the pointer. *)
Lemma bytes_at_runs s B ls H p c blk (Q : option (list Z) → state → Prop) :
  view s B ls H → B !! p = Some c → ce_data c = Some blk → Q (Some blk) s → runs (bytes_at (Some p)) s Q.
Proof.
  intros V Hc Hd HQ. unfold bytes_at. apply runs_bind. eapply (runs_load _ _ _ _ V); [done|]. intros c0 -> _.
  apply runs_ret. cbn in Hd. by rewrite Hd.
Qed.

Lemma modify_runs s (A : store_of) L dev bnum bsize off data (Q : Z → state → Prop) :
  represents bs s A L → valid bs s dev bnum 1 bsize → bsize < 64 * 1024 → L + 65 ≤ max_blocks s →
  0 ≤ off → off + zlen data ≤ bsize →
  (∀ s', represents bs s' (write_blocks A dev bnum bsize 1 (splice off data (default [] (A dev bnum)))) L → limits s s' → Q 0 s') →
  runs (modify dev bnum bsize off data) s Q.
Proof.
  intros HR Hv Hsm Hroom Ho Hfit HQ. pose proof Hv as [_ _ Hb0 _ Ebs H512].
  unfold modify, beos_get_block. apply runs_bind, runs_bind.
  eapply (pointer_runs s A L); [done|done|done|done|done|done|done|].
  intros s1 B1 ls1 H1 p c blk I1 Hh1 L1 Hk1 Hagain HA1 Hp Hc Hd Hlk Hbl Eblk.
  change (Some blk = A dev bnum) in Eblk.
  apply runs_ret. cbn [fst snd Z.eqb negb u_ptr]. pose proof (iv_view _ _ _ _ _ I1) as V1.
  set (new := splice off data blk). assert (zlen new = bsize) as Hnl by (subst new; rewrite splice_length; lia).
  apply runs_bind. unfold write_through. apply runs_bind. eapply (runs_load _ _ _ _ V1); [done|]. intros c0 -> _. cbn in Hd.
  rewrite Hd. cbn [deref]. apply runs_bind, runs_ret, runs_bind. rewrite store_bytes_Ok by lia. eapply runs_liftO; [done|].
  eapply (runs_store _ _ _ _ V1); [apply _|done|]. intros s2 V2 E2. fold new in V2.
  apply runs_bind. eapply (mark_runs bs s1 B1 ls1 H1 dev bnum p (erase c0) new s2); [done|done|done|done|congruence|done|done|].
  intros s3 I3 Hh3 L3 Ed3. set (c3 := or_flags CE_DIRTY (set_data (Some new) (erase c0))) in *. apply runs_bind.
  eapply (release_runs bs s3 _ ls1 H1 dev bnum p c3); [done|done|done|apply lookup_insert_eq|exact Hlk|].
  intros s4 ls4 I4 Hh4 L4 Ed4 Hle. rewrite insert_insert_eq in I4. apply runs_ret, HQ.
  - eexists _, ls4, H1. split_and!; [exact I4|done| |].
    + change (ce_lock c3) with (ce_lock c0) in Hle. cbn in Hlk, Hagain. destruct (Z.eqb_spec (ce_lock c0) 1); [lia|].
      specialize (Hagain ltac:(lia)). lia.
    + intros d b Hb. unfold contents. rewrite Ed4, Ed3. unfold write_blocks. case_bool_decide as Hr.
      * destruct Hr as [-> Hr]. assert (b = bnum) as -> by lia. rewrite Hp, lookup_insert_eq. cbn. f_equal.
        rewrite <- Eblk. cbn. fold new. rewrite Z.sub_diag, Z.mul_0_l, slice_0, take_ge; [done|]. lia.
      * change (A d b) with ((if op_has (Z.lor CACHE_READ (Z.lor CACHE_LOCKED CACHE_READ_AHEAD_OK)) CACHE_READ then A
          else write_blocks A dev bnum bsize 1 (zeroes bsize)) d b).
        rewrite <- HA1 by done. unfold contents. destruct (H1 !! (d, b)) as [q|] eqn:Eq; [|done].
        rewrite lookup_insert_ne; [done|]. intros <-. apply (iv_hash _ _ _ _ _ I1) in Eq as (cq & Hcq & Hkq), Hp as (cp & Hcp & Hkp).
        apply Hr. assert (cp = cq) as -> by congruence. rewrite Hkq in Hkp. injection Hkp as -> ->. split; [done|lia].
  - eapply limits_trans; [exact L1|]. eapply limits_trans; [exact L3|exact L4].
Qed.

Lemma request_refines s (A : store_of) L o :
  represents bs s A L → op_valid bs s o → L + locks o + 65 ≤ max_blocks s →
  ∃ s', run_request o s = Ok ((spec_request o A).1, s') ∧ represents bs s' (spec_request o A).2 (L + locks o) ∧ limits s s'.
Proof.
  intros HR Hv Hroom. enough (runs (run_request o) s (λ r s', r = (spec_request o A).1 ∧
    represents bs s' (spec_request o A).2 (L + locks o) ∧ limits s s')) as (r & s' & E & -> & ? & ?) by eauto.
  destruct o as [dev bnum data n bsize|dev bnum data n bsize|dev bnum bsize|dev bnum bsize|dev bnum bsize off data|dev bnum n|fuel dev];
    cbn [run_request spec_request fst snd locks op_valid] in *.
  - destruct Hv as (Hv & ? & ?). apply runs_bind. eapply read_runs; [done|done|done|done|lia|]. intros s' HR' HL'.
    apply runs_ret. split_and!; [done| |done]. by rewrite Z.add_0_r.
  - destruct Hv as (Hv & ? & ?). apply runs_bind. eapply write_runs; [done|done|done|done|lia|]. intros s' HR' HL'.
    apply runs_ret. split_and!; [done| |done]. by rewrite Z.add_0_r.
  - destruct Hv as (Hv & ?). apply runs_bind. unfold beos_get_block. apply runs_bind.
    eapply (pointer_runs s A L); [done|done|done|lia|done|done|done|].
    intros s1 B1 ls1 H1 p c blk I1 Hh1 L1 Hk1 _ HA1 Hp Hc Hd _ _ Eblk. apply runs_ret. cbn [fst snd Z.eqb negb u_ptr].
    apply runs_bind. eapply bytes_at_runs; [apply I1|done|done|]. apply runs_ret. split_and!; [by rewrite Eblk| |done].
    by exists B1, ls1, H1.
  - destruct Hv as (Hv & ?). apply runs_bind. unfold beos_get_empty_block. apply runs_bind.
    eapply (pointer_runs s A L); [done|done|done|lia|done|done|done|].
    intros s1 B1 ls1 H1 p c blk I1 Hh1 L1 Hk1 _ HA1 Hp Hc Hd _ _ Eblk. apply runs_ret. cbn [fst snd Z.eqb negb u_ptr].
    apply runs_bind. eapply bytes_at_runs; [apply I1|done|done|]. apply runs_ret. split_and!; [by rewrite Eblk| |done].
    by exists B1, ls1, H1.
  - destruct Hv as (Hv & ? & ? & ?). apply runs_bind. eapply modify_runs; [done|done|done|lia|done|done|]. intros s' HR' HL'.
    apply runs_ret. split_and!; [done| |done]. by rewrite Z.add_0_r.
  - destruct Hv as (? & ?). apply runs_bind. eapply flush_blocks_runs; [done|done|done|]. intros s' HR' HL' _.
    apply runs_ret. split_and!; [done| |done]. by rewrite Z.add_0_r.
  - apply runs_bind. eapply flush_device_runs; [done| |].
    + destruct HR as (B & ls & H & Hi & _). pose proof (iv_size _ _ _ _ _ Hi). nia.
    + intros s' HR' HL' _. apply runs_ret. split_and!; [done| |done]. by rewrite Z.add_0_r.
Qed.

Lemma op_valid_limits s s' o : limits s s' → op_valid bs s o → op_valid bs s' o.
Proof.
  intros HL. destruct o; cbn; try (intros (? & ?); split; [by eapply valid_limits|done]); [done|].
  destruct HL as [-> _]. done.
Qed.

Lemma all_locks_nonneg ops : 0 ≤ all_locks ops.
Proof.
  induction ops as [|o ops IH]; [done|]. change (0 ≤ locks o + all_locks ops). destruct o; cbn [locks]; lia.
Qed.

End Spec.
