(* ===== verification/CacheInit.v ===== *)
(** Setting up the block cache gives a cache that stands for the devices'
    blocks. *)

From S2P Require Import Prelude Errors Sort CacheHash CacheState CacheIo CacheFlush BlockCache CacheInv.
From S2P Require Import CacheServe CacheMiss CacheFill CacheStage CacheSettle CacheRun CacheStore CacheLarge CachePointer CacheSync CacheSpec.

Section Init.
Context (bs : Z → Z).

Lemma init_inv s ht' max flags pool :
  heap s = ∅ → io s = [] → mem s = [] → length pool = 64%nat → 0 ≤ max ≤ 2 ^ 27 →
  ht_ok ht' → ht_map ht' = ∅ → ht_num ht' = 0 →
  let s' := upd_iov 2 false pool (replicate 64 0) (upd_devices (replicate 256 0) (upd_bc_lock 1 false
    (upd_sizes flags 0 max (upd_ht ht' (upd_lists no_list no_list (heap s) s))))) in
  inv bs s' ∅ (λ _, []) ∅.
Proof.
  intros Hh Hio Hm Hp Hmax Hok Hmap Hnum s'. split.
  - split; [|cbn; by rewrite Hh|done|done|cbn; by rewrite Hnum].
    split; [|constructor|cbn; by rewrite Hh]. intros w. destruct w; by split.
  - by split.
  - intros w p Hw. by apply elem_of_nil in Hw.
  - intros p c Hc. done.
  - intros k p. split; [done|]. by intros (c & Hc & _).
  - cbn. rewrite map_size_empty. lia.
  - done.
  - done.
  - intros dev n b Hd Hn Hb. change (replicate 256 0 !! Z.to_nat dev = Some n) in Hn. apply lookup_replicate in Hn as [-> _]. lia.
Qed.

Lemma init_runs s max flags (Q : Z → state → Prop) :
  heap s = ∅ → io s = [] → mem s = [] → 0 ≤ max ≤ 2 ^ 27 →
  (∀ s', represents bs s' (block bs (disks s)) 0 → disks s' = disks s → max_blocks s' = max →
    max_device_blocks s' = replicate 256 0 → Q 0 s') →
  runs (beos_init_block_cache max flags) s Q.
Proof.
  intros Hh Hio Hm Hmax HQ. unfold beos_init_block_cache. apply runs_bind, runs_modifyS.
  match goal with |- runs _ ?t _ => set (s1 := t) end.
  destruct (init_hash_table_spec s1) as (ht' & E & Hok & Hmap & Hnum); [exact Hm|].
  apply runs_bind. eapply runs_eq; [exact E|]. apply runs_bind, runs_modifyS. cbn [fst snd Z.eqb negb].
  apply runs_bind, runs_modifyS, runs_bind, runs_malloc; [done|]. cbn beta iota. apply runs_bind, runs_modifyS.
  apply runs_bind, runs_malloc; [done|]. cbn [negb]. apply runs_bind, runs_modifyS.
  apply runs_bind, runs_malloc; [done|]. apply runs_bind, runs_malloc; [done|]. apply runs_bind, runs_modifyS, runs_ret.
  set (pool := <[1%nat := true]> (<[0%nat := true]> (replicate 64 false))).
  pose proof (init_inv s ht' max flags pool Hh Hio Hm) as Hi. cbv zeta in Hi.
  apply HQ; [|done|done|done]. exists ∅, (λ _, []), ∅. split_and!; [|done|done|].
  - by apply Hi.
  - done.
Qed.

(** A device joins the cache. *)
Lemma init_device_runs s (A : store_of) L fd n (Q : Z → state → Prop) :
  represents bs s A L → 0 ≤ fd < 256 → max_device_blocks s !! Z.to_nat fd = Some 0 →
  (∀ b, 0 ≤ b < n → on_device bs (disks s) fd b ∧ b < 2 ^ 31) →
  (∀ s', represents bs s' A L → disks s' = disks s → max_blocks s' = max_blocks s →
    max_device_blocks s' = <[Z.to_nat fd := n]> (max_device_blocks s) → Q 0 s') →
  runs (beos_init_cache_for_device fd n) s Q.
Proof.
  intros (B & ls & H & Hi & Hh & HL & HA) Hfd H0 Hon HQ. unfold beos_init_cache_for_device, MAX_DEVICES.
  rewrite Z.geb_leb. destruct (Z.leb_spec 256 fd); [lia|].
  set (s1 := upd_bc_lock (bc_sem s) true s).
  apply runs_bind, (runs_eq _ _ tt s1); [unfold LOCK_bc; by rewrite Hh|]. apply runs_bind, runs_getS.
  destruct (Z.ltb_spec fd 0); [lia|]. cbn [max_device_blocks s1 upd_bc_lock]. rewrite H0. cbn [deref].
  apply runs_bind, runs_ret. cbn [Z.eqb negb]. apply runs_bind, runs_modifyS, runs_bind, runs_modifyS, runs_ret.
  apply HQ; [|done..]. exists B, ls, H. split_and!; [|done|done|done].
  destruct Hi as [[[He Hn1 Hf] VB V3 V4 V5] [? ? ? ? ?] Hdom Hent Hhash Hsz Hnx Hnd Hdv].
  split; [|by split|done|done|done|done|done| |].
  - split; [split; [|done|done]|done..]. intros w. by destruct w; [apply (He Normal)|apply (He Locked)].
  - cbn. by rewrite length_insert.
  - intros dev m b Hd Hm Hb. cbn in Hm |- *. destruct (decide (dev = fd)) as [->|Hne].
    + rewrite list_lookup_insert_eq in Hm by (rewrite Hnd; lia). injection Hm as <-. by apply Hon.
    + rewrite list_lookup_insert_ne in Hm by lia. by eapply Hdv.
Qed.

(** C25. Setting up: on freshly started static variables, with enough memory, the
    cache for at most 2^27 blocks and a device of [n] blocks that are all on the
    medium is a store of exactly the blocks of the devices, so that the refinement
    applies to it. *)
Theorem init_block_cache_store s max flags fd n :
  heap s = ∅ → io s = [] → mem s = [] → 0 ≤ max ≤ 2 ^ 27 → 0 ≤ fd < 256 →
  (∀ b, 0 ≤ b < n → on_device bs (disks s) fd b ∧ b < 2 ^ 31) →
  ∃ s1 s2, beos_init_block_cache max flags s = Ok (0, s1) ∧ beos_init_cache_for_device fd n s1 = Ok (0, s2) ∧
    represents bs s2 (block bs (disks s)) 0 ∧ max_blocks s2 = max ∧ disks s2 = disks s ∧
    max_device_blocks s2 !! Z.to_nat fd = Some n.
Proof.
  intros Hh Hio Hm Hmax Hfd Hon.
  destruct (init_runs s max flags (λ r s1, r = 0 ∧ represents bs s1 (block bs (disks s)) 0 ∧ disks s1 = disks s ∧
    max_blocks s1 = max ∧ max_device_blocks s1 = replicate 256 0)) as (r & s1 & E1 & -> & HR & Ed & Emx & Edv); [done..|auto|].
  destruct (init_device_runs s1 (block bs (disks s)) 0 fd n (λ r s2, r = 0 ∧ represents bs s2 (block bs (disks s)) 0 ∧
    max_blocks s2 = max ∧ disks s2 = disks s ∧ max_device_blocks s2 !! Z.to_nat fd = Some n)) as (r & s2 & E2 & -> & ?); [done|done| | | |].
  - rewrite Edv. apply lookup_replicate. split; [done|lia].
  - by rewrite Ed.
  - intros s2 HR2 Ed2 Emx2 Edv2. split_and!; [done|done|congruence|congruence|].
    rewrite Edv2, Edv, list_lookup_insert_eq; [done|]. rewrite length_replicate. lia.
  - by exists s1, s2.
Qed.
End Init.

(** * A small cache

    128 blocks of memory, and a device of eight blocks of 512 bytes. *)
Definition bs512 (dev : Z) : Z := 512.
Definition eight_blocks : list Z := replicate (Z.to_nat 4096) 7.
Definition blank : state := one_device 3 eight_blocks [].

Definition sample_cache : state :=
  match (beos_init_block_cache 128 0;; beos_init_cache_for_device 3 8) blank with Ok (_, s) => s | _ => blank end.

Lemma eight_on_device b : 0 ≤ b < 8 → on_device bs512 (disks blank) 3 b ∧ b < 2 ^ 31.
Proof.
  intros Hb. split; [|lia]. exists eight_blocks. split; [done|]. unfold bs512.
  assert (zlen eight_blocks = 4096) as -> by (unfold eight_blocks; by rewrite length_replicate). lia.
Qed.

Lemma sample_represents :
  represents bs512 sample_cache (block bs512 (disks blank)) 0 ∧ max_blocks sample_cache = 128 ∧
  max_device_blocks sample_cache !! 3%nat = Some 8 ∧ cur_blocks sample_cache = 0.
Proof.
  destruct (init_runs bs512 blank 128 0 (λ r s1, represents bs512 s1 (block bs512 (disks blank)) 0 ∧ disks s1 = disks blank ∧
    max_device_blocks s1 = replicate 256 0)) as (r & s1 & E1 & HR & Ed & Edv); [done..|auto|].
  destruct (init_device_runs bs512 s1 (block bs512 (disks blank)) 0 3 8
    (λ r s2, represents bs512 s2 (block bs512 (disks blank)) 0)) as (r2 & s2 & E2 & HR2); [done|done| | |auto|].
  - by rewrite Edv.
  - rewrite Ed. apply eight_on_device.
  - assert (sample_cache = s2) as Es.
    { unfold sample_cache. rewrite (bind_Ok _ _ _ _ _ E1), E2. done. }
    split; [by rewrite Es|]. split_and!; vm_compute; done.
Qed.

Lemma sample_valid bnum n : 0 ≤ bnum → 1 ≤ n → bnum + n ≤ 8 → valid bs512 sample_cache 3 bnum n 512.
Proof.
  intros. split; try done. exists 8. split; [apply sample_represents|lia].
Qed.

Lemma init_block_cache_store_witness :
  ∃ s1 s2, beos_init_block_cache 128 0 blank = Ok (0, s1) ∧ beos_init_cache_for_device 3 8 s1 = Ok (0, s2) ∧
    represents bs512 s2 (block bs512 (disks blank)) 0 ∧ max_blocks s2 = 128 ∧ disks s2 = disks blank ∧
    max_device_blocks s2 !! Z.to_nat 3 = Some 8.
Proof.
  apply (init_block_cache_store bs512 blank 128 0 3 8); [done|done|done|lia|lia|exact eight_on_device].
Defined.

Definition sample_requests : list cache_op :=
  [OpWrite 3 2 (replicate 1024 9) 2 512; OpModify 3 2 512 4 [1; 2]; OpRead 3 1 (replicate 1536 0) 3 512;
   OpEmpty 3 7 512; OpFlushBlocks 3 0 4; OpFlushDevice (Z.to_nat (128 * 129)) 3; OpGet 3 2 512].


(** What the flush puts on the device. *)
Definition sample_dirty : state :=
  match beos_cached_write 3 1 (replicate 512 9) 1 512 sample_cache with Ok (_, s) => s | _ => blank end.

Lemma flush_device_durable_witness :
  ∃ s', beos_flush_device (Z.to_nat 2) 3 sample_dirty = Ok (0, s') ∧
    represents bs512 s' (write_blocks (block bs512 (disks blank)) 3 1 512 1 (replicate 512 9)) 0 ∧
    ∀ b, 0 ≤ b → block bs512 (disks s') 3 b =
      write_blocks (block bs512 (disks blank)) 3 1 512 1 (replicate 512 9) 3 b ∨ locked_block s' 3 b.
Proof.
  destruct sample_represents as (HR & Hm & _).
  assert (represents bs512 sample_dirty (write_blocks (block bs512 (disks blank)) 3 1 512 1 (replicate 512 9)) 0) as HR1.
  { destruct (write_runs bs512 sample_cache (block bs512 (disks blank)) 0 3 1 (replicate 512 9) 1 512
      (λ _ s', represents bs512 s' (write_blocks (block bs512 (disks blank)) 3 1 512 1 (replicate 512 9)) 0))
      as (r & s1 & E1 & HR1); [done|apply sample_valid; lia|lia|done|rewrite Hm; lia|auto|].
    unfold sample_dirty. by rewrite E1. }
  apply (flush_device_durable bs512 (Z.to_nat 2) sample_dirty _ 0 3 HR1). vm_compute. done.
Defined.
