(* ===== verification/Benaphore.v ===== *)
(** The lock of the file systems written for BeOS (src/add-ons/kernel/
    file_systems/userlandfs/server/beos/lock.h, websearchfs/lock.h): a counter
    that is changed with [atomic_add], and a semaphore that is only used when
    threads compete.

    [LOCK] and [UNLOCK] are two steps each, the [atomic_add] and the semaphore
    call, so that every interleaving of any number of threads is a path of the
    step relation. *)

From stdpp Require Import relations.
From S2P Require Import Prelude Errors.

(** [l.c], and the count of the semaphore [l.s]. *)
Record lock : Type := mkLock { l_c : Z; l_sem : Z }.

(** Where a thread stands. *)
Inductive phase : Type :=
  | Outside
  | Blocked                          (* in acquire_sem *)
  | Inside
  | Leaving.                         (* before release_sem *)
#[global] Instance phase_eq_dec : EqDecision phase.
Proof. solve_decision. Defined.

(** [if (atomic_add(&l.c, -1) <= 0)]: does this thread have to wait? *)
Definition LOCK_add (l : lock) : phase * lock :=
  (if l_c l <=? 0 then Blocked else Inside, mkLock (s32 (l_c l - 1)) (l_sem l)).

(** [acquire_sem(l.s)] returns when the count is positive. *)
Definition LOCK_acquire (l : lock) : option (phase * lock) :=
  if 0 <? l_sem l then Some (Inside, mkLock (l_c l) (l_sem l - 1)) else None.

(** [if (atomic_add(&l.c, 1) < 0)]: is a thread waiting? *)
Definition UNLOCK_add (l : lock) : phase * lock :=
  (if l_c l <? 0 then Leaving else Outside, mkLock (s32 (l_c l + 1)) (l_sem l)).

Definition UNLOCK_release (l : lock) : phase * lock := (Outside, mkLock (l_c l) (l_sem l + 1)).

(** [sem] is what [create_sem(0, name)] answers. *)
Definition beos_new_lock (have : bool) (sem : Z) : Z + lock :=
  if negb have then inl B_BAD_VALUE
  else if sem <? 0 then inl sem
  else inr (mkLock 1 0).

(** The next step of a thread that stands at [p]; [None] while it must wait. *)
Definition turn (p : phase) (l : lock) : option (phase * lock) :=
  match p with
  | Outside => Some (LOCK_add l)
  | Blocked => LOCK_acquire l
  | Inside => Some (UNLOCK_add l)
  | Leaving => Some (UNLOCK_release l)
  end.

Definition system : Type := lock * list phase.

Definition turn_of (i : nat) (σ : system) : option system :=
  p ← σ.2 !! i;
  '(p', l) ← turn p σ.1;
  Some (l, <[i := p']> σ.2).

Definition step (σ σ' : system) : Prop := ∃ i, turn_of i σ = Some σ'.

(** The threads of a schedule take a step each. *)
Fixpoint turns (sched : list nat) (σ : system) : option system :=
  match sched with
  | [] => Some σ
  | i :: sched => σ ← turn_of i σ; turns sched σ
  end.

Definition fresh (n : nat) : system := (mkLock 1 0, replicate n Outside).

(** * Counting threads *)

Definition b2z (b : bool) : Z := if b then 1 else 0.

Fixpoint num (f : phase → bool) (ps : list phase) : Z :=
  match ps with [] => 0 | p :: ps => b2z (f p) + num f ps end.

Definition inside (p : phase) : bool := match p with Inside => true | _ => false end.
Definition blocked (p : phase) : bool := match p with Blocked => true | _ => false end.
Definition leaving (p : phase) : bool := match p with Leaving => true | _ => false end.

Lemma num_insert f ps i p q :
  ps !! i = Some p → num f (<[i := q]> ps) = num f ps - b2z (f p) + b2z (f q).
Proof.
  revert i. induction ps as [|r ps IH]; intros [|i] Hi; cbn in Hi; simplify_eq; [cbn; lia|].
  change (b2z (f r) + num f (<[i := q]> ps) = b2z (f r) + num f ps - b2z (f p) + b2z (f q)).
  rewrite (IH _ Hi). lia.
Qed.

Lemma num_range f ps : 0 ≤ num f ps ≤ zlen ps.
Proof.
  induction ps as [|p ps IH]; [done|]. rewrite length_cons. cbn [num]. destruct (f p); cbn [b2z]; lia.
Qed.

Lemma num_in f ps i p : ps !! i = Some p → f p = true → 0 < num f ps.
Proof.
  revert i. induction ps as [|r ps IH]; intros [|i] Hi Hf; cbn in *; simplify_eq.
  - rewrite Hf. pose proof (num_range f ps). cbn. lia.
  - pose proof (IH _ Hi Hf). destruct (f r); cbn; lia.
Qed.

Lemma num_some f ps : 0 < num f ps → ∃ i p, ps !! i = Some p ∧ f p = true.
Proof.
  induction ps as [|p ps IH]; cbn; [lia|]. destruct (f p) eqn:E; [by exists 0%nat, p|].
  intros (i & q & ? & ?)%IH. by exists (S i), q.
Qed.

(** * The invariant

    The counter says how many threads want in or are in; one token is in the
    lock, with a thread inside, with one that is leaving, or in the semaphore. *)
Record lock_inv (σ : system) : Prop := {
  li_count : l_c σ.1 = 1 - num inside σ.2 - num blocked σ.2;
  li_token : l_sem σ.1 + num inside σ.2 + num leaving σ.2 = b2z (l_c σ.1 <=? 0);
  li_sem : 0 ≤ l_sem σ.1;
  li_threads : zlen σ.2 < 2 ^ 31 - 1
}.

Ltac count_all σ :=
  pose proof (num_range inside σ); pose proof (num_range blocked σ);
  pose proof (num_range leaving σ).

Lemma fresh_inv n : Z.of_nat n < 2 ^ 31 - 1 → lock_inv (fresh n).
Proof.
  intros Hn. assert (∀ f, f Outside = false → num f (replicate n Outside) = 0) as E.
  { intros f Hf. clear Hn. induction n as [|n IH]; cbn; [done|]. by rewrite IH, Hf. }
  split; cbn [fresh fst snd l_c l_sem]; rewrite ?E by done; try done. by rewrite length_replicate.
Qed.

Lemma step_inv σ σ' : lock_inv σ → step σ σ' → lock_inv σ'.
Proof.
  intros [Hc Ht Hs Hn] [i E]. destruct σ as [[c sem] ps]. unfold turn_of in E. cbn [fst snd l_c l_sem] in *.
  destruct (ps !! i) as [p|] eqn:Hi; [|done]. cbn [mbind option_bind] in E. count_all ps.
  pose proof (num_in inside ps i p Hi) as Hin. pose proof (num_in blocked ps i p Hi) as Hbl.
  assert (∀ q, zlen (<[i := q]> ps) = zlen ps) as Hl by (intros; by rewrite length_insert).
  destruct p; cbn [turn inside blocked] in *; try specialize (Hin eq_refl); try specialize (Hbl eq_refl);
    unfold LOCK_add, LOCK_acquire, UNLOCK_add, UNLOCK_release in E;
    cbn [l_c l_sem] in E; destruct (Z.leb_spec c 0); cbn [b2z] in *;
    try destruct (Z.ltb_spec 0 sem); try destruct (Z.ltb_spec c 0);
    cbn [mbind option_bind] in E; (done || injection E as <-);
    split; cbn [fst snd l_c l_sem]; rewrite ?Hl, ?(num_insert _ _ _ _ _ Hi), ?s32_id by (unfold is_s32; lia);
    cbn [inside blocked leaving b2z]; try lia;
    repeat (case Z.leb_spec; cbn [b2z]); lia.
Qed.

Lemma reachable_inv σ n : Z.of_nat n < 2 ^ 31 - 1 → rtc step (fresh n) σ → lock_inv σ.
Proof.
  intros Hn Hr. assert (∀ σ1 σ2, rtc step σ1 σ2 → lock_inv σ1 → lock_inv σ2) as Hk.
  { induction 1; eauto using step_inv. }
  by eapply Hk, fresh_inv.
Qed.

Lemma one_inside σ i j :
  lock_inv σ → σ.2 !! i = Some Inside → σ.2 !! j = Some Inside → i = j.
Proof.
  intros [_ Ht Hs _] Hi Hj. destruct (decide (i = j)) as [|Hne]; [done|]. exfalso.
  pose proof (num_insert inside _ _ _ Outside Hi) as E. cbn [inside b2z] in E.
  assert (<[i := Outside]> σ.2 !! j = Some Inside) as Hj' by (by rewrite list_lookup_insert_ne).
  pose proof (num_in inside _ _ _ Hj' eq_refl). count_all σ.2. destruct (l_c σ.1 <=? 0); cbn [b2z] in Ht; lia.
Qed.

Lemma turn_run i σ p p' l :
  σ.2 !! i = Some p → turn p σ.1 = Some (p', l) → turn_of i σ = Some (l, <[i := p']> σ.2).
Proof. intros E1 E2. unfold turn_of. rewrite E1. cbn [mbind option_bind]. by rewrite E2. Qed.

(** A thread that waits can go on as soon as the semaphore is released. *)
Lemma acquire_enters i σ : σ.2 !! i = Some Blocked → 0 < l_sem σ.1 →
  ∃ σ', turn_of i σ = Some σ' ∧ σ'.2 !! i = Some Inside.
Proof.
  intros Hi Hs. eexists. split.
  - eapply turn_run; [done|]. cbn [turn]. unfold LOCK_acquire. by rewrite (proj2 (Z.ltb_lt _ _) Hs).
  - cbn [snd]. apply list_lookup_insert_eq. by apply lookup_lt_Some in Hi.
Qed.

Lemma leaving_hands_over i k σ :
  lock_inv σ → σ.2 !! i = Some Blocked → σ.2 !! k = Some Leaving →
  ∃ σ', turns [k; i] σ = Some σ' ∧ σ'.2 !! i = Some Inside.
Proof.
  intros HI Hi Hk. cbn [turns]. rewrite (turn_run k σ _ _ _ Hk eq_refl). cbn [mbind option_bind].
  edestruct (acquire_enters i) as (σ' & E & ?); [| |exists σ'; rewrite E; done].
  - cbn [snd]. rewrite list_lookup_insert_ne; [done|congruence].
  - cbn. pose proof (li_sem _ HI). lia.
Qed.

Lemma inside_hands_over i k σ :
  lock_inv σ → σ.2 !! i = Some Blocked → σ.2 !! k = Some Inside →
  ∃ σ', turns [k; k; i] σ = Some σ' ∧ σ'.2 !! i = Some Inside.
Proof.
  intros HI Hi Hk. assert (l_c σ.1 < 0) as Hc.
  { pose proof (num_in inside _ _ _ Hk eq_refl). pose proof (num_in blocked _ _ _ Hi eq_refl).
    rewrite (li_count _ HI). lia. }
  assert (turn_of k σ = Some ((UNLOCK_add σ.1).2, <[k := Leaving]> σ.2)) as E.
  { eapply turn_run; [done|]. cbn [turn]. unfold UNLOCK_add. by rewrite (proj2 (Z.ltb_lt _ _) Hc). }
  change (turns [k; k; i] σ) with (σ ← turn_of k σ; turns [k; i] σ). rewrite E. cbn [mbind option_bind].
  apply leaving_hands_over.
  - eapply step_inv; [done|by exists k].
  - cbn [snd]. rewrite list_lookup_insert_ne; [done|congruence].
  - cbn [snd]. apply list_lookup_insert_eq. by apply lookup_lt_Some in Hk.
Qed.

(** C16. The lock is a lock.  However the steps of fewer than 2^31 - 1 threads are
    interleaved, never are two of them between LOCK and UNLOCK; no wake-up is
    lost: a thread that waits in LOCK gets in after at most three steps of the
    thread that has the lock, is about to release the semaphore or has released
    it, and its own; and when all are outside, the lock is as it was created. *)
Theorem benaphore_correct n l sem σ :
  Z.of_nat n < 2 ^ 31 - 1 → beos_new_lock true sem = inr l → rtc step (l, replicate n Outside) σ →
  (∀ i j, σ.2 !! i = Some Inside → σ.2 !! j = Some Inside → i = j) ∧
  (∀ i, σ.2 !! i = Some Blocked →
     ∃ sched σ', (length sched ≤ 3)%nat ∧ turns sched σ = Some σ' ∧ σ'.2 !! i = Some Inside) ∧
  ((∀ i p, σ.2 !! i = Some p → p = Outside) → σ.1 = l).
Proof.
  intros Hn El Hr. assert (l = mkLock 1 0) as ->.
  { unfold beos_new_lock in El. cbn in El. by destruct (sem <? 0); simplify_eq. }
  pose proof (reachable_inv σ n Hn Hr) as HI. split_and!.
  - intros i j. by apply one_inside.
  - intros i Hi. pose proof (num_in blocked _ _ _ Hi eq_refl) as Hb. pose proof HI as [Hc Ht _ _]. count_all σ.2.
    rewrite (proj2 (Z.leb_le _ _)) in Ht by lia. cbn [b2z] in Ht.
    destruct (decide (0 < l_sem σ.1)) as [Hs|]; [|destruct (decide (0 < num leaving σ.2)) as [Hl|]].
    + destruct (acquire_enters i σ Hi Hs) as (σ' & E & ?). exists [i], σ'. cbn [turns]. rewrite E. split; [cbn; lia|done].
    + apply num_some in Hl as (k & [] & Hk & [=]).
      destruct (leaving_hands_over i k σ HI Hi Hk) as (σ' & ?). exists [k; i], σ'. split; [cbn; lia|done].
    + destruct (num_some inside σ.2) as (k & [] & Hk & [=]); [pose proof (li_sem _ HI); lia|].
      destruct (inside_hands_over i k σ HI Hi Hk) as (σ' & ?). exists [k; k; i], σ'. split; [cbn; lia|done].
  - intros Hout. assert (∀ f, f Outside = false → num f σ.2 = 0) as E.
    { intros f Hf. destruct (decide (0 < num f σ.2)) as [(i & p & Hi & Hp)%num_some|]; [|pose proof (num_range f σ.2); lia].
      apply Hout in Hi as ->. congruence. }
    pose proof HI as [Hc Ht _ _]. rewrite !E in Hc, Ht by done. destruct σ as [[c s] ps]. cbn [fst l_c l_sem] in *. subst c.
    change (s + 0 + 0 = 0) in Ht. assert (s = 0) as -> by lia. done.
Qed.

(** Three threads: one is inside, two wait; then the first leaves. *)
Definition crowd : system := default (fresh 3) (turns [0; 1; 2; 0; 0]%nat (fresh 3)).

Lemma benaphore_correct_witness :
  crowd = (mkLock (-1) 1, [Outside; Blocked; Blocked]) ∧
  ∃ sched σ', (length sched ≤ 3)%nat ∧ turns sched crowd = Some σ' ∧ σ'.2 !! 2%nat = Some Inside.
Proof.
  split; [reflexivity|].
  apply (proj1 (proj2 (benaphore_correct 3 (mkLock 1 0) 7 crowd ltac:(lia) eq_refl
    ltac:(eapply rtc_l; [exists 0%nat; reflexivity|]; eapply rtc_l; [exists 1%nat; reflexivity|];
          eapply rtc_l; [exists 2%nat; reflexivity|]; eapply rtc_l; [exists 0%nat; reflexivity|];
          eapply rtc_l; [exists 0%nat; reflexivity|]; apply rtc_refl)))).
  reflexivity.
Defined.
