(* ===== verification/WebQuery.v ===== *)
(** The texts of a websearchfs query (src/add-ons/kernel/file_systems/
    websearchfs/query.c, string_utils.c, and the test at the start of
    [websearchfs_open_query]): a query as the desktop writes it is taken apart
    into the words to search for, which become part of a URL.  The part of Tracker and of
    the storage kit that writes such a query is modelled too.

    A string is the list of its characters before the NUL; a block of memory is
    the list of its bytes, and a write outside of it is [Bad OutOfBounds]. *)

From S2P Require Import Prelude Errors.

(** Characters. *)
Definition SPACE : Z := 32.
Definition QUOTE : Z := 34.
Definition STAR : Z := 42.
Definition LBRACKET : Z := 91.
Definition BACKSLASH : Z := 92.
Definition RBRACKET : Z := 93.

Definition bytes_of (s : string) : list Z := (λ a, Z.of_nat (Ascii.nat_of_ascii a)) <$> String.list_ascii_of_string s.

Section Strings.
Context {S : Type} `{Allocator S} (uninit : Z → Z).

Definition fresh_bytes (n : Z) : list Z := uninit <$> seqZ 0 n.

(** [realloc] to a size that is not smaller. *)
Definition regrow (p : list Z) (n : Z) : list Z := p ++ (uninit <$> seqZ (zlen p) (n - zlen p)).

(** One character at [p[i]]. *)
Definition put_char (i c : Z) (p : list Z) : outcome (list Z) := store_bytes i [c] p.

(** [for (i = 0; *q; i++)]; the result is [i], the block and [q] at the end of
    the loop, or [None] when there is no memory. *)
Fixpoint unescape_loop (delim : Z) (q : list Z) (i : Z) (backslash : bool) (p : list Z)
    : M S (option (Z * list Z * list Z)) :=
  match q with
  | [] => mret (Some (i, p, q))
  | c :: rest =>
      grown ← (if Z.rem i 10 =? 9 then
                 ok ← malloc;
                 mret (if ok : bool then Some (regrow p (i + 10)) else None)
               else mret (Some p));
      match grown with
      | None => mret None
      | Some p =>
          if backslash then
            p ← liftO (put_char i c p); unescape_loop delim rest (s32 (i + 1)) false p
          else if c =? BACKSLASH then unescape_loop delim rest i true p
          else if c =? delim then mret (Some (i, p, q))
          else
            p ← liftO (put_char i (if c =? STAR then SPACE else c) p);
            unescape_loop delim rest (s32 (i + 1)) false p
      end
  end.

(** The NUL, and one over a space before it. *)
Definition unescape_end (i : Z) (p : list Z) : outcome (list Z) :=
  p ← put_char i 0 p;
  last ← (if 0 <? i then load_bytes (i - 1) 1 p else Ok []);
  if bool_decide (last = [SPACE]) then put_char (i - 1) 0 p else Ok p.

(** The block, as long as it is, and [*newq]. *)
Definition query_unescape_string (q : list Z) (delim : Z) : M S (option (list Z * list Z)) :=
  let q := match q with c :: rest => if c =? STAR then rest else q | [] => q end in
  ok ← malloc;
  if negb ok then mret None
  else
    r ← unescape_loop delim q 0 false (fresh_bytes 10);
    match r with
    | None => mret None
    | Some (i, p, q) =>
        p ← liftO (unescape_end i p);
        if i =? 0 then mret None else mret (Some (p, q))
    end.

(** A letter in both cases, in either order: the small one. *)
Definition both_cases (c C : Z) : option Z :=
  if (97 <=? C) && (C <=? 122) && (c =? C + 65 - 97) then Some C
  else if (97 <=? c) && (c <=? 122) && (C =? c + 65 - 97) then Some c
  else None.

(** The string from [p] on is edited in place; [strcpy(p+1, p + 4)] moves the
    rest of it forward. *)
Fixpoint query_strip_bracketed_Cc (p : list Z) : list Z :=
  match p with
  | [] => []
  | x :: rest =>
      match rest with
      | c :: C :: b :: rest' =>
          if (x =? LBRACKET) && (b =? RBRACKET) then
            match both_cases c C with
            | Some l => l :: query_strip_bracketed_Cc rest'
            | None => x :: query_strip_bracketed_Cc rest
            end
          else x :: query_strip_bracketed_Cc rest
      | _ => x :: query_strip_bracketed_Cc rest
      end
  end.

Definition query_prefix : list Z := bytes_of "((name==" ++ [QUOTE; STAR].
Definition query_suffix : list Z :=
  [QUOTE] ++ bytes_of ")&&(BEOS:TYPE==" ++ [QUOTE] ++ bytes_of "application/x-vnd.Be-bookmark" ++ [QUOTE] ++ bytes_of "))".

(** The test of [websearchfs_open_query]: [None] is a query for somebody else,
    otherwise the words to look for. *)
Definition query_text (query : list Z) : M S (option (list Z)) :=
  if negb (starts_with query_prefix query) then mret None
  else
    r ← query_unescape_string (drop 10 query) QUOTE;
    match r with
    | None => mret None
    | Some (qstring, p) =>
        if bool_decide (p = query_suffix)
        then mret (Some (query_strip_bracketed_Cc (c_str qstring)))
        else mret None
    end.

(** [hex[v]] for a half byte. *)
Definition hex_upper (v : Z) : Z := if v <? 10 then 48 + v else 65 + (v - 10).

Definition allowed : list Z :=
  bytes_of "abcdefghijklmnopqrstuvwxyz" ++ bytes_of "ABCDEFGHIJKLMNOPQRSTUVWXYZ" ++
  bytes_of "0123456789" ++ bytes_of "-_.!~*'()".

(** The characters written for one character of [str]. *)
Definition urlify_char (c : Z) : list Z :=
  if bool_decide (is_Some (strchr allowed c)) then [c]
  else if c =? SPACE then [43]
  else [37; hex_upper (Z.land (Z.shiftr c 4) 15); hex_upper (Z.land c 15)].

Fixpoint urlify_loop (p : list Z) (d : Z) (dst : list Z) : outcome (Z * list Z) :=
  match p with
  | [] => Ok (d, dst)
  | c :: p => dst ← store_bytes d (urlify_char c) dst; urlify_loop p (d + zlen (urlify_char c)) dst
  end.

Definition urlify_string (str : option (list Z)) : M S (option (list Z)) :=
  match str with
  | None => mret None
  | Some str =>
      ok ← malloc;
      if negb ok then mret None
      else
        r ← liftO (urlify_loop str 0 (fresh_bytes (zlen str * 3)));
        dst ← liftO (put_char r.1 0 r.2);
        mret (Some dst)
  end.
End Strings.

(** * What the functions compute *)

Definition unstar (c : Z) : Z := if c =? STAR then SPACE else c.

(** The text up to the delimiter, and where the scan stops; [true] when the
    string ends behind an escaping backslash. *)
Fixpoint unescape (delim : Z) (q : list Z) (backslash : bool) : list Z * list Z * bool :=
  match q with
  | [] => ([], [], backslash)
  | c :: rest =>
      if backslash then let '(t, r, b) := unescape delim rest false in (c :: t, r, b)
      else if c =? BACKSLASH then unescape delim rest true
      else if c =? delim then ([], q, false)
      else let '(t, r, b) := unescape delim rest false in (unstar c :: t, r, b)
  end.

(** The block has this size when [i] characters were stored. *)
Definition block_size (i : Z) : Z := if i <? 10 then 10 else 10 * (i / 10) + 9.

Definition strip_space (t : list Z) : list Z :=
  match last t with Some c => if c =? SPACE then take (length t - 1) t else t | None => t end.

Section Unescape.
Context {S : Type} `{Allocator S} (uninit : Z → Z).

Lemma regrow_length p n : zlen p ≤ n → zlen (regrow uninit p n) = n.
Proof. intros. unfold regrow. rewrite length_app, length_fmap, length_seqZ. lia. Qed.

Lemma regrow_take p n k : (k ≤ length p)%nat → take k (regrow uninit p n) = take k p.
Proof. intros. unfold regrow. by rewrite take_app_le. Qed.

Lemma put_char_run i c p : 0 ≤ i < zlen p →
  ∃ p', put_char i c p = Ok p' ∧ zlen p' = zlen p ∧ take (Z.to_nat (i + 1)) p' = take (Z.to_nat i) p ++ [c].
Proof.
  intros Hi. unfold put_char. rewrite store_bytes_Ok by (cbn; lia). eexists. split; [done|]. split.
  - rewrite splice_length by (cbn; lia). done.
  - change (i + 1) with (i + zlen [c]). apply take_splice; cbn; lia.
Qed.

(** The block at the head of the loop: as the characters stored so far say, or
    already grown when a backslash was read at the point of growing. *)
Definition sized (i : Z) (backslash : bool) (p : list Z) : Prop :=
  zlen p = if backslash && (i mod 10 =? 9) then i + 10 else block_size i.

Lemma block_size_next i : 0 ≤ i →
  block_size (i + 1) = if i mod 10 =? 9 then i + 10 else block_size i.
Proof.
  intros. unfold block_size. destruct (Z.eqb_spec (i mod 10) 9), (Z.ltb_spec i 10), (Z.ltb_spec (i + 1) 10); div_mod_lia.
Qed.

Lemma block_size_room i : 0 ≤ i → i ≤ block_size i ∧ (block_size i = i ↔ i mod 10 = 9 ∧ 10 ≤ i).
Proof. intros. unfold block_size. destruct (Z.ltb_spec i 10); div_mod_lia. Qed.

(** The step that makes room: then there is a place for one more character. *)
Lemma room_run i backslash p s : alloc_plenty s → 0 ≤ i → sized i backslash p →
  ∃ p', (if Z.rem i 10 =? 9 then
           ok ← malloc; mret (if ok : bool then Some (regrow uninit p (i + 10)) else None)
         else mret (Some p)) s = Ok (Some p', s) ∧
    zlen p' = block_size (i + 1) ∧ (i < zlen p') ∧ take (Z.to_nat i) p' = take (Z.to_nat i) p.
Proof.
  intros Hp Hi Hs. rewrite Z.rem_mod_nonneg by lia. rewrite (block_size_next i Hi).
  pose proof (block_size_room i Hi) as [Hle Hlt]. destruct (Z.eqb_spec (i mod 10) 9) as [E|E].
  - exists (regrow uninit p (i + 10)). rewrite (bind_Ok _ _ _ _ _ (malloc_plenty s Hp)).
    assert (zlen p ≤ i + 10 ∧ i ≤ zlen p) as [? ?].
    { rewrite Hs. unfold block_size. destruct (backslash && _); [lia|]. destruct (Z.ltb_spec i 10); div_mod_lia. }
    rewrite regrow_length, regrow_take by lia. split_and!; (done || lia).
  - exists p. unfold sized in Hs. rewrite (proj2 (Z.eqb_neq _ _) E), andb_false_r in Hs. split_and!; (done || lia).
Qed.

Lemma unescape_loop_run delim q : ∀ i backslash p s,
  alloc_plenty s → 0 ≤ i → i + zlen q < 2 ^ 31 → sized i backslash p →
  let '(t, r, b) := unescape delim q backslash in
  ∃ p', unescape_loop uninit delim q i backslash p s = Ok (Some (i + zlen t, p', r), s) ∧
    take (Z.to_nat (i + zlen t)) p' = take (Z.to_nat i) p ++ t ∧
    if bool_decide (r = []) then sized (i + zlen t) b p' else i + zlen t < zlen p'.
Proof.
  induction q as [|c q IH]; intros i backslash p s Hp Hi Hq Hs; cbn [unescape unescape_loop].
  { exists p. rewrite app_nil_r, !Z.add_0_r. split_and!; [done|done|done]. }
  rewrite length_cons in Hq.
  destruct (room_run i backslash p s Hp Hi Hs) as (p1 & E1 & Hsz & Hlt & Ht).
  assert (∀ x, let '(t, r, b) := unescape delim q false in
    ∃ p', (p ← liftO (put_char i x p1); unescape_loop uninit delim q (s32 (i + 1)) false p) s
        = Ok (Some (i + zlen (x :: t), p', r), s) ∧
      take (Z.to_nat (i + zlen (x :: t))) p' = take (Z.to_nat i) p ++ x :: t ∧
      if bool_decide (r = []) then sized (i + zlen (x :: t)) b p' else i + zlen (x :: t) < zlen p') as Hput.
  { intros x. destruct (put_char_run i x p1 ltac:(lia)) as (p2 & E2 & Hl2 & Ht2).
    rewrite E2, bind_liftO, s32_id by (unfold is_s32; lia).
    specialize (IH (i + 1) false p2 s Hp ltac:(lia) ltac:(lia) ltac:(unfold sized; cbn; lia)).
    destruct (unescape delim q false) as [[t r] b]. destruct IH as (p' & E & Hc & Hz).
    rewrite length_cons. replace (i + Z.of_nat (Datatypes.S (length t))) with (i + 1 + zlen t) by lia.
    exists p'. split_and!; [done| |done]. by rewrite Hc, Ht2, Ht, <- app_assoc. }
  rewrite (bind_Ok _ _ _ _ _ E1). destruct backslash; [|destruct (Z.eqb_spec c BACKSLASH); [|destruct (Z.eqb_spec c delim)]].
  - specialize (Hput c). by destruct (unescape delim q false) as [[t r] b].
  - specialize (IH i true p1 s Hp Hi ltac:(lia)).
    assert (sized i true p1) as Hs1.
    { by rewrite (block_size_next i Hi) in Hsz. }
    specialize (IH Hs1). destruct (unescape delim q true) as [[t r] b]. destruct IH as (p' & ? & Hc & ?).
    exists p'. split_and!; [done| |done]. by rewrite Hc, Ht.
  - exists p1. rewrite app_nil_r, !Z.add_0_r. split_and!; [done|done|]. by rewrite bool_decide_false.
  - specialize (Hput (unstar c)). by destruct (unescape delim q false) as [[t r] b].
Qed.

Lemma unescape_no_nul delim q : ∀ b, no_nul q → no_nul (unescape delim q b).1.1.
Proof.
  induction q as [|c q IH]; intros b Hq; cbn [unescape]; [constructor|].
  apply Forall_cons in Hq as [Hc Hq]. pose proof (IH false Hq) as IHf. pose proof (IH true Hq) as IHt.
  destruct (unescape delim q false) as [[t r] b']. cbn [fst snd] in IHf.
  destruct b; [by constructor|]. case_match; [done|]. case_match; [constructor|]. cbn. constructor; [|done].
  unfold unstar. by case_match.
Qed.

Lemma c_str_take k t p : take k p = t ++ [0] → no_nul t → c_str p = t.
Proof. intros E Ht. rewrite <- (take_drop k p), E, <- app_assoc. by apply c_str_no_nul. Qed.

Lemma no_nul_take k t : no_nul t → no_nul (take k t).
Proof. apply Forall_take. Qed.

Lemma unescape_end_run t p : no_nul t → t ≠ [] → take (length t) p = t → zlen t < zlen p →
  ∃ p', unescape_end (zlen t) p = Ok p' ∧ c_str p' = strip_space t.
Proof.
  intros Hn Hne Ht Hlt. destruct (put_char_run (zlen t) 0 p) as (p1 & E1 & Hl1 & Ht1); [lia|].
  rewrite Nat2Z.id, Ht in Ht1. replace (Z.to_nat (zlen t + 1)) with (length t + 1)%nat in Ht1 by lia.
  destruct t as [|c t _] using rev_ind; [done|]. unfold strip_space. rewrite last_snoc.
  rewrite length_app in *. cbn [length] in *.
  unfold unescape_end. rewrite E1. cbn [mbind outcome_bind]. rewrite (proj2 (Z.ltb_lt 0 _)) by lia.
  rewrite load_bytes_Ok by lia. cbn [mbind outcome_bind].
  replace (slice (Z.of_nat (length t + 1) - 1) 1 p1) with [c].
  2:{ rewrite <- (take_drop (length t + 1 + 1) p1), Ht1, <- app_assoc, <- app_assoc.
      symmetry. apply slice_middle; cbn; lia. }
  assert (bool_decide ([c] = [SPACE]) = (c =? SPACE)) as ->.
  { destruct (Z.eqb_spec c SPACE); [by apply bool_decide_true; subst|apply bool_decide_false; congruence]. }
  apply Forall_app in Hn as [Hn Hc]. destruct (c =? SPACE).
  - destruct (put_char_run (Z.of_nat (length t + 1) - 1) 0 p1) as (p2 & E2 & _ & Ht2); [lia|]. rewrite E2.
    exists p2. split; [done|]. replace (length t + 1 - 1)%nat with (length t) by lia. rewrite take_app_length.
    eapply c_str_take; [|done]. rewrite Ht2. f_equal.
    replace (Z.to_nat (Z.of_nat (length t + 1) - 1)) with (length t) by lia.
    rewrite <- (Nat.min_l (length t) (length t + 1 + 1)) by lia. rewrite <- take_take, Ht1, <- app_assoc. by apply take_app_length.
  - exists p1. split; [done|]. eapply c_str_take; [exact Ht1|]. apply Forall_app. done.
Qed.

(** The string ends where the block does, and the NUL goes behind it. *)
Definition overruns (t r : list Z) (dangling : bool) : bool :=
  bool_decide (r = []) && (zlen t mod 10 =? 9) && (10 <=? zlen t) && negb dangling.

Definition skip_star (q : list Z) : list Z :=
  match q with c :: rest => if c =? STAR then rest else q | [] => q end.

(** [query_unescape_string] answers the text before the delimiter, with escapes
    resolved, stars as spaces and without a space at the end, or NULL for an
    empty text; but a text of 19, 29, 39, ... characters that no delimiter ends
    is terminated one byte behind its block. *)
Lemma query_unescape_exact q delim s : alloc_plenty s → zlen q < 2 ^ 31 → no_nul q →
  let '(t, r, dangling) := unescape delim (skip_star q) false in
  if overruns t r dangling then query_unescape_string uninit q delim s = Bad OutOfBounds
  else if bool_decide (t = []) then query_unescape_string uninit q delim s = Ok (None, s)
  else ∃ p, query_unescape_string uninit q delim s = Ok (Some (p, r), s) ∧ c_str p = strip_space t.
Proof.
  intros Hp Hl Hn. unfold query_unescape_string. fold (skip_star q).
  assert (zlen (skip_star q) < 2 ^ 31 ∧ no_nul (skip_star q)) as [Hl' Hn'].
  { destruct q as [|c q]; [done|]. cbn [skip_star]. rewrite length_cons in Hl.
    case_match; [split; [lia|by apply Forall_cons in Hn as [_ ?]]|by rewrite length_cons]. }
  generalize dependent (skip_star q). intros q' Hl' Hn'.
  pose proof (unescape_no_nul delim q' false Hn') as Hnt.
  assert (zlen (fresh_bytes uninit 10) = block_size 0) as H0 by (unfold fresh_bytes; by rewrite length_fmap, length_seqZ).
  pose proof (unescape_loop_run delim q' 0 false (fresh_bytes uninit 10) s Hp ltac:(lia) ltac:(lia) H0) as Hrun.
  destruct (unescape delim q' false) as [[t r] b]. destruct Hrun as (p & E & Ht & Hz). cbn [fst snd] in Hnt.
  rewrite (bind_Ok _ _ _ _ _ (malloc_plenty s Hp)). cbn [negb]. rewrite (bind_Ok _ _ _ _ _ E). rewrite Z.add_0_l in *.
  cbn [Z.to_nat take app] in Ht. rewrite Nat2Z.id in Ht.
  destruct (overruns t r b) eqn:Eo.
  - unfold overruns in Eo. rewrite !andb_true_iff, bool_decide_eq_true in Eo. destruct Eo as [[[Er E9] E10] Eb].
    rewrite bool_decide_true in Hz by done. destruct b; [done|]. unfold sized in Hz. cbn [andb] in Hz.
    apply bind_Bad. unfold liftO, unescape_end, put_char, store_bytes. rewrite bool_decide_false; [done|].
    cbn [length]. pose proof (block_size_room (zlen t)). lia.
  - assert (zlen t < zlen p) as Hlt.
    { destruct (bool_decide (r = [])) eqn:Er; [|done]. unfold overruns in Eo. rewrite Er in Eo. unfold sized in Hz.
      pose proof (block_size_room (zlen t)). rewrite Hz.
      destruct b, (Z.eqb_spec (zlen t mod 10) 9), (Z.leb_spec 10 (zlen t)); cbn in *; (done || lia). }
    destruct (decide (t = [])) as [Et|Et]; [rewrite (bool_decide_true _ Et)|rewrite (bool_decide_false _ Et)].
    + subst t. destruct (put_char_run 0 0 p ltac:(cbn in Hlt; lia)) as (p1 & E1 & _).
      unfold unescape_end. change (zlen []) with 0. rewrite E1. done.
    + destruct (unescape_end_run t p Hnt Et Ht Hlt) as (p' & E' & Hc). rewrite E', bind_liftO. exists p'. split; [|done].
      destruct (Z.eqb_spec (zlen t) 0); [destruct t; [done|rewrite length_cons in *; lia]|done].
Qed.
End Unescape.

(** * Queries as the desktop writes them

    Tracker's find panel makes a query from the text that was typed in
    (src/kits/tracker/FindPanel.cpp, [GetByNamePredicate] and [PushMimeType]), and the
    storage kit writes it down (src/kits/storage/QueryPredicate.cpp).  The texts here are
    ASCII, so that a character is one code point, and the letters are those of ASCII. *)

Definition APOSTROPHE : Z := 39.

Definition is_upper (c : Z) : bool := (65 <=? c) && (c <=? 90).
Definition is_lower (c : Z) : bool := (97 <=? c) && (c <=? 122).
Definition to_lower (c : Z) : Z := if is_upper c then c + 32 else c.

(** A letter stands for itself in both cases, a space for anything. *)
Definition bracket (c : Z) : list Z :=
  if is_upper c || is_lower c then [LBRACKET; to_lower c; to_lower c - 32; RBRACKET] else [c].

Definition star (c : Z) : Z := if c =? SPACE then STAR else c.

(** [StringNode(value, true)] and [StringNode(value)]. *)
Definition StringNode_insensitive (value : list Z) : list Z :=
  value ≫= λ c, if is_upper c || is_lower c then bracket c else [star c].
Definition StringNode_plain (value : list Z) : list Z := star <$> value.

(** [CharacterEscape]: a backslash before quotes, apostrophes and backslashes. *)
Definition special (c : Z) : bool := (c =? BACKSLASH) || (c =? QUOTE) || (c =? APOSTROPHE).
Definition escape (c : Z) : list Z := if special c then [BACKSLASH; c] else [c].

Definition StringNode_GetString (value : list Z) : list Z := [QUOTE] ++ (value ≫= escape) ++ [QUOTE].

(** For [B_EQ] and [B_AND]; [B_CONTAINS] puts its string between stars and is [B_EQ] then. *)
Definition BinaryOpNode_GetString (child1 op child2 : list Z) : list Z :=
  bytes_of "(" ++ child1 ++ op ++ child2 ++ bytes_of ")".

(** A search for the bookmarks whose name contains [text], or, if that has stars, whose
    name is [text] with anything in their place. *)
Definition GetByNamePredicate (text : list Z) : list Z :=
  let value := StringNode_insensitive text in
  let name :=
    BinaryOpNode_GetString (bytes_of "name") (bytes_of "==")
      (StringNode_GetString
        (if bool_decide (STAR ∈ text) then value else StringNode_plain ([STAR] ++ value ++ [STAR]))) in
  let type :=
    BinaryOpNode_GetString (bytes_of "BEOS:TYPE") (bytes_of "==")
      (StringNode_GetString (StringNode_plain (bytes_of "application/x-vnd.Be-bookmark"))) in
  BinaryOpNode_GetString name (bytes_of "&&") type.

Lemma both_cases_letter c C l : both_cases c C = Some l → is_upper c || is_lower c = true.
Proof.
  unfold both_cases, is_upper, is_lower. intros Hb.
  destruct ((97 <=? C) && (C <=? 122) && (c =? C + 65 - 97)) eqn:E1.
  - rewrite !andb_true_iff, Z.eqb_eq in E1. apply orb_true_iff. left. lia.
  - destruct ((97 <=? c) && (c <=? 122) && (C =? c + 65 - 97)) eqn:E2; [|done].
    rewrite !andb_true_iff in E2. apply orb_true_iff. right. lia.
Qed.

Lemma bracketed_first t c u : t ≫= bracket = c :: u → is_upper c || is_lower c = false.
Proof.
  destruct t as [|x t]; [done|]. cbn. unfold bracket. destruct (is_upper x || is_lower x) eqn:E; cbn; intros [= <- _]; [done|].
  done.
Qed.

Lemma strip_keeps x u :
  (∀ c C b r, u = c :: C :: b :: r → both_cases c C = None) →
  query_strip_bracketed_Cc (x :: u) = x :: query_strip_bracketed_Cc u.
Proof.
  intros Hu. cbn [query_strip_bracketed_Cc]. destruct u as [|c [|C [|b r]]]; try done.
  destruct ((x =? LBRACKET) && (b =? RBRACKET)); [|done]. by rewrite (Hu _ _ _ _ eq_refl).
Qed.

Lemma strip_bracketed t : query_strip_bracketed_Cc (t ≫= bracket) = to_lower <$> t.
Proof.
  induction t as [|x t IH]; [done|]. cbn [mbind list_bind fmap list_fmap]. fold (t ≫= bracket).
  unfold bracket at 1. destruct (is_upper x || is_lower x) eqn:E.
  - change ([LBRACKET; to_lower x; to_lower x - 32; RBRACKET] ++ (t ≫= bracket))
      with (LBRACKET :: to_lower x :: (to_lower x - 32) :: RBRACKET :: (t ≫= bracket)).
    cbn [query_strip_bracketed_Cc]. rewrite !Z.eqb_refl. cbn [andb].
    replace (both_cases (to_lower x) (to_lower x - 32)) with (Some (to_lower x)).
    { cbn [fmap list_fmap]. by rewrite <- IH. }
    unfold both_cases. assert (97 ≤ to_lower x ≤ 122).
    { unfold to_lower, is_upper, is_lower in *. destruct ((65 <=? x) && (x <=? 90)) eqn:Eu; cbn in E; lia. }
    rewrite (proj2 (Z.leb_gt 97 (to_lower x - 32))) by lia. cbn [andb].
    by rewrite (proj2 (Z.leb_le 97 _)), (proj2 (Z.leb_le _ 122)), (proj2 (Z.eqb_eq (to_lower x - 32) _)) by lia.
  - cbn [app]. rewrite strip_keeps.
    + rewrite IH. f_equal. unfold to_lower. apply orb_false_iff in E as [-> _]. done.
    + intros c C b r Eu. destruct (both_cases c C) eqn:Eb; [|done].
      apply both_cases_letter in Eb. by rewrite (bracketed_first _ _ _ Eu) in Eb.
Qed.

Lemma bracket_plain c : is_upper c || is_lower c = false → bracket c = [c].
Proof. unfold bracket. by intros ->. Qed.

Lemma letter_plain c : is_upper c || is_lower c = true → unstar c = c ∧ Forall (λ x, special x = false ∧ unstar x = x ∧ x ≠ QUOTE) (bracket c).
Proof.
  intros Hc. assert (65 ≤ c ≤ 90 ∨ 97 ≤ c ≤ 122) as Hr by (unfold is_upper, is_lower in Hc; lia).
  assert (97 ≤ to_lower c ≤ 122) as Hl.
  { unfold to_lower, is_upper. destruct (Z.leb_spec 65 c), (Z.leb_spec c 90); cbn; lia. }
  assert (∀ x, x = 91 ∨ x = 93 ∨ 65 ≤ x ≤ 90 ∨ 97 ≤ x ≤ 122 → special x = false ∧ unstar x = x ∧ x ≠ QUOTE) as Hx.
  { intros x Hx. unfold special, unstar, BACKSLASH, QUOTE, APOSTROPHE, STAR.
    rewrite (proj2 (Z.eqb_neq x 92)), (proj2 (Z.eqb_neq x 34)), (proj2 (Z.eqb_neq x 39)), (proj2 (Z.eqb_neq x 42)) by lia. split_and!; [done|done|lia]. }
  split; [apply Hx; lia|]. unfold bracket. rewrite Hc. unfold LBRACKET, RBRACKET. repeat constructor; apply Hx; lia.
Qed.

Lemma unescape_plain u r : Forall (λ x, special x = false ∧ unstar x = x ∧ x ≠ QUOTE) u →
  unescape QUOTE ((u ≫= escape) ++ r) false = let '(t, r', b) := unescape QUOTE r false in (u ++ t, r', b).
Proof.
  induction 1 as [|x u (Hs & Hu & Hq) _ IH]; [cbn; by destruct (unescape QUOTE r false) as [[]]|].
  cbn [mbind list_bind]. fold (u ≫= escape). unfold escape at 1. rewrite Hs. cbn [app unescape]. unfold special in Hs.
  rewrite !orb_false_iff in Hs. destruct Hs as [[-> ->] _]. rewrite IH, Hu. by destruct (unescape QUOTE r false) as [[]].
Qed.

Lemma insensitive_cons c t :
  StringNode_insensitive (c :: t) = (if is_upper c || is_lower c then bracket c else [star c]) ++ StringNode_insensitive t.
Proof. done. Qed.

(** A pattern is read back with spaces for stars. *)
Lemma unescape_pattern t r :
  unescape QUOTE ((StringNode_insensitive t ≫= escape) ++ QUOTE :: r) false = ((unstar <$> t) ≫= bracket, QUOTE :: r, false).
Proof.
  induction t as [|c t IH]; [done|]. rewrite insensitive_cons, bind_app, <- app_assoc.
  change ((unstar <$> c :: t) ≫= bracket) with (bracket (unstar c) ++ ((unstar <$> t) ≫= bracket)).
  destruct (is_upper c || is_lower c) eqn:Ec.
  - destruct (letter_plain c Ec) as [-> Hb]. rewrite unescape_plain by done. by rewrite IH.
  - cbn [mbind list_bind app]. rewrite app_nil_r. unfold escape at 1, special, star. unfold unstar at 1.
    destruct (Z.eqb_spec c SPACE) as [->|Hs]; [cbn; by rewrite IH|].
    destruct (Z.eqb_spec c STAR) as [->|Hst]; [cbn; by rewrite IH|].
    rewrite bracket_plain by done. destruct (c =? BACKSLASH) eqn:E1, (c =? QUOTE) eqn:E2, (c =? APOSTROPHE) eqn:E3;
      cbn [orb app unescape]; rewrite ?Z.eqb_refl, ?E1, ?E2; try (by rewrite IH).
    rewrite IH. unfold unstar. by rewrite (proj2 (Z.eqb_neq c STAR)).
Qed.

Lemma no_nul_bind t f : no_nul t → (∀ c, c ≠ 0 → no_nul (f c)) → no_nul (t ≫= f).
Proof.
  intros Ht Hf. induction Ht as [|c t Hc Ht IH]; [constructor|]. apply Forall_app. split; [by apply Hf|apply IH].
Qed.

Lemma bracket_no_nul c : c ≠ 0 → no_nul (bracket c).
Proof.
  intros Hc. unfold bracket. destruct (is_upper c || is_lower c) eqn:E; repeat constructor; try done;
    unfold to_lower, is_upper, is_lower in *; destruct ((65 <=? c) && (c <=? 90)) eqn:Eu; cbn in E; lia.
Qed.

Lemma escape_no_nul c : c ≠ 0 → no_nul (escape c).
Proof. intros Hc. unfold escape. case_match; by repeat constructor. Qed.

Lemma pattern_no_nul t : no_nul t → no_nul (StringNode_insensitive t ≫= escape).
Proof.
  intros Ht. apply no_nul_bind; [|apply escape_no_nul]. apply no_nul_bind; [done|]. intros c Hc. case_match; [by apply bracket_no_nul|].
  repeat constructor. unfold star. by case_match.
Qed.

(** The query for a name with the pattern [t]. *)
Definition pattern_query (t : list Z) : list Z :=
  bytes_of "((name==" ++ [QUOTE] ++ (StringNode_insensitive t ≫= escape) ++ query_suffix.

Lemma insensitive_app t u : StringNode_insensitive (t ++ u) = StringNode_insensitive t ++ StringNode_insensitive u.
Proof. apply bind_app. Qed.

Lemma insensitive_no_space t : StringNode_plain (StringNode_insensitive t) = StringNode_insensitive t.
Proof.
  unfold StringNode_plain. rewrite <- (list_fmap_id (StringNode_insensitive t)) at 2. apply list_fmap_ext. intros i x Hx.
  apply list_elem_of_lookup_2, list_elem_of_bind in Hx as (c & Hx & _). unfold star, id. destruct (Z.eqb_spec x SPACE) as [->|]; [|done].
  exfalso. destruct (is_upper c || is_lower c) eqn:Ec.
  - unfold bracket in Hx. rewrite Ec in Hx. unfold to_lower, is_upper, is_lower, LBRACKET, RBRACKET, SPACE in *.
    rewrite !elem_of_cons, elem_of_nil in Hx. destruct ((65 <=? c) && (c <=? 90)) eqn:Eu; lia.
  - apply list_elem_of_singleton in Hx. unfold star in Hx. by destruct (Z.eqb_spec c SPACE).
Qed.

Lemma GetByNamePredicate_pattern t :
  GetByNamePredicate t = pattern_query (if bool_decide (STAR ∈ t) then t else [STAR] ++ t ++ [STAR]).
Proof.
  unfold GetByNamePredicate, pattern_query, BinaryOpNode_GetString, StringNode_GetString.
  assert (∀ v : list Z, bytes_of "(" ++ (bytes_of "(" ++ bytes_of "name" ++ bytes_of "==" ++ ([QUOTE] ++ v ++ [QUOTE]) ++ bytes_of ")") ++ bytes_of "&&" ++
    (bytes_of "(" ++ bytes_of "BEOS:TYPE" ++ bytes_of "==" ++ ([QUOTE] ++ (StringNode_plain (bytes_of "application/x-vnd.Be-bookmark") ≫= escape) ++ [QUOTE]) ++ bytes_of ")") ++ bytes_of ")"
    = bytes_of "((name==" ++ [QUOTE] ++ v ++ query_suffix) as E.
  { intros v. cbn -[app]. rewrite <- !app_assoc. done. }
  rewrite E. do 3 f_equal. f_equal. case_bool_decide; [done|].
  change [STAR] with (StringNode_insensitive [STAR]). by rewrite <- !insensitive_app, insensitive_no_space.
Qed.

(** A space or a star. *)
Definition blank (c : Z) : bool := unstar c =? SPACE.

Definition skip_blank (t : list Z) : list Z :=
  match t with c :: r => if blank c then r else t | [] => [] end.

Lemma pattern_first t r : t ≠ [] →
  ∃ x u, (StringNode_insensitive t ≫= escape) ++ r = x :: u ∧
    match t with c :: t' => if blank c then x = STAR ∧ u = (StringNode_insensitive t' ≫= escape) ++ r else x ≠ STAR | [] => True end.
Proof.
  intros Hne. destruct t as [|c t]; [done|]. clear Hne. rewrite insensitive_cons, bind_app, <- app_assoc.
  unfold blank, unstar. destruct (is_upper c || is_lower c) eqn:Ec.
  - unfold bracket. rewrite Ec. cbn [mbind list_bind app]. unfold escape at 1. cbn. eexists _, _. split; [done|].
    assert (c ≠ 42 ∧ c ≠ 32) as [? ?] by (unfold is_upper, is_lower in Ec; lia). unfold STAR, SPACE.
    by rewrite (proj2 (Z.eqb_neq c 42)), (proj2 (Z.eqb_neq c 32)).
  - cbn [mbind list_bind app]. rewrite app_nil_r. unfold star. destruct (Z.eqb_spec c SPACE) as [->|Hs]; [by eexists _, _|].
    destruct (Z.eqb_spec c STAR) as [->|Hst]; [by eexists _, _|]. rewrite (proj2 (Z.eqb_neq c SPACE)) by done.
    unfold escape at 1. destruct (special c); by eexists _, _.
Qed.

Lemma skip_star_pattern t r :
  skip_star ((StringNode_insensitive t ≫= escape) ++ QUOTE :: r) = (StringNode_insensitive (skip_blank t) ≫= escape) ++ QUOTE :: r.
Proof.
  destruct t as [|c t]; [done|]. destruct (pattern_first (c :: t) (QUOTE :: r)) as (x & u & E & Hx); [done|]. rewrite E. cbn [skip_star skip_blank].
  destruct (blank c); [destruct Hx as [-> ->]; by rewrite Z.eqb_refl|]. by rewrite (proj2 (Z.eqb_neq x STAR)), <- E.
Qed.

Lemma strip_space_bracket u : strip_space (u ≫= bracket) = strip_space u ≫= bracket.
Proof.
  destruct u as [|c u _] using rev_ind; [done|]. rewrite bind_app. cbn [mbind list_bind]. rewrite app_nil_r. unfold strip_space at 2.
  rewrite last_snoc, length_app. cbn [length]. replace (length u + 1 - 1)%nat with (length u) by lia. rewrite take_app_length.
  unfold bracket at 2. destruct (is_upper c || is_lower c) eqn:Ec.
  - assert (c ≠ SPACE) as Hc by (unfold is_upper, is_lower, SPACE in *; lia). rewrite (proj2 (Z.eqb_neq c SPACE)) by done.
    rewrite bind_app. cbn [mbind list_bind]. rewrite app_nil_r. unfold bracket at 3. rewrite Ec.
    change [LBRACKET; to_lower c; to_lower c - 32; RBRACKET] with ([LBRACKET; to_lower c; to_lower c - 32] ++ [RBRACKET]). rewrite app_assoc.
    unfold strip_space. by rewrite last_snoc.
  - unfold strip_space. rewrite last_snoc, length_app. cbn [length]. replace (length (u ≫= bracket) + 1 - 1)%nat with (length (u ≫= bracket)) by lia.
    rewrite take_app_length. destruct (c =? SPACE); [done|]. rewrite bind_app. cbn [mbind list_bind]. by rewrite bracket_plain.
Qed.

Lemma query_text_pattern {S} `{Allocator S} (uninit : Z → Z) (c : Z) (t : list Z) (s : S) :
  alloc_plenty s → no_nul (c :: t) → zlen (pattern_query (c :: t)) < 2 ^ 31 →
  query_text uninit (pattern_query (c :: t)) s =
    Ok (if blank c && negb (bool_decide (skip_blank t = [])) then Some (to_lower <$> strip_space (unstar <$> skip_blank t)) else None, s).
Proof.
  intros Hp Hn Hl. unfold query_text. destruct (pattern_first (c :: t) query_suffix) as (x & u & E & Hx); [done|].
  unfold pattern_query in *. rewrite E in *. destruct (blank c); cbn [andb].
  2:{ replace (starts_with query_prefix _) with false; [done|]. symmetry. apply not_true_is_false. intros [r Er]%starts_with_inv. apply Hx. by injection Er. }
  destruct Hx as [-> ->]. set (v := (StringNode_insensitive t ≫= escape) ++ query_suffix) in *.
  change (bytes_of "((name==" ++ [QUOTE] ++ STAR :: v) with (query_prefix ++ v) in *.
  rewrite starts_with_app, drop_app_length' by done. cbn [negb]. apply Forall_cons in Hn as [_ Hn]. rewrite length_app in Hl.
  pose proof (query_unescape_exact uninit v QUOTE s Hp ltac:(lia)) as Hq. subst v.
  rewrite (skip_star_pattern t (tail query_suffix) : skip_star ((StringNode_insensitive t ≫= escape) ++ query_suffix) = _), unescape_pattern in Hq.
  unfold overruns in Hq. rewrite (bool_decide_false (QUOTE :: _ = [])) in Hq by done. cbn [andb] in Hq.
  assert (no_nul ((StringNode_insensitive t ≫= escape) ++ query_suffix)) as Hv by (apply Forall_app; split; [by apply pattern_no_nul|by repeat constructor]).
  specialize (Hq Hv). destruct (decide (skip_blank t = [])) as [E0|E0].
  - rewrite E0 in Hq. rewrite (bool_decide_true _ E0), (bind_Ok _ _ _ _ _ Hq). done.
  - rewrite (bool_decide_false _ E0). cbn [negb]. rewrite bool_decide_false in Hq.
    2:{ destruct (skip_blank t) as [|y r]; [done|]. cbn. unfold bracket. by destruct (is_upper (unstar y) || is_lower (unstar y)). }
    destruct Hq as (p & Er & Hc). rewrite (bind_Ok _ _ _ _ _ Er), bool_decide_true, Hc by done. by rewrite strip_space_bracket, strip_bracketed.
Qed.

(** The words [websearchfs_open_query] takes out of the query for a text: none for a
    text with stars that does not begin with a star or a space. *)
Definition search_words (t : list Z) : option (list Z) :=
  if bool_decide (STAR ∈ t) then
    match t with
    | c :: r =>
        if blank c && negb (bool_decide (skip_blank r = []))
        then Some (to_lower <$> strip_space (unstar <$> skip_blank r)) else None
    | [] => None
    end
  else if bool_decide (t = []) then None else Some (to_lower <$> skip_blank t).

Lemma unstar_id (t : list Z) : STAR ∉ t → unstar <$> t = t.
Proof.
  induction t as [|c t IH]; [done|]. intros [Hc Ht]%not_elem_of_cons. cbn. rewrite IH by done. unfold unstar.
  by rewrite (proj2 (Z.eqb_neq c STAR)).
Qed.

Lemma skip_blank_snoc t c : t ≠ [] → skip_blank (t ++ [c]) = skip_blank t ++ [c].
Proof. destruct t as [|x t]; [done|]. cbn. by destruct (blank x). Qed.

Lemma skip_blank_elem c t : c ∈ skip_blank t → c ∈ t.
Proof. destruct t as [|x t]; [done|]. cbn. destruct (blank x); [by right|done]. Qed.

Lemma query_text_run {S} `{Allocator S} (uninit : Z → Z) (t : list Z) (s : S) :
  alloc_plenty s → no_nul t → zlen (GetByNamePredicate t) < 2 ^ 31 →
  query_text uninit (GetByNamePredicate t) s = Ok (search_words t, s).
Proof.
  intros Hp Hn. rewrite GetByNamePredicate_pattern. intros Hl. unfold search_words. case_bool_decide as Hs.
  - destruct t as [|c t]; [by apply elem_of_nil in Hs|]. by rewrite query_text_pattern.
  - cbn [app] in *. rewrite query_text_pattern; [|done|constructor; [done|]; by apply Forall_app; split; [|repeat constructor]|done].
    change (blank STAR) with true. cbn [andb]. destruct t as [|x t]; [done|]. rewrite (bool_decide_false (x :: t = [])) by done.
    rewrite skip_blank_snoc by done. rewrite bool_decide_false by (by destruct (skip_blank (x :: t))). cbn [negb].
    rewrite fmap_app, unstar_id by (by intros ?%skip_blank_elem). change (unstar <$> [STAR]) with [SPACE]. unfold strip_space. rewrite last_snoc, length_app. cbn [length].
    replace (length (skip_blank (x :: t)) + 1 - 1)%nat with (length (skip_blank (x :: t))) by lia. by rewrite take_app_length.
Qed.

(** C20. Searching for a text: for every ASCII text that is typed into Tracker's find panel
    to search for bookmarks by name, [websearchfs_open_query] takes the words
    [search_words] out of the query that Tracker and the storage kit write (a case
    insensitive pattern in brackets with stars for spaces, between two stars, with
    backslashes before quotes, apostrophes and backslashes).  For a text without stars
    that is the text in small letters, less one space at its beginning; a query for a
    text with stars is left to others, unless it begins with a star or a space, and
    stars come back as spaces; the empty text is no search.  There is enough memory,
    and no access outside of the blocks. *)
Theorem query_text_roundtrip {S} `{Allocator S} (uninit : Z → Z) (t : list Z) (s : S) :
  alloc_plenty s → Forall (λ c, 0 < c < 128) t → zlen (GetByNamePredicate t) < 2 ^ 31 →
  query_text uninit (GetByNamePredicate t) s = Ok (search_words t, s).
Proof. intros Hp Ht. apply query_text_run; [done|]. eapply Forall_impl; [exact Ht|]. cbn. lia. Qed.

(** [C++ don't] is found again; [4*a] is no search on this file system. *)
Lemma query_text_roundtrip_witness :
  GetByNamePredicate (bytes_of "C++ don't") = bytes_of "((name==" ++ [QUOTE] ++ bytes_of "*[cC]++*[dD][oO][nN]\'[tT]*" ++ query_suffix ∧
  query_text id (GetByNamePredicate (bytes_of "C++ don't")) tt = Ok (Some (bytes_of "c++ don't"), tt) ∧
  query_text id (GetByNamePredicate (bytes_of "4*a")) tt = Ok (None, tt).
Proof.
  split; [reflexivity|]. split.
  - apply (query_text_roundtrip id (bytes_of "C++ don't") tt); [done|by repeat constructor|done].
  - apply (query_text_roundtrip id (bytes_of "4*a") tt); [done|by repeat constructor|done].
Defined.

(** Texts of 18 and of 19 characters without a closing quote. *)
Lemma query_unescape_overrun :
  query_unescape_string id (bytes_of "abcdefghijklmnopqr") QUOTE tt = Ok (Some (bytes_of "abcdefghijklmnopqr" ++ [0], []), tt) ∧
  query_unescape_string id (bytes_of "abcdefghijklmnopqrs") QUOTE tt = Bad OutOfBounds.
Proof. split; vm_compute; reflexivity. Qed.

(** * Queries in a URL *)

Definition unhex (c : Z) : Z := if c <? 65 then c - 48 else c - 65 + 10.

(** What a web server makes of it. *)
Fixpoint url_decode (u : list Z) : list Z :=
  match u with
  | [] => []
  | c :: r =>
      if c =? 37 then match r with a :: b :: r => (16 * unhex a + unhex b) :: url_decode r | _ => [] end
      else (if c =? 43 then SPACE else c) :: url_decode r
  end.

Lemma unhex_hex v : 0 ≤ v < 16 → unhex (hex_upper v) = v.
Proof.
  intros Hv. unfold unhex, hex_upper. destruct (Z.ltb_spec v 10).
  - rewrite (proj2 (Z.ltb_lt _ _)) by lia. lia.
  - rewrite (proj2 (Z.ltb_ge _ _)) by lia. lia.
Qed.

Lemma strchr_in s c : is_Some (strchr s c) → c ∈ s.
Proof.
  induction s as [|x s IH]; cbn; [by intros []|]. destruct (Z.eqb_spec x c) as [->|]; [by left|].
  intros [y Hy]. right. apply IH. destruct (strchr s c) as [[]|]; [by eexists|done].
Qed.

Lemma allowed_plain c : is_Some (strchr allowed c) → c ≠ 37 ∧ c ≠ 43.
Proof.
  intros Hc%strchr_in. assert (Forall (λ c, c ≠ 37 ∧ c ≠ 43) allowed) as Ha by (apply (bool_decide_unpack _); by vm_compute).
  by eapply Forall_forall in Ha.
Qed.

Lemma url_decode_char c r : 0 ≤ c < 256 → url_decode (urlify_char c ++ r) = c :: url_decode r.
Proof.
  intros Hc. unfold urlify_char. case_bool_decide as Ha.
  - apply allowed_plain in Ha as [? ?]. cbn [app url_decode].
    by rewrite (proj2 (Z.eqb_neq c 37)), (proj2 (Z.eqb_neq c 43)).
  - destruct (Z.eqb_spec c SPACE) as [->|]; [done|]. cbn [app url_decode]. rewrite Z.eqb_refl. f_equal.
    change 15 with (Z.ones 4). rewrite !Z.land_ones, Z.shiftr_div_pow2 by lia. rewrite !unhex_hex by (apply Z.mod_pos_bound; lia).
    change (2 ^ 4) with 16. div_mod_lia.
Qed.

Definition urlified (str : list Z) : list Z := str ≫= urlify_char.

Lemma urlified_cons c str : urlified (c :: str) = urlify_char c ++ urlified str.
Proof. done. Qed.

Lemma url_decode_urlify str : Forall (λ c, 0 ≤ c < 256) str → url_decode (urlified str) = str.
Proof.
  induction 1 as [|c str Hc _ IH]; [done|]. rewrite urlified_cons.
  by rewrite url_decode_char, IH.
Qed.

Lemma urlify_char_length c : 1 ≤ zlen (urlify_char c) ≤ 3.
Proof. unfold urlify_char. repeat case_match; cbn; lia. Qed.

Lemma urlify_char_no_nul c : c ≠ 0 → no_nul (urlify_char c).
Proof.
  intros Hc. unfold urlify_char. case_bool_decide; [by repeat constructor|].
  destruct (c =? SPACE); repeat constructor; try done; unfold hex_upper;
    change 15 with (Z.ones 4); rewrite Z.land_ones by lia;
    match goal with |- context [?x mod 2 ^ 4] => pose proof (Z.mod_pos_bound x (2 ^ 4)) end; case_match; lia.
Qed.

Lemma urlify_loop_run str : ∀ d dst, 0 ≤ d → d + 3 * zlen str ≤ zlen dst →
  ∃ dst', urlify_loop str d dst = Ok (d + zlen (urlified str), dst') ∧ zlen dst' = zlen dst ∧
    take (Z.to_nat (d + zlen (urlified str))) dst' = take (Z.to_nat d) dst ++ (urlified str).
Proof.
  induction str as [|c str IH]; intros d dst Hd Hl; cbn [urlify_loop].
  { exists dst. rewrite Z.add_0_r, app_nil_r. done. }
  rewrite length_cons in Hl. pose proof (urlify_char_length c).
  rewrite store_bytes_Ok by lia. cbn [mbind outcome_bind].
  destruct (IH (d + zlen (urlify_char c)) (splice d (urlify_char c) dst)) as (dst' & E & Hl' & Ht).
  { lia. } { rewrite splice_length by lia. lia. }
  rewrite urlified_cons.
  rewrite length_app, Nat2Z.inj_add, Z.add_assoc. exists dst'. split; [done|].
  split; [rewrite Hl', splice_length by lia; done|]. rewrite Ht, take_splice, <- app_assoc by lia. done.
Qed.

Lemma urlify_run {S} `{Allocator S} (uninit : Z → Z) (str : list Z) (s : S) :
  alloc_plenty s → Forall (λ c, 0 < c < 256) str →
  let u := urlified str in
  url_decode u = str ∧
  if bool_decide (Forall (λ c, zlen (urlify_char c) = 3) str)
  then urlify_string uninit (Some str) s = Bad OutOfBounds
  else ∃ dst, urlify_string uninit (Some str) s = Ok (Some dst, s) ∧ c_str dst = u.
Proof.
  intros Hp Hstr. cbn zeta. split.
  { apply url_decode_urlify. eapply Forall_impl; [exact Hstr|]. cbn. lia. }
  assert (no_nul (urlified str)) as Hn.
  { unfold urlified. apply no_nul_bind; [|apply urlify_char_no_nul]. eapply Forall_impl; [exact Hstr|]. cbn. lia. }
  assert (zlen (fresh_bytes uninit (zlen str * 3)) = zlen str * 3) as Hf.
  { unfold fresh_bytes. rewrite length_fmap, length_seqZ. lia. }
  destruct (urlify_loop_run str 0 (fresh_bytes uninit (zlen str * 3))) as (dst & E & Hl & Ht); [lia|lia|].
  unfold urlify_string. rewrite (bind_Ok _ _ _ _ _ (malloc_plenty s Hp)). cbn [negb]. rewrite E, bind_liftO.
  cbn [fst snd]. rewrite Z.add_0_l in *. cbn [Z.to_nat take app] in Ht.
  assert (zlen (urlified str) ≤ zlen str * 3 ∧
    (zlen (urlified str) = zlen str * 3 ↔ Forall (λ c, zlen (urlify_char c) = 3) str)) as [Hle Heq].
  { clear. induction str as [|c str [IH1 IH2]]; [split; [done|by split]|].
    rewrite urlified_cons.
    rewrite length_app, length_cons, Forall_cons, <- IH2. pose proof (urlify_char_length c). lia. }
  case_bool_decide as Hall.
  - apply bind_Bad. unfold put_char, store_bytes, liftO. rewrite bool_decide_false; [done|]. cbn [length].
    apply Heq in Hall. lia.
  - destruct (put_char_run (zlen (urlified str)) 0 dst) as (dst' & E' & _ & Ht').
    { assert (zlen (urlified str) ≠ zlen str * 3) by tauto. lia. }
    rewrite E', bind_liftO. exists dst'. split; [done|]. rewrite Ht in Ht'. by eapply c_str_take.
Qed.

(** [urlify_string] writes a text that a web server decodes to the string it
    was given, for every string, as long as the text is shorter than three times
    the string; when every character had to be escaped (and for the empty string)
    it fills the block to the last byte and the NUL goes behind it, whatever the
    comment "hacky, but safe" says. *)
Lemma urlify_roundtrip {S} `{Allocator S} (uninit : Z → Z) (str : list Z) (s : S) :
  alloc_plenty s → Forall (λ c, 0 < c < 256) str →
  let u := urlified str in
  url_decode u = str ∧
  if bool_decide (Forall (λ c, zlen (urlify_char c) = 3) str)
  then urlify_string uninit (Some str) s = Bad OutOfBounds
  else ∃ dst, urlify_string uninit (Some str) s = Ok (Some dst, s) ∧ c_str dst = u.
Proof. apply urlify_run. Qed.

Lemma urlify_roundtrip_witness :
  url_decode (bytes_of "50%25+tax") = bytes_of "50% tax" ∧
  ∃ dst, urlify_string id (Some (bytes_of "50% tax")) tt = Ok (Some dst, tt) ∧ c_str dst = bytes_of "50%25+tax".
Proof.
  apply (urlify_roundtrip id (bytes_of "50% tax") tt); [done|]. by repeat constructor.
Defined.
