(* ===== verification/WebParse.v ===== *)
(** The results of a search (src/add-ons/kernel/file_systems/websearchfs/
    parse_duckduckgo_html.c and [unentitify_string] of string_utils.c): the page
    the search engine answers is searched for links, whose addresses and titles
    become results.

    A pointer into a string is the rest of the string from there on, NULL is
    [None]; of two pointers into one string the one with the shorter rest is the
    greater.  Characters are bytes from 1 to 255. *)

From S2P Require Import Prelude Errors WebQuery.

Section Parse.
Context {W : Type} `{Allocator W} (uninit : Z → Z).

(** ** string_utils.c *)

Definition AMP : Z := 38.
Definition SEMICOLON : Z := 59.

Definition entities_tab : list (list Z * list Z) :=
  [(bytes_of "lt", [60]); (bytes_of "gt", [62]); (bytes_of "amp", [38]); (bytes_of "nbsp", [32]); (bytes_of "quot", [34]);
   (bytes_of "raquo", [194; 187]); (bytes_of "ccedil", [195; 167]); (bytes_of "agrave", [195; 160]);
   (bytes_of "egrave", [195; 168]); (bytes_of "eacute", [195; 169]); (bytes_of "acirc", [195; 162]);
   (bytes_of "ecirc", [195; 170]); (bytes_of "icirc", [195; 174]); (bytes_of "ocirc", [195; 180]);
   (bytes_of "ucirc", [195; 187]); (bytes_of "copy", [194; 169]); (bytes_of "trade", [226; 132; 162])].

Definition isdigit (c : Z) : bool := (48 <=? c) && (c <=? 57).
Definition tolower (c : Z) : Z := if (65 <=? c) && (c <=? 90) then c + 32 else c.

(** [strchr(hex, tolower(c)) - hex] for a character that is not NUL. *)
Definition hex_digit (c : Z) : option Z :=
  let c := tolower c in
  if isdigit c then Some (c - 48) else if (97 <=? c) && (c <=? 102) then Some (c - 97 + 10) else None.

(** [p[i]]; the conditions look at a character only when the ones before it are
    not the NUL. *)
Definition char_at (p : list Z) (i : nat) : Z := default 0 (p !! i).

(** What is written for the characters at [p], and how far [p] moves on besides
    [p++]; [true] for a text that is copied with its NUL. *)
Definition entity_step (p : list Z) : list Z * bool * nat :=
  let at_ i := char_at p i in
  let num := (at_ 1%nat =? 35) && negb (at_ 2%nat =? 0) && negb (at_ 3%nat =? 0) in
  let hexnum := (at_ 1%nat =? 35) && (at_ 2%nat =? 120) && negb (at_ 3%nat =? 0) && negb (at_ 4%nat =? 0) && (at_ 5%nat =? SEMICOLON) in
  if negb (at_ 0%nat =? AMP) then ([at_ 0%nat], false, 0%nat)
  else if num && (at_ 4%nat =? SEMICOLON) && isdigit (at_ 2%nat) && isdigit (at_ 3%nat) then
    ([u8 ((at_ 2%nat - 48) * 10 + (at_ 3%nat - 48))], false, 4%nat)
  else if num && negb (at_ 4%nat =? 0) && (at_ 5%nat =? SEMICOLON) && isdigit (at_ 2%nat) && isdigit (at_ 3%nat) && isdigit (at_ 4%nat) then
    ([u8 ((at_ 2%nat - 48) * 100 + (at_ 3%nat - 48) * 10 + (at_ 4%nat - 48))], false, 5%nat)
  else
    match (if hexnum then hex_digit (at_ 3%nat) else None), (if hexnum then hex_digit (at_ 4%nat) else None) with
    | Some x, Some y => ([u8 (Z.lor (Z.shiftl x 4) y)], false, 5%nat)
    | _, _ =>
        match strchr (take 19 (drop 1 p)) SEMICOLON with
        | None => ([AMP], false, 0%nat)
        | Some (name, _) =>
            match list_find (λ e, e.1 = name) entities_tab with
            | Some (_, (_, text)) => (text, true, (length name + 1)%nat)
            | None => ([AMP], false, 0%nat)
            end
        end
    end.

(** [for (p = str, d = dst; *p; p++)]; [skip] is what [p] still has to move. *)
Fixpoint unentitify_loop (skip : nat) (p : list Z) (d : Z) (dst : list Z) : outcome (Z * list Z) :=
  match p, skip with
  | [], _ => Ok (d, dst)
  | _ :: rest, S skip => unentitify_loop skip rest d dst
  | _ :: rest, O =>
      let '(text, nul, more) := entity_step p in
      dst ← store_bytes d (text ++ if nul : bool then [0] else []) dst;
      unentitify_loop more rest (d + zlen text) dst
  end.

Definition unentitify_string (str : option (list Z)) : M W (option (list Z)) :=
  match str with
  | None => mret None
  | Some str =>
      ok ← malloc;
      if negb ok then mret None
      else
        r ← liftO (unentitify_loop 0 str 0 (fresh_bytes uninit (zlen str + 2)));
        dst ← liftO (put_char r.1 0 r.2);
        mret (Some dst)
  end.

(** ** parse_duckduckgo_html.c *)

Definition GR_MAX_NAME : Z := 70.
Definition GR_MAX_URL : Z := 1024.

Record duckduckgo_result : Type := mkRes {
  gr_id : Z; gr_name : list Z; gr_url : list Z; gr_snipset : list Z; gr_cache_url : list Z; gr_similar_url : list Z
}.

Definition G_BEGIN_URL : list Z :=
  bytes_of "<a rel=" ++ [QUOTE] ++ bytes_of "nofollow" ++ [QUOTE] ++ bytes_of " class=" ++ [QUOTE] ++
  bytes_of "result__a" ++ [QUOTE] ++ bytes_of " href=" ++ [QUOTE].
Definition G_END_URL : list Z := [QUOTE] ++ bytes_of ">".
Definition G_END_NAME : list Z := bytes_of "</a>".
Definition G_BEGIN_CACHESIM : list Z := bytes_of " <a class=fl href=" ++ [QUOTE].
Definition G_END_CACHESIM : list Z := [QUOTE] ++ bytes_of ">".

(** [p - item - strlen(end)] characters of [item], at most [max]; [rest] is the
    string from the end on. *)
Definition item_upto (max : Z) (item rest : list Z) : list Z :=
  take (Z.to_nat (Z.min max (zlen item - zlen rest))) item.

(** [while ((tmp = strstr(q, tag))) strcpy(tmp, tmp + strlen(tag));] *)
Fixpoint strip_tag (fuel : nat) (tag q : list Z) : outcome (list Z) :=
  match strstr q tag with
  | None => Ok q
  | Some tmp =>
      match fuel with
      | O => Hang
      | S fuel => strip_tag fuel tag (take (length q - length tmp) q ++ drop (length tag) tmp)
      end
  end.

Definition strip_tags (q : list Z) : outcome (list Z) :=
  q ← strip_tag (length q) (bytes_of "<b>") q;
  q ← strip_tag (length q) (bytes_of "</b>") q;
  q ← strip_tag (length q) (bytes_of "<em>") q;
  strip_tag (length q) (bytes_of "</em>") q.

(** The title of a link; [None] when there is no memory. *)
Definition parse_name (item rest : list Z) : M W (option (list Z)) :=
  ok ← malloc;
  if negb ok then mret None
  else
    q ← liftO (strip_tags (item_upto (GR_MAX_NAME * 4 - 1) item rest));
    tmp ← unentitify_string (Some q);
    match tmp with
    | None => mret None
    | Some tmp => mret (Some (take (Z.to_nat (GR_MAX_NAME - 1)) (c_str tmp)))
    end.

Definition set_cache (u : list Z) (r : duckduckgo_result) : duckduckgo_result :=
  mkRes (gr_id r) (gr_name r) (gr_url r) (gr_snipset r) u (gr_similar_url r).
Definition set_similar (u : list Z) (r : duckduckgo_result) : duckduckgo_result :=
  mkRes (gr_id r) (gr_name r) (gr_url r) (gr_snipset r) (gr_cache_url r) u.

(** [for (i = 0; i < 2; i++)]: the links to the cache and to similar pages. *)
Fixpoint parse_cachesim (turns : nat) (p nextresult : option (list Z)) (r : duckduckgo_result)
    : option (list Z) * duckduckgo_result :=
  match turns, p with
  | O, _ | _, None => (p, r)
  | S turns, Some p0 =>
      match strstr p0 G_BEGIN_CACHESIM with
      | None => parse_cachesim turns p nextresult r
      | Some q =>
          if match nextresult with Some nx => (length q <? length nx)%nat | None => false end then
            parse_cachesim turns nextresult nextresult r
          else if match nextresult with Some nx => (length nx <? length q)%nat | None => true end then
            let item := drop (length G_BEGIN_CACHESIM) q in
            match strstr item G_END_CACHESIM with
            | None => (None, r)
            | Some e =>
                let p := drop (length G_END_CACHESIM) e in
                let url := item_upto (GR_MAX_URL - 1) item e in
                let r := if starts_with (bytes_of "Cached") p then set_cache url r
                         else if starts_with (bytes_of "Similar") p then set_similar url r else r in
                parse_cachesim turns (Some p) nextresult r
            end
          else parse_cachesim turns p nextresult r
      end
  end.

(** The loop, which only ends by [break]; [res] are the results so far, the last
    first.  The answer is the results or the error, and [*nextid]. *)
Fixpoint parse_loop (fuel : nat) (p nextresult : option (list Z)) (nextid : Z) (res : list duckduckgo_result)
    : M W ((Z + list duckduckgo_result) * Z) :=
  match fuel with
  | O => hangM
  | S fuel =>
      ok ← malloc;
      if negb ok then mret (inl ENOMEM, nextid)
      else
        let id := nextid in
        let nextid := s64 (nextid + 1) in
        match p ≫= λ p, match nextresult with Some nx => Some nx | None => strstr p G_BEGIN_URL end with
        | None => mret (inr (reverse res), nextid)
        | Some p =>
            let item := drop (length G_BEGIN_URL) p in
            let nextresult := strstr item G_BEGIN_URL in
            match strstr item G_END_URL with
            | None => mret (inr (reverse res), nextid)
            | Some e =>
                let url := item_upto (GR_MAX_URL - 1) item e in
                let item := drop (length G_END_URL) e in
                match strstr item G_END_NAME with
                | None => mret (inr (reverse res), nextid)
                | Some e =>
                    name ← parse_name item e;
                    match name with
                    | None => mret (inl ENOMEM, nextid)
                    | Some name =>
                        let '(p, r) := parse_cachesim 2 (Some (drop (length G_END_NAME) e)) nextresult
                                         (mkRes id name url [] [] []) in
                        parse_loop fuel p nextresult nextid (r :: res)
                    end
                end
            end
        end
  end.

(** The results and [*nextid].  [htmlsize] is not used: the page has to end with
    a NUL. *)
Definition duckduckgo_parse_results (html : option (list Z)) (nextid : Z) : M W ((Z + list duckduckgo_result) * Z) :=
  match html with
  | None => mret (inl EINVAL, nextid)
  | Some html =>
      if negb (starts_with (bytes_of "<!DOCTYPE html PUBLIC") html) then mret (inl EINVAL, nextid)
      else if negb (bool_decide (is_Some (strstr html (bytes_of "DuckDuckGo")))) then mret (inl EINVAL, nextid)
      else
        match strstr html (bytes_of "<body") with
        | None => mret (inl EINVAL, nextid)
        | Some p => parse_loop (S (length html)) (Some p) None nextid []
        end
  end.
End Parse.
