(* ===== verification/WebParseProofs.v ===== *)
(** What the parser of search results does: on any page it returns results that
    fit into their arrays, and a page that lists links gives back the links. *)

From S2P Require Import Prelude Errors WebQuery WebParse.

(** * Entities *)

(** The text with its entities replaced. *)
Fixpoint unentitied (skip : nat) (p : list Z) : list Z :=
  match p, skip with
  | [], _ => []
  | _ :: rest, S skip => unentitied skip rest
  | _ :: rest, O => let '(text, _, more) := entity_step p in text ++ unentitied more rest
  end.

Lemma c_str_prefix k t p : take k p = t ++ [0] → c_str p = c_str t.
Proof.
  intros E. rewrite <- (take_drop k p), E. clear E. induction t as [|c t IH]; cbn; [done|]. case_bool_decide; [done|]. by rewrite IH.
Qed.

Lemma char_at_lt p i : char_at p i ≠ 0 → (i < length p)%nat.
Proof. unfold char_at. destruct (p !! i) eqn:E; [|done]. intros _. by eapply lookup_lt_Some. Qed.

Lemma entities_short name text : (name, text) ∈ entities_tab → (length text ≤ 3)%nat ∧ text ≠ [] ∧ no_nul text ∧ (2 ≤ length name)%nat.
Proof.
  intros Hin. assert (Forall (λ e, (length e.2 ≤ 3)%nat ∧ e.2 ≠ [] ∧ no_nul e.2 ∧ (2 ≤ length e.1)%nat) entities_tab) as HF.
  { repeat (constructor; [cbn; split_and!; [lia|done|by repeat constructor|lia]|]). constructor. }
  rewrite Forall_forall in HF. by apply (HF (name, text)).
Qed.

Lemma strchr_Some s c pre post : strchr s c = Some (pre, post) → ∃ r, s = pre ++ c :: r ∧ post = c :: r.
Proof.
  revert pre. induction s as [|x s IH]; intros pre; cbn; [done|]. destruct (Z.eqb_spec x c) as [->|].
  - intros. simplify_eq. by exists s.
  - destruct (strchr s c) as [[pre' post']|] eqn:E; [|done]. intros. simplify_eq.
    destruct (IH pre' eq_refl) as (r & -> & ->). by exists r.
Qed.

Lemma entity_name_fits q name post i text :
  strchr (take 19 (drop 1 q)) SEMICOLON = Some (name, post) →
  list_find (λ e : list Z * list Z, e.1 = name) entities_tab = Some (i, text) →
  (length text.2 ≤ S (length name + 1))%nat ∧ (S (length name + 1) ≤ length q)%nat ∧ no_nul text.2.
Proof.
  intros (r & E & _)%strchr_Some Hf. apply list_find_Some in Hf as (Hl & <- & _). destruct text as [nm tx]. cbn [fst snd] in *.
  destruct (entities_short nm tx) as (? & ? & ? & ?); [by eapply list_elem_of_lookup_2|].
  apply (f_equal length) in E. rewrite length_take, length_drop, length_app, length_cons in E. split_and!; [lia|lia|done].
Qed.

(** An entity is not shorter than what it stands for, and ends inside the string. *)
Lemma entity_step_fits q text nul more :
  q ≠ [] → entity_step q = (text, nul, more) → (length text ≤ S more)%nat ∧ (S more ≤ length q)%nat.
Proof.
  intros Hq. assert (0 < length q)%nat by (destruct q; [done|cbn; lia]).
  assert (∀ i, (char_at q i =? SEMICOLON) = true → (i < length q)%nat) as Hsemi.
  { intros i E%Z.eqb_eq. apply char_at_lt. by rewrite E. }
  unfold entity_step. repeat case_match; intros E; injection E as <- <- <-; cbn [length]; try lia.
  all: repeat match goal with H : _ && _ = true |- _ => apply andb_true_iff in H as [? ?] end.
  all: try (match goal with H : (char_at _ _ =? SEMICOLON) = true |- _ => apply Hsemi in H end; lia).
  all: match goal with H1 : strchr _ _ = Some _, H2 : list_find _ _ = Some _ |- _ =>
         pose proof (entity_name_fits _ _ _ _ _ H1 H2) as (? & ? & _); cbn in *; lia end.
Qed.

Lemma take_splice_app d bs zs (l : list Z) : 0 ≤ d → d + zlen (bs ++ zs) ≤ zlen l →
  take (Z.to_nat (d + zlen bs)) (splice d (bs ++ zs) l) = take (Z.to_nat d) l ++ bs.
Proof.
  intros Hd Hl. rewrite length_app in Hl. unfold splice. rewrite app_assoc, app_assoc, <- app_assoc, take_app_length'; [done|].
  rewrite length_app, length_take. lia.
Qed.

(** The block has room for what is left of the string and two bytes. *)
Lemma unentitify_loop_run p : ∀ skip d dst,
  (skip ≤ length p)%nat → 0 ≤ d → d + (zlen p - Z.of_nat skip) + 2 ≤ zlen dst →
  ∃ dst', unentitify_loop skip p d dst = Ok (d + zlen (unentitied skip p), dst') ∧ zlen dst' = zlen dst ∧
    d + zlen (unentitied skip p) + 2 ≤ zlen dst ∧
    take (Z.to_nat (d + zlen (unentitied skip p))) dst' = take (Z.to_nat d) dst ++ unentitied skip p.
Proof.
  induction p as [|c p IH]; intros skip d dst Hs Hd Hl; cbn [unentitify_loop unentitied].
  - exists dst. rewrite Z.add_0_r, app_nil_r. cbn in *. split_and!; [done|done|lia|done].
  - destruct skip as [|skip]; [|apply IH; cbn [length] in *; lia].
    destruct (entity_step (c :: p)) as [[text nul] more] eqn:E.
    destruct (entity_step_fits (c :: p) text nul more ltac:(done) E) as [H1 H2]. cbn [length] in *.
    assert (zlen (text ++ if nul then [0] else []) ≤ zlen text + 1) as Hw.
    { rewrite length_app. destruct nul; cbn; lia. }
    rewrite store_bytes_Ok by lia. cbn [mbind outcome_bind].
    set (dst1 := splice d _ dst). assert (length dst1 = length dst) as El by (apply splice_length; lia).
    destruct (IH more (d + zlen text) dst1) as (dst' & E' & Hl' & Hr & Ht); [lia|lia|lia|].
    exists dst'. rewrite length_app, Nat2Z.inj_add, Z.add_assoc. split_and!; [done|lia|lia|].
    rewrite Ht, app_assoc. f_equal. apply take_splice_app; lia.
Qed.

Section Entities.
Context {W : Type} `{Allocator W} (uninit : Z → Z).

(** [unentitify_string] never leaves its block. *)
Lemma unentitify_run str s : alloc_plenty s →
  ∃ dst, unentitify_string uninit (Some str) s = Ok (Some dst, s) ∧ c_str dst = c_str (unentitied 0 str).
Proof.
  intros Hp. unfold unentitify_string. rewrite (bind_Ok _ _ _ _ _ (malloc_plenty s Hp)). cbn [negb].
  assert (zlen (fresh_bytes uninit (zlen str + 2)) = zlen str + 2) as Hf by (unfold fresh_bytes; rewrite length_fmap, length_seqZ; lia).
  destruct (unentitify_loop_run str 0 0 (fresh_bytes uninit (zlen str + 2))) as (dst & E & Hl & Hr & Ht); [lia|lia|lia|].
  rewrite E, bind_liftO. cbn [fst snd]. rewrite Z.add_0_l in *. cbn [Z.to_nat take app] in Ht.
  destruct (put_char_run (zlen (unentitied 0 str)) 0 dst) as (dst' & E' & _ & Ht'); [lia|].
  rewrite E', bind_liftO. exists dst'. split; [done|]. rewrite Ht in Ht'. apply c_str_prefix in Ht'. done.
Qed.
End Entities.

(** * Searching *)

Lemma strstr_suffix s t q : strstr s t = Some q → ∃ x r, s = x ++ q ∧ q = t ++ r.
Proof.
  revert q. induction s as [|c s IH]; intros q; cbn [strstr]; destruct (starts_with t _) eqn:E; intros Hq; simplify_eq.
  - apply starts_with_inv in E as [r ->]. by exists [], r.
  - apply starts_with_inv in E as [r E]. by exists [], r.
  - destruct (IH q Hq) as (x & r & -> & ->). by exists (c :: x), r.
Qed.

Lemma strstr_length s t q : strstr s t = Some q → (length t ≤ length q ≤ length s)%nat.
Proof. intros (x & r & -> & ->)%strstr_suffix. rewrite !length_app. lia. Qed.

Lemma strstr_None_app x s t : strstr (x ++ s) t = None → strstr s t = None.
Proof.
  induction x as [|c x IH]; [done|]. cbn [app strstr]. destruct (starts_with t _); [done|]. exact IH.
Qed.

(** A text that is not found in a string is not found in what a search in the
    string leads to. *)
Lemma strstr_None_drop s t u q k : strstr s t = None → strstr s u = Some q → strstr (drop k q) t = None.
Proof.
  intros Hn (x & r & E1 & E2)%strstr_suffix. apply (strstr_None_app (x ++ take k q)).
  by rewrite <- app_assoc, take_drop, <- E1.
Qed.

(** A character that does not occur cannot begin the text searched for. *)
Lemma strstr_skip c t x s : c ∉ x → strstr (x ++ s) (c :: t) = strstr s (c :: t).
Proof.
  induction x as [|y x IH]; intros Hc; [done|]. apply not_elem_of_cons in Hc as [Hy Hc]. cbn.
  rewrite (proj2 (Z.eqb_neq c y)) by done. cbn. by apply IH.
Qed.

Lemma strstr_skip_head c t x s : head t = Some c → c ∉ x → strstr (x ++ s) t = strstr s t.
Proof. destruct t as [|? t]; intros [= ->]. apply strstr_skip. Qed.

Lemma starts_with_cut t s y : starts_with t (s ++ y) = true → (length t ≤ length s)%nat → starts_with t s = true.
Proof.
  revert s. induction t as [|c t IH]; intros [|x s] H Hl; cbn in *; try done; [lia|].
  apply andb_true_iff in H as [-> H]. cbn. apply IH; [done|lia].
Qed.

Lemma starts_with_more t s y : starts_with t s = true → starts_with t (s ++ y) = true.
Proof. intros [r ->]%starts_with_inv. rewrite <- app_assoc. apply starts_with_app. Qed.

(** What is found in a string is found in a longer one. *)
Lemma strstr_more s t q y : strstr s t = Some q → strstr (s ++ y) t = Some (q ++ y).
Proof.
  induction s as [|c s IH]; cbn [strstr app].
  - destruct (starts_with t []) eqn:E; [|done]. intros [= <-]. apply starts_with_inv in E as [r E].
    destruct t; [|done]. by destruct y.
  - destruct (starts_with t (c :: s)) eqn:E.
    + intros [= <-]. by rewrite (starts_with_more t (c :: s) y E : starts_with t (c :: s ++ y) = true).
    + intros Hq. destruct (starts_with t (c :: s ++ y)) eqn:E2; [|by apply IH].
      apply (starts_with_cut t (c :: s) y) in E2; [congruence|]. apply strstr_length in Hq. cbn. lia.
Qed.

Lemma strstr_here t s : strstr (t ++ s) t = Some (t ++ s).
Proof. destruct (t ++ s) eqn:E; cbn; rewrite <- E, starts_with_app; done. Qed.

(** * Tags *)

(** Every tag found makes the string shorter. *)
Lemma strip_tag_ends fuel tag : tag ≠ [] → ∀ q, (length q ≤ fuel)%nat → ∃ q', strip_tag fuel tag q = Ok q'.
Proof.
  intros Ht. assert (0 < length tag)%nat by (destruct tag; [done|cbn; lia]).
  induction fuel as [|fuel IH]; intros q Hq; cbn [strip_tag]; destruct (strstr q tag) as [tmp|] eqn:E; eauto;
    apply strstr_length in E; [lia|]. apply IH. rewrite length_app, length_take, length_drop. lia.
Qed.

Lemma strip_tags_ends q : ∃ q', strip_tags q = Ok q'.
Proof.
  unfold strip_tags. destruct (strip_tag_ends (length q) (bytes_of "<b>") ltac:(done) q ltac:(done)) as [q1 ->]. cbn [mbind outcome_bind].
  destruct (strip_tag_ends (length q1) (bytes_of "</b>") ltac:(done) q1 ltac:(done)) as [q2 ->]. cbn [mbind outcome_bind].
  destruct (strip_tag_ends (length q2) (bytes_of "<em>") ltac:(done) q2 ltac:(done)) as [q3 ->]. cbn [mbind outcome_bind].
  by apply strip_tag_ends.
Qed.

(** * Any page *)

(** A result fits into its arrays. *)
Definition fits (r : duckduckgo_result) : Prop :=
  zlen (gr_name r) < GR_MAX_NAME ∧ zlen (gr_url r) < GR_MAX_URL ∧ gr_snipset r = [] ∧
  zlen (gr_cache_url r) < GR_MAX_URL ∧ zlen (gr_similar_url r) < GR_MAX_URL.

Lemma item_upto_length max item rest : 0 ≤ max → zlen (item_upto max item rest) ≤ max.
Proof. intros. unfold item_upto. rewrite length_take. lia. Qed.

(** The links to the cache: [p] stays NULL or inside the string. *)
Lemma parse_cachesim_run turns : ∀ p nx r p' r',
  parse_cachesim turns p nx r = (p', r') → fits r →
  fits r' ∧ gr_id r' = gr_id r ∧
  ∀ t, (∀ q, nx = Some q → strstr q t = None) → (∀ q, p = Some q → strstr q t = None) → ∀ q, p' = Some q → strstr q t = None.
Proof.
  induction turns as [|turns IH]; intros p nx r p' r' E Hr; cbn [parse_cachesim] in E; [simplify_eq; auto|].
  destruct p as [p0|]; [|simplify_eq; auto].
  destruct (strstr p0 G_BEGIN_CACHESIM) as [q|] eqn:Eq; [|by eapply IH].
  destruct (match nx with Some _ => _ | None => false end); 
    [destruct (IH _ _ _ _ _ E Hr) as (? & ? & Hs); split_and!; [done|done|intros t Hnx _; by apply (Hs t Hnx)]|].
  destruct (match nx with Some _ => _ | None => true end); [|by eapply IH].
  destruct (strstr _ G_END_CACHESIM) as [e|] eqn:Ee; [|by simplify_eq].
  set (r1 := if starts_with (bytes_of "Cached") _ then _ else _) in E.
  assert (fits r1 ∧ gr_id r1 = gr_id r) as [Hr1 Hid].
  { pose proof (item_upto_length (GR_MAX_URL - 1) (drop (length G_BEGIN_CACHESIM) q) e ltac:(done)) as Hl.
    destruct Hr as (? & ? & ? & ? & ?). unfold r1, fits, GR_MAX_URL in *. repeat case_match;
      cbn [gr_name gr_url gr_snipset gr_cache_url gr_similar_url gr_id set_cache set_similar]; split_and!; (done || lia). }
  destruct (IH _ _ _ _ _ E Hr1) as (? & ? & Hs). split_and!; [done|congruence|].
  intros t Hnx Hp q' Hq'. apply (Hs t Hnx); [|done]. intros ? [= <-].
  eapply strstr_None_drop; [|exact Ee]. eapply strstr_None_drop; [|exact Eq]. by apply Hp.
Qed.

Section Safe.
Context {W : Type} `{Allocator W} (uninit : Z → Z).

Lemma parse_name_run item rest s : alloc_plenty s →
  ∃ name, parse_name uninit item rest s = Ok (Some name, s) ∧ zlen name < GR_MAX_NAME.
Proof.
  intros Hp. unfold parse_name. rewrite (bind_Ok _ _ _ _ _ (malloc_plenty s Hp)). cbn [negb].
  destruct (strip_tags_ends (item_upto (GR_MAX_NAME * 4 - 1) item rest)) as [q ->]. rewrite bind_liftO.
  destruct (unentitify_run uninit q s Hp) as (dst & E & _). rewrite (bind_Ok _ _ _ _ _ E).
  eexists. split; [reflexivity|]. rewrite length_take. unfold GR_MAX_NAME. lia.
Qed.

(** Where the next turn begins. *)
Definition next_start (p nx : option (list Z)) : option (list Z) :=
  p ≫= λ p, match nx with Some nx => Some nx | None => strstr p G_BEGIN_URL end.

Lemma parse_loop_ends fuel : ∀ p nx nextid res s,
  alloc_plenty s → (∀ q, next_start p nx = Some q → (length q < fuel)%nat) → (0 < fuel)%nat →
  (∀ q, nx = Some q → (length q < fuel)%nat) → Forall fits res →
  ∃ rs nextid', parse_loop uninit fuel p nx nextid res s = Ok ((inr rs, nextid'), s) ∧ Forall fits rs.
Proof.
  induction fuel as [|fuel IH]; intros p nx nextid res s Hp Hstart Hf Hnx Hres; [lia|]. cbn [parse_loop].
  rewrite (bind_Ok _ _ _ _ _ (malloc_plenty s Hp)). cbn [negb].
  assert (∃ rs nextid', Ok ((inr (reverse res) : Z + list duckduckgo_result, s64 (nextid + 1)), s) = Ok ((inr rs, nextid'), s) ∧ Forall fits rs) as Hbreak.
  { eexists _, _. split; [reflexivity|]. by apply Forall_reverse. }
  fold (next_start p nx). destruct (next_start p nx) as [p1|] eqn:E1; [|done].
  pose proof (Hstart p1 eq_refl) as Hlen. set (item := drop (length G_BEGIN_URL) p1).
  destruct (strstr item G_END_URL) as [e|] eqn:E2; [|done].
  destruct (strstr _ G_END_NAME) as [e2|] eqn:E3; [|done].
  destruct (parse_name_run (drop (length G_END_URL) e) e2 s Hp) as (name & En & Hname). rewrite (bind_Ok _ _ _ _ _ En).
  destruct (parse_cachesim 2 _ _ _) as [p4 r] eqn:E4. apply parse_cachesim_run in E4 as (Hr & _ & Hsub).
  2:{ pose proof (item_upto_length (GR_MAX_URL - 1) item e ltac:(done)). unfold fits, GR_MAX_URL in *.
      cbn [gr_name gr_url gr_snipset gr_cache_url gr_similar_url]. split_and!; (done || lia). }
  assert (1 ≤ length item ∧ length item < length p1)%nat as [Hi1 Hi2].
  { apply strstr_length in E2. change (length G_END_URL) with 2%nat in E2. subst item. rewrite length_drop in *.
    assert (0 < length G_BEGIN_URL)%nat by (vm_compute; lia). lia. }
  assert (∀ q, strstr item G_BEGIN_URL = Some q → (length q < fuel)%nat) as Hnext.
  { intros q Hq%strstr_length. lia. }
  apply IH; [done| |lia|done|by constructor].
  intros q. unfold next_start. destruct (strstr item G_BEGIN_URL) as [q0|] eqn:E5.
  - destruct p4; [|done]. intros [= <-]. by apply Hnext.
  - destruct p4 as [p4|]; [|done]. cbn [mbind option_bind]. intros Hq. exfalso.
    assert (strstr p4 G_BEGIN_URL = None) as E; [|congruence]. eapply Hsub; [done| |done]. intros ? [= <-].
    eapply strstr_None_drop; [|exact E3]. by eapply strstr_None_drop.
Qed.

(** C17. Whatever page the server sends, [duckduckgo_parse_results] returns - its
    loop, which has no end condition, runs out of links, and taking the tags
    out of a title comes to an end - without writing outside of a block, and
    every name and address fits into its array. *)
Theorem parse_results_safe html nextid s :
  alloc_plenty s →
  ∃ r nextid', duckduckgo_parse_results uninit html nextid s = Ok ((r, nextid'), s) ∧
    match r with inl e => e = EINVAL | inr rs => Forall fits rs end.
Proof.
  intros Hp. unfold duckduckgo_parse_results. destruct html as [html|]; [|by eexists _, _].
  destruct (negb _); [by eexists _, _|]. destruct (negb _); [by eexists _, _|].
  destruct (strstr html (bytes_of "<body")) as [p|] eqn:E; [|by eexists _, _].
  destruct (parse_loop_ends (S (length html)) (Some p) None nextid [] s Hp) as (rs & n & E' & Hrs); [|lia|done|constructor|by exists (inr rs), n].
  intros q. unfold next_start. cbn [mbind option_bind]. intros Hq%strstr_length. apply strstr_length in E. lia.
Qed.
End Safe.

(** * A page of links *)

Definition LT : Z := 60.

(** A character as a page writes it. *)
Definition html_char (c : Z) : list Z :=
  if c =? AMP then bytes_of "&amp;" else if c =? LT then bytes_of "&lt;" else if c =? 62 then bytes_of "&gt;"
  else if c =? QUOTE then bytes_of "&quot;" else [c].

Lemma unentitied_char c rest : c ≠ 0 → unentitied 0 (html_char c ++ rest) = c :: unentitied 0 rest.
Proof.
  intros Hc. unfold html_char. destruct (Z.eqb_spec c AMP) as [->|Ha]; [reflexivity|].
  destruct (Z.eqb_spec c LT) as [->|]; [reflexivity|]. destruct (Z.eqb_spec c 62) as [->|]; [reflexivity|].
  destruct (Z.eqb_spec c QUOTE) as [->|]; [reflexivity|]. cbn [app unentitied]. unfold entity_step.
  change (char_at (c :: rest) 0) with c. rewrite (proj2 (Z.eqb_neq c AMP)) by done. done.
Qed.

Lemma unentitied_html t : no_nul t → unentitied 0 (t ≫= html_char) = t.
Proof.
  induction 1 as [|c t Hc Ht IH]; [done|]. change ((c :: t) ≫= html_char) with (html_char c ++ (t ≫= html_char)).
  by rewrite unentitied_char, IH.
Qed.

Lemma html_no_lt t : LT ∉ t ≫= html_char.
Proof.
  rewrite list_elem_of_bind. intros (c & Hc & _). unfold html_char in Hc.
  repeat case_match; vm_compute in Hc; set_solver.
Qed.

(** A title: stretches of text, some of them in bold face. *)
Definition title : Type := list (bool * list Z).
Definition plain (t : title) : list Z := t ≫= snd.
Definition title_html (t : title) : list Z :=
  t ≫= λ p, if p.1 : bool then bytes_of "<b>" ++ (p.2 ≫= html_char) ++ bytes_of "</b>" else p.2 ≫= html_char.

Lemma title_html_cons b x t : title_html ((b, x) :: t) =
  (if b : bool then bytes_of "<b>" ++ (x ≫= html_char) ++ bytes_of "</b>" else x ≫= html_char) ++ title_html t.
Proof. done. Qed.

(** Characters in front that no match can begin with stay. *)
Lemma strip_tag_skip tag x : (∀ y, strstr (x ++ y) tag = strstr y tag) → ∀ fuel q,
  strip_tag fuel tag (x ++ q) = (q' ← strip_tag fuel tag q; Ok (x ++ q')).
Proof.
  intros Hx fuel. induction fuel as [|fuel IH]; intros q; cbn [strip_tag]; rewrite Hx; destruct (strstr q tag) as [tmp|] eqn:E; try done.
  rewrite <- IH. f_equal. apply strstr_suffix in E as (y & r & -> & ->). rewrite app_assoc.
  rewrite !take_app_length' by (rewrite ?length_app; lia). by rewrite app_assoc.
Qed.

Lemma strip_tag_here fuel tag q : strip_tag (S fuel) tag (tag ++ q) = strip_tag fuel tag q.
Proof. cbn [strip_tag]. rewrite strstr_here, Nat.sub_diag, drop_app_length. done. Qed.

(** The title without the first kind of tag. *)
Definition title_closed (t : title) : list Z :=
  t ≫= λ p, (p.2 ≫= html_char) ++ if p.1 : bool then bytes_of "</b>" else [].

Lemma strip_open t : ∀ fuel, (length t ≤ fuel)%nat → strip_tag fuel (bytes_of "<b>") (title_html t) = Ok (title_closed t).
Proof.
  induction t as [|[b x] t IH]; intros fuel Hf; [by destruct fuel|]. cbn [length] in Hf. destruct fuel as [|fuel]; [lia|].
  assert (∀ y, strstr ((x ≫= html_char) ++ y) (bytes_of "<b>") = strstr y (bytes_of "<b>")) as Hx.
  { intros y. apply strstr_skip, html_no_lt. }
  rewrite title_html_cons. change (title_closed ((b, x) :: t)) with (((x ≫= html_char) ++ if b then bytes_of "</b>" else []) ++ title_closed t).
  destruct b.
  - rewrite <- app_assoc, strip_tag_here, <- app_assoc, strip_tag_skip by done.
    rewrite (strip_tag_skip _ (bytes_of "</b>")) by done. rewrite IH by lia. cbn [mbind outcome_bind]. by rewrite app_assoc.
  - rewrite strip_tag_skip by done. rewrite IH by lia. cbn [mbind outcome_bind]. by rewrite app_nil_r.
Qed.

Lemma strip_close t : ∀ fuel, (length t ≤ fuel)%nat → strip_tag fuel (bytes_of "</b>") (title_closed t) = Ok (plain t ≫= html_char).
Proof.
  induction t as [|[b x] t IH]; intros fuel Hf; [by destruct fuel|]. cbn [length] in Hf. destruct fuel as [|fuel]; [lia|].
  assert (∀ y, strstr ((x ≫= html_char) ++ y) (bytes_of "</b>") = strstr y (bytes_of "</b>")) as Hx.
  { intros y. apply strstr_skip, html_no_lt. }
  change (plain ((b, x) :: t)) with (x ++ plain t). rewrite bind_app.
  change (title_closed ((b, x) :: t)) with (((x ≫= html_char) ++ if b then bytes_of "</b>" else []) ++ title_closed t).
  rewrite <- app_assoc, strip_tag_skip by done. destruct b.
  - by rewrite strip_tag_here, IH by lia.
  - change ([] ++ title_closed t) with (title_closed t). by rewrite IH by lia.
Qed.

(** A string without "<" has no tags. *)
Lemma strip_none fuel tag q : LT ∉ q → strip_tag fuel (LT :: tag) q = Ok q.
Proof. intros Hq. assert (strstr q (LT :: tag) = None) as E; [|destruct fuel; cbn [strip_tag]; by rewrite E].
  rewrite <- (app_nil_r q), strstr_skip; done. Qed.

(** A link of the page and what comes after it. *)
Record link : Type := mkLink { lk_url : list Z; lk_title : title; lk_after : list Z }.

Definition link_html (l : link) : list Z :=
  G_BEGIN_URL ++ lk_url l ++ G_END_URL ++ title_html (lk_title l) ++ G_END_NAME ++ lk_after l.
Definition links_html (ls : list link) : list Z := ls ≫= link_html.

Record link_ok (l : link) : Prop := {
  lo_quote : QUOTE ∉ lk_url l; lo_lt : LT ∉ lk_url l; lo_url : zlen (lk_url l) < GR_MAX_URL;
  lo_title : Forall (λ p, no_nul p.2) (lk_title l); lo_short : zlen (title_html (lk_title l)) < GR_MAX_NAME * 4;
  lo_filled : Forall (λ p, p.2 ≠ []) (lk_title l);
  lo_after : strstr (lk_after l) G_BEGIN_URL = None
}.

(** The results the links stand for, numbered from [id] on. *)
Fixpoint results_of (id : Z) (ls : list link) : list duckduckgo_result :=
  match ls with
  | [] => []
  | l :: ls => mkRes id (take 69 (plain (lk_title l))) (lk_url l) [] [] [] :: results_of (id + 1) ls
  end.

(** A text that begins with a character it does not contain again is found where
    it is put, unless it was there before. *)
Lemma strstr_put c t x y : c ∉ t → strstr x (c :: t) = None → strstr (x ++ (c :: t) ++ y) (c :: t) = Some ((c :: t) ++ y).
Proof.
  intros Hc. induction x as [|z x IH]; intros Hx; [apply (strstr_here (c :: t))|].
  cbn [strstr] in Hx. destruct (starts_with (c :: t) (z :: x)) eqn:E; [done|].
  change ((z :: x) ++ (c :: t) ++ y) with (z :: (x ++ (c :: t) ++ y)). cbn [strstr].
  destruct (starts_with (c :: t) (z :: x ++ (c :: t) ++ y)) eqn:E2; [|by apply IH]. exfalso.
  destruct (decide (length (c :: t) ≤ length (z :: x))%nat) as [Hl|Hl].
  - apply (starts_with_cut _ (z :: x)) in E2; [congruence|done].
  - apply starts_with_inv in E2 as [r E2]. cbn in E2. injection E2 as _ E2. cbn [length] in Hl.
    assert (t !! length x = Some c) as Hin.
    { apply (f_equal (lookup (length x))) in E2. rewrite (lookup_app_r x) in E2 by lia. rewrite Nat.sub_diag in E2.
      rewrite lookup_app_l in E2 by lia. done. }
    apply Hc. by eapply list_elem_of_lookup_2.
Qed.

Lemma strstr_title_end t y : strstr (title_html t ++ G_END_NAME ++ y) G_END_NAME = Some (G_END_NAME ++ y).
Proof.
  induction t as [|[b x] t IH]; [apply (strstr_here G_END_NAME)|]. rewrite title_html_cons. destruct b; rewrite <- !app_assoc.
  - change (strstr ((x ≫= html_char) ++ bytes_of "</b>" ++ title_html t ++ G_END_NAME ++ y) G_END_NAME = Some (G_END_NAME ++ y)).
    rewrite (strstr_skip_head LT) by (done || apply html_no_lt). exact IH.
  - rewrite (strstr_skip_head LT) by (done || apply html_no_lt). exact IH.
Qed.

Lemma strstr_title_begin t y : strstr (title_html t ++ G_END_NAME ++ y) G_BEGIN_URL = strstr y G_BEGIN_URL.
Proof.
  induction t as [|[b x] t IH]; [done|]. rewrite title_html_cons. destruct b; rewrite <- !app_assoc.
  - change (strstr ((x ≫= html_char) ++ bytes_of "</b>" ++ title_html t ++ G_END_NAME ++ y) G_BEGIN_URL = strstr y G_BEGIN_URL).
    rewrite (strstr_skip_head LT) by (done || apply html_no_lt). exact IH.
  - rewrite (strstr_skip_head LT) by (done || apply html_no_lt). exact IH.
Qed.

(** Where the first of the links begins. *)
Definition first_link (ls : list link) : option (list Z) :=
  match ls with [] => None | _ => Some (links_html ls) end.

Lemma strstr_links x ls : strstr x G_BEGIN_URL = None → strstr (x ++ links_html ls) G_BEGIN_URL = first_link ls.
Proof.
  intros Hx. destruct ls as [|l ls]; [by rewrite app_nil_r|].
  change (links_html (l :: ls)) with ((G_BEGIN_URL ++ lk_url l ++ G_END_URL ++ title_html (lk_title l) ++ G_END_NAME ++ lk_after l) ++ links_html ls).
  rewrite <- app_assoc. apply (strstr_put LT); [|done]. by apply (bool_decide_unpack _); vm_compute.
Qed.

Lemma html_length x : (length x ≤ length (x ≫= html_char))%nat.
Proof.
  induction x as [|c x IH]; [done|]. change ((c :: x) ≫= html_char) with (html_char c ++ (x ≫= html_char)).
  rewrite length_app. cbn [length]. assert (1 ≤ length (html_char c))%nat; [|lia]. unfold html_char. repeat case_match; cbn; lia.
Qed.

Lemma title_length t : Forall (λ p, p.2 ≠ []) t → (length t ≤ length (title_html t) ∧ length t ≤ length (title_closed t))%nat.
Proof.
  induction 1 as [|[b x] t Hx Ht [IH1 IH2]]; [done|]. rewrite title_html_cons.
  change (title_closed ((b, x) :: t)) with (((x ≫= html_char) ++ if b then bytes_of "</b>" else []) ++ title_closed t).
  pose proof (html_length x). assert (1 ≤ length x)%nat by (destruct x; [done|cbn; lia]).
  rewrite !length_app. cbn [length]. destruct b; rewrite ?length_app; lia.
Qed.

Lemma strip_title t : Forall (λ p, p.2 ≠ []) t → strip_tags (title_html t) = Ok (plain t ≫= html_char).
Proof.
  intros [H1 H2]%title_length. unfold strip_tags. rewrite strip_open by done. cbn [mbind outcome_bind].
  rewrite strip_close by done. cbn [mbind outcome_bind].
  change (bytes_of "<em>") with (LT :: bytes_of "em>"). rewrite strip_none by apply html_no_lt. cbn [mbind outcome_bind].
  change (bytes_of "</em>") with (LT :: bytes_of "/em>"). by rewrite strip_none by apply html_no_lt.
Qed.

Lemma item_upto_app max x y : zlen x ≤ max → item_upto max (x ++ y) y = x.
Proof. intros Hx. unfold item_upto. rewrite take_app_length'; [done|]. rewrite length_app. lia. Qed.

Section Page.
Context {W : Type} `{Allocator W} (uninit : Z → Z).

Lemma parse_name_title l y s : alloc_plenty s → link_ok l →
  parse_name uninit (title_html (lk_title l) ++ y) y s = Ok (Some (take 69 (plain (lk_title l))), s).
Proof.
  intros Hp Hl. unfold parse_name. rewrite (bind_Ok _ _ _ _ _ (malloc_plenty s Hp)). cbn [negb].
  rewrite item_upto_app by (pose proof (lo_short _ Hl); lia). rewrite strip_title by apply Hl. rewrite bind_liftO.
  destruct (unentitify_run uninit (plain (lk_title l) ≫= html_char) s Hp) as (dst & E & Ed). rewrite (bind_Ok _ _ _ _ _ E).
  assert (no_nul (plain (lk_title l))) as Hn.
  { pose proof (lo_title _ Hl) as Ht. unfold plain, no_nul. apply Forall_bind. exact Ht. }
  rewrite Ed, unentitied_html by done. rewrite <- (app_nil_r (plain _)) at 1.
  assert (c_str (plain (lk_title l)) = plain (lk_title l)) as E2; [|by rewrite app_nil_r, E2].
  clear -Hn. induction Hn as [|c t Hc Ht IH]; [done|]. cbn. by rewrite bool_decide_false, IH.
Qed.

(** One link, and what the parser sees behind it. *)
Lemma parse_loop_links ls : ∀ fuel p nx nextid res s,
  alloc_plenty s → Forall link_ok ls → next_start p nx = first_link ls →
  strstr (links_html ls) G_BEGIN_CACHESIM = None → (length ls < fuel)%nat → 0 ≤ nextid → nextid + zlen ls < 2 ^ 63 - 1 →
  parse_loop uninit fuel p nx nextid res s = Ok ((inr (reverse res ++ results_of nextid ls), nextid + zlen ls + 1), s).
Proof.
  induction ls as [|l ls IH]; intros fuel p nx nextid res s Hp Hls Hstart Hcs Hf H0 Hmax;
    (destruct fuel as [|fuel]; [cbn in Hf; lia|]); cbn [parse_loop length] in *;
    rewrite (bind_Ok _ _ _ _ _ (malloc_plenty s Hp)); cbn [negb]; fold (next_start p nx); rewrite Hstart;
    unfold s64; rewrite swrap_id by lia.
  { cbn [first_link results_of]. by rewrite app_nil_r, Z.add_0_r. }
  apply Forall_cons in Hls as [Hl Hls]. cbn [first_link].
  change (links_html (l :: ls)) with ((G_BEGIN_URL ++ lk_url l ++ G_END_URL ++ title_html (lk_title l) ++ G_END_NAME ++ lk_after l) ++ links_html ls) in *.
  rewrite <- !app_assoc in *. rewrite drop_app_length.
  set (after := lk_after l ++ links_html ls) in *.
  assert (strstr after G_BEGIN_URL = first_link ls) as Hafter by (apply strstr_links, Hl).
  assert (strstr (lk_url l ++ G_END_URL ++ title_html (lk_title l) ++ G_END_NAME ++ after) G_BEGIN_URL = first_link ls) as ->.
  { rewrite (strstr_skip_head LT) by (done || apply Hl). rewrite (strstr_skip_head LT G_BEGIN_URL G_END_URL) by (done || by apply (bool_decide_unpack _); vm_compute).
    by rewrite strstr_title_begin. }
  assert (strstr (lk_url l ++ G_END_URL ++ title_html (lk_title l) ++ G_END_NAME ++ after) G_END_URL =
    Some (G_END_URL ++ title_html (lk_title l) ++ G_END_NAME ++ after)) as ->.
  { rewrite (strstr_skip_head QUOTE) by (done || apply Hl). apply (strstr_here G_END_URL). }
  rewrite drop_app_length, strstr_title_end. rewrite (bind_Ok _ _ _ _ _ (parse_name_title l _ s Hp Hl)).
  rewrite item_upto_app by (pose proof (lo_url _ Hl); lia). rewrite drop_app_length.
  assert (strstr after G_BEGIN_CACHESIM = None) as Hac.
  { apply (strstr_None_app (G_BEGIN_URL ++ lk_url l ++ G_END_URL ++ title_html (lk_title l) ++ G_END_NAME)). by rewrite <- !app_assoc. }
  cbn [parse_cachesim]. rewrite Hac. rewrite IH; [|done|done| |by apply (strstr_None_app (lk_after l))|lia|lia|lia].
  - rewrite reverse_cons, <- app_assoc. cbn [results_of app]. do 3 f_equal. lia.
  - unfold next_start. cbn [mbind option_bind]. destruct (first_link ls) as [q|] eqn:E; [done|]. by rewrite <- Hafter.
Qed.

Lemma parse_results_run front body ls nextid s :
  alloc_plenty s → starts_with (bytes_of "<!DOCTYPE html PUBLIC") front = true →
  is_Some (strstr front (bytes_of "DuckDuckGo")) → strstr front (bytes_of "<body") = Some body →
  strstr front G_BEGIN_URL = None → strstr (front ++ links_html ls) G_BEGIN_CACHESIM = None → Forall link_ok ls →
  0 ≤ nextid → nextid + zlen ls < 2 ^ 63 - 1 →
  duckduckgo_parse_results uninit (Some (front ++ links_html ls)) nextid s =
    Ok ((inr (results_of nextid ls), nextid + zlen ls + 1), s).
Proof.
  intros Hp Hdoc Hddg Hbody Hbegin Hcs Hls H0 Hmax. unfold duckduckgo_parse_results.
  rewrite (starts_with_more _ _ _ Hdoc). destruct Hddg as [d Hd]. rewrite (strstr_more _ _ _ _ Hd), (strstr_more _ _ _ _ Hbody). cbn [negb].
  rewrite bool_decide_true by (by eexists). cbn [negb]. rewrite (parse_loop_links ls); [done|done|done| |by eapply strstr_None_app| |done|done].
  - unfold next_start. cbn [mbind option_bind]. apply strstr_links. apply strstr_suffix in Hbody as (x & r & -> & _).
    by apply (strstr_None_app x).
  - rewrite length_app. assert (length ls ≤ length (links_html ls))%nat; [|lia]. clear. induction ls as [|l ls IH]; [done|].
    change (links_html (l :: ls)) with (link_html l ++ links_html ls). rewrite length_app. cbn [length].
    unfold link_html. rewrite length_app. assert (1 ≤ length G_BEGIN_URL)%nat by (vm_compute; lia). lia.
Qed.

(** C18. The parser reads what the page says: on a page of links with titles - in
    which characters may be written as entities and words in bold face - it finds
    every link, in order and numbered, with its address and the first 69
    characters of its title. *)
Theorem parse_results_roundtrip front body ls nextid s :
  alloc_plenty s → starts_with (bytes_of "<!DOCTYPE html PUBLIC") front = true →
  is_Some (strstr front (bytes_of "DuckDuckGo")) → strstr front (bytes_of "<body") = Some body →
  strstr front G_BEGIN_URL = None → strstr (front ++ links_html ls) G_BEGIN_CACHESIM = None → Forall link_ok ls →
  0 ≤ nextid → nextid + zlen ls < 2 ^ 63 - 1 →
  duckduckgo_parse_results uninit (Some (front ++ links_html ls)) nextid s =
    Ok ((inr (results_of nextid ls), nextid + zlen ls + 1), s).
Proof. apply parse_results_run. Qed.
End Page.

(** A page with two links. *)
Definition sample_front : list Z := bytes_of "<!DOCTYPE html PUBLIC><title>DuckDuckGo</title><body>".
Definition sample_links : list link :=
  [mkLink (bytes_of "https://www.haiku-os.org/") [(true, bytes_of "Haiku"); (false, bytes_of " & friends")] (bytes_of "<br>");
   mkLink (bytes_of "https://example.org/?a=b") [(false, bytes_of "<Example>")] (bytes_of "</body>")].

#[local] Instance no_nul_dec l : Decision (no_nul l) := ltac:(unfold no_nul; apply _).

Lemma sample_links_ok : Forall link_ok sample_links.
Proof.
  apply Forall_cons; split; [|apply Forall_cons; split; [|by apply Forall_nil]];
    (split; apply (bool_decide_unpack _); vm_compute; exact I).
Qed.

Lemma parse_results_roundtrip_witness :
  duckduckgo_parse_results id (Some (sample_front ++ links_html sample_links)) 0 tt =
    Ok ((inr [mkRes 0 (bytes_of "Haiku & friends") (bytes_of "https://www.haiku-os.org/") [] [] [];
              mkRes 1 (bytes_of "<Example>") (bytes_of "https://example.org/?a=b") [] [] []], 3), tt).
Proof.
  apply (parse_results_roundtrip id sample_front (bytes_of "<body>") sample_links 0 tt);
    [done|done|by eexists|done|done|done|exact sample_links_ok|done|done].
Defined.

Lemma parse_results_safe_witness :
  ∃ r n, duckduckgo_parse_results id (Some (bytes_of "<!DOCTYPE html PUBLIC DuckDuckGo <body <a rel=")) 0 tt = Ok ((r, n), tt) ∧
    match r with inl e => e = EINVAL | inr rs => Forall fits rs end.
Proof. apply (parse_results_safe id). done. Defined.
