(* ===== verification/WebFs.v ===== *)
(** The file system websearchfs (src/add-ons/kernel/file_systems/websearchfs/
    websearchfs.c): the volume, its tree of nodes and the hooks that work on it.

    Nodes and cookies live in heaps, with the links of the four singly linked
    lists of lists2.c in them: all nodes of the volume ([nlnext]), the nodes of
    queries ([qnext]), the entries of a folder ([next]) and the cookies opened on
    a node.  A freed node is not in the heap: using it is [Bad UseAfterFree].
    The hooks run one at a time; a lock that is not free blocks for ever and is
    [Hang].

    The VFS, the node monitor and the clock are the class [WebKernel], which is
    asked for its answers; hooks it calls in turn run by themselves. *)

From S2P Require Import Prelude Errors LinkedList SList VnidPool WebQuery WebParse.

Definition WEBSEARCHFS_NAME_LEN : Z := 70.
Definition MAX_VNIDS : Z := 5000.

Record attr_entry : Type := mkAttr { at_name : list Z; at_type : Z; at_size : Z; at_value : list Z }.

(** A request belongs to the node of its query, a result to the node that shows
    it; both are freed with the node.  [cnx] says whether there is a connection;
    the query string is NULL when [strdup] had no memory. *)
Record duckduckgo_request : Type := mkReq { rq_query_string : option (list Z); rq_cnx : bool; rq_nextid : Z }.

(** [deleted] and [hidden] are never set.  The ten slots [attrs] are the list
    of those in use, a static table [attrs_indirect] the list of its entries. *)
Record web_node : Type := mkWn {
  wn_nlnext : option Z; wn_qnext : option Z; wn_next : option Z;
  wn_parent : option Z; wn_children : option Z;
  wn_opened : option Z;
  wn_name : list Z;
  wn_vnid : Z;
  wn_l : bool;                       (* the lock is held *)
  wn_is_perm : bool; wn_qcompleted : bool;
  wn_st : stat;
  wn_request : option duckduckgo_request; wn_result : option duckduckgo_result;
  wn_attrs_indirect : list attr_entry; wn_attrs : list attr_entry;
  wn_data : option (list Z); wn_data_size : Z
}.

(** The attribute a cookie points to: an entry of a table, or of the node. *)
Inductive attr_ref : Type := TableAttr (a : attr_entry) | NodeAttr (node : Z) (i : nat).

Record web_cookie : Type := mkWc {
  wc_next : option Z; wc_node : option Z; wc_dir_current : Z; wc_omode : Z; wc_type : Z;
  wc_attr : option attr_ref
}.

(** The volume, the heaps and the static [refcount]. *)
Record web_ns (W : Type) : Type := mkNs {
  nsid : Z; rootid : Z;
  vnids : option vnidpool;
  root : option Z; nodes : option Z; queries : option Z;
  nodecount : Z;
  ns_l : bool;
  heap : gmap Z web_node;
  cookies : gmap Z web_cookie;
  next_addr : Z; next_cookie : Z;
  refcount : Z;
  world : W
}.
Arguments mkNs {W}. Arguments nsid {W}. Arguments rootid {W}. Arguments vnids {W}. Arguments root {W}.
Arguments nodes {W}. Arguments queries {W}. Arguments nodecount {W}. Arguments ns_l {W}. Arguments heap {W}.
Arguments cookies {W}. Arguments next_addr {W}. Arguments next_cookie {W}. Arguments refcount {W}. Arguments world {W}.

Section Setters.
Context {W : Type}.
Implicit Types (s : web_ns W).
Definition upd_volume i r v s := mkNs i r v (root s) (nodes s) (queries s) (nodecount s) (ns_l s)
  (heap s) (cookies s) (next_addr s) (next_cookie s) (refcount s) (world s).
Definition upd_lists r n q s := mkNs (nsid s) (rootid s) (vnids s) r n q (nodecount s) (ns_l s)
  (heap s) (cookies s) (next_addr s) (next_cookie s) (refcount s) (world s).
Definition upd_count c s := mkNs (nsid s) (rootid s) (vnids s) (root s) (nodes s) (queries s) c (ns_l s)
  (heap s) (cookies s) (next_addr s) (next_cookie s) (refcount s) (world s).
Definition upd_lock l s := mkNs (nsid s) (rootid s) (vnids s) (root s) (nodes s) (queries s) (nodecount s) l
  (heap s) (cookies s) (next_addr s) (next_cookie s) (refcount s) (world s).
Definition upd_heap h a s := mkNs (nsid s) (rootid s) (vnids s) (root s) (nodes s) (queries s) (nodecount s) (ns_l s)
  h (cookies s) a (next_cookie s) (refcount s) (world s).
Definition upd_cookies c a s := mkNs (nsid s) (rootid s) (vnids s) (root s) (nodes s) (queries s) (nodecount s) (ns_l s)
  (heap s) c (next_addr s) a (refcount s) (world s).
Definition upd_refs r s := mkNs (nsid s) (rootid s) (vnids s) (root s) (nodes s) (queries s) (nodecount s) (ns_l s)
  (heap s) (cookies s) (next_addr s) (next_cookie s) r (world s).
Definition upd_world (w : W) s := mkNs (nsid s) (rootid s) (vnids s) (root s) (nodes s) (queries s) (nodecount s) (ns_l s)
  (heap s) (cookies s) (next_addr s) (next_cookie s) (refcount s) w.
End Setters.

(** Fields of nodes. *)
Definition set_links nl q n x := mkWn nl q n (wn_parent x) (wn_children x) (wn_opened x) (wn_name x) (wn_vnid x)
  (wn_l x) (wn_is_perm x) (wn_qcompleted x) (wn_st x) (wn_request x) (wn_result x) (wn_attrs_indirect x)
  (wn_attrs x) (wn_data x) (wn_data_size x).
Definition set_family p c x := mkWn (wn_nlnext x) (wn_qnext x) (wn_next x) p c (wn_opened x) (wn_name x)
  (wn_vnid x) (wn_l x) (wn_is_perm x) (wn_qcompleted x) (wn_st x) (wn_request x) (wn_result x)
  (wn_attrs_indirect x) (wn_attrs x) (wn_data x) (wn_data_size x).
Definition set_opened o x := mkWn (wn_nlnext x) (wn_qnext x) (wn_next x) (wn_parent x) (wn_children x) o
  (wn_name x) (wn_vnid x) (wn_l x) (wn_is_perm x) (wn_qcompleted x) (wn_st x) (wn_request x) (wn_result x)
  (wn_attrs_indirect x) (wn_attrs x) (wn_data x) (wn_data_size x).
Definition set_l l x := mkWn (wn_nlnext x) (wn_qnext x) (wn_next x) (wn_parent x) (wn_children x) (wn_opened x)
  (wn_name x) (wn_vnid x) l (wn_is_perm x) (wn_qcompleted x) (wn_st x) (wn_request x) (wn_result x)
  (wn_attrs_indirect x) (wn_attrs x) (wn_data x) (wn_data_size x).
Definition set_marks p q x := mkWn (wn_nlnext x) (wn_qnext x) (wn_next x) (wn_parent x) (wn_children x)
  (wn_opened x) (wn_name x) (wn_vnid x) (wn_l x) p q (wn_st x) (wn_request x) (wn_result x)
  (wn_attrs_indirect x) (wn_attrs x) (wn_data x) (wn_data_size x).
Definition set_st st x := mkWn (wn_nlnext x) (wn_qnext x) (wn_next x) (wn_parent x) (wn_children x)
  (wn_opened x) (wn_name x) (wn_vnid x) (wn_l x) (wn_is_perm x) (wn_qcompleted x) st (wn_request x)
  (wn_result x) (wn_attrs_indirect x) (wn_attrs x) (wn_data x) (wn_data_size x).
Definition set_search r e x := mkWn (wn_nlnext x) (wn_qnext x) (wn_next x) (wn_parent x) (wn_children x)
  (wn_opened x) (wn_name x) (wn_vnid x) (wn_l x) (wn_is_perm x) (wn_qcompleted x) (wn_st x) r e
  (wn_attrs_indirect x) (wn_attrs x) (wn_data x) (wn_data_size x).
Definition set_attrs i a x := mkWn (wn_nlnext x) (wn_qnext x) (wn_next x) (wn_parent x) (wn_children x)
  (wn_opened x) (wn_name x) (wn_vnid x) (wn_l x) (wn_is_perm x) (wn_qcompleted x) (wn_st x) (wn_request x)
  (wn_result x) i a (wn_data x) (wn_data_size x).
Definition set_content d z x := mkWn (wn_nlnext x) (wn_qnext x) (wn_next x) (wn_parent x) (wn_children x)
  (wn_opened x) (wn_name x) (wn_vnid x) (wn_l x) (wn_is_perm x) (wn_qcompleted x) (wn_st x) (wn_request x)
  (wn_result x) (wn_attrs_indirect x) (wn_attrs x) d z.

(** The [next] fields of the lists. *)
#[local] Program Instance nl_link : LNode web_node :=
  {| nxt := wn_nlnext; set_nxt := λ o x, set_links o (wn_qnext x) (wn_next x) x |}.
Next Obligation. done. Qed.
Program Definition q_link : LNode web_node :=
  {| nxt := wn_qnext; set_nxt := λ o x, set_links (wn_nlnext x) o (wn_next x) x |}.
Next Obligation. done. Qed.
Program Definition dir_link : LNode web_node :=
  {| nxt := wn_next; set_nxt := λ o x, set_links (wn_nlnext x) (wn_qnext x) o x |}.
Next Obligation. done. Qed.
#[local] Program Instance cookie_link : LNode web_cookie :=
  {| nxt := wc_next; set_nxt := λ o c, mkWc o (wc_node c) (wc_dir_current c) (wc_omode c) (wc_type c) (wc_attr c) |}.
Next Obligation. done. Qed.

Inductive web_note : Type :=
  | NoteEntryCreated (dir : Z) (name : list Z) (vnid : Z)
  | NoteEntryRemoved (dir : Z) (name : list Z) (vnid : Z)
  | NoteStatChanged (dev dir node fields : Z)
  | NoteAttrChanged (dir vnid : Z) (name : list Z) (cause : Z).

(** Kernel calls answer a status; the counters of vnodes are the kernel's. *)
Class WebKernel (W : Type) := {
  wk_time : W → Z * W;
  wk_get_vnode : Z → W → Z * W;
  wk_put_vnode : Z → W → Z * W;
  wk_remove_vnode : Z → W → Z * W;
  wk_publish_vnode : Z → Z → Z → W → Z * W;        (* id, node, type *)
  wk_notify : web_note → W → W
}.

Section Hooks.
Context {W : Type} `{Allocator W} `{WebKernel W}.
(** The tables of attrs.c. *)
Context (root_folder_attrs folders_attrs template_1_attrs text_attrs mailto_me_bookmark_attrs : list attr_entry)
  (readmestr : list Z).
Abbreviation MW := (M (web_ns W)).

(** ** Primitives *)

Definition call_world {A} (f : W → A * W) : MW A := λ s, let '(a, w) := f (world s) in Ok (a, upd_world w s).

(** [malloc] *)
Definition alloc : MW bool := call_world alloc_next.

Definition get (a : Z) : MW web_node := λ s,
  match heap s !! a with Some n => Ok (n, s) | None => Bad UseAfterFree end.
Definition put (a : Z) (n : web_node) : MW unit := modifyS (λ s, upd_heap (<[a := n]> (heap s)) (next_addr s) s).
Definition change (a : Z) (f : web_node → web_node) : MW unit := n ← get a; put a (f n).

Definition get_cookie (c : Z) : MW web_cookie := λ s,
  match cookies s !! c with Some k => Ok (k, s) | None => Bad UseAfterFree end.
Definition put_cookie (c : Z) (k : web_cookie) : MW unit :=
  modifyS (λ s, upd_cookies (<[c := k]> (cookies s)) (next_cookie s) s).

(** A block of its own for a node or a cookie. *)
Definition new_node (n : web_node) : MW Z := λ s,
  Ok (next_addr s, upd_heap (<[next_addr s := n]> (heap s)) (next_addr s + 1) s).
Definition new_cookie (k : web_cookie) : MW Z := λ s,
  Ok (next_cookie s, upd_cookies (<[next_cookie s := k]> (cookies s)) (next_cookie s + 1) s).

Definition LOCK (a : Z) : MW Z := n ← get a; if wn_l n then hangM else put a (set_l true n);; mret B_OK.
Definition UNLOCK (a : Z) : MW unit := change a (set_l false).
Definition LOCK_ns : MW Z := s ← getS; if ns_l s then hangM else modifyS (upd_lock true);; mret B_OK.
Definition UNLOCK_ns : MW unit := modifyS (upd_lock false).

(** A list operation on the cells that hold the heads of the lists. *)
Definition list_op (N : Type) : Type := gmap Z N → option (option Z) → outcome (Z * gmap Z N * option (option Z)).

Definition on_nodes (f : list_op web_node) : MW Z :=
  s ← getS;
  '(e, h, first) ← liftO (f (heap s) (Some (nodes s)));
  modifyS (upd_heap h (next_addr s));;
  modifyS (upd_lists (root s) (default None first) (queries s));;
  mret e.
Definition on_queries (f : list_op web_node) : MW Z :=
  s ← getS;
  '(e, h, first) ← liftO (f (heap s) (Some (queries s)));
  modifyS (upd_heap h (next_addr s));;
  modifyS (upd_lists (root s) (nodes s) (default None first));;
  mret e.
Definition on_children (dir : Z) (f : list_op web_node) : MW Z :=
  d ← get dir;
  s ← getS;
  '(e, h, first) ← liftO (f (heap s) (Some (wn_children d)));
  modifyS (upd_heap h (next_addr s));;
  change dir (λ d, set_family (wn_parent d) (default None first) d);;
  mret e.
Definition on_opened (node : Z) (f : list_op web_cookie) : MW Z :=
  n ← get node;
  s ← getS;
  '(e, cs, first) ← liftO (f (cookies s) (Some (wn_opened n)));
  modifyS (upd_cookies cs (next_cookie s));;
  change node (set_opened (default None first));;
  mret e.

(** [strncmp]: the difference of the first characters that differ. *)
Fixpoint strncmp (s t : list Z) (n : nat) : Z :=
  match n with
  | O => 0
  | S n =>
      match s, t with
      | [], [] => 0
      | x :: s, y :: t => if x =? y then strncmp s t n else x - y
      | x :: _, [] => x
      | [], y :: _ => - y
      end
  end.

(** The comparisons of [sll_find]; on a node that is gone the search goes on and
    faults. *)
Definition compare_fs_node_by_vnid (h : gmap Z web_node) (id a : Z) : Z :=
  match h !! a with Some n => if wn_vnid n =? id then 0 else 1 | None => 1 end.
Definition compare_fs_node_by_name (h : gmap Z web_node) (name : list Z) (a : Z) : Z :=
  match h !! a with Some n => strncmp (wn_name n) name (Z.to_nat WEBSEARCHFS_NAME_LEN) | None => 1 end.

Definition find_child (dir : Z) (name : list Z) : MW (option Z) :=
  d ← get dir;
  s ← getS;
  liftO (@sll_find _ dir_link (heap s) (wn_children d) (compare_fs_node_by_name (heap s) name)).

Definition vnid_of (o : option Z) (dflt : Z) : MW Z :=
  match o with Some p => n ← get p; mret (wn_vnid n) | None => mret dflt end.

(** ** Nodes *)

Definition fill_default_stat (dev vnid mode tm : Z) : stat :=
  mkStat dev vnid mode 1 0 0 0 0 1024 tm tm tm tm 0.

(** [st_nlink++] *)
Definition inc_nlink (st : stat) : stat :=
  mkStat (st_dev st) (st_ino st) (st_mode st) (s32 (st_nlink st + 1)) (st_uid st) (st_gid st) (st_size st)
    (st_rdev st) (st_blksize st) (st_atime st) (st_mtime st) (st_ctime st) (st_crtime st) (st_blocks st).

Definition websearchfs_free_vnode (node : Z) : MW Z :=
  n ← get node;
  modifyS (λ s, upd_count (s32 (nodecount s - 1)) s);;
  s ← getS;
  '(_, p) ← liftO (vnidpool_put B_OK (vnids s) (wn_vnid n));
  modifyS (upd_volume (nsid s) (rootid s) p);;
  modifyS (λ s, upd_heap (delete node (heap s)) (next_addr s) s);;
  mret 0.

Definition websearchfs_remove_vnode (node : Z) (reenter : bool) : MW Z :=
  (if reenter then mret B_OK else LOCK_ns);;
  on_nodes (λ h first, sll_remove h first (Some node));;
  err ← on_queries (λ h first, @sll_remove _ q_link h first (Some node));
  n ← get node;
  match wn_parent n with
  | Some parent =>
      LOCK parent;;
      on_children parent (λ h first, @sll_remove _ dir_link h first (Some node));;
      UNLOCK parent
  | None => mret tt
  end;;
  websearchfs_free_vnode node;;
  (if reenter then mret tt else UNLOCK_ns);;
  mret err.

(** The private node and its type. *)
Definition websearchfs_read_vnode (vnid : Z) (reenter : bool) : MW (Z + Z * Z) :=
  (if reenter then mret B_OK else LOCK_ns);;
  s ← getS;
  n ← liftO (sll_find (heap s) (nodes s) (compare_fs_node_by_vnid (heap s) vnid));
  r ← match n with
      | Some a => n ← get a; mret (inr (a, Z.land (st_mode (wn_st n)) (u32 (Z.lnot S_IUMSK))))
      | None => mret (inl ENOENT)
      end;
  (if reenter then mret tt else UNLOCK_ns);;
  mret r.

Definition websearchfs_release_vnode : MW Z := mret B_OK.

(** [strlcpy(buffer, node->name, MIN(WEBSEARCHFS_NAME_LEN, len))]: the string in
    the buffer; nothing is written when there is no room. *)
Definition websearchfs_get_vnode_name (node len : Z) : MW (option (list Z)) :=
  n ← get node;
  let room := Z.min WEBSEARCHFS_NAME_LEN len in
  mret (if room <=? 0 then None else Some (take (Z.to_nat (room - 1)) (wn_name n))).

Definition DOT : list Z := [46].
Definition DOTDOT : list Z := [46; 46].

Definition websearchfs_walk (base : Z) (file : option (list Z)) : MW (Z + Z) :=
  LOCK base;;
  b ← get base;
  r ← match file with
      | None => mret (inl EINVAL)
      | Some file =>
          if bool_decide (file = DOTDOT) then
            match wn_parent b with Some p => v ← vnid_of (Some p) 0; mret (inr v) | None => mret (inl EINVAL) end
          else if bool_decide (file = DOT) then mret (inr (wn_vnid b))
          else
            n ← find_child base file;
            match n with Some a => v ← vnid_of (Some a) 0; mret (inr v) | None => mret (inl ENOENT) end
      end;
  r ← match r with
      | inr v => e ← call_world (wk_get_vnode v); mret (if e =? B_OK then inr v else inl EINVAL)
      | inl e => mret (inl e)
      end;
  UNLOCK base;;
  mret r.

(** ** Directories *)

(** The part [opendir], [open] and the attribute hooks share: a cookie at the
    head of the node's list. *)
Definition open_cookie (node : Z) (k : web_cookie) : MW (Z + Z) :=
  LOCK node;;
  ok ← alloc;
  r ← (if ok : bool then
         c ← new_cookie k;
         e ← on_opened node (λ cs first, sll_insert_head cs first (Some c));
         mret (if e =? B_OK then inr c else inl e)
       else mret (inl B_NO_MEMORY));
  UNLOCK node;;
  mret r.

Definition websearchfs_opendir (node : Z) : MW (Z + Z) :=
  n ← get node;
  if negb (S_ISDIR (st_mode (wn_st n))) then mret (inl B_NOT_A_DIRECTORY)
  else open_cookie node (mkWc None (Some node) 0 O_RDONLY S_IFDIR None).

(** [closedir], [close] and their kin take the cookie off the list. *)
Definition drop_cookie (node cookie : Z) : MW Z :=
  LOCK node;;
  e ← on_opened node (λ cs first, sll_remove cs first (Some cookie));
  UNLOCK node;;
  mret e.

Definition free_cookie (cookie : Z) : MW unit :=
  get_cookie cookie;;
  modifyS (λ s, upd_cookies (delete cookie (cookies s)) (next_cookie s) s).

Definition websearchfs_closedir (node cookie : Z) : MW Z := drop_cookie node cookie;; mret B_OK.

Definition websearchfs_free_dircookie (node cookie : Z) : MW Z :=
  drop_cookie node cookie;; free_cookie cookie;; mret B_OK.

Definition set_current (c i : Z) : MW unit :=
  k ← get_cookie c; put_cookie c (mkWc (wc_next k) (wc_node k) i (wc_omode k) (wc_type k) (wc_attr k)).

Definition websearchfs_rewinddir (cookie : Z) : MW Z := set_current cookie 0;; mret B_OK.

(** [for (n = node->children; n && index; n = n->next, index--);] *)
Fixpoint nth_child (fuel : nat) (n : option Z) (index : Z) : MW (option Z) :=
  match n with
  | None => mret None
  | Some a =>
      if index =? 0 then mret (Some a)
      else
        match fuel with
        | O => hangM
        | S fuel => x ← get a; nth_child fuel (wn_next x) (s32 (index - 1))
        end
  end.

Definition SIZEOF_DIRENT : Z := 32.

(** The entry written to [buf]; its name is followed by a NUL. *)
Definition mk_entry (dev ino pino : Z) (name : list Z) : dirent :=
  mkDirent dev dev ino pino (u16 (DIRENT_NAME + zlen name + 1)) name.

(** [None] is [*num = 0], the end of the directory. *)
Definition websearchfs_readdir (node cookie bufsize num : Z) : MW (Z + option dirent) :=
  if (num =? 0) || (bufsize <? SIZEOF_DIRENT + WEBSEARCHFS_NAME_LEN) then mret (inl EINVAL)
  else
    LOCK node;;
    n ← get node;
    k ← get_cookie cookie;
    s ← getS;
    r ← (if wc_dir_current k =? 0 then
           ino ← vnid_of (wn_parent n) (rootid s);
           grand ← match wn_parent n with Some p => p ← get p; mret (wn_parent p) | None => mret None end;
           pino ← vnid_of grand (rootid s);
           set_current cookie (s32 (wc_dir_current k + 1));;
           mret (Some (mk_entry (nsid s) ino pino DOTDOT))
         else if wc_dir_current k =? 1 then
           pino ← vnid_of (wn_parent n) (rootid s);
           set_current cookie (s32 (wc_dir_current k + 1));;
           mret (Some (mk_entry (nsid s) (wn_vnid n) pino DOT))
         else
           c ← nth_child (walk_fuel (heap s)) (wn_children n) (s32 (wc_dir_current k - 2));
           match c with
           | Some a =>
               x ← get a;
               set_current cookie (s32 (wc_dir_current k + 1));;
               mret (Some (mk_entry (nsid s) (wn_vnid x) (wn_vnid n) (wn_name x)))
           | None => mret None
           end);
    UNLOCK node;;
    mret (inr r).

(** ** Files *)

Definition node_stat (dev : Z) (n : web_node) : stat :=
  let st := wn_st n in
  mkStat dev (wn_vnid n) (st_mode st) (st_nlink st) (st_uid st) (st_gid st)
    (if wn_data_size n =? 0 then st_size st else wn_data_size n) (st_rdev st) (st_blksize st)
    (st_atime st) (st_mtime st) (st_ctime st) (st_crtime st) (st_blocks st).

Definition websearchfs_rstat (node : Z) : MW (Z + stat) :=
  LOCK node;;
  n ← get node;
  s ← getS;
  let r := node_stat (nsid s) n in
  UNLOCK node;;
  mret (inr r).

(** B_FS_IS_PERSISTENT, B_FS_HAS_MIME, B_FS_HAS_ATTR and B_FS_HAS_QUERY *)
Definition WEB_FS_FLAGS : Z := Z.lor 0x4 (Z.lor 0x10000 (Z.lor 0x20000 0x40000)).

(** "Web Search", "websearchfs"; [device_name] is empty. *)
Definition websearchfs_rfsstat : MW fs_info :=
  s ← getS;
  mret (mkInfo (nsid s) (rootid s) WEB_FS_FLAGS 1024 1024 0 0 MAX_VNIDS (nodecount s)
          [87; 101; 98; 32; 83; 101; 97; 114; 99; 104] [119; 101; 98; 115; 101; 97; 114; 99; 104; 102; 115]).

Definition websearchfs_open (node omode : Z) : MW (Z + Z) :=
  get node;;
  open_cookie node (mkWc None (Some node) 0 omode S_IFREG None).

Definition websearchfs_close (node cookie : Z) : MW Z := drop_cookie node cookie;; mret B_OK.

(** The status is that of [SLL_REMOVE]. *)
Definition websearchfs_free_cookie (node cookie : Z) : MW Z :=
  e ← drop_cookie node cookie;
  free_cookie cookie;;
  mret e.

(** The bytes and the status. *)
Definition websearchfs_read (node pos len : Z) : MW (Z * list Z) :=
  n ← get node;
  let err := if (pos <? 0) || (wn_data_size n <? u64 pos) then EFPOS else B_OK in
  match wn_data n with
  | Some data =>
      if negb (err =? B_OK) || (wn_data_size n =? 0) then mret (err, [])
      else
        bs ← liftO (load_bytes pos (Z.min len (u64 (wn_data_size n - pos))) data);
        mret (B_OK, bs)
  | None => mret (err, [])
  end.

Definition websearchfs_write : MW (Z * Z) := mret (ENOSYS, 0).
Definition websearchfs_wstat : MW Z := mret ENOSYS.
Definition websearchfs_wfsstat : MW Z := mret ENOSYS.
Definition websearchfs_access : MW Z := mret B_OK.
Definition websearchfs_create : MW Z := mret ENOSYS.

(** ** Creating and removing *)

(** [sprintf("%05d")] for a number below 100000. *)
Definition five_digits (i : Z) : list Z :=
  (λ d, 48 + i / d mod 10) <$> [10000; 1000; 100; 10; 1].

(** The name tried for the [i]-th time. *)
Definition unique_name (name : list Z) (i : Z) : list Z := take 56 name ++ 32 :: five_digits i.

(** [for (i = 1; uniq && n && i < 5000; i++)]: the name and the entry that has
    it, if any. *)
Fixpoint uniquify (fuel : nat) (dir : Z) (name newname : list Z) (n : option Z) (i : Z) : MW (list Z * option Z) :=
  match fuel, n with
  | S fuel, Some _ =>
      let newname := unique_name name i in
      n ← find_child dir newname;
      uniquify fuel dir name newname n (i + 1)
  | _, _ => mret (newname, n)
  end.

(** The node that is entered under a free name; both list operations succeed. *)
Definition create_node (dir : Z) (name : list Z) (perms : Z) (iattrs : list attr_entry) (mkdir : bool) : MW (Z + Z) :=
  ok ← alloc;
  if negb ok then mret (inl ENOMEM)
  else
    s ← getS;
    '(err, vnid, p) ← liftO (vnidpool_get B_OK (vnids s));
    modifyS (upd_volume (nsid s) (rootid s) p);;
    if err <? B_OK then mret (inl err)
    else
      modifyS (λ s, upd_count (s32 (nodecount s + 1)) s);;
      tm ← call_world wk_time;
      let st := fill_default_stat (nsid s) vnid
                  (Z.lor (Z.land perms (u32 (Z.lnot S_IFMT))) (if mkdir then S_IFDIR else S_IFREG)) tm in
      n ← new_node (mkWn None None None None None None name vnid false false false st None None [] [] None 0);
      LOCK_ns;;
      on_nodes (λ h first, sll_insert_head h first (Some n));;
      on_children dir (λ h first, @sll_insert_head _ dir_link h first (Some n));;
      change n (λ x, set_family (Some dir) (wn_children x) x);;
      change dir (λ d, set_st (inc_nlink (wn_st d)) d);;
      UNLOCK_ns;;
      change n (λ x, set_attrs iattrs (wn_attrs x) x);;
      d ← get dir;
      modifyS (λ s, upd_world (wk_notify (NoteEntryCreated (wn_vnid d) name vnid) (world s)) s);;
      modifyS (λ s, upd_world (wk_notify (NoteStatChanged 4 (-1) (nsid s) (-1)) (world s)) s);;
      mret (inr n).

Definition websearchfs_create_gen (dir : Z) (name : list Z) (omode perms : Z) (iattrs : list attr_entry)
    (mkdir uniq : bool) : MW (Z + Z) :=
  if WEBSEARCHFS_NAME_LEN - 1 <? zlen name then mret (inl ENAMETOOLONG)
  else
    LOCK dir;;
    d ← get dir;
    r ← (if negb (S_ISDIR (st_mode (wn_st d))) then mret (inl ENOTDIR)
         else
           n ← find_child dir name;
           if bool_decide (is_Some n) && has_flag omode O_EXCL && negb uniq then mret (inl EEXIST)
           else
             '(newname, n) ← (if uniq then uniquify 4999 dir name name n 1 else mret (name, n));
             match n with
             | Some a => if uniq || mkdir then mret (inl EEXIST) else mret (inr a)
             | None => create_node dir newname perms iattrs mkdir
             end);
    UNLOCK dir;;
    mret r.

Definition websearchfs_mkdir (dir : Z) (name : list Z) (perms : Z) : MW Z :=
  r ← websearchfs_create_gen dir name O_EXCL perms folders_attrs true false;
  mret match r with inl e => e | inr _ => B_OK end.

Definition websearchfs_unlink_gen (dir : Z) (name : list Z) : MW Z :=
  LOCK dir;;
  o ← find_child dir name;
  s ← getS;
  err ← match o with
        | None => mret ENOENT
        | Some a =>
            n ← get a;
            if bool_decide (is_Some (wn_children n)) then mret ENOTEMPTY
            else if wn_is_perm n then mret EROFS
            else if wn_vnid n =? rootid s then mret EACCES
            else
              on_children dir (λ h first, @sll_remove _ dir_link h first (Some a));;
              d ← get dir;
              modifyS (λ s, upd_world (wk_notify (NoteEntryRemoved (wn_vnid d) name (wn_vnid n)) (world s)) s);;
              call_world (wk_remove_vnode (wn_vnid n));;
              mret B_OK
        end;
  UNLOCK dir;;
  mret err.

Definition websearchfs_unlink (dir : Z) (name : list Z) : MW Z := websearchfs_unlink_gen dir name.
Definition websearchfs_rmdir (dir : Z) (name : list Z) : MW Z := get dir;; websearchfs_unlink dir name.

(** [while (1)]: the status of the entries is ignored. *)
Fixpoint websearchfs_unlink_node_rec (fuel : nat) (node : Z) : MW Z :=
  match fuel with
  | O => hangM
  | S fuel =>
      LOCK node;;
      (fix loop (turns : nat) : MW unit :=
         n ← get node;
         match wn_children n with
         | None => mret tt
         | Some a =>
             match turns with
             | O => hangM
             | S turns =>
                 UNLOCK node;;
                 websearchfs_unlink_node_rec fuel a;;
                 LOCK node;;
                 loop turns
             end
         end) fuel;;
      UNLOCK node;;
      n ← get node;
      match wn_parent n with
      | Some parent => websearchfs_unlink_gen parent (wn_name n)
      | None => failM NullDeref
      end
  end.

(** ** Mounting *)

(** "Search the Web", "README", "Author" *)
Definition name_search : list Z := [83; 101; 97; 114; 99; 104; 32; 116; 104; 101; 32; 87; 101; 98].
Definition name_readme : list Z := [82; 69; 65; 68; 77; 69].
Definition name_author : list Z := [65; 117; 116; 104; 111; 114].

Definition websearchfs_publish_static_entries : MW Z :=
  s ← getS;
  match root s with
  | None => mret EINVAL
  | Some dir =>
      r ← websearchfs_create_gen dir name_search 0 0x124 template_1_attrs false true;
      match r with
      | inl e => mret e
      | inr n =>
          change n (λ x, set_marks true (wn_qcompleted x) x);;
          r ← websearchfs_create_gen dir name_readme 0 0x124 text_attrs false true;
          match r with
          | inl e => mret e
          | inr n =>
              change n (λ x, set_marks true (wn_qcompleted x) x);;
              change n (set_content (Some readmestr) (zlen readmestr));;
              r ← websearchfs_create_gen dir name_author 0 0x124 mailto_me_bookmark_attrs false true;
              match r with
              | inl e => mret e
              | inr n => change n (λ x, set_marks true (wn_qcompleted x) x);; mret B_OK
              end
          end
      end
  end.

(** The id of the root node.  The settings it loads are of no consequence here. *)
Definition websearchfs_mount (id : Z) : MW (Z + Z) :=
  s ← getS;
  modifyS (upd_refs (s32 (refcount s + 1)));;
  if negb (refcount s =? 0) then mret (inl EALREADY)
  else
    ok ← alloc;
    if negb ok then mret (inl B_NO_MEMORY)
    else
      modifyS (upd_volume id 0 None);; modifyS (upd_lists None None None);; modifyS (upd_count 0);;
      ok ← alloc;
      let '(err, pool) := vnidpool_alloc true ok MAX_VNIDS in
      if err <? 0 then mret (inl err)
      else
        '(err, rootid, pool) ← liftO (vnidpool_get B_OK pool);
        modifyS (upd_volume id rootid pool);;
        if err <? 0 then mret (inl err)
        else
          modifyS (upd_count 1);; modifyS (upd_lock false);;
          ok ← alloc;
          if negb ok then modifyS (λ s, upd_refs (s32 (refcount s - 1)) s);; mret (inl B_NO_MEMORY)
          else
            tm ← call_world wk_time;
            root ← new_node (mkWn None None None None None None DOT rootid false true false
                               (fill_default_stat id rootid (Z.lor 0x1ff S_IFDIR) tm) None None
                               root_folder_attrs [] None 0);
            modifyS (upd_lists (Some root) (Some root) None);;
            err ← call_world (wk_publish_vnode rootid root S_IFDIR);
            if err =? B_OK then websearchfs_publish_static_entries;; mret (inr rootid)
            else
              modifyS (λ s, upd_heap (delete root (heap s)) (next_addr s) s);;
              modifyS (λ s, upd_refs (s32 (refcount s - 1)) s);;
              mret (inl err).

(** [for (node = ns->nodes; node; node = ns->nodes)] *)
Fixpoint free_all (fuel : nat) : MW unit :=
  s ← getS;
  match nodes s with
  | None => mret tt
  | Some a =>
      match fuel with
      | O => hangM
      | S fuel =>
          n ← get a;
          modifyS (upd_lists (root s) (wn_nlnext n) (queries s));;
          websearchfs_free_vnode a;;
          free_all fuel
      end
  end.

Definition websearchfs_unmount : MW Z :=
  LOCK_ns;;
  s ← getS;
  free_all (walk_fuel (heap s));;
  s ← getS;
  call_world (wk_put_vnode (rootid s));;
  liftO (vnidpool_free B_OK (vnids s));;
  modifyS (λ s, upd_refs (s32 (refcount s - 1)) s);;
  mret B_OK.
End Hooks.
