(* ===== verification/WebTree.v ===== *)
(** The tree websearchfs promises: folders with named entries, without lists,
    locks and cookies; and the requests of the VFS on both. *)

From S2P Require Import Prelude Errors LinkedList SList VnidPool WebFs.

(** A node without its links, its lock and what is open on it. *)
Definition bare (x : web_node) : web_node :=
  set_links None None None (set_family (wn_parent x) None (set_opened None (set_l false x))).

(** The entries of a folder, the newest first. *)
Record tnode : Type := mkT { t_node : web_node; t_kids : list Z }.

(** [tr_top] is the root node, [tr_next] the next vnode id, [tr_addr] the next
    node. *)
Record tree (W : Type) : Type := mkTree {
  tr_dev : Z; tr_root : Z; tr_top : Z; tr_nodes : gmap Z tnode; tr_next : Z; tr_addr : Z; tr_world : W
}.
Arguments mkTree {W}. Arguments tr_dev {W}. Arguments tr_root {W}. Arguments tr_top {W}. Arguments tr_nodes {W}.
Arguments tr_next {W}. Arguments tr_addr {W}. Arguments tr_world {W}.

Definition set_nodes {W} N (t : tree W) : tree W := mkTree (tr_dev t) (tr_root t) (tr_top t) N (tr_next t) (tr_addr t) (tr_world t).
Definition set_outside {W} w (t : tree W) : tree W := mkTree (tr_dev t) (tr_root t) (tr_top t) (tr_nodes t) (tr_next t) (tr_addr t) w.

Section Tree.
Context {W : Type} `{WebKernel W}.
Implicit Types (t : tree W) (N : gmap Z tnode).

Definition named N (name : list Z) (a : Z) : bool :=
  match N !! a with Some k => bool_decide (wn_name (t_node k) = name) | None => false end.

(** The entry of a folder with that name. *)
Definition child N (dir : Z) (name : list Z) : option Z :=
  match N !! dir with Some d => head (filter (λ a, named N name a = true) (t_kids d)) | None => None end.

(** The node with a vnode id. *)
Definition node_of N (v : Z) : option Z :=
  fst <$> head (filter (λ p, wn_vnid (t_node p.2) = v) (map_to_list N)).

Definition vnid_at N (o : option Z) (dflt : Z) : Z :=
  match o ≫= (N !!.) with Some k => wn_vnid (t_node k) | None => dflt end.

Definition spec_walk t (base : Z) (file : list Z) : (Z + Z) * tree W :=
  match tr_nodes t !! base with
  | None => (inl ENOENT, t)
  | Some b =>
      let r := if bool_decide (file = DOTDOT) then
                 match wn_parent (t_node b) with Some p => inr (vnid_at (tr_nodes t) (Some p) 0) | None => inl EINVAL end
               else if bool_decide (file = DOT) then inr (wn_vnid (t_node b))
               else match child (tr_nodes t) base file with
                    | Some a => inr (vnid_at (tr_nodes t) (Some a) 0)
                    | None => inl ENOENT
                    end in
      match r with
      | inl e => (inl e, t)
      | inr v => let '(e, w) := wk_get_vnode v (tr_world t) in
                 (if e =? B_OK then inr v else inl EINVAL, set_outside w t)
      end
  end.

(** A new node under a name that is free. *)
Definition enter t (dir : Z) (d : tnode) (name : list Z) (perms : Z) (iattrs : list attr_entry) (mkdir : bool) : tree W :=
  let '(tm, w) := wk_time (tr_world t) in
  let mode := Z.lor (Z.land perms (u32 (Z.lnot S_IFMT))) (if mkdir then S_IFDIR else S_IFREG) in
  let n := mkWn None None None (Some dir) None None name (tr_next t) false false false
             (fill_default_stat (tr_dev t) (tr_next t) mode tm) None None iattrs [] None 0 in
  let d' := mkT (set_st (inc_nlink (wn_st (t_node d))) (t_node d)) (tr_addr t :: t_kids d) in
  mkTree (tr_dev t) (tr_root t) (tr_top t) (<[tr_addr t := mkT n []]> (<[dir := d']> (tr_nodes t))) (tr_next t + 1)
    (tr_addr t + 1)
    (wk_notify (NoteStatChanged 4 (-1) (tr_dev t) (-1))
      (wk_notify (NoteEntryCreated (wn_vnid (t_node d)) name (tr_next t)) w)).

(** The first name that is free: the one asked for, or one with a number. *)
Definition free_name N (dir : Z) (name : list Z) : option (list Z) :=
  match child N dir name with
  | None => Some name
  | Some _ => head (filter (λ nm, child N dir nm = None) (unique_name name <$> seqZ 1 4999))
  end.

Definition spec_create t (dir : Z) (name : list Z) (omode perms : Z) (iattrs : list attr_entry) (mkdir uniq : bool)
    : (Z + Z) * tree W :=
  match tr_nodes t !! dir with
  | None => (inl ENOENT, t)
  | Some d =>
      if WEBSEARCHFS_NAME_LEN - 1 <? zlen name then (inl ENAMETOOLONG, t)
      else if negb (S_ISDIR (st_mode (wn_st (t_node d)))) then (inl ENOTDIR, t)
      else if uniq then
        match free_name (tr_nodes t) dir name with
        | Some nm => (inr (tr_addr t), enter t dir d nm perms iattrs mkdir)
        | None => (inl EEXIST, t)
        end
      else
        match child (tr_nodes t) dir name with
        | Some a => (if has_flag omode O_EXCL || mkdir then inl EEXIST else inr a, t)
        | None => (inr (tr_addr t), enter t dir d name perms iattrs mkdir)
        end
  end.

(** Folder [dir] without the entry [a]. *)
Definition unlinked N (dir a : Z) : gmap Z tnode :=
  alter (λ d, mkT (t_node d) (filter (λ b, b ≠ a) (t_kids d))) dir N.

(** The entry leaves its folder; the node stays until the VFS forgets it. *)
Definition spec_unlink t (dir : Z) (name : list Z) : Z * tree W :=
  match child (tr_nodes t) dir name with
  | None => (ENOENT, t)
  | Some a =>
      match tr_nodes t !! a with
      | None => (ENOENT, t)
      | Some k =>
          let n := t_node k in
          if negb (bool_decide (t_kids k = [])) then (ENOTEMPTY, t)
          else if wn_is_perm n then (EROFS, t)
          else if wn_vnid n =? tr_root t then (EACCES, t)
          else
            let w := wk_notify (NoteEntryRemoved (vnid_at (tr_nodes t) (Some dir) 0) name (wn_vnid n)) (tr_world t) in
            let '(_, w) := wk_remove_vnode (wn_vnid n) w in
            (B_OK, set_outside w (set_nodes (unlinked (tr_nodes t) dir a) t))
      end
  end.

(** The node goes. *)
Definition spec_forget t (a : Z) : Z * tree W :=
  match tr_nodes t !! a with
  | None => (ENOENT, t)
  | Some k =>
      let N := match wn_parent (t_node k) with Some p => unlinked (tr_nodes t) p a | None => tr_nodes t end in
      (B_OK, set_nodes (delete a N) t)
  end.

(** What reading the folder [d] shows: its parent, itself, its entries. *)
Definition dir_entries t (d : tnode) : list dirent :=
  let n := t_node d in
  let N := tr_nodes t in
  let parent := vnid_at N (wn_parent n) (tr_root t) in
  let grand := vnid_at N (wn_parent n ≫= λ p, N !! p ≫= λ x, wn_parent (t_node x)) (tr_root t) in
  mk_entry (tr_dev t) parent grand DOTDOT :: mk_entry (tr_dev t) (wn_vnid n) parent DOT ::
  ((λ b, mk_entry (tr_dev t) (vnid_at N (Some b) 0) (wn_vnid n)
           (default [] (wn_name ∘ t_node <$> N !! b))) <$> t_kids d).

Definition spec_list t (a : Z) : Z + list dirent :=
  match tr_nodes t !! a with
  | None => inl ENOENT
  | Some d => if S_ISDIR (st_mode (wn_st (t_node d))) then inr (dir_entries t d) else inl B_NOT_A_DIRECTORY
  end.

Definition spec_stat t (a : Z) : Z + stat :=
  match tr_nodes t !! a with Some d => inr (node_stat (tr_dev t) (t_node d)) | None => inl ENOENT end.
End Tree.

(** * Requests *)

Inductive web_op : Type :=
  | WWalk (v : Z) (name : list Z)
  | WMkdir (v : Z) (name : list Z) (perms : Z)
  | WCreate (v : Z) (name : list Z) (perms : Z)      (* under a name of its own *)
  | WUnlink (v : Z) (name : list Z)
  | WRmdir (v : Z) (name : list Z)
  | WList (v : Z)
  | WStat (v : Z)
  | WForget (v : Z).                                 (* the last user is gone *)

Inductive web_res : Type :=
  | RStatus (e : Z)
  | RVnid (r : Z + Z)
  | RStat (r : Z + stat)
  | REntries (r : Z + list dirent).

Section Requests.
Context {W : Type} `{Allocator W} `{WebKernel W} (folders_attrs bookmark_attrs : list attr_entry).
Abbreviation MW := (M (web_ns W)).

(** Entries until there are none. *)
Fixpoint read_entries (fuel : nat) (node cookie : Z) : MW (list dirent) :=
  match fuel with
  | O => hangM
  | S fuel =>
      r ← websearchfs_readdir node cookie 1024 1;
      match r with
      | inr (Some e) => es ← read_entries fuel node cookie; mret (e :: es)
      | _ => mret []
      end
  end.

Definition list_entries (node : Z) : MW (Z + list dirent) :=
  r ← websearchfs_opendir node;
  match r with
  | inl e => mret (inl e)
  | inr c =>
      s ← getS;
      es ← read_entries (size (heap s) + 3) node c;
      websearchfs_closedir node c;;
      websearchfs_free_dircookie node c;;
      mret (inr es)
  end.

(** The VFS knows nodes by their id and asks for the node first. *)
Definition run_web (o : web_op) : MW web_res :=
  let on v (k : Z → MW web_res) : MW web_res :=
    r ← websearchfs_read_vnode v false;
    match r with inl e => mret (RStatus e) | inr (a, _) => k a end in
  match o with
  | WWalk v name => on v (λ a, r ← websearchfs_walk a (Some name); mret (RVnid r))
  | WMkdir v name perms => on v (λ a, e ← websearchfs_mkdir folders_attrs a name perms; mret (RStatus e))
  | WCreate v name perms => on v (λ a,
      r ← websearchfs_create_gen a name 0 perms bookmark_attrs false true;
      match r with inl e => mret (RVnid (inl e)) | inr n => x ← get n; mret (RVnid (inr (wn_vnid x))) end)
  | WUnlink v name => on v (λ a, e ← websearchfs_unlink a name; mret (RStatus e))
  | WRmdir v name => on v (λ a, e ← websearchfs_rmdir a name; mret (RStatus e))
  | WList v => on v (λ a, r ← list_entries a; mret (REntries r))
  | WStat v => on v (λ a, r ← websearchfs_rstat a; mret (RStat r))
  | WForget v => on v (λ a, e ← websearchfs_remove_vnode a false; mret (RStatus e))
  end.

Fixpoint run_webs (ops : list web_op) : MW (list web_res) :=
  match ops with
  | [] => mret []
  | o :: ops => r ← run_web o; rs ← run_webs ops; mret (r :: rs)
  end.

Definition spec_web (o : web_op) (t : tree W) : web_res * tree W :=
  let on v (k : Z → web_res * tree W) : web_res * tree W :=
    match node_of (tr_nodes t) v with None => (RStatus ENOENT, t) | Some a => k a end in
  match o with
  | WWalk v name => on v (λ a, let '(r, t) := spec_walk t a name in (RVnid r, t))
  | WMkdir v name perms => on v (λ a,
      let '(r, t) := spec_create t a name O_EXCL perms folders_attrs true false in
      (RStatus (match r with inl e => e | inr _ => B_OK end), t))
  | WCreate v name perms => on v (λ a,
      let '(r, t') := spec_create t a name 0 perms bookmark_attrs false true in
      (RVnid (match r with inl e => inl e | inr _ => inr (tr_next t) end), t'))
  | WUnlink v name | WRmdir v name => on v (λ a, let '(e, t) := spec_unlink t a name in (RStatus e, t))
  | WList v => on v (λ a, (REntries (spec_list t a), t))
  | WStat v => on v (λ a, (RStat (spec_stat t a), t))
  | WForget v => on v (λ a, let '(e, t) := spec_forget t a in (RStatus e, t))
  end.

Fixpoint spec_webs (ops : list web_op) (t : tree W) : list web_res * tree W :=
  match ops with
  | [] => ([], t)
  | o :: ops => let '(r, t) := spec_web o t in let '(rs, t) := spec_webs ops t in (r :: rs, t)
  end.

(** What a hook reports: [websearchfs_remove_vnode] answers the status of taking the node
    out of the list of queries, so that it reports a failure for every node it has
    removed that is not a query. *)
Definition reported (o : web_op) (r : web_res) : web_res :=
  match o, r with
  | WForget _, RStatus e => RStatus (if e =? B_OK then EINVAL else e)
  | _, _ => r
  end.

(** Names are strings; ids last for 1247 nodes (see [vnidpool_quarter]); and the
    VFS forgets a node when it is no longer in its folder, and after the nodes
    that were in it. *)
Definition op_ok (o : web_op) (t : tree W) : Prop :=
  match o with
  | WWalk _ name | WUnlink _ name | WRmdir _ name => no_nul name
  | WMkdir _ name _ | WCreate _ name _ => no_nul name ∧ tr_next t < 1248
  | WList _ | WStat _ => True
  | WForget v =>
      ∀ a k, node_of (tr_nodes t) v = Some a → tr_nodes t !! a = Some k →
        (∃ p d, wn_parent (t_node k) = Some p ∧ tr_nodes t !! p = Some d ∧ a ∉ t_kids d) ∧
        map_Forall (λ _ c, wn_parent (t_node c) ≠ Some a) (tr_nodes t)
  end.

Fixpoint ops_ok (ops : list web_op) (t : tree W) : Prop :=
  match ops with [] => True | o :: ops => op_ok o t ∧ ops_ok ops (spec_web o t).2 end.
End Requests.
