(* ===== verification/WebView.v ===== *)
(** The view of a websearchfs volume that the proofs work with: the nodes
    without their links, the list of all nodes and the entries of each folder;
    and what the primitive operations do to it. *)

From S2P Require Import Prelude Errors LinkedList SList VnidPool WebFs WebTree.

(** Comparing strings. *)
Lemma strncmp_eq s t n : no_nul s → no_nul t → (length s < n)%nat → strncmp s t n = 0 ↔ s = t.
Proof.
  revert t n. induction s as [|x s IH]; intros [|y t] [|n] Hs Ht Hn; cbn in *; try lia; try done.
  - apply Forall_cons in Ht as [Hy _]. split; [lia|done].
  - apply Forall_cons in Hs as [Hx _]. split; [lia|done].
  - apply Forall_cons in Hs as [Hx Hs]. apply Forall_cons in Ht as [Hy Ht].
    destruct (Z.eqb_spec x y) as [->|Hne]; [|split; [lia|congruence]].
    rewrite IH by (done || lia). split; congruence.
Qed.

Lemma list_find_head {A} (P Q : A → Prop) `{∀ x, Decision (P x)} `{∀ x, Decision (Q x)} (l : list A) :
  (∀ x, x ∈ l → P x ↔ Q x) → (list_find P l ≫= λ p, Some p.2) = head (filter Q l).
Proof.
  intros Hpq. induction l as [|x l IH]; [done|]. cbn [list_find]. rewrite filter_cons.
  destruct (decide (P x)) as [Hp|Hp].
  - rewrite decide_True by (apply Hpq; [by left|done]). done.
  - rewrite decide_False by (rewrite <- Hpq; [done|by left]). rewrite <- IH by (intros; apply Hpq; by right).
    by destruct (list_find P l) as [[]|].
Qed.

(** Laws of the links. *)
Lemma nl_eta x : @set_nxt _ nl_link (@nxt _ nl_link x) x = x.
Proof. by destruct x. Qed.
Lemma q_eta x : @set_nxt _ q_link (@nxt _ q_link x) x = x.
Proof. by destruct x. Qed.
Lemma dir_eta x : @set_nxt _ dir_link (@nxt _ dir_link x) x = x.
Proof. by destruct x. Qed.
Lemma cookie_eta x : @set_nxt _ cookie_link (@nxt _ cookie_link x) x = x.
Proof. by destruct x. Qed.
#[local] Hint Resolve nl_eta q_eta dir_eta cookie_eta : core.

Section View.
Context {W : Type}.
(** The first cookie opened on each node. *)
Context (op : Z → option Z).
Implicit Types (s : web_ns W) (N : gmap Z tnode) (L Q : list Z) (lk : option Z).

(** Everything but the nodes and the lists. *)
Definition env s : web_ns W := upd_lists (root s) None None (upd_heap ∅ (next_addr s) s).

Abbreviation kids_chain := (@chain _ dir_link).
Abbreviation nl_chain := (@chain _ nl_link).
Abbreviation q_chain := (@chain _ q_link).

(** [lk] is the node that is locked. *)
Record view s N L Q lk : Prop := {
  vw_body a : bare <$> heap s !! a = t_node <$> N !! a;
  vw_nodes : nl_chain (heap s) (nodes s) L;
  vw_queries : q_chain (heap s) (queries s) Q;
  vw_kids a n d : heap s !! a = Some n → N !! a = Some d → kids_chain (heap s) (wn_children n) (t_kids d);
  vw_locks a n : heap s !! a = Some n → wn_l n = bool_decide (lk = Some a);
  vw_opened a n : heap s !! a = Some n → wn_opened n = op a
}.

Lemma view_lookup s N L Q lk a d : view s N L Q lk → N !! a = Some d →
  ∃ n, heap s !! a = Some n ∧ bare n = t_node d.
Proof.
  intros V Hd. pose proof (vw_body _ _ _ _ _ V a) as E. rewrite Hd in E.
  destruct (heap s !! a) as [n|]; [|done]. exists n. split; [done|]. by injection E.
Qed.

Lemma view_node s N L Q lk a n : view s N L Q lk → heap s !! a = Some n →
  ∃ d, N !! a = Some d ∧ bare n = t_node d.
Proof.
  intros V Hn. pose proof (vw_body _ _ _ _ _ V a) as E. rewrite Hn in E.
  destruct (N !! a) as [d|]; [|done]. exists d. split; [done|]. by injection E.
Qed.

Lemma view_none s N L Q lk a : view s N L Q lk → N !! a = None → heap s !! a = None.
Proof.
  intros V Hd. pose proof (vw_body _ _ _ _ _ V a) as E. rewrite Hd in E. by destruct (heap s !! a).
Qed.

Lemma view_size s N L Q lk : view s N L Q lk → size (heap s) = size N.
Proof.
  intros V. rewrite <- !size_dom. f_equal. apply set_eq. intros a. rewrite !elem_of_dom.
  pose proof (vw_body _ _ _ _ _ V a) as E. split; intros [x Hx]; rewrite Hx in E.
  - destruct (N !! a); [by eexists|done].
  - destruct (heap s !! a); [by eexists|done].
Qed.

Lemma view_env s s' N L Q lk :
  view s N L Q lk → heap s' = heap s → nodes s' = nodes s → queries s' = queries s → view s' N L Q lk.
Proof. intros [? ? ? ? ? ?] E1 E2 E3. split; rewrite ?E1, ?E2, ?E3; done. Qed.

(** ** Steps *)

Lemma runs_get s N L Q lk a d (K : web_node → web_ns W → Prop) :
  view s N L Q lk → N !! a = Some d →
  (∀ n, heap s !! a = Some n → bare n = t_node d → K n s) → runs (get a) s K.
Proof.
  intros V Hd HK. destruct (view_lookup _ _ _ _ _ _ _ V Hd) as (n & Hn & Eb).
  exists n, s. unfold get. rewrite Hn. auto.
Qed.

(** A node was changed outside of its links. *)
Lemma view_put s N L Q lk a n n' d lk' :
  view s N L Q lk → heap s !! a = Some n → N !! a = Some d →
  wn_nlnext n' = wn_nlnext n → wn_qnext n' = wn_qnext n → wn_next n' = wn_next n →
  wn_children n' = wn_children n → wn_opened n' = op a → wn_l n' = bool_decide (lk' = Some a) →
  (∀ b, b ≠ a → lk' = Some b ↔ lk = Some b) →
  view (upd_heap (<[a := n']> (heap s)) (next_addr s) s) (<[a := mkT (bare n') (t_kids d)]> N) L Q lk'.
Proof.
  intros [Vb Vn Vq Vk Vl Vo] Hn Hd E1 E2 E3 E4 E5 E6 Hlk.
  assert (∀ (B : Type) (f : web_node → B), f n' = f n → ∀ b, f <$> <[a := n']> (heap s) !! b = f <$> heap s !! b) as Hf.
  { intros B f Ef b. destruct (decide (a = b)) as [<-|]; [by rewrite lookup_insert_eq, Hn; cbn; rewrite Ef|by rewrite lookup_insert_ne]. }
  split; cbn.
  - intros b. destruct (decide (a = b)) as [<-|]; [by rewrite !lookup_insert_eq|]. rewrite !lookup_insert_ne by done. apply Vb.
  - eapply chain_nxt; [|exact Vn]. by apply Hf.
  - eapply chain_nxt; [|exact Vq]. by apply Hf.
  - intros b x db Hx Hdb. apply (chain_nxt (heap s)); [by apply Hf|].
    destruct (decide (a = b)) as [<-|Hne].
    + rewrite lookup_insert_eq in Hx. rewrite lookup_insert_eq in Hdb. simplify_eq. cbn [t_kids]. rewrite E4. by apply (Vk a).
    + rewrite lookup_insert_ne in Hx by done. rewrite lookup_insert_ne in Hdb by done. by apply (Vk b).
  - intros b x Hx. destruct (decide (a = b)) as [<-|Hne].
    + rewrite lookup_insert_eq in Hx. by simplify_eq.
    + rewrite lookup_insert_ne in Hx by done. rewrite (Vl b x Hx). apply bool_decide_ext. symmetry. by apply Hlk.
  - intros b x Hx. destruct (decide (a = b)) as [<-|Hne].
    + rewrite lookup_insert_eq in Hx. by simplify_eq.
    + rewrite lookup_insert_ne in Hx by done. by apply (Vo b).
Qed.

Lemma insert_same_node N a d : N !! a = Some d → <[a := mkT (t_node d) (t_kids d)]> N = N.
Proof. intros Hd. destruct d. by apply insert_id. Qed.

Lemma runs_LOCK s N L Q a d (K : Z → web_ns W → Prop) :
  view s N L Q None → N !! a = Some d →
  (∀ s', view s' N L Q (Some a) → env s' = env s → K B_OK s') → runs (LOCK a) s K.
Proof.
  intros V Hd HK. apply runs_bind. eapply runs_get; [done|done|]. intros n Hn Eb.
  rewrite (vw_locks _ _ _ _ _ V a n Hn), bool_decide_false by done.
  apply runs_bind, runs_modifyS, runs_ret, HK; [|done].
  rewrite <- (insert_same_node N a d Hd). rewrite <- Eb.
  eapply (view_put s N L Q None a n (set_l true n)); try done.
  - by apply (vw_opened _ _ _ _ _ V a n).
  - cbn. by rewrite bool_decide_true.
  - intros b Hb. split; intros; simplify_eq.
Qed.

Lemma runs_UNLOCK s N L Q a d (K : unit → web_ns W → Prop) :
  view s N L Q (Some a) → N !! a = Some d →
  (∀ s', view s' N L Q None → env s' = env s → K tt s') → runs (UNLOCK a) s K.
Proof.
  intros V Hd HK. apply runs_bind. eapply runs_get; [done|done|]. intros n Hn Eb.
  apply runs_modifyS, HK; [|done]. rewrite <- (insert_same_node N a d Hd). rewrite <- Eb.
  eapply (view_put s N L Q (Some a) a n (set_l false n)); try done.
  - by apply (vw_opened _ _ _ _ _ V a n).
  - intros b Hb. split; intros; simplify_eq.
Qed.

(** ** The list of all nodes and the list of queries *)

Lemma fmap_lookup_inv {A B} (f : A → B) (o o' : option A) x :
  f <$> o = f <$> o' → o = Some x → ∃ y, o' = Some y ∧ f y = f x.
Proof. intros E ->. destruct o' as [y|]; [|done]. exists y. split; [done|]. by injection E. Qed.

Lemma view_relink_nl s N L Q lk h' l nodes' L' :
  view s N L Q lk → @relinked _ nl_link (heap s) h' l → nl_chain h' nodes' L' →
  view (upd_lists (root s) nodes' (queries s) (upd_heap h' (next_addr s) s)) N L' Q lk.
Proof.
  intros [Vb Vn Vq Vk Vl Vo] Hr Hc.
  assert (∀ (B : Type) (f : web_node → B), (∀ o x, f (@set_nxt _ nl_link o x) = f x) → ∀ b, f <$> h' !! b = f <$> heap s !! b) as Hf.
  { intros B f Ef. eapply (@relinked_keeps _ nl_link); eauto. }
  split; cbn; [|done| | | |].
  - intros a. rewrite <- Vb. by apply Hf.
  - eapply chain_nxt; [|exact Vq]. by apply Hf.
  - intros a n d Hn Hd. apply (chain_nxt (heap s)); [by apply Hf|].
    destruct (fmap_lookup_inv wn_children _ _ _ (Hf _ wn_children ltac:(done) a) Hn) as (y & Hy & <-). by apply (Vk a).
  - intros a n Hn. destruct (fmap_lookup_inv wn_l _ _ _ (Hf _ wn_l ltac:(done) a) Hn) as (y & Hy & <-). by apply Vl.
  - intros a n Hn. destruct (fmap_lookup_inv wn_opened _ _ _ (Hf _ wn_opened ltac:(done) a) Hn) as (y & Hy & <-). by apply Vo.
Qed.

Lemma runs_nodes_insert s N L Q lk a d (K : Z → web_ns W → Prop) :
  view s N L Q lk → N !! a = Some d → a ∉ L →
  (∀ s', view s' N (a :: L) Q lk → env s' = env s → K B_OK s') →
  runs (on_nodes (λ h first, @sll_insert_head _ nl_link h first (Some a))) s K.
Proof.
  intros V Hd Ha HK. destruct (view_lookup _ _ _ _ _ _ _ V Hd) as (n & Hn & _).
  destruct (sll_insert_head_run _ _ _ _ _ nl_eta Hn (vw_nodes _ _ _ _ _ V) Ha) as (h' & E & Hc & Hr).
  apply runs_bind, runs_getS, runs_bind. eapply runs_liftO; [exact E|].
  apply runs_bind, runs_modifyS, runs_bind, runs_modifyS, runs_ret, HK; [|done]. by eapply view_relink_nl.
Qed.

Lemma runs_nodes_remove s N L1 a L2 Q lk (K : Z → web_ns W → Prop) :
  view s N (L1 ++ a :: L2) Q lk →
  (∀ s', view s' N (L1 ++ L2) Q lk → env s' = env s → K B_OK s') →
  runs (on_nodes (λ h first, @sll_remove _ nl_link h first (Some a))) s K.
Proof.
  intros V HK.
  destruct (sll_remove_run _ _ _ _ _ nl_eta ltac:(done) (vw_nodes _ _ _ _ _ V)) as (h' & first' & E & Hc & Hr).
  apply runs_bind, runs_getS, runs_bind. eapply runs_liftO; [exact E|].
  apply runs_bind, runs_modifyS, runs_bind, runs_modifyS, runs_ret, HK; [|done]. by eapply view_relink_nl.
Qed.

(** A node that belongs to no query. *)
Lemma runs_queries_remove s N L lk a (K : Z → web_ns W → Prop) :
  view s N L [] lk →
  (∀ s', view s' N L [] lk → env s' = env s → K EINVAL s') →
  runs (on_queries (λ h first, @sll_remove _ q_link h first (Some a))) s K.
Proof.
  intros V HK. pose proof (vw_queries _ _ _ _ _ V) as Vq. inversion Vq as [E|]; subst.
  apply runs_bind, runs_getS, runs_bind. eapply runs_liftO; [by rewrite <- E|].
  apply runs_bind, runs_modifyS, runs_bind, runs_modifyS, runs_ret, HK; [|done].
  by eapply view_env.
Qed.

(** ** The entries of a folder *)

Lemma view_relink_dir s N L Q lk dir d h' l first' kids' n :
  view s N L Q lk → N !! dir = Some d → @relinked _ dir_link (heap s) h' l → kids_chain h' first' kids' →
  (∀ b db, b ≠ dir → N !! b = Some db → ∀ c, c ∈ t_kids db → c ∉ l) → h' !! dir = Some n →
  view (upd_heap (<[dir := set_family (wn_parent n) first' n]> h') (next_addr s) s)
    (<[dir := mkT (t_node d) kids']> N) L Q lk.
Proof.
  intros [Vb Vn Vq Vk Vl Vo] Hd Hr Hc Hdis Hn.
  assert (∀ (B : Type) (f : web_node → B), (∀ o x, f (@set_nxt _ dir_link o x) = f x) →
    (∀ p c x, f (set_family p c x) = f x) →
    ∀ b, f <$> <[dir := set_family (wn_parent n) first' n]> h' !! b = f <$> heap s !! b) as Hf.
  { intros B f Ef Ef' b. rewrite <- (relinked_keeps f _ _ _ Hr Ef b). destruct (decide (dir = b)) as [<-|].
    - rewrite lookup_insert_eq, Hn. cbn. by rewrite Ef'.
    - by rewrite lookup_insert_ne. }
  assert (∀ o kids, kids_chain h' o kids → kids_chain (<[dir := set_family (wn_parent n) first' n]> h') o kids) as Hk.
  { intros o kids. apply chain_nxt. intros b. destruct (decide (dir = b)) as [<-|]; [by rewrite lookup_insert_eq, Hn|by rewrite lookup_insert_ne]. }
  split; cbn.
  - intros b. destruct (decide (dir = b)) as [<-|Hne].
    + rewrite !lookup_insert_eq. cbn. pose proof (Vb dir) as E. rewrite Hd in E.
      destruct Hr as [Hr _]. destruct (Hr dir) as [o Ho]. rewrite Hn in Ho. destruct (heap s !! dir) as [m|]; [|done].
      cbn in E, Ho. simplify_eq. rewrite <- E. done.
    + rewrite !lookup_insert_ne by done. rewrite <- Vb. by apply (relinked_keeps bare _ _ _ Hr).
  - eapply chain_nxt; [|exact Vn]. by apply Hf.
  - eapply chain_nxt; [|exact Vq]. by apply Hf.
  - intros b x db Hx Hdb. destruct (decide (dir = b)) as [<-|Hne].
    + rewrite lookup_insert_eq in Hx. rewrite lookup_insert_eq in Hdb. simplify_eq. cbn. by apply Hk.
    + rewrite lookup_insert_ne in Hx by done. rewrite lookup_insert_ne in Hdb by done. apply Hk.
      destruct (fmap_lookup_inv wn_children _ _ _ (relinked_keeps wn_children _ _ _ Hr ltac:(done) b) Hx) as (y & Hy & <-).
      eapply chain_frame; [|by apply (Vk b)]. intros c Hcin. apply Hr. by eapply Hdis.
  - intros b x Hx. destruct (fmap_lookup_inv wn_l _ _ _ (Hf _ wn_l ltac:(done) ltac:(done) b) Hx) as (y & Hy & <-). by apply Vl.
  - intros b x Hx. destruct (fmap_lookup_inv wn_opened _ _ _ (Hf _ wn_opened ltac:(done) ltac:(done) b) Hx) as (y & Hy & <-). by apply Vo.
Qed.

(** What [on_children] does once the list operation has run. *)
Lemma runs_on_children s N L Q lk dir d n f e h' l first' kids' (K : Z → web_ns W → Prop) :
  view s N L Q lk → N !! dir = Some d → heap s !! dir = Some n →
  f (heap s) (Some (wn_children n)) = Ok (e, h', Some first') →
  @relinked _ dir_link (heap s) h' l → kids_chain h' first' kids' →
  (∀ b db, b ≠ dir → N !! b = Some db → ∀ c, c ∈ t_kids db → c ∉ l) →
  (∀ s', view s' (<[dir := mkT (t_node d) kids']> N) L Q lk → env s' = env s → K e s') →
  runs (on_children dir f) s K.
Proof.
  intros V Hd Hn E Hr Hc Hdis HK. apply runs_bind. eapply runs_eq; [unfold get; by rewrite Hn|].
  apply runs_bind, runs_getS, runs_bind. eapply runs_liftO; [exact E|]. cbv beta iota.
  apply runs_bind, runs_modifyS, runs_bind, runs_bind.
  pose proof (proj1 Hr dir) as [o Ho]. rewrite Hn in Ho. cbn in Ho.
  eapply runs_eq; [unfold get; cbn; by rewrite Ho|]. apply runs_modifyS, runs_ret, HK; [|done].
  eapply view_env; [eapply (view_relink_dir s N L Q lk dir d h' l first' kids'); eauto|done..].
Qed.

Lemma runs_children_insert s N L Q lk dir d a k (K : Z → web_ns W → Prop) :
  view s N L Q lk → N !! dir = Some d → N !! a = Some k →
  (∀ b db, N !! b = Some db → a ∉ t_kids db) →
  (∀ s', view s' (<[dir := mkT (t_node d) (a :: t_kids d)]> N) L Q lk → env s' = env s → K B_OK s') →
  runs (on_children dir (λ h first, @sll_insert_head _ dir_link h first (Some a))) s K.
Proof.
  intros V Hd Hk Hfree HK. destruct (view_lookup _ _ _ _ _ _ _ V Hd) as (n & Hn & _).
  destruct (view_lookup _ _ _ _ _ _ _ V Hk) as (x & Hx & _).
  destruct (sll_insert_head_run _ _ _ _ _ dir_eta Hx (vw_kids _ _ _ _ _ V _ _ _ Hn Hd) (Hfree _ _ Hd)) as (h' & E & Hc & Hr).
  eapply (runs_on_children s N L Q lk dir d n); [done|done|done|exact E|exact Hr|exact Hc| |done].
  intros b db _ Hdb c Hin Hca. apply list_elem_of_singleton in Hca as ->. by eapply Hfree.
Qed.

Lemma runs_children_remove s N L Q lk dir d l1 a l2 (K : Z → web_ns W → Prop) :
  view s N L Q lk → N !! dir = Some d → t_kids d = l1 ++ a :: l2 →
  (∀ b db, b ≠ dir → N !! b = Some db → ∀ c, c ∈ t_kids db → c ∉ t_kids d) →
  (∀ s', view s' (<[dir := mkT (t_node d) (l1 ++ l2)]> N) L Q lk → env s' = env s → K B_OK s') →
  runs (on_children dir (λ h first, @sll_remove _ dir_link h first (Some a))) s K.
Proof.
  intros V Hd Ek Hdis HK. destruct (view_lookup _ _ _ _ _ _ _ V Hd) as (n & Hn & _).
  pose proof (vw_kids _ _ _ _ _ V _ _ _ Hn Hd) as Hc. rewrite Ek in Hc.
  destruct (sll_remove_run _ _ _ _ _ dir_eta ltac:(done) Hc) as (h' & first' & E & Hc' & Hr).
  eapply (runs_on_children s N L Q lk dir d n); [done|done|done|exact E|exact Hr|exact Hc'| |done].
  intros b db Hb Hdb c Hin Hcl. apply (Hdis b db Hb Hdb c Hin). rewrite Ek. set_solver.
Qed.

(** An entry that is not there. *)
Lemma runs_children_absent s N L Q lk dir d a (K : Z → web_ns W → Prop) :
  view s N L Q lk → N !! dir = Some d → a ∉ t_kids d →
  (∀ e s', view s' N L Q lk → env s' = env s → K e s') →
  runs (on_children dir (λ h first, @sll_remove _ dir_link h first (Some a))) s K.
Proof.
  intros V Hd Ha HK. destruct (view_lookup _ _ _ _ _ _ _ V Hd) as (n & Hn & _).
  pose proof (vw_kids _ _ _ _ _ V _ _ _ Hn Hd) as Hc.
  destruct (sll_remove_absent _ _ _ a Hc Ha) as (e & E).
  eapply (runs_on_children s N L Q lk dir d n _ e (heap s) [] (wn_children n) (t_kids d)); [done|done|done|exact E| |exact Hc| |].
  - split; [|done]. intros b. destruct (heap s !! b) as [x|]; [|by exists None]. exists (wn_next x). exact (f_equal Some (eq_sym (dir_eta x))).
  - intros b db _ _ c _. apply not_elem_of_nil.
  - intros s' V' E'. rewrite (insert_same_node N dir d Hd) in V'. by apply HK.
Qed.

(** ** Searching *)

(** Names are strings that fit. *)
Definition names_ok N : Prop := ∀ a d, N !! a = Some d → no_nul (wn_name (t_node d)) ∧ zlen (wn_name (t_node d)) < 70.

Lemma runs_find_child s N L Q lk dir d name (K : option Z → web_ns W → Prop) :
  view s N L Q lk → names_ok N → (size N ≤ 5000)%nat → no_nul name → N !! dir = Some d →
  K (child N dir name) s → runs (find_child dir name) s K.
Proof.
  intros V Hnm Hsz Hn0 Hd HK. apply runs_bind. eapply runs_get; [done|done|]. intros n Hn Eb.
  apply runs_bind, runs_getS. pose proof (vw_kids _ _ _ _ _ V _ _ _ Hn Hd) as Hc.
  eapply runs_liftO; [|exact HK]. unfold sll_find. rewrite (sll_find_loop_run _ _ _ _ _ Hc). f_equal.
  rewrite take_ge by (pose proof (chain_length _ _ _ Hc); rewrite (view_size _ _ _ _ _ V) in *; lia).
  unfold child. rewrite Hd. apply list_find_head. intros a Ha.
  destruct (chain_cell _ _ _ a Hc Ha) as [x Hx]. destruct (view_node _ _ _ _ _ _ _ V Hx) as (k & Hk & Ebk).
  unfold compare_fs_node_by_name, named. rewrite Hx, Hk, bool_decide_eq_true. destruct (Hnm a k Hk) as [H1 H2].
  assert (wn_name x = wn_name (t_node k)) as -> by (by rewrite <- Ebk). apply strncmp_eq; [done|done|].
  unfold WEBSEARCHFS_NAME_LEN. lia.
Qed.

(** ** Nodes come and go *)

Lemma runs_new_node s N L Q lk n (K : Z → web_ns W → Prop) :
  view s N L Q lk → N !! next_addr s = None → lk ≠ Some (next_addr s) → (∀ b, lk = Some b → is_Some (N !! b)) →
  wn_children n = None → wn_opened n = op (next_addr s) → wn_l n = false →
  (∀ b d, N !! b = Some d → next_addr s ∉ t_kids d) → next_addr s ∉ L → next_addr s ∉ Q →
  (∀ s', view s' (<[next_addr s := mkT (bare n) []]> N) L Q lk → next_addr s' = next_addr s + 1 →
     env s' = upd_heap ∅ (next_addr s + 1) (env s) → K (next_addr s) s') →
  runs (new_node n) s K.
Proof.
  intros V Hnew Hlk Hlk' Ec Eo El Hk HL HQ HK. eexists _, _. split; [reflexivity|]. apply HK; [|done|done].
  pose proof (view_none _ _ _ _ _ _ V Hnew) as Hn. destruct V as [Vb Vn Vq Vk Vl Vo].
  split; cbn.
  - intros b. destruct (decide (next_addr s = b)) as [<-|]; [by rewrite !lookup_insert_eq|]. rewrite !lookup_insert_ne by done. apply Vb.
  - by apply (@chain_insert_ne _ nl_link).
  - by apply (@chain_insert_ne _ q_link).
  - intros b x d Hx Hd. destruct (decide (next_addr s = b)) as [<-|Hne].
    + rewrite lookup_insert_eq in Hx. rewrite lookup_insert_eq in Hd. simplify_eq. cbn. rewrite Ec. constructor.
    + rewrite lookup_insert_ne in Hx by done. rewrite lookup_insert_ne in Hd by done.
      apply (@chain_insert_ne _ dir_link); [by eapply Hk|by apply (Vk b)].
  - intros b x Hx. destruct (decide (next_addr s = b)) as [<-|Hne].
    + rewrite lookup_insert_eq in Hx. simplify_eq. by rewrite El, bool_decide_false.
    + rewrite lookup_insert_ne in Hx by done. by apply Vl.
  - intros b x Hx. destruct (decide (next_addr s = b)) as [<-|Hne].
    + rewrite lookup_insert_eq in Hx. by simplify_eq.
    + rewrite lookup_insert_ne in Hx by done. by apply Vo.
Qed.

Lemma view_delete s s' N L Q lk a :
  view s N L Q lk → a ∉ L → a ∉ Q → (∀ b d, b ≠ a → N !! b = Some d → a ∉ t_kids d) →
  heap s' = delete a (heap s) → nodes s' = nodes s → queries s' = queries s →
  view s' (delete a N) L Q lk.
Proof.
  intros [Vb Vn Vq Vk Vl Vo] HL HQ Hk Eh En Eq. split; rewrite ?Eh, ?En, ?Eq.
  - intros b. destruct (decide (a = b)) as [<-|]; [by rewrite !lookup_delete_eq|]. rewrite !lookup_delete_ne by done. apply Vb.
  - by apply (@chain_delete_ne _ nl_link).
  - by apply (@chain_delete_ne _ q_link).
  - intros b x d [Hne Hx]%lookup_delete_Some [_ Hd]%lookup_delete_Some.
    apply (@chain_delete_ne _ dir_link); [by eapply Hk|by apply (Vk b)].
  - intros b x [_ Hx]%lookup_delete_Some. by apply Vl.
  - intros b x [_ Hx]%lookup_delete_Some. by apply Vo.
Qed.

(** A change of fields that are neither links nor the lock. *)
Lemma runs_change s N L Q lk a d f g (K : unit → web_ns W → Prop) :
  view s N L Q lk → N !! a = Some d →
  (∀ x, wn_nlnext (f x) = wn_nlnext x ∧ wn_qnext (f x) = wn_qnext x ∧ wn_next (f x) = wn_next x ∧
    wn_children (f x) = wn_children x ∧ wn_opened (f x) = wn_opened x ∧ wn_l (f x) = wn_l x ∧ bare (f x) = g (bare x)) →
  (∀ s', view s' (<[a := mkT (g (t_node d)) (t_kids d)]> N) L Q lk → env s' = env s → K tt s') →
  runs (change a f) s K.
Proof.
  intros V Hd Hf HK. apply runs_bind. eapply runs_get; [done|done|]. intros n Hn Eb.
  apply runs_modifyS, HK; [|done]. destruct (Hf n) as (E1 & E2 & E3 & E4 & E5 & E6 & E7).
  rewrite <- Eb, <- E7. eapply (view_put s N L Q lk a n); try done.
  - rewrite E5. by apply (vw_opened _ _ _ _ _ V a).
  - rewrite E6. by apply (vw_locks _ _ _ _ _ V a).
Qed.
End View.
