(* ===== verification/WebRun.v ===== *)
(** The hooks of websearchfs do to the tree what their names say. *)

From S2P Require Import Prelude Errors LinkedList SList VnidPool WebFs WebTree WebView.

(** Nothing is open between requests. *)
Definition closed : Z → option Z := λ _, None.

Lemma head_filter_Some {A} (P : A → Prop) `{∀ x, Decision (P x)} (l : list A) x :
  head (filter P l) = Some x → x ∈ l ∧ P x.
Proof.
  intros Hh. assert (x ∈ filter P l) as Hx by (destruct (filter P l); [done|]; cbn in Hh; simplify_eq; by left).
  apply list_elem_of_filter in Hx. tauto.
Qed.

Lemma head_filter_None {A} (P : A → Prop) `{∀ x, Decision (P x)} (l : list A) x :
  head (filter P l) = None → x ∈ l → ¬ P x.
Proof.
  intros Hh Hx Hp. assert (x ∈ filter P l) as Hin by (by apply list_elem_of_filter).
  destruct (filter P l); [by apply elem_of_nil in Hin|done].
Qed.

Section Run.
Context {W : Type} `{Allocator W} `{WebKernel W} (Hmem : ∀ w : W, alloc_plenty w).
Implicit Types (s : web_ns W) (t : tree W) (N : gmap Z tnode) (L Q : list Z).

(** * The invariant *)

Record tree_ok t : Prop := {
  to_names : names_ok (tr_nodes t);
  to_kids a d k : tr_nodes t !! a = Some d → k ∈ t_kids d →
    ∃ kn, tr_nodes t !! k = Some kn ∧ wn_parent (t_node kn) = Some a;
  to_parent a d p : tr_nodes t !! a = Some d → wn_parent (t_node d) = Some p → is_Some (tr_nodes t !! p);
  to_vnid a d : tr_nodes t !! a = Some d → 1 ≤ wn_vnid (t_node d) < tr_next t;
  to_inj a b d e : tr_nodes t !! a = Some d → tr_nodes t !! b = Some e →
    wn_vnid (t_node d) = wn_vnid (t_node e) → a = b;
  to_next : 1 ≤ tr_next t ≤ 1248;
  to_size : Z.of_nat (size (tr_nodes t)) < tr_next t;
  to_addr a : is_Some (tr_nodes t !! a) → a < tr_addr t;
  to_top : ∃ d, tr_nodes t !! tr_top t = Some d ∧ wn_parent (t_node d) = None ∧ S_ISDIR (st_mode (wn_st (t_node d))) = true
}.

(** The fields of the volume. *)
Record volume s t : Prop := {
  vo_dev : nsid s = tr_dev t;
  vo_root : rootid s = tr_root t;
  vo_top : root s = Some (tr_top t);
  vo_world : world s = tr_world t;
  vo_addr : next_addr s = tr_addr t;
  vo_count : nodecount s = Z.of_nat (size (tr_nodes t));
  vo_lock : ns_l s = false;
  vo_cookies : cookies s = ∅;
  vo_pool : ∃ p, vnids s = Some p ∧ pool_ok (tr_next t) p
}.

Record rep s t : Prop := {
  rp_view : ∃ L, view closed s (tr_nodes t) L [] None ∧ ∀ a, a ∈ L ↔ is_Some (tr_nodes t !! a);
  rp_volume : volume s t;
  rp_tree : tree_ok t
}.

Lemma volume_env s s' t : env s' = env s → volume s t → volume s' t.
Proof.
  intros E [H1 H2 Ht H3 H4 H5 H6 H7 H8]. split.
  - by rewrite (f_equal nsid E : nsid s' = nsid s).
  - by rewrite (f_equal rootid E : rootid s' = rootid s).
  - by rewrite (f_equal root E : root s' = root s).
  - by rewrite (f_equal world E : world s' = world s).
  - by rewrite (f_equal next_addr E : next_addr s' = next_addr s).
  - by rewrite (f_equal nodecount E : nodecount s' = nodecount s).
  - by rewrite (f_equal ns_l E : ns_l s' = ns_l s).
  - by rewrite (f_equal cookies E : cookies s' = cookies s).
  - by rewrite (f_equal vnids E : vnids s' = vnids s).
Qed.

Lemma upd_lock_id s b : ns_l s = b → upd_lock b s = s.
Proof. intros <-. by destruct s. Qed.

Lemma env_upd_world s s' w : env s' = env s → env (upd_world w s') = env (upd_world w s).
Proof. intros E. exact (f_equal (upd_world w) E). Qed.

(** The kernel was called. *)
Lemma volume_world s t w : volume s t → volume (upd_world w s) (set_outside w t).
Proof. by intros [? ? ? ? ? ? ? ? ?]. Qed.

Lemma node_of_Some t v a : tree_ok t →
  node_of (tr_nodes t) v = Some a ↔ ∃ d, tr_nodes t !! a = Some d ∧ wn_vnid (t_node d) = v.
Proof.
  intros Hok. unfold node_of. split.
  - intros Hh. destruct (head _) as [[b d]|] eqn:E; [|done]. cbn in Hh. simplify_eq.
    apply head_filter_Some in E as [Hin Hv]. apply elem_of_map_to_list in Hin. eauto.
  - intros (d & Hd & Hv). destruct (head _) as [[b e]|] eqn:E.
    + apply head_filter_Some in E as [Hin Hv']. apply elem_of_map_to_list in Hin. cbn. f_equal.
      eapply (to_inj _ Hok); [done|done|]. cbn in Hv'. congruence.
    + exfalso. eapply (head_filter_None _ _ (a, d)) in E; [done|]. by apply elem_of_map_to_list.
Qed.

(** * Looking for a node *)

Lemma runs_read_vnode s t v (K : Z + Z * Z → web_ns W → Prop) :
  rep s t →
  (∀ a d ty, node_of (tr_nodes t) v = Some a → tr_nodes t !! a = Some d → K (inr (a, ty)) s) →
  (node_of (tr_nodes t) v = None → K (inl ENOENT) s) →
  runs (websearchfs_read_vnode v false) s K.
Proof.
  intros [(L & V & HL) Hvol Hok] HS HN.
  assert (upd_lock false (upd_lock true s) = s) as Eul.
  { exact (upd_lock_id s false (vo_lock _ _ Hvol)). }
  apply runs_bind, runs_bind, runs_getS. rewrite (vo_lock _ _ Hvol). apply runs_bind, runs_modifyS, runs_ret.
  apply runs_bind, runs_getS, runs_bind. cbn [heap nodes upd_lock].
  pose proof (vw_nodes _ _ _ _ _ _ V) as Hc.
  assert (@sll_find _ nl_link (heap s) (nodes s) (compare_fs_node_by_vnid (heap s) v) =
    Ok (head (filter (λ a, compare_fs_node_by_vnid (heap s) v a = 0) L))) as Ef.
  { unfold sll_find. rewrite (@sll_find_loop_run _ nl_link _ _ _ _ _ Hc). f_equal. rewrite take_ge.
    - by apply (list_find_head _ (λ a, compare_fs_node_by_vnid (heap s) v a = 0)).
    - pose proof (chain_length _ _ _ Hc). rewrite (view_size _ _ _ _ _ _ V) in *.
      pose proof (to_size _ Hok). pose proof (to_next _ Hok). lia. }
  eapply runs_liftO; [exact Ef|].
  assert (∀ a n, heap s !! a = Some n → compare_fs_node_by_vnid (heap s) v a = 0 ↔ wn_vnid n = v) as Hcmp.
  { intros a n Hn. unfold compare_fs_node_by_vnid. rewrite Hn. destruct (Z.eqb_spec (wn_vnid n) v); lia. }
  destruct (head _) as [a|] eqn:E.
  - apply head_filter_Some in E as [Hin Hv]. destruct (proj1 (HL a) Hin) as [d Hd].
    destruct (view_lookup _ _ _ _ _ _ _ _ V Hd) as (n & Hn & Eb).
    apply runs_bind, runs_bind. eapply runs_eq; [unfold get; cbn; by rewrite Hn|]. apply runs_ret.
    apply runs_bind, runs_modifyS, runs_ret. rewrite Eul. apply (HS a d); [|done].
    apply node_of_Some; [done|]. exists d. split; [done|]. rewrite <- Eb. by apply (Hcmp a n Hn).
  - apply runs_bind, runs_ret, runs_bind, runs_modifyS, runs_ret. rewrite Eul. apply HN.
    destruct (node_of (tr_nodes t) v) as [a|] eqn:En; [|done]. exfalso.
    apply (node_of_Some t v a Hok) in En as (d & Hd & Hv). destruct (view_lookup _ _ _ _ _ _ _ _ V Hd) as (n & Hn & Eb).
    eapply (head_filter_None _ _ a) in E; [|apply HL; by eexists]. apply E, (Hcmp a n Hn). rewrite <- Hv, <- Eb. done.
Qed.

Lemma runs_vnid op s N L Q lk o dflt (K : Z → web_ns W → Prop) :
  view op s N L Q lk → (∀ p, o = Some p → is_Some (N !! p)) →
  K (vnid_at N o dflt) s → runs (vnid_of o dflt) s K.
Proof.
  intros V Ho HK. destruct o as [p|]; [|by apply runs_ret]. destruct (Ho p eq_refl) as [d Hd].
  apply runs_bind. eapply runs_get; [done|done|]. intros n Hn Eb. apply runs_ret.
  unfold vnid_at in HK. cbn in HK. rewrite Hd in HK. by rewrite <- Eb in HK.
Qed.

(** * Walking *)

Lemma child_in N dir name a : child N dir name = Some a →
  ∃ d, N !! dir = Some d ∧ a ∈ t_kids d ∧ named N name a = true.
Proof.
  unfold child. destruct (N !! dir) as [d|]; [|done]. intros [? ?]%head_filter_Some. eauto.
Qed.

Lemma child_node t dir name a : tree_ok t → child (tr_nodes t) dir name = Some a →
  ∃ k, tr_nodes t !! a = Some k ∧ wn_name (t_node k) = name ∧ wn_parent (t_node k) = Some dir.
Proof.
  intros Hok (d & Hd & Hin & Hnm)%child_in. destruct (to_kids _ Hok _ _ _ Hd Hin) as (k & Hk & Hp).
  exists k. split; [done|]. split; [|done]. unfold named in Hnm. rewrite Hk in Hnm. by apply bool_decide_eq_true in Hnm.
Qed.

Lemma small t : tree_ok t → (size (tr_nodes t) ≤ 5000)%nat.
Proof. intros Hok. pose proof (to_size _ Hok). pose proof (to_next _ Hok). lia. Qed.

Lemma runs_walk s t a d name (K : Z + Z → web_ns W → Prop) :
  rep s t → tr_nodes t !! a = Some d → no_nul name →
  (∀ s', rep s' (spec_walk t a name).2 → K (spec_walk t a name).1 s') →
  runs (websearchfs_walk a (Some name)) s K.
Proof.
  intros [(L & V & HL) Hvol Hok] Hd Hn0 HK. apply runs_bind. eapply runs_LOCK; [done|done|]. intros s1 V1 E1.
  apply runs_bind. eapply runs_get; [done|done|]. intros b Hb Eb. apply runs_bind. unfold spec_walk in HK. rewrite Hd in HK.
  set (r := if bool_decide (name = DOTDOT) then _ else _) in HK.
  assert (∀ K' : Z + Z → web_ns W → Prop, K' r s1 →
    runs (if bool_decide (name = DOTDOT) then
            match wn_parent b with Some p => v ← vnid_of (Some p) 0; mret (inr v) | None => mret (inl EINVAL) end
          else if bool_decide (name = DOT) then mret (inr (wn_vnid b))
          else n ← find_child a name;
               match n with Some a => v ← vnid_of (Some a) 0; mret (inr v) | None => mret (inl ENOENT) end) s1 K') as Hr.
  { intros K' HK'. unfold r in HK'. rewrite <- Eb in HK'. case_bool_decide; [|case_bool_decide].
    - change (wn_parent (bare b)) with (wn_parent b) in HK'. destruct (wn_parent b) as [p|] eqn:Ep; [|by apply runs_ret].
      apply runs_bind. eapply runs_vnid; [done| |by apply runs_ret]. intros p' [= <-].
      eapply (to_parent _ Hok); [done|]. by rewrite <- Eb.
    - by apply runs_ret.
    - apply runs_bind. eapply runs_find_child; [done|apply Hok|by apply small|done|done|].
      destruct (child (tr_nodes t) a name) as [c|] eqn:Ec; [|by apply runs_ret]. apply runs_bind.
      eapply runs_vnid; [done| |by apply runs_ret]. intros p [= <-]. destruct (child_node _ _ _ _ Hok Ec) as (k & Hk & _). by eexists. }
  apply Hr. apply runs_bind. destruct r as [e|v].
  - apply runs_ret, runs_bind. eapply runs_UNLOCK; [done|done|]. intros s2 V2 E2. apply runs_ret, HK.
    split; [by exists L| |done]. eapply volume_env; [|done]. congruence.
  - apply runs_bind. pose proof (vo_world _ _ Hvol) as Ew. pose proof (f_equal world E1 : world s1 = world s) as Ew1.
    destruct (wk_get_vnode v (tr_world t)) as [e w] eqn:Eg.
    eapply runs_eq; [unfold call_world; by rewrite Ew1, Ew, Eg|]. apply runs_ret, runs_bind.
    eapply runs_UNLOCK; [by eapply view_env|done|]. intros s2 V2 E2. apply runs_ret, HK. cbn [snd fst].
    split; [by exists L| |by destruct Hok]. eapply volume_env; [exact E2|].
    eapply volume_env; [by apply env_upd_world|]. by apply volume_world.
Qed.

(** * Creating *)

Lemma five_digits_length i : length (five_digits i) = 5%nat.
Proof. done. Qed.

Lemma unique_name_ok name i : no_nul name → no_nul (unique_name name i) ∧ zlen (unique_name name i) < 70.
Proof.
  intros Hn. unfold unique_name. split.
  - apply Forall_app. split; [by apply Forall_take|]. constructor; [done|]. unfold five_digits.
    repeat (constructor; [match goal with |- context [?x mod 10] => pose proof (Z.mod_pos_bound x 10) end; lia|]). constructor.
  - rewrite length_app, length_take, length_cons, five_digits_length. lia.
Qed.

(** The names tried from the [i]-th on. *)
Definition candidates (name : list Z) (i : Z) (fuel : nat) : list (list Z) :=
  unique_name name <$> seqZ i (Z.of_nat fuel).

Lemma runs_uniquify fuel s t L lk dir d name (K : list Z * option Z → web_ns W → Prop) : ∀ nm i,
  view closed s (tr_nodes t) L [] lk → tree_ok t → tr_nodes t !! dir = Some d → no_nul name →
  (∀ nm', head (filter (λ nm, child (tr_nodes t) dir nm = None) (nm :: candidates name i fuel)) = Some nm' → K (nm', None) s) →
  (∀ nm' b, head (filter (λ nm, child (tr_nodes t) dir nm = None) (nm :: candidates name i fuel)) = None → K (nm', Some b) s) →
  runs (uniquify fuel dir name nm (child (tr_nodes t) dir nm) i) s K.
Proof.
  induction fuel as [|fuel IH]; intros nm i V Hok Hd Hn HS HN; cbn [uniquify].
  - destruct (child (tr_nodes t) dir nm) as [b|] eqn:Ec; apply runs_ret.
    + apply HN. rewrite filter_cons_False by congruence. done.
    + apply HS. by rewrite filter_cons_True.
  - destruct (child (tr_nodes t) dir nm) as [b|] eqn:Ec.
    + rewrite filter_cons_False in HS, HN by congruence. unfold candidates in HS, HN.
      rewrite Nat2Z.inj_succ, seqZ_cons in HS, HN by lia. rewrite Z.pred_succ in HS, HN. cbn [fmap list_fmap] in HS, HN.
      apply runs_bind. eapply runs_find_child; [done|apply Hok|by apply small|by apply unique_name_ok|done|].
      rewrite <- Z.add_1_r in HS, HN. by apply IH.
    + apply runs_ret, HS. by rewrite filter_cons_True.
Qed.

Lemma size_enter N a dir x d y : N !! a = None → N !! dir = Some d → size (<[a := x]> (<[dir := y]> N)) = S (size N).
Proof.
  intros Ha Hd. rewrite map_size_insert_None.
  - f_equal. rewrite map_size_insert, Hd. done.
  - rewrite lookup_insert_ne; [done|congruence].
Qed.

Lemma tree_ok_enter t dir d name perms iattrs mkdir :
  tree_ok t → tr_nodes t !! dir = Some d → no_nul name → zlen name < 70 → tr_next t < 1248 →
  tree_ok (enter t dir d name perms iattrs mkdir).
Proof.
  intros Hok Hd Hn Hl Hnx. unfold enter. destruct (wk_time (tr_world t)) as [tm w].
  assert (tr_nodes t !! tr_addr t = None) as Hnew.
  { destruct (tr_nodes t !! tr_addr t) eqn:E; [|done]. assert (is_Some (tr_nodes t !! tr_addr t)) as Hs by (by eexists).
    apply (to_addr _ Hok) in Hs. lia. }
  assert (dir ≠ tr_addr t) as Hne by congruence.
  set (n := mkWn None None None (Some dir) None None name (tr_next t) false false false _ None None iattrs [] None 0).
  set (d' := mkT (set_st _ _) _).
  (* every node of the new tree is the new one, the folder, or an old one *)
  assert (∀ a x, <[tr_addr t := mkT n []]> (<[dir := d']> (tr_nodes t)) !! a = Some x →
    a = tr_addr t ∧ x = mkT n [] ∨ ∃ y, tr_nodes t !! a = Some y ∧ wn_vnid (t_node x) = wn_vnid (t_node y) ∧
      wn_parent (t_node x) = wn_parent (t_node y) ∧ wn_name (t_node x) = wn_name (t_node y) ∧
      (t_kids x = t_kids y ∨ a = dir ∧ t_kids x = tr_addr t :: t_kids y)) as Hcases.
  { intros a x [[<- <-]|[Hna [[<- <-]|[Hnd Hx]]%lookup_insert_Some]]%lookup_insert_Some; [by left|right..].
    - exists d. split_and!; auto.
    - exists x. split_and!; auto. }
  assert (∀ a x, tr_nodes t !! a = Some x → ∃ y, <[tr_addr t := mkT n []]> (<[dir := d']> (tr_nodes t)) !! a = Some y ∧
    wn_parent (t_node y) = wn_parent (t_node x) ∧ st_mode (wn_st (t_node y)) = st_mode (wn_st (t_node x))) as Hold.
  { intros a x Hx. rewrite lookup_insert_ne by congruence. destruct (decide (a = dir)) as [->|].
    - rewrite lookup_insert_eq. exists d'. split; [done|]. cbn. by simplify_eq.
    - rewrite lookup_insert_ne by done. eauto. }
  split; cbn [tr_nodes tr_next tr_addr tr_top].
  - intros a x [[-> ->]|(y & Hy & _ & _ & -> & _)]%Hcases; [done|]. by apply (to_names _ Hok a).
  - intros a x k Hx Hk. destruct (Hcases a x Hx) as [[-> ->]|(y & Hy & _ & _ & _ & Hkids)]; [by apply elem_of_nil in Hk|].
    assert (k ∈ t_kids y ∨ k = tr_addr t ∧ a = dir) as [Hky|[-> ->]].
    { destruct Hkids as [E|[-> E]]; rewrite E in Hk; [by left|]. apply elem_of_cons in Hk as [->|]; auto. }
    + destruct (to_kids _ Hok _ _ _ Hy Hky) as (kn & Hkn & Hp). destruct (Hold k kn Hkn) as (z & Hz & Ez & _).
      exists z. split; [done|]. congruence.
    + rewrite lookup_insert_eq. by exists (mkT n []).
  - intros a x p [[-> ->]|(y & Hy & _ & -> & _)]%Hcases Hp.
    + cbn in Hp. simplify_eq. destruct (Hold p d Hd) as (z & -> & _). by eexists.
    + destruct (to_parent _ Hok _ _ _ Hy Hp) as [q Hq]. destruct (Hold p q Hq) as (z & -> & _). by eexists.
  - intros a x [[-> ->]|(y & Hy & -> & _)]%Hcases; [cbn; pose proof (to_next _ Hok); lia|].
    pose proof (to_vnid _ Hok a y Hy). lia.
  - intros a b x y [[-> ->]|(x' & Hx & Ex & _)]%Hcases [[-> ->]|(y' & Hy & Ey & _)]%Hcases E; [done| | |].
    + pose proof (to_vnid _ Hok b y' Hy). cbn in E. lia.
    + pose proof (to_vnid _ Hok a x' Hx). cbn in E. lia.
    + eapply (to_inj _ Hok); [done|done|congruence].
  - pose proof (to_next _ Hok). lia.
  - rewrite (size_enter _ _ _ _ d) by done. pose proof (to_size _ Hok). lia.
  - intros a [x [[-> ->]|(y & Hy & _)]%Hcases]; [lia|]. assert (is_Some (tr_nodes t !! a)) as Hs by (by eexists).
    apply (to_addr _ Hok) in Hs. lia.
  - destruct (to_top _ Hok) as (x & Hx & Ep & Em). destruct (Hold _ _ Hx) as (y & Hy & Ey & Es). exists y. by rewrite Ey, Es.
Qed.

Lemma runs_alloc s (K : bool → web_ns W → Prop) : K true s → runs alloc s K.
Proof.
  intros HK. eexists _, _. split; [|exact HK]. unfold alloc, call_world.
  rewrite (alloc_next_plenty _ (Hmem (world s))). f_equal. f_equal. by destruct s.
Qed.

Lemma runs_create_node s t L dir d name perms iattrs mkdir (K : Z + Z → web_ns W → Prop) :
  view closed s (tr_nodes t) L [] (Some dir) → (∀ a, a ∈ L ↔ is_Some (tr_nodes t !! a)) → volume s t → tree_ok t →
  tr_nodes t !! dir = Some d → tr_next t < 1248 →
  (∀ s' L', let t' := enter t dir d name perms iattrs mkdir in
     view closed s' (tr_nodes t') L' [] (Some dir) → (∀ a, a ∈ L' ↔ is_Some (tr_nodes t' !! a)) → volume s' t' →
     K (inr (tr_addr t)) s') →
  runs (create_node dir name perms iattrs mkdir) s K.
Proof.
  intros V HL Hvol Hok Hd Hnx HK. pose proof (to_next _ Hok) as Hlo. pose proof (to_size _ Hok) as Hsz.
  assert (tr_nodes t !! tr_addr t = None) as Hnew.
  { destruct (tr_nodes t !! tr_addr t) eqn:E; [|done]. assert (is_Some (tr_nodes t !! tr_addr t)) as Hs by (by eexists).
    apply (to_addr _ Hok) in Hs. lia. }
  assert (dir ≠ tr_addr t) as Hne by congruence.
  assert (tr_addr t ∉ L) as HnL by (rewrite HL, Hnew; by intros []).
  assert (∀ b db, tr_nodes t !! b = Some db → tr_addr t ∉ t_kids db) as Hnk.
  { intros b db Hb Hin. destruct (to_kids _ Hok _ _ _ Hb Hin) as (? & ? & _). congruence. }
  destruct (vo_pool _ _ Hvol) as (p & Ep & Hp). destruct (pool_get _ _ Hp ltac:(lia) Hnx) as (p' & Eg & Hp').
  unfold create_node. apply runs_bind, runs_alloc. cbn [negb]. apply runs_bind, runs_getS, runs_bind.
  rewrite Ep. eapply runs_liftO; [exact Eg|]. apply runs_bind, runs_modifyS. cbn [Z.ltb Z.compare B_OK].
  apply runs_bind, runs_modifyS, runs_bind. destruct (wk_time (tr_world t)) as [tm w] eqn:Et.
  eapply runs_eq; [unfold call_world; cbn [world upd_count upd_volume]; by rewrite (vo_world _ _ Hvol), Et|].
  set (s1 := upd_world w _). apply runs_bind. rewrite (vo_dev _ _ Hvol).
  assert (next_addr s1 = tr_addr t) as Ea1 by apply Hvol.
  eapply (runs_new_node closed s1 (tr_nodes t) L [] (Some dir)); rewrite ?Ea1; try done; [by eapply view_env|congruence|intros b [= <-]; by eexists|apply not_elem_of_nil|].
  intros s2 V2 _ E2. apply runs_bind, runs_bind, runs_getS.
  assert (ns_l s2 = false) as El2.
  { rewrite (f_equal ns_l E2 : ns_l s2 = _). apply Hvol. }
  rewrite El2. apply runs_bind, runs_modifyS, runs_ret, runs_bind.
  eapply runs_nodes_insert; [by eapply (view_env _ s2)|apply lookup_insert_eq|done|]. intros s3 V3 E3. apply runs_bind.
  eapply runs_children_insert; [done|by rewrite lookup_insert_ne|apply lookup_insert_eq| |].
  { intros b db [[<- <-]|[_ Hb]]%lookup_insert_Some; [apply not_elem_of_nil|by eapply Hnk]. }
  intros s4 V4 E4. apply runs_bind.
  eapply (runs_change closed s4 _ _ _ _ _ _ _ (λ x, set_family (Some dir) None x)); [exact V4|by rewrite lookup_insert_ne, lookup_insert_eq|done|].
  intros s5 V5 E5. apply runs_bind.
  eapply (runs_change closed s5 _ _ _ _ _ _ _ (λ x, set_st (inc_nlink (wn_st x)) x)); [exact V5|by rewrite lookup_insert_ne, lookup_insert_eq|done|].
  intros s6 V6 E6. apply runs_bind, runs_modifyS, runs_bind.
  eapply (runs_change closed (upd_lock false s6) _ _ _ _ _ _ _ (λ x, set_attrs iattrs (wn_attrs x) x));
    [by eapply view_env|by rewrite lookup_insert_ne, lookup_insert_eq|done|].
  intros s7 V7 E7. apply runs_bind. eapply runs_get; [exact V7|by rewrite lookup_insert_ne, lookup_insert_eq|].
  intros n Hn Eb. apply runs_bind, runs_modifyS, runs_bind, runs_modifyS, runs_ret.
  (* the volume *)
  assert (env s7 = upd_heap ∅ (tr_addr t + 1) (env s1)) as E.
  { rewrite E7. transitivity (upd_lock false (env s6)); [done|]. rewrite E6, E5, E4, E3.
    transitivity (upd_lock false (env s2)); [done|]. rewrite E2. apply upd_lock_id. exact (vo_lock _ _ Hvol). }
  assert (wn_vnid n = wn_vnid (t_node d)) as Ev by exact (f_equal wn_vnid Eb).
  apply (HK _ (tr_addr t :: L)); unfold enter; rewrite Et; cbn [tr_nodes].
  - eapply (view_env closed s7); [|done..].
    match type of V7 with view _ _ ?X _ _ _ => match goal with |- view _ _ ?Y _ _ _ => replace Y with X; [exact V7|] end end.
    apply map_eq. intros b. destruct (decide (b = tr_addr t)) as [->|]; [by rewrite !lookup_insert_eq|].
    destruct (decide (b = dir)) as [->|].
    + rewrite lookup_insert_ne, lookup_insert_eq, lookup_insert_ne, lookup_insert_eq by done. done.
    + by rewrite !lookup_insert_ne by done.
  - intros a. rewrite elem_of_cons, HL. destruct (decide (a = tr_addr t)) as [->|].
    + rewrite lookup_insert_eq. split; [by eexists|by left].
    + rewrite lookup_insert_ne by done. destruct (decide (a = dir)) as [->|].
      * rewrite lookup_insert_eq, Hd. split; [by eexists|by right; eexists].
      * rewrite lookup_insert_ne by done. tauto.
  - split; cbn [tr_nodes tr_dev tr_root tr_top tr_world tr_addr tr_next];
      cbn [nsid rootid root world next_addr nodecount ns_l cookies vnids upd_world].
    + rewrite (f_equal nsid E : nsid s7 = _). apply Hvol.
    + rewrite (f_equal rootid E : rootid s7 = _). apply Hvol.
    + rewrite (f_equal root E : root s7 = root s). apply Hvol.
    + rewrite (f_equal nsid E : nsid s7 = nsid s), (f_equal world E : world s7 = w), (vo_dev _ _ Hvol), Ev. done.
    + by rewrite (f_equal next_addr E : next_addr s7 = _).
    + rewrite (f_equal nodecount E : nodecount s7 = s32 (nodecount s + 1)), (vo_count _ _ Hvol).
      rewrite (size_enter _ _ _ _ d) by done. rewrite s32_id by (unfold is_s32; lia). lia.
    + rewrite (f_equal ns_l E : ns_l s7 = _). apply Hvol.
    + rewrite (f_equal cookies E : cookies s7 = _). apply Hvol.
    + exists p'. by rewrite (f_equal vnids E : vnids s7 = _).
Qed.

Lemma free_name_head N dir name :
  free_name N dir name = head (filter (λ nm, child N dir nm = None) (name :: candidates name 1 4999)).
Proof.
  unfold free_name. destruct (child N dir name) eqn:E; [by rewrite filter_cons_False by congruence|by rewrite filter_cons_True].
Qed.

Lemma free_name_ok N dir name nm : no_nul name → zlen name ≤ 69 → free_name N dir name = Some nm →
  no_nul nm ∧ zlen nm < 70.
Proof.
  rewrite free_name_head. intros Hn Hl [Hin _]%head_filter_Some. apply elem_of_cons in Hin as [->|Hin]; [split; [done|lia]|].
  apply list_elem_of_fmap in Hin as (i & -> & _). by apply unique_name_ok.
Qed.

Lemma enter_nodes t dir d name perms iattrs mkdir :
  is_Some (tr_nodes (enter t dir d name perms iattrs mkdir) !! dir).
Proof.
  unfold enter. destruct (wk_time (tr_world t)). cbn. destruct (decide (tr_addr t = dir)) as [->|].
  - rewrite lookup_insert_eq. by eexists.
  - rewrite lookup_insert_ne, lookup_insert_eq by done. by eexists.
Qed.

Lemma runs_create_gen s t a d name omode perms iattrs mkdir uniq (K : Z + Z → web_ns W → Prop) :
  rep s t → tr_nodes t !! a = Some d → no_nul name → tr_next t < 1248 →
  (∀ s', rep s' (spec_create t a name omode perms iattrs mkdir uniq).2 →
     K (spec_create t a name omode perms iattrs mkdir uniq).1 s') →
  runs (websearchfs_create_gen a name omode perms iattrs mkdir uniq) s K.
Proof.
  intros HR Hd Hn Hnx HK. pose proof HR as [(L & V & HL) Hvol Hok].
  destruct (spec_create t a name omode perms iattrs mkdir uniq) as [r0 t0] eqn:Esc. cbn [fst snd] in HK.
  unfold spec_create in Esc. rewrite Hd in Esc. unfold websearchfs_create_gen.
  destruct (Z.ltb_spec (WEBSEARCHFS_NAME_LEN - 1) (zlen name)) as [Hlong|Hlen]; [simplify_eq; by apply runs_ret, HK|].
  change (zlen name ≤ 69) in Hlen.
  apply runs_bind. eapply runs_LOCK; [done|done|]. intros s1 V1 E1. apply runs_bind. eapply runs_get; [done|done|].
  intros n Hnode Eb. rewrite <- Eb in Esc. change (wn_st (bare n)) with (wn_st n) in Esc.
  pose proof (volume_env _ _ _ E1 Hvol) as Hvol1. apply runs_bind.
  (* the end, for a tree that stayed and for one with a new node *)
  assert (t = t0 → runs (UNLOCK a;; mret r0) s1 K) as Hsame.
  { intros <-. apply runs_bind. eapply runs_UNLOCK; [done|done|]. intros s2 V2 E2. apply runs_ret, HK.
    split; [by exists L| |done]. eapply volume_env; [exact E2|done]. }
  assert (∀ nm, no_nul nm → zlen nm < 70 → inr (tr_addr t) = r0 → enter t a d nm perms iattrs mkdir = t0 →
    runs (create_node a nm perms iattrs mkdir) s1 (λ r s', runs (UNLOCK a;; mret r) s' K)) as Hnew.
  { intros nm Hnm Hlnm <- <-. eapply runs_create_node; [done|done|done|done|exact Hd|done|]. intros s2 L2 t' V2 HL2 Hvol2.
    destruct (enter_nodes t a d nm perms iattrs mkdir) as [d' Hd'].
    apply runs_bind. eapply runs_UNLOCK; [exact V2|exact Hd'|]. intros s3 V3 E3. apply runs_ret, HK.
    split; [by exists L2| |by apply tree_ok_enter]. by eapply volume_env. }
  destruct (S_ISDIR (st_mode (wn_st n))); cbn [negb] in Esc |- *; [|simplify_eq; by apply runs_ret, Hsame].
  apply runs_bind. eapply runs_find_child; [done|apply Hok|by apply small|done|done|].
  destruct uniq; cbn [negb].
  - rewrite andb_false_r. apply runs_bind. eapply runs_uniquify; [exact V1|done|done|done| |].
    + intros nm Enm. rewrite <- free_name_head in Enm. rewrite Enm in Esc. simplify_eq.
      destruct (free_name_ok _ _ _ _ Hn Hlen Enm). by apply Hnew.
    + intros nm b Enm. rewrite <- free_name_head in Enm. rewrite Enm in Esc. simplify_eq.
      by apply runs_ret, Hsame.
  - rewrite andb_true_r. destruct (child (tr_nodes t) a name) as [b|].
    + rewrite bool_decide_true by (by eexists). cbn [andb]. destruct (has_flag omode O_EXCL); cbn [orb] in Esc.
      * simplify_eq. by apply runs_ret, Hsame.
      * apply runs_bind, runs_ret. cbn [orb]. destruct mkdir; simplify_eq; by apply runs_ret, Hsame.
    + rewrite bool_decide_false by (by intros []). cbn [andb]. apply runs_bind, runs_ret. simplify_eq.
      apply Hnew; [done|lia|done|done].
Qed.
End Run.
