(* ===== verification/WebServe.v ===== *)
(** Entries leave their folders, nodes go, and nodes and folders are read. *)

From S2P Require Import Prelude Errors LinkedList SList VnidPool WebFs WebTree WebView WebRun.

Lemma filter_all {A} (P : A → Prop) `{∀ x, Decision (P x)} (l : list A) : Forall P l → filter P l = l.
Proof. induction 1; [done|]. rewrite filter_cons_True by done. by f_equal. Qed.

Lemma filter_ne_split {A} `{EqDecision A} (l1 l2 : list A) a :
  NoDup (l1 ++ a :: l2) → filter (λ b, b ≠ a) (l1 ++ a :: l2) = l1 ++ l2.
Proof.
  intros (Hn1 & Hd & [Ha Hn2]%NoDup_cons)%NoDup_app. rewrite filter_app, filter_cons_False by (intros Hb; by apply Hb).
  f_equal; apply filter_all, Forall_forall.
  - intros x Hx ->. apply (Hd a Hx). by left.
  - by intros x Hx ->.
Qed.

Section Serve.
Context {W : Type} `{WebKernel W}.
Implicit Types (s : web_ns W) (t : tree W) (N : gmap Z tnode) (L Q : list Z).

(** * Removing *)

Lemma unlinked_lookup N dir a b x : unlinked N dir a !! b = Some x →
  ∃ y, N !! b = Some y ∧ t_node x = t_node y ∧ ∀ k, k ∈ t_kids x → k ∈ t_kids y.
Proof.
  unfold unlinked. intros [(-> & y & Hy & ->)|[Hne Hx]]%lookup_alter_Some.
  - exists y. split_and!; [done|done|]. cbn. intros k [_ Hk]%list_elem_of_filter. done.
  - exists x. auto.
Qed.

Lemma unlinked_is_Some N dir a b : is_Some (unlinked N dir a !! b) ↔ is_Some (N !! b).
Proof. unfold unlinked. by rewrite lookup_alter_is_Some. Qed.

Lemma unlinked_node N dir a b y : N !! b = Some y → ∃ x, unlinked N dir a !! b = Some x ∧ t_node x = t_node y.
Proof.
  intros Hy. destruct (proj2 (unlinked_is_Some N dir a b)) as [x Hx]; [by eexists|].
  exists x. split; [done|]. destruct (unlinked_lookup _ _ _ _ _ Hx) as (y' & Hy' & E & _). congruence.
Qed.

Lemma unlinked_size N dir a : size (unlinked N dir a) = size N.
Proof. unfold unlinked. by rewrite <- !size_dom, dom_alter_L. Qed.

Lemma tree_ok_unlinked t dir a : tree_ok t → tree_ok (set_nodes (unlinked (tr_nodes t) dir a) t).
Proof.
  intros Hok. split; cbn [set_nodes tr_nodes tr_next tr_addr tr_top].
  - intros b x (y & Hy & -> & _)%unlinked_lookup. by apply (to_names _ Hok b).
  - intros b x k (y & Hy & _ & Hk)%unlinked_lookup Hin. destruct (to_kids _ Hok _ _ _ Hy (Hk _ Hin)) as (z & Hz & Ez).
    destruct (unlinked_node _ dir a _ _ Hz) as (z' & Hz' & E). exists z'. split; [done|]. by rewrite E.
  - intros b x p (y & Hy & -> & _)%unlinked_lookup Hp. apply unlinked_is_Some. by eapply (to_parent _ Hok).
  - intros b x (y & Hy & -> & _)%unlinked_lookup. by apply (to_vnid _ Hok b).
  - intros b c x x' (y & Hy & -> & _)%unlinked_lookup (y' & Hy' & -> & _)%unlinked_lookup. by apply (to_inj _ Hok).
  - apply Hok.
  - rewrite unlinked_size. apply Hok.
  - intros b Hb%unlinked_is_Some. by apply (to_addr _ Hok).
  - destruct (to_top _ Hok) as (x & Hx & Ep). destruct (unlinked_node _ dir a _ _ Hx) as (y & Hy & Ey). exists y. by rewrite Ey.
Qed.

(** The entries of different folders are different. *)
Lemma kids_disjoint t dir d : tree_ok t → tr_nodes t !! dir = Some d →
  ∀ b db, b ≠ dir → tr_nodes t !! b = Some db → ∀ c, c ∈ t_kids db → c ∉ t_kids d.
Proof.
  intros Hok Hd b db Hne Hb c Hc Hc'. destruct (to_kids _ Hok _ _ _ Hb Hc) as (x & Hx & Ex).
  destruct (to_kids _ Hok _ _ _ Hd Hc') as (y & Hy & Ey). congruence.
Qed.

Lemma runs_children_unlink s t L lk dir d a (K : Z → web_ns W → Prop) :
  view closed s (tr_nodes t) L [] lk → tree_ok t → tr_nodes t !! dir = Some d → a ∈ t_kids d →
  (∀ s', view closed s' (unlinked (tr_nodes t) dir a) L [] lk → env s' = env s → K B_OK s') →
  runs (on_children dir (λ h first, @sll_remove _ dir_link h first (Some a))) s K.
Proof.
  intros V Hok Hd Ha HK. destruct (view_lookup _ _ _ _ _ _ _ _ V Hd) as (n & Hn & _).
  pose proof (chain_NoDup _ _ _ (vw_kids _ _ _ _ _ _ V _ _ _ Hn Hd)) as Hnd.
  apply list_elem_of_split in Ha as (l1 & l2 & E).
  eapply runs_children_remove; [done|done|exact E|by eapply kids_disjoint|]. intros s' V' E'. apply HK; [|done].
  replace (unlinked (tr_nodes t) dir a) with (<[dir := mkT (t_node d) (l1 ++ l2)]> (tr_nodes t)); [done|].
  unfold unlinked. rewrite E in Hnd. apply map_eq. intros b. destruct (decide (dir = b)) as [<-|].
  - rewrite lookup_insert_eq, lookup_alter_eq, Hd. cbn. by rewrite E, filter_ne_split.
  - by rewrite lookup_insert_ne, lookup_alter_ne.
Qed.

Lemma volume_nodes s t N : size N = size (tr_nodes t) → volume s t → volume s (set_nodes N t).
Proof. intros E [? ? ? ? ? Ec ? ? ?]. split; try done. rewrite Ec. cbn. by rewrite E. Qed.

Lemma runs_unlink s t a d name (K : Z → web_ns W → Prop) :
  rep s t → tr_nodes t !! a = Some d → no_nul name →
  (∀ s', rep s' (spec_unlink t a name).2 → K (spec_unlink t a name).1 s') →
  runs (websearchfs_unlink a name) s K.
Proof.
  intros [(L & V & HL) Hvol Hok] Hd Hn HK. unfold websearchfs_unlink, websearchfs_unlink_gen.
  destruct (spec_unlink t a name) as [e t0] eqn:Es. cbn [fst snd] in HK. unfold spec_unlink in Es.
  apply runs_bind. eapply runs_LOCK; [done|done|]. intros s1 V1 E1. pose proof (volume_env _ _ _ E1 Hvol) as Hvol1.
  apply runs_bind. eapply runs_find_child; [done|apply Hok|by apply small|done|done|].
  apply runs_bind, runs_getS, runs_bind.
  assert (t = t0 → runs (UNLOCK a;; mret e) s1 K) as Hsame.
  { intros <-. apply runs_bind. eapply runs_UNLOCK; [done|done|]. intros s2 V2 E2. apply runs_ret, HK.
    split; [by exists L| |done]. by eapply volume_env. }
  destruct (child (tr_nodes t) a name) as [c|] eqn:Ec; [|simplify_eq; by apply runs_ret, Hsame].
  destruct (child_node _ _ _ _ Hok Ec) as (k & Hk & _). rewrite Hk in Es.
  apply child_in in Ec as (d' & Hd' & Hin & _). simplify_eq.
  apply runs_bind. eapply runs_get; [done|exact Hk|]. intros n Hnode Eb.
  assert (bool_decide (is_Some (wn_children n)) = negb (bool_decide (t_kids k = []))) as ->.
  { pose proof (vw_kids _ _ _ _ _ _ V1 _ _ _ Hnode Hk) as Hc. inversion Hc; subst.
    - rewrite bool_decide_false by (by intros []). by rewrite bool_decide_true.
    - rewrite bool_decide_true by (by eexists). by rewrite bool_decide_false. }
  rewrite <- Eb in Es. change (wn_is_perm (bare n)) with (wn_is_perm n) in Es. change (wn_vnid (bare n)) with (wn_vnid n) in Es.
  destruct (negb _); [simplify_eq; by apply runs_ret, Hsame|].
  destruct (wn_is_perm n); [simplify_eq; by apply runs_ret, Hsame|].
  rewrite (vo_root _ _ Hvol1). destruct (wn_vnid n =? tr_root t); [simplify_eq; by apply runs_ret, Hsame|].
  apply runs_bind. eapply runs_children_unlink; [done|done|done|done|]. intros s2 V2 E2.
  destruct (unlinked_node _ a c _ _ Hd) as (d2 & Hd2 & Ed2).
  apply runs_bind. eapply runs_get; [done|exact Hd2|]. intros x Hx Ex.
  apply runs_bind, runs_modifyS, runs_bind.
  assert (wn_vnid x = vnid_at (tr_nodes t) (Some a) 0) as Ev.
  { unfold vnid_at. cbn. rewrite Hd, <- Ed2, <- Ex. done. }
  set (w := wk_notify _ _) in Es. destruct (wk_remove_vnode (wn_vnid n) w) as [e' w'] eqn:Er. injection Es as <- <-.
  eapply runs_eq.
  { unfold call_world. cbn [world upd_world].
    rewrite (f_equal world E2 : world s2 = world s1), (vo_world _ _ Hvol1), Ev. fold w. by rewrite Er. }
  apply runs_ret, runs_bind. eapply runs_UNLOCK; [by eapply (view_env _ s2)|exact Hd2|]. intros s3 V3 E3. apply runs_ret, HK.
  split.
  - exists L. split; [done|]. intros b. cbn. by rewrite unlinked_is_Some.
  - eapply volume_env; [exact E3|]. apply (volume_world (upd_world w s2) (set_outside w (set_nodes _ t))).
    apply (volume_world s2 (set_nodes (unlinked (tr_nodes t) a c) t)), volume_nodes; [by rewrite unlinked_size|]. by eapply volume_env.
  - by apply (tree_ok_unlinked t a c) in Hok as [].
Qed.

(** * A node goes *)

Lemma unlinked_absent N dir a d : N !! dir = Some d → a ∉ t_kids d → unlinked N dir a = N.
Proof.
  intros Hd Ha. unfold unlinked. apply alter_id. intros x Hx. assert (x = d) as -> by congruence. rewrite filter_all; [by destruct d|].
  apply Forall_forall. by intros b Hb ->.
Qed.

Lemma size_delete N a d : N !! a = Some d → Z.of_nat (size (delete a N)) = Z.of_nat (size N) - 1.
Proof. intros Hd. rewrite <- (insert_delete_id N a d Hd) at 2. rewrite map_size_insert_None by apply lookup_delete_eq. lia. Qed.

Lemma tree_ok_delete t a : tree_ok t → a ≠ tr_top t → (∀ b d, tr_nodes t !! b = Some d → a ∉ t_kids d) →
  map_Forall (λ _ c, wn_parent (t_node c) ≠ Some a) (tr_nodes t) → tree_ok (set_nodes (delete a (tr_nodes t)) t).
Proof.
  intros Hok Htop Hk Hp. split; cbn [set_nodes tr_nodes tr_next tr_addr tr_top].
  - intros b d [_ Hd]%lookup_delete_Some. by apply (to_names _ Hok b).
  - intros b d k [_ Hd]%lookup_delete_Some Hin. destruct (to_kids _ Hok _ _ _ Hd Hin) as (kn & Hkn & Ekn).
    exists kn. rewrite lookup_delete_ne; [done|]. intros <-. by apply (Hk b d).
  - intros b d p [_ Hd]%lookup_delete_Some Ep. rewrite lookup_delete_ne; [by eapply (to_parent _ Hok)|].
    intros <-. by apply (Hp b d).
  - intros b d [_ Hd]%lookup_delete_Some. by apply (to_vnid _ Hok b).
  - intros b c d e [_ Hd]%lookup_delete_Some [_ He]%lookup_delete_Some. by apply (to_inj _ Hok).
  - apply Hok.
  - pose proof (to_size _ Hok). pose proof (map_size_delete (M := gmap Z) a (tr_nodes t)) as E. rewrite E.
    destruct (tr_nodes t !! a); cbn; lia.
  - intros b [d [_ Hd]%lookup_delete_Some]. apply (to_addr _ Hok). by eexists.
  - destruct (to_top _ Hok) as (x & Hx & ?). exists x. by rewrite lookup_delete_ne.
Qed.

Lemma runs_free_vnode s t L lk a k (K : Z → web_ns W → Prop) :
  view closed s (tr_nodes t) L [] lk → (∀ b, b ∈ a :: L ↔ is_Some (tr_nodes t !! b)) → a ∉ L →
  nodecount s = Z.of_nat (size (tr_nodes t)) → (∃ p, vnids s = Some p ∧ pool_ok (tr_next t) p) → tree_ok t →
  tr_nodes t !! a = Some k → (∀ b d, tr_nodes t !! b = Some d → a ∉ t_kids d) →
  (∀ s' p c, view closed s' (delete a (tr_nodes t)) L [] lk → pool_ok (tr_next t) p →
     c = Z.of_nat (size (tr_nodes t)) - 1 →
     env s' = upd_volume (nsid s) (rootid s) (Some p) (upd_count c (env s)) → K 0 s') →
  runs (websearchfs_free_vnode a) s K.
Proof.
  intros V HL HaL Ec (p & Ep & Hp) Hok Hk Hnk HK. apply runs_bind. eapply runs_get; [done|done|]. intros n Hn Eb.
  pose proof (to_vnid _ Hok _ _ Hk) as Hv. rewrite <- Eb in Hv. change (wn_vnid (bare n)) with (wn_vnid n) in Hv.
  pose proof (to_next _ Hok). pose proof (to_size _ Hok).
  destruct (pool_put _ _ Hp (wn_vnid n)) as (e & p' & Eput & Hp'); [lia|lia|].
  apply runs_bind, runs_modifyS, runs_bind, runs_getS, runs_bind. cbn [vnids upd_count]. rewrite Ep.
  eapply runs_liftO; [exact Eput|]. apply runs_bind, runs_modifyS, runs_bind, runs_modifyS, runs_ret.
  assert (0 < Z.of_nat (size (tr_nodes t))) by (pose proof (size_delete _ _ _ Hk); lia).
  eapply (HK _ p'); [|done|done|].
  - eapply (view_delete _ s); [done|done|apply not_elem_of_nil|intros b d _; apply Hnk|done|done|done].
  - assert (s32 (nodecount s - 1) = Z.of_nat (size (tr_nodes t)) - 1) as <- by (rewrite s32_id; [lia|unfold is_s32; lia]). done.
Qed.

Lemma volume_freed s s' t a k p :
  volume s t → tr_nodes t !! a = Some k → pool_ok (tr_next t) p →
  env s' = upd_volume (nsid s) (rootid s) (Some p)
    (upd_count (Z.of_nat (size (tr_nodes t)) - 1) (upd_lock true (env s))) →
  volume (upd_lock false s') (set_nodes (delete a (tr_nodes t)) t).
Proof.
  intros [Hdev Hroot Htop Hw Haddr Hc Hl Hck Hpool] Hk Hp E. split; cbn -[Z.of_nat].
  - rewrite (f_equal nsid E : nsid s' = nsid s). done.
  - rewrite (f_equal rootid E : rootid s' = rootid s). done.
  - rewrite (f_equal root E : root s' = root s). done.
  - rewrite (f_equal world E : world s' = world s). done.
  - rewrite (f_equal next_addr E : next_addr s' = next_addr s). done.
  - rewrite (f_equal nodecount E : nodecount s' = _). by rewrite (size_delete _ _ _ Hk).
  - done.
  - rewrite (f_equal cookies E : cookies s' = cookies s). done.
  - exists p. by rewrite (f_equal vnids E : vnids s' = _).
Qed.

Lemma runs_forget s t a k p d (K : Z → web_ns W → Prop) :
  rep s t → tr_nodes t !! a = Some k → wn_parent (t_node k) = Some p → tr_nodes t !! p = Some d → a ∉ t_kids d →
  map_Forall (λ _ c, wn_parent (t_node c) ≠ Some a) (tr_nodes t) →
  (∀ s', rep s' (spec_forget t a).2 → K EINVAL s') →
  runs (websearchfs_remove_vnode a false) s K.
Proof.
  intros [(L & V & HL) Hvol Hok] Hk Ep Hd Ha Hpar HK. unfold spec_forget in HK. rewrite Hk, Ep in HK.
  rewrite (unlinked_absent _ _ _ _ Hd Ha) in HK. cbn [fst snd] in HK.
  assert (∀ b e, tr_nodes t !! b = Some e → a ∉ t_kids e) as Hnk.
  { intros b e Hb Hin. destruct (to_kids _ Hok _ _ _ Hb Hin) as (y & Hy & Ey). congruence. }
  pose proof (chain_NoDup _ _ _ (vw_nodes _ _ _ _ _ _ V)) as Hnd.
  destruct (list_elem_of_split L a) as (L1 & L2 & ->); [apply HL; by eexists|].
  unfold websearchfs_remove_vnode. apply runs_bind, runs_bind, runs_getS. rewrite (vo_lock _ _ Hvol).
  apply runs_bind, runs_modifyS, runs_ret, runs_bind.
  eapply runs_nodes_remove; [by eapply (view_env _ s)|]. intros s1 V1 E1. apply runs_bind.
  eapply runs_queries_remove; [done|]. intros s2 V2 E2. apply runs_bind. eapply runs_get; [done|done|]. intros n Hn Eb.
  assert (wn_parent n = Some p) as -> by (by rewrite <- Ep, <- Eb).
  apply runs_bind, runs_bind. eapply runs_LOCK; [done|done|]. intros s3 V3 E3.
  apply runs_bind. eapply runs_children_absent; [done|done|done|]. intros e4 s4 V4 E4.
  eapply runs_UNLOCK; [done|done|]. intros s5 V5 E5. apply runs_bind.
  assert (env s5 = upd_lock true (env s)) as E by (rewrite E5, E4, E3, E2, E1; done).
  assert (∀ b, b ∈ a :: L1 ++ L2 ↔ is_Some (tr_nodes t !! b)) as HL'.
  { intros b. rewrite <- HL, Permutation_middle. done. }
  assert (a ∉ L1 ++ L2) as HaL by (rewrite <- Permutation_middle in Hnd; by apply NoDup_cons in Hnd as []).
  eapply runs_free_vnode; [done|done|done| | |done|exact Hk|done|].
  { rewrite (f_equal nodecount E : nodecount s5 = _). apply Hvol. }
  { rewrite (f_equal vnids E : vnids s5 = _). apply Hvol. }
  intros s6 pl c V6 Hpl -> E6. apply runs_bind, runs_modifyS, runs_ret, HK. rewrite E in E6. split.
  - exists (L1 ++ L2). split; [by eapply (view_env _ s6)|]. intros b. cbn.
    rewrite lookup_delete_is_Some. rewrite <- HL', elem_of_cons. set_solver.
  - rewrite (f_equal nsid E : nsid s5 = nsid s), (f_equal rootid E : rootid s5 = rootid s) in E6. by eapply volume_freed.
  - apply tree_ok_delete; [done| |done|done]. destruct (to_top _ Hok) as (x & Hx & Epx & _). intros ->. congruence.
Qed.
End Serve.
