(* ===== verification/WebList.v ===== *)
(** Reading folders: a cookie is opened on the folder, counts its entries and is
    freed again. *)

From S2P Require Import Prelude Errors LinkedList SList VnidPool WebFs WebTree WebView WebRun.

(** The cookie [c] is open on node [a]. *)
Definition opened (a c : Z) : Z → option Z := λ b, if decide (b = a) then Some c else None.

Section List.
Context {W : Type} `{Allocator W} `{WebKernel W} (Hmem : ∀ w : W, alloc_plenty w).
Implicit Types (s : web_ns W) (t : tree W) (N : gmap Z tnode) (L Q : list Z) (op : Z → option Z).

Lemma view_reopen op op' s N L Q lk a n :
  view op s N L Q lk → heap s !! a = Some n → (∀ b, b ≠ a → op' b = op b) →
  view op' (upd_heap (<[a := set_opened (op' a) n]> (heap s)) (next_addr s) s) N L Q lk.
Proof.
  intros [Vb Vn Vq Vk Vl Vo] Hn Hop.
  assert (∀ (B : Type) (f : web_node → B), (∀ o x, f (set_opened o x) = f x) →
    ∀ b, f <$> <[a := set_opened (op' a) n]> (heap s) !! b = f <$> heap s !! b) as Hf.
  { intros B f Ef b. destruct (decide (a = b)) as [<-|]; [by rewrite lookup_insert_eq, Hn; cbn; rewrite Ef|by rewrite lookup_insert_ne]. }
  split; cbn.
  - intros b. rewrite <- Vb. by apply Hf.
  - eapply chain_nxt; [|exact Vn]. by apply Hf.
  - eapply chain_nxt; [|exact Vq]. by apply Hf.
  - intros b x d Hx Hd. destruct (fmap_lookup_inv wn_children _ _ _ (Hf _ wn_children ltac:(done) b) Hx) as (y & Hy & <-).
    eapply chain_nxt; [by apply Hf|]. by apply (Vk b).
  - intros b x Hx. destruct (fmap_lookup_inv wn_l _ _ _ (Hf _ wn_l ltac:(done) b) Hx) as (y & Hy & <-). by apply Vl.
  - intros b x [[<- <-]|[Hne Hx]]%lookup_insert_Some; [done|]. rewrite Hop by done. by apply Vo.
Qed.

Lemma runs_on_opened op op' s N L Q lk a d f e cs first (K : Z → web_ns W → Prop) :
  view op s N L Q lk → N !! a = Some d → f (cookies s) (Some (op a)) = Ok (e, cs, Some first) →
  op' a = first → (∀ b, b ≠ a → op' b = op b) →
  (∀ s', view op' s' N L Q lk → env s' = upd_cookies cs (next_cookie s) (env s) → K e s') →
  runs (on_opened a f) s K.
Proof.
  intros V Hd E <- Hop HK. apply runs_bind. eapply runs_get; [done|done|]. intros n Hn Eb.
  apply runs_bind, runs_getS, runs_bind. rewrite (vw_opened _ _ _ _ _ _ V a n Hn). eapply runs_liftO; [exact E|].
  cbv beta iota. apply runs_bind, runs_modifyS, runs_bind, runs_bind. eapply runs_eq; [unfold get; cbn; by rewrite Hn|].
  apply runs_modifyS, runs_ret, HK; [|done]. eapply view_env; [by eapply view_reopen|done..].
Qed.

(** [for (n = node->children; n && index; n = n->next, index--);] finds the
    entry with that index. *)
Lemma runs_nth_child s op N Q L lk l : ∀ fuel o i (K : option Z → web_ns W → Prop),
  view op s N L Q lk → @chain _ dir_link (heap s) o l → (length l ≤ fuel)%nat → 0 ≤ i < 2 ^ 31 →
  K (l !! Z.to_nat i) s → runs (nth_child fuel o i) s K.
Proof.
  induction l as [|a l IH]; intros fuel o i K V Hc Hf Hi HK; inversion Hc as [|? n ? Hn Hc']; subst.
  - destruct fuel; by apply runs_ret.
  - destruct fuel as [|fuel]; [cbn in Hf; lia|]. cbn [nth_child]. destruct (Z.eqb_spec i 0) as [->|Hne]; [by apply runs_ret|].
    apply runs_bind. eapply runs_eq; [unfold get; by rewrite Hn|]. rewrite s32_id by (unfold is_s32; lia).
    apply IH; [done|done|cbn in Hf; lia|lia|]. by replace (Z.to_nat i) with (S (Z.to_nat (i - 1))) in HK by lia.
Qed.

(** * Reading a folder *)

(** The cookie [c], which is [k], is open on [a]. *)
Record open_on s t (a c : Z) (k : web_cookie) : Prop := {
  rd_view : ∃ L, view (opened a c) s (tr_nodes t) L [] None ∧ ∀ b, b ∈ L ↔ is_Some (tr_nodes t !! b);
  rd_volume : volume (upd_cookies ∅ 0 s) t;
  rd_cookie : cookies s = {[c := k]};
  rd_alone : wc_next k = None;
  rd_tree : tree_ok t
}.

(** [i] entries of the folder [a] were read. *)
Definition dir_cookie (a i : Z) : web_cookie := mkWc None (Some a) i O_RDONLY S_IFDIR None.
Definition reading s t (a c i : Z) : Prop := open_on s t a c (dir_cookie a i).

Lemma env_cookies cs c s : env (upd_cookies cs c s) = upd_cookies cs c (env s).
Proof. done. Qed.

Lemma volume_cookies s t c : volume s t → volume (upd_cookies ∅ c s) t.
Proof. by intros [? ? ? ? ? ? ? ? ?]. Qed.

(** A cookie is entered under the lock of its node. *)
Lemma runs_enter_cookie s s0 t L a d k (K : Z → Z → web_ns W → Prop) :
  view closed s (tr_nodes t) L [] (Some a) → env s = env s0 → volume s0 t → tr_nodes t !! a = Some d → wc_next k = None →
  (∀ c s', view (opened a c) s' (tr_nodes t) L [] (Some a) → volume (upd_cookies ∅ 0 s') t → cookies s' = {[c := k]} → K c B_OK s') →
  runs (new_cookie k) s (λ c s', runs (on_opened a (λ cs first, @sll_insert_head _ cookie_link cs first (Some c))) s' (K c)).
Proof.
  intros V E Hvol Hd Hk HK. eapply runs_eq; [reflexivity|]. set (c := next_cookie s). set (s2 := upd_cookies _ _ s).
  assert (cookies s = ∅) as Ec by (rewrite (f_equal cookies E : cookies s = cookies s0); apply Hvol).
  eapply (runs_on_opened closed (opened a c) s2); [by eapply view_env|done| | | |].
  - cbn. unfold sll_insert_head, slist_insert_head, store_next, deref. rewrite Ec, lookup_insert_eq. cbn. by rewrite insert_insert_eq.
  - unfold opened. by rewrite decide_True.
  - intros b Hb. unfold opened. by rewrite decide_False.
  - intros s3 V3 E3. apply HK; [done| |].
    + eapply (volume_env (upd_cookies ∅ 0 s0)); [|by apply volume_cookies]. rewrite !env_cookies, E3.
      transitivity (upd_cookies ∅ 0 (env s)); [done|]. by rewrite E.
    + rewrite (f_equal cookies E3 : cookies s3 = _). destruct k. cbn in Hk. by subst.
Qed.

Lemma runs_open_cookie s t a d k (K : Z + Z → web_ns W → Prop) :
  rep s t → tr_nodes t !! a = Some d → wc_next k = None → (∀ c s', open_on s' t a c k → K (inr c) s') →
  runs (open_cookie a k) s K.
Proof.
  intros [(L & V & HL) Hvol Hok] Hd Hk HK. apply runs_bind. eapply runs_LOCK; [done|done|]. intros s1 V1 E1.
  apply runs_bind, (runs_alloc Hmem), runs_bind, runs_bind. eapply runs_mono; [eapply runs_enter_cookie; eauto|].
  2:{ intros c s2 Hc. apply runs_bind. exact Hc. }
  intros c s2 V2 Hvol2 Ec2. apply runs_ret. cbv beta. apply runs_bind. eapply runs_UNLOCK; [done|done|]. intros s3 V3 E3.
  apply runs_ret, HK. split; [by exists L| | |done|done].
  - eapply volume_env; [|exact Hvol2]. by rewrite !env_cookies, E3.
  - by rewrite (f_equal cookies E3 : cookies s3 = cookies s2).
Qed.

Lemma runs_opendir s t a d (K : Z + Z → web_ns W → Prop) :
  rep s t → tr_nodes t !! a = Some d →
  (if S_ISDIR (st_mode (wn_st (t_node d))) then ∀ c s', reading s' t a c 0 → K (inr c) s'
   else K (inl B_NOT_A_DIRECTORY) s) →
  runs (websearchfs_opendir a) s K.
Proof.
  intros HR Hd HK. pose proof HR as [(L & V & HL) Hvol Hok]. apply runs_bind. eapply runs_get; [done|done|]. intros n Hn Eb.
  rewrite <- Eb in HK. change (wn_st (bare n)) with (wn_st n) in HK.
  destruct (S_ISDIR (st_mode (wn_st n))); cbn [negb]; [|by apply runs_ret]. by eapply runs_open_cookie.
Qed.

Lemma runs_set_current s c i (K : unit → web_ns W → Prop) :
  is_Some (cookies s !! c) →
  (∀ k, cookies s !! c = Some k →
     K tt (upd_cookies (<[c := mkWc (wc_next k) (wc_node k) i (wc_omode k) (wc_type k) (wc_attr k)]> (cookies s)) (next_cookie s) s)) →
  runs (set_current c i) s K.
Proof.
  intros [k Hk] HK. apply runs_bind. eapply runs_eq; [unfold get_cookie; by rewrite Hk|]. by apply runs_modifyS, HK.
Qed.

(** The end of [readdir] when there is an entry. *)
Lemma runs_found s t L a c d i e (K : Z + option dirent → web_ns W → Prop) :
  view (opened a c) s (tr_nodes t) L [] (Some a) → (∀ b, b ∈ L ↔ is_Some (tr_nodes t !! b)) →
  volume (upd_cookies ∅ 0 s) t → cookies s = {[c := dir_cookie a i]} → tree_ok t →
  tr_nodes t !! a = Some d → 0 ≤ i < 2 ^ 31 - 1 → (∀ s', reading s' t a c (i + 1) → K (inr (Some e)) s') →
  runs (set_current c (s32 (i + 1));; mret (Some e)) s (λ r s', runs (UNLOCK a;; mret (inr r)) s' K).
Proof.
  intros V HL Hvol Ec Hok Hd Hi HK. apply runs_bind, runs_set_current; rewrite Ec; [rewrite lookup_singleton_eq; by eexists|].
  intros k. rewrite lookup_singleton_eq. intros [= <-]. apply runs_ret, runs_bind. set (s2 := upd_cookies _ _ s).
  eapply runs_UNLOCK; [by eapply (view_env _ s)|done|]. intros s3 V3 E3. apply runs_ret, HK. split; [by exists L| | |done|done].
  - eapply volume_env; [|exact Hvol]. rewrite env_cookies, E3. done.
  - rewrite (f_equal cookies E3 : cookies s3 = cookies s2). cbn. rewrite s32_id by (unfold is_s32; lia). apply insert_singleton_eq.
Qed.

(** The entry under the cookie's index; the index counts up to the last. *)
Lemma runs_readdir s t a c d i (K : Z + option dirent → web_ns W → Prop) :
  reading s t a c i → tr_nodes t !! a = Some d → 0 ≤ i < 2 ^ 31 - 1 →
  (∀ e s', dir_entries t d !! Z.to_nat i = Some e → reading s' t a c (i + 1) → K (inr (Some e)) s') →
  (∀ s', dir_entries t d !! Z.to_nat i = None → reading s' t a c i → K (inr None) s') →
  runs (websearchfs_readdir a c 1024 1) s K.
Proof.
  intros [(L & V & HL) Hvol Hck _ Hok] Hd Hi HS HN. unfold websearchfs_readdir. cbn [Z.eqb orb].
  change (1024 <? SIZEOF_DIRENT + WEBSEARCHFS_NAME_LEN) with false. cbv iota.
  apply runs_bind. eapply runs_LOCK; [done|done|]. intros s1 V1 E1. apply runs_bind. eapply runs_get; [done|done|].
  intros n Hn Eb. pose proof (f_equal cookies E1 : cookies s1 = cookies s) as Ec1. rewrite Hck in Ec1.
  apply runs_bind. eapply runs_eq; [unfold get_cookie; by rewrite Ec1, lookup_singleton_eq|]. cbn [wc_dir_current dir_cookie].
  apply runs_bind, runs_getS, runs_bind.
  assert (env (upd_cookies ∅ 0 s1) = env (upd_cookies ∅ 0 s)) as E1' by (rewrite !env_cookies; by rewrite E1).
  pose proof (volume_env _ _ _ E1' Hvol) as Hvol1.
  rewrite (vo_root _ _ Hvol1 : rootid s1 = _), (vo_dev _ _ Hvol1 : nsid s1 = _).
  pose proof (λ e He, runs_found s1 t L a c d i e K V1 HL Hvol1 Ec1 Hok Hd Hi (λ s', HS e s' He)) as Hfound.
  unfold dir_entries in Hfound, HN. rewrite <- Eb in Hfound, HN.
  change (wn_parent (bare n)) with (wn_parent n) in Hfound, HN. change (wn_vnid (bare n)) with (wn_vnid n) in Hfound, HN.
  assert (∀ p, wn_parent n = Some p → is_Some (tr_nodes t !! p)) as Hp.
  { intros p Ep. eapply (to_parent _ Hok); [done|]. by rewrite <- Eb. }
  destruct (Z.eqb_spec i 0) as [->|]; [|destruct (Z.eqb_spec i 1) as [->|]].
  - apply runs_bind. eapply runs_vnid; [done|done|]. apply runs_bind.
    destruct (wn_parent n) as [p|] eqn:Ep.
    + destruct (Hp p eq_refl) as [x Hx]. apply runs_bind. eapply runs_get; [done|exact Hx|]. intros y Hy Ey.
      apply runs_ret, runs_bind. eapply runs_vnid; [done| |].
      { intros q Eq. eapply (to_parent _ Hok); [exact Hx|]. by rewrite <- Ey. }
      apply Hfound. cbn. rewrite Hx. cbn. by rewrite <- Ey.
    + apply runs_ret, runs_bind. eapply runs_vnid; [done|done|]. by apply Hfound.
  - apply runs_bind. eapply runs_vnid; [done|done|]. by apply Hfound.
  - apply runs_bind. rewrite s32_id by (unfold is_s32; lia). pose proof (vw_kids _ _ _ _ _ _ V1 _ _ _ Hn Hd) as Hc.
    eapply runs_nth_child; [done|exact Hc|pose proof (chain_fuel _ _ _ Hc); lia|lia|].
    replace (Z.to_nat i) with (S (S (Z.to_nat (i - 2)))) in Hfound, HN by lia. 
    assert (∀ (x y : dirent) l j, (x :: y :: l) !! S (S j) = l !! j) as Hcons by done.
    rewrite Hcons, list_lookup_fmap in Hfound, HN.
    destruct (t_kids d !! Z.to_nat (i - 2)) as [b|] eqn:Eb2.
    + destruct (to_kids _ Hok _ _ b Hd) as (k & Hk & _); [by eapply list_elem_of_lookup_2|].
      apply runs_bind. eapply runs_get; [done|exact Hk|]. intros x Hx Ex. apply Hfound. cbn.
      unfold vnid_at. cbn. rewrite Hk. cbn. by rewrite <- Ex.
    + apply runs_ret, runs_bind. eapply runs_UNLOCK; [done|done|]. intros s2 V2 E2. apply runs_ret, HN; [done|].
      split; [by exists L| | |done|done].
      * eapply volume_env; [|exact Hvol1]. by rewrite env_cookies, E2.
      * by rewrite (f_equal cookies E2 : cookies s2 = cookies s1).
Qed.

(** * All of a folder *)

Lemma runs_read_entries t a c d : ∀ fuel i s (K : list dirent → web_ns W → Prop),
  reading s t a c (Z.of_nat i) → tr_nodes t !! a = Some d → Z.of_nat (length (dir_entries t d)) < 2 ^ 31 - 1 →
  (i ≤ length (dir_entries t d))%nat → (length (dir_entries t d) < i + fuel)%nat →
  (∀ s' j, reading s' t a c j → K (drop i (dir_entries t d)) s') →
  runs (read_entries fuel a c) s K.
Proof.
  induction fuel as [|fuel IH]; intros i s K HR Hd Hlen Hi Hf HK; [lia|].
  cbn [read_entries]. apply runs_bind. eapply runs_readdir; [done|done|lia| |]; rewrite Nat2Z.id.
  - intros e s' He HR'. apply runs_bind. pose proof (lookup_lt_Some _ _ _ He).
    eapply (IH (S i)); [by rewrite Nat2Z.inj_succ, <- Z.add_1_r|done|done|lia|lia|].
    intros s2 j HR2. apply runs_ret. rewrite (drop_S _ _ _ He) in HK. by eapply HK.
  - intros s' He HR'. apply runs_ret. rewrite drop_ge in HK by (by apply lookup_ge_None_1). by eapply HK.
Qed.

(** * Closing *)

(** A cookie that is on no list any more. *)
Record loose s t (c : Z) : Prop := {
  ls_view : ∃ L, view closed s (tr_nodes t) L [] None ∧ ∀ b, b ∈ L ↔ is_Some (tr_nodes t !! b);
  ls_volume : volume (upd_cookies ∅ 0 s) t;
  ls_cookie : ∃ k, cookies s = {[c := k]};
  ls_tree : tree_ok t
}.

Lemma runs_drop s t a c d k (K : Z → web_ns W → Prop) :
  open_on s t a c k → tr_nodes t !! a = Some d → (∀ s', loose s' t c → K B_OK s') → runs (drop_cookie a c) s K.
Proof.
  intros [(L & V & HL) Hvol Hck Hk Hok] Hd HK.
  assert (@chain _ cookie_link (cookies s) (Some c) ([] ++ [c])) as Hc.
  { rewrite Hck. econstructor; [apply lookup_singleton_eq|]. cbn. rewrite Hk. constructor. }
  destruct (sll_remove_run _ _ _ _ _ cookie_eta ltac:(done) Hc) as (cs & first & E & Hc' & Hr).
  assert (first = None) as -> by (by inversion Hc').
  apply runs_bind. eapply runs_LOCK; [done|done|]. intros s1 V1 E1. apply runs_bind.
  eapply (runs_on_opened _ closed s1); [done|done| |reflexivity| |].
  { rewrite (f_equal cookies E1 : cookies s1 = cookies s). unfold opened. rewrite decide_True by done. exact E. }
  { intros b Hb. unfold opened. by rewrite decide_False. }
  intros s2 V2 E2. apply runs_bind. eapply runs_UNLOCK; [done|done|]. intros s3 V3 E3. apply runs_ret, HK.
  split; [by exists L| | |done].
  - eapply volume_env; [|exact Hvol]. rewrite !env_cookies, E3, E2. transitivity (upd_cookies ∅ 0 (env s1)); [done|]. by rewrite E1.
  - rewrite (f_equal cookies E3 : cookies s3 = cookies s2), (f_equal cookies E2 : cookies s2 = cs).
    destruct Hr as [Hr _]. destruct (Hr c) as [o Ho]. rewrite Hck, lookup_singleton_eq in Ho. eexists.
    apply map_eq. intros b. destruct (decide (c = b)) as [<-|]; [rewrite Ho; by rewrite lookup_singleton_eq|].
    destruct (Hr b) as [o' ->]. by rewrite Hck, !lookup_singleton_ne.
Qed.

(** The second removal finds nothing. *)
Lemma runs_drop_again s t a c d (K : Z → web_ns W → Prop) :
  loose s t c → tr_nodes t !! a = Some d → (∀ s', loose s' t c → K EINVAL s') → runs (drop_cookie a c) s K.
Proof.
  intros [(L & V & HL) Hvol Hck Hok] Hd HK. apply runs_bind. eapply runs_LOCK; [done|done|]. intros s1 V1 E1. apply runs_bind.
  eapply (runs_on_opened _ closed s1); [done|done|reflexivity|done|done|]. intros s2 V2 E2.
  apply runs_bind. eapply runs_UNLOCK; [done|done|]. intros s3 V3 E3. apply runs_ret, HK.
  assert (env s3 = env s) as E by (rewrite E3, E2, <- E1; by destruct s1).
  split; [by exists L| | |done].
  - eapply volume_env; [|exact Hvol]. by rewrite !env_cookies, E.
  - by rewrite (f_equal cookies E : cookies s3 = cookies s).
Qed.

Lemma runs_free_cookie s t c (K : unit → web_ns W → Prop) :
  loose s t c → (∀ s', rep s' t → K tt s') → runs (free_cookie c) s K.
Proof.
  intros [(L & V & HL) Hvol [k Hck] Hok] HK. apply runs_bind.
  eapply runs_eq; [unfold get_cookie; by rewrite Hck, lookup_singleton_eq|]. apply runs_modifyS, HK. rewrite Hck, delete_singleton_eq.
  split; [exists L; split; [by eapply view_env|done]| |done].
  eapply volume_env; [|apply (volume_cookies _ t (next_cookie s) Hvol)]. done.
Qed.

(** A folder that is open is closed and its cookie freed. *)
Lemma runs_close s t a c d k (K : Z → web_ns W → Prop) :
  open_on s t a c k → tr_nodes t !! a = Some d → (∀ s', rep s' t → K B_OK s') →
  runs (websearchfs_closedir a c;; websearchfs_free_dircookie a c) s K.
Proof.
  intros HO Hd HK. apply runs_bind, runs_bind. eapply runs_drop; [done|done|]. intros s1 H1. apply runs_ret, runs_bind.
  eapply runs_drop_again; [done|done|]. intros s2 H2. apply runs_bind. eapply runs_free_cookie; [done|]. intros s3 HR. by apply runs_ret, HK.
Qed.

Lemma runs_list s t a d (K : Z + list dirent → web_ns W → Prop) :
  rep s t → tr_nodes t !! a = Some d → (∀ s', rep s' t → K (spec_list t a) s') → runs (list_entries a) s K.
Proof.
  intros HR Hd HK. unfold spec_list in HK. rewrite Hd in HK. apply runs_bind. eapply runs_opendir; [done|done|].
  destruct (S_ISDIR (st_mode (wn_st (t_node d)))); [|by apply runs_ret, HK].
  intros c s1 HR1. apply runs_bind, runs_getS, runs_bind.
  pose proof HR1 as [(L & V & _) _ _ _ Hok]. destruct (view_lookup _ _ _ _ _ _ _ _ V Hd) as (n & Hn & _).
  pose proof (chain_length _ _ _ (vw_kids _ _ _ _ _ _ V _ _ _ Hn Hd)) as Hlen.
  assert (length (dir_entries t d) = 2 + length (t_kids d))%nat as El by (cbn; by rewrite length_fmap).
  pose proof (small _ Hok). rewrite (view_size _ _ _ _ _ _ V) in *.
  eapply (runs_read_entries _ _ _ _ _ 0); [done|done|lia|lia|lia|]. intros s2 j HR2. rewrite drop_0.
  assert (∀ m1 m2 : M (web_ns W) Z, ∀ k s, (m1;; (m2;; k)) s = ((m1;; m2);; k : M (web_ns W) (Z + list dirent)) s) as Hassoc.
  { intros m1 m2 k s'. unfold mbind, M_bind. by destruct (m1 s') as [[]| |]. }
  unfold runs. rewrite Hassoc. apply runs_bind. eapply runs_close; [done|done|]. intros s3 HR3. by apply runs_ret, HK.
Qed.

Lemma runs_stat s t a d (K : Z + stat → web_ns W → Prop) :
  rep s t → tr_nodes t !! a = Some d → (∀ s', rep s' t → K (spec_stat t a) s') → runs (websearchfs_rstat a) s K.
Proof.
  intros [(L & V & HL) Hvol Hok] Hd HK. unfold spec_stat in HK. rewrite Hd in HK.
  apply runs_bind. eapply runs_LOCK; [done|done|]. intros s1 V1 E1. pose proof (volume_env _ _ _ E1 Hvol) as Hvol1.
  apply runs_bind. eapply runs_get; [done|done|]. intros n Hn Eb. apply runs_bind, runs_getS.
  apply runs_bind. eapply runs_UNLOCK; [done|done|]. intros s2 V2 E2. apply runs_ret.
  rewrite (vo_dev _ _ Hvol1). rewrite <- Eb in HK. apply HK. split; [by exists L| |done]. by eapply volume_env.
Qed.
End List.
