(* ===== verification/WebSpec.v ===== *)
(** A mounted websearchfs volume serves the tree: mounting gives the root with
    its three static entries, and every sequence of requests answers and does
    what the tree of [WebTree] says. *)

From S2P Require Import Prelude Errors LinkedList SList VnidPool WebFs WebTree WebView WebRun WebServe WebList.

Section Spec.
Context {W : Type} `{Allocator W} `{WebKernel W} (Hmem : ∀ w : W, alloc_plenty w).
Context (root_folder_attrs folders_attrs template_1_attrs text_attrs mailto_me_bookmark_attrs : list attr_entry)
  (readmestr : list Z) (bookmark_attrs : list attr_entry).
Implicit Types (s : web_ns W) (t : tree W) (N : gmap Z tnode) (L Q : list Z).

Abbreviation serve := (run_web folders_attrs bookmark_attrs).
Abbreviation promise := (spec_web folders_attrs bookmark_attrs).

(** * Requests *)

(** A created node has the next id. *)
Lemma created_vnid t a d nm perms iattrs mkdir :
  tr_nodes t !! tr_addr t = None → tr_nodes t !! a = Some d →
  ∃ k, tr_nodes (enter t a d nm perms iattrs mkdir) !! tr_addr t = Some k ∧ wn_vnid (t_node k) = tr_next t.
Proof. intros. unfold enter. destruct (wk_time (tr_world t)). eexists. cbn. by rewrite lookup_insert_eq. Qed.

Lemma addr_fresh t : tree_ok t → tr_nodes t !! tr_addr t = None.
Proof.
  intros Hok. apply eq_None_not_Some. intros Hs%(to_addr _ Hok). lia.
Qed.

(** A name of its own always means a new node. *)
Lemma uniq_created t a d nm omode perms iattrs mkdir n t' :
  tree_ok t → tr_nodes t !! a = Some d → spec_create t a nm omode perms iattrs mkdir true = (inr n, t') →
  ∃ k, tr_nodes t' !! n = Some k ∧ wn_vnid (t_node k) = tr_next t.
Proof.
  intros Hok Hd. unfold spec_create. rewrite Hd. repeat case_match; intros; simplify_eq.
  by apply created_vnid; [apply addr_fresh|].
Qed.

Lemma runs_web o s t (K : web_res → web_ns W → Prop) :
  rep s t → op_ok o t → (∀ s', rep s' (promise o t).2 → K (reported o (promise o t).1) s') → runs (serve o) s K.
Proof.
  intros HR Hop HK. pose proof (rp_tree _ _ HR) as Hok.
  destruct o as [v nm|v nm perms|v nm perms|v nm|v nm|v|v|v]; cbn [run_web spec_web op_ok] in *;
    (apply runs_bind; eapply runs_read_vnode; [done|intros a d ty En Hd; rewrite En in HK|intros En; rewrite En in HK; by apply runs_ret, HK]).
  - apply runs_bind. eapply runs_walk; [done|done|done|]. destruct (spec_walk t a nm). intros s' HR'. by apply runs_ret, HK.
  - apply runs_bind, runs_bind. destruct Hop as [Hnm Hnx]. eapply (runs_create_gen Hmem); [done|done|done|done|].
    destruct (spec_create t a nm O_EXCL perms folders_attrs true false). intros s' HR'. by apply runs_ret, runs_ret, HK.
  - apply runs_bind. destruct Hop as [Hnm Hnx]. eapply (runs_create_gen Hmem); [done|done|done|done|].
    destruct (spec_create t a nm 0 perms bookmark_attrs false true) as [r t'] eqn:Ec. intros s' HR'. cbn [fst snd] in *.
    destruct r as [e|n]; [by apply runs_ret, HK|]. destruct (uniq_created _ _ _ _ _ _ _ _ _ _ Hok Hd Ec) as (k & Hk & Ek).
    pose proof HR' as [(L & V & _) _ _]. apply runs_bind. eapply runs_get; [done|exact Hk|]. intros x Hx Ex.
    apply runs_ret. change (wn_vnid x) with (wn_vnid (bare x)). rewrite Ex, Ek. by apply HK.
  - apply runs_bind. eapply runs_unlink; [done|done|done|]. destruct (spec_unlink t a nm). intros s' HR'. by apply runs_ret, HK.
  - apply runs_bind, runs_bind. pose proof HR as [(L & V & _) _ _]. eapply runs_get; [done|done|]. intros n _ _.
    eapply runs_unlink; [done|done|done|]. destruct (spec_unlink t a nm). intros s' HR'. by apply runs_ret, HK.
  - apply runs_bind. eapply (runs_list Hmem); [done|done|]. intros s' HR'. by apply runs_ret, HK.
  - apply runs_bind. eapply runs_stat; [done|done|]. intros s' HR'. by apply runs_ret, HK.
  - apply runs_bind. destruct (Hop a d En Hd) as [(p & x & Ep & Hx & Hin) Hall].
    eapply runs_forget; [done|done|done|done|done|done|]. unfold spec_forget in *. rewrite Hd in *. intros s' HR'. by apply runs_ret, HK.
Qed.

Lemma runs_webs ops : ∀ s t (K : list web_res → web_ns W → Prop),
  rep s t → ops_ok folders_attrs bookmark_attrs ops t →
  (∀ s', rep s' (spec_webs folders_attrs bookmark_attrs ops t).2 → K (zip_with reported ops (spec_webs folders_attrs bookmark_attrs ops t).1) s') →
  runs (run_webs folders_attrs bookmark_attrs ops) s K.
Proof.
  induction ops as [|o ops IH]; intros s t K HR Hops HK; cbn [run_webs spec_webs ops_ok] in *; [by apply runs_ret, HK|].
  destruct Hops as [Ho Hops]. apply runs_bind. eapply runs_web; [done|done|]. destruct (promise o t) as [r t1]. cbn [fst snd] in *.
  intros s1 HR1. apply runs_bind. eapply IH; [done|done|]. intros s2 HR2.
  destruct (spec_webs folders_attrs bookmark_attrs ops t1) as [rs t2]. by apply runs_ret, HK.
Qed.

(** * Mounting *)

(** A node whose fields outside of the tree change. *)
Definition mark (a : Z) (g : web_node → web_node) t : tree W :=
  set_nodes (alter (λ k, mkT (g (t_node k)) (t_kids k)) a (tr_nodes t)) t.

(** A change that keeps the links, the lock, the names and the ids. *)
Definition harmless (f : web_node → web_node) : Prop := ∀ x,
  wn_nlnext (f x) = wn_nlnext x ∧ wn_qnext (f x) = wn_qnext x ∧ wn_next (f x) = wn_next x ∧
  wn_children (f x) = wn_children x ∧ wn_opened (f x) = wn_opened x ∧ wn_l (f x) = wn_l x ∧ bare (f x) = f (bare x) ∧
  wn_name (f x) = wn_name x ∧ wn_parent (f x) = wn_parent x ∧ wn_vnid (f x) = wn_vnid x ∧ wn_st (f x) = wn_st x.

Lemma mark_is_Some a g t b : is_Some (tr_nodes (mark a g t) !! b) ↔ is_Some (tr_nodes t !! b).
Proof. cbn. by rewrite lookup_alter_is_Some. Qed.

Lemma mark_lookup a g t b x : harmless g → tr_nodes (mark a g t) !! b = Some x →
  ∃ y, tr_nodes t !! b = Some y ∧ t_kids x = t_kids y ∧ wn_name (t_node x) = wn_name (t_node y) ∧
    wn_parent (t_node x) = wn_parent (t_node y) ∧ wn_vnid (t_node x) = wn_vnid (t_node y) ∧ wn_st (t_node x) = wn_st (t_node y).
Proof.
  intros Hg. cbn. intros [(-> & y & Hy & ->)|[Hne Hx]]%lookup_alter_Some; [|by exists x].
  destruct (Hg (t_node y)) as (_ & _ & _ & _ & _ & _ & _ & E1 & E2 & E3 & E4). by exists y.
Qed.

Lemma tree_ok_mark a g t : harmless g → tree_ok t → tree_ok (mark a g t).
Proof.
  intros Hg Hok. split; cbn [mark set_nodes tr_next tr_addr].
  - intros b x (y & Hy & _ & -> & _)%mark_lookup; [|done]. by apply (to_names _ Hok b).
  - intros b x k (y & Hy & -> & _)%mark_lookup Hk; [|done]. destruct (to_kids _ Hok _ _ _ Hy Hk) as (kn & Hkn & Ep).
    destruct (proj2 (mark_is_Some a g t k)) as [z Hz]; [by eexists|]. exists z. split; [done|].
    apply mark_lookup in Hz as (y' & Hy' & _ & _ & -> & _); [|done]. congruence.
  - intros b x p (y & Hy & _ & _ & -> & _)%mark_lookup Hp; [|done]. apply mark_is_Some. by eapply (to_parent _ Hok).
  - intros b x (y & Hy & _ & _ & _ & -> & _)%mark_lookup; [|done]. by apply (to_vnid _ Hok b).
  - intros b c x x' (y & Hy & _ & _ & _ & -> & _)%mark_lookup (y' & Hy' & _ & _ & _ & -> & _)%mark_lookup; [|done..]. by apply (to_inj _ Hok).
  - apply Hok.
  - unfold mark. cbn. rewrite <- size_dom, dom_alter_L, size_dom. apply Hok.
  - intros b Hb%mark_is_Some. by apply (to_addr _ Hok).
  - destruct (to_top _ Hok) as (x & Hx & Ep & Em). destruct (proj2 (mark_is_Some a g t (tr_top t))) as [y Hy]; [by eexists|].
    exists y. split; [done|]. apply mark_lookup in Hy as (x' & Hx' & _ & _ & -> & _ & ->); [|done]. by simplify_eq.
Qed.

Lemma runs_mark s t a g (K : unit → web_ns W → Prop) :
  rep s t → is_Some (tr_nodes t !! a) → harmless g → (∀ s', rep s' (mark a g t) → K tt s') → runs (change a g) s K.
Proof.
  intros [(L & V & HL) Hvol Hok] [d Hd] Hg HK. eapply (runs_change closed s _ _ _ _ _ _ _ g); [done|done| |].
  { intros x. destruct (Hg x) as (? & ? & ? & ? & ? & ? & ? & _). done. }
  intros s' V' E'. apply HK. split.
  - exists L. split; [|intros b; by rewrite mark_is_Some, HL]. unfold mark. cbn.
    replace (alter _ a (tr_nodes t)) with (<[a := mkT (g (t_node d)) (t_kids d)]> (tr_nodes t)); [done|].
    apply map_eq. intros b. destruct (decide (a = b)) as [<-|].
    + by rewrite lookup_insert_eq, lookup_alter_eq, Hd.
    + by rewrite lookup_insert_ne, lookup_alter_ne.
  - eapply volume_env; [exact E'|]. apply volume_nodes; [|done]. by rewrite <- size_dom, dom_alter_L, size_dom.
  - by apply tree_ok_mark.
Qed.

(** A static entry is created; what follows is done if there was room. *)
Definition with_static (name : list Z) (attrs : list attr_entry) (t : tree W) (root : Z) (k : Z → tree W → tree W) : tree W :=
  match spec_create t root name 0 0x124 attrs false true with
  | (inl _, t) => t
  | (inr n, t) => k n t
  end.

Definition perm (x : web_node) : web_node := set_marks true (wn_qcompleted x) x.
Definition readme : web_node → web_node := set_content (Some readmestr) (zlen readmestr).

(** The tree of a volume that was just mounted. *)
Definition mounted_tree (id : Z) (addr : Z) (w : W) : tree W :=
  let '(tm, w) := wk_time w in
  let '(_, w) := wk_publish_vnode 1 addr S_IFDIR w in
  let root := mkWn None None None None None None DOT 1 false true false
                (fill_default_stat id 1 (Z.lor 0x1ff S_IFDIR) tm) None None root_folder_attrs [] None 0 in
  with_static name_search template_1_attrs (mkTree id 1 addr {[addr := mkT root []]} 2 (addr + 1) w) addr (λ n t,
  with_static name_readme text_attrs (mark n perm t) addr (λ n t,
  with_static name_author mailto_me_bookmark_attrs (mark n readme (mark n perm t)) addr (λ n t,
  mark n perm t))).

Lemma runs_static s t root name attrs (k : Z → M (web_ns W) Z) kt :
  rep s t → is_Some (tr_nodes t !! root) → no_nul name → tr_next t < 1248 →
  (∀ n t' s', rep s' t' → is_Some (tr_nodes t' !! root) → is_Some (tr_nodes t' !! n) → tr_next t' = tr_next t + 1 →
     runs (k n) s' (λ _ s'', rep s'' (kt n t'))) →
  runs (r ← websearchfs_create_gen root name 0 0x124 attrs false true; match r with inl e => mret e | inr n => k n end) s
    (λ _ s', rep s' (with_static name attrs t root kt)).
Proof.
  intros HR [d Hd] Hn Hnx Hk. pose proof (rp_tree _ _ HR) as Hok. unfold with_static.
  apply runs_bind. eapply (runs_create_gen Hmem); [done|done|done|done|].
  destruct (spec_create t root name 0 292 attrs false true) as [r t'] eqn:E. cbn [fst snd]. intros s' HR'.
  destruct r as [e|n]; [by apply runs_ret|]. destruct (uniq_created _ _ _ _ _ _ _ _ _ _ Hok Hd E) as (x & Hx & _).
  unfold spec_create in E. rewrite Hd in E. apply Hk; [done| |by eexists|]; repeat case_match; simplify_eq.
  - apply enter_nodes.
  - unfold enter. by destruct (wk_time (tr_world t)).
Qed.

Lemma perm_harmless : harmless perm.
Proof. by intros []. Qed.
Lemma readme_harmless : harmless readme.
Proof. by intros []. Qed.
#[local] Hint Resolve perm_harmless readme_harmless : core.

Lemma runs_publish_static s t a :
  rep s t → root s = Some a → is_Some (tr_nodes t !! a) → tr_next t = 2 →
  runs (websearchfs_publish_static_entries template_1_attrs text_attrs mailto_me_bookmark_attrs readmestr) s
    (λ _ s', rep s' (with_static name_search template_1_attrs t a (λ n t,
      with_static name_readme text_attrs (mark n perm t) a (λ n t,
      with_static name_author mailto_me_bookmark_attrs (mark n readme (mark n perm t)) a (λ n t, mark n perm t))))).
Proof.
  intros HR Er Ha Hnx. apply runs_bind, runs_getS. rewrite Er.
  apply runs_static; [done|done|by repeat constructor|lia|]. intros n1 t1 s1 HR1 Ha1 Hn1 Hx1.
  apply runs_bind. eapply runs_mark; [done|done|done|]. intros s2 HR2.
  apply runs_static; [done|by apply mark_is_Some|by repeat constructor|cbn; lia|]. intros n2 t2 s3 HR3 Ha3 Hn3 Hx3.
  apply runs_bind. eapply runs_mark; [done|done|done|]. intros s4 HR4.
  apply runs_bind. eapply runs_mark; [done|by apply mark_is_Some|done|]. intros s5 HR5.
  apply runs_static; [done|by do 2 apply mark_is_Some|by repeat constructor|cbn in *; lia|]. intros n3 t3 s6 HR6 Ha6 Hn6 _.
  apply runs_bind. eapply runs_mark; [done|done|done|]. intros s7 HR7. by apply runs_ret.
Qed.

(** The root alone. *)
Lemma rep_root s a n p :
  rootid s = 1 → next_addr s = a + 1 → nodecount s = 1 → ns_l s = false → cookies s = ∅ →
  vnids s = Some p → pool_ok 2 p → heap s = {[a := n]} → root s = Some a → S_ISDIR (st_mode (wn_st n)) = true → nodes s = Some a → queries s = None →
  bare n = n → wn_parent n = None → wn_vnid n = 1 → wn_name n = DOT →
  rep s (mkTree (nsid s) 1 a {[a := mkT n []]} 2 (a + 1) (world s)).
Proof.
  intros E1 E2 E3 E4 E5 E6 Hp Eh Er Ed En Eq Eb Epar Ev Enm.
  assert (wn_nlnext n = None ∧ wn_children n = None ∧ wn_l n = false ∧ wn_opened n = None) as (Enl & Ech & El & Eo).
  { rewrite <- Eb. done. }
  assert (∀ b d, ({[a := mkT n []]} : gmap Z tnode) !! b = Some d → b = a ∧ d = mkT n []) as Hone.
  { by intros b d [-> <-]%lookup_singleton_Some. }
  split.
  - exists [a]. split.
    + split; rewrite ?Eh, ?En, ?Eq.
      * intros b. cbn. destruct (decide (a = b)) as [<-|]; [by rewrite !lookup_singleton_eq; cbn; rewrite Eb|by rewrite !lookup_singleton_ne].
      * econstructor; [apply lookup_singleton_eq|]. cbn. rewrite Enl. constructor.
      * constructor.
      * intros b x d [-> <-]%lookup_singleton_Some [_ ->]%Hone. rewrite Ech. constructor.
      * intros b x [-> <-]%lookup_singleton_Some. by rewrite El, bool_decide_false.
      * intros b x [-> <-]%lookup_singleton_Some. done.
    + intros b. cbn. rewrite list_elem_of_singleton, lookup_singleton_is_Some. done.
  - split; try done; [|by exists p]. cbn. by rewrite E3, map_size_singleton.
  - split; cbn [tr_nodes tr_next tr_addr].
    + intros b d [_ ->]%Hone. cbn. rewrite Enm. split; [by repeat constructor|done].
    + intros b d k Hb Hk. apply Hone in Hb as [_ ->]. by apply elem_of_nil in Hk.
    + intros b d q Hb Hq. apply Hone in Hb as [_ ->]. cbn in Hq. congruence.
    + intros b d [_ ->]%Hone. cbn. lia.
    + by intros b c d e [-> _]%Hone [-> _]%Hone.
    + lia.
    + rewrite map_size_singleton. lia.
    + intros b [d [-> _]%Hone]. lia.
    + exists (mkT n []). cbn. by rewrite lookup_singleton_eq.
Qed.

Lemma runs_mount id s :
  refcount s = 0 → heap s = ∅ → cookies s = ∅ →
  (wk_publish_vnode 1 (next_addr s) S_IFDIR (wk_time (world s)).2).1 = B_OK →
  runs (websearchfs_mount root_folder_attrs template_1_attrs text_attrs mailto_me_bookmark_attrs readmestr id) s
    (λ r s', r = inr 1 ∧ rep s' (mounted_tree id (next_addr s) (world s))).
Proof.
  intros Er Eh Ec Hpub. unfold websearchfs_mount, mounted_tree.
  destruct pool_fresh as (p & Ep & Hp). destruct (pool_get _ _ Hp ltac:(lia) ltac:(lia)) as (p' & Eg & Hp').
  apply runs_bind, runs_getS, runs_bind, runs_modifyS. rewrite Er. cbn [Z.eqb negb].
  apply runs_bind, (runs_alloc Hmem). cbn [negb]. do 3 (apply runs_bind, runs_modifyS).
  apply runs_bind, (runs_alloc Hmem). unfold MAX_VNIDS. rewrite Ep. cbn [Z.ltb Z.compare B_OK].
  apply runs_bind. eapply runs_liftO; [exact Eg|]. cbn [Z.ltb Z.compare B_OK]. do 3 (apply runs_bind, runs_modifyS).
  apply runs_bind, (runs_alloc Hmem). cbn [negb].
  destruct (wk_time (world s)) as [tm w] eqn:Et. cbn [snd] in Hpub.
  destruct (wk_publish_vnode 1 (next_addr s) S_IFDIR w) as [e w'] eqn:Eu. cbn in Hpub. subst e.
  apply runs_bind. eapply runs_eq; [unfold call_world; cbn; by rewrite Et|].
  apply runs_bind. eapply runs_eq; [reflexivity|]. apply runs_bind, runs_modifyS.
  apply runs_bind. eapply runs_eq; [unfold call_world; cbn; by rewrite Eu|]. cbn [Z.eqb B_OK].
  set (s1 := upd_world w' _). apply runs_bind. eapply runs_mono.
  - eapply (runs_publish_static s1 _ (next_addr s)); [|done| |].
    + eapply (rep_root s1 (next_addr s) _ p'); cbn; try done; [by rewrite Eh|done..].
    + cbn. rewrite lookup_singleton_eq. by eexists.
    + done.
  - intros ? s2 HR2. by apply runs_ret.
Qed.

End Spec.

(** * A volume at work *)

(** A kernel that keeps the notes it is sent. *)
#[local] Program Instance log_allocator : Allocator (list web_note) :=
  {| alloc_next := λ w, (true, w); alloc_plenty := λ _, True |}.
Next Obligation. done. Qed.
#[local] Instance log_kernel : WebKernel (list web_note) := {|
  wk_time := λ w, (7, w); wk_get_vnode := λ _ w, (B_OK, w); wk_put_vnode := λ _ w, (B_OK, w);
  wk_remove_vnode := λ _ w, (B_OK, w); wk_publish_vnode := λ _ _ _ w, (B_OK, w); wk_notify := λ n w, n :: w |}.

Definition unmounted : web_ns (list web_note) := mkNs 0 0 None None None None 0 false ∅ ∅ 100 0 0 [].

(** A folder "a", a node of the same name, and what becomes of them. *)
Definition sample : list web_op :=
  [WMkdir 1 [97] 0x1ff; WCreate 1 [97] 0x1a4; WWalk 5 DOTDOT; WWalk 1 [97; 32; 48; 48; 48; 48; 49];
   WRmdir 1 [97]; WForget 5; WStat 5; WUnlink 1 name_readme; WMkdir 6 [97] 0x1ff].

Lemma sample_ok : ops_ok [] [] sample (mounted_tree [] [] [] [] [1; 2; 3] 9 100 []).
Proof.
  unfold sample. cbn [ops_ok]. repeat match goal with |- op_ok _ _ ∧ _ => split end; cbn [op_ok].
  1, 2, 9: split; [by repeat constructor|vm_compute; reflexivity].
  1, 2, 3, 6: by repeat constructor.
  2, 3: exact I.
  intros a k Ea Ek. vm_compute in Ea. injection Ea as <-. vm_compute in Ek. injection Ek as <-. split.
  - eexists _, _. split; [reflexivity|]. split; [vm_compute; reflexivity|]. apply (bool_decide_unpack _). vm_compute. exact I.
  - apply (bool_decide_unpack _). vm_compute. exact I.
Qed.

