(* ===== verification/WebSearch.v ===== *)
(** Attributes and searches of websearchfs (websearchfs.c, duckduckgo_request.cpp
    and settings.c of src/add-ons/kernel/file_systems/websearchfs/).

    A search is a folder: [websearchfs_open_query] creates it, asks the search
    engine and enters a node for every result, whose attributes say what was
    found; [websearchfs_read_query] lists the folder.

    The network is the class [WebNet].  Attributes that point into a request or a
    result have a copy of the text. *)

From S2P Require Import Prelude Errors StrTo LinkedList SList VnidPool WebQuery WebParse WebFs.

(** [wn_fetch url]: no request object, or what the server sent ([None] is an
    empty buffer), as a string. *)
Class WebNet (W : Type) := { wn_fetch : list Z → W → option (option (list Z)) * W }.

(** [malloc] in functions that work on strings. *)
#[global] Program Instance web_allocator {W} `{Allocator W} : Allocator (web_ns W) :=
  {| alloc_next := λ s, let '(b, w) := alloc_next (world s) in (b, upd_world w s);
     alloc_plenty := λ s, alloc_plenty (world s) |}.
Next Obligation. intros W HA s Hp. cbn. rewrite (alloc_next_plenty _ Hp). by destruct s. Qed.

(** ** settings.c *)

Record web_settings : Type := mkSettings { max_vnodes : Z; max_results : Z; sync_unlink_queries : bool }.

(** [None] when there are no settings; else the values of "max_nodes",
    "max_results" and "sync_unlink", defaults included.  [strtoul] is the C
    library's, with base 10. *)
Definition load_settings (strtoul : list Z → Z) (handle : option (list Z * list Z * bool)) (old : web_settings)
    : Z * web_settings :=
  match handle with
  | None => (ENOENT, old)
  | Some (nodes, results, sync) =>
      let clamp lo hi v := Z.max (Z.min v hi) lo in
      (B_OK, mkSettings (clamp 10 1000000 (u32 (strtoul nodes))) (clamp 5 1000 (u32 (strtoul results))) sync)
  end.

Definition S_IFQUERY : Z := 0x7000.
Definition B_ATTR_CREATED : Z := 1.
(** 'CSTR' and 'LONG' *)
Definition CSTR : Z := 0x43535452.
Definition LONG : Z := 0x4c4f4e47.

Section Hooks.
Context {W : Type} `{Allocator W} `{WebKernel W} `{WebNet W} (uninit : Z → Z).
(** The tables of attrs.c and the settings. *)
Context (folders_attrs bookmark_attrs : list attr_entry) (settings : web_settings).
Abbreviation MW := (M (web_ns W)).

(** ** Attributes *)

Definition websearchfs_open_attrdir (node : Z) : MW (Z + Z) :=
  get node;;
  open_cookie node (mkWc None (Some node) 0 O_RDONLY S_ATTR_DIR None).

Definition websearchfs_close_attrdir (node cookie : Z) : MW Z := drop_cookie node cookie;; mret B_OK.
Definition websearchfs_free_attrdircookie (node cookie : Z) : MW Z :=
  drop_cookie node cookie;; free_cookie cookie;; mret B_OK.
Definition websearchfs_rewind_attrdir (cookie : Z) : MW Z := set_current cookie 0;; mret B_OK.

(** The attributes of a node: those of its table and its own. *)
Definition all_attrs (n : web_node) : list attr_entry := wn_attrs_indirect n ++ wn_attrs n.

Definition websearchfs_read_attrdir (node cookie bufsize num : Z) : MW (Z + option dirent) :=
  if (num =? 0) || (bufsize <? SIZEOF_DIRENT + WEBSEARCHFS_NAME_LEN) then mret (inl EINVAL)
  else
    LOCK node;;
    n ← get node;
    k ← get_cookie cookie;
    s ← getS;
    r ← match (if wc_dir_current k <? 0 then None else all_attrs n !! Z.to_nat (wc_dir_current k)) with
        | Some ae =>
            pino ← vnid_of (wn_parent n) (rootid s);
            set_current cookie (s32 (wc_dir_current k + 1));;
            mret (Some (mk_entry (nsid s) (wn_vnid n) pino (at_name ae)))
        | None => mret None
        end;
    UNLOCK node;;
    mret (inr r).

(** The entry with a name, in the table first. *)
Definition find_attr (node : Z) (n : web_node) (name : list Z) : option attr_ref :=
  match list_find (λ ae, name = at_name ae) (wn_attrs_indirect n) with
  | Some (_, ae) => Some (TableAttr ae)
  | None => (λ p, NodeAttr node p.1) <$> list_find (λ ae, name = at_name ae) (wn_attrs n)
  end.

Definition websearchfs_open_attr_h (node : Z) (name : list Z) (omode : Z) : MW (Z + Z) :=
  LOCK node;;
  n ← get node;
  r ← match find_attr node n name with
      | None => mret (inl ENOENT)
      | Some ae =>
          ok ← alloc;
          if negb ok then mret (inl B_NO_MEMORY)
          else
            c ← new_cookie (mkWc None (Some node) 0 omode S_ATTR (Some ae));
            e ← on_opened node (λ cs first, @sll_insert_head _ cookie_link cs first (Some c));
            mret (if e =? B_OK then inr c else inl e)
      end;
  UNLOCK node;;
  mret r.

Definition websearchfs_close_attr_h (node cookie : Z) : MW Z := drop_cookie node cookie;; mret B_OK.
Definition websearchfs_free_attr_cookie_h (node cookie : Z) : MW Z :=
  e ← drop_cookie node cookie; free_cookie cookie;; mret e.

(** [cookie->attr]; a slot that is not in use reads as [None]. *)
Definition deref_attr (r : attr_ref) : MW (option attr_entry) :=
  match r with
  | TableAttr ae => mret (Some ae)
  | NodeAttr node i => n ← get node; mret (wn_attrs n !! i)
  end.

(** The status block, and [st_type]. *)
Definition websearchfs_read_attr_stat (node cookie : Z) : MW (Z + stat * Z) :=
  k ← get_cookie cookie;
  match wc_attr k with
  | None => mret (inl EINVAL)
  | Some r =>
      ae ← deref_attr r;
      n ← get node;
      match ae with
      | None => failM NullDeref
      | Some ae =>
          let st := wn_st n in
          mret (inr (mkStat (st_dev st) (st_ino st) (st_mode st) (st_nlink st) (st_uid st) (st_gid st) (at_size ae)
                       (st_rdev st) (st_blksize st) (st_atime st) (st_mtime st) (st_ctime st) (st_crtime st)
                       (st_blocks st), at_type ae))
      end
  end.

(** The status and the bytes copied. *)
Definition websearchfs_read_attr (node cookie pos len : Z) : MW (Z * list Z) :=
  k ← get_cookie cookie;
  if len =? 0 then mret (EINVAL, [])
  else
    LOCK node;;
    r ← match wc_attr k with
        | None => mret (ENOENT, [])
        | Some r =>
            ae ← deref_attr r;
            match ae with
            | None => failM NullDeref
            | Some ae =>
                if (pos <? 0) || (pos <? at_size ae) then
                  bs ← liftO (load_bytes pos (Z.min len (u64 (at_size ae - pos))) (at_value ae));
                  mret (B_OK, bs)
                else mret (ENOENT, [])
            end
        end;
    UNLOCK node;;
    mret r.

(** ** Requests *)

Definition set_request (r : option duckduckgo_request) (x : web_node) : web_node := set_search r (wn_result x) x.

Definition duckduckgo_request_open (query_string : list Z) (query_node : Z) : MW Z :=
  ok ← alloc;
  if negb ok then mret ENOMEM
  else
    dup ← alloc;
    change query_node (set_request (Some (mkReq (if dup : bool then Some query_string else None) false 0)));;
    mret B_OK.

Definition duckduckgo_request_close (query_node : Z) : MW Z :=
  n ← get query_node;
  match wn_request n with
  | None => mret EINVAL
  | Some r => change query_node (set_request (Some (mkReq (rq_query_string r) false (rq_nextid r))));; mret B_OK
  end.

(** A text attribute: its name and the text with its NUL. *)
Definition text_attr (name text : list Z) : attr_entry := mkAttr name CSTR (zlen text + 1) (text ++ [0]).

(** The bytes of a [long]. *)
Definition long_bytes (v : Z) : list Z := (λ k, u8 (Z.shiftr v (8 * k))) <$> seqZ 0 8.

(** The attributes a result gets, in the order of the slots. *)
Definition result_attrs (query_string : list Z) (r : duckduckgo_result) : list attr_entry :=
  [text_attr (bytes_of "META:title") (gr_name r); text_attr (bytes_of "META:url") (gr_url r);
   text_attr (bytes_of "META:keyw") query_string;
   mkAttr (bytes_of "WEBSEARCH:order") LONG 4 (long_bytes (gr_id r))] ++
  (if bool_decide (gr_snipset r = []) then [] else [text_attr (bytes_of "WEBSEARCH:excerpt") (gr_snipset r)]) ++
  (if bool_decide (gr_cache_url r = []) then [] else [text_attr (bytes_of "WEBSEARCH:cache_url") (gr_cache_url r)]) ++
  (if bool_decide (gr_similar_url r = []) then [] else [text_attr (bytes_of "WEBSEARCH:similar_url") (gr_similar_url r)]).

(** [strncpy] into the array for a name; slashes become underscores. *)
Definition entry_name (name : list Z) : list Z :=
  (λ c, if c =? 47 then 95 else c) <$> take (Z.to_nat (WEBSEARCHFS_NAME_LEN - 1)) name.

(** Every attribute is told to the node monitor when it is set. *)
Definition notify_attrs (vnid : Z) (attrs : list attr_entry) : MW unit :=
  modifyS (λ s, upd_world (foldl (λ w ae, wk_notify (NoteAttrChanged (-1) vnid (at_name ae) B_ATTR_CREATED) w) (world s) attrs) s).

Definition websearchfs_push_result_to_query (qn : Z) (result : duckduckgo_result) : MW Z :=
  r ← websearchfs_create_gen qn (entry_name (gr_name result)) 0 0x1a4 bookmark_attrs false true;
  match r with
  | inl e => mret e
  | inr n =>
      LOCK n;;
      q ← get qn;
      match wn_request q ≫= rq_query_string with
      | None => failM NullDeref
      | Some query_string =>
          let attrs := result_attrs query_string result in
          x ← get n;
          put n (set_search (wn_request x) (Some result) (set_attrs (wn_attrs_indirect x) attrs x));;
          notify_attrs (wn_vnid x) attrs
      end;;
      UNLOCK n;;
      mret B_OK
  end.

(** The status of entering a result is not looked at. *)
Fixpoint push_results (qn : Z) (rs : list duckduckgo_result) : MW unit :=
  match rs with
  | [] => mret tt
  | r :: rs => websearchfs_push_result_to_query qn r;; push_results qn rs
  end.

Definition BASEURL : list Z := bytes_of "https://html.duckduckgo.com/html/?kd=-1".

Definition search_url (p : list Z) : list Z :=
  BASEURL ++ bytes_of "&num=" ++ dec (max_results settings) ++ bytes_of "&q=" ++ p.

(** [req->cnx] is reset first and never set, so it is NULL in every case.  The
    list of results is emptied from its tail. *)
Definition duckduckgo_request_process (qn : Z) : MW Z :=
  n ← get qn;
  match wn_request n with
  | None => failM NullDeref
  | Some req =>
      p ← urlify_string uninit (rq_query_string req);
      match p with
      | None => mret ENOMEM
      | Some p =>
          ok ← alloc;
          if negb ok then mret ENOMEM
          else
            page ← call_world (wn_fetch (search_url (c_str p)));
            match page with
            | None => mret ENOMEM
            | Some page =>
                '(r, nextid) ← duckduckgo_parse_results uninit page (rq_nextid req);
                change qn (set_request (Some (mkReq (rq_query_string req) false nextid)));;
                match r with
                | inl e => mret e
                | inr rs => push_results qn (reverse rs);; mret B_OK
                end
            end
      end
  end.

(** ** Queries *)

(** [SLL_FIND] with [compare_fs_node_by_recent_query_string], which asks for the
    time for every node. *)
Fixpoint find_recent_query (count : nat) (p : option Z) (query : list Z) : MW (option Z) :=
  match p with
  | None => mret None
  | Some a =>
      tm ← call_world wk_time;
      n ← get a;
      if bool_decide ((wn_request n ≫= rq_query_string) = Some query) && negb (st_crtime (wn_st n) + 60 * 5 <? tm)
      then mret (Some a)
      else match count with O => mret None | S count => find_recent_query count (wn_qnext n) query end
  end.

(** The name of the folder for a query. *)
Definition query_name (qstring : list Z) : list Z :=
  filter (λ c, c ≠ 47) (take (Z.to_nat (WEBSEARCHFS_NAME_LEN - 1)) qstring).

(** The cookie gets its node, and the other users of the query go on. *)
Definition attach_cookie (qn : Z) : MW (Z + Z) :=
  c ← new_cookie (mkWc None (Some qn) 0 O_RDONLY S_IFQUERY None);
  LOCK qn;;
  on_opened qn (λ cs first, @sll_insert_head _ cookie_link cs first (Some c));;
  UNLOCK qn;;
  change qn (λ x, set_marks (wn_is_perm x) true x);;
  mret (inr c).

(** [err_gn] and [err_mkdir] *)
Definition abandon_query (root qn : Z) (put : bool) : MW unit :=
  n ← get qn;
  (if put then call_world (wk_put_vnode (wn_vnid n)) else mret B_OK);;
  websearchfs_unlink_gen root (wn_name n);;
  mret tt.

(** A query nobody asked lately. *)
Definition new_query (qstring : list Z) : MW (Z + Z) :=
  s ← getS;
  match root s with
  | None => failM NullDeref
  | Some root =>
      r ← websearchfs_create_gen root (query_name qstring) 0 0x1ed folders_attrs true true;
      match r with
      | inl e => mret (inl e)
      | inr qn =>
          n ← get qn;
          err ← call_world (wk_get_vnode (wn_vnid n));
          if negb (err =? B_OK) then abandon_query root qn false;; mret (inl err)
          else
            err ← duckduckgo_request_open qstring qn;
            if negb (err =? B_OK) then abandon_query root qn true;; mret (inl err)
            else
              err ← duckduckgo_request_process qn;
              if negb (err =? B_OK) then
                duckduckgo_request_close qn;; abandon_query root qn true;; mret (inl err)
              else
                LOCK_ns;;
                on_queries (λ h first, @sll_insert_head _ q_link h first (Some qn));;
                UNLOCK_ns;;
                attach_cookie qn
      end
  end.

(** The block of the cookie is asked for first and filled when there is a node,
    or when the query is not for this file system.  A query that is not complete
    is waited for; the hooks run one at a time, so nobody completes it. *)
Definition websearchfs_open_query (query : option (list Z)) : MW (Z + Z) :=
  match query with
  | None => mret (inl EINVAL)
  | Some query =>
      ok ← alloc;
      if negb ok then mret (inl B_NO_MEMORY)
      else
        text ← query_text uninit query;
        match text with
        | None => c ← new_cookie (mkWc None None 0 O_RDONLY S_IFQUERY None); mret (inr c)
        | Some qstring =>
            LOCK_ns;;
            s ← getS;
            qn ← find_recent_query 5000 (queries s) qstring;
            UNLOCK_ns;;
            match qn with
            | Some qn =>
                n ← get qn;
                err ← call_world (wk_get_vnode (wn_vnid n));
                if negb (err =? B_OK) then mret (inl err)
                else if wn_qcompleted n then attach_cookie qn else hangM
            | None => new_query qstring
            end
        end
  end.

(** The cookie leaves the node, and the request is closed. *)
Definition leave_query (q cookie : Z) : MW unit :=
  LOCK q;;
  on_opened q (λ cs first, @sll_remove _ cookie_link cs first (Some cookie));;
  n ← get q;
  (if bool_decide (is_Some (wn_request n)) then duckduckgo_request_close q else mret B_OK);;
  UNLOCK q.

Definition websearchfs_close_query (cookie : Z) : MW Z :=
  k ← get_cookie cookie;
  match wc_node k with
  | None => mret B_OK
  | Some q =>
      leave_query q cookie;;
      n ← get q;
      s ← getS;
      (if sync_unlink_queries settings && bool_decide (wn_opened n = None)
       then websearchfs_unlink_node_rec (walk_fuel (heap s)) q else mret B_OK);;
      n ← get q;
      call_world (wk_put_vnode (wn_vnid n))
  end.

Definition websearchfs_free_query_cookie (cookie : Z) : MW Z :=
  k ← get_cookie cookie;
  match wc_node k with
  | None => mret tt
  | Some q => leave_query q cookie
  end;;
  free_cookie cookie;;
  mret B_OK.

Definition websearchfs_read_query (cookie bufsize num : Z) : MW (Z + option dirent) :=
  k ← get_cookie cookie;
  if (num =? 0) || (bufsize <? SIZEOF_DIRENT + WEBSEARCHFS_NAME_LEN) then mret (inl EINVAL)
  else
    match wc_node k with
    | None => mret (inr None)
    | Some node =>
        LOCK node;;
        n ← get node;
        s ← getS;
        c ← nth_child (walk_fuel (heap s)) (wn_children n) (wc_dir_current k);
        r ← match c with
            | Some a =>
                x ← get a;
                set_current cookie (s32 (wc_dir_current k + 1));;
                mret (Some (mk_entry (nsid s) (wn_vnid x) (wn_vnid n) (wn_name x)))
            | None => mret None
            end;
        UNLOCK node;;
        mret (inr r)
    end.
End Hooks.
