(* ===== verification/WebAttr.v ===== *)
(** The attributes of websearchfs: their names are listed and their values read,
    each through a cookie that is gone afterwards. *)

From S2P Require Import Prelude Errors LinkedList SList VnidPool WebFs WebTree WebView WebRun WebList WebSpec WebQuery WebSearch.

(** What reading an attribute answers: the bytes from [pos] on, as many as there
    are and fit. *)
Definition spec_attr (attrs : list attr_entry) (name : list Z) (pos len : Z) : Z + Z * list Z :=
  match list_find (λ ae, name = at_name ae) attrs with
  | None => inl ENOENT
  | Some (_, ae) =>
      inr (if pos <? at_size ae then (B_OK, take (Z.to_nat (Z.min len (at_size ae - pos))) (drop (Z.to_nat pos) (at_value ae)))
           else (ENOENT, []))
  end.

(** The value has the bytes its size says. *)
Definition attr_ok (ae : attr_entry) : Prop := 0 ≤ at_size ae ≤ zlen (at_value ae) ∧ at_size ae < 2 ^ 63.

Section Attr.
Context {W : Type} `{Allocator W} (Hmem : ∀ w : W, alloc_plenty w).
Implicit Types (s : web_ns W) (t : tree W).

(** What a program does to read an attribute, and to list them. *)
Definition fetch_attr (node : Z) (name : list Z) (pos len : Z) : M (web_ns W) (Z + Z * list Z) :=
  r ← websearchfs_open_attr_h node name O_RDONLY;
  match r with
  | inl e => mret (inl e)
  | inr c =>
      x ← websearchfs_read_attr node c pos len;
      websearchfs_close_attr_h node c;;
      websearchfs_free_attr_cookie_h node c;;
      mret (inr x)
  end.

Fixpoint read_attrs (fuel : nat) (node cookie : Z) : M (web_ns W) (list (list Z)) :=
  match fuel with
  | O => hangM
  | S fuel =>
      r ← websearchfs_read_attrdir node cookie 1024 1;
      match r with
      | inr (Some e) => es ← read_attrs fuel node cookie; mret (d_name e :: es)
      | _ => mret []
      end
  end.

Definition list_attrs (fuel : nat) (node : Z) : M (web_ns W) (Z + list (list Z)) :=
  r ← websearchfs_open_attrdir node;
  match r with
  | inl e => mret (inl e)
  | inr c =>
      es ← read_attrs fuel node c;
      websearchfs_close_attrdir node c;;
      websearchfs_free_attrdircookie node c;;
      mret (inr es)
  end.

(** ** One attribute *)

(** The attribute a cookie refers to is that of the name. *)
Lemma find_attr_spec a n name :
  match find_attr a n name with
  | None => list_find (λ ae, name = at_name ae) (all_attrs n) = None
  | Some (TableAttr ae) => ∃ i, list_find (λ ae, name = at_name ae) (all_attrs n) = Some (i, ae)
  | Some (NodeAttr b j) => b = a ∧ ∃ ae i, wn_attrs n !! j = Some ae ∧ list_find (λ ae, name = at_name ae) (all_attrs n) = Some (i, ae)
  end.
Proof.
  unfold find_attr, all_attrs. destruct (list_find _ (wn_attrs_indirect n)) as [[i ae]|] eqn:E1.
  - exists i. by apply list_find_app_l.
  - rewrite list_find_app_r by done. destruct (list_find _ (wn_attrs n)) as [[j ae]|] eqn:E2; cbn; [|done].
    split; [done|]. exists ae, (j + length (wn_attrs_indirect n))%nat. split; [|done]. by apply list_find_Some in E2 as [? _].
Qed.

Lemma runs_open_attr s t a d name (K : Z + Z → web_ns W → Prop) :
  rep s t → tr_nodes t !! a = Some d →
  (find_attr a (t_node d) name = None → ∀ s', rep s' t → K (inl ENOENT) s') →
  (∀ r c s', find_attr a (t_node d) name = Some r → open_on s' t a c (mkWc None (Some a) 0 O_RDONLY S_ATTR (Some r)) → K (inr c) s') →
  runs (websearchfs_open_attr_h a name O_RDONLY) s K.
Proof.
  intros HR Hd HN HS. pose proof HR as [(L & V & HL) Hvol Hok]. apply runs_bind. eapply runs_LOCK; [done|done|]. intros s1 V1 E1.
  apply runs_bind. eapply runs_get; [done|done|]. intros n Hn Eb.
  change (find_attr a n name) with (find_attr a (bare n) name). rewrite Eb. apply runs_bind.
  destruct (find_attr a (t_node d) name) as [r|].
  - apply runs_bind, (runs_alloc Hmem). cbn [negb]. apply runs_bind. eapply runs_mono; [eapply runs_enter_cookie; [done|done|done|done|reflexivity|]|].
    2:{ intros c s2 Hc. apply runs_bind. exact Hc. }
    intros c s2 V2 Hvol2 Ec2. apply runs_ret. cbv beta. apply runs_bind. eapply runs_UNLOCK; [done|done|]. intros s3 V3 E3.
    apply runs_ret. eapply (HS r c); [done|]. split; [by exists L| | |done|done].
    + eapply volume_env; [|exact Hvol2]. by rewrite !env_cookies, E3.
    + by rewrite (f_equal cookies E3 : cookies s3 = cookies s2).
  - apply runs_ret, runs_bind. eapply runs_UNLOCK; [done|done|]. intros s2 V2 E2. apply runs_ret, HN; [done|].
    split; [by exists L| |done]. eapply volume_env; [|exact Hvol]. by rewrite E2.
Qed.

Lemma open_on_lock s s' t L a c k : open_on s t a c k → view (opened a c) s' (tr_nodes t) L [] None →
  (∀ b, b ∈ L ↔ is_Some (tr_nodes t !! b)) → env s' = env s → open_on s' t a c k.
Proof.
  intros [_ Hvol Hck Hk Hok] V HL E. split; [by exists L| | |done|done].
  - eapply volume_env; [|exact Hvol]. by rewrite !env_cookies, E.
  - by rewrite (f_equal cookies E : cookies s' = cookies s).
Qed.

Lemma runs_read_attr s t a c d r ae pos len (K : Z * list Z → web_ns W → Prop) :
  open_on s t a c (mkWc None (Some a) 0 O_RDONLY S_ATTR (Some r)) → tr_nodes t !! a = Some d →
  match r with TableAttr ae' => ae' = ae | NodeAttr b j => b = a ∧ wn_attrs (t_node d) !! j = Some ae end →
  attr_ok ae → 0 ≤ pos → 0 < len →
  (∀ s', open_on s' t a c (mkWc None (Some a) 0 O_RDONLY S_ATTR (Some r)) →
     K (if pos <? at_size ae then (B_OK, take (Z.to_nat (Z.min len (at_size ae - pos))) (drop (Z.to_nat pos) (at_value ae))) else (ENOENT, [])) s') →
  runs (websearchfs_read_attr a c pos len) s K.
Proof.
  intros HO Hd Hr [Hsz Hmax] Hpos Hlen HK. pose proof HO as [(L & V & HL) Hvol Hck _ Hok]. apply runs_bind.
  eapply runs_eq; [unfold get_cookie; by rewrite Hck, lookup_singleton_eq|]. rewrite (proj2 (Z.eqb_neq len 0)) by lia.
  apply runs_bind. eapply runs_LOCK; [done|done|]. intros s1 V1 E1. cbn [wc_attr]. apply runs_bind, runs_bind.
  assert (runs (deref_attr r) s1 (λ o s', o = Some ae ∧ s' = s1)) as (o & s2 & Ed & -> & ->).
  { destruct r as [ae'|b j]; [by subst; apply runs_ret|]. destruct Hr as [-> Hj]. apply runs_bind. eapply runs_get; [done|done|].
    intros n Hn Eb. apply runs_ret. split; [|done]. by rewrite <- Hj, <- Eb. }
  eapply runs_eq; [exact Ed|]. rewrite (proj2 (Z.ltb_ge pos 0)) by lia. cbn [orb].
  assert (∀ x : Z * list Z, (∀ s', open_on s' t a c (mkWc None (Some a) 0 O_RDONLY S_ATTR (Some r)) → K x s') → runs (UNLOCK a;; mret x) s1 K) as Hend.
  { intros x Hx. apply runs_bind. eapply runs_UNLOCK; [done|done|]. intros s3 V3 E3. apply runs_ret, Hx.
    eapply open_on_lock; [done|done|done|]. by rewrite E3. }
  destruct (Z.ltb_spec pos (at_size ae)) as [Hlt|Hge]; [|by apply runs_ret, Hend].
  apply runs_bind. rewrite u64_id by lia. eapply runs_liftO; [apply load_bytes_Ok; lia|]. by apply runs_ret, Hend.
Qed.

Lemma runs_fetch_attr s t a d name pos len (K : Z + Z * list Z → web_ns W → Prop) :
  rep s t → tr_nodes t !! a = Some d → Forall attr_ok (all_attrs (t_node d)) → 0 ≤ pos → 0 < len →
  (∀ s', rep s' t → K (spec_attr (all_attrs (t_node d)) name pos len) s') → runs (fetch_attr a name pos len) s K.
Proof.
  intros HR Hd Hattrs Hpos Hlen HK. pose proof (find_attr_spec a (t_node d) name) as Hf. unfold spec_attr in HK.
  apply runs_bind. eapply runs_open_attr; [done|done| |].
  - intros E s' HR'. rewrite E in Hf. rewrite Hf in HK. by apply runs_ret, HK.
  - intros r c s1 E HO. rewrite E in Hf.
    assert (∃ ae i, list_find (λ ae, name = at_name ae) (all_attrs (t_node d)) = Some (i, ae) ∧
      match r with TableAttr ae' => ae' = ae | NodeAttr b j => b = a ∧ wn_attrs (t_node d) !! j = Some ae end) as (ae & i & El & Hr).
    { destruct r as [ae|b j]; [destruct Hf as [i ?]; eauto|destruct Hf as (? & ae & i & ? & ?); eauto 10]. }
    rewrite El in HK. assert (attr_ok ae) as Hae.
    { apply list_find_Some in El as [Hl _]. by apply (Forall_lookup_1 _ _ _ _ Hattrs Hl). }
    apply runs_bind. eapply runs_read_attr; [done|done|done|done|done|done|]. intros s2 HO2.
    apply runs_bind, runs_bind. eapply runs_drop; [done|done|]. intros s3 H3. apply runs_ret.
    apply runs_bind, runs_bind. eapply runs_drop_again; [done|done|]. intros s4 H4. apply runs_bind.
    eapply runs_free_cookie; [done|]. intros s5 HR5. by apply runs_ret, runs_ret, HK.
Qed.

(** ** All of them *)

Definition attr_cookie (a i : Z) : web_cookie := mkWc None (Some a) i O_RDONLY S_ATTR_DIR None.

Lemma runs_read_attrdir s t a c d i (K : Z + option dirent → web_ns W → Prop) :
  open_on s t a c (attr_cookie a i) → tr_nodes t !! a = Some d → 0 ≤ i < 2 ^ 31 - 1 →
  (∀ ae e s', all_attrs (t_node d) !! Z.to_nat i = Some ae → d_name e = at_name ae → open_on s' t a c (attr_cookie a (i + 1)) →
     K (inr (Some e)) s') →
  (∀ s', all_attrs (t_node d) !! Z.to_nat i = None → open_on s' t a c (attr_cookie a i) → K (inr None) s') →
  runs (websearchfs_read_attrdir a c 1024 1) s K.
Proof.
  intros HO Hd Hi HS HN. pose proof HO as [(L & V & HL) Hvol Hck _ Hok]. unfold websearchfs_read_attrdir. cbn [Z.eqb orb].
  change (1024 <? SIZEOF_DIRENT + WEBSEARCHFS_NAME_LEN) with false. cbv iota.
  apply runs_bind. eapply runs_LOCK; [done|done|]. intros s1 V1 E1. apply runs_bind. eapply runs_get; [done|done|].
  intros n Hn Eb. pose proof (f_equal cookies E1 : cookies s1 = cookies s) as Ec1. rewrite Hck in Ec1.
  apply runs_bind. eapply runs_eq; [unfold get_cookie; by rewrite Ec1, lookup_singleton_eq|]. cbn [wc_dir_current attr_cookie].
  apply runs_bind, runs_getS, runs_bind. rewrite (proj2 (Z.ltb_ge i 0)) by lia. rewrite <- Eb in HS, HN.
  change (all_attrs (bare n)) with (all_attrs n) in HS, HN.
  destruct (all_attrs n !! Z.to_nat i) as [ae|] eqn:Ea.
  - apply runs_bind. eapply runs_vnid; [done| |].
    { intros p Ep. eapply (to_parent _ Hok); [done|]. by rewrite <- Eb. }
    apply runs_bind, runs_set_current; rewrite Ec1; [rewrite lookup_singleton_eq; by eexists|].
    intros k. rewrite lookup_singleton_eq. intros [= <-]. apply runs_ret, runs_bind. set (s2 := upd_cookies _ _ s1).
    eapply runs_UNLOCK; [by eapply (view_env _ s1)|done|]. intros s3 V3 E3. apply runs_ret. eapply HS; [done|done|].
    split; [by exists L| | |done|done].
    + eapply volume_env; [|exact Hvol]. rewrite !env_cookies, E3. transitivity (upd_cookies ∅ 0 (env s1)); [done|]. by rewrite E1.
    + rewrite (f_equal cookies E3 : cookies s3 = cookies s2). cbn. rewrite s32_id by (unfold is_s32; lia). apply insert_singleton_eq.
  - apply runs_ret, runs_bind. eapply runs_UNLOCK; [done|done|]. intros s2 V2 E2. apply runs_ret, HN; [done|].
    eapply open_on_lock; [done|done|done|]. by rewrite E2.
Qed.

Lemma runs_read_attrs t a c d : ∀ fuel i s (K : list (list Z) → web_ns W → Prop),
  open_on s t a c (attr_cookie a (Z.of_nat i)) → tr_nodes t !! a = Some d → zlen (all_attrs (t_node d)) < 2 ^ 31 - 1 →
  (i ≤ length (all_attrs (t_node d)))%nat → (length (all_attrs (t_node d)) < i + fuel)%nat →
  (∀ s' k, open_on s' t a c k → K (at_name <$> drop i (all_attrs (t_node d))) s') →
  runs (read_attrs fuel a c) s K.
Proof.
  induction fuel as [|fuel IH]; intros i s K HO Hd Hlen Hi Hf HK; [lia|].
  cbn [read_attrs]. apply runs_bind. eapply runs_read_attrdir; [done|done|lia| |]; rewrite Nat2Z.id.
  - intros ae e s' Hae He HO'. apply runs_bind. pose proof (lookup_lt_Some _ _ _ Hae).
    eapply (IH (S i)); [by rewrite Nat2Z.inj_succ, <- Z.add_1_r|done|done|lia|lia|].
    intros s2 k HO2. apply runs_ret. rewrite He. rewrite (drop_S _ _ _ Hae) in HK. by eapply HK.
  - intros s' He HO'. apply runs_ret. rewrite drop_ge in HK by (by apply lookup_ge_None_1). by eapply HK.
Qed.

Lemma runs_list_attrs s t a d fuel (K : Z + list (list Z) → web_ns W → Prop) :
  rep s t → tr_nodes t !! a = Some d → zlen (all_attrs (t_node d)) < 2 ^ 31 - 1 → (length (all_attrs (t_node d)) < fuel)%nat →
  (∀ s', rep s' t → K (inr (at_name <$> all_attrs (t_node d))) s') → runs (list_attrs fuel a) s K.
Proof.
  intros HR Hd Hlen Hf HK. pose proof HR as [(L & V & HL) Hvol Hok]. apply runs_bind, runs_bind.
  eapply runs_get; [done|done|]. intros n Hn Eb. eapply (runs_open_cookie Hmem); [done|done|done|]. intros c s1 HO.
  apply runs_bind. eapply (runs_read_attrs _ _ _ _ _ 0); [done|done|done|lia|lia|]. intros s2 k HO2. rewrite drop_0.
  apply runs_bind, runs_bind. eapply runs_drop; [done|done|]. intros s3 H3. apply runs_ret.
  apply runs_bind, runs_bind. eapply runs_drop_again; [done|done|]. intros s4 H4. apply runs_bind.
  eapply runs_free_cookie; [done|]. intros s5 HR5. by apply runs_ret, runs_ret, HK.
Qed.

(** C19. The attribute hooks serve the attributes of a node.  In a mounted volume,
    listing the attributes of a node gives the names of its table and then of its
    own entries, in order; opening one by name, reading it and closing it gives
    the bytes from the position on, as many as there are and fit, ENOENT past the
    end and ENOENT for a name that is not there.  Both leave the volume as it was,
    with no cookie left behind. *)
Theorem attr_hooks_serve s t a d name pos len :
  rep s t → tr_nodes t !! a = Some d → Forall attr_ok (all_attrs (t_node d)) → zlen (all_attrs (t_node d)) < 2 ^ 31 - 1 →
  0 ≤ pos → 0 < len →
  ∃ s1 s2,
    list_attrs (S (length (all_attrs (t_node d)))) a s = Ok (inr (at_name <$> all_attrs (t_node d)), s1) ∧
    fetch_attr a name pos len s1 = Ok (spec_attr (all_attrs (t_node d)) name pos len, s2) ∧ rep s2 t.
Proof.
  intros HR Hd Hok Hlen Hpos Hl.
  destruct (runs_list_attrs s t a d (S (length (all_attrs (t_node d)))) (λ r s', r = inr (at_name <$> all_attrs (t_node d)) ∧ rep s' t))
    as (r & s1 & E1 & -> & HR1); [done|done|done|lia|done|].
  destruct (runs_fetch_attr s1 t a d name pos len (λ r s', r = spec_attr (all_attrs (t_node d)) name pos len ∧ rep s' t))
    as (r & s2 & E2 & -> & HR2); [done..|]. eauto.
Qed.
End Attr.

(** * The attributes of a volume's root *)

Module SampleAttrs.
#[local] Program Instance log_allocator : Allocator (list web_note) :=
  {| alloc_next := λ w, (true, w); alloc_plenty := λ _, True |}.
Next Obligation. done. Qed.
#[local] Instance log_kernel : WebKernel (list web_note) := {|
  wk_time := λ w, (7, w); wk_get_vnode := λ _ w, (B_OK, w); wk_put_vnode := λ _ w, (B_OK, w);
  wk_remove_vnode := λ _ w, (B_OK, w); wk_publish_vnode := λ _ _ _ w, (B_OK, w); wk_notify := λ n w, n :: w |}.

Definition table : list attr_entry := [text_attr (bytes_of "BEOS:TYPE") (bytes_of "folder"); text_attr (bytes_of "META:name") (bytes_of "web")].
Definition unmounted : web_ns (list web_note) := mkNs 0 0 None None None None 0 false ∅ ∅ 100 0 0 [].

(** Four bytes from the second on, and a name that is not there. *)
Lemma attr_hooks_serve_witness :
  ∃ s s1 s2, websearchfs_mount table [] [] [] [1; 2; 3] 9 unmounted = Ok (inr 1, s) ∧
    list_attrs 3 100 s = Ok (inr [bytes_of "BEOS:TYPE"; bytes_of "META:name"], s1) ∧
    fetch_attr 100 (bytes_of "BEOS:TYPE") 1 4 s1 = Ok (inr (B_OK, bytes_of "olde"), s2).
Proof.
  destruct (runs_mount (H := log_allocator) (H0 := log_kernel) (λ _, I) table [] [] [] [1; 2; 3] 9 unmounted eq_refl eq_refl eq_refl eq_refl) as (r & s & Em & -> & HR).
  set (t := mounted_tree table [] [] [] [1; 2; 3] 9 (next_addr unmounted) (world unmounted)) in *.
  assert (∃ d, tr_nodes t !! 100 = Some d ∧ all_attrs (t_node d) = table) as (d & Hd & Ed).
  { eexists. split; vm_compute; reflexivity. }
  destruct (attr_hooks_serve (H := log_allocator) (λ _, I) s t 100 d (bytes_of "BEOS:TYPE") 1 4 HR Hd) as (s1 & s2 & E1 & E2 & _);
    rewrite ?Ed in *; [repeat constructor; vm_compute; congruence|vm_compute; reflexivity|lia|lia|].
  exists s, s1, s2. split; [exact Em|]. split; [exact E1|]. rewrite E2. vm_compute. reflexivity.
Defined.
End SampleAttrs.
