(* ===== verification/WebFind.v ===== *)
(** Searching: opening a query asks the search engine and gives a folder with a
    node for every result, which reading the query lists in order. *)

From S2P Require Import Prelude Errors LinkedList SList VnidPool WebQuery WebParse WebParseProofs.
From S2P Require Import WebFs WebTree WebView WebRun WebServe WebList WebSpec WebSearch.

(** * A free name *)

Lemma five_digits_inj i j : 0 ≤ i < 100000 → 0 ≤ j < 100000 → five_digits i = five_digits j → i = j.
Proof.
  intros Hi Hj. unfold five_digits. cbn [fmap list_fmap]. intros E. injection E as E1 E2 E3 E4 E5.
  rewrite !Z.div_1_r in E5. assert (∀ v, 0 ≤ v < 100000 →
    v = 10000 * (v / 10000 mod 10) + 1000 * (v / 1000 mod 10) + 100 * (v / 100 mod 10) + 10 * (v / 10 mod 10) + v mod 10) as Hv.
  { intros v Hv. div_mod_lia. }
  rewrite (Hv i Hi), (Hv j Hj). lia.
Qed.

Lemma unique_name_inj name i j : 0 ≤ i < 100000 → 0 ≤ j < 100000 → unique_name name i = unique_name name j → i = j.
Proof. unfold unique_name. intros Hi Hj E%app_inv_head. apply (f_equal tail) in E. by apply five_digits_inj. Qed.

Section Free.
Context {W : Type}.
Implicit Types (t : tree W).

(** A folder of a volume always has room for one more name: the numbered names
    are different and there are more of them than nodes. *)
Lemma free_name_total t dir name : tree_ok t → is_Some (free_name (tr_nodes t) dir name).
Proof.
  intros Hok. unfold free_name. destruct (child (tr_nodes t) dir name) as [b|]; [|by eexists].
  destruct (head _) as [nm|] eqn:E; [by eexists|]. exfalso.
  set (names := unique_name name <$> seqZ 1 4999) in *.
  assert (NoDup names) as Hnd.
  { apply NoDup_fmap_2_strong; [|apply NoDup_seqZ]. intros i j Hi%elem_of_seqZ Hj%elem_of_seqZ. apply unique_name_inj; lia. }
  set (nodes := omap (child (tr_nodes t) dir) names).
  assert (∀ nm, nm ∈ names → is_Some (child (tr_nodes t) dir nm)) as Hall.
  { intros nm Hin. apply not_eq_None_Some. by apply (head_filter_None _ _ nm E). }
  assert (∀ l, (∀ nm, nm ∈ l → nm ∈ names) → length (omap (child (tr_nodes t) dir) l) = length l) as Hlen.
  { induction l as [|nm l IH]; intros Hl; [done|]. destruct (Hall nm) as [a Ha]; [by apply Hl; left|].
    cbn. rewrite Ha. cbn. f_equal. apply IH. intros x Hx. apply Hl. by right. }
  assert (NoDup nodes) as Hndn.
  { unfold nodes. clear Hlen Hall E. induction Hnd as [|nm l Hnm Hnd IH]; [constructor|]. cbn.
    destruct (child (tr_nodes t) dir nm) as [a|] eqn:Ea; [|done]. constructor; [|done].
    rewrite list_elem_of_omap. intros (nm' & Hin & Ea'). destruct (child_node _ _ _ _ Hok Ea) as (k & Hk & <- & _).
    destruct (child_node _ _ _ _ Hok Ea') as (k' & Hk' & <- & _). simplify_eq. done. }
  assert (length nodes ≤ size (tr_nodes t))%nat as Hsz.
  { rewrite <- size_dom, <- (size_list_to_set (C := gset Z)) by done. apply subseteq_size. intros a Ha%elem_of_list_to_set.
    apply list_elem_of_omap in Ha as (nm & _ & Ea). destruct (child_node _ _ _ _ Hok Ea) as (k & Hk & _). by eapply elem_of_dom_2. }
  unfold nodes in Hsz. rewrite Hlen in Hsz by done. unfold names in Hsz. rewrite length_fmap, length_seqZ in Hsz.
  pose proof (to_size _ Hok). pose proof (to_next _ Hok). lia.
Qed.
End Free.

Lemma free_name_form N dir name nm : free_name N dir name = Some nm → nm = name ∨ ∃ i, nm = unique_name name i.
Proof.
  unfold free_name. destruct (child N dir name); [|intros; simplify_eq; by left].
  intros [(i & -> & _)%list_elem_of_fmap _]%head_filter_Some. eauto.
Qed.

(** * Entering results *)

(** Node [a] shows the result [r] of the query for [q]. *)
Definition shows (N : gmap Z tnode) (q : list Z) (a : Z) (r : duckduckgo_result) : Prop :=
  ∃ k, N !! a = Some k ∧ wn_attrs (t_node k) = result_attrs q r ∧
    (wn_name (t_node k) = entry_name (gr_name r) ∨ ∃ i, wn_name (t_node k) = unique_name (entry_name (gr_name r)) i).

(** [qn] is the folder of the query for [q], with these entries. *)
Definition folder (N : gmap Z tnode) (qn : Z) (q : list Z) (kids : list Z) : Prop :=
  ∃ d req, N !! qn = Some d ∧ S_ISDIR (st_mode (wn_st (t_node d))) = true ∧ wn_request (t_node d) = Some req ∧
    rq_query_string req = Some q ∧ t_kids d = kids.

Lemma shows_same N N' q a r :
  (∀ k, N !! a = Some k → ∃ k', N' !! a = Some k' ∧ wn_attrs (t_node k') = wn_attrs (t_node k) ∧ wn_name (t_node k') = wn_name (t_node k)) →
  shows N q a r → shows N' q a r.
Proof. intros Hk (k & Ha & E & Hn). destruct (Hk k Ha) as (k' & Ha' & E' & En'). exists k'. by rewrite E', En'. Qed.

Lemma entry_name_ok name : no_nul name → no_nul (entry_name name) ∧ zlen (entry_name name) ≤ 69.
Proof.
  intros Hn. unfold entry_name. split.
  - apply Forall_fmap, Forall_take. eapply Forall_impl; [exact Hn|]. intros c Hc. cbn. by case_match.
  - rewrite length_fmap, length_take. unfold WEBSEARCHFS_NAME_LEN. lia.
Qed.

Lemma mark_insert {W} (t : tree W) a g k : tr_nodes t !! a = Some k →
  tr_nodes (mark a g t) = <[a := mkT (g (t_node k)) (t_kids k)]> (tr_nodes t).
Proof.
  intros Hk. cbn. apply map_eq. intros b. destruct (decide (a = b)) as [<-|].
  - by rewrite lookup_insert_eq, lookup_alter_eq, Hk.
  - by rewrite lookup_insert_ne, lookup_alter_ne.
Qed.

Lemma folder_mark {W} (t : tree W) a g qn q kids : qn ≠ a → folder (tr_nodes t) qn q kids → folder (tr_nodes (mark a g t)) qn q kids.
Proof. intros Hne (d & req & Hd & ?). exists d, req. cbn. by rewrite lookup_alter_ne. Qed.

Section Push.
Context {W : Type} `{Allocator W} `{WebKernel W} (Hmem : ∀ w : W, alloc_plenty w).
Context (folders_attrs bookmark_attrs : list attr_entry).
Implicit Types (s : web_ns W) (t : tree W).

(** The nodes that were there before a node is entered. *)
Lemma enter_old t dir d nm perms iattrs mkdir b k : tree_ok t → tr_nodes t !! dir = Some d → tr_nodes t !! b = Some k →
  ∃ k', tr_nodes (enter t dir d nm perms iattrs mkdir) !! b = Some k' ∧ wn_attrs (t_node k') = wn_attrs (t_node k) ∧
    wn_name (t_node k') = wn_name (t_node k).
Proof.
  intros Hok Hd Hb. assert (b ≠ tr_addr t) as Hne by (intros ->; by rewrite addr_fresh in Hb).
  unfold enter. destruct (wk_time (tr_world t)). cbn. rewrite lookup_insert_ne by done.
  destruct (decide (dir = b)) as [<-|]; [rewrite lookup_insert_eq; simplify_eq; by eexists|rewrite lookup_insert_ne by done; by exists k].
Qed.

Lemma enter_folder t qn d nm perms iattrs mkdir q kids : tree_ok t → tr_nodes t !! qn = Some d → folder (tr_nodes t) qn q kids →
  folder (tr_nodes (enter t qn d nm perms iattrs mkdir)) qn q (tr_addr t :: kids).
Proof.
  intros Hok Hd (d' & req & Hd' & Hdir & Hreq & Hq & <-). simplify_eq.
  assert (qn ≠ tr_addr t) as Hne by (intros ->; by rewrite addr_fresh in Hd).
  unfold enter. destruct (wk_time (tr_world t)). eexists _, req. cbn. rewrite lookup_insert_ne, lookup_insert_eq by done. done.
Qed.

Lemma tr_next_enter t dir d nm perms iattrs mkdir : tr_next (enter t dir d nm perms iattrs mkdir) = tr_next t + 1.
Proof. unfold enter. by destruct (wk_time (tr_world t)). Qed.

(** Creating under a name of its own always works. *)
Lemma spec_create_uniq t dir d name omode perms iattrs mkdir :
  tree_ok t → tr_nodes t !! dir = Some d → S_ISDIR (st_mode (wn_st (t_node d))) = true → zlen name ≤ 69 →
  ∃ nm, spec_create t dir name omode perms iattrs mkdir true = (inr (tr_addr t), enter t dir d nm perms iattrs mkdir) ∧
    (nm = name ∨ ∃ i, nm = unique_name name i).
Proof.
  intros Hok Hd Hdir Hl. destruct (free_name_total t dir name Hok) as [nm Hnm]. exists nm. split; [|by eapply free_name_form].
  unfold spec_create. rewrite Hd, Hdir, Hnm. unfold WEBSEARCHFS_NAME_LEN. by rewrite (proj2 (Z.ltb_ge _ _)) by lia.
Qed.

(** The attributes of a result on its node. *)
Definition with_result (attrs : list attr_entry) (r : duckduckgo_result) (x : web_node) : web_node :=
  set_search (wn_request x) (Some r) (set_attrs (wn_attrs_indirect x) attrs x).

Lemma with_result_harmless attrs r : harmless (with_result attrs r).
Proof. by intros []. Qed.

Lemma runs_push s t qn q kids r (K : Z → web_ns W → Prop) :
  rep s t → folder (tr_nodes t) qn q kids → no_nul (gr_name r) → tr_next t < 1248 →
  (∀ s' t' n, rep s' t' → folder (tr_nodes t') qn q (n :: kids) → shows (tr_nodes t') q n r → tr_next t' = tr_next t + 1 →
     (∀ b r', shows (tr_nodes t) q b r' → shows (tr_nodes t') q b r') → K B_OK s') →
  runs (websearchfs_push_result_to_query bookmark_attrs qn r) s K.
Proof.
  intros HR Hfold Hn Hnx HK. pose proof (rp_tree _ _ HR) as Hok.
  pose proof Hfold as (d & req & Hd & Hdir & Hreq & Hq & Hkids).
  destruct (entry_name_ok _ Hn) as [Hnn Hnl].
  destruct (spec_create_uniq t qn d (entry_name (gr_name r)) 0 0x1a4 bookmark_attrs false Hok Hd Hdir Hnl) as (nm & Esp & Hnm).
  unfold websearchfs_push_result_to_query. apply runs_bind. eapply (runs_create_gen Hmem); [done|done|done|done|]. rewrite Esp. cbn [fst snd].
  intros s1 HR1. set (t1 := enter _ _ _ _ _ _ _) in *. pose proof HR1 as [(L & V1 & HL) Hvol1 Hok1].
  assert (∃ k, tr_nodes t1 !! tr_addr t = Some k ∧ wn_name (t_node k) = nm ∧ wn_vnid (t_node k) = tr_next t) as (k & Hk & Enm & Ev).
  { unfold t1, enter. destruct (wk_time (tr_world t)). eexists. cbn. by rewrite lookup_insert_eq. }
  pose proof (enter_folder t qn d nm 0x1a4 bookmark_attrs false q kids Hok Hd Hfold) as Hfold1. fold t1 in Hfold1.
  pose proof Hfold1 as (d1 & req1 & Hd1 & Hdir1 & Hreq1 & Hq1 & Hkids1).
  apply runs_bind. eapply runs_LOCK; [exact V1|exact Hk|]. intros s2 V2 E2.
  apply runs_bind. eapply runs_get; [exact V2|exact Hd1|]. intros x Hx Ex.
  assert (wn_request x = Some req1) as -> by (by rewrite <- Hreq1, <- Ex). cbn [mbind option_bind]. rewrite Hq1.
  set (attrs := result_attrs q r). apply runs_bind, runs_bind. eapply runs_get; [exact V2|exact Hk|]. intros y Hy Ey.
  apply runs_bind. change (put (tr_addr t) _) with (put (W := W) (tr_addr t) (with_result attrs r y)). apply runs_modifyS.
  pose proof (view_put closed s2 _ L [] (Some (tr_addr t)) (tr_addr t) y (with_result attrs r y) k (Some (tr_addr t)) V2 Hy Hk
    eq_refl eq_refl eq_refl eq_refl (vw_opened _ _ _ _ _ _ V2 _ _ Hy) (vw_locks _ _ _ _ _ _ V2 _ _ Hy) ltac:(done)) as V3.
  set (s3 := upd_heap _ _ s2) in *. apply runs_modifyS. apply runs_bind.
  eapply runs_UNLOCK; [by eapply (view_env _ s3)|apply lookup_insert_eq|]. intros s4 V4 E4. apply runs_ret.
  set (w := foldl _ _ attrs) in *.
  assert (bare (with_result attrs r y) = with_result attrs r (t_node k)) as Eb by (by rewrite <- Ey).
  rewrite Eb in V4.
  rewrite <- (mark_insert t1 _ (with_result attrs r) k Hk) in V4.
  assert (tr_nodes (mark (tr_addr t) (with_result attrs r) t1) !! tr_addr t = Some (mkT (with_result attrs r (t_node k)) (t_kids k))) as Hk'
    by (rewrite (mark_insert _ _ _ _ Hk); apply lookup_insert_eq).
  eapply (HK s4 (set_outside w (mark (tr_addr t) (with_result attrs r) t1)) (tr_addr t)); cbn [set_outside tr_nodes tr_next].
  - split; cbn [set_outside tr_nodes].
    + exists L. split; [done|]. intros b. by rewrite mark_is_Some.
    + eapply volume_env; [exact E4|]. apply (volume_world s3 (mark _ _ t1)), volume_nodes.
      { by rewrite <- size_dom, dom_alter_L, size_dom. }
      eapply volume_env; [|exact Hvol1]. by rewrite <- E2.
    + apply (tree_ok_mark (tr_addr t) _ t1 (with_result_harmless attrs r)) in Hok1 as []. by split.
  - eapply folder_mark; [|exact Hfold1]. intros ->. by rewrite addr_fresh in Hd.
  - eexists. split; [exact Hk'|]. split; [done|]. change (wn_name (t_node k) = entry_name (gr_name r) ∨ ∃ i, wn_name (t_node k) = unique_name (entry_name (gr_name r)) i).
    by rewrite Enm.
  - apply tr_next_enter.
  - intros b r' Hs. assert (b ≠ tr_addr t) as Hne by (destruct Hs as (kb & Hb & _); intros ->; by rewrite addr_fresh in Hb).
    eapply shows_same; [|exact Hs]. intros kb Hb. cbn. rewrite lookup_alter_ne by done. by apply enter_old.
Qed.

Lemma runs_push_results rs : ∀ s t qn q kids shown (K : unit → web_ns W → Prop),
  rep s t → folder (tr_nodes t) qn q kids → Forall2 (shows (tr_nodes t) q) kids shown →
  Forall (λ r, no_nul (gr_name r)) rs → tr_next t + zlen rs ≤ 1248 →
  (∀ s' t' kids', rep s' t' → folder (tr_nodes t') qn q kids' → Forall2 (shows (tr_nodes t') q) kids' (reverse rs ++ shown) → K tt s') →
  runs (push_results bookmark_attrs qn rs) s K.
Proof.
  induction rs as [|r rs IH]; intros s t qn q kids shown K HR Hf Hs Hn Hnx HK; [by apply runs_ret, (HK s t kids)|].
  apply Forall_cons in Hn as [Hr Hn]. cbn [length] in Hnx. apply runs_bind. eapply runs_push; [done|done|done|lia|].
  intros s1 t1 n HR1 Hf1 Hs1 Hx1 Hkeep. eapply (IH s1 t1 qn q (n :: kids) (r :: shown)); [done|done| |done|lia|].
  - constructor; [done|]. eapply Forall2_impl; [exact Hs|]. intros b r'. apply Hkeep.
  - intros s2 t2 kids2 HR2 Hf2 Hs2. apply (HK s2 t2 kids2); [done|done|]. by rewrite reverse_cons, <- app_assoc.
Qed.
End Push.

(** * Asking the search engine *)

Section Find.
Context {W : Type} `{Allocator W} `{WebKernel W} `{WebNet W} (Hmem : ∀ w : W, alloc_plenty w) (uninit : Z → Z).
Context (folders_attrs bookmark_attrs : list attr_entry) (settings : web_settings).
Implicit Types (s : web_ns W) (t : tree W).

Lemma plenty s : alloc_plenty s.
Proof. exact (Hmem (world s)). Qed.

Lemma rep_outside s t w : rep s t → rep (upd_world w s) (set_outside w t).
Proof.
  intros [(L & V & HL) Hvol Hok]. split; [exists L; split; [by eapply view_env|done]|by apply volume_world|by destruct Hok].
Qed.

(** A call of the outside world. *)
Lemma runs_world {A} (f : W → A * W) s t (K : A → web_ns W → Prop) :
  rep s t → (∀ s' w, rep s' (set_outside w t) → K (f (tr_world t)).1 s') → runs (call_world f) s K.
Proof.
  intros HR HK. pose proof (vo_world _ _ (rp_volume _ _ HR)) as Ew. destruct (f (tr_world t)) as [a w] eqn:E.
  eapply runs_eq; [unfold call_world; by rewrite Ew, E|]. eapply (HK _ w). by apply rep_outside.
Qed.

Lemma request_harmless r : harmless (set_request r).
Proof. by intros []. Qed.
#[local] Hint Resolve request_harmless : core.

(** What is asked for the text [q], and the page that answers it. *)
Record answers (q : list Z) (ls : list link) : Prop := {
  an_chars : Forall (λ c, 0 < c < 256) q;
  an_plain : ¬ Forall (λ c, zlen (urlify_char c) = 3) q;
  an_page : ∃ front body,
    (∀ w, (wn_fetch (search_url settings (urlified q)) w).1 = Some (Some (front ++ links_html ls))) ∧
    starts_with (bytes_of "<!DOCTYPE html PUBLIC") front = true ∧
    is_Some (strstr front (bytes_of "DuckDuckGo")) ∧ strstr front (bytes_of "<body") = Some body ∧
    strstr front G_BEGIN_URL = None ∧ strstr (front ++ links_html ls) G_BEGIN_CACHESIM = None;
  an_links : Forall link_ok ls
}.

Lemma results_of_names id ls : Forall link_ok ls → Forall (λ r, no_nul (gr_name r)) (results_of id ls).
Proof.
  intros Hls. revert id. induction Hls as [|l ls Hl Hls IH]; intros id; constructor; [|apply IH].
  cbn. apply Forall_take. unfold plain. apply Forall_bind. exact (lo_title _ Hl).
Qed.

Lemma results_of_length id ls : length (results_of id ls) = length ls.
Proof. revert id. induction ls as [|l ls IH]; intros id; cbn; [done|]. by rewrite IH. Qed.

(** The request of the folder was opened for [q] and not processed yet. *)
Lemma runs_process s t qn q ls d (K : Z → web_ns W → Prop) :
  rep s t → tr_nodes t !! qn = Some d → S_ISDIR (st_mode (wn_st (t_node d))) = true →
  wn_request (t_node d) = Some (mkReq (Some q) false 0) → t_kids d = [] →
  answers q ls → tr_next t + zlen ls ≤ 1248 →
  (∀ s' t' kids, rep s' t' → folder (tr_nodes t') qn q kids → Forall2 (shows (tr_nodes t') q) kids (results_of 0 ls) → K B_OK s') →
  runs (duckduckgo_request_process uninit bookmark_attrs settings qn) s K.
Proof.
  intros HR Hd Hdir Hreq Hkids [Hch Hpl (front & body & Hfetch & Hdoc & Hddg & Hbody & Hbeg & Hcs) Hls] Hnx HK.
  pose proof HR as [(L & V & HL) Hvol Hok]. apply runs_bind. eapply runs_get; [done|done|]. intros n Hn Eb.
  assert (wn_request n = Some (mkReq (Some q) false 0)) as -> by (by rewrite <- Hreq, <- Eb). cbn [rq_query_string rq_nextid rq_cnx].
  destruct (urlify_run uninit q s (plenty s) Hch) as [_ Hu]. rewrite bool_decide_false in Hu by done. destruct Hu as (p & Eu & Ep).
  apply runs_bind. eapply runs_eq; [exact Eu|]. apply runs_bind, (runs_alloc Hmem). cbn [negb]. rewrite Ep.
  apply runs_bind. eapply runs_world; [done|]. intros s1 w HR1. rewrite Hfetch. apply runs_bind.
  eapply runs_eq; [apply (parse_results_run uninit front body ls 0 s1 (plenty s1)); try done; pose proof (to_next _ Hok); lia|].
  apply runs_bind. eapply runs_mark; [exact HR1|cbn; rewrite Hd; by eexists|done|]. intros s2 HR2.
  set (t2 := mark _ _ _) in HR2.
  assert (folder (tr_nodes t2) qn q []) as Hf2.
  { eexists _, _. unfold t2, mark. cbn. rewrite lookup_alter_eq, Hd. cbn. done. }
  apply runs_bind. eapply (runs_push_results Hmem bookmark_attrs _ s2 t2 qn q [] []); [done|done|constructor| | |].
  - apply Forall_reverse, results_of_names, Hls.
  - rewrite length_reverse, results_of_length. exact Hnx.
  - intros s3 t3 kids HR3 Hf3 Hs3. apply runs_ret, (HK s3 t3 kids); [done|done|].
    by rewrite reverse_involutive, app_nil_r in Hs3.
Qed.

(** * The query *)

(** The first query of the list. *)
Lemma runs_queries_insert op s N L lk a d (K : Z → web_ns W → Prop) :
  view op s N L [] lk → N !! a = Some d →
  (∀ s', view op s' N L [a] lk → env s' = env s → K B_OK s') →
  runs (on_queries (λ h first, @sll_insert_head _ q_link h first (Some a))) s K.
Proof.
  intros V Hd HK. destruct (view_lookup _ _ _ _ _ _ _ _ V Hd) as (n & Hn & _).
  destruct (sll_insert_head_run _ _ _ _ _ q_eta Hn (vw_queries _ _ _ _ _ _ V) (not_elem_of_nil a)) as (h' & E & Hc & Hr).
  apply runs_bind, runs_getS, runs_bind. eapply runs_liftO; [exact E|].
  apply runs_bind, runs_modifyS, runs_bind, runs_modifyS, runs_ret, HK; [|done]. destruct V as [Vb Vn Vq Vk Vl Vo].
  assert (∀ (B : Type) (f : web_node → B), (∀ o x, f (@set_nxt _ q_link o x) = f x) → ∀ b, f <$> h' !! b = f <$> heap s !! b) as Hf.
  { intros B f Ef. eapply (@relinked_keeps _ q_link); eauto. }
  split; cbn; [| |done| | |].
  - intros b. rewrite <- Vb. by apply Hf.
  - eapply chain_nxt; [|exact Vn]. by apply Hf.
  - intros b x k Hx Hk. apply (chain_nxt (heap s)); [by apply Hf|].
    destruct (fmap_lookup_inv wn_children _ _ _ (Hf _ wn_children ltac:(done) b) Hx) as (y & Hy & <-). by apply (Vk b).
  - intros b x Hx. destruct (fmap_lookup_inv wn_l _ _ _ (Hf _ wn_l ltac:(done) b) Hx) as (y & Hy & <-). by apply Vl.
  - intros b x Hx. destruct (fmap_lookup_inv wn_opened _ _ _ (Hf _ wn_opened ltac:(done) b) Hx) as (y & Hy & <-). by apply Vo.
Qed.

(** [c] is open on the query [a], [i] entries were read. *)
Record querying s t (a c i : Z) : Prop := {
  qu_view : ∃ L, view (opened a c) s (tr_nodes t) L [a] None;
  qu_volume : volume (upd_cookies ∅ 0 s) t;
  qu_cookie : cookies s = {[c := mkWc None (Some a) i O_RDONLY S_IFQUERY None]};
  qu_tree : tree_ok t
}.

Definition completed (x : web_node) : web_node := set_marks (wn_is_perm x) true x.

Lemma completed_harmless : harmless completed.
Proof. by intros []. Qed.

Lemma runs_attach s t L qn d (K : Z + Z → web_ns W → Prop) :
  view closed s (tr_nodes t) L [qn] None → volume s t → tree_ok t → tr_nodes t !! qn = Some d →
  (∀ c s', querying s' (mark qn completed t) qn c 0 → K (inr c) s') →
  runs (attach_cookie qn) s K.
Proof.
  intros V Hvol Hok Hd HK. apply runs_bind. eapply runs_eq; [reflexivity|]. set (c := next_cookie s). set (s1 := upd_cookies _ _ s).
  apply runs_bind. eapply runs_LOCK; [by eapply (view_env _ s)|done|]. intros s2 V2 E2.
  assert (cookies s2 = {[c := mkWc None (Some qn) 0 O_RDONLY S_IFQUERY None]}) as Ec.
  { rewrite (f_equal cookies E2 : cookies s2 = cookies s1). cbn. by rewrite (vo_cookies _ _ Hvol). }
  apply runs_bind. eapply (runs_on_opened closed (opened qn c) s2); [done|done| | | |].
  - unfold sll_insert_head, slist_insert_head, store_next, deref. rewrite Ec, lookup_singleton_eq. cbn. by rewrite insert_singleton_eq.
  - unfold opened. by rewrite decide_True.
  - intros b Hb. unfold opened. by rewrite decide_False.
  - intros s3 V3 E3. apply runs_bind. eapply runs_UNLOCK; [done|done|]. intros s4 V4 E4.
    apply runs_bind. eapply (runs_change _ s4 _ _ _ _ _ _ _ completed); [done|done| |].
    { intros x. destruct (completed_harmless x) as (? & ? & ? & ? & ? & ? & ? & _). done. }
    intros s5 V5 E5. rewrite <- (mark_insert t qn completed d Hd) in V5. apply runs_ret, (HK c s5). split.
    + by exists L.
    + apply volume_nodes; [by rewrite <- size_dom, dom_alter_L, size_dom|].
      eapply (volume_env (upd_cookies ∅ 0 s)); [|by apply volume_cookies]. rewrite !env_cookies, E5, E4, E3.
      transitivity (upd_cookies ∅ 0 (env s2)); [done|]. by rewrite E2.
    + rewrite (f_equal cookies E5 : cookies s5 = cookies s4), (f_equal cookies E4 : cookies s4 = cookies s3), (f_equal cookies E3 : cookies s3 = _). done.
    + apply tree_ok_mark; [apply completed_harmless|done].
Qed.

(** Marks on the folder do not change what it shows. *)
Lemma folder_completed t qn q kids : folder (tr_nodes t) qn q kids → folder (tr_nodes (mark qn completed t)) qn q kids.
Proof. intros (d & req & Hd & ?). eexists _, req. cbn. by rewrite lookup_alter_eq, Hd. Qed.

Lemma shows_completed t qn q a r : shows (tr_nodes t) q a r → shows (tr_nodes (mark qn completed t)) q a r.
Proof.
  apply shows_same. intros k Hk. cbn. destruct (decide (qn = a)) as [<-|].
  - rewrite lookup_alter_eq, Hk. by eexists.
  - rewrite lookup_alter_ne by done. by exists k.
Qed.

(** A node of a query that was just created. *)
Lemma query_name_ok q : no_nul q → no_nul (query_name q) ∧ zlen (query_name q) ≤ 69.
Proof.
  intros Hq. unfold query_name. split.
  - apply Forall_forall. intros c [_ Hc]%list_elem_of_filter. apply elem_of_take in Hc as (i & Hc & _).
    by apply (Forall_lookup_1 _ _ _ _ Hq Hc).
  - pose proof (length_filter (λ c, c ≠ 47) (take (Z.to_nat (WEBSEARCHFS_NAME_LEN - 1)) q)) as Hl.
    rewrite length_take in Hl. unfold WEBSEARCHFS_NAME_LEN in *. lia.
Qed.

Lemma runs_new_query s t q ls (K : Z + Z → web_ns W → Prop) :
  rep s t → answers q ls → (∀ v w, (wk_get_vnode v w).1 = B_OK) → tr_next t + zlen ls < 1248 →
  (∀ s' t' qn c kids, querying s' t' qn c 0 → folder (tr_nodes t') qn q kids →
     Forall2 (shows (tr_nodes t') q) kids (results_of 0 ls) → K (inr c) s') →
  runs (new_query uninit folders_attrs bookmark_attrs settings q) s K.
Proof.
  intros HR Ha Hget Hnx HK. pose proof HR as [_ Hvol Hok]. destruct (to_top _ Hok) as (d & Hd & _ & Hdir).
  assert (no_nul q) as Hq by (eapply Forall_impl; [apply Ha|]; cbn; lia). destruct (query_name_ok q Hq) as [Hqn Hql].
  destruct (spec_create_uniq t _ d (query_name q) 0 0x1ed folders_attrs true Hok Hd Hdir Hql) as (nm & Esp & _).
  unfold new_query. apply runs_bind, runs_getS. rewrite (vo_top _ _ Hvol).
  apply runs_bind. eapply (runs_create_gen Hmem); [done|exact Hd|done|lia|]. rewrite Esp. cbn [fst snd]. intros s1 HR1.
  set (t1 := enter _ _ _ _ _ _ _) in HR1. set (qn := tr_addr t).
  assert (∃ k, tr_nodes t1 !! qn = Some k ∧ S_ISDIR (st_mode (wn_st (t_node k))) = true ∧ t_kids k = [] ∧ tr_next t1 = tr_next t + 1)
    as (k & Hk & Hkd & Hkk & Hx1).
  { unfold t1, enter. destruct (wk_time (tr_world t)). eexists. cbn. by rewrite lookup_insert_eq. }
  pose proof HR1 as [(L & V1 & _) _ _]. apply runs_bind. eapply runs_get; [done|exact Hk|]. intros n Hn Eb.
  apply runs_bind. eapply runs_world; [done|]. intros s2 w HR2. rewrite Hget. cbn [Z.eqb B_OK negb].
  apply runs_bind. apply runs_bind, (runs_alloc Hmem). cbn [negb]. apply runs_bind, (runs_alloc Hmem). apply runs_bind.
  eapply runs_mark; [exact HR2|cbn; rewrite Hk; by eexists|apply request_harmless|]. intros s3 HR3. set (t3 := mark _ _ _) in HR3.
  apply runs_ret. cbn [Z.eqb B_OK negb]. apply runs_bind.
  eapply (runs_process s3 t3 qn q ls (mkT (set_request (Some (mkReq (Some q) false 0)) (t_node k)) (t_kids k))); [done| |done|done|done|done| |].
  { unfold t3, mark. cbn. by rewrite lookup_alter_eq, Hk. }
  { change (tr_next t3) with (tr_next t1). lia. }
  intros s4 t4 kids HR4 Hf4 Hs4. cbn [Z.eqb B_OK negb]. pose proof HR4 as [(L4 & V4 & HL4) Hvol4 Hok4].
  pose proof Hf4 as (d4 & req & Hd4 & _).
  apply runs_bind, runs_bind, runs_getS. rewrite (vo_lock _ _ Hvol4). apply runs_bind, runs_modifyS, runs_ret, runs_bind.
  eapply (runs_queries_insert closed); [by eapply (view_env _ s4)|done|]. intros s5 V5 E5. apply runs_bind, runs_modifyS.
  eapply (runs_attach _ t4 L4); [by eapply (view_env _ s5)| |done|exact Hd4|].
  { eapply (volume_env s4); [|done]. transitivity (upd_lock false (env s5)); [done|]. rewrite E5.
    transitivity (upd_lock false (env s4)); [done|]. apply upd_lock_id. exact (vo_lock _ _ Hvol4). }
  intros c s6 HQ. eapply HK; [done|by apply folder_completed|].
  eapply Forall2_impl; [exact Hs4|]. intros. by apply shows_completed.
Qed.

Lemma runs_open_query s t x q ls (K : Z + Z → web_ns W → Prop) :
  rep s t → no_nul x → zlen (GetByNamePredicate x) < 2 ^ 31 → search_words x = Some q → answers q ls →
  (∀ v w, (wk_get_vnode v w).1 = B_OK) → tr_next t + zlen ls < 1248 →
  (∀ s' t' qn c kids, querying s' t' qn c 0 → folder (tr_nodes t') qn q kids →
     Forall2 (shows (tr_nodes t') q) kids (results_of 0 ls) → K (inr c) s') →
  runs (websearchfs_open_query uninit folders_attrs bookmark_attrs settings (Some (GetByNamePredicate x))) s K.
Proof.
  intros HR Hn Hl Hq Ha Hget Hnx HK. pose proof HR as [(L & V & _) Hvol _].
  apply runs_bind, (runs_alloc Hmem). cbn [negb].
  apply runs_bind. eapply runs_eq; [by apply (query_text_run uninit x s (plenty s))|]. rewrite Hq.
  apply runs_bind, runs_bind, runs_getS. rewrite (vo_lock _ _ Hvol). apply runs_bind, runs_modifyS, runs_ret.
  apply runs_bind, runs_getS. cbn [queries upd_lock].
  assert (queries s = None) as -> by (pose proof (vw_queries _ _ _ _ _ _ V) as Hqs; by inversion Hqs).
  apply runs_bind, runs_ret, runs_bind, runs_modifyS.
  assert (upd_lock false (upd_lock true s) = s) as -> by exact (upd_lock_id s false (vo_lock _ _ Hvol)).
  by eapply runs_new_query.
Qed.

(** * Reading the query *)

(** What is read of the query [qn]. *)
Definition query_entry t (qn : Z) (b : Z) : dirent :=
  mk_entry (tr_dev t) (vnid_at (tr_nodes t) (Some b) 0) (vnid_at (tr_nodes t) (Some qn) 0)
    (default [] (wn_name ∘ t_node <$> tr_nodes t !! b)).

Lemma runs_read_query s t qn c d i (K : Z + option dirent → web_ns W → Prop) :
  querying s t qn c i → tr_nodes t !! qn = Some d → 0 ≤ i < 2 ^ 31 - 1 →
  (∀ b s', t_kids d !! Z.to_nat i = Some b → querying s' t qn c (i + 1) → K (inr (Some (query_entry t qn b))) s') →
  (∀ s', t_kids d !! Z.to_nat i = None → querying s' t qn c i → K (inr None) s') →
  runs (websearchfs_read_query c 1024 1) s K.
Proof.
  intros [(L & V) Hvol Hck Hok] Hd Hi HS HN. apply runs_bind.
  eapply runs_eq; [unfold get_cookie; by rewrite Hck, lookup_singleton_eq|]. cbn [Z.eqb orb wc_node wc_dir_current].
  change (1024 <? SIZEOF_DIRENT + WEBSEARCHFS_NAME_LEN) with false. cbv iota.
  apply runs_bind. eapply runs_LOCK; [done|done|]. intros s1 V1 E1. apply runs_bind. eapply runs_get; [done|done|].
  intros n Hn Eb. pose proof (f_equal cookies E1 : cookies s1 = cookies s) as Ec1. rewrite Hck in Ec1.
  assert (volume (upd_cookies ∅ 0 s1) t) as Hvol1.
  { eapply volume_env; [|exact Hvol]. rewrite !env_cookies. by rewrite E1. }
  apply runs_bind, runs_getS. rewrite (vo_dev _ _ Hvol1 : nsid s1 = _). apply runs_bind.
  pose proof (vw_kids _ _ _ _ _ _ V1 _ _ _ Hn Hd) as Hc.
  eapply runs_nth_child; [done|exact Hc|pose proof (chain_fuel _ _ _ Hc); lia|lia|]. apply runs_bind.
  destruct (t_kids d !! Z.to_nat i) as [b|] eqn:Eb2.
  - destruct (to_kids _ Hok _ _ b Hd) as (k & Hk & _); [by eapply list_elem_of_lookup_2|].
    apply runs_bind. eapply runs_get; [done|exact Hk|]. intros x Hx Ex. apply runs_bind.
    apply runs_set_current; rewrite Ec1; [rewrite lookup_singleton_eq; by eexists|].
    intros kc. rewrite lookup_singleton_eq. intros [= <-]. apply runs_ret, runs_bind. set (s2 := upd_cookies _ _ s1).
    eapply runs_UNLOCK; [by eapply (view_env _ s1)|done|]. intros s3 V3 E3. apply runs_ret.
    replace (mk_entry _ _ _ _) with (query_entry t qn b).
    2:{ unfold query_entry, vnid_at. cbn. rewrite Hk, Hd. cbn. by rewrite <- Ex, <- Eb. }
    apply HS; [done|]. split; [by exists L| | |done].
    + eapply volume_env; [|exact Hvol1]. rewrite env_cookies, E3. done.
    + rewrite (f_equal cookies E3 : cookies s3 = cookies s2). cbn. rewrite s32_id by (unfold is_s32; lia). apply insert_singleton_eq.
  - apply runs_ret, runs_bind. eapply runs_UNLOCK; [done|done|]. intros s2 V2 E2. apply runs_ret, HN; [done|].
    split; [by exists L| | |done].
    + eapply volume_env; [|exact Hvol1]. by rewrite env_cookies, E2.
    + by rewrite (f_equal cookies E2 : cookies s2 = cookies s1).
Qed.

(** Entries until there are none. *)
Fixpoint query_entries (fuel : nat) (c : Z) : M (web_ns W) (list dirent) :=
  match fuel with
  | O => hangM
  | S fuel =>
      r ← websearchfs_read_query c 1024 1;
      match r with
      | inr (Some e) => es ← query_entries fuel c; mret (e :: es)
      | _ => mret []
      end
  end.

Lemma runs_query_entries t qn c d : ∀ fuel i s (K : list dirent → web_ns W → Prop),
  querying s t qn c (Z.of_nat i) → tr_nodes t !! qn = Some d → zlen (t_kids d) < 2 ^ 31 - 1 →
  (i ≤ length (t_kids d))%nat → (length (t_kids d) < i + fuel)%nat →
  (∀ s' j, querying s' t qn c j → K (query_entry t qn <$> drop i (t_kids d)) s') →
  runs (query_entries fuel c) s K.
Proof.
  induction fuel as [|fuel IH]; intros i s K HQ Hd Hlen Hi Hf HK; [lia|].
  cbn [query_entries]. apply runs_bind. eapply runs_read_query; [done|done|lia| |]; rewrite Nat2Z.id.
  - intros b s' Hb HQ'. apply runs_bind. pose proof (lookup_lt_Some _ _ _ Hb).
    eapply (IH (S i)); [by rewrite Nat2Z.inj_succ, <- Z.add_1_r|done|done|lia|lia|].
    intros s2 j HQ2. apply runs_ret. rewrite (drop_S _ _ _ Hb) in HK. by eapply HK.
  - intros s' Hb HQ'. apply runs_ret. rewrite drop_ge in HK by (by apply lookup_ge_None_1). by eapply HK.
Qed.

End Find.

(** * A search for "Haiku" *)

Module Sample.
#[local] Program Instance log_allocator : Allocator (list web_note) :=
  {| alloc_next := λ w, (true, w); alloc_plenty := λ _, True |}.
Next Obligation. done. Qed.
#[local] Instance log_kernel : WebKernel (list web_note) := {|
  wk_time := λ w, (7, w); wk_get_vnode := λ _ w, (B_OK, w); wk_put_vnode := λ _ w, (B_OK, w);
  wk_remove_vnode := λ _ w, (B_OK, w); wk_publish_vnode := λ _ _ _ w, (B_OK, w); wk_notify := λ n w, n :: w |}.

Definition settings : web_settings := mkSettings 5000 50 false.
Definition words : list Z := bytes_of "Haiku".
Definition url : list Z := bytes_of "https://html.duckduckgo.com/html/?kd=-1&num=50&q=haiku".

(** A server with one page. *)
#[local] Instance one_page : WebNet (list web_note) :=
  {| wn_fetch := λ u w, (if bool_decide (u = url) then Some (Some (sample_front ++ links_html sample_links)) else None, w) |}.

Definition before : web_ns (list web_note) := mkNs 0 0 None None None None 0 false ∅ ∅ 100 0 0 [].

Lemma page_answers : answers settings (to_lower <$> words) sample_links.
Proof.
  split; [..|exact sample_links_ok].
  - apply (bool_decide_unpack _). vm_compute. exact I.
  - apply (bool_decide_unpack _). vm_compute. exact I.
  - exists sample_front, (bytes_of "<body>"). split_and!; [|by vm_compute|eexists; by vm_compute|by vm_compute..].
    intros w. cbn [wn_fetch one_page fst]. rewrite bool_decide_true; [done|]. vm_compute. done.
Qed.

End Sample.
